(* ===== verification/_CoqProject ===== *)
-Q . S2P
Prelude.v
Util.v
Json.v
Grisu.v
JsonText.v
JsonUtf8.v
JsonSafe.v
JsonRound.v
Types.v
Script.v
Renderer.v
RendererProofs.v
RenderProofs.v
RenderMain.v
AgentConfig.v
AgentProofs.v
Auth.v
ProxyClock.v
ProxyRegistry.v
ProxyUri.v
ProxyUriProofs.v
ProxyImport.v
ProxyYaml.v
ProxyImportProofs.v
DateTime.v
Sqlite.v
SqliteProofs.v
AuthSecurity.v
AuthPolicy.v
AuthSessions.v
AuthCodes.v
AuthGuess.v
AuthLogin.v
ProxyTables.v
ProxyUsers.v
ProxyLease.v
ProxyQuota.v
ProxyLeaseProofs.v
ProxySystem.v
ProxyReplay.v
ProxyFence.v
PrefSync.v
Tailscale.v
Wireguard.v
System.v
StoreTables.v
StoreAccounts.v
StoreHosts.v
StoreNodes.v
StoreBackup.v
StoreCalls.v
WgText.v
WgHub.v
StoreEnroll.v
StoreInvariants.v
StoreRenderProofs.v
StorePeersProofs.v
WgHubProofs.v
WgFirewall.v
StoreNodesProofs.v
Observability.v
HttpText.v
HttpClient.v
AgentClient.v
Supervisor.v
AgentClash.v
AgentMain.v
Subscriptions.v
HttpTelemetry.v
HttpRoutes.v
HttpWire.v
HttpPanel.v
HttpSecurity.v
HttpServer.v
HttpSurface.v
HttpAdmin.v
HttpProxy.v
HttpHosts.v
HttpServices.v
HttpMain.v
