(* ===== verification/Prelude.v ===== *)
(** * sb-easy: a verification development of the C control plane and agent

    sb-easy distributes sing-box configurations.  A server keeps proxy nodes,
    profiles and hosts in SQLite; for every host it renders a configuration from
    a profile template, the host's nodes and a user-written rule script.  An agent
    on the host polls for that configuration, adapts it to the node, starts
    sing-box with it and serves a local UI.  Nodes come from share links and
    subscriptions.  Proxy users have traffic quotas, granted as leases.  The server
    is also the hub of a WireGuard network.  Administrators log in with passwords and
    verification codes and may be limited to groups of devices.  The sources are
    [c/src/*.c] and [c/include/sb/*.h] under [src/].

    ** How the parts interact

    Everything is JSON: templates, nodes, rendered configurations, settings and
    session tokens are [sbj] values ([json.c]) built on the helpers of [util.c].
    The renderer ([config_renderer.c]) calls the script engine
    ([script_engine.c]) and returns a value whose text is hashed into an ETag
    ([config_etag.c]); the agent parses the text and edits it
    ([agent_config.c]).  The importer ([proxy_parser.c]) turns untrusted text
    into nodes ([types.c]).  Sessions ([auth.c]) are JSON tokens with an HMAC,
    recorded in tables so that they can be ended ([auth_security.c]).  The lease
    fences ([proxy_clock.c]) keep leases from before a reset from overlapping with
    leases granted after it ([proxy_users.c]).  The repository ([store.c]) keeps
    accounts, peers, hosts, profiles, nodes and subscriptions; it collects the render
    request of a host, to which Tailscale networks ([tailscale.c]) are added.  The hub
    ([wireguard.c]) turns peers and hosts into configurations, files and commands.
    The HTTP server ([http_server.c]) checks the session and the scope of a caller
    before it runs the handler of a route ([http_routes_*.c]), which calls the other
    parts; monitoring ([observability.c]) keeps what devices report.  Subscriptions
    are downloaded over libcurl ([http_client.c], [subscription_fetcher.c],
    [subscription_service.c]), and the Clash API of a device is reached the same way
    ([clash_client.c]).  The agent ([agent_main.c]) enrolls, polls and reports
    ([agent_client.c]), installs what it gets and keeps sing-box running
    ([singbox_supervisor_child.c]), and reads its statistics from the Clash API of
    the device ([agent_clash.c]).

    ** Files

    - [Prelude]: bytes, C strings, machine integers, tactics and hint databases,
      lemmas shared by all files.
    - [Util]: [util.c], its errors, strings, buffers and encodings.
      [DateTime]: its time section.
    - [Json]: the value type of [json.c] and its array and object operations.
      [Grisu]: [json_grisu.inc].  [JsonText]: serialiser, parser and UTF-8
      validators.  Theorems on them are in [JsonUtf8] (the validators agree),
      [JsonSafe] (the parser) and [JsonRound] (parsing what was serialised).
    - [Types]: [types.c].  [Script]: [script_engine.c].
    - [Renderer]: [config_renderer.c]; [RendererProofs] and [RenderProofs] prove
      its stages, [RenderMain] the whole of [sb_config_renderer_render].
    - [AgentConfig]: [agent_config.c]; [AgentProofs] on the transform and the
      settings file.
    - [Auth]: [auth.c] and [config_etag.c].
    - [ProxyClock]: the clock object of [proxy_clock.c]; [ProxyRegistry]: the
      registry that shares clocks between connections.
    - [ProxyUri]: [proxy_parser.c] up to [sb_parse_proxy_uri]; [ProxyUriProofs].
      [ProxyImport]: the same file from [yaml_to_json] on; [ProxyYaml] and
      [ProxyImportProofs].
    - [Sqlite]: [sqlite_internal.h], statements and transactions as programs over
      tables; [SqliteProofs]: what a program does to every row, and what holds
      whenever it runs.
    - [ProxyTables], [ProxyUsers], [ProxyLease]: [proxy_users.c]; [ProxyQuota],
      [ProxyLeaseProofs], [ProxySystem] (all calls in any order), [ProxyReplay]
      (repeated exchanges) and [ProxyFence] (with the clocks) prove it correct.
    - [AuthSecurity]: [auth_security.c]; [AuthPolicy]: [auth_device_policy.c];
      [AuthSessions], [AuthCodes], [AuthGuess] and [AuthLogin] on them.
    - [PrefSync]: [preferences_sync.c].  [Tailscale]: [tailscale.c].  [Wireguard]:
      the keys of [wireguard.c] and [wg_migration.c].
    - [System]: system calls on files, commands, and the atomic replacement of a
      file ([atomic_file.c]).
    - [StoreTables] (rows, records, JSON forms), [StoreAccounts] (with the peers),
      [StoreHosts], [StoreNodes] (with the render request of a host),
      [StoreBackup]: [store.c].  [StoreCalls]: its calls as a transition system on
      the tables, and a small repository for witnesses; [StoreEnroll],
      [StoreInvariants], [StoreRenderProofs], [StorePeersProofs] and
      [StoreNodesProofs] (with the backups) prove it correct.
    - [WgText], [WgHub]: the rest of [wireguard.c]; [WgHubProofs] and [WgFirewall]
      (with the peers of hosts) on it.
    - [Observability]: [observability.c].
    - [HttpClient]: [http_client.c], [clash_client.c], [subscription_fetcher.c];
      [Subscriptions]: [subscription_service.c].
    - [AgentClient]: [agent_client.c].  [Supervisor]: [singbox_supervisor_child.c].
      [AgentClash]: [agent_clash.c].  [AgentMain]: [agent_main.c], the program of the
      agent over the other three.
    - [HttpText], [HttpTelemetry], [HttpRoutes], [HttpWire], [HttpServer]:
      [http_server.c] from texts and routing to the bytes of an answer.
      [HttpPanel]: the states of all components as the state of one server.
      [HttpSecurity], [HttpAdmin], [HttpProxy], [HttpHosts], [HttpServices]: the
      handlers of [http_routes_*.c].  [HttpSurface]: who reaches which handler.
      [HttpMain]: the handlers by name, and a small panel on which the theorems are
      applied.

    ** How the code is modelled

    Definitions keep the names of the C functions.  A [char *] is a list of
    [ascii], [cstr] cuts it at its first NUL where the code uses it as a C string,
    and [None] is [NULL].  A function that fails through [sb_err] returns
    [result] ([Ok] or [Err] with code and message); an out-parameter is a
    component of the result.  Integers are [Z] with their conversions written out
    ([to_u32], [to_i64] and so on), doubles are binary64 numbers ([SpecFloat]).  The C code edits [sbj] trees in place and owns every child once, so
    an edit of a child is storing the edited child back.  Memory release and
    exhausted memory (the program aborts) are not modelled.

    Calls that use the database are programs ([sql]) over a record of tables, one
    list of rows for each table of the migrations.  A statement is the function on
    the tables that its SQL text means; each statement, [BEGIN] and [COMMIT]
    included, may fail with any message.  A failed transaction restores the tables
    but not the process memory.  Answers from outside (failures, clock readings,
    random bytes) are numbered, so theorems quantify over every sequence of them.
    Calls hold the database lock, so a history is a sequence of whole calls.  Inside
    one HTTP request the model lets nothing happen between the calls it makes.
    System calls and commands work on a [system]: files, what is on disk, and an
    abstract kernel.  The calls on processes and the monotonic clock, which never
    goes back, work on the [world] of the supervisor.  The agent is the build that
    runs sing-box as a process; a callback of its local interface runs between the
    steps of a cycle.

    Code of others is a parameter: QuickJS ([quickjs], a record of operations),
    libcurl ([client_env]), HMAC, SHA-256, Argon2, AES-GCM, X25519,
    [EVP_DecodeBlock], [inet_pton], the URL parser of libcurl, the QR encoder, the
    commands of the network, the date and JSON functions of SQLite, the readings of
    the clock.  Where a theorem needs documented behaviour of such code it is a named
    hypothesis or a class (the length of an HMAC, [block_decoder], [Firewall] for the
    effects of iptables, not for its success) with an instance that satisfies it.
    Conversions of doubles beyond the
    range of an integer are those of x86-64.

    ** Bounds and fuel

    Loops that are not structural take fuel, and the fuel the definitions hand out
    is shown to be enough.  The parser gets [parse_fuel], twice the length of the
    text and two more ([sbj_parse_total_safe] excludes [PFuel]); the string loop
    the length of the rest and one more; the bisection [obj_find] one more than
    the number of members (it is exact on sorted members, [obj_find_spec]); buffer
    growth by doubling and decimal digits the logarithm of their argument
    ([double_until_enough], [dec_from_numeral]); the search for a free selector
    tag one more candidate than there are outbounds ([selector_tag_fresh]), and
    likewise for the tags of Tailscale networks ([free_tag_fresh]) and the names of
    imported nodes, one more than there are nodes ([display_name_found]), and the tag
    of the network in the configuration of a device ([network_tag_free]).  The packets
    of a capture get the length of the file ([captures_well_formed]); the redirects of
    a download are counted down from the limit of the code ([fetch_bounded]).  The
    rounds of ten milliseconds that wait for a child to end are as many as the time
    limit has room for ([stop_loop_terminates]).
    [yaml_to_json] recurses on the room left below [YAML_CONVERT_DEPTH], the limit
    of the code itself, so its stop is behaviour of the code and not lack of fuel.

    ** What the theorems show

    - JSON ([Json], [JsonUtf8], [JsonSafe], [JsonRound]): objects
      implement finite maps; operations keep values well formed; the parser ends
      on every text, accepts only well-formed UTF-8 values of bounded depth, and
      parses back what the serialiser writes.
    - Rendering ([Script], [RendererProofs], [RenderMain]): whatever a template, a
      script or the interpreter does, a rendered configuration is well formed,
      starts with the protected rules and has no dashboard keys; the rules of a
      script name known outbounds only; groups and detours of managed profiles
      resolve.
    - Agent ([AgentConfig], [AgentProofs]): redaction hides every credential under
      keys without NUL; the transform puts local rules first, removes the
      management detour, and its edit counter is honest; settings survive a
      restart.
    - Sessions ([Auth]): a token round-trips until it expires, and every accepted
      token carries the HMAC of its header and payload.
    - Fences ([ProxyClock], [ProxyRegistry]): no user passes a fence before its
      time in any sequence of operations, restarts included; fences expire;
      connections to a database share its clock in every interleaving.
    - Leases ([ProxySystem], [ProxyReplay], [ProxyFence]): whatever calls are made
      in whatever order and with whatever failures, the grants of a period stay
      within the quota; failed calls change nothing; an answer of the exchange is new
      and recorded, or the one recorded for the same request; repeating an exchange
      repeats its answer; after a reset no lease is granted while an old one may run.
    - Accounts ([AuthSessions], [AuthCodes], [AuthGuess], [AuthLogin], [HttpMain]):
      ended sessions are never accepted again; an administrator remains whatever calls
      of the account service and of the repository are mixed; a code works once and
      wrong guesses are limited; no account with codes logs in without one; access to
      devices is what the scope says.
    - Preferences ([PrefSync]): no write is lost, storage is bounded, documents
      read back.
    - Networks ([Tailscale], [Wireguard]): updates merge valid settings, keys are not
      published, rendering only adds; an imported WireGuard network has distinct
      addresses and keys that belong together.
    - Files ([System]): a file that is replaced holds its old or its new bytes after
      a power loss at any moment.
    - Hub ([WgHubProofs], [WgFirewall]): the hub serves exactly the peers that are
      enabled, not expired and within their quota by what [wg show] printed; a host
      keeps its peer and its keys; where the commands of iptables succeed, the rules of
      the firewall are there while the hub runs and gone after it stops.
    - Monitoring ([Observability]): the traffic counted is what the counters of a
      device went up; the open alerts are those whose condition holds.
    - Downloads ([HttpClient], [Subscriptions]): a download ends within its limits,
      with checked certificates and without credentials in its URLs; a failed refresh
      keeps the nodes, and a sweep leaves nothing due.
    - The program of the agent ([AgentClient], [Supervisor], [AgentClash],
      [AgentMain]): its token goes to its panel only; there is one child at most,
      stopping leaves none, and one that ends is started again after its pause; the
      configuration file has the old or the new text whatever fails, and the entity
      tag moves with an installed configuration only; a cycle carries out
      every request of the local interface or notes why it could not; a stored credential is read back;
      connections are counted once and the statistics are bounded.
    - HTTP ([HttpRoutes], [HttpSurface], [HttpTelemetry], [HttpText], [HttpHosts],
      [HttpProxy], [HttpServices]): the handler of a route is reached only by callers
      who may; users who are not administrators reach no Clash API but those of their
      devices; telemetry has a normal form, the log keeps its last lines, ranges stay
      within the file, captures are well-formed, revisions read back.
    - Repository ([StoreEnroll] and the other [Store] files with proofs): an
      enrollment code works once; the profiles of hosts stay, and what a host can store is bounded, in every history of calls; a
      refresh stores what was fetched and touches nothing else; backups restore; new
      peers get free addresses; the request of a host renders with the guarantees of
      the renderer.
    - Imports ([ProxyUriProofs], [ProxyYaml], [ProxyImportProofs]): links
      round-trip; nodes are complete and carry their credentials; nodes of a
      subscription name no local file; conversion of YAML is bounded on cyclic
      graphs and exact within the limits; nothing is dropped without a diagnostic.
    - Encodings and dates ([Util], [DateTime]): base64 and URL round trips,
      canonical strict decoding, buffer bounds, dates.

    Some theorems record defects: [redact_misses_nul_key], [node_tags_collide],
    [restored_node_without_port], [same_name_taken_over], [renamed_taken_over],
    [append_failure_ignored], [uncounted_guess], [alerts_of_other_devices] and
    [long_url_hides_timeout]; [datetime_accepts_junk] shows texts the date parser
    takes beyond its documented forms.

    ** What is not modelled

    The YAML loader of [proxy_parser.c] (text rewriting around libyaml; its result,
    a graph of nodes, is universally quantified); [database.c] and the migrations
    beyond the tables they leave; [auth_oidc.c] and the five handlers that call it
    (discovery and signatures over HTTP); the start and stop of the servers and of
    the threads that sweep subscriptions, evaluate alerts and keep sing-box running;
    WebSockets ([clash_websocket.c]); the server of the agent's local interface
    ([agent_ui.c]; the callbacks it calls are modelled), its endless loop of cycles
    and waits, and the embedded engine ([singbox_supervisor_embedded.c],
    [proxy_runtime.c]); the clients in other languages.  A [COMMIT] that fails for a sample that is too old leaves its
    transaction open in the code, here it ends.  That the digits of [Grisu] read back
    is not proved in general: it is the decidable side condition [floats_ok] of the
    theorems that need it. *)

From stdpp Require Export base list strings gmap.
From Stdlib Require Export Ascii ZArith Lia Bool.

#[global] Open Scope Z_scope.

(** ** Bytes

    A C [char] buffer with an explicit length is a [list ascii]; [bs] writes a
    literal.  [code] reads a byte as an unsigned value, [chr] is the cast of an
    integer to [char]. *)

Abbreviation bytes := (list ascii).

Definition bs (s : string) : bytes := String.list_ascii_of_string s.

Definition code (c : ascii) : Z := Z.of_N (N_of_ascii c).
Definition chr (z : Z) : ascii := ascii_of_N (Z.to_N (z mod 256)).

(** What C functions that stop at a terminator see of a byte buffer. *)
Fixpoint cstr (s : bytes) : bytes :=
  match s with
  | [] => []
  | c :: s' => if code c =? 0 then [] else c :: cstr s'
  end.

Definition bytes_eqb (a b : bytes) : bool := bool_decide (a = b).

(** ** Fixed-width integers *)

Definition INT64_MAX : Z := 2 ^ 63 - 1.
Definition INT64_MIN : Z := - 2 ^ 63.
Definition UINT64_MAX : Z := 2 ^ 64 - 1.

Definition to_u64 (z : Z) : Z := z mod 2 ^ 64.
Definition to_u32 (z : Z) : Z := z mod 2 ^ 32.
Definition to_i64 (z : Z) : Z := (z + 2 ^ 63) mod 2 ^ 64 - 2 ^ 63.
Definition to_i32 (z : Z) : Z := (z + 2 ^ 31) mod 2 ^ 32 - 2 ^ 31.

Definition in_range (lo hi z : Z) : bool := (lo <=? z) && (z <=? hi).

(** ** Notation and automation *)

Create HintDb sb discriminated.

(** Splits boolean guards of the C code into arithmetic facts. *)
Ltac bool_facts :=
  repeat match goal with
  | H : (_ && _) = true |- _ => apply andb_true_iff in H as [? ?]
  | H : (_ || _) = false |- _ => apply orb_false_iff in H as [? ?]
  | H : negb _ = true |- _ => apply negb_true_iff in H
  | H : negb _ = false |- _ => apply negb_false_iff in H
  | H : (_ =? _) = true |- _ => apply Z.eqb_eq in H
  | H : (_ =? _) = false |- _ => apply Z.eqb_neq in H
  | H : (_ <=? _) = true |- _ => apply Z.leb_le in H
  | H : (_ <=? _) = false |- _ => apply Z.leb_gt in H
  | H : (_ <? _) = true |- _ => apply Z.ltb_lt in H
  | H : (_ <? _) = false |- _ => apply Z.ltb_ge in H
  | H : bool_decide _ = true |- _ => apply bool_decide_eq_true in H
  | H : bool_decide _ = false |- _ => apply bool_decide_eq_false in H
  end.

(** Case analysis on the first conditional of the goal, with its facts. *)
Ltac case_if :=
  match goal with
  | |- context [if ?b then _ else _] => let E := fresh "E" in destruct b eqn:E; bool_facts
  end.

Ltac case_if_in H :=
  match type of H with
  | context [if ?b then _ else _] => let E := fresh "E" in destruct b eqn:E; bool_facts
  end.

(** Decides a comparison the arithmetic context settles. *)
Lemma ltb_true a b : a < b -> (a <? b) = true.
Proof. apply Z.ltb_lt. Qed.
Lemma ltb_false a b : b <= a -> (a <? b) = false.
Proof. apply Z.ltb_ge. Qed.
Lemma leb_true a b : a <= b -> (a <=? b) = true.
Proof. apply Z.leb_le. Qed.
Lemma leb_false a b : b < a -> (a <=? b) = false.
Proof. apply Z.leb_gt. Qed.
Lemma eqb_true a b : a = b -> (a =? b) = true.
Proof. apply Z.eqb_eq. Qed.
Lemma eqb_false a b : a <> b -> (a =? b) = false.
Proof. apply Z.eqb_neq. Qed.

Ltac decide_cmp :=
  repeat match goal with
  | |- context [?a <? ?b] =>
      first [rewrite (ltb_true a b) by lia | rewrite (ltb_false a b) by lia]
  | |- context [?a <=? ?b] =>
      first [rewrite (leb_true a b) by lia | rewrite (leb_false a b) by lia]
  | |- context [?a =? ?b] =>
      first [rewrite (eqb_true a b) by lia | rewrite (eqb_false a b) by lia]
  end.

(** ** Facts on bytes *)

Lemma code_range c : 0 <= code c < 256.
Proof. unfold code. pose proof (N_ascii_bounded c). lia. Qed.

Lemma chr_code c : chr (code c) = c.
Proof.
  unfold chr. rewrite Z.mod_small by apply code_range.
  unfold code. rewrite N2Z.id. apply ascii_N_embedding.
Qed.

Lemma chr_eq z c : z = code c -> chr z = c.
Proof. intros ->. apply chr_code. Qed.

Lemma code_chr_mod z : code (chr z) = z mod 256.
Proof.
  unfold code, chr. pose proof (Z.mod_pos_bound z 256 ltac:(lia)).
  rewrite N_ascii_embedding by lia. lia.
Qed.

Lemma code_chr z : 0 <= z < 256 -> code (chr z) = z.
Proof. intros. rewrite code_chr_mod. by apply Z.mod_small. Qed.

Lemma code_inj c d : code c = code d -> c = d.
Proof. intros H. by rewrite <- (chr_code c), <- (chr_code d), H. Qed.

Lemma chr_inj a b : 0 <= a < 256 -> 0 <= b < 256 -> chr a = chr b -> a = b.
Proof. intros Ha Hb H. rewrite <- (code_chr a), <- (code_chr b) by done. by rewrite H. Qed.

Definition all_bytes : bytes := (fun n => chr (Z.of_nat n)) <$> seq 0 256.

(** A boolean fact about single bytes holds when evaluation confirms it on all
    256 of them. *)
Lemma byte_forallb (f : ascii -> bool) : forallb f all_bytes = true -> forall c, f c = true.
Proof.
  intros H c. rewrite forallb_forall in H. apply H.
  rewrite <- (chr_code c). unfold all_bytes.
  apply list_elem_of_In, list_elem_of_fmap. exists (Z.to_nat (code c)).
  pose proof (code_range c). split; [f_equal; lia|]. apply elem_of_seq. lia.
Qed.

Lemma bytes_eqb_eq a b : bytes_eqb a b = true <-> a = b.
Proof. apply bool_decide_eq_true. Qed.
Lemma bytes_eqb_neq a b : bytes_eqb a b = false <-> a <> b.
Proof. apply bool_decide_eq_false. Qed.
Lemma bytes_eqb_refl a : bytes_eqb a a = true.
Proof. by apply bytes_eqb_eq. Qed.

(** Strings without a terminator inside are seen whole by C functions. *)
Definition no_nul (s : bytes) : bool := forallb (fun c => negb (code c =? 0)) s.

Lemma cstr_no_nul s : no_nul s = true -> cstr s = s.
Proof.
  induction s as [|c s IH]; simpl; [done|]. intros H. bool_facts.
  rewrite eqb_false by done. by rewrite IH.
Qed.

Lemma no_nul_cstr s : no_nul (cstr s) = true.
Proof.
  induction s as [|c s IH]; simpl; [done|].
  case_if; simpl; [done|]. rewrite eqb_false by done. done.
Qed.

Lemma cstr_idem s : cstr (cstr s) = cstr s.
Proof. apply cstr_no_nul, no_nul_cstr. Qed.

Lemma no_nul_app a b : no_nul (a ++ b) = no_nul a && no_nul b.
Proof. unfold no_nul. by rewrite forallb_app. Qed.

(** ** Facts on lists *)

Lemma lookup_middle {A} (l1 l2 : list A) x n : n = length l1 -> (l1 ++ x :: l2) !! n = Some x.
Proof. intros ->. by apply list_lookup_middle. Qed.

Lemma insert_middle {A} (l1 l2 : list A) x y n :
  n = length l1 -> <[n := y]> (l1 ++ x :: l2) = l1 ++ y :: l2.
Proof. intros ->. rewrite insert_app_r_alt by lia. by rewrite Nat.sub_diag. Qed.

Lemma take_drop_split {A} (l : list A) n x :
  l !! n = Some x -> l = take n l ++ x :: drop (S n) l.
Proof. intros H. symmetry. by apply take_drop_middle. Qed.

Lemma pair_inj {A B} (a a' : A) (b b' : B) : (a, b) = (a', b') -> a = a' /\ b = b'.
Proof. by intros [= -> ->]. Qed.

Lemma some_inj {A} (a b : A) : Some a = Some b -> a = b.
Proof. congruence. Qed.

Lemma omap_length_le {A B} (f : A -> option B) l : (length (omap f l) <= length l)%nat.
Proof. induction l as [|x l IH]; [done|]. simpl. destruct (f x); simpl; unfold omap in IH; lia. Qed.

Create Rewrite HintDb sb_len.
#[export] Hint Rewrite @length_app @length_cons @length_take @length_drop @length_fmap : sb_len.

(** ** Bit fields as arithmetic *)

Lemma lor_shiftl_add x v n : 0 <= n -> 0 <= v < 2 ^ n -> Z.lor (Z.shiftl x n) v = x * 2 ^ n + v.
Proof.
  intros Hn Hv. rewrite <- (Z.shiftl_mul_pow2 x n) by done.
  assert (Hd : Z.land (Z.shiftl x n) v = 0).
  { apply Z.bits_inj'. intros i Hi. rewrite Z.land_spec, Z.bits_0.
    destruct (Z.lt_ge_cases i n).
    - by rewrite Z.shiftl_spec_low.
    - rewrite <- (Z.mod_small v (2 ^ n)) by done.
      rewrite Z.mod_pow2_bits_high by lia. apply andb_false_r. }
  rewrite Z.add_nocarry_lxor by done. by rewrite Z.lxor_lor.
Qed.

Lemma land_63 x : Z.land x 63 = x mod 64.
Proof. apply (Z.land_ones x 6). lia. Qed.
Lemma land_255 x : Z.land x 255 = x mod 256.
Proof. apply (Z.land_ones x 8). lia. Qed.
Lemma land_15 x : Z.land x 15 = x mod 16.
Proof. apply (Z.land_ones x 4). lia. Qed.

(** [lia] with the defining equations of division and remainder. *)
Ltac lia_dm := Z.div_mod_to_equations; lia.
