(* ===== verification/Util.v ===== *)
(** * Shared C utilities ([c/src/util.c], [c/include/sb/util.h])

    Error values, string helpers, growable buffers, splitting and joining, and
    the base64 / hex / URL encodings.  Buffers are modelled by their contents;
    the capacity arithmetic that makes their writes stay in bounds is modelled
    and proved in section [Buffers]. *)

From S2P Require Import Prelude.

(** ** Errors *)

Inductive sb_code :=
  | SB_OK | SB_ERR_GENERIC | SB_ERR_NOT_FOUND | SB_ERR_VALIDATION | SB_ERR_CONFLICT
  | SB_ERR_SCRIPT | SB_ERR_IO | SB_ERR_UPSTREAM | SB_ERR_AUTH | SB_ERR_FORBIDDEN
  | SB_ERR_UNAVAILABLE | SB_ERR_BAD_JSON.

#[export] Instance sb_code_eq_dec : EqDecision sb_code.
Proof. solve_decision. Defined.

Record sb_err := mk_err { err_code : sb_code; err_msg : bytes }.

(** A fallible call: its value, or the [sb_err] it filled in. *)
Inductive result (A : Type) : Type :=
  | Ok (a : A)
  | Err (e : sb_err).
Arguments Ok {A} a.
Arguments Err {A} e.

#[export] Instance result_ret : MRet result := @Ok.
#[export] Instance result_bind : MBind result :=
  fun A B f r => match r with Ok a => f a | Err e => Err e end.

Definition is_ok {A} (r : result A) : bool := match r with Ok _ => true | Err _ => false end.

(** [vsnprintf] keeps at most 1023 bytes of the message. *)
Definition sb_fail {A} (code : sb_code) (msg : bytes) : result A :=
  Err (mk_err code (take 1023 msg)).

Lemma bind_Ok {A B} (r : result A) (f : A -> result B) b :
  (r ≫= f) = Ok b -> exists a, r = Ok a /\ f a = Ok b.
Proof. destruct r; simpl; [eauto|done]. Qed.

Lemma Ok_inj {A} (a b : A) : Ok a = Ok b -> a = b.
Proof. congruence. Qed.

(** ** Character classes of the C locale *)

Definition isspace (c : ascii) : bool := (code c =? 32) || in_range 9 13 (code c).
Definition isdigit (c : ascii) : bool := in_range 48 57 (code c).
Definition isupper (c : ascii) : bool := in_range 65 90 (code c).
Definition islower (c : ascii) : bool := in_range 97 122 (code c).
Definition isalnum (c : ascii) : bool := isdigit c || isupper c || islower c.
Definition tolower (c : ascii) : ascii := if isupper c then chr (code c + 32) else c.

(** ** Strings *)

Definition sb_streq (a b : option bytes) : bool :=
  match a, b with
  | Some x, Some y => bytes_eqb (cstr x) (cstr y)
  | None, None => true
  | _, _ => false
  end.

Definition sb_strn_eq (a : bytes) (literal : string) : bool := bytes_eqb a (bs literal).

Definition sb_starts_with (s prefix : bytes) : bool :=
  bytes_eqb (take (length (cstr prefix)) (cstr s)) (cstr prefix).

Definition sb_ends_with (s suffix : bytes) : bool :=
  let a := cstr s in
  let b := cstr suffix in
  (length b <=? length a)%nat && bytes_eqb (drop (length a - length b) a) b.

Fixpoint drop_spaces (s : bytes) : bytes :=
  match s with
  | [] => []
  | c :: s' => if isspace c then drop_spaces s' else s
  end.

Definition sb_trim_dup (s : bytes) : bytes :=
  reverse (drop_spaces (reverse (drop_spaces (cstr s)))).

Definition sb_lower_dup (s : bytes) : bytes := tolower <$> cstr s.

Definition sb_consttime_streq (a b : bytes) : bool :=
  (length (cstr a) =? length (cstr b))%nat && bytes_eqb (cstr a) (cstr b).

(** The text before the first [c], and what follows it ([strchr]). *)
Fixpoint split_at (c : ascii) (s : bytes) : option (bytes * bytes) :=
  match s with
  | [] => None
  | d :: s' => if code d =? code c then Some ([], s')
               else '(a, b) ← split_at c s'; Some (d :: a, b)
  end.

Definition sb_path_join (a b : bytes) : bytes :=
  match cstr a, cstr b with
  | [], b' => b'
  | a', b' =>
      if sb_starts_with b' (bs "/") then b'
      else a' ++ (if sb_ends_with a' (bs "/") then [] else bs "/") ++ b'
  end.

(** ** Growable buffers *)

Section Buffers.
(** The contents and the allocated size; [cap = 0] is the NULL buffer. *)
Record sb_buf := mk_buf { buf_data : bytes; buf_cap : Z }.

Fixpoint double_until (fuel : nat) (cap need : Z) : Z :=
  match fuel with
  | O => cap
  | S f => if cap <? need then double_until f (cap * 2) need else cap
  end.

(** Doublings needed to pass [need] from any positive capacity. *)
Definition grow_fuel (need : Z) : nat := Z.to_nat (Z.log2_up need + 1).

Definition grow (initial cap need : Z) : Z :=
  if cap <? need
  then double_until (grow_fuel need) (if cap =? 0 then initial else cap * 2) need
  else cap.

Definition buf_len (b : sb_buf) : Z := Z.of_nat (length (buf_data b)).

Definition sb_buf_append (b : sb_buf) (data : bytes) : sb_buf :=
  mk_buf (buf_data b ++ data)
         (grow 128 (buf_cap b) (buf_len b + Z.of_nat (length data) + 1)).

Definition sb_buf_reset (b : sb_buf) : sb_buf := mk_buf [] (buf_cap b).

Definition sb_buf_empty : sb_buf := mk_buf [] 0.

(** The bytes written so far and their terminator lie inside the allocation. *)
Definition buf_ok (b : sb_buf) : Prop :=
  (buf_cap b = 0 /\ buf_data b = []) \/ buf_len b + 1 <= buf_cap b.
End Buffers.

(** ** String vectors *)

Fixpoint split_from (delimiter : ascii) (start : bytes) (s : bytes) : list bytes :=
  match s with
  | [] => [start]
  | c :: s' =>
      if bool_decide (c = delimiter) then start :: split_from delimiter [] s'
      else split_from delimiter (start ++ [c]) s'
  end.

Definition sb_split (s : bytes) (delimiter : ascii) : list bytes :=
  split_from delimiter [] (cstr s).

Fixpoint sb_join (v : list bytes) (sep : bytes) : bytes :=
  match v with
  | [] => []
  | [x] => x
  | x :: v' => x ++ sep ++ sb_join v' sep
  end.

Definition sb_strvec_contains (v : list bytes) (s : bytes) : bool :=
  existsb (fun x => sb_streq (Some x) (Some s)) v.

(** ** Base64 *)

Definition B64 : bytes :=
  bs "ABCDEFGHIJKLMNOPQRSTUVWXYZabcdefghijklmnopqrstuvwxyz0123456789+/".
Definition B64URL : bytes :=
  bs "ABCDEFGHIJKLMNOPQRSTUVWXYZabcdefghijklmnopqrstuvwxyz0123456789-_".

Definition alpha_at (alpha : bytes) (i : Z) : ascii := default (chr 0) (alpha !! Z.to_nat i).

Definition b64_pad (pad : bool) : bytes := if pad then [chr 61] else [].

(** One iteration packs up to three bytes in [v] and emits four characters. *)
Fixpoint b64_encode (d : bytes) (alpha : bytes) (pad : bool) : bytes :=
  match d with
  | [] => []
  | [x] =>
      let v := Z.shiftl (code x) 16 in
      [alpha_at alpha (Z.land (Z.shiftr v 18) 63); alpha_at alpha (Z.land (Z.shiftr v 12) 63)]
        ++ b64_pad pad ++ b64_pad pad
  | [x; y] =>
      let v := Z.lor (Z.shiftl (code x) 16) (Z.shiftl (code y) 8) in
      [alpha_at alpha (Z.land (Z.shiftr v 18) 63); alpha_at alpha (Z.land (Z.shiftr v 12) 63);
       alpha_at alpha (Z.land (Z.shiftr v 6) 63)] ++ b64_pad pad
  | x :: y :: z :: d' =>
      let v := Z.lor (Z.lor (Z.shiftl (code x) 16) (Z.shiftl (code y) 8)) (code z) in
      [alpha_at alpha (Z.land (Z.shiftr v 18) 63); alpha_at alpha (Z.land (Z.shiftr v 12) 63);
       alpha_at alpha (Z.land (Z.shiftr v 6) 63); alpha_at alpha (Z.land v 63)]
        ++ b64_encode d' alpha pad
  end.

Definition sb_base64_encode (d : bytes) : bytes := b64_encode d B64 true.
Definition sb_base64url_encode (d : bytes) : bytes := b64_encode d B64URL false.

(** Modes: 0 lenient, 1 standard, 2 url. *)
Definition b64_value (c : ascii) (mode : Z) : Z :=
  if isupper c then code c - 65
  else if islower c then code c - 97 + 26
  else if isdigit c then code c - 48 + 52
  else if (code c =? 43) && negb (mode =? 2) then 62
  else if (code c =? 47) && negb (mode =? 2) then 63
  else if (code c =? 45) && negb (mode =? 1) then 62
  else if (code c =? 95) && negb (mode =? 1) then 63
  else -1.

Record b64_state := mk_b64 {
  b64_acc : Z; b64_bits : Z; b64_count : Z; b64_pads : Z; b64_out : bytes }.

(** One data character: shift six bits in, emit a byte once eight are there. *)
Definition b64_push (v : Z) (st : b64_state) : b64_state :=
  let acc := Z.lor (to_u32 (Z.shiftl (b64_acc st) 6)) v in
  let bits := b64_bits st + 6 in
  if 8 <=? bits
  then mk_b64 acc (bits - 8) (b64_count st + 1) (b64_pads st)
         (b64_out st ++ [chr (Z.land (Z.shiftr acc (bits - 8)) 255)])
  else mk_b64 acc bits (b64_count st + 1) (b64_pads st) (b64_out st).

Fixpoint b64_loop (mode : Z) (t : bytes) (st : b64_state) : option b64_state :=
  match t with
  | [] => Some st
  | c :: t' =>
      if (mode =? 0) && isspace c then b64_loop mode t' st
      else if code c =? 61 then
        b64_loop mode t' (mk_b64 (b64_acc st) (b64_bits st) (b64_count st)
                                 (b64_pads st + 1) (b64_out st))
      else if negb (b64_pads st =? 0) then None
      else let v := b64_value c mode in
           if v <? 0 then None else b64_loop mode t' (b64_push v st)
  end.

Definition b64_finish (mode : Z) (st : b64_state) : option bytes :=
  if b64_count st mod 4 =? 1 then None
  else if (if mode =? 1 then negb ((b64_count st + b64_pads st) mod 4 =? 0) || (2 <? b64_pads st)
           else if mode =? 2 then negb (b64_pads st =? 0)
           else 2 <? b64_pads st) then None
  else if negb (mode =? 0) && (0 <? b64_bits st)
          && negb (Z.land (b64_acc st) (Z.shiftl 1 (b64_bits st) - 1) =? 0) then None
  else Some (b64_out st).

Definition b64_decode (t : bytes) (mode : Z) : option bytes :=
  b64_loop mode t (mk_b64 0 0 0 0 []) ≫= b64_finish mode.

Definition sb_base64_decode (t : bytes) : option bytes := b64_decode t 0.
Definition sb_base64_decode_strict (t : bytes) : option bytes := b64_decode t 1.
Definition sb_base64url_decode_strict (t : bytes) : option bytes := b64_decode t 2.

(** ** Hexadecimal and URL encodings *)

Definition hex_digit (v : Z) : ascii := if v <? 10 then chr (48 + v) else chr (87 + v).
Definition hex_digit_upper (v : Z) : ascii := if v <? 10 then chr (48 + v) else chr (55 + v).

Definition sb_hex_encode (d : bytes) : bytes :=
  d ≫= fun c => [hex_digit (Z.shiftr (code c) 4); hex_digit (Z.land (code c) 15)].

Definition hexval (c : ascii) : Z :=
  if isdigit c then code c - 48
  else if in_range 97 102 (code c) then code c - 97 + 10
  else if in_range 65 70 (code c) then code c - 65 + 10
  else -1.

Fixpoint url_decode_from (s : bytes) (plus_as_space : bool) : bytes :=
  match s with
  | [] => []
  | c :: s1 =>
      let other :=
        (if (code c =? 43) && plus_as_space then chr 32 else c) :: url_decode_from s1 plus_as_space in
      match s1 with
      | h :: l :: s2 =>
          if (code c =? 37) && (0 <=? hexval h) && (0 <=? hexval l)
          then chr (hexval h * 16 + hexval l) :: url_decode_from s2 plus_as_space
          else other
      | _ => other
      end
  end.

Definition sb_url_decode (s : bytes) (plus_as_space : bool) : bytes :=
  url_decode_from (cstr s) plus_as_space.

Definition url_unreserved (c : ascii) : bool :=
  isalnum c || (code c =? 45) || (code c =? 95) || (code c =? 46) || (code c =? 126).

Definition sb_url_encode (s : bytes) : bytes :=
  cstr s ≫= fun c =>
    if url_unreserved c then [c]
    else [chr 37; hex_digit_upper (code c / 16); hex_digit_upper (code c mod 16)].

(** ** Decimal formatting ([%u], [%d], [%zu], [%lld]) *)

Fixpoint dec_from (fuel : nat) (z : Z) (acc : bytes) : bytes :=
  match fuel with
  | O => acc
  | S fuel' =>
      let acc := chr (48 + z mod 10) :: acc in
      if z / 10 =? 0 then acc else dec_from fuel' (z / 10) acc
  end.

(** A number has at most as many decimal as binary digits. *)
Definition fmt_uint (z : Z) : bytes := dec_from (S (Z.to_nat (Z.log2 z))) z [].

Definition fmt_int (z : Z) : bytes := if z <? 0 then chr 45 :: fmt_uint (- z) else fmt_uint z.

Definition fmt_hex2_upper (z : Z) : bytes := [hex_digit_upper (z / 16); hex_digit_upper (z mod 16)].

(** ** UUID version 4 from sixteen random bytes *)

Definition uuid_stamp (b : list Z) : list Z :=
  <[8%nat := Z.lor (Z.land (default 0 (b !! 8%nat)) 63) 128]>
    (<[6%nat := Z.lor (Z.land (default 0 (b !! 6%nat)) 15) 64]> b).

Definition hex_pairs (b : list Z) : bytes := sb_hex_encode (chr <$> b).

Definition sb_uuid_v4 (random : list Z) : bytes :=
  let b := uuid_stamp random in
  sb_join [hex_pairs (take 4 b); hex_pairs (take 2 (drop 4 b)); hex_pairs (take 2 (drop 6 b));
           hex_pairs (take 2 (drop 8 b)); hex_pairs (take 6 (drop 10 b))] (bs "-").

(** * Theorems *)

(** ** Buffers *)

Lemma double_until_enough fuel cap need :
  1 <= cap -> need <= cap * 2 ^ Z.of_nat fuel -> need <= double_until fuel cap need.
Proof.
  revert cap. induction fuel as [|f IH]; simpl; intros cap Hc Hn; [lia|].
  case_if; [|lia]. apply IH; [lia|].
  rewrite Nat2Z.inj_succ, Z.pow_succ_r in Hn by lia. lia.
Qed.

Lemma grow_enough initial cap need :
  1 <= initial -> 0 <= cap -> need <= grow initial cap need.
Proof.
  intros Hi Hc. unfold grow. case_if; [|lia].
  set (c := if cap =? 0 then initial else cap * 2).
  assert (1 <= c) by (unfold c; case_if; lia).
  apply double_until_enough; [done|].
  unfold grow_fuel. rewrite Z2Nat.id by (pose proof (Z.log2_up_nonneg need); lia).
  destruct (Z.le_gt_cases need 1).
  { pose proof (Z.pow_pos_nonneg 2 (Z.log2_up need + 1)). pose proof (Z.log2_up_nonneg need). nia. }
  pose proof (Z.log2_up_spec need ltac:(lia)) as [_ Hs].
  rewrite Z.pow_add_r by (pose proof (Z.log2_up_nonneg need); lia). nia.
Qed.

Lemma grow_mono initial cap need : 0 <= cap -> 1 <= initial -> cap <= grow initial cap need.
Proof.
  intros Hc Hi. unfold grow. case_if; [|lia].
  pose proof (grow_enough initial cap need Hi Hc). unfold grow in *.
  rewrite ltb_true in * by done. lia.
Qed.

(** Appending to a buffer appends to its contents, never shrinks the
    allocation, and leaves room for every byte written and the terminator, from
    the empty buffer or any buffer in that state. *)
Theorem sb_buf_append_spec b data :
  buf_ok b ->
  buf_data (sb_buf_append b data) = buf_data b ++ data /\
  buf_ok (sb_buf_append b data) /\
  buf_cap b <= buf_cap (sb_buf_append b data).
Proof.
  intros Hok. assert (0 <= buf_cap b) by (unfold buf_ok, buf_len in Hok; lia).
  split; [done|]. unfold sb_buf_append, buf_ok, buf_len; simpl.
  split; [right|by apply grow_mono].
  rewrite length_app. etrans; [|apply grow_enough; lia]. lia.
Qed.

Lemma sb_buf_append_witness :
  buf_ok (sb_buf_append (sb_buf_append sb_buf_empty (bs "abc")) (bs "def")).
Proof.
  apply sb_buf_append_spec. apply sb_buf_append_spec. left. split; reflexivity.
Defined.

(** ** Splitting and joining *)

Lemma split_from_cons d start s : exists x v, split_from d start s = x :: v.
Proof. revert start. induction s; simpl; intros; [eauto|]. case_if; eauto. Qed.

Lemma sb_join_cons x y v sep : sb_join (x :: y :: v) sep = x ++ sep ++ sb_join (y :: v) sep.
Proof. done. Qed.

Lemma join_split_from d start s : sb_join (split_from d start s) [d] = start ++ s.
Proof.
  revert start. induction s as [|c s IH]; cbn [split_from]; intros start.
  { simpl. by rewrite app_nil_r. }
  case_if; subst.
  - destruct (split_from_cons d [] s) as (x & v & E). pose proof (IH []) as IH'.
    rewrite E in *. rewrite sb_join_cons, IH'. done.
  - rewrite IH, <- app_assoc. done.
Qed.

(** Joining the pieces of a split with the delimiter gives the string back:
    no byte is lost, empty fields included. *)
Theorem sb_split_join s d : sb_join (sb_split s d) [d] = cstr s.
Proof. unfold sb_split. by rewrite join_split_from. Qed.

(** ** Base64 *)

Definition b64_clean (mode : Z) (c : ascii) : Prop :=
  code c <> 61 /\ ((mode =? 0) && isspace c = false) /\ 0 <= b64_value c mode.

Lemma b64_value_range c mode : -1 <= b64_value c mode < 64.
Proof.
  pose proof (code_range c).
  unfold b64_value, isupper, islower, isdigit, in_range. repeat case_if; lia.
Qed.

(** What matters of a decoder state: how many bits are pending and their value,
    the counters and the output. *)
Record b64_at (st : b64_state) (bits pend count pads : Z) (out : bytes) : Prop := {
  at_bits : b64_bits st = bits;
  at_pend : b64_acc st mod 2 ^ bits = pend;
  at_count : b64_count st = count;
  at_pads : b64_pads st = pads;
  at_out : b64_out st = out }.

Lemma b64_acc_push st v :
  0 <= v < 64 ->
  Z.lor (to_u32 (Z.shiftl (b64_acc st) 6)) v = (b64_acc st mod 2 ^ 26) * 64 + v.
Proof.
  intros Hv. unfold to_u32. rewrite Z.shiftl_mul_pow2 by lia.
  replace ((b64_acc st * 2 ^ 6) mod 2 ^ 32) with (Z.shiftl (b64_acc st mod 2 ^ 26) 6).
  - rewrite lor_shiftl_add by lia. lia.
  - rewrite Z.shiftl_mul_pow2 by lia.
    change (2 ^ 32) with (2 ^ 26 * 2 ^ 6). by rewrite Z.mul_mod_distr_r.
Qed.

Lemma b64_push_first st v c o :
  b64_at st 0 0 c 0 o -> 0 <= v < 64 -> b64_at (b64_push v st) 6 v (c + 1) 0 o.
Proof.
  intros [Hb _ <- Hp <-] Hv. unfold b64_push. rewrite b64_acc_push, Hb by done.
  decide_cmp. split; simpl; try done. lia_dm.
Qed.

Lemma b64_push_emit st v bits r c o :
  b64_at st bits r c 0 o -> (bits = 2 \/ bits = 4 \/ bits = 6) -> 0 <= v < 64 ->
  b64_at (b64_push v st) (bits - 2) ((r * 64 + v) mod 2 ^ (bits - 2)) (c + 1) 0
         (o ++ [chr ((r * 64 + v) / 2 ^ (bits - 2))]).
Proof.
  intros [Hb <- <- Hp <-] Hcase Hv. unfold b64_push. rewrite b64_acc_push, Hb by done.
  destruct Hcase as [-> | [-> | ->]]; decide_cmp; simpl;
    rewrite land_255, Z.shiftr_div_pow2 by lia;
    split; simpl; try done; [|do 3 f_equal| |do 3 f_equal| |do 3 f_equal]; lia_dm.
Qed.

(** Two, three and four characters from a byte boundary. *)
Lemma b64_push2 st v1 v2 c o :
  b64_at st 0 0 c 0 o -> 0 <= v1 < 64 -> 0 <= v2 < 64 ->
  b64_at (b64_push v2 (b64_push v1 st)) 4 (v2 mod 16) (c + 2) 0 (o ++ [chr (v1 * 4 + v2 / 16)]).
Proof.
  intros H H1 H2. apply (b64_push_first _ v1) in H; [|done].
  apply (b64_push_emit _ v2) in H; [|lia|done]. destruct H as [? ? ? ? E].
  split; [done|lia_dm|lia|done|rewrite E]. do 3 f_equal. lia_dm.
Qed.

Lemma b64_push3 st v1 v2 v3 c o :
  b64_at st 0 0 c 0 o -> 0 <= v1 < 64 -> 0 <= v2 < 64 -> 0 <= v3 < 64 ->
  b64_at (b64_push v3 (b64_push v2 (b64_push v1 st))) 2 (v3 mod 4) (c + 3) 0
         (o ++ [chr (v1 * 4 + v2 / 16); chr (v2 mod 16 * 16 + v3 / 4)]).
Proof.
  intros H H1 H2 H3. apply (b64_push2 _ v1 v2) in H; [|done..].
  apply (b64_push_emit _ v3) in H; [|lia|done]. destruct H as [? ? ? ? E].
  split; [done|lia_dm|lia|done|rewrite E]. rewrite <- app_assoc. simpl. do 4 f_equal. lia_dm.
Qed.

Lemma b64_push4 st v1 v2 v3 v4 c o :
  b64_at st 0 0 c 0 o -> 0 <= v1 < 64 -> 0 <= v2 < 64 -> 0 <= v3 < 64 -> 0 <= v4 < 64 ->
  b64_at (b64_push v4 (b64_push v3 (b64_push v2 (b64_push v1 st)))) 0 0 (c + 4) 0
         (o ++ [chr (v1 * 4 + v2 / 16); chr (v2 mod 16 * 16 + v3 / 4); chr (v3 mod 4 * 64 + v4)]).
Proof.
  intros H H1 H2 H3 H4. apply (b64_push3 _ v1 v2 v3) in H; [|done..].
  apply (b64_push_emit _ v4) in H; [|lia|done]. destruct H as [? ? ? ? E].
  split; [done|lia_dm|lia|done|rewrite E]. rewrite <- app_assoc. simpl. by rewrite Z.div_1_r.
Qed.

Lemma b64_loop_clean mode c t st :
  b64_clean mode c -> b64_pads st = 0 ->
  b64_loop mode (c :: t) st = b64_loop mode t (b64_push (b64_value c mode) st).
Proof.
  intros (H61 & Hsp & Hv) Hp. simpl. rewrite Hsp, Hp. decide_cmp. done.
Qed.

Lemma b64_push_pads v st : b64_pads (b64_push v st) = b64_pads st.
Proof. unfold b64_push. by case_if. Qed.

(** An alphabet read back by a decoding mode. *)
Class b64_alphabet (alpha : bytes) (mode : Z) : Prop := {
  b64_alpha_clean v : 0 <= v < 64 -> b64_clean mode (alpha_at alpha v);
  b64_alpha_value v : 0 <= v < 64 -> b64_value (alpha_at alpha v) mode = v }.

Definition b64_alphabet_check (alpha : bytes) (mode : Z) : bool :=
  forallb (fun n => let c := alpha_at alpha (Z.of_nat n) in
                    negb (code c =? 61) && negb ((mode =? 0) && isspace c)
                    && (b64_value c mode =? Z.of_nat n)) (seq 0 64).

Lemma b64_alphabet_checked alpha mode : b64_alphabet_check alpha mode = true -> b64_alphabet alpha mode.
Proof.
  intros H. unfold b64_alphabet_check in H. rewrite forallb_forall in H.
  assert (Hv : forall v, 0 <= v < 64 ->
    code (alpha_at alpha v) <> 61 /\ (mode =? 0) && isspace (alpha_at alpha v) = false /\
    b64_value (alpha_at alpha v) mode = v).
  { intros v Hv. specialize (H (Z.to_nat v)). rewrite Z2Nat.id in H by lia.
    apply andb_true_iff in H as [H1 H2]; [|apply in_seq; lia].
    apply andb_true_iff in H1 as [H0 H1]. bool_facts. done. }
  split; intros v Hr; destruct (Hv v Hr) as (? & ? & E); unfold b64_clean; rewrite ?E; auto with lia.
Qed.

#[export] Instance B64_standard : b64_alphabet B64 1.
Proof. by apply b64_alphabet_checked; vm_compute. Qed.
#[export] Instance B64URL_url : b64_alphabet B64URL 2.
Proof. by apply b64_alphabet_checked; vm_compute. Qed.
#[export] Instance B64_lenient : b64_alphabet B64 0.
Proof. by apply b64_alphabet_checked; vm_compute. Qed.
#[export] Instance B64URL_lenient : b64_alphabet B64URL 0.
Proof. by apply b64_alphabet_checked; vm_compute. Qed.

(** The sextets of one, two and three bytes. *)
Lemma b64_sextets1 a :
  0 <= a < 256 ->
  Z.land (Z.shiftr (Z.shiftl a 16) 18) 63 = a / 4 /\
  Z.land (Z.shiftr (Z.shiftl a 16) 12) 63 = a mod 4 * 16.
Proof.
  intros Ha. rewrite !land_63, !Z.shiftr_div_pow2, Z.shiftl_mul_pow2 by lia. split; lia_dm.
Qed.

Lemma b64_sextets2 a b :
  0 <= a < 256 -> 0 <= b < 256 ->
  let v := Z.lor (Z.shiftl a 16) (Z.shiftl b 8) in
  Z.land (Z.shiftr v 18) 63 = a / 4 /\
  Z.land (Z.shiftr v 12) 63 = a mod 4 * 16 + b / 16 /\
  Z.land (Z.shiftr v 6) 63 = b mod 16 * 4.
Proof.
  intros Ha Hb v.
  assert (Hv : v = a * 65536 + b * 256).
  { unfold v. rewrite lor_shiftl_add; rewrite ?Z.shiftl_mul_pow2; lia. }
  rewrite Hv, !land_63, !Z.shiftr_div_pow2 by lia. repeat split; lia_dm.
Qed.

Lemma b64_sextets3 a b c :
  0 <= a < 256 -> 0 <= b < 256 -> 0 <= c < 256 ->
  let v := Z.lor (Z.lor (Z.shiftl a 16) (Z.shiftl b 8)) c in
  Z.land (Z.shiftr v 18) 63 = a / 4 /\
  Z.land (Z.shiftr v 12) 63 = a mod 4 * 16 + b / 16 /\
  Z.land (Z.shiftr v 6) 63 = b mod 16 * 4 + c / 64 /\
  Z.land v 63 = c mod 64.
Proof.
  intros Ha Hb Hc v.
  assert (Hv : v = a * 65536 + b * 256 + c).
  { unfold v. rewrite <- Z.lor_assoc, (lor_shiftl_add b c 8), lor_shiftl_add by lia. lia. }
  rewrite Hv, !land_63, !Z.shiftr_div_pow2 by lia. repeat split; lia_dm.
Qed.

(** ** Decoding what was encoded *)
Section Roundtrip.
Context (alpha : bytes) (mode : Z) `{!b64_alphabet alpha mode}.

Lemma b64_loop_alpha v t st :
  0 <= v < 64 -> b64_pads st = 0 ->
  b64_loop mode (alpha_at alpha v :: t) st = b64_loop mode t (b64_push v st).
Proof.
  intros Hv Hp. rewrite b64_loop_clean by (try apply b64_alpha_clean; done).
  by rewrite b64_alpha_value.
Qed.

Lemma b64_loop_pads n st bits r c k o :
  b64_at st bits r c k o ->
  exists st', b64_loop mode (replicate n (chr 61)) st = Some st' /\
              b64_at st' bits r c (k + Z.of_nat n) o.
Proof.
  revert st k. induction n as [|n IH]; intros st k H.
  - exists st. by rewrite Z.add_0_r.
  - simpl. replace ((mode =? 0) && isspace (chr 61)) with false by (by rewrite andb_false_r).
    change (code (chr 61) =? 61) with true. cbv iota.
    destruct (IH (mk_b64 (b64_acc st) (b64_bits st) (b64_count st) (b64_pads st + 1) (b64_out st))
                 (k + 1)) as (st' & -> & H').
    { destruct H as [? ? ? <- ?]. by split. }
    exists st'. split; [done|]. by replace (k + Z.of_nat (S n)) with (k + 1 + Z.of_nat n) by lia.
Qed.

Lemma b64_group1 x pad st c o :
  b64_at st 0 0 c 0 o ->
  exists st', b64_loop mode (b64_encode [x] alpha pad) st = Some st' /\
              b64_at st' 4 0 (c + 2) (if pad then 2 else 0) (o ++ [x]).
Proof.
  intros H. pose proof (code_range x). destruct (b64_sextets1 (code x)) as [S1 S2]; [lia|].
  cbn [b64_encode app]. rewrite S1, S2, !b64_loop_alpha
    by (rewrite ?b64_push_pads; lia_dm || apply H).
  apply (b64_push2 _ (code x / 4) (code x mod 4 * 16)) in H; [|lia_dm..].
  rewrite (chr_eq _ x) in H by lia_dm. replace (code x mod 4 * 16 mod 16) with 0 in H by lia_dm.
  apply (b64_loop_pads (if pad then 2 else 0)) in H as (st' & L & H'). exists st'.
  destruct pad; auto.
Qed.

Lemma b64_group2 x y pad st c o :
  b64_at st 0 0 c 0 o ->
  exists st', b64_loop mode (b64_encode [x; y] alpha pad) st = Some st' /\
              b64_at st' 2 0 (c + 3) (if pad then 1 else 0) (o ++ [x; y]).
Proof.
  intros H. pose proof (code_range x). pose proof (code_range y).
  destruct (b64_sextets2 (code x) (code y)) as (S1 & S2 & S3); [lia..|].
  cbn [b64_encode app]. rewrite S1, S2, S3, !b64_loop_alpha
    by (rewrite ?b64_push_pads; lia_dm || apply H).
  apply (b64_push3 _ (code x / 4) (code x mod 4 * 16 + code y / 16) (code y mod 16 * 4)) in H;
    [|lia_dm..].
  rewrite (chr_eq _ x), (chr_eq _ y) in H by lia_dm.
  replace (code y mod 16 * 4 mod 4) with 0 in H by lia_dm.
  apply (b64_loop_pads (if pad then 1 else 0)) in H as (st' & L & H'). exists st'.
  destruct pad; auto.
Qed.

Lemma b64_group3 x y z d pad st c o :
  b64_at st 0 0 c 0 o ->
  exists st', b64_loop mode (b64_encode (x :: y :: z :: d) alpha pad) st =
              b64_loop mode (b64_encode d alpha pad) st' /\
              b64_at st' 0 0 (c + 4) 0 (o ++ [x; y; z]).
Proof.
  intros H. pose proof (code_range x). pose proof (code_range y). pose proof (code_range z).
  destruct (b64_sextets3 (code x) (code y) (code z)) as (S1 & S2 & S3 & S4); [lia..|].
  cbn [b64_encode app]. rewrite S1, S2, S3, S4, !b64_loop_alpha
    by (rewrite ?b64_push_pads; lia_dm || apply H).
  eexists; split; [done|].
  apply (b64_push4 _ (code x / 4) (code x mod 4 * 16 + code y / 16)
                     (code y mod 16 * 4 + code z / 64) (code z mod 64)) in H; [|lia_dm..].
  by rewrite (chr_eq _ x), (chr_eq _ y), (chr_eq _ z) in H by lia_dm.
Qed.

(** After the encoding of [d] nothing is pending and the counters match. *)
Lemma b64_loop_encode pad d st c o :
  b64_at st 0 0 c 0 o -> 0 <= c -> c mod 4 = 0 ->
  exists st' bits c', b64_loop mode (b64_encode d alpha pad) st = Some st' /\
    b64_at st' bits 0 c' (if pad then (- Z.of_nat (length d)) mod 3 else 0) (o ++ d) /\
    0 <= bits /\ (c' + (- Z.of_nat (length d)) mod 3) mod 4 = 0.
Proof.
  revert st c o. induction d as [d IH] using (well_founded_induction (well_founded_ltof _ length)).
  intros st c o H Hc0 Hc. destruct d as [|x [|y [|z d']]].
  - exists st, 0, c. rewrite app_nil_r. simpl. repeat split; try apply H; [|lia|lia_dm].
    destruct pad; apply H.
  - destruct (b64_group1 x pad _ _ _ H) as (st' & L & H'). exists st', 4, (c + 2).
    split; [done|]. simpl length. split; [destruct pad; exact H'|]. split; [lia|lia_dm].
  - destruct (b64_group2 x y pad _ _ _ H) as (st' & L & H'). exists st', 2, (c + 3).
    split; [done|]. simpl length. split; [destruct pad; exact H'|]. split; [lia|lia_dm].
  - destruct (b64_group3 x y z d' pad _ _ _ H) as (st1 & L & H1). rewrite L.
    destruct (IH d' ltac:(unfold ltof; simpl; lia) _ _ _ H1) as (st' & bi & c' & L' & H' & Hb & Hm);
      [lia|lia_dm|].
    exists st', bi, c'. split; [done|]. simpl length.
    replace ((- Z.of_nat (S (S (S (length d'))))) mod 3) with ((- Z.of_nat (length d')) mod 3)
      by lia_dm.
    by rewrite <- app_assoc in H'.
Qed.

Lemma b64_decode_encode pad d :
  (mode = 0 \/ (mode = 1 /\ pad = true) \/ (mode = 2 /\ pad = false)) ->
  b64_decode (b64_encode d alpha pad) mode = Some d.
Proof.
  intros Hm. unfold b64_decode.
  destruct (b64_loop_encode pad d (mk_b64 0 0 0 0 []) 0 []) as (st & bi & c & -> & H & Hb & Hc);
    [by split|lia|done|].
  simpl. unfold b64_finish. destruct H as [-> H2 -> -> ->].
  set (p := (- Z.of_nat (length d)) mod 3) in *.
  assert (0 <= p < 3) by (apply Z.mod_pos_bound; lia).
  rewrite Z.shiftl_1_l, Z.sub_1_r, <- Z.ones_equiv, Z.land_ones, H2 by lia. simpl.
  rewrite andb_false_r, (eqb_false (c mod 4) 1) by lia_dm.
  destruct Hm as [-> | [[-> ->] | [-> ->]]]; simpl; [|rewrite Hc; simpl|done].
  - rewrite ltb_false by (destruct pad; lia). done.
  - rewrite ltb_false by lia. done.
Qed.
End Roundtrip.

(** Base64 round trip.  Decoding the encoding gives the bytes back, for the
    strict decoders with their own alphabet and padding, and for the lenient
    decoder with either. *)
Theorem sb_base64_roundtrip d :
  sb_base64_decode_strict (sb_base64_encode d) = Some d /\
  sb_base64url_decode_strict (sb_base64url_encode d) = Some d /\
  sb_base64_decode (sb_base64_encode d) = Some d /\
  sb_base64_decode (sb_base64url_encode d) = Some d.
Proof.
  repeat split; apply (b64_decode_encode _ _); auto.
Qed.

(** ** Strict decoding accepts only canonical text *)
Section Canonical.
Context (alpha : bytes) (mode : Z) (pad : bool) `{!b64_alphabet alpha mode}.
Hypothesis strict : (mode = 1 /\ pad = true) \/ (mode = 2 /\ pad = false).
Hypothesis alpha_complete :
  forall c, 0 <= b64_value c mode -> alpha_at alpha (b64_value c mode) = c.

Lemma b64_loop_step c t st st' :
  b64_loop mode (c :: t) st = Some st' ->
  (c = chr 61 /\ b64_loop mode t (mk_b64 (b64_acc st) (b64_bits st) (b64_count st)
                                    (b64_pads st + 1) (b64_out st)) = Some st') \/
  (b64_pads st = 0 /\ 0 <= b64_value c mode /\
   b64_loop mode t (b64_push (b64_value c mode) st) = Some st').
Proof.
  simpl. replace ((mode =? 0) && isspace c) with false
    by (destruct strict as [[-> _] | [-> _]]; done).
  intros H. case_if_in H; [left; split; [by apply code_inj|done]|].
  case_if_in H; [done|]. case_if_in H; [done|]. auto.
Qed.

(** Once a padding character was read only padding follows. *)
Lemma b64_loop_padded t st st' bits r c k o :
  b64_at st bits r c k o -> 0 < k -> b64_loop mode t st = Some st' ->
  exists n, t = replicate n (chr 61) /\ b64_at st' bits r c (k + Z.of_nat n) o.
Proof.
  revert st k. induction t as [|x t IH]; intros st k H Hk L.
  - injection L as <-. exists 0%nat. by rewrite Z.add_0_r.
  - apply b64_loop_step in L as [[-> L] | (Hp & _)]; [|destruct H; lia].
    apply (IH _ (k + 1)) in L as (n & -> & H'); [|destruct H; by split; simpl; try lia|lia].
    exists (S n). split; [done|].
    by replace (k + Z.of_nat (S n)) with (k + 1 + Z.of_nat n) by lia.
Qed.

(** The decoder accepted: what that says of the counters. *)
Lemma b64_finish_strict st bits r c k o out :
  b64_at st bits r c k o -> 0 <= bits -> b64_finish mode st = Some out ->
  out = o /\ c mod 4 <> 1 /\ r = 0 /\
  (if pad then (c + k) mod 4 = 0 /\ k <= 2 else k = 0).
Proof.
  intros [B Hr C K O] Hb. unfold b64_finish. rewrite B, C, K, O.
  rewrite Z.shiftl_1_l, Z.sub_1_r, <- Z.ones_equiv, Z.land_ones, Hr by lia.
  intros F. case_if_in F; [done|]. case_if_in F; [done|].
  assert (Hr0 : r = 0 /\ out = o).
  { destruct (0 <? bits) eqn:Eb; bool_facts.
    - replace (negb (mode =? 0)) with true in F by (destruct strict as [[-> _] | [-> _]]; done).
      simpl in F. case_if_in F; [done|]. injection F as <-. done.
    - assert (Hb0 : bits = 0) by lia.
      assert (r = 0) by (rewrite <- Hr, Hb0; apply Z.mod_1_r). subst r.
      rewrite andb_false_r in F. injection F as <-. done. }
  destruct Hr0 as [-> ->]. split; [done|split; [done|split; [done|]]].
  destruct strict as [[-> ->] | [-> ->]]; simpl in *; bool_facts; auto.
Qed.

Lemma b64_encode_sextets2 v1 v2 :
  0 <= v1 < 64 -> 0 <= v2 < 64 -> v2 mod 16 = 0 ->
  b64_encode [chr (v1 * 4 + v2 / 16)] alpha pad =
  alpha_at alpha v1 :: alpha_at alpha v2 :: b64_pad pad ++ b64_pad pad.
Proof.
  intros H1 H2 H0. cbn [b64_encode app]. rewrite code_chr by lia_dm.
  destruct (b64_sextets1 (v1 * 4 + v2 / 16)) as [-> ->]; [lia_dm|].
  repeat f_equal; lia_dm.
Qed.

Lemma b64_encode_sextets3 v1 v2 v3 :
  0 <= v1 < 64 -> 0 <= v2 < 64 -> 0 <= v3 < 64 -> v3 mod 4 = 0 ->
  b64_encode [chr (v1 * 4 + v2 / 16); chr (v2 mod 16 * 16 + v3 / 4)] alpha pad =
  alpha_at alpha v1 :: alpha_at alpha v2 :: alpha_at alpha v3 :: b64_pad pad.
Proof.
  intros H1 H2 H3 H0. cbn [b64_encode app]. rewrite !code_chr by lia_dm.
  destruct (b64_sextets2 (v1 * 4 + v2 / 16) (v2 mod 16 * 16 + v3 / 4)) as (-> & -> & ->); [lia_dm..|].
  f_equal; [f_equal; lia_dm|]. f_equal; [f_equal; lia_dm|]. f_equal. f_equal. lia_dm.
Qed.

Lemma b64_encode_sextets4 v1 v2 v3 v4 d :
  0 <= v1 < 64 -> 0 <= v2 < 64 -> 0 <= v3 < 64 -> 0 <= v4 < 64 ->
  b64_encode (chr (v1 * 4 + v2 / 16) :: chr (v2 mod 16 * 16 + v3 / 4)
                :: chr (v3 mod 4 * 64 + v4) :: d) alpha pad =
  alpha_at alpha v1 :: alpha_at alpha v2 :: alpha_at alpha v3 :: alpha_at alpha v4
    :: b64_encode d alpha pad.
Proof.
  intros H1 H2 H3 H4. cbn [b64_encode app]. rewrite !code_chr by lia_dm.
  destruct (b64_sextets3 (v1 * 4 + v2 / 16) (v2 mod 16 * 16 + v3 / 4) (v3 mod 4 * 64 + v4))
    as (-> & -> & -> & ->); [lia_dm..|].
  f_equal; [f_equal; lia_dm|]. f_equal; [f_equal; lia_dm|].
  f_equal; [f_equal; lia_dm|]. f_equal. f_equal. lia_dm.
Qed.

(** The text that is left once [m] (1 to 3) characters of a group were read:
    nothing, or exactly the padding the group lacks. *)
Lemma b64_tail t st st' bits r c o out m :
  b64_at st bits r c 0 o -> 0 <= bits -> c mod 4 = m -> 0 <= m ->
  (t = [] \/ exists t', t = chr 61 :: t') ->
  b64_loop mode t st = Some st' -> b64_finish mode st' = Some out ->
  out = o /\ r = 0 /\ m <> 1 /\
  t = if pad then replicate (Z.to_nat (if m =? 0 then 0 else 4 - m)) (chr 61) else [].
Proof.
  intros H Hb Hm Hm0 [-> | (t' & ->)] L F.
  - injection L as <-. apply (b64_finish_strict _ _ _ _ _ _ _ H Hb) in F as (-> & ? & -> & Hk).
    split; [done|split; [done|split; [lia|]]].
    destruct pad; [|done]. replace (m =? 0) with true by (symmetry; apply Z.eqb_eq; lia_dm). done.
  - apply b64_loop_step in L as [[_ L] | (_ & Hv & _)]; [|exfalso; revert Hv; clear;
      unfold b64_value; simpl; lia].
    apply (b64_loop_padded _ _ _ bits r c 1 o) in L as (n & -> & H');
      [|destruct H; by split; simpl; try lia|lia].
    apply (b64_finish_strict _ _ _ _ _ _ _ H' Hb) in F as (-> & ? & -> & Hk).
    split; [done|split; [done|split; [lia|]]].
    destruct pad; [|lia]. destruct Hk as [Hk1 Hk2].
    change (chr 61 :: replicate n (chr 61)) with (replicate (S n) (chr 61)). f_equal.
    case_if; lia_dm.
Qed.
(** Splitting off one character at the front of an accepted text. *)
Lemma b64_head t st st' :
  b64_loop mode t st = Some st' ->
  (t = [] \/ exists t', t = chr 61 :: t') \/
  (exists v t', t = alpha_at alpha v :: t' /\ 0 <= v < 64 /\
                b64_loop mode t' (b64_push v st) = Some st').
Proof.
  destruct t as [|c t']; [auto|]. intros L.
  apply b64_loop_step in L as [[-> L] | (Hp & Hv & L)]; [eauto|].
  right. exists (b64_value c mode), t'. pose proof (b64_value_range c mode).
  rewrite alpha_complete by done. split; [done|split; [lia|done]].
Qed.

Lemma b64_canonical_from t st st' c o out :
  b64_at st 0 0 c 0 o -> c mod 4 = 0 ->
  b64_loop mode t st = Some st' -> b64_finish mode st' = Some out ->
  exists d, out = o ++ d /\ t = b64_encode d alpha pad.
Proof.
  revert st c o. induction t as [t IH] using (well_founded_induction (well_founded_ltof _ length)).
  intros st c o H Hc L F.
  apply b64_head in L as L1. destruct L1 as [T | (v1 & t1 & -> & H1 & L1)].
  { destruct (b64_tail _ _ _ _ _ _ _ _ 0 H ltac:(lia) Hc ltac:(lia) T L F) as (-> & _ & _ & ->).
    exists []. rewrite app_nil_r. by destruct pad. }
  apply (b64_push_first _ v1) in H as A1; [|done].
  apply b64_head in L1 as L2. destruct L2 as [T | (v2 & t2 & -> & H2 & L2)].
  { destruct (b64_tail _ _ _ _ _ _ _ _ 1 A1 ltac:(lia) ltac:(lia_dm) ltac:(lia) T L1 F)
      as (_ & _ & Hm & _). done. }
  apply (b64_push2 _ v1 v2) in H as A2; [|done..].
  apply b64_head in L2 as L3. destruct L3 as [T | (v3 & t3 & -> & H3 & L3)].
  { destruct (b64_tail _ _ _ _ _ _ _ _ 2 A2 ltac:(lia) ltac:(lia_dm) ltac:(lia) T L2 F)
      as (-> & Hr & _ & ->).
    eexists; split; [done|]. rewrite b64_encode_sextets2 by done. by destruct pad. }
  apply (b64_push3 _ v1 v2 v3) in H as A3; [|done..].
  apply b64_head in L3 as L4. destruct L4 as [T | (v4 & t4 & -> & H4 & L4)].
  { destruct (b64_tail _ _ _ _ _ _ _ _ 3 A3 ltac:(lia) ltac:(lia_dm) ltac:(lia) T L3 F)
      as (-> & Hr & _ & ->).
    eexists; split; [done|]. rewrite b64_encode_sextets3 by done. by destruct pad. }
  apply (b64_push4 _ v1 v2 v3 v4) in H as A4; [|done..].
  destruct (IH t4 ltac:(unfold ltof; simpl; lia) _ _ _ A4 ltac:(lia_dm) L4 F) as (d & -> & ->).
  eexists. rewrite <- app_assoc. split; [done|]. symmetry. by apply b64_encode_sextets4.
Qed.

Lemma b64_decode_canonical t d : b64_decode t mode = Some d -> b64_encode d alpha pad = t.
Proof.
  unfold b64_decode. destruct (b64_loop mode t _) as [st|] eqn:L; [|done]. simpl. intros F.
  destruct (b64_canonical_from t (mk_b64 0 0 0 0 []) st 0 [] d) as (d' & -> & ->); by try split.
Qed.
End Canonical.

Lemma alpha_complete_check alpha mode :
  forallb (fun c => (b64_value c mode <? 0) || bool_decide (alpha_at alpha (b64_value c mode) = c))
    all_bytes = true ->
  forall c, 0 <= b64_value c mode -> alpha_at alpha (b64_value c mode) = c.
Proof.
  intros H c Hc. pose proof (byte_forallb _ H c) as E. simpl in E.
  rewrite ltb_false in E by done. simpl in E. by bool_facts.
Qed.

(** Strict base64 decoding is canonical.  A text the strict decoders accept
    is the encoding of what they return, so two different texts never decode to
    the same bytes. *)
Theorem sb_base64_canonical t d :
  (sb_base64_decode_strict t = Some d -> sb_base64_encode d = t) /\
  (sb_base64url_decode_strict t = Some d -> sb_base64url_encode d = t).
Proof.
  split; apply (b64_decode_canonical _ _ _); auto; by apply alpha_complete_check; vm_compute.
Qed.

Lemma sb_base64_canonical_witness :
  sb_base64_encode (bs "sb") = bs "c2I=" /\ sb_base64url_encode (bs "sb") = bs "c2I".
Proof.
  split; [apply (proj1 (sb_base64_canonical (bs "c2I=") (bs "sb")))
         |apply (proj2 (sb_base64_canonical (bs "c2I") (bs "sb")))]; vm_compute; reflexivity.
Defined.

(** ** URL and hexadecimal *)

Lemma hexval_upper v : 0 <= v < 16 -> hexval (hex_digit_upper v) = v.
Proof.
  intros H. unfold hexval, hex_digit_upper, isdigit, in_range. destruct (v <? 10) eqn:E; bool_facts;
    rewrite !code_chr by lia; decide_cmp; simpl; lia.
Qed.

Lemma url_decode_unreserved c s p :
  url_unreserved c = true -> url_decode_from (c :: s) p = c :: url_decode_from s p.
Proof.
  intros H. assert (code c <> 37 /\ code c <> 43).
  { unfold url_unreserved, isalnum, isdigit, isupper, islower, in_range in H.
    split; intros E; rewrite E in H; done. }
  simpl. rewrite !eqb_false by tauto. by destruct s as [|? [|? ?]].
Qed.

Lemma url_decode_percent c s p :
  url_decode_from (chr 37 :: hex_digit_upper (code c / 16) :: hex_digit_upper (code c mod 16) :: s) p
  = c :: url_decode_from s p.
Proof.
  pose proof (code_range c). cbn [url_decode_from].
  rewrite !hexval_upper by lia_dm. rewrite !leb_true by lia_dm.
  change (code (chr 37) =? 37) with true. simpl. f_equal. apply chr_eq. lia_dm.
Qed.

Lemma url_decode_encode s p : no_nul s = true -> url_decode_from (sb_url_encode s) p = s.
Proof.
  intros Hn. unfold sb_url_encode. rewrite cstr_no_nul by done. induction s as [|c s IH]; [done|].
  simpl in Hn. bool_facts. cbn [mbind list_bind]. destruct (url_unreserved c) eqn:U; simpl app.
  - rewrite url_decode_unreserved by done. f_equal. by apply IH.
  - rewrite url_decode_percent. f_equal. by apply IH.
Qed.

Lemma hex_digit_upper_code v : 0 <= v < 16 -> in_range 48 57 (code (hex_digit_upper v)) || in_range 65 70 (code (hex_digit_upper v)) = true.
Proof.
  intros Hv. unfold hex_digit_upper, in_range. case_if; rewrite code_chr by lia;
    rewrite ?(leb_true 48), ?(leb_true 65) by lia; cbn [andb];
    rewrite ?(leb_true _ 57) by lia; [done|]; rewrite (leb_true _ 70) by lia; apply orb_true_r.
Qed.

(** An encoded string is made of unreserved bytes and percent signs. *)
Lemma url_encode_chars s : Forall (fun c => url_unreserved c = true \/ code c = 37) (sb_url_encode s).
Proof.
  unfold sb_url_encode. induction (cstr s) as [|c t IH]; [constructor|]. cbn [mbind list_bind]. apply Forall_app.
  split; [|done]. pose proof (code_range c).
  assert (Hd : forall v, 0 <= v < 16 -> url_unreserved (hex_digit_upper v) = true).
  { intros v Hv. pose proof (hex_digit_upper_code v Hv) as D. unfold url_unreserved, isalnum, isdigit, isupper, islower, in_range in *.
    destruct (48 <=? code (hex_digit_upper v)), (code (hex_digit_upper v) <=? 57); try done; cbn [andb orb] in *;
      bool_facts; rewrite (leb_true 65), (leb_true _ 90) by lia; done. }
  destruct (url_unreserved c) eqn:U; [constructor; [by left|constructor]|].
  constructor; [right; by rewrite code_chr|]. repeat (constructor; [left; apply Hd; lia_dm|]). constructor.
Qed.

(** URL decoding inverts URL encoding on every C string, whether or not the
    decoder reads a plus sign as a space. *)
Theorem sb_url_roundtrip s plus_as_space :
  sb_url_decode (sb_url_encode s) plus_as_space = cstr s.
Proof.
  unfold sb_url_decode. rewrite cstr_no_nul.
  - rewrite <- (url_decode_encode (cstr s) plus_as_space) by apply no_nul_cstr. unfold sb_url_encode. by rewrite cstr_idem.
  - pose proof (url_encode_chars s) as F. unfold no_nul. apply forallb_forall. intros c Hc.
    rewrite Forall_forall in F. apply list_elem_of_In in Hc. apply negb_true_iff, eqb_false. intros Z0.
    destruct (F c Hc) as [U|U]; [|lia]. revert U. unfold url_unreserved, isalnum, isdigit, isupper, islower, in_range.
    by rewrite Z0.
Qed.

(** ** UUIDs *)

Definition uuid_version_ok (u : bytes) : Prop :=
  length u = 36%nat /\
  u !! 8%nat = Some (chr 45) /\ u !! 13%nat = Some (chr 45) /\
  u !! 18%nat = Some (chr 45) /\ u !! 23%nat = Some (chr 45) /\
  u !! 14%nat = Some (chr 52) /\
  (exists c, u !! 19%nat = Some c /\ c ∈ bs "89ab").

(** Every UUID has 36 characters with the hyphens in place, version nibble 4
    and an RFC 4122 variant, whatever sixteen random bytes were drawn. *)
Theorem sb_uuid_v4_format b :
  length b = 16%nat -> (forall x, x ∈ b -> 0 <= x < 256) -> uuid_version_ok (sb_uuid_v4 b).
Proof.
  intros Hl Hb.
  do 16 (destruct b as [|? b]; [done|]). destruct b; [|done].
  assert (H6 : 0 <= z5 < 256) by (by apply Hb, (list_elem_of_lookup_2 _ 6)).
  assert (H8 : 0 <= z7 < 256) by (by apply Hb, (list_elem_of_lookup_2 _ 8)).
  unfold uuid_version_ok, sb_uuid_v4, uuid_stamp. cbn -[chr hex_digit Z.land Z.lor].
  assert (E6 : Z.lor (Z.land z5 15) 64 = 4 * 16 + z5 mod 16).
  { rewrite land_15, Z.lor_comm. apply (lor_shiftl_add 4 (z5 mod 16) 4); [lia|lia_dm]. }
  assert (E8 : Z.lor (Z.land z7 63) 128 = 2 * 64 + z7 mod 64).
  { rewrite land_63, Z.lor_comm. apply (lor_shiftl_add 2 (z7 mod 64) 6); [lia|lia_dm]. }
  rewrite E6, E8, !code_chr by lia_dm.
  replace (Z.shiftr (4 * 16 + z5 mod 16) 4) with 4 by (rewrite Z.shiftr_div_pow2; lia_dm).
  do 6 (split; [done|]). eexists; split; [done|].
  rewrite Z.shiftr_div_pow2 by lia.
  assert (Hn : (2 * 64 + z7 mod 64) / 2 ^ 4 ∈ [8; 9; 10; 11]).
  { rewrite !elem_of_cons, elem_of_nil. lia_dm. }
  revert Hn. generalize ((2 * 64 + z7 mod 64) / 2 ^ 4). intros n.
  rewrite !elem_of_cons, elem_of_nil. intros [-> | [-> | [-> | [-> | []]]]];
    vm_compute; set_solver.
Qed.

Lemma sb_uuid_v4_witness :
  uuid_version_ok (sb_uuid_v4 [255; 1; 2; 3; 4; 5; 6; 7; 8; 9; 10; 11; 12; 13; 14; 0]).
Proof.
  apply sb_uuid_v4_format; [reflexivity|].
  intros x Hx. repeat (apply elem_of_cons in Hx as [-> | Hx]; [lia|]).
  by apply elem_of_nil in Hx.
Defined.
