(* ===== verification/Json.v ===== *)
(** * JSON values ([c/src/json.c], [c/include/sb/json.h])

    The [sbj] value type with its constructors, scalar accessors, array and
    object operations.  Objects keep their members sorted by key and are
    searched by bisection; section [Objects] proves that they implement a finite
    map from byte strings to values.  A [NULL] pointer is [None]. *)

From Stdlib Require Import SpecFloat Sorted.
From S2P Require Import Prelude Util.

(** IEEE 754 binary64. *)
Definition double : Type := spec_float.

#[export] Instance double_eq_dec : EqDecision double.
Proof. unfold double. solve_decision. Defined.

Definition double_of_Z (z : Z) : double := binary_normalize 53 1024 z 0 false.

#[local] Unset Elimination Schemes.
Inductive sbj : Type :=
  | SBJ_NULL
  | SBJ_BOOL (b : bool)
  | SBJ_INT (i : Z)
  | SBJ_UINT (u : Z)
  | SBJ_FLOAT (f : double)
  | SBJ_STRING (s : bytes)
  | SBJ_ARRAY (items : list sbj)
  | SBJ_OBJECT (members : list (bytes * sbj)).
#[local] Set Elimination Schemes.

(** Induction through the elements of arrays and the values of objects. *)
Definition sbj_ind (P : sbj -> Prop)
  (Pnull : P SBJ_NULL) (Pbool : forall b, P (SBJ_BOOL b)) (Pint : forall i, P (SBJ_INT i))
  (Puint : forall u, P (SBJ_UINT u)) (Pfloat : forall f, P (SBJ_FLOAT f))
  (Pstr : forall s, P (SBJ_STRING s))
  (Parr : forall l, Forall P l -> P (SBJ_ARRAY l))
  (Pobj : forall m, Forall (fun kv => P (snd kv)) m -> P (SBJ_OBJECT m)) : forall v, P v :=
  fix go v :=
    match v with
    | SBJ_NULL => Pnull
    | SBJ_BOOL b => Pbool b
    | SBJ_INT i => Pint i
    | SBJ_UINT u => Puint u
    | SBJ_FLOAT f => Pfloat f
    | SBJ_STRING s => Pstr s
    | SBJ_ARRAY l =>
        Parr l ((fix all l : Forall P l :=
                   match l with [] => Forall_nil_2 P | x :: l' => Forall_cons_2 P x l' (go x) (all l') end) l)
    | SBJ_OBJECT m =>
        Pobj m ((fix all m : Forall (fun kv => P (snd kv)) m :=
                   match m with
                   | [] => Forall_nil_2 _
                   | kv :: m' => Forall_cons_2 _ kv m' (go (snd kv)) (all m')
                   end) m)
    end.

(** ** Construction *)

Definition sbj_uint (value : Z) : sbj :=
  if value <=? INT64_MAX then SBJ_INT value else SBJ_UINT value.

Definition sbj_str (value : option bytes) : sbj :=
  match value with None => SBJ_NULL | Some s => SBJ_STRING (cstr s) end.

Fixpoint sbj_clone (v : sbj) : sbj :=
  match v with
  | SBJ_NULL => SBJ_NULL
  | SBJ_BOOL b => SBJ_BOOL b
  | SBJ_INT i => SBJ_INT i
  | SBJ_UINT u => sbj_uint u
  | SBJ_FLOAT f => SBJ_FLOAT f
  | SBJ_STRING s => SBJ_STRING s
  | SBJ_ARRAY items => SBJ_ARRAY (map sbj_clone items)
  | SBJ_OBJECT members => SBJ_OBJECT (map (fun kv => (fst kv, sbj_clone (snd kv))) members)
  end.

(** ** Inspection *)

Definition sbj_is_null (v : option sbj) : bool :=
  match v with None | Some SBJ_NULL => true | _ => false end.
Definition sbj_is_bool (v : option sbj) : bool :=
  match v with Some (SBJ_BOOL _) => true | _ => false end.
Definition sbj_is_string (v : option sbj) : bool :=
  match v with Some (SBJ_STRING _) => true | _ => false end.
Definition sbj_is_array (v : option sbj) : bool :=
  match v with Some (SBJ_ARRAY _) => true | _ => false end.
Definition sbj_is_object (v : option sbj) : bool :=
  match v with Some (SBJ_OBJECT _) => true | _ => false end.
Definition sbj_is_number (v : option sbj) : bool :=
  match v with Some (SBJ_INT _ | SBJ_UINT _ | SBJ_FLOAT _) => true | _ => false end.
Definition sbj_is_integer (v : option sbj) : bool :=
  match v with Some (SBJ_INT _ | SBJ_UINT _) => true | _ => false end.

Definition sbj_type_name (v : option sbj) : bytes :=
  bs match v with
     | None | Some SBJ_NULL => "null"
     | Some (SBJ_BOOL _) => "boolean"
     | Some (SBJ_INT _ | SBJ_UINT _ | SBJ_FLOAT _) => "number"
     | Some (SBJ_STRING _) => "string"
     | Some (SBJ_ARRAY _) => "array"
     | Some (SBJ_OBJECT _) => "object"
     end.

Definition sbj_size (v : option sbj) : nat :=
  match v with
  | None | Some SBJ_NULL => 0
  | Some (SBJ_ARRAY items) => length items
  | Some (SBJ_OBJECT members) => length members
  | _ => 1
  end.

(** Mixed integer / float comparison goes through [double]. *)
Definition num_cmp_equal (a b : sbj) : bool :=
  let as_double v :=
    match v with SBJ_FLOAT f => f | SBJ_INT i => double_of_Z i | SBJ_UINT u => double_of_Z u
               | _ => S754_nan end in
  match a, b with
  | SBJ_FLOAT _, _ | _, SBJ_FLOAT _ => SFeqb (as_double a) (as_double b)
  | SBJ_INT i, SBJ_INT j => i =? j
  | SBJ_UINT i, SBJ_UINT j => i =? j
  | _, _ => false
  end.

Definition sbj_string_is (v : option sbj) (literal : string) : bool :=
  match v with Some (SBJ_STRING s) => sb_strn_eq s literal | _ => false end.

Fixpoint sbj_equal_val (a b : sbj) {struct a} : bool :=
  if sbj_is_number (Some a) && sbj_is_number (Some b) then num_cmp_equal a b
  else match a, b with
  | SBJ_NULL, SBJ_NULL => true
  | SBJ_BOOL x, SBJ_BOOL y => Bool.eqb x y
  | SBJ_STRING x, SBJ_STRING y => bytes_eqb x y
  | SBJ_ARRAY xs, SBJ_ARRAY ys =>
      (length xs =? length ys)%nat &&
      (fix items xs ys := match xs, ys with
         | x :: xs', y :: ys' => sbj_equal_val x y && items xs' ys'
         | _, _ => true
         end) xs ys
  | SBJ_OBJECT xs, SBJ_OBJECT ys =>
      (length xs =? length ys)%nat &&
      (fix members xs ys := match xs, ys with
         | (k, x) :: xs', (l, y) :: ys' => bytes_eqb k l && sbj_equal_val x y && members xs' ys'
         | _, _ => true
         end) xs ys
  | _, _ => false
  end.

Definition sbj_equal (a b : option sbj) : bool :=
  match a, b with
  | Some x, Some y => sbj_equal_val x y
  | _, _ => sbj_is_null a && sbj_is_null b
  end.

(** The cast of a finite [double] to [int64_t]: truncation, and the value the
    conversion instruction leaves when the result does not fit (C leaves that
    case undefined). *)
Definition double_trunc (f : double) : Z :=
  match f with
  | S754_finite s m e =>
      let q := if 0 <=? e then Z.pos m * 2 ^ e else Z.pos m / 2 ^ (- e) in
      if s then - q else q
  | _ => 0
  end.
Definition double_to_int64 (f : double) : Z :=
  let z := double_trunc f in if in_range INT64_MIN INT64_MAX z then z else INT64_MIN.

Definition double_isfinite (f : double) : bool :=
  match f with S754_zero _ | S754_finite _ _ _ => true | _ => false end.

Definition sbj_as_str (v : option sbj) (fallback : option bytes) : option bytes :=
  match v with Some (SBJ_STRING s) => Some s | _ => fallback end.

Definition sbj_as_int (v : option sbj) (fallback : Z) : Z :=
  match v with
  | Some (SBJ_INT i) => i
  | Some (SBJ_UINT u) => to_i64 u
  | Some (SBJ_FLOAT f) => if double_isfinite f then double_to_int64 f else fallback
  | _ => fallback
  end.

Definition sbj_as_bool (v : option sbj) (fallback : bool) : bool :=
  match v with Some (SBJ_BOOL b) => b | _ => fallback end.

(** ** Arrays *)

Definition or_null (v : option sbj) : sbj := default SBJ_NULL v.

Definition arr_items (a : option sbj) : list sbj :=
  match a with Some (SBJ_ARRAY items) => items | _ => [] end.

Definition sbj_arr_len (a : option sbj) : nat := length (arr_items a).
Definition sbj_arr_at (a : option sbj) (i : nat) : option sbj := arr_items a !! i.

Definition arr_reserve (cap need : Z) : Z := grow 4 cap need.

Definition sbj_arr_push (a : sbj) (value : option sbj) : sbj :=
  match a with SBJ_ARRAY items => SBJ_ARRAY (items ++ [or_null value]) | _ => a end.

Definition sbj_arr_insert (a : sbj) (index : nat) (value : option sbj) : sbj :=
  match a with
  | SBJ_ARRAY items =>
      let index := Nat.min index (length items) in
      SBJ_ARRAY (take index items ++ or_null value :: drop index items)
  | _ => a
  end.

Definition sbj_arr_take (a : sbj) (index : nat) : option sbj * sbj :=
  match a with
  | SBJ_ARRAY items =>
      match items !! index with
      | Some v => (Some v, SBJ_ARRAY (take index items ++ drop (S index) items))
      | None => (None, a)
      end
  | _ => (None, a)
  end.

Definition sbj_arr_remove (a : sbj) (index : nat) : sbj := snd (sbj_arr_take a index).

Definition sbj_arr_clear (a : sbj) : sbj :=
  match a with SBJ_ARRAY _ => SBJ_ARRAY [] | _ => a end.

(** ** Objects *)

Definition obj_members (o : option sbj) : list (bytes * sbj) :=
  match o with Some (SBJ_OBJECT m) => m | _ => [] end.

Definition sbj_obj_len (o : option sbj) : nat := length (obj_members o).

(** [memcmp] over the first [n] bytes. *)
Fixpoint memcmp (a b : bytes) (n : nat) : comparison :=
  match n, a, b with
  | S n', x :: a', y :: b' =>
      match code x ?= code y with Eq => memcmp a' b' n' | c => c end
  | _, _, _ => Eq
  end.

Definition key_compare (k key : bytes) : comparison :=
  match memcmp k key (Nat.min (length k) (length key)) with
  | Eq => (length k ?= length key)%nat
  | c => c
  end.

(** Bisection between [lo] and [hi]; the flag says whether the key is there. *)
Fixpoint obj_find_loop (fuel : nat) (m : list (bytes * sbj)) (key : bytes) (lo hi : nat) : nat * bool :=
  match fuel with
  | O => (lo, false)
  | S fuel' =>
      if (lo <? hi)%nat then
        let mid := (lo + (hi - lo) / 2)%nat in
        match m !! mid with
        | Some (k, _) =>
            match key_compare k key with
            | Eq => (mid, true)
            | Lt => obj_find_loop fuel' m key (S mid) hi
            | Gt => obj_find_loop fuel' m key lo mid
            end
        | None => (lo, false)
        end
      else (lo, false)
  end.

Definition obj_find (m : list (bytes * sbj)) (key : bytes) : nat * bool :=
  obj_find_loop (S (length m)) m key 0 (length m).

Definition sbj_getn (o : option sbj) (key : bytes) : option sbj :=
  match o with
  | Some (SBJ_OBJECT m) =>
      let (i, found) := obj_find m key in if found then snd <$> m !! i else None
  | _ => None
  end.

Definition sbj_get (o : option sbj) (key : string) : option sbj := sbj_getn o (bs key).
Definition sbj_has (o : option sbj) (key : string) : bool :=
  match sbj_get o key with Some _ => true | None => false end.

Definition sbj_setn (o : sbj) (key : bytes) (value : option sbj) : sbj :=
  match o with
  | SBJ_OBJECT m =>
      let (i, found) := obj_find m key in
      SBJ_OBJECT (if found then <[i := (key, or_null value)]> m
                  else take i m ++ (key, or_null value) :: drop i m)
  | _ => o
  end.

Definition sbj_set (o : sbj) (key : string) (value : sbj) : sbj := sbj_setn o (bs key) (Some value).

Definition sbj_take (o : sbj) (key : string) : option sbj * sbj :=
  match o with
  | SBJ_OBJECT m =>
      let (i, found) := obj_find m (bs key) in
      if found then (snd <$> m !! i, SBJ_OBJECT (take i m ++ drop (S i) m)) else (None, o)
  | _ => (None, o)
  end.

Definition sbj_del (o : sbj) (key : string) : bool * sbj :=
  match sbj_take o key with
  | (Some _, o') => (true, o')
  | (None, o') => (false, o')
  end.

(** The member, first replaced by a fresh container when missing or null; the
    updated object comes with it. *)
Definition sbj_get_or (fresh : sbj) (o : sbj) (key : string) : sbj * sbj :=
  match sbj_get (Some o) key with
  | Some SBJ_NULL | None => (fresh, sbj_set o key fresh)
  | Some v => (v, o)
  end.
Definition sbj_get_or_object := sbj_get_or (SBJ_OBJECT []).
Definition sbj_get_or_array := sbj_get_or (SBJ_ARRAY []).

Definition sbj_set_str (o : sbj) (k : string) (v : bytes) : sbj := sbj_set o k (SBJ_STRING (cstr v)).
Definition sbj_set_int (o : sbj) (k : string) (v : Z) : sbj := sbj_set o k (SBJ_INT v).
Definition sbj_set_bool (o : sbj) (k : string) (v : bool) : sbj := sbj_set o k (SBJ_BOOL v).

Definition sbj_get_str (o : option sbj) (k : string) (fb : option bytes) : option bytes :=
  sbj_as_str (sbj_get o k) fb.
Definition sbj_get_int (o : option sbj) (k : string) (fb : Z) : Z := sbj_as_int (sbj_get o k) fb.
Definition sbj_get_bool (o : option sbj) (k : string) (fb : bool) : bool :=
  sbj_as_bool (sbj_get o k) fb.

Definition sbj_update (dst : sbj) (src : option sbj) : sbj :=
  match dst, src with
  | SBJ_OBJECT _, Some (SBJ_OBJECT m) =>
      foldl (fun d kv => sbj_setn d (fst kv) (Some (sbj_clone (snd kv)))) dst m
  | _, _ => dst
  end.

(** ** Well-formed values

    Integers in the range of their C type, [SBJ_UINT] only above [INT64_MAX],
    object keys strictly increasing. *)

Fixpoint keys_sorted (ks : list bytes) : bool :=
  match ks with
  | k :: (l :: _) as ks' => match key_compare k l with Lt => keys_sorted ks' | _ => false end
  | _ => true
  end.

Fixpoint sbj_wf (v : sbj) : bool :=
  match v with
  | SBJ_INT i => in_range INT64_MIN INT64_MAX i
  | SBJ_UINT u => in_range (INT64_MAX + 1) UINT64_MAX u
  | SBJ_ARRAY items => forallb sbj_wf items
  | SBJ_OBJECT m => keys_sorted (map fst m) && forallb (fun kv => sbj_wf (snd kv)) m
  | _ => true
  end.

(** * Theorems *)

(** ** The key order *)

Fixpoint lex (a b : bytes) : comparison :=
  match a, b with
  | [], [] => Eq
  | [], _ => Lt
  | _, [] => Gt
  | x :: a', y :: b' => match code x ?= code y with Eq => lex a' b' | c => c end
  end.

Lemma key_compare_lex a b : key_compare a b = lex a b.
Proof.
  unfold key_compare. revert b. induction a as [|x a IH]; intros [|y b]; simpl; [done..|].
  destruct (code x ?= code y) eqn:E; [|done..]. rewrite <- IH. done.
Qed.

Definition key_lt (a b : bytes) : Prop := key_compare a b = Lt.

Lemma key_compare_eq a b : key_compare a b = Eq <-> a = b.
Proof.
  rewrite key_compare_lex. split.
  - revert b. induction a as [|x a IH]; intros [|y b]; simpl; try done.
    destruct (code x ?= code y) eqn:E; try done. intros H.
    apply Z.compare_eq_iff in E. f_equal; [by apply code_inj|by apply IH].
  - intros ->. induction b as [|y b IH]; [done|]. simpl. by rewrite Z.compare_refl.
Qed.

Lemma key_compare_antisym a b : key_compare b a = CompOpp (key_compare a b).
Proof.
  rewrite !key_compare_lex. revert b. induction a as [|x a IH]; intros [|y b]; simpl; try done.
  rewrite Z.compare_antisym. destruct (code x ?= code y); simpl; auto.
Qed.

#[export] Instance key_lt_trans : Transitive key_lt.
Proof.
  intros a b c. unfold key_lt. rewrite !key_compare_lex. revert b c.
  induction a as [|x a IH]; intros [|y b] [|z c]; simpl; try done.
  destruct (Z.compare_spec (code x) (code y)) as [E|L|G]; try done;
    destruct (Z.compare_spec (code y) (code z)) as [E'|L'|G']; try done;
    destruct (Z.compare_spec (code x) (code z)); try done; try lia. apply IH.
Qed.

Lemma key_lt_irrefl a : ~ key_lt a a.
Proof. unfold key_lt. by rewrite (proj2 (key_compare_eq a a) eq_refl). Qed.

Lemma key_compare_gt a b : key_compare a b = Gt <-> key_lt b a.
Proof. unfold key_lt. rewrite key_compare_antisym. by destruct (key_compare b a). Qed.

#[export] Hint Resolve key_lt_irrefl : sb.

Lemma keys_sorted_strong ks : keys_sorted ks = true <-> StronglySorted key_lt ks.
Proof.
  split.
  - intros H. apply Sorted_StronglySorted; [exact key_lt_trans|].
    induction ks as [|k ks IH]; [constructor|].
    destruct ks as [|l ks]; [by repeat constructor|]. cbn [keys_sorted] in H.
    destruct (key_compare k l) eqn:E; [done| |done]. constructor; [by apply IH|by constructor].
  - induction 1 as [|k ks H IH F]; [done|]. destruct ks as [|l ks]; [done|].
    cbn [keys_sorted]. apply Forall_cons in F as [F _]. unfold key_lt in F. by rewrite F.
Qed.

(** ** Bisection *)

(** Where a key is, or would be inserted, in a sorted member list. *)
Inductive find_spec (m : list (bytes * sbj)) (key : bytes) : nat * bool -> Prop :=
  | find_here m1 v m2 :
      m = m1 ++ (key, v) :: m2 ->
      Forall (fun kv => key_lt (fst kv) key) m1 -> Forall (fun kv => key_lt key (fst kv)) m2 ->
      find_spec m key (length m1, true)
  | find_missing m1 m2 :
      m = m1 ++ m2 ->
      Forall (fun kv => key_lt (fst kv) key) m1 -> Forall (fun kv => key_lt key (fst kv)) m2 ->
      find_spec m key (length m1, false).

Definition obj_sorted (m : list (bytes * sbj)) : Prop := StronglySorted key_lt (map fst m).

Lemma obj_sorted_cons k v m :
  obj_sorted ((k, v) :: m) <-> Forall (fun kv => key_lt k (fst kv)) m /\ obj_sorted m.
Proof.
  unfold obj_sorted. cbn [map fst]. rewrite <- (Forall_map fst (key_lt k)). split.
  - intros S. by apply StronglySorted_inv in S as [? ?].
  - intros [F S]. by constructor.
Qed.

Lemma obj_sorted_lookup m i j ki kj vi vj :
  obj_sorted m -> (i < j)%nat -> m !! i = Some (ki, vi) -> m !! j = Some (kj, vj) -> key_lt ki kj.
Proof.
  intros S. revert i j. induction m as [|[k v] m IH]; intros i j Hij Hi Hj; [done|].
  apply StronglySorted_inv in S as [S F]. destruct j as [|j]; [lia|]. simpl in Hj.
  destruct i as [|i]; simpl in Hi.
  - injection Hi as <- <-. rewrite Forall_forall in F. apply F, list_elem_of_In.
    change (kj) with (fst (kj, vj)). apply in_map, list_elem_of_In, (list_elem_of_lookup_2 _ j), Hj.
  - apply (IH S i j); [lia|done..].
Qed.

Lemma Forall_take_lookup {A} (P : A -> Prop) l n :
  (forall i x, (i < n)%nat -> l !! i = Some x -> P x) -> Forall P (take n l).
Proof.
  intros H. apply Forall_lookup. intros i x Hi. apply lookup_take_Some in Hi as [Hi Hn]. eauto.
Qed.

Lemma Forall_drop_lookup {A} (P : A -> Prop) l n :
  (forall i x, (n <= i)%nat -> l !! i = Some x -> P x) -> Forall P (drop n l).
Proof.
  intros H. apply Forall_lookup. intros i x Hi. rewrite lookup_drop in Hi.
  eapply H; [|exact Hi]. lia.
Qed.

Lemma obj_find_loop_spec fuel m key lo hi :
  obj_sorted m -> (hi - lo < fuel)%nat -> (lo <= hi <= length m)%nat ->
  (forall i k v, (i < lo)%nat -> m !! i = Some (k, v) -> key_lt k key) ->
  (forall i k v, (hi <= i)%nat -> m !! i = Some (k, v) -> key_lt key k) ->
  find_spec m key (obj_find_loop fuel m key lo hi).
Proof.
  intros Hs. revert lo hi. induction fuel as [|fuel IH]; intros lo hi Hf Hr Hlo Hhi; [lia|].
  cbn [obj_find_loop]. destruct (Nat.ltb_spec lo hi).
  2:{ replace lo with (length (take lo m)) at 1 by (rewrite length_take; lia).
      apply (find_missing _ _ (take lo m) (drop lo m)).
      - by rewrite take_drop.
      - apply Forall_take_lookup. intros i [k v] Hi Hl. by eapply Hlo.
      - apply Forall_drop_lookup. intros i [k v] Hi Hl. eapply Hhi; [|done]. lia. }
  set (mid := (lo + (hi - lo) / 2)%nat).
  assert (Hmid : (lo <= mid < hi)%nat).
  { unfold mid. pose proof (Nat.div_lt (hi - lo) 2 ltac:(lia) ltac:(lia)). lia. }
  destruct (lookup_lt_is_Some_2 m mid) as [[k v] Hk]; [lia|]. rewrite Hk.
  destruct (key_compare k key) eqn:E.
  - apply key_compare_eq in E as ->.
    replace mid with (length (take mid m)) at 1 by (rewrite length_take; lia).
    apply (find_here _ _ _ v (drop (S mid) m)); [by apply take_drop_split| |].
    + apply Forall_take_lookup. intros i [k' v'] Hi Hl. by apply (obj_sorted_lookup m i mid k' key v' v).
    + apply Forall_drop_lookup. intros i [k' v'] Hi Hl. by apply (obj_sorted_lookup m mid i key k' v v').
  - apply IH; [lia|lia| |done]. intros i k' v' Hi Hl.
    destruct (decide (i = mid)) as [-> |]; [by simplify_eq|].
    transitivity k; [|done]. apply (obj_sorted_lookup m i mid k' k v' v); [done|lia|done..].
  - apply IH; [lia|lia|done|]. intros i k' v' Hi Hl. apply key_compare_gt in E.
    destruct (decide (i = mid)) as [-> |]; [by simplify_eq|].
    transitivity k; [done|]. apply (obj_sorted_lookup m mid i k k' v v'); [done|lia|done..].
Qed.

Lemma obj_find_spec m key : obj_sorted m -> find_spec m key (obj_find m key).
Proof.
  intros S. apply obj_find_loop_spec; [done|lia|lia|lia|].
  intros i k v Hi Hl. apply lookup_lt_Some in Hl. lia.
Qed.

(** ** Objects implement finite maps *)

Definition obj_map (m : list (bytes * sbj)) : gmap bytes sbj := list_to_map m.

Lemma obj_sorted_NoDup m : obj_sorted m -> NoDup m.*1.
Proof.
  intros S. change (NoDup (map fst m)). unfold obj_sorted in S. induction S as [|k ks S IH F]; constructor; [|done].
  intros Hk. rewrite Forall_forall in F. apply F in Hk. by apply key_lt_irrefl in Hk.
Qed.

Lemma obj_map_lookup m k v : obj_sorted m -> obj_map m !! k = Some v <-> (k, v) ∈ m.
Proof. intros S. symmetry. apply elem_of_list_to_map. by apply obj_sorted_NoDup. Qed.

Lemma Forall_key_lt_notin (m : list (bytes * sbj)) key :
  Forall (fun kv => key_lt (fst kv) key) m \/ Forall (fun kv => key_lt key (fst kv)) m ->
  forall v, (key, v) ∉ m.
Proof.
  intros H v Hin. destruct H as [H|H]; rewrite Forall_forall in H;
    apply H in Hin; by apply key_lt_irrefl in Hin.
Qed.

Lemma obj_map_middle m1 m2 key v :
  Forall (fun kv => key_lt (fst kv) key) m1 ->
  obj_map (m1 ++ (key, v) :: m2) = <[key := v]> (obj_map (m1 ++ m2)).
Proof.
  intros F. unfold obj_map. induction m1 as [|[k w] m1 IH]; [done|].
  apply Forall_cons in F as [Hk F]. simpl. rewrite IH by done.
  apply insert_insert_ne. intros ->. by apply key_lt_irrefl in Hk.
Qed.

Lemma obj_map_missing m1 m2 key :
  Forall (fun kv => key_lt (fst kv) key) m1 -> Forall (fun kv => key_lt key (fst kv)) m2 ->
  obj_map (m1 ++ m2) !! key = None.
Proof.
  intros F1 F2. apply not_elem_of_list_to_map_1. intros Hin.
  apply list_elem_of_fmap in Hin as ([k v] & Hk & Hin). simpl in Hk. subst k.
  apply elem_of_app in Hin as [Hin|Hin]; revert Hin; apply Forall_key_lt_notin; auto.
Qed.

Lemma obj_sorted_middle m1 m2 key v :
  obj_sorted (m1 ++ m2) ->
  Forall (fun kv => key_lt (fst kv) key) m1 -> Forall (fun kv => key_lt key (fst kv)) m2 ->
  obj_sorted (m1 ++ (key, v) :: m2).
Proof.
  unfold obj_sorted. intros S F1 F2. induction m1 as [|[k w] m1 IH]; simpl in *.
  - constructor; [done|]. by apply Forall_map.
  - apply StronglySorted_inv in S as [S F]. apply Forall_cons in F1 as [H1 F1].
    constructor; [by apply IH|]. rewrite map_app in *. simpl.
    rewrite Forall_app in *. destruct F. auto.
Qed.

Lemma obj_sorted_remove m1 m2 kv : obj_sorted (m1 ++ kv :: m2) -> obj_sorted (m1 ++ m2).
Proof.
  unfold obj_sorted. induction m1 as [|[k w] m1 IH]; simpl; intros S;
    apply StronglySorted_inv in S as [S F]; [done|].
  constructor; [by apply IH|]. rewrite map_app in *. simpl in F.
  rewrite Forall_app, Forall_cons in *. tauto.
Qed.

Lemma sbj_getn_map m k : obj_sorted m -> sbj_getn (Some (SBJ_OBJECT m)) k = obj_map m !! k.
Proof.
  intros S. simpl. destruct (obj_find_spec m k S) as [m1 v m2 -> F1 F2 | m1 m2 -> F1 F2].
  - rewrite lookup_middle by done. rewrite obj_map_middle by done. by rewrite lookup_insert_eq.
  - by rewrite obj_map_missing.
Qed.

Lemma sbj_setn_map m k v :
  obj_sorted m ->
  exists m', sbj_setn (SBJ_OBJECT m) k v = SBJ_OBJECT m' /\ obj_sorted m' /\
             obj_map m' = <[k := or_null v]> (obj_map m).
Proof.
  intros S. simpl. destruct (obj_find_spec m k S) as [m1 w m2 -> F1 F2 | m1 m2 -> F1 F2].
  - eexists; split; [done|]. rewrite insert_middle by done.
    split; [apply obj_sorted_middle; eauto using obj_sorted_remove|].
    rewrite !obj_map_middle by done. by rewrite insert_insert_eq.
  - eexists; split; [done|]. rewrite take_app_length, drop_app_length.
    split; [by apply obj_sorted_middle|]. by rewrite obj_map_middle.
Qed.

Lemma sbj_take_map m k :
  obj_sorted m ->
  exists m', sbj_take (SBJ_OBJECT m) k = (obj_map m !! bs k, SBJ_OBJECT m') /\ obj_sorted m' /\
             obj_map m' = delete (bs k) (obj_map m).
Proof.
  intros S. simpl. destruct (obj_find_spec m (bs k) S) as [m1 w m2 -> F1 F2 | m1 m2 -> F1 F2].
  - exists (m1 ++ m2). rewrite lookup_middle by done.
    rewrite take_app_length, drop_app_ge, Nat.sub_succ_l, Nat.sub_diag by lia. simpl.
    rewrite obj_map_middle, lookup_insert_eq by done.
    split; [done|split; [by eapply obj_sorted_remove|]].
    rewrite delete_insert_id; [done|by apply obj_map_missing].
  - exists (m1 ++ m2). rewrite obj_map_missing by done. split; [done|split; [done|]].
    rewrite delete_id; [done|by apply obj_map_missing].
Qed.

(** No key of a sorted list is below its first one. *)
Lemma obj_map_head_least l w m k v :
  obj_sorted ((l, w) :: m) -> obj_map ((l, w) :: m) !! k = Some v -> ~ key_lt k l.
Proof.
  intros S E C. apply obj_map_lookup in E; [|done]. apply StronglySorted_inv in S as [_ F].
  apply elem_of_cons in E as [[= -> ->] | E]; [by apply key_lt_irrefl in C|].
  rewrite Forall_forall in F. specialize (F k).
  apply (key_lt_irrefl k). transitivity l; [done|]. apply F.
  apply list_elem_of_In, in_map_iff. exists (k, v). split; [done|by apply list_elem_of_In].
Qed.

(** Sorted member lists with the same lookups are the same list. *)
Lemma obj_map_inj m1 m2 : obj_sorted m1 -> obj_sorted m2 -> obj_map m1 = obj_map m2 -> m1 = m2.
Proof.
  revert m2. induction m1 as [|[k v] m1 IH]; intros [|[l w] m2] S1 S2 E; [done| | |].
  - apply (f_equal (lookup l)) in E. simpl in E. by rewrite lookup_insert_eq, lookup_empty in E.
  - apply (f_equal (lookup k)) in E. simpl in E. by rewrite lookup_insert_eq, lookup_empty in E.
  - assert (Ek : obj_map ((k, v) :: m1) !! k = Some v) by apply lookup_insert_eq.
    assert (El : obj_map ((l, w) :: m2) !! l = Some w) by apply lookup_insert_eq.
    assert (k = l) as <-.
    { rewrite E in Ek. rewrite <- E in El. apply obj_map_head_least in Ek, El; [|done..].
      destruct (key_compare k l) eqn:C; [by apply key_compare_eq|done|by apply key_compare_gt in C]. }
    assert (w = v) as -> by (rewrite E, El in Ek; by injection Ek).
    f_equal. apply obj_sorted_cons in S1 as [F1 S1], S2 as [F2 S2].
    apply IH; [done..|]. apply (f_equal (delete k)) in E. simpl in E.
    by rewrite !delete_insert_id in E by (by apply (obj_map_missing [])).
Qed.

(** Evaluates lookups in objects whose keys are known. *)
Ltac eval_get :=
  repeat match goal with
  | |- context [sbj_get ?o ?k] =>
      let r := eval vm_compute in (sbj_get o k) in
      change (sbj_get o k) with r
  end.

(** Objects are finite maps.  On sorted members, [sbj_getn] is lookup,
    [sbj_setn] insertion and [sbj_take] deletion of the map the members stand
    for; the members stay sorted, and a sorted member list is determined by its
    map. *)
Theorem sbj_object_is_map m :
  obj_sorted m ->
  (forall k, sbj_getn (Some (SBJ_OBJECT m)) k = obj_map m !! k) /\
  (forall k v, exists m', sbj_setn (SBJ_OBJECT m) k v = SBJ_OBJECT m' /\ obj_sorted m' /\
                          obj_map m' = <[k := or_null v]> (obj_map m)) /\
  (forall k, exists m', sbj_take (SBJ_OBJECT m) k = (obj_map m !! bs k, SBJ_OBJECT m') /\
                        obj_sorted m' /\ obj_map m' = delete (bs k) (obj_map m)) /\
  (forall m', obj_sorted m' -> obj_map m = obj_map m' -> m = m').
Proof.
  intros S. split; [|split; [|split]]; intros.
  - by apply sbj_getn_map.
  - by apply sbj_setn_map.
  - by apply sbj_take_map.
  - by apply obj_map_inj.
Qed.

Definition sample_members : list (bytes * sbj) :=
  [(bs "a", SBJ_INT 1); (bs "ab", SBJ_NULL); (bs "b", SBJ_BOOL true)].

Lemma sbj_object_is_map_witness :
  sbj_getn (Some (SBJ_OBJECT sample_members)) (bs "ab") = Some SBJ_NULL /\
  obj_map sample_members !! bs "ab" = Some SBJ_NULL.
Proof.
  assert (S : obj_sorted sample_members) by (apply keys_sorted_strong; vm_compute; reflexivity).
  split; [|rewrite <- (proj1 (sbj_object_is_map sample_members S))]; vm_compute; reflexivity.
Defined.

(** ** Well-formedness is preserved *)

Lemma wf_object m :
  sbj_wf (SBJ_OBJECT m) = true <-> obj_sorted m /\ Forall (fun kv => sbj_wf (snd kv) = true) m.
Proof.
  simpl. rewrite andb_true_iff, keys_sorted_strong, forallb_forall, Forall_forall.
  unfold obj_sorted. by setoid_rewrite list_elem_of_In.
Qed.

Lemma wf_array l : sbj_wf (SBJ_ARRAY l) = true <-> Forall (fun v => sbj_wf v = true) l.
Proof. simpl. rewrite forallb_forall, Forall_forall. by setoid_rewrite list_elem_of_In. Qed.

Lemma wf_getn o k v : sbj_wf o = true -> sbj_getn (Some o) k = Some v -> sbj_wf v = true.
Proof.
  destruct o; try done. rewrite wf_object. intros [S F] G. rewrite sbj_getn_map in G by done.
  apply obj_map_lookup in G; [|done]. rewrite Forall_forall in F. by apply (F (k, v)).
Qed.

Lemma wf_get o k v : sbj_wf o = true -> sbj_get (Some o) k = Some v -> sbj_wf v = true.
Proof. apply wf_getn. Qed.

Lemma wf_setn o k v :
  sbj_wf o = true -> sbj_wf (or_null v) = true -> sbj_wf (sbj_setn o k v) = true.
Proof.
  destruct o as [| | | | | | |m]; try done. rewrite wf_object. intros [S F] Hv.
  destruct (sbj_setn_map m k v S) as (m' & -> & S' & E). apply wf_object. split; [done|].
  rewrite Forall_forall in F |- *. intros [k' v'] Hin. apply obj_map_lookup in Hin; [|done].
  rewrite E, lookup_insert in Hin. case_decide; simplify_eq; [done|].
  apply obj_map_lookup in Hin; [|done]. by apply (F (k', v')).
Qed.

Lemma wf_set o k v : sbj_wf o = true -> sbj_wf v = true -> sbj_wf (sbj_set o k v) = true.
Proof. intros. by apply wf_setn. Qed.

Lemma wf_take o k : sbj_wf o = true -> sbj_wf (snd (sbj_take o k)) = true.
Proof.
  destruct o as [| | | | | | |m]; try done. rewrite wf_object. intros [S F].
  destruct (sbj_take_map m k S) as (m' & -> & S' & E). apply wf_object. split; [done|].
  rewrite Forall_forall in F |- *. intros [k' v'] Hin. apply obj_map_lookup in Hin; [|done].
  rewrite E in Hin. apply lookup_delete_Some in Hin as [_ Hin].
  apply obj_map_lookup in Hin; [|done]. by apply (F (k', v')).
Qed.

Lemma sbj_del_take o k : snd (sbj_del o k) = snd (sbj_take o k).
Proof. unfold sbj_del. by destruct (sbj_take o k) as [[]]. Qed.

Lemma wf_del o k : sbj_wf o = true -> sbj_wf (snd (sbj_del o k)) = true.
Proof. rewrite sbj_del_take. apply wf_take. Qed.

Lemma wf_push a v : sbj_wf a = true -> sbj_wf (or_null v) = true -> sbj_wf (sbj_arr_push a v) = true.
Proof.
  destruct a; try done. rewrite wf_array. intros F Hv. apply wf_array, Forall_app; auto.
Qed.

Lemma wf_insert a i v :
  sbj_wf a = true -> sbj_wf (or_null v) = true -> sbj_wf (sbj_arr_insert a i v) = true.
Proof.
  destruct a; try done. rewrite wf_array. intros F Hv. apply wf_array.
  apply Forall_app; split; [by apply Forall_take|]. constructor; [done|by apply Forall_drop].
Qed.

Lemma wf_items a v : sbj_wf a = true -> v ∈ arr_items (Some a) -> sbj_wf v = true.
Proof.
  destruct a; simpl; intros H Hv; try by apply elem_of_nil in Hv.
  apply wf_array in H. rewrite Forall_forall in H. auto.
Qed.

#[export] Hint Resolve wf_get wf_getn wf_set wf_setn wf_del wf_push wf_insert : sb.

Lemma map_id_Forall {A} (f : A -> A) l : Forall (fun x => f x = x) l -> map f l = l.
Proof. induction 1; simpl; congruence. Qed.

Lemma sbj_clone_wf_id v : sbj_wf v = true -> sbj_clone v = v.
Proof.
  induction v as [| | |u| | |l IH|m IH] using sbj_ind; intros H; try done.
  - simpl in *. unfold in_range in H. bool_facts. unfold sbj_uint. by rewrite leb_false by lia.
  - rewrite wf_array in H. simpl. f_equal. apply map_id_Forall.
    rewrite Forall_forall in *. auto.
  - rewrite wf_object in H. destruct H as [_ F]. simpl. f_equal. apply map_id_Forall.
    rewrite Forall_forall in *. intros [k v] Hkv. simpl. f_equal. by apply (IH (k, v)), (F (k, v)).
Qed.

Lemma wf_update dst src : sbj_wf dst = true -> sbj_wf src = true -> sbj_wf (sbj_update dst (Some src)) = true.
Proof.
  intros Hd Hs. destruct dst; try done. destruct src as [| | | | | | |m]; try done.
  cbn [sbj_update]. apply wf_object in Hs as [_ F]. revert Hd. generalize (SBJ_OBJECT members).
  induction F as [|[k w] m Hw Hm IH]; intros d Hd; [done|]. simpl in *.
  apply IH, wf_setn; [done|]. by rewrite sbj_clone_wf_id.
Qed.

Lemma wf_remove a i : sbj_wf a = true -> sbj_wf (sbj_arr_remove a i) = true.
Proof.
  destruct a as [| | | | | |l|]; try done. unfold sbj_arr_remove. cbn [sbj_arr_take].
  destruct (l !! i); [|done]. cbn [snd]. rewrite !wf_array. intros H. apply Forall_app.
  split; [by apply Forall_take|by apply Forall_drop].
Qed.

#[export] Hint Resolve wf_update wf_remove : sb.

(** No operation breaks a value.  Setting, deleting and detaching members,
    pushing, inserting and removing elements keep keys sorted and every number
    in range, at any depth. *)
Theorem sbj_ops_preserve_wf a v :
  sbj_wf a = true -> sbj_wf v = true ->
  (forall k, sbj_wf (sbj_setn a k (Some v)) = true) /\
  (forall k, sbj_wf (snd (sbj_del a k)) = true) /\
  sbj_wf (sbj_arr_push a (Some v)) = true /\
  (forall i, sbj_wf (sbj_arr_insert a i (Some v)) = true) /\
  (forall i, sbj_wf (sbj_arr_remove a i) = true) /\
  sbj_wf (sbj_update a (Some v)) = true.
Proof.
  intros Ha Hv. repeat split; intros; auto with sb.
Qed.

Lemma sbj_ops_preserve_wf_witness :
  sbj_wf (sbj_setn (SBJ_OBJECT sample_members) (bs "aa") (Some (SBJ_STRING (bs "x")))) = true.
Proof. apply sbj_ops_preserve_wf; vm_compute; reflexivity. Defined.

(** ** Reading back what was written *)

Lemma sbj_getn_setn o k v k' :
  sbj_wf o = true -> sbj_is_object (Some o) = true ->
  sbj_getn (Some (sbj_setn o k v)) k' =
  if decide (k = k') then Some (or_null v) else sbj_getn (Some o) k'.
Proof.
  destruct o as [| | | | | | |m]; try done. rewrite wf_object. intros [S F] _.
  destruct (sbj_setn_map m k v S) as (m' & -> & S' & E).
  by rewrite !sbj_getn_map, E, lookup_insert by done.
Qed.

Lemma bs_inj s t : bs s = bs t -> s = t.
Proof.
  intros H. rewrite <- (String.string_of_list_ascii_of_string s),
    <- (String.string_of_list_ascii_of_string t). by f_equal.
Qed.

Lemma sbj_get_set o k v k' :
  sbj_wf o = true -> sbj_is_object (Some o) = true ->
  sbj_get (Some (sbj_set o k v)) k' =
  if String.eqb k k' then Some v else sbj_get (Some o) k'.
Proof.
  intros W O. unfold sbj_get, sbj_set. rewrite sbj_getn_setn by done.
  destruct (String.eqb_spec k k') as [-> | N]; case_decide as D; try done.
  by apply bs_inj in D.
Qed.

Lemma sbj_get_del o k k' :
  sbj_wf o = true -> sbj_is_object (Some o) = true ->
  sbj_get (Some (snd (sbj_del o k))) k' =
  if String.eqb k k' then None else sbj_get (Some o) k'.
Proof.
  destruct o as [| | | | | | |m]; try done. rewrite wf_object. intros [S F] _.
  rewrite sbj_del_take. destruct (sbj_take_map m k S) as (m' & -> & S' & E). simpl snd.
  unfold sbj_get. rewrite !sbj_getn_map, E, lookup_delete by done.
  destruct (String.eqb_spec k k') as [-> | N]; case_decide as D; try done.
  by apply bs_inj in D.
Qed.

Lemma is_object_setn o k v : sbj_is_object (Some (sbj_setn o k v)) = sbj_is_object (Some o).
Proof. destruct o; try done. simpl. by destruct (obj_find members k). Qed.
Lemma is_object_set o k v : sbj_is_object (Some (sbj_set o k v)) = sbj_is_object (Some o).
Proof. apply is_object_setn. Qed.
Lemma is_object_del o k : sbj_is_object (Some (snd (sbj_del o k))) = sbj_is_object (Some o).
Proof.
  rewrite sbj_del_take. destruct o; try done. simpl. by destruct (obj_find members (bs k)) as [? []].
Qed.

(** ** Copies, equality and merging *)

(** [sbj_clone] copies a well-formed value exactly. *)
Theorem sbj_clone_exact v : sbj_wf v = true -> sbj_clone v = v.
Proof. apply sbj_clone_wf_id. Qed.

Lemma sbj_clone_exact_witness :
  sbj_clone (SBJ_ARRAY [SBJ_OBJECT sample_members; SBJ_UINT (2 ^ 64 - 1)]) =
  SBJ_ARRAY [SBJ_OBJECT sample_members; SBJ_UINT (2 ^ 64 - 1)].
Proof. apply sbj_clone_exact. vm_compute. reflexivity. Defined.

Fixpoint sbj_no_float (v : sbj) : bool :=
  match v with
  | SBJ_FLOAT _ => false
  | SBJ_ARRAY l => forallb sbj_no_float l
  | SBJ_OBJECT m => forallb (fun kv => sbj_no_float (snd kv)) m
  | _ => true
  end.

(** Without floats [sbj_equal] decides equality of values. *)
Theorem sbj_equal_spec a b :
  sbj_no_float a = true -> sbj_no_float b = true -> sbj_equal (Some a) (Some b) = true <-> a = b.
Proof.
  simpl. revert b. induction a as [| | | | | |l IH|m IH] using sbj_ind; intros [] Ha Hb; simpl in *; try done;
    try (split; congruence); rewrite ?Z.eqb_eq, ?bytes_eqb_eq, ?eqb_true_iff;
    try (split; congruence).
  - revert items Ha Hb. induction IH as [|x l Hx Hl IHl]; intros [|y ys] Ha Hb; simpl in *; try done.
    bool_facts. specialize (IHl ys). rewrite !andb_true_iff in *. rewrite Hx by done.
    split; intros H'.
    + destruct H' as (HL & -> & Hr). f_equal. apply IHl in H0; [|done]. destruct H0 as [H0 _].
      assert (E : SBJ_ARRAY l = SBJ_ARRAY ys) by (apply H0; auto). by injection E as ->.
    + injection H' as -> ->. apply IHl in H0; [|done]. destruct H0 as [_ H0]. destruct H0; auto.
  - revert members Ha Hb. induction IH as [|[k x] l Hx Hl IHl]; intros [|[k' y] ys] Ha Hb; simpl in *; try done.
    bool_facts. specialize (IHl ys). rewrite !andb_true_iff in *. rewrite Hx, bytes_eqb_eq by done.
    split; intros H'.
    + destruct H' as (HL & (-> & ->) & Hr). f_equal. apply IHl in H0; [|done]. destruct H0 as [H0 _].
      assert (E : SBJ_OBJECT l = SBJ_OBJECT ys) by (apply H0; auto). by injection E as ->.
    + injection H' as -> -> ->. apply IHl in H0; [|done]. destruct H0 as [_ H0]. destruct H0; auto.
Qed.

Lemma sbj_equal_spec_witness :
  sbj_equal (Some (SBJ_OBJECT sample_members)) (Some (SBJ_OBJECT sample_members)) = true /\
  SBJ_OBJECT sample_members = SBJ_OBJECT sample_members.
Proof.
  split; [vm_compute; reflexivity|].
  apply (sbj_equal_spec (SBJ_OBJECT sample_members) (SBJ_OBJECT sample_members)); vm_compute; reflexivity.
Defined.

Lemma update_fold_map m src :
  obj_sorted m -> Forall (fun kv => sbj_wf (snd kv) = true) src -> obj_sorted src ->
  exists m', foldl (fun d kv => sbj_setn d (fst kv) (Some (sbj_clone (snd kv)))) (SBJ_OBJECT m) src
             = SBJ_OBJECT m' /\ obj_sorted m' /\ obj_map m' = obj_map src ∪ obj_map m.
Proof.
  intros S F Ss. revert m S. induction src as [|[k v] src IH]; intros m S.
  { exists m. split; [done|split; [done|]]. unfold obj_map. simpl. by rewrite (left_id_L ∅ (∪)). }
  apply Forall_cons in F as [Hv F]. apply obj_sorted_cons in Ss as [Fk Ss]. cbn [foldl fst snd].
  destruct (sbj_setn_map m k (Some (sbj_clone v)) S) as (m1 & E1 & S1 & M1). rewrite E1.
  destruct (IH F Ss m1 S1) as (m2 & -> & S2 & M2). exists m2. split; [done|split; [done|]].
  rewrite M2, M1. simpl in Hv |- *. rewrite sbj_clone_wf_id by done.
  change (obj_map ((k, v) :: src)) with (<[k := v]> (obj_map src)).
  rewrite <- insert_union_r by (by apply (obj_map_missing [])). by rewrite insert_union_l.
Qed.

(** [sbj_update] overwrites the members of the target by those of the source
    and keeps the others. *)
Theorem sbj_update_union m src :
  obj_sorted m -> sbj_wf (SBJ_OBJECT src) = true ->
  exists m', sbj_update (SBJ_OBJECT m) (Some (SBJ_OBJECT src)) = SBJ_OBJECT m' /\
             obj_sorted m' /\ obj_map m' = obj_map src ∪ obj_map m.
Proof. intros S W. apply wf_object in W as [Ss F]. by apply update_fold_map. Qed.

Lemma sbj_update_union_witness :
  exists m', sbj_update (SBJ_OBJECT sample_members) (Some (SBJ_OBJECT sample_members)) = SBJ_OBJECT m' /\
             obj_sorted m' /\ obj_map m' = obj_map sample_members ∪ obj_map sample_members.
Proof.
  apply sbj_update_union; [apply keys_sorted_strong|]; vm_compute; reflexivity.
Defined.
