(* ===== verification/Grisu.v ===== *)
(** * Shortest float formatting ([c/src/json_grisu.inc])

    The Grisu2 digit generator used by the JSON serialiser, with its 64-bit
    unsigned arithmetic written out.  [grisu2] returns the decimal digits (as
    characters) and the decimal exponent. *)

From Stdlib Require Import SpecFloat.
From S2P Require Import Prelude Json.

Record diyfp := mk_diy { diy_f : Z; diy_e : Z }.

Definition diy_sub (x y : diyfp) : diyfp := mk_diy (to_u64 (diy_f x - diy_f y)) (diy_e x).

Definition low32 (z : Z) : Z := Z.land z 0xFFFFFFFF.

Definition diy_mul (x y : diyfp) : diyfp :=
  let u_lo := low32 (diy_f x) in
  let u_hi := Z.shiftr (diy_f x) 32 in
  let v_lo := low32 (diy_f y) in
  let v_hi := Z.shiftr (diy_f y) 32 in
  let p0 := to_u64 (u_lo * v_lo) in
  let p1 := to_u64 (u_lo * v_hi) in
  let p2 := to_u64 (u_hi * v_lo) in
  let p3 := to_u64 (u_hi * v_hi) in
  let q := to_u64 (Z.shiftr p0 32 + low32 p1 + low32 p2) in
  let q := to_u64 (q + Z.shiftl 1 31) in
  mk_diy (to_u64 (p3 + Z.shiftr p2 32 + Z.shiftr p1 32 + Z.shiftr q 32)) (diy_e x + diy_e y + 64).

(** At most 63 shifts bring the top bit of a non-zero significand to bit 63. *)
Fixpoint diy_normalize_loop (fuel : nat) (x : diyfp) : diyfp :=
  match fuel with
  | O => x
  | S fuel' =>
      if Z.shiftr (diy_f x) 63 =? 0
      then diy_normalize_loop fuel' (mk_diy (to_u64 (Z.shiftl (diy_f x) 1)) (diy_e x - 1))
      else x
  end.
Definition diy_normalize (x : diyfp) : diyfp := diy_normalize_loop 64 x.

Definition diy_normalize_to (x : diyfp) (e : Z) : diyfp :=
  mk_diy (to_u64 (Z.shiftl (diy_f x) (diy_e x - e))) e.

Record boundaries := mk_bounds { b_w : diyfp; b_minus : diyfp; b_plus : diyfp }.

(** The exponent and fraction fields of a non-negative binary64 number. *)
Definition double_fields (value : double) : Z * Z :=
  match value with
  | S754_finite _ m e => if 2 ^ 52 <=? Z.pos m then (e + 1075, Z.pos m - 2 ^ 52) else (0, Z.pos m)
  | _ => (0, 0)
  end.

Definition compute_boundaries (value : double) : boundaries :=
  let kPrecision := 53 in
  let kBias := 1024 - 1 + (kPrecision - 1) in
  let kMinExp := 1 - kBias in
  let kHiddenBit := Z.shiftl 1 (kPrecision - 1) in
  let (E, F) := double_fields value in
  let v := if E =? 0 then mk_diy F kMinExp else mk_diy (F + kHiddenBit) (E - kBias) in
  let lower_closer := (F =? 0) && (1 <? E) in
  let m_plus := mk_diy (2 * diy_f v + 1) (diy_e v - 1) in
  let m_minus := if lower_closer then mk_diy (4 * diy_f v - 1) (diy_e v - 2)
                 else mk_diy (2 * diy_f v - 1) (diy_e v - 1) in
  let plus := diy_normalize m_plus in
  mk_bounds (diy_normalize v) (diy_normalize_to m_minus (diy_e plus)) plus.

Definition kAlpha : Z := -60.
Definition kGamma : Z := -32.

Record cached_power := mk_cached { c_f : Z; c_e : Z; c_k : Z }.

Definition kCachedPowers : list cached_power :=
  [mk_cached 0xAB70FE17C79AC6CA (-1060) (-300);
   mk_cached 0xFF77B1FCBEBCDC4F (-1034) (-292);
   mk_cached 0xBE5691EF416BD60C (-1007) (-284);
   mk_cached 0x8DD01FAD907FFC3C (-980) (-276);
   mk_cached 0xD3515C2831559A83 (-954) (-268);
   mk_cached 0x9D71AC8FADA6C9B5 (-927) (-260);
   mk_cached 0xEA9C227723EE8BCB (-901) (-252);
   mk_cached 0xAECC49914078536D (-874) (-244);
   mk_cached 0x823C12795DB6CE57 (-847) (-236);
   mk_cached 0xC21094364DFB5637 (-821) (-228);
   mk_cached 0x9096EA6F3848984F (-794) (-220);
   mk_cached 0xD77485CB25823AC7 (-768) (-212);
   mk_cached 0xA086CFCD97BF97F4 (-741) (-204);
   mk_cached 0xEF340A98172AACE5 (-715) (-196);
   mk_cached 0xB23867FB2A35B28E (-688) (-188);
   mk_cached 0x84C8D4DFD2C63F3B (-661) (-180);
   mk_cached 0xC5DD44271AD3CDBA (-635) (-172);
   mk_cached 0x936B9FCEBB25C996 (-608) (-164);
   mk_cached 0xDBAC6C247D62A584 (-582) (-156);
   mk_cached 0xA3AB66580D5FDAF6 (-555) (-148);
   mk_cached 0xF3E2F893DEC3F126 (-529) (-140);
   mk_cached 0xB5B5ADA8AAFF80B8 (-502) (-132);
   mk_cached 0x87625F056C7C4A8B (-475) (-124);
   mk_cached 0xC9BCFF6034C13053 (-449) (-116);
   mk_cached 0x964E858C91BA2655 (-422) (-108);
   mk_cached 0xDFF9772470297EBD (-396) (-100);
   mk_cached 0xA6DFBD9FB8E5B88F (-369) (-92);
   mk_cached 0xF8A95FCF88747D94 (-343) (-84);
   mk_cached 0xB94470938FA89BCF (-316) (-76);
   mk_cached 0x8A08F0F8BF0F156B (-289) (-68);
   mk_cached 0xCDB02555653131B6 (-263) (-60);
   mk_cached 0x993FE2C6D07B7FAC (-236) (-52);
   mk_cached 0xE45C10C42A2B3B06 (-210) (-44);
   mk_cached 0xAA242499697392D3 (-183) (-36);
   mk_cached 0xFD87B5F28300CA0E (-157) (-28);
   mk_cached 0xBCE5086492111AEB (-130) (-20);
   mk_cached 0x8CBCCC096F5088CC (-103) (-12);
   mk_cached 0xD1B71758E219652C (-77) (-4);
   mk_cached 0x9C40000000000000 (-50) (4);
   mk_cached 0xE8D4A51000000000 (-24) (12);
   mk_cached 0xAD78EBC5AC620000 (3) (20);
   mk_cached 0x813F3978F8940984 (30) (28);
   mk_cached 0xC097CE7BC90715B3 (56) (36);
   mk_cached 0x8F7E32CE7BEA5C70 (83) (44);
   mk_cached 0xD5D238A4ABE98068 (109) (52);
   mk_cached 0x9F4F2726179A2245 (136) (60);
   mk_cached 0xED63A231D4C4FB27 (162) (68);
   mk_cached 0xB0DE65388CC8ADA8 (189) (76);
   mk_cached 0x83C7088E1AAB65DB (216) (84);
   mk_cached 0xC45D1DF942711D9A (242) (92);
   mk_cached 0x924D692CA61BE758 (269) (100);
   mk_cached 0xDA01EE641A708DEA (295) (108);
   mk_cached 0xA26DA3999AEF774A (322) (116);
   mk_cached 0xF209787BB47D6B85 (348) (124);
   mk_cached 0xB454E4A179DD1877 (375) (132);
   mk_cached 0x865B86925B9BC5C2 (402) (140);
   mk_cached 0xC83553C5C8965D3D (428) (148);
   mk_cached 0x952AB45CFA97A0B3 (455) (156);
   mk_cached 0xDE469FBD99A05FE3 (481) (164);
   mk_cached 0xA59BC234DB398C25 (508) (172);
   mk_cached 0xF6C69A72A3989F5C (534) (180);
   mk_cached 0xB7DCBF5354E9BECE (561) (188);
   mk_cached 0x88FCF317F22241E2 (588) (196);
   mk_cached 0xCC20CE9BD35C78A5 (614) (204);
   mk_cached 0x98165AF37B2153DF (641) (212);
   mk_cached 0xE2A0B5DC971F303A (667) (220);
   mk_cached 0xA8D9D1535CE3B396 (694) (228);
   mk_cached 0xFB9B7CD9A4A7443C (720) (236);
   mk_cached 0xBB764C4CA7A44410 (747) (244);
   mk_cached 0x8BAB8EEFB6409C1A (774) (252);
   mk_cached 0xD01FEF10A657842C (800) (260);
   mk_cached 0x9B10A4E5E9913129 (827) (268);
   mk_cached 0xE7109BFBA19C0C9D (853) (276);
   mk_cached 0xAC2820D9623BF429 (880) (284);
   mk_cached 0x80444B5E7AA7CF85 (907) (292);
   mk_cached 0xBF21E44003ACDD2D (933) (300);
   mk_cached 0x8E679C2F5E44FF8F (960) (308);
   mk_cached 0xD433179D9C8CB841 (986) (316);
   mk_cached 0x9E19DB92B4E31BA9 (1013) (324)].

Definition get_cached_power (e : Z) : cached_power :=
  let f := kAlpha - e - 1 in
  let k := Z.quot (f * 78913) (2 ^ 18) + (if 0 <? f then 1 else 0) in
  let index := Z.quot (300 + k + (8 - 1)) 8 in
  default (mk_cached 0 0 0) (kCachedPowers !! Z.to_nat index).

(** The largest power of ten not above [n], and the number of digits of [n]. *)
Fixpoint find_pow10_from (n : Z) (p : list Z) (digits : nat) : Z * nat :=
  match p with
  | [] => (1, 1%nat)
  | q :: p' => if q <=? n then (q, digits) else find_pow10_from n p' (pred digits)
  end.
Definition find_largest_pow10 (n : Z) : Z * nat :=
  find_pow10_from n [1000000000; 100000000; 10000000; 1000000; 100000; 10000; 1000; 100; 10] 10.

(** [buf[len - 1]--] *)
Definition decr_last (buf : bytes) : bytes :=
  match reverse buf with
  | [] => []
  | c :: r => reverse (chr (code c - 1) :: r)
  end.

(** A digit can be lowered at most nine times. *)
Fixpoint grisu2_round_loop (fuel : nat) (buf : bytes) (dist delta rest ten_k : Z) : bytes :=
  match fuel with
  | O => buf
  | S fuel' =>
      if (rest <? dist) && (ten_k <=? to_u64 (delta - rest))
         && ((to_u64 (rest + ten_k) <? dist)
             || (to_u64 (rest + ten_k - dist) <? to_u64 (dist - rest)))
      then grisu2_round_loop fuel' (decr_last buf) dist delta (to_u64 (rest + ten_k)) ten_k
      else buf
  end.
Definition grisu2_round := grisu2_round_loop 10.

Section DigitGen.
(** [shift] is [-one.e], [one] is [one.f]. *)
Context (shift one : Z).

(** Digits after the binary point. *)
Fixpoint digits_fraction (fuel : nat) (buf : bytes) (m p2 delta dist : Z) : bytes * Z :=
  match fuel with
  | O => (buf, m)
  | S fuel' =>
      let p2 := to_u64 (p2 * 10) in
      let buf := buf ++ [chr (48 + Z.shiftr p2 shift)] in
      let p2 := Z.land p2 (one - 1) in
      let m := m + 1 in
      let delta := to_u64 (delta * 10) in
      let dist := to_u64 (dist * 10) in
      if p2 <=? delta then (grisu2_round buf dist delta p2 one, m)
      else digits_fraction fuel' buf m p2 delta dist
  end.

(** Digits of the integral part; falls through to the fraction. *)
Fixpoint digits_integral (n : nat) (buf : bytes) (exp10 p1 p2 pow10 delta dist : Z) : bytes * Z :=
  match n with
  | O =>
      let (buf, m) := digits_fraction 20 buf 0 p2 delta dist in (buf, exp10 - m)
  | S n' =>
      let buf := buf ++ [chr (48 + p1 / pow10)] in
      let p1 := p1 mod pow10 in
      let rest := to_u64 (Z.shiftl p1 shift + p2) in
      if rest <=? delta
      then (grisu2_round buf dist delta rest (to_u64 (Z.shiftl pow10 shift)), exp10 + Z.of_nat n')
      else digits_integral n' buf exp10 p1 p2 (pow10 / 10) delta dist
  end.
End DigitGen.

Definition grisu2_digit_gen (exp10 : Z) (M_minus w M_plus : diyfp) : bytes * Z :=
  let delta := diy_f (diy_sub M_plus M_minus) in
  let dist := diy_f (diy_sub M_plus w) in
  let shift := - diy_e M_plus in
  let one := to_u64 (Z.shiftl 1 shift) in
  let p1 := to_u32 (Z.shiftr (diy_f M_plus) shift) in
  let p2 := Z.land (diy_f M_plus) (one - 1) in
  let (pow10, n) := find_largest_pow10 p1 in
  digits_integral shift one n [] exp10 p1 p2 pow10 delta dist.

Definition grisu2 (value : double) : bytes * Z :=
  let b := compute_boundaries value in
  let cached := get_cached_power (diy_e (b_plus b)) in
  let c_minus_k := mk_diy (c_f cached) (c_e cached) in
  let w := diy_mul (b_w b) c_minus_k in
  let w_minus := diy_mul (b_minus b) c_minus_k in
  let w_plus := diy_mul (b_plus b) c_minus_k in
  grisu2_digit_gen (- c_k cached)
    (mk_diy (to_u64 (diy_f w_minus + 1)) (diy_e w_minus)) w
    (mk_diy (to_u64 (diy_f w_plus - 1)) (diy_e w_plus)).
