(* ===== verification/JsonText.v ===== *)
(** * JSON text ([c/src/json.c]): serialiser and parser

    [sbj_dump] appends to a buffer; the definitions return the bytes appended.
    The parser reads [p->s] from [p->pos]: the model keeps the unread bytes and
    the position.  Recursion is bounded by fuel, and [parse_document] hands out
    enough of it for every input (file [JsonSafe]). *)

From Stdlib Require Import SpecFloat.
From S2P Require Import Prelude Util Json Grisu.

(** ** Serialisation *)

(** Capacity after [buf_grow]. *)
Definition buf_grow (cap len extra : Z) : Z := grow 256 cap (len + extra + 1).

Definition dump_escape (c : ascii) : option bytes :=
  if code c =? 34 then Some [chr 92; chr 34]
  else if code c =? 92 then Some [chr 92; chr 92]
  else if code c =? 8 then Some (bs "\b")
  else if code c =? 12 then Some (bs "\f")
  else if code c =? 10 then Some (bs "\n")
  else if code c =? 13 then Some (bs "\r")
  else if code c =? 9 then Some (bs "\t")
  else if code c <? 32 then
    Some (bs "\u00" ++ [hex_digit (code c / 16); hex_digit (code c mod 16)])
  else None.

(** [i] is the index of the next byte, [run] how many bytes before it still
    have to be copied. *)
Fixpoint dump_string_loop (s rest : bytes) (i run : nat) : bytes :=
  match rest with
  | [] => take run (drop (i - run) s)
  | c :: rest' =>
      match dump_escape c with
      | Some esc => take run (drop (i - run) s) ++ esc ++ dump_string_loop s rest' (S i) 0
      | None => dump_string_loop s rest' (S i) (S run)
      end
  end.

Definition dump_string (s : bytes) : bytes := [chr 34] ++ dump_string_loop s s 0 0 ++ [chr 34].

Definition dump_exponent (ex : Z) : bytes :=
  [chr 101] ++ [if ex <? 0 then chr 45 else chr 43] ++
  (if Z.abs ex <? 10 then bs "0" ++ fmt_uint (Z.abs ex) else fmt_uint (Z.abs ex)).

(** Placing the decimal point among the digits [d] of a positive number. *)
Definition dump_digits (d : bytes) (e : Z) : bytes :=
  let k := Z.of_nat (length d) in
  let n := k + e in
  if (k <=? n) && (n <=? 15) then d ++ replicate (Z.to_nat (n - k)) (chr 48) ++ bs ".0"
  else if (0 <? n) && (n <=? 15) then take (Z.to_nat n) d ++ bs "." ++ drop (Z.to_nat n) d
  else if (-4 <? n) && (n <=? 0) then bs "0." ++ replicate (Z.to_nat (- n)) (chr 48) ++ d
  else take 1 d ++ (if 1 <? k then bs "." ++ drop 1 d else []) ++ dump_exponent (n - 1).

Definition dump_float (x : double) : bytes :=
  match x with
  | S754_nan | S754_infinity _ => bs "null"
  | S754_zero s => (if s then [chr 45] else []) ++ bs "0.0"
  | S754_finite s m e =>
      let (d, ex) := grisu2 (S754_finite false m e) in
      (if s then [chr 45] else []) ++ dump_digits d ex
  end.

Definition newline_indent (indent : Z) (level : nat) : bytes :=
  if 0 <=? indent then chr 10 :: replicate (Z.to_nat indent * level) (chr 32) else [].

Section Dump.
Context (indent : Z).

Definition dump_colon : bytes := if 0 <=? indent then bs ": " else bs ":".

Fixpoint dump_value (v : sbj) (level : nat) {struct v} : bytes :=
  match v with
  | SBJ_NULL => bs "null"
  | SBJ_BOOL b => if b then bs "true" else bs "false"
  | SBJ_INT i => fmt_int i
  | SBJ_UINT u => fmt_uint u
  | SBJ_FLOAT f => dump_float f
  | SBJ_STRING s => dump_string s
  | SBJ_ARRAY [] => bs "[]"
  | SBJ_ARRAY items =>
      bs "[" ++
      (fix elements (comma : bool) (items : list sbj) : bytes :=
         match items with
         | [] => []
         | x :: items' =>
             (if comma then bs "," else []) ++ newline_indent indent (S level) ++
             dump_value x (S level) ++ elements true items'
         end) false items ++
      newline_indent indent level ++ bs "]"
  | SBJ_OBJECT [] => bs "{}"
  | SBJ_OBJECT m =>
      bs "{" ++
      (fix members (comma : bool) (m : list (bytes * sbj)) : bytes :=
         match m with
         | [] => []
         | (k, x) :: m' =>
             (if comma then bs "," else []) ++ newline_indent indent (S level) ++
             dump_string k ++ dump_colon ++ dump_value x (S level) ++ members true m'
         end) false m ++
      newline_indent indent level ++ bs "}"
  end.
End Dump.

Definition sbj_dump (v : option sbj) (indent : Z) : bytes :=
  match v with None => bs "null" | Some v => dump_value indent v 0 end.

(** ** Parser state and results *)

Record parser_t := mk_parser { p_rest : bytes; p_pos : nat; p_depth : Z }.

Definition advance (n : nat) (p : parser_t) : parser_t :=
  mk_parser (drop n (p_rest p)) (p_pos p + n) (p_depth p).
Definition deeper (d : Z) (p : parser_t) : parser_t :=
  mk_parser (p_rest p) (p_pos p) (p_depth p + d).

(** Success, a recorded message with the offset it was recorded at, or fuel
    exhausted. *)
Inductive presult (A : Type) : Type :=
  | POk (a : A) (p : parser_t)
  | PFail (msg : string) (pos : nat)
  | PFuel.
Arguments POk {A} a p.
Arguments PFail {A} msg pos.
Arguments PFuel {A}.

Definition perr {A} (p : parser_t) (msg : string) : presult A := PFail msg (p_pos p).

Definition pbind {A B} (r : presult A) (f : A -> parser_t -> presult B) : presult B :=
  match r with POk a p => f a p | PFail m i => PFail m i | PFuel => PFuel end.

Definition SBJ_MAX_DEPTH : Z := 512.

(** The next unread byte, as a code; -1 at the end. *)
Definition peek (p : parser_t) : Z := match p_rest p with c :: _ => code c | [] => -1 end.

Definition is_ws (c : ascii) : bool :=
  (code c =? 32) || (code c =? 9) || (code c =? 10) || (code c =? 13).

Fixpoint skip_ws_loop (rest : bytes) (pos : nat) : bytes * nat :=
  match rest with
  | c :: rest' => if is_ws c then skip_ws_loop rest' (S pos) else (rest, pos)
  | [] => ([], pos)
  end.
Definition skip_ws (p : parser_t) : parser_t :=
  let (rest, pos) := skip_ws_loop (p_rest p) (p_pos p) in mk_parser rest pos (p_depth p).

(** ** Strings *)

Fixpoint hex4_loop (n : nat) (v : Z) (p : parser_t) : option Z * parser_t :=
  match n with
  | O => (Some v, p)
  | S n' =>
      match p_rest p with
      | [] => (None, p)
      | c :: _ =>
          let p := advance 1 p in
          if hexval c <? 0 then (None, p) else hex4_loop n' (Z.lor (Z.shiftl v 4) (hexval c)) p
      end
  end.
Definition hex4 (p : parser_t) : option Z * parser_t :=
  if (length (p_rest p) <? 4)%nat then (None, p) else hex4_loop 4 0 p.

Definition put_utf8 (cp : Z) : bytes :=
  if cp <? 0x80 then [chr cp]
  else if cp <? 0x800 then
    [chr (Z.lor 0xC0 (Z.shiftr cp 6)); chr (Z.lor 0x80 (Z.land cp 0x3F))]
  else if cp <? 0x10000 then
    [chr (Z.lor 0xE0 (Z.shiftr cp 12)); chr (Z.lor 0x80 (Z.land (Z.shiftr cp 6) 0x3F));
     chr (Z.lor 0x80 (Z.land cp 0x3F))]
  else
    [chr (Z.lor 0xF0 (Z.shiftr cp 18)); chr (Z.lor 0x80 (Z.land (Z.shiftr cp 12) 0x3F));
     chr (Z.lor 0x80 (Z.land (Z.shiftr cp 6) 0x3F)); chr (Z.lor 0x80 (Z.land cp 0x3F))].

(** Continuation bytes folded into the code point; [None] when one is wrong. *)
Fixpoint utf8_continue (n : nat) (cp : Z) (s : bytes) : option Z :=
  match n, s with
  | O, _ => Some cp
  | S n', c :: s' =>
      if Z.land (code c) 0xC0 =? 0x80
      then utf8_continue n' (Z.lor (Z.shiftl cp 6) (Z.land (code c) 0x3F)) s' else None
  | S _, [] => None
  end.

(** Length of the sequence at the front of [s], 0 when it is not valid UTF-8. *)
Definition utf8_seq (s : bytes) : nat :=
  match s with
  | [] => 0
  | b :: s' =>
      let c := code b in
      if c <? 0x80 then 1%nat
      else
        let seq (n : nat) (cp : Z) : nat :=
          if (length s <? n)%nat then 0%nat
          else match utf8_continue (n - 1) cp s' with
               | None => 0%nat
               | Some cp =>
                   if ((n =? 3)%nat && ((cp <? 0x800) || ((0xD800 <=? cp) && (cp <=? 0xDFFF))))
                      || ((n =? 4)%nat && ((cp <? 0x10000) || (0x10FFFF <? cp)))
                   then 0%nat else n
               end in
        if in_range 0xC2 0xDF c then seq 2%nat (Z.land c 0x1F)
        else if in_range 0xE0 0xEF c then seq 3%nat (Z.land c 0x0F)
        else if in_range 0xF0 0xF4 c then seq 4%nat (Z.land c 0x07)
        else 0%nat
  end.

(** The escape after a backslash; [p] is past the escape letter [e]. *)
Definition parse_escape (e : Z) (p : parser_t) : presult bytes :=
  if e =? 34 then POk [chr 34] p
  else if e =? 92 then POk [chr 92] p
  else if e =? 47 then POk [chr 47] p
  else if e =? 98 then POk [chr 8] p
  else if e =? 102 then POk [chr 12] p
  else if e =? 110 then POk [chr 10] p
  else if e =? 114 then POk [chr 13] p
  else if e =? 116 then POk [chr 9] p
  else if e =? 117 then
    match hex4 p with
    | (None, p) => perr p "invalid \u escape"
    | (Some cp, p) =>
        if (0xD800 <=? cp) && (cp <=? 0xDBFF) then
          match p_rest p with
          | a :: b :: _ =>
              if (code a =? 92) && (code b =? 117) then
                match hex4 (advance 2 p) with
                | (Some lo, p) =>
                    if (lo <? 0xDC00) || (0xDFFF <? lo) then perr p "invalid surrogate pair"
                    else POk (put_utf8 (0x10000 + Z.shiftl (cp - 0xD800) 10 + (lo - 0xDC00))) p
                | (None, p) => perr p "invalid surrogate pair"
                end
              else perr p "unpaired surrogate"
          | _ => perr p "unpaired surrogate"
          end
        else if (0xDC00 <=? cp) && (cp <=? 0xDFFF) then perr p "unpaired surrogate"
        else POk (put_utf8 cp) p
    end
  else perr p "invalid escape".

Fixpoint parse_string_loop (fuel : nat) (b : bytes) (p : parser_t) : presult bytes :=
  match fuel with
  | O => PFuel
  | S fuel' =>
      match p_rest p with
      | [] => perr p "unterminated string"
      | c :: _ =>
          if code c =? 34 then POk b (advance 1 p)
          else if code c <? 0x20 then perr p "control character in string"
          else if code c =? 92 then
            let p := advance 1 p in
            if peek p <? 0 then perr p "unterminated string"
            else pbind (parse_escape (peek p) (advance 1 p))
                       (fun x p => parse_string_loop fuel' (b ++ x) p)
          else
            let n := utf8_seq (p_rest p) in
            if (n =? 0)%nat then perr p "invalid UTF-8"
            else parse_string_loop fuel' (b ++ take n (p_rest p)) (advance n p)
      end
  end.

(** Assumes the next byte is the opening quote. *)
Definition parse_string_raw (p : parser_t) : presult bytes :=
  let p := advance 1 p in parse_string_loop (S (length (p_rest p))) [] p.

(** ** Numbers *)

Fixpoint span_digits (s : bytes) : bytes :=
  match s with c :: s' => if isdigit c then c :: span_digits s' else [] | [] => [] end.

Definition dec_value (digits : bytes) : Z := foldl (fun a c => a * 10 + (code c - 48)) 0 digits.

(** [strtod]: the binary64 number nearest to [m * 10^e10], ties to even. *)
Definition decimal_to_double (neg : bool) (m e10 : Z) : double :=
  match m with
  | Z.pos mp =>
      if 400 <? e10 then S754_infinity neg
      else if Z.log2 m + 1 + e10 <? -400 then S754_zero neg
      else if 0 <=? e10 then
        SFdiv 53 1024 (S754_finite neg (Z.to_pos (m * 10 ^ e10)) 0) (S754_finite false 1 0)
      else SFdiv 53 1024 (S754_finite neg mp 0) (S754_finite false (Z.to_pos (10 ^ (- e10))) 0)
  | _ => S754_zero neg
  end.

(** The scanned pieces of a number: sign, integer, fraction and exponent digits. *)
Record scanned := mk_scan {
  sc_neg : bool; sc_int : bytes; sc_frac : option bytes; sc_exp : option (bool * bytes) }.

(** [strtoll] / [strtoull] when they fit, [strtod] otherwise. *)
Definition number_value (n : scanned) : sbj :=
  let i := dec_value (sc_int n) in
  let as_float :=
    SBJ_FLOAT (decimal_to_double (sc_neg n) (dec_value (sc_int n ++ default [] (sc_frac n)))
      (match sc_exp n with
       | Some (eneg, ds) => if eneg then - dec_value ds else dec_value ds
       | None => 0
       end - Z.of_nat (length (default [] (sc_frac n))))) in
  match sc_frac n, sc_exp n with
  | None, None =>
      if sc_neg n then (if - i <? INT64_MIN then as_float else SBJ_INT (- i))
      else if UINT64_MAX <? i then as_float else sbj_uint i
  | _, _ => as_float
  end.

Definition scan_int (p : parser_t) : presult bytes :=
  if peek p =? 48 then POk [chr 48] (advance 1 p)
  else if in_range 49 57 (peek p) then
    let ds := span_digits (p_rest p) in POk ds (advance (length ds) p)
  else perr p "invalid number".

(** Digits after a '.', 'e' or sign: at least one. *)
Definition scan_digits (p : parser_t) : presult bytes :=
  if in_range 48 57 (peek p) then
    let ds := span_digits (p_rest p) in POk ds (advance (length ds) p)
  else perr p "invalid number".

Definition scan_frac (p : parser_t) : presult (option bytes) :=
  if peek p =? 46 then pbind (scan_digits (advance 1 p)) (fun ds p => POk (Some ds) p)
  else POk None p.

Definition scan_exp (p : parser_t) : presult (option (bool * bytes)) :=
  if (peek p =? 101) || (peek p =? 69) then
    let p := advance 1 p in
    let eneg := peek p =? 45 in
    let p := if (peek p =? 43) || (peek p =? 45) then advance 1 p else p in
    pbind (scan_digits p) (fun ds p => POk (Some (eneg, ds)) p)
  else POk None p.

Definition parse_number (p : parser_t) : presult sbj :=
  let neg := peek p =? 45 in
  let p := if neg then advance 1 p else p in
  pbind (scan_int p) (fun ds p =>
  pbind (scan_frac p) (fun fr p =>
  pbind (scan_exp p) (fun ex p =>
  POk (number_value (mk_scan neg ds fr ex)) p))).

(** ** Values *)

Definition match_lit (p : parser_t) (lit : string) : option parser_t :=
  let l := bs lit in
  if bytes_eqb (take (length l) (p_rest p)) l then Some (advance (length l) p) else None.

Definition parse_scalar (p : parser_t) : presult sbj :=
  let c := peek p in
  if c =? 34 then pbind (parse_string_raw p) (fun s p => POk (SBJ_STRING s) p)
  else
    let number := if (c =? 45) || in_range 48 57 c then parse_number p
                  else perr p "unexpected character" in
    let lit (ch : Z) (word : string) (v : sbj) (otherwise : presult sbj) :=
      if c =? ch then match match_lit p word with Some p' => POk v p' | None => otherwise end
      else otherwise in
    lit 116 "true" (SBJ_BOOL true)
      (lit 102 "false" (SBJ_BOOL false) (lit 110 "null" SBJ_NULL number)).

Section Values.
(** [reject_duplicate_keys] *)
Context (strict : bool).

Fixpoint parse_value (fuel : nat) (p : parser_t) {struct fuel} : presult sbj :=
  match fuel with
  | O => PFuel
  | S fuel' =>
      let p := skip_ws p in
      if peek p <? 0 then perr p "unexpected end of input"
      else if peek p =? 123 then
        if SBJ_MAX_DEPTH <? p_depth p + 1 then perr p "nesting too deep"
        else
          let p := skip_ws (advance 1 (deeper 1 p)) in
          if peek p =? 125 then POk (SBJ_OBJECT []) (deeper (-1) (advance 1 p))
          else parse_members fuel' (SBJ_OBJECT []) p
      else if peek p =? 91 then
        if SBJ_MAX_DEPTH <? p_depth p + 1 then perr p "nesting too deep"
        else
          let p := skip_ws (advance 1 (deeper 1 p)) in
          if peek p =? 93 then POk (SBJ_ARRAY []) (deeper (-1) (advance 1 p))
          else parse_elements fuel' (SBJ_ARRAY []) p
      else parse_scalar p
  end
with parse_members (fuel : nat) (o : sbj) (p : parser_t) {struct fuel} : presult sbj :=
  match fuel with
  | O => PFuel
  | S fuel' =>
      let p := skip_ws p in
      if negb (peek p =? 34) then perr p "expected object key"
      else
        pbind (parse_string_raw p) (fun key p =>
        if strict && (match sbj_getn (Some o) key with Some _ => true | None => false end)
        then perr p "duplicate object key"
        else
          let p := skip_ws p in
          if negb (peek p =? 58) then perr p "expected ':'"
          else
            pbind (parse_value fuel' (advance 1 p)) (fun val p =>
            let o := sbj_setn o key (Some val) in
            let p := skip_ws p in
            if peek p =? 44 then parse_members fuel' o (advance 1 p)
            else if peek p =? 125 then POk o (deeper (-1) (advance 1 p))
            else perr p "expected ',' or '}'"))
  end
with parse_elements (fuel : nat) (a : sbj) (p : parser_t) {struct fuel} : presult sbj :=
  match fuel with
  | O => PFuel
  | S fuel' =>
      pbind (parse_value fuel' p) (fun val p =>
      let a := sbj_arr_push a (Some val) in
      let p := skip_ws p in
      if peek p =? 44 then parse_elements fuel' a (advance 1 p)
      else if peek p =? 93 then POk a (deeper (-1) (advance 1 p))
      else perr p "expected ',' or ']'")
  end.
End Values.

Definition parse_fuel (text : bytes) : nat := 2 * length text + 2.

Definition parse_document (text : bytes) (strict : bool) : presult sbj :=
  pbind (parse_value strict (parse_fuel text) (mk_parser text 0 0)) (fun v p =>
  let p := skip_ws p in
  match p_rest p with [] => POk v p | _ => perr p "trailing characters" end).

(** Outcome of a parse for its callers: the value or the error text. *)
Definition parse_outcome (r : presult sbj) : bytes + sbj :=
  match r with
  | POk v _ => inr v
  | PFail msg pos => inl (bs msg ++ bs " at offset " ++ fmt_uint (Z.of_nat pos))
  | PFuel => inl []
  end.

Definition sbj_parse_msg (text : bytes) : bytes + sbj := parse_outcome (parse_document text false).

Definition sbj_parse (text : bytes) : option sbj :=
  match sbj_parse_msg text with inr v => Some v | inl _ => None end.

(** ** UTF-8 validation *)

Definition utf8_bad_byte (i : nat) (c : Z) : result unit :=
  sb_fail SB_ERR_BAD_JSON
    (bs "[json.exception.type_error.316] invalid UTF-8 byte at index " ++ fmt_uint (Z.of_nat i) ++
     bs ": 0x" ++ fmt_hex2_upper c).

Definition utf8_incomplete (last : Z) : result unit :=
  sb_fail SB_ERR_BAD_JSON
    (bs "[json.exception.type_error.316] incomplete UTF-8 string; last byte: 0x" ++ fmt_hex2_upper last).

Definition last_code (s : bytes) : Z := match last s with Some c => code c | None => 0 end.

(** [need] continuation bytes are due, the next one in [lo .. hi]. *)
Fixpoint utf8_check_from (s rest : bytes) (i need : nat) (lo hi : Z) : result unit :=
  match rest with
  | [] => match need with O => Ok tt | S _ => utf8_incomplete (last_code s) end
  | b :: rest' =>
      let c := code b in
      match need with
      | S need' =>
          if (c <? lo) || (hi <? c) then utf8_bad_byte i c
          else utf8_check_from s rest' (S i) need' 0x80 0xBF
      | O =>
          if c <? 0x80 then utf8_check_from s rest' (S i) 0 0x80 0xBF
          else if in_range 0xC2 0xDF c then utf8_check_from s rest' (S i) 1 0x80 0xBF
          else if in_range 0xE0 0xEF c then
            utf8_check_from s rest' (S i) 2
              (if c =? 0xE0 then 0xA0 else 0x80) (if c =? 0xED then 0x9F else 0xBF)
          else if in_range 0xF0 0xF4 c then
            utf8_check_from s rest' (S i) 3
              (if c =? 0xF0 then 0x90 else 0x80) (if c =? 0xF4 then 0x8F else 0xBF)
          else utf8_bad_byte i c
      end
  end.
Definition utf8_check (s : bytes) : result unit := utf8_check_from s s 0 0 0x80 0xBF.

Fixpoint sbj_validate_utf8 (v : sbj) : result unit :=
  match v with
  | SBJ_STRING s => utf8_check s
  | SBJ_ARRAY items =>
      (fix all l := match l with
         | [] => Ok tt
         | x :: l' => _ ← sbj_validate_utf8 x; all l'
         end) items
  | SBJ_OBJECT m =>
      (fix all l := match l with
         | [] => Ok tt
         | (k, x) :: l' => _ ← utf8_check k; _ ← sbj_validate_utf8 x; all l'
         end) m
  | _ => Ok tt
  end.

Definition sbj_parse_strict (text : bytes) : bytes + sbj :=
  match parse_outcome (parse_document text true) with
  | inl e => inl e
  | inr v => match sbj_validate_utf8 v with Ok _ => inr v | Err e => inl (err_msg e) end
  end.
