(* ===== verification/JsonUtf8.v ===== *)
(** * UTF-8 in the JSON parser and serialiser

    [c/src/json.c] has two UTF-8 validators: [utf8_seq], used on input, measures
    one sequence by decoding it; [utf8_check], used before output, walks the
    bytes with range tables.  They are proved to accept the same strings, and
    the bytes [put_utf8] writes for a \u escape are proved valid. *)

From S2P Require Import Prelude Util Json JsonText.

(** [utf8_check] without its messages. *)
Fixpoint utf8_ok (rest : bytes) (need : nat) (lo hi : Z) : bool :=
  match rest with
  | [] => (need =? 0)%nat
  | b :: rest' =>
      let c := code b in
      match need with
      | S need' => in_range lo hi c && utf8_ok rest' need' 0x80 0xBF
      | O =>
          if c <? 0x80 then utf8_ok rest' 0 0x80 0xBF
          else if in_range 0xC2 0xDF c then utf8_ok rest' 1 0x80 0xBF
          else if in_range 0xE0 0xEF c then
            utf8_ok rest' 2 (if c =? 0xE0 then 0xA0 else 0x80) (if c =? 0xED then 0x9F else 0xBF)
          else if in_range 0xF0 0xF4 c then
            utf8_ok rest' 3 (if c =? 0xF0 then 0x90 else 0x80) (if c =? 0xF4 then 0x8F else 0xBF)
          else false
      end
  end.

Definition valid_utf8 (s : bytes) : bool := utf8_ok s 0 0x80 0xBF.

Lemma utf8_check_from_ok s rest i need lo hi :
  utf8_check_from s rest i need lo hi = Ok tt <-> utf8_ok rest need lo hi = true.
Proof.
  revert i need lo hi. induction rest as [|b rest IH]; intros i [|need] lo hi; simpl; try done.
  - repeat (case_if; [apply IH|]). done.
  - unfold in_range. rewrite (Z.leb_antisym (code b) lo), (Z.leb_antisym hi (code b)).
    destruct (code b <? lo), (hi <? code b); simpl; done || apply IH.
Qed.

Lemma utf8_check_ok s : utf8_check s = Ok tt <-> valid_utf8 s = true.
Proof. apply utf8_check_from_ok. Qed.

(** Sequence boundaries: a valid string followed by another. *)
Lemma utf8_ok_app a b need lo hi :
  utf8_ok a need lo hi = true -> utf8_ok (a ++ b) need lo hi = valid_utf8 b.
Proof.
  revert need lo hi. induction a as [|c a IH]; intros [|need] lo hi; simpl; try done.
  - destruct b; done.
  - repeat (case_if; [apply IH|]). done.
  - rewrite andb_true_iff. intros [-> H]. simpl. by apply IH.
Qed.

Lemma valid_utf8_app a b : valid_utf8 a = true -> valid_utf8 (a ++ b) = valid_utf8 b.
Proof. apply utf8_ok_app. Qed.

(** ** Bit fields of UTF-8 bytes *)

Lemma continuation_byte c : (Z.land (code c) 0xC0 =? 0x80) = in_range 0x80 0xBF (code c).
Proof.
  apply eqb_prop.
  by apply (byte_forallb (fun c => Bool.eqb (Z.land (code c) 0xC0 =? 0x80) (in_range 0x80 0xBF (code c)))).
Qed.

Lemma land_lead n c : 0 <= n -> Z.land c (Z.ones n) = c mod 2 ^ n.
Proof. apply Z.land_ones. Qed.

Lemma continue_bits cp c :
  Z.lor (Z.shiftl cp 6) (Z.land (code c) 0x3F) = cp * 64 + code c mod 64.
Proof. rewrite land_63. apply (lor_shiftl_add cp (code c mod 64) 6); [lia|lia_dm]. Qed.

Lemma utf8_continue_cons n cp c s :
  utf8_continue (S n) cp (c :: s) =
  if in_range 0x80 0xBF (code c) then utf8_continue n (cp * 64 + code c mod 64) s else None.
Proof. simpl. by rewrite continuation_byte, continue_bits. Qed.

(** ** The validators agree *)

(** What [utf8_seq] answers for each kind of lead byte. *)
Lemma utf8_seq_ascii c s : code c < 0x80 -> utf8_seq (c :: s) = 1%nat.
Proof. intros H. simpl. by rewrite ltb_true. Qed.

Lemma utf8_seq_bad c s :
  0x80 <= code c -> in_range 0xC2 0xDF (code c) = false -> in_range 0xE0 0xEF (code c) = false ->
  in_range 0xF0 0xF4 (code c) = false -> utf8_seq (c :: s) = 0%nat.
Proof. intros H H2 H3 H4. cbn [utf8_seq]. by rewrite ltb_false, H2, H3, H4. Qed.

Lemma utf8_seq_2 c s :
  in_range 0xC2 0xDF (code c) = true ->
  utf8_seq (c :: s) = match s with
                      | d :: _ => if in_range 0x80 0xBF (code d) then 2%nat else 0%nat
                      | [] => 0%nat end.
Proof.
  intros H. assert (0xC2 <= code c <= 0xDF) by (unfold in_range in H; bool_facts; lia).
  cbn [utf8_seq]. rewrite ltb_false, H by lia. destruct s as [|d s]; [done|].
  cbn [length Nat.ltb Nat.leb Nat.sub]. rewrite utf8_continue_cons. by case_if.
Qed.

Lemma utf8_seq_3 c s :
  in_range 0xE0 0xEF (code c) = true ->
  utf8_seq (c :: s) = match s with
    | d :: e :: _ =>
        if in_range (if code c =? 0xE0 then 0xA0 else 0x80) (if code c =? 0xED then 0x9F else 0xBF) (code d)
           && in_range 0x80 0xBF (code e) then 3%nat else 0%nat
    | _ => 0%nat end.
Proof.
  intros H. assert (0xE0 <= code c <= 0xEF) by (unfold in_range in H; bool_facts; lia).
  cbn [utf8_seq]. rewrite ltb_false, H by lia. unfold in_range at 1. rewrite leb_true, leb_false by lia.
  cbn [andb]. destruct s as [|d [|e s]]; [done..|].
  cbn [length Nat.ltb Nat.leb Nat.sub]. rewrite !utf8_continue_cons.
  pose proof (land_lead 4 (code c) ltac:(lia)) as L. change (Z.ones 4) with 0x0F in L. rewrite L.
  replace (code c mod 2 ^ 4) with (code c - 0xE0) by lia_dm.
  pose proof (code_range d). pose proof (code_range e).
  destruct (in_range 0x80 0xBF (code d)) eqn:D, (in_range 0x80 0xBF (code e)) eqn:E;
    unfold in_range in D, E |- *; cbn [utf8_continue Nat.eqb andb orb]; rewrite ?andb_false_r;
    bool_facts.
  - assert (Hd : code d mod 64 = code d - 0x80) by lia_dm.
    assert (He : code e mod 64 = code e - 0x80) by lia_dm. rewrite Hd, He.
    destruct (code c =? 0xE0) eqn:E0, (code c =? 0xED) eqn:ED; bool_facts; [lia|..];
      decide_cmp; repeat case_if; try done; lia.
  - done.
  - apply andb_false_iff in D. destruct D, (code c =? 0xE0), (code c =? 0xED);
      bool_facts; repeat case_if; try done; lia.
  - done.
Qed.

Lemma utf8_seq_4 c s :
  in_range 0xF0 0xF4 (code c) = true ->
  utf8_seq (c :: s) = match s with
    | d :: e :: f :: _ =>
        if in_range (if code c =? 0xF0 then 0x90 else 0x80) (if code c =? 0xF4 then 0x8F else 0xBF) (code d)
           && in_range 0x80 0xBF (code e) && in_range 0x80 0xBF (code f) then 4%nat else 0%nat
    | _ => 0%nat end.
Proof.
  intros H. assert (0xF0 <= code c <= 0xF4) by (unfold in_range in H; bool_facts; lia).
  cbn [utf8_seq]. rewrite ltb_false, H by lia. unfold in_range at 1 2. decide_cmp.
  cbn [andb]. destruct s as [|d [|e [|f s]]]; [done..|].
  cbn [length Nat.ltb Nat.leb Nat.sub]. rewrite !utf8_continue_cons.
  pose proof (land_lead 3 (code c) ltac:(lia)) as L. change (Z.ones 3) with 0x07 in L. rewrite L.
  replace (code c mod 2 ^ 3) with (code c - 0xF0) by lia_dm.
  pose proof (code_range d). pose proof (code_range e). pose proof (code_range f).
  destruct (in_range 0x80 0xBF (code d)) eqn:D, (in_range 0x80 0xBF (code e)) eqn:E,
    (in_range 0x80 0xBF (code f)) eqn:F; rewrite ?andb_false_r; cbn [utf8_continue Nat.eqb andb orb];
    try done; unfold in_range in D, E, F |- *; bool_facts.
  - assert (Hd : code d mod 64 = code d - 0x80) by lia_dm.
    assert (He : code e mod 64 = code e - 0x80) by lia_dm.
    assert (Hf : code f mod 64 = code f - 0x80) by lia_dm. rewrite Hd, He, Hf.
    destruct (code c =? 0xF0) eqn:E0, (code c =? 0xF4) eqn:E4; bool_facts; [lia|..];
      decide_cmp; repeat case_if; try done; lia.
  - apply andb_false_iff in D. destruct D, (code c =? 0xF0), (code c =? 0xF4);
      bool_facts; repeat case_if; try done; lia.
Qed.

(** One encoded code point: measured whole whatever follows, valid by itself, and
    either a single ASCII byte or only bytes from 0x80 up. *)
Record utf8_unit (u : bytes) : Prop := {
  unit_seq t : utf8_seq (u ++ t) = length u;
  unit_valid : valid_utf8 u = true;
  unit_nonempty : u <> [];
  unit_bytes : (exists c, u = [c] /\ code c < 0x80) \/ Forall (fun c => 0x80 <= code c) u }.

Ltac range_facts :=
  unfold in_range in *; bool_facts.

Lemma utf8_unit_1 c : code c < 0x80 -> utf8_unit [c].
Proof.
  intros H. split; [intros t; by apply utf8_seq_ascii| |done|eauto].
  unfold valid_utf8. simpl. by rewrite ltb_true.
Qed.

Lemma utf8_unit_2 c d :
  in_range 0xC2 0xDF (code c) = true -> in_range 0x80 0xBF (code d) = true -> utf8_unit [c; d].
Proof.
  intros Hc Hd. split; [| |done|].
  - intros t. simpl app. by rewrite utf8_seq_2, Hd.
  - unfold valid_utf8. cbn [utf8_ok]. rewrite Hc, Hd. case_if; [range_facts; lia|done].
  - right. range_facts. repeat constructor; lia.
Qed.

Lemma utf8_unit_3 c d e :
  in_range 0xE0 0xEF (code c) = true ->
  in_range (if code c =? 0xE0 then 0xA0 else 0x80) (if code c =? 0xED then 0x9F else 0xBF) (code d) = true ->
  in_range 0x80 0xBF (code e) = true -> utf8_unit [c; d; e].
Proof.
  intros Hc Hd He. split; [| |done|].
  - intros t. simpl app. by rewrite utf8_seq_3, Hd, He.
  - unfold valid_utf8. cbn [utf8_ok]. rewrite Hc, Hd, He.
    case_if; [range_facts; lia|]. case_if; [range_facts; lia|done].
  - right. range_facts. repeat constructor; try lia.
    destruct (code c =? 0xE0); lia.
Qed.

Lemma utf8_unit_4 c d e f :
  in_range 0xF0 0xF4 (code c) = true ->
  in_range (if code c =? 0xF0 then 0x90 else 0x80) (if code c =? 0xF4 then 0x8F else 0xBF) (code d) = true ->
  in_range 0x80 0xBF (code e) = true -> in_range 0x80 0xBF (code f) = true -> utf8_unit [c; d; e; f].
Proof.
  intros Hc Hd He Hf. split; [| |done|].
  - intros t. simpl app. by rewrite utf8_seq_4, Hd, He, Hf.
  - unfold valid_utf8. cbn [utf8_ok]. rewrite Hc, Hd, He, Hf.
    case_if; [range_facts; lia|]. case_if; [range_facts; lia|]. case_if; [range_facts; lia|done].
  - right. range_facts. repeat constructor; try lia.
    destruct (code c =? 0xF0); lia.
Qed.

#[export] Hint Resolve utf8_unit_1 utf8_unit_2 utf8_unit_3 utf8_unit_4 : sb.

(** What [utf8_seq] accepts starts with a unit. *)
Lemma utf8_seq_unit s : utf8_seq s <> 0%nat -> exists u t, s = u ++ t /\ utf8_unit u.
Proof.
  destruct s as [|c s]; [done|].
  destruct (Z.lt_ge_cases (code c) 0x80); [exists [c], s; auto with sb|].
  destruct (in_range 0xC2 0xDF (code c)) eqn:C2.
  { rewrite utf8_seq_2 by done. destruct s as [|d s]; [done|]. intros N. case_if_in N; [|done].
    exists [c; d], s. auto with sb. }
  destruct (in_range 0xE0 0xEF (code c)) eqn:C3.
  { rewrite utf8_seq_3 by done. destruct s as [|d [|e s]]; [done..|]. intros N. case_if_in N; [|done].
    exists [c; d; e], s. auto with sb. }
  destruct (in_range 0xF0 0xF4 (code c)) eqn:C4.
  { rewrite utf8_seq_4 by done. destruct s as [|d [|e [|f s]]]; [done..|]. intros N.
    case_if_in N; [|done]. exists [c; d; e; f], s. auto with sb. }
  by rewrite utf8_seq_bad.
Qed.

(** What [utf8_check] accepts starts with a unit. *)
Lemma valid_utf8_unit s :
  valid_utf8 s = true -> s <> [] -> exists u t, s = u ++ t /\ utf8_unit u /\ valid_utf8 t = true.
Proof.
  intros V N. assert (H : utf8_seq s <> 0%nat).
  { destruct s as [|c s]; [done|]. unfold valid_utf8 in V. cbn [utf8_ok] in V.
    case_if_in V; [by rewrite utf8_seq_ascii|].
    case_if_in V; [rewrite utf8_seq_2 by done|case_if_in V; [rewrite utf8_seq_3 by done
      |case_if_in V; [rewrite utf8_seq_4 by done|done]]].
    - destruct s as [|d s]; [done|]. cbn [utf8_ok] in V. bool_facts. by case_if.
    - destruct s as [|d [|e s]]; cbn [utf8_ok] in V; bool_facts; try done.
      rewrite H, H0. done.
    - destruct s as [|d [|e [|f s]]]; cbn [utf8_ok] in V; bool_facts; try done.
      rewrite H, H0, H1. done. }
  apply utf8_seq_unit in H as (u & t & -> & U). exists u, t. split; [done|split; [done|]].
  by rewrite valid_utf8_app in V by apply U.
Qed.

(** Induction over a valid string, one code point at a time. *)
Lemma valid_utf8_ind (P : bytes -> Prop) :
  P [] -> (forall u t, utf8_unit u -> valid_utf8 t = true -> P t -> P (u ++ t)) ->
  forall s, valid_utf8 s = true -> P s.
Proof.
  intros H0 Hu s. induction s as [s IH] using (well_founded_induction (well_founded_ltof _ length)).
  intros V. destruct (decide (s = [])) as [-> | N]; [done|].
  destruct (valid_utf8_unit s V N) as (u & t & -> & U & Vt). apply Hu; [done..|].
  apply IH; [|done]. unfold ltof. rewrite length_app. destruct u; [by destruct (unit_nonempty _ U)|].
  simpl. lia.
Qed.

(** A whole string measured sequence by sequence, as the parser does. *)
Fixpoint utf8_scan (fuel : nat) (s : bytes) : bool :=
  match fuel, s with
  | _, [] => true
  | O, _ => false
  | S fuel', _ => let n := utf8_seq s in negb (n =? 0)%nat && utf8_scan fuel' (drop n s)
  end.

(** The two UTF-8 validators agree.  A string passes the range-table check
    made before output exactly when the sequence decoder used on input accepts
    it from front to back. *)
Theorem utf8_validators_agree s : utf8_check s = Ok tt <-> utf8_scan (length s) s = true.
Proof.
  rewrite utf8_check_ok. split.
  - intros V. assert (H : forall fuel, (length s <= fuel)%nat -> utf8_scan fuel s = true); [|by apply H].
    revert s V. apply (valid_utf8_ind (fun s => forall fuel, (length s <= fuel)%nat -> utf8_scan fuel s = true)).
    { by intros []. }
    intros u t U V IH fuel Hf. pose proof (unit_nonempty _ U) as Hne.
    destruct u as [|c u]; [done|]. rewrite length_app in Hf.
    destruct fuel as [|fuel]; [simpl in Hf; lia|]. cbn [utf8_scan app].
    change (c :: u ++ t) with ((c :: u) ++ t). rewrite (unit_seq _ U), drop_app_length.
    simpl. apply IH. simpl in Hf. lia.
  - generalize (length s). intros fuel. revert s. induction fuel as [|fuel IH]; intros [|c s]; try done.
    cbn [utf8_scan]. rewrite andb_true_iff. intros [N H].
    destruct (utf8_seq_unit (c :: s)) as (u & t & E & U).
    { intros E. by rewrite E in N. }
    rewrite E in *. rewrite (unit_seq _ U), drop_app_length in H.
    rewrite valid_utf8_app by apply U. by apply IH.
Qed.

(** ** Escapes write valid UTF-8 *)

Lemma lor_lead k n x : 0 <= n -> 0 <= x < 2 ^ n -> Z.lor (k * 2 ^ n) x = k * 2 ^ n + x.
Proof. intros. rewrite <- Z.shiftl_mul_pow2 by done. rewrite lor_shiftl_add by done.
  by rewrite Z.shiftl_mul_pow2. Qed.

Lemma cont_byte x : code (chr (Z.lor 0x80 (Z.land x 0x3F))) = 0x80 + x mod 64.
Proof.
  rewrite land_63. change 0x80 with (2 * 2 ^ 6) at 1. rewrite lor_lead by lia_dm.
  rewrite code_chr; lia_dm.
Qed.

Definition scalar_value (cp : Z) : Prop := 0 <= cp <= 0x10FFFF /\ ~ (0xD800 <= cp <= 0xDFFF).

Lemma put_utf8_unit cp : scalar_value cp -> utf8_unit (put_utf8 cp).
Proof.
  intros [H N]. unfold put_utf8. rewrite !Z.shiftr_div_pow2 by lia. repeat case_if.
  - apply utf8_unit_1. rewrite code_chr; lia.
  - change 0xC0 with (6 * 2 ^ 5). rewrite lor_lead by lia_dm.
    apply utf8_unit_2; rewrite ?cont_byte, ?code_chr by lia_dm;
      unfold in_range; rewrite !leb_true by lia_dm; done.
  - change 0xE0 with (14 * 2 ^ 4). rewrite lor_lead by lia_dm.
    apply utf8_unit_3; rewrite ?cont_byte, ?code_chr by lia_dm; unfold in_range.
    + rewrite !leb_true by lia_dm; done.
    + destruct (14 * 2 ^ 4 + cp / 2 ^ 12 =? 0xE0) eqn:A, (14 * 2 ^ 4 + cp / 2 ^ 12 =? 0xED) eqn:B;
        bool_facts; rewrite !leb_true by lia_dm; done.
    + rewrite !leb_true by lia_dm; done.
  - change 0xF0 with (30 * 2 ^ 3). rewrite lor_lead by lia_dm.
    apply utf8_unit_4; rewrite ?cont_byte, ?code_chr by lia_dm; unfold in_range.
    + rewrite !leb_true by lia_dm; done.
    + destruct (30 * 2 ^ 3 + cp / 2 ^ 18 =? 0xF0) eqn:A, (30 * 2 ^ 3 + cp / 2 ^ 18 =? 0xF4) eqn:B;
        bool_facts; rewrite !leb_true by lia_dm; done.
    + rewrite !leb_true by lia_dm; done.
    + rewrite !leb_true by lia_dm; done.
Qed.

(** ** ASCII texts *)

Definition ascii_text (s : bytes) : Prop := Forall (fun c => code c < 128) s.

Lemma ascii_valid s : ascii_text s -> valid_utf8 s = true.
Proof.
  unfold valid_utf8. induction 1 as [|c s Hc _ IH]; [done|]. cbn [utf8_ok]. rewrite ltb_true by done. exact IH.
Qed.
