(* ===== verification/JsonSafe.v ===== *)
(** * The JSON parser is total and safe

    [parse_document] of [c/src/json.c] ends on every input: the fuel it is given
    is always enough.  An accepted value is well formed, holds only valid UTF-8
    and nests at most [SBJ_MAX_DEPTH] containers; a rejected text is reported at
    an offset inside it. *)

From S2P Require Import Prelude Util Json JsonText JsonUtf8.

(** ** Cleanliness of values: UTF-8 strings and bounded nesting *)

Fixpoint utf8_clean (v : sbj) : bool :=
  match v with
  | SBJ_STRING s => valid_utf8 s
  | SBJ_ARRAY l => forallb utf8_clean l
  | SBJ_OBJECT m => forallb (fun kv => valid_utf8 (fst kv) && utf8_clean (snd kv)) m
  | _ => true
  end.

(** [nests v d]: [v] has at most [d] containers inside one another. *)
Fixpoint nests (v : sbj) (d : Z) : bool :=
  match v with
  | SBJ_ARRAY l => (1 <=? d) && forallb (fun x => nests x (d - 1)) l
  | SBJ_OBJECT m => (1 <=? d) && forallb (fun kv => nests (snd kv) (d - 1)) m
  | _ => true
  end.

Lemma validate_utf8_clean v : sbj_validate_utf8 v = Ok tt <-> utf8_clean v = true.
Proof.
  induction v as [| | | | | s | l IH | m IH] using sbj_ind; simpl; try done.
  - apply utf8_check_ok.
  - induction IH as [|x l Hx _ IHl]; simpl; [done|]. rewrite andb_true_iff, <- Hx, <- IHl.
    destruct (sbj_validate_utf8 x) as [[]|e]; simpl; intuition congruence.
  - induction IH as [|[k x] m Hx _ IHm]; simpl; [done|]. simpl in Hx.
    rewrite !andb_true_iff, <- Hx, <- IHm, <- utf8_check_ok.
    destruct (utf8_check k) as [[]|e], (sbj_validate_utf8 x) as [[]|e']; simpl; intuition congruence.
Qed.

(** What the parser promises of a value read with [d] levels of nesting left. *)
Definition parsed (d : Z) (v : sbj) : Prop :=
  sbj_wf v = true /\ utf8_clean v = true /\ nests v d = true.

Lemma parsed_array_nil d : 1 <= d -> parsed d (SBJ_ARRAY []).
Proof. intros. repeat split. simpl. by rewrite leb_true. Qed.
Lemma parsed_object_nil d : 1 <= d -> parsed d (SBJ_OBJECT []).
Proof. intros. repeat split. simpl. by rewrite leb_true. Qed.

Lemma parsed_push d l v :
  parsed d (SBJ_ARRAY l) -> parsed (d - 1) v -> parsed d (sbj_arr_push (SBJ_ARRAY l) (Some v)).
Proof.
  intros (W & U & N) (Wv & Uv & Nv). unfold parsed. simpl in *.
  rewrite !forallb_app. simpl. bool_facts. rewrite W, U, Wv, Uv, Nv. split; [done|split; [done|]].
  rewrite leb_true by done. by rewrite H0.
Qed.

Lemma forallb_setn (P : bytes -> sbj -> bool) m k v m' :
  sbj_setn (SBJ_OBJECT m) k (Some v) = SBJ_OBJECT m' ->
  forallb (fun kv => P (fst kv) (snd kv)) m = true -> P k v = true ->
  forallb (fun kv => P (fst kv) (snd kv)) m' = true.
Proof.
  simpl. destruct (obj_find m k) as [i []]; intros [= <-] F Pv; rewrite forallb_forall in *;
    intros [k' x] Hin; apply list_elem_of_In in Hin.
  - apply list_elem_of_lookup in Hin as [j Hj]. apply list_lookup_insert_Some in Hj as [(_ & E & _) | [_ Hj]].
    + by injection E as <- <-.
    + apply (F (k', x)). apply list_elem_of_In. by eapply list_elem_of_lookup_2.
  - apply elem_of_app in Hin as [H | H]; [|apply elem_of_cons in H as [E | H]].
    + apply (F (k', x)), list_elem_of_In. rewrite <- (take_drop i m). apply elem_of_app. by left.
    + by injection E as -> ->.
    + apply (F (k', x)), list_elem_of_In. rewrite <- (take_drop i m). apply elem_of_app. by right.
Qed.

Lemma parsed_setn d m k v :
  parsed d (SBJ_OBJECT m) -> valid_utf8 k = true -> parsed (d - 1) v ->
  exists m', sbj_setn (SBJ_OBJECT m) k (Some v) = SBJ_OBJECT m' /\ parsed d (SBJ_OBJECT m').
Proof.
  intros (W & U & N) Vk (Wv & Uv & Nv).
  pose proof (wf_setn _ k (Some v) W Wv) as W'. pose proof W as [Hs _]%wf_object.
  destruct (sbj_setn_map m k (Some v) Hs) as (m' & E & _). exists m'. split; [done|].
  rewrite E in W'. cbn [utf8_clean nests] in *. bool_facts. split; [done|split].
  - apply (forallb_setn (fun k v => valid_utf8 k && utf8_clean v) m k v); [done..|]. by rewrite Vk, Uv.
  - cbn [nests]. rewrite leb_true by done.
    by apply (forallb_setn (fun _ v => nests v (d - 1)) m k v).
Qed.

(** ** Outcomes of a parsing function *)

Definition p_end (p : parser_t) : nat := p_pos p + length (p_rest p).

(** [r], produced from [p], moved forward and changed the depth by [d], or
    failed at an offset inside the text; it did not run out of fuel. *)
Definition outcome {A} (Q : A -> Prop) (p : parser_t) (d : Z) (r : presult A) : Prop :=
  match r with
  | POk a p' => Q a /\ p_depth p' = p_depth p + d /\
                (length (p_rest p') < length (p_rest p))%nat /\ p_end p' = p_end p
  | PFail _ pos => (pos <= p_end p)%nat
  | PFuel => False
  end.

(** [p'] is [p] moved forward. *)
Definition moved (p p' : parser_t) : Prop :=
  p_depth p' = p_depth p /\ (length (p_rest p') <= length (p_rest p))%nat /\ p_end p' = p_end p.

Lemma moved_refl p : moved p p.
Proof. done. Qed.

Lemma moved_trans p q r : moved p q -> moved q r -> moved p r.
Proof. unfold moved. intuition lia. Qed.

Lemma moved_advance n p : (n <= length (p_rest p))%nat -> moved p (advance n p).
Proof. intros H. unfold moved, p_end. simpl. rewrite length_drop. lia. Qed.

Lemma skip_ws_loop_moves rest pos :
  let (rest', pos') := skip_ws_loop rest pos in
  (length rest' <= length rest)%nat /\ (pos' + length rest' = pos + length rest)%nat.
Proof.
  revert pos. induction rest as [|c rest IH]; intros pos; simpl; [done|].
  destruct (is_ws c); [|simpl; lia]. specialize (IH (S pos)).
  destruct (skip_ws_loop rest (S pos)). lia.
Qed.

Lemma moved_skip_ws p : moved p (skip_ws p).
Proof.
  unfold skip_ws, moved, p_end. pose proof (skip_ws_loop_moves (p_rest p) (p_pos p)) as H.
  destruct (skip_ws_loop (p_rest p) (p_pos p)). simpl. lia.
Qed.

Lemma peek_nonempty p : 0 <= peek p -> (1 <= length (p_rest p))%nat.
Proof. unfold peek. destruct (p_rest p); simpl; lia. Qed.

Lemma outcome_perr {A} (Q : A -> Prop) p q d msg : moved p q -> outcome Q p d (perr q msg).
Proof. unfold moved, outcome, perr, p_end. lia. Qed.

(** Results seen from an earlier position. *)
Lemma outcome_moved {A} (Q : A -> Prop) p q d r : moved p q -> outcome Q q d r -> outcome Q p d r.
Proof. unfold moved, outcome. destruct r as [a s|m i|]; [|lia|done]. intuition lia. Qed.

Lemma outcome_bind {A B} (Q : A -> Prop) (R : B -> Prop) p d r f :
  outcome Q p 0 r ->
  (forall a q, Q a -> moved p q -> (length (p_rest q) < length (p_rest p))%nat -> outcome R p d (f a q)) ->
  outcome R p d (pbind r f).
Proof.
  unfold outcome at 1. destruct r as [a q|m i|]; simpl; [|done..].
  intros (Qa & Hd & Hl & He) H. apply H; [done| |done]. unfold moved. lia.
Qed.

Lemma outcome_impl {A} (Q R : A -> Prop) p d r :
  (forall a, Q a -> R a) -> outcome Q p d r -> outcome R p d r.
Proof. unfold outcome. destruct r; [|done..]. intuition. Qed.

(** The same for functions that may consume nothing. *)
Definition soft_outcome {A} (Q : A -> Prop) (p : parser_t) (r : presult A) : Prop :=
  match r with
  | POk a p' => Q a /\ moved p p'
  | PFail _ pos => (pos <= p_end p)%nat
  | PFuel => False
  end.

Lemma outcome_soft {A} (Q : A -> Prop) p r : outcome Q p 0 r -> soft_outcome Q p r.
Proof. unfold outcome, soft_outcome, moved. destruct r; [|done..]. intuition lia. Qed.

Lemma soft_bind {A B} (Q : A -> Prop) (R : B -> Prop) p r f :
  soft_outcome Q p r -> (forall a q, Q a -> moved p q -> soft_outcome R p (f a q)) ->
  soft_outcome R p (pbind r f).
Proof. unfold soft_outcome at 1. destruct r as [a q|m i|]; simpl; [|done..]. intros [Qa M] H. by apply H. Qed.

Lemma soft_moved {A} (Q : A -> Prop) p q r : moved p q -> soft_outcome Q q r -> soft_outcome Q p r.
Proof.
  unfold soft_outcome. destruct r as [a s|m i|]; [|unfold moved; lia|done].
  intros M [Qa M']. split; [done|]. by eapply moved_trans.
Qed.

Lemma soft_perr {A} (Q : A -> Prop) p q msg : moved p q -> soft_outcome Q p (perr q msg).
Proof. unfold moved, soft_outcome, perr, p_end. lia. Qed.

Lemma soft_outcome_strict {A} (Q : A -> Prop) p q r :
  moved p q -> (length (p_rest q) < length (p_rest p))%nat -> soft_outcome Q q r -> outcome Q p 0 r.
Proof. unfold soft_outcome, outcome, moved. destruct r as [a s|m i|]; [|lia|done]. intuition lia. Qed.

#[export] Hint Resolve moved_refl moved_skip_ws outcome_perr soft_perr : sb.

(** ** Strings *)

Lemma hexval_lt c : hexval c < 16.
Proof. apply Z.ltb_lt. by apply (byte_forallb (fun c => hexval c <? 16)). Qed.

Lemma hex4_loop_moves n : forall v p, (n <= length (p_rest p))%nat -> 0 <= v ->
  let (o, p') := hex4_loop n v p in
  moved p p' /\ forall x, o = Some x -> 0 <= x < (v + 1) * 16 ^ Z.of_nat n.
Proof.
  induction n as [|n IH]; intros v p Hn Hv; cbn [hex4_loop].
  { split; [done|]. intros x [= <-]. simpl. lia. }
  destruct p as [[|c rest] pos d]; cbn [p_rest length] in *; [lia|].
  assert (M : moved (mk_parser (c :: rest) pos d) (advance 1 (mk_parser (c :: rest) pos d)))
    by (apply moved_advance; simpl; lia).
  case_if; [by split|].
  pose proof (hexval_lt c).
  rewrite (lor_shiftl_add v (hexval c) 4) by lia.
  specialize (IH (v * 2 ^ 4 + hexval c) (advance 1 (mk_parser (c :: rest) pos d))).
  destruct (hex4_loop n _ _) as [o p']. destruct IH as [M' B]; [simpl; rewrite drop_0; lia|lia|].
  split; [by eapply moved_trans|]. intros x ->. specialize (B x eq_refl).
  rewrite Nat2Z.inj_succ, Z.pow_succ_r by lia. nia.
Qed.

Lemma hex4_moves p :
  let (o, p') := hex4 p in moved p p' /\ forall x, o = Some x -> 0 <= x < 0x10000.
Proof.
  unfold hex4. destruct (_ <? _)%nat eqn:L; [by split; [apply moved_refl|]|].
  apply Nat.ltb_ge in L. pose proof (hex4_loop_moves 4 0 p L ltac:(lia)) as H.
  destruct (hex4_loop 4 0 p). destruct H as [M B]. split; [done|]. intros x E. specialize (B x E). lia.
Qed.

(** An escape yields whole code points. *)
Lemma parse_escape_moves e p :
  soft_outcome (fun x => valid_utf8 x = true) p (parse_escape e p).
Proof.
  unfold parse_escape. repeat (case_if; [by split; [vm_compute|apply moved_refl]|]).
  case_if; [|by apply soft_perr].
  pose proof (hex4_moves p) as H. destruct (hex4 p) as [[cp|] q]; destruct H as [M B];
    [specialize (B cp eq_refl)|by apply soft_perr].
  destruct ((0xD800 <=? cp) && (cp <=? 0xDBFF)) eqn:Hi; bool_facts.
  - assert (M2 : forall a b r, p_rest q = a :: b :: r -> moved p (advance 2 q)).
    { intros a b r E'. eapply moved_trans; [done|]. apply moved_advance. rewrite E'. simpl. lia. }
    destruct (p_rest q) as [|a [|b r]] eqn:Er; [by apply soft_perr..|].
    specialize (M2 a b r eq_refl). case_if; [|by apply soft_perr].
    pose proof (hex4_moves (advance 2 q)) as HX. destruct (hex4 (advance 2 q)) as [[lo|] s];
      destruct HX as [M3 B3]; assert (M4 : moved p s) by (by eapply moved_trans);
      [|by apply soft_perr].
    case_if; [by apply soft_perr|]. split; [|done].
    apply unit_valid, put_utf8_unit. rewrite Z.shiftl_mul_pow2 by lia. split; lia.
  - destruct ((0xDC00 <=? cp) && (cp <=? 0xDFFF)) eqn:Lo; [by apply soft_perr|].
    split; [|done]. apply unit_valid, put_utf8_unit. apply andb_false_iff in Hi, Lo.
    split; [lia|]. destruct Hi, Lo; bool_facts; lia.
Qed.

Lemma advance_lt p n :
  (0 < n)%nat -> (n <= length (p_rest p))%nat ->
  moved p (advance n p) /\ (length (p_rest (advance n p)) < length (p_rest p))%nat.
Proof. intros. split; [by apply moved_advance|]. simpl. rewrite length_drop. lia. Qed.

Lemma utf8_seq_le s : (utf8_seq s <= length s)%nat.
Proof.
  destruct (decide (utf8_seq s = 0%nat)) as [-> | N]; [lia|].
  destruct (utf8_seq_unit s N) as (u & t & -> & U). rewrite (unit_seq _ U), length_app. lia.
Qed.

Lemma utf8_seq_valid s : utf8_seq s <> 0%nat -> valid_utf8 (take (utf8_seq s) s) = true.
Proof.
  intros N. destruct (utf8_seq_unit s N) as (u & t & -> & U).
  rewrite (unit_seq _ U), take_app_length. apply U.
Qed.

Lemma parse_string_loop_moves fuel : forall b p,
  (length (p_rest p) < fuel)%nat -> valid_utf8 b = true ->
  outcome (fun s => valid_utf8 s = true) p 0 (parse_string_loop fuel b p).
Proof.
  induction fuel as [|fuel IH]; intros b p Hf Vb; [lia|]. cbn [parse_string_loop].
  destruct (p_rest p) as [|c rest] eqn:Er; [by apply outcome_perr|]. rewrite <- Er.
  destruct (advance_lt p 1) as [M L]; [lia|rewrite Er; simpl; lia|].
  case_if; [unfold outcome; unfold moved in M; intuition lia|].
  case_if; [by apply outcome_perr|]. case_if.
  - case_if; [by apply outcome_perr|].
    pose proof (peek_nonempty (advance 1 p) ltac:(lia)) as Hne.
    destruct (advance_lt (advance 1 p) 1) as [M2 L2]; [lia|done|].
    eapply soft_outcome_strict; [by eapply moved_trans|lia|].
    eapply soft_bind; [apply parse_escape_moves|]. intros x q Vx Mq.
    apply (soft_moved _ _ q); [done|]. apply outcome_soft, IH; [|by rewrite valid_utf8_app].
    unfold moved in Mq. rewrite Er in *. simpl in *. lia.
  - case_if; [by apply outcome_perr|]. apply Nat.eqb_neq in E2.
    pose proof (utf8_seq_le (p_rest p)) as Hle.
    destruct (advance_lt p (utf8_seq (p_rest p))) as [M2 L2]; [lia|done|].
    apply (outcome_moved _ _ (advance (utf8_seq (p_rest p)) p)); [done|].
    apply IH; [rewrite Er in *; simpl in *; lia|].
    rewrite valid_utf8_app by done. by apply utf8_seq_valid.
Qed.

Lemma parse_string_raw_moves p :
  peek p = 34 -> outcome (fun s => valid_utf8 s = true) p 0 (parse_string_raw p).
Proof.
  intros Hp. unfold parse_string_raw. pose proof (peek_nonempty p ltac:(lia)).
  destruct (advance_lt p 1) as [M L]; [lia|lia|].
  apply (outcome_moved _ _ (advance 1 p)); [done|]. by apply parse_string_loop_moves; [lia|].
Qed.

(** ** Numbers *)

Definition digits (ds : bytes) : Prop := Forall (fun c => isdigit c = true) ds.

Lemma span_digits_digits s : digits (span_digits s).
Proof. induction s as [|c s IH]; simpl; [constructor|]. case_if; constructor; done. Qed.

Lemma span_digits_le s : (length (span_digits s) <= length s)%nat.
Proof. induction s as [|c s IH]; simpl; [lia|]. case_if; simpl; lia. Qed.

Lemma span_digits_pos p : in_range 48 57 (peek p) = true -> (0 < length (span_digits (p_rest p)))%nat.
Proof.
  unfold peek. destruct (p_rest p) as [|c s]; [done|]. intros H. simpl. unfold isdigit. rewrite H. simpl. lia.
Qed.

Lemma dec_value_snoc ds c : dec_value (ds ++ [c]) = dec_value ds * 10 + (code c - 48).
Proof. unfold dec_value. by rewrite foldl_app. Qed.

Lemma dec_value_nonneg ds : digits ds -> 0 <= dec_value ds.
Proof.
  induction ds as [|c ds IH] using rev_ind; [done|]. intros [D Dc]%Forall_app.
  rewrite dec_value_snoc. specialize (IH D). inversion Dc as [|? ? H _]; subst.
  unfold isdigit, in_range in H. bool_facts. lia.
Qed.

Lemma scan_digits_moves p : outcome digits p 0 (scan_digits p).
Proof.
  unfold scan_digits. case_if; [|auto with sb].
  destruct (advance_lt p (length (span_digits (p_rest p)))) as [M L];
    [by apply span_digits_pos|apply span_digits_le|].
  split; [apply span_digits_digits|]. unfold moved in M. intuition lia.
Qed.

Lemma scan_int_moves p : outcome digits p 0 (scan_int p).
Proof.
  unfold scan_int. case_if.
  - destruct (advance_lt p 1) as [M L]; [lia|apply peek_nonempty; lia|].
    split; [by repeat constructor|]. unfold moved in M. intuition lia.
  - pose proof (scan_digits_moves p) as H. unfold scan_digits in H. case_if; [|auto with sb].
    replace (in_range 48 57 (peek p)) with true in H; [done|].
    symmetry. unfold in_range in *. bool_facts. rewrite !leb_true by lia. done.
Qed.

Lemma scan_frac_moves p : soft_outcome (fun _ => True) p (scan_frac p).
Proof.
  unfold scan_frac. case_if; [|by split; [|apply moved_refl]].
  destruct (advance_lt p 1) as [M _]; [lia|apply peek_nonempty; lia|].
  apply (soft_moved _ _ (advance 1 p)); [done|].
  eapply soft_bind; [apply outcome_soft, scan_digits_moves|]. by split.
Qed.

Lemma scan_exp_moves p : soft_outcome (fun _ => True) p (scan_exp p).
Proof.
  unfold scan_exp. case_if; [|by split; [|apply moved_refl]].
  assert (0 <= peek p) by (apply orb_true_iff in E as [|]; bool_facts; lia).
  destruct (advance_lt p 1) as [M _]; [lia|by apply peek_nonempty|].
  set (q := if _ || _ then _ else _). assert (Mq : moved p q).
  { subst q. destruct ((peek (advance 1 p) =? 43) || (peek (advance 1 p) =? 45)) eqn:E'; [|done]. eapply moved_trans; [done|]. apply moved_advance.
    apply peek_nonempty. apply orb_true_iff in E' as [|]; bool_facts; lia. }
  apply (soft_moved _ _ q); [done|].
  eapply soft_bind; [apply outcome_soft, scan_digits_moves|]. by split.
Qed.

Lemma number_value_wf neg ds fr ex :
  digits ds -> sbj_wf (number_value (mk_scan neg ds fr ex)) = true /\
               forall d, utf8_clean (number_value (mk_scan neg ds fr ex)) = true /\
                         nests (number_value (mk_scan neg ds fr ex)) d = true.
Proof.
  intros D. apply dec_value_nonneg in D. unfold number_value, sbj_uint. cbn [sc_int sc_frac sc_exp sc_neg].
  destruct fr, ex, neg; try done; repeat case_if; try done; split; try done; cbn [sbj_wf];
    unfold in_range, INT64_MIN, INT64_MAX, UINT64_MAX in *; rewrite !leb_true by lia; done.
Qed.

Lemma parse_number_moves p d : outcome (parsed d) p 0 (parse_number p).
Proof.
  unfold parse_number. set (q := if peek p =? 45 then _ else _). assert (M : moved p q).
  { subst q. case_if; [|done]. apply moved_advance, peek_nonempty. lia. }
  apply (outcome_moved _ _ q); [done|].
  eapply outcome_bind; [apply scan_int_moves|]. intros ds r D Mr Lr.
  eapply (soft_outcome_strict _ _ r); [done..|].
  eapply soft_bind; [apply scan_frac_moves|]. intros fr s _ Ms. apply (soft_moved _ _ s); [done|].
  eapply soft_bind; [apply scan_exp_moves|]. intros ex t _ Mt. split; [|done].
  destruct (number_value_wf (peek p =? 45) ds fr ex D) as [W H]. by split; [|apply H].
Qed.

(** ** Values *)

Lemma match_lit_moves p lit q :
  match_lit p lit = Some q -> bs lit <> [] ->
  moved p q /\ (length (p_rest q) < length (p_rest p))%nat.
Proof.
  unfold match_lit. case_if; [|done]. intros [= <-] N. apply bytes_eqb_eq in E.
  apply advance_lt; [destruct (bs lit); [done|simpl; lia]|].
  apply (f_equal length) in E. rewrite length_take in E. lia.
Qed.

Lemma parse_scalar_moves p d : outcome (parsed d) p 0 (parse_scalar p).
Proof.
  assert (L : forall c ch word v r, outcome (parsed d) p 0 r -> bs word <> [] -> parsed d v ->
    outcome (parsed d) p 0
      (if c =? ch then match match_lit p word with Some p' => POk v p' | None => r end else r)).
  { intros c ch word v r Hr N Hv. case_if; [|done]. destruct (match_lit p word) as [q|] eqn:Eq; [|done].
    destruct (match_lit_moves p word q Eq N) as [M Lt]. split; [done|]. unfold moved in M. intuition lia. }
  unfold parse_scalar. case_if.
  - eapply outcome_bind; [by apply parse_string_raw_moves|]. intros s q V M Lq.
    split; [by repeat split|]. unfold moved in M. intuition lia.
  - repeat apply L; try done. case_if; [apply parse_number_moves|auto with sb].
Qed.

Section Safe.
Context (strict : bool).

(** With [2n+1] fuel a value of at most [n] bytes is read; with [2n+2] the
    rest of an array or object is. *)
Definition value_safe (fuel : nat) : Prop := forall p,
  (2 * length (p_rest p) < fuel)%nat -> 0 <= p_depth p <= SBJ_MAX_DEPTH ->
  outcome (parsed (SBJ_MAX_DEPTH - p_depth p)) p 0 (parse_value strict fuel p).

Definition members_safe (fuel : nat) : Prop := forall m p,
  (2 * length (p_rest p) + 1 < fuel)%nat -> 1 <= p_depth p <= SBJ_MAX_DEPTH ->
  parsed (SBJ_MAX_DEPTH - p_depth p + 1) (SBJ_OBJECT m) ->
  outcome (parsed (SBJ_MAX_DEPTH - p_depth p + 1)) p (-1) (parse_members strict fuel (SBJ_OBJECT m) p).

Definition elements_safe (fuel : nat) : Prop := forall l p,
  (2 * length (p_rest p) + 1 < fuel)%nat -> 1 <= p_depth p <= SBJ_MAX_DEPTH ->
  parsed (SBJ_MAX_DEPTH - p_depth p + 1) (SBJ_ARRAY l) ->
  outcome (parsed (SBJ_MAX_DEPTH - p_depth p + 1)) p (-1) (parse_elements strict fuel (SBJ_ARRAY l) p).

(** Reading a closing bracket. *)
Lemma close_outcome {A} p q (Q : A -> Prop) v :
  moved p q -> 0 <= peek q -> Q v -> outcome Q p (-1) (POk v (deeper (-1) (advance 1 q))).
Proof.
  intros M Hp Hv. pose proof (peek_nonempty q Hp). destruct (advance_lt q 1) as [M1 L1]; [lia..|].
  split; [done|]. unfold moved, p_end in *. simpl in *. intuition lia.
Qed.

(** Entering a container: the empty one, or its contents read by [f]. *)
Lemma container_outcome q v close f :
  0 <= peek q -> 0 <= close -> parsed (SBJ_MAX_DEPTH - p_depth q) v ->
  (forall r, (length (p_rest r) < length (p_rest q))%nat -> p_depth r = p_depth q + 1 ->
     outcome (parsed (SBJ_MAX_DEPTH - p_depth r + 1)) r (-1) (f r)) ->
  outcome (parsed (SBJ_MAX_DEPTH - p_depth q)) q 0
    (let r := skip_ws (advance 1 (deeper 1 q)) in
     if peek r =? close then POk v (deeper (-1) (advance 1 r)) else f r).
Proof.
  intros Hp Hc Hv Hf. cbv zeta. set (r := skip_ws (advance 1 (deeper 1 q))).
  pose proof (peek_nonempty q Hp).
  destruct (advance_lt (deeper 1 q) 1) as [M1 L1]; [simpl; lia..|].
  pose proof (moved_skip_ws (advance 1 (deeper 1 q))) as M2. fold r in M2.
  pose proof (moved_trans _ _ _ M1 M2) as M. destruct M2 as (_ & L2 & _).
  destruct M as (Md & _ & Me). unfold p_end in Me. cbn [deeper p_depth p_rest p_pos] in *. clearbody r.
  enough (K : outcome (parsed (SBJ_MAX_DEPTH - p_depth r + 1)) r (-1)
                (if peek r =? close then POk v (deeper (-1) (advance 1 r)) else f r)).
  { replace (SBJ_MAX_DEPTH - p_depth r + 1) with (SBJ_MAX_DEPTH - p_depth q) in K by lia.
    revert K. unfold outcome, p_end. destruct (if peek r =? close then _ else _); intuition lia. }
  case_if; [|apply Hf; lia]. apply close_outcome; [apply moved_refl|lia|].
  by replace (SBJ_MAX_DEPTH - p_depth r + 1) with (SBJ_MAX_DEPTH - p_depth q) by lia.
Qed.

Lemma value_step fuel : members_safe fuel -> elements_safe fuel -> value_safe (S fuel).
Proof.
  intros HM HE p Hf Hd. cbn [parse_value]. pose proof (moved_skip_ws p) as M.
  apply (outcome_moved _ _ (skip_ws p)); [done|]. destruct M as (Md & Ml & _). rewrite <- Md in *.
  set (q := skip_ws p) in *. clearbody q.
  destruct (peek q <? 0) eqn:E0; bool_facts; [auto with sb|].
  destruct (peek q =? 123) eqn:E1; [|destruct (peek q =? 91) eqn:E2; [|apply parse_scalar_moves]];
    bool_facts; (case_if; [by apply outcome_perr|]);
    apply container_outcome; try lia.
  - apply parsed_object_nil. lia.
  - intros r Lr Dr. apply HM; [lia..|]. apply parsed_object_nil. lia.
  - apply parsed_array_nil. lia.
  - intros r Lr Dr. apply HE; [lia..|]. apply parsed_array_nil. lia.
Qed.

Lemma elements_step fuel : value_safe fuel -> elements_safe fuel -> elements_safe (S fuel).
Proof.
  intros HV HE l p Hf Hd Hl. cbn [parse_elements].
  eapply outcome_bind; [apply HV; lia|]. intros v q Hv M L.
  pose proof (moved_trans _ _ _ M (moved_skip_ws q)) as M'. pose proof (moved_skip_ws q) as (_ & Lq & _).
  pose proof M' as (Dq & _ & _). set (r := skip_ws q) in *. clearbody r. cbv zeta.
  assert (P : parsed (SBJ_MAX_DEPTH - p_depth p + 1) (sbj_arr_push (SBJ_ARRAY l) (Some v))).
  { apply parsed_push; [done|]. by replace (SBJ_MAX_DEPTH - p_depth p + 1 - 1) with (SBJ_MAX_DEPTH - p_depth p) by lia. }
  cbn [sbj_arr_push] in *. case_if.
  - pose proof (peek_nonempty r ltac:(lia)). destruct (advance_lt r 1) as [M1 L1]; [lia..|].
    apply (outcome_moved _ _ (advance 1 r)); [by eapply moved_trans|].
    rewrite <- Dq in *. apply (HE _ (advance 1 r)); [lia|done|done].
  - case_if; [by apply close_outcome; [|lia|]|by apply outcome_perr].
Qed.

Lemma members_step fuel : value_safe fuel -> members_safe fuel -> members_safe (S fuel).
Proof.
  intros HV HM m p Hf Hd Hm. cbn [parse_members]. pose proof (moved_skip_ws p) as M.
  apply (outcome_moved _ _ (skip_ws p)); [done|]. destruct M as (Md & Ml & _). rewrite <- Md in *.
  set (q := skip_ws p) in *. clearbody q.
  destruct (peek q =? 34) eqn:E; bool_facts; [|by apply outcome_perr]. cbn [negb].
  eapply outcome_bind; [by apply parse_string_raw_moves|]. intros k r Vk Mr Lr.
  case_if; [by apply outcome_perr|]. clear E0.
  pose proof (moved_trans _ _ _ Mr (moved_skip_ws r)) as Ms. pose proof (moved_skip_ws r) as (_ & Ls & _).
  set (s := skip_ws r) in *. clearbody s. cbv zeta.
  destruct (peek s =? 58) eqn:Es; bool_facts; [|by apply outcome_perr]. cbn [negb].
  pose proof (peek_nonempty s ltac:(lia)). destruct (advance_lt s 1) as [Mt Lt]; [lia..|].
  pose proof (moved_trans _ _ _ Ms Mt) as Mqt. set (t := advance 1 s) in *. clearbody t.
  pose proof Mqt as (Dt & _ & _).
  assert (K : outcome (parsed (SBJ_MAX_DEPTH - p_depth t)) t 0 (parse_value strict fuel t)) by (apply HV; lia).
  revert K. unfold outcome at 1. destruct (parse_value strict fuel t) as [v u|msg i|]; cbn [pbind];
    [|unfold moved, outcome in *; lia|done].
  intros (Pv & Du & Lu & Eu). assert (Mu : moved q u) by (unfold moved in *; intuition lia).
  rewrite Dt in Pv. destruct (parsed_setn (SBJ_MAX_DEPTH - p_depth q + 1) m k v) as (m' & -> & Pm); [done..| |].
  { by replace (SBJ_MAX_DEPTH - p_depth q + 1 - 1) with (SBJ_MAX_DEPTH - p_depth q) by lia. }
  pose proof (moved_trans _ _ _ Mu (moved_skip_ws u)) as Mw. pose proof (moved_skip_ws u) as (_ & Lw & _).
  set (w := skip_ws u) in *. clearbody w. pose proof Mw as (Dw & _ & _). case_if.
  - pose proof (peek_nonempty w ltac:(lia)). destruct (advance_lt w 1) as [M1 L1]; [lia..|].
    apply (outcome_moved _ _ (advance 1 w)); [by eapply moved_trans|].
    rewrite <- Dw in *. apply (HM _ (advance 1 w)); [lia|done|done].
  - case_if; [by apply close_outcome; [|lia|]|by apply outcome_perr].
Qed.

Lemma parser_safe fuel : value_safe fuel /\ members_safe fuel /\ elements_safe fuel.
Proof.
  induction fuel as [|fuel (HV & HM & HE)].
  - repeat split; intros ? *; lia.
  - split; [by apply value_step|]. split; [by apply members_step|by apply elements_step].
Qed.
End Safe.

Lemma parse_document_outcome text strict :
  match parse_document text strict with
  | POk v p => parsed SBJ_MAX_DEPTH v /\ p_rest p = []
  | PFail _ pos => (pos <= length text)%nat
  | PFuel => False
  end.
Proof.
  unfold parse_document. destruct (parser_safe strict (parse_fuel text)) as [HV _].
  specialize (HV (mk_parser text 0 0)). unfold parse_fuel, SBJ_MAX_DEPTH in *. simpl p_rest in HV. simpl p_depth in HV.
  specialize (HV ltac:(lia) ltac:(lia)). revert HV. unfold outcome, p_end.
  destruct (parse_value _ _ _) as [v p|msg i|]; cbn [pbind p_pos p_rest]; [|lia|done].
  intros (Pv & _ & _ & E). pose proof (moved_skip_ws p) as (_ & _ & E2). unfold p_end in E2.
  destruct (p_rest (skip_ws p)) eqn:Er; [done|]. unfold perr. lia.
Qed.

(** C5: the parser is total and safe.  On every text [parse_document] ends
    without exhausting its fuel; an accepted value is well formed, contains only
    valid UTF-8, and nests at most 512 containers; a rejection is reported at an
    offset within the text.  The validation [sbj_parse_strict] runs on its
    result therefore never rejects. *)
Theorem sbj_parse_total_safe text strict :
  match parse_document text strict with
  | POk v p => sbj_wf v = true /\ sbj_validate_utf8 v = Ok tt /\ nests v SBJ_MAX_DEPTH = true /\ p_rest p = []
  | PFail _ pos => (pos <= length text)%nat
  | PFuel => False
  end /\ sbj_parse_strict text = parse_outcome (parse_document text true).
Proof.
  split.
  - pose proof (parse_document_outcome text strict) as H.
    destruct (parse_document text strict) as [v p|msg i|]; [|done..].
    destruct H as ((W & U & N) & E). rewrite validate_utf8_clean. done.
  - unfold sbj_parse_strict. pose proof (parse_document_outcome text true) as H.
    destruct (parse_document text true) as [v p|msg i|]; simpl; [|done..].
    destruct H as ((W & U%validate_utf8_clean & N) & E). by rewrite U.
Qed.

Lemma sbj_parse_wf text v : sbj_parse text = Some v -> parsed SBJ_MAX_DEPTH v.
Proof.
  unfold sbj_parse, sbj_parse_msg. pose proof (parse_document_outcome text false) as H.
  destruct (parse_document text false); simpl; [|done..]. intros [= <-]. apply H.
Qed.
