(* ===== verification/JsonRound.v ===== *)
(** * Parsing what was serialised ([c/src/json.c])

    [sbj_parse] applied to the output of [sbj_dump] gives back the value, at
    every indentation.  The pieces are proved separately: decimal integers,
    string escapes, numbers followed by other text, containers. *)

From Stdlib Require Import SpecFloat.
From S2P Require Import Prelude Util Json Grisu JsonText JsonUtf8 JsonSafe.

(** ** Decimal integers *)

(** [ds] is the canonical decimal numeral of [z]. *)
Record numeral (ds : bytes) (z : Z) : Prop := {
  numeral_digits : digits ds;
  numeral_value : dec_value ds = z;
  numeral_head : exists c ds', ds = c :: ds' /\ (code c = 48 -> z = 0 /\ ds' = []) }.

Lemma isdigit_chr d : 0 <= d < 10 -> isdigit (chr (48 + d)) = true.
Proof. intros. unfold isdigit, in_range. rewrite code_chr by lia. rewrite !leb_true by lia. done. Qed.

Lemma dec_from_numeral fuel z acc :
  0 <= z < 2 ^ Z.of_nat fuel -> (0 < fuel)%nat -> exists ds, dec_from fuel z acc = ds ++ acc /\ numeral ds z.
Proof.
  revert z acc. induction fuel as [|fuel IH]; intros z acc Hz Hf; [lia|].
  rewrite Nat2Z.inj_succ, Z.pow_succ_r in Hz by lia. cbn [dec_from].
  assert (Hm : 0 <= z mod 10 < 10) by lia_dm. case_if.
  - exists [chr (48 + z mod 10)]. split; [done|]. split.
    + repeat constructor. by apply isdigit_chr.
    + unfold dec_value. simpl. rewrite code_chr by lia. lia_dm.
    + do 2 eexists. split; [done|]. rewrite code_chr by lia. split; [lia_dm|done].
  - destruct fuel as [|fuel]; [simpl in Hz; lia_dm|].
    destruct (IH (z / 10) (chr (48 + z mod 10) :: acc)) as (ds & -> & [D V (c & ds' & -> & Hc)]); [lia_dm|lia|].
    exists (c :: ds' ++ [chr (48 + z mod 10)]). split; [simpl; by rewrite <- app_assoc|]. split.
    + apply (Forall_app_2 _ (c :: ds')); [done|]. repeat constructor. by apply isdigit_chr.
    + change (c :: ds' ++ ?x) with ((c :: ds') ++ x). rewrite dec_value_snoc, V, code_chr by lia. lia_dm.
    + do 2 eexists. split; [done|]. intros [? _]%Hc. lia.
Qed.

Lemma fmt_uint_numeral z : 0 <= z -> numeral (fmt_uint z) z.
Proof.
  intros H. unfold fmt_uint.
  destruct (dec_from_numeral (S (Z.to_nat (Z.log2 z))) z []) as (ds & -> & N); [|lia|by rewrite app_nil_r].
  rewrite Nat2Z.inj_succ, Z2Nat.id by apply Z.log2_nonneg.
  destruct (decide (z = 0)) as [-> | ?]; [simpl; lia|]. pose proof (Z.log2_spec z ltac:(lia)). lia.
Qed.

(** ** Reading from a given text

    Where a success leaves the parser, positions aside. *)
Definition reads {A} (r : presult A) (a : A) (tail : bytes) (depth : Z) : Prop :=
  exists q, r = POk a q /\ p_rest q = tail /\ p_depth q = depth.

Lemma reads_bind {A B} (r : presult A) (f : A -> parser_t -> presult B) a b t d t' d' :
  reads r a t d -> (forall q, p_rest q = t -> p_depth q = d -> reads (f a q) b t' d') ->
  reads (pbind r f) b t' d'.
Proof. intros (q & -> & Ht & Hd) H. by apply H. Qed.

Lemma reads_ok {A} (a : A) q : reads (POk a q) a (p_rest q) (p_depth q).
Proof. by exists q. Qed.

(** ** Strings *)

Definition escape (c : ascii) : bytes := default [c] (dump_escape c).

Lemma dump_string_loop_escape s1 s2 run :
  (run <= length s1)%nat ->
  dump_string_loop (s1 ++ s2) s2 (length s1) run = drop (length s1 - run) s1 ++ (s2 ≫= escape).
Proof.
  revert s1 run. induction s2 as [|c s2 IH]; intros s1 run Hr; cbn [dump_string_loop].
  - rewrite app_nil_r, app_nil_r, take_ge; [done|]. rewrite length_drop. lia.
  - assert (E : take run (drop (length s1 - run) (s1 ++ c :: s2)) = drop (length s1 - run) s1).
    { rewrite drop_app_le by lia. rewrite take_app_le by (rewrite length_drop; lia).
      apply take_ge. rewrite length_drop. lia. }
    pose proof (IH (s1 ++ [c])) as IH'. rewrite length_app, <- app_assoc in IH'. simpl in IH'.
    rewrite Nat.add_1_r in IH'. cbn [mbind list_bind]. unfold escape at 1.
    destruct (dump_escape c) as [esc|] eqn:Ec; cbn [default].
    + rewrite IH' by lia. rewrite E, (drop_ge (s1 ++ [c])) by (rewrite length_app; simpl; lia). done.
    + rewrite IH' by lia. rewrite Nat.sub_succ, drop_app_le by lia. by rewrite <- app_assoc.
Qed.

Lemma dump_string_escape s : dump_string s = [chr 34] ++ (s ≫= escape) ++ [chr 34].
Proof. unfold dump_string. pose proof (dump_string_loop_escape [] s 0 ltac:(simpl; lia)) as H. cbn in H. by rewrite H. Qed.

Lemma hexval_digit v : 0 <= v < 16 -> hexval (hex_digit v) = v.
Proof.
  intros H. unfold hexval, hex_digit, isdigit, in_range. destruct (v <? 10) eqn:E; bool_facts;
    rewrite code_chr by lia; decide_cmp; simpl; lia.
Qed.

(** A \u00xy escape is read back as the byte it stands for. *)
Lemma parse_escape_u00 c p t :
  code c < 128 -> p_rest p = bs "00" ++ [hex_digit (code c / 16); hex_digit (code c mod 16)] ++ t ->
  reads (parse_escape 117 p) [c] t (p_depth p).
Proof.
  intros Hc Hp. pose proof (code_range c). unfold parse_escape. decide_cmp. unfold hex4.
  destruct p as [rest pos d]. cbn [p_rest p_depth] in *. subst rest.
  replace (_ <? 4)%nat with false by done. cbn [hex4_loop p_rest app bs String.list_ascii_of_string].
  repeat (cbn [advance drop p_rest hex4_loop];
    match goal with |- context [hexval ?h] =>
      first [change (hexval h) with 0 | rewrite (hexval_digit (code c / 16)) by lia_dm
            | rewrite (hexval_digit (code c mod 16)) by lia_dm] end).
  change (0 <? 0) with false. cbn [Z.shiftl Z.lor Z.shiftr].
  rewrite (ltb_false (code c / 16)), (ltb_false (code c mod 16)) by lia_dm. cbn [hex4_loop].
  rewrite (lor_shiftl_add (code c / 16)) by lia_dm.
  replace (code c / 16 * 2 ^ 4 + code c mod 16) with (code c) by lia_dm.
  decide_cmp. cbn [andb]. unfold put_utf8. decide_cmp. rewrite chr_code. by eexists.
Qed.

(** Every escape the serialiser writes is read back as the byte it replaced. *)
Lemma dump_escape_read c esc :
  dump_escape c = Some esc ->
  exists e w, esc = chr 92 :: e :: w /\
    forall p t, p_rest p = w ++ t -> reads (parse_escape (code e) p) [c] t (p_depth p).
Proof.
  unfold dump_escape. intros H.
  repeat (case_if_in H; [injection H as <-; do 2 eexists; split; [reflexivity|];
    intros p t Hp; cbn [app] in Hp; subst t; match goal with E : code c = ?k |- _ =>
      rewrite <- (chr_code c), E; apply reads_ok end|]).
  case_if_in H; [|done]. injection H as <-. exists (chr 117). eexists. split; [reflexivity|].
  intros p t Hp. apply parse_escape_u00; [lia|done].
Qed.

Lemma dump_escape_none c : dump_escape c = None -> code c <> 34 /\ code c <> 92 /\ 32 <= code c.
Proof. unfold dump_escape. repeat (case_if; [done|]). lia. Qed.

Lemma escape_cons c s : (c :: s) ≫= escape = escape c ++ (s ≫= escape).
Proof. done. Qed.

Lemma escape_high u : Forall (fun c => 0x80 <= code c) u -> u ≫= escape = u.
Proof.
  induction 1 as [|c u Hc _ IH]; [done|]. rewrite escape_cons, IH. unfold escape, dump_escape. decide_cmp. done.
Qed.

Lemma escape_length_pos c : (0 < length (escape c))%nat.
Proof.
  unfold escape. destruct (dump_escape c) eqn:E; simpl; [|lia].
  apply dump_escape_read in E as (e & w & -> & _). simpl. lia.
Qed.

Lemma escape_length s : (length s <= length (s ≫= escape))%nat.
Proof.
  induction s as [|x s IH]; [done|]. rewrite escape_cons, length_app.
  pose proof (escape_length_pos x). simpl. lia.
Qed.

(** One step of the string loop over an unescaped code point. *)
Lemma parse_string_plain fuel b p u t :
  utf8_unit u -> u ≫= escape = u -> p_rest p = u ++ t ->
  parse_string_loop (S fuel) b p = parse_string_loop fuel (b ++ u) (advance (length u) p).
Proof.
  intros U Eu Hp. pose proof (unit_nonempty _ U). destruct u as [|c u]; [done|].
  assert (Hc : code c <> 34 /\ code c <> 92 /\ 32 <= code c).
  { rewrite escape_cons in Eu. unfold escape at 1 in Eu. destruct (dump_escape c) as [esc|] eqn:Ec;
      [|by apply dump_escape_none].
    apply dump_escape_read in Ec as (e & w & -> & _). exfalso. pose proof (escape_length u).
    apply (f_equal length) in Eu. rewrite length_app in Eu. simpl in Eu. lia. }
  cbn [parse_string_loop]. rewrite Hp at 1. cbn [app]. decide_cmp.
  rewrite Hp, (unit_seq _ U). cbn [length Nat.eqb]. change (S (length u)) with (length (c :: u)).
  by rewrite take_app_length.
Qed.

Lemma parse_string_loop_round s : valid_utf8 s = true -> forall fuel b p t,
  p_rest p = (s ≫= escape) ++ chr 34 :: t -> (length (p_rest p) < fuel)%nat ->
  reads (parse_string_loop fuel b p) (b ++ s) t (p_depth p).
Proof.
  revert s. apply (valid_utf8_ind (fun s => forall fuel b p t, _ -> _ -> reads _ (b ++ s) t _)).
  - intros fuel b p t Hp Hf. destruct fuel as [|fuel]; [lia|]. cbn [parse_string_loop].
    rewrite Hp. cbn [mbind list_bind app]. rewrite code_chr, Z.eqb_refl by lia. rewrite app_nil_r.
    eexists. split; [done|]. simpl. by rewrite Hp.
  - intros u s U Vs IH fuel b p t Hp Hf. destruct fuel as [|fuel]; [lia|].
    rewrite bind_app in Hp.
    assert (Plain : u ≫= escape = u ->
      reads (parse_string_loop (S fuel) b p) (b ++ u ++ s) t (p_depth p)).
    { intros Eu. rewrite Eu, <- app_assoc in Hp.
      rewrite (parse_string_plain fuel b p u _ U Eu Hp), app_assoc.
      pose proof (unit_nonempty _ U). apply (IH fuel (b ++ u) (advance (length u) p)).
      - simpl. by rewrite Hp, drop_app_length.
      - simpl. rewrite Hp, drop_app_length. rewrite Hp, length_app in Hf. destruct u; [done|]. simpl in Hf. lia. }
    destruct (unit_bytes _ U) as [(c & -> & Hc) | Hu]; [|by apply Plain, escape_high].
    destruct (dump_escape c) as [esc|] eqn:Ec.
    2: { apply Plain. cbn. unfold escape. by rewrite Ec. }
    clear Plain. rewrite escape_cons in Hp. unfold escape at 1 in Hp. rewrite Ec in Hp. cbn [default] in Hp.
    apply dump_escape_read in Ec as (e & w & -> & R). cbn [mbind list_bind] in Hp. rewrite app_nil_r in Hp. cbn [id app] in Hp.
    cbn [parse_string_loop]. rewrite Hp. cbv iota beta zeta. rewrite code_chr by lia. decide_cmp.
    assert (Ha : p_rest (advance 1 p) = e :: w ++ (s ≫= escape) ++ chr 34 :: t)
      by (simpl; rewrite Hp; simpl; by rewrite <- app_assoc).
    assert (Hpk : peek (advance 1 p) = code e) by (unfold peek; by rewrite Ha).
    rewrite Hpk. pose proof (code_range e). decide_cmp.
    eapply reads_bind; [apply (R (advance 1 (advance 1 p)) ((s ≫= escape) ++ chr 34 :: t)); 
      simpl; rewrite Hp; simpl; by rewrite <- app_assoc|].
    intros q Hq Hd. rewrite app_assoc. simpl in Hd. rewrite <- Hd. apply IH; [done|].
    rewrite Hq, length_app. rewrite Hp in Hf. simpl in Hf. rewrite !length_app in Hf. simpl in *. lia.
Qed.

Lemma parse_string_raw_round s p t :
  valid_utf8 s = true -> p_rest p = dump_string s ++ t -> reads (parse_string_raw p) s t (p_depth p).
Proof.
  intros V Hp. rewrite dump_string_escape in Hp. unfold parse_string_raw.
  apply (parse_string_loop_round s V _ [] (advance 1 p)); [|lia].
  simpl. rewrite Hp. simpl. by rewrite <- app_assoc.
Qed.

(** ** Numbers *)

(** Text that cannot continue a number. *)
Definition num_stop (t : bytes) : bool :=
  match t with
  | [] => true
  | c :: _ => negb (isdigit c || (code c =? 46) || (code c =? 101) || (code c =? 69))
  end.

Lemma num_stop_peek t p :
  num_stop t = true -> p_rest p = t ->
  in_range 48 57 (peek p) = false /\ (peek p =? 46) = false /\ (peek p =? 101) || (peek p =? 69) = false.
Proof.
  unfold num_stop, peek. intros H ->. destruct t as [|c t]; [done|].
  apply negb_true_iff in H. rewrite !orb_false_iff in H. destruct H as [[[D E1] E2] E3].
  unfold isdigit in D. by rewrite D, E1, E2, E3.
Qed.

Lemma span_digits_stop w t : num_stop t = true -> span_digits (w ++ t) = span_digits w.
Proof.
  intros H. induction w as [|c w IH]; simpl.
  - destruct t as [|c t]; [done|]. simpl in *. apply negb_true_iff in H. rewrite !orb_false_iff in H.
    by destruct H as [[[-> _] _] _].
  - by rewrite IH.
Qed.

Lemma span_digits_all ds : digits ds -> span_digits ds = ds.
Proof. induction 1 as [|c ds Hc _ IH]; simpl; [done|]. by rewrite Hc, IH. Qed.

Lemma peek_app p p' t : p_rest p' = p_rest p ++ t -> 0 <= peek p -> peek p' = peek p.
Proof. unfold peek. intros ->. destruct (p_rest p); simpl; [lia|done]. Qed.

Lemma advance_app n p p' t :
  p_rest p' = p_rest p ++ t -> (n <= length (p_rest p))%nat ->
  p_rest (advance n p') = p_rest (advance n p) ++ t.
Proof. simpl. intros -> H. by apply drop_app_le. Qed.

(** [f] gives the same answer when the text goes on with something that cannot
    continue a number. *)
Definition extends {A} (f : parser_t -> presult A) : Prop := forall p a q p' t,
  f p = POk a q -> p_rest p' = p_rest p ++ t -> num_stop t = true ->
  reads (f p') a (p_rest q ++ t) (p_depth p').

Lemma scan_digits_extends : extends scan_digits.
Proof.
  intros p a q p' t H Hp Ht. unfold scan_digits in *. case_if_in H; [|done]. injection H as <- <-.
  assert (0 <= peek p) by (unfold in_range in E; bool_facts; lia).
  rewrite (peek_app p p' t), E, Hp, span_digits_stop by done. eexists. split; [done|]. split; [|done].
  by apply advance_app, span_digits_le.
Qed.

Lemma scan_int_extends : extends scan_int.
Proof.
  intros p a q p' t H Hp Ht. unfold scan_int in *. case_if_in H; [|case_if_in H; [|done]];
    injection H as <- <-.
  - rewrite (peek_app p p' t), eqb_true by (done || lia). eexists. split; [done|]. split; [|done].
    apply advance_app; [done|]. apply peek_nonempty. lia.
  - assert (0 <= peek p) by (unfold in_range in *; bool_facts; lia).
    rewrite (peek_app p p' t), eqb_false, E0, Hp, span_digits_stop by done.
    eexists. split; [done|]. split; [|done]. by apply advance_app, span_digits_le.
Qed.

Lemma bind_ok {A B} (r : presult A) (f : A -> parser_t -> presult B) b q :
  pbind r f = POk b q -> exists a p, r = POk a p /\ f a p = POk b q.
Proof. destruct r; simpl; [eauto|done..]. Qed.

Lemma reads_inv {A} (r : presult A) a t d : reads r a t d -> exists q, r = POk a q /\ p_rest q = t /\ p_depth q = d.
Proof. done. Qed.

Lemma peek_stop p p' t :
  p_rest p' = p_rest p ++ t -> num_stop t = true -> peek p < 0 ->
  (peek p' =? 46) = false /\ (peek p' =? 101) || (peek p' =? 69) = false.
Proof.
  intros Hp Ht H. unfold peek in H. destruct (p_rest p) as [|c s] eqn:E; [|pose proof (code_range c); lia].
  rewrite app_nil_l in Hp. by destruct (num_stop_peek t p' Ht Hp) as (_ & ? & ?).
Qed.

Lemma scan_frac_extends : extends scan_frac.
Proof.
  intros p a q p' t H Hp Ht. unfold scan_frac in *. destruct (Z.lt_ge_cases (peek p) 0) as [N | N].
  - destruct (peek_stop p p' t Hp Ht N) as [-> _]. rewrite eqb_false in H by lia. injection H as <- <-.
    eexists. done.
  - rewrite (peek_app p p' t) by done. case_if.
    + apply bind_ok in H as (ds & r & H & [= <- <-]).
      eapply reads_bind; [eapply scan_digits_extends; [done| |done]|intros s <- Hd; by exists s].
      by apply advance_app, peek_nonempty.
    + injection H as <- <-. by eexists.
Qed.

Lemma scan_exp_extends : extends scan_exp.
Proof.
  intros p a q p' t H Hp Ht. unfold scan_exp in *. destruct (Z.lt_ge_cases (peek p) 0) as [N | N].
  - destruct (peek_stop p p' t Hp Ht N) as [_ ->]. rewrite !eqb_false in H by lia.
    injection H as <- <-. by eexists.
  - rewrite (peek_app p p' t) by done. destruct (_ || _) eqn:E; [|injection H as <- <-; by eexists].
    apply bind_ok in H as (ds & r & H & [= <- <-]).
    assert (Ha : p_rest (advance 1 p') = p_rest (advance 1 p) ++ t) by (by apply advance_app, peek_nonempty).
    set (s := advance 1 p) in *. set (s' := advance 1 p') in *.
    assert (Ns : 0 <= peek s).
    { destruct (Z.lt_ge_cases (peek s) 0); [|done]. rewrite (eqb_false (peek s)), (eqb_false (peek s)) in H by lia.
      unfold scan_digits in H. cbn [orb] in H. unfold in_range in H. rewrite leb_false in H by lia. done. }
    rewrite (peek_app s s' t) by done.
    eapply reads_bind; [eapply scan_digits_extends; [done| |done]|].
    + destruct ((peek s =? 43) || (peek s =? 45)); [by apply advance_app, peek_nonempty|done].
    + intros u <- Hd. exists u. split; [done|]. split; [done|]. rewrite Hd. by destruct ((peek s =? 43) || (peek s =? 45)).
Qed.

Lemma parse_number_head p v q :
  parse_number p = POk v q -> peek p = 45 \/ in_range 48 57 (peek p) = true.
Proof.
  unfold parse_number. destruct (peek p =? 45) eqn:E; bool_facts; [by left|].
  intros (ds & r & H & _)%bind_ok. right. unfold scan_int in H.
  case_if_in H; [rewrite E0; done|]. case_if_in H; [|done]. unfold in_range in *. bool_facts.
  by rewrite !leb_true by lia.
Qed.

Lemma parse_number_extends : extends parse_number.
Proof.
  intros p a q p' t H Hp Ht. pose proof (parse_number_head _ _ _ H) as Hh.
  assert (N : 0 <= peek p) by (unfold in_range in Hh; destruct Hh; bool_facts; lia).
  unfold parse_number in *. rewrite (peek_app p p' t) by done.
  set (s := if peek p =? 45 then _ else p) in *. set (s' := if peek p =? 45 then _ else p') in *.
  assert (Hs : p_rest s' = p_rest s ++ t /\ p_depth s' = p_depth p').
  { subst s s'. destruct (peek p =? 45); [|done]. split; [by apply advance_app, peek_nonempty|done]. }
  destruct Hs as [Hs <-].
  apply bind_ok in H as (ds & r & Hi & (fr & u & Hf & (ex & w & He & [= <- <-])%bind_ok)%bind_ok).
  eapply reads_bind; [by eapply scan_int_extends|]. intros r' Hr <-.
  eapply reads_bind; [by eapply scan_frac_extends|]. intros u' Hu <-.
  eapply reads_bind; [by eapply scan_exp_extends|]. intros w' <- <-. apply reads_ok.
Qed.

Lemma scan_int_numeral ds z p : numeral ds z -> p_rest p = ds -> reads (scan_int p) ds [] (p_depth p).
Proof.
  intros [D V (c & ds' & -> & Hc)] Hp. unfold scan_int.
  assert (Hpk : peek p = code c) by (unfold peek; by rewrite Hp). rewrite Hpk.
  pose proof (Forall_inv D) as Dc. unfold isdigit in Dc. case_if.
  - destruct Hc as [-> ->]; [done|]. assert (c = chr 48) as -> by (by rewrite <- E, chr_code).
    eexists. split; [done|]. simpl. by rewrite Hp.
  - replace (in_range 49 57 (code c)) with true by (unfold in_range in *; bool_facts; by rewrite !leb_true by lia).
    rewrite Hp, span_digits_all by done. eexists. split; [done|]. cbn [advance p_rest p_depth].
    by rewrite Hp, drop_all.
Qed.

(** A numeral with an optional minus sign, up to the end of the text. *)
Lemma parse_number_numeral (neg : bool) ds z p :
  numeral ds z -> p_rest p = (if neg then [chr 45] else []) ++ ds ->
  reads (parse_number p) (number_value (mk_scan neg ds None None)) [] (p_depth p).
Proof.
  intros N Hp. unfold parse_number.
  assert (Hn : (peek p =? 45) = neg).
  { unfold peek. rewrite Hp. destruct neg; [done|]. destruct N as [D _ (c & ds' & -> & _)].
    apply Forall_inv in D. unfold isdigit, in_range in D. bool_facts. cbn [app]. apply eqb_false. lia. }
  rewrite Hn. set (q := if neg then _ else p).
  assert (Hq : p_rest q = ds /\ p_depth q = p_depth p) by (subst q; destruct neg; simpl; by rewrite Hp).
  destruct Hq as [Hq <-]. eapply reads_bind; [by eapply scan_int_numeral|]. intros r Hr <-.
  assert (Hpk : peek r = -1) by (unfold peek; by rewrite Hr).
  unfold scan_frac, scan_exp. rewrite Hpk. cbn [Z.eqb orb pbind]. rewrite Hpk. cbn [Z.eqb orb pbind].
  rewrite <- Hr. apply reads_ok.
Qed.

Lemma parse_int_round i p :
  in_range INT64_MIN INT64_MAX i = true -> p_rest p = fmt_int i ->
  reads (parse_number p) (SBJ_INT i) [] (p_depth p).
Proof.
  unfold in_range, INT64_MIN, INT64_MAX. intros H Hp. bool_facts. unfold fmt_int in Hp.
  destruct (i <? 0) eqn:E; bool_facts.
  - pose proof (fmt_uint_numeral (- i) ltac:(lia)) as N.
    pose proof (parse_number_numeral true _ _ p N Hp) as R. destruct N as [_ V _].
    unfold number_value in R. cbn [sc_int sc_frac sc_exp sc_neg] in R.
    rewrite V, ltb_false, Z.opp_involutive in R by (unfold INT64_MIN; lia). done.
  - pose proof (fmt_uint_numeral i ltac:(lia)) as N.
    pose proof (parse_number_numeral false _ _ p N Hp) as R. destruct N as [_ V _].
    unfold number_value, sbj_uint in R. cbn [sc_int sc_frac sc_exp sc_neg] in R.
    rewrite V, ltb_false, leb_true in R by (unfold UINT64_MAX, INT64_MAX; lia). done.
Qed.

Lemma parse_uint_round u p :
  in_range (INT64_MAX + 1) UINT64_MAX u = true -> p_rest p = fmt_uint u ->
  reads (parse_number p) (SBJ_UINT u) [] (p_depth p).
Proof.
  unfold in_range, UINT64_MAX, INT64_MAX. intros H Hp. bool_facts.
  pose proof (fmt_uint_numeral u ltac:(lia)) as N.
  pose proof (parse_number_numeral false _ _ p N Hp) as R. destruct N as [_ V _].
  unfold number_value, sbj_uint in R. cbn [sc_int sc_frac sc_exp sc_neg] in R.
  rewrite V, ltb_false, leb_false in R by (unfold UINT64_MAX, INT64_MAX; lia). done.
Qed.

(** ** Floats

    Whether the digits written for [f] read back as [f] is decided by running
    both directions on [f] alone; what may follow in the text is immaterial. *)

Definition double_same (a b : double) : bool :=
  match a, b with
  | S754_zero s, S754_zero s' => Bool.eqb s s'
  | S754_infinity s, S754_infinity s' => Bool.eqb s s'
  | S754_nan, S754_nan => true
  | S754_finite s m e, S754_finite s' m' e' => Bool.eqb s s' && Pos.eqb m m' && (e =? e')
  | _, _ => false
  end.

Lemma double_same_eq a b : double_same a b = true -> a = b.
Proof.
  destruct a, b; simpl; try done; intros H; bool_facts; repeat match goal with
    | H : Bool.eqb _ _ = true |- _ => apply eqb_prop in H as -> end; try done.
  apply Pos.eqb_eq in H1 as ->. by subst.
Qed.

Definition float_ok (f : double) : bool :=
  match parse_number (mk_parser (dump_float f) 0 0) with
  | POk (SBJ_FLOAT g) q => double_same f g && match p_rest q with [] => true | _ => false end
  | _ => false
  end.

Lemma float_ok_reads f :
  float_ok f = true -> exists q, parse_number (mk_parser (dump_float f) 0 0) = POk (SBJ_FLOAT f) q /\ p_rest q = [].
Proof.
  unfold float_ok. destruct (parse_number _) as [[] q|?|]; try done. intros H. bool_facts.
  apply double_same_eq in H as ->. exists q. split; [done|]. by destruct (p_rest q).
Qed.

Fixpoint floats_ok (v : sbj) : bool :=
  match v with
  | SBJ_FLOAT f => float_ok f
  | SBJ_ARRAY l => forallb floats_ok l
  | SBJ_OBJECT m => forallb (fun kv => floats_ok (snd kv)) m
  | _ => true
  end.

(** ** Scalars *)

Definition is_scalar (v : sbj) : bool :=
  match v with SBJ_ARRAY _ | SBJ_OBJECT _ => false | _ => true end.

(** The first byte of a serialised value. *)
Record starts (w : bytes) (scalar : bool) : Prop := {
  starts_cons : exists c w', w = c :: w' /\ is_ws c = false /\ code c <> 93 /\ code c <> 125 /\
                             (scalar = true -> code c <> 123 /\ code c <> 91) }.

Lemma number_reads v w p t :
  (exists q, parse_number (mk_parser w 0 0) = POk v q /\ p_rest q = []) ->
  p_rest p = w ++ t -> num_stop t = true ->
  reads (parse_scalar p) v t (p_depth p) /\ starts w true.
Proof.
  intros (q & Hq & Rq) Hp Ht. pose proof (parse_number_head _ _ _ Hq) as Hh.
  assert (Hc : exists c w', w = c :: w' /\ (code c = 45 \/ in_range 48 57 (code c) = true)).
  { unfold peek in Hh. simpl in Hh. destruct w as [|c w]; [unfold in_range in Hh; simpl in Hh; destruct Hh; done|eauto]. }
  destruct Hc as (c & w' & -> & Hc). unfold in_range in Hc. 
  assert (Hr : code c = 45 \/ 48 <= code c <= 57) by (destruct Hc; bool_facts; lia). split.
  - unfold parse_scalar. assert (Hpk : peek p = code c) by (unfold peek; by rewrite Hp). rewrite Hpk.
    rewrite !(eqb_false (code c)) by lia. cbv zeta.
    replace ((code c =? 45) || in_range 48 57 (code c)) with true.
    + pose proof (parse_number_extends _ _ _ p t Hq Hp Ht) as R. by rewrite Rq in R.
    + symmetry. apply orb_true_iff. unfold in_range. destruct Hc as [-> | ->]; auto.
  - split. exists c, w'. split; [done|]. split; [|lia]. unfold is_ws. by rewrite !eqb_false by lia.
Qed.

Lemma match_lit_round p word t :
  p_rest p = bs word ++ t -> exists q, match_lit p word = Some q /\ p_rest q = t /\ p_depth q = p_depth p.
Proof.
  intros Hp. unfold match_lit. rewrite Hp, take_app_length, bytes_eqb_refl.
  eexists. split; [done|]. cbn [advance p_rest p_depth]. by rewrite Hp, drop_app_length.
Qed.

(** The literals: [null], [true], [false]. *)
Lemma literal_round p t (v : sbj) :
  match v with SBJ_NULL | SBJ_BOOL _ => True | _ => False end ->
  p_rest p = dump_value 0 v 0 ++ t -> reads (parse_scalar p) v t (p_depth p).
Proof.
  intros Hv Hp. unfold parse_scalar, peek.
  destruct v as [|[]| | | | | | ]; try done;
    destruct (match_lit_round p _ t Hp) as (q & Hq & <- & <-); rewrite Hp;
    cbn -[match_lit parse_number]; rewrite Hq; apply reads_ok.
Qed.

Definition printable (v : sbj) : bool := sbj_wf v && utf8_clean v && floats_ok v.

Lemma scalar_round indent v level p t :
  is_scalar v = true -> printable v = true ->
  p_rest p = dump_value indent v level ++ t -> num_stop t = true ->
  reads (parse_scalar p) v t (p_depth p) /\ starts (dump_value indent v level) true.
Proof.
  intros Hs Hv Hp Ht. unfold printable in Hv. bool_facts.
  destruct v as [|b|i|u|f|s| |]; try done; cbn [sbj_wf utf8_clean floats_ok] in *.
  - split; [by apply literal_round|]. split. by do 2 eexists.
  - split; [apply literal_round; [done|by destruct b]|]. split. by destruct b; do 2 eexists.
  - apply (number_reads _ (fmt_int i) _ t); [|done..].
    destruct (parse_int_round i (mk_parser (fmt_int i) 0 0)) as (q & ? & ? & _); eauto.
  - apply (number_reads _ (fmt_uint u) _ t); [|done..].
    destruct (parse_uint_round u (mk_parser (fmt_uint u) 0 0)) as (q & ? & ? & _); eauto.
  - apply (number_reads _ (dump_float f) _ t); [|done..]. by apply float_ok_reads.
  - cbn [dump_value] in *. split.
    + unfold parse_scalar. assert (Hpk : peek p = 34) by (unfold peek; by rewrite Hp).
      rewrite Hpk. cbn [Z.eqb Pos.eqb].
      eapply reads_bind; [by apply parse_string_raw_round|]. intros q <- <-. apply reads_ok.
    + split. exists (chr 34). eexists. split; [done|]. by rewrite code_chr.
Qed.

(** ** White space *)

Fixpoint strip_ws (s : bytes) : bytes :=
  match s with c :: s' => if is_ws c then strip_ws s' else s | [] => [] end.

Lemma skip_ws_rest p : p_rest (skip_ws p) = strip_ws (p_rest p) /\ p_depth (skip_ws p) = p_depth p.
Proof.
  unfold skip_ws. generalize (p_pos p). induction (p_rest p) as [|c s IH]; intros pos; simpl; [done|].
  case_if; [apply IH|done].
Qed.

Lemma strip_ws_blank n s : strip_ws (replicate n (chr 32) ++ s) = strip_ws s.
Proof. induction n as [|n IH]; [done|]. cbn [replicate app strip_ws]. apply IH. Qed.

Lemma strip_ws_newline indent level s : strip_ws (newline_indent indent level ++ s) = strip_ws s.
Proof. unfold newline_indent. case_if; [|done]. cbn [app strip_ws]. apply strip_ws_blank. Qed.

Lemma strip_ws_starts w b t : starts w b -> strip_ws (w ++ t) = w ++ t.
Proof. intros [(c & w' & -> & Hc & _)]. simpl. by rewrite Hc. Qed.

Lemma strip_ws_char z t : (z =? 32) || (z =? 9) || (z =? 10) || (z =? 13) = false -> 0 <= z < 256 ->
  strip_ws (chr z :: t) = chr z :: t.
Proof. intros H Hz. simpl. unfold is_ws. by rewrite code_chr, H. Qed.

Lemma strip_ws_le s : (length (strip_ws s) <= length s)%nat.
Proof. induction s as [|c s IH]; simpl; [lia|]. case_if; simpl; lia. Qed.

(** ** Containers *)

(** The texts [dump_value] writes between brackets. *)
Definition dump_tail (indent : Z) (level : nat) (items : list sbj) : bytes :=
  items ≫= fun x => bs "," ++ newline_indent indent (S level) ++ dump_value indent x (S level).

Definition dump_member (indent : Z) (level : nat) (kv : bytes * sbj) : bytes :=
  dump_string (fst kv) ++ dump_colon indent ++ dump_value indent (snd kv) (S level).

Definition dump_members_tail (indent : Z) (level : nat) (m : list (bytes * sbj)) : bytes :=
  m ≫= fun kv => bs "," ++ newline_indent indent (S level) ++ dump_member indent level kv.

Lemma dump_array indent x items level :
  dump_value indent (SBJ_ARRAY (x :: items)) level =
  bs "[" ++ newline_indent indent (S level) ++ dump_value indent x (S level) ++
  dump_tail indent level items ++ newline_indent indent level ++ bs "]".
Proof.
  cbn [dump_value app]. rewrite <- !app_assoc. do 3 f_equal. generalize (newline_indent indent level ++ bs "]").
  intros t. unfold dump_tail. induction items as [|y items IH]; [done|].
  cbn [mbind list_bind]. unfold mbind in IH. rewrite <- !app_assoc. do 3 f_equal. apply IH.
Qed.

Lemma dump_object indent kv m level :
  dump_value indent (SBJ_OBJECT (kv :: m)) level =
  bs "{" ++ newline_indent indent (S level) ++ dump_member indent level kv ++
  dump_members_tail indent level m ++ newline_indent indent level ++ bs "}".
Proof.
  destruct kv as [k x]. cbn [dump_value app]. unfold dump_member. cbn [fst snd]. rewrite <- !app_assoc. do 5 f_equal.
  generalize (newline_indent indent level ++ bs "}").
  intros t. unfold dump_members_tail. induction m as [|[l y] m IH]; [done|].
  cbn [mbind list_bind]. unfold mbind in IH. unfold dump_member at 1. cbn [fst snd].
  rewrite <- !app_assoc. do 5 f_equal. apply IH.
Qed.

Lemma dump_starts indent v level : printable v = true -> starts (dump_value indent v level) (is_scalar v).
Proof.
  intros Hv. destruct (is_scalar v) eqn:Hs.
  - by apply (scalar_round indent v level (mk_parser (dump_value indent v level ++ []) 0 0) []).
  - split. destruct v as [| | | | | |[|x l]|[|[k x] m]]; try done; (do 2 eexists; split; [reflexivity|]; done).
Qed.

(** What follows a value inside a container cannot continue a number. *)
Lemma num_stop_after (c : Z) indent level t :
  c = 93 \/ c = 125 -> num_stop (newline_indent indent level ++ chr c :: t) = true.
Proof. intros H. unfold newline_indent. case_if; [done|]. by destruct H as [-> | ->]. Qed.

Lemma strip_close (c : Z) indent level t :
  c = 93 \/ c = 125 -> strip_ws (newline_indent indent level ++ chr c :: t) = chr c :: t.
Proof. intros H. rewrite strip_ws_newline. by destruct H as [-> | ->]. Qed.

(** Adding the greatest key appends. *)
Lemma setn_append acc k v :
  obj_sorted (acc ++ [(k, v)]) ->
  sbj_getn (Some (SBJ_OBJECT acc)) k = None /\
  sbj_setn (SBJ_OBJECT acc) k (Some v) = SBJ_OBJECT (acc ++ [(k, v)]).
Proof.
  intros S. assert (Sa : obj_sorted acc) by (rewrite <- (app_nil_r acc); by eapply obj_sorted_remove).
  assert (F : Forall (fun kv => key_lt (fst kv) k) acc).
  { apply Forall_lookup_2. intros i [ki vi] Hi.
    apply (obj_sorted_lookup (acc ++ [(k, v)]) i (length acc) ki k vi v); [done|by apply lookup_lt_Some in Hi|by apply lookup_app_l_Some|by apply lookup_middle]. }
  split.
  - rewrite sbj_getn_map by done. rewrite <- (app_nil_r acc). by apply obj_map_missing.
  - destruct (sbj_setn_map acc k (Some v) Sa) as (m' & -> & Sm & E). f_equal.
    apply obj_map_inj; [done..|]. rewrite E, obj_map_middle by done. by rewrite app_nil_r.
Qed.

Lemma obj_sorted_prefix m1 m2 : obj_sorted (m1 ++ m2) -> obj_sorted m1.
Proof.
  induction m2 as [|kv m2 IH] using rev_ind; [by rewrite app_nil_r|]. rewrite app_assoc.
  intros S. apply IH. rewrite <- (app_nil_r (m1 ++ m2)). by eapply obj_sorted_remove.
Qed.

Section Round.
Context (strict : bool) (indent : Z).

Definition value_round (v : sbj) : Prop := forall level fuel p t,
  printable v = true -> nests v (SBJ_MAX_DEPTH - p_depth p) = true ->
  strip_ws (p_rest p) = dump_value indent v level ++ t -> num_stop t = true ->
  (2 * length (p_rest p) < fuel)%nat ->
  reads (parse_value strict fuel p) v t (p_depth p).

Lemma skip_ws_peek p c s : strip_ws (p_rest p) = chr c :: s -> 0 <= c < 256 ->
  peek (skip_ws p) = c /\ p_rest (advance 1 (skip_ws p)) = s /\ p_depth (skip_ws p) = p_depth p.
Proof.
  intros H Hc. destruct (skip_ws_rest p) as [E D]. rewrite H in E.
  unfold peek. cbn [advance p_rest]. rewrite E. rewrite code_chr by done. done.
Qed.

Lemma elements_round level : forall items x acc fuel p t,
  Forall value_round (x :: items) -> forallb printable (x :: items) = true ->
  forallb (fun y => nests y (SBJ_MAX_DEPTH - p_depth p)) (x :: items) = true ->
  strip_ws (p_rest p) = dump_value indent x (S level) ++ dump_tail indent level items ++
                        newline_indent indent level ++ chr 93 :: t ->
  (2 * length (p_rest p) + 1 < fuel)%nat ->
  reads (parse_elements strict fuel (SBJ_ARRAY acc) p) (SBJ_ARRAY (acc ++ x :: items)) t (p_depth p - 1).
Proof.
  induction items as [|y items IH]; intros x acc fuel p t HF HP HN Hp Hf;
    (destruct fuel as [|fuel]; [lia|]); cbn [parse_elements]; cbn [forallb] in HP, HN; bool_facts;
    pose proof (Forall_inv HF) as Hx; apply Forall_inv_tail in HF;
    pose proof (strip_ws_le (p_rest p)) as Hle; rewrite Hp, !length_app in Hle.
  - eapply reads_bind; [apply (Hx (S level)); [done|done|exact Hp| |lia]; apply num_stop_after; auto|].
    intros q Hq Hd. cbn [dump_tail mbind list_bind app] in Hq.
    destruct (skip_ws_peek q 93 t) as (P1 & P2 & P3); [rewrite Hq; apply strip_close; auto|lia|].
    cbv zeta. rewrite P1. cbn [Z.eqb Pos.eqb sbj_arr_push]. eexists. split; [done|].
    cbn [deeper p_rest p_depth]. rewrite P2. split; [done|]. simpl. rewrite P3, Hd. lia.
  - eapply reads_bind; [by apply (Hx (S level)); [done|done|exact Hp| |lia]|].
    intros q Hq Hd. set (s := newline_indent indent (S level) ++ dump_value indent y (S level) ++
      dump_tail indent level items ++ newline_indent indent level ++ chr 93 :: t).
    assert (Hs : p_rest q = chr 44 :: s).
    { rewrite Hq. unfold dump_tail at 1. cbn [mbind list_bind]. by rewrite <- !app_assoc. }
    destruct (skip_ws_peek q 44 s) as (P1 & P2 & P3); [rewrite Hs; by apply strip_ws_char|lia|].
    cbv zeta. rewrite P1. cbn [Z.eqb Pos.eqb sbj_arr_push default].
    replace (acc ++ x :: y :: items) with ((acc ++ [or_null (Some x)]) ++ y :: items) by (by rewrite <- app_assoc).
    assert (D : p_depth (advance 1 (skip_ws q)) = p_depth p) by (simpl; lia).
    rewrite <- D. apply IH; [done|by apply andb_true_iff|rewrite D; by apply andb_true_iff| |].
    + rewrite P2. unfold s. rewrite strip_ws_newline. apply (strip_ws_starts _ (is_scalar y)). by apply dump_starts.
    + rewrite P2. assert (Hl : length (p_rest q) = S (length s)) by (by rewrite Hs).
      rewrite Hq, !length_app in Hl. simpl in Hl, Hle. lia.
Qed.

Definition member_ok (d : Z) (kv : bytes * sbj) : Prop :=
  value_round (snd kv) /\ printable (snd kv) = true /\ valid_utf8 (fst kv) = true /\ nests (snd kv) d = true.

Lemma strip_member level kv t : strip_ws (dump_member indent level kv ++ t) = dump_member indent level kv ++ t.
Proof. unfold dump_member. rewrite dump_string_escape, <- !app_assoc. by apply strip_ws_char. Qed.

(** One member up to what follows it. *)
Lemma member_round level kv fuel acc p t (f : sbj -> parser_t -> presult sbj) r t' d' :
  member_ok (SBJ_MAX_DEPTH - p_depth p) kv -> obj_sorted (acc ++ [kv]) ->
  strip_ws (p_rest p) = dump_member indent level kv ++ t -> num_stop t = true ->
  (2 * length (p_rest p) < fuel)%nat ->
  (forall q, p_rest q = t -> p_depth q = p_depth p -> reads (f (SBJ_OBJECT (acc ++ [kv])) q) r t' d') ->
  reads (let p := skip_ws p in
         if negb (peek p =? 34) then perr p "expected object key"
         else pbind (parse_string_raw p) (fun key p =>
           if strict && (match sbj_getn (Some (SBJ_OBJECT acc)) key with Some _ => true | None => false end)
           then perr p "duplicate object key"
           else let p := skip_ws p in
             if negb (peek p =? 58) then perr p "expected ':'"
             else pbind (parse_value strict fuel (advance 1 p)) (fun val p =>
               f (sbj_setn (SBJ_OBJECT acc) key (Some val)) p))) r t' d'.
Proof.
  destruct kv as [k v]. intros (Rv & Pv & Vk & Nv) HS Hp Ht Hf HK. cbn [fst snd] in *.
  destruct (setn_append acc k v HS) as [Hget Hset]. unfold dump_member in Hp. cbn [fst snd] in Hp.
  rewrite <- !app_assoc in Hp. destruct (skip_ws_rest p) as [E0 D0]. rewrite Hp in E0. cbv zeta.
  assert (P34 : peek (skip_ws p) = 34) by (unfold peek; by rewrite E0). rewrite P34. cbn [Z.eqb Pos.eqb negb].
  eapply reads_bind; [by apply parse_string_raw_round|]. intros q Hq Dq. rewrite Hget, andb_false_r.
  set (s := (if 0 <=? indent then [chr 32] else []) ++ dump_value indent v (S level) ++ t).
  assert (Hs : p_rest q = chr 58 :: s) by (rewrite Hq; unfold s, dump_colon; by destruct (0 <=? indent)).
  destruct (skip_ws_peek q 58 s) as (P1 & P2 & P3); [rewrite Hs; by apply strip_ws_char|lia|].
  rewrite P1. cbn [Z.eqb Pos.eqb negb].
  assert (D : p_depth (advance 1 (skip_ws q)) = p_depth p) by (simpl; lia).
  eapply reads_bind; [apply (Rv (S level)); [done|by rewrite D| |done|]|].
  - rewrite P2. unfold s. replace (strip_ws _) with (strip_ws (dump_value indent v (S level) ++ t))
      by (by destruct (0 <=? indent)).
    apply (strip_ws_starts _ (is_scalar v)). by apply dump_starts.
  - rewrite P2. pose proof (strip_ws_le (p_rest p)) as Hle. rewrite Hp, length_app, <- Hq, Hs in Hle.
    simpl in Hle. lia.
  - intros u Hu Du. rewrite Hset. apply HK; [done|congruence].
Qed.

(** What [parse_members] does after a member. *)
Definition members_next (fuel : nat) (o : sbj) (p : parser_t) : presult sbj :=
  let p := skip_ws p in
  if peek p =? 44 then parse_members strict fuel o (advance 1 p)
  else if peek p =? 125 then POk o (deeper (-1) (advance 1 p))
  else perr p "expected ',' or '}'".

Lemma members_round level : forall m kv acc fuel p t,
  Forall (member_ok (SBJ_MAX_DEPTH - p_depth p)) (kv :: m) -> obj_sorted (acc ++ kv :: m) ->
  strip_ws (p_rest p) = dump_member indent level kv ++ dump_members_tail indent level m ++
                        newline_indent indent level ++ chr 125 :: t ->
  (2 * length (p_rest p) + 1 < fuel)%nat ->
  reads (parse_members strict fuel (SBJ_OBJECT acc) p) (SBJ_OBJECT (acc ++ kv :: m)) t (p_depth p - 1).
Proof.
  induction m as [|kv' m IH]; intros kv acc fuel p t HF HS Hp Hf;
    (destruct fuel as [|fuel]; [lia|]); cbn [parse_members];
    pose proof (Forall_inv HF) as Hx; apply Forall_inv_tail in HF;
    pose proof (strip_ws_le (p_rest p)) as Hle; rewrite Hp, !length_app in Hle.
  - eapply (member_round level kv fuel acc p _ (members_next fuel)); [done|done|exact Hp|apply num_stop_after; auto|lia|].
    intros q Hq Hd. cbn [dump_members_tail mbind list_bind app] in Hq.
    destruct (skip_ws_peek q 125 t) as (P1 & P2 & P3); [rewrite Hq; apply strip_close; auto|lia|].
    unfold members_next. rewrite P1. cbn [Z.eqb Pos.eqb]. eexists. split; [done|].
    cbn [deeper p_rest p_depth]. rewrite P2. split; [done|]. simpl. rewrite P3, Hd. lia.
  - replace (acc ++ kv :: kv' :: m) with ((acc ++ [kv]) ++ kv' :: m) in HS |- * by (by rewrite <- app_assoc).
    eapply (member_round level kv fuel acc p _ (members_next fuel));
      [done|by eapply obj_sorted_prefix|exact Hp|done|lia|].
    intros q Hq Hd. set (s := newline_indent indent (S level) ++ dump_member indent level kv' ++
      dump_members_tail indent level m ++ newline_indent indent level ++ chr 125 :: t).
    assert (Hs : p_rest q = chr 44 :: s).
    { rewrite Hq. unfold dump_members_tail at 1. cbn [mbind list_bind]. by rewrite <- !app_assoc. }
    destruct (skip_ws_peek q 44 s) as (P1 & P2 & P3); [rewrite Hs; by apply strip_ws_char|lia|].
    unfold members_next. rewrite P1. cbn [Z.eqb Pos.eqb].
    assert (D : p_depth (advance 1 (skip_ws q)) = p_depth p) by (simpl; lia).
    rewrite <- D. apply IH; [by rewrite D|done| |].
    + rewrite P2. unfold s. rewrite strip_ws_newline. apply strip_member.
    + rewrite P2. assert (Hl : length (p_rest q) = S (length s)) by (by rewrite Hs).
      rewrite Hq, !length_app in Hl. simpl in Hl, Hle. lia.
Qed.

Lemma parse_value_scalar v level fuel p t :
  is_scalar v = true -> printable v = true ->
  strip_ws (p_rest p) = dump_value indent v level ++ t -> num_stop t = true ->
  reads (parse_value strict (S fuel) p) v t (p_depth p).
Proof.
  intros Hs Hv Hp Ht. destruct (skip_ws_rest p) as [E D]. rewrite Hp in E.
  destruct (scalar_round indent v level (skip_ws p) t Hs Hv E Ht) as [R [(c & w & Ew & _ & _ & _ & Hc)]].
  specialize (Hc eq_refl). cbn [parse_value]. cbv zeta.
  assert (P : peek (skip_ws p) = code c) by (unfold peek; by rewrite E, Ew).
  rewrite P. pose proof (code_range c). rewrite ltb_false, !eqb_false by lia. by rewrite <- D.
Qed.

Lemma printable_array l : printable (SBJ_ARRAY l) = true -> forallb printable l = true.
Proof.
  unfold printable. cbn [sbj_wf utf8_clean floats_ok]. intros H. bool_facts.
  apply forallb_forall. intros x Hx. rewrite forallb_forall in *. by rewrite H, H0, H1.
Qed.

Lemma printable_object m : printable (SBJ_OBJECT m) = true ->
  obj_sorted m /\ Forall (fun kv => printable (snd kv) = true /\ valid_utf8 (fst kv) = true) m.
Proof.
  unfold printable at 1. intros H. bool_facts. apply wf_object in H as [HS W]. split; [done|].
  cbn [utf8_clean floats_ok] in *. rewrite forallb_forall in *. apply Forall_forall. intros kv Hkv.
  rewrite Forall_forall in W. specialize (W kv Hkv). apply list_elem_of_In in Hkv.
  specialize (H0 kv Hkv). specialize (H1 kv Hkv). cbv beta in *. bool_facts. split; [|done].
  unfold printable. rewrite !andb_true_iff. done.
Qed.

(** Entering a container. *)
Lemma enter_round p c s :
  strip_ws (p_rest p) = chr c :: s -> 0 <= c < 256 ->
  peek (skip_ws p) = c /\ p_depth (skip_ws p) = p_depth p /\
  exists q, skip_ws (advance 1 (deeper 1 (skip_ws p))) = q /\ p_rest q = strip_ws s /\
            p_depth q = p_depth p + 1 /\ (length (p_rest q) < length (p_rest p))%nat.
Proof.
  intros Hp Hc. destruct (skip_ws_peek p c s Hp Hc) as (P1 & P2 & P3). split; [done|split; [done|]].
  eexists. split; [done|]. destruct (skip_ws_rest (advance 1 (deeper 1 (skip_ws p)))) as [E D].
  rewrite E, D. change (p_rest (advance 1 (deeper 1 (skip_ws p)))) with (p_rest (advance 1 (skip_ws p))).
  rewrite P2. split; [done|]. split; [simpl; lia|].
  pose proof (strip_ws_le (p_rest p)) as L. rewrite Hp in L. pose proof (strip_ws_le s). simpl in L. lia.
Qed.

(** The closing bracket of an empty container. *)
Lemma close_round (q : parser_t) (c : Z) t (v : sbj) d :
  p_rest q = chr c :: t -> p_depth q = d + 1 -> reads (POk v (deeper (-1) (advance 1 q))) v t d.
Proof. intros Hq Hd. eexists. split; [done|]. simpl. rewrite Hq. split; [done|]. lia. Qed.

Lemma starts_peek q w b t :
  starts w b -> p_rest q = w ++ t ->
  (peek q =? 93) = false /\ (peek q =? 125) = false /\ strip_ws (p_rest q) = w ++ t.
Proof.
  intros Hs Hq. pose proof (strip_ws_starts w b t Hs) as E. destruct Hs as [(c & w' & -> & _ & H1 & H2 & _)].
  unfold peek. rewrite Hq. cbn [app]. by rewrite !eqb_false.
Qed.

Lemma array_round l : Forall value_round l -> value_round (SBJ_ARRAY l).
Proof.
  intros IH level fuel p t Hv Hn Hp Ht Hf. destruct fuel as [|fuel]; [lia|]. cbn [nests] in Hn.
  apply andb_true_iff in Hn as [Hd Hn]. bool_facts. apply printable_array in Hv.
  set (s := match l with [] => chr 93 :: t | x :: items => newline_indent indent (S level) ++
    dump_value indent x (S level) ++ dump_tail indent level items ++ newline_indent indent level ++ chr 93 :: t end).
  assert (Hs : strip_ws (p_rest p) = chr 91 :: s).
  { rewrite Hp. destruct l; [done|]. rewrite dump_array, <- !app_assoc. done. }
  destruct (enter_round p 91 s Hs ltac:(lia)) as (P & D & q & Q & Rq & Dq & Lq).
  cbn [parse_value]. cbv zeta. rewrite P, D, Q. cbn [Z.ltb Z.compare Z.eqb Pos.eqb]. rewrite ltb_false by lia.
  destruct l as [|x items]; unfold s in Rq.
  - rewrite strip_ws_char in Rq by done. assert (P93 : peek q = 93) by (unfold peek; by rewrite Rq).
    rewrite P93. by eapply close_round.
  - assert (Px : printable x = true) by (cbn [forallb] in Hv; by bool_facts).
    pose proof (dump_starts indent x (S level) Px) as Sx.
    rewrite strip_ws_newline, (strip_ws_starts _ _ _ Sx) in Rq.
    destruct (starts_peek q _ _ _ Sx Rq) as (-> & _ & Rs).
    replace (p_depth p) with (p_depth q - 1) by lia. apply (elements_round level items x []); try done; [|lia].
    by replace (SBJ_MAX_DEPTH - p_depth q) with (SBJ_MAX_DEPTH - p_depth p - 1) by lia.
Qed.

Lemma object_round m : Forall (fun kv => value_round (snd kv)) m -> value_round (SBJ_OBJECT m).
Proof.
  intros IH level fuel p t Hv Hn Hp Ht Hf. destruct fuel as [|fuel]; [lia|]. cbn [nests] in Hn.
  apply andb_true_iff in Hn as [Hd Hn]. bool_facts. apply printable_object in Hv as [HS HP].
  set (s := match m with [] => chr 125 :: t | kv :: m => newline_indent indent (S level) ++
    dump_member indent level kv ++ dump_members_tail indent level m ++ newline_indent indent level ++ chr 125 :: t end).
  assert (Hs : strip_ws (p_rest p) = chr 123 :: s).
  { rewrite Hp. destruct m; [done|]. rewrite dump_object, <- !app_assoc. done. }
  destruct (enter_round p 123 s Hs ltac:(lia)) as (P & D & q & Q & Rq & Dq & Lq).
  cbn [parse_value]. cbv zeta. rewrite P, D, Q. cbn [Z.ltb Z.compare Z.eqb Pos.eqb]. rewrite ltb_false by lia.
  destruct m as [|kv m]; unfold s in Rq.
  - rewrite strip_ws_char in Rq by done. assert (P125 : peek q = 125) by (unfold peek; by rewrite Rq).
    rewrite P125. by eapply close_round.
  - rewrite strip_ws_newline, strip_member in Rq.
    assert (P34 : peek q = 34) by (unfold peek; by rewrite Rq). rewrite P34. cbn [Z.eqb Pos.eqb].
    replace (p_depth p) with (p_depth q - 1) by lia.
    apply (members_round level m kv []); [|done|by rewrite Rq, strip_member|lia].
    rewrite forallb_forall in Hn. apply Forall_forall. intros x Hx. rewrite Forall_forall in IH, HP.
    destruct (HP x Hx) as [Px Vx]. split; [by apply IH|]. split; [done|split; [done|]].
    replace (SBJ_MAX_DEPTH - p_depth q) with (SBJ_MAX_DEPTH - p_depth p - 1) by lia.
    by apply Hn, list_elem_of_In.
Qed.

Lemma value_round_all v : value_round v.
Proof.
  induction v as [| | | | | |l IH|m IH] using sbj_ind; [..|by apply array_round|by apply object_round];
    intros level fuel p t Hv Hn Hp Ht Hf; (destruct fuel; [lia|]); by eapply parse_value_scalar.
Qed.
End Round.

Lemma document_round strict indent v :
  printable v = true -> nests v SBJ_MAX_DEPTH = true ->
  parse_outcome (parse_document (dump_value indent v 0) strict) = inr v.
Proof.
  intros Hv Hn. set (text := dump_value indent v 0).
  destruct (value_round_all strict indent v 0%nat (parse_fuel text) (mk_parser text 0 0) []) as (q & E & Rq & _);
    [done|done| |done|unfold parse_fuel; simpl; lia|].
  - cbn [p_rest]. rewrite <- (app_nil_r text). apply (strip_ws_starts _ (is_scalar v)). by apply dump_starts.
  - unfold parse_document. rewrite E. cbn [pbind]. destruct (skip_ws_rest q) as [R _]. rewrite Rq in R.
    by rewrite R.
Qed.

(** C6: serialised JSON parses back.  For a well-formed value whose strings are
    UTF-8, whose nesting is within the parser's limit and whose floats print
    digits that read back, [sbj_parse] and [sbj_parse_strict] of [sbj_dump] give
    the value again, at every indentation. *)
Theorem sbj_dump_parse v indent :
  sbj_wf v = true -> sbj_validate_utf8 v = Ok tt -> nests v SBJ_MAX_DEPTH = true -> floats_ok v = true ->
  sbj_parse (sbj_dump (Some v) indent) = Some v /\ sbj_parse_strict (sbj_dump (Some v) indent) = inr v.
Proof.
  intros W U N F. assert (P : printable v = true).
  { unfold printable. rewrite W, F. apply validate_utf8_clean in U. by rewrite U. }
  unfold sbj_parse, sbj_parse_msg, sbj_parse_strict. cbn [sbj_dump].
  by rewrite !document_round, U by done.
Qed.

Definition sample_value : sbj :=
  SBJ_OBJECT [(bs "a", SBJ_ARRAY [SBJ_INT (-9223372036854775808); SBJ_UINT 18446744073709551615]);
              (bs "b", SBJ_FLOAT (S754_finite false 7205759403792794 (-56)));
              (bs "c", SBJ_OBJECT [(bs "d", SBJ_STRING (chr 34 :: chr 10 :: chr 1 :: bs "x"))])].

Lemma sbj_dump_parse_witness :
  sbj_parse (sbj_dump (Some sample_value) 2) = Some sample_value /\
  sbj_parse_strict (sbj_dump (Some sample_value) 2) = inr sample_value.
Proof. apply (sbj_dump_parse sample_value 2); vm_compute; reflexivity. Defined.

(** * Serialised JSON as a C string

    Callers treat the result of [sbj_dump] as a C string ([strlen], "%s"): it is
    shown to contain no NUL byte, even when the strings it serialises do.  White
    space after the document is accepted by the parser. *)

Lemma no_nul_cons c s : no_nul (c :: s) = negb (code c =? 0) && no_nul s.
Proof. done. Qed.

Lemma digits_no_nul ds : digits ds -> no_nul ds = true.
Proof.
  induction 1 as [|c ds Hc _ IH]; [done|]. rewrite no_nul_cons, IH, andb_true_r.
  unfold isdigit, in_range in Hc. bool_facts. by rewrite eqb_false by lia.
Qed.

Lemma no_nul_bind {A} (f : A -> bytes) l :
  (forall x, x ∈ l -> no_nul (f x) = true) -> no_nul (l ≫= f) = true.
Proof.
  induction l as [|x l IH]; intros H; [done|]. change ((x :: l) ≫= f) with (f x ++ (l ≫= f)).
  rewrite no_nul_app, H, IH by (by left || intros; apply H; by right). done.
Qed.

Lemma escape_no_nul c : no_nul (escape c) = true.
Proof. by apply (byte_forallb (fun c => no_nul (escape c))). Qed.

Lemma dump_string_no_nul s : no_nul (dump_string s) = true.
Proof. rewrite dump_string_escape, !no_nul_app, no_nul_bind by (intros; apply escape_no_nul). done. Qed.

Lemma fmt_uint_no_nul z : 0 <= z -> no_nul (fmt_uint z) = true.
Proof. intros H. apply digits_no_nul, (fmt_uint_numeral z H). Qed.

Lemma fmt_int_no_nul z : no_nul (fmt_int z) = true.
Proof.
  unfold fmt_int. case_if; [|apply fmt_uint_no_nul; lia]. rewrite no_nul_cons, fmt_uint_no_nul by lia. done.
Qed.

(** A text a number was read from contains no NUL. *)
Definition reads_plain {A} (p : parser_t) (r : presult A) : Prop :=
  match r with POk _ q => exists w, p_rest p = w ++ p_rest q /\ no_nul w = true | _ => True end.

Lemma advance_plain p : 0 < peek p -> exists w, p_rest p = w ++ p_rest (advance 1 p) /\ no_nul w = true.
Proof.
  unfold peek. destruct (p_rest p) as [|c s] eqn:E; [lia|]. intros H. exists [c]. cbn [advance p_rest]. rewrite E.
  split; [done|]. rewrite no_nul_cons. by rewrite eqb_false by lia.
Qed.

Lemma span_plain p : exists w, p_rest p = w ++ p_rest (advance (length (span_digits (p_rest p))) p) /\ no_nul w = true.
Proof.
  exists (span_digits (p_rest p)). split; [|apply digits_no_nul, span_digits_digits]. cbn [advance p_rest].
  assert (T : span_digits (p_rest p) = take (length (span_digits (p_rest p))) (p_rest p)).
  { induction (p_rest p) as [|c s IH]; [done|]. cbn [span_digits]. case_if; [|done]. cbn [length take]. by f_equal. }
  rewrite T at 1. by rewrite take_drop.
Qed.

Lemma plain_trans p q r :
  (exists w, p_rest p = w ++ p_rest q /\ no_nul w = true) -> (exists w, p_rest q = w ++ p_rest r /\ no_nul w = true) ->
  exists w, p_rest p = w ++ p_rest r /\ no_nul w = true.
Proof.
  intros (w1 & -> & N1) (w2 & -> & N2). exists (w1 ++ w2). by rewrite <- app_assoc, no_nul_app, N1, N2.
Qed.

Lemma reads_plain_bind {A B} p (r : presult A) (f : A -> parser_t -> presult B) :
  reads_plain p r -> (forall a q, reads_plain q (f a q)) -> reads_plain p (pbind r f).
Proof.
  unfold reads_plain at 1. destruct r as [a q|m i|]; simpl; [|done..]. intros H Hf. specialize (Hf a q).
  unfold reads_plain in *. destruct (f a q); [|done..]. by eapply plain_trans.
Qed.

Lemma reads_plain_from {A} p q (r : presult A) :
  (exists w, p_rest p = w ++ p_rest q /\ no_nul w = true) -> reads_plain q r -> reads_plain p r.
Proof. unfold reads_plain. destruct r; [|done..]. by apply plain_trans. Qed.

Lemma plain_refl p : exists w, p_rest p = w ++ p_rest p /\ no_nul w = true.
Proof. by exists []. Qed.

Lemma scan_digits_plain p : reads_plain p (scan_digits p).
Proof. unfold scan_digits. case_if; [apply span_plain|done]. Qed.

Lemma scan_int_plain p : reads_plain p (scan_int p).
Proof. unfold scan_int. case_if; [apply advance_plain; lia|]. case_if; [apply span_plain|done]. Qed.

Lemma scan_frac_plain p : reads_plain p (scan_frac p).
Proof.
  unfold scan_frac. case_if; [|apply plain_refl]. apply (reads_plain_from _ (advance 1 p)); [apply advance_plain; lia|].
  apply reads_plain_bind; [apply scan_digits_plain|intros; apply plain_refl].
Qed.

Lemma scan_exp_plain p : reads_plain p (scan_exp p).
Proof.
  unfold scan_exp. destruct ((peek p =? 101) || (peek p =? 69)) eqn:E; [|apply plain_refl].
  apply (reads_plain_from _ (advance 1 p)); [apply advance_plain; apply orb_true_iff in E as [|]; bool_facts; lia|].
  set (q := advance 1 p).
  apply (reads_plain_from _ (if (peek q =? 43) || (peek q =? 45) then advance 1 q else q)).
  - destruct ((peek q =? 43) || (peek q =? 45)) eqn:Es; [|apply plain_refl].
    apply advance_plain. apply orb_true_iff in Es as [|]; bool_facts; lia.
  - apply reads_plain_bind; [apply scan_digits_plain|intros; apply plain_refl].
Qed.

Lemma parse_number_plain p : reads_plain p (parse_number p).
Proof.
  unfold parse_number. apply (reads_plain_from _ (if peek p =? 45 then advance 1 p else p)).
  - case_if; [apply advance_plain; lia|apply plain_refl].
  - apply reads_plain_bind; [apply scan_int_plain|intros].
    apply reads_plain_bind; [apply scan_frac_plain|intros].
    apply reads_plain_bind; [apply scan_exp_plain|intros; apply plain_refl].
Qed.

Lemma float_ok_no_nul f : float_ok f = true -> no_nul (dump_float f) = true.
Proof.
  intros (q & H & Hq)%float_ok_reads. pose proof (parse_number_plain (mk_parser (dump_float f) 0 0)) as P.
  unfold reads_plain in P. rewrite H in P. destruct P as (w & E & N). cbn [p_rest] in E.
  rewrite Hq, app_nil_r in E. by rewrite E.
Qed.

Lemma newline_no_nul indent level : no_nul (newline_indent indent level) = true.
Proof.
  unfold newline_indent. case_if; [|done]. rewrite no_nul_cons. simpl.
  induction (Z.to_nat indent * level)%nat; [done|]. cbn [replicate]. by rewrite no_nul_cons.
Qed.

Lemma dump_no_nul indent v : printable v = true -> forall level, no_nul (dump_value indent v level) = true.
Proof.
  induction v as [|b|i|u|f|s|l IH|m IH] using sbj_ind; intros P level.
  - done.
  - by destruct b.
  - apply fmt_int_no_nul.
  - apply fmt_uint_no_nul. unfold printable in P. cbn [sbj_wf] in P. unfold in_range, INT64_MAX in P. bool_facts. lia.
  - unfold printable in P. cbn [floats_ok] in P. bool_facts. by apply float_ok_no_nul.
  - apply dump_string_no_nul.
  - apply printable_array in P. rewrite forallb_forall in P. rewrite Forall_forall in IH.
    assert (H : forall x lv, x ∈ l -> no_nul (dump_value indent x lv) = true)
      by (intros; apply IH; [done|]; by apply P, list_elem_of_In).
    destruct l as [|x l]; [done|]. rewrite dump_array, !no_nul_app, !newline_no_nul, H by left. cbn [andb].
    unfold dump_tail. rewrite no_nul_bind; [done|]. intros y Hy. rewrite !no_nul_app, newline_no_nul, H by (by right). done.
  - apply printable_object in P as [_ P]. rewrite Forall_forall in IH, P.
    assert (H : forall kv lv, kv ∈ m -> no_nul (dump_member indent lv kv) = true).
    { intros kv lv Hkv. unfold dump_member, dump_colon. rewrite !no_nul_app, dump_string_no_nul, IH by (done || by apply P).
      by destruct (0 <=? indent). }
    destruct m as [|kv m]; [done|]. rewrite dump_object, !no_nul_app, !newline_no_nul, H by left. cbn [andb].
    unfold dump_members_tail. rewrite no_nul_bind; [done|]. intros y Hy. rewrite !no_nul_app, newline_no_nul, H by (by right). done.
Qed.

Lemma document_round_ws strict indent v t :
  printable v = true -> nests v SBJ_MAX_DEPTH = true -> num_stop t = true -> strip_ws t = [] ->
  parse_outcome (parse_document (dump_value indent v 0 ++ t) strict) = inr v.
Proof.
  intros Hv Hn Ht Hw. set (text := dump_value indent v 0 ++ t).
  destruct (value_round_all strict indent v 0%nat (parse_fuel text) (mk_parser text 0 0) t) as (q & E & Rq & _);
    [done|done| |done|unfold parse_fuel; simpl; lia|].
  - cbn [p_rest]. apply (strip_ws_starts _ (is_scalar v)). by apply dump_starts.
  - unfold parse_document. rewrite E. cbn [pbind]. destruct (skip_ws_rest q) as [R _]. rewrite Rq, Hw in R. by rewrite R.
Qed.

(** Serialised JSON is a C string.  For a well-formed value with UTF-8
    strings and floats whose digits read back, the text written by [sbj_dump]
    contains no NUL byte, so [strlen] of it is its length. *)
Theorem sbj_dump_c_string v indent :
  sbj_wf v = true -> sbj_validate_utf8 v = Ok tt -> floats_ok v = true ->
  cstr (sbj_dump (Some v) indent) = sbj_dump (Some v) indent.
Proof.
  intros W U%validate_utf8_clean F. apply cstr_no_nul. cbn [sbj_dump]. apply dump_no_nul.
  unfold printable. by rewrite W, U, F.
Qed.

Lemma sbj_dump_c_string_witness :
  cstr (sbj_dump (Some (SBJ_STRING [chr 0])) 2) = sbj_dump (Some (SBJ_STRING [chr 0])) 2.
Proof. apply (sbj_dump_c_string (SBJ_STRING [chr 0]) 2); vm_compute; reflexivity. Defined.
