(* ===== verification/Types.v ===== *)
(** * Shared data types ([c/src/types.c], [c/include/sb/types.h])

    Proxy nodes, render requests and parsed nodes, with the JSON form of a node
    and the fingerprint that identifies a parsed node.  A [char *] with an
    explicit length is its bytes. *)

From S2P Require Import Prelude Util Json JsonText JsonUtf8 JsonSafe.

Inductive sb_profile_mode := SB_PROFILE_MANAGED | SB_PROFILE_FULL.

#[export] Instance sb_profile_mode_eq_dec : EqDecision sb_profile_mode.
Proof. solve_decision. Defined.

Definition sb_profile_mode_name (mode : sb_profile_mode) : bytes :=
  match mode with SB_PROFILE_FULL => bs "full" | SB_PROFILE_MANAGED => bs "managed" end.

Definition sb_profile_mode_parse (name : option bytes) : option sb_profile_mode :=
  if sb_streq name (Some (bs "managed")) then Some SB_PROFILE_MANAGED
  else if sb_streq name (Some (bs "full")) then Some SB_PROFILE_FULL
  else None.

(** ** Proxy nodes *)

Record sb_proxy_node := mk_node {
  node_id : bytes; node_tag : bytes; node_type : bytes; node_enabled : bool;
  node_server : bytes; node_server_port : Z; node_protocol_config : sbj }.

Definition sb_proxy_node_init : sb_proxy_node := mk_node [] [] [] true [] 0 (SBJ_OBJECT []).

Definition sb_proxy_node_copy (src : sb_proxy_node) : sb_proxy_node :=
  mk_node (node_id src) (node_tag src) (node_type src) (node_enabled src)
    (node_server src) (node_server_port src) (sbj_clone (node_protocol_config src)).

Definition str_of (v : option sbj) : option bytes :=
  match v with Some (SBJ_STRING s) => Some s | _ => None end.

(** The [protocol_config] member: text is parsed, anything but an object becomes
    an empty one. *)
Definition node_config_from (pc : option sbj) : result sbj :=
  config ← match pc with
           | Some (SBJ_STRING s) =>
               match sbj_parse s with
               | Some v => Ok (Some v)
               | None => sb_fail SB_ERR_VALIDATION (bs "protocol_config is not valid JSON")
               end
           | Some v => Ok (Some (sbj_clone v))
           | None => Ok None
           end;
  Ok (match config with Some (SBJ_OBJECT m) => SBJ_OBJECT m | _ => SBJ_OBJECT [] end).

Definition sb_proxy_node_from_json (value : option sbj) : result sb_proxy_node :=
  match str_of (sbj_get value "tag") with
  | None => sb_fail SB_ERR_VALIDATION (bs "proxy node requires a string tag")
  | Some tag =>
      let id := default tag (str_of (sbj_get value "id")) in
      let type := match str_of (sbj_get value "type") with
                  | Some t => t
                  | None => default [] (str_of (sbj_get value "node_type"))
                  end in
      let enabled := sbj_get_bool value "enabled" true in
      let server := default [] (str_of (sbj_get value "server")) in
      let port := sbj_get_int value "server_port" 0 in
      if (port <? 0) || (65535 <? port)
      then sb_fail SB_ERR_VALIDATION (bs "proxy server_port is out of range")
      else
        config ← node_config_from (sbj_get value "protocol_config");
        Ok (mk_node id tag type enabled server (port mod 2 ^ 16) config)
  end.

Definition sb_proxy_node_to_json (n : sb_proxy_node) : sbj :=
  let o := SBJ_OBJECT [] in
  let o := sbj_set o "id" (SBJ_STRING (node_id n)) in
  let o := sbj_set o "tag" (SBJ_STRING (node_tag n)) in
  let o := sbj_set o "type" (SBJ_STRING (node_type n)) in
  let o := sbj_set_bool o "enabled" (node_enabled n) in
  let o := sbj_set o "server" (SBJ_STRING (node_server n)) in
  let o := sbj_set_int o "server_port" (node_server_port n) in
  sbj_set o "protocol_config" (sbj_clone (node_protocol_config n)).

(** Growth of the node vectors: 8 slots first, then doubled. *)
Definition vec_capacity (cap len : Z) : Z :=
  if len =? cap then (if cap =? 0 then 8 else cap * 2) else cap.

Definition sb_proxy_node_vec_push (v : list sb_proxy_node) : list sb_proxy_node := v ++ [sb_proxy_node_init].

(** ** Render requests *)

Record sb_render_request := mk_request {
  rq_mode : sb_profile_mode; rq_profile : sbj; rq_nodes : list sb_proxy_node; rq_host_context : sbj;
  rq_external_route_tags : sbj; rq_priority_route_rules : sbj; rq_network_outbounds : sbj;
  rq_control_plane_server : bytes; rq_rule_script : option bytes;
  rq_clash_controller : bytes; rq_clash_secret : bytes }.

Definition sb_render_request_init : sb_render_request :=
  mk_request SB_PROFILE_MANAGED (SBJ_OBJECT []) [] (SBJ_OBJECT []) (SBJ_ARRAY []) (SBJ_ARRAY [])
    (SBJ_ARRAY []) [] None [] [].

(** ** Parsed nodes *)

Record sb_parsed_node := mk_parsed {
  pn_node_type : bytes; pn_tag : bytes; pn_server : bytes; pn_server_port : Z; pn_protocol_config : sbj }.

Definition sb_parsed_node_init : sb_parsed_node := mk_parsed [] [] [] 0 (SBJ_OBJECT []).

(** The members of [protocol_config] that identify a node of each type. *)
Definition fingerprint_keys (t : bytes) : option string * option string :=
  if sb_strn_eq t "shadowsocks" || sb_strn_eq t "trojan" || sb_strn_eq t "hysteria2"
  then (Some "password"%string, None)
  else if sb_strn_eq t "vmess" || sb_strn_eq t "vless" then (Some "uuid"%string, None)
  else if sb_strn_eq t "tuic" then (Some "uuid"%string, Some "password"%string)
  else if sb_strn_eq t "http" || sb_strn_eq t "socks" then (Some "username"%string, Some "password"%string)
  else (None, None).

Definition fingerprint_raw (n : sb_parsed_node) : bytes :=
  let (first, second) := fingerprint_keys (pn_node_type n) in
  let member k := default [] (str_of (sbj_get (Some (pn_protocol_config n)) k)) in
  pn_server n ++ bs ":" ++ fmt_uint (pn_server_port n) ++ bs ":" ++ pn_node_type n ++ bs ":" ++
  match first with Some k => member k | None => [] end ++
  match second with Some k => bs ":" ++ member k | None => [] end.

(** [sha256] is OpenSSL's digest. *)
Definition sb_parsed_node_fingerprint (sha256 : bytes -> bytes) (n : sb_parsed_node) : bytes :=
  sb_hex_encode (sha256 (fingerprint_raw n)).

(** * Theorems *)

Lemma profile_mode_round mode : sb_profile_mode_parse (Some (sb_profile_mode_name mode)) = Some mode.
Proof. by destruct mode. Qed.

Lemma wf_clone v : sbj_wf v = true -> sbj_wf (sbj_clone v) = true.
Proof. intros W. by rewrite sbj_clone_wf_id. Qed.

(** Nodes in the form every producer keeps: a 16-bit port and an object. *)
Definition node_wf (n : sb_proxy_node) : Prop :=
  0 <= node_server_port n < 2 ^ 16 /\ sbj_wf (node_protocol_config n) = true /\
  sbj_is_object (Some (node_protocol_config n)) = true.

Lemma node_config_object v :
  sbj_wf v = true -> sbj_is_object (Some v) = true -> node_config_from (Some v) = Ok v.
Proof. intros W O. unfold node_config_from. destruct v; try done. rewrite sbj_clone_wf_id by done. done. Qed.

Lemma node_config_from_wf pc c :
  (forall v, pc = Some v -> sbj_wf v = true) -> node_config_from pc = Ok c ->
  sbj_wf c = true /\ sbj_is_object (Some c) = true.
Proof.
  intros Hp. unfold node_config_from. intros (o & Ho & [= <-])%bind_Ok.
  assert (W : forall v, o = Some v -> sbj_wf v = true).
  { intros v ->. destruct pc as [p|]; [|done]. specialize (Hp p eq_refl).
    destruct p as [| | | | |s| |]; try (injection Ho; intros <-; exact (wf_clone _ Hp)).
    destruct (sbj_parse s) eqn:E; [|done]. injection Ho as <-. by apply sbj_parse_wf in E as [? _]. }
  destruct o as [[]|]; split; try done. by apply W.
Qed.

Lemma to_json_members n :
  sb_proxy_node_to_json n =
  SBJ_OBJECT [(bs "enabled", SBJ_BOOL (node_enabled n)); (bs "id", SBJ_STRING (node_id n));
              (bs "protocol_config", sbj_clone (node_protocol_config n));
              (bs "server", SBJ_STRING (node_server n)); (bs "server_port", SBJ_INT (node_server_port n));
              (bs "tag", SBJ_STRING (node_tag n)); (bs "type", SBJ_STRING (node_type n))].
Proof. reflexivity. Qed.

(** Proxy nodes round-trip through JSON.  Reading back the object written
    for a node gives the node, and every node read from JSON has a 16-bit port
    and an object as its configuration. *)
Theorem proxy_node_roundtrip n :
  node_wf n ->
  sb_proxy_node_from_json (Some (sb_proxy_node_to_json n)) = Ok n /\
  sbj_wf (sb_proxy_node_to_json n) = true /\
  forall v n', sbj_wf v = true -> sb_proxy_node_from_json (Some v) = Ok n' -> node_wf n'.
Proof.
  intros (Hp & W & O). destruct n as [id tag ty en srv port pc]. cbn [node_server_port node_protocol_config] in *.
  split; [|split].
  - rewrite to_json_members. unfold sb_proxy_node_from_json.
    unfold sbj_get_bool, sbj_get_int. rewrite sbj_clone_wf_id by done. eval_get.
    cbn [str_of default sbj_as_int sbj_as_bool].
    rewrite !ltb_false, node_config_object by (done || lia). cbn -[Z.modulo]. by rewrite Z.mod_small.
  - unfold sb_proxy_node_to_json. unfold sbj_set_bool, sbj_set_int. rewrite sbj_clone_wf_id by done.
    repeat apply wf_set; try done. cbn. unfold in_range, INT64_MIN, INT64_MAX. by rewrite !leb_true by lia.
  - intros v n' Wv. unfold sb_proxy_node_from_json. destruct (str_of _); [|done]. case_if; [done|].
    intros (c & Hc & [= <-])%bind_Ok. split; [apply Z.mod_pos_bound; lia|].
    eapply node_config_from_wf; [|done]. intros x. by apply wf_get.
Qed.

Definition sample_node : sb_proxy_node :=
  mk_node (bs "n1") (bs "tokyo") (bs "vless") true (bs "example.com") 443
    (SBJ_OBJECT [(bs "uuid", SBJ_STRING (bs "u"))]).

Lemma proxy_node_roundtrip_witness :
  sb_proxy_node_from_json (Some (sb_proxy_node_to_json sample_node)) = Ok sample_node.
Proof. apply (proxy_node_roundtrip sample_node). split; [simpl; lia|done]. Defined.
