(* ===== verification/Script.v ===== *)
(** * Rule scripts ([c/src/script_engine.c])

    The engine runs a user's [buildRules(context)] in QuickJS and checks what
    comes back.  QuickJS is a third-party interpreter: its entry points are a
    record of operations [quickjs], and the theorems hold for every such record,
    a hostile script included. *)

From S2P Require Import Prelude Util Json JsonText JsonUtf8 JsonSafe.

Record sb_script_limits := mk_limits {
  memory_bytes : Z; stack_bytes : Z; source_bytes : Z; output_bytes : Z; timeout_ms : Z }.

Definition sb_script_limits_default : sb_script_limits :=
  mk_limits (16 * 1024 * 1024) (256 * 1024) (128 * 1024) (2 * 1024 * 1024) 50.

Definition sb_rule_script_engine_init (limits : option sb_script_limits) : result sb_script_limits :=
  let l := default sb_script_limits_default limits in
  if (memory_bytes l =? 0) || (stack_bytes l =? 0) || (source_bytes l =? 0) || (output_bytes l =? 0) ||
     (timeout_ms l <=? 0)
  then sb_fail SB_ERR_VALIDATION (bs "QuickJS limits must all be positive")
  else Ok l.

(** A pending exception: ToString of its [stack] and of itself, where these
    conversions succeed. *)
Record js_exception := mk_exception { exn_stack : option bytes; exn_text : option bytes }.

(** The QuickJS entry points the engine calls.  [js_ctx] is the state of one
    runtime and context; a call either returns or raises. *)
Record quickjs := {
  js_ctx : Type;
  js_value : Type;
  JS_NewRuntime : bool;
  JS_NewContext : sb_script_limits -> option js_ctx;
  JS_Eval : js_ctx -> bytes -> string -> js_ctx * (js_exception + unit);
  JS_GetFunction : js_ctx -> string -> option js_value;
  JS_ParseJSON : js_ctx -> bytes -> js_ctx * (js_exception + js_value);
  JS_Call : js_ctx -> js_value -> js_value -> js_ctx * (js_exception + js_value);
  (** [None] for [undefined] *)
  JS_JSONStringify : js_ctx -> js_value -> js_ctx * (js_exception + option js_value);
  JS_ToCStringLen : js_ctx -> js_value -> option bytes }.

(** The bootstrap source, one string per line. *)
Definition kDeterministicPrelude : bytes :=
  let dq := [chr 34] in
  let nl := [chr 10] in
  nl ++ bs "Object.defineProperty(globalThis, " ++ dq ++ bs "Date" ++ dq ++ bs ", {" ++ nl ++
  bs "  value: undefined," ++ nl ++ bs "  writable: false," ++ nl ++ bs "  configurable: false" ++ nl ++
  bs "});" ++ nl ++
  bs "Object.defineProperty(Math, " ++ dq ++ bs "random" ++ dq ++ bs ", {" ++ nl ++
  bs "  value() {" ++ nl ++
  bs "    throw new Error(" ++ dq ++ bs "Math.random is disabled in sb-easy rule scripts" ++ dq ++ bs ");" ++ nl ++
  bs "  }," ++ nl ++ bs "  writable: false," ++ nl ++ bs "  configurable: false" ++ nl ++
  bs "});" ++ nl ++ bs "Object.freeze(Math);" ++ nl.

Definition fail_with_exception {A} (e : js_exception) : result A :=
  let stack := cstr (default [] (exn_stack e)) in
  let text := match stack with [] => cstr (default [] (exn_text e)) | _ => stack end in
  sb_fail SB_ERR_SCRIPT (match text with [] => bs "QuickJS execution failed" | _ => text end).

Section Engine.
Context (js : quickjs) (limits : sb_script_limits).

Definition run_step {A} (r : js_ctx js * (js_exception + A)) : result (js_ctx js * A) :=
  match r with
  | (ctx, inl e) => fail_with_exception e
  | (ctx, inr a) => Ok (ctx, a)
  end.

(** The checks on the text [buildRules] produced. *)
Definition check_rules (output_json : bytes) : result sbj :=
  if output_bytes limits <? Z.of_nat (length output_json)
  then sb_fail SB_ERR_SCRIPT (bs "rule script output exceeds the configured limit")
  else match sbj_parse output_json with
       | None => sb_fail SB_ERR_SCRIPT (bs "buildRules(context) did not return valid JSON")
       | Some rules =>
           if negb (sbj_is_array (Some rules))
           then sb_fail SB_ERR_SCRIPT (bs "buildRules(context) must return an array")
           else if negb (forallb (fun r => sbj_is_object (Some r)) (arr_items (Some rules)))
           then sb_fail SB_ERR_SCRIPT (bs "each generated rule must be a JSON object")
           else Ok rules
       end.

Definition sb_rule_script_engine_build_rules_n (source : option bytes) (context : option sbj) : result sbj :=
  let src := default [] source in
  let source_len := Z.of_nat (length src) in
  if source_len =? 0 then sb_fail SB_ERR_SCRIPT (bs "rule script is empty")
  else if source_bytes limits <? source_len
  then sb_fail SB_ERR_SCRIPT (bs "rule script exceeds the configured source limit")
  else if negb (JS_NewRuntime js) then sb_fail SB_ERR_SCRIPT (bs "failed to create QuickJS runtime")
  else match JS_NewContext js limits with
  | None => sb_fail SB_ERR_SCRIPT (bs "failed to create QuickJS context")
  | Some ctx =>
      '(ctx, _) ← run_step (JS_Eval js ctx kDeterministicPrelude "<sb-easy-bootstrap>");
      '(ctx, _) ← run_step (JS_Eval js ctx src "<rule-script>");
      match JS_GetFunction js ctx "buildRules" with
      | None => sb_fail SB_ERR_SCRIPT (bs "rule script must define function buildRules(context)")
      | Some function =>
          let context_json := sbj_dump context (-1) in
          '(ctx, argument) ← run_step (JS_ParseJSON js ctx (cstr context_json));
          '(ctx, output) ← run_step (JS_Call js ctx function argument);
          '(ctx, serialized) ← run_step (JS_JSONStringify js ctx output);
          match serialized with
          | None => sb_fail SB_ERR_SCRIPT (bs "buildRules(context) returned undefined")
          | Some s => check_rules (default [] (JS_ToCStringLen js ctx s))
          end
      end
  end.

Definition sb_rule_script_engine_build_rules (source : option bytes) (context : option sbj) : result sbj :=
  sb_rule_script_engine_build_rules_n (cstr <$> source) context.
End Engine.

(** * Theorems *)

(** Failures of the engine are script errors. *)
Definition script_error {A} (r : result A) : Prop := match r with Ok _ => True | Err e => err_code e = SB_ERR_SCRIPT end.

Lemma script_error_bind {A B} (r : result A) (f : A -> result B) :
  script_error r -> (forall a, script_error (f a)) -> script_error (r ≫= f).
Proof. destruct r; simpl; auto. Qed.

Lemma script_error_step js {A} (r : js_ctx js * (js_exception + A)) : script_error (run_step js r).
Proof. by destruct r as [ctx [e|a]]. Qed.

Lemma script_error_check limits out : script_error (check_rules limits out).
Proof. unfold check_rules. case_if; [done|]. destruct (sbj_parse out); [|done]. by repeat case_if. Qed.

Lemma build_rules_error js limits source context :
  script_error (sb_rule_script_engine_build_rules_n js limits source context).
Proof.
  unfold sb_rule_script_engine_build_rules_n. repeat (case_if; [done|]).
  destruct (JS_NewContext js limits); [|done].
  apply script_error_bind; [apply script_error_step|intros [c1 _]].
  apply script_error_bind; [apply script_error_step|intros [c2 _]].
  destruct (JS_GetFunction js c2 "buildRules"); [|done].
  apply script_error_bind; [apply script_error_step|intros [c3 a]].
  apply script_error_bind; [apply script_error_step|intros [c4 o]].
  apply script_error_bind; [apply script_error_step|intros [c5 [s|]]]; [apply script_error_check|done].
Qed.

(** What the engine lets through: the parse of a bounded text, an array of objects. *)
Definition rules_shape (rules : sbj) : Prop :=
  sbj_wf rules = true /\ sbj_validate_utf8 rules = Ok tt /\
  exists l, rules = SBJ_ARRAY l /\ Forall (fun r => sbj_is_object (Some r) = true) l.

Lemma check_rules_ok limits out rules :
  check_rules limits out = Ok rules ->
  rules_shape rules /\ Z.of_nat (length out) <= output_bytes limits /\ sbj_parse out = Some rules.
Proof.
  unfold check_rules. case_if; [done|]. destruct (sbj_parse out) as [v|] eqn:P; [|done].
  case_if; [done|]. case_if; [done|]. intros [= <-]. split; [|done].
  destruct (sbj_parse_wf _ _ P) as (W & U%validate_utf8_clean & _). split; [done|split; [done|]].
  destruct v; try done. eexists. split; [done|]. apply Forall_forall. intros x Hx.
  cbn [arr_items] in *. rewrite forallb_forall in *. by apply E1, list_elem_of_In.
Qed.

Lemma build_rules_ok js limits source context rules :
  sb_rule_script_engine_build_rules_n js limits source context = Ok rules ->
  exists out, check_rules limits out = Ok rules /\
              0 < Z.of_nat (length (default [] source)) <= source_bytes limits.
Proof.
  unfold sb_rule_script_engine_build_rules_n. case_if; [done|]. case_if; [done|]. case_if; [done|].
  destruct (JS_NewContext js limits); [|done].
  intros ([c1 ?] & _ & ([c2 ?] & _ & H)%bind_Ok)%bind_Ok.
  destruct (JS_GetFunction js c2 "buildRules"); [|done].
  apply bind_Ok in H as ([c3 ?] & _ & ([c4 ?] & _ & ([c5 [s|]] & _ & H)%bind_Ok)%bind_Ok); [|done].
  eexists. split; [done|]. lia.
Qed.

(** Rule scripts are contained.  Whatever the interpreter does, the engine
    either fails with a script error or returns a well-formed, UTF-8 JSON array
    of objects, parsed from a text within the output limit, for a source within
    the source limit. *)
Theorem build_rules_contained js limits source context :
  match sb_rule_script_engine_build_rules_n js limits source context with
  | Ok rules => rules_shape rules /\
                (exists out, sbj_parse out = Some rules /\ Z.of_nat (length out) <= output_bytes limits) /\
                0 < Z.of_nat (length (default [] source)) <= source_bytes limits
  | Err e => err_code e = SB_ERR_SCRIPT
  end.
Proof.
  pose proof (build_rules_error js limits source context) as HE.
  destruct (sb_rule_script_engine_build_rules_n _ _ _ _) as [rules|e] eqn:H; [|done].
  apply build_rules_ok in H as (out & (S & L & P)%check_rules_ok & B). eauto.
Qed.
