(* ===== verification/Renderer.v ===== *)
(** * Configuration renderer ([c/src/config_renderer.c])

    Turns a profile template, a host's proxy nodes and a rule script into the
    sing-box configuration the host receives.  The C code edits one [sbj] tree
    in place; here an edit of a nested value is written as storing the edited
    child back under its key.  [inet_pton] (libc) and the QuickJS entry points
    are parameters. *)

From S2P Require Import Prelude Util Json JsonText JsonUtf8 JsonSafe Types Script.

(** ** Accessors with nlohmann::json's type errors *)

Definition type_error_value {A} (object : option sbj) : result A :=
  sb_fail SB_ERR_GENERIC
    (bs "[json.exception.type_error.306] cannot use value() with " ++ sbj_type_name object).

Definition type_error_302 {A} (what : string) (found : sbj) : result A :=
  sb_fail SB_ERR_GENERIC
    (bs "[json.exception.type_error.302] type must be " ++ bs what ++ bs ", but is " ++
     sbj_type_name (Some found)).

Definition value_str (object : option sbj) (key : string) (fallback : bytes) : result bytes :=
  if negb (sbj_is_object object) then type_error_value object
  else match sbj_get object key with
       | None => Ok fallback
       | Some (SBJ_STRING s) => Ok s
       | Some found => type_error_302 "string" found
       end.

Definition value_bool (object : option sbj) (key : string) (fallback : bool) : result bool :=
  if negb (sbj_is_object object) then type_error_value object
  else match sbj_get object key with
       | None => Ok fallback
       | Some (SBJ_BOOL b) => Ok b
       | Some found => type_error_302 "boolean" found
       end.

(** The cast of a [double] outside [int] is undefined in C; the model wraps it. *)
Definition value_int (object : option sbj) (key : string) (fallback : Z) : result Z :=
  if negb (sbj_is_object object) then type_error_value object
  else match sbj_get object key with
       | None => Ok fallback
       | Some (SBJ_INT i) => Ok (to_i32 i)
       | Some (SBJ_UINT u) => Ok (to_i32 u)
       | Some (SBJ_FLOAT f) => Ok (to_i32 (double_trunc f))
       | Some (SBJ_BOOL b) => Ok (if b then 1 else 0)
       | Some found => type_error_302 "number" found
       end.

Definition value_or_null (value : option sbj) (key : string) : sbj :=
  match sbj_get value key with Some found => sbj_clone found | None => SBJ_NULL end.

Definition copy_if_present (destination : sbj) (source : option sbj) (key : string) : sbj :=
  match sbj_get source key with Some found => sbj_set destination key (sbj_clone found) | None => destination end.

Definition string_or (value : option sbj) (key : string) (fallback : string) : sbj :=
  match sbj_get value key with
  | Some (SBJ_STRING s) => sbj_clone (SBJ_STRING s)
  | _ => sbj_str (Some (bs fallback))
  end.

(** The object after [object\[key\]] and the slot it denotes. *)
Definition index_or_null (object : sbj) (key : string) : sbj * option sbj :=
  match sbj_get (Some object) key with
  | Some found => (object, Some found)
  | None => let object := sbj_set object key SBJ_NULL in (object, sbj_get (Some object) key)
  end.

Definition set_get (object : sbj) (key : string) (value : sbj) : sbj * option sbj :=
  let object := sbj_set object key value in (object, sbj_get (Some object) key).

(** [index_or_null] followed by [set_get] of a fresh container when the slot is
    null. *)
Definition index_or_fresh (fresh : sbj) (object : sbj) (key : string) : sbj * option sbj :=
  let (object, slot) := index_or_null object key in
  if sbj_is_null slot then set_get object key fresh else (object, slot).

(** ** Rule validation *)

Definition check_outbound (allowed : sbj) (rule : sbj) : result unit :=
  match sbj_get (Some rule) "outbound" with
  | Some (SBJ_STRING t) =>
      match sbj_getn (Some allowed) t with
      | Some _ => Ok tt
      | None => sb_fail SB_ERR_SCRIPT (bs "generated rule references unknown outbound tag: " ++ cstr t)
      end
  | _ => Ok tt
  end.

(** One rule: its outbound, then the rules nested in it.  The nested array is
    reached through the index [obj_find] gives, which keeps the recursion
    structural. *)
Fixpoint validate_rule (allowed : sbj) (rule : sbj) {struct rule} : result unit :=
  _ ← check_outbound allowed rule;
  match rule with
  | SBJ_OBJECT m =>
      let (i, found) := obj_find m (bs "rules") in
      if found then
        (fix nth (l : list (bytes * sbj)) (i : nat) : result unit :=
           match l, i with
           | (_, SBJ_ARRAY rules) :: _, O =>
               (fix all (rules : list sbj) : result unit :=
                  match rules with
                  | [] => Ok tt
                  | r :: rules' => _ ← validate_rule allowed r; all rules'
                  end) rules
           | _ :: l', S i' => nth l' i'
           | _, _ => Ok tt
           end) m i
      else Ok tt
  | _ => Ok tt
  end.

Fixpoint validate_rule_tags (rules : list sbj) (allowed : sbj) : result unit :=
  match rules with
  | [] => Ok tt
  | r :: rules' => _ ← validate_rule allowed r; validate_rule_tags rules' allowed
  end.

(** ** Clash API *)

Definition inject_clash_api (config : sbj) (request : sb_render_request) : sbj :=
  if (length (rq_clash_controller request) =? 0)%nat || negb (sbj_is_object (Some config)) then config
  else
    let existing := sbj_get (Some config) "experimental" in
    if sbj_is_object existing && sbj_has existing "clash_api" then config
    else
      let (config, experimental) := index_or_fresh (SBJ_OBJECT []) config "experimental" in
      match experimental with
      | Some (SBJ_OBJECT m) =>
          let clash_api := sbj_set (SBJ_OBJECT []) "external_controller" (SBJ_STRING (rq_clash_controller request)) in
          let clash_api := if (length (rq_clash_secret request) =? 0)%nat then clash_api
                           else sbj_set clash_api "secret" (SBJ_STRING (rq_clash_secret request)) in
          sbj_set config "experimental" (sbj_set (SBJ_OBJECT m) "clash_api" clash_api)
      | _ => config
      end.

Definition disable_clash_dashboard (config : sbj) : sbj :=
  match sbj_get (Some config) "experimental" with
  | Some (SBJ_OBJECT m) =>
      match sbj_get (Some (SBJ_OBJECT m)) "clash_api" with
      | Some (SBJ_OBJECT a) =>
          let api := snd (sbj_del (SBJ_OBJECT a) "external_ui") in
          let api := snd (sbj_del api "external_ui_download_url") in
          let api := snd (sbj_del api "external_ui_download_detour") in
          sbj_set config "experimental" (sbj_set (SBJ_OBJECT m) "clash_api" api)
      | _ => config
      end
  | _ => config
  end.

(** ** Control plane route *)

(** What follows the first occurrence of [needle] ([strstr]). *)
Fixpoint after_first (needle s : bytes) : option bytes :=
  if bytes_eqb (take (length needle) s) needle then Some (drop (length needle) s)
  else match s with [] => None | _ :: s' => after_first needle s' end.

(** [strcspn]: the bytes before the first one of [stop]. *)
Fixpoint until (stop : ascii -> bool) (s : bytes) : bytes :=
  match s with [] => [] | c :: s' => if stop c then [] else c :: until stop s' end.

Definition url_host (input : bytes) : bytes :=
  let value := cstr input in
  let value := default value (after_first (bs "://") value) in
  let host := until (fun c => (code c =? 47) || (code c =? 63) || (code c =? 35)) value in
  match host with
  | c :: rest =>
      if code c =? 91 then
        if existsb (fun c => code c =? 93) host then until (fun c => code c =? 93) rest else []
      else if (length (List.filter (fun c => (code c =? 58)%Z) host) =? 1)%nat
      then until (fun c => code c =? 58) host
      else host
  | [] => []
  end.

Definition direct_rule (key : string) (value : bytes) : sbj :=
  sbj_set_str (sbj_set (SBJ_OBJECT []) key (SBJ_ARRAY [SBJ_STRING value])) "outbound" (bs "direct").

Section ControlPlane.
Context (inet_pton4 inet_pton6 : bytes -> bool).

Definition control_plane_route (server : bytes) : option sbj :=
  match url_host server with
  | [] => None
  | host =>
      Some (if inet_pton4 host then direct_rule "ip_cidr" (host ++ bs "/32")
            else if inet_pton6 host then direct_rule "ip_cidr" (host ++ bs "/128")
            else direct_rule "domain" host)
  end.
End ControlPlane.

(** ** Managed DNS and geo policy *)

Definition retarget_detour (target : bytes) (server : sbj) : sbj :=
  let detour := sbj_get (Some server) "detour" in
  if negb (sbj_is_object (Some server)) || negb (sbj_is_string detour) then server
  else if sbj_string_is detour "Proxy" || sbj_string_is detour "Auto"
  then sbj_set_str server "detour" target
  else server.

Definition normalize_managed_dns_detours (config : sbj) (has_auto : bool) (proxy_selector : option string) : sbj :=
  match sbj_get (Some config) "dns" with
  | Some (SBJ_OBJECT d) =>
      let (dns, servers) := index_or_null (SBJ_OBJECT d) "servers" in
      match servers with
      | Some (SBJ_ARRAY items) =>
          let target := if negb has_auto then bs "direct"
                        else match proxy_selector with Some s => bs s | None => bs "auto" end in
          sbj_set config "dns" (sbj_set dns "servers" (SBJ_ARRAY (map (retarget_detour target) items)))
      | _ => sbj_set config "dns" dns
      end
  | _ => config
  end.

Definition meta_rules_base : bytes := bs "https://cdn.jsdelivr.net/gh/MetaCubeX/meta-rules-dat@sing/geo/".

Definition rule_set_tag_matches (value : sbj) (tag : string) : bool :=
  match value with
  | SBJ_STRING _ => sbj_string_is (Some value) tag
  | SBJ_ARRAY items => existsb (fun item => sbj_string_is (Some item) tag) items
  | _ => false
  end.

Definition has_rule_for_set (rules : option sbj) (tag : string) : bool :=
  existsb (fun rule => match sbj_get (Some rule) "rule_set" with
                       | Some found => rule_set_tag_matches found tag
                       | None => false
                       end) (arr_items rules).

Fixpoint has_private_ip_rule_loop (rules : list sbj) : result bool :=
  match rules with
  | [] => Ok false
  | rule :: rules' =>
      if negb (sbj_is_object (Some rule)) then has_private_ip_rule_loop rules'
      else
        flag ← value_bool (Some rule) "ip_is_private" false;
        if flag : bool then Ok true else has_private_ip_rule_loop rules'
  end.
Definition has_private_ip_rule (rules : option sbj) : result bool := has_private_ip_rule_loop (arr_items rules).

(** Whether the tag is declared already, stopping at the first match. *)
Fixpoint rule_set_declared (items : list sbj) (tag : string) : result bool :=
  match items with
  | [] => Ok false
  | item :: items' =>
      if negb (sbj_is_object (Some item)) then rule_set_declared items' tag
      else
        _ ← value_str (Some item) "tag" [];
        if sbj_string_is (sbj_get (Some item) "tag") tag then Ok true else rule_set_declared items' tag
  end.

Definition add_remote_rule_set (rule_sets : sbj) (tag relative_url : string) : result sbj :=
  declared ← rule_set_declared (arr_items (Some rule_sets)) tag;
  if declared : bool then Ok rule_sets
  else
    let entry := sbj_set_str (SBJ_OBJECT []) "type" (bs "remote") in
    let entry := sbj_set_str entry "tag" (bs tag) in
    let entry := sbj_set_str entry "format" (bs "binary") in
    let entry := sbj_set entry "url" (SBJ_STRING (meta_rules_base ++ bs relative_url)) in
    let entry := sbj_set_str entry "download_detour" (bs "direct") in
    let entry := sbj_set_str entry "update_interval" (bs "7d") in
    Ok (sbj_arr_push rule_sets (Some entry)).

Definition rule_set_rule (tag : string) : sbj :=
  sbj_set_str (sbj_set (SBJ_OBJECT []) "rule_set" (SBJ_ARRAY [sbj_str (Some (bs tag))])) "outbound" (bs "direct").

Definition private_ip_rule : sbj :=
  sbj_set_str (sbj_set_bool (SBJ_OBJECT []) "ip_is_private" true) "outbound" (bs "direct").

Definition push_missing (rules : sbj) (tag : string) : sbj :=
  if has_rule_for_set (Some rules) tag then rules else sbj_arr_push rules (Some (rule_set_rule tag)).

(** The managed defaults appended to [rules] where they are missing. *)
Definition append_geo_rules (rules : sbj) : result sbj :=
  let rules := push_missing rules "geosite-private" in
  has_private ← has_private_ip_rule (Some rules);
  let rules := if has_private : bool then rules else sbj_arr_push rules (Some private_ip_rule) in
  Ok (push_missing (push_missing rules "geosite-cn") "geoip-cn").

Definition enable_cache_file (config : sbj) : sbj :=
  let (config, experimental) := index_or_fresh (SBJ_OBJECT []) config "experimental" in
  match experimental with
  | Some (SBJ_OBJECT m) =>
      let (experimental, cache) := index_or_fresh (SBJ_OBJECT []) (SBJ_OBJECT m) "cache_file" in
      let experimental := match cache with
                          | Some (SBJ_OBJECT c) =>
                              sbj_set experimental "cache_file" (sbj_set_bool (SBJ_OBJECT c) "enabled" true)
                          | _ => experimental
                          end in
      sbj_set config "experimental" experimental
  | _ => config
  end.

Definition inject_managed_geo_policy (config : sbj) : result sbj :=
  let (config, route) := index_or_fresh (SBJ_OBJECT []) config "route" in
  match route with
  | Some (SBJ_OBJECT r) =>
      let (route, rules) := index_or_fresh (SBJ_ARRAY []) (SBJ_OBJECT r) "rules" in
      match rules with
      | Some (SBJ_ARRAY rl) =>
          let (route, rule_sets) := index_or_fresh (SBJ_ARRAY []) route "rule_set" in
          match rule_sets with
          | Some (SBJ_ARRAY rs) =>
              sets ← add_remote_rule_set (SBJ_ARRAY rs) "geosite-private" "geosite/private.srs";
              sets ← add_remote_rule_set sets "geosite-cn" "geosite/cn.srs";
              sets ← add_remote_rule_set sets "geoip-cn" "geoip/cn.srs";
              rules ← append_geo_rules (SBJ_ARRAY rl);
              let route := sbj_set (sbj_set route "rule_set" sets) "rules" rules in
              Ok (enable_cache_file (sbj_set config "route" route))
          | _ => sb_fail SB_ERR_VALIDATION (bs "managed route rule_set must be an array")
          end
      | _ => sb_fail SB_ERR_VALIDATION (bs "managed route rules must be an array")
      end
  | _ => sb_fail SB_ERR_VALIDATION (bs "managed route must be a JSON object")
  end.

(** ** Outbounds *)

Definition outbound_base (type : string) (node : sb_proxy_node) : sbj :=
  let o := sbj_set_str (SBJ_OBJECT []) "type" (bs type) in
  let o := sbj_set o "tag" (SBJ_STRING (node_tag node)) in
  let o := sbj_set o "server" (SBJ_STRING (node_server node)) in
  sbj_set_int o "server_port" (node_server_port node).

Definition sb_config_generate_outbound (node : sb_proxy_node) : result sbj :=
  let config := Some (node_protocol_config node) in
  let type := node_type node in
  let set_null o k := sbj_set o k (value_or_null config k) in
  let set_str o k fallback := sbj_set o k (string_or config k fallback) in
  let copy o k := copy_if_present o config k in
  if sb_strn_eq type "shadowsocks" then
    let o := outbound_base "shadowsocks" node in
    let o := set_null o "method"%string in
    Ok (set_null o "password"%string)
  else if sb_strn_eq type "vmess" then
    alter_id ← value_int config "alter_id" 0;
    let o := outbound_base "vmess" node in
    let o := set_null o "uuid"%string in
    let o := sbj_set_int o "alter_id" alter_id in
    let o := set_str o "security"%string "auto"%string in
    let o := copy o "transport"%string in
    Ok (copy o "tls"%string)
  else if sb_strn_eq type "trojan" then
    let o := outbound_base "trojan" node in
    let o := set_null o "password"%string in
    let o := copy o "transport"%string in
    Ok (copy o "tls"%string)
  else if sb_strn_eq type "vless" then
    let o := outbound_base "vless" node in
    let o := set_null o "uuid"%string in
    let o := set_str o "flow"%string EmptyString in
    let o := set_str o "packet_encoding"%string "xudp"%string in
    let o := copy o "transport"%string in
    Ok (copy o "tls"%string)
  else if sb_strn_eq type "hysteria2" then
    let o := outbound_base "hysteria2" node in
    let o := set_null o "password"%string in
    let o := copy o "tls"%string in
    Ok (copy o "obfs"%string)
  else if sb_strn_eq type "tuic" then
    let o := outbound_base "tuic" node in
    let o := set_null o "uuid"%string in
    let o := set_null o "password"%string in
    let o := set_str o "congestion_control"%string "bbr"%string in
    let o := set_str o "udp_relay_mode"%string "native"%string in
    Ok (copy o "tls"%string)
  else if sb_strn_eq type "http" || sb_strn_eq type "socks" then
    let socks := sb_strn_eq type "socks" in
    let o := outbound_base (if socks then "socks" else "http") node in
    let o := copy o "username"%string in
    let o := copy o "password"%string in
    if socks then
      let o := copy o "version"%string in
      let o := copy o "network"%string in
      Ok (copy o "udp_over_tcp"%string)
    else Ok (copy o "tls"%string)
  else
    let o := sbj_set_str (SBJ_OBJECT []) "type" (bs "direct") in
    Ok (sbj_set o "tag" (SBJ_STRING (node_tag node))).

(** The tag of the [occurrence]th enabled node of the same name. *)
Definition occurrence_tag (tag : bytes) (occurrence : Z) : bytes :=
  tag ++ (if 1 <? occurrence then bs " #" ++ fmt_uint occurrence else []).

(** [seen_counts\[tag\] + 1] in an [unsigned]. *)
Definition next_occurrence (seen_counts : sbj) (tag : bytes) : Z :=
  match sbj_getn (Some seen_counts) tag with
  | Some (SBJ_INT i) => to_u32 (to_u32 i + 1)
  | _ => 1
  end.

(** The loop over the nodes: outbounds and tags in order. *)
Fixpoint generate_loop (nodes : list sb_proxy_node) (seen_counts : sbj) (outbounds auto_tags : sbj)
    : result (sbj * sbj) :=
  match nodes with
  | [] => Ok (outbounds, auto_tags)
  | node :: nodes' =>
      if negb (node_enabled node) then generate_loop nodes' seen_counts outbounds auto_tags
      else
        outbound ← sb_config_generate_outbound node;
        let occurrence := next_occurrence seen_counts (node_tag node) in
        let seen_counts := sbj_setn seen_counts (node_tag node) (Some (SBJ_INT occurrence)) in
        let tag := occurrence_tag (node_tag node) occurrence in
        let outbound := sbj_set outbound "tag" (SBJ_STRING tag) in
        generate_loop nodes' seen_counts (sbj_arr_push outbounds (Some outbound))
          (sbj_arr_push auto_tags (Some (SBJ_STRING tag)))
  end.

Definition urltest_outbound (auto_tags : sbj) : sbj :=
  let u := sbj_set_str (SBJ_OBJECT []) "type" (bs "urltest") in
  let u := sbj_set_str u "tag" (bs "auto") in
  let u := sbj_set u "outbounds" auto_tags in
  let u := sbj_set_str u "url" (bs "https://www.gstatic.com/generate_204") in
  let u := sbj_set_str u "interval" (bs "24h") in
  sbj_set_str u "idle_timeout" (bs "24h").

Definition sb_config_generate_outbounds (nodes : list sb_proxy_node) : result sbj :=
  '(outbounds, auto_tags) ← generate_loop nodes (SBJ_OBJECT []) (SBJ_ARRAY []) (SBJ_ARRAY []);
  Ok (if (0 <? sbj_arr_len (Some auto_tags))%nat
      then sbj_arr_push outbounds (Some (urltest_outbound auto_tags)) else outbounds).

Definition outbounds_have_tag (outbounds : sbj) (tag : string) : bool :=
  existsb (fun o => sbj_string_is (sbj_get (Some o) "tag") tag) (arr_items (Some outbounds)).

(** ** Managed profiles *)

(** The [while] loop that looks for an unused selector tag; [n] outbounds need
    at most [n + 1] tries. *)
Fixpoint selector_tag_loop (fuel : nat) (outbounds : sbj) (tag : string) : option string :=
  match fuel with
  | O => None
  | S fuel' =>
      if outbounds_have_tag outbounds tag then selector_tag_loop fuel' outbounds (tag +:+ " group")%string
      else Some tag
  end.

Definition selector_tag (outbounds : sbj) : option string :=
  selector_tag_loop (S (sbj_arr_len (Some outbounds))) outbounds "Proxy".

Definition selector_members (outbounds : sbj) : list sbj :=
  omap (fun o => match sbj_get (Some o) "tag" with
                 | Some (SBJ_STRING t) =>
                     if (0 <? length t)%nat && negb (sbj_string_is (Some (SBJ_STRING t)) "auto")
                     then Some (sbj_clone (SBJ_STRING t)) else None
                 | _ => None
                 end) (arr_items (Some outbounds)).

Definition selector_outbound (outbounds : sbj) (tag : string) : sbj :=
  let s := sbj_set_str (SBJ_OBJECT []) "type" (bs "selector") in
  let s := sbj_set_str s "tag" (bs tag) in
  let s := sbj_set s "outbounds" (SBJ_ARRAY (sbj_str (Some (bs "auto")) :: selector_members outbounds)) in
  sbj_set_str s "default" (bs "auto").

Definition direct_outbound : sbj :=
  sbj_set_str (sbj_set_str (SBJ_OBJECT []) "type" (bs "direct")) "tag" (bs "direct").

(** Whether the host asked for a selector group. *)
Definition supports_proxy_selection (host_context : sbj) : result bool :=
  if negb (sbj_is_object (Some host_context)) then type_error_value (Some host_context)
  else
    let capabilities := sbj_get (Some host_context) "capabilities" in
    is_android ←
      (if sbj_is_object capabilities then
         _ ← value_str capabilities "platform" [];
         Ok (sbj_string_is (sbj_get capabilities "platform") "android")
       else Ok false);
    Ok (is_android || sbj_get_bool capabilities "supports_proxy_selection" false).

(** [route.final] redirected to a group that exists. *)
Definition retarget_final (config : sbj) (has_auto : bool) (proxy_selector : option string) : sbj :=
  match sbj_get (Some config) "route" with
  | Some (SBJ_OBJECT r) =>
      let route := SBJ_OBJECT r in
      let final_value := sbj_get (Some route) "final" in
      if negb (sbj_is_string final_value) then config
      else
        let legacy := sbj_string_is final_value "Proxy" || sbj_string_is final_value "Auto" in
        if negb has_auto then sbj_set config "route" (sbj_set_str route "final" (bs "direct"))
        else match proxy_selector with
             | Some s =>
                 if legacy || sbj_string_is final_value "auto"
                 then sbj_set config "route" (sbj_set_str route "final" (bs s))
                 else if legacy then sbj_set config "route" (sbj_set_str route "final" (bs "auto")) else config
             | None =>
                 if legacy then sbj_set config "route" (sbj_set_str route "final" (bs "auto")) else config
             end
  | _ => config
  end.

(** The configuration and whether it has proxies. *)
Definition render_managed (request : sb_render_request) (config : sbj) : result (sbj * bool) :=
  outbounds ← sb_config_generate_outbounds (rq_nodes request);
  let has_auto := outbounds_have_tag outbounds "auto" in
  supports ← supports_proxy_selection (rq_host_context request);
  let outbounds := if outbounds_have_tag outbounds "direct" then outbounds
                   else sbj_arr_push outbounds (Some direct_outbound) in
  let proxy_selector := if has_auto && supports then selector_tag outbounds else None in
  let outbounds := match proxy_selector with
                   | Some tag => sbj_arr_push outbounds (Some (selector_outbound outbounds tag))
                   | None => outbounds
                   end in
  let config := sbj_set config "outbounds" outbounds in
  let config := normalize_managed_dns_detours config has_auto proxy_selector in
  Ok (retarget_final config has_auto proxy_selector, has_auto).

(** ** Rule scripts *)

Definition allow_tag (allowed : sbj) (v : option sbj) : sbj :=
  match v with Some (SBJ_STRING t) => sbj_setn allowed t (Some (SBJ_BOOL true)) | _ => allowed end.

(** Tags a generated rule may name. *)
Definition allowed_tags (config : sbj) (request : sb_render_request) : sbj :=
  let allowed := sbj_set (SBJ_OBJECT []) "direct" (SBJ_BOOL true) in
  let allowed := sbj_set allowed "block" (SBJ_BOOL true) in
  let allowed := sbj_set allowed "dns" (SBJ_BOOL true) in
  let allowed := sbj_set allowed "reject" (SBJ_BOOL true) in
  let allowed := foldl (fun a o => allow_tag a (sbj_get (Some o) "tag")) allowed
                   (arr_items (sbj_get (Some config) "outbounds")) in
  foldl (fun a t => allow_tag a (Some t)) allowed (arr_items (Some (rq_external_route_tags request))).

Definition script_context (config route : sbj) (request : sb_render_request) : sbj :=
  let allowed := allowed_tags config request in
  let context := sbj_set (SBJ_OBJECT []) "host" (sbj_clone (rq_host_context request)) in
  let tags := map (fun kv => SBJ_STRING (fst kv)) (obj_members (Some allowed)) in
  let context := sbj_set context "outboundTags" (SBJ_ARRAY tags) in
  sbj_set context "currentRules"
    (match sbj_get (Some route) "rules" with Some r => sbj_clone r | None => SBJ_ARRAY [] end).

(** The [route] object, created when it is not one. *)
Definition route_object (config : sbj) : sbj * sbj :=
  match sbj_get (Some config) "route" with
  | Some (SBJ_OBJECT r) => (config, SBJ_OBJECT r)
  | _ => (sbj_set config "route" (SBJ_OBJECT []), SBJ_OBJECT [])
  end.

Section Render.
Context (js : quickjs) (limits : sb_script_limits) (inet_pton4 inet_pton6 : bytes -> bool).

Definition render_rule_script (request : sb_render_request) (config : sbj) : result sbj :=
  let (config, route) := route_object config in
  let allowed := allowed_tags config request in
  rules ← sb_rule_script_engine_build_rules_n js limits (rq_rule_script request)
            (Some (script_context config route request));
  _ ← validate_rule_tags (arr_items (Some rules)) allowed;
  Ok (sbj_set config "route" (sbj_set route "rules" rules)).

Definition add_network_outbounds (request : sb_render_request) (config : sbj) : result sbj :=
  if (0 <? sbj_arr_len (Some (rq_network_outbounds request)))%nat then
    match sbj_get (Some config) "outbounds" with
    | Some (SBJ_ARRAY _) | None =>
        let (outbounds, config) := sbj_get_or_array config "outbounds" in
        let outbounds := foldl (fun a o => sbj_arr_push a (Some (sbj_clone o))) outbounds
                           (arr_items (Some (rq_network_outbounds request))) in
        Ok (sbj_set config "outbounds" outbounds)
    | Some _ => sb_fail SB_ERR_VALIDATION (bs "Network transports require profile.outbounds to be an array")
    end
  else Ok config.

(** The rules the server puts before every other. *)
Definition protected_rules (request : sb_render_request) : sbj :=
  let rules := SBJ_ARRAY [] in
  let rules := match control_plane_route inet_pton4 inet_pton6 (rq_control_plane_server request) with
               | Some rule => sbj_arr_push rules (Some rule)
               | None => rules
               end in
  foldl (fun a r => sbj_arr_push a (Some (sbj_clone r))) rules
    (arr_items (Some (rq_priority_route_rules request))).

(** The [for] loop that moves the protected rules to the front of [rules]. *)
Fixpoint insert_front (n i : nat) (protected rules : sbj) : sbj :=
  match n with
  | O => rules
  | S n' =>
      let (rule, protected) := sbj_arr_take protected 0 in
      insert_front n' (S i) protected (sbj_arr_insert rules i rule)
  end.

Definition protect_route (request : sb_render_request) (config : sbj) : sbj :=
  let protected := protected_rules request in
  let n := sbj_arr_len (Some protected) in
  if (0 <? n)%nat then
    let (config, route) := route_object config in
    let (route, rules) := index_or_null route "rules" in
    let (route, rules) := match rules with
                          | Some (SBJ_ARRAY l) => (route, SBJ_ARRAY l)
                          | _ => (sbj_set route "rules" (SBJ_ARRAY []), SBJ_ARRAY [])
                          end in
    sbj_set config "route" (sbj_set route "rules" (insert_front n 0 protected rules))
  else config.

Definition sb_config_renderer_render (request : sb_render_request) : result sbj :=
  if negb (sbj_is_object (Some (rq_profile request)))
  then sb_fail SB_ERR_VALIDATION (bs "profile template must be a JSON object")
  else
    let config := sbj_clone (rq_profile request) in
    '(config, managed_has_proxy) ←
      (if decide (rq_mode request = SB_PROFILE_MANAGED) then render_managed request config
       else Ok (config, false));
    config ← add_network_outbounds request config;
    config ← (if (0 <? length (default [] (rq_rule_script request)))%nat
              then render_rule_script request config else Ok config);
    config ← (if managed_has_proxy : bool then inject_managed_geo_policy config else Ok config);
    let config := protect_route request config in
    let config := inject_clash_api config request in
    Ok (disable_clash_dashboard config).
End Render.
