(* ===== verification/RendererProofs.v ===== *)
(** * Correctness of the configuration renderer

    Rule validation, the outbound list and its groups, the selector tag search,
    and the guarantees of the rendered configuration: it is well formed, the
    protected rules come first, and the dashboard keys are gone. *)

From S2P Require Import Prelude Util Json JsonText JsonUtf8 JsonSafe JsonRound Types Script Renderer.

(** ** Rule validation *)

(** [references rule t]: the rule, or one nested in it, sends traffic to [t]. *)
Inductive references : sbj -> bytes -> Prop :=
  | references_here rule t : sbj_get (Some rule) "outbound" = Some (SBJ_STRING t) -> references rule t
  | references_nested rule rules r t :
      sbj_get (Some rule) "rules" = Some (SBJ_ARRAY rules) -> r ∈ rules -> references r t ->
      references rule t.

Definition allows (allowed : sbj) (t : bytes) : Prop := sbj_getn (Some allowed) t <> None.

Lemma check_outbound_ok allowed rule :
  check_outbound allowed rule = Ok tt <->
  forall t, sbj_get (Some rule) "outbound" = Some (SBJ_STRING t) -> allows allowed t.
Proof.
  unfold check_outbound, allows. destruct (sbj_get (Some rule) "outbound") as [[]|]; try (split; [done|done]).
  destruct (sbj_getn (Some allowed) s) eqn:E; split; try done.
  - intros _ t [= <-]. by rewrite E.
  - intros H. by specialize (H s eq_refl).
Qed.

Lemma bind_ok_unit (r s : result unit) : (_ ← r; s) = Ok tt <-> r = Ok tt /\ s = Ok tt.
Proof. destruct r as [[]|e]; simpl; intuition congruence. Qed.

Lemma validate_rule_object allowed m :
  validate_rule allowed (SBJ_OBJECT m) =
  (_ ← check_outbound allowed (SBJ_OBJECT m);
   match sbj_get (Some (SBJ_OBJECT m)) "rules" with
   | Some (SBJ_ARRAY rules) => validate_rule_tags rules allowed
   | _ => Ok tt
   end).
Proof.
  cbn [validate_rule]. destruct (check_outbound allowed (SBJ_OBJECT m)) as [[]|e];
    cbn [mbind result_bind]; [|done].
  unfold sbj_get. cbn [sbj_getn]. destruct (obj_find m (bs "rules")) as [i []]; [|done].
  revert i. induction m as [|[k x] m IH]; intros i; [done|].
  destruct i as [|i]; simpl; [|destruct x; apply IH].
  destruct x as [| | | | | |l|]; try done. induction l as [|r l IHl]; simpl; [done|]. by rewrite IHl.
Qed.

Lemma validate_rule_scalar allowed v :
  sbj_is_object (Some v) = false -> validate_rule allowed v = Ok tt.
Proof. by destruct v. Qed.

Lemma validate_rule_tags_Forall rules allowed :
  validate_rule_tags rules allowed = Ok tt <-> Forall (fun r => validate_rule allowed r = Ok tt) rules.
Proof.
  induction rules as [|r rules IH]; [by split|]. cbn [validate_rule_tags].
  rewrite bind_ok_unit, IH, Forall_cons. done.
Qed.

Lemma sbj_getn_In m k v : sbj_getn (Some (SBJ_OBJECT m)) k = Some v -> exists k', (k', v) ∈ m.
Proof.
  cbn [sbj_getn]. destruct (obj_find m k) as [i []]; [|done].
  destruct (m !! i) as [[k' v']|] eqn:E; [|done]. intros [= <-]. exists k'. by eapply list_elem_of_lookup_2.
Qed.

Definition rule_spec (allowed rule : sbj) : Prop :=
  validate_rule allowed rule = Ok tt <-> forall t, references rule t -> allows allowed t.

Lemma rule_spec_object allowed m :
  (forall rules, sbj_get (Some (SBJ_OBJECT m)) "rules" = Some (SBJ_ARRAY rules) -> Forall (rule_spec allowed) rules) ->
  rule_spec allowed (SBJ_OBJECT m).
Proof.
  intros IH. unfold rule_spec. rewrite validate_rule_object, bind_ok_unit, check_outbound_ok. split.
  - intros [Hc Hn] t R. inversion R as [? ? Ho|? rules r ? Hr Hin Rr]; subst; [by apply Hc|].
    specialize (IH _ Hr). rewrite Hr in Hn. apply validate_rule_tags_Forall in Hn.
    rewrite Forall_forall in Hn, IH. apply (IH r Hin); [by apply Hn|done].
  - intros H. split; [intros t Ht; by apply H, references_here|].
    destruct (sbj_get (Some (SBJ_OBJECT m)) "rules") as [[| | | | | |rules|]|] eqn:Hr; try done.
    apply validate_rule_tags_Forall, Forall_forall. intros r Hin. specialize (IH _ eq_refl).
    rewrite Forall_forall in IH. apply (IH r Hin). intros t R. apply H. by eapply references_nested.
Qed.

Lemma validate_rule_ok allowed rule : rule_spec allowed rule.
Proof.
  enough (H : rule_spec allowed rule /\ forall l, rule = SBJ_ARRAY l -> Forall (rule_spec allowed) l) by apply H.
  induction rule as [| | | | | |l IH|m IH] using sbj_ind;
    try (split; [split; [intros _ t R; by inversion R|done]|]); try done.
  - intros ? [= <-]. apply Forall_forall. intros r Hr. rewrite Forall_forall in IH. by apply IH.
  - split; [|done]. apply rule_spec_object. intros rules [k Hk]%sbj_getn_In.
    rewrite Forall_forall in IH. by apply (IH _ Hk).
Qed.

(** Rule validation is exact.  [validate_rule_tags] accepts a list of rules
    exactly when every outbound tag that one of them, or a rule nested in it at
    any depth, refers to is allowed. *)
Theorem validate_rule_tags_exact rules allowed :
  validate_rule_tags rules allowed = Ok tt <->
  forall r t, r ∈ rules -> references r t -> sbj_getn (Some allowed) t <> None.
Proof.
  rewrite validate_rule_tags_Forall, Forall_forall. split.
  - intros H r t Hr. by apply validate_rule_ok, H.
  - intros H r Hr. apply validate_rule_ok. intros t. by apply H.
Qed.

(** ** The selector tag *)

Fixpoint groups (n : nat) (tag : string) : string :=
  match n with O => tag | S n' => groups n' (tag +:+ " group")%string end.

Lemma groups_snoc n tag : groups (S n) tag = (groups n tag +:+ " group")%string.
Proof. revert tag. induction n as [|n IH]; intros tag; [done|]. cbn [groups] in *. by rewrite IH. Qed.

Lemma string_length_app a b : String.length (a +:+ b) = (String.length a + String.length b)%nat.
Proof. induction a as [|c a IH]; [done|]. simpl. by f_equal. Qed.

Lemma groups_length n tag : String.length (groups n tag) = (String.length tag + 6 * n)%nat.
Proof. induction n as [|n IH]; [simpl; lia|]. rewrite groups_snoc, string_length_app, IH. simpl. lia. Qed.

(** The loop stops at the first tag of the sequence that is free. *)
Lemma selector_loop_spec fuel outbounds tag :
  match selector_tag_loop fuel outbounds tag with
  | Some t => exists n, t = groups n tag /\ (n < fuel)%nat /\ outbounds_have_tag outbounds t = false /\
                forall i, (i < n)%nat -> outbounds_have_tag outbounds (groups i tag) = true
  | None => forall i, (i < fuel)%nat -> outbounds_have_tag outbounds (groups i tag) = true
  end.
Proof.
  revert tag. induction fuel as [|fuel IH]; intros tag; cbn [selector_tag_loop]; [lia|].
  destruct (outbounds_have_tag outbounds tag) eqn:E.
  - specialize (IH (tag +:+ " group")%string). destruct (selector_tag_loop _ _ _) as [t|].
    + destruct IH as (n & -> & L & F & P). exists (S n). split; [done|]. split; [lia|]. split; [done|].
      intros [|i] Hi; [done|]. apply P. lia.
    + intros [|i] Hi; [done|]. apply IH. lia.
  - exists 0%nat. split; [done|]. split; [lia|]. split; [done|]. lia.
Qed.

(** The tags of the outbounds. *)
Definition tags_of (outbounds : sbj) : list bytes :=
  omap (fun o => str_of (sbj_get (Some o) "tag")) (arr_items (Some outbounds)).

Lemma outbounds_have_tag_In outbounds tag :
  outbounds_have_tag outbounds tag = true <-> bs tag ∈ tags_of outbounds.
Proof.
  unfold outbounds_have_tag, tags_of. rewrite existsb_exists, list_elem_of_omap. split.
  - intros (o & Ho & T). exists o. split; [by apply list_elem_of_In|].
    destruct (sbj_get (Some o) "tag") as [[]|]; try done. apply bytes_eqb_eq in T. by subst.
  - intros (o & Ho & T). exists o. split; [by apply list_elem_of_In|].
    destruct (sbj_get (Some o) "tag") as [[]|]; try done. injection T as ->. apply bytes_eqb_refl.
Qed.

Lemma tags_of_length outbounds : (length (tags_of outbounds) <= sbj_arr_len (Some outbounds))%nat.
Proof. apply omap_length_le. Qed.

Lemma selector_tag_found outbounds : exists tag, selector_tag outbounds = Some tag.
Proof.
  unfold selector_tag. pose proof (selector_loop_spec (S (sbj_arr_len (Some outbounds))) outbounds "Proxy") as H.
  destruct (selector_tag_loop _ _ _); [eauto|]. exfalso.
  set (n := sbj_arr_len (Some outbounds)) in *.
  set (l := (fun i => bs (groups i "Proxy")) <$> seq 0 (S n)).
  assert (Hd : NoDup l).
  { apply NoDup_fmap_2; [|apply NoDup_seq]. intros i j Hij%bs_inj.
    apply (f_equal String.length) in Hij. rewrite !groups_length in Hij. lia. }
  assert (Hs : l ⊆+ tags_of outbounds).
  { apply NoDup_submseteq; [done|]. intros x (i & -> & Hi)%list_elem_of_fmap. apply elem_of_seq in Hi.
    apply outbounds_have_tag_In, H. lia. }
  apply submseteq_length in Hs.
  unfold l in Hs. rewrite length_fmap, length_seq in Hs. pose proof (tags_of_length outbounds). lia.
Qed.

(** The selector tag search ends and finds a free tag.  Of the candidates
    "Proxy", "Proxy group", "Proxy group group", ... it returns the first one no
    outbound uses, after at most one try per outbound and one more. *)
Theorem selector_tag_fresh outbounds :
  exists n, selector_tag outbounds = Some (groups n "Proxy") /\
    (n <= sbj_arr_len (Some outbounds))%nat /\
    outbounds_have_tag outbounds (groups n "Proxy") = false /\
    forall i, (i < n)%nat -> outbounds_have_tag outbounds (groups i "Proxy") = true.
Proof.
  destruct (selector_tag_found outbounds) as [tag E]. unfold selector_tag in *.
  pose proof (selector_loop_spec (S (sbj_arr_len (Some outbounds))) outbounds "Proxy") as H.
  rewrite E in H. destruct H as (n & -> & L & F & P). exists n. split; [done|]. split; [lia|done].
Qed.

(** ** Well-formedness and shape of built values *)

Lemma wf_int i : INT64_MIN <= i <= INT64_MAX -> sbj_wf (SBJ_INT i) = true.
Proof. intros. cbn. unfold in_range. by rewrite !leb_true by lia. Qed.

Lemma wf_set_str o k v : sbj_wf o = true -> sbj_wf (sbj_set_str o k v) = true.
Proof. intros. by apply wf_set. Qed.
Lemma wf_set_bool o k v : sbj_wf o = true -> sbj_wf (sbj_set_bool o k v) = true.
Proof. intros. by apply wf_set. Qed.

Lemma wf_value_or_null o k : sbj_wf o = true -> sbj_wf (value_or_null (Some o) k) = true.
Proof.
  intros W. unfold value_or_null. destruct (sbj_get (Some o) k) eqn:E; [|done].
  by apply wf_clone, (wf_get o k).
Qed.

Lemma wf_string_or o k fb : sbj_wf (string_or o k fb) = true.
Proof. unfold string_or. by destruct (sbj_get o k) as [[]|]. Qed.

Lemma wf_copy_if_present d o k :
  sbj_wf d = true -> sbj_wf o = true -> sbj_wf (copy_if_present d (Some o) k) = true.
Proof.
  intros Wd W. unfold copy_if_present. destruct (sbj_get (Some o) k) eqn:E; [|done].
  apply wf_set; [done|]. by apply wf_clone, (wf_get o k).
Qed.

#[export] Hint Resolve wf_set_str wf_set_bool wf_value_or_null wf_string_or wf_copy_if_present wf_clone : sb.

Lemma is_object_copy d o k : sbj_is_object (Some (copy_if_present d o k)) = sbj_is_object (Some d).
Proof. unfold copy_if_present. destruct (sbj_get o k); [|done]. apply is_object_set. Qed.

Lemma is_object_set_str d k v : sbj_is_object (Some (sbj_set_str d k v)) = sbj_is_object (Some d).
Proof. apply is_object_set. Qed.

Lemma wf_outbound_base t n : node_wf n -> sbj_wf (outbound_base t n) = true.
Proof.
  intros (Hp & _). unfold outbound_base, sbj_set_int.
  repeat apply wf_set; try done. apply wf_int. unfold INT64_MIN, INT64_MAX. lia.
Qed.

Lemma to_i32_range z : - 2 ^ 31 <= to_i32 z < 2 ^ 31.
Proof. unfold to_i32. pose proof (Z.mod_pos_bound (z + 2 ^ 31) (2 ^ 32) ltac:(lia)). lia. Qed.

Lemma value_int_range o k fb z : - 2 ^ 31 <= fb < 2 ^ 31 -> value_int o k fb = Ok z -> - 2 ^ 31 <= z < 2 ^ 31.
Proof.
  intros Hf. unfold value_int. case_if; [done|].
  destruct (sbj_get o k) as [[| b | | | | | |]|]; intros [= <-]; try done; try apply to_i32_range.
  destruct b; lia.
Qed.

Definition good_object (o : sbj) : Prop := sbj_wf o = true /\ sbj_is_object (Some o) = true.

Lemma good_set o k v : good_object o -> sbj_wf v = true -> good_object (sbj_set o k v).
Proof. intros [W O] Wv. split; [by apply wf_set|]. by rewrite is_object_set. Qed.

Lemma good_copy d o k : good_object d -> sbj_wf o = true -> good_object (copy_if_present d (Some o) k).
Proof. intros [W O] Wv. split; [by apply wf_copy_if_present|]. by rewrite is_object_copy. Qed.

Lemma good_set_str d k v : good_object d -> good_object (sbj_set_str d k v).
Proof. intros G. by apply good_set. Qed.

Lemma good_empty : good_object (SBJ_OBJECT []).
Proof. done. Qed.

Lemma good_base t n : node_wf n -> good_object (outbound_base t n).
Proof.
  intros W. split; [by apply wf_outbound_base|]. unfold outbound_base, sbj_set_int.
  by rewrite !is_object_set, is_object_set_str.
Qed.

#[export] Hint Resolve good_set good_copy good_set_str good_empty good_base : sb.

(** An outbound generated for a well-formed node is a well-formed object. *)
Lemma generate_outbound_good n o :
  node_wf n -> sb_config_generate_outbound n = Ok o -> good_object o.
Proof.
  intros W. pose proof W as (_ & Wc & _). unfold sb_config_generate_outbound. cbv zeta.
  repeat (case_if; [first [intros <-%Ok_inj; auto 12 with sb; fail | idtac]|]);
    [| |intros <-%Ok_inj; auto with sb].
  - intros (a & Ha & <-%Ok_inj)%bind_Ok. apply value_int_range in Ha; [|lia].
    assert (sbj_wf (SBJ_INT a) = true) by (apply wf_int; unfold INT64_MIN, INT64_MAX; lia).
    unfold sbj_set_int. auto 12 with sb.
  - intros <-%Ok_inj; auto 12 with sb.
Qed.

Lemma is_object_clone v : sbj_is_object (Some (sbj_clone v)) = sbj_is_object (Some v).
Proof. destruct v; try done. cbn. unfold sbj_uint. by case_if. Qed.

(** ** Node tags *)

Definition count (t : bytes) (l : list bytes) : Z := Z.of_nat (length (List.filter (bytes_eqb t) l)).

(** The tags the enabled nodes get: a repeated one carries its number. *)
Fixpoint numbered (seen tags : list bytes) : list bytes :=
  match tags with
  | [] => []
  | t :: tags' => occurrence_tag t (count t seen + 1) :: numbered (t :: seen) tags'
  end.

Definition enabled_tags (nodes : list sb_proxy_node) : list bytes :=
  map node_tag (List.filter node_enabled nodes).

(** [seen_counts] holds how often each tag was seen. *)
Definition counts_ok (seen_counts : sbj) (seen : list bytes) : Prop :=
  good_object seen_counts /\
  forall t, sbj_getn (Some seen_counts) t = if count t seen =? 0 then None else Some (SBJ_INT (count t seen)).

Lemma count_cons t s l : count t (s :: l) = (if bytes_eqb t s then 1 else 0) + count t l.
Proof. unfold count. simpl. destruct (bytes_eqb t s); simpl; lia. Qed.

Lemma count_le t l : 0 <= count t l <= Z.of_nat (length l).
Proof. induction l as [|s l IH]; [done|]. rewrite count_cons. simpl. destruct (bytes_eqb t s); lia. Qed.

Lemma next_occurrence_count sc seen t :
  counts_ok sc seen -> Z.of_nat (length seen) + 1 < 2 ^ 32 -> next_occurrence sc t = count t seen + 1.
Proof.
  intros [_ C] L. unfold next_occurrence. rewrite C. pose proof (count_le t seen).
  destruct (count t seen =? 0) eqn:E; bool_facts; [lia|]. unfold to_u32. rewrite (Z.mod_small (count t seen)), Z.mod_small by lia. done.
Qed.

Lemma counts_ok_set sc seen t :
  counts_ok sc seen -> Z.of_nat (length seen) + 1 < 2 ^ 32 ->
  counts_ok (sbj_setn sc t (Some (SBJ_INT (count t seen + 1)))) (t :: seen).
Proof.
  intros [[W O] C] L. pose proof (count_le t seen).
  assert (Wi : sbj_wf (SBJ_INT (count t seen + 1)) = true) by (apply wf_int; unfold INT64_MIN, INT64_MAX; lia).
  split; [split; [by apply wf_setn|by rewrite is_object_setn]|]. intros t'.
  rewrite sbj_getn_setn, count_cons by done. destruct (decide (t = t')) as [<- | N].
  - rewrite bytes_eqb_refl, eqb_false by lia. cbn [or_null default]. by rewrite Z.add_comm.
  - destruct (bytes_eqb t' t) eqn:E; [by apply bytes_eqb_eq in E as ->|]. rewrite Z.add_0_l. apply C.
Qed.

Definition tagged (o : sbj) (t : bytes) : Prop :=
  good_object o /\ sbj_get (Some o) "tag" = Some (SBJ_STRING t).

Lemma tagged_set o t : good_object o -> tagged (sbj_set o "tag" (SBJ_STRING t)) t.
Proof. intros [W O]. split; [by apply good_set|]. by rewrite sbj_get_set. Qed.

Lemma generate_loop_spec nodes : forall sc seen outs tags r,
  Forall node_wf nodes -> counts_ok sc seen -> Z.of_nat (length seen + length nodes) < 2 ^ 32 ->
  generate_loop nodes sc (SBJ_ARRAY outs) (SBJ_ARRAY tags) = Ok r ->
  exists new, r = (SBJ_ARRAY (outs ++ new), SBJ_ARRAY (tags ++ map SBJ_STRING (numbered seen (enabled_tags nodes)))) /\
    Forall2 tagged new (numbered seen (enabled_tags nodes)).
Proof.
  induction nodes as [|n nodes IH]; intros sc seen outs tags r HF HC HL; cbn [generate_loop].
  { intros <-%Ok_inj. exists []. rewrite !app_nil_r. split; [done|constructor]. }
  pose proof (Forall_inv HF) as Wn. apply Forall_inv_tail in HF. cbn [length] in HL. unfold enabled_tags. cbn [List.filter].
  destruct (node_enabled n) eqn:En; cbn [negb]; [|intros H; eapply IH in H; [exact H|done|done|lia]].
  intros (o & Ho & H)%bind_Ok. cbv zeta in H. rewrite (next_occurrence_count sc seen) in H by (done || lia).
  cbn [sbj_arr_push or_null default] in H. eapply IH in H; [|done|apply counts_ok_set; [done|lia]|simpl; lia].
  destruct H as (new & -> & F2). cbn [map numbered]. rewrite <- !app_assoc.
  eexists (_ :: new). split; [reflexivity|]. constructor; [|done].
  by apply tagged_set, (generate_outbound_good n).
Qed.

Lemma generate_outbounds_spec nodes v :
  Forall node_wf nodes -> Z.of_nat (length nodes) < 2 ^ 32 -> sb_config_generate_outbounds nodes = Ok v ->
  let tags := numbered [] (enabled_tags nodes) in
  exists outs, Forall2 tagged outs tags /\
    v = SBJ_ARRAY (outs ++ match tags with [] => [] | _ => [urltest_outbound (SBJ_ARRAY (map SBJ_STRING tags))] end).
Proof.
  intros HF HL. unfold sb_config_generate_outbounds. intros (r & Hr & H)%bind_Ok.
  apply (generate_loop_spec nodes _ []) in Hr as (new & -> & F2); [|done| |simpl; lia].
  2: { split; [done|]. intros t. done. }
  apply Ok_inj in H as <-. cbn [app]. exists new. split; [done|]. unfold sbj_arr_len. cbn [arr_items]. rewrite length_map.
  destruct (numbered [] (enabled_tags nodes)); simpl; [by rewrite app_nil_r|done].
Qed.

(** The outbounds are made unless a vmess node has an unusable [alter_id]. *)
Definition alter_id_ok (n : sb_proxy_node) : bool :=
  negb (sb_strn_eq (node_type n) "vmess") ||
  is_ok (value_int (Some (node_protocol_config n)) "alter_id" 0).

Lemma generate_outbound_total n : is_ok (sb_config_generate_outbound n) = alter_id_ok n.
Proof.
  unfold alter_id_ok, sb_config_generate_outbound. cbv zeta.
  destruct (sb_strn_eq (node_type n) "vmess") eqn:V.
  - unfold sb_strn_eq in *. apply bytes_eqb_eq in V. rewrite V. cbn [negb orb].
    change (bytes_eqb (bs "vmess") (bs "shadowsocks")) with false. cbn iota.
    by destruct (value_int _ _ _).
  - by repeat case_if.
Qed.

Lemma generate_loop_total nodes : forall sc outs tags,
  is_ok (generate_loop nodes sc outs tags) = forallb (fun n => negb (node_enabled n) || alter_id_ok n) nodes.
Proof.
  induction nodes as [|n nodes IH]; intros sc outs tags; [done|]. cbn [generate_loop forallb].
  destruct (node_enabled n); cbn [negb orb]; [|apply IH]. pose proof (generate_outbound_total n) as T.
  destruct (sb_config_generate_outbound n); simpl in *; rewrite <- T; [apply IH|done].
Qed.

(** The outbound list of a managed profile.  It is built exactly when every
    enabled vmess node has a numeric [alter_id]; it then has one well-formed
    outbound per enabled node, in order, a repeated tag numbered from its second
    use on, and, unless there is none, a last group "auto" that lists exactly
    those tags in that order. *)
Theorem generate_outbounds_correct nodes :
  Forall node_wf nodes -> Z.of_nat (length nodes) < 2 ^ 32 ->
  is_ok (sb_config_generate_outbounds nodes) = forallb (fun n => negb (node_enabled n) || alter_id_ok n) nodes /\
  forall v, sb_config_generate_outbounds nodes = Ok v ->
  let tags := numbered [] (enabled_tags nodes) in
  exists outs, Forall2 tagged outs tags /\
    v = SBJ_ARRAY (outs ++ match tags with [] => [] | _ => [urltest_outbound (SBJ_ARRAY (map SBJ_STRING tags))] end).
Proof.
  intros HF HL. split; [|intros v; by apply generate_outbounds_spec].
  rewrite <- (generate_loop_total nodes (SBJ_OBJECT []) (SBJ_ARRAY []) (SBJ_ARRAY [])).
  unfold sb_config_generate_outbounds. by destruct (generate_loop _ _ _ _) as [[]|].
Qed.

Lemma sample_node_wf : node_wf sample_node.
Proof. split; [simpl; lia|done]. Qed.

Lemma generate_outbounds_witness :
  is_ok (sb_config_generate_outbounds [sample_node; sample_node]) = true.
Proof.
  apply (generate_outbounds_correct [sample_node; sample_node]); [|simpl; lia].
  repeat constructor; simpl; try lia; done.
Defined.

(** ** Unique tags *)

Lemma fmt_uint_inj a b : 0 <= a -> 0 <= b -> fmt_uint a = fmt_uint b -> a = b.
Proof.
  intros Ha Hb H. rewrite <- (numeral_value _ _ (fmt_uint_numeral a Ha)), H.
  apply (numeral_value _ _ (fmt_uint_numeral b Hb)).
Qed.

Definition no_hash (t : bytes) : Prop := chr 35 ∉ t.

Lemma hash_split s1 s2 t1 t2 :
  no_hash s1 -> no_hash s2 -> s1 ++ chr 35 :: t1 = s2 ++ chr 35 :: t2 -> s1 = s2 /\ t1 = t2.
Proof.
  unfold no_hash. revert s2. induction s1 as [|c s1 IH]; intros [|d s2] N1 N2 E; simplify_eq/=; try done.
  - by destruct N2; left.
  - by destruct N1; left.
  - rewrite elem_of_cons in N1, N2. destruct (IH s2) as [-> ->]; [tauto|tauto|done|done].
Qed.

Lemma occurrence_tag_inj t s i j :
  no_hash t -> no_hash s -> 1 <= i -> 1 <= j -> occurrence_tag t i = occurrence_tag s j -> t = s /\ i = j.
Proof.
  unfold occurrence_tag. intros Nt Ns Hi Hj.
  assert (Split : forall (w : bytes) k, w ++ bs " #" ++ fmt_uint k = (w ++ [chr 32]) ++ chr 35 :: fmt_uint k)
    by (intros; by rewrite <- app_assoc).
  assert (Nsp : forall w, no_hash w -> no_hash (w ++ [chr 32])).
  { intros w Hw. unfold no_hash in *. rewrite elem_of_app. intros [?|H]; [done|].
    apply list_elem_of_singleton in H. done. }
  assert (Hash : forall w x y, no_hash w -> w = x ++ chr 35 :: y -> False).
  { intros w x y Hw ->. apply Hw. apply elem_of_app. right. left. }
  destruct (1 <? i) eqn:Ei, (1 <? j) eqn:Ej; bool_facts; rewrite ?Split, ?app_nil_r; intros E.
  - apply hash_split in E as [E1 E2]; [|by apply Nsp..]. apply fmt_uint_inj in E2; [|lia..].
    by apply app_inj_tail in E1 as [-> _].
  - exfalso. by eapply Hash; [exact Ns|].
  - exfalso. by eapply Hash; [exact Nt|].
  - split; [done|lia].
Qed.

Lemma numbered_In seen tags x :
  x ∈ numbered seen tags -> exists t k, t ∈ tags /\ count t seen < k /\ x = occurrence_tag t k.
Proof.
  revert seen. induction tags as [|t tags IH]; intros seen; cbn [numbered]; [by intros ?%elem_of_nil|].
  intros [-> | H]%elem_of_cons; [exists t, (count t seen + 1); split; [left|split; [lia|done]]|].
  destruct (IH _ H) as (t' & k & Ht & Hk & ->). exists t', k. split; [by right|]. split; [|done].
  rewrite count_cons in Hk. destruct (bytes_eqb t' t); lia.
Qed.

Lemma numbered_NoDup seen tags : Forall no_hash tags -> NoDup (numbered seen tags).
Proof.
  revert seen. induction tags as [|t tags IH]; intros seen HF; cbn [numbered]; [constructor|].
  pose proof (Forall_inv HF). apply Forall_inv_tail in HF. constructor; [|by apply IH].
  intros (t' & k & Ht & Hk & E)%numbered_In. rewrite Forall_forall in HF.
  pose proof (count_le t seen). pose proof (count_le t' (t :: seen)).
  apply occurrence_tag_inj in E as [<- <-]; [|done|by apply HF|lia|lia].
  rewrite count_cons, bytes_eqb_refl in Hk. lia.
Qed.

(** Numbering repeated tags makes them unique, as long as no node's own tag
    contains a '#': the tags in the "auto" group are then pairwise distinct. *)
Theorem node_tags_unique nodes :
  Forall no_hash (enabled_tags nodes) -> NoDup (numbered [] (enabled_tags nodes)).
Proof. apply numbered_NoDup. Qed.

Lemma node_tags_unique_witness : NoDup (numbered [] (enabled_tags [sample_node; sample_node; sample_node])).
Proof.
  apply (node_tags_unique [sample_node; sample_node; sample_node]).
  apply (bool_decide_unpack _). vm_compute. done.
Defined.

Definition tag_node (tag : string) : sb_proxy_node :=
  mk_node [] (bs tag) (bs "trojan") true (bs "h") 443 (SBJ_OBJECT []).

(** A node whose own tag looks like a generated one collides with it: nodes
    tagged "a", "a" and "a #2" produce two outbounds with the tag "a #2", and
    the group lists it twice. *)
Theorem node_tags_collide :
  exists v, sb_config_generate_outbounds [tag_node "a"; tag_node "a"; tag_node "a #2"] = Ok v /\
            tags_of v = [bs "a"; bs "a #2"; bs "a #2"; bs "auto"].
Proof. eexists. split; vm_compute; reflexivity. Qed.
