(* ===== verification/RenderProofs.v ===== *)
(** * Guarantees of the rendered configuration

    The pipeline of [sb_config_renderer_render] keeps the configuration a
    well-formed object; the server's protected rules end up first, rule scripts
    only name outbounds that exist, and the dashboard keys are removed. *)

From S2P Require Import Prelude Util Json JsonText JsonUtf8 JsonSafe JsonRound Types Script Renderer RendererProofs.

(** ** Slots of an object *)

(** [object'] is [object] except at [key], where it holds [slot]. *)
Definition slot_of (object object' : sbj) (key : string) (slot : option sbj) : Prop :=
  good_object object' /\ slot = sbj_get (Some object') key /\ (forall v, slot = Some v -> sbj_wf v = true) /\
  forall k, k <> key -> sbj_get (Some object') k = sbj_get (Some object) k.

Lemma get_set_eq o k v : good_object o -> sbj_get (Some (sbj_set o k v)) k = Some v.
Proof. intros [W O]. rewrite sbj_get_set by done. by rewrite String.eqb_refl. Qed.

Lemma get_set_ne o k v k' : good_object o -> k' <> k -> sbj_get (Some (sbj_set o k v)) k' = sbj_get (Some o) k'.
Proof. intros [W O] N. rewrite sbj_get_set by done. destruct (String.eqb_spec k k'); [congruence|done]. Qed.

Lemma slot_set o k v : good_object o -> sbj_wf v = true -> slot_of o (sbj_set o k v) k (Some v).
Proof.
  intros G W. split; [by apply good_set|]. split; [by rewrite get_set_eq|]. split; [by intros ? [= <-]|].
  intros k' N. by apply get_set_ne.
Qed.

Lemma slot_get o k : good_object o -> slot_of o o k (sbj_get (Some o) k).
Proof. intros G. split; [done|]. split; [done|]. split; [intros v; apply wf_get, G|done]. Qed.

Lemma index_or_null_slot o k o' s : good_object o -> index_or_null o k = (o', s) -> slot_of o o' k s.
Proof.
  intros G. unfold index_or_null. destruct (sbj_get (Some o) k) as [v|] eqn:E.
  - intros [<- <-]%pair_inj. rewrite <- E. by apply slot_get.
  - intros [<- <-]%pair_inj. rewrite get_set_eq by done. by apply slot_set.
Qed.

Lemma index_or_fresh_slot fresh o k o' s :
  good_object o -> sbj_wf fresh = true -> index_or_fresh fresh o k = (o', s) -> slot_of o o' k s.
Proof.
  intros G W. unfold index_or_fresh. destruct (index_or_null o k) as [o1 s1] eqn:E.
  apply index_or_null_slot in E as (G1 & E1 & W1 & N1); [|done]. case_if.
  - unfold set_get. intros [<- <-]%pair_inj. rewrite get_set_eq by done.
    destruct (slot_set o1 k fresh G1 W) as (G2 & E2 & W2 & N2). repeat split; try done; [by destruct G2..|].
    intros k' N. rewrite N2, N1 by done. done.
  - by intros [<- <-]%pair_inj.
Qed.

(** ** Stages that keep the configuration a well-formed object *)

Definition request_wf (rq : sb_render_request) : Prop :=
  sbj_wf (rq_profile rq) = true /\ Forall node_wf (rq_nodes rq) /\ Z.of_nat (length (rq_nodes rq)) < 2 ^ 32 /\
  sbj_wf (rq_host_context rq) = true /\ sbj_wf (rq_priority_route_rules rq) = true /\
  sbj_wf (rq_network_outbounds rq) = true.

Lemma wf_items_Forall a : sbj_wf a = true -> Forall (fun v => sbj_wf v = true) (arr_items (Some a)).
Proof. intros W. apply Forall_forall. intros v. by apply wf_items. Qed.

Lemma fold_push_clone l acc :
  Forall (fun v => sbj_wf v = true) l ->
  foldl (fun a o => sbj_arr_push a (Some (sbj_clone o))) (SBJ_ARRAY acc) l = SBJ_ARRAY (acc ++ l).
Proof.
  intros H. revert acc. induction H as [|x l W _ IH]; intros acc; cbn [foldl]; [by rewrite app_nil_r|].
  cbn [sbj_arr_push or_null default]. rewrite IH, sbj_clone_wf_id, <- app_assoc by done. done.
Qed.

Lemma wf_array_app l m : sbj_wf (SBJ_ARRAY (l ++ m)) = sbj_wf (SBJ_ARRAY l) && sbj_wf (SBJ_ARRAY m).
Proof. cbn. apply forallb_app. Qed.

Lemma wf_array_single x : sbj_wf (SBJ_ARRAY [x]) = sbj_wf x.
Proof. apply andb_true_r. Qed.

Lemma wf_urltest tags : sbj_wf (SBJ_ARRAY (map SBJ_STRING tags)) = true ->
  tagged (urltest_outbound (SBJ_ARRAY (map SBJ_STRING tags))) (bs "auto").
Proof.
  intros W. unfold urltest_outbound. split; [auto 10 with sb|].
  unfold sbj_set_str. rewrite !sbj_get_set by (apply good_set || apply good_set_str; auto 10 with sb).
  reflexivity.
Qed.

Lemma wf_strings tags : sbj_wf (SBJ_ARRAY (map SBJ_STRING tags)) = true.
Proof. cbn. by induction tags. Qed.

Lemma tagged_wf outs tags : Forall2 tagged outs tags -> sbj_wf (SBJ_ARRAY outs) = true.
Proof.
  intros F. apply wf_array. induction F as [|o t outs tags [[W _] _] _ IH]; constructor; done.
Qed.

Lemma generate_outbounds_wf nodes v :
  Forall node_wf nodes -> Z.of_nat (length nodes) < 2 ^ 32 -> sb_config_generate_outbounds nodes = Ok v ->
  sbj_wf v = true /\ exists l, v = SBJ_ARRAY l.
Proof.
  intros HF HL H. apply generate_outbounds_spec in H as (outs & F2 & ->); [|done..].
  split; [|eauto]. rewrite wf_array_app, (tagged_wf _ _ F2). destruct (numbered _ _) as [|t tags]; [done|].
  pose proof (wf_urltest (t :: tags) (wf_strings _)) as [[W _] _]. cbn [sbj_wf forallb] in *. by rewrite W.
Qed.

Lemma get_good o k m : sbj_wf o = true -> sbj_get (Some o) k = Some (SBJ_OBJECT m) -> good_object (SBJ_OBJECT m).
Proof. intros W E. split; [|done]. by eapply wf_get. Qed.

Lemma retarget_detour_wf target s : sbj_wf s = true -> sbj_wf (retarget_detour target s) = true.
Proof. intros W. unfold retarget_detour. case_if; [done|]. case_if; [by apply wf_set_str|done]. Qed.

Definition dns_servers (config : sbj) : list sbj :=
  arr_items (sbj_get (sbj_get (Some config) "dns") "servers").

Definition managed_target (has_auto : bool) (sel : option string) : bytes :=
  if negb has_auto then bs "direct" else match sel with Some s => bs s | None => bs "auto" end.

Lemma normalize_spec c has sel :
  good_object c ->
  let c' := normalize_managed_dns_detours c has sel in
  good_object c' /\ (forall k, k <> "dns"%string -> sbj_get (Some c') k = sbj_get (Some c) k) /\
  dns_servers c' = map (retarget_detour (managed_target has sel)) (dns_servers c).
Proof.
  intros G. unfold normalize_managed_dns_detours. cbv zeta. unfold dns_servers at 2.
  destruct (sbj_get (Some c) "dns") as [[| | | | | | |d]|] eqn:Ed;
    try (split; [done|split; [done|unfold dns_servers; by rewrite Ed]]).
  assert (Gd : good_object (SBJ_OBJECT d)) by (eapply get_good; [apply G|done]).
  destruct (index_or_null (SBJ_OBJECT d) "servers") as [dns s] eqn:Ei.
  pose proof Ei as Ei'. apply index_or_null_slot in Ei as (Gn & Es & Ws & Ns); [|done].
  assert (Hs : arr_items s = arr_items (sbj_get (Some (SBJ_OBJECT d)) "servers")).
  { unfold index_or_null in Ei'. destruct (sbj_get (Some (SBJ_OBJECT d)) "servers") eqn:E;
      apply pair_inj in Ei' as [<- <-]; [done|]. by rewrite get_set_eq. }
  assert (K : forall v, good_object v -> good_object (sbj_set c "dns" v) /\
    forall k, k <> "dns"%string -> sbj_get (Some (sbj_set c "dns" v)) k = sbj_get (Some c) k).
  { intros v Gv. split; [apply good_set; [done|apply Gv]|]. intros k N. by apply get_set_ne. }
  rewrite <- Hs. destruct s as [[| | | | | |items|]|];
    try (destruct (K dns Gn) as [K1 K2]; split; [done|split; [done|]];
      unfold dns_servers; rewrite get_set_eq, <- Es by done; done).
  set (v := sbj_set dns "servers" _). assert (Gv : good_object v).
  { apply good_set; [done|]. apply wf_array, Forall_forall. intros x (y & -> & Hy)%list_elem_of_fmap.
    apply retarget_detour_wf. by apply (wf_items (SBJ_ARRAY items)); [apply Ws|]. }
  destruct (K v Gv) as [K1 K2]. split; [done|split; [done|]].
  unfold dns_servers, v. rewrite !get_set_eq by done. done.
Qed.

Definition final_of (config : sbj) : option sbj := sbj_get (sbj_get (Some config) "route") "final".

(** Where [route.final] points after the groups are known. *)
Definition final_target (has_auto : bool) (sel : option string) (final : option sbj) : option sbj :=
  if negb (sbj_is_string final) then final
  else if negb has_auto then Some (SBJ_STRING (bs "direct"))
  else
    let legacy := sbj_string_is final "Proxy" || sbj_string_is final "Auto" in
    match sel with
    | Some s => if legacy || sbj_string_is final "auto" then Some (SBJ_STRING (cstr (bs s))) else final
    | None => if legacy then Some (SBJ_STRING (bs "auto")) else final
    end.

Lemma retarget_final_spec c has sel :
  good_object c ->
  let c' := retarget_final c has sel in
  good_object c' /\ (forall k, k <> "route"%string -> sbj_get (Some c') k = sbj_get (Some c) k) /\
  final_of c' = final_target has sel (final_of c).
Proof.
  intros G. unfold retarget_final. cbv zeta. unfold final_of at 2.
  destruct (sbj_get (Some c) "route") as [[| | | | | | |r]|] eqn:Er;
    try (split; [done|split; [done|unfold final_of; rewrite Er; done]]).
  assert (Gr : good_object (SBJ_OBJECT r)) by (eapply get_good; [apply G|done]).
  set (route := SBJ_OBJECT r) in *. set (fv := sbj_get (Some route) "final").
  assert (K : forall t, let c' := sbj_set c "route" (sbj_set_str route "final" t) in
    good_object c' /\ (forall k, k <> "route"%string -> sbj_get (Some c') k = sbj_get (Some c) k) /\
    final_of c' = Some (SBJ_STRING (cstr t))).
  { intros t. cbv zeta. assert (Gs : good_object (sbj_set_str route "final" t)) by auto with sb.
    split; [apply good_set; [done|apply Gs]|]. split; [intros k N; by apply get_set_ne|].
    unfold final_of. rewrite get_set_eq by done. by apply get_set_eq. }
  assert (Keep : good_object c /\ (forall k, k <> "route"%string -> sbj_get (Some c) k = sbj_get (Some c) k) /\
    final_of c = fv) by (split; [done|split; [done|unfold final_of; by rewrite Er]]).
  unfold final_target. destruct (negb (sbj_is_string fv)); [done|]. destruct has; cbn [negb]; [|apply K].
  destruct sel as [s|]; [|by destruct (_ || _); [apply K|]].
  destruct (sbj_string_is fv "Proxy" || sbj_string_is fv "Auto"); cbn [orb]; [apply K|].
  by destruct (sbj_string_is fv "auto"); [apply K|].
Qed.

Lemma bs_app a b : bs (a +:+ b)%string = bs a ++ bs b.
Proof. induction a as [|c a IH]; [done|]. change (bs (String c a +:+ b)) with (c :: bs (a +:+ b)). by rewrite IH. Qed.

Lemma cstr_groups n : cstr (bs (groups n "Proxy")) = bs (groups n "Proxy").
Proof.
  apply cstr_no_nul. induction n as [|n IH]; [done|]. rewrite groups_snoc, bs_app, no_nul_app, IH. done.
Qed.

Lemma selector_tag_cstr outs tag : selector_tag outs = Some tag -> cstr (bs tag) = bs tag.
Proof.
  intros E. unfold selector_tag in E. pose proof (selector_loop_spec (S (sbj_arr_len (Some outs))) outs "Proxy") as H.
  rewrite E in H. destruct H as (n & -> & _). apply cstr_groups.
Qed.

Lemma tags_of_push l o t : tagged o t -> tags_of (SBJ_ARRAY (l ++ [o])) = tags_of (SBJ_ARRAY l) ++ [t].
Proof.
  intros [_ T]. unfold tags_of. cbn [arr_items]. rewrite omap_app. f_equal. cbn [omap list_omap].
  by rewrite T.
Qed.

Lemma tagged_direct : tagged direct_outbound (bs "direct").
Proof. done. Qed.

Lemma selector_members_wf outs : Forall (fun v => sbj_wf v = true) (selector_members outs).
Proof.
  apply Forall_forall. intros v (o & _ & H)%list_elem_of_omap.
  destruct (sbj_get (Some o) "tag") as [[]|]; try done. case_if_in H; [|done]. by injection H as <-.
Qed.

Lemma tagged_selector outs tag :
  cstr (bs tag) = bs tag -> tagged (selector_outbound outs tag) (bs tag).
Proof.
  intros E. assert (W : sbj_wf (SBJ_ARRAY (sbj_str (Some (bs "auto")) :: selector_members outs)) = true).
  { apply wf_array. constructor; [done|]. apply selector_members_wf. }
  unfold selector_outbound. split; [auto 10 with sb|].
  unfold sbj_set_str. rewrite E. rewrite !sbj_get_set by (repeat apply good_set; done). reflexivity.
Qed.

(** The outbounds of a managed profile with the groups added. *)
Lemma managed_outbounds_spec l (support : bool) :
  let outs := SBJ_ARRAY l in
  let has_auto := outbounds_have_tag outs "auto" in
  let outs1 := if outbounds_have_tag outs "direct" then outs else sbj_arr_push outs (Some direct_outbound) in
  let sel := if has_auto && support then selector_tag outs1 else None in
  let outs2 := match sel with
               | Some tag => sbj_arr_push outs1 (Some (selector_outbound outs1 tag))
               | None => outs1
               end in
  sbj_wf outs = true ->
  sbj_wf outs2 = true /\ (exists l2, outs2 = SBJ_ARRAY (l ++ l2)) /\
  bs "direct" ∈ tags_of outs2 /\ (has_auto = true -> bs "auto" ∈ tags_of outs2) /\
  (forall s, sel = Some s -> bs s ∈ tags_of outs2 /\ cstr (bs s) = bs s) /\
  (has_auto && support = true -> exists s, sel = Some s /\ bs s ∉ tags_of outs1).
Proof.
  cbv zeta. intros W. set (has := outbounds_have_tag (SBJ_ARRAY l) "auto").
  set (outs1 := if outbounds_have_tag _ "direct" then _ else _).
  assert (H1 : sbj_wf outs1 = true /\ (exists l1, outs1 = SBJ_ARRAY (l ++ l1)) /\ bs "direct" ∈ tags_of outs1 /\
               (has = true -> bs "auto" ∈ tags_of outs1)).
  { unfold outs1. destruct (outbounds_have_tag (SBJ_ARRAY l) "direct") eqn:E.
    - split; [done|]. split; [exists []; by rewrite app_nil_r|]. split; [by apply outbounds_have_tag_In|].
      apply outbounds_have_tag_In.
    - cbn [sbj_arr_push or_null default]. split; [by rewrite wf_array_app, W|]. split; [eauto|].
      rewrite (tags_of_push _ _ _ tagged_direct). split; [apply elem_of_app; right; left|].
      intros H%outbounds_have_tag_In. apply elem_of_app. by left. }
  clearbody outs1. destruct H1 as (W1 & [l1 ->] & D1 & A1).
  destruct (has && support) eqn:HS.
  - destruct (selector_tag_found (SBJ_ARRAY (l ++ l1))) as [tag Ht]. rewrite Ht.
    pose proof (selector_tag_cstr _ _ Ht) as Hc. pose proof (tagged_selector (SBJ_ARRAY (l ++ l1)) tag Hc) as T.
    cbn [sbj_arr_push or_null default]. rewrite (tags_of_push _ _ _ T).
    split; [rewrite wf_array_app, W1, wf_array_single; apply T|].
    split; [rewrite <- app_assoc; eauto|]. rewrite !elem_of_app. split; [by left|]. split; [intros H; left; auto|].
    split; [intros s [= <-]; split; [apply elem_of_app; right; left|done]|]. intros _. exists tag. split; [done|].
    pose proof (selector_loop_spec (S (sbj_arr_len (Some (SBJ_ARRAY (l ++ l1))))) (SBJ_ARRAY (l ++ l1)) "Proxy") as HL.
    unfold selector_tag in Ht. rewrite Ht in HL. destruct HL as (n & -> & _ & F & _).
    intros C%outbounds_have_tag_In. by rewrite F in C.
  - split; [done|]. split; [eauto|]. done.
Qed.

Lemma set_outbounds_keeps c v k :
  good_object c -> k <> "outbounds"%string ->
  sbj_get (Some (sbj_set c "outbounds" v)) k = sbj_get (Some c) k.
Proof. intros G N. by apply get_set_ne. Qed.

(** The groups DNS detours and [final] are pointed at exist among the outbounds. *)
Lemma render_managed_spec rq c c' has :
  request_wf rq -> good_object c -> render_managed rq c = Ok (c', has) ->
  good_object c' /\ exists l sel,
    sbj_get (Some c') "outbounds" = Some (SBJ_ARRAY l) /\ sbj_wf (SBJ_ARRAY l) = true /\
    managed_target has sel ∈ tags_of (SBJ_ARRAY l) /\
    (forall s, sel = Some s -> cstr (bs s) = bs s) /\
    dns_servers c' = map (retarget_detour (managed_target has sel)) (dns_servers c) /\
    final_of c' = final_target has sel (final_of c) /\
    (forall k, k ∉ ["outbounds"; "dns"; "route"]%string -> sbj_get (Some c') k = sbj_get (Some c) k).
Proof.
  intros (_ & Wn & Ln & _) G. unfold render_managed.
  intros (outs & Ho & (sup & Hs & H)%bind_Ok)%bind_Ok. apply Ok_inj in H. cbv zeta in H.
  destruct (generate_outbounds_wf _ _ Wn Ln Ho) as [Wo [l ->]].
  destruct (managed_outbounds_spec l sup Wo) as (W2 & [l2 E2] & D2 & A2 & S2 & _).
  set (hasa := outbounds_have_tag (SBJ_ARRAY l) "auto") in *.
  set (outs1 := if outbounds_have_tag _ "direct" then _ else _) in *.
  set (sel := if hasa && sup then _ else _) in *.
  set (outs2 := match sel with Some _ => _ | None => _ end) in *.
  assert (Gc : good_object (sbj_set c "outbounds" outs2)) by (by apply good_set).
  destruct (normalize_spec _ hasa sel Gc) as (Gn & Kn & Dn).
  destruct (retarget_final_spec _ hasa sel Gn) as (Gf & Kf & Ff).
  apply pair_inj in H as [<- <-]. split; [done|]. exists (l ++ l2), sel.
  rewrite Kf, Kn, get_set_eq by done. rewrite <- E2. split; [done|]. split; [done|].
  split; [|split; [intros s Hs'; by apply S2|split; [|split]]].
  - unfold managed_target. destruct hasa; cbn [negb]; [|done]. destruct sel as [s|]; [by apply S2|by apply A2].
  - unfold dns_servers at 1. rewrite Kf by done. fold (dns_servers (normalize_managed_dns_detours (sbj_set c "outbounds" outs2) hasa sel)).
    rewrite Dn. unfold dns_servers. by rewrite set_outbounds_keeps.
  - rewrite Ff. f_equal. unfold final_of. by rewrite Kn, set_outbounds_keeps.
  - intros k Hk. rewrite !elem_of_cons in Hk. rewrite Kf, Kn, set_outbounds_keeps by (done || tauto). done.
Qed.

(** ** Network outbounds *)

Lemma add_network_spec rq c c' :
  request_wf rq -> good_object c -> add_network_outbounds rq c = Ok c' ->
  good_object c' /\ (forall k, k <> "outbounds"%string -> sbj_get (Some c') k = sbj_get (Some c) k) /\
  arr_items (sbj_get (Some c') "outbounds") =
  arr_items (sbj_get (Some c) "outbounds") ++ arr_items (Some (rq_network_outbounds rq)).
Proof.
  intros (_ & _ & _ & _ & _ & Wn) G. unfold add_network_outbounds.
  destruct (0 <? sbj_arr_len _)%nat eqn:E.
  2: { intros <-%Ok_inj. apply Nat.ltb_ge in E. unfold sbj_arr_len in E.
       destruct (arr_items (Some (rq_network_outbounds rq))); [|simpl in E; lia]. by rewrite app_nil_r. }
  pose proof (wf_items_Forall _ Wn) as Fn.
  assert (K : forall l, sbj_wf (SBJ_ARRAY l) = true -> forall o, good_object o ->
    (forall k, k <> "outbounds"%string -> sbj_get (Some o) k = sbj_get (Some c) k) ->
    Ok (sbj_set o "outbounds" (foldl (fun a x => sbj_arr_push a (Some (sbj_clone x))) (SBJ_ARRAY l)
      (arr_items (Some (rq_network_outbounds rq))))) = Ok c' ->
    good_object c' /\ (forall k, k <> "outbounds"%string -> sbj_get (Some c') k = sbj_get (Some c) k) /\
    arr_items (sbj_get (Some c') "outbounds") = l ++ arr_items (Some (rq_network_outbounds rq))).
  { intros l Wl o Go Ko <-%Ok_inj. rewrite fold_push_clone by done. split; [|split].
    - apply good_set; [done|]. rewrite wf_array_app, Wl. by apply wf_array.
    - intros k N. by rewrite get_set_ne, Ko.
    - by rewrite get_set_eq. }
  unfold sbj_get_or_array, sbj_get_or.
  destruct (sbj_get (Some c) "outbounds") as [[| | | | | |l|]|] eqn:Eo; try done.
  - apply K; [|done..]. by eapply wf_get; [apply G|].
  - apply (K []); [done|by apply good_set|]. intros k N. by apply get_set_ne.
Qed.

(** ** Rule scripts *)

Definition builtin_tags : list bytes := [bs "direct"; bs "block"; bs "dns"; bs "reject"].

Definition known_tag (config : sbj) (rq : sb_render_request) (t : bytes) : Prop :=
  t ∈ builtin_tags \/ t ∈ tags_of (SBJ_ARRAY (arr_items (sbj_get (Some config) "outbounds"))) \/
  SBJ_STRING t ∈ arr_items (Some (rq_external_route_tags rq)).

Lemma allow_tag_spec a v t :
  good_object a -> good_object (allow_tag a v) /\
  (allows (allow_tag a v) t -> allows a t \/ v = Some (SBJ_STRING t)).
Proof.
  intros [W O]. unfold allow_tag. destruct v as [[| | | | |s| |]|]; try (split; [done|auto]).
  split; [split; [by apply wf_setn|by rewrite is_object_setn]|].
  unfold allows. rewrite sbj_getn_setn by done. case_decide as D; [subst; auto|auto].
Qed.

Lemma fold_allow_spec {A} (f : A -> option sbj) l : forall a t,
  good_object a ->
  let a' := foldl (fun a x => allow_tag a (f x)) a l in
  good_object a' /\ (allows a' t -> allows a t \/ exists x, x ∈ l /\ f x = Some (SBJ_STRING t)).
Proof.
  induction l as [|x l IH]; intros a t G; cbn [foldl]; [split; [done|auto]|].
  destruct (allow_tag_spec a (f x) t G) as [G1 A1]. destruct (IH _ t G1) as [G2 A2]. split; [done|].
  intros H. destruct (A2 H) as [H1 | (y & Hy & Ey)]; [|right; exists y; split; [by right|done]].
  destruct (A1 H1) as [?|E]; [by left|]. right. exists x. split; [left|done].
Qed.

Lemma allowed_tags_known c rq t : allows (allowed_tags c rq) t -> known_tag c rq t.
Proof.
  unfold allowed_tags. set (a0 := sbj_set (sbj_set (sbj_set _ _ _) _ _) _ _).
  assert (G0 : good_object a0) by done.
  destruct (fold_allow_spec (fun o => sbj_get (Some o) "tag") (arr_items (sbj_get (Some c) "outbounds")) a0 t G0)
    as [G1 A1].
  set (a1 := foldl _ a0 _) in *.
  destruct (fold_allow_spec Some (arr_items (Some (rq_external_route_tags rq))) a1 t G1) as [_ A2].
  unfold known_tag. intros H. destruct (A2 H) as [H1 | (x & Hx & [= ->])]; [|by right; right].
  destruct (A1 H1) as [H0 | (o & Ho & Eo)].
  - left. unfold allows, a0, sbj_set in H0. rewrite !sbj_getn_setn in H0 by done.
    unfold builtin_tags. rewrite !elem_of_cons. repeat case_decide; subst; auto. by destruct H0.
  - right. left. apply list_elem_of_omap. exists o. split; [done|]. by rewrite Eo.
Qed.

Definition route_rules (config : sbj) : list sbj := arr_items (sbj_get (sbj_get (Some config) "route") "rules").

Lemma route_object_spec c c' r :
  good_object c -> route_object c = (c', r) ->
  good_object c' /\ good_object r /\ sbj_get (Some c') "route" = Some r /\
  (forall k, k <> "route"%string -> sbj_get (Some c') k = sbj_get (Some c) k) /\
  arr_items (sbj_get (Some r) "rules") = route_rules c.
Proof.
  intros G. unfold route_object, route_rules.
  destruct (sbj_get (Some c) "route") as [[| | | | | | |m]|] eqn:E; intros [<- <-]%pair_inj;
    try (split; [by apply good_set|split; [done|split; [by apply get_set_eq|split; [intros; by apply get_set_ne|done]]]]).
  split; [done|]. split; [by eapply get_good; [apply G|]|]. done.
Qed.

Section Script.
Context (js : quickjs) (limits : sb_script_limits).

Lemma render_rule_script_spec rq c c' :
  good_object c -> render_rule_script js limits rq c = Ok c' ->
  good_object c' /\ (forall k, k <> "route"%string -> sbj_get (Some c') k = sbj_get (Some c) k) /\
  forall r t, r ∈ route_rules c' -> references r t -> known_tag c rq t.
Proof.
  intros G. unfold render_rule_script. destruct (route_object c) as [c1 r1] eqn:Er.
  apply route_object_spec in Er as (G1 & Gr & Er & Kr & _); [|done].
  intros (rules & Hb & (u & Hv & H)%bind_Ok)%bind_Ok. destruct u. apply Ok_inj in H as <-.
  apply build_rules_ok in Hb as (out & Hc & _). apply check_rules_ok in Hc as ((Wr & _ & l & -> & _) & _).
  assert (Gs : good_object (sbj_set r1 "rules" (SBJ_ARRAY l))) by (by apply good_set).
  split; [apply good_set; [done|apply Gs]|]. split; [intros k N; by rewrite get_set_ne, Kr|].
  unfold route_rules. rewrite !get_set_eq by done. cbn [arr_items] in *. intros r t Hr R.
  apply validate_rule_tags_Forall in Hv. rewrite Forall_forall in Hv.
  assert (A : known_tag c1 rq t) by (apply allowed_tags_known; by apply (validate_rule_ok _ r); [apply Hv|]).
  unfold known_tag in *. by rewrite Kr in A.
Qed.
End Script.

(** ** Managed geo policy *)

Definition only_direct (r : sbj) : Prop := sbj_wf r = true /\ forall t, references r t -> t = bs "direct".

Lemma only_direct_rule r :
  sbj_wf r = true -> sbj_get (Some r) "outbound" = Some (SBJ_STRING (bs "direct")) ->
  sbj_get (Some r) "rules" = None -> only_direct r.
Proof.
  intros W Ho Hn. split; [done|]. intros t R.
  inversion R as [? ? Ho'|? rules x ? Hr _ _]; subst; [|by rewrite Hn in Hr].
  rewrite Ho in Ho'. by injection Ho' as <-.
Qed.

Lemma geo_rules_direct tag : tag ∈ ["geosite-private"; "geosite-cn"; "geoip-cn"]%string -> only_direct (rule_set_rule tag).
Proof.
  rewrite !elem_of_cons. intros [-> | [-> | [-> | H%elem_of_nil]]]; [..|done]; by apply only_direct_rule.
Qed.

Lemma private_rule_direct : only_direct private_ip_rule.
Proof. by apply only_direct_rule. Qed.

(** The defaults are appended; nothing that was there moves. *)
Lemma append_geo_rules_spec l v :
  append_geo_rules (SBJ_ARRAY l) = Ok v -> exists extra, v = SBJ_ARRAY (l ++ extra) /\ Forall only_direct extra.
Proof.
  unfold append_geo_rules.
  assert (P : forall extra tag, Forall only_direct extra -> tag ∈ ["geosite-private"; "geosite-cn"; "geoip-cn"]%string ->
    exists extra', push_missing (SBJ_ARRAY (l ++ extra)) tag = SBJ_ARRAY (l ++ extra') /\ Forall only_direct extra').
  { intros extra tag F Ht. unfold push_missing. case_if; [eauto|]. cbn [sbj_arr_push or_null default].
    rewrite <- app_assoc. eexists. split; [done|]. apply Forall_app_2; [done|].
    repeat constructor; by apply geo_rules_direct. }
  destruct (P [] "geosite-private"%string) as (e1 & E1 & F1); [constructor|left|]. rewrite app_nil_r in E1.
  cbv zeta. rewrite E1. intros (b & _ & H)%bind_Ok. apply Ok_inj in H as <-.
  assert (H2 : exists e2, (if b : bool then SBJ_ARRAY (l ++ e1) else sbj_arr_push (SBJ_ARRAY (l ++ e1)) (Some private_ip_rule))
    = SBJ_ARRAY (l ++ e2) /\ Forall only_direct e2).
  { destruct b; [eauto|]. cbn [sbj_arr_push or_null default]. rewrite <- app_assoc. eexists. split; [done|].
    apply Forall_app_2; [done|]. repeat constructor; apply private_rule_direct. }
  destruct H2 as (e2 & -> & F2).
  destruct (P e2 "geosite-cn"%string F2) as (e3 & -> & F3); [right; left|].
  apply P; [done|]. right. right. left.
Qed.

Lemma add_remote_wf v tag url v' :
  sbj_wf v = true -> add_remote_rule_set v tag url = Ok v' -> sbj_wf v' = true.
Proof.
  intros W. unfold add_remote_rule_set. intros (b & _ & H)%bind_Ok.
  destruct b; apply Ok_inj in H as <-; [done|]. apply wf_push; [done|]. cbn [or_null default]. auto 10 with sb.
Qed.

Lemma enable_cache_spec c :
  good_object c -> good_object (enable_cache_file c) /\
  forall k, k <> "experimental"%string -> sbj_get (Some (enable_cache_file c)) k = sbj_get (Some c) k.
Proof.
  intros G. unfold enable_cache_file.
  destruct (index_or_fresh (SBJ_OBJECT []) c "experimental") as [c1 ex] eqn:E.
  apply index_or_fresh_slot in E as (G1 & E1 & W1 & K1); [|done..].
  destruct ex as [[| | | | | | |m]|]; try done.
  assert (Gm : good_object (SBJ_OBJECT m)) by (split; [by apply W1|done]).
  destruct (index_or_fresh (SBJ_OBJECT []) (SBJ_OBJECT m) "cache_file") as [e2 ca] eqn:E2.
  apply index_or_fresh_slot in E2 as (G2 & E2 & W2 & _); [|done..].
  set (e3 := match ca with Some (SBJ_OBJECT _) => _ | _ => e2 end).
  assert (G3 : good_object e3).
  { unfold e3. destruct ca as [[| | | | | | |x]|]; try done. apply good_set; [done|]. apply wf_set_bool. by apply W2. }
  split; [apply good_set; [done|apply G3]|]. intros k N. by rewrite get_set_ne, K1.
Qed.

Lemma index_or_fresh_items o k o' s :
  good_object o -> index_or_fresh (SBJ_ARRAY []) o k = (o', s) -> arr_items s = arr_items (sbj_get (Some o) k).
Proof.
  intros G. unfold index_or_fresh, index_or_null.
  destruct (sbj_get (Some o) k) as [v|] eqn:E.
  - case_if; [|by intros [<- <-]%pair_inj]. unfold set_get. intros [<- <-]%pair_inj. rewrite get_set_eq by done.
    by destruct v.
  - rewrite get_set_eq by done. cbn [sbj_is_null]. unfold set_get. intros [<- <-]%pair_inj.
    rewrite get_set_eq by (by apply good_set). done.
Qed.

Lemma index_or_fresh_get o k o' s :
  good_object o -> index_or_fresh (SBJ_OBJECT []) o k = (o', s) ->
  forall k', sbj_get s k' = sbj_get (sbj_get (Some o) k) k'.
Proof.
  intros G. unfold index_or_fresh, index_or_null. destruct (sbj_get (Some o) k) as [v|] eqn:E.
  - case_if; [|by intros [_ <-]%pair_inj]. unfold set_get. intros [<- <-]%pair_inj k'.
    rewrite get_set_eq by done. by destruct v.
  - rewrite get_set_eq by done. cbn [sbj_is_null]. unfold set_get. intros [<- <-]%pair_inj k'.
    by rewrite get_set_eq by (by apply good_set).
Qed.

Lemma geo_policy_spec c c' :
  good_object c -> inject_managed_geo_policy c = Ok c' ->
  good_object c' /\ (forall k, k ∉ ["route"; "experimental"]%string -> sbj_get (Some c') k = sbj_get (Some c) k) /\
  exists extra, route_rules c' = route_rules c ++ extra /\ Forall only_direct extra.
Proof.
  intros G. unfold inject_managed_geo_policy.
  destruct (index_or_fresh (SBJ_OBJECT []) c "route") as [c1 rt] eqn:E1.
  pose proof (index_or_fresh_get _ _ _ _ G E1 "rules"%string) as Hr.
  apply index_or_fresh_slot in E1 as (G1 & S1 & W1 & K1); [|done..].
  destruct rt as [[| | | | | | |r]|]; try done.
  assert (Gr : good_object (SBJ_OBJECT r)) by (split; [by apply W1|done]).
  destruct (index_or_fresh (SBJ_ARRAY []) (SBJ_OBJECT r) "rules") as [r2 ru] eqn:E2.
  pose proof (index_or_fresh_items _ _ _ _ Gr E2) as Hu. rewrite Hr in Hu.
  apply index_or_fresh_slot in E2 as (G2 & S2 & W2 & K2); [|done..].
  destruct ru as [[| | | | | |rl|]|]; try done. cbn [arr_items] in Hu. fold (route_rules c) in Hu.
  destruct (index_or_fresh (SBJ_ARRAY []) r2 "rule_set") as [r3 rs] eqn:E3.
  apply index_or_fresh_slot in E3 as (G3 & S3 & W3 & K3); [|done..].
  destruct rs as [[| | | | | |rsl|]|]; try done.
  intros (s1 & H1 & (s2 & H2 & (s3 & H3 & (rv & H4 & H)%bind_Ok)%bind_Ok)%bind_Ok)%bind_Ok.
  apply Ok_inj in H as <-. apply append_geo_rules_spec in H4 as (extra & -> & F).
  assert (Ws : sbj_wf s3 = true) by eauto using add_remote_wf.
  assert (Wr : sbj_wf (SBJ_ARRAY (rl ++ extra)) = true).
  { rewrite wf_array_app, (W2 _ eq_refl). apply wf_array. by eapply Forall_impl; [exact F|intros ? [? _]]. }
  set (rt := sbj_set (sbj_set r3 "rule_set" s3) "rules" (SBJ_ARRAY (rl ++ extra))).
  assert (Gt : good_object rt) by (apply good_set; [by apply good_set|done]).
  assert (Gc : good_object (sbj_set c1 "route" rt)) by (apply good_set; [done|apply Gt]).
  destruct (enable_cache_spec _ Gc) as [Ge Ke]. split; [done|]. split.
  - intros k Hk. rewrite !elem_of_cons in Hk. rewrite Ke, get_set_ne, K1 by (done || tauto). done.
  - exists extra. split; [|done]. unfold route_rules at 1. rewrite Ke, get_set_eq by done.
    unfold rt. rewrite get_set_eq by (by apply good_set). cbn [arr_items]. by rewrite Hu.
Qed.

(** ** Protected rules *)

Section Protect.
Context (inet_pton4 inet_pton6 : bytes -> bool).

(** The rules that must come first: the way to the control plane, then the
    rules of the request. *)
Definition protected_list (rq : sb_render_request) : list sbj :=
  match control_plane_route inet_pton4 inet_pton6 (rq_control_plane_server rq) with Some r => [r] | None => [] end ++
  arr_items (Some (rq_priority_route_rules rq)).

Lemma wf_direct_rule k v : sbj_wf (direct_rule k v) = true.
Proof. unfold direct_rule. auto with sb. Qed.

Lemma control_plane_wf s r : control_plane_route inet_pton4 inet_pton6 s = Some r -> sbj_wf r = true.
Proof.
  unfold control_plane_route. destruct (url_host s); [done|]. intros H.
  assert (E : r = if inet_pton4 (a :: l) then direct_rule "ip_cidr" ((a :: l) ++ bs "/32")
    else if inet_pton6 (a :: l) then direct_rule "ip_cidr" ((a :: l) ++ bs "/128") else direct_rule "domain" (a :: l))
    by congruence. rewrite E. repeat case_if; apply wf_direct_rule.
Qed.

Lemma protected_rules_list rq :
  request_wf rq -> protected_rules inet_pton4 inet_pton6 rq = SBJ_ARRAY (protected_list rq).
Proof.
  intros (_ & _ & _ & _ & Wp & _). unfold protected_rules, protected_list.
  pose proof (wf_items_Forall _ Wp) as F.
  destruct (control_plane_route _ _ _) as [r|]; cbn [sbj_arr_push or_null default]; by rewrite fold_push_clone.
Qed.

Lemma protected_list_wf rq : request_wf rq -> sbj_wf (SBJ_ARRAY (protected_list rq)) = true.
Proof.
  intros (_ & _ & _ & _ & Wp & _). unfold protected_list. rewrite wf_array_app. apply andb_true_iff. split.
  - destruct (control_plane_route _ _ _) eqn:E; [|done]. rewrite wf_array_single. by eapply control_plane_wf.
  - by apply wf_array, wf_items_Forall.
Qed.

Lemma insert_front_spec prot : forall front rules,
  insert_front (length prot) (length front) (SBJ_ARRAY prot) (SBJ_ARRAY (front ++ rules)) =
  SBJ_ARRAY (front ++ prot ++ rules).
Proof.
  induction prot as [|x prot IH]; intros front rules; [done|]. cbn [length insert_front].
  unfold sbj_arr_take. cbn [lookup list_lookup take drop]. unfold sbj_arr_insert.
  rewrite Nat.min_l, take_app_length, drop_app_length by (rewrite length_app; lia).
  specialize (IH (front ++ [x]) rules). rewrite length_app, Nat.add_1_r, <- !app_assoc in IH. exact IH.
Qed.

Lemma protect_route_spec rq c :
  request_wf rq -> good_object c ->
  let c' := protect_route inet_pton4 inet_pton6 rq c in
  good_object c' /\ (forall k, k <> "route"%string -> sbj_get (Some c') k = sbj_get (Some c) k) /\
  route_rules c' = protected_list rq ++ route_rules c.
Proof.
  intros Wq G. unfold protect_route. rewrite protected_rules_list by done. cbv zeta.
  pose proof (protected_list_wf rq Wq) as Wp. unfold sbj_arr_len. cbn [arr_items].
  destruct (protected_list rq) as [|p ps] eqn:Ep; [done|]. rewrite <- Ep in *.
  replace (0 <? length (protected_list rq))%nat with true by (by rewrite Ep).
  destruct (route_object c) as [c1 r1] eqn:Er.
  apply route_object_spec in Er as (G1 & Gr & Sr & Kr & Hr); [|done].
  destruct (index_or_null r1 "rules") as [r2 ru] eqn:Ei. pose proof Ei as Ei'.
  apply index_or_null_slot in Ei as (G2 & S2 & W2 & K2); [|done].
  assert (Hu : arr_items ru = route_rules c).
  { rewrite <- Hr. unfold index_or_null in Ei'. destruct (sbj_get (Some r1) "rules") eqn:E;
      apply pair_inj in Ei' as [<- <-]; [done|]. by rewrite get_set_eq. }
  assert (Hk : exists r3, match ru with
      | Some (SBJ_ARRAY l) => (r2, SBJ_ARRAY l)
      | _ => (sbj_set r2 "rules" (SBJ_ARRAY []), SBJ_ARRAY []) end = (r3, SBJ_ARRAY (route_rules c)) /\
  good_object r3 /\ sbj_wf (SBJ_ARRAY (route_rules c)) = true).
  { rewrite <- Hu. destruct ru as [[| | | | | |l|]|]; eexists; (split; [reflexivity|]); 
      try (split; [by apply good_set|done]). split; [done|by apply W2]. }
  destruct Hk as (r3 & -> & G3 & W3).
  pose proof (insert_front_spec (protected_list rq) [] (route_rules c)) as HI. cbn [app length] in HI. rewrite HI.
  assert (Gs : good_object (sbj_set r3 "rules" (SBJ_ARRAY (protected_list rq ++ route_rules c)))).
  { apply good_set; [done|]. by rewrite wf_array_app, Wp, W3. }
  split; [apply good_set; [done|apply Gs]|]. split; [intros k N; by rewrite get_set_ne, Kr|].
  unfold route_rules at 1. rewrite !get_set_eq by done. done.
Qed.
End Protect.

(** ** Clash API *)

Lemma inject_clash_spec c rq :
  good_object c -> good_object (inject_clash_api c rq) /\
  forall k, k <> "experimental"%string -> sbj_get (Some (inject_clash_api c rq)) k = sbj_get (Some c) k.
Proof.
  intros G. unfold inject_clash_api. case_if; [done|]. case_if; [done|].
  destruct (index_or_fresh (SBJ_OBJECT []) c "experimental") as [c1 ex] eqn:Ei.
  apply index_or_fresh_slot in Ei as (G1 & S1 & W1 & K1); [|done..].
  destruct ex as [[| | | | | | |m]|]; try done.
  set (api := if _ : bool then _ else _).
  assert (Wa : sbj_wf api = true) by (unfold api; case_if; done).
  assert (Gm : good_object (SBJ_OBJECT m)) by (split; [by apply W1|done]).
  assert (Gs : good_object (sbj_set (SBJ_OBJECT m) "clash_api" api)) by (by apply good_set).
  split; [apply good_set; [done|apply Gs]|]. intros k N. by rewrite get_set_ne, K1.
Qed.

Definition dashboard_keys : list string :=
  ["external_ui"; "external_ui_download_url"; "external_ui_download_detour"]%string.

Definition clash_api (config : sbj) : option sbj := sbj_get (sbj_get (Some config) "experimental") "clash_api".

Lemma del_get o k k' : good_object o ->
  sbj_get (Some (snd (sbj_del o k))) k' = if String.eqb k k' then None else sbj_get (Some o) k'.
Proof. intros [W O]. by apply sbj_get_del. Qed.

Lemma good_del o k : good_object o -> good_object (snd (sbj_del o k)).
Proof. intros [W O]. split; [by apply wf_del|by rewrite is_object_del]. Qed.

Lemma disable_dashboard_spec c :
  good_object c ->
  let c' := disable_clash_dashboard c in
  good_object c' /\ (forall k, k <> "experimental"%string -> sbj_get (Some c') k = sbj_get (Some c) k) /\
  (forall k, k ∈ dashboard_keys -> sbj_get (clash_api c') k = None) /\
  (forall k, k ∉ dashboard_keys -> sbj_get (clash_api c') k = sbj_get (clash_api c) k).
Proof.
  intros G. unfold disable_clash_dashboard. cbv zeta. unfold clash_api.
  destruct (sbj_get (Some c) "experimental") as [[| | | | | | |m]|] eqn:Ee;
    try (rewrite !Ee; done).
  destruct (sbj_get (Some (SBJ_OBJECT m)) "clash_api") as [[| | | | | | |a]|] eqn:Ea;
    try (rewrite !Ee, !Ea; done).
  assert (Gm : good_object (SBJ_OBJECT m)) by (eapply get_good; [apply G|done]).
  assert (Ga : good_object (SBJ_OBJECT a)) by (eapply get_good; [apply Gm|done]).
  set (a1 := snd (sbj_del (SBJ_OBJECT a) "external_ui")).
  set (a2 := snd (sbj_del a1 "external_ui_download_url")).
  set (a3 := snd (sbj_del a2 "external_ui_download_detour")).
  assert (G1 : good_object a1) by (by apply good_del). assert (G2 : good_object a2) by (by apply good_del).
  assert (G3 : good_object a3) by (by apply good_del).
  assert (Gs : good_object (sbj_set (SBJ_OBJECT m) "clash_api" a3)) by (apply good_set; [done|apply G3]).
  split; [apply good_set; [done|apply Gs]|]. split; [intros k N; by apply get_set_ne|].
  rewrite !get_set_eq by done. unfold dashboard_keys. unfold a3, a2, a1. split.
  - intros k. rewrite !elem_of_cons, elem_of_nil. intros [-> | [-> | [-> | []]]]; rewrite !del_get by done; done.
  - intros k. rewrite !elem_of_cons. intros N. rewrite !del_get by done.
    repeat (match goal with |- context [String.eqb ?x k] => destruct (String.eqb_spec x k); [by subst; tauto|] end). done.
Qed.
