(* ===== verification/RenderMain.v ===== *)
(** * The renderer as a whole

    Theorems on [sb_config_renderer_render]: what a rendered configuration
    guarantees and how rendering fails. *)

From S2P Require Import Prelude Util Json JsonText JsonUtf8 JsonSafe JsonRound Types Script Renderer RendererProofs RenderProofs.

(** ** Managed profiles *)

Lemma final_target_cases has sel final :
  let t := managed_target has sel in
  (forall s, sel = Some s -> cstr (bs s) = bs s) ->
  final_target has sel final = final \/ final_target has sel final = Some (SBJ_STRING t).
Proof.
  intros t Hs. unfold final_target, t, managed_target. repeat case_if; auto; destruct sel as [s|]; auto;
    repeat case_if; rewrite ?Hs by done; auto.
Qed.

Lemma final_target_legacy has sel final :
  (forall s, sel = Some s -> cstr (bs s) = bs s) ->
  sbj_string_is final "Proxy" || sbj_string_is final "Auto" = true ->
  final_target has sel final = Some (SBJ_STRING (managed_target has sel)).
Proof.
  intros Hs L. unfold final_target, managed_target. destruct (sbj_is_string final) eqn:E; cbn [negb].
  - destruct has; cbn [negb]; [|done]. rewrite L. cbn [orb]. destruct sel as [s|]; [|done]. by rewrite Hs.
  - by destruct final as [[]|].
Qed.

(** In a managed profile the group that DNS detours and [route.final] are
    pointed at exists.  There is one target tag, the tag of an outbound of the
    rendered configuration; every DNS server that used the legacy groups "Proxy"
    or "Auto" is redirected to it, and so is a legacy [final]; any other change
    of [final] is to that target. *)
Theorem managed_groups_resolve rq c c' has :
  request_wf rq -> good_object c -> render_managed rq c = Ok (c', has) ->
  exists l target,
    sbj_get (Some c') "outbounds" = Some (SBJ_ARRAY l) /\ target ∈ tags_of (SBJ_ARRAY l) /\
    dns_servers c' = map (retarget_detour target) (dns_servers c) /\
    (final_of c' = final_of c \/ final_of c' = Some (SBJ_STRING target)) /\
    (sbj_string_is (final_of c) "Proxy" || sbj_string_is (final_of c) "Auto" = true ->
     final_of c' = Some (SBJ_STRING target)).
Proof.
  intros Wq G H. destruct (render_managed_spec _ _ _ _ Wq G H) as (_ & l & sel & Ho & _ & Ht & Hs & Hd & Hf & _).
  exists l, (managed_target has sel). rewrite Hf. split; [done|]. split; [done|]. split; [done|]. split.
  - by apply final_target_cases.
  - by apply final_target_legacy.
Qed.

Definition sample_request : sb_render_request :=
  mk_request SB_PROFILE_MANAGED
    (SBJ_OBJECT [(bs "dns", SBJ_OBJECT [(bs "servers", SBJ_ARRAY [SBJ_OBJECT [(bs "detour", SBJ_STRING (bs "Proxy"))]])]);
                 (bs "route", SBJ_OBJECT [(bs "final", SBJ_STRING (bs "Auto"))])])
    [sample_node; sample_node]
    (SBJ_OBJECT [(bs "capabilities", SBJ_OBJECT [(bs "platform", SBJ_STRING (bs "android"))])])
    (SBJ_ARRAY []) (SBJ_ARRAY [SBJ_OBJECT [(bs "outbound", SBJ_STRING (bs "x"))]]) (SBJ_ARRAY [])
    (bs "https://panel.example:8443/api") (Some (bs "function buildRules() {}")) (bs "127.0.0.1:9090") (bs "s").

Lemma sample_request_wf : request_wf sample_request.
Proof.
  split; [done|]. split; [repeat constructor; simpl; try lia; done|]. split; [simpl; lia|]. repeat split.
Defined.

Lemma managed_groups_resolve_witness :
  exists l target, sbj_get (Some match render_managed sample_request (rq_profile sample_request) with
                                 | Ok (c, _) => c | Err _ => SBJ_NULL end) "outbounds" = Some (SBJ_ARRAY l) /\
                   target ∈ tags_of (SBJ_ARRAY l).
Proof.
  destruct (managed_groups_resolve sample_request (rq_profile sample_request)
    match render_managed sample_request (rq_profile sample_request) with Ok (c, _) => c | Err _ => SBJ_NULL end true)
    as (l & t & H1 & H2 & _); [exact sample_request_wf|split; reflexivity|vm_compute; reflexivity|].
  exists l, t. split; [exact H1|exact H2].
Defined.

Section Main.
Context (js : quickjs) (limits : sb_script_limits) (inet_pton4 inet_pton6 : bytes -> bool).

Definition has_script (rq : sb_render_request) : bool := (0 <? length (default [] (rq_rule_script rq)))%nat.

(** What every rendered configuration satisfies. *)
Record rendered (rq : sb_render_request) (c : sbj) : Prop := {
  rendered_good : good_object c;
  rendered_rules : exists rest,
    route_rules c = protected_list inet_pton4 inet_pton6 rq ++ rest /\
    (has_script rq = true -> forall r t, r ∈ rest -> references r t -> known_tag c rq t);
  rendered_dashboard : forall k, k ∈ dashboard_keys -> sbj_get (clash_api c) k = None }.

Lemma known_tag_ext c c' rq t :
  sbj_get (Some c') "outbounds" = sbj_get (Some c) "outbounds" -> known_tag c rq t -> known_tag c' rq t.
Proof. unfold known_tag. by intros ->. Qed.

(** The stages up to the protected rules. *)
Lemma stages_good rq c1 has c2 c3 c4 :
  request_wf rq -> good_object c1 ->
  add_network_outbounds rq c1 = Ok c2 ->
  (if has_script rq then render_rule_script js limits rq c2 else Ok c2) = Ok c3 ->
  (if has : bool then inject_managed_geo_policy c3 else Ok c3) = Ok c4 ->
  good_object c4 /\
  (has_script rq = true -> forall r t, r ∈ route_rules c4 -> references r t -> known_tag c4 rq t).
Proof.
  intros Wq G1 H2 H3 H4. apply add_network_spec in H2 as (G2 & _ & _); [|done..].
  assert (S3 : good_object c3 /\ (has_script rq = true ->
    forall r t, r ∈ route_rules c3 -> references r t -> known_tag c3 rq t)).
  { destruct (has_script rq); [|apply Ok_inj in H3 as <-; done].
    apply render_rule_script_spec in H3 as (G3 & K3 & R3); [|done]. split; [done|].
    intros _ r t Hr R. apply (known_tag_ext c2); [by apply K3|]. by apply (R3 r t). }
  destruct S3 as [G3 R3]. destruct has; [|apply Ok_inj in H4 as <-; done].
  apply geo_policy_spec in H4 as (G4 & K4 & extra & Er & Fx); [|done]. split; [done|].
  intros Hs r t Hr R. apply (known_tag_ext c3); [apply K4; by intros [|[|?%elem_of_nil]%elem_of_cons]%elem_of_cons|].
  rewrite Er in Hr. apply elem_of_app in Hr as [Hr | Hr]; [by apply (R3 Hs r t)|].
  rewrite Forall_forall in Fx. destruct (Fx r Hr) as [_ Ht]. rewrite (Ht t R). left. left.
Qed.

Lemma render_ok rq c :
  request_wf rq -> sb_config_renderer_render js limits inet_pton4 inet_pton6 rq = Ok c -> rendered rq c.
Proof.
  intros Wq. unfold sb_config_renderer_render. destruct (sbj_is_object (Some (rq_profile rq))) eqn:Ep; [|done].
  cbn [negb]. intros ([c1 has] & H1 & (c2 & H2 & (c3 & H3 & (c4 & H4 & H)%bind_Ok)%bind_Ok)%bind_Ok)%bind_Ok.
  apply Ok_inj in H as <-.
  assert (G0 : good_object (sbj_clone (rq_profile rq))).
  { split; [apply wf_clone, Wq|by rewrite is_object_clone]. }
  assert (G1 : good_object c1).
  { destruct (decide _); [|by apply Ok_inj, pair_inj in H1 as [<- _]].
    by apply render_managed_spec in H1 as [? _]. }
  destruct (stages_good rq c1 has c2 c3 c4 Wq G1 H2 H3 H4) as [G4 R4].
  destruct (protect_route_spec inet_pton4 inet_pton6 rq c4 Wq G4) as (G5 & K5 & R5).
  destruct (inject_clash_spec _ rq G5) as [G6 K6].
  destruct (disable_dashboard_spec _ G6) as (G7 & K7 & D7 & _). split; [done| |done].
  exists (route_rules c4). split.
  - rewrite <- R5. unfold route_rules. by rewrite K7, K6.
  - intros Hs r t Hr R. apply (known_tag_ext c4); [by rewrite K7, K6, K5|]. by apply (R4 Hs r t).
Qed.

End Main.

(** ** How rendering fails *)

(** The error kinds the renderer documents. *)
Definition render_error {A} (r : result A) : Prop :=
  match r with
  | Ok _ => True
  | Err e => err_code e ∈ [SB_ERR_VALIDATION; SB_ERR_SCRIPT; SB_ERR_GENERIC]
  end.

Lemma render_error_bind {A B} (r : result A) (f : A -> result B) :
  render_error r -> (forall a, render_error (f a)) -> render_error (r ≫= f).
Proof. destruct r; simpl; auto. Qed.

Lemma script_render_error {A} (r : result A) : script_error r -> render_error r.
Proof. destruct r; [done|]. simpl. intros ->. right. left. Qed.

(** Walks through binds and conditionals down to the failing calls. *)
Ltac render_errors :=
  repeat match goal with
  | |- render_error (Ok _) => exact I
  | |- render_error (sb_fail _ _) => unfold sb_fail, render_error; cbn [err_code]; set_solver
  | |- render_error (_ ≫= _) => apply render_error_bind; [|intro]
  | |- render_error (if ?b then _ else _) => destruct b
  | |- render_error (match ?x with _ => _ end) => destruct x
  | |- render_error (let (_, _) := ?x in _) => destruct x
  end; eauto with render.

Create HintDb render discriminated.

Lemma type_error_value_error {A} o : render_error (type_error_value (A := A) o).
Proof. unfold type_error_value. render_errors. Qed.
Lemma type_error_302_error {A} w v : render_error (type_error_302 (A := A) w v).
Proof. unfold type_error_302. render_errors. Qed.
#[export] Hint Resolve type_error_value_error type_error_302_error : render.

Lemma value_str_error o k fb : render_error (value_str o k fb).
Proof. unfold value_str. render_errors. Qed.
Lemma value_bool_error o k fb : render_error (value_bool o k fb).
Proof. unfold value_bool. render_errors. Qed.
Lemma value_int_error o k fb : render_error (value_int o k fb).
Proof. unfold value_int. render_errors. Qed.
#[export] Hint Resolve value_str_error value_bool_error value_int_error : render.

Lemma generate_outbounds_error nodes : render_error (sb_config_generate_outbounds nodes).
Proof.
  assert (L : forall sc outs tags, render_error (generate_loop nodes sc outs tags)).
  { induction nodes as [|n nodes IH]; intros; cbn [generate_loop]; [done|].
    assert (render_error (sb_config_generate_outbound n)).
    { unfold sb_config_generate_outbound. cbv zeta. render_errors. }
    render_errors. }
  unfold sb_config_generate_outbounds. render_errors.
Qed.

Lemma render_managed_error rq c : render_error (render_managed rq c).
Proof.
  pose proof (generate_outbounds_error (rq_nodes rq)). unfold render_managed.
  assert (render_error (supports_proxy_selection (rq_host_context rq))).
  { unfold supports_proxy_selection. cbv zeta. render_errors. }
  render_errors.
Qed.

Lemma validate_rule_error allowed r : render_error (validate_rule allowed r).
Proof.
  enough (H : render_error (validate_rule allowed r) /\
              forall l, r = SBJ_ARRAY l -> Forall (fun r => render_error (validate_rule allowed r)) l) by apply H.
  assert (C : forall v, render_error (check_outbound allowed v)) by (intros v; unfold check_outbound; render_errors).
  induction r as [| | | | | |l IH|m IH] using sbj_ind; try done.
  - split; [done|]. intros ? [= <-]. apply Forall_forall. intros x Hx. rewrite Forall_forall in IH. by apply IH.
  - split; [|done]. rewrite validate_rule_object. apply render_error_bind; [done|intros _].
    destruct (sbj_get _ _) as [[| | | | | |rules|]|] eqn:E; try done.
    apply sbj_getn_In in E as [k Hk]. rewrite Forall_forall in IH. destruct (IH _ Hk) as [_ F].
    specialize (F rules eq_refl). clear -F. induction F as [|x l Hx _ IHl]; cbn [validate_rule_tags]; [done|].
    by apply render_error_bind.
Qed.

Lemma validate_rule_tags_error allowed rules : render_error (validate_rule_tags rules allowed).
Proof.
  induction rules as [|r rules IH]; cbn [validate_rule_tags]; [done|].
  apply render_error_bind; [apply validate_rule_error|done].
Qed.

Lemma render_rule_script_error js limits rq c : render_error (render_rule_script js limits rq c).
Proof.
  unfold render_rule_script. destruct (route_object c) as [c1 r1].
  apply render_error_bind; [apply script_render_error, build_rules_error|intros rules].
  apply render_error_bind; [apply validate_rule_tags_error|done].
Qed.

Lemma geo_policy_error c : render_error (inject_managed_geo_policy c).
Proof.
  assert (D : forall items tag, render_error (rule_set_declared items tag)).
  { induction items as [|x items IH]; intros tag; cbn [rule_set_declared]; render_errors. }
  assert (A : forall v t u, render_error (add_remote_rule_set v t u)).
  { intros. unfold add_remote_rule_set. render_errors. }
  assert (P : forall rules, render_error (has_private_ip_rule_loop rules)).
  { induction rules as [|x rules IH]; cbn [has_private_ip_rule_loop]; render_errors. }
  assert (G : forall rules, render_error (append_geo_rules rules)).
  { intros. unfold append_geo_rules, has_private_ip_rule. cbv zeta. render_errors. }
  unfold inject_managed_geo_policy. cbv zeta. render_errors.
Qed.

Lemma add_network_error rq c : render_error (add_network_outbounds rq c).
Proof. unfold add_network_outbounds. render_errors. Qed.

#[export] Hint Resolve render_managed_error render_rule_script_error geo_policy_error add_network_error : render.

Lemma render_failure js limits inet_pton4 inet_pton6 rq e :
  sb_config_renderer_render js limits inet_pton4 inet_pton6 rq = Err e -> err_code e ∈ [SB_ERR_VALIDATION; SB_ERR_SCRIPT; SB_ERR_GENERIC].
Proof.
  intros E. enough (H : render_error (sb_config_renderer_render js limits inet_pton4 inet_pton6 rq)) by (by rewrite E in H).
  unfold sb_config_renderer_render. cbv zeta. render_errors.
Qed.

(** C1: guarantees of a rendered configuration.  Whatever the profile, the nodes
    and the script, a configuration that is rendered is a well-formed JSON
    object; its route rules begin with the control-plane rule and the request's
    priority rules; with a rule script, every other rule names only built-in
    tags, tags of outbounds in the configuration, or external tags of the
    request; the dashboard keys of the clash API are absent.  A failure is one
    of the three documented kinds. *)
Theorem render_guarantees js limits inet_pton4 inet_pton6 rq :
  request_wf rq ->
  match sb_config_renderer_render js limits inet_pton4 inet_pton6 rq with
  | Ok c => rendered inet_pton4 inet_pton6 rq c
  | Err e => err_code e ∈ [SB_ERR_VALIDATION; SB_ERR_SCRIPT; SB_ERR_GENERIC]
  end.
Proof.
  intros Wq. destruct (sb_config_renderer_render _ _ _ _ rq) as [c|e] eqn:E; [by eapply render_ok|by eapply render_failure].
Qed.

(** An interpreter whose scripts return [out]. *)
Definition constant_js (out : bytes) : quickjs := {|
  js_ctx := unit; js_value := bytes; JS_NewRuntime := true; JS_NewContext _ := Some tt;
  JS_Eval c _ _ := (c, inr tt); JS_GetFunction _ _ := Some [];
  JS_ParseJSON c b := (c, inr b); JS_Call c _ _ := (c, inr out);
  JS_JSONStringify c v := (c, inr (Some v)); JS_ToCStringLen _ v := Some v |}.

Lemma render_guarantees_witness :
  exists c, sb_config_renderer_render (constant_js (bs "[]")) sb_script_limits_default
              (fun _ => false) (fun _ => false) sample_request = Ok c /\
            rendered (fun _ => false) (fun _ => false) sample_request c.
Proof.
  pose proof (render_guarantees (constant_js (bs "[]")) sb_script_limits_default
    (fun _ => false) (fun _ => false) sample_request sample_request_wf) as H.
  eexists. split; [vm_compute; reflexivity|]. vm_compute in H |- *. exact H.
Defined.
