(* ===== verification/AgentConfig.v ===== *)
(** * Node-local configuration ([c/src/agent_config.c])

    The agent adjusts the configuration the panel rendered to its own node
    before starting sing-box, redacts credentials in the copy its local UI
    shows, and keeps its settings as JSON.  C strings taken from JSON strings
    end at their first NUL ([cstr]); JSON strings themselves may contain one. *)

From S2P Require Import Prelude Util Json JsonText.

Record sb_agent_config_options := mk_options {
  local_proxy_egress : bool;
  outbound_server_overrides : option sbj;
  outbound_overrides : option sbj;
  default_proxy_outbound : option bytes;
  local_route_rules : option sbj }.

Definition sb_agent_config_options_init : sb_agent_config_options :=
  mk_options true (Some (SBJ_OBJECT [])) (Some (SBJ_OBJECT [])) None (Some (SBJ_ARRAY [])).

Definition clone_or (fresh : sbj) (v : option sbj) : option sbj :=
  Some (match v with Some v => sbj_clone v | None => fresh end).

Definition sb_agent_config_options_copy (src : sb_agent_config_options) : sb_agent_config_options :=
  mk_options (local_proxy_egress src)
    (clone_or (SBJ_OBJECT []) (outbound_server_overrides src))
    (clone_or (SBJ_OBJECT []) (outbound_overrides src))
    (default_proxy_outbound src)
    (clone_or (SBJ_ARRAY []) (local_route_rules src)).

(** ** Redaction *)

Definition sensitive_keys : list bytes :=
  map bs ["auth_key"; "password"; "private_key"; "pre_shared_key"; "preshared_key"; "secret"; "token";
          "agent_token"; "uuid"; "authorization"]%string.

(** [strcmp] against each key of the table. *)
Definition sensitive (key : bytes) : bool := existsb (bytes_eqb (cstr key)) sensitive_keys.

Definition redacted : sbj := SBJ_STRING (bs "[redacted]").

(** The member loop: members whose key is not sensitive are visited; for each
    sensitive key [sbj_set_str] stores the mark under the C string of the key.
    The two touch different members, so the visits are written first. *)
Fixpoint sb_agent_config_redact (config : sbj) : sbj :=
  match config with
  | SBJ_ARRAY items => SBJ_ARRAY (map sb_agent_config_redact items)
  | SBJ_OBJECT m =>
      let visited := map (fun kv => (fst kv, if sensitive (fst kv) then snd kv
                                             else sb_agent_config_redact (snd kv))) m in
      foldl (fun o k => sbj_setn o (cstr k) (Some redacted)) (SBJ_OBJECT visited)
        (List.filter sensitive (map fst m))
  | _ => config
  end.

(** ** Helpers *)

Definition json_empty (v : option sbj) : bool :=
  match v with
  | None | Some SBJ_NULL => true
  | Some (SBJ_ARRAY l) => (length l =? 0)%nat
  | Some (SBJ_OBJECT m) => (length m =? 0)%nat
  | _ => false
  end.

Definition value_string (object : option sbj) (key : string) : result bytes :=
  match sbj_get object key with
  | None => Ok []
  | Some (SBJ_STRING s) => Ok (cstr s)
  | Some found =>
      sb_fail SB_ERR_GENERIC
        (bs "[json.exception.type_error.302] type must be string, but is " ++ sbj_type_name (Some found))
  end.

Definition json_equals_string (v : option sbj) (s : bytes) : bool :=
  match v with Some (SBJ_STRING t) => bytes_eqb (cstr t) s | _ => false end.

(** Every string that is, up to a NUL, a renamed tag becomes the new one. *)
Fixpoint rewrite_tag_references (renames : sbj) (value : sbj) : sbj :=
  match value with
  | SBJ_STRING s =>
      match sbj_getn (Some renames) (cstr s) with
      | Some (SBJ_STRING new) => SBJ_STRING new
      | _ => value
      end
  | SBJ_ARRAY l => SBJ_ARRAY (map (rewrite_tag_references renames) l)
  | SBJ_OBJECT m => SBJ_OBJECT (map (fun kv => (fst kv, rewrite_tag_references renames (snd kv))) m)
  | _ => value
  end.

Definition is_builtin_route (tag : bytes) : bool :=
  bytes_eqb (cstr tag) (bs "direct") || bytes_eqb (cstr tag) (bs "block") || bytes_eqb (cstr tag) (bs "wg-internal").

Definition proxy_dns_server (detour : bytes) : sbj :=
  let server := sbj_set_str (SBJ_OBJECT []) "type" (bs "https") in
  let server := sbj_set_str server "tag" (bs "proxy-dns") in
  let server := sbj_set_str server "server" (bs "1.1.1.1") in
  let server := sbj_set_int server "server_port" 443 in
  let server := sbj_set_str server "path" (bs "/dns-query") in
  let tls := sbj_set_bool (SBJ_OBJECT []) "enabled" true in
  let tls := sbj_set_str tls "server_name" (bs "cloudflare-dns.com") in
  let server := sbj_set server "tls" tls in
  sbj_set_str server "detour" detour.

Definition proxy_dns_rule : sbj :=
  let suffixes := SBJ_ARRAY (map (fun s => sbj_str (Some (bs s)))
                    ["chatgpt.com"; "openai.com"; "oaistatic.com"; "oaiusercontent.com"]%string) in
  sbj_set_str (sbj_set (SBJ_OBJECT []) "domain_suffix" suffixes) "server" (bs "proxy-dns").

(** ** One outbound *)

(** What [transform_outbound] updates besides the outbound. *)
Record transform_state := mk_state { ts_renamed : sbj; ts_changes : Z }.

Definition bump (n : Z) (st : transform_state) : transform_state := mk_state (ts_renamed st) (ts_changes st + n).

(** The override of the outbound, when there is one. *)
Definition apply_override (options : sb_agent_config_options) (original_tag : bytes) (outbound : sbj)
    (st : transform_state) : result (sbj * transform_state) :=
  match sbj_getn (outbound_overrides options) original_tag with
  | None => Ok (outbound, st)
  | Some replacement =>
      if negb (sbj_is_object (Some replacement))
      then sb_fail SB_ERR_VALIDATION (bs "outbound override for " ++ original_tag ++ bs " must be a JSON object")
      else Ok (sbj_clone replacement, bump 1 st)
  end.

(** The tag it ends up with, recorded when it is new. *)
Definition apply_tag (original_tag : bytes) (outbound : sbj) (st : transform_state) : sbj * transform_state :=
  let effective_tag := match sbj_get (Some outbound) "tag" with
                       | Some (SBJ_STRING t) => cstr t
                       | _ => original_tag
                       end in
  let st := if negb (bytes_eqb effective_tag original_tag) &&
               match sbj_getn (Some (ts_renamed st)) original_tag with Some _ => false | None => true end
            then mk_state (sbj_setn (ts_renamed st) original_tag (Some (SBJ_STRING effective_tag))) (ts_changes st)
            else st in
  (sbj_set outbound "tag" (SBJ_STRING effective_tag), st).

Definition drop_wg_detour (o : sbj) (st : transform_state) : sbj * transform_state :=
  if json_equals_string (sbj_get (Some o) "detour") (bs "wg-internal")
  then (snd (sbj_del o "detour"), bump 1 st) else (o, st).

Definition apply_server (options : sb_agent_config_options) (original_tag : bytes) (outbound : sbj)
    (st : transform_state) : sbj * transform_state :=
  match sbj_getn (outbound_server_overrides options) original_tag with
  | None => (outbound, st)
  | Some server =>
      match sbj_get (Some outbound) "server" with
      | Some current =>
          if sbj_equal (Some current) (Some server) then (outbound, st)
          else (sbj_set outbound "server" (sbj_clone server), bump 1 st)
      | None => (sbj_set outbound "server" (sbj_clone server), bump 1 st)
      end
  end.

(** The default member of the selector [route.final] names. *)
Definition apply_default (options : sb_agent_config_options) (original_route_final : option bytes)
    (original_tag : bytes) (outbound : sbj) (st : transform_state) : result (sbj * transform_state) :=
  match default_proxy_outbound options, original_route_final with
  | Some wanted, Some final =>
      if negb (bytes_eqb final original_tag) then Ok (outbound, st)
      else
        type ← value_string (Some outbound) "type";
        if negb (bytes_eqb type (bs "selector")) then Ok (outbound, st)
        else if negb (existsb (fun c => json_equals_string (Some c) (cstr wanted))
                        (arr_items (sbj_get (Some outbound) "outbounds")))
        then sb_fail SB_ERR_VALIDATION
               (bs "default proxy outbound " ++ cstr wanted ++ bs " is not in selector " ++ original_tag)
        else if json_equals_string (sbj_get (Some outbound) "default") (cstr wanted) then Ok (outbound, st)
        else Ok (sbj_set_str outbound "default" wanted, bump 1 st)
  | _, _ => Ok (outbound, st)
  end.

Definition transform_outbound (options : sb_agent_config_options) (original_route_final : option bytes)
    (outbound : sbj) (st : transform_state) : result (sbj * transform_state) :=
  match sbj_get (Some outbound) "tag" with
  | Some (SBJ_STRING t) =>
      let original_tag := cstr t in
      '(outbound, st) ← apply_override options original_tag outbound st;
      let (outbound, st) := apply_tag original_tag outbound st in
      let (outbound, st) := drop_wg_detour outbound st in
      let (outbound, st) := apply_server options original_tag outbound st in
      apply_default options original_route_final original_tag outbound st
  | _ => Ok (outbound, st)
  end.

(** ** The whole document *)

Fixpoint transform_outbounds (options : sb_agent_config_options) (final : option bytes) (items : list sbj)
    (st : transform_state) : result (list sbj * transform_state) :=
  match items with
  | [] => Ok ([], st)
  | o :: items' =>
      '(o, st) ← transform_outbound options final o st;
      '(items', st) ← transform_outbounds options final items' st;
      Ok (o :: items', st)
  end.

(** [route.final] as a C string. *)
Definition route_final (config : sbj) : option bytes :=
  match sbj_get (sbj_get (Some config) "route") "final" with Some (SBJ_STRING s) => Some (cstr s) | _ => None end.

Fixpoint drop_wg_servers (servers : list sbj) (changes : Z) : list sbj * Z :=
  match servers with
  | [] => ([], changes)
  | s :: servers' =>
      let (s, changes) :=
        if json_equals_string (sbj_get (Some s) "detour") (bs "wg-internal")
        then (snd (sbj_del s "detour"), changes + 1) else (s, changes) in
      let (servers', changes) := drop_wg_servers servers' changes in
      (s :: servers', changes)
  end.

(** [config.dns.key] when both levels are there and it is an array. *)
Definition dns_array (config : sbj) (key : string) : option (sbj * list sbj) :=
  match sbj_get (Some config) "dns" with
  | Some (SBJ_OBJECT d) =>
      match sbj_get (Some (SBJ_OBJECT d)) key with Some (SBJ_ARRAY l) => Some (SBJ_OBJECT d, l) | _ => None end
  | _ => None
  end.

Definition set_dns_array (config dns : sbj) (key : string) (l : list sbj) : sbj :=
  sbj_set config "dns" (sbj_set dns key (SBJ_ARRAY l)).

Definition drop_dns_detours (config : sbj) (changes : Z) : sbj * Z :=
  match dns_array config "servers" with
  | Some (dns, servers) =>
      let (servers, changes) := drop_wg_servers servers changes in
      (set_dns_array config dns "servers" servers, changes)
  | None => (config, changes)
  end.

(** Whether some object of the list has [key] equal to "proxy-dns". *)
Fixpoint has_proxy_dns (items : list sbj) (key : string) : result bool :=
  match items with
  | [] => Ok false
  | x :: items' =>
      if negb (sbj_is_object (Some x)) then has_proxy_dns items' key
      else
        tag ← value_string (Some x) key;
        if bytes_eqb tag (bs "proxy-dns") then Ok true else has_proxy_dns items' key
  end.

Definition inject_proxy_dns (detour : bytes) (config : sbj) (changes : Z) : result (sbj * Z) :=
  '(config, changes) ←
    match dns_array config "servers" with
    | Some (dns, servers) =>
        present ← has_proxy_dns servers "tag";
        if present : bool then Ok (config, changes)
        else Ok (set_dns_array config dns "servers" (servers ++ [proxy_dns_server detour]), changes + 1)
    | None => Ok (config, changes)
    end;
  match dns_array config "rules" with
  | Some (dns, rules) =>
      present ← has_proxy_dns rules "server";
      if present : bool then Ok (config, changes)
      else Ok (set_dns_array config dns "rules" (proxy_dns_rule :: rules), changes + 1)
  | None => Ok (config, changes)
  end.

Fixpoint insert_rules (i : nat) (local_rules : list sbj) (rules : sbj) : sbj :=
  match local_rules with
  | [] => rules
  | r :: local_rules' => insert_rules (S i) local_rules' (sbj_arr_insert rules i (Some (sbj_clone r)))
  end.

Definition prepend_local_rules (local_rules : list sbj) (config : sbj) (changes : Z) : result (sbj * Z) :=
  let config := if sbj_is_null (Some config) then SBJ_OBJECT [] else config in
  if negb (sbj_is_object (Some config))
  then sb_fail SB_ERR_GENERIC
         (bs "[json.exception.type_error.305] cannot use operator[] with a string argument with " ++
          sbj_type_name (Some config))
  else
    let (route, config) := sbj_get_or_object config "route" in
    if negb (sbj_is_object (Some route)) then sb_fail SB_ERR_VALIDATION (bs "route must be a JSON object")
    else
      let (rules, route) := sbj_get_or_array route "rules" in
      if negb (sbj_is_array (Some rules)) then sb_fail SB_ERR_VALIDATION (bs "route rules must be a JSON array")
      else Ok (sbj_set config "route" (sbj_set route "rules" (insert_rules 0 local_rules rules)), changes + 1).

(** The edits of the parsed document and how many were made. *)
Definition transform_config (options : sb_agent_config_options) (config : sbj) : result (sbj * Z) :=
  let original_route_final := route_final config in
  '(config, st) ←
    match sbj_get (Some config) "outbounds" with
    | Some (SBJ_ARRAY items) =>
        '(items, st) ← transform_outbounds options original_route_final items (mk_state (SBJ_OBJECT []) 0);
        Ok (sbj_set config "outbounds" (SBJ_ARRAY items), st)
    | _ => Ok (config, mk_state (SBJ_OBJECT []) 0)
    end;
  let changes := ts_changes st in
  let (config, changes) :=
    if (0 <? sbj_obj_len (Some (ts_renamed st)))%nat
    then (rewrite_tag_references (ts_renamed st) config, changes + 1) else (config, changes) in
  let (config, changes) := drop_dns_detours config changes in
  '(config, changes) ←
    match route_final config with
    | Some detour =>
        if local_proxy_egress options && negb (is_builtin_route detour)
        then inject_proxy_dns detour config changes else Ok (config, changes)
    | None => Ok (config, changes)
    end;
  if json_empty (local_route_rules options) then Ok (config, changes)
  else prepend_local_rules (arr_items (local_route_rules options)) config changes.

Definition sb_prepare_agent_config (body : bytes) (options : sb_agent_config_options) : result bytes :=
  let local_rules := local_route_rules options in
  if negb (local_proxy_egress options) && json_empty local_rules then Ok body
  else if match local_rules with Some _ => negb (sbj_is_array local_rules) | None => false end
  then sb_fail SB_ERR_VALIDATION (bs "local_route_rules must be a JSON array")
  else if negb (forallb (fun r => sbj_is_object (Some r)) (arr_items local_rules))
  then sb_fail SB_ERR_VALIDATION (bs "local route rules must be JSON objects")
  else match sbj_parse_msg body with
       | inl e => sb_fail SB_ERR_GENERIC e
       | inr config =>
           '(config, changes) ← transform_config options config;
           Ok (if changes =? 0 then body else sbj_dump (Some config) 2)
       end.

(** ** Settings as JSON *)

Definition sb_agent_config_options_to_json (options : sb_agent_config_options) : sbj :=
  let value := sbj_set_bool (SBJ_OBJECT []) "local_proxy_egress" (local_proxy_egress options) in
  let value := sbj_set value "default_proxy_outbound" (sbj_str (default_proxy_outbound options)) in
  let value := sbj_set value "outbound_server_overrides"
    (match outbound_server_overrides options with Some v => sbj_clone v | None => SBJ_OBJECT [] end) in
  sbj_set value "outbound_overrides"
    (match outbound_overrides options with Some v => sbj_clone v | None => SBJ_OBJECT [] end).

Definition nonempty_string (v : sbj) : bool :=
  match v with SBJ_STRING s => negb (length s =? 0)%nat | _ => false end.

Definition server_overrides_from_json (value : sbj) : result sbj :=
  match value with
  | SBJ_OBJECT m =>
      if forallb (fun kv => negb (length (cstr (fst kv)) =? 0)%nat && nonempty_string (snd kv)) m
      then Ok (sbj_clone value)
      else sb_fail SB_ERR_VALIDATION (bs "outbound_server_overrides values must be non-empty strings")
  | _ => sb_fail SB_ERR_VALIDATION (bs "outbound_server_overrides must be a JSON object")
  end.

Definition outbound_overrides_from_json (value : sbj) : result sbj :=
  match value with
  | SBJ_OBJECT m =>
      if forallb (fun kv => negb (length (cstr (fst kv)) =? 0)%nat && sbj_is_object (Some (snd kv))) m
      then Ok (sbj_clone value)
      else sb_fail SB_ERR_VALIDATION (bs "outbound_overrides values must be JSON objects")
  | _ => sb_fail SB_ERR_VALIDATION (bs "outbound_overrides must be a JSON object")
  end.

Definition sb_agent_config_options_from_json (value : option sbj) (defaults : option sb_agent_config_options)
    : result sb_agent_config_options :=
  if negb (sbj_is_object value) then sb_fail SB_ERR_VALIDATION (bs "agent settings must be a JSON object")
  else
    let o := match defaults with
             | Some d => sb_agent_config_options_copy d
             | None => sb_agent_config_options_init
             end in
    egress ← match sbj_get value "local_proxy_egress" with
             | None => Ok (local_proxy_egress o)
             | Some (SBJ_BOOL b) => Ok b
             | Some _ => sb_fail SB_ERR_VALIDATION (bs "local_proxy_egress must be a boolean")
             end;
    dflt ← match sbj_get value "default_proxy_outbound" with
           | None => Ok (default_proxy_outbound o)
           | Some SBJ_NULL => Ok None
           | Some (SBJ_STRING s) => Ok (if (length s =? 0)%nat then None else Some (cstr s))
           | Some _ => sb_fail SB_ERR_VALIDATION (bs "default_proxy_outbound must be a string or null")
           end;
    servers ← match sbj_get value "outbound_server_overrides" with
              | None => Ok (outbound_server_overrides o)
              | Some v => p ← server_overrides_from_json v; Ok (Some p)
              end;
    outs ← match sbj_get value "outbound_overrides" with
           | None => Ok (outbound_overrides o)
           | Some v => p ← outbound_overrides_from_json v; Ok (Some p)
           end;
    Ok (mk_options egress servers outs dflt (local_route_rules o)).

(** The file system as the two calls see it: what [path] holds, if it exists
    and can be read. *)
Inductive file_state := FileMissing | FileUnreadable | FileText (text : bytes).

Definition sb_agent_config_options_load (path : bytes) (file : file_state)
    (defaults : option sb_agent_config_options) : result sb_agent_config_options :=
  match file with
  | FileMissing => Ok (match defaults with
                       | Some d => sb_agent_config_options_copy d
                       | None => sb_agent_config_options_init
                       end)
  | FileUnreadable => sb_fail SB_ERR_GENERIC (bs "cannot read agent settings: " ++ cstr path)
  | FileText text =>
      match sbj_parse_msg text with
      | inl e => sb_fail SB_ERR_VALIDATION (bs "invalid agent settings " ++ cstr path ++ bs ": " ++ e)
      | inr value =>
          match sb_agent_config_options_from_json (Some value) defaults with
          | Ok o => Ok o
          | Err inner => sb_fail SB_ERR_VALIDATION (bs "invalid agent settings " ++ cstr path ++ bs ": " ++ err_msg inner)
          end
      end
  end.

(** The bytes handed to [sb_atomic_replace_file]. *)
Definition sb_agent_config_options_save (options : sb_agent_config_options) : bytes :=
  cstr (sbj_dump (Some (sb_agent_config_options_to_json options)) 2) ++ [chr 10].

(** * Redaction of credentials ([sb_agent_config_redact])

    On objects whose keys contain no NUL byte the routine replaces exactly the
    members with a sensitive key, at every depth.  A key with an embedded NUL
    escapes it, because the key is compared and stored as a C string. *)

Fixpoint keys_plain (v : sbj) : bool :=
  match v with
  | SBJ_ARRAY l => forallb keys_plain l
  | SBJ_OBJECT m => forallb (fun kv => no_nul (fst kv) && keys_plain (snd kv)) m
  | _ => true
  end.

(** The reference: one pass over the members. *)
Fixpoint redact_ref (v : sbj) : sbj :=
  match v with
  | SBJ_ARRAY l => SBJ_ARRAY (map redact_ref l)
  | SBJ_OBJECT m => SBJ_OBJECT (map (fun kv => (fst kv, if sensitive (fst kv) then redacted else redact_ref (snd kv))) m)
  | _ => v
  end.

(** [occurs v k x]: somewhere in [v] an object has the member [k : x]. *)
Inductive occurs : sbj -> bytes -> sbj -> Prop :=
  | occurs_here m k x : (k, x) ∈ m -> occurs (SBJ_OBJECT m) k x
  | occurs_member m k' y k x : (k', y) ∈ m -> occurs y k x -> occurs (SBJ_OBJECT m) k x
  | occurs_item l y k x : y ∈ l -> occurs y k x -> occurs (SBJ_ARRAY l) k x.

(** ** Storing under keys that are there *)

Definition replace_at (k : bytes) (v : sbj) (kv : bytes * sbj) : bytes * sbj :=
  (fst kv, if bytes_eqb (fst kv) k then v else snd kv).

Lemma replace_at_ne k v m : Forall (fun kv => fst kv <> k) m -> map (replace_at k v) m = m.
Proof.
  induction 1 as [|[l x] m N _ IH]; [done|]. cbn [map]. rewrite IH. unfold replace_at. cbn [fst snd] in *.
  by apply bytes_eqb_neq in N as ->.
Qed.

Lemma key_lt_ne a b : key_lt a b -> a <> b.
Proof. intros H ->. by apply key_lt_irrefl in H. Qed.

Lemma setn_existing m k v :
  obj_sorted m -> k ∈ map fst m -> sbj_setn (SBJ_OBJECT m) k (Some v) = SBJ_OBJECT (map (replace_at k v) m).
Proof.
  intros HS Hk. cbn [sbj_setn]. destruct (obj_find_spec m k HS) as [m1 w m2 -> F1 F2 | m1 m2 -> F1 F2].
  - rewrite insert_middle by done. f_equal. rewrite map_app. cbn [map].
    rewrite !replace_at_ne; [unfold replace_at; cbn [fst]; by rewrite bytes_eqb_refl| |].
    + eapply Forall_impl; [exact F2|]. intros [l x] H E. cbn in *. subst. by apply key_lt_irrefl in H.
    + eapply Forall_impl; [exact F1|]. intros [l x] H. by apply key_lt_ne.
  - exfalso. apply list_elem_of_In, in_map_iff in Hk as ([l x] & <- & Hin). apply list_elem_of_In in Hin. cbn [fst] in *.
    rewrite Forall_forall in F1, F2. apply elem_of_app in Hin as [H|H].
    + by apply F1, key_lt_irrefl in H.
    + by apply F2, key_lt_irrefl in H.
Qed.

Lemma keys_map (f : bytes * sbj -> sbj) m : map fst (map (fun kv => (fst kv, f kv)) m) = map fst m.
Proof. rewrite map_map. by apply map_ext. Qed.

Lemma obj_sorted_keys m m' : map fst m = map fst m' -> obj_sorted m -> obj_sorted m'.
Proof. unfold obj_sorted. by intros <-. Qed.

Lemma fold_setn_existing ks : forall m v,
  obj_sorted m -> (forall k, k ∈ ks -> k ∈ map fst m) ->
  foldl (fun o k => sbj_setn o k (Some v)) (SBJ_OBJECT m) ks =
  SBJ_OBJECT (map (fun kv => (fst kv, if existsb (bytes_eqb (fst kv)) ks then v else snd kv)) m).
Proof.
  induction ks as [|k ks IH]; intros m v HS Hk; cbn [foldl].
  - f_equal. symmetry. rewrite <- (map_id m) at 2. apply map_ext. by intros [].
  - rewrite setn_existing by (done || apply Hk; left). unfold replace_at.
    rewrite IH.
    + f_equal. rewrite map_map. apply map_ext. intros [l x]. cbn [fst snd existsb].
      destruct (bytes_eqb l k); cbn [orb]; [by destruct (existsb _ _)|done].
    + apply (obj_sorted_keys m); [|done]. by rewrite (keys_map (fun kv => if bytes_eqb (fst kv) k then v else snd kv)).
    + intros k' Hk'. rewrite (keys_map (fun kv => if bytes_eqb (fst kv) k then v else snd kv)). apply Hk. by right.
Qed.

Lemma redact_object m :
  obj_sorted m -> Forall (fun kv => no_nul (fst kv) = true) m ->
  sb_agent_config_redact (SBJ_OBJECT m) =
  SBJ_OBJECT (map (fun kv => (fst kv, if sensitive (fst kv) then redacted else sb_agent_config_redact (snd kv))) m).
Proof.
  intros HS HN. cbn [sb_agent_config_redact].
  set (f := fun kv : bytes * sbj => if sensitive (fst kv) then snd kv else sb_agent_config_redact (snd kv)).
  set (ks := List.filter sensitive (map fst m)).
  assert (Hc : forall k, k ∈ ks -> cstr k = k /\ k ∈ map fst m /\ sensitive k = true).
  { intros k Hk. apply list_elem_of_In, filter_In in Hk as [Hin Hs]. split; [|split; [by apply list_elem_of_In|done]].
    apply in_map_iff in Hin as (kv & <- & Hin). rewrite Forall_forall in HN.
    by apply cstr_no_nul, HN, list_elem_of_In. }
  change (map (fun kv => (fst kv, if sensitive (fst kv) then snd kv else sb_agent_config_redact (snd kv))) m)
    with (map (fun kv => (fst kv, f kv)) m).
  replace (foldl _ _ ks) with (foldl (fun o k => sbj_setn o k (Some redacted)) (SBJ_OBJECT (map (fun kv => (fst kv, f kv)) m)) ks).
  - rewrite fold_setn_existing.
    + f_equal. rewrite map_map. apply map_ext_in. intros kv Hin. cbn [fst snd]. f_equal. unfold f.
      destruct (sensitive (fst kv)) eqn:Es.
      * replace (existsb _ ks) with true; [done|]. symmetry. apply existsb_exists. exists (fst kv).
        split; [|apply bytes_eqb_refl]. apply filter_In. split; [by apply in_map|done].
      * destruct (existsb (bytes_eqb (fst kv)) ks) eqn:Ex; [|done]. exfalso.
        apply existsb_exists in Ex as (k & Hk & E%bytes_eqb_eq). subst k. apply list_elem_of_In, Hc in Hk as (_ & _ & Hk). congruence.
    + apply (obj_sorted_keys m); [by rewrite (keys_map f)|done].
    + intros k Hk. rewrite (keys_map f). by apply Hc.
  - clearbody ks. revert Hc. generalize (SBJ_OBJECT (map (fun kv => (fst kv, f kv)) m)).
    induction ks as [|k ks IH]; intros o Hc; [done|]. cbn [foldl].
    destruct (Hc k) as [-> _]; [left|]. apply IH. intros k' Hk'. apply Hc. by right.
Qed.

Lemma redact_is_ref v : sbj_wf v = true -> keys_plain v = true -> sb_agent_config_redact v = redact_ref v.
Proof.
  induction v as [| | | | | |l IH|m IH] using sbj_ind; try done.
  - intros W P. apply wf_array in W. cbn. f_equal. apply map_ext_in. intros x Hx.
    rewrite Forall_forall in IH, W. cbn in P. rewrite forallb_forall in P.
    apply IH; [by apply list_elem_of_In|by apply W, list_elem_of_In|by apply P].
  - intros W P. apply wf_object in W as [HS W]. cbn [keys_plain] in P. rewrite forallb_forall in P.
    rewrite redact_object; [|done|].
    + cbn [redact_ref]. f_equal. apply map_ext_in. intros kv Hin. f_equal. case_if; [done|].
      rewrite Forall_forall in IH, W. specialize (P kv Hin). cbv beta in P. bool_facts.
      apply IH; [by apply list_elem_of_In|by apply W, list_elem_of_In|done].
    + apply Forall_forall. intros kv Hin. apply list_elem_of_In in Hin. specialize (P kv Hin). cbv beta in P. by bool_facts.
Qed.

Lemma redact_ref_occurs v k x : occurs (redact_ref v) k x -> sensitive k = true -> x = redacted.
Proof.
  revert k x. induction v as [| | | | | |l IH|m IH] using sbj_ind; intros k x O Hs; cbn [redact_ref] in O;
    try (by inversion O).
  - inversion O as [| |? y ? ? Hy Oy]; subst. apply list_elem_of_fmap in Hy as (z & -> & Hz).
    rewrite Forall_forall in IH. by eapply IH.
  - rewrite Forall_forall in IH. inversion O as [? ? ? Hin|? k' y ? ? Hin Oy|]; subst;
      apply list_elem_of_fmap in Hin as (kv & E & Hkv); injection E as -> ->.
    + by rewrite Hs.
    + destruct (sensitive (fst kv)); [by inversion Oy|]. by eapply IH.
Qed.

(** Redaction hides every credential.  On a well-formed value whose keys
    contain no NUL, [sb_agent_config_redact] is the one-pass reference: members
    with a sensitive key become the mark, everything else is kept.  In its
    result every member with a sensitive key, at any depth, holds the mark, and
    redacting twice changes nothing more. *)
Theorem redact_hides v :
  sbj_wf v = true -> keys_plain v = true ->
  sb_agent_config_redact v = redact_ref v /\
  (forall k x, occurs (sb_agent_config_redact v) k x -> sensitive k = true -> x = redacted) /\
  redact_ref (redact_ref v) = redact_ref v.
Proof.
  intros W P. rewrite redact_is_ref by done. split; [done|]. split; [by apply redact_ref_occurs|]. clear.
  induction v as [| | | | | |l IH|m IH] using sbj_ind; try done; cbn [redact_ref]; f_equal.
  - rewrite map_map. apply map_ext_in. intros x Hx. rewrite Forall_forall in IH. by apply IH, list_elem_of_In.
  - rewrite map_map. apply map_ext_in. intros kv Hkv. cbn [fst snd]. f_equal. case_if; [done|].
    rewrite Forall_forall in IH. by apply IH, list_elem_of_In.
Qed.

Definition secret_config : sbj :=
  SBJ_OBJECT [(bs "outbounds", SBJ_ARRAY [SBJ_OBJECT [(bs "password", SBJ_STRING (bs "p"));
                                                      (bs "uuid", SBJ_STRING (bs "u"))]])].

Lemma redact_hides_witness :
  sb_agent_config_redact secret_config = redact_ref secret_config.
Proof. apply (redact_hides secret_config); reflexivity. Defined.

(** A key with an embedded NUL is not redacted.  For the member
    "password\u0000x" the mark is stored under "password", a new member, and the
    credential stays in the document shown by the local UI. *)
Theorem redact_misses_nul_key :
  let key := bs "password" ++ chr 0 :: bs "x" in
  exists v, sbj_parse ([chr 123; chr 34] ++ bs "password" ++ [chr 92] ++ bs "u0000x" ++ [chr 34; chr 58; chr 34] ++
                       bs "hunter2" ++ [chr 34; chr 125]) = Some v /\
            sbj_getn (Some (sb_agent_config_redact v)) key = Some (SBJ_STRING (bs "hunter2")) /\
            sensitive key = true.
Proof. eexists. split; [vm_compute; reflexivity|]. split; vm_compute; reflexivity. Qed.
