(* ===== verification/AgentProofs.v ===== *)
(** * Correctness of the node-local transform

    [sb_prepare_agent_config] counts its edits and hands back the original text
    when there were none: the count is shown to be exact in that direction.  The
    edited document stays well formed, local rules come first, and no DNS server
    keeps the management detour. *)

From S2P Require Import Prelude Util Json JsonText JsonUtf8 JsonSafe JsonRound Types Script Renderer RendererProofs RenderProofs AgentConfig.

(** ** Edits that change nothing *)

Lemma setn_same o k v :
  good_object o -> sbj_getn (Some o) k = Some v -> sbj_setn o k (Some v) = o.
Proof.
  intros [W O] E. destruct o as [| | | | | | |m]; try done. apply wf_object in W as [HS _].
  rewrite sbj_getn_map in E by done. destruct (sbj_setn_map m k (Some v) HS) as (m' & -> & HS' & Em). f_equal.
  apply obj_map_inj; [done..|]. rewrite Em. cbn [or_null default]. by apply insert_id.
Qed.

Lemma set_same o k v : good_object o -> sbj_get (Some o) k = Some v -> sbj_set o k v = o.
Proof. apply setn_same. Qed.

(** [st'] records at least the edits of [st]; with no more of them nothing changed. *)
Definition quiet (o o' : sbj) (st st' : transform_state) : Prop :=
  ts_changes st <= ts_changes st' /\ (ts_changes st' = ts_changes st -> o' = o /\ st' = st).

Lemma quiet_refl o st : quiet o o st st.
Proof. by split. Qed.

Lemma quiet_trans o1 o2 o3 s1 s2 s3 : quiet o1 o2 s1 s2 -> quiet o2 o3 s2 s3 -> quiet o1 o3 s1 s3.
Proof.
  intros [L1 E1] [L2 E2]. split; [lia|]. intros E. destruct E2 as [-> ->]; [lia|]. apply E1. lia.
Qed.

Lemma quiet_bump o o' st : quiet o o' st (bump 1 st).
Proof. split; cbn; lia. Qed.

#[export] Hint Resolve quiet_refl quiet_bump : sb.

Lemma drop_wg_detour_quiet o st o' st' : drop_wg_detour o st = (o', st') -> quiet o o' st st'.
Proof. unfold drop_wg_detour. case_if; intros [<- <-]%pair_inj; auto with sb. Qed.

Lemma apply_server_quiet opts t o st o' st' : apply_server opts t o st = (o', st') -> quiet o o' st st'.
Proof.
  unfold apply_server. destruct (sbj_getn _ t); [|intros [<- <-]%pair_inj; auto with sb].
  destruct (sbj_get (Some o) "server"); [case_if|]; intros [<- <-]%pair_inj; auto with sb.
Qed.

Lemma apply_default_quiet opts f t o st o' st' : apply_default opts f t o st = Ok (o', st') -> quiet o o' st st'.
Proof.
  unfold apply_default. destruct (default_proxy_outbound opts), f; try (intros [<- <-]%Ok_inj%pair_inj; auto with sb; fail).
  case_if; [intros [<- <-]%Ok_inj%pair_inj; auto with sb|]. intros (ty & _ & H)%bind_Ok.
  repeat case_if_in H; try done; apply Ok_inj, pair_inj in H as [<- <-]; auto with sb.
Qed.

(** The tag of an outbound the transform looks at contains no NUL. *)
Definition tag_plain (o : sbj) : Prop := forall t, sbj_get (Some o) "tag" = Some (SBJ_STRING t) -> no_nul t = true.

Lemma get_is_object o k v : sbj_get (Some o) k = Some v -> sbj_is_object (Some o) = true.
Proof. by destruct o. Qed.

Lemma transform_outbound_quiet opts f o st o' st' :
  sbj_wf o = true -> tag_plain o -> transform_outbound opts f o st = Ok (o', st') -> quiet o o' st st'.
Proof.
  intros W P. unfold transform_outbound.
  destruct (sbj_get (Some o) "tag") as [[| | | | |t| |]|] eqn:Et; try (intros [<- <-]%Ok_inj%pair_inj; auto with sb; fail).
  assert (G : good_object o) by (split; [done|by eapply get_is_object]).
  specialize (P t Et). apply cstr_no_nul in P. rewrite P.
  intros ([o1 s1] & Ho & H)%bind_Ok.
  destruct (apply_tag t o1 s1) as [o2 s2] eqn:E2. destruct (drop_wg_detour o2 s2) as [o3 s3] eqn:E3.
  destruct (apply_server opts t o3 s3) as [o4 s4] eqn:E4.
  assert (Q12 : quiet o o2 st s2).
  { unfold apply_override in Ho. destruct (sbj_getn (outbound_overrides opts) t) as [r|].
    - case_if_in Ho; [done|]. apply Ok_inj, pair_inj in Ho as [<- <-]. split; [|intros Eq].
      + unfold apply_tag in E2. apply pair_inj in E2 as [_ <-]. case_if; cbn; lia.
      + exfalso. unfold apply_tag in E2. apply pair_inj in E2 as [_ <-]. case_if_in Eq; cbn in Eq; lia.
    - apply Ok_inj, pair_inj in Ho as [<- <-]. unfold apply_tag in E2. rewrite Et, P, bytes_eqb_refl in E2.
      apply pair_inj in E2 as [<- <-]. rewrite set_same by done. apply quiet_refl. }
  eapply quiet_trans; [exact Q12|]. eapply quiet_trans; [by eapply drop_wg_detour_quiet|].
  eapply quiet_trans; [by eapply apply_server_quiet|]. by eapply apply_default_quiet.
Qed.

Lemma transform_outbounds_quiet opts f items : forall st items' st',
  Forall (fun o => sbj_wf o = true /\ tag_plain o) items ->
  transform_outbounds opts f items st = Ok (items', st') ->
  ts_changes st <= ts_changes st' /\ (ts_changes st' = ts_changes st -> items' = items /\ st' = st).
Proof.
  induction items as [|o items IH]; intros st items' st' HF; cbn [transform_outbounds].
  { by intros [<- <-]%Ok_inj%pair_inj. }
  pose proof (Forall_inv HF) as [Wo Po]. apply Forall_inv_tail in HF.
  intros ([o1 s1] & H1 & ([l2 s2] & H2 & [<- <-]%Ok_inj%pair_inj)%bind_Ok)%bind_Ok.
  apply transform_outbound_quiet in H1 as [L1 E1]; [|done..]. apply IH in H2 as [L2 E2]; [|done].
  split; [lia|]. intros E. destruct E2 as [-> ->]; [lia|]. destruct E1 as [-> ->]; [lia|]. done.
Qed.

Lemma drop_wg_servers_quiet l : forall n l' n',
  drop_wg_servers l n = (l', n') -> n <= n' /\ (n' = n -> l' = l).
Proof.
  induction l as [|s l IH]; intros n l' n'; cbn [drop_wg_servers]; [by intros [<- <-]%pair_inj|].
  case_if; destruct (drop_wg_servers l _) as [l2 n2] eqn:E2; intros [<- <-]%pair_inj; apply IH in E2 as [L H].
  - split; [lia|]. lia.
  - split; [lia|]. intros ->. by rewrite H.
Qed.

Lemma dns_array_spec c k d l :
  good_object c -> dns_array c k = Some (d, l) ->
  good_object d /\ sbj_get (Some c) "dns" = Some d /\ sbj_get (Some d) k = Some (SBJ_ARRAY l) /\
  sbj_wf (SBJ_ARRAY l) = true.
Proof.
  intros [W _]. unfold dns_array. destruct (sbj_get (Some c) "dns") as [[| | | | | | |m]|] eqn:Ed; try done.
  assert (Gm : good_object (SBJ_OBJECT m)) by (by eapply get_good).
  destruct (sbj_get (Some (SBJ_OBJECT m)) k) as [[| | | | | |x|]|] eqn:Ek; try done.
  intros [= <- <-]. split; [done|]. split; [done|]. split; [done|]. by eapply wf_get; [apply Gm|].
Qed.

Lemma set_dns_same c d k l :
  good_object c -> dns_array c k = Some (d, l) -> set_dns_array c d k l = c.
Proof.
  intros G H. apply dns_array_spec in H as (Gd & Ed & Ek & _); [|done]. unfold set_dns_array.
  rewrite (set_same d) by done. by rewrite set_same.
Qed.

Lemma dns_array_object c k d l : dns_array c k = Some (d, l) -> sbj_is_object (Some c) = true.
Proof. unfold dns_array. by destruct c. Qed.

Lemma drop_dns_quiet c n c' n' :
  sbj_wf c = true -> drop_dns_detours c n = (c', n') -> n <= n' /\ (n' = n -> c' = c).
Proof.
  intros W. unfold drop_dns_detours. destruct (dns_array c "servers") as [[d l]|] eqn:E; [|by intros [<- <-]%pair_inj].
  assert (G : good_object c) by (split; [done|by eapply dns_array_object]).
  destruct (drop_wg_servers l n) as [l2 n2] eqn:E2. intros [<- <-]%pair_inj. apply drop_wg_servers_quiet in E2 as [L H].
  split; [done|]. intros ->. rewrite H by done. by apply set_dns_same.
Qed.

Lemma drop_dns_mono c n c' n' : drop_dns_detours c n = (c', n') -> n <= n'.
Proof.
  unfold drop_dns_detours. destruct (dns_array c "servers") as [[d l]|]; [|intros H%pair_inj; lia].
  destruct (drop_wg_servers l n) as [l2 n2] eqn:E. apply drop_wg_servers_quiet in E. intros H%pair_inj. lia.
Qed.

Lemma inject_dns_quiet t c n c' n' : inject_proxy_dns t c n = Ok (c', n') -> n <= n' /\ (n' = n -> c' = c).
Proof.
  unfold inject_proxy_dns. intros ([c1 n1] & H1 & H2)%bind_Ok.
  assert (Q1 : n <= n1 /\ (n1 = n -> c1 = c)).
  { destruct (dns_array c "servers") as [[d l]|]; [|by apply Ok_inj, pair_inj in H1 as [<- <-]].
    apply bind_Ok in H1 as (b & _ & H1). destruct b; apply Ok_inj, pair_inj in H1 as [<- <-]; [done|lia]. }
  assert (Q2 : n1 <= n' /\ (n' = n1 -> c' = c1)).
  { destruct (dns_array c1 "rules") as [[d l]|]; [|by apply Ok_inj, pair_inj in H2 as [<- <-]].
    apply bind_Ok in H2 as (b & _ & H2). destruct b; apply Ok_inj, pair_inj in H2 as [<- <-]; [done|lia]. }
  destruct Q1 as [L1 E1], Q2 as [L2 E2]. split; [lia|]. intros E. rewrite E2 by lia. apply E1. lia.
Qed.

Lemma prepend_counts l c n c' n' : prepend_local_rules l c n = Ok (c', n') -> n' = n + 1.
Proof.
  unfold prepend_local_rules. case_if; [done|]. destruct (sbj_get_or_object _ _) as [r c1]. case_if; [done|].
  destruct (sbj_get_or_array _ _) as [ru r1]. case_if; [done|]. by intros [_ <-]%Ok_inj%pair_inj.
Qed.

(** ** The stages of the transform *)

Definition outbounds_stage (opts : sb_agent_config_options) (c : sbj) : result (sbj * transform_state) :=
  match sbj_get (Some c) "outbounds" with
  | Some (SBJ_ARRAY items) =>
      '(items, st) ← transform_outbounds opts (route_final c) items (mk_state (SBJ_OBJECT []) 0);
      Ok (sbj_set c "outbounds" (SBJ_ARRAY items), st)
  | _ => Ok (c, mk_state (SBJ_OBJECT []) 0)
  end.

Definition rename_stage (c : sbj) (st : transform_state) : sbj * Z :=
  if (0 <? sbj_obj_len (Some (ts_renamed st)))%nat
  then (rewrite_tag_references (ts_renamed st) c, ts_changes st + 1) else (c, ts_changes st).

Definition proxy_dns_stage (opts : sb_agent_config_options) (c : sbj) (n : Z) : result (sbj * Z) :=
  match route_final c with
  | Some detour =>
      if local_proxy_egress opts && negb (is_builtin_route detour) then inject_proxy_dns detour c n else Ok (c, n)
  | None => Ok (c, n)
  end.

Definition rules_stage (opts : sb_agent_config_options) (c : sbj) (n : Z) : result (sbj * Z) :=
  if json_empty (local_route_rules opts) then Ok (c, n)
  else prepend_local_rules (arr_items (local_route_rules opts)) c n.

Lemma transform_config_stages opts c c' n :
  transform_config opts c = Ok (c', n) ->
  exists c1 st c2 n2 c3 n3 c4 n4,
    outbounds_stage opts c = Ok (c1, st) /\ rename_stage c1 st = (c2, n2) /\
    drop_dns_detours c2 n2 = (c3, n3) /\ proxy_dns_stage opts c3 n3 = Ok (c4, n4) /\
    rules_stage opts c4 n4 = Ok (c', n).
Proof.
  unfold transform_config. intros ([c1 st] & H1 & H)%bind_Ok.
  change (if (0 <? sbj_obj_len (Some (ts_renamed st)))%nat
          then (rewrite_tag_references (ts_renamed st) c1, ts_changes st + 1) else (c1, ts_changes st))
    with (rename_stage c1 st) in H.
  destruct (rename_stage c1 st) as [c2 n2] eqn:H2. destruct (drop_dns_detours c2 n2) as [c3 n3] eqn:H3.
  apply bind_Ok in H as ([c4 n4] & H4 & H5). by exists c1, st, c2, n2, c3, n3, c4, n4.
Qed.

Definition tags_plain (c : sbj) : Prop := Forall tag_plain (arr_items (sbj_get (Some c) "outbounds")).

Lemma outbounds_stage_quiet opts c c1 st :
  sbj_wf c = true -> tags_plain c -> outbounds_stage opts c = Ok (c1, st) ->
  0 <= ts_changes st /\ (ts_changes st = 0 -> c1 = c /\ st = mk_state (SBJ_OBJECT []) 0).
Proof.
  intros W P. unfold outbounds_stage, tags_plain in *.
  destruct (sbj_get (Some c) "outbounds") as [[| | | | | |items|]|] eqn:E;
    try (intros [<- <-]%Ok_inj%pair_inj; done).
  assert (G : good_object c) by (split; [done|by eapply get_is_object]).
  intros ([l s] & H & [<- <-]%Ok_inj%pair_inj)%bind_Ok.
  apply transform_outbounds_quiet in H as [L H]; [|].
  - cbn in L, H. split; [done|]. intros E0. destruct (H E0) as [-> ->]. split; [by apply set_same|done].
  - apply Forall_forall. intros o Ho. cbn [arr_items] in P. rewrite Forall_forall in P. split; [|by apply P].
    apply (wf_items (SBJ_ARRAY items)); [by eapply wf_get|done].
Qed.

(** The edit counter is honest.  On a document whose outbound tags contain no
    NUL, the transform never counts below zero, and when it reports no edit the
    document is unchanged, so handing back the original text loses nothing. *)
Theorem transform_config_noop opts c c' n :
  sbj_wf c = true -> tags_plain c -> transform_config opts c = Ok (c', n) ->
  0 <= n /\ (n = 0 -> c' = c).
Proof.
  intros W P (c1 & st & c2 & n2 & c3 & n3 & c4 & n4 & H1 & H2 & H3 & H4 & H5)%transform_config_stages.
  apply outbounds_stage_quiet in H1 as [L1 E1]; [|done..].
  assert (Q2 : ts_changes st <= n2 /\ (n2 = ts_changes st -> c2 = c1)).
  { unfold rename_stage in H2. case_if_in H2; apply pair_inj in H2 as [<- <-]; [lia|done]. }
  assert (Q4 : n3 <= n4 /\ (n4 = n3 -> c4 = c3)).
  { unfold proxy_dns_stage in H4. destruct (route_final c3); [case_if_in H4|]; 
      [by eapply inject_dns_quiet|by apply Ok_inj, pair_inj in H4 as [<- <-]..]. }
  assert (Q5 : n4 <= n /\ (n = n4 -> c' = c4)).
  { unfold rules_stage in H5. case_if_in H5; [by apply Ok_inj, pair_inj in H5 as [<- <-]|].
    apply prepend_counts in H5. lia. }
  destruct Q2 as [L2 E2], Q4 as [L4 E4], Q5 as [L5 E5].
  destruct (Z.eq_dec (ts_changes st) 0) as [E0 | N0].
  - destruct (E1 E0) as [-> ->]. cbn in *. destruct (Z.eq_dec n2 0) as [-> | ?].
    + rewrite E2 in H3 by done. apply drop_dns_quiet in H3 as [L3 E3]; [|done]. split; [lia|]. intros ->.
      rewrite E5, E4, E3 by lia. done.
    + apply drop_dns_mono in H3. lia.
  - apply drop_dns_mono in H3. lia.
Qed.

Definition plain_config : sbj :=
  SBJ_OBJECT [(bs "outbounds", SBJ_ARRAY [SBJ_OBJECT [(bs "tag", SBJ_STRING (bs "a"))]])].

Lemma transform_config_noop_witness : 0 <= 0 /\ (0 = 0 -> plain_config = plain_config).
Proof.
  apply (transform_config_noop sb_agent_config_options_init plain_config plain_config 0); [reflexivity| |vm_compute; reflexivity].
  unfold tags_plain. change (arr_items _) with [SBJ_OBJECT [(bs "tag", SBJ_STRING (bs "a"))]].
  constructor; [|constructor]. intros t H. vm_compute in H. injection H as <-. reflexivity.
Defined.

(** ** The edited document *)

Definition opt_wf (v : option sbj) : Prop := forall x, v = Some x -> sbj_wf x = true.

Definition options_wf (opts : sb_agent_config_options) : Prop :=
  opt_wf (outbound_server_overrides opts) /\ opt_wf (outbound_overrides opts) /\ opt_wf (local_route_rules opts).

Lemma opt_wf_getn v k x : opt_wf v -> sbj_getn v k = Some x -> sbj_wf x = true.
Proof. intros W. destruct v as [o|]; [|done]. apply wf_getn. by apply W. Qed.

Lemma apply_override_wf opts t o st o' st' :
  options_wf opts -> sbj_wf o = true -> apply_override opts t o st = Ok (o', st') -> sbj_wf o' = true.
Proof.
  intros (_ & Wo & _) W. unfold apply_override. destruct (sbj_getn (outbound_overrides opts) t) eqn:E.
  - case_if; [done|]. intros [<- _]%Ok_inj%pair_inj. apply wf_clone. by eapply opt_wf_getn.
  - by intros [<- _]%Ok_inj%pair_inj.
Qed.

(** No outbound keeps the management detour, and it stays well formed. *)
Lemma transform_outbound_spec opts f o st o' st' :
  options_wf opts -> sbj_wf o = true -> transform_outbound opts f o st = Ok (o', st') ->
  sbj_wf o' = true /\
  (sbj_is_string (sbj_get (Some o) "tag") = true ->
   json_equals_string (sbj_get (Some o') "detour") (bs "wg-internal") = false).
Proof.
  intros Wopts W. pose proof Wopts as (Ws & _ & _). unfold transform_outbound.
  destruct (sbj_get (Some o) "tag") as [[| | | | |t| |]|] eqn:Et; try (intros [<- _]%Ok_inj%pair_inj; done).
  intros ([o1 s1] & Ho & H)%bind_Ok.
  assert (G1 : good_object o1).
  { split; [by eapply apply_override_wf|]. unfold apply_override in Ho.
    destruct (sbj_getn (outbound_overrides opts) (cstr t)) as [r|].
    - destruct (sbj_is_object (Some r)) eqn:Er; [|done]. apply Ok_inj, pair_inj in Ho as [<- _]. by rewrite is_object_clone.
    - apply Ok_inj, pair_inj in Ho as [<- _]. by eapply get_is_object. }
  unfold apply_tag in H. set (o2 := sbj_set o1 "tag" _) in H. set (s2 := if _ : bool then _ else s1) in H.
  assert (G2 : good_object o2) by (by apply good_set).
  destruct (drop_wg_detour o2 s2) as [o3 s3] eqn:E3.
  assert (S3 : good_object o3 /\ json_equals_string (sbj_get (Some o3) "detour") (bs "wg-internal") = false).
  { unfold drop_wg_detour in E3. case_if_in E3; apply pair_inj in E3 as [<- _]; [|done].
    split; [by apply good_del|]. rewrite del_get by done. done. }
  destruct S3 as [G3 D3]. destruct (apply_server opts (cstr t) o3 s3) as [o4 s4] eqn:E4.
  assert (S4 : good_object o4 /\ sbj_get (Some o4) "detour" = sbj_get (Some o3) "detour").
  { unfold apply_server in E4. destruct (sbj_getn (outbound_server_overrides opts) (cstr t)) as [v|] eqn:Ev;
      [|by apply pair_inj in E4 as [<- _]].
    assert (Wv : sbj_wf (sbj_clone v) = true) by (apply wf_clone; by eapply opt_wf_getn).
    destruct (sbj_get (Some o3) "server"); [case_if_in E4|]; apply pair_inj in E4 as [<- _];
      [done|split; [by apply good_set|by apply get_set_ne]..]. }
  destruct S4 as [G4 D4]. rewrite <- D4 in D3. clear -G4 D3 H. unfold apply_default in H.
  destruct (default_proxy_outbound opts), f; try (apply Ok_inj, pair_inj in H as [<- _]; split; [apply G4|done]).
  case_if_in H; [apply Ok_inj, pair_inj in H as [<- _]; split; [apply G4|done]|].
  apply bind_Ok in H as (ty & _ & H). repeat case_if_in H; try done; apply Ok_inj, pair_inj in H as [<- _];
    (split; [first [apply G4 | apply wf_set_str, G4]|]); intros _; [done..|].
  unfold sbj_set_str. by rewrite get_set_ne.
Qed.

Lemma transform_outbounds_wf opts f items : forall st items' st',
  options_wf opts -> sbj_wf (SBJ_ARRAY items) = true ->
  transform_outbounds opts f items st = Ok (items', st') -> sbj_wf (SBJ_ARRAY items') = true.
Proof.
  induction items as [|o items IH]; intros st items' st' Wopts W; cbn [transform_outbounds].
  { by intros [<- _]%Ok_inj%pair_inj. }
  cbn [sbj_wf forallb] in W. apply andb_true_iff in W as [Wo Wi].
  intros ([o1 s1] & H1 & ([l2 s2] & H2 & [<- _]%Ok_inj%pair_inj)%bind_Ok)%bind_Ok.
  apply transform_outbound_spec in H1 as [W1 _]; [|done..]. apply IH in H2; [|done..].
  cbn [sbj_wf forallb] in *. by rewrite W1, H2.
Qed.

Lemma rewrite_wf renames v : sbj_wf v = true -> sbj_wf (rewrite_tag_references renames v) = true.
Proof.
  induction v as [| | | | |s|l IH|m IH] using sbj_ind; try done.
  - intros _. cbn [rewrite_tag_references]. by destruct (sbj_getn (Some renames) (cstr s)) as [[]|].
  - intros W. apply wf_array in W. apply wf_array, Forall_forall. intros x (y & -> & Hy)%list_elem_of_fmap.
    rewrite Forall_forall in IH, W. auto.
  - intros W. apply wf_object in W as [HS W]. apply wf_object. split.
    + unfold obj_sorted in *. rewrite map_map. cbn [fst]. exact HS.
    + apply Forall_forall. intros x (y & -> & Hy)%list_elem_of_fmap. rewrite Forall_forall in IH, W. cbn [snd]. auto.
Qed.

Definition not_wg (server : sbj) : Prop := json_equals_string (sbj_get (Some server) "detour") (bs "wg-internal") = false.
Definition dns_clean (c : sbj) : Prop := Forall not_wg (dns_servers c).

Lemma dns_servers_array c : dns_servers c = match dns_array c "servers" with Some (_, l) => l | None => [] end.
Proof.
  unfold dns_servers, dns_array. destruct (sbj_get (Some c) "dns") as [[| | | | | | |m]|]; try done.
  by destruct (sbj_get (Some (SBJ_OBJECT m)) "servers") as [[]|].
Qed.

Lemma drop_wg_servers_spec l : forall n l' n',
  sbj_wf (SBJ_ARRAY l) = true -> drop_wg_servers l n = (l', n') -> sbj_wf (SBJ_ARRAY l') = true /\ Forall not_wg l'.
Proof.
  induction l as [|s l IH]; intros n l' n' W; cbn [drop_wg_servers]; [by intros [<- _]%pair_inj|].
  cbn [sbj_wf forallb] in W. apply andb_true_iff in W as [Ws Wl].
  destruct (json_equals_string (sbj_get (Some s) "detour") (bs "wg-internal")) eqn:E;
    destruct (drop_wg_servers l _) as [l2 n2] eqn:E2; intros [<- _]%pair_inj; apply IH in E2 as [W2 F2]; try done.
  - assert (Gs : good_object s).
    { split; [done|]. destruct (sbj_get (Some s) "detour") eqn:Ed; [by eapply get_is_object|done]. }
    split; [cbn [sbj_wf forallb] in *; by rewrite wf_del, W2|]. constructor; [|done].
    unfold not_wg. by rewrite del_get.
  - split; [cbn [sbj_wf forallb] in *; by rewrite Ws, W2|]. by constructor.
Qed.

Lemma set_dns_spec c d k l l' :
  good_object c -> dns_array c k = Some (d, l) -> sbj_wf (SBJ_ARRAY l') = true ->
  good_object (set_dns_array c d k l') /\ dns_array (set_dns_array c d k l') k <> None /\
  (k = "servers"%string -> dns_servers (set_dns_array c d k l') = l') /\
  (k <> "servers"%string -> dns_servers (set_dns_array c d k l') = dns_servers c).
Proof.
  intros G H W. apply dns_array_spec in H as (Gd & Ed & Ek & _); [|done]. unfold set_dns_array.
  assert (Gs : good_object (sbj_set d k (SBJ_ARRAY l'))) by (by apply good_set).
  split; [apply good_set; [done|apply Gs]|]. unfold dns_array, dns_servers. rewrite get_set_eq by done. split; [|split].
  - destruct (sbj_set d k (SBJ_ARRAY l')) eqn:E; try (by destruct Gs). by rewrite <- E, get_set_eq.
  - intros ->. by rewrite get_set_eq.
  - intros N. rewrite get_set_ne by congruence. by rewrite Ed.
Qed.

Lemma drop_dns_spec c n c' n' : sbj_wf c = true -> drop_dns_detours c n = (c', n') -> sbj_wf c' = true /\ dns_clean c'.
Proof.
  intros W. unfold drop_dns_detours, dns_clean. destruct (dns_array c "servers") as [[d l]|] eqn:E.
  - assert (G : good_object c) by (split; [done|by eapply dns_array_object]).
    pose proof (dns_array_spec _ _ _ _ G E) as (_ & _ & _ & Wl).
    destruct (drop_wg_servers l n) as [l2 n2] eqn:E2. apply drop_wg_servers_spec in E2 as [W2 F2]; [|done].
    intros [<- _]%pair_inj. destruct (set_dns_spec c d "servers" l l2 G E W2) as ([Wc _] & _ & S & _).
    split; [done|]. by rewrite S.
  - intros [<- _]%pair_inj. split; [done|]. by rewrite dns_servers_array, E.
Qed.

Lemma proxy_dns_server_spec t : good_object (proxy_dns_server t) /\ (bytes_eqb (cstr t) (bs "wg-internal") = false -> not_wg (proxy_dns_server t)).
Proof.
  unfold proxy_dns_server, sbj_set_int. cbv zeta. set (s := sbj_set _ "tls" _).
  assert (G : good_object s).
  { unfold s. repeat first [apply good_set | apply good_set_str]; try done; auto with sb. }
  split; [by apply good_set_str|]. intros N. unfold not_wg, sbj_set_str. rewrite get_set_eq by done.
  cbn [json_equals_string]. by rewrite cstr_idem.
Qed.

Lemma inject_dns_spec t c n c' n' :
  sbj_wf c = true -> dns_clean c -> bytes_eqb (cstr t) (bs "wg-internal") = false ->
  inject_proxy_dns t c n = Ok (c', n') -> sbj_wf c' = true /\ dns_clean c'.
Proof.
  intros W D Ht. unfold inject_proxy_dns. intros ([c1 n1] & H1 & H2)%bind_Ok.
  assert (S1 : sbj_wf c1 = true /\ dns_clean c1).
  { destruct (dns_array c "servers") as [[d l]|] eqn:E; [|by apply Ok_inj, pair_inj in H1 as [<- _]].
    assert (G : good_object c) by (split; [done|by eapply dns_array_object]).
    pose proof (dns_array_spec _ _ _ _ G E) as (_ & _ & _ & Wl).
    apply bind_Ok in H1 as (b & _ & H1). destruct b; apply Ok_inj, pair_inj in H1 as [<- _]; [done|].
    destruct (proxy_dns_server_spec t) as [[Wp _] Np].
    destruct (set_dns_spec c d "servers" l (l ++ [proxy_dns_server t]) G E) as ([Wc _] & _ & S & _).
    { by rewrite wf_array_app, Wl, wf_array_single. }
    split; [done|]. unfold dns_clean in *. rewrite S by done. rewrite dns_servers_array, E in D.
    apply Forall_app_2; [done|]. constructor; [by apply Np|constructor]. }
  destruct S1 as [W1 D1]. destruct (dns_array c1 "rules") as [[d l]|] eqn:E; [|by apply Ok_inj, pair_inj in H2 as [<- _]].
  assert (G : good_object c1) by (split; [done|by eapply dns_array_object]).
  pose proof (dns_array_spec _ _ _ _ G E) as (_ & _ & _ & Wl).
  apply bind_Ok in H2 as (b & _ & H2). destruct b; apply Ok_inj, pair_inj in H2 as [<- _]; [done|].
  destruct (set_dns_spec c1 d "rules" l (proxy_dns_rule :: l) G E) as ([Wc _] & _ & _ & S).
  { cbn [sbj_wf forallb] in *. by rewrite Wl. }
  split; [done|]. unfold dns_clean in *. by rewrite S.
Qed.

Lemma insert_rules_spec ls : forall front rules,
  Forall (fun v => sbj_wf v = true) ls ->
  insert_rules (length front) ls (SBJ_ARRAY (front ++ rules)) = SBJ_ARRAY (front ++ ls ++ rules).
Proof.
  induction ls as [|r ls IH]; intros front rules HF; [done|]. cbn [insert_rules sbj_arr_insert].
  pose proof (Forall_inv HF). apply Forall_inv_tail in HF.
  rewrite Nat.min_l, take_app_length, drop_app_length by (rewrite length_app; lia).
  cbn [or_null default]. rewrite sbj_clone_wf_id by done.
  specialize (IH (front ++ [r]) rules HF). rewrite length_app, Nat.add_1_r, <- !app_assoc in IH. exact IH.
Qed.

Lemma get_or_spec fresh o k v o' :
  good_object o -> sbj_wf fresh = true -> sbj_get_or fresh o k = (v, o') ->
  good_object o' /\ sbj_wf v = true /\ forall k', k' <> k -> sbj_get (Some o') k' = sbj_get (Some o) k'.
Proof.
  intros G W. unfold sbj_get_or.
  assert (Wg : forall x, sbj_get (Some o) k = Some x -> sbj_wf x = true) by (intros x; apply wf_get, G).
  destruct (sbj_get (Some o) k) as [[]|]; intros [<- <-]%pair_inj;
    try (split; [done|split; [by apply Wg|done]]);
    (split; [by apply good_set|split; [done|intros; by apply get_set_ne]]).
Qed.

Lemma prepend_spec ls c n c' n' :
  sbj_wf c = true -> dns_clean c -> Forall (fun v => sbj_wf v = true) ls ->
  prepend_local_rules ls c n = Ok (c', n') ->
  sbj_wf c' = true /\ dns_clean c' /\ exists rest, route_rules c' = ls ++ rest.
Proof.
  intros W D F. unfold prepend_local_rules. cbv zeta. set (c0 := if sbj_is_null (Some c) then _ else c).
  assert (S0 : sbj_wf c0 = true /\ dns_clean c0) by (subst c0; case_if; [split; [done|exact (List.Forall_nil _)]|done]).
  destruct S0 as [W0 D0]. clearbody c0. destruct (sbj_is_object (Some c0)) eqn:O0; [|done].
  assert (G0 : good_object c0) by done. cbn [negb].
  destruct (sbj_get_or_object c0 "route") as [r c1] eqn:E1.
  apply get_or_spec in E1 as (G1 & Wr & K1); [|done..]. destruct (sbj_is_object (Some r)) eqn:Or; [|done]. cbn [negb].
  assert (Gr : good_object r) by done. destruct (sbj_get_or_array r "rules") as [ru r2] eqn:E2.
  apply get_or_spec in E2 as (G2 & Wu & _); [|done..]. destruct ru as [| | | | | |l|]; try done. cbn [sbj_is_array negb].
  intros [<- _]%Ok_inj%pair_inj. pose proof (insert_rules_spec ls [] l F) as HI. cbn [app length] in HI. rewrite HI.
  assert (Wn : sbj_wf (SBJ_ARRAY (ls ++ l)) = true) by (rewrite wf_array_app, Wu; by apply wf_array in F as ->).
  assert (G3 : good_object (sbj_set r2 "rules" (SBJ_ARRAY (ls ++ l)))) by (by apply good_set).
  split; [apply good_set; [done|apply G3]|]. split.
  - unfold dns_clean, dns_servers in *. by rewrite get_set_ne, K1.
  - exists l. unfold route_rules. by rewrite !get_set_eq.
Qed.

Lemma outbounds_stage_wf opts c c1 st :
  options_wf opts -> sbj_wf c = true -> outbounds_stage opts c = Ok (c1, st) -> sbj_wf c1 = true.
Proof.
  intros Wo W. unfold outbounds_stage.
  destruct (sbj_get (Some c) "outbounds") as [[| | | | | |items|]|] eqn:E; try (intros [<- _]%Ok_inj%pair_inj; done).
  intros ([l s] & H & [<- _]%Ok_inj%pair_inj)%bind_Ok. apply wf_set; [done|].
  eapply transform_outbounds_wf; [done| |done]. by eapply wf_get.
Qed.

Lemma not_builtin t : is_builtin_route t = false -> bytes_eqb (cstr t) (bs "wg-internal") = false.
Proof. unfold is_builtin_route. by intros [_ ?]%orb_false_iff. Qed.

(** C39: the node-local document.  Starting from a well-formed document and
    options, the transformed document is well formed, no DNS server goes through
    the management tunnel "wg-internal" any more, and the node's own route rules,
    when there are any, come before every other rule. *)
Theorem transform_config_edits opts c c' n :
  options_wf opts -> sbj_wf c = true -> transform_config opts c = Ok (c', n) ->
  sbj_wf c' = true /\ Forall not_wg (dns_servers c') /\
  (json_empty (local_route_rules opts) = false ->
   exists rest, route_rules c' = arr_items (local_route_rules opts) ++ rest).
Proof.
  intros Wo W (c1 & st & c2 & n2 & c3 & n3 & c4 & n4 & H1 & H2 & H3 & H4 & H5)%transform_config_stages.
  apply outbounds_stage_wf in H1; [|done..].
  assert (W2 : sbj_wf c2 = true).
  { unfold rename_stage in H2. case_if_in H2; apply pair_inj in H2 as [<- _]; [by apply rewrite_wf|done]. }
  apply drop_dns_spec in H3 as [W3 D3]; [|done].
  assert (S4 : sbj_wf c4 = true /\ dns_clean c4).
  { unfold proxy_dns_stage in H4. destruct (route_final c3) as [t|]; [|by apply Ok_inj, pair_inj in H4 as [<- _]].
    destruct (is_builtin_route t) eqn:Eb; [by rewrite andb_false_r in H4; apply Ok_inj, pair_inj in H4 as [<- _]|].
    rewrite andb_true_r in H4. case_if_in H4; [|by apply Ok_inj, pair_inj in H4 as [<- _]].
    apply (inject_dns_spec t c3 n3 c4 n4); [done|done|by apply not_builtin|done]. }
  destruct S4 as [W4 D4]. unfold rules_stage in H5. destruct (json_empty (local_route_rules opts)).
  - by apply Ok_inj, pair_inj in H5 as [<- _].
  - apply prepend_spec in H5 as (W5 & D5 & R5); [done|done|done|]. destruct Wo as (_ & _ & Wl).
    destruct (local_route_rules opts) as [l|]; [|constructor]. by apply wf_items_Forall, Wl.
Qed.

Definition local_options : sb_agent_config_options :=
  mk_options true None None None (Some (SBJ_ARRAY [SBJ_OBJECT [(bs "outbound", SBJ_STRING (bs "direct"))]])).

Definition tunnel_config : sbj :=
  SBJ_OBJECT [(bs "dns", SBJ_OBJECT [(bs "servers", SBJ_ARRAY [SBJ_OBJECT [(bs "detour", SBJ_STRING (bs "wg-internal"))]])])].

Lemma transform_config_edits_witness :
  exists c' n, transform_config local_options tunnel_config = Ok (c', n) /\ Forall not_wg (dns_servers c').
Proof.
  destruct (transform_config local_options tunnel_config) as [[c' n]|e] eqn:E; [|vm_compute in E; discriminate].
  exists c', n. split; [reflexivity|].
  apply (transform_config_edits local_options tunnel_config c' n); [|reflexivity|exact E].
  split; [|split]; intros x H; vm_compute in H; try discriminate. injection H as <-. reflexivity.
Defined.

(** ** Settings *)

(** Settings the agent accepts and can store. *)
Record options_valid (o : sb_agent_config_options) : Prop := {
  valid_servers : exists v, outbound_server_overrides o = Some v /\ is_ok (server_overrides_from_json v) = true /\
                            printable v = true /\ nests v (SBJ_MAX_DEPTH - 1) = true;
  valid_outbounds : exists v, outbound_overrides o = Some v /\ is_ok (outbound_overrides_from_json v) = true /\
                              printable v = true /\ nests v (SBJ_MAX_DEPTH - 1) = true;
  valid_default : forall d, default_proxy_outbound o = Some d -> d <> [] /\ no_nul d = true /\ valid_utf8 d = true;
  valid_rules : exists v, local_route_rules o = Some v /\ sbj_wf v = true }.

Lemma printable_wf v : printable v = true -> sbj_wf v = true.
Proof. unfold printable. intros. by bool_facts. Qed.

Lemma server_overrides_same v :
  sbj_wf v = true -> is_ok (server_overrides_from_json v) = true -> server_overrides_from_json v = Ok v.
Proof.
  intros W. unfold server_overrides_from_json. destruct v; try done. case_if; [|done].
  intros _. by rewrite sbj_clone_wf_id.
Qed.

Lemma outbound_overrides_same v :
  sbj_wf v = true -> is_ok (outbound_overrides_from_json v) = true -> outbound_overrides_from_json v = Ok v.
Proof.
  intros W. unfold outbound_overrides_from_json. destruct v; try done. case_if; [|done].
  intros _. by rewrite sbj_clone_wf_id.
Qed.

Lemma options_json_members e s v d r :
  sbj_wf s = true -> sbj_wf v = true ->
  sb_agent_config_options_to_json (mk_options e (Some s) (Some v) d r) =
  SBJ_OBJECT [(bs "default_proxy_outbound", sbj_str d); (bs "local_proxy_egress", SBJ_BOOL e);
              (bs "outbound_overrides", v); (bs "outbound_server_overrides", s)].
Proof.
  intros Ws Wv. unfold sb_agent_config_options_to_json. cbn [outbound_server_overrides outbound_overrides].
  rewrite !sbj_clone_wf_id by done. reflexivity.
Qed.

Lemma options_round o :
  options_valid o -> sb_agent_config_options_from_json (Some (sb_agent_config_options_to_json o)) (Some o) = Ok o.
Proof.
  destruct o as [e s v d r]. intros [(s' & Es & Ks & Ps & _) (v' & Ev & Kv & Pv & _) Hd (r' & Er & Wr)].
  cbn in Es, Ev, Hd, Er. subst. pose proof (printable_wf _ Ps) as Ws. pose proof (printable_wf _ Pv) as Wv.
  rewrite options_json_members by done. unfold sb_agent_config_options_from_json.
  replace (sbj_str d) with (match d with Some d => SBJ_STRING d | None => SBJ_NULL end).
  2: { destruct d as [d|]; [|done]. destruct (Hd d eq_refl) as (_ & Pd & _). cbn. by rewrite cstr_no_nul. }
  eval_get. cbn [sbj_is_object negb].
  unfold sb_agent_config_options_copy, clone_or. cbn [local_proxy_egress local_route_rules default_proxy_outbound].
  rewrite server_overrides_same, outbound_overrides_same, (sbj_clone_wf_id r') by done.
  destruct d as [d|]; [|done]. destruct (Hd d eq_refl) as (Nd & Pd & _).
  destruct d as [|c d]; [done|]. cbn [length Nat.eqb mbind result_bind]. by rewrite (cstr_no_nul _ Pd).
Qed.

Lemma options_printable o :
  options_valid o -> printable (sb_agent_config_options_to_json o) = true /\
                     nests (sb_agent_config_options_to_json o) SBJ_MAX_DEPTH = true.
Proof.
  destruct o as [e s v d r]. intros [(s' & Es & _ & Ps & Ns) (v' & Ev & _ & Pv & Nv) Hd _].
  cbn in Es, Ev, Hd. subst. rewrite options_json_members by (by apply printable_wf).
  unfold printable in *. bool_facts. split.
  - rewrite !andb_true_iff. split; [split|].
    + apply wf_object. split; [apply keys_sorted_strong; reflexivity|]. rewrite !Forall_cons. cbn [snd].
      split; [by destruct d|]. auto using List.Forall_nil.
    + assert (Vd : utf8_clean (sbj_str d) = true).
      { destruct d as [d|]; [|done]. destruct (Hd d eq_refl) as (_ & Pd & Vd). cbn [sbj_str utf8_clean].
        by rewrite cstr_no_nul. }
      cbn [utf8_clean forallb fst snd]. rewrite Vd, H1, H4. reflexivity.
    + cbn [floats_ok forallb snd]. rewrite H0, H3. by destruct d.
  - cbn [nests forallb snd]. rewrite Ns, Nv. by destruct d.
Qed.

(** The agent's settings survive a restart.  For accepted settings, reading
    back the JSON written for them gives the same settings, and loading the file
    that saving writes does too; when the file is missing the defaults are used
    unchanged. *)
Theorem agent_settings_roundtrip path o :
  options_valid o ->
  sb_agent_config_options_from_json (Some (sb_agent_config_options_to_json o)) (Some o) = Ok o /\
  sb_agent_config_options_load path (FileText (sb_agent_config_options_save o)) (Some o) = Ok o /\
  sb_agent_config_options_load path FileMissing (Some o) = Ok o.
Proof.
  intros V. split; [by apply options_round|]. destruct (options_printable o V) as [P N]. split.
  - unfold sb_agent_config_options_load, sb_agent_config_options_save, sbj_parse_msg. cbn [sbj_dump].
    rewrite cstr_no_nul by (by apply dump_no_nul). rewrite document_round_ws by done. by rewrite options_round.
  - destruct o as [e s v d r]. destruct V as [(s' & Es & _ & Ps & _) (v' & Ev & _ & Pv & _) _ (r' & Er & Wr)].
    cbn in Es, Ev, Er. subst. unfold sb_agent_config_options_load, sb_agent_config_options_copy, clone_or.
    cbn [outbound_server_overrides outbound_overrides local_route_rules local_proxy_egress default_proxy_outbound].
    rewrite !sbj_clone_wf_id by (done || by apply printable_wf). done.
Qed.

Definition sample_options : sb_agent_config_options :=
  mk_options false (Some (SBJ_OBJECT [(bs "tokyo", SBJ_STRING (bs "10.0.0.1"))])) (Some (SBJ_OBJECT []))
    (Some (bs "tokyo")) (Some (SBJ_ARRAY [])).

Lemma agent_settings_roundtrip_witness :
  sb_agent_config_options_load (bs "/etc/agent.json") (FileText (sb_agent_config_options_save sample_options))
    (Some sample_options) = Ok sample_options.
Proof.
  apply (agent_settings_roundtrip (bs "/etc/agent.json") sample_options). split.
  - eexists. split; [reflexivity|]. vm_compute. auto.
  - eexists. split; [reflexivity|]. vm_compute. auto.
  - intros d H. injection H as <-. vm_compute. split; [discriminate|auto].
  - eexists. split; reflexivity.
Defined.
