(* ===== verification/Auth.v ===== *)
(** * Sessions and passwords ([c/src/auth.c], [c/src/config_etag.c])

    HS256 session tokens: header and payload are JSON, base64url-encoded and
    signed with HMAC-SHA-256.  HMAC, SHA-256 (OpenSSL) and Argon2 are parameters;
    of HMAC the theorems use only that its output has 32 bytes.  The clock is an
    argument. *)

From S2P Require Import Prelude Util Json JsonText JsonUtf8 JsonSafe JsonRound.

Definition TOKEN_LIFETIME_SECONDS : Z := 72 * 60 * 60.

Record sb_auth_claims := mk_claims {
  subject : bytes; username : bytes; role : bytes; expires_at : Z; issued_at : Z }.

Definition b64url_char (c : ascii) : bool :=
  in_range 65 90 (code c) || in_range 97 122 (code c) || in_range 48 57 (code c) || (code c =? 45) || (code c =? 95).

(** Unpadded base64url, only in the form the encoder writes. *)
Definition b64url_decode (text : bytes) : option bytes :=
  if (length text mod 4 =? 1)%nat then None
  else if negb (forallb b64url_char text) then None
  else
    decoded ← (if (length text =? 0)%nat then Some [] else sb_base64_decode text);
    if bytes_eqb (sb_base64url_encode decoded) text then Some decoded else None.

Definition decode_json_segment (text : bytes) : option sbj :=
  raw ← b64url_decode text;
  value ← sbj_parse raw;
  if sbj_is_object (Some value) then Some value else None.

(** ** Passwords *)

Section Passwords.
(** [argon2id_hash_encoded] for a salt and a password: its encoding or its
    error text; [argon2id_verify]; the random salt, when there is one. *)
Context (argon2id_hash_encoded : bytes -> bytes -> bytes + bytes)
        (argon2id_verify : bytes -> bytes -> bool).

Definition sb_hash_password_n (salt : option bytes) (password : option bytes) : result bytes :=
  match salt with
  | None => sb_fail SB_ERR_GENERIC (bs "password salt generation failed")
  | Some salt =>
      match argon2id_hash_encoded salt (default [] password) with
      | inr encoded => Ok encoded
      | inl e => sb_fail SB_ERR_GENERIC (bs "password hashing failed: " ++ e)
      end
  end.

Definition sb_hash_password (salt : option bytes) (password : option bytes) : result bytes :=
  sb_hash_password_n salt (cstr <$> password).

Definition sb_verify_password_n (password : option bytes) (encoded_hash : option bytes) : bool :=
  match encoded_hash with
  | None => false
  | Some h => match cstr h with [] => false | h => argon2id_verify h (default [] password) end
  end.

Definition sb_verify_password (password : option bytes) (encoded_hash : option bytes) : bool :=
  sb_verify_password_n (cstr <$> password) encoded_hash.
End Passwords.

(** ** Tokens *)

Definition token_header : sbj :=
  sbj_set_str (sbj_set_str (SBJ_OBJECT []) "alg" (bs "HS256")) "typ" (bs "JWT").

Definition token_payload (user_id username role : option bytes) (now : Z) : sbj :=
  let p := sbj_set_str (SBJ_OBJECT []) "sub" (default [] user_id) in
  let p := sbj_set p "username" (SBJ_STRING (default [] username)) in
  let p := sbj_set_str p "role" (default [] role) in
  let p := sbj_set_int p "exp" (now + TOKEN_LIFETIME_SECONDS) in
  sbj_set_int p "iat" now.

Definition dot : ascii := chr 46.

Section Tokens.
Context (hmac_sha256 : bytes -> bytes -> bytes).

Definition sb_auth_create_token_n (secret user_id username role : option bytes) (now : Z) : option bytes :=
  match cstr <$> secret with
  | None | Some [] => None
  | Some secret =>
      let header := sbj_dump (Some token_header) (-1) in
      let payload := sbj_dump (Some (token_payload user_id username role now)) (-1) in
      let unsigned_token := sb_base64url_encode (cstr header) ++ [dot] ++ sb_base64url_encode (cstr payload) in
      Some (unsigned_token ++ [dot] ++ sb_base64url_encode (hmac_sha256 secret unsigned_token))
  end.

Definition sb_auth_create_token (secret user_id username role : option bytes) (now : Z) : option bytes :=
  sb_auth_create_token_n secret user_id (cstr <$> username) role now.

(** The claims of a payload, when it has them all and is not expired. *)
Definition claims_of (payload : sbj) (now : Z) : option sb_auth_claims :=
  let get k := sbj_get (Some payload) k in
  match get "sub"%string, get "username"%string, get "role"%string with
  | Some (SBJ_STRING sub), Some (SBJ_STRING user), Some (SBJ_STRING role) =>
      if negb (sbj_is_integer (get "exp"%string)) || negb (sbj_is_integer (get "iat"%string)) then None
      else
        let expires_at := sbj_as_int (get "exp"%string) 0 in
        if expires_at <=? now then None
        else Some (mk_claims (cstr sub) user (cstr role) expires_at (sbj_as_int (get "iat"%string) 0))
  | _, _, _ => None
  end.

Definition sb_auth_verify_token (secret token : option bytes) (now : Z) : option sb_auth_claims :=
  match cstr <$> secret, cstr <$> token with
  | None, _ | Some [], _ | _, None => None
  | Some secret, Some token =>
      '(first, rest) ← split_at dot token;
      '(second, sig) ← split_at dot rest;
      match split_at dot sig with
      | Some _ => None
      | None =>
          match decode_json_segment first, decode_json_segment second, b64url_decode sig with
          | Some header, Some payload, Some supplied =>
              if negb (sb_streq (sbj_get_str (Some header) "alg" (Some [])) (Some (bs "HS256"))) ||
                 negb (length supplied =? 32)%nat then None
              else if negb (bytes_eqb (hmac_sha256 secret (first ++ [dot] ++ second)) supplied) then None
              else claims_of payload now
          | _, _, _ => None
          end
      end
  end.
End Tokens.

(** ** ETag of a rendered configuration *)

Section ETag.
(** [None] where a digest call of OpenSSL fails. *)
Context (sha256 : bytes -> option bytes).

Definition digest_input (value : option bytes) : bytes := cstr (default [] value).

Definition sb_config_etag (host_id pretty_config seed : option bytes) : option bytes :=
  digest ← sha256 (digest_input host_id ++ digest_input pretty_config ++ digest_input seed);
  if negb (length digest =? 32)%nat then None
  else Some ([chr 34] ++ sb_hex_encode digest ++ [chr 34]).
End ETag.

(** * Theorems *)

(** ** Encoded segments *)

Lemma alpha_url_char i : 0 <= i < 64 -> b64url_char (alpha_at B64URL i) = true.
Proof.
  intros H. assert (A : forallb (fun n => b64url_char (alpha_at B64URL (Z.of_nat n))) (seq 0 64) = true) by reflexivity.
  rewrite forallb_forall in A. rewrite <- (Z2Nat.id i) by lia. apply A. apply list_elem_of_In, elem_of_seq. lia.
Qed.

Lemma land63_range x : 0 <= Z.land x 63 < 64.
Proof. rewrite land_63. apply Z.mod_pos_bound. lia. Qed.

Lemma b64url_encode_spec d :
  forallb b64url_char (sb_base64url_encode d) = true /\ (length (sb_base64url_encode d) mod 4 <> 1)%nat.
Proof.
  unfold sb_base64url_encode. induction d as [d IH] using (well_founded_induction (well_founded_ltof _ length)).
  destruct d as [|x [|y [|z d]]]; [by split|..]; cbn [b64_encode app b64_pad forallb length];
    rewrite ?alpha_url_char by apply land63_range; [split; [done|by vm_compute]..|].
  destruct (IH d ltac:(unfold ltof; simpl; lia)) as [C L]. split; [done|].
  replace (S (S (S (S (length (b64_encode d B64URL false))))))%nat with (length (b64_encode d B64URL false) + 1 * 4)%nat by lia.
  by rewrite Nat.Div0.mod_add.
Qed.

Lemma b64url_round d : b64url_decode (sb_base64url_encode d) = Some d.
Proof.
  unfold b64url_decode. destruct (b64url_encode_spec d) as [C L]. rewrite C.
  apply Nat.eqb_neq in L. rewrite L. cbn [negb].
  assert (D : sb_base64_decode (sb_base64url_encode d) = Some d) by (apply (b64_decode_encode _ _); auto).
  destruct (length (sb_base64url_encode d) =? 0)%nat eqn:E.
  - apply Nat.eqb_eq in E. destruct d as [|x [|y [|z d]]]; [done|discriminate..].
  - rewrite D. cbn [mbind option_bind]. by rewrite bytes_eqb_refl.
Qed.

Lemma b64url_decode_canonical t d : b64url_decode t = Some d -> t = sb_base64url_encode d.
Proof.
  unfold b64url_decode. case_if; [done|]. case_if; [done|].
  destruct (if (length t =? 0)%nat then _ else _) as [x|]; [|done]. cbn [mbind option_bind].
  case_if; [|done]. intros [= <-]. by apply bytes_eqb_eq in E1.
Qed.

Lemma b64url_no_dot s : forallb b64url_char s = true -> Forall (fun c => code c <> code dot) s /\ no_nul s = true.
Proof.
  intros H. rewrite forallb_forall in H.
  assert (K : forall c, b64url_char c = true -> code c <> 46 /\ code c <> 0).
  { intros c Hc. unfold b64url_char, in_range in Hc. rewrite !orb_true_iff, !andb_true_iff in Hc.
    rewrite !Z.leb_le, !Z.eqb_eq in Hc. lia. }
  split.
  - apply Forall_forall. intros c Hc. by apply K, H, list_elem_of_In.
  - apply forallb_forall. intros c Hc. apply H, K in Hc. by rewrite eqb_false by lia.
Qed.

Lemma split_at_dot a b : Forall (fun c => code c <> code dot) a -> split_at dot (a ++ dot :: b) = Some (a, b).
Proof.
  induction 1 as [|c a N _ IH]; cbn [split_at app]; [by rewrite Z.eqb_refl|].
  rewrite eqb_false by done. by rewrite IH.
Qed.

Lemma split_at_none a : Forall (fun c => code c <> code dot) a -> split_at dot a = None.
Proof. induction 1 as [|c a N _ IH]; cbn [split_at]; [done|]. rewrite eqb_false by done. by rewrite IH. Qed.

Lemma split_at_some s a b : split_at dot s = Some (a, b) -> s = a ++ dot :: b.
Proof.
  revert a. induction s as [|c s IH]; intros a; cbn [split_at]; [done|]. case_if.
  - intros [= <- <-]. by apply code_inj in E as ->.
  - destruct (split_at dot s) as [[x y]|]; [|done]. cbn. intros [= <- <-]. by rewrite (IH x).
Qed.

(** ** Tokens *)

Lemma payload_members uid user role now :
  token_payload uid user role now =
  SBJ_OBJECT [(bs "exp", SBJ_INT (now + TOKEN_LIFETIME_SECONDS)); (bs "iat", SBJ_INT now);
              (bs "role", SBJ_STRING (cstr (default [] role))); (bs "sub", SBJ_STRING (cstr (default [] uid)));
              (bs "username", SBJ_STRING (default [] user))].
Proof. reflexivity. Qed.

(** A JSON segment is read back as the value it was made from. *)
Lemma segment_round v :
  printable v = true -> nests v SBJ_MAX_DEPTH = true -> sbj_is_object (Some v) = true ->
  decode_json_segment (sb_base64url_encode (cstr (sbj_dump (Some v) (-1)))) = Some v.
Proof.
  intros P N O. unfold decode_json_segment. rewrite b64url_round. cbn [mbind option_bind sbj_dump].
  rewrite cstr_no_nul by (by apply dump_no_nul). unfold sbj_parse, sbj_parse_msg.
  rewrite document_round by done. cbn [mbind option_bind]. by rewrite O.
Qed.

Lemma payload_printable uid user role now :
  valid_utf8 (cstr (default [] uid)) = true -> valid_utf8 (default [] user) = true ->
  valid_utf8 (cstr (default [] role)) = true -> 0 <= now -> now + TOKEN_LIFETIME_SECONDS <= INT64_MAX ->
  printable (token_payload uid user role now) = true /\ nests (token_payload uid user role now) SBJ_MAX_DEPTH = true.
Proof.
  intros Vi Vu Vr Hn Hm. rewrite payload_members. unfold TOKEN_LIFETIME_SECONDS, INT64_MAX in *.
  split; [|reflexivity]. unfold printable. rewrite !andb_true_iff. split; [split|reflexivity].
  - apply wf_object. split; [apply keys_sorted_strong; reflexivity|]. rewrite !Forall_cons. cbn [snd sbj_wf].
    unfold in_range, INT64_MIN, INT64_MAX. rewrite !leb_true by lia. repeat (split; [reflexivity|]). constructor.
  - cbn [utf8_clean forallb fst snd]. rewrite Vi, Vu, Vr. reflexivity.
Qed.

Section TokenTheorems.
Context (hmac_sha256 : bytes -> bytes -> bytes).

(** What an accepted token looks like. *)
Lemma verify_shape secret token now claims :
  sb_auth_verify_token hmac_sha256 (Some secret) (Some token) now = Some claims ->
  exists h p header payload,
    cstr token = h ++ [dot] ++ p ++ [dot] ++
                 sb_base64url_encode (hmac_sha256 (cstr secret) (h ++ [dot] ++ p)) /\
    decode_json_segment h = Some header /\
    sb_streq (sbj_get_str (Some header) "alg" (Some [])) (Some (bs "HS256")) = true /\
    decode_json_segment p = Some payload /\ claims_of payload now = Some claims.
Proof.
  unfold sb_auth_verify_token. cbn [fmap option_fmap option_map]. destruct (cstr secret) as [|s0 s]; [done|].
  destruct (split_at dot (cstr token)) as [[h rest]|] eqn:E1; [|done]. cbn [mbind option_bind].
  destruct (split_at dot rest) as [[p sig]|] eqn:E2; [|done]. cbn [mbind option_bind].
  destruct (split_at dot sig); [done|].
  destruct (decode_json_segment h) as [header|] eqn:Eh, (decode_json_segment p) as [payload|] eqn:Ep,
    (b64url_decode sig) as [supplied|] eqn:Es; try done.
  destruct (sb_streq _ _) eqn:Ea; [|done]. destruct (length supplied =? 32)%nat; [|done]. cbn [negb orb].
  destruct (bytes_eqb _ supplied) eqn:Em; [|done]. cbn [negb]. intros Hc. apply bytes_eqb_eq in Em.
  apply b64url_decode_canonical in Es. subst sig. exists h, p, header, payload.
  split; [|done]. apply split_at_some in E1, E2. rewrite E1, E2, Em. done.
Qed.

Lemma verify_made secret h p header payload now :
  cstr secret <> [] -> (length (hmac_sha256 (cstr secret) (h ++ [dot] ++ p)) = 32)%nat ->
  forallb b64url_char h = true -> forallb b64url_char p = true ->
  decode_json_segment h = Some header -> decode_json_segment p = Some payload ->
  sb_streq (sbj_get_str (Some header) "alg" (Some [])) (Some (bs "HS256")) = true ->
  sb_auth_verify_token hmac_sha256 (Some secret)
    (Some (h ++ [dot] ++ p ++ [dot] ++ sb_base64url_encode (hmac_sha256 (cstr secret) (h ++ [dot] ++ p)))) now =
  claims_of payload now.
Proof.
  intros Ns L Ch Cp Dh Dp Ha. remember (hmac_sha256 (cstr secret) (h ++ [dot] ++ p)) as sig eqn:Hsig.
  apply Nat.eqb_eq in L.
  pose proof (b64url_encode_spec sig) as [Cs _].
  destruct (b64url_no_dot _ Ch) as [Fh Nh]. destruct (b64url_no_dot _ Cp) as [Fp Np].
  destruct (b64url_no_dot _ Cs) as [Fs Nsg].
  assert (Nt : no_nul (h ++ [dot] ++ p ++ [dot] ++ sb_base64url_encode sig) = true)
    by (by rewrite !no_nul_app, Nh, Np, Nsg).
  unfold sb_auth_verify_token. cbn [fmap option_fmap option_map]. rewrite (cstr_no_nul _ Nt).
  destruct (cstr secret) as [|c0 s0] eqn:Es; [done|]. rewrite <- Es in *. cbn [app].
  rewrite split_at_dot by done. cbn [mbind option_bind]. rewrite split_at_dot by done. cbn [mbind option_bind].
  rewrite split_at_none by done. rewrite Dh, Dp, b64url_round, Ha, L. cbn [negb orb].
  replace (hmac_sha256 (cstr secret) (h ++ dot :: p)) with sig by exact Hsig. by rewrite bytes_eqb_refl.
Qed.
End TokenTheorems.

(** A session token opens the session it was made for.  A token created for a
    user is accepted with the same secret until its 72 hours are over, and gives
    back the user, the name (even with NUL bytes inside), the role and the two
    times; afterwards it is rejected. *)
Theorem token_roundtrip hmac_sha256 secret uid user role now now' :
  (forall k m, length (hmac_sha256 k m) = 32%nat) ->
  cstr secret <> [] -> valid_utf8 (cstr uid) = true -> valid_utf8 user = true -> valid_utf8 (cstr role) = true ->
  0 <= now -> now + TOKEN_LIFETIME_SECONDS <= INT64_MAX ->
  exists token,
    sb_auth_create_token_n hmac_sha256 (Some secret) (Some uid) (Some user) (Some role) now = Some token /\
    sb_auth_verify_token hmac_sha256 (Some secret) (Some token) now' =
    if now + TOKEN_LIFETIME_SECONDS <=? now' then None
    else Some (mk_claims (cstr uid) user (cstr role) (now + TOKEN_LIFETIME_SECONDS) now).
Proof.
  intros L Ns Vi Vu Vr Hn Hm.
  destruct (payload_printable (Some uid) (Some user) (Some role) now) as [Pp Np]; [done..|].
  unfold sb_auth_create_token_n. cbn [fmap option_fmap option_map].
  destruct (cstr secret) as [|c0 s0] eqn:Es; [done|]. rewrite <- Es in *.
  eexists. split; [reflexivity|]. rewrite <- !app_assoc.
  rewrite (verify_made hmac_sha256 secret _ _ token_header (token_payload (Some uid) (Some user) (Some role) now));
    [|done|apply L|apply b64url_encode_spec|apply b64url_encode_spec| |by apply segment_round|reflexivity].
  - rewrite payload_members. unfold claims_of. eval_get. cbn [sbj_is_integer negb orb sbj_as_int default].
    by rewrite cstr_idem, cstr_idem.
  - by apply segment_round; [vm_compute; reflexivity..|].
Qed.

Definition toy_hmac (k m : bytes) : bytes := take 32 (k ++ m ++ replicate 32 (chr 0)).

Lemma toy_hmac_length k m : length (toy_hmac k m) = 32%nat.
Proof. unfold toy_hmac. rewrite length_take, !length_app, length_replicate. lia. Defined.

Lemma token_roundtrip_witness :
  exists token,
    sb_auth_create_token_n toy_hmac (Some (bs "key")) (Some (bs "u1")) (Some (bs "ann")) (Some (bs "admin")) 1000 = Some token /\
    sb_auth_verify_token toy_hmac (Some (bs "key")) (Some token) 2000 =
    Some (mk_claims (bs "u1") (bs "ann") (bs "admin") 260200 1000).
Proof.
  apply (token_roundtrip toy_hmac (bs "key") (bs "u1") (bs "ann") (bs "admin") 1000 2000);
    [exact toy_hmac_length|discriminate|reflexivity|reflexivity|reflexivity|lia|vm_compute; discriminate].
Defined.

(** C7: accepted tokens are signed.  If verification accepts a token at [now],
    its text is a header and a payload followed by exactly the canonical
    encoding of their HMAC under the secret, the header names HS256, the claims
    are those of the payload, and they expire after [now]. *)
Theorem token_sound hmac_sha256 secret token now claims :
  sb_auth_verify_token hmac_sha256 (Some secret) (Some token) now = Some claims ->
  now < expires_at claims /\
  exists h p header payload,
    cstr token = h ++ [dot] ++ p ++ [dot] ++
                 sb_base64url_encode (hmac_sha256 (cstr secret) (h ++ [dot] ++ p)) /\
    decode_json_segment h = Some header /\
    sb_streq (sbj_get_str (Some header) "alg" (Some [])) (Some (bs "HS256")) = true /\
    decode_json_segment p = Some payload /\ claims_of payload now = Some claims.
Proof.
  intros (h & p & header & payload & Ht & Hh & Ha & Hp & Hc)%verify_shape. split; [|by exists h, p, header, payload].
  unfold claims_of in Hc. cbv zeta in Hc.
  destruct (sbj_get (Some payload) "sub") as [[]|], (sbj_get (Some payload) "username") as [[]|],
    (sbj_get (Some payload) "role") as [[]|]; try done.
  case_if_in Hc; [done|]. case_if_in Hc; [done|]. injection Hc as <-. done.
Qed.

Lemma token_sound_witness :
  exists token claims,
    sb_auth_verify_token toy_hmac (Some (bs "key")) (Some token) 2000 = Some claims /\ 2000 < expires_at claims.
Proof.
  destruct (sb_auth_create_token_n toy_hmac (Some (bs "key")) (Some (bs "u1")) (Some (bs "ann")) (Some (bs "admin")) 1000)
    as [token|] eqn:E; [|vm_compute in E; discriminate].
  destruct (sb_auth_verify_token toy_hmac (Some (bs "key")) (Some token) 2000) as [claims|] eqn:V.
  - exists token, claims. split; [exact V|]. apply (token_sound toy_hmac (bs "key") token 2000 claims V).
  - exfalso. vm_compute in E. injection E as <-. vm_compute in V. discriminate.
Defined.
