(* ===== verification/ProxyClock.v ===== *)
(** * Lease fences on a monotonic clock ([c/src/proxy_clock.c])

    A proxy user's quota lease may only be granted again once leases from before
    a reset, a restart or a foreign change of epoch have run out: for 60 seconds
    the clock answers how long to wait.  The state is the process-wide clock
    object of one database, changed under its mutex; a call is one atomic step,
    and the readings of the time source are arguments, so nothing is assumed of
    it.  The process-wide registry of clocks is in file [ProxyRegistry]. *)

From S2P Require Import Prelude Util.

Definition FENCE_MS : Z := 60000.

Record proxy_epoch_clock := mk_epoch { ec_user : bytes; ec_epoch : Z; ec_until : Z }.

Record sb_proxy_clock := mk_clock {
  startup_until : Z; last_now : Z; used : bool; epochs : list proxy_epoch_clock }.

(** ** Epoch list *)

Fixpoint epoch_find (l : list proxy_epoch_clock) (user : bytes) : option proxy_epoch_clock :=
  match l with
  | [] => None
  | entry :: l' => if sb_streq (Some (ec_user entry)) (Some user) then Some entry else epoch_find l' user
  end.

(** Stores [entry] in place of the one [epoch_find] returns. *)
Fixpoint epoch_store (l : list proxy_epoch_clock) (user : bytes) (entry : proxy_epoch_clock) : list proxy_epoch_clock :=
  match l with
  | [] => []
  | e :: l' => if sb_streq (Some (ec_user e)) (Some user) then entry :: l' else e :: epoch_store l' user entry
  end.

Definition epoch_add (clock : sb_proxy_clock) (user : bytes) (epoch until : Z) : sb_proxy_clock :=
  mk_clock (startup_until clock) (last_now clock) (used clock)
    (mk_epoch (cstr user) epoch until :: epochs clock).

(** ** Readings *)

(** [reading] is what the time source returned; [None] stands for -1. *)
Definition read_now (clock : sb_proxy_clock) (reading : Z) : option Z * sb_proxy_clock :=
  if (reading <? last_now clock) || (reading <? 0) || (INT64_MAX - FENCE_MS <? reading) then (None, clock)
  else (Some reading, mk_clock (startup_until clock) reading (used clock) (epochs clock)).

(** [clock_gettime]: seconds and nanoseconds, or a failure. *)
Definition real_monotonic (ts : option (Z * Z)) : Z :=
  match ts with
  | Some (sec, nsec) =>
      if (sec <? 0) || ((INT64_MAX - 999) / 1000 <? sec) || (nsec <? 0) || (1000000000 <=? nsec) then -1
      else sec * 1000 + nsec / 1000000
  | None => -1
  end.

Definition set_used (clock : sb_proxy_clock) : sb_proxy_clock :=
  mk_clock (startup_until clock) (last_now clock) true (epochs clock).

Definition store_entry (clock : sb_proxy_clock) (user : bytes) (entry : proxy_epoch_clock) : sb_proxy_clock :=
  mk_clock (startup_until clock) (last_now clock) (used clock) (epoch_store (epochs clock) user entry).

Definition observe_epoch (clock : sb_proxy_clock) (user : bytes) (epoch now : Z) : proxy_epoch_clock * sb_proxy_clock :=
  match epoch_find (epochs clock) user with
  | None =>
      let until := if epoch =? 1 then 0 else now + FENCE_MS in
      (mk_epoch (cstr user) epoch until, epoch_add clock user epoch until)
  | Some entry =>
      if ec_epoch entry =? epoch then (entry, clock)
      else let entry := mk_epoch (ec_user entry) epoch (now + FENCE_MS) in (entry, store_entry clock user entry)
  end.

(** ** Operations *)

Definition sb_proxy_clock_wait_ms (clock : option sb_proxy_clock) (user : bytes) (epoch reading : Z)
    : Z * option sb_proxy_clock :=
  match clock with
  | None => (FENCE_MS, None)
  | Some clock =>
      match read_now (set_used clock) reading with
      | (None, clock) => (FENCE_MS, Some clock)
      | (Some now, clock) =>
          let (entry, clock) := observe_epoch clock user epoch now in
          let until := if startup_until clock <? ec_until entry then ec_until entry else startup_until clock in
          (if now <? until then until - now else 0, Some clock)
      end
  end.

Definition sb_proxy_clock_reset_epoch (clock : option sb_proxy_clock) (user : bytes) (epoch reading : Z)
    : option sb_proxy_clock :=
  match clock with
  | None => None
  | Some clock =>
      match read_now (set_used clock) reading with
      | (None, clock) => Some clock
      | (Some now, clock) =>
          let (entry, clock) := observe_epoch clock user epoch now in
          Some (store_entry clock user (mk_epoch (ec_user entry) (ec_epoch entry) (now + FENCE_MS)))
      end
  end.

Definition refence (now : Z) (e : proxy_epoch_clock) : proxy_epoch_clock :=
  if ec_until e =? 0 then e else mk_epoch (ec_user e) (ec_epoch e) (now + FENCE_MS).

(** [reading] is the first value of the new source. *)
Definition sb_proxy_clock_set_source (clock : sb_proxy_clock) (source_given : bool) (reading : Z)
    : result sb_proxy_clock :=
  if negb source_given then sb_fail SB_ERR_VALIDATION (bs "A monotonic clock source is required")
  else if used clock then sb_fail SB_ERR_CONFLICT (bs "Proxy clock source is already in use")
  else if (reading <? 0) || (INT64_MAX - FENCE_MS <? reading)
  then sb_fail SB_ERR_VALIDATION (bs "Invalid monotonic clock source")
  else Ok (mk_clock (if startup_until clock =? 0 then 0 else reading + FENCE_MS) reading (used clock)
             (map (refence reading) (epochs clock))).

(** ** The snapshot taken when a database is opened

    What the queries return is an argument; [None] is a database error. *)

Record snapshot := mk_snapshot {
  sn_begin : result unit;
  sn_tables : result Z;
  sn_outstanding : result bool;
  sn_rows : list (option bytes * Z);
  sn_rows_end : result unit;
  sn_commit : result unit;
  sn_observed : Z }.

Fixpoint snapshot_rows (clock : sb_proxy_clock) (rows : list (option bytes * Z)) : result sb_proxy_clock :=
  match rows with
  | [] => Ok clock
  | (user, epoch) :: rows' =>
      match cstr <$> user with
      | Some (c :: u) =>
          if (128 <? Z.of_nat (length (c :: u))) || (epoch <? 1)
          then sb_fail SB_ERR_GENERIC (bs "Invalid persisted proxy epoch")
          else snapshot_rows (epoch_add clock (c :: u) epoch (if 1 <? epoch then last_now clock + FENCE_MS else 0)) rows'
      | _ => sb_fail SB_ERR_GENERIC (bs "Invalid persisted proxy epoch")
      end
  end.

Definition fence_epoch (observed : Z) (e : proxy_epoch_clock) : proxy_epoch_clock :=
  if 1 <? ec_epoch e then mk_epoch (ec_user e) (ec_epoch e) (observed + FENCE_MS) else e.

Definition initialize_snapshot (clock : sb_proxy_clock) (db : snapshot) : result sb_proxy_clock :=
  _ ← sn_begin db;
  tables ← sn_tables db;
  if tables <? 0 then sb_fail SB_ERR_GENERIC []
  else if tables =? 0 then (_ ← sn_commit db; Ok clock)
  else if negb (tables =? 2) then sb_fail SB_ERR_GENERIC (bs "Incomplete proxy lease schema")
  else
    outstanding ← sn_outstanding db;
    clock ← snapshot_rows clock (sn_rows db);
    _ ← sn_rows_end db;
    _ ← sn_commit db;
    let observed := sn_observed db in
    if (observed <? last_now clock) || (INT64_MAX - FENCE_MS <? observed)
    then sb_fail SB_ERR_GENERIC (bs "Monotonic clock is unavailable")
    else Ok (mk_clock (if outstanding : bool then observed + FENCE_MS else startup_until clock) observed (used clock)
               (map (fence_epoch observed) (epochs clock))).

(** The private part of [sb_proxy_clock_attach]: a fresh clock. *)
Definition fresh_clock (reading : Z) (db : snapshot) : result sb_proxy_clock :=
  if (reading <? 0) || (INT64_MAX - FENCE_MS <? reading)
  then sb_fail SB_ERR_GENERIC (bs "Monotonic clock is unavailable")
  else initialize_snapshot (mk_clock 0 reading false []) db.

(** * Theorems *)

(** ** Traces of operations *)

Inductive clock_op :=
  | OpWait (user : bytes) (epoch reading : Z)
  | OpReset (user : bytes) (epoch reading : Z).

Definition clock_step (c : sb_proxy_clock) (op : clock_op) : sb_proxy_clock :=
  match op with
  | OpWait u e t => match sb_proxy_clock_wait_ms (Some c) u e t with (_, Some c') => c' | _ => c end
  | OpReset u e t => match sb_proxy_clock_reset_epoch (Some c) u e t with Some c' => c' | None => c end
  end.

Definition clock_run (c : sb_proxy_clock) (ops : list clock_op) : sb_proxy_clock := foldl clock_step c ops.

Definition wait (c : sb_proxy_clock) (u : bytes) (e t : Z) : Z := fst (sb_proxy_clock_wait_ms (Some c) u e t).

(** A reading the clock accepts. *)
Definition reading_ok (c : sb_proxy_clock) (t : Z) : Prop := last_now c <= t /\ 0 <= t <= INT64_MAX - FENCE_MS.

Definition entry_ok (now : Z) (e : proxy_epoch_clock) : Prop := 0 <= ec_until e <= now + FENCE_MS.

(** No fence reaches further than a full period past the last reading. *)
Definition clock_ok (c : sb_proxy_clock) : Prop :=
  0 <= last_now c <= INT64_MAX - FENCE_MS /\ 0 <= startup_until c <= last_now c + FENCE_MS /\
  Forall (entry_ok (last_now c)) (epochs c).

Lemma read_now_cases c t :
  (reading_ok c t /\ read_now c t = (Some t, mk_clock (startup_until c) t (used c) (epochs c))) \/
  (~ reading_ok c t /\ read_now c t = (None, c)).
Proof.
  unfold read_now, reading_ok. destruct (t <? last_now c) eqn:E1, (t <? 0) eqn:E2, (INT64_MAX - FENCE_MS <? t) eqn:E3;
    cbn [orb]; bool_facts; (left; split; [lia|reflexivity]) || (right; split; [lia|reflexivity]).
Qed.

(** ** The entry of a user *)

Definition same_user (u : bytes) (e : proxy_epoch_clock) : Prop := sb_streq (Some (ec_user e)) (Some u) = true.

Lemma same_user_cstr u e : same_user u e <-> cstr (ec_user e) = cstr u.
Proof. unfold same_user. cbn. apply bytes_eqb_eq. Qed.

Lemma epoch_find_same l u e : epoch_find l u = Some e -> same_user u e /\ e ∈ l.
Proof.
  induction l as [|x l IH]; cbn [epoch_find]; [done|]. case_if.
  - intros [= <-]. split; [done|left].
  - intros H. destruct (IH H). split; [done|by right].
Qed.

Lemma epoch_find_store l u e v x :
  epoch_find l u = Some e -> same_user u x ->
  epoch_find (epoch_store l u x) v = if bytes_eqb (cstr u) (cstr v) then Some x else epoch_find l v.
Proof.
  intros F Hx. induction l as [|y l IH]; [done|]. cbn [epoch_find] in F. cbn [epoch_store].
  apply same_user_cstr in Hx. destruct (sb_streq (Some (ec_user y)) (Some u)) eqn:Ey.
  - apply same_user_cstr in Ey. cbn [epoch_find sb_streq]. rewrite Hx, Ey. by destruct (bytes_eqb (cstr u) (cstr v)).
  - cbn [epoch_find]. destruct (sb_streq (Some (ec_user y)) (Some v)) eqn:Ev; [|by apply IH].
    destruct (bytes_eqb (cstr u) (cstr v)) eqn:Euv; [|done]. apply bytes_eqb_eq in Euv.
    apply (same_user_cstr v) in Ev. rewrite <- Euv in Ev. apply (same_user_cstr u) in Ev. unfold same_user in Ev. congruence.
Qed.

Lemma epoch_store_Forall (P : proxy_epoch_clock -> Prop) l u x : Forall P l -> P x -> Forall P (epoch_store l u x).
Proof. intros H Px. induction H as [|y l Py Hl IH]; cbn [epoch_store]; [constructor|]. case_if; by constructor. Qed.

(** The entry returned is the one kept for the user; the others stay. *)
Lemma observe_epoch_spec c u e now entry c' :
  observe_epoch c u e now = (entry, c') ->
  startup_until c' = startup_until c /\ last_now c' = last_now c /\ used c' = used c /\
  same_user u entry /\ ec_epoch entry = e /\
  (forall v, epoch_find (epochs c') v = if bytes_eqb (cstr u) (cstr v) then Some entry else epoch_find (epochs c) v) /\
  ((epoch_find (epochs c) u = Some entry /\ c' = c) \/ ec_until entry = now + FENCE_MS \/
   (epoch_find (epochs c) u = None /\ e = 1 /\ ec_until entry = 0)).
Proof.
  unfold observe_epoch. destruct (epoch_find (epochs c) u) as [x|] eqn:F.
  - pose proof (epoch_find_same _ _ _ F) as [Sx _]. case_if; intros [= <- <-].
    + repeat split; try done; [|by left]. intros v. destruct (bytes_eqb (cstr u) (cstr v)) eqn:Euv; [|done].
      apply bytes_eqb_eq in Euv. rewrite <- F. clear -Euv. induction (epochs c) as [|y l IH]; [done|].
      cbn [epoch_find sb_streq]. by rewrite <- Euv, IH.
    + repeat split; try done; [|by right; left]. intros v. cbn [store_entry epochs].
      by rewrite (epoch_find_store _ _ x) by done.
  - intros [= <- <-]. repeat split; try done.
    + apply same_user_cstr. apply cstr_idem.
    + intros v. cbn [epoch_add epochs epoch_find sb_streq ec_user]. by rewrite cstr_idem.
    + case_if; [right; right; done|right; left; done].
Qed.

Lemma observe_epoch_ok c u e now entry c' :
  Forall (entry_ok now) (epochs c) -> 0 <= now -> observe_epoch c u e now = (entry, c') ->
  entry_ok now entry /\ Forall (entry_ok now) (epochs c').
Proof.
  intros F Hn. unfold observe_epoch. destruct (epoch_find (epochs c) u) as [x|] eqn:Fx.
  - apply epoch_find_same in Fx as [_ Hx]. rewrite Forall_forall in F. specialize (F x Hx) as Ox.
    case_if; intros [= <- <-]; [split; [done|by apply Forall_forall]|].
    assert (O : entry_ok now (mk_epoch (ec_user x) e (now + FENCE_MS))) by (unfold entry_ok, FENCE_MS; cbn; lia).
    split; [done|]. apply epoch_store_Forall; [by apply Forall_forall|done].
  - intros [= <- <-]. assert (O : entry_ok now (mk_epoch (cstr u) e (if e =? 1 then 0 else now + FENCE_MS)))
      by (unfold entry_ok, FENCE_MS; cbn; case_if; lia).
    split; [done|]. by constructor.
Qed.

Lemma entries_later l a b : a <= b -> Forall (entry_ok a) l -> Forall (entry_ok b) l.
Proof. intros H. intros F. eapply Forall_impl; [exact F|]. unfold entry_ok. lia. Qed.

(** ** Invariant and bounds *)

Lemma wait_ok c u e t :
  clock_ok c -> clock_ok (clock_step c (OpWait u e t)) /\ 0 <= wait c u e t <= FENCE_MS.
Proof.
  intros (Hl & Hs & He). unfold clock_step, wait. cbn [sb_proxy_clock_wait_ms].
  destruct (read_now_cases (set_used c) t) as [[[R1 R2] ->] | [_ ->]]; cbn [fst snd].
  2: { split; [done|unfold FENCE_MS; lia]. }
  cbn [last_now startup_until used epochs set_used] in *.
  destruct (observe_epoch _ u e t) as [entry c'] eqn:O.
  pose proof (observe_epoch_spec _ _ _ _ _ _ O) as (Es & El & _). 
  apply observe_epoch_ok in O as [Oe Of]; [|by eapply entries_later|lia]. cbn [startup_until last_now fst snd] in *.
  split; [|unfold entry_ok, FENCE_MS in *; repeat case_if; lia].
  unfold clock_ok. rewrite Es, El. split; [lia|]. split; [lia|done].
Qed.

Lemma reset_ok c u e t : clock_ok c -> clock_ok (clock_step c (OpReset u e t)).
Proof.
  intros (Hl & Hs & He). unfold clock_step. cbn [sb_proxy_clock_reset_epoch].
  destruct (read_now_cases (set_used c) t) as [[[R1 R2] ->] | [_ ->]]; [|done].
  cbn [last_now startup_until used epochs set_used] in *.
  destruct (observe_epoch _ u e t) as [entry c'] eqn:O.
  pose proof (observe_epoch_spec _ _ _ _ _ _ O) as (Es & El & _).
  apply observe_epoch_ok in O as [Oe Of]; [|by eapply entries_later|lia]. cbn [startup_until last_now] in *.
  unfold clock_ok, store_entry. cbn [startup_until last_now epochs]. rewrite Es, El. split; [lia|]. split; [lia|].
  apply epoch_store_Forall; [done|]. unfold entry_ok, FENCE_MS. cbn. lia.
Qed.

Lemma clock_run_ok c ops : clock_ok c -> clock_ok (clock_run c ops).
Proof.
  revert c. induction ops as [|op ops IH]; intros c H; [done|]. cbn [clock_run foldl]. apply IH.
  destruct op; [by apply wait_ok|by apply reset_ok].
Qed.

(** ** Fences in force

    [fenced c u T]: no wait of user [u] from state [c] on may end before [T]. *)
Definition fenced (c : sb_proxy_clock) (u : bytes) (T : Z) : Prop :=
  T <= last_now c + FENCE_MS /\
  (T <= startup_until c \/ exists entry, epoch_find (epochs c) u = Some entry /\ T <= ec_until entry).

Definition op_reading (op : clock_op) : Z := match op with OpWait _ _ t | OpReset _ _ t => t end.
Definition op_user (op : clock_op) : bytes := match op with OpWait u _ _ | OpReset u _ _ => u end.
Definition op_epoch (op : clock_op) : Z := match op with OpWait _ e _ | OpReset _ e _ => e end.

(** The state after an accepted operation, through the entry it observes. *)
Lemma step_accepted c op :
  reading_ok c (op_reading op) ->
  exists entry c1,
    observe_epoch (mk_clock (startup_until c) (op_reading op) true (epochs c)) (op_user op) (op_epoch op) (op_reading op)
      = (entry, c1) /\
    clock_step c op = match op with
                      | OpWait _ _ _ => c1
                      | OpReset u _ t => store_entry c1 u (mk_epoch (ec_user entry) (ec_epoch entry) (t + FENCE_MS))
                      end.
Proof.
  intros R. destruct (observe_epoch _ _ _ _) as [entry c1] eqn:O. exists entry, c1. split; [done|].
  destruct op as [u e t|u e t]; cbn [op_reading op_user op_epoch] in *; unfold clock_step;
    cbn [sb_proxy_clock_wait_ms sb_proxy_clock_reset_epoch];
    (destruct (read_now_cases (set_used c) t) as [[_ ->]|[N _]]; [|by destruct N]);
    cbn [set_used startup_until used epochs]; by rewrite O.
Qed.

Lemma step_rejected c op : ~ reading_ok c (op_reading op) -> clock_step c op = set_used c.
Proof.
  intros R. destruct op as [u e t|u e t]; unfold clock_step; cbn [sb_proxy_clock_wait_ms sb_proxy_clock_reset_epoch];
    (destruct (read_now_cases (set_used c) t) as [[N _]|[_ ->]]; [by destruct R|done]).
Qed.

(** Where an accepted operation leaves the user's entry. *)
Lemma step_entry c op v :
  reading_ok c (op_reading op) ->
  startup_until (clock_step c op) = startup_until c /\ last_now (clock_step c op) = op_reading op /\
  (cstr (op_user op) <> cstr v -> epoch_find (epochs (clock_step c op)) v = epoch_find (epochs c) v) /\
  (cstr (op_user op) = cstr v ->
   exists y, epoch_find (epochs (clock_step c op)) v = Some y /\ ec_epoch y = op_epoch op /\
     (ec_until y = op_reading op + FENCE_MS \/
      (exists w e t, op = OpWait w e t) /\
      (epoch_find (epochs c) (op_user op) = Some y \/ epoch_find (epochs c) (op_user op) = None /\ op_epoch op = 1))).
Proof.
  intros R. destruct (step_accepted c op R) as (entry & c1 & O & ->).
  pose proof (observe_epoch_spec _ _ _ _ _ _ O) as (S1 & S2 & _ & Su & Se & F & D). cbn in S1, S2.
  assert (Fu : epoch_find (epochs c1) (op_user op) = Some entry).
  { rewrite F. by rewrite (proj2 (bytes_eqb_eq _ _) eq_refl). }
  destruct op as [u e t|u e t]; cbn [op_reading op_user op_epoch] in *.
  - split; [done|]. split; [done|]. split; intros Hv; rewrite F.
    + destruct (bytes_eqb (cstr u) (cstr v)) eqn:B; [by apply bytes_eqb_eq in B|done].
    + rewrite (proj2 (bytes_eqb_eq _ _) Hv). exists entry. split; [done|]. split; [done|].
      destruct D as [[D _]|[D|(D & D1 & _)]]; [right|by left|right]; (split; [by do 3 eexists|]); [by left|by right].
  - cbn [store_entry startup_until last_now epochs]. split; [done|]. split; [done|].
    split; intros Hv; rewrite (epoch_find_store _ _ entry) by done.
    + destruct (bytes_eqb (cstr u) (cstr v)) eqn:B; [by apply bytes_eqb_eq in B|]. by rewrite F, B.
    + rewrite (proj2 (bytes_eqb_eq _ _) Hv). eexists. split; [reflexivity|]. cbn. split; [done|]. by left.
Qed.

Lemma epoch_find_cstr l u v : cstr u = cstr v -> epoch_find l u = epoch_find l v.
Proof. intros Euv. induction l as [|y l IH]; [done|]. cbn [epoch_find sb_streq]. by rewrite Euv, IH. Qed.

Lemma reading_dec c t : reading_ok c t \/ ~ reading_ok c t.
Proof. destruct (read_now_cases c t) as [[]|[]]; tauto. Qed.

Lemma fenced_step c op u T : fenced c u T -> fenced (clock_step c op) u T.
Proof.
  intros [Hn Hf]. destruct (reading_dec c (op_reading op)) as [R|R].
  2: { rewrite step_rejected by done. done. }
  destruct (step_entry c op u R) as (Es & El & Eo & Eu). unfold fenced. rewrite Es, El.
  destruct R as [R _]. split; [lia|]. destruct Hf as [Hs|(x & Fx & Hx)]; [by left|right].
  destruct (decide (cstr (op_user op) = cstr u)) as [Eq|Ne].
  - destruct (Eu Eq) as (y & Fy & _ & Y). exists y. split; [done|].
    rewrite (epoch_find_cstr _ _ _ Eq), Fx in Y.
    destruct Y as [Y|[_ [Y|[Y _]]]]; [lia|injection Y as <-; done|discriminate].
  - exists x. by rewrite (Eo Ne).
Qed.

Lemma fenced_run c ops u T : fenced c u T -> fenced (clock_run c ops) u T.
Proof. revert c. induction ops as [|op ops IH]; intros c F; [done|]. apply IH. by apply fenced_step. Qed.

(** What a wait answers, through the entry it leaves. *)
Lemma wait_value c u e t :
  reading_ok c t ->
  exists y, epoch_find (epochs (clock_step c (OpWait u e t))) u = Some y /\
    wait c u e t = Z.max 0 (Z.max (ec_until y) (startup_until c) - t).
Proof.
  intros R. destruct (step_accepted c (OpWait u e t) R) as (y & c1 & O & ->). cbn [op_reading op_user op_epoch] in O.
  pose proof (observe_epoch_spec _ _ _ _ _ _ O) as (S1 & _ & _ & _ & _ & F & _). exists y.
  split; [by rewrite F, (proj2 (bytes_eqb_eq _ _) eq_refl)|].
  unfold wait. cbn [sb_proxy_clock_wait_ms]. destruct (read_now_cases (set_used c) t) as [[_ ->]|[N _]]; [|by destruct N].
  cbn [set_used startup_until used epochs]. rewrite O. cbn [fst]. rewrite S1. cbn [startup_until].
  destruct (startup_until c <? ec_until y) eqn:B1; bool_facts; destruct (t <? _) eqn:B2; bool_facts; lia.
Qed.

Lemma wait_rejected c u e t : ~ reading_ok c t -> wait c u e t = FENCE_MS.
Proof.
  intros R. unfold wait. cbn [sb_proxy_clock_wait_ms].
  by destruct (read_now_cases (set_used c) t) as [[N _]|[_ ->]]; [destruct R|].
Qed.

Lemma fenced_wait c u e t T : fenced c u T -> reading_ok c t -> T <= t + wait c u e t.
Proof.
  intros F R. apply (fenced_step c (OpWait u e t)) in F as [_ F].
  destruct (wait_value c u e t R) as (y & Fy & ->).
  destruct (step_entry c (OpWait u e t) u R) as (Es & _). rewrite Es, Fy in F.
  destruct F as [F|(x & [= <-] & F)]; lia.
Qed.

(** ** Fence safety *)

(** Operations that start a fence for their user: a reset, and the first sight of
    an epoch other than the one recorded (or of a new user past its first). *)
Definition starts_fence (c : sb_proxy_clock) (op : clock_op) : Prop :=
  match op with
  | OpReset _ _ _ => True
  | OpWait u e _ => match epoch_find (epochs c) u with Some x => ec_epoch x <> e | None => e <> 1 end
  end.

Lemma starts_fence_fenced c op :
  reading_ok c (op_reading op) -> starts_fence c op ->
  fenced (clock_step c op) (op_user op) (op_reading op + FENCE_MS).
Proof.
  intros R S. destruct (step_entry c op (op_user op) R) as (_ & El & _ & Eu).
  destruct (Eu eq_refl) as (y & Fy & Ey & Y). split; [lia|]. right. exists y. split; [done|].
  destruct Y as [Y|[(w & e & t & ->) [Y|[Y Z1]]]]; [lia| |]; cbn in *; rewrite Y in S; congruence.
Qed.

(** C8: once a reset, or a wait that sees a new epoch, was accepted at time
    [t0], then whatever waits and resets of whatever users follow (other threads'
    included), a wait of that user accepted at time [t] never lets it go on before
    [t0 + 60000] ms; a wait whose reading is refused answers the full period. *)
Theorem fence_safety c op ops e t :
  reading_ok c (op_reading op) -> starts_fence c op ->
  let c' := clock_run (clock_step c op) ops in
  (reading_ok c' t -> op_reading op + FENCE_MS <= t + wait c' (op_user op) e t) /\
  (~ reading_ok c' t -> wait c' (op_user op) e t = FENCE_MS).
Proof.
  intros R S c'. split; [|apply wait_rejected]. intros R'. apply fenced_wait; [|done].
  by apply fenced_run, starts_fence_fenced.
Qed.

Lemma fence_safety_witness :
  let c := clock_run (clock_step (mk_clock 0 5 false []) (OpReset (bs "u") 2 1000))
             [OpWait (bs "v") 1 1500; OpReset (bs "w") 7 2000; OpWait (bs "u") 2 3000] in
  wait c (bs "u") 2 30000 = 31000 /\ 1000 + FENCE_MS <= 30000 + wait c (bs "u") 2 30000.
Proof.
  cbv zeta. split; [by vm_compute|].
  refine (proj1 (fence_safety (mk_clock 0 5 false []) (OpReset (bs "u") 2 1000)
    [OpWait (bs "v") 1 1500; OpReset (bs "w") 7 2000; OpWait (bs "u") 2 3000] 2 30000 _ I) _).
  - vm_compute. repeat split; discriminate.
  - vm_compute. repeat split; discriminate.
Defined.

(** ** Expiry *)

(** Operations that start no fence for [u] at epoch [e]. *)
Definition op_quiet (u : bytes) (e : Z) (op : clock_op) : Prop :=
  match op with
  | OpWait v f _ => cstr v = cstr u -> f = e
  | OpReset v _ _ => cstr v <> cstr u
  end.

(** [u] is known at epoch [e] and every fence that concerns it ends by [T]. *)
Definition settles (c : sb_proxy_clock) (u : bytes) (e T : Z) : Prop :=
  startup_until c <= T /\ exists x, epoch_find (epochs c) u = Some x /\ ec_epoch x = e /\ ec_until x <= T.

Lemma observed_same c u e t x c1 entry :
  epoch_find (epochs c) u = Some x -> ec_epoch x = e -> observe_epoch c u e t = (entry, c1) -> entry = x /\ c1 = c.
Proof. intros F <-. unfold observe_epoch. rewrite F, Z.eqb_refl. by intros [= <- <-]. Qed.

Lemma settles_step c op u e T : op_quiet u e op -> settles c u e T -> settles (clock_step c op) u e T.
Proof.
  intros Q (Hs & x & Fx & Ex & Hx). destruct (reading_dec c (op_reading op)) as [R|R].
  2: { rewrite step_rejected by done. split; [done|]. by exists x. }
  destruct (step_entry c op u R) as (Es & _ & Eo & _). unfold settles. rewrite Es. split; [done|].
  destruct (decide (cstr (op_user op) = cstr u)) as [Eq|Ne]; [|exists x; by rewrite (Eo Ne)].
  destruct op as [v f t|v f t]; cbn [op_quiet op_user] in *; [|done].
  destruct (step_accepted c (OpWait v f t) R) as (y & c1 & O & ->). cbn [op_reading op_user op_epoch] in O.
  apply (observed_same _ _ _ _ x) in O as [-> ->]; [by exists x| |by rewrite Q].
  cbn [epochs]. by rewrite (epoch_find_cstr _ _ _ Eq).
Qed.

Lemma settles_run c ops u e T : Forall (op_quiet u e) ops -> settles c u e T -> settles (clock_run c ops) u e T.
Proof.
  intros Q. revert c. induction Q as [|op ops Qo Q IH]; intros c St; [done|]. apply IH. by apply settles_step.
Qed.

(** A reachable clock settles every user it knows a period after its last reading. *)
Lemma clock_ok_settles c u x :
  clock_ok c -> epoch_find (epochs c) u = Some x -> settles c u (ec_epoch x) (last_now c + FENCE_MS).
Proof.
  intros (_ & Hs & He) F. split; [lia|]. exists x. split; [done|]. split; [done|].
  apply epoch_find_same in F as [_ F]. rewrite Forall_forall in He. apply (He x F).
Qed.

(** Fences expire.  From any state of the invariant that knows user [u]
    at epoch [e], if no later operation resets [u] or shows another epoch for it,
    a wait of [u] at a reading a full period later answers 0, however many waits
    (which do not extend the fence) and whatever operations of other users came
    between.  No wait is ever negative or longer than the period, and the invariant
    is kept. *)
Theorem fence_expires c u x ops t :
  clock_ok c -> epoch_find (epochs c) u = Some x -> Forall (op_quiet u (ec_epoch x)) ops ->
  let c' := clock_run c ops in
  clock_ok c' /\ (forall v e s, 0 <= wait c' v e s <= FENCE_MS) /\
  (reading_ok c' t -> last_now c + FENCE_MS <= t -> wait c' u (ec_epoch x) t = 0).
Proof.
  intros K F Q c'. assert (K' : clock_ok c') by by apply clock_run_ok.
  split; [done|]. split; [intros v e s; by apply wait_ok|]. intros R Ht.
  pose proof (settles_run c ops u _ _ Q (clock_ok_settles c u x K F)) as St.
  apply (settles_step _ (OpWait u (ec_epoch x) t)) in St; [|done]. destruct St as (Hs & y & Fy & _ & Hy).
  destruct (wait_value c' u (ec_epoch x) t R) as (z & Fz & ->).
  destruct (step_entry c' (OpWait u (ec_epoch x) t) u R) as (Es & _). fold c' in Fy, Hs. rewrite Es in Hs.
  rewrite Fy in Fz. injection Fz as <-. lia.
Qed.

Lemma fence_expires_witness :
  let c := mk_clock 0 1000 true [mk_epoch (bs "u") 2 61000] in
  wait (clock_run c [OpReset (bs "v") 3 50000; OpWait (bs "u") 2 60000]) (bs "u") 2 61000 = 0 /\
  wait (clock_run c [OpWait (bs "u") 2 60000]) (bs "u") 2 60999 = 1.
Proof.
  cbv zeta. split; [|by vm_compute].
  refine (proj2 (proj2 (fence_expires (mk_clock 0 1000 true [mk_epoch (bs "u") 2 61000]) (bs "u") (mk_epoch (bs "u") 2 61000)
    [OpReset (bs "v") 3 50000; OpWait (bs "u") 2 60000] 61000 _ _ _)) _ _).
  - repeat split; try (vm_compute; discriminate). repeat constructor; vm_compute; discriminate.
  - by vm_compute.
  - repeat constructor. vm_compute. discriminate.
  - vm_compute. split; [discriminate|split; discriminate].
  - vm_compute. discriminate.
Defined.

(** ** Restart *)

Definition row_entry (now : Z) (row : option bytes * Z) (e : proxy_epoch_clock) : Prop :=
  exists u, fst row = Some u /\ e = mk_epoch (cstr u) (snd row) (if 1 <? snd row then now + FENCE_MS else 0) /\ 1 <= snd row.

(** The rows read are the entries kept, last row first. *)
Lemma snapshot_rows_spec rows c c' :
  snapshot_rows c rows = Ok c' ->
  startup_until c' = startup_until c /\ last_now c' = last_now c /\ used c' = used c /\
  exists l, epochs c' = rev l ++ epochs c /\ Forall2 (row_entry (last_now c)) rows l.
Proof.
  revert c. induction rows as [|[o epoch] rows IH]; intros c; cbn [snapshot_rows].
  - intros <-%Ok_inj. do 3 (split; [done|]). exists []. split; [done|constructor].
  - destruct o as [w|]; cbn [fmap option_fmap option_map]; [|discriminate]. destruct (cstr w) as [|ch u] eqn:Ew; [discriminate|].
    destruct ((128 <? _) || (epoch <? 1)) eqn:B; [discriminate|]. apply orb_false_iff in B as [_ B]. bool_facts.
    intros (E1 & E2 & E3 & l & El & Fl)%IH. cbn [epoch_add startup_until last_now used epochs] in *.
    do 3 (split; [done|]). eexists (_ :: l). split.
    + rewrite El. cbn [rev]. by rewrite <- app_assoc.
    + constructor; [|exact Fl]. exists w. split; [done|]. cbn [snd]. split; [|lia].
      rewrite Ew. rewrite <- Ew, cstr_idem. reflexivity.
Qed.

Lemma epoch_find_exists l u : (exists e, e ∈ l /\ same_user u e) -> exists x, epoch_find l u = Some x.
Proof.
  intros (e & He & S). induction l as [|y l IH]; [by apply elem_of_nil in He|]. cbn [epoch_find].
  destruct (sb_streq (Some (ec_user y)) (Some u)) eqn:B; [by eexists|]. apply IH.
  apply elem_of_cons in He as [->|He]; [|done]. unfold same_user in S. congruence.
Qed.

(** What a successful open of an existing database leaves. *)
Lemma fresh_clock_inv reading db c :
  fresh_clock reading db = Ok c -> sn_tables db = Ok 2 ->
  exists outstanding l, sn_outstanding db = Ok outstanding /\ used c = false /\
    0 <= reading <= sn_observed db /\ sn_observed db <= INT64_MAX - FENCE_MS /\ last_now c = sn_observed db /\
    startup_until c = (if outstanding : bool then sn_observed db + FENCE_MS else 0) /\
    epochs c = map (fence_epoch (sn_observed db)) (rev l) /\ Forall2 (row_entry reading) (sn_rows db) l.
Proof.
  unfold fresh_clock. destruct ((reading <? 0) || _) eqn:B0; [discriminate|]. apply orb_false_iff in B0 as [B0 _].
  intros Ht T. unfold initialize_snapshot in Ht. rewrite T in Ht. apply bind_Ok in Ht as (_ & _ & Ht).
  cbn -[snapshot_rows] in Ht. apply bind_Ok in Ht as (o & Eo & Ht). apply bind_Ok in Ht as (c1 & E1 & Ht).
  apply bind_Ok in Ht as (_ & _ & Ht). apply bind_Ok in Ht as (_ & _ & Ht).
  destruct ((_ <? _) || _) eqn:B1; [discriminate|]. apply Ok_inj in Ht as <-. apply orb_false_iff in B1 as [B1 B2].
  apply snapshot_rows_spec in E1 as (S1 & S2 & S3 & l & El & Fl). cbn [last_now startup_until used epochs] in *.
  rewrite S2 in B1. bool_facts. exists o, l. rewrite app_nil_r in El. rewrite S1, S3, El. repeat split; (done || lia).
Qed.

Lemma fence_epoch_ok observed e :
  0 <= observed -> ((1 <? ec_epoch e) = false -> ec_until e = 0) -> entry_ok observed (fence_epoch observed e).
Proof. intros Ho He. unfold fence_epoch, entry_ok, FENCE_MS. case_if; cbn [ec_until]; [lia|]. rewrite He; lia. Qed.

Lemma fresh_clock_ok reading db c : fresh_clock reading db = Ok c -> sn_tables db = Ok 2 -> clock_ok c.
Proof.
  intros Hf T. destruct (fresh_clock_inv _ _ _ Hf T) as (o & l & _ & _ & Hr & Hm & El & Es & Ee & Fl).
  unfold clock_ok. rewrite El, Es, Ee. split; [lia|]. split; [destruct o; unfold FENCE_MS; lia|].
  apply Forall_forall. intros e (x & -> & Hx)%list_elem_of_fmap. apply fence_epoch_ok; [lia|]. intros B.
  apply list_elem_of_In, in_rev, list_elem_of_In in Hx. apply list_elem_of_lookup in Hx as [i Hx].
  destruct (Forall2_lookup_r _ _ _ _ _ Fl Hx) as (row & _ & u & _ & -> & _). cbn [ec_epoch ec_until] in *. by rewrite B.
Qed.

(** Users the database already knows past their first epoch. *)
Definition persisted_reset (rows : list (option bytes * Z)) (u : bytes) : Prop :=
  (exists w k, (Some w, k) ∈ rows /\ cstr w = cstr u) /\
  (forall w k, (Some w, k) ∈ rows -> cstr w = cstr u -> 1 < k).

Lemma fresh_clock_fenced reading db c u :
  fresh_clock reading db = Ok c -> sn_tables db = Ok 2 ->
  sn_outstanding db = Ok true \/ persisted_reset (sn_rows db) u -> fenced c u (sn_observed db + FENCE_MS).
Proof.
  intros Hf T P. destruct (fresh_clock_inv _ _ _ Hf T) as (o & l & Eo & _ & Hr & Hm & El & Es & Ee & Fl).
  split; [lia|]. destruct P as [P|[(w & k & Hw & Ew) Hall]].
  { left. rewrite P in Eo. injection Eo as <-. lia. }
  right. destruct (epoch_find_exists (epochs c) u) as [x Fx].
  { apply list_elem_of_lookup in Hw as [i Hw]. destruct (Forall2_lookup_l _ _ _ _ _ Fl Hw) as (e & He & w' & [= <-] & -> & _).
    eexists. split.
    - rewrite Ee. apply list_elem_of_fmap. eexists. split; [reflexivity|].
      apply list_elem_of_In, in_rev. rewrite rev_involutive. apply list_elem_of_In. by eapply list_elem_of_lookup_2.
    - apply same_user_cstr. unfold fence_epoch. cbn [ec_epoch ec_user]. case_if; cbn [ec_user]; by rewrite cstr_idem. }
  exists x. split; [done|]. apply epoch_find_same in Fx as [Sx Hx]. rewrite Ee in Hx.
  apply list_elem_of_fmap in Hx as (y & -> & Hy). apply list_elem_of_In, in_rev, list_elem_of_In in Hy.
  apply list_elem_of_lookup in Hy as [i Hy]. destruct (Forall2_lookup_r _ _ _ _ _ Fl Hy) as ([o' k'] & Hrow & w' & Ew' & -> & _).
  cbn [fst snd] in *. subst o'. apply list_elem_of_lookup_2 in Hrow. apply same_user_cstr in Sx.
  unfold fence_epoch in *. cbn [ec_epoch ec_user] in *. destruct (1 <? k') eqn:B; bool_facts; cbn [ec_user ec_until] in *; [lia|].
  rewrite cstr_idem in Sx. specialize (Hall _ _ Hrow Sx). lia.
Qed.

(** Restart safety.  When the database is opened with leases outstanding,
    or with a user past its first epoch, no wait of that user (of any user, for
    outstanding leases) ends before a full period after the open, whatever else
    happens; the clock obtained satisfies the invariant and is unused. *)
Theorem restart_fence reading db c ops u e t :
  fresh_clock reading db = Ok c -> sn_tables db = Ok 2 ->
  clock_ok c /\ used c = false /\
  (sn_outstanding db = Ok true \/ persisted_reset (sn_rows db) u -> reading_ok (clock_run c ops) t ->
   sn_observed db + FENCE_MS <= t + wait (clock_run c ops) u e t).
Proof.
  intros Hf T. split; [by eapply fresh_clock_ok|].
  split; [by destruct (fresh_clock_inv _ _ _ Hf T) as (o & l & _ & Hu & _)|].
  intros P R. apply fenced_wait; [|done]. apply fenced_run. by eapply fresh_clock_fenced.
Qed.

Definition example_db : snapshot :=
  mk_snapshot (Ok tt) (Ok 2) (Ok false) [(Some (bs "u"), 3); (Some (bs "v"), 1)] (Ok tt) (Ok tt) 1200.

Lemma restart_fence_witness :
  let c := mk_clock 0 1200 false [mk_epoch (bs "v") 1 0; mk_epoch (bs "u") 3 61200] in
  fresh_clock 1000 example_db = Ok c /\ 1200 + FENCE_MS <= 2000 + wait (clock_run c [OpWait (bs "u") 3 1500]) (bs "u") 3 2000.
Proof.
  cbv zeta. split; [by vm_compute|].
  refine (proj2 (proj2 (restart_fence 1000 example_db _ [OpWait (bs "u") 3 1500] (bs "u") 3 2000 _ _)) _ _).
  - by vm_compute.
  - reflexivity.
  - right. split; [exists (bs "u"), 3; split; [left|done]|].
    intros w k. cbn [example_db sn_rows]. rewrite !elem_of_cons, elem_of_nil.
    intros [[= -> ->]|[[= -> ->]|[]]]; vm_compute; congruence.
  - vm_compute. repeat split; discriminate.
Defined.

(** ** Injected time sources *)

Lemma epoch_find_refence now l u : epoch_find (map (refence now) l) u = refence now <$> epoch_find l u.
Proof.
  induction l as [|y l IH]; [done|]. cbn [map epoch_find].
  assert (ec_user (refence now y) = ec_user y) as -> by (unfold refence; by case_if).
  by destruct (sb_streq _ _).
Qed.

Lemma step_used c op : used (clock_step c op) = true.
Proof.
  destruct (reading_dec c (op_reading op)) as [R|R]; [|by rewrite step_rejected].
  destruct (step_accepted c op R) as (y & c1 & O & ->). apply observe_epoch_spec in O as (_ & _ & U & _).
  by destruct op.
Qed.

Lemma run_used c ops : used c = true -> used (clock_run c ops) = true.
Proof. revert c. induction ops as [|op ops IH]; intros c U; [done|]. apply IH, step_used. Qed.

(** A time source can only be injected before the clock is used: after
    any operation, whatever follows, the call is a conflict.  When it is accepted,
    the invariant is kept and a fence pending for a user is restarted for the full
    period in the new time domain, and stays in force through later operations. *)
Theorem set_source_restarts c r c' u x ops e t :
  clock_ok c -> sb_proxy_clock_set_source c true r = Ok c' ->
  clock_ok c' /\
  (forall op ops' r', exists m, sb_proxy_clock_set_source (clock_run c (op :: ops')) true r' = Err (mk_err SB_ERR_CONFLICT m)) /\
  (startup_until c <> 0 \/ epoch_find (epochs c) u = Some x /\ ec_until x <> 0 ->
   reading_ok (clock_run c' ops) t -> r + FENCE_MS <= t + wait (clock_run c' ops) u e t).
Proof.
  intros (Kl & Ks & Ke) Hs. split; [|split].
  - unfold sb_proxy_clock_set_source in Hs. cbn [negb] in Hs. destruct (used c); [discriminate|].
    destruct ((r <? 0) || _) eqn:B; [discriminate|]. apply orb_false_iff in B as [B1 B2]. bool_facts.
    apply Ok_inj in Hs as <-. split; cbn [last_now startup_until epochs]; [lia|].
    split; [case_if; unfold FENCE_MS; lia|]. apply Forall_forall. intros y (z & -> & Hz)%list_elem_of_fmap.
    unfold refence, entry_ok, FENCE_MS. case_if; cbn [ec_until]; lia.
  - intros op ops' r'. change (clock_run c (op :: ops')) with (clock_run (clock_step c op) ops').
    unfold sb_proxy_clock_set_source. cbn [negb].
    rewrite (run_used (clock_step c op) ops' (step_used c op)). by eexists.
  - intros P R. apply fenced_wait; [|done]. apply fenced_run.
    unfold sb_proxy_clock_set_source in Hs. cbn [negb] in Hs. destruct (used c); [discriminate|].
    destruct ((r <? 0) || _) eqn:B; [discriminate|]. apply Ok_inj in Hs as <-.
    split; cbn [last_now startup_until epochs]; [lia|]. destruct P as [P|[Fx Hx]].
    + left. by rewrite eqb_false.
    + right. exists (refence r x). rewrite epoch_find_refence, Fx. split; [done|]. unfold refence. by rewrite eqb_false.
Qed.

Lemma set_source_restarts_witness :
  let c := mk_clock 0 70000 false [mk_epoch (bs "u") 3 100000] in
  let c' := mk_clock 0 10 false [mk_epoch (bs "u") 3 60010] in
  sb_proxy_clock_set_source c true 10 = Ok c' /\ 10 + FENCE_MS <= 50 + wait c' (bs "u") 3 50.
Proof.
  cbv zeta. split; [by vm_compute|].
  refine (proj2 (proj2 (set_source_restarts (mk_clock 0 70000 false [mk_epoch (bs "u") 3 100000]) 10 _
    (bs "u") (mk_epoch (bs "u") 3 100000) [] 3 50 _ _)) _ _).
  - repeat split; try (vm_compute; discriminate). repeat constructor; vm_compute; discriminate.
  - by vm_compute.
  - right. split; [by vm_compute|]. vm_compute. discriminate.
  - vm_compute. repeat split; discriminate.
Defined.
