(* ===== verification/ProxyRegistry.v ===== *)
(** * The process-wide registry of lease clocks ([c/src/proxy_clock.c], attach and detach)

    Connections to one database must share one clock, or a fence set through one
    connection would not bind another.  [sb_proxy_clock_attach] looks the clock up
    under [registry_mutex], and on a miss builds one outside the lock, takes the
    lock again, looks up a second time and only then inserts.  Each critical
    section is one step here, so the steps of several threads interleave freely
    between the two lookups.  Clock objects are named by allocation numbers: the
    address of a clock under construction is known to its thread only, so the
    number is drawn when the clock is published.  [references] is a count of live
    connections, each a heap object, and so stays below 2^64. *)

From S2P Require Import Prelude Util.

Record identity := mk_identity { process : Z; device : Z; inode : Z; memory_identity : option Z }.

Record cell := mk_cell { cell_ptr : nat; cell_identity : identity; references : nat }.

Definition same_identity (left right : identity) : bool :=
  if negb (process left =? process right) then false
  else match memory_identity left, memory_identity right with
       | None, None => (device left =? device right) && (inode left =? inode right)
       | Some a, Some b => a =? b
       | _, _ => false
       end.

(** The start of [sb_proxy_clock_attach]; [stat] is [None] when the call fails. *)
Definition attach_identity (pid : Z) (filename : option bytes) (stat : option (Z * Z)) (handle : Z) : identity :=
  match cstr <$> filename, stat with
  | Some (_ :: _), Some (dev, ino) => mk_identity pid dev ino None
  | _, _ => mk_identity pid 0 0 (Some handle)
  end.

Fixpoint find_clock (registry : list cell) (id : identity) : option cell :=
  match registry with
  | [] => None
  | clock :: registry => if same_identity (cell_identity clock) id then Some clock else find_clock registry id
  end.

(** Attaching threads past a failed first lookup, and the connections attached. *)
Record sys := mk_sys {
  registry : list cell; pending : list identity; handles : list (identity * nat); next_ptr : nat }.

Definition retain (p : nat) (c : cell) : cell :=
  if (cell_ptr c =? p)%nat then mk_cell (cell_ptr c) (cell_identity c) (references c + 1) else c.

(** First critical section. *)
Definition attach_lookup (s : sys) (id : identity) : sys :=
  match find_clock (registry s) id with
  | Some shared => mk_sys (map (retain (cell_ptr shared)) (registry s)) (pending s)
                     ((id, cell_ptr shared) :: handles s) (next_ptr s)
  | None => mk_sys (registry s) (id :: pending s) (handles s) (next_ptr s)
  end.

(** Second critical section, of the [i]-th pending thread. *)
Definition attach_insert (s : sys) (i : nat) : option sys :=
  id ← pending s !! i;
  let pending := delete i (pending s) in
  match find_clock (registry s) id with
  | Some shared => Some (mk_sys (map (retain (cell_ptr shared)) (registry s)) pending
                           ((id, cell_ptr shared) :: handles s) (next_ptr s))
  | None => Some (mk_sys (mk_cell (next_ptr s) id 1 :: registry s) pending ((id, next_ptr s) :: handles s) (S (next_ptr s)))
  end.

(** The clock could not be initialised: the thread gives up. *)
Definition attach_fail (s : sys) (i : nat) : option sys :=
  _ ← pending s !! i; Some (mk_sys (registry s) (delete i (pending s)) (handles s) (next_ptr s)).

(** [None] on a dangling clock. *)
Fixpoint release (registry : list cell) (p : nat) : option (list cell) :=
  match registry with
  | [] => None
  | c :: l => if (cell_ptr c =? p)%nat
              then Some (match references c with
                         | S (S n) => mk_cell (cell_ptr c) (cell_identity c) (S n) :: l
                         | _ => l
                         end)
              else l' ← release l p; Some (c :: l')
  end.

Definition sb_proxy_clock_detach (s : sys) (i : nat) : option sys :=
  h ← handles s !! i;
  registry ← release (registry s) (snd h);
  Some (mk_sys registry (pending s) (delete i (handles s)) (next_ptr s)).

(** * Theorems *)

Inductive reg_step : sys -> sys -> Prop :=
  | step_lookup s id : reg_step s (attach_lookup s id)
  | step_insert s i s' : attach_insert s i = Some s' -> reg_step s s'
  | step_fail s i s' : attach_fail s i = Some s' -> reg_step s s'
  | step_detach s i s' : sb_proxy_clock_detach s i = Some s' -> reg_step s s'.

Definition reg_init : sys := mk_sys [] [] [] 0.

Definition reachable (s : sys) : Prop := rtc reg_step reg_init s.

(** [same_identity] is an equivalence. *)
Lemma same_identity_refl a : same_identity a a = true.
Proof. unfold same_identity. rewrite Z.eqb_refl. cbn. destruct (memory_identity a); by rewrite ?Z.eqb_refl. Qed.

Lemma same_identity_spec a b :
  same_identity a b = true <-> process a = process b /\ memory_identity a = memory_identity b /\
    (memory_identity a = None -> device a = device b /\ inode a = inode b).
Proof.
  unfold same_identity. destruct (process a =? process b) eqn:P; bool_facts; cbn [negb]; [|intuition congruence].
  destruct (memory_identity a), (memory_identity b); rewrite ?andb_true_iff, ?Z.eqb_eq; split.
  all: try (intros; congruence). all: firstorder congruence.
Qed.

Lemma same_identity_sym a b : same_identity a b = true -> same_identity b a = true.
Proof. rewrite !same_identity_spec. intros (-> & -> & E). do 2 (split; [done|]). intros [-> ->]%E. done. Qed.

Lemma same_identity_trans a b c : same_identity a b = true -> same_identity b c = true -> same_identity a c = true.
Proof.
  rewrite !same_identity_spec. intros (-> & -> & E1) (-> & E & E2). do 2 (split; [congruence|]).
  intros N. destruct (E2 N) as [<- <-]. by apply E1.
Qed.

Lemma find_clock_Some l id c : find_clock l id = Some c -> c ∈ l /\ same_identity (cell_identity c) id = true.
Proof.
  induction l as [|x l IH]; cbn [find_clock]; [done|]. case_if; [intros [= <-]; split; [left|done]|].
  intros [H1 H2]%IH. split; [by right|done].
Qed.

Lemma find_clock_None l id c : find_clock l id = None -> c ∈ l -> same_identity (cell_identity c) id = false.
Proof.
  induction l as [|x l IH]; cbn [find_clock]; [by intros _ ?%elem_of_nil|]. case_if; [done|].
  intros F [->|Hc]%elem_of_cons; auto.
Qed.

(** ** Invariant *)

Definition handle_count (s : list (identity * nat)) (p : nat) : nat := length (filter (fun h => h.2 = p) s).

Record reg_inv (s : sys) : Prop := {
  inv_ptrs : NoDup (map cell_ptr (registry s));
  inv_ids : forall a b, a ∈ registry s -> b ∈ registry s ->
              same_identity (cell_identity a) (cell_identity b) = true -> a = b;
  inv_refs : forall c, c ∈ registry s -> references c = handle_count (handles s) (cell_ptr c) /\ (0 < references c)%nat;
  inv_handles : forall h, h ∈ handles s ->
              exists c, c ∈ registry s /\ cell_ptr c = h.2 /\ same_identity (cell_identity c) h.1 = true;
  inv_fresh : forall c, c ∈ registry s -> (cell_ptr c < next_ptr s)%nat }.

Lemma handle_count_cons h l p : handle_count (h :: l) p = (handle_count l p + if (h.2 =? p)%nat then 1 else 0)%nat.
Proof.
  unfold handle_count. rewrite filter_cons. case_decide as D.
  - rewrite (proj2 (Nat.eqb_eq _ _) D). cbn [length]. lia.
  - rewrite (proj2 (Nat.eqb_neq _ _) D). lia.
Qed.

Lemma handle_count_delete l i h p :
  l !! i = Some h -> handle_count l p = (handle_count (delete i l) p + if (h.2 =? p)%nat then 1 else 0)%nat.
Proof.
  revert i. induction l as [|x l IH]; intros [|i] H; try done.
  - injection H as ->. apply handle_count_cons.
  - change (delete (S i) (x :: l)) with (x :: delete i l). rewrite !handle_count_cons. rewrite (IH i H). lia.
Qed.

Lemma cell_ptr_inj l a b : NoDup (map cell_ptr l) -> a ∈ l -> b ∈ l -> cell_ptr a = cell_ptr b -> a = b.
Proof.
  intros P [i Ha]%list_elem_of_lookup [j Hb]%list_elem_of_lookup E.
  assert (i = j) as -> by (eapply (NoDup_lookup _ _ _ (cell_ptr a) P); rewrite list_lookup_fmap, ?Ha, ?Hb; cbn; congruence).
  congruence.
Qed.

(** Publishing a clock that is already registered. *)
Lemma retain_inv s pend id shared :
  reg_inv s -> find_clock (registry s) id = Some shared ->
  reg_inv (mk_sys (map (retain (cell_ptr shared)) (registry s)) pend ((id, cell_ptr shared) :: handles s) (next_ptr s)).
Proof.
  intros [P I R D F] Hf. apply find_clock_Some in Hf as [Hs Hid].
  assert (Kp : forall c, cell_ptr (retain (cell_ptr shared) c) = cell_ptr c) by (intros c; unfold retain; by case_if).
  assert (Ki : forall c, cell_identity (retain (cell_ptr shared) c) = cell_identity c) by (intros c; unfold retain; by case_if).
  constructor; cbn [registry handles next_ptr].
  - rewrite map_map. by erewrite map_ext.
  - intros a b (x & -> & Hx)%list_elem_of_fmap (y & -> & Hy)%list_elem_of_fmap. rewrite !Ki. intros S. by rewrite (I x y).
  - intros c (x & -> & Hx)%list_elem_of_fmap. rewrite Kp, handle_count_cons. cbn [snd]. destruct (R x Hx) as [R1 R2].
    unfold retain. rewrite (Nat.eqb_sym (cell_ptr x)). destruct (_ =? _)%nat; cbn [references]; lia.
  - intros h [->|Hh]%elem_of_cons.
    + exists (retain (cell_ptr shared) shared). rewrite Kp, Ki. split; [|done]. by apply list_elem_of_fmap_2.
    + destruct (D h Hh) as (c & Hc & E1 & E2). exists (retain (cell_ptr shared) c). rewrite Kp, Ki.
      split; [|done]. by apply list_elem_of_fmap_2.
  - intros c (x & -> & Hx)%list_elem_of_fmap. rewrite Kp. by apply F.
Qed.

(** Publishing a new clock. *)
Lemma insert_inv s pend id :
  reg_inv s -> find_clock (registry s) id = None ->
  reg_inv (mk_sys (mk_cell (next_ptr s) id 1 :: registry s) pend ((id, next_ptr s) :: handles s) (S (next_ptr s))).
Proof.
  intros [P I R D F] Hf. pose proof (fun c => find_clock_None (registry s) id c Hf) as Hn.
  assert (Hc0 : handle_count (handles s) (next_ptr s) = 0%nat).
  { unfold handle_count. destruct (filter _ (handles s)) as [|h l] eqn:Ef; [done|].
    assert (h ∈ filter (fun h => h.2 = next_ptr s) (handles s)) as [E Hh]%list_elem_of_filter by (rewrite Ef; left).
    destruct (D h Hh) as (c & Hc & Ec & _). specialize (F c Hc). lia. }
  constructor; cbn [registry handles next_ptr].
  - cbn [map cell_ptr]. constructor; [|done]. intros (c & E & Hc)%list_elem_of_fmap. specialize (F c Hc). lia.
  - intros a b [->|Ha]%elem_of_cons [->|Hb]%elem_of_cons S; [done| | |by apply I]; cbn [cell_identity] in S.
    + apply same_identity_sym in S. rewrite (Hn b Hb) in S. discriminate.
    + rewrite (Hn a Ha) in S. discriminate.
  - intros c [->|Hc]%elem_of_cons; cbn [cell_ptr references]; rewrite handle_count_cons; cbn [snd].
    + rewrite Hc0, Nat.eqb_refl. lia.
    + specialize (F c Hc). destruct (R c Hc) as [R1 R2]. rewrite (proj2 (Nat.eqb_neq (next_ptr s) (cell_ptr c))) by lia. lia.
  - intros h [->|Hh]%elem_of_cons.
    + eexists. split; [left|]. split; [done|]. apply same_identity_refl.
    + destruct (D h Hh) as (c & Hc & E). exists c. split; [by right|done].
  - intros c [->|Hc]%elem_of_cons; cbn [cell_ptr]; [lia|]. specialize (F c Hc). lia.
Qed.

(** ** Detach *)

(** The cell of a live handle, without the list around it. *)
Lemma release_spec l p c :
  NoDup (map cell_ptr l) -> c ∈ l -> cell_ptr c = p ->
  exists l1 l2, l = l1 ++ c :: l2 /\
    release l p = Some (l1 ++ match references c with
                              | S (S n) => mk_cell (cell_ptr c) (cell_identity c) (S n) :: l2
                              | _ => l2
                              end).
Proof.
  intros N Hc Ep. induction l as [|x l IH]; [by apply elem_of_nil in Hc|]. cbn [map] in N. apply NoDup_cons in N as [Nx N].
  cbn [release]. destruct (cell_ptr x =? p)%nat eqn:B.
  - apply Nat.eqb_eq in B. apply elem_of_cons in Hc as [->|Hc]; [by exists [], l|].
    destruct Nx. rewrite B, <- Ep. by apply list_elem_of_fmap_2.
  - apply Nat.eqb_neq in B. apply elem_of_cons in Hc as [->|Hc]; [done|].
    destruct (IH N Hc) as (l1 & l2 & -> & ->). by exists (x :: l1), l2.
Qed.

Lemma elem_of_delete {A} (l : list A) i x : x ∈ delete i l -> x ∈ l.
Proof. intros H. by eapply elem_of_sublist, sublist_delete. Qed.

Lemma detach_total s i h : reg_inv s -> handles s !! i = Some h -> exists s', sb_proxy_clock_detach s i = Some s'.
Proof.
  intros [P _ _ D _] Hi. destruct (D h) as (c & Hc & Ep & _); [by eapply list_elem_of_lookup_2|].
  destruct (release_spec _ _ _ P Hc Ep) as (l1 & l2 & _ & Er). unfold sb_proxy_clock_detach. rewrite Hi. cbn.
  rewrite Er. by eexists.
Qed.

(** The registry after a release: the other cells, and the released one with one
    reference less unless that was the last. *)
Definition released (c x : cell) (l : list cell) : Prop :=
  (x ∈ l /\ cell_ptr x <> cell_ptr c) \/
  (exists n, references c = S (S n) /\ x = mk_cell (cell_ptr c) (cell_identity c) (S n)).

Lemma release_elem l p c :
  NoDup (map cell_ptr l) -> c ∈ l -> cell_ptr c = p ->
  exists l', release l p = Some l' /\ NoDup (map cell_ptr l') /\ forall x, x ∈ l' <-> released c x l.
Proof.
  intros N Hc Ep. destruct (release_spec l p c N Hc Ep) as (l1 & l2 & -> & ->). eexists. split; [reflexivity|].
  rewrite map_app in N. cbn [map] in N. apply NoDup_app in N as (N1 & N2 & N3). apply NoDup_cons in N3 as [N3 N4].
  assert (D : forall x, x ∈ l1 ++ l2 -> cell_ptr x <> cell_ptr c).
  { intros x [Hx|Hx]%elem_of_app E.
    - apply (N2 (cell_ptr x)); [by apply list_elem_of_fmap_2|]. rewrite E. left.
    - apply N3. rewrite <- E. by apply list_elem_of_fmap_2. }
  assert (N5 : NoDup (map cell_ptr (l1 ++ l2))).
  { rewrite map_app. apply NoDup_app. split; [done|]. split; [|done]. intros q Hq Hq2. apply (N2 q Hq). by right. }
  assert (M : forall x, x ∈ l1 ++ l2 <-> x ∈ l1 ++ c :: l2 /\ cell_ptr x <> cell_ptr c).
  { intros x. split; [intros Hx; split; [|by apply D]|]; rewrite !elem_of_app, ?elem_of_cons in *; [tauto|].
    intros [[Hx|[->|Hx]] Ne]; tauto. }
  unfold released. destruct (references c) as [|[|n]] eqn:Er.
  - split; [done|]. intros x. rewrite M. split; [by left|]. intros [H|(m & H & _)]; [done|discriminate].
  - split; [done|]. intros x. rewrite M. split; [by left|]. intros [H|(m & H & _)]; [done|discriminate].
  - split.
    + rewrite map_app. cbn [map cell_ptr]. apply NoDup_app. split; [done|]. split; [done|]. by constructor.
    + intros x. rewrite elem_of_app, elem_of_cons, <- (M x), elem_of_app. split.
      * intros [H|[->|H]]; [by left; left|right; by exists n|by left; right].
      * intros [[H|H]|(m & [= ->] & ->)]; tauto.
Qed.

Lemma detach_inv s i s' : reg_inv s -> sb_proxy_clock_detach s i = Some s' -> reg_inv s'.
Proof.
  intros [P I R D F]. unfold sb_proxy_clock_detach. destruct (handles s !! i) as [h|] eqn:Hi; [|done]. cbn.
  destruct (D h) as (c & Hc & Ep & Ei); [by eapply list_elem_of_lookup_2|].
  destruct (release_elem _ _ _ P Hc Ep) as (l' & -> & P' & M). cbn. intros [= <-].
  assert (Q : forall p, handle_count (handles s) p = _) by (intros p; exact (handle_count_delete _ _ _ p Hi)).
  constructor; cbn [registry handles next_ptr].
  - done.
  - intros a b [[Ha Na]|(n & En & ->)]%M [[Hb Nb]|(m & Em & ->)]%M S; cbn [cell_identity] in S.
    + by apply I.
    + by rewrite (I a c Ha Hc S) in Na.
    + by rewrite (I c b Hc Hb S) in Nb.
    + congruence.
  - intros x [[Hx Nx]|(n & En & ->)]%M.
    + destruct (R x Hx) as [R1 R2]. rewrite Q, <- Ep, (proj2 (Nat.eqb_neq _ _) (not_eq_sym Nx)) in R1. lia.
    + cbn [cell_ptr references]. destruct (R c Hc) as [R1 _]. rewrite Q, <- Ep, Nat.eqb_refl in R1. lia.
  - intros g Hg. destruct (D g) as (x & Hx & Ex & Eg); [by eapply elem_of_delete|].
    destruct (decide (cell_ptr x = cell_ptr c)) as [Eq|Ne]; [|exists x; split; [by apply M; left|done]].
    assert (x = c) as ->.
    { by apply (cell_ptr_inj (registry s)). }
    destruct (R c Hc) as [R1 R2]. rewrite Q, <- Ep, Nat.eqb_refl in R1.
    assert (handle_count (delete i (handles s)) (cell_ptr c) <> 0%nat).
    { intros Z0. apply length_zero_iff_nil in Z0.
      assert (g ∈ filter (fun h => h.2 = cell_ptr c) (delete i (handles s))) as Hf by (apply list_elem_of_filter; by split).
      rewrite Z0 in Hf. by apply elem_of_nil in Hf. }
    destruct (references c) as [|[|n]] eqn:Er; [lia|lia|].
    exists (mk_cell (cell_ptr c) (cell_identity c) (S n)). split; [apply M; right; by exists n|done].
  - intros x [[Hx _]|(n & _ & ->)]%M; cbn [cell_ptr]; auto.
Qed.

Lemma reg_step_inv s s' : reg_step s s' -> reg_inv s -> reg_inv s'.
Proof.
  intros St K. destruct St as [s id|s i s' Hs|s i s' Hs|s i s' Hs].
  - unfold attach_lookup. destruct (find_clock (registry s) id) as [shared|] eqn:Hf; [by apply retain_inv|]. by destruct K.
  - unfold attach_insert in Hs. destruct (pending s !! i) as [id|]; [|done]. cbn in Hs.
    destruct (find_clock (registry s) id) as [shared|] eqn:Hf; injection Hs as <-; [by apply retain_inv|by apply insert_inv].
  - unfold attach_fail in Hs. destruct (pending s !! i) as [id|]; [|done]. injection Hs as <-. by destruct K.
  - by eapply detach_inv.
Qed.

Lemma reachable_inv s : reachable s -> reg_inv s.
Proof.
  intros Hr. assert (reg_inv reg_init) as K0.
  { constructor; cbn; [constructor| | | |]; intros; try (by (match goal with H : _ ∈ [] |- _ => apply elem_of_nil in H end)). }
  revert K0. induction Hr as [|s1 s2 s3 St Hr IH]; [done|]. intros K. apply IH. by eapply reg_step_inv.
Qed.

(** In every interleaving of attaching and detaching threads, connections
    to the same database hold the same clock and connections to different ones
    different clocks; every attached connection's clock is in the registry (never
    freed) with as many references as connections hold it, and none without; so a
    detach of any of them succeeds. *)
Theorem registry_sharing s :
  reachable s ->
  (forall h1 h2, h1 ∈ handles s -> h2 ∈ handles s -> (same_identity h1.1 h2.1 = true <-> h1.2 = h2.2)) /\
  (forall c, c ∈ registry s -> references c = handle_count (handles s) (cell_ptr c) /\ (0 < references c)%nat) /\
  (forall i h, handles s !! i = Some h -> (exists c, c ∈ registry s /\ cell_ptr c = h.2) /\
     exists s', sb_proxy_clock_detach s i = Some s').
Proof.
  intros K%reachable_inv. split; [|split; [apply K|]].
  - intros h1 h2 H1 H2. destruct (inv_handles s K h1 H1) as (c1 & Hc1 & <- & S1), (inv_handles s K h2 H2) as (c2 & Hc2 & <- & S2).
    split; intros E.
    + rewrite (inv_ids s K c1 c2); [done..|]. eapply same_identity_trans; [exact S1|].
      eapply same_identity_trans; [exact E|]. by apply same_identity_sym.
    + assert (c1 = c2) as ->; [|eapply same_identity_trans; [by apply same_identity_sym|exact S2]].
      by apply (cell_ptr_inj (registry s)); [apply K|..].
  - intros i h Hi. split; [|by eapply detach_total].
    destruct (inv_handles s K h) as (c & Hc & Ep & _); [by eapply list_elem_of_lookup_2|]. by exists c.
Qed.

(** Two threads miss at the first lookup; both publish; they share the clock. *)
Lemma registry_sharing_witness :
  let db := attach_identity 7 (Some (bs "/data/sb.db")) (Some (3, 11)) 100 in
  let other := attach_identity 7 (Some []) None 101 in
  let s := mk_sys [mk_cell 0 db 2] [other] [(db, 0%nat); (db, 0%nat)] 1 in
  reachable s /\ (same_identity db db = true <-> 0%nat = 0%nat).
Proof.
  cbv zeta. set (db := attach_identity 7 (Some (bs "/data/sb.db")) (Some (3, 11)) 100).
  set (other := attach_identity 7 (Some []) None 101).
  assert (Hr : reachable (mk_sys [mk_cell 0 db 2] [other] [(db, 0%nat); (db, 0%nat)] 1)).
  { eapply rtc_l; [apply (step_lookup _ db)|]. eapply rtc_l; [apply (step_lookup _ other)|].
    eapply rtc_l; [apply (step_lookup _ db)|]. eapply rtc_l; [apply (step_insert _ 0); reflexivity|].
    eapply rtc_l; [apply (step_insert _ 1); reflexivity|]. apply rtc_refl. }
  split; [exact Hr|]. exact (proj1 (registry_sharing _ Hr) (db, 0%nat) (db, 0%nat) (list_elem_of_here _ _) (list_elem_of_here _ _)).
Defined.
