(* ===== verification/ProxyUri.v ===== *)
(** * Proxy share links ([c/src/proxy_parser.c], string helpers to [sb_parse_proxy_uri])

    One share link (ss, vmess, trojan, vless, hysteria2 or hy2, tuic) becomes a
    node.  A string view is the bytes it covers, a position is [None] for [NPOS].
    The parsers return 1, 0 or -1: [Ok (Some node)], [Ok None], [Err].  OpenSSL's
    [EVP_DecodeBlock] is a parameter. *)

From S2P Require Import Prelude Util Json JsonText Types.

(** ** String views *)

Fixpoint sv_find (v : bytes) (c : Z) : option nat :=
  match v with
  | [] => None
  | x :: v' => if code x =? c then Some O else S <$> sv_find v' c
  end.

Fixpoint sv_rfind (v : bytes) (c : Z) : option nat :=
  match v with
  | [] => None
  | x :: v' => match sv_rfind v' c with
               | Some i => Some (S i)
               | None => if code x =? c then Some O else None
               end
  end.

Definition sv_sub (v : bytes) (off : nat) (len : option nat) : bytes :=
  match len with Some n => take n (drop off v) | None => drop off v end.

Definition sv_from (v : bytes) (off : nat) : bytes := sv_sub v off None.

Definition sv_eq (v : bytes) (s : string) : bool := bytes_eqb v (bs s).

Definition sv_starts (v : bytes) (s : string) : bool := bytes_eqb (take (length (bs s)) v) (bs s).

Definition is_space (c : ascii) : bool :=
  (code c =? 32) || (code c =? 9) || (code c =? 10) || (code c =? 11) || (code c =? 12) || (code c =? 13).

Definition is_alnum (c : ascii) : bool :=
  in_range 48 57 (code c) || in_range 97 122 (code c) || in_range 65 90 (code c).

Fixpoint trim_front (v : bytes) : bytes :=
  match v with [] => [] | c :: v' => if is_space c then trim_front v' else v end.

Definition sv_trim (v : bytes) : bytes := reverse (trim_front (reverse (trim_front v))).

(** The loop [while (v.n)] that takes the pieces of [v] up to each [c]. *)
Fixpoint sv_pieces (fuel : nat) (v : bytes) (c : Z) : list bytes :=
  match fuel, v with
  | S fuel', _ :: _ =>
      match sv_find v c with
      | Some i => sv_sub v 0 (Some i) :: sv_pieces fuel' (sv_from v (i + 1)) c
      | None => [v]
      end
  | _, _ => []
  end.

(** Each round takes at least one byte. *)
Definition pieces (v : bytes) (c : Z) : list bytes := sv_pieces (length v) v c.

Definition hex_value (c : ascii) : Z :=
  if in_range 48 57 (code c) then code c - 48
  else if in_range 97 102 (code c) then 10 + code c - 97
  else if in_range 65 70 (code c) then 10 + code c - 65
  else -1.

Fixpoint percent_decode (v : bytes) (plus_as_space : bool) : bytes :=
  match v with
  | [] => []
  | c :: v1 =>
      let plain := (if plus_as_space && (code c =? 43) then chr 32 else c) :: percent_decode v1 plus_as_space in
      match v1 with
      | h :: l :: v2 =>
          if code c =? 37 then
            if (0 <=? hex_value h) && (0 <=? hex_value l)
            then chr (Z.lor (Z.shiftl (hex_value h) 4) (hex_value l)) :: percent_decode v2 plus_as_space
            else plain
          else plain
      | _ => plain
      end
  end.

(** ** Base64 *)

Definition b64_normal (c : ascii) : ascii :=
  if code c =? 45 then chr 43 else if code c =? 95 then chr 47 else c.

Definition b64_normalize (enc : bytes) : bytes := b64_normal <$> filter (fun c => is_space c = false) enc.

Definition b64_complete (norm : bytes) : bytes :=
  norm ++ replicate ((4 - length norm mod 4) mod 4)%nat (chr 61).

Definition ends_pad (norm : bytes) (k : nat) : bool :=
  match reverse norm !! k with Some c => code c =? 61 | None => false end.

Definition b64_padding (norm : bytes) : nat :=
  if ends_pad norm 0 then if ends_pad norm 1 then 2 else 1 else 0.

Definition b64_body_char (c : ascii) : bool := is_alnum c || (code c =? 43) || (code c =? 47).

(** [=] is accepted in the last [padding] places only. *)
Definition b64_grammar (norm : bytes) (padding : nat) : bool :=
  forallb b64_body_char (take (length norm - padding) norm) &&
  forallb (fun c => b64_body_char c || (code c =? 61)) (drop (length norm - padding) norm).

Definition INT_MAX : Z := 2 ^ 31 - 1.
Definition UINT_MAX : Z := 2 ^ 32 - 1.

Section DecodeBase64.
(** Three bytes for each group of four characters; -1 is [None]. *)
Context (EVP_DecodeBlock : bytes -> option bytes).

Definition decode_base64 (enc : bytes) : option bytes :=
  let norm := b64_normalize enc in
  let len := length norm in
  if (len =? 0)%nat || (len mod 4 =? 1)%nat || (INT_MAX <? Z.of_nat len) then None
  else
    let norm := b64_complete norm in
    let padding := b64_padding norm in
    if negb (b64_grammar norm padding) then None
    else match EVP_DecodeBlock norm with
         | None => None
         | Some decoded => Some (take (length decoded - padding) decoded)
         end.
End DecodeBase64.

(** ** Ports and hosts *)

Fixpoint port_digits (v : bytes) (port : Z) : option Z :=
  match v with
  | [] => Some port
  | c :: v' =>
      if negb (in_range 48 57 (code c)) then None
      else let port := port * 10 + (code c - 48) in
           if UINT_MAX <? port then None else port_digits v' port
  end.

Definition parse_port (v : bytes) : option Z :=
  match v with
  | [] => None
  | _ => port ← port_digits v 0; if (port =? 0) || (65535 <? port) then None else Some port
  end.

Definition starts_byte (v : bytes) (c : Z) : bool := match v with x :: _ => code x =? c | [] => false end.

Definition parse_host_port (v : bytes) (default_port : Z) : option (bytes * Z) :=
  match v with
  | [] => None
  | _ =>
      if starts_byte v 91 then
        close ← sv_find v 93;
        if (close =? 1)%nat then None
        else
          let h := sv_sub v 1 (Some (close - 1)%nat) in
          if (close + 1 =? length v)%nat then Some (h, default_port)
          else if negb (starts_byte (sv_from v (close + 1)) 58) then None
          else port ← parse_port (sv_from v (close + 2)); Some (h, port)
      else
        match sv_rfind v 58 with
        | None => Some (v, default_port)
        | Some colon =>
            port ← parse_port (sv_from v (colon + 1));
            if (colon =? 0)%nat then None else Some (sv_sub v 0 (Some colon), port)
        end
  end.

(** ** Structured URIs *)

Record suri := mk_suri {
  su_user_info : bytes; su_host : bytes; su_fragment : bytes; su_port : Z; su_query : list (bytes * bytes) }.

(** Cuts [v] at the first [c]: what is before it, and what is after if there is one. *)
Definition cut (v : bytes) (c : Z) : bytes * option bytes :=
  match sv_find v c with
  | Some i => (sv_sub v 0 (Some i), Some (sv_from v (i + 1)))
  | None => (v, None)
  end.

Definition query_pair (pair : bytes) : bytes * bytes :=
  let (key, val) := cut pair 61 in
  (percent_decode key true, match val with Some v => percent_decode v true | None => [] end).

(** The prefix is written to a buffer of 32 bytes, which a longer scheme than those
    of the callers would overrun: it is cut. *)
Definition parse_structured_uri (uri : bytes) (scheme : string) (default_port : Z) : option suri :=
  let prefix := take 31 (bs scheme ++ bs "://") in
  if negb (bytes_eqb (take (length prefix) uri) prefix) then None
  else
    let uri := sv_from uri (length prefix) in
    let (uri, hash) := cut uri 35 in
    let fragment := match hash with Some f => percent_decode f false | None => [] end in
    let (uri, q) := cut uri 63 in
    let query := default [] q in
    let uri := fst (cut uri 47) in
    match sv_rfind uri 64 with
    | None => None
    | Some at_ =>
        let user_info := percent_decode (sv_sub uri 0 (Some at_)) false in
        '(host, port) ← parse_host_port (sv_from uri (at_ + 1)) default_port;
        Some (mk_suri user_info host fragment port (query_pair <$> pieces query 38))
    end.

Definition query_value (u : suri) (key : string) : bytes :=
  match list_find (fun kv => fst kv = bs key) (reverse (su_query u)) with
  | Some (_, (_, v)) => v
  | None => []
  end.

Definition query_true (u : suri) (key : string) : bool :=
  let v := query_value u key in
  if (length v =? 1)%nat then bytes_eqb v (bs "1")
  else if negb (length v =? 4)%nat then false
  else bytes_eqb (tolower <$> v) (bs "true").

Definition nonempty (v : bytes) : bool := match v with [] => false | _ => true end.

(** ** TLS settings *)

Definition split_alpn (remaining : bytes) : sbj :=
  SBJ_ARRAY ((fun v => SBJ_STRING (sv_trim v)) <$> pieces remaining 44).

Definition utls (fingerprint : sbj) : sbj :=
  sbj_set (sbj_set_bool (SBJ_OBJECT []) "enabled" true) "fingerprint" fingerprint.

Definition set_sv (o : sbj) (key : string) (v : bytes) : sbj := sbj_set o key (SBJ_STRING v).

(** Sets a member from a string unless it is empty. *)
Definition set_nonempty (o : sbj) (key : string) (v : bytes) : sbj := if nonempty v then set_sv o key v else o.

Definition value_else (u : suri) (key other : string) : bytes :=
  let v := query_value u key in if nonempty v then v else query_value u other.

Definition tls_from_uri (u : suri) : sbj :=
  let tls := sbj_set_bool (SBJ_OBJECT []) "enabled" true in
  let tls := set_nonempty tls "server_name" (value_else u "sni" "servername") in
  let alpn := query_value u "alpn" in
  let tls := if nonempty alpn then sbj_set tls "alpn" (split_alpn alpn) else tls in
  let fp := value_else u "fp" "fingerprint" in
  let tls := if nonempty fp then sbj_set tls "utls" (utls (SBJ_STRING fp)) else tls in
  if query_true u "allowInsecure" || query_true u "skip-cert-verify" || query_true u "insecure"
  then sbj_set_bool tls "insecure" true else tls.

(** ** Accepting a node *)

Definition has_nonempty_string (v : sbj) (field : string) : bool :=
  match sbj_get (Some v) field with Some (SBJ_STRING s) => nonempty s | _ => false end.

Definition has_required_secret (type : bytes) (pc : sbj) : bool :=
  let ty s := sb_strn_eq type s in
  if ty "shadowsocks"%string then has_nonempty_string pc "method" && has_nonempty_string pc "password"
  else if ty "vmess"%string || ty "vless"%string then has_nonempty_string pc "uuid"
  else if ty "trojan"%string || ty "hysteria2"%string then has_nonempty_string pc "password"
  else if ty "tuic"%string then has_nonempty_string pc "uuid" && has_nonempty_string pc "password"
  else ty "http"%string || ty "socks"%string.

Definition finish_node (type : bytes) (tag server : bytes) (port : Z) (config : sbj) (check_secret : bool)
    : option sb_parsed_node :=
  if check_secret && negb (has_required_secret (cstr type) config) then None
  else Some (mk_parsed (cstr type) tag server port config).

(** ** [value()] and [get()] of nlohmann::json *)

Definition type_error {A} (want : string) (v : sbj) : result A :=
  sb_fail SB_ERR_GENERIC
    (bs "[json.exception.type_error.302] type must be " ++ bs want ++ bs ", but is " ++ sbj_type_name (Some v)).

Definition value_string (obj : sbj) (key : string) (fallback : bytes) : result bytes :=
  match sbj_get (Some obj) key with
  | None => Ok fallback
  | Some (SBJ_STRING s) => Ok s
  | Some f => type_error "string" f
  end.

Definition INT_MIN : Z := - 2 ^ 31.

(** The range test on the [double] is a test on its truncation. *)
Definition double_to_int (d : double) : Z :=
  if double_isfinite d && in_range INT_MIN INT_MAX (double_trunc d) then double_trunc d else INT_MIN.

Definition value_int (obj : sbj) (key : string) (fallback : Z) : result Z :=
  match sbj_get (Some obj) key with
  | None => Ok fallback
  | Some (SBJ_BOOL b) => Ok (if b then 1 else 0)
  | Some (SBJ_INT i) => Ok (to_i32 i)
  | Some (SBJ_UINT u) => Ok (to_i32 u)
  | Some (SBJ_FLOAT d) => Ok (double_to_int d)
  | Some f => type_error "number" f
  end.

Definition host_port_tag (host : bytes) (port : Z) : bytes := host ++ bs ":" ++ fmt_uint port.

(** A port given as a JSON number or string. *)
Definition json_port (f : option sbj) : option Z :=
  match f with
  | Some (SBJ_UINT u) => if (0 <? u) && (u <=? 65535) then Some u else None
  | Some (SBJ_INT i) => if (0 <? i) && (i <=? 65535) then Some i else None
  | Some (SBJ_STRING s) => parse_port s
  | _ => None
  end.

Definition frag_or (u : suri) (fallback : string) : bytes :=
  if nonempty (su_fragment u) then su_fragment u else bs fallback.

(** A [transport] object of a type with a path and a [Host] header. *)
Definition transport_object (network : bytes) (path host : option sbj) : sbj :=
  let t := set_sv (SBJ_OBJECT []) "type" network in
  let t := match path with Some p => sbj_set t "path" p | None => t end in
  match host with Some h => sbj_set t "headers" (sbj_set (SBJ_OBJECT []) "Host" h) | None => t end.

Definition string_member (value : sbj) (key : string) : option sbj :=
  match sbj_get (Some value) key with Some (SBJ_STRING s) => Some (sbj_clone (SBJ_STRING s)) | _ => None end.

Definition nonempty_value (v : bytes) : option sbj := if nonempty v then Some (SBJ_STRING v) else None.

Definition add_tls (config : sbj) (u : suri) : sbj :=
  let tls := tls_from_uri u in if (1 <? sbj_obj_len (Some tls))%nat then sbj_set config "tls" tls else config.

Section Uri.
Context (EVP_DecodeBlock : bytes -> option bytes).

Definition parse_shadowsocks (uri : bytes) : option sb_parsed_node :=
  let uri := sv_from uri 5 in
  let (uri, hash) := cut uri 35 in
  let tag := match hash with Some t => percent_decode t false | None => [] end in
  let uri := fst (cut uri 63) in
  '(credentials, host_port) ←
    match sv_rfind uri 64 with
    | Some at_ =>
        credentials ← decode_base64 EVP_DecodeBlock (sv_sub uri 0 (Some at_));
        Some (credentials, sv_from uri (at_ + 1))
    | None =>
        decoded ← decode_base64 EVP_DecodeBlock uri;
        dat ← sv_rfind decoded 64;
        Some (sv_sub decoded 0 (Some dat), sv_from decoded (dat + 1))
    end;
  colon ← sv_find credentials 58;
  '(host, port) ← parse_host_port host_port 8388;
  let config := set_sv (SBJ_OBJECT []) "method" (sv_sub credentials 0 (Some colon)) in
  let config := set_sv config "password" (sv_from credentials (colon + 1)) in
  let tag := if nonempty tag then tag else host_port_tag host port in
  finish_node (bs "shadowsocks") tag host port config true.

Definition skip_bom (d : bytes) : bytes :=
  if bytes_eqb (take 3 d) [chr 239; chr 187; chr 191] then drop 3 d else d.

(** The members of a vmess link once its server and port are known. *)
Definition vmess_node (value : sbj) (server : bytes) (port : Z) : result (option sb_parsed_node) :=
  name ← value_string value "name" (bs "vmess");
  tag ← value_string value "ps" name;
  id ← value_string value "id" [];
  aid ← value_int value "aid" 0;
  scy ← value_string value "scy" (bs "auto");
  let config := set_sv (SBJ_OBJECT []) "uuid" id in
  let config := sbj_set_int config "alter_id" aid in
  let config := set_sv config "security" scy in
  net ← value_string value "net" (bs "tcp");
  let config :=
    if sv_eq net "tcp" then config
    else sbj_set config "transport"
           (transport_object net (string_member value "path") (string_member value "host")) in
  tlsv ← value_string value "tls" [];
  let config :=
    if sv_eq tlsv "tls" then
      let tls := sbj_set_bool (SBJ_OBJECT []) "enabled" true in
      sbj_set config "tls" (match string_member value "sni" with Some s => sbj_set tls "server_name" s | None => tls end)
    else config in
  Ok (finish_node (bs "vmess") tag server port config true).

Definition vmess_server (value : sbj) : option bytes :=
  let server := match sbj_get (Some value) "add" with
                | Some (SBJ_STRING s) => Some s
                | _ => str_of (sbj_get (Some value) "host")
                end in
  match server with Some s => if nonempty s then Some s else None | None => None end.

Definition parse_vmess (uri : bytes) : result (option sb_parsed_node) :=
  match decode_base64 EVP_DecodeBlock (sv_from uri 8) with
  | None => Ok None
  | Some decoded =>
      match sbj_parse (skip_bom decoded) with
      | Some (SBJ_OBJECT m) =>
          let value := SBJ_OBJECT m in
          match vmess_server value, json_port (sbj_get (Some value) "port") with
          | Some server, Some port => vmess_node value server port
          | _, _ => Ok None
          end
      | _ => Ok None
      end
  end.
End Uri.

Definition parse_trojan (uri : bytes) : option sb_parsed_node :=
  u ← parse_structured_uri uri "trojan" 443;
  let config := set_sv (SBJ_OBJECT []) "password" (su_user_info u) in
  let config := sbj_set config "tls" (tls_from_uri u) in
  finish_node (bs "trojan") (frag_or u "trojan") (su_host u) (su_port u) config true.

Definition parse_vless (uri : bytes) : option sb_parsed_node :=
  u ← parse_structured_uri uri "vless" 443;
  let config := set_sv (SBJ_OBJECT []) "uuid" (su_user_info u) in
  let config := set_sv config "flow" (query_value u "flow") in
  let config := sbj_set_str config "packet_encoding" (bs "xudp") in
  let network := value_else u "type" "network" in
  let config :=
    if nonempty network && negb (sv_eq network "tcp")
    then sbj_set config "transport"
           (transport_object network (nonempty_value (query_value u "path")) (nonempty_value (query_value u "host")))
    else config in
  let security := query_value u "security" in
  let config :=
    if sv_eq security "tls" || sv_eq security "reality" then sbj_set config "tls" (tls_from_uri u) else config in
  finish_node (bs "vless") (frag_or u "vless") (su_host u) (su_port u) config true.

Definition parse_hysteria2 (uri : bytes) : option sb_parsed_node :=
  let norm := if sv_starts uri "hy2://" then bs "hysteria2://" ++ drop 6 uri else uri in
  u ← parse_structured_uri norm "hysteria2" 443;
  let config := set_sv (SBJ_OBJECT []) "password" (su_user_info u) in
  let config := add_tls config u in
  let obfs := query_value u "obfs" in
  let config :=
    if nonempty obfs
    then sbj_set config "obfs" (set_nonempty (set_sv (SBJ_OBJECT []) "type" obfs) "password" (query_value u "obfs-password"))
    else config in
  finish_node (bs "hysteria2") (frag_or u "hysteria2") (su_host u) (su_port u) config true.

Definition parse_tuic (uri : bytes) : option sb_parsed_node :=
  u ← parse_structured_uri uri "tuic" 443;
  colon ← sv_find (su_user_info u) 58;
  let config := set_sv (SBJ_OBJECT []) "uuid" (sv_sub (su_user_info u) 0 (Some colon)) in
  let config := set_sv config "password" (sv_from (su_user_info u) (colon + 1)) in
  let config := sbj_set_str config "congestion_control" (bs "bbr") in
  let config := sbj_set_str config "udp_relay_mode" (bs "native") in
  let config := sbj_set_str config "heartbeat" (bs "10s") in
  let config := set_nonempty config "congestion_control" (value_else u "congestion_control" "congestion") in
  let config := add_tls config u in
  finish_node (bs "tuic") (frag_or u "tuic") (su_host u) (su_port u) config true.

(** ** One link *)

Section Link.
Context (EVP_DecodeBlock : bytes -> option bytes).

Definition sb_parse_proxy_uri_ex (uri : option bytes) : result (option sb_parsed_node) :=
  let v := sv_trim (default [] uri) in
  if sv_starts v "ss://" then Ok (parse_shadowsocks EVP_DecodeBlock v)
  else if sv_starts v "vmess://" then parse_vmess EVP_DecodeBlock v
  else if sv_starts v "trojan://" then Ok (parse_trojan v)
  else if sv_starts v "vless://" then Ok (parse_vless v)
  else if sv_starts v "hysteria2://" || sv_starts v "hy2://" then Ok (parse_hysteria2 v)
  else if sv_starts v "tuic://" then Ok (parse_tuic v)
  else Ok None.

Definition sb_parse_proxy_uri (uri : option bytes) : option sb_parsed_node :=
  match sb_parse_proxy_uri_ex (cstr <$> uri) with Ok r => r | Err _ => None end.
End Link.
