(* ===== verification/ProxyUriProofs.v ===== *)
(** * Share links: ports, structured links and accepted nodes

    Theorems on [ProxyUri]: the port grammar, the round trip of structured links
    and of Shadowsocks links, and what holds of every node a link yields. *)

From S2P Require Import Prelude Util Json JsonText JsonSafe JsonRound Types ProxyUri.

(** ** Cutting at a byte *)

(** [c] does not occur in [v]. *)
Definition no_byte (c : Z) (v : bytes) : bool := forallb (fun x => negb (code x =? c)) v.

Lemma no_byte_app c a b : no_byte c (a ++ b) = no_byte c a && no_byte c b.
Proof. apply forallb_app. Qed.

Lemma sv_find_none c v : no_byte c v = true -> sv_find v c = None.
Proof. induction v as [|x v IH]; [done|]. cbn. intros H. bool_facts. rewrite eqb_false by done. by rewrite IH. Qed.

Lemma sv_find_first c x a b : no_byte c a = true -> code x = c -> sv_find (a ++ x :: b) c = Some (length a).
Proof.
  intros Ha Hx. induction a as [|y a IH]; cbn; [by rewrite Hx, Z.eqb_refl|]. cbn in Ha. bool_facts.
  rewrite eqb_false by done. by rewrite IH.
Qed.

Lemma sv_rfind_none c v : no_byte c v = true -> sv_rfind v c = None.
Proof. induction v as [|x v IH]; [done|]. cbn. intros H. bool_facts. rewrite IH by done. by rewrite eqb_false. Qed.

Lemma sv_rfind_last c x a b : no_byte c b = true -> code x = c -> sv_rfind (a ++ x :: b) c = Some (length a).
Proof.
  intros Hb Hx. induction a as [|y a IH]; cbn; [by rewrite sv_rfind_none, Hx, Z.eqb_refl|]. by rewrite IH.
Qed.

Lemma sv_from_after (x : ascii) a b : sv_from (a ++ x :: b) (length a + 1) = b.
Proof. unfold sv_from, sv_sub. rewrite drop_app_ge by lia. by replace (length a + 1 - length a)%nat with 1%nat by lia. Qed.

Lemma sv_sub_before a b : sv_sub (a ++ b) 0 (Some (length a)) = a.
Proof. unfold sv_sub. by rewrite drop_0, take_app_length. Qed.

Lemma cut_at c x a b : no_byte c a = true -> code x = c -> cut (a ++ x :: b) c = (a, Some b).
Proof. intros Ha Hx. unfold cut. rewrite (sv_find_first c x) by done. by rewrite sv_sub_before, sv_from_after. Qed.

Lemma cut_none c v : no_byte c v = true -> cut v c = (v, None).
Proof. intros H. unfold cut. by rewrite sv_find_none. Qed.

(** ** Ports *)

Definition dec_more (a : Z) (v : bytes) : Z := foldl (fun a c => a * 10 + (code c - 48)) a v.

Lemma dec_more_ge v a : digits v -> 0 <= a -> a <= dec_more a v.
Proof.
  unfold dec_more. revert a. induction v as [|x v IH]; intros a Dv Ha; [cbn; lia|]. cbn [foldl].
  inversion Dv as [|? ? Dx Dv']; subst. unfold isdigit, in_range in Dx. bool_facts.
  etransitivity; [|apply IH; [done|lia]]. lia.
Qed.

Lemma port_digits_spec v acc p :
  0 <= acc <= UINT_MAX -> port_digits v acc = Some p <-> digits v /\ dec_more acc v = p /\ p <= UINT_MAX.
Proof.
  revert acc. induction v as [|c v IH]; intros acc Hacc; cbn [port_digits].
  - split; [intros [= <-]; split; [constructor|cbn; lia]|intros (_ & <- & _); done].
  - unfold dec_more. cbn [foldl]. fold (dec_more (acc * 10 + (code c - 48)) v).
    destruct (in_range 48 57 (code c)) eqn:D; cbn [negb].
    2: { split; [done|]. intros (Dv & _). inversion Dv as [|? ? Dc]; subst. unfold isdigit in Dc. congruence. }
    pose proof D as R. unfold in_range in R. bool_facts. destruct (UINT_MAX <? _) eqn:B; bool_facts.
    + split; [done|]. intros (Dv & <- & Hp). exfalso. inversion Dv as [|? ? _ Dv']; subst.
      pose proof (dec_more_ge v (acc * 10 + (code c - 48)) Dv' ltac:(lia)). lia.
    + rewrite IH by lia. split; intros (Dv & R); (split; [|done]); [by constructor|by inversion Dv].
Qed.

Lemma parse_port_ok v p : v <> [] -> digits v -> dec_value v = p -> 1 <= p <= 65535 -> parse_port v = Some p.
Proof.
  intros Hv Dv E Hp. unfold parse_port. destruct v as [|c v]; [done|].
  assert (port_digits (c :: v) 0 = Some p) as -> by (apply port_digits_spec; unfold UINT_MAX; [lia|]; split; [done|]; split; [exact E|lia]).
  cbn. by rewrite eqb_false, ltb_false by lia.
Qed.

Lemma parse_port_inv v p : parse_port v = Some p -> v <> [] /\ digits v /\ dec_value v = p /\ 1 <= p <= 65535.
Proof.
  unfold parse_port. destruct v as [|c v]; [done|]. set (w := c :: v).
  destruct (port_digits w 0) as [q|] eqn:D; cbn; [|done].
  apply port_digits_spec in D as (D & E & Hq); [|unfold UINT_MAX; lia].
  pose proof (dec_value_nonneg w D). change (dec_more 0 w) with (dec_value w) in E.
  destruct ((q =? 0) || (65535 <? q)) eqn:B; [done|]. bool_facts. intros [= <-]. repeat split; (done || lia).
Qed.

Lemma parse_port_fmt p : 1 <= p <= 65535 -> parse_port (fmt_uint p) = Some p.
Proof.
  intros Hp. destruct (fmt_uint_numeral p ltac:(lia)) as [D V (c & ds & E & _)]. apply parse_port_ok; [|done..]. by rewrite E.
Qed.

(** A port is accepted exactly when it is a nonempty decimal numeral of a
    number from 1 to 65535, and is then that number; leading zeros are allowed and
    no length of digits wraps around. *)
Theorem parse_port_exact v p :
  parse_port v = Some p <-> v <> [] /\ digits v /\ dec_value v = p /\ 1 <= p <= 65535.
Proof. split; [apply parse_port_inv|]. intros (Hv & D & E & Hp). by apply parse_port_ok. Qed.

(** ** Percent decoding *)

Lemma hex_value_hexval c : hex_value c = hexval c.
Proof. unfold hex_value, hexval, isdigit. repeat case_if; lia. Qed.

Lemma hexval_range c : -1 <= hexval c < 16.
Proof. unfold hexval, isdigit, in_range. repeat case_if; lia. Qed.

(** The two decoders on at least three bytes. *)
Lemma percent_decode_cons3 c h l v p :
  percent_decode (c :: h :: l :: v) p =
  if (code c =? 37) && (0 <=? hexval h) && (0 <=? hexval l)
  then chr (Z.lor (Z.shiftl (hexval h) 4) (hexval l)) :: percent_decode v p
  else (if (code c =? 43) && p then chr 32 else c) :: percent_decode (h :: l :: v) p.
Proof.
  remember (h :: l :: v) as t eqn:Et. cbn [percent_decode]. rewrite Et at 1. rewrite !hex_value_hexval, (andb_comm p).
  destruct (code c =? 37), (0 <=? hexval h), (0 <=? hexval l); reflexivity.
Qed.

Lemma url_decode_cons3 c h l v p :
  url_decode_from (c :: h :: l :: v) p =
  if (code c =? 37) && (0 <=? hexval h) && (0 <=? hexval l)
  then chr (hexval h * 16 + hexval l) :: url_decode_from v p
  else (if (code c =? 43) && p then chr 32 else c) :: url_decode_from (h :: l :: v) p.
Proof. reflexivity. Qed.

(** The link parser decodes like [sb_url_decode]. *)
Lemma percent_decode_url v p : percent_decode v p = url_decode_from v p.
Proof.
  induction v as [v IH] using (well_founded_induction (well_founded_ltof _ length)). unfold ltof in IH.
  destruct v as [|c [|h [|l v]]]; [done| | |].
  - cbn [percent_decode url_decode_from]. by rewrite andb_comm.
  - cbn [percent_decode url_decode_from]. by rewrite !(andb_comm p).
  - rewrite percent_decode_cons3, url_decode_cons3, (IH v), (IH (h :: l :: v)) by (cbn; lia).
    destruct (_ && _) eqn:B; [|done]. bool_facts. pose proof (hexval_range l). by rewrite (lor_shiftl_add _ _ 4) by lia.
Qed.

Lemma percent_decode_encode s p : no_nul s = true -> percent_decode (sb_url_encode s) p = s.
Proof. intros H. rewrite percent_decode_url. by apply url_decode_encode. Qed.

(** ** Splitting *)

Lemma sv_pieces_nil fuel c : sv_pieces fuel [] c = [].
Proof. by destruct fuel. Qed.

Lemma sv_pieces_none fuel v c : no_byte c v = true -> v <> [] -> (0 < fuel)%nat -> sv_pieces fuel v c = [v].
Proof. intros Hv Hn Hf. destruct fuel; [lia|]. destruct v as [|x v]; [done|]. cbn [sv_pieces]. by rewrite sv_find_none. Qed.

Lemma sv_pieces_first fuel c x a b :
  no_byte c a = true -> code x = c -> sv_pieces (S fuel) (a ++ x :: b) c = a :: sv_pieces fuel b c.
Proof.
  intros Ha Hx. cbn [sv_pieces]. destruct (a ++ x :: b) as [|y t] eqn:E; [by destruct a|]. rewrite <- E.
  rewrite (sv_find_first c x) by done. by rewrite sv_sub_before, sv_from_after.
Qed.

Lemma sv_pieces_join c x fuel l :
  code x = c -> Forall (fun p => p <> [] /\ no_byte c p = true) l -> (length (sb_join l [x]) <= fuel)%nat ->
  sv_pieces fuel (sb_join l [x]) c = l.
Proof.
  intros Hx F. revert fuel. induction F as [|p l [Hp1 Hp2] F IH]; intros fuel Hf; [apply sv_pieces_nil|].
  destruct l as [|q l].
  - apply sv_pieces_none; [done..|]. destruct p; [done|]. cbn in Hf. lia.
  - rewrite sb_join_cons in *. cbn [app] in *. rewrite length_app in Hf. cbn [length] in Hf. destruct fuel as [|fuel]; [lia|].
    rewrite sv_pieces_first by done. rewrite IH; [done|]. lia.
Qed.

Lemma pieces_join c x l :
  code x = c -> Forall (fun p => p <> [] /\ no_byte c p = true) l -> pieces (sb_join l [x]) c = l.
Proof. intros Hx F. by apply sv_pieces_join. Qed.

(** ** Structured links *)

Lemma encode_no_byte c s : (forall x, code x = c -> url_unreserved x = false) -> c <> 37 -> no_byte c (sb_url_encode s) = true.
Proof.
  intros Hc H37. unfold no_byte. apply forallb_forall. intros x Hx%list_elem_of_In.
  pose proof (url_encode_chars s) as F. rewrite Forall_forall in F. apply negb_true_iff, eqb_false. intros E.
  destruct (F x Hx) as [U|U]; [rewrite Hc in U; done|lia].
Qed.

(** The delimiters of a link. *)
Definition delimiter (c : Z) : Prop := c ∈ [35; 63; 47; 64; 38; 61; 58; 91; 93].

Lemma delimiter_reserved c x : delimiter c -> code x = c -> url_unreserved x = false.
Proof.
  intros D E. unfold url_unreserved, isalnum, isdigit, isupper, islower, in_range. rewrite E. unfold delimiter in D.
  rewrite !elem_of_cons, elem_of_nil in D. by destruct_or! D; subst c.
Qed.

Lemma encode_delimiter c s : delimiter c -> no_byte c (sb_url_encode s) = true.
Proof.
  intros D. apply encode_no_byte; [intros x; by apply delimiter_reserved|]. unfold delimiter in D.
  rewrite !elem_of_cons, elem_of_nil in D. by destruct_or! D; subst c.
Qed.

Lemma digits_no_byte c v : digits v -> ~ (48 <= c <= 57) -> no_byte c v = true.
Proof.
  intros D Hc. unfold no_byte. apply forallb_forall. intros x Hx%list_elem_of_In. unfold digits in D. rewrite Forall_forall in D.
  specialize (D x Hx). unfold isdigit, in_range in D. bool_facts. apply negb_true_iff, eqb_false. lia.
Qed.

Ltac delim := by (unfold delimiter; rewrite !elem_of_cons; tauto).

(** An address as it is written in a link: IPv6 in brackets. *)
Definition host_text (h : bytes) : bytes := if no_byte 58 h then h else bs "[" ++ h ++ bs "]".

Definition host_ok (h : bytes) : bool :=
  nonempty h && no_byte 35 h && no_byte 63 h && no_byte 47 h && no_byte 64 h && no_byte 91 h && no_byte 93 h.

Definition address (h : bytes) (p : Z) : bytes := host_text h ++ bs ":" ++ fmt_uint p.

Lemma bracket_drop (x : ascii) w t n : sv_from (x :: w ++ t) (S (length w) + n) = drop n t.
Proof.
  unfold sv_from, sv_sub. change (x :: w ++ t) with ((x :: w) ++ t). rewrite drop_app_ge by (cbn; lia). f_equal. cbn. lia.
Qed.

Lemma parse_address h p d : host_ok h = true -> 1 <= p <= 65535 -> parse_host_port (address h p) d = Some (h, p).
Proof.
  intros Hh Hp. unfold host_ok in Hh. bool_facts. unfold address, host_text.
  destruct (fmt_uint_numeral p ltac:(lia)) as [D _ _]. change (bs ":") with [chr 58]. cbn [app].
  destruct h as [|x h]; [done|]. destruct (no_byte 58 (x :: h)) eqn:C.
  - unfold parse_host_port. cbn [app starts_byte]. match goal with N : no_byte 91 (x :: h) = true |- _ => cbn in N end.
    bool_facts. rewrite eqb_false by done. change (x :: h ++ chr 58 :: fmt_uint p) with ((x :: h) ++ chr 58 :: fmt_uint p).
    rewrite sv_rfind_last by (done || (apply digits_no_byte; [done|lia])).
    rewrite sv_from_after, parse_port_fmt, sv_sub_before by done. done.
  - set (w := x :: h) in *. change (bs "[") with [chr 91]. change (bs "]") with [chr 93]. cbn [app].
    rewrite <- app_assoc. cbn [app]. unfold parse_host_port. cbn [starts_byte]. change (code (chr 91) =? 91) with true. cbv iota.
    change (chr 91 :: w ++ chr 93 :: chr 58 :: fmt_uint p) with ((chr 91 :: w) ++ chr 93 :: chr 58 :: fmt_uint p).
    rewrite sv_find_first by (done || by cbn). cbn [mbind option_bind length app].
    rewrite (proj2 (Nat.eqb_neq _ _)) by (subst w; cbn; lia).
    rewrite (proj2 (Nat.eqb_neq (S (length w) + 1) _)) by (cbn; rewrite length_app; cbn; lia).
    rewrite (bracket_drop (chr 91) w _ 1), (bracket_drop (chr 91) w _ 2). cbn [drop skipn starts_byte].
    change (code (chr 58) =? 58) with true. cbn [negb]. rewrite drop_0, parse_port_fmt by done. cbn [mbind option_bind]. unfold sv_sub.
    change (drop 1 (chr 91 :: ?t)) with (drop 0 t). rewrite drop_0. replace (S (length w) - 1)%nat with (length w) by lia.
    by rewrite take_app_length.
Qed.

(** The bytes of an address never open another part of the link. *)
Lemma address_no_byte h p c : host_ok h = true -> 1 <= p -> c ∈ [35; 63; 47; 64] -> no_byte c (address h p) = true.
Proof.
  intros Hh Hp Hc. unfold host_ok in Hh. bool_facts. destruct (fmt_uint_numeral p ltac:(lia)) as [D _ _].
  assert (Hn : ~ (48 <= c <= 57) /\ no_byte c h = true /\ no_byte c (bs "[") = true /\ no_byte c (bs "]") = true /\ no_byte c (bs ":") = true).
  { rewrite !elem_of_cons, elem_of_nil in Hc. destruct_or! Hc; subst c; (split; [lia|]); (split; [done|]); repeat split. }
  destruct Hn as (Hd & Nh & N1 & N2 & N3). unfold address, host_text. rewrite !no_byte_app, N3, (digits_no_byte _ (fmt_uint p)) by assumption.
  destruct (no_byte 58 h); rewrite ?no_byte_app, ?N1, ?N2, Nh; done.
Qed.

Definition link_pair (kv : bytes * bytes) : bytes := sb_url_encode (fst kv) ++ bs "=" ++ sb_url_encode (snd kv).

(** A link written from its parts; an empty query or fragment is left out. *)
Definition link_text (scheme : string) (u : suri) : bytes :=
  bs scheme ++ bs "://" ++ sb_url_encode (su_user_info u) ++ bs "@" ++ address (su_host u) (su_port u) ++
  match su_query u with [] => [] | q => bs "?" ++ sb_join (link_pair <$> q) (bs "&") end ++
  match su_fragment u with [] => [] | f => bs "#" ++ sb_url_encode f end.

Definition suri_ok (u : suri) : Prop :=
  no_nul (su_user_info u) = true /\ host_ok (su_host u) = true /\ no_nul (su_fragment u) = true /\
  1 <= su_port u <= 65535 /\ Forall (fun kv => no_nul (fst kv) = true /\ no_nul (snd kv) = true) (su_query u).

Lemma link_pair_no_byte c kv : delimiter c -> c <> 61 -> no_byte c (link_pair kv) = true.
Proof.
  intros D Hc. unfold link_pair. rewrite !no_byte_app, !encode_delimiter by done. cbn. by rewrite (eqb_false 61).
Qed.

Lemma join_no_byte c l s : Forall (fun p => no_byte c p = true) l -> no_byte c s = true -> no_byte c (sb_join l s) = true.
Proof.
  intros F Hs. induction F as [|p l Hp F IH]; [done|]. destruct l as [|q l]; [done|].
  rewrite sb_join_cons, !no_byte_app, Hp, Hs, IH. done.
Qed.

Lemma query_round q :
  Forall (fun kv => no_nul (fst kv) = true /\ no_nul (snd kv) = true) q ->
  query_pair <$> pieces (sb_join (link_pair <$> q) (bs "&")) 38 = q.
Proof.
  intros F. change (bs "&") with [chr 38]. rewrite pieces_join; [|done|].
  - rewrite <- list_fmap_compose. induction F as [|[k v] q [Hk Hv] F IH]; [done|]. cbn [fmap list_fmap].
    f_equal; [|done]. cbn [compose]. unfold query_pair, link_pair. cbn [fst snd] in *. change (bs "=") with [chr 61]. cbn [app].
    rewrite cut_at by (done || (apply encode_delimiter; delim)). by rewrite !percent_decode_encode.
  - apply Forall_fmap, Forall_true. intros kv. cbn. split; [|apply link_pair_no_byte; [delim|done]].
    unfold link_pair. intros [_ [E _]%app_eq_nil]%app_eq_nil. done.
Qed.

(** Cuts off the last part of a link, which may be left out. *)
Lemma cut_opt c (x : ascii) a b : no_byte c a = true -> code x = c -> cut (a ++ match b with Some t => x :: t | None => [] end) c = (a, b).
Proof. intros Ha Hx. destruct b; [by apply cut_at|]. rewrite app_nil_r. by apply cut_none. Qed.

(** C40: structured links round-trip.  The trojan, vless, hysteria2 or tuic link
    written from percent-encoded user information, host (IPv6 in brackets), port,
    query and fragment parses back to exactly these parts, for every scheme of up to
    28 bytes, all NUL-free contents and any number of query parameters in their
    order.  The host is one that needs no encoding: a name without delimiters, or an
    IPv6 address. *)
Theorem structured_uri_roundtrip scheme u d :
  (length (bs scheme) <= 28)%nat -> suri_ok u -> parse_structured_uri (link_text scheme u) scheme d = Some u.
Proof.
  intros Hl (Hu & Hh & Hf & Hp & Hq). destruct u as [user host frag port query]. cbn [su_user_info su_host su_fragment su_port su_query] in *.
  unfold parse_structured_uri, link_text. cbn [su_user_info su_host su_fragment su_port su_query].
  rewrite (take_ge (bs scheme ++ bs "://")) by (rewrite length_app; cbn; lia).
  set (fr := match frag with [] => None | f => Some (sb_url_encode f) end).
  set (qr := match query with [] => None | q => Some (sb_join (link_pair <$> q) (bs "&")) end).
  set (base := sb_url_encode user ++ bs "@" ++ address host port).
  replace (bs scheme ++ bs "://" ++ sb_url_encode user ++ bs "@" ++ address host port ++ _ ++ _)
    with ((bs scheme ++ bs "://") ++ (base ++ match qr with Some t => chr 63 :: t | None => [] end) ++
          match fr with Some t => chr 35 :: t | None => [] end).
  2: { subst base qr fr. rewrite <- !app_assoc. do 5 f_equal. f_equal; [by destruct query|by destruct frag]. }
  rewrite take_app_length, bytes_eqb_refl. cbn [negb]. unfold sv_from at 1, sv_sub at 1. rewrite drop_app_length.
  assert (Nb : forall c, c ∈ [35; 63; 47] -> no_byte c base = true).
  { intros c Hc. assert (delimiter c /\ c ∈ [35; 63; 47; 64] /\ no_byte c (bs "@") = true) as (D & D' & Na)
      by (rewrite !elem_of_cons, elem_of_nil in Hc; destruct_or! Hc; subst c; repeat split; (delim || (rewrite !elem_of_cons; tauto))).
    subst base. rewrite !no_byte_app, encode_delimiter, Na, address_no_byte by (done || lia). done. }
  rewrite cut_opt.
  2: { rewrite no_byte_app, Nb by (rewrite !elem_of_cons; tauto). subst qr. destruct query as [|kv q]; [done|].
       change (chr 63 :: ?t) with ([chr 63] ++ t). rewrite no_byte_app. cbn [andb]. apply join_no_byte; [|done].
       apply Forall_fmap, Forall_true. intros x. cbn. apply link_pair_no_byte; [delim|done]. }
  2: done.
  rewrite cut_opt by (done || (apply Nb; rewrite !elem_of_cons; tauto)).
  rewrite cut_none by (apply Nb; rewrite !elem_of_cons; tauto). cbn [fst]. subst base. change (bs "@") with [chr 64]. cbn [app].
  rewrite sv_rfind_last by (done || (apply address_no_byte; [done|lia|rewrite !elem_of_cons; tauto])).
  rewrite sv_sub_before, sv_from_after, parse_address by done. cbn [mbind option_bind]. f_equal.
  rewrite percent_decode_encode by done. f_equal.
  - subst fr. destruct frag; [done|]. by apply percent_decode_encode.
  - subst qr. destruct query as [|kv q]; [done|]. by apply query_round.
Qed.

Lemma structured_uri_roundtrip_witness :
  let u := mk_suri (bs "p@ss:w/ord") (bs "2001:db8::1") (bs "my node #1") 8443
             [(bs "sni", bs "a.example"); (bs "alpn", bs "h2,http/1.1"); (bs "x&y", bs "=")] in
  parse_structured_uri (link_text "trojan" u) "trojan" 443 = Some u.
Proof.
  cbv zeta. apply structured_uri_roundtrip; [cbn; lia|]. split; [done|]. split; [done|]. split; [done|]. split; [cbn; lia|].
  repeat constructor.
Defined.

(** ** Base64 of the credentials *)

(** The alphabet indices of the encoding, and how many [=] complete it. *)
Fixpoint sextets (d : bytes) : list Z :=
  match d with
  | [] => []
  | [x] => let v := Z.shiftl (code x) 16 in [Z.land (Z.shiftr v 18) 63; Z.land (Z.shiftr v 12) 63]
  | [x; y] =>
      let v := Z.lor (Z.shiftl (code x) 16) (Z.shiftl (code y) 8) in
      [Z.land (Z.shiftr v 18) 63; Z.land (Z.shiftr v 12) 63; Z.land (Z.shiftr v 6) 63]
  | x :: y :: z :: d' =>
      let v := Z.lor (Z.lor (Z.shiftl (code x) 16) (Z.shiftl (code y) 8)) (code z) in
      [Z.land (Z.shiftr v 18) 63; Z.land (Z.shiftr v 12) 63; Z.land (Z.shiftr v 6) 63; Z.land v 63] ++ sextets d'
  end.

Definition pads (d : bytes) : nat := ((3 - length d mod 3) mod 3)%nat.

(** Induction by groups of three bytes. *)
Lemma triples_ind (P : bytes -> Prop) :
  P [] -> (forall x, P [x]) -> (forall x y, P [x; y]) -> (forall x y z d, P d -> P (x :: y :: z :: d)) -> forall d, P d.
Proof.
  intros P0 P1 P2 P3 d. induction d as [d IH] using (well_founded_induction (well_founded_ltof _ length)). unfold ltof in IH.
  destruct d as [|x [|y [|z d]]]; auto. apply P3, IH. cbn. lia.
Qed.

Lemma pads_triple x y z d : pads (x :: y :: z :: d) = pads d.
Proof.
  unfold pads. cbn [length]. replace (S (S (S (length d)))) with (length d + 1 * 3)%nat by lia. by rewrite Nat.Div0.mod_add.
Qed.

Lemma b64_encode_sextets d alpha pad :
  b64_encode d alpha pad = (alpha_at alpha <$> sextets d) ++ (if pad then replicate (pads d) (chr 61) else []).
Proof.
  induction d as [|x|x y|x y z d IH] using triples_ind; [by destruct pad..|].
  rewrite pads_triple. cbn [b64_encode sextets]. rewrite IH. by cbn [fmap list_fmap app].
Qed.

Lemma sextets_range d : Forall (fun i => 0 <= i < 64) (sextets d).
Proof.
  assert (L : forall v, 0 <= Z.land v 63 < 64) by (intros v; rewrite land_63; lia_dm).
  induction d as [|x|x y|x y z d IH] using triples_ind; cbn [sextets]; repeat (constructor; [apply L|]); (constructor || done).
Qed.

Lemma sextets_complete d : ((4 - length (sextets d) mod 4) mod 4)%nat = pads d /\ (length (sextets d) mod 4 <> 1)%nat.
Proof.
  induction d as [|x|x y|x y z d [IH1 IH2]] using triples_ind; [by vm_compute..|]. rewrite pads_triple. cbn [sextets app length].
  replace (S (S (S (S (length (sextets d)))))) with (length (sextets d) + 1 * 4)%nat by lia. by rewrite Nat.Div0.mod_add.
Qed.

Lemma pads_le d : (pads d <= 2)%nat.
Proof. unfold pads. pose proof (Nat.mod_upper_bound (3 - length d mod 3) 3). lia. Qed.

Lemma sextets_nonempty d : d <> [] -> sextets d <> [].
Proof. destruct d as [|x [|y [|z d]]]; done. Qed.

(** Both alphabets, as the link parser sees them. *)
Definition link_alphabet_check (i : Z) : bool :=
  let c := alpha_at B64 i in let u := alpha_at B64URL i in
  negb (is_space c) && negb (is_space u) && bytes_eqb [b64_normal c] [c] && bytes_eqb [b64_normal u] [c] &&
  b64_body_char c && negb (code c =? 61).

Lemma link_alphabet i :
  0 <= i < 64 ->
  is_space (alpha_at B64 i) = false /\ is_space (alpha_at B64URL i) = false /\
  b64_normal (alpha_at B64 i) = alpha_at B64 i /\ b64_normal (alpha_at B64URL i) = alpha_at B64 i /\
  b64_body_char (alpha_at B64 i) = true /\ code (alpha_at B64 i) <> 61.
Proof.
  intros Hi. assert (H : forallb (fun n => link_alphabet_check (Z.of_nat n)) (seq 0 64) = true) by by vm_compute.
  rewrite forallb_forall in H. specialize (H (Z.to_nat i)). rewrite Z2Nat.id in H by lia.
  specialize (H ltac:(apply in_seq; lia)). unfold link_alphabet_check in H.
  rewrite !andb_true_iff, !negb_true_iff, !bytes_eqb_eq, Z.eqb_neq in H. destruct H as (((((H1 & H2) & H3) & H4) & H5) & H6).
  injection H3 as H3. injection H4 as H4. done.
Qed.

Lemma normalize_alpha (url : bool) l :
  Forall (fun i => 0 <= i < 64) l ->
  b64_normalize (alpha_at (if url then B64URL else B64) <$> l) = alpha_at B64 <$> l.
Proof.
  intros F. unfold b64_normalize. induction F as [|i l Hi F IH]; [done|]. destruct (link_alphabet i Hi) as (S1 & S2 & N1 & N2 & _).
  rewrite fmap_cons, filter_cons_True by (by destruct url). rewrite !fmap_cons, IH. f_equal. by destruct url.
Qed.

Lemma normalize_pads k : b64_normalize (replicate k (chr 61)) = replicate k (chr 61).
Proof.
  unfold b64_normalize. induction k as [|k IH]; [done|]. cbn [replicate]. rewrite filter_cons_True by done. by rewrite fmap_cons, IH.
Qed.

Lemma b64_normalize_app a b : b64_normalize (a ++ b) = b64_normalize a ++ b64_normalize b.
Proof. unfold b64_normalize. by rewrite filter_app, fmap_app. Qed.

(** Both encodings of [d] normalise and complete to the padded standard one. *)
Lemma normalize_encoding d (e : bytes) :
  e = sb_base64_encode d \/ e = sb_base64url_encode d -> b64_complete (b64_normalize e) = sb_base64_encode d /\
  (length (b64_normalize e) mod 4 <> 1)%nat /\ (d <> [] -> length (b64_normalize e) <> 0%nat) /\
  (length (b64_normalize e) <= length (sb_base64_encode d))%nat.
Proof.
  pose proof (sextets_range d) as F. destruct (sextets_complete d) as [C1 C2]. pose proof (sextets_nonempty d) as Hn.
  unfold sb_base64_encode, sb_base64url_encode. rewrite !b64_encode_sextets. intros [-> | ->].
  - rewrite b64_normalize_app, (normalize_alpha false), normalize_pads by done. unfold b64_complete.
    assert (L : (length ((alpha_at B64 <$> sextets d) ++ replicate (pads d) (chr 61)) mod 4)%nat = 0%nat).
    { rewrite length_app, length_fmap, length_replicate, <- C1. pose proof (Nat.mod_upper_bound (length (sextets d)) 4).
      rewrite <- Nat.Div0.add_mod_idemp_l. destruct (length (sextets d) mod 4)%nat as [|[|[|[|k]]]]; (done || lia). }
    rewrite L. cbn [Nat.sub]. rewrite Nat.Div0.mod_same. cbn [replicate]. rewrite app_nil_r.
    repeat split; [lia| |lia]. intros Hd. rewrite length_app, length_fmap. specialize (Hn Hd). destruct (sextets d); [done|cbn; lia].
  - rewrite app_nil_r, (normalize_alpha true) by done. unfold b64_complete. rewrite length_fmap, C1.
    repeat split; [done| |rewrite length_app, length_fmap; lia]. intros Hd. specialize (Hn Hd). by destruct (sextets d).
Qed.

Lemma encode_padding d : d <> [] -> b64_padding (sb_base64_encode d) = pads d /\ b64_grammar (sb_base64_encode d) (pads d) = true.
Proof.
  intros Hd. unfold sb_base64_encode. rewrite b64_encode_sextets. pose proof (sextets_range d) as F.
  assert (Fc : Forall (fun c => b64_body_char c = true /\ code c <> 61) (alpha_at B64 <$> sextets d)).
  { apply Forall_fmap. eapply Forall_impl; [exact F|]. intros i Hi. destruct (link_alphabet i Hi) as (_ & _ & _ & _ & H5 & H6). done. }
  assert (Hne : alpha_at B64 <$> sextets d <> []) by (intros E%fmap_nil_inv; by apply sextets_nonempty in E).
  set (body := alpha_at B64 <$> sextets d) in *. clearbody body. split.
  - unfold b64_padding, ends_pad. rewrite reverse_app, reverse_replicate.
    destruct (reverse body) as [|c r] eqn:R; [by apply (f_equal reverse) in R; rewrite reverse_involutive in R|].
    assert (code c <> 61) as Hc.
    { rewrite Forall_forall in Fc. apply Fc. apply elem_of_reverse. rewrite R. left. }
    pose proof (pads_le d). destruct (pads d) as [|[|[|k]]]; cbn; [by rewrite eqb_false|by rewrite (eqb_false (code c))|done|lia].
  - unfold b64_grammar. rewrite length_app, length_replicate. replace (length body + pads d - pads d)%nat with (length body) by lia.
    rewrite take_app_length, drop_app_length. apply andb_true_iff. split.
    + apply forallb_forall. intros c Hc%list_elem_of_In. rewrite Forall_forall in Fc. by apply Fc.
    + apply forallb_forall. intros c Hc%list_elem_of_In. apply elem_of_replicate in Hc as [-> _]. done.
Qed.

(** What is documented of [EVP_DecodeBlock]: each group of four characters gives
    three bytes, with zero bits for the padding. *)
Class block_decoder (EVP_DecodeBlock : bytes -> option bytes) : Prop :=
  decodes_block d : EVP_DecodeBlock (sb_base64_encode d) = Some (d ++ replicate (pads d) (chr 0)).

Lemma decode_base64_encode EVP `{!block_decoder EVP} d e :
  e = sb_base64_encode d \/ e = sb_base64url_encode d -> d <> [] ->
  Z.of_nat (length (sb_base64_encode d)) <= INT_MAX -> decode_base64 EVP e = Some d.
Proof.
  intros He Hd Hl. destruct (normalize_encoding d e He) as (C & M & N & L). unfold decode_base64.
  rewrite (proj2 (Nat.eqb_neq _ 0)) by auto. rewrite (proj2 (Nat.eqb_neq _ 1)) by done.
  rewrite ltb_false by lia. cbn [orb]. rewrite C. destruct (encode_padding d Hd) as [-> ->]. cbn [negb].
  rewrite decodes_block. rewrite length_app, length_replicate. f_equal.
  replace (length d + pads d - pads d)%nat with (length d) by lia. apply take_app_length.
Qed.

(** A decoder with the documented behaviour: [=] stands for zero bits. *)
Definition evp_block (v : bytes) : option bytes :=
  sb_base64_decode_strict ((fun c => if code c =? 61 then chr 65 else c) <$> v).

Lemma sextets_zeros d : sextets (d ++ replicate (pads d) (chr 0)) = sextets d ++ replicate (pads d) 0.
Proof.
  induction d as [|x|x y|x y z d IH] using triples_ind; [done| | |].
  - change (pads [x]) with 2%nat. cbn [replicate app sextets]. pose proof (code_range x).
    destruct (b64_sextets3 (code x) 0 0) as (S1 & S2 & S3 & S4); [lia..|]. destruct (b64_sextets1 (code x)) as (T1 & T2); [lia|].
    rewrite (code_chr 0) by lia. change (0 / 16) with 0 in S2. rewrite Z.add_0_r in S2. by rewrite S1, S2, S3, S4, T1, T2.
  - change (pads [x; y]) with 1%nat. cbn [replicate app sextets]. pose proof (code_range x). pose proof (code_range y).
    destruct (b64_sextets3 (code x) (code y) 0) as (S1 & S2 & S3 & S4); [lia..|].
    destruct (b64_sextets2 (code x) (code y)) as (T1 & T2 & T3); [lia..|].
    rewrite (code_chr 0) by lia. change (0 / 64) with 0 in S3. rewrite Z.add_0_r in S3. by rewrite S1, S2, S3, S4, T1, T2, T3.
  - rewrite pads_triple. cbn [app sextets]. by rewrite IH.
Qed.

#[export] Instance evp_block_decoder : block_decoder evp_block.
Proof.
  intros d. unfold evp_block.
  assert (E : ((fun c => if code c =? 61 then chr 65 else c) <$> sb_base64_encode d) =
              sb_base64_encode (d ++ replicate (pads d) (chr 0))).
  { unfold sb_base64_encode. rewrite !b64_encode_sextets, sextets_zeros, !fmap_app, !fmap_replicate.
    assert (pads (d ++ replicate (pads d) (chr 0)) = 0%nat) as ->.
    { unfold pads at 1. rewrite length_app, length_replicate. unfold pads. pose proof (Nat.mod_upper_bound (length d) 3).
      rewrite <- Nat.Div0.add_mod_idemp_l. destruct (length d mod 3)%nat as [|[|[|k]]]; (done || lia). }
    cbn [replicate]. rewrite app_nil_r. f_equal. rewrite <- list_fmap_compose. apply list_fmap_ext. intros k i Hi.
    pose proof (sextets_range d) as F. rewrite Forall_forall in F. apply list_elem_of_lookup_2 in Hi. cbn.
    destruct (link_alphabet i (F i Hi)) as (_ & _ & _ & _ & _ & H6). by rewrite eqb_false. }
  rewrite E. apply (b64_decode_encode B64 1 true). tauto.
Qed.

(** ** Trimming *)

Lemma trim_front_id x v : is_space x = false -> trim_front (x :: v) = x :: v.
Proof. intros Hx. cbn. by rewrite Hx. Qed.

Lemma sv_trim_id x v y : is_space x = false -> is_space y = false -> sv_trim (x :: v ++ [y]) = x :: v ++ [y].
Proof.
  intros Hx Hy. unfold sv_trim. rewrite trim_front_id by done. change (x :: v ++ [y]) with ((x :: v) ++ [y]).
  rewrite reverse_app. change (reverse [y]) with [y]. cbn [app]. rewrite trim_front_id by done.
  change (y :: reverse (x :: v)) with ([y] ++ reverse (x :: v)). by rewrite reverse_app, reverse_involutive.
Qed.

(** ** Shadowsocks links *)

Definition ss_text (e h : bytes) (p : Z) (tag : bytes) : bytes :=
  bs "ss://" ++ e ++ bs "@" ++ address h p ++ match tag with [] => [] | t => bs "#" ++ sb_url_encode t end.

Lemma encoding_no_byte d e c :
  e = sb_base64_encode d \/ e = sb_base64url_encode d -> c ∈ [35; 63; 64] -> no_byte c e = true.
Proof.
  intros He Hc. unfold no_byte. apply forallb_forall. intros x Hx%list_elem_of_In. apply negb_true_iff, eqb_false. intros E.
  assert (Ha : forall i, 0 <= i < 64 -> code (alpha_at B64 i) <> c /\ code (alpha_at B64URL i) <> c).
  { intros i Hi. assert (H : forallb (fun n => forallb (fun k => negb (code (alpha_at B64 (Z.of_nat n)) =? k) &&
       negb (code (alpha_at B64URL (Z.of_nat n)) =? k)) [35; 63; 64]) (seq 0 64) = true) by by vm_compute.
    rewrite forallb_forall in H. specialize (H (Z.to_nat i) ltac:(apply in_seq; lia)). rewrite Z2Nat.id in H by lia.
    rewrite forallb_forall in H. specialize (H c ltac:(by apply list_elem_of_In)). bool_facts. done. }
  pose proof (sextets_range d) as F. rewrite Forall_forall in F.
  unfold sb_base64_encode, sb_base64url_encode in He. rewrite !b64_encode_sextets in He.
  destruct He as [-> | ->]; apply elem_of_app in Hx as [Hx|Hx].
  - apply list_elem_of_fmap in Hx as (i & -> & Hi). destruct (Ha i (F i Hi)); congruence.
  - apply elem_of_replicate in Hx as [-> _]. rewrite code_chr in E by lia. subst c. rewrite !elem_of_cons, elem_of_nil in Hc. lia.
  - apply list_elem_of_fmap in Hx as (i & -> & Hi). destruct (Ha i (F i Hi)); congruence.
  - by apply elem_of_nil in Hx.
Qed.

Lemma nonspace_last v : v <> [] -> Forall (fun c => is_space c = false) v -> exists w y, v = w ++ [y] /\ is_space y = false.
Proof.
  intros Hv F. destruct (exists_last Hv) as (w & y & ->). exists w, y. split; [done|]. apply Forall_app in F as [_ F].
  by inversion F.
Qed.

(** A link that starts with a letter and ends in an address or a fragment is not
    changed by trimming. *)
Lemma ss_text_trim e h p tag : 1 <= p -> sv_trim (ss_text e h p tag) = ss_text e h p tag.
Proof.
  intros Hp. assert (exists w y, ss_text e h p tag = chr 115 :: w ++ [y] /\ is_space y = false) as (w & y & -> & Hy).
  2: { by apply sv_trim_id. }
  unfold ss_text, address. destruct (fmt_uint_numeral p ltac:(lia)) as [D _ (c & ds & E & _)].
  assert (Sp : forall c, url_unreserved c = true \/ code c = 37 -> is_space c = false).
  { assert (B : forall c, negb ((url_unreserved c || (code c =? 37)) && is_space c) = true) by (apply byte_forallb; by vm_compute).
    intros x Hx. specialize (B x). destruct (is_space x); [|done]. rewrite andb_true_r in B. bool_facts.
    destruct Hx; congruence. }
  destruct (nonspace_last (match tag with [] => fmt_uint p | t => chr 35 :: sb_url_encode t end)) as (w & y & Ew & Hy).
  - destruct tag; [by rewrite E|done].
  - destruct tag as [|t tag].
    + unfold digits in D. eapply Forall_impl; [exact D|]. intros x Hx. apply Sp. left. unfold url_unreserved, isalnum. by rewrite Hx.
    + constructor; [done|]. eapply Forall_impl; [apply url_encode_chars|]. exact Sp.
  - exists (bs "s://" ++ e ++ bs "@" ++ (host_text h ++ bs ":") ++ (match tag with [] => w | _ => fmt_uint p ++ w end)), y.
    split; [|done]. change (bs "ss://") with (chr 115 :: bs "s://"). cbn [app]. f_equal. rewrite <- !app_assoc. do 4 f_equal.
    destruct tag as [|t tag]; [by rewrite app_nil_r, Ew, <- ?app_assoc|]. rewrite <- !app_assoc. do 2 f_equal. by rewrite <- Ew.
Qed.

(** Shadowsocks links round-trip.  With a base64 block decoder as documented,
    the SIP002 link of a method, a password, a host, a port and a tag, in standard
    or in URL-safe unpadded base64, parses to exactly this node; without a tag the
    node is named host:port. *)
Theorem ss_link_roundtrip EVP `{!block_decoder EVP} method password host port tag e :
  let d := method ++ bs ":" ++ password in
  e = sb_base64_encode d \/ e = sb_base64url_encode d ->
  nonempty method = true -> no_byte 58 method = true -> nonempty password = true ->
  host_ok host = true -> 1 <= port <= 65535 -> no_nul tag = true ->
  Z.of_nat (length (sb_base64_encode d)) <= INT_MAX ->
  sb_parse_proxy_uri_ex EVP (Some (ss_text e host port tag)) =
  Ok (Some (mk_parsed (bs "shadowsocks") (if nonempty tag then tag else host_port_tag host port) host port
              (SBJ_OBJECT [(bs "method", SBJ_STRING method); (bs "password", SBJ_STRING password)]))).
Proof.
  intros d He Hm Hc Hpw Hh Hp Ht Hl. unfold sb_parse_proxy_uri_ex. change (default [] (Some ?x)) with x. rewrite ss_text_trim by lia.
  assert (sv_starts (ss_text e host port tag) "ss://" = true) as -> by reflexivity. f_equal.
  set (fr := match tag with [] => None | t => Some (sb_url_encode t) end).
  assert (E : ss_text e host port tag = bs "ss://" ++ (e ++ chr 64 :: address host port) ++
              match fr with Some t => chr 35 :: t | None => [] end).
  { unfold ss_text. rewrite <- app_assoc. do 2 f_equal. subst fr. by destruct tag. }
  rewrite E. unfold parse_shadowsocks. change (sv_from (bs "ss://" ++ ?t) 5) with t.
  assert (Nb : forall c, c ∈ [35; 63] -> no_byte c (e ++ chr 64 :: address host port) = true).
  { intros c Hcc. change (chr 64 :: ?t) with ([chr 64] ++ t).
    rewrite !no_byte_app, (encoding_no_byte d) by (done || (rewrite !elem_of_cons, elem_of_nil in *; tauto)).
    rewrite address_no_byte by (done || lia || (rewrite !elem_of_cons, elem_of_nil in *; tauto)).
    rewrite !elem_of_cons, elem_of_nil in Hcc. by destruct_or! Hcc; subst c. }
  rewrite cut_opt by (done || (apply Nb; rewrite !elem_of_cons; tauto)).
  rewrite cut_none by (apply Nb; rewrite !elem_of_cons; tauto). cbn [fst].
  rewrite sv_rfind_last by (done || (apply address_no_byte; [done|lia|rewrite !elem_of_cons; tauto])).
  rewrite sv_sub_before, sv_from_after, (decode_base64_encode EVP d e) by (done || (subst d; by destruct method)).
  cbn [mbind option_bind]. subst d. change (bs ":") with [chr 58]. cbn [app].
  rewrite sv_find_first by done. cbn [mbind option_bind]. rewrite parse_address by done. cbn [mbind option_bind].
  rewrite sv_sub_before, sv_from_after. unfold finish_node, has_required_secret. cbn [andb cstr].
  assert (Tg : match fr with Some t => percent_decode t false | None => [] end = tag).
  { subst fr. destruct tag; [done|]. by apply percent_decode_encode. }
  rewrite Tg. unfold set_sv, has_nonempty_string. eval_get. cbv iota. by rewrite Hm, Hpw.
Qed.

Lemma ss_link_roundtrip_witness :
  sb_parse_proxy_uri_ex evp_block (Some (bs "ss://" ++ sb_base64url_encode (bs "aes-256-gcm:s3cret:?") ++
    bs "@[2001:db8::1]:8388#Tokyo%201")) =
  Ok (Some (mk_parsed (bs "shadowsocks") (bs "Tokyo 1") (bs "2001:db8::1") 8388
    (SBJ_OBJECT [(bs "method", SBJ_STRING (bs "aes-256-gcm")); (bs "password", SBJ_STRING (bs "s3cret:?"))]))).
Proof.
  refine (ss_link_roundtrip evp_block (bs "aes-256-gcm") (bs "s3cret:?") (bs "2001:db8::1") 8388 (bs "Tokyo 1")
    (sb_base64url_encode (bs "aes-256-gcm:s3cret:?")) _ _ _ _ _ _ _ _).
  all: try reflexivity.
  - by right.
  - lia.
  - vm_compute. discriminate.
Defined.

(** ** Accepted nodes *)

Definition known_types : list bytes :=
  [bs "shadowsocks"; bs "vmess"; bs "vless"; bs "trojan"; bs "hysteria2"; bs "tuic"; bs "http"; bs "socks"].

(** A node fit to be stored: a supported type, an address, its credentials, and a
    configuration that is a well-formed object. *)
Record sound_node (n : sb_parsed_node) : Prop := {
  sound_type : pn_node_type n ∈ known_types;
  sound_server : pn_server n <> [];
  sound_port : 1 <= pn_server_port n <= 65535;
  sound_secret : has_required_secret (pn_node_type n) (pn_protocol_config n) = true;
  sound_config : sbj_wf (pn_protocol_config n) = true /\ sbj_is_object (Some (pn_protocol_config n)) = true }.

Lemma wf_string s : sbj_wf (SBJ_STRING s) = true.
Proof. done. Qed.

Lemma wf_set_sv o k v : sbj_wf o = true -> sbj_wf (set_sv o k v) = true.
Proof. intros W. by apply wf_set. Qed.

Lemma wf_set_nonempty o k v : sbj_wf o = true -> sbj_wf (set_nonempty o k v) = true.
Proof. intros W. unfold set_nonempty. case_if; [by apply wf_set_sv|done]. Qed.

Lemma object_set o k v : sbj_is_object (Some o) = true -> sbj_is_object (Some (sbj_set o k v)) = true.
Proof. destruct o; try done. intros _. unfold sbj_set, sbj_setn. by destruct (obj_find _ _) as [? []]. Qed.

Lemma object_set_nonempty o k v : sbj_is_object (Some o) = true -> sbj_is_object (Some (set_nonempty o k v)) = true.
Proof. intros W. unfold set_nonempty. case_if; [by apply object_set|done]. Qed.

Lemma wf_split_alpn v : sbj_wf (split_alpn v) = true.
Proof. unfold split_alpn. apply wf_array, Forall_fmap, Forall_true. done. Qed.

Lemma wf_utls v : sbj_wf v = true -> sbj_wf (utls v) = true.
Proof. intros W. unfold utls, sbj_set_bool. by repeat apply wf_set. Qed.

#[export] Hint Resolve wf_string wf_set_sv wf_set_nonempty object_set object_set_nonempty wf_split_alpn wf_utls : sb.

Lemma wf_tls_from_uri u : sbj_wf (tls_from_uri u) = true.
Proof.
  unfold tls_from_uri, sbj_set_bool.
  repeat match goal with |- context [if ?b then _ else _] => destruct b end; auto 10 with sb.
Qed.

Lemma wf_transport n p h :
  (forall v, p = Some v -> sbj_wf v = true) -> (forall v, h = Some v -> sbj_wf v = true) -> sbj_wf (transport_object n p h) = true.
Proof. intros Hp Hh. unfold transport_object. destruct p, h; repeat (apply wf_set || apply wf_set_sv); auto. Qed.

Lemma wf_string_member v k s : sbj_wf v = true -> string_member v k = Some s -> sbj_wf s = true.
Proof. intros W. unfold string_member. destruct (sbj_get _ _) as [[]|]; try done. by intros [= <-]. Qed.

Lemma wf_nonempty_value v s : nonempty_value v = Some s -> sbj_wf s = true.
Proof. unfold nonempty_value. case_if; [by intros [= <-]|done]. Qed.

#[export] Hint Resolve wf_tls_from_uri wf_transport wf_string_member wf_nonempty_value : sb.

Lemma parse_host_port_ok v d h p : parse_host_port v d = Some (h, p) -> 1 <= d <= 65535 -> h <> [] /\ 1 <= p <= 65535.
Proof.
  intros E Hd. unfold parse_host_port in E. destruct v as [|x v]; [done|]. destruct (starts_byte _ 91) eqn:B.
  - destruct (sv_find (x :: v) 93) as [close|] eqn:Fc; [|done]. cbn [mbind option_bind] in E.
    destruct (close =? 1)%nat eqn:C1; [done|]. apply Nat.eqb_neq in C1.
    assert (Hb : sv_sub (x :: v) 1 (Some (close - 1)%nat) <> []).
    { destruct close as [|close].
      - cbn in Fc. destruct (code x =? 93) eqn:X; [|by destruct (sv_find v 93)]. cbn in B. bool_facts. lia.
      - cbn in Fc. destruct (code x =? 93); [done|]. destruct (sv_find v 93) as [i|] eqn:Fi; [|done]. injection Fc as ->.
        destruct v as [|y v]; [done|]. destruct close as [|close]; [lia|].
        unfold sv_sub. cbn [drop skipn]. by replace (S (S close) - 1)%nat with (S close) by lia. }
    destruct (close + 1 =? length (x :: v))%nat; [injection E as <- <-; done|]. destruct (negb _); [done|].
    destruct (parse_port _) as [q|] eqn:P; [|done]. injection E as <- <-. apply parse_port_inv in P as (_ & _ & _ & P). done.
  - destruct (sv_rfind (x :: v) 58) as [colon|]; [|injection E as <- <-; done].
    destruct (parse_port _) as [q|] eqn:P; [|done]. cbn [mbind option_bind] in E.
    destruct (colon =? 0)%nat eqn:C0; [done|]. apply Nat.eqb_neq in C0. injection E as <- <-.
    apply parse_port_inv in P as (_ & _ & _ & P). split; [|done]. by destruct colon.
Qed.

Lemma structured_address uri scheme d u :
  parse_structured_uri uri scheme d = Some u -> 1 <= d <= 65535 -> su_host u <> [] /\ 1 <= su_port u <= 65535.
Proof.
  unfold parse_structured_uri. destruct (negb _); [done|].
  destruct (cut _ 35) as [uri1 hash], (cut uri1 63) as [uri2 q]. destruct (sv_rfind _ 64); [|done].
  destruct (parse_host_port _ _) as [[h p]|] eqn:E; [|done]. cbn. intros [= <-] Hd. by eapply parse_host_port_ok.
Qed.

Lemma finish_node_sound type tag server port config n :
  finish_node type tag server port config true = Some n -> cstr type ∈ known_types -> server <> [] -> 1 <= port <= 65535 ->
  sbj_wf config = true -> sbj_is_object (Some config) = true -> sound_node n.
Proof.
  unfold finish_node. cbn [andb]. destruct (has_required_secret (cstr type) config) eqn:R; [|done]. cbn. by intros [= <-].
Qed.

(** Closes the side conditions of [finish_node_sound]. *)
Ltac known_type := vm_compute; repeat (first [left; reflexivity | right]).

Lemma object_add_tls c u : sbj_is_object (Some c) = true -> sbj_is_object (Some (add_tls c u)) = true.
Proof. intros Hc. unfold add_tls. destruct (1 <? _)%nat; auto with sb. Qed.

Lemma wf_add_tls c u : sbj_wf c = true -> sbj_wf (add_tls c u) = true.
Proof. intros Hc. unfold add_tls. destruct (1 <? _)%nat; auto with sb. Qed.

#[export] Hint Resolve object_add_tls wf_add_tls : sb.

Ltac config_cases := repeat match goal with |- context [if ?b then _ else _] => destruct b end; auto 12 with sb.

Ltac structured_sound :=
  match goal with
  | |- (parse_structured_uri ?uri ?s ?d ≫= _) = _ -> _ =>
      let u := fresh "u" in let A := fresh "A" in
      destruct (parse_structured_uri uri s d) as [u|] eqn:A; [|done]; cbn [mbind option_bind];
      apply structured_address in A as [? ?]; [|lia]
  end.

Lemma trojan_sound uri n : parse_trojan uri = Some n -> sound_node n.
Proof.
  unfold parse_trojan. structured_sound. intros F. apply finish_node_sound in F; auto; [known_type|auto with sb..].
Qed.

Lemma vless_sound uri n : parse_vless uri = Some n -> sound_node n.
Proof.
  unfold parse_vless. structured_sound. intros F. unfold sbj_set_str in F.
  apply finish_node_sound in F; auto; [known_type| |]; config_cases.
  all: repeat apply wf_set; auto with sb; apply wf_transport; intros v; apply wf_nonempty_value.
Qed.

Lemma hysteria2_sound uri n : parse_hysteria2 uri = Some n -> sound_node n.
Proof.
  unfold parse_hysteria2. structured_sound. intros F. apply finish_node_sound in F; auto; [known_type| |]; config_cases.
Qed.

Lemma tuic_sound uri n : parse_tuic uri = Some n -> sound_node n.
Proof.
  unfold parse_tuic. structured_sound. destruct (sv_find _ 58) as [colon|]; [|done]. cbn [mbind option_bind]. intros F.
  unfold sbj_set_str in F. apply finish_node_sound in F; auto; [known_type| |]; auto 12 with sb.
Qed.

Lemma shadowsocks_sound EVP uri n : parse_shadowsocks EVP uri = Some n -> sound_node n.
Proof.
  unfold parse_shadowsocks. destruct (cut _ 35) as [uri1 hash]. intros E.
  apply bind_Some in E as ([cred hp] & _ & E). apply bind_Some in E as (colon & _ & E).
  apply bind_Some in E as ([host port] & A & E). apply parse_host_port_ok in A as [A1 A2]; [|lia].
  apply finish_node_sound in E; auto; [known_type|auto with sb..].
Qed.

Lemma json_port_range f p : json_port f = Some p -> 1 <= p <= 65535.
Proof.
  unfold json_port. destruct f as [[| |i|u| |s| |]|]; try done.
  - destruct (_ && _) eqn:B; [|done]. bool_facts. intros [= <-]. lia.
  - destruct (_ && _) eqn:B; [|done]. bool_facts. intros [= <-]. lia.
  - intros (_ & _ & _ & P)%parse_port_inv. done.
Qed.

Lemma link_int_range v k fb i : in_range INT_MIN INT_MAX fb = true -> value_int v k fb = Ok i -> in_range INT64_MIN INT64_MAX i = true.
Proof.
  intros Hf E. assert (R : INT_MIN <= i <= INT_MAX).
  { unfold value_int in E. unfold in_range in Hf. bool_facts. unfold to_i32, INT_MIN, INT_MAX in *.
    destruct (sbj_get (Some v) k) as [[|b| | |f| | |]|]; try done; apply Ok_inj in E as <-; try lia; try lia_dm.
    - destruct b; lia.
    - unfold double_to_int, in_range, INT_MIN, INT_MAX. destruct (_ && _) eqn:B; bool_facts; lia. }
  unfold in_range, INT_MIN, INT_MAX, INT64_MIN, INT64_MAX in *. rewrite !leb_true by lia. done.
Qed.

Lemma vmess_node_sound value server port n :
  vmess_node value server port = Ok (Some n) -> sbj_wf value = true -> server <> [] -> 1 <= port <= 65535 -> sound_node n.
Proof.
  intros E W Hs Hp. unfold vmess_node in E.
  apply bind_Ok in E as (name & _ & E). apply bind_Ok in E as (tag & _ & E). apply bind_Ok in E as (id & _ & E).
  apply bind_Ok in E as (aid & Ha & E). apply bind_Ok in E as (scy & _ & E). apply bind_Ok in E as (net & _ & E).
  apply bind_Ok in E as (tlsv & _ & E). apply Ok_inj in E. apply link_int_range in Ha; [|done].
  set (config := sbj_set_int _ _ _) in E.
  assert (Wc : sbj_wf config = true /\ sbj_is_object (Some config) = true).
  { subst config. unfold sbj_set_int. split; [|auto with sb]. apply wf_set; auto with sb. }
  clearbody config. destruct Wc as [W1 W2].
  apply finish_node_sound in E; auto; [known_type| |].
  - destruct (sv_eq net "tcp"), (sv_eq tlsv "tls"); destruct (string_member value "sni") eqn:Sn; unfold set_sv, sbj_set_bool;
      repeat (apply wf_set || (apply wf_transport; intros ?)); eauto with sb.
  - unfold set_sv, sbj_set_bool. config_cases.
Qed.

Lemma vmess_sound EVP uri n : parse_vmess EVP uri = Ok (Some n) -> sound_node n.
Proof.
  unfold parse_vmess. destruct (decode_base64 _ _) as [d|]; [|done]. destruct (sbj_parse (skip_bom d)) as [v|] eqn:P; [|done].
  apply sbj_parse_wf in P as [W _]. destruct v as [| | | | | | |m]; try done.
  destruct (vmess_server (SBJ_OBJECT m)) as [server|] eqn:Sv; [|done].
  destruct (json_port _) as [port|] eqn:Pt; [|done]. intros E. eapply vmess_node_sound; [done..| |by eapply json_port_range].
  unfold vmess_server in Sv. destruct (match sbj_get _ "add" with Some (SBJ_STRING s) => Some s | _ => _ end) as [s|]; [|done].
  destruct s; [done|]. by injection Sv as <-.
Qed.

(** Every node a link yields is sound. *)
Lemma parsed_link_sound EVP uri n : sb_parse_proxy_uri_ex EVP uri = Ok (Some n) -> sound_node n.
Proof.
  unfold sb_parse_proxy_uri_ex. intros E.
  destruct (sv_starts _ "ss://"); [apply Ok_inj in E; by eapply shadowsocks_sound|].
  destruct (sv_starts _ "vmess://"); [by eapply vmess_sound|].
  destruct (sv_starts _ "trojan://"); [apply Ok_inj in E; by eapply trojan_sound|].
  destruct (sv_starts _ "vless://"); [apply Ok_inj in E; by eapply vless_sound|].
  destruct (sv_starts _ "hysteria2://" || _); [apply Ok_inj in E; by eapply hysteria2_sound|].
  destruct (sv_starts _ "tuic://"); [apply Ok_inj in E; by eapply tuic_sound|]. done.
Qed.
