(* ===== verification/ProxyImport.v ===== *)
(** * Subscriptions and configuration imports ([c/src/proxy_parser.c], from [yaml_to_json] on)

    A subscription body is Clash YAML, sing-box JSON, or a list of links, plain or
    in base64; each entry becomes a node or a diagnostic.  The YAML loader (libyaml
    and the rewriting around it, [yload_first]) is a parameter that returns a graph
    of nodes: aliases make nodes shared and may make the graph cyclic.  The limits
    of the conversion are those of the server build. *)

From S2P Require Import Prelude Util Json JsonText Types ProxyUri.

(** ** YAML graphs to JSON *)

Inductive ykind := Y_NULL | Y_SCALAR | Y_SEQ | Y_MAP.

(** The elements of a sequence; keys and values in turn of a map. *)
Record ynode := mk_ynode { y_kind : ykind; y_s : bytes; y_items : list nat }.

Definition YAML_CONVERT_BUDGET : Z := 2000000.
Definition YAML_CONVERT_DEPTH : nat := 1000.
Definition YAML_CONVERT_STRING_BUDGET : Z := UINT64_MAX.

Record yaml_convert_limits := mk_limits { lim_nodes : Z; lim_bytes : Z; lim_exhausted : bool }.

Definition exhaust (b : yaml_convert_limits) : yaml_convert_limits := mk_limits (lim_nodes b) (lim_bytes b) true.

Definition spend_bytes (b : yaml_convert_limits) (n : Z) : yaml_convert_limits :=
  mk_limits (lim_nodes b) (lim_bytes b - n) (lim_exhausted b).

Definition y_len (n : ynode) : Z := Z.of_nat (length (y_s n)).

Section Graph.
Context (heap : list ynode).

Definition y_at (n : nat) : ynode := default (mk_ynode Y_NULL [] []) (heap !! n).

Section Children.
Context (convert : nat -> yaml_convert_limits -> sbj * yaml_convert_limits).

Fixpoint convert_seq (items : list nat) (a : sbj) (b : yaml_convert_limits) : sbj * yaml_convert_limits :=
  match items with
  | [] => (a, b)
  | i :: items => let (v, b) := convert i b in convert_seq items (sbj_arr_push a (Some v)) b
  end.

Fixpoint convert_map (items : list nat) (o : sbj) (b : yaml_convert_limits) : sbj * yaml_convert_limits :=
  match items with
  | i :: j :: items =>
      let k := y_at i in
      match y_kind k with
      | Y_SCALAR =>
          if no_nul (y_s k) then
            if lim_bytes b <? y_len k then (o, exhaust b)
            else let (v, b) := convert j (spend_bytes b (y_len k)) in
                 convert_map items (sbj_setn o (y_s k) (Some v)) b
          else convert_map items o b
      | _ => convert_map items o b
      end
  | _ => (o, b)
  end.
End Children.

(** [room] is [YAML_CONVERT_DEPTH + 1 - depth]; [visiting] lists the collections
    whose flag is set, which are those being converted. *)
Fixpoint yaml_to_json (room : nat) (visiting : list nat) (n : nat) (b : yaml_convert_limits) {struct room}
    : sbj * yaml_convert_limits :=
  match room with
  | O => (SBJ_NULL, exhaust b)
  | S room' =>
      if (lim_nodes b =? 0) || bool_decide (n ∈ visiting) then (SBJ_NULL, exhaust b)
      else
        let b := mk_limits (lim_nodes b - 1) (lim_bytes b) (lim_exhausted b) in
        let node := y_at n in
        match y_kind node with
        | Y_SCALAR =>
            if lim_bytes b <? y_len node then (SBJ_NULL, exhaust b)
            else (SBJ_STRING (y_s node), spend_bytes b (y_len node))
        | Y_SEQ => convert_seq (yaml_to_json room' (n :: visiting)) (y_items node) (SBJ_ARRAY []) b
        | Y_MAP => convert_map (yaml_to_json room' (n :: visiting)) (y_items node) (SBJ_OBJECT []) b
        | Y_NULL => (SBJ_NULL, b)
        end
  end.
End Graph.

(** ** Clash values *)

Definition string_value (v : sbj) (field : string) : option bytes :=
  match sbj_get (Some v) field with
  | Some (SBJ_STRING s) => Some s
  | Some (SBJ_BOOL b) => Some (if b then bs "true" else bs "false")
  | Some f => if sbj_is_number (Some f) then Some (cstr (sbj_dump (Some f) (-1))) else None
  | None => None
  end.

Definition string_value_or (v : sbj) (field : string) (fallback : bytes) : bytes :=
  default fallback (string_value v field).

(** [std::from_chars] of the digits, without wrap-around. *)
Fixpoint magnitude (s : bytes) (mag : Z) : option Z :=
  match s with
  | [] => Some mag
  | c :: s' =>
      if negb (in_range 48 57 (code c)) then None
      else let d := code c - 48 in
           if (UINT64_MAX - d) / 10 <? mag then None else magnitude s' (mag * 10 + d)
  end.

Definition integer_text (s : bytes) : option Z :=
  let (neg, ds) := match s with c :: s' => if code c =? 45 then (true, s') else (false, s) | [] => (false, []) end in
  match ds with
  | [] => None
  | _ =>
      mag ← magnitude ds 0;
      if neg : bool then if INT64_MAX + 1 <? mag then None else Some (if mag =? INT64_MAX + 1 then INT64_MIN else - mag)
      else if INT64_MAX <? mag then None else Some mag
  end.

Definition integer_value (v : sbj) (field : string) : option Z :=
  match sbj_get (Some v) field with
  | Some (SBJ_INT i) => Some i
  | Some (SBJ_UINT u) => Some (to_i64 u)
  | Some (SBJ_STRING s) => integer_text s
  | _ => None
  end.

Definition ascii_ieq (v : bytes) (lower : string) : bool := bytes_eqb (tolower <$> v) (bs lower).

Definition boolean_value (v : sbj) (field : string) : bool :=
  match sbj_get (Some v) field with
  | Some (SBJ_BOOL b) => b
  | Some (SBJ_STRING s) => ascii_ieq s "true" || sv_eq s "1"
  | _ => false
  end.

Definition set_opt (config : sbj) (key : string) (value : option sbj) : sbj :=
  match value with Some v => sbj_set config key v | None => config end.

Definition copy_member (t : sbj) (opts : sbj) (key : string) : sbj :=
  set_opt t key (sbj_clone <$> sbj_get (Some opts) key).

Definition set_string (t : sbj) (key : string) (value : option bytes) : sbj := set_opt t key (SBJ_STRING <$> value).

Definition set_string_nonempty (t : sbj) (key : string) (value : option bytes) : sbj :=
  match value with Some s => set_nonempty t key s | None => t end.

Definition clash_transport (proxy : sbj) : option sbj :=
  let net := string_value_or proxy "network" [] in
  let typed s := sbj_set_str (SBJ_OBJECT []) "type" (bs s) in
  if sv_eq net "ws" then
    let t := typed "ws"%string in
    Some (match sbj_get (Some proxy) "ws-opts" with
          | Some (SBJ_OBJECT m) => let opts := SBJ_OBJECT m in copy_member (copy_member t opts "path") opts "headers"
          | _ => set_string t "path" (string_value proxy "ws-path")
          end)
  else if sv_eq net "grpc" then
    let t := typed "grpc"%string in
    Some (match sbj_get (Some proxy) "grpc-opts" with
          | Some (SBJ_OBJECT m) => set_string t "service_name" (string_value (SBJ_OBJECT m) "grpc-service-name")
          | _ => t
          end)
  else if sv_eq net "h2" || sv_eq net "http" then
    let t := typed "http"%string in
    Some (match sbj_get (Some proxy) (if sv_eq net "h2" then "h2-opts" else "http-opts") with
          | Some (SBJ_OBJECT m) =>
              let opts := SBJ_OBJECT m in
              let t := copy_member t opts "host" in
              match sbj_get (Some opts) "path" with
              | Some (SBJ_ARRAY (p :: _)) => sbj_set t "path" (sbj_clone p)
              | Some (SBJ_STRING s) => sbj_set t "path" (sbj_clone (SBJ_STRING s))
              | _ => t
              end
          | _ => t
          end)
  else None.

Definition clash_sni (proxy : sbj) : option bytes :=
  match string_value proxy "sni" with
  | Some (c :: s) => Some (c :: s)
  | _ => string_value proxy "servername"
  end.

Definition clash_reality (tls reality : sbj) : sbj :=
  let r := sbj_set_bool (SBJ_OBJECT []) "enabled" true in
  let r := set_string r "public_key" (string_value reality "public-key") in
  let r := set_string r "short_id" (string_value reality "short-id") in
  let tls := sbj_set tls "reality" r in
  if sbj_has (Some tls) "utls" then tls else sbj_set tls "utls" (utls (sbj_str (Some (bs "chrome")))).

Definition clash_tls (proxy : sbj) (enabled : bool) : option sbj :=
  if negb enabled then None
  else
    let tls := sbj_set_bool (SBJ_OBJECT []) "enabled" true in
    let tls := set_string_nonempty tls "server_name" (clash_sni proxy) in
    let tls := if boolean_value proxy "skip-cert-verify" then sbj_set_bool tls "insecure" true else tls in
    let tls := match sbj_get (Some proxy) "alpn" with
               | Some (SBJ_ARRAY l) => sbj_set tls "alpn" (sbj_clone (SBJ_ARRAY l))
               | Some (SBJ_STRING s) => sbj_set tls "alpn" (split_alpn s)
               | _ => tls
               end in
    let tls := match string_value proxy "client-fingerprint" with
               | Some fp => if nonempty fp then sbj_set tls "utls" (utls (SBJ_STRING fp)) else tls
               | None => tls
               end in
    Some (match sbj_get (Some proxy) "reality-opts" with
          | Some (SBJ_OBJECT m) => clash_reality tls (SBJ_OBJECT m)
          | _ => tls
          end).

Definition clash_type (t : bytes) : option string :=
  if sv_eq t "ss" || sv_eq t "shadowsocks" then Some "shadowsocks"%string
  else if sv_eq t "hy2" || sv_eq t "hysteria2" then Some "hysteria2"%string
  else if sv_eq t "vmess" then Some "vmess"%string
  else if sv_eq t "vless" then Some "vless"%string
  else if sv_eq t "trojan" then Some "trojan"%string
  else if sv_eq t "tuic" then Some "tuic"%string
  else if sv_eq t "http" then Some "http"%string
  else if sv_eq t "socks5" || sv_eq t "socks" then Some "socks"%string
  else None.

(** [string_value_or] through a list of fields, the first nonempty value. *)
Definition clash_password (proxy : sbj) : bytes :=
  let password := string_value_or proxy "password" [] in
  let password := if nonempty password then password else string_value_or proxy "auth" [] in
  if nonempty password then password else string_value_or proxy "auth-str" [].

(** The configuration of one type; [None] when the entry is refused. *)
Definition clash_config (proxy : sbj) (type : string) : option sbj :=
  let config := SBJ_OBJECT [] in
  let str c key field fallback := set_sv c key (string_value_or proxy field fallback) in
  let ty s := String.eqb type s in
  if ty "shadowsocks"%string then
    Some (str (str config "method" "cipher" []) "password" "password" [])%string
  else if ty "vmess"%string then
    let config := str config "uuid"%string "uuid"%string [] in
    let aid := match integer_value proxy "alterId" with
               | Some a => a
               | None => default 0 (integer_value proxy "alterid")
               end in
    let config := sbj_set_int config "alter_id" aid in
    let config := str config "security"%string "cipher"%string (bs "auto") in
    let config := set_opt config "transport" (clash_transport proxy) in
    Some (set_opt config "tls" (clash_tls proxy (boolean_value proxy "tls")))
  else if ty "vless"%string then
    let config := str config "uuid"%string "uuid"%string [] in
    let config := str config "flow"%string "flow"%string [] in
    let config := sbj_set_str config "packet_encoding" (bs "xudp") in
    let config := set_opt config "transport" (clash_transport proxy) in
    let reality := sbj_has (Some proxy) "reality-opts" in
    Some (set_opt config "tls" (clash_tls proxy (boolean_value proxy "tls" || reality)))
  else if ty "trojan"%string then
    let config := str config "password"%string "password"%string [] in
    let config := set_opt config "transport" (clash_transport proxy) in
    Some (set_opt config "tls" (clash_tls proxy true))
  else if ty "hysteria2"%string then
    let config := set_sv config "password" (clash_password proxy) in
    let config := set_opt config "tls" (clash_tls proxy true) in
    Some (match string_value proxy "obfs" with
          | Some obfs =>
              if nonempty obfs
              then sbj_set config "obfs" (set_string (set_sv (SBJ_OBJECT []) "type" obfs) "password" (string_value proxy "obfs-password"))
              else config
          | None => config
          end)
  else if ty "tuic"%string then
    let config := str config "uuid"%string "uuid"%string [] in
    let config := str config "password"%string "password"%string [] in
    let config := str config "congestion_control"%string "congestion-controller"%string (bs "bbr") in
    let config := str config "udp_relay_mode"%string "udp-relay-mode"%string (bs "native") in
    Some (set_opt config "tls" (clash_tls proxy true))
  else
    let config := set_string_nonempty config "username" (string_value proxy "username") in
    let config := set_string_nonempty config "password" (string_value proxy "password") in
    if ty "socks"%string then
      if boolean_value proxy "tls" then None else Some (sbj_set_str config "version" (bs "5"))
    else Some (set_opt config "tls" (clash_tls proxy (boolean_value proxy "tls"))).

Definition clash_proxy (proxy : sbj) : option sb_parsed_node :=
  if negb (sbj_is_object (Some proxy)) then None
  else
    let type := clash_type (string_value_or proxy "type" []) in
    let server := string_value_or proxy "server" [] in
    let raw_port := default 0 (integer_value proxy "port") in
    if negb (nonempty server) || (raw_port <=? 0) || (65535 <? raw_port) then None
    else
      let name := string_value_or proxy "name" [] in
      let tag := if nonempty name then name else host_port_tag server raw_port in
      type ← type;
      config ← clash_config proxy type;
      finish_node (bs type) tag server raw_port config true.

(** ** sing-box outbounds *)

Definition value_or_wrapped (obj : sbj) (key : string) (fallback : sbj) : sbj :=
  match sbj_get (Some obj) key with
  | Some f => sbj_clone f
  | None => sbj_arr_push (SBJ_ARRAY []) (Some fallback)
  end.

Definition copy_if (config outbound : sbj) (key : string) : sbj := copy_member config outbound key.

(** The configuration of an outbound of a supported type. *)
Definition outbound_config (outbound : sbj) (t : bytes) : option sbj :=
  let config := SBJ_OBJECT [] in
  let wrap c key fallback := sbj_set c key (value_or_wrapped outbound key fallback) in
  let copy c key := copy_if c outbound key in
  let text s := sbj_str (Some (bs s)) in
  let ty s := sb_strn_eq t s in
  config ←
    (if ty "shadowsocks" then Some (wrap (wrap config "method" SBJ_NULL) "password" SBJ_NULL)
     else if ty "vmess" then
       Some (wrap (wrap (wrap config "uuid" SBJ_NULL) "alter_id" (SBJ_INT 0)) "security" (text "auto"))
     else if ty "vless" then
       Some (wrap (wrap (wrap config "uuid" SBJ_NULL) "flow" (SBJ_STRING [])) "packet_encoding" (text "xudp"))
     else if ty "trojan" then Some (wrap config "password" SBJ_NULL)
     else if ty "hysteria2" then Some (copy (wrap config "password" SBJ_NULL) "obfs")
     else if ty "tuic" then
       Some (copy (copy (wrap (wrap config "uuid" SBJ_NULL) "password" SBJ_NULL) "congestion_control") "udp_relay_mode")
     else if ty "http" || ty "socks" then
       let config := copy (copy config "username") "password" in
       Some (if ty "socks" then copy (copy (copy config "version") "network") "udp_over_tcp" else config)
     else None)%string;
  Some (if ty "shadowsocks"%string then config else copy (copy config "tls"%string) "transport"%string).

Definition parse_outbound (outbound : sbj) : result (option sb_parsed_node) :=
  match str_of (sbj_get (Some outbound) "type"), str_of (sbj_get (Some outbound) "server") with
  | Some t, Some server =>
      match json_port (sbj_get (Some outbound) "server_port") with
      | None => Ok None
      | Some port =>
          if negb (nonempty server) then Ok None
          else
            tag ← value_string outbound "tag" server;
            match outbound_config outbound t with
            | None => Ok None
            | Some config => Ok (finish_node t tag server port config false)
            end
      end
  | _, _ => Ok None
  end.

Record sb_proxy_import := mk_import { imp_nodes : list sb_parsed_node; imp_skipped : list bytes }.

Definition sb_proxy_import_init : sb_proxy_import := mk_import [] [].

Definition push_node (imp : sb_proxy_import) (n : sb_parsed_node) : sb_proxy_import :=
  mk_import (imp_nodes imp ++ [n]) (imp_skipped imp).

Definition push_skipped (imp : sb_proxy_import) (s : bytes) : sb_proxy_import :=
  mk_import (imp_nodes imp) (imp_skipped imp ++ [s]).

Definition supported : list bytes :=
  [bs "shadowsocks"; bs "vmess"; bs "vless"; bs "trojan"; bs "hysteria2"; bs "tuic"; bs "http"; bs "socks"].

(** [sb_buf_detach] hands the diagnostic on as a C string. *)
Fixpoint import_outbounds (outbounds : list sbj) (imp : sb_proxy_import) : result sb_proxy_import :=
  match outbounds with
  | [] => Ok imp
  | outbound :: rest =>
      type ← (if sbj_is_object (Some outbound) then value_string outbound "type" [] else Ok []);
      if negb (bool_decide (type ∈ supported)) then import_outbounds rest imp
      else
        r ← parse_outbound outbound;
        match r with
        | Some node => import_outbounds rest (push_node imp node)
        | None =>
            tag ← value_string outbound "tag" (bs "?");
            import_outbounds rest (push_skipped imp (cstr (tag ++ bs " (" ++ type ++ bs ")")))
        end
  end.

Definition sb_parse_outbound_config (config : option sbj) : result sb_proxy_import :=
  match config with
  | Some (SBJ_OBJECT m) =>
      match sbj_get (Some (SBJ_OBJECT m)) "outbounds" with
      | Some (SBJ_ARRAY l) => import_outbounds l sb_proxy_import_init
      | _ => Ok sb_proxy_import_init
      end
  | Some (SBJ_ARRAY l) => import_outbounds l sb_proxy_import_init
  | _ => Ok sb_proxy_import_init
  end.

(** ** What a subscription may contain *)

Definition forbidden : list string :=
  ["certificate_path"; "client_certificate_path"; "client_key_path"; "key_path"; "config_path";
   "certificate_provider"; "acme"]%string.

Fixpoint subscription_local_reference (value : sbj) (depth : nat) {struct value} : bool :=
  if (32 <? depth)%nat then true
  else match value with
       | SBJ_OBJECT m =>
           existsb (fun k => sbj_has (Some value) k) forbidden ||
           (fix members (m : list (bytes * sbj)) : bool :=
              match m with
              | [] => false
              | (_, child) :: m' => subscription_local_reference child (S depth) || members m'
              end) m
       | SBJ_ARRAY l =>
           (fix items (l : list sbj) : bool :=
              match l with
              | [] => false
              | child :: l' => subscription_local_reference child (S depth) || items l'
              end) l
       | _ => false
       end.

Definition required_fields (type : bytes) : list string :=
  let ty s := sb_strn_eq type s in
  (if ty "shadowsocks" then ["method"; "password"]
   else if ty "vmess" || ty "vless" then ["uuid"]
   else if ty "tuic" then ["uuid"; "password"]
   else if ty "trojan" || ty "hysteria2" then ["password"]
   else [])%string.

Definition subscription_node_valid (node : sb_parsed_node) : bool :=
  let pc := pn_protocol_config node in
  nonempty (pn_server node) && negb (pn_server_port node =? 0) &&
  no_nul (pn_server node) && no_nul (pn_tag node) && negb (subscription_local_reference pc 0) &&
  negb (sb_strn_eq (pn_node_type node) "socks" && sbj_has (Some pc) "tls") &&
  forallb (has_nonempty_string pc) (required_fields (pn_node_type node)).

(** ** Plain proxy addresses *)

Definition schemes : list string := ["https"; "http"; "socks5"; "socks4a"; "socks4"; "socks"]%string.

Definition scheme_prefix (s : string) : string := (s ++ "://")%string.

(** The first scheme of the list that starts the line. *)
Definition basic_scheme (line : bytes) : option string :=
  snd <$> list_find (fun s => sv_starts line (scheme_prefix s) = true) schemes.

(** Position of the first path or query byte. *)
Fixpoint address_end (line : bytes) : bytes :=
  match line with
  | [] => []
  | c :: line' => if (code c =? 47) || (code c =? 63) then [] else c :: address_end line'
  end.

Definition is_socks (scheme : string) : bool := String.eqb (String.substring 0 5 scheme) "socks".

Section Subscription.
Context (EVP_DecodeBlock : bytes -> option bytes).
Context (yload_first : bytes -> option (list ynode * nat)).

Definition basic_auth (socks : bool) (auth : bytes) (config : sbj) : sbj :=
  let auth := match sv_find auth 58 with
              | None => if socks then default auth (decode_base64 EVP_DecodeBlock auth) else auth
              | Some _ => auth
              end in
  let (user, password) := cut auth 58 in
  let config := set_sv config "username" (percent_decode user false) in
  set_sv config "password" (match password with Some p => percent_decode p false | None => [] end).

Definition subscription_basic_uri (line : bytes) : option sb_parsed_node :=
  scheme ← basic_scheme line;
  let line := sv_from line (length (bs (scheme_prefix scheme))) in
  let (line, hash) := cut line 35 in
  let tag := match hash with Some t => percent_decode t false | None => [] end in
  let line := address_end line in
  let socks := is_socks scheme in
  let https := String.eqb scheme "https" in
  let at_ := sv_rfind line 64 in
  let address := match at_ with Some i => sv_from line (i + 1) | None => line end in
  '(host, port) ← parse_host_port address (if socks then 1080 else if https then 443 else 80);
  let tag := if nonempty tag then tag else host_port_tag (cstr host) port in
  let config := match at_ with
                | Some i => basic_auth socks (sv_sub line 0 (Some i)) (SBJ_OBJECT [])
                | None => SBJ_OBJECT []
                end in
  let config :=
    if socks then
      sbj_set_str config "version"
        (if String.eqb scheme "socks4a" then bs "4a" else if String.eqb scheme "socks4" then bs "4" else bs "5")
    else if https then sbj_set config "tls" (sbj_set_bool (SBJ_OBJECT []) "enabled" true)
    else config in
  finish_node (if socks then bs "socks" else bs "http") tag host port config true.

(** ** Bodies *)

Definition likely_base64 (body : bytes) : bool :=
  let v := sv_trim body in
  (20 <? length v)%nat &&
  forallb (fun c => is_alnum c || (code c =? 43) || (code c =? 47) || (code c =? 45) || (code c =? 95) ||
                    (code c =? 61) || is_space c) v.

Definition supported_network (proxy : sbj) : bool :=
  match sbj_get (Some proxy) "network" with
  | Some (SBJ_STRING s) =>
      negb (nonempty s) || sv_eq s "tcp" || sv_eq s "ws" || sv_eq s "grpc" || sv_eq s "h2" || sv_eq s "http"
  | _ => true
  end.

Definition unsupported_entry (proxy : sbj) : bool :=
  sbj_has (Some proxy) "plugin" || sbj_has (Some proxy) "plugin-opts" || negb (supported_network proxy).

Definition clash_message (i : nat) (unsupported : bool) : bytes :=
  bs "Clash entry " ++ fmt_uint (Z.of_nat i) ++ bs ": " ++
  (if unsupported then bs "unsupported plugin or transport" else bs "unsupported protocol or invalid required fields").

(** [report]: whether the caller collects diagnostics. *)
Fixpoint clash_entries (heap : list ynode) (proxies : nat) (items : list nat) (i : nat) (report : bool)
    (b : yaml_convert_limits) (out : sb_proxy_import) : sb_proxy_import :=
  match items with
  | [] => out
  | n :: items =>
      let (proxy, b) := yaml_to_json heap YAML_CONVERT_DEPTH [proxies] n b in
      let unsupported := report && unsupported_entry proxy in
      let out := match (if unsupported then None else clash_proxy proxy) with
                 | Some node => push_node out node
                 | None => if report then push_skipped out (clash_message i unsupported) else out
                 end in
      clash_entries heap proxies items (S i) report b out
  end.

(** The value of the first scalar key [proxies]. *)
Fixpoint find_proxies (heap : list ynode) (items : list nat) : option nat :=
  match items with
  | k :: v :: items =>
      let key := y_at heap k in
      match y_kind key with
      | Y_SCALAR => if bytes_eqb (y_s key) (bs "proxies") then Some v else find_proxies heap items
      | _ => find_proxies heap items
      end
  | _ => None
  end.

Definition parse_clash_yaml (text : bytes) (report : bool) (out : sb_proxy_import) : option sb_proxy_import :=
  '(heap, root) ← yload_first text;
  match y_kind (y_at heap root) with
  | Y_MAP =>
      proxies ← find_proxies heap (y_items (y_at heap root));
      match y_kind (y_at heap proxies), y_items (y_at heap proxies) with
      | Y_SEQ, n :: items =>
          Some (clash_entries heap proxies (n :: items) 1 report
                  (mk_limits YAML_CONVERT_BUDGET YAML_CONVERT_STRING_BUDGET false) out)
      | _, _ => None
      end
  | _ => None
  end.

Definition ignored_line (line : bytes) : bool := negb (nonempty line) || starts_byte line 35 || sv_starts line "//".

Fixpoint body_lines (lines : list bytes) (out : list sb_parsed_node) : result (list sb_parsed_node) :=
  match lines with
  | [] => Ok out
  | piece :: lines =>
      let line := sv_trim piece in
      if ignored_line line then body_lines lines out
      else
        r ← sb_parse_proxy_uri_ex EVP_DecodeBlock (Some line);
        body_lines lines (match r with Some node => out ++ [node] | None => out end)
  end.

Definition sb_parse_subscription_body_ex (body : option bytes) : result (list sb_parsed_node) :=
  let input := default [] body in
  let text := if likely_base64 input then default input (decode_base64 EVP_DecodeBlock (sv_trim input)) else input in
  match parse_clash_yaml text false sb_proxy_import_init with
  | Some out => Ok (imp_nodes out)
  | None => body_lines (pieces text 10) []
  end.

(** ** Tolerant import with diagnostics *)

Definition ignored_outbound (type : option sbj) : bool :=
  existsb (sbj_string_is type) ["selector"; "urltest"; "direct"; "block"; "dns"]%string.

(** Runnable defaults in place of the one-element arrays of the config import. *)
Definition runnable_defaults (entry : sbj) (config : sbj) : sbj :=
  let type := sbj_get (Some entry) "type" in
  let missing k := negb (sbj_has (Some entry) k) in
  if sbj_string_is type "vmess" then
    let config := if missing "alter_id"%string then sbj_set_int config "alter_id" 0 else config in
    if missing "security"%string then sbj_set_str config "security" (bs "auto") else config
  else if sbj_string_is type "vless" then
    let config := if missing "flow"%string then snd (sbj_del config "flow") else config in
    if missing "packet_encoding"%string then sbj_set_str config "packet_encoding" (bs "xudp") else config
  else config.

Definition set_config (n : sb_parsed_node) (config : sbj) : sb_parsed_node :=
  mk_parsed (pn_node_type n) (pn_tag n) (pn_server n) (pn_server_port n) config.

Definition json_message (i : nat) : bytes :=
  bs "JSON outbound " ++ fmt_uint (Z.of_nat i) ++ bs ": unsupported protocol or invalid required fields".

Fixpoint json_entries (entries : list sbj) (i : nat) (out : sb_proxy_import) : sb_proxy_import :=
  match entries with
  | [] => out
  | entry :: entries =>
      if ignored_outbound (sbj_get (Some entry) "type") then json_entries entries (S i) out
      else
        let out := match sb_parse_outbound_config (Some (SBJ_ARRAY [sbj_clone entry])) with
                   | Ok (mk_import [node] _) =>
                       push_node out (set_config node (runnable_defaults entry (pn_protocol_config node)))
                   | _ => push_skipped out (json_message i)
                   end in
        json_entries entries (S i) out
  end.

(** A query parameter named [plugin]. *)
Definition ss_plugin (line : bytes) : bool :=
  sv_starts line "ss://" &&
  match sv_find line 63 with
  | None => false
  | Some q =>
      let query := fst (cut (sv_from line (q + 1)) 35) in
      existsb (fun field => sv_eq (percent_decode (fst (cut field 61)) true) "plugin") (pieces query 38)
  end.

Definition line_message (i : nat) (plugin : bool) : bytes :=
  bs "Line " ++ fmt_uint (Z.of_nat i) ++ bs ": " ++
  (if plugin then bs "unsupported Shadowsocks plugin" else bs "unsupported URI or invalid required fields").

Definition report_line (line : bytes) : result (option sb_parsed_node) :=
  match sb_parse_proxy_uri_ex EVP_DecodeBlock (Some line) with
  | Ok None => Ok (subscription_basic_uri line)
  | r => r
  end.

Fixpoint report_lines (lines : list bytes) (i : nat) (out : sb_proxy_import) (first_error : option sb_err)
    : sb_proxy_import * option sb_err :=
  match lines with
  | [] => (out, first_error)
  | piece :: lines =>
      let line := sv_trim piece in
      if ignored_line line then report_lines lines (S i) out first_error
      else if ss_plugin line then report_lines lines (S i) (push_skipped out (line_message i true)) first_error
      else match report_line line with
           | Ok (Some node) => report_lines lines (S i) (push_node out node) first_error
           | Ok None => report_lines lines (S i) (push_skipped out (line_message i false)) first_error
           | Err e => report_lines lines (S i) (push_skipped out (line_message i false))
                        (match first_error with Some f => Some f | None => Some e end)
           end
  end.

Definition json_outbounds (text : bytes) : option (list sbj) :=
  if starts_byte text 123 || starts_byte text 91 then
    match sbj_parse text with
    | Some (SBJ_ARRAY l) => Some l
    | json => match sbj_get json "outbounds" with Some (SBJ_ARRAY l) => Some l | _ => None end
    end
  else None.

Definition subscription_entries (text : bytes) : sb_proxy_import * option sb_err :=
  match json_outbounds text with
  | Some entries => (json_entries entries 1 sb_proxy_import_init, None)
  | None =>
      match parse_clash_yaml text true sb_proxy_import_init with
      | Some out => (out, None)
      | None => report_lines (pieces text 10) 1 sb_proxy_import_init None
      end
  end.

Definition invalid_message : bytes :=
  bs "Proxy entry: missing credentials, invalid text, or local-file TLS settings".

(** The loop that removes invalid nodes in place. *)
Fixpoint drop_invalid (nodes : list sb_parsed_node) (skipped : list bytes) : sb_proxy_import :=
  match nodes with
  | [] => mk_import [] skipped
  | n :: nodes =>
      if subscription_node_valid n
      then let imp := drop_invalid nodes skipped in mk_import (n :: imp_nodes imp) (imp_skipped imp)
      else drop_invalid nodes (skipped ++ [invalid_message])
  end.

(** The text of the body, out of base64 if it is in base64. *)
Definition subscription_text (body : option bytes) : bytes :=
  let input := default [] body in
  let text := sv_trim input in
  if likely_base64 input
  then match decode_base64 EVP_DecodeBlock (sv_trim input) with Some d => sv_trim d | None => text end
  else text.

(** The diagnostics are kept when the call fails. *)
Definition sb_parse_subscription_report (body : option bytes) : sb_proxy_import * result unit :=
  let (imp, first_error) := subscription_entries (subscription_text body) in
  let imp := drop_invalid (imp_nodes imp) (imp_skipped imp) in
  (imp, match imp_nodes imp with
        | [] =>
            match first_error with
            | Some e => Err e
            | None => sb_fail SB_ERR_VALIDATION (bs "Subscription contains no compatible proxy nodes")
            end
        | _ => Ok tt
        end).
End Subscription.
