(* ===== verification/ProxyYaml.v ===== *)
(** * YAML conversion: bounds and exactness

    Theorems on [yaml_to_json] of [ProxyImport]: on any graph, cyclic ones
    included, the result is well-formed, within the depth limit and within the
    budget; and when no limit was hit it is the tree the graph unfolds to. *)

From S2P Require Import Prelude Util Json JsonText JsonSafe Types ProxyUri ProxyImport.

(** Values other than null. *)
Fixpoint weight (v : sbj) : Z :=
  match v with
  | SBJ_NULL => 0
  | SBJ_ARRAY l => 1 + foldr Z.add 0 (map weight l)
  | SBJ_OBJECT m => 1 + foldr Z.add 0 (map (fun kv => weight (snd kv)) m)
  | _ => 1
  end.

Definition weights (l : list sbj) : Z := foldr Z.add 0 (map weight l).

Lemma weight_nonneg v : 0 <= weight v.
Proof.
  induction v as [| | | | | |l IH|m IH] using sbj_ind; cbn [weight]; try lia.
  - induction IH as [|x l Hx _ IHl]; cbn [map foldr]; lia.
  - induction IH as [|x m Hx _ IHm]; cbn [map foldr]; lia.
Qed.

Lemma weights_app l k : weights (l ++ k) = weights l + weights k.
Proof. unfold weights. rewrite map_app. induction (map weight l) as [|x t IH]; cbn [foldr app]; lia. Qed.

Definition mweights (m : list (bytes * sbj)) : Z := foldr Z.add 0 (map (fun kv => weight (snd kv)) m).

Lemma mweights_app a b : mweights (a ++ b) = mweights a + mweights b.
Proof. unfold mweights. rewrite map_app. induction (map _ a) as [|x t IH]; cbn [foldr app]; lia. Qed.

Lemma mweights_split m i : mweights m = mweights (take i m) + mweights (drop i m).
Proof. by rewrite <- mweights_app, take_drop. Qed.

Lemma mweights_insert m i k v : mweights (<[i := (k, v)]> m) <= mweights m + weight v.
Proof.
  pose proof (weight_nonneg v). destruct (decide (i < length m)%nat) as [L|L]; [|rewrite list_insert_ge by lia; lia].
  destruct (lookup_lt_is_Some_2 m i L) as [[k0 v0] E]. rewrite insert_take_drop by done. rewrite mweights_app.
  pose proof (f_equal mweights (take_drop_split m i (k0, v0) E)) as D. rewrite mweights_app in D.
  unfold mweights in *. cbn [map foldr snd] in *. pose proof (weight_nonneg v0). lia.
Qed.

(** Setting a member adds at most its weight. *)
Lemma weight_setn o k v : weight (sbj_setn o k (Some v)) <= weight o + weight v.
Proof.
  pose proof (weight_nonneg v). destruct o as [| | | | | | |m]; cbn [sbj_setn]; try lia. destruct (obj_find m k) as [i found].
  change (weight (SBJ_OBJECT ?m)) with (1 + mweights m). change (or_null (Some v)) with v.
  destruct found; [pose proof (mweights_insert m i k v); lia|].
  rewrite mweights_app, (mweights_split m i). unfold mweights. cbn [map foldr snd]. lia.
Qed.

(** ** Bounds *)

Definition limits_ok (b : yaml_convert_limits) : Prop := 0 <= lim_nodes b /\ 0 <= lim_bytes b.

(** What a conversion with [room] levels left guarantees. *)
Definition converted (room : nat) (b : yaml_convert_limits) (r : sbj * yaml_convert_limits) : Prop :=
  let (v, b') := r in
  limits_ok b' /\ sbj_wf v = true /\ nests v (Z.of_nat room) = true /\ weight v + lim_nodes b' <= lim_nodes b.

Section Bounds.
Context (heap : list ynode) (room : nat) (convert : nat -> yaml_convert_limits -> sbj * yaml_convert_limits).
Hypothesis convert_ok : forall n b, limits_ok b -> converted room b (convert n b).

Lemma convert_seq_ok items l b :
  limits_ok b -> sbj_wf (SBJ_ARRAY l) = true -> nests (SBJ_ARRAY l) (Z.of_nat (S room)) = true ->
  let (v, b') := convert_seq convert items (SBJ_ARRAY l) b in
  limits_ok b' /\ sbj_wf v = true /\ nests v (Z.of_nat (S room)) = true /\
  weight v + lim_nodes b' <= weight (SBJ_ARRAY l) + lim_nodes b.
Proof.
  revert l b. induction items as [|i items IH]; intros l b Hb W N; cbn [convert_seq]; [repeat split; (done || apply Hb || lia)|].
  pose proof (convert_ok i b Hb) as C. destruct (convert i b) as [v b1]. destruct C as (C1 & C2 & C3 & C4).
  cbn [sbj_arr_push]. change (or_null (Some v)) with v. specialize (IH (l ++ [v]) b1 C1). 
  destruct (convert_seq convert items (SBJ_ARRAY (l ++ [v])) b1) as [v' b'].
  destruct IH as (I1 & I2 & I3 & I4).
  - apply wf_array, Forall_app. split; [by apply wf_array|by constructor].
  - cbn [nests] in *. bool_facts. rewrite leb_true by lia. rewrite forallb_app. cbn [forallb andb].
    replace (Z.of_nat (S room) - 1) with (Z.of_nat room) in * by lia. by rewrite C3, andb_true_r.
  - split; [done|]. split; [done|]. split; [done|]. cbn [weight] in I4 |- *. change (foldr Z.add 0 (map weight ?l)) with (weights l) in *.
    rewrite weights_app in I4. cbn [weights map foldr] in I4. lia.
Qed.

Lemma nests_setn m k v : nests (SBJ_OBJECT m) (Z.of_nat (S room)) = true -> nests v (Z.of_nat room) = true ->
  exists m', sbj_setn (SBJ_OBJECT m) k (Some v) = SBJ_OBJECT m' /\ nests (SBJ_OBJECT m') (Z.of_nat (S room)) = true.
Proof.
  intros N Nv. destruct (sbj_setn (SBJ_OBJECT m) k (Some v)) as [| | | | | | |m'] eqn:E;
    try (cbn [sbj_setn] in E; by destruct (obj_find m k)). exists m'. split; [done|]. cbn [nests] in *. bool_facts. rewrite leb_true by lia.
  apply (forallb_setn (fun _ v => nests v (Z.of_nat (S room) - 1)) m k v m'); [done..|].
  by replace (Z.of_nat (S room) - 1) with (Z.of_nat room) by lia.
Qed.

Lemma convert_map_ok items m b :
  limits_ok b -> sbj_wf (SBJ_OBJECT m) = true -> nests (SBJ_OBJECT m) (Z.of_nat (S room)) = true ->
  let (v, b') := convert_map heap convert items (SBJ_OBJECT m) b in
  limits_ok b' /\ sbj_wf v = true /\ nests v (Z.of_nat (S room)) = true /\
  weight v + lim_nodes b' <= weight (SBJ_OBJECT m) + lim_nodes b.
Proof.
  assert (Base : forall m b, limits_ok b -> sbj_wf (SBJ_OBJECT m) = true -> nests (SBJ_OBJECT m) (Z.of_nat (S room)) = true ->
    limits_ok b /\ sbj_wf (SBJ_OBJECT m) = true /\ nests (SBJ_OBJECT m) (Z.of_nat (S room)) = true /\
    weight (SBJ_OBJECT m) + lim_nodes b <= weight (SBJ_OBJECT m) + lim_nodes b)
    by (intros m0 b0 H1 H2 H3; split; [exact H1|]; split; [exact H2|]; split; [exact H3|lia]).
  revert m b. induction items as [items IH] using (well_founded_induction (well_founded_ltof _ length)). unfold ltof in IH.
  intros m b Hb W N. destruct items as [|i [|j items]]; [by apply Base..|]. cbn [convert_map].
  pose proof (IH items ltac:(cbn; lia) m b Hb W N) as Rest.
  destruct (y_kind (y_at heap i)); try exact Rest. destruct (no_nul (y_s (y_at heap i))); [|exact Rest].
  destruct (lim_bytes b <? y_len (y_at heap i)) eqn:B; [exact (Base m (exhaust b) Hb W N)|]. bool_facts.
  pose proof (convert_ok j (spend_bytes b (y_len (y_at heap i)))) as C.
  destruct (convert j (spend_bytes b (y_len (y_at heap i)))) as [v b1].
  destruct C as (C1 & C2 & C3 & C4); [split; cbn; [apply Hb|lia]|]. cbn [spend_bytes lim_nodes] in C4.
  pose proof (weight_setn (SBJ_OBJECT m) (y_s (y_at heap i)) v) as Wt. pose proof (wf_setn _ (y_s (y_at heap i)) (Some v) W C2) as Wf.
  destruct (nests_setn m (y_s (y_at heap i)) v N C3) as (m' & E & N'). rewrite E in *.
  pose proof (IH items ltac:(cbn; lia) m' b1 C1 Wf N') as R. destruct (convert_map heap convert items (SBJ_OBJECT m') b1) as [v' b'].
  destruct R as (R1 & R2 & R3 & R4). repeat split; try done; [apply R1|apply R1|lia].
Qed.
End Bounds.

Lemma yaml_to_json_ok heap room visiting n b : limits_ok b -> converted room b (yaml_to_json heap room visiting n b).
Proof.
  revert visiting n b. induction room as [|room IH]; intros visiting n b Hb; cbn [yaml_to_json].
  - split; [exact Hb|]. repeat split. cbn. lia.
  - destruct ((lim_nodes b =? 0) || _) eqn:B.
    { split; [exact Hb|]. repeat split. cbn. lia. }
    apply orb_false_iff in B as [B _]. bool_facts. destruct Hb as [Hb1 Hb2].
    set (b1 := mk_limits (lim_nodes b - 1) (lim_bytes b) (lim_exhausted b)).
    assert (Hb' : limits_ok b1) by (split; cbn; lia).
    assert (Nil : 1 <= Z.of_nat (S room)) by lia.
    destruct (y_kind (y_at heap n)).
    + split; [exact Hb'|]. repeat split. cbn. lia.
    + destruct (lim_bytes b1 <? y_len (y_at heap n)) eqn:L; bool_facts; cbn in L.
      * split; [exact Hb'|]. repeat split. cbn. lia.
      * split; [split; cbn; lia|]. repeat split. cbn. lia.
    + pose proof (convert_seq_ok room _ (fun i b Hb => IH (n :: visiting) i b Hb) (y_items (y_at heap n)) [] b1 Hb' eq_refl) as C.
      destruct (convert_seq _ _ _ b1) as [v b']. destruct C as (C1 & C2 & C3 & C4); [cbn [nests forallb]; by rewrite leb_true|].
      repeat split; try done; [apply C1|apply C1|cbn in C4; lia].
    + pose proof (convert_map_ok heap room _ (fun i b Hb => IH (n :: visiting) i b Hb) (y_items (y_at heap n)) [] b1 Hb' eq_refl) as C.
      destruct (convert_map _ _ _ _ b1) as [v b']. destruct C as (C1 & C2 & C3 & C4); [cbn [nests forallb]; by rewrite leb_true|].
      repeat split; try done; [apply C1|apply C1|cbn in C4; lia].
Qed.

(** Converting a YAML graph is safe.  On every graph, with cyclic or shared
    aliases of any shape, the conversion of a Clash entry ends with a well-formed
    value that nests at most 1000 collections, and the budget of nodes it leaves
    accounts for every value other than null, so that all entries together hold at
    most two million of them. *)
Theorem yaml_to_json_bounded heap visiting n b :
  0 <= lim_nodes b <= YAML_CONVERT_BUDGET -> 0 <= lim_bytes b ->
  let (v, b') := yaml_to_json heap YAML_CONVERT_DEPTH visiting n b in
  sbj_wf v = true /\ nests v 1000 = true /\ 0 <= lim_nodes b' /\ 0 <= lim_bytes b' /\
  weight v + lim_nodes b' <= lim_nodes b /\ weight v <= 2000000.
Proof.
  intros Hn Hb. pose proof (yaml_to_json_ok heap YAML_CONVERT_DEPTH visiting n b (conj (proj1 Hn) Hb)) as C.
  destruct (yaml_to_json _ _ _ _ _) as [v b']. destruct C as ([C1 C2] & C3 & C4 & C5).
  split; [done|]. split; [exact C4|]. unfold YAML_CONVERT_BUDGET in Hn. lia.
Qed.

(** A sequence that contains itself, and a map that shares it. *)
Definition cyclic_heap : list ynode :=
  [mk_ynode Y_SEQ [] [1; 0; 1]%nat; mk_ynode Y_SCALAR (bs "x") []; mk_ynode Y_MAP [] [1; 0; 1; 2]%nat].

Lemma yaml_to_json_bounded_witness :
  fst (yaml_to_json cyclic_heap YAML_CONVERT_DEPTH [] 0 (mk_limits 2000000 100 false)) =
    SBJ_ARRAY [SBJ_STRING (bs "x"); SBJ_NULL; SBJ_STRING (bs "x")] /\
  let (v, b') := yaml_to_json cyclic_heap YAML_CONVERT_DEPTH [] 0 (mk_limits 2000000 100 false) in
  sbj_wf v = true /\ nests v 1000 = true /\ 0 <= lim_nodes b' /\ 0 <= lim_bytes b' /\
  weight v + lim_nodes b' <= 2000000 /\ weight v <= 2000000.
Proof.
  split; [by vm_compute|].
  apply (yaml_to_json_bounded cyclic_heap [] 0 (mk_limits 2000000 100 false)); cbn; unfold YAML_CONVERT_BUDGET; lia.
Defined.

(** ** Exactness *)

Definition kept_key (k : ynode) : bool := match y_kind k with Y_SCALAR => no_nul (y_s k) | _ => false end.

(** The value a node unfolds to: scalars are strings, maps keep their scalar keys
    without NUL, the last of equal keys wins. *)
Inductive yaml_value (heap : list ynode) : nat -> sbj -> Prop :=
  | yv_null n : y_kind (y_at heap n) = Y_NULL -> yaml_value heap n SBJ_NULL
  | yv_scalar n : y_kind (y_at heap n) = Y_SCALAR -> yaml_value heap n (SBJ_STRING (y_s (y_at heap n)))
  | yv_seq n l : y_kind (y_at heap n) = Y_SEQ -> yaml_elements heap (y_items (y_at heap n)) l -> yaml_value heap n (SBJ_ARRAY l)
  | yv_map n o : y_kind (y_at heap n) = Y_MAP -> yaml_members heap (y_items (y_at heap n)) (SBJ_OBJECT []) o -> yaml_value heap n o
with yaml_elements (heap : list ynode) : list nat -> list sbj -> Prop :=
  | ye_nil : yaml_elements heap [] []
  | ye_cons i items v l : yaml_value heap i v -> yaml_elements heap items l -> yaml_elements heap (i :: items) (v :: l)
with yaml_members (heap : list ynode) : list nat -> sbj -> sbj -> Prop :=
  | ym_end items o : (length items < 2)%nat -> yaml_members heap items o o
  | ym_key i j items o v o' : kept_key (y_at heap i) = true -> yaml_value heap j v ->
      yaml_members heap items (sbj_setn o (y_s (y_at heap i)) (Some v)) o' -> yaml_members heap (i :: j :: items) o o'
  | ym_skip i j items o o' : kept_key (y_at heap i) = false ->
      yaml_members heap items o o' -> yaml_members heap (i :: j :: items) o o'.

(** The flag never goes back, and without it the value is the one unfolded. *)
Definition exact (heap : list ynode) (n : nat) (b : yaml_convert_limits) (r : sbj * yaml_convert_limits) : Prop :=
  lim_exhausted (snd r) = false -> lim_exhausted b = false /\ yaml_value heap n (fst r).

Section Exact.
Context (heap : list ynode) (convert : nat -> yaml_convert_limits -> sbj * yaml_convert_limits).
Hypothesis convert_exact : forall n b, exact heap n b (convert n b).

Lemma convert_seq_exact items l b :
  lim_exhausted (snd (convert_seq convert items (SBJ_ARRAY l) b)) = false ->
  lim_exhausted b = false /\
  exists l', fst (convert_seq convert items (SBJ_ARRAY l) b) = SBJ_ARRAY (l ++ l') /\ yaml_elements heap items l'.
Proof.
  revert l b. induction items as [|i items IH]; intros l b; cbn [convert_seq].
  - cbn. intros E. split; [done|]. exists []. rewrite app_nil_r. split; [done|constructor].
  - pose proof (convert_exact i b) as C. destruct (convert i b) as [v b1]. cbn [sbj_arr_push]. change (or_null (Some v)) with v.
    intros (E & l' & -> & F)%IH. destruct (C E) as [Eb V]. split; [done|]. exists (v :: l'). rewrite <- app_assoc. split; [done|].
    by constructor.
Qed.

Lemma convert_map_exact items o b :
  lim_exhausted (snd (convert_map heap convert items o b)) = false ->
  lim_exhausted b = false /\ yaml_members heap items o (fst (convert_map heap convert items o b)).
Proof.
  revert o b. induction items as [items IH] using (well_founded_induction (well_founded_ltof _ length)). unfold ltof in IH.
  intros o b. destruct items as [|i [|j items]]; cbn [convert_map]; [split; [done|apply ym_end; cbn; lia]..|].
  assert (Skip : kept_key (y_at heap i) = false -> lim_exhausted (snd (convert_map heap convert items o b)) = false ->
    lim_exhausted b = false /\ yaml_members heap (i :: j :: items) o (fst (convert_map heap convert items o b))).
  { intros K E. destruct (IH items ltac:(cbn; lia) o b E). split; [done|]. by apply ym_skip. }
  unfold kept_key in Skip. destruct (y_kind (y_at heap i)) eqn:Ki; [by apply Skip| |by apply Skip..].
  destruct (no_nul (y_s (y_at heap i))) eqn:Nn; [|by apply Skip]. destruct (_ <? _); [done|].
  pose proof (convert_exact j (spend_bytes b (y_len (y_at heap i)))) as C. destruct (convert j _) as [v b1].
  intros (E & M)%IH; [|cbn; lia]. destruct (C E) as [Eb V]. split; [done|].
  eapply ym_key; [unfold kept_key; by rewrite Ki|exact V|exact M].
Qed.
End Exact.

Lemma yaml_to_json_exact_at heap room visiting n b : exact heap n b (yaml_to_json heap room visiting n b).
Proof.
  revert visiting n b. induction room as [|room IH]; intros visiting n b E; cbn [yaml_to_json] in *; [done|].
  destruct (_ || _); [done|]. destruct (y_kind (y_at heap n)) eqn:K.
  - split; [done|]. by constructor.
  - destruct (_ <? _); [done|]. split; [done|]. by constructor.
  - destruct (convert_seq_exact heap _ (fun i b => IH (n :: visiting) i b) _ _ _ E) as (Eb & l & -> & F).
    split; [done|]. by apply yv_seq.
  - destruct (convert_map_exact heap _ (fun i b => IH (n :: visiting) i b) _ _ _ E) as (Eb & M). split; [done|]. by apply yv_map.
Qed.

(** Converting a YAML graph is exact unless a limit is hit.  When the
    conversion does not report exhaustion, no limit had been hit before and the
    value is the one the graph unfolds to: strings for scalars, arrays for
    sequences, objects of the scalar keys for maps, every alias expanded. *)
Theorem yaml_to_json_exact heap visiting n b :
  lim_exhausted (snd (yaml_to_json heap YAML_CONVERT_DEPTH visiting n b)) = false ->
  lim_exhausted b = false /\ yaml_value heap n (fst (yaml_to_json heap YAML_CONVERT_DEPTH visiting n b)).
Proof. apply yaml_to_json_exact_at. Qed.

Lemma yaml_to_json_exact_witness :
  let heap := [mk_ynode Y_MAP [] [1; 2; 1; 3]%nat; mk_ynode Y_SCALAR (bs "k") []; mk_ynode Y_NULL [] [];
               mk_ynode Y_SEQ [] [1; 1]%nat] in
  yaml_value heap 0 (SBJ_OBJECT [(bs "k", SBJ_ARRAY [SBJ_STRING (bs "k"); SBJ_STRING (bs "k")])]).
Proof.
  cbv zeta. refine (proj2 (yaml_to_json_exact [mk_ynode Y_MAP [] [1; 2; 1; 3]%nat; mk_ynode Y_SCALAR (bs "k") [];
    mk_ynode Y_NULL [] []; mk_ynode Y_SEQ [] [1; 1]%nat] [] 0 (mk_limits 100 100 false) _)). by vm_compute.
Defined.
