(* ===== verification/ProxyImportProofs.v ===== *)
(** * Imports: what subscriptions may bring in

    Theorems on [ProxyImport]: every node a subscription yields is complete, has
    its credentials and refers to no local file; the diagnostics quote nothing of
    the input; every entry is accounted for. *)

From S2P Require Import Prelude Util Json JsonText JsonSafe Types ProxyUri ProxyUriProofs ProxyImport ProxyYaml.

(** ** Clash entries *)

Lemma wf_set_opt c k v : sbj_wf c = true -> (forall x, v = Some x -> sbj_wf x = true) -> sbj_wf (set_opt c k v) = true.
Proof. intros W Hv. destruct v; [apply wf_set; auto|done]. Qed.

Lemma object_set_opt c k v : sbj_is_object (Some c) = true -> sbj_is_object (Some (set_opt c k v)) = true.
Proof. destruct v; cbn [set_opt]; auto with sb. Qed.

Lemma wf_set_string c k v : sbj_wf c = true -> sbj_wf (set_string c k v) = true.
Proof. intros W. apply wf_set_opt; [done|]. intros x. destruct v; [by intros [= <-]|done]. Qed.

Lemma object_set_string c k v : sbj_is_object (Some c) = true -> sbj_is_object (Some (set_string c k v)) = true.
Proof. apply object_set_opt. Qed.

Lemma wf_set_string_nonempty c k v : sbj_wf c = true -> sbj_wf (set_string_nonempty c k v) = true.
Proof. intros W. destruct v; [by apply wf_set_nonempty|done]. Qed.

Lemma object_set_string_nonempty c k v : sbj_is_object (Some c) = true -> sbj_is_object (Some (set_string_nonempty c k v)) = true.
Proof. destruct v; cbn [set_string_nonempty]; auto with sb. Qed.

Lemma wf_copy_member t o k : sbj_wf t = true -> sbj_wf o = true -> sbj_wf (copy_member t o k) = true.
Proof.
  intros Wt Wo. apply wf_set_opt; [done|]. intros x. destruct (sbj_get (Some o) k) as [v|] eqn:E; [|done].
  intros [= <-]. apply wf_clone. by eapply wf_get.
Qed.

Lemma object_copy_member t o k : sbj_is_object (Some t) = true -> sbj_is_object (Some (copy_member t o k)) = true.
Proof. apply object_set_opt. Qed.

#[export] Hint Resolve wf_set_string object_set_string wf_set_string_nonempty object_set_string_nonempty wf_copy_member
  object_copy_member object_set_opt : sb.

Lemma wf_array_head x l : sbj_wf (SBJ_ARRAY (x :: l)) = true -> sbj_wf x = true.
Proof. intros W%wf_array. by inversion W. Qed.

Lemma wf_clash_transport p t : sbj_wf p = true -> clash_transport p = Some t -> sbj_wf t = true.
Proof.
  intros W. unfold clash_transport, sbj_set_str. destruct (sv_eq _ "ws").
  { intros <-%some_inj. destruct (sbj_get (Some p) "ws-opts") as [[]|] eqn:E; auto with sb.
    apply wf_copy_member; [apply wf_copy_member|]; eauto with sb. }
  destruct (sv_eq _ "grpc").
  { intros <-%some_inj. destruct (sbj_get (Some p) "grpc-opts") as [[]|] eqn:E; auto with sb. }
  destruct (_ || _); [|done]. intros <-%some_inj. destruct (sbj_get (Some p) _) as [[| | | | | | |m]|] eqn:E; auto with sb.
  apply wf_get in E; [|done]. destruct (sbj_get (Some (SBJ_OBJECT m)) "path") as [[| | | | |s|[|x l]|]|] eqn:P; auto 8 with sb.
  apply wf_get in P; [|done]. apply wf_set; [auto with sb|]. apply wf_clone. by eapply wf_array_head.
Qed.

Lemma wf_clash_reality tls r : sbj_wf tls = true -> sbj_wf (clash_reality tls r) = true.
Proof. intros W. unfold clash_reality, sbj_set_bool. destruct (sbj_has _ _); auto 10 with sb. Qed.

Lemma wf_clash_tls p e t : sbj_wf p = true -> clash_tls p e = Some t -> sbj_wf t = true.
Proof.
  intros W. unfold clash_tls. destruct (negb e); [done|]. intros <-%some_inj.
  set (tls := if boolean_value p "skip-cert-verify" then _ else _).
  assert (W1 : sbj_wf tls = true) by (subst tls; unfold sbj_set_bool; case_if; auto with sb). clearbody tls.
  set (tls2 := match sbj_get (Some p) "alpn" with Some (SBJ_ARRAY l) => _ | _ => _ end).
  assert (W2 : sbj_wf tls2 = true).
  { subst tls2. destruct (sbj_get (Some p) "alpn") as [[]|] eqn:E; auto with sb. apply wf_set; [done|]. apply wf_clone. exact (wf_get _ _ _ W E). }
  clearbody tls2. set (tls3 := match string_value p "client-fingerprint" with Some _ => _ | None => _ end).
  assert (W3 : sbj_wf tls3 = true) by (subst tls3; destruct (string_value _ _); [case_if|]; auto with sb). clearbody tls3.
  destruct (sbj_get (Some p) "reality-opts") as [[]|]; auto using wf_clash_reality.
Qed.

#[export] Hint Resolve wf_clash_transport wf_clash_tls : sb.

Lemma integer_text_range s i : integer_text s = Some i -> in_range INT64_MIN INT64_MAX i = true.
Proof.
  unfold integer_text. destruct (match s with [] => _ | _ => _ end) as [neg ds].
  assert (M : forall t a m, 0 <= a -> magnitude t a = Some m -> 0 <= m).
  { induction t as [|c t IH]; intros a m Ha; cbn [magnitude]; [by intros [= <-]|]. destruct (negb _) eqn:D; [done|].
    unfold in_range in D. bool_facts. destruct (_ <? a); [done|]. apply IH. lia. }
  destruct ds as [|c ds]; [done|]. destruct (magnitude (c :: ds) 0) as [m|] eqn:E; [|done]. cbn. apply M in E; [|lia].
  destruct neg; destruct (_ <? m) eqn:B; try done; bool_facts; intros [= <-]; unfold in_range, INT64_MIN, INT64_MAX in *.
  - case_if; rewrite !leb_true by lia; done.
  - rewrite !leb_true by lia. done.
Qed.

Lemma integer_value_range v k i : sbj_wf v = true -> integer_value v k = Some i -> in_range INT64_MIN INT64_MAX i = true.
Proof.
  intros W. unfold integer_value. destruct (sbj_get (Some v) k) as [[| |j|u| |s| |]|] eqn:E; try done.
  - intros [= <-]. by apply wf_get in E.
  - intros [= <-]. unfold to_i64, in_range, INT64_MIN, INT64_MAX. rewrite !leb_true by lia_dm. done.
  - apply integer_text_range.
Qed.

Lemma wf_set_int o k i : sbj_wf o = true -> in_range INT64_MIN INT64_MAX i = true -> sbj_wf (sbj_set_int o k i) = true.
Proof. intros W R. by apply wf_set. Qed.

Lemma wf_clash_config p t c : sbj_wf p = true -> clash_config p t = Some c -> sbj_wf c = true /\ sbj_is_object (Some c) = true.
Proof.
  intros W. unfold clash_config.
  assert (A : in_range INT64_MIN INT64_MAX (match integer_value p "alterId" with Some a => a | None => default 0 (integer_value p "alterid") end) = true).
  { destruct (integer_value p "alterId") eqn:E1; [by eapply integer_value_range|].
    destruct (integer_value p "alterid") eqn:E2; [by eapply integer_value_range|done]. }
  revert A. generalize (match integer_value p "alterId" with Some a => a | None => default 0 (integer_value p "alterid") end). intros aid A.
  assert (T : forall e x, clash_tls p e = Some x -> sbj_wf x = true) by (intros e x; by apply wf_clash_tls).
  assert (Tr : forall x, clash_transport p = Some x -> sbj_wf x = true) by (intros x; by apply wf_clash_transport).
  unfold sbj_set_str. repeat (destruct (String.eqb t _); [try (destruct (boolean_value p "tls"); [done|]); intros <-%some_inj|]).
  8: intros <-%some_inj.
  all: try (destruct (string_value p "obfs") as [o|]; [destruct (nonempty o)|]).
  all: split; [|unfold set_sv, sbj_set_int; auto 12 with sb].
  all: repeat (apply wf_set_string || apply wf_set_string_nonempty || apply wf_set_opt || apply wf_set_sv ||
               (apply wf_set_int; [|done]) || apply wf_set); eauto.
Qed.

Lemma clash_type_known t s : clash_type t = Some s -> cstr (bs s) ∈ known_types.
Proof.
  unfold clash_type. repeat (destruct (_ || _) || destruct (sv_eq t _)).
  all: intros E; try discriminate; apply some_inj in E as <-; known_type.
Qed.

Lemma clash_proxy_sound p n : sbj_wf p = true -> clash_proxy p = Some n -> sound_node n.
Proof.
  intros W. unfold clash_proxy. destruct (negb _); [done|].
  destruct (negb (nonempty _) || _ || _) eqn:B; [done|]. bool_facts. intros E.
  apply bind_Some in E as (t & Ht & E). apply bind_Some in E as (c & Hc & E). apply wf_clash_config in Hc as [W1 W2]; [|done].
  apply finish_node_sound in E; [done|by eapply clash_type_known| |lia|done|done].
  intros Z0. match goal with N : nonempty _ = true |- _ => by rewrite Z0 in N end.
Qed.

(** ** Plain addresses *)

Lemma wf_basic_auth EVP socks auth c : sbj_wf c = true -> sbj_wf (basic_auth EVP socks auth c) = true.
Proof. intros W. unfold basic_auth. destruct (cut _ 58). auto with sb. Qed.

Lemma object_basic_auth EVP socks auth c : sbj_is_object (Some c) = true -> sbj_is_object (Some (basic_auth EVP socks auth c)) = true.
Proof. intros W. unfold basic_auth, set_sv. destruct (cut _ 58). auto with sb. Qed.

Lemma basic_uri_sound EVP line n : subscription_basic_uri EVP line = Some n -> sound_node n.
Proof.
  unfold subscription_basic_uri. intros E. apply bind_Some in E as (scheme & _ & E). destruct (cut _ 35) as [rest hash].
  apply bind_Some in E as ([host port] & A & E).
  apply parse_host_port_ok in A as [A1 A2]; [|destruct (is_socks scheme); [|destruct (String.eqb scheme "https")]; lia].
  set (c := match sv_rfind (address_end rest) 64 with Some i => _ | None => _ end) in E.
  assert (sbj_wf c = true /\ sbj_is_object (Some c) = true) as [W1 W2].
  { subst c. destruct (sv_rfind _ 64); auto using wf_basic_auth, object_basic_auth. }
  clearbody c. unfold sbj_set_str, sbj_set_bool in E.
  apply finish_node_sound in E; auto; [destruct (is_socks scheme); known_type| |]; config_cases.
Qed.

(** ** Imported outbounds *)

(** What holds of an imported outbound before its credentials are checked. *)
Record shaped_node (n : sb_parsed_node) : Prop := {
  shaped_type : pn_node_type n ∈ known_types;
  shaped_server : pn_server n <> [];
  shaped_port : 1 <= pn_server_port n <= 65535;
  shaped_config : sbj_wf (pn_protocol_config n) = true /\ sbj_is_object (Some (pn_protocol_config n)) = true }.

Lemma wf_value_or_wrapped o k f : sbj_wf o = true -> sbj_wf f = true -> sbj_wf (value_or_wrapped o k f) = true.
Proof.
  intros Wo Wf. unfold value_or_wrapped. destruct (sbj_get (Some o) k) eqn:E; [apply wf_clone; exact (wf_get _ _ _ Wo E)|].
  apply wf_push; done.
Qed.

Lemma outbound_config_ok o t c :
  sbj_wf o = true -> outbound_config o t = Some c -> t ∈ known_types /\ sbj_wf c = true /\ sbj_is_object (Some c) = true.
Proof.
  intros W. unfold outbound_config, copy_if.
  assert (T : forall s, sb_strn_eq t s = true -> t = bs s) by (intros s; apply bytes_eqb_eq).
  intros E. apply bind_Some in E as (c1 & E1 & E). apply some_inj in E as <-.
  assert (K : t ∈ known_types /\ sbj_wf c1 = true /\ sbj_is_object (Some c1) = true).
  { assert (T8 : sb_strn_eq t "http" || sb_strn_eq t "socks" = true -> t ∈ known_types).
    { intros [H|H]%orb_true_iff; apply T in H as ->; known_type. }
    repeat match type of E1 with
    | (if ?b then _ else _) = _ => destruct b eqn:?Hb; [apply some_inj in E1 as <-|]
    end; [..|done].
    all: split; [first [by apply T8 | match goal with H : sb_strn_eq _ _ = true |- _ => apply T in H as ->; known_type end]|].
    all: try (destruct (sb_strn_eq t "socks")).
    all: split; repeat (apply wf_set || apply wf_copy_member || apply wf_value_or_wrapped || apply object_copy_member || apply object_set); done. }
  destruct K as (K1 & K2 & K3). split; [done|]. case_if; [done|]. auto 8 with sb.
Qed.

Lemma parse_outbound_shaped o n : sbj_wf o = true -> parse_outbound o = Ok (Some n) -> shaped_node n.
Proof.
  intros W. unfold parse_outbound. destruct (str_of (sbj_get (Some o) "type")) as [t|]; [|done].
  destruct (str_of (sbj_get (Some o) "server")) as [server|]; [|done].
  destruct (json_port _) as [port|] eqn:P; [|done]. apply json_port_range in P. destruct (nonempty server) eqn:Ns; [|done]. cbn [negb].
  intros E. apply bind_Ok in E as (tag & _ & E). destruct (outbound_config o t) as [c|] eqn:C; [|done].
  apply outbound_config_ok in C as (C1 & C2 & C3); [|done]. apply Ok_inj in E. unfold finish_node in E. cbn [andb] in E.
  apply some_inj in E as <-. constructor; cbn; [|by destruct server|done|done].
  assert (forall x, x ∈ known_types -> cstr x = x) as ->; [|done|done].
  intros x Hx. unfold known_types in Hx. rewrite !elem_of_cons, elem_of_nil in Hx. by destruct_or! Hx; subst x.
Qed.

Lemma import_outbounds_shaped l imp imp' :
  Forall (fun v => sbj_wf v = true) l -> Forall shaped_node (imp_nodes imp) -> import_outbounds l imp = Ok imp' ->
  Forall shaped_node (imp_nodes imp').
Proof.
  intros Wl. revert imp. induction Wl as [|o l Wo Wl IH]; intros imp Hi; cbn [import_outbounds]; [by intros <-%Ok_inj|].
  intros E. apply bind_Ok in E as (type & _ & E). destruct (negb _); [by eapply IH|].
  apply bind_Ok in E as (r & Hr & E). destruct r as [node|].
  - eapply IH; [|exact E]. apply Forall_app. split; [done|]. constructor; [by eapply parse_outbound_shaped|constructor].
  - apply bind_Ok in E as (tag & _ & E). eapply IH; [|exact E]. done.
Qed.

Lemma runnable_defaults_ok entry c :
  sbj_wf c = true -> sbj_is_object (Some c) = true ->
  sbj_wf (runnable_defaults entry c) = true /\ sbj_is_object (Some (runnable_defaults entry c)) = true.
Proof.
  intros W O. unfold runnable_defaults, sbj_set_int, sbj_set_str.
  assert (sbj_is_object (Some (snd (sbj_del c "flow"))) = true).
  { rewrite sbj_del_take. destruct c; try done. unfold sbj_take. by destruct (obj_find _ _) as [? []]. }
  split; config_cases.
Qed.

(** ** Local references *)

(** [mentions k v]: some object inside [v] has a member [k]. *)
Inductive mentions (k : string) : sbj -> Prop :=
  | mentions_here v : sbj_has (Some v) k = true -> mentions k v
  | mentions_member m key v : (key, v) ∈ m -> mentions k v -> mentions k (SBJ_OBJECT m)
  | mentions_item l v : v ∈ l -> mentions k v -> mentions k (SBJ_ARRAY l).

Lemma local_reference_members m d :
  (fix members (m : list (bytes * sbj)) : bool :=
     match m with [] => false | (_, child) :: m' => subscription_local_reference child (S d) || members m' end) m =
  existsb (fun kv => subscription_local_reference (snd kv) (S d)) m.
Proof. induction m as [|[k v] m IH]; [done|]. cbn. by rewrite IH. Qed.

Lemma local_reference_items l d :
  (fix items (l : list sbj) : bool :=
     match l with [] => false | child :: l' => subscription_local_reference child (S d) || items l' end) l =
  existsb (fun v => subscription_local_reference v (S d)) l.
Proof. induction l as [|v l IH]; [done|]. cbn. by rewrite IH. Qed.

Lemma existsb_false {A} (f : A -> bool) l x : existsb f l = false -> x ∈ l -> f x = false.
Proof.
  intros E Hx. destruct (f x) eqn:F; [|done]. rewrite <- E. symmetry. apply existsb_exists. exists x. by rewrite <- list_elem_of_In.
Qed.

Lemma local_reference_sound v d k : subscription_local_reference v d = false -> k ∈ forbidden -> ~ mentions k v.
Proof.
  intros R Hk M. revert d R. induction M as [v H|m key v Hm M IH|l v Hl M IH]; intros d R; cbn [subscription_local_reference] in R.
  - destruct v as [| | | | | | |m]; try done. cbn [subscription_local_reference] in R. destruct (32 <? d)%nat; [done|].
    apply orb_false_iff in R as [R _]. pose proof (existsb_false _ _ k R Hk). congruence.
  - destruct (32 <? d)%nat; [done|]. apply orb_false_iff in R as [_ R]. rewrite local_reference_members in R.
    apply (IH (S d)). exact (existsb_false _ _ (key, v) R Hm).
  - destruct (32 <? d)%nat; [done|]. rewrite local_reference_items in R. apply (IH (S d)). exact (existsb_false _ _ v R Hl).
Qed.

(** ** Valid nodes *)

(** A node that may be stored from a subscription. *)
Record subscription_node (n : sb_parsed_node) : Prop := {
  sub_sound : sound_node n;
  sub_text : no_nul (pn_server n) = true /\ no_nul (pn_tag n) = true;
  sub_local k : k ∈ forbidden -> ~ mentions k (pn_protocol_config n);
  sub_socks : pn_node_type n = bs "socks" -> sbj_has (Some (pn_protocol_config n)) "tls" = false }.

Lemma sound_shaped n : sound_node n -> shaped_node n.
Proof. intros [? ? ? ? ?]. by constructor. Qed.

Lemma required_secret t pc : t ∈ known_types -> forallb (has_nonempty_string pc) (required_fields t) = true -> has_required_secret t pc = true.
Proof.
  intros Ht. unfold known_types in Ht. rewrite !elem_of_cons, elem_of_nil in Ht. unfold required_fields, has_required_secret.
  destruct_or! Ht; subst t; try done;
    repeat match goal with |- context [sb_strn_eq ?a ?b] => let r := eval vm_compute in (sb_strn_eq a b) in change (sb_strn_eq a b) with r end;
    cbn [orb forallb]; by rewrite ?andb_true_r.
Qed.

Lemma valid_subscription_node n : shaped_node n -> subscription_node_valid n = true -> subscription_node n.
Proof.
  intros [T S P C] V. unfold subscription_node_valid in V. bool_facts. constructor.
  - constructor; try done. by apply required_secret.
  - done.
  - intros k Hk. by eapply local_reference_sound.
  - intros Et. rewrite Et in *. match goal with H : sb_strn_eq _ _ && _ = false |- _ => by cbn in H end.
Qed.

(** ** Diagnostics *)

(** The diagnostics there are: positions and fixed reasons. *)
Definition diagnostic (s : bytes) : Prop :=
  s = invalid_message \/ exists i : nat, s = json_message i \/ exists b : bool, s = clash_message i b \/ s = line_message i b.

(** An import whose nodes are shaped and whose diagnostics are the fixed ones. *)
Definition import_ok (imp : sb_proxy_import) : Prop := Forall shaped_node (imp_nodes imp) /\ Forall diagnostic (imp_skipped imp).

Lemma push_node_ok imp n : import_ok imp -> shaped_node n -> import_ok (push_node imp n).
Proof. intros [H1 H2] Hn. split; [|done]. apply Forall_app. split; [done|by apply Forall_singleton]. Qed.

Lemma push_skipped_ok imp s : import_ok imp -> diagnostic s -> import_ok (push_skipped imp s).
Proof. intros [H1 H2] Hs. split; [done|]. apply Forall_app. split; [done|by apply Forall_singleton]. Qed.

Lemma diagnostic_clash i b : diagnostic (clash_message i b).
Proof. right. exists i. right. exists b. by left. Qed.
Lemma diagnostic_line i b : diagnostic (line_message i b).
Proof. right. exists i. right. exists b. by right. Qed.
Lemma diagnostic_json i : diagnostic (json_message i).
Proof. right. exists i. by left. Qed.

#[export] Hint Resolve push_node_ok push_skipped_ok diagnostic_clash diagnostic_line diagnostic_json sound_shaped : sb.

(** How many entries were looked at. *)
Definition import_size (imp : sb_proxy_import) : nat := (length (imp_nodes imp) + length (imp_skipped imp))%nat.

Lemma push_node_size imp n : import_size (push_node imp n) = S (import_size imp).
Proof. unfold import_size. cbn. rewrite length_app. cbn. lia. Qed.
Lemma push_skipped_size imp s : import_size (push_skipped imp s) = S (import_size imp).
Proof. unfold import_size. cbn. rewrite length_app. cbn. lia. Qed.

Lemma clash_entries_ok heap proxies items i b out :
  limits_ok b -> import_ok out -> import_ok (clash_entries heap proxies items i true b out) /\
  import_size (clash_entries heap proxies items i true b out) = (length items + import_size out)%nat.
Proof.
  revert i b out. induction items as [|n items IH]; intros i b out Hb Ho; cbn [clash_entries]; [done|].
  pose proof (yaml_to_json_ok heap YAML_CONVERT_DEPTH [proxies] n b Hb) as C.
  destruct (yaml_to_json heap YAML_CONVERT_DEPTH [proxies] n b) as [proxy b']. destruct C as (C1 & C2 & _).
  destruct (if true && unsupported_entry proxy then None else clash_proxy proxy) as [node|] eqn:E.
  - destruct (IH (S i) b' (push_node out node) C1) as [I1 I2].
    + apply push_node_ok; [done|]. apply sound_shaped. destruct (true && _); [done|]. by eapply clash_proxy_sound.
    + split; [done|]. rewrite I2, push_node_size. cbn. lia.
  - destruct (IH (S i) b' (push_skipped out (clash_message i (true && unsupported_entry proxy))) C1) as [I1 I2]; [auto with sb|].
    split; [done|]. rewrite I2, push_skipped_size. cbn. lia.
Qed.

Lemma parse_json_entry entry node sk :
  sbj_wf entry = true -> sb_parse_outbound_config (Some (SBJ_ARRAY [sbj_clone entry])) = Ok (mk_import [node] sk) -> shaped_node node.
Proof.
  intros W E. cbn [sb_parse_outbound_config] in E. apply import_outbounds_shaped in E; [|repeat constructor; by apply wf_clone|constructor].
  by inversion E.
Qed.

Lemma json_entries_ok entries i out :
  Forall (fun v => sbj_wf v = true) entries -> import_ok out -> import_ok (json_entries entries i out) /\
  import_size (json_entries entries i out) =
  (length (filter (fun e => ignored_outbound (sbj_get (Some e) "type") = false) entries) + import_size out)%nat.
Proof.
  intros W. revert i out. induction W as [|e entries We W IH]; intros i out Ho; cbn [json_entries]; [done|]. rewrite filter_cons.
  destruct (ignored_outbound (sbj_get (Some e) "type")); [rewrite decide_False by done; by apply IH|]. rewrite decide_True by done.
  destruct (sb_parse_outbound_config _) as [[[|node [|? ?]] sk]|] eqn:E.
  all: try (destruct (IH (S i) (push_skipped out (json_message i))) as [I1 I2]; [auto with sb|];
            split; [done|]; rewrite I2, push_skipped_size; cbn [length]; lia).
  pose proof (parse_json_entry _ _ _ We E) as [N1 N2 N3 [N4 N5]].
  set (node' := set_config node _). assert (shaped_node node') as Hn.
  { constructor; try done. by apply runnable_defaults_ok. }
  destruct (IH (S i) (push_node out node')) as [I1 I2]; [auto with sb|]. split; [done|]. rewrite I2, push_node_size. cbn [length]. lia.
Qed.

Lemma report_lines_ok EVP lines i out fe :
  import_ok out -> import_ok (fst (report_lines EVP lines i out fe)) /\
  import_size (fst (report_lines EVP lines i out fe)) =
  (length (filter (fun l => ignored_line (sv_trim l) = false) lines) + import_size out)%nat.
Proof.
  revert i out fe. induction lines as [|l lines IH]; intros i out fe Ho; cbn [report_lines]; [done|]. rewrite filter_cons.
  destruct (ignored_line (sv_trim l)); [rewrite decide_False by done; by apply IH|]. rewrite decide_True by done.
  assert (Sk : forall b fe', import_ok (fst (report_lines EVP lines (S i) (push_skipped out (line_message i b)) fe')) /\
    import_size (fst (report_lines EVP lines (S i) (push_skipped out (line_message i b)) fe')) =
    (length (l :: filter (fun l => ignored_line (sv_trim l) = false) lines) + import_size out)%nat).
  { intros b fe'. destruct (IH (S i) (push_skipped out (line_message i b)) fe') as [I1 I2]; [auto with sb|].
    split; [done|]. rewrite I2, push_skipped_size. cbn [length]. lia. }
  destruct (ss_plugin (sv_trim l)); [apply Sk|]. destruct (report_line EVP (sv_trim l)) as [[node|]|e] eqn:R; [|apply Sk..].
  destruct (IH (S i) (push_node out node) fe) as [I1 I2].
  - apply push_node_ok; [done|]. apply sound_shaped. unfold report_line in R.
    destruct (sb_parse_proxy_uri_ex EVP (Some (sv_trim l))) as [[n|]|e] eqn:P; try done.
    + injection R as <-. by eapply parsed_link_sound.
    + apply Ok_inj in R. by eapply basic_uri_sound.
  - split; [done|]. rewrite I2, push_node_size. cbn [length]. lia.
Qed.

(** The entries of a text: outbounds that are not groups or built in, Clash
    proxies, or lines that are not blank or comments. *)
Definition entry_count (yload_first : bytes -> option (list ynode * nat)) (text : bytes) : nat :=
  match json_outbounds text with
  | Some entries => length (filter (fun e => ignored_outbound (sbj_get (Some e) "type") = false) entries)
  | None =>
      match parse_clash_yaml yload_first text true sb_proxy_import_init with
      | Some _ =>
          match yload_first text with
          | Some (heap, root) =>
              match find_proxies heap (y_items (y_at heap root)) with
              | Some p => length (y_items (y_at heap p))
              | None => 0
              end
          | None => 0
          end
      | None => length (filter (fun l => ignored_line (sv_trim l) = false) (pieces text 10))
      end
  end.

Lemma init_ok : import_ok sb_proxy_import_init.
Proof. split; constructor. Qed.

Lemma subscription_entries_ok EVP yload text :
  import_ok (fst (subscription_entries EVP yload text)) /\
  import_size (fst (subscription_entries EVP yload text)) = entry_count yload text.
Proof.
  unfold subscription_entries, entry_count. destruct (json_outbounds text) as [entries|] eqn:J.
  - destruct (json_entries_ok entries 1 sb_proxy_import_init) as [J1 J2].
    + unfold json_outbounds in J. destruct (_ || _); [|done]. destruct (sbj_parse text) as [v|] eqn:P; [|done].
      apply sbj_parse_wf in P as [W _]. destruct v as [| | | | | |l|m]; try done; [injection J as <-; by apply wf_array|].
      destruct (sbj_get (Some (SBJ_OBJECT m)) "outbounds") as [[]|] eqn:G; try done. injection J as <-.
      apply wf_array. exact (wf_get _ _ _ W G).
    + apply init_ok.
    + split; [exact J1|]. etransitivity; [exact J2|]. apply Nat.add_0_r.
  - destruct (parse_clash_yaml yload text true sb_proxy_import_init) as [out|] eqn:Y.
    + unfold parse_clash_yaml in Y. destruct (yload text) as [[heap root]|]; [|done]. cbn [mbind option_bind] in Y.
      destruct (y_kind (y_at heap root)); try done. destruct (find_proxies heap (y_items (y_at heap root))) as [p|]; [|done]. cbn [mbind option_bind] in Y.
      destruct (y_kind (y_at heap p)); try done. destruct (y_items (y_at heap p)) as [|n items]; [done|].
      apply some_inj in Y as <-. cbn [fst].
      destruct (clash_entries_ok heap p (n :: items) 1 (mk_limits YAML_CONVERT_BUDGET YAML_CONVERT_STRING_BUDGET false) sb_proxy_import_init)
        as [C1 C2]; [split; vm_compute; discriminate|apply init_ok|]. split; [exact C1|]. etransitivity; [exact C2|]. apply Nat.add_0_r.
    + destruct (report_lines_ok EVP (pieces text 10) 1 sb_proxy_import_init None init_ok) as [R1 R2]. split; [exact R1|].
      etransitivity; [exact R2|]. apply Nat.add_0_r.
Qed.

Lemma drop_invalid_ok nodes skipped :
  Forall shaped_node nodes -> Forall diagnostic skipped ->
  let imp := drop_invalid nodes skipped in
  Forall subscription_node (imp_nodes imp) /\ Forall diagnostic (imp_skipped imp) /\
  import_size imp = (length nodes + length skipped)%nat /\ imp_nodes imp = filter (fun n => subscription_node_valid n = true) nodes.
Proof.
  intros F. revert skipped. induction F as [|n nodes Hn F IH]; intros skipped Hs; cbn [drop_invalid].
  - cbn. repeat split; (done || constructor).
  - rewrite filter_cons. destruct (subscription_node_valid n) eqn:V; cbv zeta.
    + rewrite decide_True by done. destruct (IH skipped Hs) as (I1 & I2 & I3 & I4). cbn [imp_nodes imp_skipped].
      repeat split; [|done| |by rewrite I4]; [constructor; [by apply valid_subscription_node|done]|].
      unfold import_size in *. cbn [imp_nodes imp_skipped length]. lia.
    + rewrite decide_False by congruence. destruct (IH (skipped ++ [invalid_message])) as (I1 & I2 & I3 & I4).
      { apply Forall_app. split; [done|]. apply Forall_singleton. by left. }
      repeat split; try done. rewrite I3, length_app. cbn [length]. lia.
Qed.

Lemma report_ok EVP yload body :
  let (imp, rc) := sb_parse_subscription_report EVP yload body in
  (Forall subscription_node (imp_nodes imp) /\ Forall diagnostic (imp_skipped imp)) /\
  (rc = Ok tt <-> imp_nodes imp <> []) /\ import_size imp = entry_count yload (subscription_text EVP body).
Proof.
  unfold sb_parse_subscription_report. destruct (subscription_entries_ok EVP yload (subscription_text EVP body)) as [[E1 E2] E3].
  destruct (subscription_entries EVP yload (subscription_text EVP body)) as [imp fe]. cbn [fst] in *.
  destruct (drop_invalid_ok (imp_nodes imp) (imp_skipped imp) E1 E2) as (D1 & D2 & D3 & _).
  split; [done|]. split; [|by rewrite D3].
  destruct (imp_nodes (drop_invalid (imp_nodes imp) (imp_skipped imp))); [|done]. by destruct fe.
Qed.

(** C38: what a subscription can bring in.  Whatever the body, the base64 decoder
    and the YAML loader return, every node of the report has a supported type, a
    nonempty server and a port from 1 to 65535, both texts without NUL, its
    credentials, a well-formed configuration that names no local certificate, key
    or configuration file at any depth, and no TLS on a SOCKS node; the call
    succeeds exactly when there is a node. *)
Theorem subscription_nodes_safe EVP yload body :
  let (imp, rc) := sb_parse_subscription_report EVP yload body in
  Forall subscription_node (imp_nodes imp) /\ (rc = Ok tt <-> imp_nodes imp <> []).
Proof.
  pose proof (report_ok EVP yload body) as R. destruct (sb_parse_subscription_report EVP yload body) as [imp rc].
  destruct R as ((R1 & _) & R2 & _). done.
Qed.

(** Diagnostics leak nothing and nothing is dropped silently.  Each
    diagnostic of a report is one of the fixed reasons with a position, never a
    part of the input, and each entry of the subscription is either a node of the
    report or has its diagnostic. *)
Theorem subscription_diagnostics EVP yload body :
  let (imp, rc) := sb_parse_subscription_report EVP yload body in
  Forall diagnostic (imp_skipped imp) /\
  (length (imp_nodes imp) + length (imp_skipped imp))%nat = entry_count yload (subscription_text EVP body).
Proof.
  pose proof (report_ok EVP yload body) as R. destruct (sb_parse_subscription_report EVP yload body) as [imp rc].
  destruct R as ((_ & R1) & _ & R2). done.
Qed.

Lemma body_lines_sound EVP lines out l :
  Forall sound_node out -> body_lines EVP lines out = Ok l -> Forall sound_node l.
Proof.
  revert out. induction lines as [|p lines IH]; intros out Ho; cbn [body_lines]; [by intros <-%Ok_inj|].
  destruct (ignored_line (sv_trim p)); [by apply IH|]. intros E. apply bind_Ok in E as (r & R & E). eapply IH; [|exact E].
  destruct r; [|done]. apply Forall_app. split; [done|]. apply Forall_singleton. by eapply parsed_link_sound.
Qed.

Lemma clash_entries_sound heap proxies items i b out :
  limits_ok b -> Forall sound_node (imp_nodes out) -> Forall sound_node (imp_nodes (clash_entries heap proxies items i false b out)).
Proof.
  revert i b out. induction items as [|n items IH]; intros i b out Hb Ho; cbn [clash_entries]; [done|].
  pose proof (yaml_to_json_ok heap YAML_CONVERT_DEPTH [proxies] n b Hb) as C.
  destruct (yaml_to_json heap YAML_CONVERT_DEPTH [proxies] n b) as [proxy b']. destruct C as (C1 & C2 & _). cbn [andb].
  destruct (clash_proxy proxy) as [node|] eqn:E; apply IH; try done.
  apply Forall_app. split; [done|]. apply Forall_singleton. by eapply clash_proxy_sound.
Qed.

(** Every node parsed from a link, from a Clash entry or from a subscription
    body has a supported type, a nonempty server, a port from 1 to 65535, the
    credentials its type requires and a well-formed configuration object; this
    whatever the decoder and the YAML loader return. *)
Theorem parsed_nodes_sound EVP yload :
  (forall uri n, sb_parse_proxy_uri_ex EVP uri = Ok (Some n) -> sound_node n) /\
  (forall uri n, sb_parse_proxy_uri EVP uri = Some n -> sound_node n) /\
  (forall body l, sb_parse_subscription_body_ex EVP yload body = Ok l -> Forall sound_node l).
Proof.
  split; [apply parsed_link_sound|]. split.
  - intros uri n. unfold sb_parse_proxy_uri. destruct (sb_parse_proxy_uri_ex EVP (cstr <$> uri)) as [r|] eqn:E; [|done].
    intros ->. by eapply parsed_link_sound.
  - intros body l. unfold sb_parse_subscription_body_ex. set (text := if likely_base64 _ then _ else _). clearbody text.
    destruct (parse_clash_yaml yload text false sb_proxy_import_init) as [out|] eqn:Y; [|apply body_lines_sound; constructor].
    intros <-%Ok_inj. unfold parse_clash_yaml in Y. destruct (yload text) as [[heap root]|]; [|done]. cbn [mbind option_bind] in Y.
    destruct (y_kind (y_at heap root)); try done. destruct (find_proxies heap _) as [p|]; [|done]. cbn [mbind option_bind] in Y.
    destruct (y_kind (y_at heap p)); try done. destruct (y_items (y_at heap p)) as [|n items]; [done|]. apply some_inj in Y as <-.
    apply clash_entries_sound; [split; vm_compute; discriminate|constructor].
Qed.
