(* ===== verification/DateTime.v ===== *)
(** * Dates ([c/src/util.c], time section)

    Formatting and parsing of UTC dates, with the parts of [sscanf], [gmtime_r]
    and [timegm] they use: a conversion of at most [n] characters skips white
    space, takes a sign and digits; the calendar is the proleptic Gregorian one. *)

From S2P Require Import Prelude Util JsonText JsonSafe JsonRound.

(** ** Calendar *)

(** Days from 1970-01-01 to a date; the day of the month may be out of range. *)
Definition days_from_civil (y m d : Z) : Z :=
  let y := if m <=? 2 then y - 1 else y in
  let era := y / 400 in
  let yoe := y - era * 400 in
  let doy := (153 * (m + (if 2 <? m then -3 else 9)) + 2) / 5 + d - 1 in
  let doe := yoe * 365 + yoe / 4 - yoe / 100 + doy in
  era * 146097 + doe - 719468.

(** Year, month and day of a day number. *)
Definition civil_of_doe (doe : Z) : Z * Z * Z :=
  let yoe := (doe - doe / 1460 + doe / 36524 - doe / 146096) / 365 in
  let doy := doe - (365 * yoe + yoe / 4 - yoe / 100) in
  let mp := (5 * doy + 2) / 153 in
  let d := doy - (153 * mp + 2) / 5 + 1 in
  let m := if mp <? 10 then mp + 3 else mp - 9 in
  ((if m <=? 2 then yoe + 1 else yoe), m, d).

Definition civil_from_days (days : Z) : Z * Z * Z :=
  let z := days + 719468 in
  let era := z / 146097 in
  let '(y, m, d) := civil_of_doe (z - era * 146097) in (y + era * 400, m, d).

(** [timegm], linear in the day and the time of day. *)
Definition timegm (y m d h mi s : Z) : Z := ((days_from_civil y m d * 24 + h) * 60 + mi) * 60 + s.

(** ** Formatting *)

Definition two (z : Z) : bytes := [chr (48 + z / 10); chr (48 + z mod 10)].

(** [gmtime_r] and [strftime] with [sep] between date and time and [tail] after. *)
Definition fmt_utc (t : Z) (sep tail : bytes) : bytes :=
  let '(y, m, d) := civil_from_days (t / 86400) in
  let r := t mod 86400 in
  fmt_int y ++ bs "-" ++ two m ++ bs "-" ++ two d ++ sep ++
  two (r / 3600) ++ bs ":" ++ two (r / 60 mod 60) ++ bs ":" ++ two (r mod 60) ++ tail.

Definition sb_sqlite_datetime (t : Z) : bytes := fmt_utc t (bs " ") [].
Definition sb_rfc3339 (t : Z) : bytes := fmt_utc t (bs "T") (bs "Z").

(** ** Parsing *)

(** [%<width>d]: the number and the rest. *)
Definition scan_number (width : nat) (s : bytes) : option (Z * bytes) :=
  let s := drop_spaces s in
  let '(neg, width, s) := match s with
                          | c :: s' => if code c =? 45 then (true, (width - 1)%nat, s')
                                       else if code c =? 43 then (false, (width - 1)%nat, s') else (false, width, s)
                          | [] => (false, width, s)
                          end in
  match take width (span_digits s) with
  | [] => None
  | ds => Some (if neg : bool then - dec_value ds else dec_value ds, drop (length ds) s)
  end.

(** A literal character of the format. *)
Definition scan_char (c : Z) (s : bytes) : option bytes :=
  match s with x :: s' => if code x =? c then Some s' else None | [] => None end.

Definition scan3 (w : nat) (sep : Z) (s : bytes) : option (Z * Z * Z * bytes) :=
  '(a, s) ← scan_number w s; s ← scan_char sep s;
  '(b, s) ← scan_number 2 s; s ← scan_char sep s;
  '(c, s) ← scan_number 2 s; Some (a, b, c, s).

Definition head_is (s : bytes) (c : Z) : bool := match s with x :: _ => code x =? c | [] => false end.

(** The fraction of a second is skipped. *)
Definition skip_fraction (p : bytes) : bytes :=
  if head_is p 46 then drop (length (span_digits (drop 1 p))) (drop 1 p) else p.

Definition parse_time (p : bytes) : option (Z * Z * Z * bytes) :=
  if head_is p 84 || head_is p 32 then
    '(h, m, s, p) ← scan3 2 58 (drop 1 p); Some (h, m, s, skip_fraction p)
  else Some (0, 0, 0, p).

(** The offset in seconds and what is left; nothing is left after an offset. *)
Definition parse_offset (p : bytes) : option (Z * bytes) :=
  if head_is p 90 || head_is p 122 then Some (0, drop 1 p)
  else if head_is p 43 || head_is p 45 then
    '(oh, rest) ← scan_number 2 (drop 1 p);
    let om := match scan_char 58 rest with
              | Some rest => match scan_number 2 rest with Some (om, _) => om | None => 0 end
              | None => 0
              end in
    Some ((if head_is p 45 then -1 else 1) * (oh * 3600 + om * 60), [])
  else Some (0, p).

Definition sb_parse_datetime (text : option bytes) : option Z :=
  text ← text;
  '(Y, M, D, p) ← scan3 4 45 (cstr text);
  '(h, m, s, p) ← parse_time p;
  '(offset, p) ← parse_offset p;
  match p with
  | [] =>
      if (M <? 1) || (12 <? M) || (D <? 1) || (31 <? D) || (23 <? h) || (59 <? m) || (60 <? s) then None
      else Some (timegm Y M D h m s - offset)
  | _ => None
  end.

(** * Theorems *)

(** ** The calendar *)

(** Days before year [y] of the 400-year cycle that starts in March. *)
Definition year_start (y : Z) : Z := 365 * y + y / 4 - y / 100 + y / 400.

Lemma find_year (n : nat) doe :
  0 <= doe < year_start (Z.of_nat n) -> exists y, 0 <= y < Z.of_nat n /\ year_start y <= doe < year_start (y + 1).
Proof.
  induction n as [|n IH]; intros H; [change (year_start (Z.of_nat 0)) with 0 in H; lia|]. destruct (decide (doe < year_start (Z.of_nat n))) as [L|L].
  - destruct (IH ltac:(lia)) as (y & Hy & Hd). exists y. split; [lia|done].
  - exists (Z.of_nat n). replace (Z.of_nat n + 1) with (Z.of_nat (S n)) by lia. lia.
Qed.

(** The estimate of the year, and that it is right on the first and last day of
    each of the 400 years. *)
Definition year_of (doe : Z) : Z := (doe - doe / 1460 + doe / 36524 - doe / 146096) / 365.

Lemma year_of_mono a b : 0 <= a <= b -> year_of a <= year_of b.
Proof.
  intros H. unfold year_of. apply Z.div_le_mono; [lia|].
  assert (E : forall z, z / 146096 = z / 36524 / 4) by (intros z; by rewrite Z.div_div by lia). rewrite !E.
  assert (a / 36524 <= b / 36524) by (apply Z.div_le_mono; lia). lia_dm.
Qed.

Lemma year_of_edges y : 0 <= y < 400 -> year_of (year_start y) = y /\ year_of (year_start (y + 1) - 1) = y.
Proof.
  intros Hy. assert (C : forallb (fun n => let y := Z.of_nat n in
    (year_of (year_start y) =? y) && (year_of (year_start (y + 1) - 1) =? y)) (seq 0 400) = true) by by vm_compute.
  rewrite forallb_forall in C. specialize (C (Z.to_nat y) ltac:(apply in_seq; lia)). rewrite Z2Nat.id in C by lia.
  cbv zeta in C. bool_facts. done.
Qed.

Lemma year_of_spec doe : 0 <= doe < 146097 ->
  0 <= year_of doe < 400 /\ year_start (year_of doe) <= doe <= year_start (year_of doe) + 365.
Proof.
  intros H. change 146097 with (year_start (Z.of_nat 400)) in H. destruct (find_year 400 doe H) as (y & Hy & Hd). destruct (year_of_edges y Hy) as [E1 E2].
  assert (0 <= year_start y) by (unfold year_start; lia_dm).
  assert (year_of doe = y) as ->.
  { pose proof (year_of_mono (year_start y) doe). pose proof (year_of_mono doe (year_start (y + 1) - 1)). lia. }
  split; [done|]. assert (year_start (y + 1) <= year_start y + 366) by (unfold year_start; lia_dm). lia.
Qed.

(** The 400-year cycle. *)
Lemma civil_cycle doe y m d :
  0 <= doe < 146097 -> civil_of_doe doe = (y, m, d) ->
  days_from_civil y m d = doe - 719468 /\ 1 <= m <= 12 /\ 1 <= d <= 31.
Proof.
  intros Hdoe. destruct (year_of_spec doe Hdoe) as [Y1 Y2]. unfold civil_of_doe. fold (year_of doe).
  set (yoe := year_of doe) in *. set (doy := doe - (365 * yoe + yoe / 4 - yoe / 100)).
  assert (Hdoy : 0 <= doy <= 365) by (subst doy; unfold year_start in Y2; rewrite (Z.div_small yoe 400) in Y2; lia).
  set (mp := (5 * doy + 2) / 153). assert (Hmp : 0 <= mp <= 11) by (subst mp; lia_dm).
  intros [= <- <- <-].
  assert (Hd : 1 <= doy - (153 * mp + 2) / 5 + 1 <= 31) by (subst mp; clear -Hdoy; lia_dm).
  destruct (mp <? 10) eqn:B; bool_facts.
  - rewrite (leb_false (mp + 3) 2) by lia. split; [|lia]. unfold days_from_civil. rewrite (leb_false (mp + 3) 2), (ltb_true 2) by lia.
    rewrite (Z.div_small yoe 400) by lia. replace (yoe - 0 * 400) with yoe by lia. replace (mp + 3 + -3) with mp by lia. subst doy. lia.
  - rewrite (leb_true (mp - 9) 2) by lia. split; [|lia]. unfold days_from_civil. rewrite (leb_true (mp - 9) 2), (ltb_false 2) by lia.
    replace (yoe + 1 - 1) with yoe by lia. rewrite (Z.div_small yoe 400) by lia. replace (yoe - 0 * 400) with yoe by lia. replace (mp - 9 + 9) with mp by lia. subst doy. lia.
Qed.

Lemma days_from_civil_era y m d k : days_from_civil (y + k * 400) m d = days_from_civil y m d + k * 146097.
Proof.
  unfold days_from_civil. assert (E : forall z, (z + k * 400) / 400 = z / 400 + k) by (intros; by rewrite Z.div_add).
  destruct (m <=? 2).
  - replace (y + k * 400 - 1) with (y - 1 + k * 400) by lia. rewrite E.
    replace (y - 1 + k * 400 - ((y - 1) / 400 + k) * 400) with (y - 1 - (y - 1) / 400 * 400) by lia. lia.
  - rewrite E. replace (y + k * 400 - (y / 400 + k) * 400) with (y - y / 400 * 400) by lia. lia.
Qed.

Lemma civil_roundtrip days y m d :
  civil_from_days days = (y, m, d) -> days_from_civil y m d = days /\ 1 <= m <= 12 /\ 1 <= d <= 31.
Proof.
  unfold civil_from_days. set (z := days + 719468). assert (Hz : 0 <= z - z / 146097 * 146097 < 146097) by lia_dm.
  destruct (civil_of_doe _) as [[y0 m0] d0] eqn:E. apply civil_cycle in E as (E & Hm & Hd); [|done].
  intros [= <- <- <-]. rewrite days_from_civil_era. subst z. lia.
Qed.

(** ** Scanning numerals *)

Lemma span_digits_app ds s : digits ds -> (forall c, s <> [] -> head s = Some c -> isdigit c = false) -> span_digits (ds ++ s) = ds.
Proof.
  intros D Hs. induction D as [|c ds Dc D IH]; cbn [app].
  - destruct s as [|c s]; [done|]. cbn. by rewrite (Hs c).
  - cbn [span_digits]. by rewrite Dc, IH.
Qed.

(** A numeral of at most [w] digits, before something that is not a digit. *)
Lemma scan_number_digits w ds s :
  digits ds -> ds <> [] -> (length ds <= w)%nat -> (forall c, s <> [] -> head s = Some c -> isdigit c = false) ->
  scan_number w (ds ++ s) = Some (dec_value ds, s).
Proof.
  intros D Hn Hw Hs. unfold scan_number. destruct ds as [|c ds]; [done|]. set (l := c :: ds) in *.
  assert (Dc : isdigit c = true) by by inversion D. unfold isdigit, in_range in Dc. bool_facts.
  assert (Sp : drop_spaces (l ++ s) = l ++ s).
  { cbn. unfold isspace, in_range. rewrite eqb_false by lia. cbn [orb]. rewrite (leb_false (code c) 13) by lia. by rewrite andb_false_r. }
  rewrite Sp. change (l ++ s) with (c :: (ds ++ s)) at 1. cbv iota. rewrite !eqb_false by lia.
  rewrite span_digits_app by done. rewrite take_ge by done. subst l. cbv iota beta. by rewrite drop_app_length.
Qed.

Lemma two_digits z : 0 <= z <= 99 -> digits (two z) /\ dec_value (two z) = z.
Proof.
  intros Hz. assert (H : 0 <= z / 10 <= 9 /\ 0 <= z mod 10 <= 9) by lia_dm. unfold two. split.
  - repeat constructor; unfold isdigit, in_range; rewrite code_chr by lia; by rewrite !leb_true by lia.
  - unfold dec_value. cbn. rewrite !code_chr by lia. lia_dm.
Qed.

Lemma scan_two w z s : (2 <= w)%nat -> 0 <= z <= 99 -> (forall c, s <> [] -> head s = Some c -> isdigit c = false) ->
  scan_number w (two z ++ s) = Some (z, s).
Proof.
  intros Hw Hz Hs. destruct (two_digits z Hz) as [D V]. rewrite scan_number_digits by done. by rewrite V.
Qed.

Lemma not_digit c s x : s = chr c :: x -> 0 <= c < 256 -> ~ (48 <= c <= 57) -> forall d, s <> [] -> head s = Some d -> isdigit d = false.
Proof.
  intros -> Hc Hd d _ [= <-]. unfold isdigit, in_range. rewrite code_chr by done.
  destruct (48 <=? c) eqn:B1, (c <=? 57) eqn:B2; bool_facts; (done || lia).
Qed.

Lemma scan3_two w sep (a : bytes) z b c s :
  0 <= sep < 256 -> ~ (48 <= sep <= 57) -> digits a -> a <> [] -> (length a <= w)%nat -> dec_value a = z -> 0 <= b <= 99 -> 0 <= c <= 99 ->
  (forall d, s <> [] -> head s = Some d -> isdigit d = false) ->
  scan3 w sep (a ++ [chr sep] ++ two b ++ [chr sep] ++ two c ++ s) = Some (z, b, c, s).
Proof.
  intros Hs Hd Da Na La Va Hb Hc Hn. unfold scan3. cbn [app].
  rewrite scan_number_digits; [|done..|by eapply not_digit]. cbn [mbind option_bind]. cbn [scan_char]. rewrite code_chr, Z.eqb_refl by done.
  cbn [mbind option_bind]. rewrite scan_two; [|lia|done|by eapply not_digit]. cbn [mbind option_bind scan_char].
  rewrite code_chr, Z.eqb_refl by done. cbn [mbind option_bind]. rewrite scan_two by (lia || done). cbn. by rewrite Va.
Qed.

(** ** Years of four digits *)

Lemma fmt_int_year y : 1000 <= y <= 9999 -> digits (fmt_int y) /\ dec_value (fmt_int y) = y /\ length (fmt_int y) = 4%nat.
Proof.
  intros Hy. unfold fmt_int. rewrite ltb_false by lia. destruct (fmt_uint_numeral y ltac:(lia)) as [D V _].
  split; [done|]. split; [done|]. unfold fmt_uint. assert (9 <= Z.log2 y) by (apply Z.log2_le_pow2; lia).
  destruct (Z.to_nat (Z.log2 y)) as [|[|[|f]]] eqn:E; [lia..|]. cbn [dec_from].
  rewrite (eqb_false (y / 10) 0), (eqb_false (y / 10 / 10) 0), (eqb_false (y / 10 / 10 / 10) 0) by lia_dm.
  by rewrite (eqb_true (y / 10 / 10 / 10 / 10) 0) by lia_dm.
Qed.

Lemma days_from_civil_linear y m d :
  let y' := if m <=? 2 then y - 1 else y in
  days_from_civil y m d =
  365 * y' + y' / 4 - y' / 100 + y' / 400 + ((153 * (m + (if 2 <? m then -3 else 9)) + 2) / 5 + d - 1) - 719468.
Proof.
  intros y'. unfold days_from_civil. fold y'. generalize ((153 * (m + (if 2 <? m then -3 else 9)) + 2) / 5 + d - 1). intros doy.
  generalize y'. clear. intros y. lia_dm.
Qed.

Lemma year_range y m d :
  1 <= m <= 12 -> 1 <= d <= 31 -> -354285 <= days_from_civil y m d <= 2932896 -> 1000 <= y <= 9999.
Proof.
  intros Hm Hd. rewrite days_from_civil_linear. destruct (m <=? 2) eqn:B; bool_facts.
  - rewrite (ltb_false 2) by lia. intros H. assert (306 <= (153 * (m + 9) + 2) / 5 <= 337) by lia_dm. split; lia_dm.
  - rewrite (ltb_true 2) by lia. intros H. assert (0 <= (153 * (m + -3) + 2) / 5 <= 275) by lia_dm. split; lia_dm.
Qed.

(** ** Round trip *)

Definition four_digit_years (t : Z) : Prop := -30610224000 <= t <= 253402300799.

Lemma decimal_no_nul ds : digits ds -> no_nul ds = true.
Proof.
  intros D. apply forallb_forall. intros c Hc%list_elem_of_In. unfold digits in D. rewrite Forall_forall in D. specialize (D c Hc).
  unfold isdigit, in_range in D. bool_facts. apply negb_true_iff, eqb_false. lia.
Qed.

(** The text of an instant, scanned: date, time, and what follows the time. *)
Lemma parse_fmt_utc t sep tail off :
  four_digit_years t -> sep = bs "T" \/ sep = bs " " -> no_nul tail = true ->
  (forall c, tail <> [] -> head tail = Some c -> isdigit c = false) -> head_is tail 46 = false ->
  parse_offset tail = Some (off, []) ->
  sb_parse_datetime (Some (fmt_utc t sep tail)) = Some (t - off).
Proof.
  intros Ht Hsep Htail Hd Hdot Hoff. unfold fmt_utc. destruct (civil_from_days (t / 86400)) as [[y m] d] eqn:C.
  apply civil_roundtrip in C as (C & Hm & Hday). unfold four_digit_years in Ht.
  assert (Hy : 1000 <= y <= 9999) by (apply (year_range y m d); [done..|rewrite C; lia_dm]).
  destruct (fmt_int_year y Hy) as (Dy & Vy & Ly). set (r := t mod 86400). assert (Hr : 0 <= r < 86400) by (subst r; lia_dm).
  assert (H1 : 0 <= r / 3600 <= 23) by lia_dm. assert (H2 : 0 <= r / 60 mod 60 <= 59) by lia_dm. assert (H3 : 0 <= r mod 60 <= 59) by lia_dm.
  destruct (two_digits m ltac:(lia)) as [Dm _], (two_digits d ltac:(lia)) as [Dd _], (two_digits (r / 3600) ltac:(lia)) as [Dh _],
    (two_digits (r / 60 mod 60) ltac:(lia)) as [Dmi _], (two_digits (r mod 60) ltac:(lia)) as [Ds _].
  unfold sb_parse_datetime. cbn [mbind option_bind]. rewrite cstr_no_nul.
  2: { rewrite !no_nul_app, (decimal_no_nul _ Dy), (decimal_no_nul _ Dm), (decimal_no_nul _ Dd), (decimal_no_nul _ Dh), (decimal_no_nul _ Dmi),
         (decimal_no_nul _ Ds), Htail. by destruct Hsep as [-> | ->]. }
  set (clock := two (r / 3600) ++ bs ":" ++ two (r / 60 mod 60) ++ bs ":" ++ two (r mod 60) ++ tail).
  change (bs "-") with [chr 45].
  rewrite (scan3_two 4 45 (fmt_int y) y m d) by (done || lia || (by intros E; rewrite E in Ly) || (destruct Hsep as [-> | ->]; intros c _ [= <-]; done)).
  cbn [mbind option_bind]. unfold parse_time.
  assert (E : sep ++ clock = chr 84 :: clock \/ sep ++ clock = chr 32 :: clock) by (destruct Hsep as [-> | ->]; auto).
  assert (head_is (sep ++ clock) 84 || head_is (sep ++ clock) 32 = true /\ drop 1 (sep ++ clock) = clock) as [-> ->] by (by destruct E as [-> | ->]).
  subst clock. change (bs ":") with [chr 58].
  destruct (two_digits (r / 3600) ltac:(lia)) as [_ Vh].
  rewrite (scan3_two 2 58 (two (r / 3600)) (r / 3600) (r / 60 mod 60) (r mod 60)) by (done || lia).
  cbn [mbind option_bind]. unfold skip_fraction. rewrite Hdot, Hoff. cbn [mbind option_bind].
  rewrite !(ltb_false m 1), (ltb_false 12 m), (ltb_false d 1), (ltb_false 31 d), (ltb_false 23), (ltb_false 59), (ltb_false 60) by lia.
  cbn [orb]. f_equal. unfold timegm. rewrite C. subst r. lia_dm.
Qed.

(** Instants round-trip through both text formats.  For every instant of the
    years 1000 to 9999, parsing the SQLite form or the RFC 3339 form written for it
    gives it back, and an RFC 3339 text with a numeric offset denotes the local time
    less the offset. *)
Theorem datetime_roundtrip t :
  four_digit_years t ->
  sb_parse_datetime (Some (sb_sqlite_datetime t)) = Some t /\
  sb_parse_datetime (Some (sb_rfc3339 t)) = Some t /\
  forall h m, 0 <= h <= 99 -> 0 <= m <= 99 ->
    sb_parse_datetime (Some (fmt_utc t (bs "T") (bs "+" ++ two h ++ bs ":" ++ two m))) = Some (t - (h * 3600 + m * 60)) /\
    sb_parse_datetime (Some (fmt_utc t (bs "T") (bs "-" ++ two h ++ bs ":" ++ two m))) = Some (t + (h * 3600 + m * 60)).
Proof.
  intros Ht. split; [|split].
  - unfold sb_sqlite_datetime. rewrite (parse_fmt_utc t _ _ 0); auto; [f_equal; lia|done].
  - unfold sb_rfc3339. rewrite (parse_fmt_utc t _ _ 0); auto; [f_equal; lia|]. by intros c _ [= <-].
  - intros h m Hh Hm. destruct (two_digits h ltac:(lia)) as [Dh _], (two_digits m ltac:(lia)) as [Dm _].
    assert (Nz : forall c, no_nul [c] = true -> no_nul ([c] ++ two h ++ bs ":" ++ two m) = true).
    { intros c Hc. by rewrite !no_nul_app, Hc, (decimal_no_nul _ Dh), (decimal_no_nul _ Dm). }
    assert (Sc : forall c, scan_number 2 (drop 1 ([c] ++ two h ++ bs ":" ++ two m)) = Some (h, bs ":" ++ two m)).
    { intros c. change (drop 1 ([c] ++ ?x)) with x. apply scan_two; [lia|done|]. by intros d _ [= <-]. }
    assert (Sm : scan_number 2 (two m) = Some (m, [])).
    { rewrite <- (app_nil_r (two m)). apply scan_two; [lia|done|done]. }
    change (bs "+") with [chr 43]. change (bs "-") with [chr 45]. split.
    + rewrite (parse_fmt_utc t _ _ (h * 3600 + m * 60) Ht (or_introl eq_refl) (Nz (chr 43) eq_refl)); [done|by intros c _ [= <-]|done|].
      unfold parse_offset. change (head_is ([chr 43] ++ ?x) ?k) with (43 =? k). cbn [orb]. rewrite Sc. cbn [mbind option_bind].
      change (scan_char 58 (bs ":" ++ two m)) with (Some (two m)). cbv iota. rewrite Sm. do 2 f_equal. change (43 =? 45) with false. cbv iota. lia.
    + rewrite (parse_fmt_utc t _ _ (- (h * 3600 + m * 60)) Ht (or_introl eq_refl) (Nz (chr 45) eq_refl)); [f_equal; lia|by intros c _ [= <-]|done|].
      unfold parse_offset. change (head_is ([chr 45] ++ ?x) ?k) with (45 =? k). cbn [orb]. rewrite Sc. cbn [mbind option_bind].
      change (scan_char 58 (bs ":" ++ two m)) with (Some (two m)). cbv iota. rewrite Sm. do 2 f_equal.
Qed.

Lemma datetime_roundtrip_witness :
  sb_rfc3339 1767323045 = bs "2026-01-02T03:04:05Z" /\ sb_parse_datetime (Some (bs "2026-01-02T03:04:05Z")) = Some 1767323045.
Proof.
  assert (E : sb_rfc3339 1767323045 = bs "2026-01-02T03:04:05Z") by by vm_compute. split; [exact E|]. rewrite <- E.
  refine (proj1 (proj2 (datetime_roundtrip 1767323045 _))). unfold four_digit_years. lia.
Defined.

(** The parser takes texts outside its documented forms: signed fields, which
    pass the upper-bound checks and move the instant back, and anything after the
    hours of an offset. *)
Theorem datetime_accepts_junk :
  sb_parse_datetime (Some (bs "2026-01-02 -3:-4:-5")) = Some (1767323045 - 2 * (3 * 3600 + 4 * 60 + 5)) /\
  sb_parse_datetime (Some (bs "2026-01-02T03:04:05+00 and more")) = Some 1767323045.
Proof. by vm_compute. Qed.
