(* ===== verification/Sqlite.v ===== *)
(** * Statements and transactions ([c/src/sqlite_internal.h])

    Programs that run SQL on one connection, under the database lock.  The state
    has the tables, which a rollback restores, the process memory, which it does
    not, and a counter that numbers the answers taken from outside (statement
    faults, clock readings, random bytes).  Any statement may fail: [fault n] is
    the message of the failure of the [n]-th answer, if it fails.  What a
    statement does to the tables is a function given by its caller.

    Theorems are stated with [wp], the weakest precondition of a program for a
    postcondition on normal ends and one on failures. *)

From S2P Require Import Prelude Util Json.

Record conn (T P : Type) := mk_conn { db : T; mem : P; asked : nat }.
Arguments mk_conn {T P} db mem asked.
Arguments db {T P} c.
Arguments mem {T P} c.
Arguments asked {T P} c.

Definition sql (T P A : Type) : Type := conn T P -> result A * conn T P.

#[export] Instance sql_ret {T P} : MRet (sql T P) := fun A a s => (Ok a, s).
#[export] Instance sql_bind {T P} : MBind (sql T P) :=
  fun A B f m s => match m s with (Ok a, s') => f a s' | (Err e, s') => (Err e, s') end.

(** A computation that does not use the connection. *)
Definition pure {T P A} (r : result A) : sql T P A := fun s => (r, s).

(** An answer from outside. *)
Definition ask {T P A} (answer : nat -> A) : sql T P A :=
  fun s => (Ok (answer (asked s)), mk_conn (db s) (mem s) (S (asked s))).

(** A call that works on the process memory and takes one answer. *)
Definition on_memory {T P A} (f : P -> nat -> A * P) : sql T P A :=
  fun s => let (a, p) := f (mem s) (asked s) in (Ok a, mk_conn (db s) p (S (asked s))).

(** A call whose failure the caller handles: what it changed stays. *)
Definition attempt {T P A} (m : sql T P A) : sql T P (result A) := fun s => let (r, s') := m s in (Ok r, s').

Section Statements.
Context {T P : Type} (fault : nat -> option bytes).

(** [sbq_fail]: every failure of SQLite has this code. *)
Definition sbq_fail {A} (message : bytes) : result A := sb_fail SB_ERR_GENERIC message.

(** [sbq_prepare] and the steps of a statement; [Err] of [f] is a constraint
    failure. *)
Definition stmt {A} (f : T -> result (A * T)) : sql T P A := fun s =>
  let s' t := mk_conn t (mem s) (S (asked s)) in
  match fault (asked s) with
  | Some message => (sbq_fail message, s' (db s))
  | None => match f (db s) with Ok (a, t) => (Ok a, s' t) | Err e => (Err e, s' (db s)) end
  end.

Definition query {A} (f : T -> A) : sql T P A := stmt (fun t => Ok (f t, t)).

(** [BEGIN], [COMMIT]: statements that may fail. *)
Definition control : sql T P unit := stmt (fun t => Ok (tt, t)).

(** The loop over the rows of a query: a step before each row and one that finds
    the end. *)
Fixpoint for_rows {R B} (rows : list R) (body : R -> B -> sql T P B) (acc : B) : sql T P B :=
  match rows with
  | [] => _ ← control; mret acc
  | r :: rows' => _ ← control; acc ← body r acc; for_rows rows' body acc
  end.

(** [BEGIN] to [COMMIT], with the [ROLLBACK] of every failure in between. *)
Definition transaction {A} (body : sql T P A) : sql T P A := fun s =>
  match control s with
  | (Err e, s') => (Err e, s')
  | (Ok _, s1) =>
      match (a ← body; _ ← control; mret a) s1 with
      | (Ok a, s2) => (Ok a, s2)
      | (Err e, s2) => (Err e, mk_conn (db s) (mem s2) (asked s2))
      end
  end.

(** The same where a refusal of the body, [Ok (Err e)], is committed like a
    success: what it changed stays, unless [COMMIT] fails. *)
Definition transaction_try {A} (body : sql T P (result A)) : sql T P A := fun s =>
  match control s with
  | (Err e, s') => (Err e, s')
  | (Ok _, s1) =>
      match body s1 with
      | (Err e, s2) => (Err e, mk_conn (db s) (mem s2) (asked s2))
      | (Ok r, s2) =>
          match control s2 with
          | (Ok _, s3) => (r, s3)
          | (Err e, s3) => (match r with Ok _ => Err e | Err e0 => Err e0 end, mk_conn (db s) (mem s3) (asked s3))
          end
      end
  end.
End Statements.

(** ** What statements do to rows *)

Fixpoint order_insert {R} (le : R -> R -> bool) (r : R) (l : list R) : list R :=
  match l with
  | [] => [r]
  | x :: l' => if le r x then r :: l else x :: order_insert le r l'
  end.

(** [ORDER BY]. *)
Definition order_by {R} (le : R -> R -> bool) (l : list R) : list R := foldr (order_insert le) [] l.

Definition text_le (a b : bytes) : bool := match key_compare a b with Gt => false | _ => true end.
(** [ORDER BY time, text]. *)
Definition time_text_le (a b : Z * bytes) : bool :=
  (fst a <? fst b) || ((fst a =? fst b) && text_le (snd a) (snd b)).

Fixpoint zsum {R} (f : R -> Z) (l : list R) : Z := match l with [] => 0 | r :: l' => f r + zsum f l' end.

(** [COALESCE(SUM(...), 0)]: an integer overflow is an error of the statement. *)
Definition sql_sum {R} (f : R -> Z) (l : list R) : result Z :=
  if zsum f l <=? INT64_MAX then Ok (zsum f l) else sbq_fail (bs "integer overflow").

(** [UPDATE ... WHERE]: the rows, and how many matched ([sqlite3_changes]). *)
Definition sql_update {R} (matches : R -> bool) (change : R -> R) (l : list R) : list R * nat :=
  (map (fun r => if matches r then change r else r) l, length (List.filter matches l)).

(** [INSERT ... ON CONFLICT(key) DO UPDATE]. *)
Definition sql_upsert {R} (matches : R -> bool) (change : R -> R) (fresh : R) (l : list R) : list R :=
  if existsb matches l then map (fun r => if matches r then change r else r) l else l ++ [fresh].

(** [INSERT] under a UNIQUE constraint. *)
Definition sql_insert {R} (conflicts : R -> bool) (fresh : R) (l : list R) : result (list R) :=
  if existsb conflicts l then sbq_fail (bs "UNIQUE constraint failed") else Ok (l ++ [fresh]).

(** * Theorems *)

Section Logic.
Context {T P : Type}.

Definition wp {A} (m : sql T P A) (Q : A -> conn T P -> Prop) (E : sb_err -> conn T P -> Prop)
    (s : conn T P) : Prop :=
  match m s with (Ok a, s') => Q a s' | (Err e, s') => E e s' end.

Lemma wp_ret {A} (a : A) Q E s : Q a s -> wp (mret a) Q E s.
Proof. done. Qed.

Lemma wp_pure {A} (r : result A) (Q : A -> conn T P -> Prop) (E : sb_err -> conn T P -> Prop) s :
  match r with Ok a => Q a s | Err e => E e s end -> wp (pure r) Q E s.
Proof. by destruct r. Qed.

Lemma wp_bind {A B} (m : sql T P A) (f : A -> sql T P B) Q E s :
  wp m (fun a => wp (f a) Q E) E s -> wp (m ≫= f) Q E s.
Proof. unfold wp, mbind, sql_bind. by destruct (m s) as [[a|e] s']. Qed.

Lemma wp_mono {A} (m : sql T P A) (Q Q' : A -> conn T P -> Prop) (E E' : sb_err -> conn T P -> Prop) s :
  wp m Q E s -> (forall a s', Q a s' -> Q' a s') -> (forall e s', E e s' -> E' e s') -> wp m Q' E' s.
Proof. unfold wp. destruct (m s) as [[a|e] s']; auto. Qed.

Lemma wp_and {A} (m : sql T P A) Q Q' E s :
  wp m Q E s -> wp m Q' E s -> wp m (fun a s' => Q a s' /\ Q' a s') E s.
Proof. unfold wp. destruct (m s) as [[a|e] s']; auto. Qed.

Lemma wp_ask {A} (answer : nat -> A) Q E s :
  Q (answer (asked s)) (mk_conn (db s) (mem s) (S (asked s))) -> wp (ask answer) Q E s.
Proof. done. Qed.

Lemma wp_on_memory {A} (f : P -> nat -> A * P) Q E s :
  Q (fst (f (mem s) (asked s))) (mk_conn (db s) (snd (f (mem s) (asked s))) (S (asked s))) -> wp (on_memory f) Q E s.
Proof. unfold wp, on_memory. by destruct (f (mem s) (asked s)). Qed.

Context (fault : nat -> option bytes).

(** What holds of a statement: it works, a constraint stops it, or it fails; in
    the last two cases the tables stay. *)
Lemma wp_stmt {A} (f : T -> result (A * T)) (Q : A -> conn T P -> Prop) (E : sb_err -> conn T P -> Prop) s :
  (forall e, err_code e = SB_ERR_GENERIC -> E e (mk_conn (db s) (mem s) (S (asked s)))) ->
  match f (db s) with
  | Ok (a, t) => Q a (mk_conn t (mem s) (S (asked s)))
  | Err e => E e (mk_conn (db s) (mem s) (S (asked s)))
  end ->
  wp (stmt fault f) Q E s.
Proof.
  unfold wp, stmt. intros HE HQ. destruct (fault (asked s)); [by apply HE|].
  by destruct (f (db s)) as [[a t]|e].
Qed.

Lemma wp_query {A} (f : T -> A) (Q : A -> conn T P -> Prop) (E : sb_err -> conn T P -> Prop) s :
  (forall e, err_code e = SB_ERR_GENERIC -> E e (mk_conn (db s) (mem s) (S (asked s)))) ->
  Q (f (db s)) (mk_conn (db s) (mem s) (S (asked s))) -> wp (query fault f) Q E s.
Proof. intros HE HQ. by apply wp_stmt. Qed.

Lemma wp_control (Q : unit -> conn T P -> Prop) (E : sb_err -> conn T P -> Prop) s :
  (forall e, err_code e = SB_ERR_GENERIC -> E e (mk_conn (db s) (mem s) (S (asked s)))) ->
  Q tt (mk_conn (db s) (mem s) (S (asked s))) -> wp (control fault) Q E s.
Proof. intros HE HQ. by apply wp_stmt. Qed.

(** A loop keeps an invariant that the counter does not matter for. *)
Lemma wp_for_rows {R B} (J : list R -> B -> conn T P -> Prop) (body : R -> B -> sql T P B) Q E rows acc s :
  (forall rest b s, J rest b s -> J rest b (mk_conn (db s) (mem s) (S (asked s)))) ->
  (forall rest b s e, J rest b s -> err_code e = SB_ERR_GENERIC -> E e (mk_conn (db s) (mem s) (S (asked s)))) ->
  (forall r rest b s, J (r :: rest) b s -> wp (body r b) (J rest) E s) ->
  (forall b s, J [] b s -> Q b s) ->
  J rows acc s -> wp (for_rows fault rows body acc) Q E s.
Proof.
  intros Hn He Hb Hq. revert acc s. induction rows as [|r rows IH]; intros acc s HJ; cbn [for_rows].
  - apply wp_bind, wp_control; [by eauto|]. apply wp_ret. auto.
  - apply wp_bind, wp_control; [by eauto|]. apply wp_bind.
    eapply wp_mono; [by apply Hb, Hn|by apply IH|done].
Qed.

(** A transaction ends with its body's tables, or with those it began with. *)
Lemma wp_transaction {A} (body : sql T P A) (Q : A -> conn T P -> Prop) (E : sb_err -> conn T P -> Prop) s :
  (forall e, err_code e = SB_ERR_GENERIC -> E e (mk_conn (db s) (mem s) (S (asked s)))) ->
  wp body (fun a s2 => Q a (mk_conn (db s2) (mem s2) (S (asked s2))) /\
                       forall e, err_code e = SB_ERR_GENERIC -> E e (mk_conn (db s) (mem s2) (S (asked s2))))
     (fun e s2 => E e (mk_conn (db s) (mem s2) (asked s2))) (mk_conn (db s) (mem s) (S (asked s))) ->
  wp (transaction fault body) Q E s.
Proof.
  unfold transaction, control, wp, stmt, mbind, sql_bind. intros HE Hb.
  destruct (fault (asked s)); [by apply HE|]. cbn [db mem asked] in *.
  destruct (body _) as [[a|e] s2]; [|done]. destruct Hb as [HQ HE2].
  destruct (fault (asked s2)); [by apply HE2|]. exact HQ.
Qed.

Lemma wp_attempt {A} (m : sql T P A) (Q : result A -> conn T P -> Prop) E s :
  wp m (fun a s' => Q (Ok a) s') (fun e s' => Q (Err e) s') s -> wp (attempt m) Q E s.
Proof. unfold wp, attempt. by destruct (m s) as [[a|e] s']. Qed.

(** A refusal ends with the tables of the body, or with those it began with. *)
Lemma wp_transaction_try {A} (body : sql T P (result A)) (Q : A -> conn T P -> Prop) (E : sb_err -> conn T P -> Prop) s :
  (forall e, err_code e = SB_ERR_GENERIC -> E e (mk_conn (db s) (mem s) (S (asked s)))) ->
  wp body (fun r s2 => match r with
                       | Ok a => Q a (mk_conn (db s2) (mem s2) (S (asked s2))) /\
                                 forall e, err_code e = SB_ERR_GENERIC -> E e (mk_conn (db s) (mem s2) (S (asked s2)))
                       | Err e => E e (mk_conn (db s2) (mem s2) (S (asked s2))) /\ E e (mk_conn (db s) (mem s2) (S (asked s2)))
                       end)
     (fun e s2 => E e (mk_conn (db s) (mem s2) (asked s2))) (mk_conn (db s) (mem s) (S (asked s))) ->
  wp (transaction_try fault body) Q E s.
Proof.
  unfold transaction_try, control, wp, stmt. intros HE Hb.
  destruct (fault (asked s)); [by apply HE|]. cbn [db mem asked] in *.
  destruct (body _) as [[[a|e]|e] s2]; [| |done]; destruct Hb as [HQ HE2];
    (destruct (fault (asked s2)); [|exact HQ]).
  - by apply HE2.
  - exact HE2.
Qed.
End Logic.

Arguments wp : simpl never.

(** Steps through a program: applies the rule of its first call. *)
Ltac wp_step :=
  lazymatch goal with
  | |- wp (mbind _ _) _ _ _ => apply wp_bind
  | |- wp (mret _) _ _ _ => apply wp_ret
  | |- wp (pure _) _ _ _ => apply wp_pure
  | |- wp (ask _) _ _ _ => apply wp_ask
  | |- wp (on_memory _) _ _ _ => apply wp_on_memory
  | |- wp (query _ _) _ _ _ => apply wp_query
  | |- wp (control _) _ _ _ => apply wp_control
  | |- wp (stmt _ _) _ _ _ => apply wp_stmt
  end.
