(* ===== verification/SqliteProofs.v ===== *)
(** * Lemmas on rows, programs that only read and invariants of tables

    Sums, lengths and single rows that a statement changed, sorting, and [frame]:
    programs that leave the tables alone, whatever fails. *)

From S2P Require Import Prelude Util Json Sqlite.

(** ** Rows *)

Lemma order_insert_Permutation {R} (le : R -> R -> bool) r l : order_insert le r l ≡ₚ r :: l.
Proof. induction l as [|x l IH]; cbn [order_insert]; [done|]. case_if; [done|]. rewrite IH. apply Permutation_swap. Qed.

Lemma order_by_Permutation {R} (le : R -> R -> bool) l : order_by le l ≡ₚ l.
Proof. induction l as [|x l IH]; [done|]. cbn. rewrite order_insert_Permutation. by constructor. Qed.

Lemma order_by_In {R} (le : R -> R -> bool) l x : x ∈ order_by le l <-> x ∈ l.
Proof. by rewrite order_by_Permutation. Qed.

Lemma zsum_app {R} (f : R -> Z) l l' : zsum f (l ++ l') = zsum f l + zsum f l'.
Proof. induction l as [|x l IH]; cbn; [done|]. rewrite IH. lia. Qed.

Lemma zsum_le {R} (f g : R -> Z) l : (forall x, x ∈ l -> f x <= g x) -> zsum f l <= zsum g l.
Proof.
  induction l as [|x l IH]; intros H; cbn; [lia|]. pose proof (H x (list_elem_of_here _ _)).
  assert (zsum f l <= zsum g l); [|lia]. apply IH. intros y Hy. apply H. by right.
Qed.

Lemma zsum_nonneg {R} (f : R -> Z) l : (forall x, x ∈ l -> 0 <= f x) -> 0 <= zsum f l.
Proof. intros H. etrans; [|apply (zsum_le (fun _ => 0)); exact H]. induction l; [done|cbn in *]. apply IHl. intros y Hy. apply H. by right. Qed.

Lemma sql_sum_ok {R} (f : R -> Z) l x : sql_sum f l = Ok x -> x = zsum f l.
Proof. unfold sql_sum. case_if; [by intros [= <-]|done]. Qed.

Lemma filter_In {R} (p : R -> bool) l x : x ∈ List.filter p l <-> x ∈ l /\ p x = true.
Proof. rewrite !list_elem_of_In. apply List.filter_In. Qed.

Lemma existsb_In {R} (p : R -> bool) l : existsb p l = true <-> exists x, x ∈ l /\ p x = true.
Proof. rewrite existsb_exists. split; intros (x & Hx & Px); exists x; split; try done; by apply list_elem_of_In. Qed.

Lemma existsb_none {R} (p : R -> bool) l : existsb p l = false <-> forall x, x ∈ l -> p x = false.
Proof.
  split.
  - intros H x Hx. destruct (p x) eqn:E; [|done]. assert (existsb p l = true) by (apply existsb_In; eauto). congruence.
  - intros H. destruct (existsb p l) eqn:E; [|done]. apply existsb_In in E as (x & Hx & Px). by rewrite H in Px.
Qed.

Lemma find_In {R} (p : R -> bool) l x : List.find p l = Some x -> x ∈ l /\ p x = true.
Proof. intros H. apply List.find_some in H as [Hi Hp]. split; [by apply list_elem_of_In|done]. Qed.

Lemma find_none_In {R} (p : R -> bool) l x : List.find p l = None -> x ∈ l -> p x = false.
Proof. intros H Hx. eapply List.find_none; [exact H|by apply list_elem_of_In]. Qed.

(** Rows that a change neither moves into nor out of a selection. *)
Lemma filter_map_eq {R} (p : R -> bool) (g : R -> R) l :
  (forall x, x ∈ l -> p (g x) = p x) -> List.filter p (map g l) = map g (List.filter p l).
Proof.
  induction l as [|x l IH]; intros H; [done|]. cbn [map List.filter]. rewrite H by left.
  rewrite IH by (intros y Hy; apply H; by right). by destruct (p x).
Qed.

Lemma zsum_map {R} (f : R -> Z) (g : R -> R) l : (forall x, x ∈ l -> f (g x) = f x) -> zsum f (map g l) = zsum f l.
Proof.
  induction l as [|x l IH]; intros H; [done|]. cbn. rewrite H by left.
  rewrite IH; [done|]. intros y Hy. apply H. by right.
Qed.

(** One row changed by [d]. *)
Lemma zsum_map_one {R} (f : R -> Z) (m : R -> bool) (g : R -> R) l (x : R) (d : Z) :
  x ∈ l -> m x = true -> (forall y, y ∈ l -> m y = true -> y = x) -> NoDup l -> f (g x) = f x + d ->
  zsum f (map (fun r => if m r then g r else r) l) = zsum f l + d.
Proof.
  induction l as [|y l IH]; intros Hx Hm Hu Hn Hd; [by apply elem_of_nil in Hx|].
  inversion Hn as [|? ? Hy Hl]; subst. cbn [map zsum].
  destruct (m y) eqn:My.
  - assert (y = x) as -> by (apply Hu; [left|done]).
    rewrite (zsum_map f (fun r => if m r then g r else r)); [lia|]. intros z Hz. destruct (m z) eqn:Mz; [|done].
    assert (z = x) as -> by (apply Hu; [by right|done]). done.
  - apply elem_of_cons in Hx as [->|Hx]; [congruence|].
    rewrite (IH Hx Hm) by (try done; intros z Hz; apply Hu; by right). lia.
Qed.

Lemma filter_map_update {R} (p m : R -> bool) (g : R -> R) l :
  (forall x, x ∈ l -> m x = true -> p (g x) = p x) ->
  List.filter p (map (fun r => if m r then g r else r) l) = map (fun r => if m r then g r else r) (List.filter p l).
Proof. intros H. apply filter_map_eq. intros x Hx. destruct (m x) eqn:E; [by apply H|done]. Qed.

Lemma filter_app {R} (p : R -> bool) l l' : List.filter p (l ++ l') = List.filter p l ++ List.filter p l'.
Proof. apply List.filter_app. Qed.

Lemma NoDup_filter_list {R} (p : R -> bool) l : NoDup l -> NoDup (List.filter p l).
Proof. rewrite !NoDup_ListNoDup. apply List.NoDup_filter. Qed.

Lemma filter_keys_NoDup {R K} (key : R -> K) (p : R -> bool) l : NoDup (key <$> l) -> NoDup (key <$> List.filter p l).
Proof.
  intros N. eapply sublist_NoDup; [exact N|]. clear. induction l as [|x l IH]; cbn [List.filter]; [done|]. destruct (p x); rewrite !fmap_cons; by constructor.
Qed.

Lemma map_update_keys {R K} (key : R -> K) (m : R -> bool) (g : R -> R) l :
  (forall x, key (g x) = key x) -> key <$> map (fun r => if m r then g r else r) l = key <$> l.
Proof. intros H. induction l as [|x l IH]; [done|]. cbn. rewrite <- IH. f_equal. destruct (m x); [apply H|done]. Qed.

Lemma In_map_update {R} (m : R -> bool) (g : R -> R) l x :
  x ∈ map (fun r => if m r then g r else r) l <-> exists r, r ∈ l /\ x = if m r then g r else r.
Proof. rewrite list_elem_of_fmap. split; intros (r & H1 & H2); by exists r. Qed.

Lemma NoDup_fmap_inj_on {R K} (key : R -> K) l x y : NoDup (key <$> l) -> x ∈ l -> y ∈ l -> key x = key y -> x = y.
Proof.
  induction l as [|z l IH]; [by intros _ Hx%elem_of_nil|]. rewrite fmap_cons. intros [Hz Hl]%NoDup_cons.
  rewrite !elem_of_cons. intros [->|Hx] [->|Hy] E; auto; exfalso; apply Hz.
  - rewrite E. by apply list_elem_of_fmap_2.
  - rewrite <- E. by apply list_elem_of_fmap_2.
Qed.

Lemma find_key_unique {R K} (key : R -> K) (p : R -> bool) l x y :
  NoDup (key <$> l) -> (forall a b, p a = true -> p b = true -> key a = key b) ->
  List.find p l = Some x -> y ∈ l -> p y = true -> y = x.
Proof. intros N H F Hy Py. apply find_In in F as [Hx Px]. by eapply NoDup_fmap_inj_on; eauto. Qed.

(** A condition on the key selects at most one row. *)
Lemma filter_unique_length {R K} (key : R -> K) (p : R -> bool) l :
  NoDup (key <$> l) -> (forall a b, p a = true -> p b = true -> key a = key b) -> (length (List.filter p l) <= 1)%nat.
Proof.
  intros N H. induction l as [|x l IH]; [cbn; lia|]. rewrite fmap_cons in N. apply NoDup_cons in N as [Nx Nl].
  cbn [List.filter]. destruct (p x) eqn:Px; [|by apply IH]. cbn [length].
  destruct (List.filter p l) as [|y r] eqn:E; [cbn; lia|]. exfalso. apply Nx.
  assert (Hy : y ∈ List.filter p l) by (rewrite E; left). apply filter_In in Hy as [Hy Py].
  rewrite (H x y Px Py). by apply list_elem_of_fmap_2.
Qed.

Lemma map_update_none {R} (m : R -> bool) (g : R -> R) l :
  List.filter m l = [] -> map (fun r => if m r then g r else r) l = l.
Proof.
  induction l as [|x l IH]; [done|]. cbn [List.filter map]. destruct (m x); [done|]. intros H. by rewrite IH.
Qed.

(** An update by key that does not report one changed row changed none. *)
Lemma sql_update_missed {R K} (key : R -> K) (m : R -> bool) (g : R -> R) l :
  NoDup (key <$> l) -> (forall a b, m a = true -> m b = true -> key a = key b) ->
  (snd (sql_update m g l) =? 1)%nat = false -> fst (sql_update m g l) = l.
Proof.
  intros N H E. unfold sql_update in *. cbn [fst snd] in *. apply map_update_none.
  pose proof (filter_unique_length key m l N H) as L. apply Nat.eqb_neq in E.
  destruct (List.filter m l) as [|x r]; [done|]. cbn [length] in *. lia.
Qed.

(** Counting rows that a statement may only take out of a selection. *)
Lemma filter_map_length_le {R} (p : R -> bool) (g : R -> R) l :
  (forall x, x ∈ l -> p (g x) = true -> p x = true) -> (length (List.filter p (map g l)) <= length (List.filter p l))%nat.
Proof.
  induction l as [|x l IH]; intros H; [done|]. cbn [map List.filter].
  assert (I : (length (List.filter p (map g l)) <= length (List.filter p l))%nat) by (apply IH; intros y Hy; apply H; by right).
  specialize (H x (list_elem_of_here _ _)). destruct (p (g x)), (p x); cbn [length]; lia.
Qed.

Lemma filter_length_impl {R} (p q : R -> bool) l :
  (forall x, x ∈ l -> p x = true -> q x = true) -> (length (List.filter p l) <= length (List.filter q l))%nat.
Proof.
  induction l as [|x l IH]; intros H; [done|]. cbn [List.filter].
  assert (I : (length (List.filter p l) <= length (List.filter q l))%nat) by (apply IH; intros y Hy; apply H; by right).
  specialize (H x (list_elem_of_here _ _)). destruct (p x), (q x); cbn [length]; lia.
Qed.

Lemma filter_length_Permutation {R} (p : R -> bool) l l' :
  l ≡ₚ l' -> length (List.filter p l) = length (List.filter p l').
Proof. induction 1; cbn; repeat case_match; cbn; congruence. Qed.

(** ** Programs that only read *)

Section Frame.
Context {T P : Type}.

Definition frame {A} (m : sql T P A) : Prop := forall s, db (snd (m s)) = db s.

Lemma frame_ret {A} (a : A) : frame (mret a).
Proof. done. Qed.
Lemma frame_pure {A} (r : result A) : frame (pure r).
Proof. done. Qed.
Lemma frame_ask {A} (f : nat -> A) : frame (ask f).
Proof. done. Qed.
Lemma frame_on_memory {A} (f : P -> nat -> A * P) : frame (on_memory f).
Proof. intros s. unfold on_memory. by destruct (f (mem s) (asked s)). Qed.
Lemma frame_query {A} fault (f : T -> A) : frame (query fault f).
Proof. intros s. unfold query, stmt. by destruct (fault (asked s)). Qed.
Lemma frame_control fault : frame (control fault).
Proof. intros s. unfold control, stmt. by destruct (fault (asked s)). Qed.

Lemma frame_stmt {A} fault (f : T -> result (A * T)) :
  (forall t a t', f t = Ok (a, t') -> t' = t) -> frame (stmt fault f).
Proof.
  intros H s. unfold stmt. destruct (fault (asked s)); [done|]. destruct (f (db s)) as [[a t]|e] eqn:E; [|done].
  by apply H in E.
Qed.

Lemma frame_bind {A B} (m : sql T P A) (f : A -> sql T P B) : frame m -> (forall a, frame (f a)) -> frame (m ≫= f).
Proof.
  intros Hm Hf s. unfold mbind, sql_bind. specialize (Hm s). destruct (m s) as [[a|e] s']; [|done].
  by rewrite Hf.
Qed.

Lemma frame_for_rows {R B} fault (rows : list R) (body : R -> B -> sql T P B) acc :
  (forall r b, frame (body r b)) -> frame (for_rows fault rows body acc).
Proof.
  intros H. revert acc. induction rows as [|r rows IH]; intros acc; cbn [for_rows].
  - apply frame_bind; [apply frame_control|done].
  - apply frame_bind; [apply frame_control|intros _]. by apply frame_bind.
Qed.

Lemma wp_frame {A} (m : sql T P A) s :
  frame m -> wp m (fun _ s' => db s' = db s) (fun _ s' => db s' = db s) s.
Proof. intros H. unfold wp. specialize (H s). by destruct (m s) as [[a|e] s']. Qed.

(** A transaction that fails leaves the tables as they were. *)
Lemma transaction_atomic {A} fault (body : sql T P A) s e s' :
  transaction fault body s = (Err e, s') -> db s' = db s.
Proof.
  unfold transaction, control, stmt. destruct (fault (asked s)); [by intros [= _ <-]|]. cbn [db mem asked].
  destruct (_ ≫= _) as [[a|e'] s2]; [done|]. by intros [= _ <-].
Qed.

(** The loop that collects one value per row. *)
Lemma wp_collect {R} fault (f : R -> sbj) rows l (E : sb_err -> conn T P -> Prop) (Q : sbj -> conn T P -> Prop) s :
  (forall e s', db s' = db s -> mem s' = mem s -> err_code e = SB_ERR_GENERIC -> E e s') ->
  (forall s', db s' = db s -> mem s' = mem s -> Q (SBJ_ARRAY (l ++ map f rows)) s') ->
  wp (for_rows fault rows (fun r out => mret (sbj_arr_push out (Some (f r)))) (SBJ_ARRAY l)) Q E s.
Proof.
  intros HE HQ.
  apply (wp_for_rows fault (fun rest out s' => exists done, rows = done ++ rest /\ out = SBJ_ARRAY (l ++ map f done) /\
                                       db s' = db s /\ mem s' = mem s)).
  - done.
  - intros rest b s' e (pre & _ & _ & Hd & Hm). by apply HE.
  - intros r rest b s' (pre & -> & -> & Hd & Hm). apply wp_ret. exists (pre ++ [r]).
    rewrite map_app, <- !app_assoc. cbn. by rewrite <- app_assoc.
  - intros b s' (pre & -> & -> & Hd & Hm). rewrite app_nil_r in *. by apply HQ.
  - exists []. by rewrite app_nil_r.
Qed.
End Frame.

Create HintDb frame discriminated.
#[export] Hint Resolve frame_ret frame_pure frame_ask frame_on_memory frame_query frame_control : frame.

(** Goes through a program that only reads. *)
Ltac frames :=
  repeat first
    [ solve [auto with frame nocore]
    | apply frame_bind; [|intros ?]
    | apply frame_for_rows; intros ? ?
    | match goal with
      | |- frame (match ?x with _ => _ end) => destruct x
      | |- frame (let '(_, _) := ?x in _) => destruct x
      end ].

(** ** Failures that need no care

    Inside a transaction, where a rollback follows. *)

Definition no_care {T P} (_ : sb_err) (_ : conn T P) : Prop := True.

Lemma wp_read {T P A} (m : sql T P A) (Q : A -> conn T P -> Prop) s :
  frame m -> (forall a s', db s' = db s -> Q a s') -> wp m Q no_care s.
Proof. intros F H. eapply wp_mono; [by apply wp_frame|..]; [|done]. intros a s'. apply H. Qed.

(** ** Programs that preserve a property of the tables *)

Section Preserve.
Context {T P : Type} (J : T -> Prop).

Definition preserves {A} (m : sql T P A) : Prop := forall s, J (db s) -> wp m (fun _ s' => J (db s')) no_care s.

Lemma preserves_frame {A} (m : sql T P A) : frame m -> preserves m.
Proof. intros F s H. apply wp_read; [done|]. by intros a s' ->. Qed.

Lemma preserves_bind {A B} (m : sql T P A) (f : A -> sql T P B) : preserves m -> (forall a, preserves (f a)) -> preserves (m ≫= f).
Proof. intros Hm Hf s H. apply wp_bind. eapply wp_mono; [by apply Hm|..]; [|done]. intros a s'. apply Hf. Qed.

Lemma preserves_stmt {A} fault (f : T -> result (A * T)) :
  (forall t a t', J t -> f t = Ok (a, t') -> J t') -> preserves (stmt fault f).
Proof. intros H s Hs. apply wp_stmt; [done|]. destruct (f (db s)) as [[a t]|] eqn:E; [|done]. by eapply H. Qed.

Lemma preserves_for_rows {R B} fault (rows : list R) (body : R -> B -> sql T P B) acc :
  (forall r b, preserves (body r b)) -> preserves (for_rows fault rows body acc).
Proof. intros H s Hs. apply (wp_for_rows _ (fun _ _ s' => J (db s'))); try done. intros r rest b s'. apply H. Qed.

Lemma preserves_transaction {A} fault (body : sql T P A) : preserves body -> preserves (transaction fault body).
Proof.
  intros H s Hs. apply wp_transaction; [done|]. eapply wp_mono; [by apply H|..]; [|done]. intros a s' HJ. by split.
Qed.

(** A value about which something is known. *)
Lemma preserves_bind_known {A B} (K : A -> Prop) (m : sql T P A) (f : A -> sql T P B) :
  frame m -> (forall s, wp m (fun a _ => K a) no_care s) -> (forall a, K a -> preserves (f a)) -> preserves (m ≫= f).
Proof.
  intros Fm Hk Hf s Hs. apply wp_bind. specialize (Hk s). unfold wp in *. specialize (Fm s). destruct (m s) as [[a|e] s']; [|done].
  cbn [snd] in Fm. apply Hf; [done|]. by rewrite Fm.
Qed.
End Preserve.

Lemma Forall_map_update {R} (P : R -> Prop) (m : R -> bool) (g : R -> R) l :
  (forall r, P r -> P (g r)) -> Forall P l -> Forall P (map (fun r => if m r then g r else r) l).
Proof. intros Hg. induction 1 as [|r l Hr _ IH]; cbn [map]; constructor; [|done]. destruct (m r); auto. Qed.

Lemma Forall_upsert {R} (P : R -> Prop) (m : R -> bool) (g : R -> R) fresh l :
  (forall r, P r -> P (g r)) -> P fresh -> Forall P l -> Forall P (sql_upsert m g fresh l).
Proof.
  intros Hg Hf Hl. unfold sql_upsert. destruct (existsb m l); [by apply Forall_map_update|].
  apply Forall_app. split; [done|]. by apply Forall_singleton.
Qed.

(** ** Properties of the tables that every statement keeps

    They hold after a program however it ends. *)

Section Always.
Context {T P : Type} (J : T -> Prop).

Definition always {A} (m : sql T P A) : Prop := forall s, J (db s) -> J (db (snd (m s))).

Lemma wp_always {A} (m : sql T P A) s :
  always m -> J (db s) -> wp m (fun _ s' => J (db s')) (fun _ s' => J (db s')) s.
Proof. intros H Hs. specialize (H s Hs). unfold wp. by destruct (m s) as [[a|e] s']. Qed.

Lemma always_frame {A} (m : sql T P A) : frame m -> always m.
Proof. intros F s H. by rewrite F. Qed.

Lemma always_bind {A B} (m : sql T P A) (f : A -> sql T P B) : always m -> (forall a, always (f a)) -> always (m ≫= f).
Proof. intros Hm Hf s H. unfold mbind, sql_bind. specialize (Hm s H). destruct (m s) as [[a|e] s']; [by apply Hf|done]. Qed.

Lemma always_stmt {A} fault (f : T -> result (A * T)) :
  (forall t a t', J t -> f t = Ok (a, t') -> J t') -> always (stmt fault f).
Proof.
  intros Hf s H. unfold stmt. destruct (fault (asked s)); [done|]. destruct (f (db s)) as [[a t]|e] eqn:E; [by eapply Hf|done].
Qed.

Lemma always_for_rows {R B} fault (rows : list R) (body : R -> B -> sql T P B) acc :
  (forall r b, always (body r b)) -> always (for_rows fault rows body acc).
Proof.
  intros Hb. revert acc. induction rows as [|r rows IH]; intros acc; cbn [for_rows];
    (apply always_bind; [apply always_frame, frame_control|intros _]).
  - by apply always_frame.
  - by apply always_bind.
Qed.

Lemma always_attempt {A} (m : sql T P A) : always m -> always (attempt m).
Proof. intros Hm s H. unfold attempt. specialize (Hm s H). by destruct (m s). Qed.

Lemma always_transaction {A} fault (body : sql T P A) : always body -> always (transaction fault body).
Proof.
  intros Hb s H. unfold transaction. pose proof (always_frame (control fault) (frame_control fault) s H) as H1.
  destruct (control fault s) as [[[]|e] s1]; [|done]. cbn [snd] in H1.
  assert (Hc : always (a ← body; _ ← control fault; mret a)).
  { apply always_bind; [done|intros a]. apply always_frame, frame_bind; [apply frame_control|done]. }
  specialize (Hc s1 H1). by destruct ((a ← body; _ ← control fault; mret a) s1) as [[a|e] s2].
Qed.

Lemma always_transaction_try {A} fault (body : sql T P (result A)) : always body -> always (transaction_try fault body).
Proof.
  intros Hb s H. unfold transaction_try. pose proof (always_frame (control fault) (frame_control fault) s H) as H1.
  destruct (control fault s) as [[[]|e] s1]; [|done]. cbn [snd] in H1. specialize (Hb s1 H1).
  destruct (body s1) as [[r|e] s2]; [|done]. cbn [snd] in Hb.
  pose proof (always_frame (control fault) (frame_control fault) s2 Hb) as H2. by destruct (control fault s2) as [[[]|e] s3].
Qed.
End Always.

(** Goes through a program, down to the statements that change tables. *)
Ltac always_steps :=
  repeat first
    [ solve [apply always_frame; frames]
    | lazymatch goal with
      | |- always _ (transaction _ _) => apply always_transaction
      | |- always _ (transaction_try _ _) => apply always_transaction_try
      | |- always _ (attempt _) => apply always_attempt
      | |- always _ (mbind _ _) => apply always_bind; [|intros ?]
      | |- always _ (for_rows _ _ _ _) => apply always_for_rows; intros ? ?
      | |- always _ (match ?x with _ => _ end) => destruct x
      | |- always _ (let '(_, _) := ?x in _) => destruct x
      | |- always _ (let _ := _ in _) => cbv zeta
      end ].

(** ** The number of the next answer only grows *)

Definition onward {T P A} (m : sql T P A) : Prop := forall s, (asked s <= asked (snd (m s)))%nat.

Section Onward.
Context {T P : Type}.

Lemma onward_ret {A} (a : A) : onward (mret a : sql T P A).
Proof. by intros s. Qed.
Lemma onward_pure {A} (r : result A) : onward (pure r : sql T P A).
Proof. by intros s. Qed.
Lemma onward_ask {A} (f : nat -> A) : onward (ask f : sql T P A).
Proof. intros s. cbn. lia. Qed.
Lemma onward_on_memory {A} (f : P -> nat -> A * P) : onward (on_memory f : sql T P A).
Proof. intros s. unfold on_memory. destruct (f _ _). cbn. lia. Qed.
Lemma onward_stmt {A} fault (f : T -> result (A * T)) : onward (stmt fault f : sql T P A).
Proof. intros s. unfold stmt. destruct (fault _); [cbn; lia|]. destruct (f _) as [[]|]; cbn; lia. Qed.
Lemma onward_bind {A B} (m : sql T P A) (f : A -> sql T P B) : onward m -> (forall a, onward (f a)) -> onward (m ≫= f).
Proof.
  intros Hm Hf s. unfold mbind, sql_bind. specialize (Hm s). destruct (m s) as [[a|e] s']; [|done]. specialize (Hf a s'). cbn [snd] in Hm. lia.
Qed.
Lemma onward_attempt {A} (m : sql T P A) : onward m -> onward (attempt m).
Proof. intros H s. unfold attempt. specialize (H s). by destruct (m s). Qed.
Lemma wp_onward {A} (m : sql T P A) s : onward m -> wp m (fun _ s' => (asked s <= asked s')%nat) (fun _ s' => (asked s <= asked s')%nat) s.
Proof. intros H. specialize (H s). unfold wp. by destruct (m s) as [[a|e] s']. Qed.
End Onward.

Create HintDb onward discriminated.
#[export] Hint Resolve onward_ret onward_pure onward_ask onward_on_memory onward_stmt : onward.

Ltac onwards :=
  repeat first
    [ assumption | solve [auto with onward nocore]
    | apply onward_bind; [|intros ?] | apply onward_attempt | apply onward_stmt
    | match goal with
      | |- onward (match ?x with _ => _ end) => destruct x
      | |- onward (let '(_, _) := ?x in _) => destruct x
      end ].

(** ** Properties of the tables and the number of the next answer *)

Section Tracks.
Context {T P : Type} (I : T -> nat -> Prop).

Definition tracks {A} (m : sql T P A) : Prop := forall s, I (db s) (asked s) -> I (db (snd (m s))) (asked (snd (m s))).

Lemma tracks_ret {A} (a : A) : tracks (mret a).
Proof. by intros s. Qed.
Lemma tracks_pure {A} (r : result A) : tracks (pure r).
Proof. by intros s. Qed.
Lemma tracks_bind {A B} (m : sql T P A) (f : A -> sql T P B) : tracks m -> (forall a, tracks (f a)) -> tracks (m ≫= f).
Proof. intros Hm Hf s H. unfold mbind, sql_bind. specialize (Hm s H). destruct (m s) as [[a|e] s']; [by apply Hf|done]. Qed.
Lemma tracks_attempt {A} (m : sql T P A) : tracks m -> tracks (attempt m).
Proof. intros Hm s H. unfold attempt. specialize (Hm s H). by destruct (m s). Qed.

Lemma tracks_frame {A} (m : sql T P A) : (forall t n, I t n -> I t (S n)) -> frame m -> onward m -> tracks m.
Proof.
  intros tick F O s H. rewrite F. specialize (O s). revert O. generalize (asked (snd (m s))) as k. intros k O.
  induction O as [|k _ IH]; [done|]. by apply tick.
Qed.
Lemma tracks_wp {A} (m : sql T P A) :
  (forall s, I (db s) (asked s) -> wp m (fun _ s' => I (db s') (asked s')) (fun _ s' => I (db s') (asked s')) s) -> tracks m.
Proof. intros W s H. specialize (W s H). unfold wp in W. by destruct (m s) as [[]]. Qed.
Lemma wp_tracks {A} (m : sql T P A) s :
  tracks m -> I (db s) (asked s) -> wp m (fun _ s' => I (db s') (asked s')) (fun _ s' => I (db s') (asked s')) s.
Proof. intros H Hs. specialize (H s Hs). unfold wp. by destruct (m s) as [[]]. Qed.
End Tracks.

Lemma onward_tracks {T P A} (m : sql T P A) : (forall k, tracks (fun _ n => (k <= n)%nat) m) -> onward m.
Proof. intros H s. by apply (H (asked s) s). Qed.

Create HintDb tracks discriminated.
#[export] Hint Resolve tracks_ret tracks_pure : tracks.

(** Goes through a program, leaving the calls it does not know. *)
Ltac tracked :=
  repeat first
    [ assumption | solve [auto with tracks nocore]
    | lazymatch goal with
      | |- tracks _ (mbind _ _) => apply tracks_bind; [|intros ?]
      | |- tracks _ (attempt _) => apply tracks_attempt
      | |- tracks _ (match ?x with _ => _ end) => destruct x
      end ].
