(* ===== verification/AuthSecurity.v ===== *)
(** * Accounts: sessions, verification codes and login challenges ([c/src/auth_security.c])

    Programs on the account tables (migration 015), one per function, each
    holding the database lock from its first to its last statement.  What comes
    from outside is a field of [auth_env]: the clock, random bytes, HMAC and
    AES-256-GCM (OpenSSL).  Pointers that may be NULL are options; the service
    object is never NULL.  C strings are given without their terminator. *)

From S2P Require Import Prelude Util Json JsonText Auth Sqlite.

(** ** Tables *)

Record account_row := mk_account { a_id : bytes; a_username : bytes; a_role : bytes }.

Record login_row := mk_login {
  s_id : bytes; s_user : bytes; s_token_hash : bytes; s_method : bytes; s_label : bytes; s_created : Z;
  s_expires : Z; s_seen : Z; s_revoked : option Z }.

Record mfa_row := mk_mfa {
  m_user : bytes; m_secret : option bytes; m_pending : option bytes; m_pending_until : Z; m_last_step : Z;
  m_failed : Z; m_locked_until : Z }.

Record recovery_row := mk_recovery { c_user : bytes; c_hash : bytes; c_used : option Z }.

Record challenge_row := mk_challenge {
  h_hash : bytes; h_binding : option bytes; h_user : bytes; h_method : bytes; h_expires : Z }.

(** Device groups and what accounts may do with them, see [AuthPolicy]. *)
Record group_row := mk_group { g_id : bytes; g_name : bytes }.
Record grant_row := mk_grant { p_user : bytes; p_group : bytes; p_permission : bytes }.

Record auth_tables := mk_auth {
  accounts : list account_row; known_hosts : list bytes; sessions : list login_row; mfa : list mfa_row;
  recovery : list recovery_row; challenges : list challenge_row; groups : list group_row;
  group_hosts : list (bytes * bytes); scopes : list (bytes * bytes); grants : list grant_row }.

Definition with_accounts (t : auth_tables) x := mk_auth x (known_hosts t) (sessions t) (mfa t) (recovery t) (challenges t) (groups t) (group_hosts t) (scopes t) (grants t).
Definition with_sessions (t : auth_tables) x := mk_auth (accounts t) (known_hosts t) x (mfa t) (recovery t) (challenges t) (groups t) (group_hosts t) (scopes t) (grants t).
Definition with_mfa (t : auth_tables) x := mk_auth (accounts t) (known_hosts t) (sessions t) x (recovery t) (challenges t) (groups t) (group_hosts t) (scopes t) (grants t).
Definition with_recovery (t : auth_tables) x := mk_auth (accounts t) (known_hosts t) (sessions t) (mfa t) x (challenges t) (groups t) (group_hosts t) (scopes t) (grants t).
Definition with_challenges (t : auth_tables) x := mk_auth (accounts t) (known_hosts t) (sessions t) (mfa t) (recovery t) x (groups t) (group_hosts t) (scopes t) (grants t).
Definition with_groups (t : auth_tables) x := mk_auth (accounts t) (known_hosts t) (sessions t) (mfa t) (recovery t) (challenges t) x (group_hosts t) (scopes t) (grants t).
Definition with_group_hosts (t : auth_tables) x := mk_auth (accounts t) (known_hosts t) (sessions t) (mfa t) (recovery t) (challenges t) (groups t) x (scopes t) (grants t).
Definition with_scopes (t : auth_tables) x := mk_auth (accounts t) (known_hosts t) (sessions t) (mfa t) (recovery t) (challenges t) (groups t) (group_hosts t) x (grants t).
Definition with_grants (t : auth_tables) x := mk_auth (accounts t) (known_hosts t) (sessions t) (mfa t) (recovery t) (challenges t) (groups t) (group_hosts t) (scopes t) x.

Definition find_account (t : auth_tables) (id : bytes) : option account_row :=
  List.find (fun a => bytes_eqb (a_id a) id) (accounts t).
Definition find_mfa (t : auth_tables) (user : bytes) : option mfa_row :=
  List.find (fun m => bytes_eqb (m_user m) user) (mfa t).

(** [secret_enc IS NOT NULL]. *)
Definition mfa_enabled (t : auth_tables) (user : bytes) : bool :=
  match find_mfa t user with Some m => match m_secret m with Some _ => true | None => false end | None => false end.

(** ** Constants and the environment *)

Definition SESSION_SECONDS : Z := 72 * 60 * 60.
Definition CHALLENGE_SECONDS : Z := 300.
Definition MFA_PENDING_SECONDS : Z := 600.
Definition MFA_LOCK_SECONDS : Z := 300.

(** [gcm_encrypt key iv aad text] is the ciphertext and its tag of 16 bytes,
    [gcm_decrypt key iv aad ciphertext tag] the text if the tag is right. *)
Record auth_env := mk_auth_env {
  fault : nat -> option bytes;
  unix_now : nat -> Z;
  random_bytes : nat -> nat -> option bytes;
  uuid_random : nat -> list Z;
  jwt_secret : bytes;
  hmac_sha256 : bytes -> bytes -> bytes;
  hmac_sha1 : bytes -> bytes -> option bytes;
  gcm_encrypt : bytes -> bytes -> bytes -> bytes -> option (bytes * bytes);
  gcm_decrypt : bytes -> bytes -> bytes -> bytes -> bytes -> option bytes }.

Abbreviation auth := (sql auth_tables unit).

Definition refuse {A} (c : sb_code) (message : string) : auth A := pure (sb_fail c (bs message)).

(** ** Texts *)

Definition sb_auth_sec_token (text : option bytes) (max : nat) : bool :=
  match text with
  | Some s => negb (length s =? 0)%nat && (length s <=? max)%nat && forallb (fun c => in_range 33 126 (code c)) s
  | None => false
  end.

Definition label_valid (label : option bytes) : bool :=
  match label with
  | None => true
  | Some s => (length s <=? 128)%nat && forallb (fun c => negb ((code c <? 32) || (code c =? 127))) s &&
              is_ok (sbj_validate_utf8 (sbj_str (Some s)))
  end.

(** Decimal digits padded with zeros ([%0*u]). *)
Definition fmt_padded (width : nat) (v : Z) : bytes :=
  let d := fmt_uint v in replicate (width - length d) (chr 48) ++ d.

Definition base32_value (c : ascii) : option Z :=
  if in_range 65 90 (code c) then Some (code c - 65) else if in_range 50 55 (code c) then Some (code c - 50 + 26) else None.

(** Accumulator of 32 bits and its number of bits not yet written. *)
Fixpoint base32_loop (text : bytes) (accumulator bits : Z) (out : bytes) : option bytes :=
  match text with
  | [] => if negb (bits =? 0) && negb (Z.land accumulator (2 ^ bits - 1) =? 0) then None else Some out
  | c :: text' =>
      value ← base32_value c;
      let accumulator := Z.lor (Z.shiftl accumulator 5 mod 2 ^ 32) value in
      let bits := bits + 5 in
      if 8 <=? bits
      then base32_loop text' accumulator (bits - 8) (out ++ [chr (Z.shiftr accumulator (bits - 8))])
      else base32_loop text' accumulator bits out
  end.

Definition base32_decode (text : option bytes) : option bytes :=
  match text with
  | Some s => if (length s <? 16)%nat || (128 <? length s)%nat then None else base32_loop s 0 0 []
  | None => None
  end.

Definition BASE32 : bytes := bs "ABCDEFGHIJKLMNOPQRSTUVWXYZ234567".

(** The five-bit groups of one more byte. *)
Fixpoint base32_emit (fuel : nat) (accumulator bits : Z) : bytes * Z :=
  match fuel with
  | O => ([], bits)
  | S fuel' =>
      if 5 <=? bits
      then let (l, b) := base32_emit fuel' accumulator (bits - 5) in
           (default (chr 0) (BASE32 !! Z.to_nat (Z.land (Z.shiftr accumulator (bits - 5)) 31)) :: l, b)
      else ([], bits)
  end.

Fixpoint base32_encode (raw : bytes) (accumulator bits : Z) : bytes :=
  match raw with
  | [] => []
  | c :: raw' =>
      let accumulator := Z.lor (Z.shiftl accumulator 8 mod 2 ^ 32) (code c) in
      let (l, b) := base32_emit 3 accumulator (bits + 8) in l ++ base32_encode raw' accumulator b
  end.

(** The eight bytes of the time step, most significant first. *)
Definition counter_bytes (step : Z) : bytes :=
  (fun i => chr (Z.land (Z.shiftr step (8 * (7 - i))) 255)) <$> [0; 1; 2; 3; 4; 5; 6; 7].

Section Env.
Context (env : auth_env).
Abbreviation stmt := (stmt (fault env)).
Abbreviation query := (query (fault env)).
Abbreviation for_rows := (for_rows (fault env)).
Abbreviation transaction := (transaction (fault env)).
Abbreviation transaction_try := (transaction_try (fault env)).

Definition sb_auth_totp_code (base32_secret : option bytes) (now : Z) (digits : nat) : result bytes :=
  match base32_decode base32_secret with
  | Some secret =>
      if (now <? 0) || negb ((digits =? 6) || (digits =? 8))%nat then sb_fail SB_ERR_VALIDATION (bs "Invalid TOTP input")
      else
        match hmac_sha1 env secret (counter_bytes (now / 30)) with
        | Some mac =>
            if negb (length mac =? 20)%nat then sb_fail SB_ERR_GENERIC (bs "TOTP computation failed")
            else
              let byte i := code (default (chr 0) (mac !! i)) in
              let offset := Z.to_nat (Z.land (byte 19%nat) 15) in
              let binary := Z.lor (Z.lor (Z.lor (Z.shiftl (Z.land (byte offset) 127) 24) (Z.shiftl (byte (offset + 1)%nat) 16))
                                         (Z.shiftl (byte (offset + 2)%nat) 8)) (byte (offset + 3)%nat) in
              Ok (fmt_padded digits (binary mod (if (digits =? 6)%nat then 1000000 else 100000000)))
        | None => sb_fail SB_ERR_GENERIC (bs "TOTP computation failed")
        end
  | None => sb_fail SB_ERR_VALIDATION (bs "Invalid TOTP input")
  end.

(** ** Secrets *)

Definition sb_auth_sec_random (size : nat) : auth bytes :=
  if (size =? 0)%nat || (256 <? size)%nat then refuse SB_ERR_VALIDATION "Invalid random token size"
  else
    raw ← ask (fun n => random_bytes env n size);
    match raw with
    | None => refuse SB_ERR_GENERIC "Secure random generation failed"
    | Some raw => mret (sb_base64url_encode raw)
    end.

Definition sb_auth_sec_hash (purpose text : bytes) : bytes :=
  sb_hex_encode (hmac_sha256 env (jwt_secret env) (bs "sb-easy:auth:v1:" ++ purpose ++ [chr 0] ++ text)).

Definition encryption_key : bytes := hmac_sha256 env (jwt_secret env) (bs "sb-easy:auth:v1:encryption-key").

Definition sb_auth_sec_encrypt (purpose plaintext : bytes) : auth bytes :=
  if (65536 <? Z.of_nat (length plaintext)) || (1024 <? Z.of_nat (length purpose)) then refuse SB_ERR_VALIDATION "Invalid encrypted secret"
  else
    iv ← ask (fun n => random_bytes env n 12);
    match iv with
    | None => refuse SB_ERR_GENERIC "Secret encryption failed"
    | Some iv =>
        match gcm_encrypt env encryption_key iv purpose plaintext with
        | Some (ct, tag) => mret (sb_base64url_encode ([chr 1] ++ iv ++ ct ++ tag))
        | None => refuse SB_ERR_GENERIC "Secret encryption failed"
        end
    end.

Definition sb_auth_sec_decrypt (purpose envelope : bytes) : result bytes :=
  let unavailable := sb_fail SB_ERR_AUTH (bs "Encrypted secret is unavailable") in
  if (90000 <? Z.of_nat (length envelope)) || (1024 <? Z.of_nat (length purpose)) then unavailable
  else
    match sb_base64url_decode_strict envelope with
    | Some raw =>
        if (length raw <? 29)%nat || negb (bytes_eqb (take 1 raw) [chr 1]) then unavailable
        else
          let size := (length raw - 29)%nat in
          match gcm_decrypt env encryption_key (take 12 (drop 1 raw)) purpose (take size (drop 13 raw))
                  (take 16 (drop (13 + size) raw)) with
          | Some plain => if no_nul plain then Ok plain else unavailable
          | None => unavailable
          end
    | None => unavailable
    end.

(** ** Sessions *)

Definition required_user_locked (user : bytes) : auth unit :=
  row ← query (fun t => find_account t user);
  match row with Some _ => mret tt | None => refuse SB_ERR_NOT_FOUND "User not found" end.

Definition session_payload (user username role id : bytes) (now : Z) : sbj :=
  let p := sbj_set_str (SBJ_OBJECT []) "sub" user in
  let p := sbj_set p "username" (SBJ_STRING username) in
  let p := sbj_set_str p "role" role in
  let p := sbj_set_str p "jti" id in
  let p := sbj_set_int p "iat" now in
  sbj_set_int p "exp" (now + SESSION_SECONDS).

Definition session_token (payload : sbj) : bytes :=
  let unsigned_token := bs "eyJhbGciOiJIUzI1NiIsInR5cCI6IkpXVCJ9." ++ sb_base64url_encode (sbj_dump (Some payload) (-1)) in
  unsigned_token ++ bs "." ++ sb_base64url_encode (hmac_sha256 env (jwt_secret env) unsigned_token).

(** [ORDER BY created_at DESC, rowid DESC LIMIT 100]. *)
Definition recent_sessions (l : list login_row) : list login_row :=
  take 100 (order_by (fun a b => s_created b <=? s_created a) (reverse l)).

Definition user_sessions (t : auth_tables) (user : bytes) : list login_row :=
  List.filter (fun r => bytes_eqb (s_user r) user) (sessions t).

(** Sessions that stay: not long expired, and of this user the recent ones. *)
Definition prune_sessions (user : bytes) (now : Z) (t : auth_tables) : auth_tables :=
  let keep := s_id <$> recent_sessions (user_sessions t user) in
  with_sessions t (List.filter (fun r => negb ((s_expires r <? now - 86400) ||
    (bytes_eqb (s_user r) user && negb (existsb (bytes_eqb (s_id r)) keep)))) (sessions t)).

Definition insert_session (r : login_row) (t : auth_tables) : result (unit * auth_tables) :=
  l ← sql_insert (fun x => bytes_eqb (s_id x) (s_id r) || bytes_eqb (s_token_hash x) (s_token_hash r)) r (sessions t);
  Ok (tt, with_sessions t l).

Definition issue_locked (user : bytes) (method : bytes) (client_label : option bytes) (mfa_completed : bool) : auth bytes :=
  if negb (sb_auth_sec_token (Some method) 32) || negb (label_valid client_label)
  then refuse SB_ERR_VALIDATION "Invalid session details"
  else
    _ ← required_user_locked user;
    row ← query (fun t => match find_account t user with
                          | Some a => Some (a_username a, a_role a, mfa_enabled t user) | None => None end);
    match row with
    | None => refuse SB_ERR_AUTH "User is unavailable"
    | Some (username, role, enabled) =>
        if enabled && negb mfa_completed then refuse SB_ERR_AUTH "MFA is required; restart login"
        else
          id ← sb_auth_sec_random 24;
          now ← ask (unix_now env);
          let token := session_token (session_payload user username role id now) in
          let hash := sb_auth_sec_hash (bs "session") token in
          _ ← stmt (insert_session (mk_login id user hash method (default [] client_label) now (now + SESSION_SECONDS) now None));
          _ ← stmt (fun t => Ok (tt, prune_sessions user now t));
          mret token
    end.

Definition sb_auth_security_issue (user method : bytes) (client_label : option bytes) : auth bytes :=
  transaction (issue_locked user method client_label false).

Definition session_live (hash user : bytes) (now : Z) (r : login_row) : bool :=
  bytes_eqb (s_token_hash r) hash && bytes_eqb (s_user r) user &&
  match s_revoked r with None => true | Some _ => false end && (now <? s_expires r).

Definition touch_session (hash : bytes) (now : Z) (t : auth_tables) : auth_tables :=
  with_sessions t (fst (sql_update (fun r => bytes_eqb (s_token_hash r) hash && (s_seen r <? now - 60))
    (fun r => mk_login (s_id r) (s_user r) (s_token_hash r) (s_method r) (s_label r) (s_created r) (s_expires r) now (s_revoked r))
    (sessions t))).

Definition sb_auth_security_verify (token : option bytes) : auth sb_auth_claims :=
  let invalid {A} : auth A := refuse SB_ERR_AUTH "Invalid or expired session" in
  match token with
  | None => invalid
  | Some token =>
      if 16384 <? Z.of_nat (length token) then invalid
      else
        now ← ask (unix_now env);
        match sb_auth_verify_token (hmac_sha256 env) (Some (jwt_secret env)) (Some token) now with
        | None => invalid
        | Some claims =>
            let hash := sb_auth_sec_hash (bs "session") token in
            now ← ask (unix_now env);
            row ← query (fun t => match List.find (fun r => session_live hash (subject claims) now r &&
                                            existsb (fun a => bytes_eqb (a_id a) (s_user r)) (accounts t)) (sessions t) with
                                  | Some r => find_account t (s_user r) | None => None end);
            match row with
            | None => invalid
            | Some a =>
                now ← ask (unix_now env);
                _ ← stmt (fun t => Ok (tt, touch_session hash now t));
                mret (mk_claims (subject claims) (a_username a) (a_role a) (expires_at claims) (issued_at claims))
            end
        end
  end.

Definition session_json (current : option bytes) (r : login_row) : sbj :=
  let o := sbj_set_str (SBJ_OBJECT []) "id" (s_id r) in
  let o := sbj_set_str o "method" (s_method r) in
  let o := sbj_set_str o "client_label" (s_label r) in
  let o := sbj_set_int o "created_at" (s_created r) in
  let o := sbj_set_int o "expires_at" (s_expires r) in
  let o := sbj_set_int o "last_seen_at" (s_seen r) in
  let o := match s_revoked r with None => sbj_set o "revoked_at" SBJ_NULL | Some z => sbj_set_int o "revoked_at" z end in
  sbj_set_bool o "current" (sb_streq current (Some (s_token_hash r))).

Definition sb_auth_security_sessions (user : bytes) (current_token : option bytes) : auth sbj :=
  let hash := sb_auth_sec_hash (bs "session") <$> current_token in
  now ← ask (unix_now env);
  rows ← query (fun t => recent_sessions (List.filter (fun r => now <? s_expires r) (user_sessions t user)));
  for_rows rows (fun r out => mret (sbj_arr_push out (Some (session_json hash r)))) (SBJ_ARRAY []).

Definition revoked_at (now : Z) (r : login_row) : login_row :=
  mk_login (s_id r) (s_user r) (s_token_hash r) (s_method r) (s_label r) (s_created r) (s_expires r) (s_seen r) (Some now).

Definition is_live (r : login_row) : bool := match s_revoked r with None => true | Some _ => false end.

(** Sessions of the user that are revoked: one, or all but the kept one. *)
Definition to_revoke (user : bytes) (session keep : option bytes) (r : login_row) : bool :=
  bytes_eqb (s_user r) user && is_live r &&
  match session with None => true | Some id => bytes_eqb (s_id r) id end &&
  match keep with None => true | Some hash => negb (bytes_eqb (s_token_hash r) hash) end.

Definition revoke_locked (user : bytes) (session keep_token : option bytes) : auth unit :=
  let keep := sb_auth_sec_hash (bs "session") <$> keep_token in
  now ← ask (unix_now env);
  stmt (fun t => Ok (tt, with_sessions t (fst (sql_update (to_revoke user session keep) (revoked_at now) (sessions t))))).

Definition clear_challenges_locked (user : bytes) : auth unit :=
  stmt (fun t => Ok (tt, with_challenges t (List.filter (fun h => negb (bytes_eqb (h_user h) user)) (challenges t)))).

Definition sb_auth_security_revoke (user : bytes) (session keep_token : option bytes) : auth unit :=
  transaction
    (_ ← revoke_locked user session keep_token;
     match session with None => clear_challenges_locked user | Some _ => mret tt end).

Definition sb_auth_security_logout (token : option bytes) : auth unit :=
  match token with
  | None => refuse SB_ERR_AUTH "Invalid session"
  | Some token =>
      if 16384 <? Z.of_nat (length token) then refuse SB_ERR_AUTH "Invalid session"
      else
        let hash := sb_auth_sec_hash (bs "session") token in
        now ← ask (unix_now env);
        stmt (fun t => Ok (tt, with_sessions t (fst (sql_update (fun r => bytes_eqb (s_token_hash r) hash && is_live r)
                                                       (revoked_at now) (sessions t)))))
  end.

(** ** Verification codes *)

Definition totp_secret_new : auth bytes :=
  raw ← ask (fun n => random_bytes env n 20);
  match raw with
  | None => refuse SB_ERR_GENERIC "MFA secret generation failed"
  | Some raw => mret (base32_encode raw 0 0)
  end.

Definition mfa_purpose (user : bytes) : bytes := bs "totp:" ++ user.
Definition recovery_hash (user code : bytes) : bytes := sb_auth_sec_hash (bs "recovery:" ++ user) code.

(** Every fifth failure in a row locks. *)
Definition failed_mfa (now : Z) (m : mfa_row) : mfa_row :=
  mk_mfa (m_user m) (m_secret m) (m_pending m) (m_pending_until m) (m_last_step m)
    (if 4 <=? m_failed m then 0 else m_failed m + 1) (if 4 <=? m_failed m then now + MFA_LOCK_SECONDS else 0).

Definition update_mfa (user : bytes) (change : mfa_row -> mfa_row) (t : auth_tables) : auth_tables :=
  with_mfa t (fst (sql_update (fun m => bytes_eqb (m_user m) user) change (mfa t))).

Definition mfa_failed_locked {A} (user : bytes) (now : Z) : auth A :=
  _ ← stmt (fun t => Ok (tt, update_mfa user (failed_mfa now) t));
  refuse SB_ERR_AUTH "Invalid or already used verification code".

(** The time step whose code was given: the last one that fits, of three. *)
Definition matching_step (secret code : bytes) (now last_step : Z) (pending : bool) : option Z :=
  if (length code =? 6)%nat then
    foldl (fun matched delta =>
      let step := Z.quot now 30 + delta in
      if (0 <=? step) && (pending || (last_step <? step)) &&
         match sb_auth_totp_code (Some secret) (step * 30) 6 with Ok expected => sb_consttime_streq expected code | Err _ => false end
      then Some step else matched) None [-1; 0; 1]
  else None.

Definition accepted_mfa (last_step : Z) (m : mfa_row) : mfa_row :=
  mk_mfa (m_user m) (m_secret m) (m_pending m) (m_pending_until m) last_step 0 0.

Definition use_recovery (user code : bytes) (now : Z) (t : auth_tables) : nat * auth_tables :=
  let (l, n) := sql_update (fun c => bytes_eqb (c_user c) user && bytes_eqb (c_hash c) (recovery_hash user code) &&
                                     match c_used c with None => true | Some _ => false end)
                  (fun c => mk_recovery (c_user c) (c_hash c) (Some now)) (recovery t) in
  (n, with_recovery t l).

(** The accepted time step; [None] when a recovery code was used. *)
Definition mfa_verify_locked (user : bytes) (code : option bytes) (pending : bool) : auth (option Z) :=
  if negb (sb_auth_sec_token (Some user) 256) then refuse SB_ERR_AUTH "Invalid user"
  else
    now ← ask (unix_now env);
    row ← query (fun t => find_mfa t user);
    let unavailable := if pending then refuse SB_ERR_AUTH "MFA setup has expired" else refuse SB_ERR_AUTH "MFA is not enabled" in
    match row with
    | None => unavailable
    | Some m =>
        match (if pending then m_pending m else m_secret m) with
        | None => unavailable
        | Some encrypted =>
            if pending && (m_pending_until m <=? now) then unavailable
            else if now <? m_locked_until m then refuse SB_ERR_AUTH "Verification temporarily locked; try again later"
            else if negb (sb_auth_sec_token code 128) then mfa_failed_locked user now
            else
              let code := default [] code in
              secret ← pure (sb_auth_sec_decrypt (mfa_purpose user) encrypted);
              let matched := matching_step secret code now (m_last_step m) pending in
              used ← match matched with
                     | Some _ => mret true
                     | None => if pending then mret false
                               else n ← stmt (fun t => Ok (use_recovery user code now t)); mret (n =? 1)%nat
                     end;
              if negb used then mfa_failed_locked user now
              else
                let last := match matched with Some step => if pending then m_last_step m else step | None => m_last_step m end in
                _ ← stmt (fun t => Ok (tt, update_mfa user (accepted_mfa last) t));
                mret matched
        end
    end.

Definition sb_auth_mfa_verify (user : bytes) (code : option bytes) : auth unit :=
  transaction_try (attempt (_ ← mfa_verify_locked user code false; mret tt)).

Definition sb_auth_mfa_status (user : bytes) : auth sbj :=
  _ ← required_user_locked user;
  now ← ask (unix_now env);
  row ← query (fun t => find_mfa t user);
  let has (o : option bytes) := match o with Some _ => true | None => false end in
  let o := sbj_set_bool (SBJ_OBJECT []) "enabled" match row with Some m => has (m_secret m) | None => false end in
  let o := sbj_set_bool o "pending" match row with Some m => has (m_pending m) && (now <? m_pending_until m) | None => false end in
  n ← query (fun t => length (List.filter (fun c => bytes_eqb (c_user c) user && match c_used c with None => true | Some _ => false end)
                                (recovery t)));
  mret (sbj_set_int o "recovery_codes_remaining" (Z.of_nat n)).

Definition otpauth_uri (user secret : bytes) : bytes :=
  bs "otpauth://totp/sb-easy:" ++ sb_url_encode user ++ bs "?secret=" ++ secret ++
  bs "&issuer=sb-easy&algorithm=SHA1&digits=6&period=30".

Definition begin_mfa (user encrypted : bytes) (until : Z) (t : auth_tables) : auth_tables :=
  with_mfa t (sql_upsert (fun m => bytes_eqb (m_user m) user)
    (fun m => mk_mfa (m_user m) (m_secret m) (Some encrypted) until (m_last_step m) (m_failed m) (m_locked_until m))
    (mk_mfa user None (Some encrypted) until (-1) 0 0) (mfa t)).

Definition sb_auth_mfa_begin (user : bytes) : auth sbj :=
  if negb (sb_auth_sec_token (Some user) 256) then refuse SB_ERR_VALIDATION "Invalid user"
  else
    secret ← totp_secret_new;
    encrypted ← sb_auth_sec_encrypt (mfa_purpose user) secret;
    _ ← required_user_locked user;
    now ← ask (unix_now env);
    let until := now + MFA_PENDING_SECONDS in
    _ ← stmt (fun t => Ok (tt, begin_mfa user encrypted until t));
    mret
      (let o := sbj_set_str (SBJ_OBJECT []) "secret" secret in
       let o := sbj_set_str o "otpauth_uri" (otpauth_uri user secret) in
       sbj_set_int o "expires_at" until).

Definition confirmed_mfa (step : Z) (m : mfa_row) : mfa_row :=
  mk_mfa (m_user m) (m_pending m) None 0 step (m_failed m) (m_locked_until m).

Definition drop_recovery (user : bytes) : auth unit :=
  stmt (fun t => Ok (tt, with_recovery t (List.filter (fun c => negb (bytes_eqb (c_user c) user)) (recovery t)))).

(** New recovery codes, of which the hashes are stored. *)
Fixpoint new_recovery (n : nat) (user : bytes) (codes : sbj) : auth sbj :=
  match n with
  | O => mret codes
  | S n' =>
      code ← sb_auth_sec_random 16;
      _ ← stmt (fun t =>
        l ← sql_insert (fun c => bytes_eqb (c_user c) user && bytes_eqb (c_hash c) (recovery_hash user code))
              (mk_recovery user (recovery_hash user code) None) (recovery t);
        Ok (tt, with_recovery t l));
      new_recovery n' user (sbj_arr_push codes (Some (sbj_str (Some code))))
  end.

Definition sb_auth_mfa_confirm (user : bytes) (code keep_token : option bytes) : auth sbj :=
  transaction_try
    (r ← attempt (mfa_verify_locked user code true);
     match r with
     | Err e => mret (Err e)
     | Ok step =>
         _ ← stmt (fun t => Ok (tt, update_mfa user (confirmed_mfa (default (-1) step)) t));
         _ ← drop_recovery user;
         codes ← new_recovery 10 user (SBJ_ARRAY []);
         _ ← revoke_locked user None keep_token;
         _ ← clear_challenges_locked user;
         mret (Ok (sbj_set_bool (sbj_set (SBJ_OBJECT []) "recovery_codes" codes) "enabled" true))
     end).

Definition sb_auth_mfa_disable (user : bytes) (keep_token : option bytes) : auth unit :=
  transaction
    (_ ← required_user_locked user;
     _ ← stmt (fun t => Ok (tt, with_mfa t (List.filter (fun m => negb (bytes_eqb (m_user m) user)) (mfa t))));
     _ ← drop_recovery user;
     _ ← revoke_locked user None keep_token;
     clear_challenges_locked user).

(** ** Login challenges *)

(** Challenges that stay before a new one: not expired, and the nine latest of
    the user. *)
Definition prune_challenges (user : bytes) (now : Z) (t : auth_tables) : auth_tables :=
  let latest := h_hash <$> take 9 (reverse (List.filter (fun h => bytes_eqb (h_user h) user) (challenges t))) in
  with_challenges t (List.filter (fun h => negb ((h_expires h <=? now) ||
    (bytes_eqb (h_user h) user && negb (existsb (bytes_eqb (h_hash h)) latest)))) (challenges t)).

Definition sb_auth_security_challenge_bound (user : bytes) (method browser_binding : option bytes) : auth bytes :=
  if negb (sb_auth_sec_token method 32) || match browser_binding with Some _ => negb (sb_auth_sec_token browser_binding 256) | None => false end
  then refuse SB_ERR_VALIDATION "Invalid login challenge"
  else
    challenge ← sb_auth_sec_random 32;
    let hash := sb_auth_sec_hash (bs "login-challenge") challenge in
    let binding := sb_auth_sec_hash (bs "login-binding") <$> browser_binding in
    _ ← transaction
      (enabled ← query (fun t => mfa_enabled t user);
       if negb enabled then refuse SB_ERR_AUTH "MFA is not enabled"
       else
         now ← ask (unix_now env);
         _ ← stmt (fun t => Ok (tt, prune_challenges user now t));
         now ← ask (unix_now env);
         stmt (fun t =>
           l ← sql_insert (fun h => bytes_eqb (h_hash h) hash)
                 (mk_challenge hash binding user (default [] method) (now + CHALLENGE_SECONDS)) (challenges t);
           Ok (tt, with_challenges t l)));
    mret challenge.

Definition sb_auth_security_challenge (user : bytes) (method : option bytes) : auth bytes :=
  sb_auth_security_challenge_bound user method None.

Definition binding_matches (expected binding : option bytes) : bool :=
  match expected, binding with
  | None, None => true
  | Some e, Some b => sb_consttime_streq e b
  | _, _ => false
  end.

Definition sb_auth_security_complete_bound (challenge code client_label browser_binding : option bytes) : auth bytes :=
  let invalid {A} : auth A := refuse SB_ERR_AUTH "Invalid or expired login challenge" in
  if negb (sb_auth_sec_token challenge 128) || negb (label_valid client_label) ||
     match browser_binding with Some _ => negb (sb_auth_sec_token browser_binding 256) | None => false end
  then invalid
  else
    let hash := sb_auth_sec_hash (bs "login-challenge") (default [] challenge) in
    let binding := sb_auth_sec_hash (bs "login-binding") <$> browser_binding in
    transaction_try
      (now ← ask (unix_now env);
       row ← query (fun t => List.find (fun h => bytes_eqb (h_hash h) hash && (now <? h_expires h)) (challenges t));
       match row with
       | None => invalid
       | Some h =>
           if negb (binding_matches (h_binding h) binding) then invalid
           else
             r ← attempt (mfa_verify_locked (h_user h) code false);
             match r with
             | Err e => mret (Err e)
             | Ok _ =>
                 _ ← stmt (fun t => Ok (tt, with_challenges t (List.filter (fun h => negb (bytes_eqb (h_hash h) hash)) (challenges t))));
                 token ← issue_locked (h_user h) (h_method h ++ bs "+mfa") client_label true;
                 mret (Ok token)
             end
       end).

Definition sb_auth_security_complete (challenge code client_label : option bytes) : auth bytes :=
  sb_auth_security_complete_bound challenge code client_label None.

(** ** Roles *)

Definition is_admin (a : account_row) : bool := bytes_eqb (a_role a) (bs "admin").
Definition admins (t : auth_tables) : nat := length (List.filter is_admin (accounts t)).

Definition sb_auth_security_change_role (user : bytes) (role : option bytes) : auth unit :=
  if negb (sb_streq role (Some (bs "admin")) || sb_streq role (Some (bs "operator")) || sb_streq role (Some (bs "viewer")))
  then refuse SB_ERR_VALIDATION "Role must be admin, operator or viewer"
  else
    transaction
      (row ← query (fun t => match find_account t user with Some a => Some (a_role a, admins t) | None => None end);
       match row with
       | None => refuse SB_ERR_NOT_FOUND "User not found"
       | Some (old, n) =>
           if sb_streq (Some old) (Some (bs "admin")) && negb (sb_streq role (Some (bs "admin"))) && (n <=? 1)%nat
           then refuse SB_ERR_VALIDATION "Cannot demote the last admin"
           else
             _ ← stmt (fun t => Ok (tt, with_accounts t (fst (sql_update (fun a => bytes_eqb (a_id a) user)
                   (fun a => mk_account (a_id a) (a_username a) (cstr (default [] role))) (accounts t)))));
             _ ← revoke_locked user None None;
             clear_challenges_locked user
       end).
End Env.
