(* ===== verification/AuthPolicy.v ===== *)
(** * Device groups and scopes of accounts ([c/src/auth_device_policy.c])

    Who may see or operate which device: groups of hosts, the scope of each
    account and its grants on groups, over the tables of [AuthSecurity]. *)

From S2P Require Import Prelude Util Json JsonText Auth Sqlite AuthSecurity.

Definition json_text (value : option sbj) (maximum : nat) (token : bool) : bool :=
  match value with
  | Some (SBJ_STRING s) =>
      negb (length s =? 0)%nat && (length s <=? maximum)%nat && no_nul s &&
      if token then sb_auth_sec_token (Some s) maximum
      else forallb (fun c => negb ((code c <? 32) || (code c =? 127))) s && is_ok (sbj_validate_utf8 (SBJ_STRING s))
  | _ => false
  end.

Definition text_of (value : option sbj) : bytes := match value with Some (SBJ_STRING s) => s | _ => [] end.

(** Texts that are valid and not repeated, in order. *)
Fixpoint unique_texts (valid : sbj -> bool) (text : sbj -> bytes) (l : list sbj) (seen : list bytes) : option (list bytes) :=
  match l with
  | [] => Some seen
  | v :: l' =>
      if negb (valid v) || sb_strvec_contains seen (text v) then None
      else unique_texts valid text l' (seen ++ [text v])
  end.

Section Env.
Context (env : auth_env).
Abbreviation stmt := (stmt (fault env)).
Abbreviation query := (query (fault env)).
Abbreviation for_rows := (for_rows (fault env)).
Abbreviation transaction := (transaction (fault env)).

(** ** Groups *)

(** The rows of the left join, by name, identifier and host. *)
Definition group_member_rows (t : auth_tables) : list (group_row * option bytes) :=
  order_by (fun a b => text_le (g_name (fst a)) (g_name (fst b)))
    (order_by (fun a b => text_le (g_id (fst a)) (g_id (fst b)))
      (groups t ≫= fun g =>
         match order_by text_le (snd <$> List.filter (fun m => bytes_eqb (fst m) (g_id g)) (group_hosts t)) with
         | [] => [(g, None)]
         | hs => (fun h => (g, Some h)) <$> hs
         end)).

Definition new_group_json (g : group_row) : sbj :=
  sbj_set (sbj_set_str (sbj_set_str (SBJ_OBJECT []) "id" (g_id g)) "name" (g_name g)) "host_ids" (SBJ_ARRAY []).

Definition add_host (host : option bytes) (o : sbj) : sbj :=
  match host with
  | Some h => sbj_set o "host_ids" (sbj_arr_push (default SBJ_NULL (sbj_get (Some o) "host_ids")) (Some (sbj_str (Some h))))
  | None => o
  end.

(** One more row: the last group of the answer, or a new one. *)
Definition push_member (out : list sbj) (r : group_row * option bytes) : list sbj :=
  match last out with
  | Some current =>
      if sb_streq (sbj_get_str (Some current) "id" (Some [])) (Some (g_id (fst r)))
      then removelast out ++ [add_host (snd r) current]
      else out ++ [add_host (snd r) (new_group_json (fst r))]
  | None => [add_host (snd r) (new_group_json (fst r))]
  end.

Definition sb_auth_device_groups : auth sbj :=
  rows ← query group_member_rows;
  l ← for_rows rows (fun r out => mret (push_member out r)) [];
  mret (SBJ_ARRAY l).

(** [INSERT ... ON CONFLICT(id) DO UPDATE SET name]; the name is UNIQUE. *)
Definition upsert_group (id name : bytes) (t : auth_tables) : result (unit * auth_tables) :=
  if existsb (fun g => bytes_eqb (g_name g) name && negb (bytes_eqb (g_id g) id)) (groups t)
  then sb_fail SB_ERR_CONFLICT (bs "Device group name already exists")
  else Ok (tt, with_groups t (sql_upsert (fun g => bytes_eqb (g_id g) id) (fun g => mk_group (g_id g) name) (mk_group id name) (groups t))).

Fixpoint add_group_hosts (id : bytes) (hosts : list bytes) : auth unit :=
  match hosts with
  | [] => mret tt
  | h :: hosts' =>
      known ← query (fun t => existsb (bytes_eqb h) (known_hosts t));
      if negb known then refuse SB_ERR_VALIDATION "Device group references an unknown host"
      else
        _ ← stmt (fun t =>
          l ← sql_insert (fun m => bytes_eqb (fst m) id && bytes_eqb (snd m) h) (id, h) (group_hosts t);
          Ok (tt, with_group_hosts t l));
        add_group_hosts id hosts'
  end.

Definition group_body_hosts (group : option sbj) : option (list bytes) :=
  unique_texts (fun h => json_text (Some h) 256 true) (fun h => text_of (Some h)) (arr_items (sbj_get group "host_ids")) [].

Definition sb_auth_device_group_save (group : option sbj) : auth unit :=
  let id_value := sbj_get group "id" in
  if negb (sbj_is_object group) || negb (json_text (sbj_get group "name") 128 false) ||
     match id_value with Some _ => negb (json_text id_value 128 true) | None => false end ||
     negb (sbj_is_array (sbj_get group "host_ids")) || (2000 <? Z.of_nat (sbj_arr_len (sbj_get group "host_ids")))
  then refuse SB_ERR_VALIDATION "Device group requires a name and at most 2000 host IDs"
  else
    match group_body_hosts group with
    | None => refuse SB_ERR_VALIDATION "Invalid or duplicate device group host"
    | Some seen =>
        id ← match id_value with Some _ => mret (text_of id_value) | None => ask (fun n => sb_uuid_v4 (uuid_random env n)) end;
        transaction
          (_ ← stmt (upsert_group id (text_of (sbj_get group "name")));
           _ ← stmt (fun t => Ok (tt, with_group_hosts t (List.filter (fun m => negb (bytes_eqb (fst m) id)) (group_hosts t))));
           add_group_hosts id seen)
    end.

(** [DELETE], with the rows that refer to the group. *)
Definition delete_group (id : bytes) (t : auth_tables) : nat * auth_tables :=
  (length (List.filter (fun g => bytes_eqb (g_id g) id) (groups t)),
   with_grants (with_group_hosts (with_groups t (List.filter (fun g => negb (bytes_eqb (g_id g) id)) (groups t)))
      (List.filter (fun m => negb (bytes_eqb (fst m) id)) (group_hosts t)))
      (List.filter (fun p => negb (bytes_eqb (p_group p) id)) (grants t))).

Definition sb_auth_device_group_remove (id : option bytes) : auth unit :=
  if negb (sb_auth_sec_token id 128) then refuse SB_ERR_VALIDATION "Invalid device group ID"
  else
    n ← stmt (fun t => Ok (delete_group (default [] id) t));
    if (n =? 0)%nat then refuse SB_ERR_NOT_FOUND "Device group not found" else mret tt.

(** ** Scopes *)

Definition find_scope (t : auth_tables) (user : bytes) : option bytes :=
  snd <$> List.find (fun s => bytes_eqb (fst s) user) (scopes t).

Definition user_grants (t : auth_tables) (user : bytes) : list grant_row :=
  order_by (fun a b => text_le (p_group a) (p_group b)) (List.filter (fun p => bytes_eqb (p_user p) user) (grants t)).

Definition grant_json (p : grant_row) : sbj :=
  sbj_set_str (sbj_set_str (SBJ_OBJECT []) "group_id" (p_group p)) "permission" (p_permission p).

Definition sb_auth_user_scope (user : bytes) : auth sbj :=
  _ ← required_user_locked env user;
  row ← query (fun t => find_scope t user);
  let o := sbj_set_str (SBJ_OBJECT []) "scope" (default (bs "groups") row) in
  rows ← query (fun t => user_grants t user);
  l ← for_rows rows (fun p out => mret (sbj_arr_push out (Some (grant_json p)))) (SBJ_ARRAY []);
  mret (sbj_set o "grants" l).

Definition grant_valid (g : sbj) : bool :=
  let permission := sbj_get (Some g) "permission" in
  sbj_is_object (Some g) && json_text (sbj_get (Some g) "group_id") 128 true &&
  (sbj_string_is permission "view" || sbj_string_is permission "operate").

Definition grant_group (g : sbj) : bytes := text_of (sbj_get (Some g) "group_id").
Definition grant_permission (g : sbj) : bytes := cstr (default [] (sbj_get_str (Some g) "permission" (Some []))).

Fixpoint add_grants (user : bytes) (l : list sbj) : auth unit :=
  match l with
  | [] => mret tt
  | g :: l' =>
      known ← query (fun t => existsb (fun x => bytes_eqb (g_id x) (grant_group g)) (groups t));
      if negb known then refuse SB_ERR_VALIDATION "Scope references an unknown device group"
      else
        _ ← stmt (fun t =>
          l ← sql_insert (fun p => bytes_eqb (p_user p) user && bytes_eqb (p_group p) (grant_group g))
                (mk_grant user (grant_group g) (grant_permission g)) (grants t);
          Ok (tt, with_grants t l));
        add_grants user l'
  end.

Definition scope_valid (policy : option sbj) : bool :=
  let scope := sbj_get policy "scope" in
  let grants := sbj_get policy "grants" in
  sbj_is_object policy && (sbj_string_is scope "all" || sbj_string_is scope "groups") && sbj_is_array grants &&
  (Z.of_nat (sbj_arr_len grants) <=? 500) && negb (sbj_string_is scope "all" && negb (sbj_arr_len grants =? 0)%nat).

Definition sb_auth_user_scope_set (user : bytes) (policy : option sbj) : auth unit :=
  if negb (scope_valid policy)
  then refuse SB_ERR_VALIDATION "Scope requires all or groups and at most 500 group grants"
  else
    let items := arr_items (sbj_get policy "grants") in
    match unique_texts grant_valid grant_group items [] with
    | None => refuse SB_ERR_VALIDATION "Invalid or duplicate device group grant"
    | Some _ =>
        let scope := text_of (sbj_get policy "scope") in
        transaction
          (_ ← required_user_locked env user;
           _ ← stmt (fun t => Ok (tt, with_scopes t (sql_upsert (fun s => bytes_eqb (fst s) user) (fun s => (fst s, scope))
                                                       (user, scope) (scopes t))));
           _ ← stmt (fun t => Ok (tt, with_grants t (List.filter (fun p => negb (bytes_eqb (p_user p) user)) (grants t))));
           add_grants user items)
    end.

(** ** Access *)

(** The condition of the query. *)
Definition device_allowed (t : auth_tables) (a : account_row) (host : bytes) (mutate : bool) : bool :=
  is_admin a ||
  ((bytes_eqb (a_role a) (bs "operator") || (bytes_eqb (a_role a) (bs "viewer") && negb mutate)) &&
   existsb (bytes_eqb host) (known_hosts t) &&
   existsb (fun s => bytes_eqb (fst s) (a_id a) &&
     (bytes_eqb (snd s) (bs "all") ||
      existsb (fun p => bytes_eqb (p_user p) (a_id a) &&
        existsb (fun m => bytes_eqb (fst m) (p_group p) && bytes_eqb (snd m) host) (group_hosts t) &&
        (negb mutate || bytes_eqb (p_permission p) (bs "operate"))) (grants t))) (scopes t)).

Definition sb_auth_device_allowed (user host : option bytes) (mutate : bool) : auth unit :=
  if negb (sb_auth_sec_token user 256) || negb (sb_auth_sec_token host 256)
  then refuse SB_ERR_FORBIDDEN "Device access denied"
  else
    allowed ← query (fun t => match find_account t (default [] user) with
                              | Some a => device_allowed t a (default [] host) mutate | None => false end);
    if allowed : bool then mret tt else refuse SB_ERR_FORBIDDEN "Device access denied".
End Env.
