(* ===== verification/AuthSessions.v ===== *)
(** * Sessions that end, accounts that stay

    Calls on the account tables in any order: which sessions they end for good,
    and that an administrator remains. *)

From S2P Require Import Prelude Util Json JsonText Auth Sqlite SqliteProofs AuthSecurity AuthPolicy.

(** ** Calls *)

Inductive auth_call :=
  | Issue (user method : bytes) (label : option bytes)
  | Verify (token : option bytes)
  | Sessions (user : bytes) (current : option bytes)
  | Revoke (user : bytes) (session keep : option bytes)
  | Logout (token : option bytes)
  | MfaStatus (user : bytes)
  | MfaBegin (user : bytes)
  | MfaConfirm (user : bytes) (code keep : option bytes)
  | MfaVerify (user : bytes) (code : option bytes)
  | MfaDisable (user : bytes) (keep : option bytes)
  | Challenge (user : bytes) (method binding : option bytes)
  | Complete (challenge code label binding : option bytes)
  | ChangeRole (user : bytes) (role : option bytes)
  | Groups
  | GroupSave (group : option sbj)
  | GroupRemove (id : option bytes)
  | UserScope (user : bytes)
  | ScopeSet (user : bytes) (policy : option sbj)
  | Allowed (user host : option bytes) (mutate : bool).

Definition quietly {A} (m : auth A) : auth (option bytes) := _ ← m; mret None.
Definition with_token (m : auth bytes) : auth (option bytes) := t ← m; mret (Some t).

(** The call; its result is the session token it issued, if it issues one. *)
Definition run_auth (env : auth_env) (c : auth_call) : auth (option bytes) :=
  match c with
  | Issue u m l => with_token (sb_auth_security_issue env u m l)
  | Verify t => quietly (sb_auth_security_verify env t)
  | Sessions u t => quietly (sb_auth_security_sessions env u t)
  | Revoke u id k => quietly (sb_auth_security_revoke env u id k)
  | Logout t => quietly (sb_auth_security_logout env t)
  | MfaStatus u => quietly (sb_auth_mfa_status env u)
  | MfaBegin u => quietly (sb_auth_mfa_begin env u)
  | MfaConfirm u c k => quietly (sb_auth_mfa_confirm env u c k)
  | MfaVerify u c => quietly (sb_auth_mfa_verify env u c)
  | MfaDisable u k => quietly (sb_auth_mfa_disable env u k)
  | Challenge u m b => quietly (sb_auth_security_challenge_bound env u m b)
  | Complete c o l b => with_token (sb_auth_security_complete_bound env c o l b)
  | ChangeRole u r => quietly (sb_auth_security_change_role env u r)
  | Groups => quietly (sb_auth_device_groups env)
  | GroupSave g => quietly (sb_auth_device_group_save env g)
  | GroupRemove id => quietly (sb_auth_device_group_remove env id)
  | UserScope u => quietly (sb_auth_user_scope env u)
  | ScopeSet u p => quietly (sb_auth_user_scope_set env u p)
  | Allowed u h m => quietly (sb_auth_device_allowed env u h m)
  end.

Lemma refuse_frame {A} c m : frame (refuse c m : auth A).
Proof. unfold refuse. frames. Qed.
Lemma required_user_frame env u : frame (required_user_locked env u).
Proof. unfold required_user_locked, refuse. frames. Qed.
Lemma sec_random_frame env n : frame (sb_auth_sec_random env n).
Proof. unfold sb_auth_sec_random, refuse. frames. Qed.
Lemma sec_encrypt_frame env p x : frame (sb_auth_sec_encrypt env p x).
Proof. unfold sb_auth_sec_encrypt, refuse. frames. Qed.
Lemma totp_new_frame env : frame (totp_secret_new env).
Proof. unfold totp_secret_new, refuse. frames. Qed.

#[export] Hint Resolve refuse_frame required_user_frame sec_random_frame sec_encrypt_frame totp_new_frame : frame.

(** ** Properties that calls keep

    Each table is changed by few statements: a property of the tables is kept by
    all calls if these statements keep it. *)

Record kept_by_statements (J : auth_tables -> Prop) : Prop := mk_kept {
  kept_pruned : forall t (p : login_row -> bool), J t -> J (with_sessions t (List.filter p (sessions t)));
  kept_touched : forall t hash now, J t -> J (touch_session hash now t);
  kept_revoked : forall t (p : login_row -> bool) now, J t -> J (with_sessions t (map (fun r => if p r then revoked_at now r else r) (sessions t)));
  kept_mfa : forall t l, J t -> J (with_mfa t l);
  kept_recovery : forall t l, J t -> J (with_recovery t l);
  kept_challenges : forall t l, J t -> J (with_challenges t l);
  kept_groups : forall t l, J t -> J (with_groups t l);
  kept_group_hosts : forall t l, J t -> J (with_group_hosts t l);
  kept_scopes : forall t l, J t -> J (with_scopes t l);
  kept_grants : forall t l, J t -> J (with_grants t l) }.

Section Kept.
Context (env : auth_env) (J : auth_tables -> Prop) (K : kept_by_statements J).

Ltac changed := apply always_stmt; intros t ? t' Ht [_ <-]%Ok_inj%pair_inj; by apply K.

Lemma revoke_locked_keeps u id k : always J (revoke_locked env u id k).
Proof. unfold revoke_locked. always_steps. apply always_stmt. intros t ? t' Ht [_ <-]%Ok_inj%pair_inj. by apply (kept_revoked _ K). Qed.

Lemma clear_challenges_keeps u : always J (clear_challenges_locked env u).
Proof. unfold clear_challenges_locked. changed. Qed.

Lemma drop_recovery_keeps u : always J (drop_recovery env u).
Proof. unfold drop_recovery. changed. Qed.

Lemma mfa_failed_keeps {A} u now : always J (mfa_failed_locked env u now : auth A).
Proof. unfold mfa_failed_locked. always_steps. changed. Qed.

Lemma mfa_verify_locked_keeps u c p : always J (mfa_verify_locked env u c p).
Proof. unfold mfa_verify_locked. always_steps; try apply mfa_failed_keeps; changed. Qed.

Lemma new_recovery_keeps n u : forall codes, always J (new_recovery env n u codes).
Proof.
  induction n as [|n IH]; intros codes; cbn [new_recovery]; [by always_steps|]. always_steps; [|apply IH].
  apply always_stmt. intros t ? t' Ht. unfold sql_insert. case_if; [done|]. intros [_ <-]%Ok_inj%pair_inj. by apply K.
Qed.

(** Calls that neither issue a session nor change a role. *)
Definition plain_call (c : auth_call) : Prop :=
  match c with Issue _ _ _ | Complete _ _ _ _ | ChangeRole _ _ => False | _ => True end.

Lemma add_group_hosts_keeps id l : always J (add_group_hosts env id l).
Proof.
  induction l as [|h l IH]; cbn [add_group_hosts]; always_steps; [|exact IH].
  apply always_stmt. intros t ? t' Ht. unfold sql_insert. case_if; [done|]. intros [_ <-]%Ok_inj%pair_inj. by apply K.
Qed.

Lemma add_grants_keeps u l : always J (add_grants env u l).
Proof.
  induction l as [|g l IH]; cbn [add_grants]; always_steps; [|exact IH].
  apply always_stmt. intros t ? t' Ht. unfold sql_insert. case_if; [done|]. intros [_ <-]%Ok_inj%pair_inj. by apply K.
Qed.

Lemma call_always c : plain_call c -> always J (run_auth env c).
Proof.
  pose proof revoke_locked_keeps. pose proof clear_challenges_keeps. pose proof drop_recovery_keeps.
  pose proof mfa_verify_locked_keeps. pose proof new_recovery_keeps. pose proof add_group_hosts_keeps. pose proof add_grants_keeps.
  destruct c; intros P; try done; cbn [run_auth]; unfold quietly, sb_auth_security_verify, sb_auth_security_sessions, sb_auth_security_revoke,
    sb_auth_security_logout, sb_auth_mfa_status, sb_auth_mfa_begin, sb_auth_mfa_confirm, sb_auth_mfa_verify, sb_auth_mfa_disable,
    sb_auth_security_challenge_bound, sb_auth_device_groups, sb_auth_device_group_save, sb_auth_device_group_remove,
    sb_auth_user_scope, sb_auth_user_scope_set, sb_auth_device_allowed; always_steps; auto.
  all: apply always_stmt; intros t ? t' Ht; unfold sql_insert, upsert_group, delete_group; try case_if; try done;
    try (intros [_ <-]%Ok_inj%pair_inj); try by repeat apply K.
Qed.
End Kept.

(** ** Sessions that ended *)

Definition dead (hash user : bytes) (t : auth_tables) : Prop :=
  forall r, r ∈ sessions t -> s_token_hash r = hash -> s_user r = user -> is_live r = false.

Lemma dead_subset hash user t t' : (forall r, r ∈ sessions t' -> r ∈ sessions t) -> dead hash user t -> dead hash user t'.
Proof. intros H D r Hr. by apply D, H. Qed.

Lemma dead_mapped hash user t (g : login_row -> login_row) l :
  (forall r, s_token_hash (g r) = s_token_hash r /\ s_user (g r) = s_user r /\ (is_live r = false -> is_live (g r) = false)) ->
  dead hash user t -> l = map g (sessions t) -> dead hash user (with_sessions t l).
Proof.
  intros Hg D -> r (x & -> & Hx)%list_elem_of_fmap Eh Eu. destruct (Hg x) as (E1 & E2 & E3). apply E3, D; congruence.
Qed.

Lemma dead_kept hash user : kept_by_statements (dead hash user).
Proof.
  split; try done.
  - intros t p D. eapply dead_subset; [|exact D]. by intros r (Hr & _)%filter_In.
  - intros t h now D. eapply dead_mapped; [|exact D|reflexivity]. intros r. cbn beta. case_if; repeat split; done.
  - intros t p now D. eapply dead_mapped; [|exact D|reflexivity]. intros r. cbn beta. case_if; repeat split; done.
Qed.

Section Ended.
Context (env : auth_env).
Abbreviation token_hash := (sb_auth_sec_hash env (bs "session")).

(** A session is only added with the hash of the token that is returned. *)
Lemma issue_locked_dead hash user u m l c s :
  dead hash user (db s) ->
  wp (issue_locked env u m l c) (fun token s' => token_hash token <> hash -> dead hash user (db s')) no_care s.
Proof.
  intros D. unfold issue_locked. case_if; [by apply wp_pure|]. apply wp_bind, wp_read; [frames|]. intros _ s1 D1.
  apply wp_bind, wp_query; [done|]. cbn [db]. destruct (find_account _ _) as [a|]; [|by apply wp_pure]. case_if; [by apply wp_pure|].
  apply wp_bind, wp_read; [frames|]. intros id s2 D2. apply wp_bind, wp_ask. apply wp_bind, wp_stmt; [done|]. cbn [db] in *.
  set (token := session_token _ _). unfold insert_session, sql_insert. case_if; [done|]. cbn [mbind result_bind].
  apply wp_bind, wp_stmt; [done|]. apply wp_ret. intros N. cbn [db]. apply (kept_pruned _ (dead_kept hash user)).
  rewrite D2, D1. cbn [sessions with_sessions]. intros r [Hr|Hr%list_elem_of_singleton]%elem_of_app; [by apply D|].
  subst r. cbn [s_token_hash]. intros Eh. by destruct (N Eh).
Qed.

Lemma change_role_always (J : auth_tables -> Prop) u role :
  kept_by_statements J -> (forall t l, J t -> J (with_accounts t l)) -> always J (sb_auth_security_change_role env u role).
Proof.
  intros K Ka. pose proof (revoke_locked_keeps env J K). pose proof (clear_challenges_keeps env J K).
  unfold sb_auth_security_change_role. always_steps; auto. apply always_stmt. intros t ? t' Ht [_ <-]%Ok_inj%pair_inj. by apply Ka.
Qed.

(** What a call that returns a token leaves, and one that fails. *)
Lemma issue_dead hash user u m l s :
  dead hash user (db s) ->
  wp (sb_auth_security_issue env u m l) (fun token s' => token_hash token <> hash -> dead hash user (db s'))
     (fun _ s' => dead hash user (db s')) s.
Proof.
  intros D. apply wp_transaction; [done|]. eapply wp_mono; [by apply issue_locked_dead|..]; [|done].
  intros token s' H. by split.
Qed.

Lemma complete_dead hash user c o l b s :
  dead hash user (db s) ->
  wp (sb_auth_security_complete_bound env c o l b) (fun token s' => token_hash token <> hash -> dead hash user (db s'))
     (fun _ s' => dead hash user (db s')) s.
Proof.
  intros D. unfold sb_auth_security_complete_bound. cbv zeta. case_if; [by apply wp_pure|]. apply wp_transaction_try; [done|].
  apply wp_bind, wp_ask. apply wp_bind, wp_query; [done|]. cbn [db]. destruct (List.find _ _) as [h|]; [|by apply wp_pure].
  case_if; [by apply wp_pure|]. apply wp_bind, wp_attempt.
  eapply wp_mono; [apply (wp_always (dead hash user)); [apply mfa_verify_locked_keeps, dead_kept|exact D]|..].
  - intros step s1 D1. apply wp_bind, wp_stmt; [done|]. apply wp_bind.
    eapply wp_mono; [apply issue_locked_dead|..]; [|intros token s2 D2; apply wp_ret; split; [exact D2|intros; exact D]|done].
    cbn [db]. by apply (kept_challenges _ (dead_kept hash user)).
  - intros e s1 D1. apply wp_ret. by split.
Qed.

Lemma call_dead hash user c s r s' :
  dead hash user (db s) -> run_auth env c s = (r, s') -> (forall token, r = Ok (Some token) -> token_hash token <> hash) ->
  dead hash user (db s').
Proof.
  intros D E N.
  assert (W : forall m : auth bytes, with_token m s = (r, s') ->
    wp m (fun token s' => token_hash token <> hash -> dead hash user (db s')) (fun _ s' => dead hash user (db s')) s -> dead hash user (db s')).
  { intros m Em Wm. unfold with_token, mbind, sql_bind, wp in *. destruct (m s) as [[token|e] s1]; injection Em as <- <-; [|done].
    apply Wm. by apply N. }
  assert (A : plain_call c -> dead hash user (db s')).
  { intros Pc. pose proof (call_always env _ (dead_kept hash user) c Pc s D) as A. by rewrite E in A. }
  destruct c; try by apply A.
  - eapply W; [exact E|]. by apply issue_dead.
  - eapply W; [exact E|]. by apply complete_dead.
  - assert (Q : always (dead hash user) (run_auth env (ChangeRole user0 role))).
    { apply always_bind; [by apply change_role_always; [apply dead_kept|]|intros _; by apply always_frame]. }
    specialize (Q s D). by rewrite E in Q.
Qed.

(** A session that verifies is in the table and was not revoked. *)
Lemma verify_spec token s :
  wp (sb_auth_security_verify env (Some token))
     (fun claims _ => exists r, r ∈ sessions (db s) /\ s_token_hash r = token_hash token /\ s_user r = subject claims /\ is_live r = true)
     no_care s.
Proof.
  unfold sb_auth_security_verify. cbv zeta. case_if; [by apply wp_pure|]. apply wp_bind, wp_ask.
  destruct (sb_auth_verify_token _ _ _ _) as [claims|]; [|by apply wp_pure]. apply wp_bind, wp_ask. apply wp_bind, wp_query; [done|].
  cbn [db]. destruct (List.find _ (sessions (db s))) as [r|] eqn:F; [|by apply wp_pure].
  destruct (find_account _ _) as [a|]; [|by apply wp_pure]. apply wp_bind, wp_ask. apply wp_bind, wp_stmt; [done|]. apply wp_ret.
  apply find_In in F as [Hr Pr]. apply andb_true_iff in Pr as [Pr _]. unfold session_live in Pr. bool_facts.
  exists r. split; [done|]. split; [by apply bytes_eqb_eq|]. split; [by apply bytes_eqb_eq|]. done.
Qed.
End Ended.

(** Environments of the same server. *)
Definition same_server (env env' : auth_env) : Prop :=
  forall purpose text, sb_auth_sec_hash env' purpose text = sb_auth_sec_hash env purpose text.

(** What may happen after a session ended: further calls, none of which issues a
    token with that hash, and rows that other parts of the server delete. *)
Inductive auth_run (env : auth_env) (hash : bytes) : conn auth_tables unit -> conn auth_tables unit -> Prop :=
  | run_done s : auth_run env hash s s
  | run_call env' c s r s1 s2 :
      same_server env env' -> run_auth env' c s = (r, s1) ->
      (forall token, r = Ok (Some token) -> sb_auth_sec_hash env (bs "session") token <> hash) ->
      auth_run env hash s1 s2 -> auth_run env hash s s2
  | run_deleted s t s2 :
      (forall r, r ∈ sessions t -> r ∈ sessions (db s)) ->
      auth_run env hash (mk_conn t (mem s) (asked s)) s2 -> auth_run env hash s s2.

Lemma run_dead env hash user s s2 : auth_run env hash s s2 -> dead hash user (db s) -> dead hash user (db s2).
Proof.
  induction 1 as [s|env' c s r s1 s2 Same E N _ IH|s t s2 H _ IH]; intros D; [done|..].
  - apply IH. eapply call_dead; [exact D|exact E|]. intros token Et. rewrite Same. by apply N.
  - apply IH. by eapply dead_subset.
Qed.

(** The calls that end sessions of a user: its logout, or a change of the account
    that does not keep this one. *)
Definition ends (env : auth_env) (c : auth_call) (user token : bytes) : Prop :=
  let kept keep := sb_auth_sec_hash env (bs "session") <$> keep = Some (sb_auth_sec_hash env (bs "session") token) in
  match c with
  | Logout (Some token') => token' = token
  | Revoke user' None keep => user' = user /\ ~ kept keep
  | MfaConfirm user' _ keep | MfaDisable user' keep => user' = user /\ ~ kept keep
  | ChangeRole user' _ => user' = user
  | _ => False
  end.

Lemma wp_skip {T P A B} (m : sql T P A) (f : A -> sql T P B) Q s :
  (forall a s', wp (f a) Q no_care s') -> wp (m ≫= f) Q no_care s.
Proof. intros H. apply wp_bind. unfold wp at 1. destruct (m s) as [[a|e] s']; [apply H|done]. Qed.

Section Ending.
Context (env : auth_env) (user token : bytes).
Abbreviation hash := (sb_auth_sec_hash env (bs "session") token).

Lemma revoke_all_dead keep s :
  sb_auth_sec_hash env (bs "session") <$> keep <> Some hash ->
  wp (revoke_locked env user None keep) (fun _ s' => dead hash user (db s')) no_care s.
Proof.
  intros N. unfold revoke_locked. apply wp_bind, wp_ask. apply wp_stmt; [done|]. cbn [db].
  intros r' (r & Hr & ->)%In_map_update. destruct (to_revoke _ _ _ r) eqn:E; [done|]. intros Eh Eu. unfold to_revoke in E.
  rewrite Eu, bytes_eqb_refl in E. cbn [andb] in E. destruct (is_live r); [|done]. cbn [andb] in E.
  destruct (_ <$> keep) as [k|]; [|done]. apply negb_false_iff, bytes_eqb_eq in E. congruence.
Qed.

(** Revoking all sessions is followed by clearing the challenges only. *)
Lemma revoke_clear_dead {A} keep (f : unit -> auth A) (Q : A -> conn auth_tables unit -> Prop) s :
  sb_auth_sec_hash env (bs "session") <$> keep <> Some hash ->
  (forall s', dead hash user (db s') -> wp (f tt) Q no_care s') ->
  wp (_ ← revoke_locked env user None keep; u ← clear_challenges_locked env user; f u) Q no_care s.
Proof.
  intros N H. apply wp_bind. eapply wp_mono; [by apply revoke_all_dead|..]; [|done]. intros ? s1 D.
  apply wp_bind, wp_stmt; [done|]. apply H. by apply (kept_challenges _ (dead_kept hash user)).
Qed.

Lemma ends_dead c s : ends env c user token -> wp (run_auth env c) (fun _ s' => dead hash user (db s')) no_care s.
Proof.
  assert (Q : forall {A} (m : auth A), wp m (fun _ s' => dead hash user (db s')) no_care s -> wp (quietly m) (fun _ s' => dead hash user (db s')) no_care s).
  { intros A m H. apply wp_bind. eapply wp_mono; [exact H|..]; [|done]. intros ? s' D. by apply wp_ret. }
  assert (R : forall keep (Q : unit -> conn auth_tables unit -> Prop) s1, sb_auth_sec_hash env (bs "session") <$> keep <> Some hash ->
    (forall s', dead hash user (db s') -> Q tt s') -> wp (_ ← revoke_locked env user None keep; clear_challenges_locked env user) Q no_care s1).
  { intros keep Q0 s1 N H. apply wp_bind. eapply wp_mono; [by apply revoke_all_dead|..]; [|done]. intros ? s2 D.
    apply wp_stmt; [done|]. apply H. by apply (kept_challenges _ (dead_kept hash user)). }
  destruct c; cbn [ends]; try done; cbn [run_auth].
  - destruct session; [done|]. intros [-> N]. apply Q. apply wp_transaction; [done|]. by apply R.
  - destruct token0 as [t|]; [|done]. intros ->. apply Q. unfold sb_auth_security_logout. cbv zeta. case_if; [by apply wp_pure|].
    apply wp_bind, wp_ask. apply wp_stmt; [done|]. cbn [db]. intros r' (r & Hr & ->)%In_map_update. destruct (_ && is_live r) eqn:El; [done|].
    intros Eh _. rewrite Eh, bytes_eqb_refl in El. exact El.
  - intros [-> N]. apply Q. unfold sb_auth_mfa_confirm. apply wp_transaction_try; [done|]. apply wp_skip. intros [step|e] s1; [|by apply wp_ret].
    do 3 (apply wp_skip; intros ? ?). apply revoke_clear_dead; [done|]. intros s5 D. by apply wp_ret.
  - intros [-> N]. apply Q. apply wp_transaction; [done|]. do 3 (apply wp_skip; intros ? ?). by apply R.
  - intros ->. apply Q. unfold sb_auth_security_change_role. case_if; [by apply wp_pure|]. apply wp_transaction; [done|].
    apply wp_skip. intros [[old n]|] s1; [|by apply wp_pure]. case_if; [by apply wp_pure|]. apply wp_skip. intros ? s2. by apply R.
Qed.
End Ending.

(** C11: ended sessions stay ended.  After a logout, or after a change of role, of
    verification codes or a revocation of all sessions that does not keep it, a
    session token of the user is refused for ever: whatever calls follow, with
    whatever failures, short of issuing a new session with the same hash. *)
Theorem ended_sessions_stay_ended env c s r s1 user token s2 env2 :
  run_auth env c s = (Ok r, s1) -> ends env c user token ->
  auth_run env (sb_auth_sec_hash env (bs "session") token) s1 s2 -> same_server env env2 ->
  ~ exists claims s3, sb_auth_security_verify env2 (Some token) s2 = (Ok claims, s3) /\ subject claims = user.
Proof.
  intros E En Run Same (claims & s3 & V & Es). pose proof (ends_dead env user token c s En) as D. unfold wp in D. rewrite E in D.
  apply (run_dead _ _ _ _ _ Run) in D. pose proof (verify_spec env2 token s2) as W. unfold wp in W. rewrite V in W.
  destruct W as (x & Hx & Eh & Eu & Lx). rewrite Same in Eh. rewrite (D x Hx Eh) in Lx; [done|congruence].
Qed.

(** ** A server that ran *)

(** Keys and codes of a toy server: the authenticator copies the end of its text,
    the codes come from a sum of bytes. *)
Definition toy_mac (n : nat) (key text : bytes) : bytes := take n (reverse text ++ key ++ replicate n (chr 7)).

Definition sample_env : auth_env :=
  mk_auth_env (fun _ => None) (fun n => 1000 + Z.of_nat n) (fun n k => Some (replicate k (chr (33 + Z.of_nat n))))
    (fun n => replicate 16 (Z.of_nat n mod 256)) (bs "secret") (toy_mac 32)
    (fun k t => Some (replicate 20 (chr (zsum code (k ++ t) mod 256))))
    (fun k iv aad text => Some (text, take 16 (reverse aad ++ replicate 16 (chr 9))))
    (fun k iv aad text tag => if bytes_eqb tag (take 16 (reverse aad ++ replicate 16 (chr 9))) then Some text else None).

Definition sample_tables : auth_tables :=
  mk_auth [mk_account (bs "u1") (bs "ann") (bs "admin"); mk_account (bs "u2") (bs "ben") (bs "operator")] [bs "h1"; bs "h2"]
    [] [] [] [] [] [] [] [].

Definition sample_start : conn auth_tables unit := mk_conn sample_tables tt 0%nat.

Definition sample_login : result bytes * conn auth_tables unit :=
  Eval vm_compute in sb_auth_security_issue sample_env (bs "u2") (bs "password") None sample_start.

Definition sample_token : bytes := Eval vm_compute in match fst sample_login with Ok t => t | Err _ => [] end.

(** The session works, and after a logout and a new login of the user it does
    not. *)
Lemma ended_sessions_stay_ended_witness :
  (exists claims s', sb_auth_security_verify sample_env (Some sample_token) (snd sample_login) = (Ok claims, s') /\ subject claims = bs "u2") /\
  ~ exists claims s', sb_auth_security_verify sample_env (Some sample_token)
                        (snd (run_auth sample_env (Issue (bs "u2") (bs "password") None)
                                (snd (run_auth sample_env (Logout (Some sample_token)) (snd sample_login))))) = (Ok claims, s') /\
                      subject claims = bs "u2".
Proof.
  split; [do 2 eexists; split; vm_compute; reflexivity|].
  apply (ended_sessions_stay_ended sample_env (Logout (Some sample_token)) (snd sample_login) None
           (snd (run_auth sample_env (Logout (Some sample_token)) (snd sample_login))) (bs "u2") sample_token).
  - vm_compute. reflexivity.
  - reflexivity.
  - eapply (run_call _ _ sample_env (Issue (bs "u2") (bs "password") None)); [intros p t; reflexivity|apply surjective_pairing| |apply run_done].
    intros token' E. assert (E' : token' = match fst (run_auth sample_env (Issue (bs "u2") (bs "password") None)
      (snd (run_auth sample_env (Logout (Some sample_token)) (snd sample_login)))) with Ok (Some t) => t | _ => [] end) by (rewrite E; reflexivity).
    rewrite E'. vm_compute. discriminate.
  - intros p t. reflexivity.
Defined.

(** ** Administrators *)

Section Accounts.
Context (env : auth_env).

Lemma issue_locked_always (J : auth_tables -> Prop) u m l c :
  (forall t x, J t -> J (with_sessions t x)) -> always J (issue_locked env u m l c).
Proof.
  intros Ks. unfold issue_locked. always_steps; apply always_stmt; intros t ? t' Ht.
  - unfold insert_session, sql_insert. case_if; [done|]. intros [_ <-]%Ok_inj%pair_inj. by apply Ks.
  - intros [_ <-]%Ok_inj%pair_inj. by apply Ks.
Qed.

Lemma other_calls_always (J : auth_tables -> Prop) c :
  kept_by_statements J -> (forall t x, J t -> J (with_sessions t x)) -> (forall u r, c <> ChangeRole u r) -> always J (run_auth env c).
Proof.
  intros K Ks Nc. assert (I := issue_locked_always J). pose proof (mfa_verify_locked_keeps env J K).
  destruct c; try (by apply call_always); cbn [run_auth]; unfold with_token, sb_auth_security_issue, sb_auth_security_complete_bound.
  - always_steps. by apply I.
  - always_steps; try done; [|by apply I]. apply always_stmt. intros t ? t' Ht [_ <-]%Ok_inj%pair_inj. by apply K.
  - by destruct (Nc user role).
Qed.

Lemma accounts_kept A : kept_by_statements (fun t => accounts t = A).
Proof. by split. Qed.

Lemma other_calls_accounts c s : (forall u r, c <> ChangeRole u r) -> accounts (db (snd (run_auth env c s))) = accounts (db s).
Proof. intros Nc. by apply (other_calls_always _ c (accounts_kept (accounts (db s)))). Qed.

Definition set_role (user role : bytes) (l : list account_row) : list account_row :=
  map (fun a => if bytes_eqb (a_id a) user then mk_account (a_id a) (a_username a) role else a) l.

Lemma set_role_admins user role l :
  NoDup (a_id <$> l) ->
  (length (List.filter is_admin l) <= S (length (List.filter is_admin (set_role user role l))))%nat /\
  ((forall a, List.find (fun a => bytes_eqb (a_id a) user) l = Some a -> is_admin a = true -> role = bs "admin") ->
   (length (List.filter is_admin l) <= length (List.filter is_admin (set_role user role l)))%nat).
Proof.
  induction l as [|a l IH]; intros N; [cbn; split; [lia|done]|]. rewrite fmap_cons in N. apply NoDup_cons in N as [Na Nl].
  destruct (IH Nl) as [I1 I2]. cbn [set_role map List.filter List.find]. fold (set_role user role l).
  destruct (bytes_eqb (a_id a) user) eqn:E.
  - apply bytes_eqb_eq in E. assert (F : List.find (fun a => bytes_eqb (a_id a) user) l = None).
    { destruct (List.find _ l) as [b|] eqn:F; [|done]. apply find_In in F as [Hb Eb]. apply bytes_eqb_eq in Eb.
      destruct Na. rewrite E, <- Eb. by apply list_elem_of_fmap_2. }
    rewrite F in I2. specialize (I2 ltac:(done)). split; [repeat case_if; cbn [length]; lia|]. intros H.
    destruct (is_admin a) eqn:Aa; [|case_if; cbn [length]; lia]. rewrite (H a eq_refl Aa) in *.
    replace (is_admin (mk_account (a_id a) (a_username a) (bs "admin"))) with true by reflexivity. cbn [length]. lia.
  - split; [destruct (is_admin a); cbn [length]; lia|]. intros H. specialize (I2 H). destruct (is_admin a); cbn [length]; lia.
Qed.

(** What a change of role does to the accounts. *)
Lemma change_role_spec user role s :
  wp (sb_auth_security_change_role env user role)
     (fun _ s' => exists a, find_account (db s) user = Some a /\ accounts (db s') = set_role user (cstr (default [] role)) (accounts (db s)) /\
        (is_admin a = true -> sb_streq role (Some (bs "admin")) = true \/ (1 < admins (db s))%nat))
     (fun _ s' => db s' = db s) s.
Proof.
  unfold sb_auth_security_change_role. case_if; [by apply wp_pure|]. apply wp_transaction; [done|]. apply wp_bind, wp_query; [done|]. cbn [db].
  destruct (find_account (db s) user) as [a|] eqn:F; [|by apply wp_pure]. destruct (_ && (admins (db s) <=? 1)%nat) eqn:G; [by apply wp_pure|].
  apply wp_bind, wp_stmt; [done|]. apply wp_bind. apply (wp_mono _ (fun _ s' => accounts (db s') = set_role user (cstr (default [] role)) (accounts (db s))) _ (fun _ _ => True)).
  - unfold revoke_locked. apply wp_bind, wp_ask. by apply wp_stmt.
  - intros ? s1 E1. apply wp_stmt; [done|]. split; [|done]. exists a. split; [done|]. split; [exact E1|]. intros Aa.
    apply andb_false_iff in G as [G|G]; [|right; by apply Nat.leb_gt in G]. apply andb_false_iff in G as [G|G].
    + unfold is_admin in Aa. apply bytes_eqb_eq in Aa. by rewrite Aa in G.
    + left. by apply negb_false_iff in G.
  - done.
Qed.
End Accounts.

(** The calls that set roles. *)
Lemma change_role_dec c : (exists u r, c = ChangeRole u r) \/ (forall u r, c <> ChangeRole u r).
Proof. destruct c; try (right; intros ? ?; discriminate). left. by exists user, role. Qed.

Lemma set_role_ids user role l : a_id <$> set_role user role l = a_id <$> l.
Proof. by apply map_update_keys. Qed.

Lemma set_role_find user role l a :
  List.find (fun a => bytes_eqb (a_id a) user) l = Some a ->
  exists b, List.find (fun a => bytes_eqb (a_id a) user) (set_role user role l) = Some b /\ a_role b = role.
Proof.
  induction l as [|x l IH]; [done|]. cbn [List.find set_role map]. destruct (bytes_eqb (a_id x) user) eqn:E; intros H.
  - eexists. cbn [a_id]. by rewrite E.
  - rewrite E. by apply IH.
Qed.

(** An administrator remains.  No call takes the last administrator away,
    whatever fails; no call adds or removes accounts; and a change of role that
    succeeds is what the account then has. *)
Theorem admin_remains env c s :
  NoDup (a_id <$> accounts (db s)) -> (1 <= admins (db s))%nat ->
  (1 <= admins (db (snd (run_auth env c s))))%nat /\ a_id <$> accounts (db (snd (run_auth env c s))) = a_id <$> accounts (db s) /\
  forall user role s', c = ChangeRole user (Some role) -> run_auth env c s = (Ok None, s') ->
    exists a, find_account (db s') user = Some a /\ a_role a = cstr role.
Proof.
  intros N Ad. destruct (change_role_dec c) as [(u & role & ->)|Nc].
  2: { unfold admins. rewrite (other_calls_accounts env c s Nc). split; [done|]. split; [done|]. intros u r s' ->. by destruct (Nc u (Some r)). }
  pose proof (change_role_spec env u role s) as W. cbn [run_auth]. unfold quietly, mbind, sql_bind, mret, sql_ret, wp in *.
  destruct (sb_auth_security_change_role env u role s) as [[[]|e] s']; cbn [snd].
  - destruct W as (a & F & Ea & Ha). unfold admins. rewrite Ea, set_role_ids.
    destruct (set_role_admins u (cstr (default [] role)) (accounts (db s)) N) as [S1 S2]. split; [|split; [done|]].
    + destruct (decide (1 < admins (db s))%nat) as [L|L]; [unfold admins in L; lia|]. unfold admins in Ad. etrans; [exact Ad|]. apply S2.
      intros b Fb Ab. unfold find_account in F. rewrite Fb in F. injection F as ->. destruct (Ha Ab) as [R|R]; [|lia].
      destruct role as [role|]; [|done]. by apply bytes_eqb_eq in R.
    + intros u0 r s0 [= <- ->] [= <-]. unfold find_account. rewrite Ea. by apply (set_role_find _ _ _ a).
  - unfold admins. rewrite W. split; [done|]. split; [done|]. by intros ? ? ? _ [=].
Qed.

(** The second administrator may step down, the last one may not. *)
Lemma admin_remains_witness :
  let s := snd (run_auth sample_env (ChangeRole (bs "u2") (Some (bs "admin"))) sample_start) in
  let s1 := snd (run_auth sample_env (ChangeRole (bs "u1") (Some (bs "viewer"))) s) in
  (admins (db s), admins (db s1)) = (2, 1)%nat /\ is_ok (fst (run_auth sample_env (ChangeRole (bs "u2") (Some (bs "viewer"))) s1)) = false /\
  (1 <= admins (db (snd (run_auth sample_env (ChangeRole (bs "u2") (Some (bs "viewer"))) s1))))%nat.
Proof.
  intros s s1. split; [vm_compute; reflexivity|]. split; [vm_compute; reflexivity|].
  apply (admin_remains sample_env (ChangeRole (bs "u2") (Some (bs "viewer"))) s1).
  - vm_compute. repeat constructor; by rewrite ?elem_of_cons, ?elem_of_nil; intuition discriminate.
  - vm_compute. lia.
Defined.

(** * What a scope allows

    Setting the scope of an account decides which devices it may see and operate,
    and nothing about other accounts. *)

(** What a policy document says of a host: all devices, or those of the granted
    groups, to operate only with that permission. *)
Definition policy_allows (members : list (bytes * bytes)) (policy : option sbj) (host : bytes) (mutate : bool) : bool :=
  bytes_eqb (text_of (sbj_get policy "scope")) (bs "all") ||
  existsb (fun g => existsb (fun m => bytes_eqb (fst m) (grant_group g) && bytes_eqb (snd m) host) members &&
                    (negb mutate || bytes_eqb (grant_permission g) (bs "operate"))) (arr_items (sbj_get policy "grants")).

(** Roles that may use devices at all. *)
Definition role_allows (a : account_row) (mutate : bool) : bool :=
  bytes_eqb (a_role a) (bs "operator") || (bytes_eqb (a_role a) (bs "viewer") && negb mutate).

Section Scope.
Context (env : auth_env) (user : bytes).

Definition granted (l : list sbj) : list grant_row := (fun g => mk_grant user (grant_group g) (grant_permission g)) <$> l.

Lemma add_grants_spec l : forall s,
  wp (add_grants env user l) (fun _ s' => db s' = with_grants (db s) (grants (db s) ++ granted l)) no_care s.
Proof.
  induction l as [|g l IH]; intros s; cbn [add_grants].
  - apply wp_ret. cbn. rewrite app_nil_r. by destruct (db s).
  - apply wp_bind, wp_query; [done|]. cbn [db]. case_if; [by apply wp_pure|]. apply wp_bind, wp_stmt; [done|]. cbn [db].
    unfold sql_insert. case_if; [done|]. cbn [mbind result_bind]. eapply wp_mono; [apply IH|..]; [|done]. intros ? s' ->. cbn [db].
    unfold with_grants. cbn. by rewrite <- app_assoc.
Qed.

(** The tables after a change of scope. *)
Definition scoped (policy : option sbj) (t : auth_tables) : auth_tables :=
  let scope := text_of (sbj_get policy "scope") in
  let t := with_scopes t (sql_upsert (fun s => bytes_eqb (fst s) user) (fun s => (fst s, scope)) (user, scope) (scopes t)) in
  with_grants t (List.filter (fun p => negb (bytes_eqb (p_user p) user)) (grants t) ++ granted (arr_items (sbj_get policy "grants"))).

Lemma scope_set_spec policy s :
  wp (sb_auth_user_scope_set env user policy) (fun _ s' => db s' = scoped policy (db s)) (fun _ s' => db s' = db s) s.
Proof.
  unfold sb_auth_user_scope_set. cbv zeta. case_if; [by apply wp_pure|]. destruct (unique_texts _ _ _ _); [|by apply wp_pure].
  apply wp_transaction; [done|]. apply wp_bind. eapply (wp_mono _ (fun _ s' => db s' = db s) _ (fun _ _ => True)); [|intros ? s1 D1|done].
  { eapply wp_mono; [apply wp_frame; frames|by intros|done]. }
  apply wp_bind, wp_stmt; [done|]. apply wp_bind, wp_stmt; [done|]. cbn [db].
  eapply wp_mono; [apply add_grants_spec|..]; [|done]. intros ? s2 D2. split; [|done]. cbn [db] in *. by rewrite D2, D1.
Qed.

(** Nothing changes for the other accounts. *)
Lemma existsb_upsert_other {R} (p m : R -> bool) (g : R -> R) x l :
  (forall r, m r = true -> p r = false) -> (forall r, m r = true -> p (g r) = false) -> p x = false -> existsb p (sql_upsert m g x l) = existsb p l.
Proof.
  intros H1 H2 H3. unfold sql_upsert. case_if.
  - clear E. induction l as [|r l IH]; [done|]. cbn [map existsb]. rewrite IH. destruct (m r) eqn:E; [by rewrite (H1 r), (H2 r)|done].
  - rewrite existsb_app. cbn. by rewrite H3, !orb_false_r.
Qed.

Lemma existsb_filter_other {R} (p m : R -> bool) l :
  (forall r, m r = true -> p r = false) -> existsb p (List.filter (fun r => negb (m r)) l) = existsb p l.
Proof.
  intros H. induction l as [|r l IH]; [done|]. cbn [List.filter existsb]. destruct (m r) eqn:E; cbn [negb existsb]; [by rewrite IH, (H r)|by rewrite IH].
Qed.

Lemma existsb_ext_bool {R} (p q : R -> bool) l : (forall x, p x = q x) -> existsb p l = existsb q l.
Proof. intros H. induction l as [|x l IH]; [done|]. cbn. by rewrite H, IH. Qed.

Lemma existsb_upsert_same {R} (p m : R -> bool) (g : R -> R) x l b :
  (forall r, m r = false -> p r = false) -> (forall r, m r = true -> p (g r) = b) -> p x = b -> existsb p (sql_upsert m g x l) = b.
Proof.
  intros H1 H2 H3. unfold sql_upsert. destruct (existsb m l) eqn:Ex.
  - assert (F : forall r, p (if m r then g r else r) = m r && b) by (intros r; destruct (m r) eqn:E; [by apply H2|by apply H1]).
    clear H3. revert Ex. induction l as [|r l IH]; [done|]. cbn [map existsb]. rewrite F. destruct (m r); cbn [orb andb].
    + intros _. destruct b; [done|]. clear IH. induction l as [|y l IHl]; [done|]. cbn. by rewrite F, andb_false_r.
    + exact IH.
  - rewrite existsb_app. cbn. rewrite H3, orb_false_r. destruct (existsb p l) eqn:Ep; [|done]. apply existsb_In in Ep as (y & Hy & Py).
    assert (m y = false) as My by (by apply (proj1 (existsb_none m l) Ex)). by rewrite (H1 y My) in Py.
Qed.

(** The grants of the account are those of the document. *)
Lemma granted_existsb (q : grant_row -> bool) policy t :
  existsb (fun p => bytes_eqb (p_user p) user && q p) (grants (scoped policy t)) =
  existsb (fun g => q (mk_grant user (grant_group g) (grant_permission g))) (arr_items (sbj_get policy "grants")).
Proof.
  cbn [scoped grants with_grants]. rewrite existsb_app. replace (existsb _ (List.filter _ _)) with false.
  - cbn [orb]. unfold granted. induction (arr_items _) as [|g l IH]; [done|]. cbn [fmap list_fmap existsb p_user]. by rewrite bytes_eqb_refl, IH.
  - symmetry. apply existsb_none. intros p (_ & Hp)%filter_In. apply negb_true_iff in Hp. by rewrite Hp.
Qed.

(** The condition of the query on the two tables. *)
Lemma granted_condition policy t host mutate :
  existsb (fun p => bytes_eqb (p_user p) user && existsb (fun m => bytes_eqb (fst m) (p_group p) && bytes_eqb (snd m) host) (group_hosts t) &&
                    (negb mutate || bytes_eqb (p_permission p) (bs "operate"))) (grants (scoped policy t)) =
  existsb (fun g => existsb (fun m => bytes_eqb (fst m) (grant_group g) && bytes_eqb (snd m) host) (group_hosts t) &&
                    (negb mutate || bytes_eqb (grant_permission g) (bs "operate"))) (arr_items (sbj_get policy "grants")).
Proof.
  etrans; [|apply (granted_existsb (fun p => existsb (fun m => bytes_eqb (fst m) (p_group p) && bytes_eqb (snd m) host) (group_hosts t) &&
                    (negb mutate || bytes_eqb (p_permission p) (bs "operate"))))].
  apply existsb_ext_bool. intros p. by rewrite andb_assoc.
Qed.

Lemma scoped_allows policy t a host mutate : a_id a = user ->
  device_allowed (scoped policy t) a host mutate =
  is_admin a || (role_allows a mutate && existsb (bytes_eqb host) (known_hosts t) && policy_allows (group_hosts t) policy host mutate).
Proof.
  intros Ea. unfold device_allowed. f_equal. f_equal. rewrite Ea. change (group_hosts (scoped policy t)) with (group_hosts t).
  rewrite granted_condition. apply existsb_upsert_same.
  - by intros r ->.
  - intros r Hr. cbn [fst snd]. by rewrite Hr.
  - cbn [fst snd]. by rewrite bytes_eqb_refl.
Qed.

Lemma scoped_others policy t a host mutate : a_id a <> user -> device_allowed (scoped policy t) a host mutate = device_allowed t a host mutate.
Proof.
  intros N. unfold device_allowed. f_equal. f_equal. change (group_hosts (scoped policy t)) with (group_hosts t).
  assert (Nu : forall u, bytes_eqb u user = true -> bytes_eqb u (a_id a) = false).
  { intros u ->%bytes_eqb_eq. destruct (bytes_eqb user (a_id a)) eqn:E; [|done]. apply bytes_eqb_eq in E. congruence. }
  assert (G : forall q, existsb (fun p => bytes_eqb (p_user p) (a_id a) && q p) (grants (scoped policy t)) =
                        existsb (fun p => bytes_eqb (p_user p) (a_id a) && q p) (grants t)).
  { intros q. cbn [scoped grants with_grants]. rewrite existsb_app. rewrite existsb_filter_other by (intros r Hr; by rewrite Nu).
    replace (existsb _ (granted _)) with false; [apply orb_false_r|]. symmetry. apply existsb_none.
    intros p (g & -> & _)%list_elem_of_fmap. cbn. by rewrite Nu by apply bytes_eqb_refl. }
  rewrite <- (existsb_upsert_other _ (fun s => bytes_eqb (fst s) user) (fun s => (fst s, text_of (sbj_get policy "scope")))
             (user, text_of (sbj_get policy "scope")) (scopes t)); cbn [fst].
  - apply existsb_ext_bool. intros x. f_equal. f_equal. specialize (G (fun p => existsb (fun m => bytes_eqb (fst m) (p_group p) && bytes_eqb (snd m) host) (group_hosts t) &&
      (negb mutate || bytes_eqb (p_permission p) (bs "operate")))).
    etrans; [|etrans; [exact G|]]; apply existsb_ext_bool; intros p; by rewrite andb_assoc.
  - intros r Hr. by rewrite Nu.
  - intros r Hr. by rewrite Nu.
  - by rewrite Nu by apply bytes_eqb_refl.
Qed.
End Scope.

(** C35: scopes decide access.  After the scope of an account is set, the access check
    answers for every host and kind of access what the document says: all known
    hosts, or those of the granted groups, within what the role allows; the answers
    for other accounts are as before.  A refused change leaves all answers. *)
Theorem scope_set_decides env user policy s r s' :
  sb_auth_user_scope_set env user policy s = (r, s') ->
  (is_ok r = true -> forall a host mutate,
     device_allowed (db s') a host mutate =
     if bytes_eqb (a_id a) user
     then is_admin a || (role_allows a mutate && existsb (bytes_eqb host) (known_hosts (db s)) &&
                         policy_allows (group_hosts (db s)) policy host mutate)
     else device_allowed (db s) a host mutate) /\
  (is_ok r = false -> db s' = db s).
Proof.
  intros E. pose proof (scope_set_spec env user policy s) as W. unfold wp in W. rewrite E in W. destruct r as [[]|e]; (split; [|done]); [|done].
  intros _ a host mutate. rewrite W. destruct (bytes_eqb (a_id a) user) eqn:Ea.
  - apply bytes_eqb_eq in Ea. by apply scoped_allows.
  - apply scoped_others. intros Eu. by rewrite Eu, bytes_eqb_refl in Ea.
Qed.

Definition sample_policy : sbj :=
  SBJ_OBJECT [(bs "grants", SBJ_ARRAY [SBJ_OBJECT [(bs "group_id", SBJ_STRING (bs "g1")); (bs "permission", SBJ_STRING (bs "view"))]]);
              (bs "scope", SBJ_STRING (bs "groups"))].

Definition sample_grouped : conn auth_tables unit :=
  mk_conn (with_group_hosts (with_groups sample_tables [mk_group (bs "g1") (bs "lab")]) [(bs "g1", bs "h1")]) tt 0%nat.

(** The operator may then see the host of the group, and not operate it. *)
Lemma scope_set_decides_witness :
  let s' := snd (sb_auth_user_scope_set sample_env (bs "u2") (Some sample_policy) sample_grouped) in
  let ben := mk_account (bs "u2") (bs "ben") (bs "operator") in
  (device_allowed (db s') ben (bs "h1") false, device_allowed (db s') ben (bs "h1") true) = (true, false) /\
  forall a host mutate, bytes_eqb (a_id a) (bs "u2") = false -> device_allowed (db s') a host mutate = device_allowed (db sample_grouped) a host mutate.
Proof.
  intros s' ben. split; [vm_compute; reflexivity|]. intros a host mutate N.
  destruct (scope_set_decides sample_env (bs "u2") (Some sample_policy) sample_grouped (Ok tt) s' ltac:(vm_compute; reflexivity)) as [H _].
  specialize (H eq_refl a host mutate). by rewrite N in H.
Defined.
