(* ===== verification/AuthCodes.v ===== *)
(** * Verification codes

    Base32 secrets read back and encrypted secrets decrypt; a code and a recovery code
    work once in every history of calls ([codes_single_use]). *)

From S2P Require Import Prelude Util Json JsonText JsonUtf8 Auth Sqlite SqliteProofs AuthSecurity AuthPolicy AuthSessions.

(** ** Base32 *)

(** Bits pushed into an accumulator of 32 bits. *)
Lemma push_bits a k v : 0 < k < 32 -> 0 <= v < 2 ^ k -> Z.lor (Z.shiftl a k mod 2 ^ 32) v = (a mod 2 ^ (32 - k)) * 2 ^ k + v.
Proof.
  intros Hk Hv. rewrite Z.shiftl_mul_pow2 by lia.
  replace ((a * 2 ^ k) mod 2 ^ 32) with (Z.shiftl (a mod 2 ^ (32 - k)) k).
  - rewrite lor_shiftl_add by lia. lia.
  - rewrite Z.shiftl_mul_pow2 by lia. replace (2 ^ 32) with (2 ^ (32 - k) * 2 ^ k) by (rewrite <- Z.pow_add_r by lia; f_equal; lia).
    rewrite Z.mul_mod_distr_r; [done|..]; apply Z.pow_nonzero; lia.
Qed.

Definition base32_char (v : Z) : ascii := default (chr 0) (BASE32 !! Z.to_nat v).

Lemma base32_value_char v : 0 <= v < 32 -> base32_value (base32_char v) = Some v.
Proof.
  intros Hv. assert (A : forallb (fun n => bool_decide (base32_value (base32_char (Z.of_nat n)) = Some (Z.of_nat n))) (seq 0 32) = true) by (vm_compute; reflexivity).
  rewrite forallb_forall in A. rewrite <- (Z2Nat.id v) by lia. specialize (A (Z.to_nat v)). apply bool_decide_eq_true in A; [exact A|].
  apply list_elem_of_In, elem_of_seq. lia.
Qed.

(** The eight groups of five bits of five bytes. *)
Definition quintets (a b c d e : Z) : list Z :=
  [a / 8; a mod 8 * 4 + b / 64; b / 2 mod 32; b mod 2 * 16 + c / 16; c mod 16 * 2 + d / 128; d / 4 mod 32; d mod 4 * 8 + e / 32; e mod 32].

Lemma land_31 x : Z.land x 31 = x mod 32.
Proof. change 31 with (Z.ones 5). by rewrite Z.land_ones. Qed.

Lemma emit_more f acc bits : 5 <= bits ->
  base32_emit (S f) acc bits =
  (base32_char (acc / 2 ^ (bits - 5) mod 32) :: fst (base32_emit f acc (bits - 5)), snd (base32_emit f acc (bits - 5))).
Proof.
  intros H. cbn [base32_emit]. rewrite leb_true by done. rewrite land_31, Z.shiftr_div_pow2 by lia. by destruct (base32_emit f acc (bits - 5)).
Qed.

Lemma emit_end f acc bits : bits < 5 -> base32_emit f acc bits = ([], bits).
Proof. intros H. destruct f; cbn [base32_emit]; [done|]. by rewrite leb_false. Qed.

Lemma base32_emit_cases acc :
  base32_emit 3 acc 8 = ([base32_char (acc / 8 mod 32)], 3) /\
  base32_emit 3 acc 11 = ([base32_char (acc / 64 mod 32); base32_char (acc / 2 mod 32)], 1) /\
  base32_emit 3 acc 9 = ([base32_char (acc / 16 mod 32)], 4) /\
  base32_emit 3 acc 12 = ([base32_char (acc / 128 mod 32); base32_char (acc / 4 mod 32)], 2) /\
  base32_emit 3 acc 10 = ([base32_char (acc / 32 mod 32); base32_char (acc mod 32)], 0).
Proof.
  repeat split; repeat first [rewrite emit_more by lia|rewrite emit_end by lia]; cbn [fst snd]; try done.
  by rewrite Z.div_1_r.
Qed.

(** One more byte at the end of the accumulator. *)
Lemma encode_push c rest acc bits :
  exists acc', acc' mod 65536 = acc mod 256 * 256 + code c /\
  base32_encode (c :: rest) acc bits =
    fst (base32_emit 3 acc' (bits + 8)) ++ base32_encode rest acc' (snd (base32_emit 3 acc' (bits + 8))).
Proof.
  pose proof (code_range c). exists (Z.lor (Z.shiftl acc 8 mod 2 ^ 32) (code c)).
  split; [|cbn [base32_encode]; by destruct (base32_emit 3 _ _)]. rewrite push_bits by lia. change (2 ^ (32 - 8)) with 16777216. change (2 ^ 8) with 256. lia_dm.
Qed.

Lemma base32_encode_group a b c d e rest acc :
  exists acc', base32_encode (a :: b :: c :: d :: e :: rest) acc 0 =
    (base32_char <$> quintets (code a) (code b) (code c) (code d) (code e)) ++ base32_encode rest acc' 0.
Proof.
  pose proof (code_range a). pose proof (code_range b). pose proof (code_range c). pose proof (code_range d). pose proof (code_range e).
  destruct (encode_push a (b :: c :: d :: e :: rest) acc 0) as (a1 & E1 & ->). change (0 + 8) with 8.
  destruct (base32_emit_cases a1) as (-> & _). cbn [fst snd].
  destruct (encode_push b (c :: d :: e :: rest) a1 3) as (a2 & E2 & ->). change (3 + 8) with 11.
  destruct (base32_emit_cases a2) as (_ & -> & _). cbn [fst snd].
  destruct (encode_push c (d :: e :: rest) a2 1) as (a3 & E3 & ->). change (1 + 8) with 9.
  destruct (base32_emit_cases a3) as (_ & _ & -> & _). cbn [fst snd].
  destruct (encode_push d (e :: rest) a3 4) as (a4 & E4 & ->). change (4 + 8) with 12.
  destruct (base32_emit_cases a4) as (_ & _ & _ & -> & _). cbn [fst snd].
  destruct (encode_push e rest a4 2) as (a5 & E5 & ->). change (2 + 8) with 10.
  destruct (base32_emit_cases a5) as (_ & _ & _ & _ & ->). cbn [fst snd].
  exists a5. unfold quintets. cbn [fmap list_fmap app].
  replace (a1 / 8 mod 32) with (code a / 8) by lia_dm. replace (a2 / 64 mod 32) with (code a mod 8 * 4 + code b / 64) by lia_dm.
  replace (a2 / 2 mod 32) with (code b / 2 mod 32) by lia_dm. replace (a3 / 16 mod 32) with (code b mod 2 * 16 + code c / 16) by lia_dm.
  replace (a4 / 128 mod 32) with (code c mod 16 * 2 + code d / 128) by lia_dm. replace (a4 / 4 mod 32) with (code d / 4 mod 32) by lia_dm.
  replace (a5 / 32 mod 32) with (code d mod 4 * 8 + code e / 32) by lia_dm. by replace (a5 mod 32) with (code e mod 32) by lia_dm.
Qed.

(** One more character at the end of the accumulator. *)
Lemma decode_push v rest acc bits out : 0 <= v < 32 -> 0 <= bits ->
  exists acc', acc' mod 32768 = acc mod 1024 * 32 + v /\
  base32_loop (base32_char v :: rest) acc bits out =
    if 8 <=? bits + 5 then base32_loop rest acc' (bits + 5 - 8) (out ++ [chr (acc' / 2 ^ (bits + 5 - 8))])
    else base32_loop rest acc' (bits + 5) out.
Proof.
  intros Hv Hb. exists (Z.lor (Z.shiftl acc 5 mod 2 ^ 32) v). split.
  - rewrite push_bits by lia. change (2 ^ (32 - 5)) with 134217728. change (2 ^ 5) with 32. lia_dm.
  - cbn [base32_loop]. rewrite base32_value_char by done. cbn [mbind option_bind]. case_if; [|done]. rewrite Z.shiftr_div_pow2 by lia. done.
Qed.

Lemma chr_low x c : x mod 256 = code c -> chr x = c.
Proof. intros H. apply code_inj. by rewrite code_chr_mod. Qed.

(** Reads the next character; the number of pending bits is known. *)
Ltac decode_next x E :=
  match goal with
  | |- context [base32_loop (base32_char ?v :: ?r) ?acc ?bits ?out] =>
      destruct (decode_push v r acc bits out) as (x & E & ->); [lia_dm|lia|];
      let b := eval vm_compute in (8 <=? bits + 5) in change (8 <=? bits + 5) with b; cbv iota;
      let m := eval vm_compute in (bits + 5 - 8) in try change (bits + 5 - 8) with m;
      let n := eval vm_compute in (bits + 5) in try change (bits + 5) with n;
      try (let p := eval vm_compute in (2 ^ m) in change (2 ^ m) with p)
  end.

Lemma base32_decode_group a b c d e rest acc out :
  exists acc', base32_loop ((base32_char <$> quintets (code a) (code b) (code c) (code d) (code e)) ++ rest) acc 0 out =
    base32_loop rest acc' 0 (out ++ [a; b; c; d; e]).
Proof.
  pose proof (code_range a). pose proof (code_range b). pose proof (code_range c). pose proof (code_range d). pose proof (code_range e).
  unfold quintets. cbn [fmap list_fmap app].
  decode_next x0 E0. decode_next x1 E1. decode_next x2 E2. decode_next x3 E3. decode_next x4 E4. decode_next x5 E5. decode_next x6 E6. decode_next x7 E7.
  exists x7. f_equal. rewrite <- !app_assoc. cbn [app].
  rewrite (chr_low (x1 / 4) a), (chr_low (x3 / 16) b), (chr_low (x4 / 2) c), (chr_low (x6 / 8) d), (chr_low (x7 / 1) e); [done|lia_dm..].
Qed.

Lemma base32_groups n : forall raw acc, length raw = (5 * n)%nat ->
  length (base32_encode raw acc 0) = (8 * n)%nat /\
  forall acc' out, exists acc'', base32_loop (base32_encode raw acc 0) acc' 0 out = base32_loop [] acc'' 0 (out ++ raw).
Proof.
  induction n as [|n IH]; intros raw acc L.
  - destruct raw; [|discriminate]. split; [done|]. intros acc' out. exists acc'. by rewrite app_nil_r.
  - destruct raw as [|a [|b [|c [|d [|e raw]]]]]; try (cbn in L; lia). cbn in L. destruct (base32_encode_group a b c d e raw acc) as (a1 & ->).
    destruct (IH raw a1 ltac:(lia)) as [Ln Dec]. split; [rewrite length_app, length_fmap; cbn [quintets length]; lia|].
    intros acc' out. destruct (base32_decode_group a b c d e (base32_encode raw a1 0) acc' out) as (a2 & ->).
    destruct (Dec a2 (out ++ [a; b; c; d; e])) as (a3 & ->). exists a3. by rewrite <- app_assoc.
Qed.

(** A new verification secret reads back.  Encoding the random bytes in base 32
    and decoding the text gives the bytes again, in lengths that the decoder takes;
    the accumulators of 32 bits lose nothing. *)
Theorem base32_roundtrip raw :
  (length raw mod 5 = 0)%nat -> (10 <= length raw <= 80)%nat ->
  base32_decode (Some (base32_encode raw 0 0)) = Some raw.
Proof.
  intros M L. destruct (base32_groups (length raw / 5) raw 0) as [Ln Dec]; [pose proof (Nat.div_mod_eq (length raw) 5); lia|].
  unfold base32_decode. pose proof (Nat.div_mod_eq (length raw) 5).
  destruct ((_ <? 16)%nat || _) eqn:E; [apply orb_true_iff in E as [E%Nat.ltb_lt|E%Nat.ltb_lt]; lia|].
  by destruct (Dec 0 []) as (acc & ->).
Qed.

Lemma base32_roundtrip_witness : base32_decode (Some (base32_encode (bs "twenty random bytes!") 0 0)) = Some (bs "twenty random bytes!").
Proof. apply base32_roundtrip; vm_compute; [reflexivity|lia]. Defined.

(** ** Secrets *)

(** AES-GCM: what was encrypted decrypts, with tags of 16 bytes and texts of their
    length. *)
Definition gcm_correct (env : auth_env) : Prop :=
  forall key iv aad text ct tag, gcm_encrypt env key iv aad text = Some (ct, tag) ->
    length ct = length text /\ length tag = 16%nat /\ gcm_decrypt env key iv aad ct tag = Some text.

Definition random_sized (env : auth_env) : Prop := forall n k raw, random_bytes env n k = Some raw -> length raw = k.

Lemma base64url_strict_round d : sb_base64url_decode_strict (sb_base64url_encode d) = Some d.
Proof. apply sb_base64_roundtrip. Qed.

Lemma base64url_length d : (3 * length (sb_base64url_encode d) <= 4 * length d + 2)%nat.
Proof.
  unfold sb_base64url_encode. induction d as [d IH] using (induction_ltof1 _ (@length ascii)). unfold ltof in IH.
  destruct d as [|x [|y [|z d]]]; cbn [b64_encode length b64_pad app]; try lia. specialize (IH d ltac:(cbn; lia)). lia.
Qed.

(** An encrypted secret decrypts.  Whatever secret without NUL is encrypted for
    a purpose comes back from the envelope for the same purpose; the largest
    envelope is within the limit on reading. *)
Theorem secrets_decrypt env purpose plaintext s envelope s' :
  gcm_correct env -> random_sized env -> no_nul plaintext = true ->
  sb_auth_sec_encrypt env purpose plaintext s = (Ok envelope, s') ->
  sb_auth_sec_decrypt env purpose envelope = Ok plaintext.
Proof.
  intros G R N. unfold sb_auth_sec_encrypt. destruct (_ || _) eqn:E0; [discriminate|]. apply orb_false_iff in E0 as [E1%Z.ltb_ge E2%Z.ltb_ge].
  unfold mbind, sql_bind, ask. destruct (random_bytes env (asked s) 12) as [iv|] eqn:Ri; [|discriminate]. apply R in Ri.
  destruct (gcm_encrypt _ _ _ _ _) as [[ct tag]|] eqn:Ge; [|discriminate]. destruct (G _ _ _ _ _ _ Ge) as (Lc & Lt & D).
  intros [<-%Ok_inj _]%pair_inj. unfold sb_auth_sec_decrypt. set (raw := [chr 1] ++ iv ++ ct ++ tag).
  assert (Lr : length raw = (29 + length plaintext)%nat) by (unfold raw; rewrite !length_app, Ri, Lc, Lt; cbn; lia).
  pose proof (base64url_length raw) as B. rewrite (ltb_false 90000) by lia. rewrite (ltb_false 1024) by lia. cbn [orb].
  rewrite base64url_strict_round, Lr. change (29 + length plaintext <? 29)%nat with false. cbn [orb].
  replace (bytes_eqb (take 1 raw) [chr 1]) with true by reflexivity. cbn [negb].
  replace (29 + length plaintext - 29)%nat with (length ct) by lia.
  assert (T1 : take 12 (drop 1 raw) = iv) by (change (take 12 (iv ++ ct ++ tag) = iv); by rewrite take_app_length').
  assert (T2 : drop 13 raw = ct ++ tag) by (change (drop 12 (iv ++ ct ++ tag) = ct ++ tag); by rewrite drop_app_length').
  rewrite T1, <- drop_drop, T2, take_app_length, drop_app_length, take_ge by lia. by rewrite D, N.
Qed.

Lemma secrets_decrypt_witness :
  let s := mk_conn sample_tables tt 3%nat in
  match sb_auth_sec_encrypt sample_env (mfa_purpose (bs "u2")) (bs "ABCD") s with
  | (Ok envelope, _) => sb_auth_sec_decrypt sample_env (mfa_purpose (bs "u2")) envelope = Ok (bs "ABCD")
  | _ => False
  end.
Proof.
  intros s. destruct (sb_auth_sec_encrypt _ _ _ s) as [[envelope|e] s'] eqn:E; [|vm_compute in E; discriminate].
  apply (secrets_decrypt sample_env (mfa_purpose (bs "u2")) (bs "ABCD") s envelope s'); [| |reflexivity|exact E].
  - intros key iv aad text ct tag [= <- <-]. split; [done|]. split.
    + rewrite length_take, length_app. cbn [length]. lia.
    + cbn. by rewrite bytes_eqb_refl.
  - intros n k raw [= <-]. by rewrite length_replicate.
Defined.

(** * Verification codes are used once

    After a code was accepted, in a login or to confirm an action, neither its time
    step nor the recovery code is accepted again, whatever calls come between. *)

(** What a code is good for, in given tables: a time step, or a recovery code that
    is not used. *)
Definition accepts (env : auth_env) (user code : bytes) (t : auth_tables) (how : option Z) : Prop :=
  match how with
  | Some step =>
      exists m encrypted secret, find_mfa t user = Some m /\ m_secret m = Some encrypted /\
        sb_auth_sec_decrypt env (mfa_purpose user) encrypted = Ok secret /\
        m_last_step m < step /\ length code = 6%nat /\ exists expected, sb_auth_totp_code env (Some secret) (step * 30) 6 = Ok expected /\ sb_consttime_streq expected code = true
  | None => exists c, c ∈ recovery t /\ c_user c = user /\ c_hash c = recovery_hash env user code /\ c_used c = None
  end.

(** The account and the code of a call that takes one; of a login, the account of
    the challenge. *)
Definition code_call (env : auth_env) (c : auth_call) (s : conn auth_tables unit) : option (bytes * bytes) :=
  match c with
  | MfaVerify user (Some code) => Some (user, code)
  | Complete (Some challenge) (Some code) _ _ =>
      h ← List.find (fun h => bytes_eqb (h_hash h) (sb_auth_sec_hash env (bs "login-challenge") challenge) &&
                              (unix_now env (S (asked s)) <? h_expires h)) (challenges (db s));
      Some (h_user h, code)
  | _ => None
  end.

(** ** What stays true of used codes *)

(** Time steps up to [k] are used. *)
Definition steps_used (user : bytes) (k : Z) (t : auth_tables) : Prop :=
  forall m, m ∈ mfa t -> m_user m = user -> m_secret m <> None -> k <= m_last_step m.

(** The recovery codes with this hash are used. *)
Definition recovery_used (user hash : bytes) (t : auth_tables) : Prop :=
  forall c, c ∈ recovery t -> c_user c = user -> c_hash c = hash -> c_used c <> None.

(** What an acceptance leaves. *)
Definition used (env : auth_env) (user code : bytes) (how : option Z) (t : auth_tables) : Prop :=
  match how with Some k => steps_used user k t | None => recovery_used user (recovery_hash env user code) t end.

(** Properties of the codes of [user] that all calls keep, but new codes do not. *)
Record code_property (user : bytes) (J : auth_tables -> Prop) : Prop := mk_code_property {
  code_ext : forall t t', mfa t' = mfa t -> recovery t' = recovery t -> J t -> J t';
  code_fewer_mfa : forall t p, J t -> J (with_mfa t (List.filter p (mfa t)));
  code_fewer_recovery : forall t p, J t -> J (with_recovery t (List.filter p (recovery t)));
  code_begin : forall t u e z, J t -> J (begin_mfa u e z t);
  code_failed : forall t u now, J t -> J (update_mfa u (failed_mfa now) t);
  code_recovery_used : forall t u code env now, J t -> J (snd (use_recovery env u code now t));
  code_other_mfa : forall t u g, u <> user -> (forall m, m_user (g m) = m_user m) -> J t -> J (update_mfa u g t);
  code_other_recovery : forall t u h, u <> user -> J t -> J (with_recovery t (recovery t ++ [mk_recovery u h None]));
  code_accepted : forall t m last, find_mfa t user = Some m -> m_secret m <> None -> m_last_step m <= last ->
    J t -> J (update_mfa user (accepted_mfa last) t) }.

Lemma steps_used_property user k : code_property user (steps_used user k).
Proof.
  split.
  - intros t t' E _ J m. rewrite E. apply J.
  - intros t p J m (Hm & _)%filter_In. by apply J.
  - done.
  - intros t u e z J m. unfold begin_mfa, sql_upsert. cbn [mfa with_mfa]. case_if.
    + intros (x & Hx & ->)%In_map_update. case_if; by apply (J x).
    + intros [Hm| ->%list_elem_of_singleton]%elem_of_app; [by apply J|done].
  - intros t u now J m (x & Hx & ->)%In_map_update. case_if; by apply (J x).
  - intros t u code env now J. unfold use_recovery. cbn. exact J.
  - intros t u g N Hg J m (x & Hx & ->)%In_map_update. destruct (bytes_eqb (m_user x) u) eqn:E; [|by apply J]. rewrite Hg. intros Ex. apply bytes_eqb_eq in E. congruence.
  - done.
  - intros t m last F Sm L J x (y & Hy & ->)%In_map_update. case_if; [|by apply J]. cbn. intros _ _.
    apply find_In in F as [Hm Em]. apply bytes_eqb_eq in Em. specialize (J m Hm Em Sm). lia.
Qed.

Lemma recovery_used_property user hash : code_property user (recovery_used user hash).
Proof.
  split; try done.
  - intros t t' _ E J m. rewrite E. apply J.
  - intros t p J m (Hm & _)%filter_In. by apply J.
  - intros t u code env now J c (x & Hx & ->)%In_map_update. case_if; [done|by apply J].
  - intros t u h N J c [Hc| ->%list_elem_of_singleton]%elem_of_app; [by apply J|]. cbn. congruence.
Qed.

Lemma used_property env user code how : code_property user (used env user code how).
Proof. destruct how; [apply steps_used_property|apply recovery_used_property]. Qed.

Lemma matching_step_spec env secret code now last step :
  matching_step env secret code now last false = Some step ->
  last < step /\ length code = 6%nat /\
  exists expected, sb_auth_totp_code env (Some secret) (step * 30) 6 = Ok expected /\ sb_consttime_streq expected code = true.
Proof.
  unfold matching_step. destruct (length code =? 6)%nat eqn:L; [|done]. apply Nat.eqb_eq in L. cbn [foldl].
  repeat match goal with
  | |- (if ?b then _ else _) = _ -> _ => destruct b eqn:?
  end; intros [= <-]; bool_facts; (split; [lia|]); (split; [done|]);
    lazymatch goal with |- exists e, ?x = Ok e /\ _ => destruct x as [e|]; [by exists e|done] end.
Qed.

Section Codes.
Context (env : auth_env) (user : bytes) (J : auth_tables -> Prop) (K : code_property user J).

Ltac same_codes := apply always_stmt; intros t ? t' Ht; unfold insert_session, upsert_group, delete_group, sql_insert;
  try case_if; try done; intros [_ <-]%Ok_inj%pair_inj; by apply (code_ext _ _ K t).

Lemma issue_locked_codes u m l c : always J (issue_locked env u m l c).
Proof. unfold issue_locked. always_steps; same_codes. Qed.

Lemma revoke_locked_codes u id k : always J (revoke_locked env u id k).
Proof. unfold revoke_locked. always_steps. same_codes. Qed.

Lemma clear_challenges_codes u : always J (clear_challenges_locked env u).
Proof. unfold clear_challenges_locked. same_codes. Qed.

Lemma add_group_hosts_codes id l : always J (add_group_hosts env id l).
Proof. induction l as [|h l IH]; cbn [add_group_hosts]; always_steps; [same_codes|exact IH]. Qed.

Lemma add_grants_codes u l : always J (add_grants env u l).
Proof. induction l as [|g l IH]; cbn [add_grants]; always_steps; [same_codes|exact IH]. Qed.

Lemma drop_recovery_codes u : always J (drop_recovery env u).
Proof. apply always_stmt. intros t ? t' Ht [_ <-]%Ok_inj%pair_inj. by apply (code_fewer_recovery _ _ K). Qed.

Lemma mfa_failed_codes {A} u now : always J (mfa_failed_locked env u now : auth A).
Proof. unfold mfa_failed_locked. always_steps. apply always_stmt. intros t ? t' Ht [_ <-]%Ok_inj%pair_inj. by apply (code_failed _ _ K). Qed.

Lemma new_recovery_codes n u : u <> user -> forall codes, always J (new_recovery env n u codes).
Proof.
  intros N. induction n as [|n IH]; intros codes; cbn [new_recovery]; [by always_steps|]. always_steps; [|apply IH].
  apply always_stmt. intros t ? t' Ht. unfold sql_insert. case_if; [done|]. intros [_ <-]%Ok_inj%pair_inj. by apply (code_other_recovery _ _ K).
Qed.

Lemma wp_failed {A} u now (Q : A -> conn auth_tables unit -> Prop) s :
  J (db s) -> wp (mfa_failed_locked env u now) Q (fun _ s' => J (db s')) s.
Proof. intros Hs. unfold mfa_failed_locked. apply wp_bind, wp_stmt; [by intros|]. apply wp_pure. by apply (code_failed _ _ K). Qed.

(** The account of a verification is another one, or its codes are not new. *)
Lemma mfa_verify_codes u code pending : (u = user -> pending = false) -> always J (mfa_verify_locked env u code pending).
Proof.
  intros Np s Hs. cut (wp (mfa_verify_locked env u code pending) (fun _ s' => J (db s')) (fun _ s' => J (db s')) s).
  { unfold wp. by destruct (mfa_verify_locked _ _ _ _ s) as [[]]. }
  unfold mfa_verify_locked. cbv zeta. case_if; [by apply wp_pure|]. apply wp_bind, wp_ask. apply wp_bind, wp_query; [by intros|]. cbn [db].
  destruct (find_mfa (db s) u) as [m|] eqn:F; [|by destruct pending; apply wp_pure].
  destruct (if pending then m_pending m else m_secret m) as [encrypted|] eqn:Es; [|by destruct pending; apply wp_pure].
  case_if; [by destruct pending; apply wp_pure|]. case_if; [by apply wp_pure|]. case_if; [by apply wp_failed|].
  apply wp_bind, wp_pure. destruct (sb_auth_sec_decrypt _ _ _) as [secret|]; [|done]. set (now := unix_now env _).
  assert (G : forall last t, mfa t = mfa (db s) -> J t -> (u = user -> m_last_step m <= last) -> J (update_mfa u (accepted_mfa last) t)).
  { intros last t Em Jt L. destruct (decide (u = user)) as [->|N]; [|by apply (code_other_mfa _ _ K)].
    apply (code_accepted _ _ K t m); [unfold find_mfa; by rewrite Em|rewrite (Np eq_refl) in Es; congruence|by apply L|done]. }
  destruct (matching_step _ _ _ _ _ _) as [step|] eqn:Ms.
  - apply wp_bind, wp_ret. cbn [negb]. apply wp_bind, wp_stmt; [by intros|]. apply wp_ret. cbn [db]. apply G; [done..|]. intros Eu.
    rewrite (Np Eu) in *. apply matching_step_spec in Ms. lia.
  - destruct pending; apply wp_bind; [apply wp_ret; by apply wp_failed|]. apply wp_bind, wp_stmt; [by intros|]. cbn [db].
    pose proof (code_recovery_used _ _ K (db s) u (default [] code) env now Hs) as Ju.
    destruct (use_recovery env u (default [] code) now (db s)) as [n t1] eqn:Eu. cbn [snd] in Ju. apply wp_ret. case_if; [by apply wp_failed|].
    apply wp_bind, wp_stmt; [by intros|]. apply wp_ret. cbn [db]. apply G; [|done|lia]. unfold use_recovery in Eu.
    destruct (sql_update _ _ _). by injection Eu as _ <-.
Qed.

(** All calls but those that give the account new codes. *)
Lemma call_codes c : (forall code keep, c <> MfaConfirm user code keep) -> always J (run_auth env c).
Proof.
  pose proof revoke_locked_codes. pose proof clear_challenges_codes. pose proof drop_recovery_codes. pose proof mfa_verify_codes.
  pose proof add_group_hosts_codes. pose proof add_grants_codes. pose proof issue_locked_codes. pose proof new_recovery_codes.
  intros Nc.
  destruct c; cbn [run_auth]; unfold quietly, with_token, sb_auth_security_issue, sb_auth_security_complete_bound, sb_auth_security_change_role,
    sb_auth_security_verify, sb_auth_security_sessions, sb_auth_security_revoke,
    sb_auth_security_logout, sb_auth_mfa_status, sb_auth_mfa_begin, sb_auth_mfa_confirm, sb_auth_mfa_verify, sb_auth_mfa_disable,
    sb_auth_security_challenge_bound, sb_auth_device_groups, sb_auth_device_group_save, sb_auth_device_group_remove,
    sb_auth_user_scope, sb_auth_user_scope_set, sb_auth_device_allowed; always_steps; auto; try same_codes.
  2-4: assert (N : user0 <> user) by (intros ->; by eapply Nc).
  2: by apply mfa_verify_codes.
  3: by apply new_recovery_codes.
  all: apply always_stmt; intros t ? t' Ht [_ <-]%Ok_inj%pair_inj; by apply K.
Qed.
End Codes.

(** ** Acceptance *)

Section Accept.
Context (env : auth_env).

(** [sqlite3_changes] of using a recovery code. *)
Lemma use_recovery_spec u code now t n t1 :
  use_recovery env u code now t = (n, t1) -> mfa t1 = mfa t /\ recovery_used u (recovery_hash env u code) t1 /\
  (n = 1%nat -> exists c, c ∈ recovery t /\ c_user c = u /\ c_hash c = recovery_hash env u code /\ c_used c = None).
Proof.
  unfold use_recovery, sql_update. intros [= <- <-]. split; [done|]. split.
  - intros c (x & Hx & ->)%In_map_update. destruct (_ && _) eqn:E; [done|]. intros Eu Eh. rewrite Eu, Eh, !bytes_eqb_refl in E.
    cbn [andb] in E. by destruct (c_used x).
  - intros L. destruct (List.filter _ _) as [|c l] eqn:E; [done|]. exists c. assert (Hc : c ∈ c :: l) by left. rewrite <- E in Hc.
    apply filter_In in Hc as [Hc Pc]. bool_facts. split; [done|]. do 2 (split; [by apply bytes_eqb_eq|]). by destruct (c_used c).
Qed.

Lemma accepted_steps u k t : steps_used u k (update_mfa u (accepted_mfa k) t).
Proof.
  intros m (x & Hx & ->)%In_map_update. destruct (bytes_eqb _ _) eqn:E; [cbn; lia|]. intros <-. by rewrite bytes_eqb_refl in E.
Qed.

(** What it takes to be accepted, and what that leaves. *)
Lemma verify_accepts u code s :
  wp (mfa_verify_locked env u code false)
     (fun how s' => exists c, code = Some c /\ accepts env u c (db s) how /\ used env u c how (db s')) no_care s.
Proof.
  unfold mfa_verify_locked. cbv zeta. case_if; [by apply wp_pure|]. apply wp_bind, wp_ask. apply wp_bind, wp_query; [done|]. cbn [db].
  destruct (find_mfa (db s) u) as [m|] eqn:F; [|by apply wp_pure]. destruct (m_secret m) as [encrypted|] eqn:Es; [|by apply wp_pure].
  cbn [andb]. case_if; [by apply wp_pure|]. destruct (negb (sb_auth_sec_token code 128)) eqn:Et.
  { unfold mfa_failed_locked. apply wp_skip. intros. by apply wp_pure. }
  destruct code as [code|]; [|done]. change (default [] (Some code)) with code. apply wp_bind, wp_pure. destruct (sb_auth_sec_decrypt _ _ _) as [secret|] eqn:D; [|done].
  set (now := unix_now env _). destruct (matching_step _ _ _ _ _ _) as [step|] eqn:Ms.
  - apply wp_bind, wp_ret. cbn [negb]. apply wp_bind, wp_stmt; [done|]. apply wp_ret. exists code. split; [done|]. split; [|apply accepted_steps].
    exists m, encrypted, secret. do 3 (split; [done|]). by eapply matching_step_spec.
  - apply wp_bind. apply wp_bind, wp_stmt; [done|]. cbn [db]. destruct (use_recovery env u code now (db s)) as [n t1] eqn:Eu.
    destruct (use_recovery_spec _ _ _ _ _ _ Eu) as (_ & Ru & Rn). apply wp_ret. destruct (n =? 1)%nat eqn:En; cbn [negb].
    + apply wp_bind, wp_stmt; [done|]. apply wp_ret. exists code. split; [done|]. apply Nat.eqb_eq in En. split; [by apply Rn|exact Ru].
    + unfold mfa_failed_locked. apply wp_skip. intros. by apply wp_pure.
Qed.

(** A call that took a code. *)
Lemma call_accepts c s u code :
  code_call env c s = Some (u, code) ->
  wp (run_auth env c) (fun _ s' => exists how, accepts env u code (db s) how /\ used env u code how (db s')) no_care s.
Proof.
  destruct c; cbn [code_call run_auth]; try done.
  - destruct code0 as [code'|]; [|done]. intros [= -> ->]. apply wp_bind.
    eapply (wp_mono _ (fun _ s' => exists how, accepts env u code (db s) how /\ used env u code how (db s')) _ no_care); [|by intros; apply wp_ret|done].
    apply wp_transaction_try; [done|]. apply wp_attempt, wp_bind. eapply wp_mono; [apply verify_accepts|..]; [|by intros].
    intros how s1 (c & [= <-] & A & U). apply wp_ret. split; [by exists how|done].
  - destruct challenge as [ch|]; [|done]. destruct code0 as [code'|]; [|done]. unfold with_token, sb_auth_security_complete_bound. cbv zeta. change (default [] (Some ch)) with ch.
    intros H. apply wp_bind. case_if; [by apply wp_pure|].
    eapply (wp_mono _ (fun _ s' => exists how, accepts env u code (db s) how /\ used env u code how (db s')) _ no_care); [|by intros; apply wp_ret|done].
    apply wp_transaction_try; [done|]. apply wp_bind, wp_ask. apply wp_bind, wp_query; [done|]. cbn [db asked].
    destruct (List.find _ _) as [h|]; [|done]. cbn [mbind option_bind] in H. injection H as <- <-. case_if; [by apply wp_pure|].
    apply wp_bind, wp_attempt. eapply wp_mono; [apply verify_accepts|..]; [|intros; by apply wp_ret].
    intros how s1 (c & [= <-] & A & U). apply wp_bind, wp_stmt; [done|]. apply wp_bind. pose proof (used_property env (h_user h) code' how) as Pu.
    eapply wp_mono; [apply (wp_always (used env (h_user h) code' how)); [by eapply issue_locked_codes|by apply (code_ext _ _ Pu (db s1))]|..]; [|done].
    intros token s2 U2. apply wp_ret. split; [by exists how|done].
Qed.
End Accept.

(** What may happen between: calls, but none that gives the account new codes, and
    rows that other parts of the server delete. *)
Inductive codes_run (env : auth_env) (user : bytes) : conn auth_tables unit -> conn auth_tables unit -> Prop :=
  | codes_done s : codes_run env user s s
  | codes_call env' c s r s1 s2 :
      same_server env env' -> run_auth env' c s = (r, s1) -> (forall code keep, c <> MfaConfirm user code keep) ->
      codes_run env user s1 s2 -> codes_run env user s s2
  | codes_deleted s t s2 :
      (forall m, m ∈ mfa t -> m ∈ mfa (db s)) -> (forall c, c ∈ recovery t -> c ∈ recovery (db s)) ->
      codes_run env user (mk_conn t (mem s) (asked s)) s2 -> codes_run env user s s2.

Lemma run_codes_used env user code how s s2 : codes_run env user s s2 -> used env user code how (db s) -> used env user code how (db s2).
Proof.
  induction 1 as [s|env' c s r s1 s2 Same E N _ IH|s t s2 Hm Hc _ IH]; intros U; [done|..].
  - apply IH. pose proof (call_codes env' user _ (used_property env user code how) c N s U) as H. by rewrite E in H.
  - apply IH. destruct how; intros x Hx; apply U; auto.
Qed.

(** Two acceptances that do not use the same code: a later time step, or another
    recovery code. *)
Definition not_reused (env : auth_env) (user : bytes) (how1 : option Z) (code1 : bytes) (how2 : option Z) (code2 : bytes) : Prop :=
  match how1, how2 with
  | Some k1, Some k2 => k1 < k2
  | None, None => recovery_hash env user code1 <> recovery_hash env user code2
  | _, _ => True
  end.

(** C32: a verification code is good for one use.  When two calls, logins or
    confirmations, accept codes of the same account, and between them no new codes
    were set up, then the second one is for a later time step than the first, or
    uses another recovery code than the first. *)
Theorem codes_single_use env1 c1 s r1 s1 user code1 s2 env2 c2 r2 s3 code2 :
  code_call env1 c1 s = Some (user, code1) -> run_auth env1 c1 s = (Ok r1, s1) ->
  codes_run env1 user s1 s2 -> same_server env1 env2 ->
  code_call env2 c2 s2 = Some (user, code2) -> run_auth env2 c2 s2 = (Ok r2, s3) ->
  exists how1 how2, accepts env1 user code1 (db s) how1 /\ accepts env2 user code2 (db s2) how2 /\
    not_reused env1 user how1 code1 how2 code2.
Proof.
  intros C1 E1 Run Same C2 E2. pose proof (call_accepts env1 c1 s user code1 C1) as W1. pose proof (call_accepts env2 c2 s2 user code2 C2) as W2.
  unfold wp in W1, W2. rewrite E1 in W1. rewrite E2 in W2. destruct W1 as (how1 & A1 & U1), W2 as (how2 & A2 & _).
  exists how1, how2. split; [done|]. split; [done|]. apply (run_codes_used _ _ _ _ _ _ Run) in U1. destruct how1 as [k1|], how2 as [k2|]; cbn; try done.
  - destruct A2 as (m & e & secret & F & Se & _ & L & _). apply find_In in F as [Hm Em]. apply bytes_eqb_eq in Em.
    specialize (U1 m Hm Em ltac:(congruence)). lia.
  - destruct A2 as (c & Hc & Eu & Eh & Ec). intros E. apply (U1 c Hc Eu); [|done]. unfold recovery_hash in *. by rewrite Eh, Same.
Qed.

(** ** An account with codes *)

Definition sample_secret : bytes := bs "ABCDEFGHIJKLMNOP".

Definition sample_envelope : bytes :=
  Eval vm_compute in match fst (sb_auth_sec_encrypt sample_env (mfa_purpose (bs "u2")) sample_secret sample_start) with Ok e => e | Err _ => [] end.

Definition sample_codes : conn auth_tables unit :=
  mk_conn (with_recovery (with_mfa sample_tables [mk_mfa (bs "u2") (Some sample_envelope) None 0 (-1) 0 0])
             [mk_recovery (bs "u2") (recovery_hash sample_env (bs "u2") (bs "spare-code")) None]) tt 0%nat.

Definition sample_code (step : Z) : bytes :=
  match sb_auth_totp_code sample_env (Some sample_secret) (step * 30) 6 with Ok c => c | Err _ => [] end.

(** The code of the current step is accepted once, then the one of the next step
    and the spare code, once each. *)
Lemma codes_single_use_witness :
  let verify code s := run_auth sample_env (MfaVerify (bs "u2") (Some code)) s in
  let s1 := snd (verify (sample_code 33) sample_codes) in
  let s2 := snd (verify (sample_code 33) s1) in
  is_ok (fst (verify (sample_code 33) sample_codes)) = true /\ is_ok (fst (verify (sample_code 33) s1)) = false /\
  is_ok (fst (verify (bs "spare-code") s2)) = true /\ is_ok (fst (verify (bs "spare-code") (snd (verify (bs "spare-code") s2)))) = false /\
  exists how1 how2, accepts sample_env (bs "u2") (sample_code 33) (db sample_codes) how1 /\
    accepts sample_env (bs "u2") (sample_code 34) (db s2) how2 /\
    not_reused sample_env (bs "u2") how1 (sample_code 33) how2 (sample_code 34).
Proof.
  intros verify s1 s2. do 4 (split; [vm_compute; reflexivity|]).
  apply (codes_single_use sample_env (MfaVerify (bs "u2") (Some (sample_code 33))) sample_codes None s1 (bs "u2") (sample_code 33) s2
           sample_env (MfaVerify (bs "u2") (Some (sample_code 34))) None (snd (verify (sample_code 34) s2)) (sample_code 34)).
  - reflexivity.
  - vm_compute. reflexivity.
  - eapply (codes_call _ _ sample_env (MfaVerify (bs "u2") (Some (sample_code 33))));
      [intros p t; reflexivity|apply surjective_pairing|discriminate|apply codes_done].
  - intros p t. reflexivity.
  - reflexivity.
  - vm_compute. reflexivity.
Defined.
