(* ===== verification/AuthGuess.v ===== *)
(** * Guesses of verification codes are limited

    Five refused codes lock an account's verification for five minutes, whichever
    calls they are given to, and whatever other calls come between.  A refusal is
    answered also when the transaction that counts it cannot be committed
    ([uncounted_guess]), so that the count needs checks without failures. *)

From S2P Require Import Prelude Util Json JsonText Auth Sqlite SqliteProofs AuthSecurity AuthPolicy AuthSessions AuthCodes.

(** The answer to a wrong code. *)
Definition wrong_code (e : sb_err) : bool :=
  bool_decide (err_code e = SB_ERR_AUTH) && bytes_eqb (err_msg e) (bs "Invalid or already used verification code").

Definition cost (e : sb_err) : Z := if wrong_code e then 1 else 0.

(** The account of a call that checks a code. *)
Definition guesses (env : auth_env) (c : auth_call) (s : conn auth_tables unit) : option bytes :=
  match c with
  | MfaVerify user _ | MfaConfirm user _ _ => Some user
  | Complete (Some challenge) _ _ _ =>
      h_user <$> List.find (fun h => bytes_eqb (h_hash h) (sb_auth_sec_hash env (bs "login-challenge") challenge) &&
                                     (unix_now env (S (asked s)) <? h_expires h)) (challenges (db s))
  | _ => None
  end.

(** Wrong codes that may still be answered before time [until]. *)
Definition guesses_left (user : bytes) (until : Z) (t : auth_tables) : Z :=
  match find_mfa t user with
  | Some m => if until <=? m_locked_until m then 0 else Z.max 1 (5 - m_failed m)
  | None => 5
  end.

(** ** Errors that are no answers to codes *)

Section Mild.
Context (env : auth_env).

Definition mild {A} (m : auth A) : Prop := forall s, wp m (fun _ _ => True) (fun e _ => cost e = 0) s.

Lemma generic_cost e : err_code e = SB_ERR_GENERIC -> cost e = 0.
Proof. unfold cost, wrong_code. by intros ->. Qed.

Lemma mild_ret {A} (a : A) : mild (mret a).
Proof. done. Qed.
Lemma mild_ask {A} (f : nat -> A) : mild (ask f).
Proof. done. Qed.
Lemma mild_refuse {A} c m : cost (mk_err c (take 1023 (bs m))) = 0 -> mild (refuse c m : auth A).
Proof. by intros H s. Qed.
Lemma mild_bind {A B} (m : auth A) (f : A -> auth B) : mild m -> (forall a, mild (f a)) -> mild (m ≫= f).
Proof. intros Hm Hf s. apply wp_bind. eapply wp_mono; [apply Hm|..]; [|done]. intros a s' _. apply Hf. Qed.
Lemma mild_stmt {A} (f : auth_tables -> result (A * auth_tables)) : (forall t e, f t = Err e -> cost e = 0) -> mild (stmt (fault env) f).
Proof. intros H s. apply wp_stmt; [by intros; apply generic_cost|]. destruct (f (db s)) as [[]|] eqn:E; [done|by eapply H]. Qed.
Lemma mild_query {A} (f : auth_tables -> A) : mild (query (fault env) f).
Proof. by apply mild_stmt. Qed.
Lemma sql_insert_cost {R} (p : R -> bool) r l e : sql_insert p r l = Err e -> cost e = 0.
Proof. unfold sql_insert. case_if; [|done]. by intros [= <-]. Qed.

End Mild.

Create HintDb mild discriminated.
#[export] Hint Resolve mild_ret mild_ask mild_query : mild.

Ltac mild_steps :=
  repeat first
    [ solve [auto with mild nocore]
    | lazymatch goal with
      | |- mild (refuse _ _) => apply mild_refuse; vm_compute; reflexivity
      | |- mild (mbind _ _) => apply mild_bind; [|intros ?]
      | |- mild (stmt _ _) => apply mild_stmt; intros ? ?; try (intros; discriminate)
      | |- mild (match ?x with _ => _ end) => destruct x
      end ].

Section MildCalls.
Context (env : auth_env).

Lemma random_mild n : mild (sb_auth_sec_random env n).
Proof. unfold sb_auth_sec_random. mild_steps. Qed.
Lemma required_user_mild u : mild (required_user_locked env u).
Proof. unfold required_user_locked. mild_steps. Qed.
Lemma revoke_mild u id k : mild (revoke_locked env u id k).
Proof. unfold revoke_locked. mild_steps. Qed.

Hint Resolve random_mild required_user_mild revoke_mild : mild.

Lemma insert_cost {R} (p : R -> bool) r l (f : list R -> auth_tables) e :
  (l0 ← sql_insert p r l; Ok (tt, f l0)) = Err e -> cost e = 0.
Proof. destruct (sql_insert p r l) as [|e'] eqn:E; [done|]. cbn. intros [= <-]. by eapply sql_insert_cost. Qed.

Lemma issue_mild u m l c : mild (issue_locked env u m l c).
Proof. unfold issue_locked. mild_steps. intros H. by eapply insert_cost. Qed.

Lemma new_recovery_mild n u : forall codes, mild (new_recovery env n u codes).
Proof. induction n as [|n IH]; intros codes; cbn [new_recovery]; mild_steps; intros H; by eapply insert_cost. Qed.
End MildCalls.

(** ** The counter *)

Section Counter.
Context (env : auth_env) (user : bytes) (until : Z) (Pu : 0 < until).
Abbreviation left := (guesses_left user until).

Lemma find_update_same g t : (forall m, m_user (g m) = m_user m) -> find_mfa (update_mfa user g t) user = g <$> find_mfa t user.
Proof.
  intros Hg. unfold find_mfa, update_mfa. cbn [mfa with_mfa sql_update fst]. induction (mfa t) as [|m l IH]; [done|].
  cbn [map List.find]. destruct (bytes_eqb (m_user m) user) eqn:E; [by rewrite Hg, E|by rewrite E].
Qed.

Lemma find_update_other u g t : (forall m, m_user (g m) = m_user m) -> u <> user -> find_mfa (update_mfa u g t) user = find_mfa t user.
Proof.
  intros Hg N. unfold find_mfa, update_mfa. cbn [mfa with_mfa sql_update fst]. induction (mfa t) as [|m l IH]; [done|].
  cbn [map List.find]. destruct (bytes_eqb (m_user m) u) eqn:E; [|by rewrite IH]. rewrite Hg. apply bytes_eqb_eq in E.
  destruct (bytes_eqb (m_user m) user) eqn:E'; [apply bytes_eqb_eq in E'; congruence|exact IH].
Qed.

Lemma find_filter_other u t : u <> user ->
  find_mfa (with_mfa t (List.filter (fun m => negb (bytes_eqb (m_user m) u)) (mfa t))) user = find_mfa t user.
Proof.
  intros N. unfold find_mfa. cbn [mfa with_mfa]. induction (mfa t) as [|m l IH]; [done|].
  cbn [List.filter List.find]. destruct (bytes_eqb (m_user m) u) eqn:E; cbn [negb List.find]; [|by rewrite IH].
  apply bytes_eqb_eq in E. destruct (bytes_eqb (m_user m) user) eqn:E'; [apply bytes_eqb_eq in E'; congruence|exact IH].
Qed.

Lemma find_snoc {R} (p : R -> bool) l x :
  List.find p (l ++ [x]) = match List.find p l with Some y => Some y | None => if p x then Some x else None end.
Proof. induction l as [|y l IH]; [done|]. cbn [app List.find]. by destruct (p y). Qed.

Lemma begin_left u e z t : left (begin_mfa u e z t) = left t.
Proof.
  unfold begin_mfa, sql_upsert. destruct (existsb _ _) eqn:Ex.
  - match goal with |- left (with_mfa t (map (fun r => if _ then @?g r else _) _)) = _ => change (left (update_mfa u g t) = left t); set (g0 := g) end.
    unfold guesses_left. destruct (decide (u = user)) as [->|N]; [|by rewrite find_update_other].
    rewrite find_update_same by done. by destruct (find_mfa t user).
  - unfold guesses_left, find_mfa. cbn [mfa with_mfa]. rewrite find_snoc. destruct (List.find _ (mfa t)); [done|].
    cbn. case_if; [|done]. cbn. rewrite leb_false by lia. done.
Qed.

(** A wrong code before [until] takes one of those that are left. *)
Lemma failed_left now m t : until - 300 <= now -> find_mfa t user = Some m -> 0 <= m_failed m -> m_locked_until m <= now -> now < until ->
  left (update_mfa user (failed_mfa now) t) + 1 <= left t.
Proof.
  intros Hn F Hf Hl Hu. unfold guesses_left. rewrite find_update_same, F by done. cbn [fmap option_fmap option_map failed_mfa m_failed m_locked_until].
  unfold MFA_LOCK_SECONDS. rewrite (leb_false until (m_locked_until m)) by lia.
  destruct (4 <=? m_failed m) eqn:E; [rewrite leb_true by lia|rewrite leb_false by lia]; lia.
Qed.

(** No statement but the reset of an acceptance leaves more. *)
Definition counted (n : Z) (t : auth_tables) : Prop := guesses_left user until t <= n /\ forall m, m ∈ mfa t -> 0 <= m_failed m.

Lemma counted_ext n t t' : mfa t' = mfa t -> counted n t -> counted n t'.
Proof. intros E [H P]. split; [|by rewrite E]. unfold guesses_left, find_mfa in *. by rewrite E. Qed.

Lemma counted_update n u g t : (forall m, m_user (g m) = m_user m) -> (forall m, 0 <= m_failed m -> 0 <= m_failed (g m)) -> u <> user ->
  counted n t -> counted n (update_mfa u g t).
Proof.
  intros Hg Hp N [H P]. split; [unfold guesses_left; rewrite find_update_other by done; exact H|].
  intros m (x & Hx & ->)%In_map_update. case_if; [apply Hp|]; by apply P.
Qed.

Lemma counted_begin n u e z t : counted n t -> counted n (begin_mfa u e z t).
Proof.
  intros [H P]. split; [by rewrite begin_left|]. intros m. unfold begin_mfa, sql_upsert. cbn [mfa with_mfa]. case_if.
  - intros (x & Hx & ->)%In_map_update. case_if; by apply (P x).
  - intros [Hm| ->%list_elem_of_singleton]%elem_of_app; [by apply P|done].
Qed.

Lemma counted_filter n u t : u <> user -> counted n t ->
  counted n (with_mfa t (List.filter (fun m => negb (bytes_eqb (m_user m) u)) (mfa t))).
Proof.
  intros N [H P]. split; [unfold guesses_left; by rewrite find_filter_other|]. intros m (Hm & _)%filter_In. by apply P.
Qed.

Lemma failed_nonneg now m : 0 <= m_failed m -> 0 <= m_failed (failed_mfa now m).
Proof. cbn. destruct (4 <=? m_failed m); lia. Qed.

Ltac same_rows := apply always_stmt; intros t ? t' Ht; unfold insert_session, upsert_group, delete_group, sql_insert;
  try case_if; try done; intros [_ <-]%Ok_inj%pair_inj; by apply (counted_ext _ t).

Context (n : Z).

Lemma issue_locked_counted u m l c : always (counted n) (issue_locked env u m l c).
Proof. unfold issue_locked. always_steps; same_rows. Qed.

Lemma revoke_locked_counted u id k : always (counted n) (revoke_locked env u id k).
Proof. unfold revoke_locked. always_steps. same_rows. Qed.

Lemma clear_challenges_counted u : always (counted n) (clear_challenges_locked env u).
Proof. unfold clear_challenges_locked. same_rows. Qed.

Lemma add_group_hosts_counted id l : always (counted n) (add_group_hosts env id l).
Proof. induction l as [|h l IH]; cbn [add_group_hosts]; always_steps; [same_rows|exact IH]. Qed.

Lemma add_grants_counted u l : always (counted n) (add_grants env u l).
Proof. induction l as [|g l IH]; cbn [add_grants]; always_steps; [same_rows|exact IH]. Qed.

Lemma drop_recovery_counted u : always (counted n) (drop_recovery env u).
Proof. unfold drop_recovery. same_rows. Qed.

Lemma new_recovery_counted k u : forall codes, always (counted n) (new_recovery env k u codes).
Proof. induction k as [|k IH]; intros codes; cbn [new_recovery]; [by always_steps|]. always_steps; [same_rows|apply IH]. Qed.

Lemma mfa_verify_other u code pending : u <> user -> always (counted n) (mfa_verify_locked env u code pending).
Proof.
  intros N. unfold mfa_verify_locked, mfa_failed_locked. always_steps; try same_rows.
  all: apply always_stmt; intros t ? t' Ht [_ <-]%Ok_inj%pair_inj; apply counted_update; try done; apply failed_nonneg.
Qed.

Lemma complete_other c code l b s :
  counted n (db s) -> guesses env (Complete c code l b) s <> Some user -> counted n (db (snd (run_auth env (Complete c code l b) s))).
Proof.
  intros Hn G. cbn [run_auth guesses] in *. unfold with_token.
  cut (wp (sb_auth_security_complete_bound env c code l b) (fun _ s' => counted n (db s')) (fun _ s' => counted n (db s')) s).
  { unfold wp, mbind, sql_bind. by destruct (sb_auth_security_complete_bound _ _ _ _ _ s) as [[]]. }
  unfold sb_auth_security_complete_bound. cbv zeta. case_if; [by apply wp_pure|]. destruct c as [c|]; [|done].
  change (default [] (Some c)) with c. apply wp_transaction_try; [done|]. apply wp_bind, wp_ask. apply wp_bind, wp_query; [done|]. cbn [db asked].
  destruct (List.find _ _) as [h|]; [|by apply wp_pure]. cbn in G. case_if; [by apply wp_pure|].
  apply wp_bind, wp_attempt. eapply wp_mono; [apply (wp_always (counted n)); [apply mfa_verify_other; congruence|exact Hn]|..].
  - intros how s1 Hs1. apply wp_bind, wp_stmt; [done|]. apply wp_bind.
    eapply wp_mono; [apply (wp_always (counted n)); [apply issue_locked_counted|by apply (counted_ext _ (db s1))]|..]; [|done].
    intros token s2 Hs2. by apply wp_ret.
  - intros e s1 Hs1. by apply wp_ret.
Qed.

(** Calls that neither check codes of this account nor remove them; logins aside. *)
Definition apart (c : auth_call) : Prop :=
  match c with
  | MfaVerify u _ | MfaConfirm u _ _ | MfaDisable u _ => u <> user
  | Complete _ _ _ _ => False
  | _ => True
  end.

Lemma apart_counted c : apart c -> always (counted n) (run_auth env c).
Proof.
  pose proof revoke_locked_counted. pose proof clear_challenges_counted. pose proof drop_recovery_counted.
  pose proof add_group_hosts_counted. pose proof add_grants_counted. pose proof issue_locked_counted. pose proof new_recovery_counted.
  pose proof mfa_verify_other.
  destruct c; cbn [run_auth apart]; intros N; try done; unfold quietly, with_token, sb_auth_security_issue, sb_auth_security_change_role,
    sb_auth_security_verify, sb_auth_security_sessions, sb_auth_security_revoke,
    sb_auth_security_logout, sb_auth_mfa_status, sb_auth_mfa_begin, sb_auth_mfa_confirm, sb_auth_mfa_verify, sb_auth_mfa_disable,
    sb_auth_security_challenge_bound, sb_auth_device_groups, sb_auth_device_group_save, sb_auth_device_group_remove,
    sb_auth_user_scope, sb_auth_user_scope_set, sb_auth_device_allowed; always_steps; auto; try same_rows.
  all: apply always_stmt; intros t ? t' Ht [_ <-]%Ok_inj%pair_inj.
  - by apply counted_begin.
  - by apply counted_update.
  - by apply counted_filter.
Qed.

Lemma other_call_counted c s : counted n (db s) -> guesses env c s <> Some user -> (forall keep, c <> MfaDisable user keep) ->
  counted n (db (snd (run_auth env c s))).
Proof.
  intros Hn G Nd. destruct c; try (by apply complete_other); apply apart_counted; try done; cbn in *; try congruence. intros ->. by eapply Nd.
Qed.

(** ** Calls that check codes *)

Context (In_window : forall k, until - 300 <= unix_now env k < until) (No_fault : forall k, fault env k = None).

Lemma counted_wrong now m t : until - 300 <= now < until -> find_mfa t user = Some m -> m_locked_until m <= now -> counted n t ->
  counted (n - 1) (update_mfa user (failed_mfa now) t).
Proof.
  intros Hw F Hl [H P]. split.
  - pose proof F as [Hm _]%find_In. pose proof (failed_left now m t ltac:(lia) F (P m Hm) Hl ltac:(lia)). lia.
  - intros x (y & Hy & ->)%In_map_update. case_if; [apply failed_nonneg|]; by apply P.
Qed.

Lemma wp_wrong {A} now m (Q : A -> conn auth_tables unit -> Prop) s :
  until - 300 <= now < until -> find_mfa (db s) user = Some m -> m_locked_until m <= now -> counted n (db s) ->
  wp (mfa_failed_locked env user now) Q (fun e s' => counted (n - cost e) (db s')) s.
Proof.
  intros Hw F Hl H. unfold mfa_failed_locked. apply wp_bind, wp_stmt.
  - intros e Ee. rewrite generic_cost by done. by rewrite Z.sub_0_r.
  - apply wp_pure. by eapply counted_wrong.
Qed.

Lemma counted_mild e t : cost e = 0 -> counted n t -> counted (n - cost e) t.
Proof. intros ->. by rewrite Z.sub_0_r. Qed.

Lemma mfa_verify_counted code pending s : counted n (db s) ->
  wp (mfa_verify_locked env user code pending) (fun _ _ => True) (fun e s' => counted (n - cost e) (db s')) s.
Proof.
  intros Hn. assert (G : forall e, err_code e = SB_ERR_GENERIC -> counted (n - cost e) (db s)) by (intros e Ee; by apply counted_mild; [apply generic_cost|]).
  assert (R : forall B c m (Q : B -> conn auth_tables unit -> Prop) s', db s' = db s -> cost (mk_err c (take 1023 (bs m))) = 0 ->
    wp (refuse c m) Q (fun e s' => counted (n - cost e) (db s')) s').
  { intros B c m Q s' Es Ec. apply wp_pure. apply counted_mild; [done|by rewrite Es]. }
  unfold mfa_verify_locked. cbv zeta. case_if; [by apply R|]. apply wp_bind, wp_ask. apply wp_bind, wp_query; [done|]. cbn [db].
  destruct (find_mfa (db s) user) as [m|] eqn:F; [|by destruct pending; apply R].
  destruct (if pending then m_pending m else m_secret m) as [encrypted|]; [|by destruct pending; apply R].
  case_if; [by destruct pending; apply R|]. destruct (unix_now env _ <? m_locked_until m) eqn:L; [by apply R|]. apply Z.ltb_ge in L.
  case_if; [by eapply wp_wrong|]. apply wp_bind, wp_pure.
  destruct (sb_auth_sec_decrypt _ _ _) as [secret|e] eqn:D.
  2: { apply counted_mild; [|done]. revert D. unfold sb_auth_sec_decrypt. cbv zeta. repeat case_match; intros [= <-]; reflexivity. }
  destruct (matching_step _ _ _ _ _ _) as [step|].
  - apply wp_bind, wp_ret. cbn [negb]. apply wp_bind, wp_stmt; [done|]. by apply wp_ret.
  - destruct pending; apply wp_bind; [apply wp_ret; by eapply wp_wrong|]. apply wp_bind, wp_stmt; [done|]. cbn [db].
    destruct (use_recovery _ _ _ _ _) as [k t1] eqn:Eu. apply use_recovery_spec in Eu as (Em & _). apply wp_ret. case_if.
    + eapply wp_wrong; [done| |done|by apply (counted_ext _ (db s))]. unfold find_mfa. cbn [db]. by rewrite Em.
    + apply wp_bind, wp_stmt; [intros e Ee; apply counted_mild; [by apply generic_cost|by apply (counted_ext _ (db s))]|]. by apply wp_ret.
Qed.

(** Without failures of statements a refusal is committed. *)
Lemma wp_committed {A} (body : auth (result A)) (Q : A -> conn auth_tables unit -> Prop) (E : sb_err -> conn auth_tables unit -> Prop) s :
  wp body (fun r s2 => match r with
                       | Ok a => Q a (mk_conn (db s2) (mem s2) (S (asked s2)))
                       | Err e => E e (mk_conn (db s2) (mem s2) (S (asked s2))) end)
     (fun e s2 => E e (mk_conn (db s) (mem s2) (asked s2))) (mk_conn (db s) (mem s) (S (asked s))) ->
  wp (transaction_try (fault env) body) Q E s.
Proof.
  unfold transaction_try, control, wp, stmt. rewrite No_fault. cbn [db mem asked]. destruct (body _) as [[[a|e]|e] s2]; [| |done]; by rewrite No_fault.
Qed.

Lemma mild_counted {A B} (m : auth A) (f : A -> auth B) (Q : B -> conn auth_tables unit -> Prop) t s :
  counted n t -> mild m -> (forall a s', wp (f a) Q (fun e _ => counted (n - cost e) t) s') ->
  wp (m ≫= f) Q (fun e _ => counted (n - cost e) t) s.
Proof. intros H M Hf. apply wp_bind. eapply wp_mono; [apply M|by intros a s' _|]. intros e s' Ee. by apply counted_mild. Qed.

Lemma wp_last {A B} (m : auth A) (f : A -> B) E s : wp m (fun _ _ => True) E s -> wp (a ← m; mret (f a)) (fun _ _ => True) E s.
Proof. intros H. apply wp_bind. by eapply wp_mono. Qed.

Lemma guess_counted c s : counted n (db s) -> guesses env c s = Some user ->
  wp (run_auth env c) (fun _ _ => True) (fun e s' => counted (n - cost e) (db s')) s.
Proof.
  intros Hn. pose proof (new_recovery_mild env). pose proof (revoke_mild env). pose proof (issue_mild env).
  assert (St : forall (f : auth_tables -> auth_tables), mild (stmt (fault env) (fun t => Ok (tt, f t)))) by (intros f; by apply mild_stmt).
  destruct c; cbn [guesses run_auth]; try done.
  - intros [= ->]. unfold quietly. apply wp_last.
    apply wp_committed. apply wp_bind, wp_attempt. eapply wp_mono; [by apply mfa_verify_counted|..].
    + intros step s1 _. repeat (apply (mild_counted _ _ _ (db s)); [done|first [by auto|apply St]|intros ? ?]). by apply wp_ret.
    + intros e s1 H1'. by apply wp_ret.
  - intros [= ->]. unfold quietly. apply wp_last.
    apply wp_committed. apply wp_attempt, wp_bind. eapply wp_mono; [by apply mfa_verify_counted|by intros; apply wp_ret|]. by intros e s1.
  - destruct challenge as [ch|]; [|done]. intros G. unfold with_token. apply wp_last. unfold sb_auth_security_complete_bound. cbv zeta.
    case_if; [apply wp_pure; by apply counted_mild|]. change (default [] (Some ch)) with ch. apply wp_committed.
    apply wp_bind, wp_ask. apply wp_bind, wp_query; [intros e Ee; apply counted_mild; [by apply generic_cost|done]|]. cbn [db asked].
    destruct (List.find _ _) as [h|]; [|done]. cbn in G. injection G as G. rewrite G. case_if; [apply wp_pure; by apply counted_mild|].
    apply wp_bind, wp_attempt. eapply wp_mono; [by apply mfa_verify_counted|..].
    + intros step s1 _. repeat (apply (mild_counted _ _ _ (db s)); [done|first [by auto|apply St]|intros ? ?]). by apply wp_ret.
    + intros e s1 H1'. by apply wp_ret.
Qed.
End Counter.

(** ** Sequences of calls *)

(** [k] wrong codes of the account within five minutes, none accepted, its codes not
    removed, and no failure of the database in the checks; any other calls, with any
    failures, come between. *)
Inductive guessing (user : bytes) (start : Z) : nat -> conn auth_tables unit -> conn auth_tables unit -> Prop :=
  | guess_done s : guessing user start 0 s s
  | guess_call env c s r s1 k s2 :
      (forall i, start <= unix_now env i < start + 300) -> (guesses env c s = Some user -> forall i, fault env i = None) ->
      run_auth env c s = (r, s1) -> (guesses env c s = Some user -> is_ok r = false) -> (forall keep, c <> MfaDisable user keep) ->
      guessing user start k s1 s2 ->
      guessing user start
        match r with Err e => if bool_decide (guesses env c s = Some user) && wrong_code e then S k else k | Ok _ => k end s s2.

(** C33: guesses are limited.  However codes are tried, in logins, confirmations or
    set-ups and between other calls, within five minutes at most five wrong ones are
    answered before the account's verification is locked, fewer if some were tried
    before, and none while it is locked.  The wrong codes are those since the last
    one that was accepted, which starts the count anew; meanwhile the codes of the
    account are not switched off, which forgets the count, and the database does not
    fail in the calls that check its codes; the other calls may fail in any way. *)
Theorem guesses_limited user start k s s2 :
  0 <= start -> (forall m, m ∈ mfa (db s) -> 0 <= m_failed m) -> guessing user start k s s2 ->
  Z.of_nat k <= guesses_left user (start + 300) (db s) <= 5.
Proof.
  intros Hs Hm Run.
  assert (Le : guesses_left user (start + 300) (db s) <= 5).
  { unfold guesses_left. destruct (find_mfa _ _) as [m|] eqn:F; [|done]. apply find_In in F as [Hi _]. specialize (Hm m Hi). case_match; lia. }
  split; [|done]. cut (forall n, counted user (start + 300) n (db s) -> Z.of_nat k <= n); [intros H; by apply H|]. clear Hm Le.
  induction Run as [s|env c s r s1 k s2 W F E G Nd Run IH]; intros n Co.
  - destruct Co as [Hn P]. revert Hn. unfold guesses_left. destruct (find_mfa _ _); [case_match; lia|lia].
  - assert (W' : forall i, start + 300 - 300 <= unix_now env i < start + 300) by (intros i; specialize (W i); lia).
    destruct (decide (guesses env c s = Some user)) as [Gu|Nu].
    + rewrite bool_decide_eq_true_2 by done. pose proof (guess_counted env user (start + 300) ltac:(lia) n W' (F Gu) c s Co Gu) as Wp. unfold wp in Wp.
      rewrite E in Wp. destruct r as [a|e]; [by specialize (G Gu)|]. apply IH in Wp. unfold cost in Wp. cbn [andb]. destruct (wrong_code e); lia.
    + rewrite bool_decide_eq_false_2 by done. pose proof (other_call_counted env user (start + 300) ltac:(lia) n c s Co Nu Nd) as O.
      rewrite E in O. apply IH in O. by destruct r.
Qed.

(** The sample server within one second. *)
Definition sample_second : auth_env :=
  mk_auth_env (fun _ => None) (fun _ => 1000) (random_bytes sample_env) (uuid_random sample_env) (jwt_secret sample_env) (hmac_sha256 sample_env)
    (hmac_sha1 sample_env) (gcm_encrypt sample_env) (gcm_decrypt sample_env).

(** Six wrong guesses, of which five are answered and the last is refused. *)
Lemma guesses_limited_witness :
  let guess := run_auth sample_second (MfaVerify (bs "u2") (Some (bs "000000"))) in
  let after k := Nat.iter k (fun s => snd (guess s)) sample_codes in
  match fst (guess (after 4%nat)), fst (guess (after 5%nat)) with
  | Err e, Err e' => wrong_code e = true /\ wrong_code e' = false
  | _, _ => False
  end /\ Z.of_nat 2 <= guesses_left (bs "u2") (1000 + 300) (db sample_codes) <= 5.
Proof.
  intros guess after. split; [vm_compute; split; reflexivity|].
  apply (guesses_limited (bs "u2") 1000 2 sample_codes (snd (guess (snd (guess sample_codes))))).
  - lia.
  - intros m ->%list_elem_of_singleton. vm_compute. discriminate.
  - assert (Step : forall k s s2, guessing (bs "u2") 1000 k (snd (guess s)) s2 ->
      match fst (guess s) with Err e => wrong_code e = true | Ok _ => False end -> guessing (bs "u2") 1000 (S k) s s2).
    { intros k s s2 G H. destruct (guess s) as [r s1] eqn:E. destruct r as [a|e]; [done|]. cbn [fst snd] in *.
      pose proof (guess_call (bs "u2") 1000 sample_second (MfaVerify (bs "u2") (Some (bs "000000"))) s (Err e) s1 k s2) as C.
      cbn [guesses] in C. rewrite bool_decide_eq_true_2, H in C by done. apply C; done. }
    apply Step; [|vm_compute; reflexivity]. apply Step; [|vm_compute; reflexivity]. apply guess_done.
Defined.

(** A wrong code whose count cannot be committed: it is answered, but not counted. *)
Example uncounted_guess :
  let env := mk_auth_env (fun n => if (n =? asked sample_codes + 5)%nat then Some (bs "disk I/O error") else None) (fun _ => 1000)
               (random_bytes sample_env) (uuid_random sample_env) (jwt_secret sample_env) (hmac_sha256 sample_env) (hmac_sha1 sample_env)
               (gcm_encrypt sample_env) (gcm_decrypt sample_env) in
  match run_auth env (MfaVerify (bs "u2") (Some (bs "000000"))) sample_codes with
  | (Err e, s') => wrong_code e = true /\ mfa (db s') = mfa (db sample_codes)
  | _ => False
  end.
Proof. vm_compute. repeat split. Qed.
