(* ===== verification/AuthLogin.v ===== *)
(** * Logins

    A session that was issued is accepted until it expires; where codes are set up
    a login needs one. *)

From S2P Require Import Prelude Util Json JsonText JsonUtf8 JsonSafe JsonRound Auth Sqlite SqliteProofs AuthSecurity AuthPolicy AuthSessions AuthCodes AuthGuess.

(** ** Tokens *)

Definition session_header : bytes := bs "eyJhbGciOiJIUzI1NiIsInR5cCI6IkpXVCJ9".

Lemma session_payload_members user username role id now :
  session_payload user username role id now =
  SBJ_OBJECT [(bs "exp", SBJ_INT (now + SESSION_SECONDS)); (bs "iat", SBJ_INT now); (bs "jti", SBJ_STRING (cstr id));
              (bs "role", SBJ_STRING (cstr role)); (bs "sub", SBJ_STRING (cstr user)); (bs "username", SBJ_STRING username)].
Proof. reflexivity. Qed.

Lemma session_payload_printable user username role id now :
  valid_utf8 (cstr user) = true -> valid_utf8 username = true -> valid_utf8 (cstr role) = true -> valid_utf8 (cstr id) = true ->
  0 <= now -> now + SESSION_SECONDS <= INT64_MAX ->
  printable (session_payload user username role id now) = true /\ nests (session_payload user username role id now) SBJ_MAX_DEPTH = true.
Proof.
  intros Vi Vu Vr Vj Hn Hm. rewrite session_payload_members. unfold SESSION_SECONDS, INT64_MAX in *.
  split; [|reflexivity]. unfold printable. rewrite !andb_true_iff. split; [split|reflexivity].
  - apply wf_object. split; [apply keys_sorted_strong; reflexivity|]. rewrite !Forall_cons. cbn [snd sbj_wf].
    unfold in_range, INT64_MIN, INT64_MAX. rewrite !leb_true by lia. repeat (split; [reflexivity|]). constructor.
  - cbn [utf8_clean forallb fst snd]. rewrite Vi, Vu, Vr, Vj. reflexivity.
Qed.

(** The keys of a server: a secret without NUL, digests of 32 bytes. *)
Definition keys_valid (env : auth_env) : Prop :=
  jwt_secret env <> [] /\ no_nul (jwt_secret env) = true /\ forall k m, length (hmac_sha256 env k m) = 32%nat.

Lemma session_token_verifies env user username role id now now' :
  keys_valid env -> valid_utf8 (cstr user) = true -> valid_utf8 username = true -> valid_utf8 (cstr role) = true -> valid_utf8 (cstr id) = true ->
  0 <= now -> now + SESSION_SECONDS <= INT64_MAX -> now' < now + SESSION_SECONDS ->
  sb_auth_verify_token (hmac_sha256 env) (Some (jwt_secret env)) (Some (session_token env (session_payload user username role id now))) now' =
  Some (mk_claims (cstr user) username (cstr role) (now + SESSION_SECONDS) now).
Proof.
  intros (Ns & Nn & L) Vi Vu Vr Vj Hn Hm Hl. pose proof (cstr_no_nul _ Nn) as Cs.
  destruct (session_payload_printable user username role id now) as [Pp Np]; [done..|]. unfold session_token.
  set (payload := session_payload user username role id now) in *.
  assert (Cd : cstr (sbj_dump (Some payload) (-1)) = sbj_dump (Some payload) (-1)) by (apply cstr_no_nul; by apply dump_no_nul).
  pose proof (segment_round payload Pp Np eq_refl) as Sr. rewrite Cd in Sr.
  pose proof (verify_made (hmac_sha256 env) (jwt_secret env) session_header (sb_base64url_encode (sbj_dump (Some payload) (-1)))) as V.
  rewrite Cs in V. rewrite <- !app_assoc.
  etrans; [eapply (V token_header payload)|]; [done|apply L|reflexivity|apply b64url_encode_spec|vm_compute; reflexivity|done|reflexivity|].
  unfold payload. rewrite session_payload_members. unfold claims_of. eval_get. cbn [sbj_is_integer negb orb sbj_as_int default].
  rewrite leb_false by done. by rewrite !cstr_idem.
Qed.

Lemma url_text_ascii s : forallb b64url_char s = true -> ascii_text s.
Proof.
  intros H. rewrite forallb_forall in H. apply Forall_forall. intros c Hc%list_elem_of_In%H. unfold b64url_char, in_range in Hc.
  rewrite !orb_true_iff, !andb_true_iff, !Z.leb_le, !Z.eqb_eq in Hc. lia.
Qed.

(** Random texts are encoded bytes. *)
Lemma random_url env n s : wp (sb_auth_sec_random env n) (fun id s' => db s' = db s /\ cstr id = id /\ valid_utf8 id = true) no_care s.
Proof.
  unfold sb_auth_sec_random. case_if; [by apply wp_pure|]. apply wp_bind, wp_ask. destruct (random_bytes env _ _) as [b|]; [|by apply wp_pure]. apply wp_ret. split; [done|].
  pose proof (b64url_encode_spec b) as [C _]. split; [apply cstr_no_nul; by apply b64url_no_dot|by apply ascii_valid, url_text_ascii].
Qed.

(** ** The new session *)

Lemma recent_head r l :
  (forall x, x ∈ l -> s_created x <= s_created r) -> r ∈ recent_sessions (l ++ [r]).
Proof.
  intros H. unfold recent_sessions, order_by. rewrite reverse_snoc. cbn [foldr].
  set (rest := foldr _ [] (reverse l)).
  assert (Hr : forall x, x ∈ rest -> s_created x <= s_created r).
  { intros x Hx. apply H. assert (P : rest ≡ₚ reverse l) by apply order_by_Permutation. rewrite P, reverse_Permutation in Hx. done. }
  destruct rest as [|x rest]; cbn [order_insert]; [|rewrite leb_true by (apply Hr; left)]; by left.
Qed.

Section Issue.
Context (env : auth_env).

(** Texts of an account as the tables hold them. *)
Definition account_text (a : account_row) : Prop :=
  no_nul (a_id a) = true /\ valid_utf8 (a_id a) = true /\ valid_utf8 (a_username a) = true /\ valid_utf8 (a_role a) = true /\ no_nul (a_role a) = true.

(** The session row of a token, live. *)
Definition session_of (env : auth_env) (user token : bytes) (created : Z) (t : auth_tables) : Prop :=
  exists r, r ∈ sessions t /\ s_token_hash r = sb_auth_sec_hash env (bs "session") token /\ s_user r = user /\
    s_revoked r = None /\ s_expires r = created + SESSION_SECONDS.

Lemma issue_locked_spec user method label completed s :
  (forall i r, r ∈ sessions (db s) -> s_created r <= unix_now env i) ->
  wp (issue_locked env user method label completed)
     (fun token s' => exists a id now, find_account (db s) user = Some a /\ cstr id = id /\ valid_utf8 id = true /\
        token = session_token env (session_payload user (a_username a) (a_role a) id now) /\ (exists i, now = unix_now env i) /\
        session_of env user token now (db s') /\ (mfa_enabled (db s) user = true -> completed = true) /\ accounts (db s') = accounts (db s))
     no_care s.
Proof.
  intros Cl. unfold issue_locked. case_if; [by apply wp_pure|]. apply wp_bind, wp_read; [frames|]. intros _ s1 D1.
  apply wp_bind, wp_query; [done|]. cbn [db]. rewrite D1. destruct (find_account (db s) user) as [a|] eqn:F; [|by apply wp_pure].
  destruct (mfa_enabled (db s) user && negb completed) eqn:G; [by apply wp_pure|]. apply wp_bind.
  eapply wp_mono; [apply random_url|..]; [|done]. intros id s2 (D2 & Ci & Vi). apply wp_bind, wp_ask.
  set (now := unix_now env _). set (token := session_token _ _). apply wp_bind, wp_stmt; [done|]. cbn [db] in *.
  unfold insert_session, sql_insert. case_if; [done|]. cbn [mbind result_bind]. apply wp_bind, wp_stmt; [done|]. apply wp_ret. cbn [db].
  exists a, id, now. split; [done|]. split; [done|]. split; [done|]. split; [done|]. split; [by eexists|]. split; [|split; [|by rewrite D2]].
  2: { intros E1. rewrite E1 in G. by destruct completed. }
  set (r := mk_login _ _ _ _ _ _ _ _ _). exists r. split; [|done]. unfold prune_sessions. cbn [sessions with_sessions]. apply filter_In.
  split; [apply elem_of_app; right; by apply list_elem_of_singleton|]. apply negb_true_iff, orb_false_iff.
  split; [cbn; unfold SESSION_SECONDS; rewrite ltb_false by lia; done|]. cbn [s_user r]. rewrite bytes_eqb_refl. cbn [andb]. apply negb_false_iff, existsb_In.
  exists id. split; [|apply bytes_eqb_refl]. change id with (s_id r). apply list_elem_of_fmap_2. unfold user_sessions. cbn [sessions with_sessions].
  rewrite SqliteProofs.filter_app. cbn [List.filter]. replace (bytes_eqb (s_user r) user) with true by (symmetry; apply bytes_eqb_refl).
  apply recent_head. intros x (Hx & _)%filter_In. rewrite D2 in Hx. by apply Cl.
Qed.
End Issue.

(** Environments with the same keys. *)
Definition same_keys (env env' : auth_env) : Prop := hmac_sha256 env' = hmac_sha256 env /\ jwt_secret env' = jwt_secret env.

Lemma same_keys_hash env env' p t : same_keys env env' -> sb_auth_sec_hash env' p t = sb_auth_sec_hash env p t.
Proof. intros [E1 E2]. unfold sb_auth_sec_hash. by rewrite E1, E2. Qed.

(** A good token whose session is in the table. *)
Lemma verify_works env user token claims a s created :
  (forall i, fault env i = None) -> (forall i, unix_now env i < created + SESSION_SECONDS) -> Z.of_nat (length token) <= 16384 ->
  (forall now, now < created + SESSION_SECONDS ->
     sb_auth_verify_token (hmac_sha256 env) (Some (jwt_secret env)) (Some token) now = Some claims) -> subject claims = user ->
  session_of env user token created (db s) -> find_account (db s) user = Some a ->
  exists s', sb_auth_security_verify env (Some token) s = (Ok (mk_claims user (a_username a) (a_role a) (expires_at claims) (issued_at claims)), s').
Proof.
  intros Nf Tm Ln V Su (r & Hr & Eh & Eu & Er & Ee) F. unfold sb_auth_security_verify. cbv zeta. rewrite ltb_false by done.
  unfold mbind, sql_bind, ask, mret, sql_ret, query, stmt. rewrite V by apply Tm. rewrite !Nf. cbn [db mem asked]. rewrite Su.
  destruct (List.find _ (sessions (db s))) as [r'|] eqn:Fr.
  - apply find_In in Fr as [_ Pr]. unfold session_live in Pr. bool_facts. assert (s_user r' = user) as -> by (by apply bytes_eqb_eq).
    rewrite F. rewrite Nf. by eexists.
  - pose proof (find_none_In _ _ r Fr Hr) as Pr. unfold session_live in Pr. rewrite Eh, Eu, Er, !bytes_eqb_refl in Pr. cbn [andb] in Pr.
    rewrite ltb_true in Pr by (rewrite Ee; apply Tm). apply find_In in F as [Ha Ea]. assert (existsb (fun x => bytes_eqb (a_id x) user) (accounts (db s)) = true) as Ex
      by (apply existsb_In; by exists a). by rewrite Ex in Pr.
Qed.

(** A session that was issued is accepted for three days.  As long as its row is
    in the table, unrevoked, and the account exists, verification accepts the token
    with the name and the role the account then has, whatever calls came between. *)
Theorem issued_session_verifies env user method label s token s1 :
  keys_valid env -> (forall i, 0 <= unix_now env i /\ unix_now env i + SESSION_SECONDS <= INT64_MAX) ->
  (forall i r, r ∈ sessions (db s) -> s_created r <= unix_now env i) -> Forall account_text (accounts (db s)) ->
  sb_auth_security_issue env user method label s = (Ok token, s1) -> Z.of_nat (length token) <= 16384 ->
  exists created, session_of env user token created (db s1) /\
    forall env2 s2 a, same_keys env env2 -> (forall i, fault env2 i = None) -> (forall i, unix_now env2 i < created + SESSION_SECONDS) ->
      session_of env user token created (db s2) -> find_account (db s2) user = Some a ->
      exists s3, sb_auth_security_verify env2 (Some token) s2 =
        (Ok (mk_claims user (a_username a) (a_role a) (created + SESSION_SECONDS) created), s3).
Proof.
  intros Kv Tm Cl At E Ln.
  assert (W : wp (sb_auth_security_issue env user method label) (fun token s' => exists a id now, find_account (db s) user = Some a /\
    cstr id = id /\ valid_utf8 id = true /\ token = session_token env (session_payload user (a_username a) (a_role a) id now) /\
    (exists i, now = unix_now env i) /\ session_of env user token now (db s')) no_care s).
  { apply wp_transaction; [done|]. eapply wp_mono; [by apply issue_locked_spec|..]; [|done].
    intros t s' (a & id & now & F & Ci & Vi & Et & Ei & Se & _). split; [|done]. by exists a, id, now. }
  unfold wp in W. rewrite E in W. destruct W as (a & id & now & F & Ci & Vi & Et & (i & ->) & Se). exists (unix_now env i). split; [done|].
  intros env2 s2 b Sk Nf Tm2 Se2 Fb.
  assert (T : account_text a) by (rewrite Forall_forall in At; apply At; by apply find_In in F as [? _]).
  assert (U : a_id a = user) by (apply find_In in F as [_ H]; by apply bytes_eqb_eq). destruct T as (Nu & Vu & Vn & Vr & Nr). rewrite U in *.
  pose proof (verify_works env2 user token (mk_claims user (a_username a) (a_role a) (unix_now env i + SESSION_SECONDS) (unix_now env i)) b s2 (unix_now env i)) as V.
  apply V; try done.
  - intros now' Hl. destruct Sk as [-> ->]. rewrite Et.
    rewrite session_token_verifies; rewrite ?Ci, ?(cstr_no_nul user), ?(cstr_no_nul (a_role a)) by done; try done; apply Tm.
  - destruct Se2 as (r & Hr & Eh & Rest). exists r. rewrite (same_keys_hash env) by done. done.
Qed.

Definition second_login : result bytes * conn auth_tables unit :=
  Eval vm_compute in sb_auth_security_issue sample_second (bs "u2") (bs "password") None sample_start.

Definition second_token : bytes := Eval vm_compute in match fst second_login with Ok t => t | Err _ => [] end.

(** A session of the sample server, before and after its account got another role
    (and another time of day). *)
Lemma issued_session_verifies_witness :
  let later := mk_conn (with_accounts (db (snd second_login)) [mk_account (bs "u2") (bs "ben") (bs "viewer")]) tt 50%nat in
  exists created, session_of sample_second (bs "u2") second_token created (db (snd second_login)) /\
    exists s3, sb_auth_security_verify sample_second (Some second_token) later =
      (Ok (mk_claims (bs "u2") (bs "ben") (bs "viewer") (created + SESSION_SECONDS) created), s3).
Proof.
  intros later. assert (T : Forall account_text (accounts (db sample_start))) by (repeat constructor).
  destruct (issued_session_verifies sample_second (bs "u2") (bs "password") None sample_start second_token (snd second_login)) as (created & Se & V);
    [| | |exact T|..].
  - split; [discriminate|]. split; [reflexivity|]. intros k m.
    change (length (toy_mac 32 k m) = 32%nat). unfold toy_mac. rewrite length_take, !length_app, length_replicate. lia.
  - intros i. vm_compute. split; discriminate.
  - intros i r Hr. by apply elem_of_nil in Hr.
  - vm_compute. reflexivity.
  - vm_compute. discriminate.
  - exists created. split; [exact Se|]. apply (V sample_second later (mk_account (bs "u2") (bs "ben") (bs "viewer"))).
    + by split.
    + done.
    + intros i. destruct Se as (r & Hr & _ & _ & _ & <-). apply list_elem_of_singleton in Hr as ->. vm_compute. reflexivity.
    + exact Se.
    + reflexivity.
Defined.

(** ** Logins of accounts with codes *)

Section Gate.
Context (env : auth_env).

Lemma issue_gate user method label s : wp (issue_locked env user method label false) (fun _ _ => mfa_enabled (db s) user = false) no_care s.
Proof.
  unfold issue_locked. case_if; [by apply wp_pure|]. apply wp_bind, wp_read; [frames|]. intros _ s1 D1.
  apply wp_bind, wp_query; [done|]. cbn [db]. rewrite D1. destruct (find_account (db s) user) as [a|]; [|by apply wp_pure].
  destruct (mfa_enabled (db s) user); [by apply wp_pure|]. repeat (apply wp_skip; intros ? ?). by apply wp_ret.
Qed.

(** What a completed login went through. *)
Definition challenge_met (challenge : bytes) (code binding : option bytes) (s s' : conn auth_tables unit) : Prop :=
  let hash := sb_auth_sec_hash env (bs "login-challenge") challenge in
  exists h c how, h ∈ challenges (db s) /\ h_hash h = hash /\ unix_now env (S (asked s)) < h_expires h /\
    binding_matches (h_binding h) (sb_auth_sec_hash env (bs "login-binding") <$> binding) = true /\
    code = Some c /\ accepts env (h_user h) c (db s) how /\ used env (h_user h) c how (db s') /\
    (forall h', h' ∈ challenges (db s') -> h_hash h' <> hash).

Lemma complete_gate challenge code label binding s :
  wp (sb_auth_security_complete_bound env (Some challenge) code label binding) (fun _ s' => challenge_met challenge code binding s s') no_care s.
Proof.
  unfold sb_auth_security_complete_bound. cbv zeta. case_if; [by apply wp_pure|]. change (default [] (Some challenge)) with challenge.
  apply wp_transaction_try; [done|]. apply wp_bind, wp_ask. apply wp_bind, wp_query; [done|]. cbn [db asked].
  destruct (List.find _ _) as [h|] eqn:F; [|by apply wp_pure]. apply find_In in F as [Hh Ph]. apply andb_true_iff in Ph as [Eh Th].
  apply bytes_eqb_eq in Eh. apply Z.ltb_lt in Th. destruct (binding_matches _ _) eqn:B; cbn [negb]; [|by apply wp_pure].
  apply wp_bind, wp_attempt. eapply wp_mono; [apply verify_accepts|..]; [|intros; by apply wp_ret].
  intros how s1 (c & -> & A & U). apply wp_bind, wp_stmt; [done|]. apply wp_bind. pose proof (used_property env (h_user h) c how) as Pu.
  set (hash := sb_auth_sec_hash env (bs "login-challenge") challenge) in *.
  set (J := fun t => used env (h_user h) c how t /\ forall h', h' ∈ challenges t -> h_hash h' <> hash).
  eapply wp_mono; [apply (wp_always J)|..]; [| |intros token s2 [U2 N2]; apply wp_ret; split; [|done]|done].
  - apply issue_locked_always. intros t x [Ut Nt]. split; [|exact Nt]. by apply (code_ext _ _ Pu t).
  - split; [by apply (code_ext _ _ Pu (db s1))|]. cbn. intros h' (_ & Ph)%filter_In E. rewrite E, bytes_eqb_refl in Ph. done.
  - by exists h, c, how.
Qed.
End Gate.

(** C34: accounts with codes need one to log in.  A session token only comes from a
    direct login to an account without codes, or from completing a challenge that
    was in the table, not expired, for the same browser, with a code that the
    account accepts; the challenge and the code are then gone. *)
Theorem login_needs_code env c s token s' :
  run_auth env c s = (Ok (Some token), s') ->
  match c with
  | Issue user _ _ => mfa_enabled (db s) user = false
  | Complete (Some challenge) code _ binding => challenge_met env challenge code binding s s'
  | _ => False
  end.
Proof.
  assert (T : forall (m : auth bytes) Q, with_token m s = (Ok (Some token), s') -> wp m Q no_care s -> Q token s').
  { intros m Q. unfold with_token, mbind, sql_bind, mret, sql_ret, wp. destruct (m s) as [[t|e] s1]; [|done]. by intros [= -> ->]. }
  assert (N : forall A (m : auth A), quietly m s = (Ok (Some token), s') -> False).
  { intros A m. unfold quietly, mbind, sql_bind, mret, sql_ret. by destruct (m s) as [[t|e] s1]. }
  destruct c; cbn [run_auth]; try apply N; intros E.
  - apply (T _ (fun _ _ => mfa_enabled (db s) user = false) E). apply wp_transaction; [done|].
    eapply wp_mono; [apply issue_gate|..]; [|done]. intros t s1 H. by split.
  - destruct challenge as [ch|]; [|discriminate]. apply (T _ (fun _ s1 => challenge_met env ch code binding s s1) E), complete_gate.
Qed.

Definition sample_challenge : result bytes * conn auth_tables unit :=
  Eval vm_compute in sb_auth_security_challenge_bound sample_env (bs "u2") (Some (bs "password")) None sample_codes.

Definition challenge_text : bytes := Eval vm_compute in match fst sample_challenge with Ok c => c | Err _ => [] end.

(** A login that is refused without a code and completed with it. *)
Lemma login_needs_code_witness :
  let complete := Complete (Some challenge_text) (Some (sample_code 33)) None None in
  is_ok (fst (run_auth sample_env (Issue (bs "u2") (bs "password") None) sample_codes)) = false /\
  challenge_met sample_env challenge_text (Some (sample_code 33)) None (snd sample_challenge) (snd (run_auth sample_env complete (snd sample_challenge))).
Proof.
  intros complete. split; [vm_compute; reflexivity|].
  set (token := match fst (run_auth sample_env complete (snd sample_challenge)) with Ok (Some t) => t | _ => [] end).
  apply (login_needs_code sample_env complete (snd sample_challenge) token (snd (run_auth sample_env complete (snd sample_challenge)))).
  vm_compute. reflexivity.
Defined.
