(* ===== verification/ProxyTables.v ===== *)
(** * Tables of the proxy users ([migrations/018_proxy_users.sql])

    The rows of the tables, in the order of insertion, and what the SQL statements
    of [c/src/proxy_users.c] select and change.  Primary keys and UNIQUE columns
    are enforced where rows are inserted; the CHECK constraints repeat what the
    callers validate.  Of the [hosts] table only the two columns that are read
    appear.  Text is compared bytewise ([BINARY] collation). *)

From S2P Require Import Prelude Util Json Sqlite.

Record user_row := mk_user {
  u_id : bytes; u_name : bytes; u_enabled : bool; u_deleted : bool; u_quota : Z; u_expires : Z;
  u_max_devices : Z; u_epoch : Z; u_not_before : Z; u_claim_hash : option bytes; u_created : Z; u_updated : Z }.

Record device_row := mk_device {
  d_id : bytes; d_user : bytes; d_name : bytes; d_enabled : bool; d_password : bytes; d_token_hash : bytes;
  d_expires : Z; d_created : Z; d_revoked : option Z }.

Record lease_row := mk_lease {
  l_id : bytes; l_user : bytes; l_host : bytes; l_boot : bytes; l_epoch : Z; l_grant : Z; l_used : Z;
  l_expires : Z; l_updated : Z }.

Record ingress_row := mk_ingress {
  n_host : bytes; n_enabled : bool; n_server : bytes; n_listen : bytes; n_port : Z; n_key : bytes; n_updated : Z }.

Record report_row := mk_report { r_host : bytes; r_supported : bool; r_observed : Z }.

Record session_row := mk_session {
  s_host : bytes; s_boot : bytes; s_seq : Z; s_hash : bytes; s_response : bytes; s_updated : Z }.

Record tables := mk_tables {
  hosts : list (bytes * bool); users : list user_row; user_nodes : list (bytes * bytes);
  devices : list device_row; leases : list lease_row; ingress : list ingress_row;
  reports : list report_row; sessions : list session_row }.

Definition with_users (t : tables) (x : list user_row) : tables :=
  mk_tables (hosts t) x (user_nodes t) (devices t) (leases t) (ingress t) (reports t) (sessions t).
Definition with_nodes (t : tables) (x : list (bytes * bytes)) : tables :=
  mk_tables (hosts t) (users t) x (devices t) (leases t) (ingress t) (reports t) (sessions t).
Definition with_devices (t : tables) (x : list device_row) : tables :=
  mk_tables (hosts t) (users t) (user_nodes t) x (leases t) (ingress t) (reports t) (sessions t).
Definition with_leases (t : tables) (x : list lease_row) : tables :=
  mk_tables (hosts t) (users t) (user_nodes t) (devices t) x (ingress t) (reports t) (sessions t).
Definition with_ingress (t : tables) (x : list ingress_row) : tables :=
  mk_tables (hosts t) (users t) (user_nodes t) (devices t) (leases t) x (reports t) (sessions t).
Definition with_reports (t : tables) (x : list report_row) : tables :=
  mk_tables (hosts t) (users t) (user_nodes t) (devices t) (leases t) (ingress t) x (sessions t).
Definition with_sessions (t : tables) (x : list session_row) : tables :=
  mk_tables (hosts t) (users t) (user_nodes t) (devices t) (leases t) (ingress t) (reports t) x.

(** ** Conditions of the statements *)

(** [expires_at=0 OR expires_at>now]. *)
Definition unexpired (expires now : Z) : bool := (expires =? 0) || (now <? expires).

Definition user_is (id : bytes) (u : user_row) : bool := bytes_eqb (u_id u) id && negb (u_deleted u).

Definition find_user (t : tables) (id : bytes) : option user_row := List.find (user_is id) (users t).

Definition in_epoch (user : bytes) (epoch : Z) (l : lease_row) : bool :=
  bytes_eqb (l_user l) user && (l_epoch l =? epoch).

Definition epoch_leases (t : tables) (user : bytes) (epoch : Z) : list lease_row :=
  List.filter (in_epoch user epoch) (leases t).

Definition device_active (user : bytes) (now : Z) (d : device_row) : bool :=
  bytes_eqb (d_user d) user && d_enabled d && unexpired (d_expires d) now.

Definition active_devices (t : tables) (user : bytes) (now : Z) : list device_row :=
  List.filter (device_active user now) (devices t).

Definition find_ingress (t : tables) (host : bytes) : option ingress_row :=
  List.find (fun n => bytes_eqb (n_host n) host) (ingress t).

Definition find_report (t : tables) (host : bytes) : option report_row :=
  List.find (fun r => bytes_eqb (r_host r) host) (reports t).

Definition host_enabled (t : tables) (host : bytes) : bool :=
  existsb (fun h => bytes_eqb (fst h) host && snd h) (hosts t).

(** The join of bindings, enabled ingress nodes, enabled hosts and fresh reports
    of support. *)
Definition ready_nodes (t : tables) (user : bytes) (from now : Z) : list ingress_row :=
  omap (fun b =>
    match find_ingress t (snd b), find_report t (snd b) with
    | Some n, Some r =>
        if bytes_eqb (fst b) user && n_enabled n && host_enabled t (n_host n) && r_supported r &&
           (from <=? r_observed r) && (r_observed r <=? now)
        then Some n else None
    | _, _ => None
    end) (user_nodes t).

(** [MAX(expires_at)] of the leases of a user, [NULL] without any. *)
Definition last_expiry (t : tables) (user : bytes) : option Z :=
  foldr (fun l m => if bytes_eqb (l_user l) user
                    then Some (match m with Some x => Z.max (l_expires l) x | None => l_expires l end) else m)
        None (leases t).
