(* ===== verification/ProxyUsers.v ===== *)
(** * Proxy users, devices and ingress nodes ([c/src/proxy_users.c])

    The administration of proxy users on the tables of [ProxyTables].  A call
    holds the database lock from its first to its last statement.  The process
    memory is the clock of [ProxyClock].  Random bytes, clock readings, SHA-256 and
    [inet_pton] come from outside and are the fields of [environment];
    [sb_uuid_v4] aborts the program without random bytes, so its bytes are always
    there.  Leases are in [ProxyLease]. *)

From S2P Require Import Prelude Util Json JsonText Types ProxyClock Sqlite ProxyTables.

Definition SAFE_INTEGER : Z := 9007199254740991.
Definition GRANT_CHUNK : Z := 67108864.
Definition LEASE_SECONDS : Z := 60.
Definition METHOD : bytes := bs "2022-blake3-aes-128-gcm".
Definition RUNTIME_FRESH_SECONDS : Z := 180.

Record environment := mk_env {
  fault : nat -> option bytes;
  clock_reading : nat -> Z;
  unix_now : nat -> Z;
  uuid_random : nat -> list Z;
  random_bytes : nat -> nat -> option bytes;
  sha256 : bytes -> bytes;
  inet_pton4 : bytes -> bool;
  inet_pton6 : bytes -> bool }.

Abbreviation proc := (sql tables (option sb_proxy_clock)).

(** ** Validation *)

Definition text_byte_ok (identifier : bool) (b : ascii) : bool :=
  let c := code b in
  negb ((c <? 32) || (c =? 127) ||
        (identifier && negb (in_range 97 122 c || in_range 65 90 c || in_range 48 57 c || (c =? 45) || (c =? 95)))).

Definition text_ok (v : option sbj) (limit : nat) (identifier : bool) : bool :=
  match v with
  | Some (SBJ_STRING s) =>
      negb (length s =? 0)%nat && (length s <=? limit)%nat && is_ok (sbj_validate_utf8 (SBJ_STRING s)) &&
      forallb (text_byte_ok identifier) s
  | _ => false
  end.

Definition number_ok (body : option sbj) (key : string) (low high : Z) : bool :=
  match sbj_get body key with Some (SBJ_INT i) => (low <=? i) && (i <=? high) | _ => false end.

(** A C string read from a JSON member. *)
Definition member_text (body : option sbj) (key : string) : bytes :=
  cstr (default [] (sbj_get_str body key (Some []))).

Section Env.
Context (env : environment).
Abbreviation stmt := (stmt (fault env)).
Abbreviation query := (query (fault env)).
Abbreviation for_rows := (for_rows (fault env)).
Abbreviation transaction := (transaction (fault env)).

Definition sb_sha256_hex (data : bytes) : bytes := sb_hex_encode (sha256 env data).

Definition new_uuid : proc bytes := ask (fun n => sb_uuid_v4 (uuid_random env n)).

Definition new_secret (base64 : bool) : proc bytes :=
  let size := if base64 then 16%nat else 32%nat in
  raw ← ask (fun n => random_bytes env n size);
  match raw with
  | None => pure (sb_fail SB_ERR_GENERIC (bs "Secure random generation failed"))
  | Some raw => mret (if base64 then sb_base64_encode raw else sb_base64url_encode raw)
  end.

Definition proxy_wait (user : bytes) (epoch : Z) : proc Z :=
  on_memory (fun clock n => sb_proxy_clock_wait_ms clock user epoch (clock_reading env n)).

Definition proxy_reset (user : bytes) (epoch : Z) : proc unit :=
  on_memory (fun clock n => (tt, sb_proxy_clock_reset_epoch clock user epoch (clock_reading env n))).

(** ** Runtime reports *)

Fixpoint capabilities_supported (l : list sbj) (supported : bool) : result bool :=
  match l with
  | [] => Ok supported
  | c :: l' =>
      if negb (text_ok (Some c) 128 true) then sb_fail SB_ERR_VALIDATION (bs "Invalid runtime capability")
      else capabilities_supported l' (supported || sbj_string_is (Some c) "proxy_users_v1")
  end.

Definition sb_proxy_runtime_report (host_id : bytes) (capabilities : option sbj) (now : Z) : proc unit :=
  supported ← pure
    (if sbj_is_null capabilities then Ok false
     else match capabilities with
          | Some (SBJ_ARRAY l) =>
              if (64 <? length l)%nat
              then sb_fail SB_ERR_VALIDATION (bs "Runtime capabilities must be an array of at most 64 identifiers")
              else capabilities_supported l false
          | _ => sb_fail SB_ERR_VALIDATION (bs "Runtime capabilities must be an array of at most 64 identifiers")
          end);
  changes ← stmt (fun t =>
    Ok (if host_enabled t host_id
        then (1%nat, with_reports t
                (sql_upsert (fun r => bytes_eqb (r_host r) host_id) (fun r => mk_report (r_host r) supported now)
                   (mk_report host_id supported now) (reports t)))
        else (0%nat, t)));
  if (changes =? 1)%nat then mret tt
  else pure (sb_fail SB_ERR_AUTH (bs "Runtime host is unknown or disabled")).

(** Whether the host is ready, and when it was seen. *)
Definition runtime_ready (host : bytes) (now : Z) : proc (bool * Z) :=
  row ← query (fun t => find_report t host);
  mret match row with
       | Some r => (r_supported r && (now - RUNTIME_FRESH_SECONDS <=? r_observed r) && (r_observed r <=? now), r_observed r)
       | None => (false, 0)
       end.

(** ** Users *)

Definition device_json (policy : bool) (d : device_row) : sbj :=
  let o := sbj_set_str (SBJ_OBJECT []) "id" (d_id d) in
  let o := sbj_set_int o "expires_at" (d_expires d) in
  if policy then sbj_set_str o "password" (d_password d)
  else
    let o := sbj_set_str o "name" (d_name d) in
    let o := sbj_set_bool o "enabled" (d_enabled d) in
    sbj_set_int o "created_at" (d_created d).

Definition device_rows (t : tables) (id : bytes) (policy : bool) (now : Z) : list device_row :=
  if policy then order_by (fun a b => text_le (d_id a) (d_id b)) (active_devices t id now)
  else order_by (fun a b => time_text_le (d_created a, d_id a) (d_created b, d_id b))
         (List.filter (fun d => bytes_eqb (d_user d) id) (devices t)).

Definition devices_locked (id : bytes) (policy : bool) (now : Z) : proc sbj :=
  rows ← query (fun t => device_rows t id policy now);
  for_rows rows (fun d out => mret (sbj_arr_push out (Some (device_json policy d)))) (SBJ_ARRAY []).

(** The row of a user with the bytes granted and used in its epoch. *)
Definition user_totals (t : tables) (id : bytes) : result (option (user_row * Z * Z) * tables) :=
  match find_user t id with
  | None => Ok (None, t)
  | Some u =>
      allocated ← sql_sum l_grant (epoch_leases t (u_id u) (u_epoch u));
      reported ← sql_sum l_used (epoch_leases t (u_id u) (u_epoch u));
      Ok (Some (u, allocated, reported), t)
  end.

Definition user_json (u : user_row) (allocated reported wait_ms : Z) : sbj :=
  let o := sbj_set_str (SBJ_OBJECT []) "id" (u_id u) in
  let o := sbj_set_str o "name" (u_name u) in
  let o := sbj_set_bool o "enabled" (u_enabled u) in
  let o := sbj_set_int o "quota_bytes" (u_quota u) in
  let o := sbj_set_int o "expires_at" (u_expires u) in
  let o := sbj_set_int o "max_devices" (u_max_devices u) in
  let o := sbj_set_int o "epoch" (u_epoch u) in
  let o := sbj_set_int o "not_before" (u_not_before u) in
  let o := sbj_set_int o "created_at" (u_created u) in
  let o := sbj_set_int o "updated_at" (u_updated u) in
  let o := sbj_set_int o "allocated_bytes" allocated in
  let o := sbj_set_int o "reported_bytes" reported in
  sbj_set_int o "lease_wait_seconds" ((wait_ms + 999) / 1000).

Definition bound_hosts (t : tables) (id : bytes) : list bytes :=
  order_by text_le (snd <$> List.filter (fun b => bytes_eqb (fst b) id) (user_nodes t)).

Definition user_locked (id : bytes) : proc sbj :=
  row ← stmt (fun t => user_totals t id);
  match row with
  | None => pure (sb_fail SB_ERR_NOT_FOUND (bs "Proxy user not found"))
  | Some (u, allocated, reported) =>
      wait_ms ← proxy_wait id (u_epoch u);
      let out := user_json u allocated reported wait_ms in
      rows ← query (fun t => bound_hosts t id);
      hosts ← for_rows rows (fun h l => mret (sbj_arr_push l (Some (sbj_str (Some h))))) (SBJ_ARRAY []);
      let out := sbj_set out "host_ids" hosts in
      devices ← devices_locked id false 0;
      mret (sbj_set out "devices" devices)
  end.

Definition sb_proxy_user_get (id : bytes) : proc sbj := user_locked id.

Definition sb_proxy_users_list : proc sbj :=
  rows ← query (fun t => u_id <$> order_by (fun a b => time_text_le (u_created a, u_id a) (u_created b, u_id b))
                                 (List.filter (fun u => negb (u_deleted u)) (users t)));
  for_rows rows (fun id out => u ← user_locked id; mret (sbj_arr_push out (Some u))) (SBJ_ARRAY []).

(** ** Saving a user *)

Fixpoint hosts_valid (seen l : list sbj) : result unit :=
  match l with
  | [] => Ok tt
  | h :: l' =>
      if negb (text_ok (Some h) 128 true) then sb_fail SB_ERR_VALIDATION (bs "Invalid proxy host ID")
      else if existsb (fun g => sbj_equal (Some h) (Some g)) seen
      then sb_fail SB_ERR_VALIDATION (bs "Duplicate proxy host ID")
      else hosts_valid (seen ++ [h]) l'
  end.

Definition user_body_valid (body : option sbj) : result unit :=
  if negb (sbj_is_object body) || negb (sbj_obj_len body =? 6)%nat ||
     negb (text_ok (sbj_get body "name") 128 false) || negb (sbj_is_bool (sbj_get body "enabled")) ||
     negb (number_ok body "quota_bytes" 0 SAFE_INTEGER) || negb (number_ok body "expires_at" 0 4102444800) ||
     negb (number_ok body "max_devices" 1 32) || negb (sbj_is_array (sbj_get body "host_ids")) ||
     (32 <? sbj_arr_len (sbj_get body "host_ids"))%nat
  then sb_fail SB_ERR_VALIDATION
         (bs "Proxy user requires name, enabled, quota_bytes, expires_at, max_devices and up to 32 host_ids")
  else hosts_valid [] (arr_items (sbj_get body "host_ids")).

(** Devices of the JSON of a user that count against the limit. *)
Definition active_count (devices : option sbj) (now : Z) : nat :=
  length (List.filter (fun d =>
    sbj_get_bool (Some d) "enabled" false &&
    ((sbj_get_int (Some d) "expires_at" 0 =? 0) || (now <? sbj_get_int (Some d) "expires_at" 0)))
    (arr_items devices)).

(** The checks on a user that exists, and on a new one. *)
Definition check_update (id : bytes) (body : option sbj) (now : Z) : proc unit :=
  old ← user_locked id;
  let active := active_count (sbj_get (Some old) "devices") now in
  let quota := sbj_get_int body "quota_bytes" 0 in
  if (negb (quota =? 0) && (quota <? sbj_get_int (Some old) "allocated_bytes" 0)) ||
     (sbj_get_int body "max_devices" 1 <? Z.of_nat active)
  then pure (sb_fail SB_ERR_CONFLICT
         (bs "Quota cannot fall below allocated bytes; reset the period first. Revoke devices before " ++
          bs "reducing the device limit."))
  else mret tt.

Definition check_room : proc unit :=
  n ← query (fun t => length (List.filter (fun u => negb (u_deleted u)) (users t)));
  if (n <? 256)%nat then mret tt
  else pure (sb_fail SB_ERR_CONFLICT (bs "At most 256 active proxy users are supported")).

Fixpoint check_ingress (hosts : list bytes) : proc unit :=
  match hosts with
  | [] => mret tt
  | h :: hosts' =>
      row ← query (fun t => find_ingress t h);
      match row with
      | None => pure (sb_fail SB_ERR_VALIDATION (bs "Configure the proxy ingress node before binding a user"))
      | Some _ => check_ingress hosts'
      end
  end.

(** The row of a user that is created, and of one that is changed. *)
Definition new_user (id : bytes) (body : option sbj) (now : Z) : user_row :=
  mk_user id (member_text body "name") (sbj_get_bool body "enabled" true) false (sbj_get_int body "quota_bytes" 0)
    (sbj_get_int body "expires_at" 0) (sbj_get_int body "max_devices" 3) 1 0 None now now.

Definition saved_user (body : option sbj) (now : Z) (u : user_row) : user_row :=
  mk_user (u_id u) (member_text body "name") (sbj_get_bool body "enabled" true) (u_deleted u)
    (sbj_get_int body "quota_bytes" 0) (sbj_get_int body "expires_at" 0) (sbj_get_int body "max_devices" 3) (u_epoch u)
    (u_not_before u) (u_claim_hash u) (u_created u) now.

(** [INSERT INTO proxy_users ... ON CONFLICT(id) DO UPDATE]. *)
Definition upsert_user (id : bytes) (body : option sbj) (now : Z) (t : tables) : tables :=
  with_users t (sql_upsert (fun u => bytes_eqb (u_id u) id) (saved_user body now) (new_user id body now) (users t)).

Fixpoint bind_hosts (id : bytes) (hosts : list bytes) : proc unit :=
  match hosts with
  | [] => mret tt
  | h :: hosts' =>
      _ ← stmt (fun t =>
        l ← sql_insert (fun b => bytes_eqb (fst b) id && bytes_eqb (snd b) h) (id, h) (user_nodes t);
        Ok (tt, with_nodes t l));
      bind_hosts id hosts'
  end.

Definition body_hosts (body : option sbj) : list bytes :=
  (fun h => cstr (default [] (sbj_as_str (Some h) (Some [])))) <$> arr_items (sbj_get body "host_ids").

(** The statements of the transaction. *)
Definition save_locked (id : bytes) (generated : bool) (body : option sbj) (now : Z) : proc sbj :=
  _ ← if generated then check_room else check_update id body now;
  _ ← check_ingress (body_hosts body);
  _ ← stmt (fun t => Ok (tt, upsert_user id body now t));
  _ ← stmt (fun t => Ok (tt, with_nodes t (List.filter (fun b => negb (bytes_eqb (fst b) id)) (user_nodes t))));
  _ ← bind_hosts id (body_hosts body);
  user_locked id.

Definition sb_proxy_user_save (id : option bytes) (body : option sbj) (now : Z) : proc sbj :=
  _ ← pure (user_body_valid body);
  match id with
  | Some id => transaction (save_locked id false body now)
  | None => id ← new_uuid; transaction (save_locked id true body now)
  end.

(** ** Removing and resetting *)

Definition sb_proxy_user_remove (id : bytes) (now : Z) : proc unit :=
  transaction
    (changes ← stmt (fun t =>
       let (l, n) := sql_update (user_is id)
         (fun u => mk_user (u_id u) (u_name u) false true (u_quota u) (u_expires u) (u_max_devices u) (u_epoch u)
                     (u_not_before u) None (u_created u) now) (users t) in
       Ok (n, with_users t l));
     if negb (changes =? 1)%nat then pure (sb_fail SB_ERR_NOT_FOUND (bs "Proxy user not found"))
     else stmt (fun t =>
       Ok (tt, with_devices t (fst (sql_update (fun d => bytes_eqb (d_user d) id)
                 (fun d => mk_device (d_id d) (d_user d) (d_name d) false (d_password d) (d_token_hash d) (d_expires d)
                             (d_created d) (d_revoked d)) (devices t)))))).

Definition next_period (now : Z) (t : tables) (u : user_row) : user_row :=
  mk_user (u_id u) (u_name u) (u_enabled u) (u_deleted u) (u_quota u) (u_expires u) (u_max_devices u) (u_epoch u + 1)
    (Z.max (now + LEASE_SECONDS) (default 0 (last_expiry t (u_id u)))) (u_claim_hash u) (u_created u) now.

Definition reset_user (id : bytes) (now : Z) (t : tables) : nat * tables :=
  let (l, n) := sql_update (fun u => user_is id u && (u_epoch u <? SAFE_INTEGER)) (next_period now t) (users t) in
  (n, with_users t l).

Definition sb_proxy_user_reset (id : bytes) (now : Z) : proc sbj :=
  if (now <? 1) || (4102444740 <? now) then pure (sb_fail SB_ERR_VALIDATION (bs "Invalid proxy reset time"))
  else transaction
    (changes ← stmt (fun t => Ok (reset_user id now t));
     if negb (changes =? 1)%nat then pure (sb_fail SB_ERR_NOT_FOUND (bs "Proxy user not found"))
     else
       out ← user_locked id;
       _ ← proxy_reset id (sbj_get_int (Some out) "epoch" 0);
       mret (sbj_set_int out "lease_wait_seconds" LEASE_SECONDS)).

(** ** Claim tokens *)

Definition sb_proxy_claim_rotate (id : bytes) (now : Z) : proc sbj :=
  token ← new_secret false;
  let hash := sb_sha256_hex token in
  changes ← stmt (fun t =>
    if existsb (user_is id) (users t) &&
       existsb (fun u => negb (user_is id u) && bool_decide (u_claim_hash u = Some hash)) (users t)
    then sbq_fail (bs "UNIQUE constraint failed")
    else
      let (l, n) := sql_update (user_is id)
        (fun u => mk_user (u_id u) (u_name u) (u_enabled u) (u_deleted u) (u_quota u) (u_expires u) (u_max_devices u)
                    (u_epoch u) (u_not_before u) (Some hash) (u_created u) now) (users t) in
      Ok (n, with_users t l));
  if (changes =? 1)%nat then mret (sbj_set_str (SBJ_OBJECT []) "claim_token" token)
  else pure (sb_fail SB_ERR_NOT_FOUND (bs "Proxy user not found")).

Definition sb_proxy_claim_resolve (token : option bytes) (now : Z) : proc bytes :=
  match token with
  | Some token =>
      if negb (length token =? 43)%nat then pure (sb_fail SB_ERR_AUTH (bs "Invalid proxy claim token"))
      else
        row ← query (fun t => List.find (fun u => bool_decide (u_claim_hash u = Some (sb_sha256_hex token)) &&
                       negb (u_deleted u) && u_enabled u && unexpired (u_expires u) now) (users t));
        match row with
        | Some u => mret (u_id u)
        | None => pure (sb_fail SB_ERR_AUTH (bs "Invalid or expired proxy claim token"))
        end
  | None => pure (sb_fail SB_ERR_AUTH (bs "Invalid proxy claim token"))
  end.

(** ** Devices *)

Definition device_body_valid (body : option sbj) (now : Z) : bool :=
  let has_expiry := sbj_has body "expires_at" in
  let expires := sbj_get_int body "expires_at" 0 in
  sbj_is_object body && (sbj_obj_len body =? (if has_expiry then 2 else 1))%nat &&
  text_ok (sbj_get body "name") 128 false && (negb has_expiry || number_ok body "expires_at" 0 4102444800) &&
  ((expires =? 0) || (now <? expires)).

Definition sb_proxy_device_create (user_id : bytes) (body : option sbj) (now : Z) : proc sbj :=
  if negb (device_body_valid body now)
  then pure (sb_fail SB_ERR_VALIDATION
         (bs "Device requires a name and an optional future expires_at (0 means no device expiry)"))
  else
    id ← new_uuid;
    password ← new_secret true;
    token ← new_secret false;
    let name := member_text body "name" in
    let expires := sbj_get_int body "expires_at" 0 in
    let hash := sb_sha256_hex token in
    _ ← transaction
      (row ← query (fun t =>
         match List.find (fun u => user_is user_id u && u_enabled u && unexpired (u_expires u) now) (users t) with
         | Some u => Some (u_max_devices u, Z.of_nat (length (active_devices t (u_id u) now)))
         | None => None
         end);
       match row with
       | None => pure (sb_fail SB_ERR_FORBIDDEN (bs "Proxy user is disabled or expired"))
       | Some (max_devices, count) =>
           if negb (count <? max_devices) then pure (sb_fail SB_ERR_CONFLICT (bs "Proxy device limit reached"))
           else stmt (fun t =>
             l ← sql_insert (fun d => bytes_eqb (d_id d) id || bytes_eqb (d_token_hash d) hash)
                   (mk_device id user_id name true password hash expires now None) (devices t);
             Ok (tt, with_devices t l))
       end);
    mret
      (let o := sbj_set_str (SBJ_OBJECT []) "id" id in
       let o := sbj_set_str o "name" name in
       let o := sbj_set_str o "subscription_token" token in
       sbj_set_int o "expires_at" expires).

Definition sb_proxy_device_revoke (user_id device_id : bytes) (now : Z) : proc unit :=
  changes ← stmt (fun t =>
    let (l, n) := sql_update (fun d => bytes_eqb (d_id d) device_id && bytes_eqb (d_user d) user_id)
      (fun d => mk_device (d_id d) (d_user d) (d_name d) false (d_password d) (d_token_hash d) (d_expires d)
                  (d_created d) (Some now)) (devices t) in
    Ok (n, with_devices t l));
  if (changes =? 1)%nat then mret tt else pure (sb_fail SB_ERR_NOT_FOUND (bs "Proxy device not found")).

(** ** Ingress nodes *)

(** The labels of a host name: the length of the current label and whether its
    last byte is a hyphen. *)
Fixpoint host_labels (s : bytes) (label : nat) (last_dash : bool) : bool :=
  match s with
  | [] => negb (label =? 0)%nat && negb last_dash
  | b :: s' =>
      let c := code b in
      if c =? 46 then if (label =? 0)%nat || last_dash then false else host_labels s' 0 last_dash
      else if negb (in_range 97 122 c || in_range 65 90 c || in_range 48 57 c || (c =? 45)) ||
              ((label =? 0)%nat && (c =? 45)) || (63 <? S label)%nat then false
      else host_labels s' (S label) (c =? 45)
  end.

Definition server_name (v : option sbj) : bool :=
  text_ok v 253 false &&
  match v with
  | Some (SBJ_STRING s) => inet_pton4 env (cstr s) || inet_pton6 env (cstr s) || host_labels s 0 false
  | _ => false
  end.

Definition node_json (policy : bool) (n : ingress_row) : sbj :=
  let o := sbj_set_str (SBJ_OBJECT []) "listen" (n_listen n) in
  let o := sbj_set_int o "listen_port" (n_port n) in
  if policy then sbj_set_str (sbj_set_str o "method" METHOD) "password" (n_key n)
  else
    let o := sbj_set_str o "host_id" (n_host n) in
    let o := sbj_set_bool o "enabled" (n_enabled n) in
    let o := sbj_set_str o "server" (n_server n) in
    sbj_set_int o "updated_at" (n_updated n).

Definition node_locked (host_id : bytes) (policy : bool) (now : Z) : proc sbj :=
  row ← query (fun t => find_ingress t host_id);
  match row with
  | None => pure (sb_fail SB_ERR_NOT_FOUND (bs "Proxy ingress node not found"))
  | Some n =>
      let out := node_json policy n in
      if policy then mret out
      else
        '(ready, seen) ← runtime_ready host_id now;
        mret (sbj_set_int (sbj_set_bool out "runtime_supported" ready) "runtime_seen_at" seen)
  end.

Definition sb_proxy_ingress_list : proc sbj :=
  rows ← query (fun t => order_by text_le (n_host <$> ingress t));
  for_rows rows (fun h out =>
    now ← ask (unix_now env);
    node ← node_locked h false now;
    mret (sbj_arr_push out (Some node))) (SBJ_ARRAY []).

Definition ingress_body_valid (body : option sbj) : bool :=
  sbj_is_object body && (sbj_obj_len body =? 4)%nat && sbj_is_bool (sbj_get body "enabled") &&
  server_name (sbj_get body "server") && text_ok (sbj_get body "listen") 64 false &&
  (inet_pton4 env (member_text body "listen") || inet_pton6 env (member_text body "listen")) &&
  number_ok body "listen_port" 1 65535.

Definition sb_proxy_ingress_save (host_id : bytes) (body : option sbj) (now : Z) : proc sbj :=
  if negb (ingress_body_valid body)
  then pure (sb_fail SB_ERR_VALIDATION
         (bs "Ingress requires enabled, a public server hostname/IP, a listen IP and listen_port 1..65535"))
  else
    key ← new_secret true;
    transaction
      (known ← query (fun t => host_enabled t host_id);
       if negb known then pure (sb_fail SB_ERR_VALIDATION (bs "Ingress requires an enabled host"))
       else
         let enabled := sbj_get_bool body "enabled" false in
         '(ready, _) ← if enabled then runtime_ready host_id now else mret (true, 0);
         if negb ready
         then pure (sb_fail SB_ERR_CONFLICT
                (bs "Host must report proxy_users_v1 support within the last 180 seconds before enabling ingress"))
         else
           let server := member_text body "server" in
           let listen := member_text body "listen" in
           let port := sbj_get_int body "listen_port" 0 in
           _ ← stmt (fun t => Ok (tt, with_ingress t
                 (sql_upsert (fun n => bytes_eqb (n_host n) host_id)
                    (fun n => mk_ingress (n_host n) enabled server listen port (n_key n) now)
                    (mk_ingress host_id enabled server listen port key now) (ingress t))));
           node_locked host_id false now).

(** ** Device subscriptions *)

Definition outbound_json (device_key : bytes) (n : ingress_row) : sbj :=
  let o := sbj_set_str (SBJ_OBJECT []) "type" (bs "shadowsocks") in
  let o := sbj_set_str o "tag" (n_host n) in
  let o := sbj_set_str o "server" (n_server n) in
  let o := sbj_set_int o "server_port" (n_port n) in
  let o := sbj_set_str o "method" METHOD in
  sbj_set_str o "password" (n_key n ++ bs ":" ++ device_key).

Definition subscription_device (t : tables) (hash : bytes) (now : Z) : option device_row :=
  List.find (fun d => bytes_eqb (d_token_hash d) hash && d_enabled d && unexpired (d_expires d) now &&
               existsb (fun u => user_is (d_user d) u && u_enabled u && unexpired (u_expires u) now) (users t))
            (devices t).

Definition sb_proxy_subscription (token : option bytes) (now : Z) : proc sbj :=
  match token with
  | Some token =>
      if negb (length token =? 43)%nat then pure (sb_fail SB_ERR_AUTH (bs "Invalid device subscription token"))
      else
        row ← query (fun t => subscription_device t (sb_sha256_hex token) now);
        match row with
        | None => pure (sb_fail SB_ERR_AUTH (bs "Invalid, revoked or expired device subscription"))
        | Some d =>
            rows ← query (fun t => order_by (fun a b => text_le (n_host a) (n_host b))
                                     (ready_nodes t (d_user d) (now - RUNTIME_FRESH_SECONDS) now));
            nodes ← for_rows rows (fun n l => mret (sbj_arr_push l (Some (outbound_json (d_password d) n)))) (SBJ_ARRAY []);
            mret (sbj_set (SBJ_OBJECT []) "outbounds" nodes)
        end
  | None => pure (sb_fail SB_ERR_AUTH (bs "Invalid device subscription token"))
  end.
End Env.
