(* ===== verification/ProxyLease.v ===== *)
(** * Quota leases ([c/src/proxy_users.c], [report_locked] to [sb_proxy_lease_exchange])

    A node exchanges usage reports for leases, at most one per user, host, boot
    and epoch: a cumulative number of bytes it may forward until the lease ends.
    Requests of a boot are numbered; repeating the last one repeats its answer. *)

From S2P Require Import Prelude Util Json JsonText Types ProxyClock Sqlite ProxyTables ProxyUsers.

(** ** The request *)

Definition report_valid (r : sbj) : bool :=
  sbj_is_object (Some r) && (sbj_obj_len (Some r) =? 2)%nat && text_ok (sbj_get (Some r) "lease_id") 128 true &&
  number_ok (Some r) "used_bytes" 0 SAFE_INTEGER.

(** The comparison of neighbours after [qsort] with [strcmp]. *)
Fixpoint adjacent_equal (l : list bytes) : bool :=
  match l with
  | x :: ((y :: _) as l') => bytes_eqb x y || adjacent_equal l'
  | _ => false
  end.

Definition duplicate_reports (reports : list sbj) : bool :=
  adjacent_equal (order_by text_le ((fun r => member_text (Some r) "lease_id") <$> reports)).

Definition exchange_valid (request : option sbj) (now : Z) : result unit :=
  let reports := sbj_get request "reports" in
  if negb (sbj_is_object request) || negb (sbj_obj_len request =? 4)%nat || negb (number_ok request "version" 1 1) ||
     negb (text_ok (sbj_get request "boot_id") 128 true) || negb (number_ok request "request_seq" 1 SAFE_INTEGER) ||
     negb (sbj_is_array reports) || (4096 <? sbj_arr_len reports)%nat || (now <? 1) || (4102444740 <? now)
  then sb_fail SB_ERR_VALIDATION (bs "Invalid proxy lease exchange")
  else if negb (forallb report_valid (arr_items reports))
  then sb_fail SB_ERR_VALIDATION (bs "Invalid proxy lease report")
  else if (1 <? sbj_arr_len reports)%nat && duplicate_reports (arr_items reports)
  then sb_fail SB_ERR_VALIDATION (bs "Duplicate proxy lease report")
  else Ok tt.

Section Env.
Context (env : environment).
Abbreviation stmt := (stmt (fault env)).
Abbreviation query := (query (fault env)).
Abbreviation for_rows := (for_rows (fault env)).
Abbreviation transaction := (transaction (fault env)).

(** ** Reports *)

Definition set_used_bytes (id : bytes) (used now : Z) (t : tables) : tables :=
  with_leases t (fst (sql_update (fun l => bytes_eqb (l_id l) id)
    (fun l => mk_lease (l_id l) (l_user l) (l_host l) (l_boot l) (l_epoch l) (l_grant l) used (l_expires l) now)
    (leases t))).

Definition report_locked (host boot : bytes) (report : sbj) (now : Z) : proc unit :=
  let id := member_text (Some report) "lease_id" in
  let used := sbj_get_int (Some report) "used_bytes" 0 in
  row ← query (fun t => List.find (fun l => bytes_eqb (l_id l) id && bytes_eqb (l_host l) host &&
                                            bytes_eqb (l_boot l) boot) (leases t));
  if match row with Some l => (l_used l <=? used) && (used <=? l_grant l) | None => false end
  then stmt (fun t => Ok (tt, set_used_bytes id used now t))
  else pure (sb_fail SB_ERR_CONFLICT (bs "Unknown lease, counter rollback or usage exceeding the grant")).

Fixpoint reports_locked (host boot : bytes) (reports : list sbj) (now : Z) : proc unit :=
  match reports with
  | [] => mret tt
  | r :: reports' => _ ← report_locked host boot r now; reports_locked host boot reports' now
  end.

(** ** Grants *)

Definition lease_key (user host boot : bytes) (epoch : Z) (l : lease_row) : bool :=
  bytes_eqb (l_user l) user && bytes_eqb (l_host l) host && bytes_eqb (l_boot l) boot && (l_epoch l =? epoch).

(** What is left of the quota is shared among the nodes, a chunk at most at a
    time, and nothing while more than half a grant is unused. *)
Definition next_grant (quota allocated nodes grant used : Z) : Z :=
  let available := (if quota =? 0 then SAFE_INTEGER else quota) - allocated in
  let threshold := if GRANT_CHUNK / 2 <? grant / 2 then GRANT_CHUNK / 2 else grant / 2 in
  if ((grant =? 0) || (grant - used <=? threshold)) && (0 <? available) then
    let add := available / nodes + (if available mod nodes =? 0 then 0 else 1) in
    grant + (if GRANT_CHUNK <? add then GRANT_CHUNK else add)
  else grant.

(** [INSERT INTO proxy_leases ... ON CONFLICT(user_id,host_id,boot_id,epoch)]. *)
Definition store_lease (fresh : lease_row) (t : tables) : result (unit * tables) :=
  let same := lease_key (l_user fresh) (l_host fresh) (l_boot fresh) (l_epoch fresh) in
  if negb (existsb same (leases t)) && existsb (fun l => bytes_eqb (l_id l) (l_id fresh)) (leases t)
  then sbq_fail (bs "UNIQUE constraint failed")
  else Ok (tt, with_leases t (sql_upsert same
         (fun l => mk_lease (l_id l) (l_user l) (l_host l) (l_boot l) (l_epoch l) (l_grant fresh) (l_used l)
                     (l_expires fresh) (l_updated fresh)) fresh (leases t))).

Definition lease_json (user : bytes) (epoch : Z) (id : bytes) (grant used until : Z) (devices : sbj) : sbj :=
  let lease := sbj_set_str (SBJ_OBJECT []) "id" id in
  let lease := sbj_set_int lease "grant_bytes" grant in
  let lease := sbj_set_int lease "used_bytes" used in
  let lease := sbj_set_int lease "expires_at" until in
  let o := sbj_set_str (SBJ_OBJECT []) "id" user in
  let o := sbj_set_int o "epoch" epoch in
  sbj_set (sbj_set o "lease" lease) "devices" devices.

(** [None] stands for the null value: no lease for this user. *)
Definition lease_locked (host boot user : bytes) (epoch quota expiry now : Z) : proc (option sbj) :=
  devices ← devices_locked env user true now;
  if (sbj_arr_len (Some devices) =? 0)%nat then mret None
  else
    row ← query (fun t => List.find (lease_key user host boot epoch) (leases t));
    let grant := match row with Some l => l_grant l | None => 0 end in
    let used := match row with Some l => l_used l | None => 0 end in
    allocated ← stmt (fun t => s ← sql_sum l_grant (epoch_leases t user epoch); Ok (s, t));
    nodes ← query (fun t => Z.of_nat (length (ready_nodes t user (now - RUNTIME_FRESH_SECONDS) now)));
    if nodes <? 1 then pure (Err (mk_err SB_OK []))
    else
      let grant := next_grant quota allocated nodes grant used in
      if grant <=? used then mret None
      else
        id ← match row with Some l => mret (l_id l) | None => new_uuid env end;
        let until := now + LEASE_SECONDS in
        let until := if negb (expiry =? 0) && (expiry <? until) then expiry else until in
        _ ← stmt (store_lease (mk_lease id user host boot epoch grant used until now));
        mret (Some (lease_json user epoch id grant used until devices)).

(** ** The exchange *)

(** Users bound to the node that may have a lease. *)
Definition leased_users (t : tables) (host : bytes) (now : Z) : list user_row :=
  order_by (fun a b => text_le (u_id a) (u_id b))
    (List.filter (fun u => existsb (fun b => bytes_eqb (fst b) (u_id u) && bytes_eqb (snd b) host) (user_nodes t) &&
                           u_enabled u && negb (u_deleted u) && unexpired (u_expires u) now) (users t)).

Definition lease_user (host boot : bytes) (now : Z) (u : user_row) (out : sbj) : proc sbj :=
  wait_ms ← proxy_wait env (u_id u) (u_epoch u);
  if (0 <? wait_ms) || (now <? u_not_before u) then mret out
  else
    lease ← lease_locked host boot (u_id u) (u_epoch u) (u_quota u) (u_expires u) now;
    mret match lease with Some v => sbj_arr_push out (Some v) | None => out end.

(** The node and the users of the answer. *)
Definition lease_users (host boot : bytes) (now : Z) : proc (sbj * sbj) :=
  enabled ← query (fun t => match find_ingress t host with Some n => n_enabled n | None => false end);
  '(ready, _) ← runtime_ready env host now;
  if enabled && ready then
    node ← node_locked env host true now;
    rows ← query (fun t => leased_users t host now);
    users ← for_rows rows (lease_user host boot now) (SBJ_ARRAY []);
    mret (node, users)
  else mret (SBJ_NULL, SBJ_ARRAY []).

Definition answer_json (host boot : bytes) (seq now : Z) (node users : sbj) : sbj :=
  let o := sbj_set_int (SBJ_OBJECT []) "version" 1 in
  let o := sbj_set_str o "host_id" host in
  let o := sbj_set_str o "boot_id" boot in
  let o := sbj_set_int o "request_seq" seq in
  let o := sbj_set_int o "generated_at" now in
  let o := sbj_set_int o "expires_at" (now + LEASE_SECONDS) in
  sbj_set (sbj_set o "node" node) "users" users.

Definition session_key (host boot : bytes) (s : session_row) : bool :=
  bytes_eqb (s_host s) host && bytes_eqb (s_boot s) boot.

Definition store_session (s : session_row) (t : tables) : tables :=
  with_sessions t (sql_upsert (session_key (s_host s) (s_boot s)) (fun _ => s) s (sessions t)).

(** How a request relates to the last one of its boot. *)
Inductive sequence := Replay (response : bytes) | Conflict | Next.

Definition request_sequence (previous : option session_row) (seq : Z) (hash : bytes) : sequence :=
  match previous with
  | Some s =>
      if (seq =? s_seq s) && bytes_eqb hash (s_hash s) then Replay (s_response s)
      else if seq =? s_seq s + 1 then Next else Conflict
  | None => if seq =? 1 then Next else Conflict
  end.

Definition sb_proxy_lease_exchange (host : bytes) (request : option sbj) (now : Z) : proc sbj :=
  _ ← pure (exchange_valid request now);
  let reports := arr_items (sbj_get request "reports") in
  let boot := member_text request "boot_id" in
  let seq := sbj_get_int request "request_seq" 0 in
  let hash := sb_sha256_hex env (sbj_dump request (-1)) in
  transaction
    (known ← query (fun t => host_enabled t host);
     if negb known then pure (sb_fail SB_ERR_AUTH (bs "Proxy lease host is unknown or disabled"))
     else
       previous ← query (fun t => List.find (session_key host boot) (sessions t));
       match request_sequence previous seq hash with
       | Conflict => pure (sb_fail SB_ERR_CONFLICT
                       (bs "Proxy lease sequence changed; retry the same request or use the next sequence"))
       | Replay response =>
           match sbj_parse response with
           | Some out => mret out
           | None => pure (sb_fail SB_ERR_GENERIC (bs "Stored proxy lease snapshot is invalid"))
           end
       | Next =>
           _ ← reports_locked host boot reports now;
           '(node, users) ← lease_users host boot now;
           let out := answer_json host boot seq now node users in
           _ ← stmt (fun t => Ok (tt, store_session (mk_session host boot seq hash (sbj_dump (Some out) (-1)) now) t));
           mret out
       end).
End Env.
