(* ===== verification/ProxyQuota.v ===== *)
(** * The quota of proxy users

    The invariant of the tables: grants of the current epoch stay within the
    quota, usage within the grants, devices within their limit, and leases of
    earlier epochs end before the current one starts.  Every call keeps it, and a
    call that fails changes no table. *)

From S2P Require Import Prelude Util Json JsonText JsonRound Types ProxyClock Sqlite ProxyTables ProxyUsers ProxyLease SqliteProofs.

(** ** The invariant *)

Definition budget (u : user_row) : Z := if u_quota u =? 0 then SAFE_INTEGER else u_quota u.

Definition granted (t : tables) (u : user_row) : Z := zsum l_grant (epoch_leases t (u_id u) (u_epoch u)).

Definition user_ok (t : tables) (u : user_row) : Prop :=
  1 <= u_epoch u <= SAFE_INTEGER /\ 0 <= u_quota u <= SAFE_INTEGER /\ granted t u <= budget u.

(** The lease belongs to a user, is of its epoch or an earlier one, and in the
    latter case ends before the user's period begins. *)
Definition lease_ok (t : tables) (l : lease_row) : Prop :=
  0 <= l_used l <= l_grant l /\
  exists u, u ∈ users t /\ u_id u = l_user l /\ l_epoch l <= u_epoch u /\
            (l_epoch l < u_epoch u -> l_expires l <= u_not_before u).

Definition lease_index (l : lease_row) : bytes * bytes * bytes * Z := (l_user l, l_host l, l_boot l, l_epoch l).

Record inv (t : tables) : Prop := mk_inv {
  inv_user_ids : NoDup (u_id <$> users t);
  inv_lease_ids : NoDup (l_id <$> leases t);
  inv_lease_keys : NoDup (lease_index <$> leases t);
  inv_users : Forall (user_ok t) (users t);
  inv_leases : Forall (lease_ok t) (leases t);
  inv_device_ids : NoDup (d_id <$> devices t);
  inv_devices : Forall (fun d => d_user d ∈ u_id <$> users t) (devices t) }.

(** No user that is not deleted has more working devices than it may. *)
Definition devices_ok (now : Z) (t : tables) : Prop :=
  Forall (fun u => u_deleted u = false -> Z.of_nat (length (active_devices t (u_id u) now)) <= u_max_devices u) (users t).

Definition good (now : Z) (t : tables) : Prop := inv t /\ devices_ok now t.

(** What never goes back: leases stay, with their usage and their grant; users
    stay, with their epoch. *)
Definition lease_grows (l l' : lease_row) : Prop :=
  l_id l' = l_id l /\ lease_index l' = lease_index l /\ l_used l <= l_used l' /\ l_grant l <= l_grant l'.

Definition later (t t' : tables) : Prop :=
  (forall l, l ∈ leases t -> exists l', l' ∈ leases t' /\ lease_grows l l') /\
  (forall u, u ∈ users t -> exists u', u' ∈ users t' /\ u_id u' = u_id u /\ u_epoch u <= u_epoch u').

Lemma lease_grows_refl l : lease_grows l l.
Proof. unfold lease_grows. repeat split; lia. Qed.

Lemma lease_grows_trans a b c : lease_grows a b -> lease_grows b c -> lease_grows a c.
Proof. unfold lease_grows. intros (? & ? & ? & ?) (? & ? & ? & ?). repeat split; [congruence|congruence|lia|lia]. Qed.

Lemma later_refl t : later t t.
Proof. split; intros x Hx; exists x; auto using lease_grows_refl with lia. Qed.

Lemma later_trans a b c : later a b -> later b c -> later a c.
Proof.
  intros [L1 U1] [L2 U2]. split; intros x Hx.
  - destruct (L1 x Hx) as (y & Hy & Gy). destruct (L2 y Hy) as (z & Hz & Gz). exists z. split; [done|]. by eapply lease_grows_trans.
  - destruct (U1 x Hx) as (y & Hy & Iy & Ey). destruct (U2 y Hy) as (z & Hz & Iz & Ez). exists z. split_and!; [done|congruence|lia].
Qed.

(** ** Tables that agree where it matters *)

(** Everything of a user that the invariant looks at. *)
Definition same_user_row (u u' : user_row) : Prop :=
  u_id u' = u_id u /\ u_epoch u' = u_epoch u /\ u_not_before u' = u_not_before u /\ u_quota u' = u_quota u /\
  u_max_devices u' = u_max_devices u /\ (u_deleted u' = false -> u_deleted u = false).

Lemma same_user_refl u : same_user_row u u.
Proof. by repeat split. Qed.

Lemma users_In_same us us' u : Forall2 same_user_row us us' -> u ∈ us -> exists u', u' ∈ us' /\ same_user_row u u'.
Proof.
  induction 1 as [|x y us us' S _ IH]; [by intros ?%elem_of_nil|]. intros [->|H]%elem_of_cons.
  - exists y. split; [left|done].
  - destruct (IH H) as (u' & Hu & Su). exists u'. split; [by right|done].
Qed.

Lemma users_In_same_r us us' u' : Forall2 same_user_row us us' -> u' ∈ us' -> exists u, u ∈ us /\ same_user_row u u'.
Proof.
  induction 1 as [|x y us us' S _ IH]; [by intros ?%elem_of_nil|]. intros [->|H]%elem_of_cons.
  - exists x. split; [left|done].
  - destruct (IH H) as (u & Hu & Su). exists u. split; [by right|done].
Qed.

Lemma same_users_ids us us' : Forall2 same_user_row us us' -> u_id <$> us' = u_id <$> us.
Proof. induction 1 as [|x y us us' S _ IH]; [done|]. rewrite !fmap_cons, IH. f_equal. apply S. Qed.

Lemma user_ok_same t t' u u' : leases t' = leases t -> same_user_row u u' -> user_ok t u -> user_ok t' u'.
Proof.
  intros El (Ei & Ee & _ & Eq & _). unfold user_ok, granted, epoch_leases, budget. by rewrite El, Ei, Ee, Eq.
Qed.

Lemma good_same now t t' :
  leases t' = leases t -> Forall2 same_user_row (users t) (users t') -> Forall (fun d => d_user d ∈ u_id <$> users t) (devices t') ->
  NoDup (d_id <$> devices t') ->
  (forall u, (length (active_devices t' u now) <= length (active_devices t u now))%nat) ->
  good now t -> good now t' /\ later t t'.
Proof.
  intros El Fu Fd Nd Ha [[Nu Nl Nk Iu Il _ Id] D]. pose proof (same_users_ids _ _ Fu) as Ids.
  unfold devices_ok in D. rewrite Forall_forall in Iu. rewrite Forall_forall in Il. rewrite Forall_forall in D.
  split; [split; [split|]|].
  - by rewrite Ids.
  - by rewrite El.
  - by rewrite El.
  - apply Forall_forall. intros u' Hu'. destruct (users_In_same_r _ _ _ Fu Hu') as (u & Hu & Su).
    eapply user_ok_same; eauto.
  - rewrite El. apply Forall_forall. intros l Hl. destruct (Il l Hl) as (Hr & u & Hu & E1 & E2 & E3). split; [done|].
    destruct (users_In_same _ _ _ Fu Hu) as (u' & Hu' & S1 & S2 & S3 & _). exists u'. split; [done|].
    rewrite S1, S2, S3. done.
  - done.
  - by rewrite Ids.
  - apply Forall_forall. intros u' Hu' Hd. destruct (users_In_same_r _ _ _ Fu Hu') as (u & Hu & S1 & _ & _ & _ & S5 & S6).
    rewrite S1, S5. specialize (Ha (u_id u)). specialize (D u Hu (S6 Hd)). lia.
  - split.
    + rewrite El. intros l Hl. exists l. split; [done|]. apply lease_grows_refl.
    + intros u Hu. destruct (users_In_same _ _ _ Fu Hu) as (u' & Hu' & S1 & S2 & _). exists u'. split_and!; [done|done|lia].
Qed.

Lemma same_users_refl us : Forall2 same_user_row us us.
Proof. induction us; constructor; [apply same_user_refl|done]. Qed.

Lemma same_users_map us (m : user_row -> bool) g :
  (forall u, m u = true -> same_user_row u (g u)) -> Forall2 same_user_row us (map (fun u => if m u then g u else u) us).
Proof. intros H. induction us as [|u us IH]; [constructor|]. constructor; [|done]. destruct (m u) eqn:E; [by apply H|apply same_user_refl]. Qed.

Lemma good_mono now now' t : now <= now' -> good now t -> good now' t.
Proof.
  intros Hn [I D]. split; [done|]. unfold devices_ok in *. rewrite Forall_forall in *. intros u Hu Hd. specialize (D u Hu Hd).
  assert (length (active_devices t (u_id u) now') <= length (active_devices t (u_id u) now))%nat; [|lia].
  apply filter_length_impl. intros d _ H. unfold device_active, unexpired in *. bool_facts. rewrite H, H1. cbn [andb].
  apply orb_true_iff in H0 as [H0|H0]; [by rewrite H0|]. apply Z.ltb_lt in H0. apply orb_true_iff. right. apply Z.ltb_lt. lia.
Qed.

(** ** Calls that keep the invariant *)

Section Env.
Context (env : environment).

Definition kept {A} (now : Z) (s : conn tables (option sb_proxy_clock)) (_ : A) (s' : conn tables (option sb_proxy_clock)) : Prop :=
  good now (db s') /\ later (db s) (db s').

Definition unchanged (s : conn tables (option sb_proxy_clock)) (_ : sb_err) (s' : conn tables (option sb_proxy_clock)) : Prop :=
  db s' = db s.

Definition keeps {A} (now : Z) (m : proc A) : Prop := forall s, good now (db s) -> wp m (kept now s) (unchanged s) s.

Lemma keeps_transaction {A} now (body : proc A) :
  (forall s, good now (db s) -> wp body (kept now s) no_care s) -> keeps now (transaction (fault env) body).
Proof.
  intros H s G. apply wp_transaction; [done|]. eapply wp_mono; [by apply H|..]; [|done].
  intros a s' [G' L']. by split.
Qed.

Lemma keeps_frame {A} now (m : proc A) : frame m -> keeps now m.
Proof.
  intros F s G. eapply wp_mono; [by apply wp_frame|..]; [|done]. intros a s' E. unfold kept. rewrite E. split; [done|apply later_refl].
Qed.

Lemma keeps_bind {A B} now (m : proc A) (f : A -> proc B) :
  frame m -> (forall a, keeps now (f a)) -> keeps now (m ≫= f).
Proof.
  intros Fm Kf s G. apply wp_bind. eapply wp_mono; [by apply wp_frame|..]; [|done]. intros a s' E. cbn beta in E.
  eapply wp_mono; [apply Kf; by rewrite E|..].
  - intros b s2. unfold kept. by rewrite E.
  - intros e s2. unfold unchanged. by rewrite E.
Qed.

(** After the last change of a call only its answer is made. *)
Lemma keeps_then {A B} now (m : proc A) (f : A -> proc B) :
  keeps now m -> (forall a, exists b, f a = mret b) -> keeps now (m ≫= f).
Proof.
  intros Km Hf s G. apply wp_bind. eapply wp_mono; [by apply Km|..]; [|done]. intros a s' K. destruct (Hf a) as [b ->]. by apply wp_ret.
Qed.

(** *** Programs that only read *)

Lemma new_uuid_frame : frame (new_uuid env).
Proof. unfold new_uuid. frames. Qed.
Lemma new_secret_frame b : frame (new_secret env b).
Proof. unfold new_secret. frames. Qed.
Lemma proxy_wait_frame u e : frame (proxy_wait env u e).
Proof. unfold proxy_wait. frames. Qed.
Lemma proxy_reset_frame u e : frame (proxy_reset env u e).
Proof. unfold proxy_reset. frames. Qed.
Lemma runtime_ready_frame h now : frame (runtime_ready env h now).
Proof. unfold runtime_ready. frames. Qed.
Lemma devices_locked_frame id p now : frame (devices_locked env id p now).
Proof. unfold devices_locked. frames. Qed.

Lemma user_totals_tables t id a t' : user_totals t id = Ok (a, t') -> t' = t.
Proof.
  unfold user_totals. destruct (find_user t id) as [u|]; [|by intros [= _ <-]].
  by intros (x & _ & (y & _ & [= _ <-])%bind_Ok)%bind_Ok.
Qed.
End Env.

#[export] Hint Resolve new_uuid_frame new_secret_frame proxy_wait_frame proxy_reset_frame runtime_ready_frame
  devices_locked_frame : frame.

Section Reads.
Context (env : environment).

Lemma user_locked_frame id : frame (user_locked env id).
Proof. unfold user_locked. apply frame_bind; [apply frame_stmt; intros ???; apply user_totals_tables|intros ?]. frames. Qed.
Lemma node_locked_frame h p now : frame (node_locked env h p now).
Proof. unfold node_locked. frames. Qed.
Lemma check_room_frame : frame (check_room env).
Proof. unfold check_room. frames. Qed.
Lemma check_ingress_frame l : frame (check_ingress env l).
Proof. induction l; cbn [check_ingress]; frames. Qed.
End Reads.

#[export] Hint Resolve user_locked_frame node_locked_frame check_room_frame check_ingress_frame : frame.

Section Reads2.
Context (env : environment).

Lemma sb_proxy_users_list_frame : frame (sb_proxy_users_list env).
Proof. unfold sb_proxy_users_list. frames. Qed.
Lemma sb_proxy_ingress_list_frame : frame (sb_proxy_ingress_list env).
Proof. unfold sb_proxy_ingress_list. frames. Qed.
Lemma sb_proxy_claim_resolve_frame token now : frame (sb_proxy_claim_resolve env token now).
Proof. unfold sb_proxy_claim_resolve. frames. Qed.
Lemma sb_proxy_subscription_frame token now : frame (sb_proxy_subscription env token now).
Proof. unfold sb_proxy_subscription. frames. Qed.
End Reads2.

#[export] Hint Resolve sb_proxy_users_list_frame sb_proxy_ingress_list_frame sb_proxy_claim_resolve_frame
  sb_proxy_subscription_frame : frame.

(** *** Calls that change reports, nodes, tokens and devices *)

Lemma good_other now t t' :
  users t' = users t -> leases t' = leases t -> devices t' = devices t -> good now t -> good now t' /\ later t t'.
Proof.
  intros Eu El Ed G. apply good_same; [done|rewrite Eu; apply same_users_refl|rewrite Ed; apply G|rewrite Ed; apply G| |done].
  intros u. unfold active_devices. by rewrite Ed.
Qed.

Lemma good_users now t us :
  Forall2 same_user_row (users t) us -> good now t -> good now (with_users t us) /\ later t (with_users t us).
Proof. intros F G. apply good_same; try done; apply G. Qed.

(** Devices that are changed without changing hands or being revived. *)
Lemma good_devices now t (g : device_row -> device_row) :
  (forall d, d_id (g d) = d_id d) -> (forall d, d_user (g d) = d_user d) -> (forall d u, device_active u now (g d) = true -> device_active u now d = true) ->
  good now t -> good now (with_devices t (map g (devices t))) /\ later t (with_devices t (map g (devices t))).
Proof.
  intros Hi Hu Ha G. apply good_same; [done|apply same_users_refl| | | |done].
  - destruct G as [[_ _ _ _ _ _ D] _]. cbn [devices with_devices]. rewrite Forall_forall in D. apply Forall_forall.
    intros d' (d & -> & Hd)%list_elem_of_fmap. rewrite Hu. by apply D.
  - cbn [devices with_devices]. replace (d_id <$> map g (devices t)) with (d_id <$> devices t); [apply G|].
    induction (devices t) as [|d l IH]; [done|]. rewrite map_cons, !fmap_cons, Hi. by f_equal.
  - intros u. apply filter_map_length_le. intros d _. apply Ha.
Qed.

Lemma length_active_app t us u now l :
  length (active_devices (with_devices (with_users t us) l) u now) = length (List.filter (device_active u now) l).
Proof. done. Qed.

Lemma user_is_id id a b : user_is id a = true -> user_is id b = true -> u_id a = u_id b.
Proof. unfold user_is. intros Ha Hb. bool_facts. apply bytes_eqb_eq in H. apply bytes_eqb_eq in H1. congruence. Qed.

Section Calls.
Context (env : environment).

Lemma runtime_report_keeps host caps now now' : keeps now' (sb_proxy_runtime_report env host caps now).
Proof.
  unfold sb_proxy_runtime_report. apply keeps_bind; [frames|intros supported]. intros s G. apply wp_bind.
  apply wp_stmt; [done|]. destruct (host_enabled (db s) host); cbn -[later].
  - apply wp_ret. unfold kept. by apply good_other.
  - apply wp_pure. done.
Qed.

Lemma with_users_same t : with_users t (users t) = t.
Proof. by destruct t. Qed.
Lemma with_devices_same t : with_devices t (devices t) = t.
Proof. by destruct t. Qed.

Lemma claim_rotate_keeps id now now' : keeps now' (sb_proxy_claim_rotate env id now).
Proof.
  unfold sb_proxy_claim_rotate. apply keeps_bind; [frames|intros token]. intros s G. apply wp_bind.
  apply wp_stmt; [done|]. case_if; [done|]. destruct (sql_update _ _ _) as [l n] eqn:Eu. destruct (n =? 1)%nat eqn:En.
  - apply wp_ret. unfold kept. unfold sql_update in Eu. injection Eu as <- <-. apply good_users; [|done].
    apply same_users_map. by repeat split.
  - apply wp_pure. unfold unchanged. cbn [db]. etrans; [|apply with_users_same]. f_equal.
    change l with (fst (l, n)). rewrite <- Eu. apply (sql_update_missed u_id); [apply G|apply user_is_id|by rewrite Eu].
Qed.

(** A device that stays with its user and is switched off. *)
Definition switched_off (revoked : device_row -> option Z) (d : device_row) : device_row :=
  mk_device (d_id d) (d_user d) (d_name d) false (d_password d) (d_token_hash d) (d_expires d) (d_created d) (revoked d).

Lemma good_switch_off now t (m : device_row -> bool) revoked :
  good now t ->
  let l := map (fun d => if m d then switched_off revoked d else d) (devices t) in
  good now (with_devices t l) /\ later t (with_devices t l).
Proof.
  intros G l. apply good_devices; [..|done]; intros d; intros; destruct (m d); try done.
  unfold device_active in *. cbn in *. by rewrite andb_false_r in *.
Qed.

Lemma device_revoke_keeps uid did now now' : keeps now' (sb_proxy_device_revoke env uid did now).
Proof.
  unfold sb_proxy_device_revoke. intros s G. apply wp_bind, wp_stmt; [done|].
  destruct (sql_update _ _ _) as [l n] eqn:E. destruct (n =? 1)%nat eqn:En.
  - apply wp_ret. unfold kept. unfold sql_update in E. injection E as <- <-. by apply (good_switch_off _ _ _ (fun _ => Some now)).
  - apply wp_pure. unfold unchanged. cbn [db]. etrans; [|apply with_devices_same]. f_equal.
    change l with (fst (l, n)). rewrite <- E. apply (sql_update_missed d_id); [apply G| |by rewrite E].
    intros a b Ha Hb. bool_facts. apply bytes_eqb_eq in H. apply bytes_eqb_eq in H1. congruence.
Qed.

Lemma user_remove_keeps id now now' : keeps now' (sb_proxy_user_remove env id now).
Proof.
  apply keeps_transaction. intros s G. apply wp_bind, wp_stmt; [done|].
  destruct (sql_update _ _ _) as [l n] eqn:E. destruct (n =? 1)%nat eqn:En; [|by apply wp_pure]. cbn [negb].
  unfold sql_update in E. injection E as <- <-. apply wp_stmt; [done|].
  set (us := map _ (users (db s))).
  destruct (good_users now' (db s) us) as [G1 L1]; [apply same_users_map; by repeat split|done|].
  destruct (good_switch_off now' _ (fun d => bytes_eqb (d_user d) id) d_revoked G1) as [G2 L2].
  split; [exact G2|]. eapply later_trans; [exact L1|exact L2].
Qed.

Lemma ingress_save_keeps host body now now' : keeps now' (sb_proxy_ingress_save env host body now).
Proof.
  unfold sb_proxy_ingress_save. case_if; [by apply keeps_frame; frames|]. apply keeps_bind; [frames|intros key].
  apply keeps_transaction. intros s G. apply wp_bind. apply wp_read; [frames|]. intros known s1 D1.
  case_if; [by apply wp_pure|]. apply wp_bind. apply wp_read; [frames|]. intros [ready ?] s2 D2.
  case_if; [by apply wp_pure|]. apply wp_bind, wp_stmt; [done|]. apply wp_read; [frames|]. intros out s3 D3.
  unfold kept. rewrite D3. apply good_other; cbn [db users leases devices with_ingress]; by rewrite ?D2, ?D1.
Qed.
End Calls.

(** *** New devices *)

Lemma user_unique t u u' : inv t -> u ∈ users t -> u' ∈ users t -> u_id u = u_id u' -> u = u'.
Proof. intros I. apply NoDup_fmap_inj_on, I. Qed.

Lemma good_new_device now t d u :
  good now t -> u ∈ users t -> u_id u = d_user d ->
  Z.of_nat (length (active_devices t (u_id u) now)) < u_max_devices u -> d_id d ∉ d_id <$> devices t ->
  good now (with_devices t (devices t ++ [d])) /\ later t (with_devices t (devices t ++ [d])).
Proof.
  intros [I D] Hu Eu Hc Nd. split; [split; [split|]|]; try apply I.
  - cbn [devices with_devices]. rewrite fmap_app. apply NoDup_app. split_and!; [apply I| |apply NoDup_singleton].
    intros x Hx Hx'. apply list_elem_of_singleton in Hx'. by subst.
  - cbn [devices with_devices]. apply Forall_app. split; [apply I|]. repeat constructor. rewrite <- Eu.
    by apply list_elem_of_fmap_2.
  - unfold devices_ok in *. cbn [users with_devices]. rewrite Forall_forall in *. intros u' Hu' Hd'. specialize (D u' Hu' Hd').
    unfold active_devices in *. cbn [devices with_devices]. rewrite filter_app, length_app. cbn [List.filter].
    destruct (device_active (u_id u') now d) eqn:A; cbn [length]; [|lia].
    unfold device_active in A. bool_facts. apply bytes_eqb_eq in H.
    assert (u' = u) as -> by (eapply user_unique; eauto; congruence). lia.
  - split; intros x Hx; exists x; auto using lease_grows_refl with lia.
Qed.

Lemma device_create_keeps env uid body now : keeps now (sb_proxy_device_create env uid body now).
Proof.
  unfold sb_proxy_device_create. case_if; [by apply keeps_frame; frames|]. do 3 (apply keeps_bind; [frames|intros ?]).
  apply keeps_then; [|by eexists]. apply keeps_transaction. intros s G. apply wp_bind, wp_query; [done|].
  destruct (List.find _ (users (db s))) as [u|] eqn:F; [|by apply wp_pure]. case_if; [by apply wp_pure|].
  apply wp_stmt; [done|]. cbn [db]. unfold sql_insert. destruct (existsb _ (devices (db s))) eqn:Ex; [done|].
  cbn [mbind result_bind]. apply find_In in F as [Hu Pu]. bool_facts. unfold user_is in H. bool_facts. apply bytes_eqb_eq in H.
  unfold kept. cbn [db]. apply (good_new_device _ _ _ u); [done|done|done| |].
  - done.
  - intros (d & Ed & Hd)%list_elem_of_fmap. rewrite existsb_none in Ex. specialize (Ex d Hd). cbn [d_id] in Ed.
    apply orb_false_iff in Ex as [Ex _]. apply bytes_eqb_neq in Ex. congruence.
Qed.

(** *** A new period *)

Lemma last_expiry_bound t l : l ∈ leases t -> l_expires l <= default 0 (last_expiry t (l_user l)).
Proof.
  unfold last_expiry. intros H.
  assert (exists m, foldr (fun x m => if bytes_eqb (l_user x) (l_user l)
            then Some (match m with Some y => Z.max (l_expires x) y | None => l_expires x end) else m) None (leases t) = Some m /\
          l_expires l <= m) as (m & -> & Hm); [|done].
  induction (leases t) as [|x ls IH]; [by apply elem_of_nil in H|]. cbn [foldr].
  apply elem_of_cons in H as [->|H].
  - rewrite bytes_eqb_refl. eexists. split; [done|]. destruct (foldr _ _ _); lia.
  - destruct (IH H) as (m & -> & Hm). case_if; eexists; split; try done. lia.
Qed.

Lemma good_reset id now t now' :
  good now' t -> good now' (snd (reset_user id now t)) /\ later t (snd (reset_user id now t)).
Proof.
  intros [I D].
  set (m := fun u => user_is id u && (u_epoch u <? SAFE_INTEGER)).
  set (us := map (fun u => if m u then next_period now t u else u) (users t)).
  change (snd (reset_user id now t)) with (with_users t us).
  assert (Ids : u_id <$> us = u_id <$> users t) by (by apply map_update_keys).
  assert (Iu := inv_users _ I). assert (Il := inv_leases _ I). rewrite Forall_forall in Iu. rewrite Forall_forall in Il.
  split; [split; [split|]|]; try apply I.
  - cbn [users with_users]. rewrite Ids. apply I.
  - apply Forall_forall. intros u' (u & Hu & ->)%In_map_update. destruct (m u) eqn:M; [|by apply Iu].
    unfold m in M. bool_facts. apply Z.ltb_lt in H0. destruct (Iu u Hu) as (He & Hq & Hg).
    assert (Z0 : granted (with_users t us) (next_period now t u) = 0).
    { unfold granted, epoch_leases. cbn [leases with_users u_id u_epoch next_period].
      replace (List.filter _ _) with (@nil lease_row); [done|]. symmetry. apply elem_of_nil_inv.
      intros l (Hl & Pl)%filter_In. unfold in_epoch in Pl. bool_facts. apply bytes_eqb_eq in H1. apply Z.eqb_eq in H2.
      destruct (Il l Hl) as (_ & u0 & Hu0 & E0 & L0 & _). assert (u0 = u) as -> by (eapply user_unique; eauto; congruence). lia. }
    unfold user_ok. rewrite Z0. unfold budget, SAFE_INTEGER in *. cbn [u_epoch u_quota next_period]. case_if; lia.
  - apply Forall_forall. intros l Hl. destruct (Il l Hl) as (Hr & u & Hu & Eu & Le & Lx). split; [done|].
    exists (if m u then next_period now t u else u). split; [apply In_map_update; eauto|]. destruct (m u); [|done].
    cbn [u_id u_epoch u_not_before next_period]. split_and!; [done|lia|]. intros _. rewrite Eu. pose proof (last_expiry_bound t l Hl). lia.
  - cbn [devices with_users users]. rewrite Ids. apply I.
  - unfold devices_ok in *. rewrite Forall_forall in *. intros u' (u & Hu & ->)%In_map_update Hd. destruct (m u); [|by apply D].
    by apply (D u Hu).
  - split.
    + intros l Hl. exists l. split; [done|apply lease_grows_refl].
    + intros u Hu. exists (if m u then next_period now t u else u). split; [apply In_map_update; eauto|]. destruct (m u); cbn; split; try done; lia.
Qed.

Lemma user_reset_keeps env id now now' : keeps now' (sb_proxy_user_reset env id now).
Proof.
  unfold sb_proxy_user_reset. case_if; [by apply keeps_frame; frames|]. apply keeps_transaction. intros s G.
  apply wp_bind, wp_stmt; [done|]. destruct (reset_user id now (db s)) as [n t] eqn:R. case_if; [by apply wp_pure|].
  assert (K : good now' t /\ later (db s) t) by (change t with (snd (n, t)); rewrite <- R; by apply good_reset).
  apply wp_read; [frames|]. intros out s' D'. unfold kept. rewrite D'. exact K.
Qed.

(** *** What a user looks like *)

Definition user_answer (t : tables) (u : user_row) (wait_ms : Z) (id : bytes) : sbj :=
  sbj_set (sbj_set (user_json u (granted t u) (zsum l_used (epoch_leases t (u_id u) (u_epoch u))) wait_ms)
             "host_ids" (SBJ_ARRAY (map (fun h => sbj_str (Some h)) (bound_hosts t id))))
    "devices" (SBJ_ARRAY (map (device_json false) (device_rows t id false 0))).

Lemma devices_locked_spec env id policy now s (Q : sbj -> conn tables (option sb_proxy_clock) -> Prop) :
  (forall s', db s' = db s -> mem s' = mem s -> Q (SBJ_ARRAY (map (device_json policy) (device_rows (db s) id policy now))) s') ->
  wp (devices_locked env id policy now) Q no_care s.
Proof. intros H. apply wp_bind, wp_query; [done|]. apply wp_collect; [done|]. intros s' D M. by apply H. Qed.

Lemma user_locked_spec env id s :
  wp (user_locked env id)
     (fun out s' => db s' = db s /\ exists u w, find_user (db s) id = Some u /\ out = user_answer (db s) u w id) no_care s.
Proof.
  apply wp_bind, wp_stmt; [done|]. unfold user_totals. destruct (find_user (db s) id) as [u|] eqn:F; [|by apply wp_pure].
  destruct (sql_sum l_grant _) as [a|] eqn:Ea; [|done]. destruct (sql_sum l_used _) as [r|] eqn:Er; [|done].
  cbn [mbind result_bind]. apply sql_sum_ok in Ea. apply sql_sum_ok in Er. subst a r.
  apply wp_bind. unfold proxy_wait. apply wp_on_memory. cbn [mem asked db]. destruct (sb_proxy_clock_wait_ms _ _ _ _) as [w c].
  apply wp_bind, wp_query; [done|]. cbn [db mem asked fst snd]. apply wp_bind. apply wp_collect; [done|]. intros s1 D1 _. cbn [db] in D1.
  apply wp_bind. apply devices_locked_spec. intros s2 D2 _. apply wp_ret. rewrite D2, D1. split; [done|]. by exists u, w.
Qed.

Lemma active_count_devices l now :
  active_count (Some (SBJ_ARRAY (map (device_json false) l))) now =
  length (List.filter (fun d => d_enabled d && unexpired (d_expires d) now) l).
Proof.
  unfold active_count. cbn [arr_items]. induction l as [|d l IH]; [done|]. cbn [map List.filter].
  replace (sbj_get_bool (Some (device_json false d)) "enabled" false) with (d_enabled d) by reflexivity.
  replace (sbj_get_int (Some (device_json false d)) "expires_at" 0) with (d_expires d) by reflexivity.
  unfold unexpired. destruct (d_enabled d && _); cbn [length]; by rewrite IH.
Qed.

Lemma filter_filter {R} (p q : R -> bool) l : List.filter p (List.filter q l) = List.filter (fun x => q x && p x) l.
Proof. induction l as [|x l IH]; [done|]. cbn [List.filter]. destruct (q x); cbn [List.filter andb]; by rewrite IH. Qed.

Lemma active_count_user t id now :
  active_count (Some (SBJ_ARRAY (map (device_json false) (device_rows t id false 0)))) now = length (active_devices t id now).
Proof.
  rewrite active_count_devices. unfold device_rows. rewrite (filter_length_Permutation _ _ _ (order_by_Permutation _ _)).
  rewrite filter_filter. unfold active_devices, device_active. f_equal.
  induction (devices t) as [|d l IH]; [done|]. cbn [List.filter]. by rewrite IH, andb_assoc.
Qed.

(** *** Saving *)

Lemma number_ok_int body key lo hi fb : number_ok body key lo hi = true -> lo <= sbj_get_int body key fb <= hi.
Proof.
  unfold number_ok, sbj_get_int. destruct (sbj_get body key) as [[]|]; try done. cbn [sbj_as_int]. intros H. bool_facts.
  apply Z.leb_le in H. apply Z.leb_le in H0. lia.
Qed.

Lemma number_ok_fallback body key lo hi a b : number_ok body key lo hi = true -> sbj_get_int body key a = sbj_get_int body key b.
Proof. unfold number_ok, sbj_get_int. by destruct (sbj_get body key) as [[]|]. Qed.

Lemma user_body_numbers body :
  user_body_valid body = Ok tt ->
  0 <= sbj_get_int body "quota_bytes" 0 <= SAFE_INTEGER /\ 1 <= sbj_get_int body "max_devices" 3 <= 32 /\
  sbj_get_int body "max_devices" 3 = sbj_get_int body "max_devices" 1.
Proof.
  unfold user_body_valid. case_if; [done|]. intros _. bool_facts.
  split; [by apply number_ok_int|]. split; [by apply number_ok_int|by eapply number_ok_fallback].
Qed.

Lemma check_update_spec env id body now s :
  wp (check_update env id body now)
     (fun _ s' => db s' = db s /\ exists u, u ∈ users (db s) /\ u_id u = id /\
        (sbj_get_int body "quota_bytes" 0 = 0 \/ granted (db s) u <= sbj_get_int body "quota_bytes" 0) /\
        Z.of_nat (length (active_devices (db s) id now)) <= sbj_get_int body "max_devices" 1) no_care s.
Proof.
  apply wp_bind. eapply wp_mono; [apply user_locked_spec|..]; [|done].
  intros out s' (D & u & w & F & ->). cbn zeta.
  replace (sbj_get (Some (user_answer (db s) u w id)) "devices")
    with (Some (SBJ_ARRAY (map (device_json false) (device_rows (db s) id false 0)))) by reflexivity.
  replace (sbj_get_int (Some (user_answer (db s) u w id)) "allocated_bytes" 0) with (granted (db s) u) by reflexivity.
  rewrite active_count_user. destruct (_ || _) eqn:E; [by apply wp_pure|]. apply wp_ret. split; [done|]. apply find_In in F as [Hu Pu].
  unfold user_is in Pu. apply andb_true_iff in Pu as [Ei _]. apply bytes_eqb_eq in Ei. exists u.
  apply orb_false_iff in E as [E1 E2]. apply Z.ltb_ge in E2. split_and!; [done|done| |done].
  apply andb_false_iff in E1 as [E1|E1]; [left; by apply negb_false_iff, Z.eqb_eq in E1|right; by apply Z.ltb_ge in E1].
Qed.

Lemma bind_hosts_spec env id hosts s :
  wp (bind_hosts env id hosts) (fun _ s' => exists nodes, db s' = with_nodes (db s) nodes) no_care s.
Proof.
  revert s. induction hosts as [|h hosts IH]; intros s; cbn [bind_hosts].
  - apply wp_ret. exists (user_nodes (db s)). by destruct (db s).
  - apply wp_bind, wp_stmt; [done|]. destruct (sql_insert _ _ _) as [l|]; [|done]. cbn [mbind result_bind].
    eapply wp_mono; [apply IH|..]; [|done]. intros _ s' [nodes ->]. by exists nodes.
Qed.

Lemma good_upsert_old id body now t u :
  user_body_valid body = Ok tt -> good now t -> u ∈ users t -> u_id u = id ->
  (sbj_get_int body "quota_bytes" 0 = 0 \/ granted t u <= sbj_get_int body "quota_bytes" 0) ->
  Z.of_nat (length (active_devices t id now)) <= sbj_get_int body "max_devices" 1 ->
  good now (upsert_user id body now t) /\ later t (upsert_user id body now t).
Proof.
  intros B [I D] Hu Eu Hq Hm. destruct (user_body_numbers body B) as (Bq & Bm & Em).
  unfold upsert_user, sql_upsert. rewrite (proj2 (existsb_In _ _)); [|exists u; split; [done|by rewrite Eu, bytes_eqb_refl]].
  set (m := fun u => bytes_eqb (u_id u) id). 
  set (us := map (fun r => if m r then saved_user body now r else r) (users t)).
  change (map _ (users t)) with us.
  assert (Ids : u_id <$> us = u_id <$> users t) by (by apply map_update_keys).
  assert (Iu := inv_users _ I). assert (Il := inv_leases _ I). rewrite Forall_forall in Iu. rewrite Forall_forall in Il.
  split; [split; [split|]|]; try apply I.
  - cbn [users with_users]. rewrite Ids. apply I.
  - apply Forall_forall. intros u' (x & Hx & ->)%In_map_update. destruct (m x) eqn:M; [|by apply Iu].
    unfold m in M. apply bytes_eqb_eq in M. assert (x = u) as -> by (eapply user_unique; eauto; congruence).
    destruct (Iu u Hu) as (He & _ & Hg). unfold user_ok. split_and!; [apply He|apply He|apply Bq|apply Bq|].
    change (granted t u <= budget (saved_user body now u)). unfold budget in *. cbn [u_quota saved_user]. case_if; [|lia]. revert Hg. case_if; unfold SAFE_INTEGER in *; [done|].
    destruct (Iu u Hu) as (_ & Hq' & _). unfold SAFE_INTEGER in *. lia.
  - apply Forall_forall. intros l Hl. destruct (Il l Hl) as (Hr & x & Hx & Ex & Lx). split; [done|].
    exists (if m x then saved_user body now x else x). split; [apply In_map_update; eauto|]. by destruct (m x).
  - cbn [devices with_users users]. rewrite Ids. apply I.
  - unfold devices_ok in *. rewrite Forall_forall in *. intros u' (x & Hx & ->)%In_map_update Hd. destruct (m x) eqn:M; [|by apply D].
    unfold m in M. apply bytes_eqb_eq in M. change (Z.of_nat (length (active_devices t (u_id x) now)) <= sbj_get_int body "max_devices" 3). by rewrite M, Em.
  - split.
    + intros l Hl. exists l. split; [done|apply lease_grows_refl].
    + intros x Hx. exists (if m x then saved_user body now x else x). split; [apply In_map_update; eauto|]. destruct (m x); cbn; split; try done; lia.
Qed.

Lemma good_upsert_new id body now t :
  user_body_valid body = Ok tt -> good now t -> id ∉ u_id <$> users t ->
  good now (upsert_user id body now t) /\ later t (upsert_user id body now t).
Proof.
  intros B [I D] Hid. destruct (user_body_numbers body B) as (Bq & Bm & _).
  assert (Nu : forall u, u ∈ users t -> u_id u <> id) by (intros u Hu <-; apply Hid; by apply list_elem_of_fmap_2).
  unfold upsert_user, sql_upsert. rewrite (proj2 (existsb_none _ _)); [|intros u Hu; by apply bytes_eqb_neq, Nu].
  set (t' := with_users t (users t ++ [new_user id body now])).
  assert (Iu := inv_users _ I). assert (Il := inv_leases _ I). assert (Id := inv_devices _ I).
  rewrite Forall_forall in Iu. rewrite Forall_forall in Il. rewrite Forall_forall in Id.
  split; [split; [split|]|]; try apply I.
  - unfold t'; cbn [users with_users]. rewrite fmap_app. apply NoDup_app. split_and!; [apply I| |apply NoDup_singleton].
    intros x Hx Hx'. apply list_elem_of_singleton in Hx'. by subst.
  - apply Forall_app. split; [apply Forall_forall; apply Iu|]. repeat constructor; cbn [u_epoch u_quota new_user]; try (unfold SAFE_INTEGER in *; lia).
    assert (Z0 : granted t' (new_user id body now) = 0).
    { unfold granted, epoch_leases. unfold t'; cbn [leases with_users u_id new_user]. replace (List.filter _ _) with (@nil lease_row); [done|]. symmetry.
      apply elem_of_nil_inv. intros l (Hl & Pl)%filter_In. unfold in_epoch in Pl. bool_facts. apply bytes_eqb_eq in H.
      destruct (Il l Hl) as (_ & u & Hu & Eu & _). apply (Nu u Hu). congruence. }
    rewrite Z0. unfold budget. cbn [u_quota new_user]. case_if; unfold SAFE_INTEGER in *; lia.
  - apply Forall_forall. intros l Hl. destruct (Il l Hl) as (Hr & u & Hu & Eu & R). split; [done|]. exists u. split; [|done].
    apply elem_of_app. by left.
  - apply Forall_forall. intros d Hd. unfold t'; cbn [users with_users]. rewrite fmap_app. apply elem_of_app. left. by apply Id.
  - unfold devices_ok in *. apply Forall_app. split; [exact D|]. repeat constructor. intros _. cbn [u_id u_max_devices new_user].
    replace (active_devices t' id now) with (@nil device_row); [cbn; lia|]. symmetry. apply elem_of_nil_inv.
    intros d (Hd & Pd)%filter_In. unfold device_active in Pd. bool_facts. apply bytes_eqb_eq in H. apply Hid. rewrite <- H. by apply Id.
  - split; intros x Hx; exists x; [auto using lease_grows_refl|]. split_and!; [apply elem_of_app; by left|done|lia].
Qed.

(** The identifier drawn for a new user is not in use. *)
Definition fresh_id (env : environment) (id : option bytes) (s : conn tables (option sb_proxy_clock)) : Prop :=
  id = None -> sb_uuid_v4 (uuid_random env (asked s)) ∉ u_id <$> users (db s).

Lemma save_locked_keeps env id generated body now s :
  user_body_valid body = Ok tt -> good now (db s) -> (generated = true -> id ∉ u_id <$> users (db s)) ->
  wp (save_locked env id generated body now) (kept now s) no_care s.
Proof.
  intros B G F.
  assert (W : wp (if generated then check_room env else check_update env id body now)
             (fun _ s' => db s' = db s /\ (good now (upsert_user id body now (db s)) /\ later (db s) (upsert_user id body now (db s)))) no_care s).
  { destruct generated.
    - apply wp_read; [frames|]. intros _ s' D. split; [done|]. apply good_upsert_new; auto.
    - eapply wp_mono; [apply check_update_spec|..]; [|done]. intros _ s' (D & u & Hu & Eu & Hq & Hm). split; [done|].
      by apply (good_upsert_old id body now _ u). }
  apply wp_bind. eapply wp_mono; [exact W|..]; [|done]. clear W. intros _ s1 (D1 & G1 & L1).
  apply wp_bind. apply wp_read; [frames|]. intros _ s2 D2. apply wp_bind, wp_stmt; [done|].
  apply wp_bind, wp_stmt; [done|]. apply wp_bind. eapply wp_mono; [apply bind_hosts_spec|..]; [|done].
  intros _ s3 [nodes D3]. apply wp_read; [frames|]. intros out s4 D4. unfold kept. rewrite D4, D3. cbn [db].
  rewrite D2, D1. destruct (good_other now (upsert_user id body now (db s)) (with_nodes (upsert_user id body now (db s)) nodes)) as [G2 L2]; [done..|].
  split; [exact G2|]. by eapply later_trans.
Qed.

Lemma user_save_keeps env id body now s :
  good now (db s) -> fresh_id env id s -> wp (sb_proxy_user_save env id body now) (kept now s) (unchanged s) s.
Proof.
  intros G F. unfold sb_proxy_user_save. apply wp_bind, wp_pure. destruct (user_body_valid body) as [[]|e] eqn:B; [|done].
  assert (T : forall i g s1, db s1 = db s -> (g = true -> i ∉ u_id <$> users (db s)) ->
    wp (transaction (fault env) (save_locked env i g body now)) (kept now s) (unchanged s) s1).
  { intros i g s1 D H. apply wp_transaction; [done|].
    eapply wp_mono; [apply save_locked_keeps; [done|cbn [db]; by rewrite D|cbn [db]; by rewrite D]|..].
    - intros a s2 [G2 L2]. cbn [db] in L2. rewrite D in L2. by split.
    - intros e s2 _. done. }
  destruct id as [id|]; [by apply T|].
  apply wp_bind, wp_ask. apply T; [done|]. intros _. by apply F.
Qed.
