(* ===== verification/ProxyLeaseProofs.v ===== *)
(** * Leases: grants, reports and the exchange

    The exchange keeps the invariant of [ProxyQuota], and every user in its answer
    may have the lease it gets. *)

From S2P Require Import Prelude Util Json JsonText Types ProxyClock Sqlite ProxyTables ProxyUsers ProxyLease SqliteProofs ProxyQuota.

(** ** Arithmetic of grants *)

Lemma next_grant_bounds quota allocated nodes grant used :
  1 <= nodes -> 0 <= grant ->
  grant <= next_grant quota allocated nodes grant used /\
  (allocated <= (if quota =? 0 then SAFE_INTEGER else quota) ->
   allocated + (next_grant quota allocated nodes grant used - grant) <= (if quota =? 0 then SAFE_INTEGER else quota)).
Proof.
  intros Hn Hg. unfold next_grant. set (b := if quota =? 0 then SAFE_INTEGER else quota). cbv zeta.
  destruct (_ && _) eqn:E; [|lia]. apply andb_true_iff in E as [_ E]. apply Z.ltb_lt in E.
  set (a := b - allocated) in *. set (add := a / nodes + (if a mod nodes =? 0 then 0 else 1)).
  assert (A : 0 < add <= a).
  { subst add. pose proof (Z.mod_pos_bound a nodes ltac:(lia)). pose proof (Z.div_mod a nodes ltac:(lia)) as DM.
    assert (0 <= a / nodes) by (apply Z.div_pos; lia). destruct (a mod nodes =? 0) eqn:M; [apply Z.eqb_eq in M|apply Z.eqb_neq in M]; nia. }
  unfold GRANT_CHUNK. case_if; lia.
Qed.

(** ** One lease changed *)

Lemma lease_key_index user host boot epoch l :
  lease_key user host boot epoch l = true <-> lease_index l = (user, host, boot, epoch).
Proof.
  unfold lease_key, lease_index. rewrite !andb_true_iff, !bytes_eqb_eq, Z.eqb_eq. split.
  - by intros [[[-> ->] ->] ->].
  - by intros [= -> -> -> ->].
Qed.

Lemma lease_unique_id t l l' : inv t -> l ∈ leases t -> l' ∈ leases t -> l_id l = l_id l' -> l = l'.
Proof. intros I. apply NoDup_fmap_inj_on, I. Qed.

Lemma lease_unique_index t l l' : inv t -> l ∈ leases t -> l' ∈ leases t -> lease_index l = lease_index l' -> l = l'.
Proof. intros I. apply NoDup_fmap_inj_on, I. Qed.

Lemma inv_leases_NoDup t : inv t -> NoDup (leases t).
Proof. intros I. eapply NoDup_fmap_1, (inv_lease_ids _ I). Qed.

(** Leases are changed by [g] where [m] holds, keeping what identifies them. *)
Lemma good_update_leases now t (m : lease_row -> bool) (g : lease_row -> lease_row) :
  (forall l, l ∈ leases t -> m l = true -> lease_grows l (g l) /\ lease_ok t (g l)) ->
  (forall u, u ∈ users t ->
     granted (with_leases t (map (fun l => if m l then g l else l) (leases t))) u <= budget u) ->
  good now t ->
  good now (with_leases t (map (fun l => if m l then g l else l) (leases t))) /\
  later t (with_leases t (map (fun l => if m l then g l else l) (leases t))).
Proof.
  intros Hg Hb [I D]. assert (K : forall {K} (key : lease_row -> K), (forall l l', lease_grows l l' -> key l' = key l) ->
    key <$> map (fun l => if m l then g l else l) (leases t) = key <$> leases t).
  { intros K key Hk. clear Hb D. induction (leases t) as [|x l IH] in Hg |- *; [done|].
    cbn [map]. rewrite !fmap_cons, IH by (intros y Hy; apply Hg; by right). f_equal.
    destruct (m x) eqn:M; [|done]. apply Hk, Hg; [left|done]. }
  split; [split; [split|exact D]|]; cbn [users leases devices with_leases]; try apply I.
  - rewrite K; [apply I|]. by intros l l' (? & _).
  - rewrite K; [apply I|]. by intros l l' (_ & ? & _).
  - assert (Iu := inv_users _ I). rewrite Forall_forall in *. intros u Hu. destruct (Iu u Hu) as (H1 & H2 & _).
    split; [done|]. split; [done|]. by apply Hb.
  - assert (Il := inv_leases _ I). rewrite Forall_forall in *. intros l' (l & Hl & ->)%In_map_update.
    destruct (m l) eqn:M; [by apply Hg|by apply Il].
  - split.
    + intros l Hl. exists (if m l then g l else l). split; [apply In_map_update; eauto|].
      destruct (m l) eqn:M; [by apply Hg|apply lease_grows_refl].
    + intros u Hu. exists u. split_and!; [done|done|lia].
Qed.

(** *** A report *)

Definition reported (used now : Z) (l : lease_row) : lease_row :=
  mk_lease (l_id l) (l_user l) (l_host l) (l_boot l) (l_epoch l) (l_grant l) used (l_expires l) now.

Lemma granted_reported t (m : lease_row -> bool) used now u :
  granted (with_leases t (map (fun l => if m l then reported used now l else l) (leases t))) u = granted t u.
Proof.
  unfold granted, epoch_leases. cbn [leases with_leases]. rewrite filter_map_update by done.
  apply zsum_map. intros l _. by destruct (m l).
Qed.

Lemma good_report now t id used now' l :
  good now t -> l ∈ leases t -> l_id l = id -> l_used l <= used <= l_grant l ->
  good now (set_used_bytes id used now' t) /\ later t (set_used_bytes id used now' t).
Proof.
  intros G Hl El Hu. apply (good_update_leases now t (fun l => bytes_eqb (l_id l) id) (reported used now')); [| |done].
  - intros x Hx Mx. apply bytes_eqb_eq in Mx. destruct G as [I _]. assert (x = l) as -> by (eapply lease_unique_id; eauto; congruence).
    assert (Il := inv_leases _ I). rewrite Forall_forall in Il. destruct (Il l Hl) as (Hr & R). split.
    + unfold lease_grows, reported. cbn. repeat split; lia.
    + split; [cbn; lia|exact R].
  - intros u Hx. rewrite granted_reported. destruct G as [I _]. assert (Iu := inv_users _ I). rewrite Forall_forall in Iu.
    by apply Iu.
Qed.

(** *** A grant *)

Definition regranted (fresh l : lease_row) : lease_row :=
  mk_lease (l_id l) (l_user l) (l_host l) (l_boot l) (l_epoch l) (l_grant fresh) (l_used l) (l_expires fresh) (l_updated fresh).

(** What a lease being stored must satisfy: it belongs to a user in its epoch,
    and what it adds to the grants fits the budget. *)
Definition grantable (t : tables) (u : user_row) (fresh : lease_row) : Prop :=
  u ∈ users t /\ l_user fresh = u_id u /\ l_epoch fresh = u_epoch u /\ 0 <= l_used fresh <= l_grant fresh /\
  match List.find (lease_key (l_user fresh) (l_host fresh) (l_boot fresh) (l_epoch fresh)) (leases t) with
  | Some l => l_id fresh = l_id l /\ l_used fresh = l_used l /\ l_grant l <= l_grant fresh /\
              granted t u + (l_grant fresh - l_grant l) <= budget u
  | None => granted t u + l_grant fresh <= budget u
  end.

Lemma granted_other t l' u : in_epoch (u_id u) (u_epoch u) l' = false -> granted (with_leases t (leases t ++ [l'])) u = granted t u.
Proof. intros H. unfold granted, epoch_leases. cbn [leases with_leases]. rewrite filter_app. cbn [List.filter]. rewrite H. by rewrite app_nil_r. Qed.

Lemma in_epoch_same u l : in_epoch (u_id u) (u_epoch u) l = true <-> l_user l = u_id u /\ l_epoch l = u_epoch u.
Proof. unfold in_epoch. by rewrite andb_true_iff, bytes_eqb_eq, Z.eqb_eq. Qed.

(** The lease is in the table afterwards. *)
Definition lease_is (fresh l : lease_row) : Prop :=
  l_id l = l_id fresh /\ lease_index l = lease_index fresh /\ l_grant l = l_grant fresh /\ l_used l = l_used fresh /\
  l_expires l = l_expires fresh.

Definition lease_stored (t : tables) (fresh : lease_row) (t' : tables) : Prop :=
  t' = with_leases t (leases t') /\ (exists l, l ∈ leases t' /\ lease_is fresh l) /\
  (forall l, l ∈ leases t -> l_user l <> l_user fresh -> l ∈ leases t').

Lemma regrant_spec now t u fresh l :
  good now t -> grantable t u fresh -> l ∈ leases t -> lease_index l = lease_index fresh ->
  let t' := with_leases t (map (fun x => if lease_key (l_user fresh) (l_host fresh) (l_boot fresh) (l_epoch fresh) x
                                         then regranted fresh x else x) (leases t)) in
  (good now t' /\ later t t') /\ lease_stored t fresh t'.
Proof.
  intros G (Hu & Eu & Ee & Hf & HF) Hl Ei. set (m := lease_key _ _ _ _) in *.
  assert (Ml : m l = true) by (by apply lease_key_index).
  assert (Uniq : forall x, x ∈ leases t -> m x = true -> x = l).
  { intros x Hx Mx. apply lease_key_index in Mx. eapply lease_unique_index; [apply G|done|done|]. rewrite Ei. exact Mx. }
  destruct (List.find m (leases t)) as [l0|] eqn:F; [|by rewrite (find_none_In m _ l F Hl) in Ml].
  pose proof (find_In _ _ _ F) as [Hl0 Ml0]. assert (l0 = l) as -> by (by apply Uniq).
  destruct HF as (Fi & Fu & Fg & Fb). injection Ei as E1 E2 E3 E4.
  intros t'. split.
  - apply good_update_leases; [| |done].
    + intros x Hx Mx. assert (x = l) as -> by (by apply Uniq). split.
      * unfold lease_grows, regranted, lease_index. cbn. repeat split; lia.
      * split; [cbn; lia|]. exists u. cbn. split_and!; [done|congruence|lia|lia].
    + intros u' Hu'. assert (Iu := inv_users _ (proj1 G)). rewrite Forall_forall in Iu. destruct (Iu u' Hu') as (_ & _ & Hb).
      unfold granted, epoch_leases. cbn [leases with_leases]. rewrite filter_map_update by done.
      destruct (in_epoch (u_id u') (u_epoch u') l) eqn:Pl.
      * apply in_epoch_same in Pl as Pl'. assert (u' = u) as -> by (eapply user_unique; [apply G|done|done|]; destruct Pl'; congruence).
        rewrite (zsum_map_one l_grant m (regranted fresh) _ l (l_grant fresh - l_grant l)); [exact Fb| | | | |cbn; lia].
        -- apply filter_In. by split.
        -- done.
        -- intros y (Hy & _)%filter_In. by apply Uniq.
        -- apply NoDup_filter_list, inv_leases_NoDup, G.
      * rewrite zsum_map; [exact Hb|]. intros x (Hx & Px)%filter_In. destruct (m x) eqn:Mx; [|done].
        assert (x = l) as -> by (by apply Uniq). congruence.
  - split; [done|]. split.
    + exists (regranted fresh l). split; [apply In_map_update; exists l; by rewrite Ml|]. unfold lease_is, regranted, lease_index. cbn.
      split_and!; [by rewrite Fi|congruence|done|by rewrite Fu|done].
    + intros x Hx Nx. apply In_map_update. exists x. split; [done|]. destruct (m x) eqn:Mx; [|done].
      assert (x = l) as -> by (by apply Uniq). congruence.
Qed.

Lemma first_grant_spec now t u fresh :
  good now t -> grantable t u fresh -> (forall l, l ∈ leases t -> lease_index l <> lease_index fresh) ->
  l_id fresh ∉ l_id <$> leases t ->
  let t' := with_leases t (leases t ++ [fresh]) in (good now t' /\ later t t') /\ lease_stored t fresh t'.
Proof.
  intros G (Hu & Eu & Ee & Hf & HF) Ni Nid t'. destruct (List.find _ (leases t)) as [l0|] eqn:F.
  { apply find_In in F as [Hl0 Ml0]. apply lease_key_index in Ml0. by destruct (Ni l0 Hl0). }
  assert (Iu := inv_users _ (proj1 G)). rewrite Forall_forall in Iu. split.
  - unfold t'. split; [split; [split|apply G]|]; cbn [users leases devices with_leases]; try apply G.
    + rewrite fmap_app. apply NoDup_app. split_and!; [apply G| |apply NoDup_singleton].
      intros x Hx Hx'. apply list_elem_of_singleton in Hx'. by subst.
    + rewrite fmap_app. apply NoDup_app. split_and!; [apply G| |apply NoDup_singleton].
      intros x Hx Hx'. apply list_elem_of_singleton in Hx'. subst x. apply list_elem_of_fmap in Hx as (l & El & Hl). by destruct (Ni l Hl).
    + apply Forall_forall. intros u' Hu'. destruct (Iu u' Hu') as (H1 & H2 & Hb). split; [done|]. split; [done|].
      destruct (in_epoch (u_id u') (u_epoch u') fresh) eqn:P; [|by rewrite granted_other].
      apply in_epoch_same in P as P'. assert (u' = u) as -> by (eapply user_unique; [apply G|done|done|]; destruct P'; congruence).
      unfold granted, epoch_leases. cbn [leases with_leases]. rewrite filter_app, zsum_app. cbn [List.filter]. rewrite P.
      cbn [zsum]. unfold granted, epoch_leases in HF. lia.
    + apply Forall_app. split; [apply G|]. repeat constructor; try lia. exists u. split_and!; [done|done|lia|lia].
    + split; intros x Hx; exists x; [split; [apply elem_of_app; by left|apply lease_grows_refl]|split_and!; [done|done|lia]].
  - split; [done|]. split.
    + exists fresh. split; [apply elem_of_app; right; left|done].
    + intros l Hl _. apply elem_of_app. by left.
Qed.

Lemma store_lease_spec now t u fresh t' :
  good now t -> grantable t u fresh -> store_lease fresh t = Ok (tt, t') ->
  (good now t' /\ later t t') /\ lease_stored t fresh t'.
Proof.
  intros G Gr. unfold store_lease, sql_upsert. set (m := lease_key _ _ _ _). destruct (existsb m (leases t)) eqn:E.
  - cbn [negb andb]. intros [_ <-]%Ok_inj%pair_inj. apply existsb_In in E as (l & Hl & Ml). apply lease_key_index in Ml. by apply (regrant_spec now t u fresh l).
  - cbn [negb andb]. destruct (existsb (fun l => bytes_eqb (l_id l) (l_id fresh)) (leases t)) eqn:Ex; [done|]. intros [_ <-]%Ok_inj%pair_inj. apply (first_grant_spec now t u); [done|done| |].
    + intros l Hl Ei. rewrite existsb_none in E. specialize (E l Hl). apply lease_key_index in Ei. unfold m in E. congruence.
    + intros (l & El & Hl)%list_elem_of_fmap. rewrite existsb_none in Ex. specialize (Ex l Hl). apply bytes_eqb_neq in Ex. congruence.
Qed.

(** ** The lease of a user *)

(** The entry of a user in an answer: its lease is stored, has bytes left, ends
    within a minute and with the user, and the user has working devices. *)
Definition lease_entry (host boot : bytes) (now : Z) (t : tables) (u : user_row) (v : sbj) : Prop :=
  active_devices t (u_id u) now <> [] /\
  exists l, l ∈ leases t /\ lease_index l = (u_id u, host, boot, u_epoch u) /\ l_used l < l_grant l /\
    now < l_expires l <= now + LEASE_SECONDS /\ (u_expires u <> 0 -> l_expires l <= u_expires u) /\
    v = lease_json (u_id u) (u_epoch u) (l_id l) (l_grant l) (l_used l) (l_expires l)
          (SBJ_ARRAY (map (device_json true) (device_rows t (u_id u) true now))).

(** Only leases change, and none of other users. *)
Definition only_leases (user : bytes) (t t' : tables) : Prop :=
  t' = with_leases t (leases t') /\ forall l, l ∈ leases t -> l_user l <> user -> l ∈ leases t'.

Lemma only_leases_refl user t : only_leases user t t.
Proof. split; [by destruct t|done]. Qed.

Lemma lease_locked_spec env host boot u now s :
  good now (db s) -> u ∈ users (db s) -> unexpired (u_expires u) now = true ->
  wp (lease_locked env host boot (u_id u) (u_epoch u) (u_quota u) (u_expires u) now)
     (fun r s' => kept now s r s' /\ only_leases (u_id u) (db s) (db s') /\
                  forall v, r = Some v -> lease_entry host boot now (db s') u v) no_care s.
Proof.
  intros G Hu Hx. assert (N : forall s', db s' = db s ->
    kept now s (None : option sbj) s' /\ only_leases (u_id u) (db s) (db s') /\
    forall v, None = Some v -> lease_entry host boot now (db s') u v).
  { intros s' D. unfold kept. rewrite D. split; [split; [done|apply later_refl]|]. split; [apply only_leases_refl|by intros ? [=]]. }
  apply wp_bind, devices_locked_spec. intros s1 D1 _. case_if; [apply wp_ret; by apply N|].
  apply wp_bind, wp_query; [done|]. cbn [db]. set (m := lease_key _ _ _ _). set (row := List.find m _).
  set (g0 := match row with Some l => l_grant l | None => 0 end). set (u0 := match row with Some l => l_used l | None => 0 end).
  apply wp_bind, wp_stmt; [done|]. cbn [db]. destruct (sql_sum _ _) as [a|] eqn:Ea; [|done]. cbn [mbind result_bind].
  apply sql_sum_ok in Ea. apply wp_bind, wp_query; [done|]. cbn [db]. set (nodes := Z.of_nat _).
  case_if; [by apply wp_pure|]. case_if; [apply wp_ret; by apply N|]. set (grant := next_grant _ _ _ _ _) in *.
  set (until := if _ && _ then u_expires u else now + LEASE_SECONDS).
  assert (R : forall l, row = Some l -> l ∈ leases (db s) /\ m l = true) by (intros l; unfold row; rewrite D1; apply find_In).
  assert (H0 : 0 <= u0 <= g0).
  { unfold u0, g0. destruct row as [l|]; [|lia]. destruct (R l eq_refl) as [Hl _]. assert (Il := inv_leases _ (proj1 G)).
    rewrite Forall_forall in Il. by apply Il. }
  assert (Iu := inv_users _ (proj1 G)). rewrite Forall_forall in Iu. destruct (Iu u Hu) as (_ & _ & Hb).
  destruct (next_grant_bounds (u_quota u) a nodes g0 u0) as [B1 B2]; [lia|lia|]. fold grant in B1, B2.
  assert (Ea' : a = granted (db s) u) by (rewrite Ea, D1; done).
  assert (Gr : forall id, (forall l, row = Some l -> id = l_id l) ->
    grantable (db s) u (mk_lease id (u_id u) host boot (u_epoch u) grant u0 until now)).
  { intros id Hid. unfold grantable. cbn [l_user l_epoch l_used l_grant l_host l_boot l_id]. split_and!; [done|done|done|lia|lia|].
    fold m. rewrite <- D1. fold row. specialize (B2 ltac:(rewrite Ea'; exact Hb)). unfold u0, g0, budget in *.
    destruct row as [l|]; [|rewrite D1, <- Ea'; lia]. split_and!; [by apply Hid|done|lia|rewrite D1, <- Ea'; lia]. }
  apply wp_bind.
  assert (W : wp (match row with Some l => mret (l_id l) | None => new_uuid env end)
                 (fun id s' => db s' = db s /\ forall l, row = Some l -> id = l_id l) no_care
                 (mk_conn (db s1) (mem s1) (S (S (S (asked s1)))))).
  { destruct row as [l|]; [apply wp_ret; split; [done|by intros ? [= ->]]|]. unfold new_uuid. apply wp_ask. by split. }
  cbn [mem asked db] in *. eapply wp_mono; [exact W|..]; [|done]. clear W. intros id s2 [D2 Hid].
  apply wp_bind, wp_stmt; [done|]. rewrite D2. destruct (store_lease _ _) as [[[] t']|] eqn:St; [|done].
  destruct (store_lease_spec now (db s) u _ t' G (Gr id Hid) St) as [K (Et & (l & Hl & Ii & Ix & Ig & Iuse & Ie) & Ho)].
  apply wp_ret. split; [exact K|]. split; [by split|]. cbn [db]. intros v [= <-]. split.
  - rewrite Et. intros En. unfold device_rows in E. cbn [arr_items sbj_arr_len] in E.
    change (active_devices (with_leases (db s) (leases t')) (u_id u) now) with (active_devices (db s) (u_id u) now) in En.
    rewrite En in E. done.
  - exists l. cbn [l_id l_grant l_used l_expires lease_index l_user l_host l_boot l_epoch] in *. rewrite Ii, Ig, Iuse, Ie.
    split_and!; [done|done|lia| | | |by rewrite Et].
    + unfold until. unfold unexpired in Hx. destruct (_ && _) eqn:Eb; [|unfold LEASE_SECONDS; lia].
      apply andb_true_iff in Eb as [Eb _]. apply negb_true_iff in Eb. rewrite Eb in Hx. by apply Z.ltb_lt in Hx.
    + unfold until. destruct (_ && _) eqn:Eb; [|done]. apply andb_true_iff in Eb as [_ Eb]. apply Z.ltb_lt in Eb. by apply Z.lt_le_incl.
    + intros Nx. unfold until. destruct (_ && _) eqn:Eb; [done|]. apply andb_false_iff in Eb as [Eb|Eb].
      * by apply negb_false_iff, Z.eqb_eq in Eb.
      * by apply Z.ltb_ge in Eb.
Qed.

(** ** The exchange *)

Lemma lease_entry_other host boot now t t' u v user :
  only_leases user t t' -> u_id u <> user -> lease_entry host boot now t u v -> lease_entry host boot now t' u v.
Proof.
  intros [Et Hl] Hn (Ha & l & Hin & Hi & R). rewrite Et. split; [exact Ha|]. exists l. split; [|by split].
  apply Hl; [done|]. injection Hi as -> _ _ _. done.
Qed.

Lemma leased_users_In t host now u :
  u ∈ leased_users t host now <->
  u ∈ users t /\ (u_id u, host) ∈ user_nodes t /\ u_enabled u = true /\ u_deleted u = false /\ unexpired (u_expires u) now = true.
Proof.
  unfold leased_users. rewrite order_by_In, filter_In, !andb_true_iff, negb_true_iff, existsb_In. split.
  - intros [Hu [[[(b & Hb & Eb) He] Hd] Hx]]. apply andb_true_iff in Eb as [E1 E2]. apply bytes_eqb_eq in E1. apply bytes_eqb_eq in E2.
    destruct b as [b1 b2]. cbn in *. by subst.
  - intros (Hu & Hb & He & Hd & Hx). split; [done|]. split_and!; try done. exists (u_id u, host). split; [done|]. cbn. by rewrite !bytes_eqb_refl.
Qed.

Lemma leased_users_NoDup t host now : inv t -> NoDup (u_id <$> leased_users t host now).
Proof.
  intros I. unfold leased_users. rewrite (order_by_Permutation _ _). pose proof (inv_user_ids _ I) as N.
  induction (users t) as [|x l IH]; [constructor|]. rewrite fmap_cons in N. apply NoDup_cons in N as [Nx Nl].
  cbn [List.filter]. destruct (_ && _); [|by apply IH]. rewrite fmap_cons. apply NoDup_cons. split; [|by apply IH].
  intros (y & Ey & Hy)%list_elem_of_fmap. apply filter_In in Hy as [Hy _]. apply Nx. rewrite Ey. by apply list_elem_of_fmap_2.
Qed.

(** The users of an answer: their entries, each of a user that may have it. *)
Definition answer_entries (host boot : bytes) (now : Z) (rows : list user_row) (t : tables) (es : list (user_row * sbj)) : Prop :=
  Forall (fun e => fst e ∈ rows /\ u_not_before (fst e) <= now /\ lease_entry host boot now t (fst e) (snd e)) es.

Section Exchange.
Context (env : environment) (host boot : bytes) (now : Z).

Lemma lease_user_spec u out s (P : sbj -> conn tables (option sb_proxy_clock) -> Prop) :
  good now (db s) -> u ∈ users (db s) -> unexpired (u_expires u) now = true ->
  (forall s', good now (db s') -> later (db s) (db s') -> only_leases (u_id u) (db s) (db s') -> P out s') ->
  (forall v s', good now (db s') -> later (db s) (db s') -> only_leases (u_id u) (db s) (db s') ->
     u_not_before u <= now -> lease_entry host boot now (db s') u v -> P (sbj_arr_push out (Some v)) s') ->
  wp (lease_user env host boot now u out) P no_care s.
Proof.
  intros G Hu Hx H1 H2. unfold lease_user. apply wp_bind, wp_read; [frames|]. intros w s1 D1. case_if.
  - apply wp_ret. apply H1; rewrite D1; [done|apply later_refl|apply only_leases_refl].
  - apply wp_bind. eapply wp_mono; [apply lease_locked_spec; try rewrite D1; done|..]; [|done].
    intros r s2 ([G2 L2] & O2 & Hv). rewrite D1 in L2, O2.
    apply wp_ret. destruct r as [v|]; [apply H2; auto; lia|by apply H1].
Qed.

Lemma lease_loop_spec rows s :
  good now (db s) -> NoDup (u_id <$> rows) -> (forall u, u ∈ rows -> u ∈ users (db s) /\ unexpired (u_expires u) now = true) ->
  wp (for_rows (fault env) rows (lease_user env host boot now) (SBJ_ARRAY []))
     (fun out s' => kept now s out s' /\ db s' = with_leases (db s) (leases (db s')) /\
        exists es, out = SBJ_ARRAY (map snd es) /\ answer_entries host boot now rows (db s') es) no_care s.
Proof.
  intros G N Hr.
  apply (wp_for_rows _ (fun rest out s' => (exists pre, rows = pre ++ rest) /\ kept now s out s' /\
    db s' = with_leases (db s) (leases (db s')) /\
    exists es, out = SBJ_ARRAY (map snd es) /\ answer_entries host boot now rows (db s') es /\
               forall e, e ∈ es -> u_id (fst e) ∉ u_id <$> rest)).
  - done.
  - done.
  - intros u rest out s1 ([pre Epre] & [G1 L1] & D1 & es & -> & He & Hd). rewrite Epre in N.
    rewrite fmap_app, fmap_cons in N. apply NoDup_app in N as (_ & _ & [Nu Nr]%NoDup_cons).
    assert (Pre : exists p, rows = p ++ rest) by (exists (pre ++ [u]); by rewrite <- app_assoc).
    assert (Hu : u ∈ rows) by (rewrite Epre; apply elem_of_app; right; left).
    assert (St : forall s' : conn tables (option sb_proxy_clock), only_leases (u_id u) (db s1) (db s') -> db s' = with_leases (db s) (leases (db s')) /\
                  answer_entries host boot now rows (db s') es).
    { intros s' O. split; [destruct O as [O _]; rewrite O, D1; done|]. unfold answer_entries in *. rewrite Forall_forall in *.
      intros e Hin. destruct (He e Hin) as (A & B & C). split_and!; [done|done|]. eapply lease_entry_other; [exact O| |exact C].
      intros E. apply (Hd e Hin). rewrite E. left. }
    assert (Hr' : forall e, e ∈ es -> u_id e.1 ∉ u_id <$> rest).
    { intros e Hin H. apply (Hd e Hin). rewrite fmap_cons. by right. }
    apply lease_user_spec; [done|rewrite D1; by apply Hr|by apply Hr| |].
    + intros s' G' L' O. destruct (St s' O) as [D' He']. split; [done|]. split; [split; [done|by eapply later_trans]|]. split; [done|].
      exists es. by split.
    + intros v s' G' L' O Nb E. destruct (St s' O) as [D' He']. split; [done|]. split; [split; [done|by eapply later_trans]|]. split; [done|].
      exists (es ++ [(u, v)]). cbn [sbj_arr_push or_null]. rewrite map_app. split; [done|]. split.
      * apply Forall_app. split; [done|]. apply Forall_singleton. done.
      * intros e [Hin| ->%list_elem_of_singleton]%elem_of_app; [by apply Hr'|done].
  - intros out s1 (_ & K & D & es & E & He & _). split; [done|]. split; [done|]. by exists es.
  - split; [by exists []|]. split; [split; [done|apply later_refl]|]. split; [by destruct (db s)|]. exists []. split_and!; [done|constructor|].
    by intros e ?%elem_of_nil.
Qed.

(** The node of an answer: none, or the ingress node of the host. *)
Definition answer_node (t : tables) (node : sbj) : Prop :=
  node = SBJ_NULL \/ exists n, n ∈ ingress t /\ n_host n = host /\ n_enabled n = true /\ node = node_json true n.

Lemma node_locked_spec n s :
  find_ingress (db s) host = Some n ->
  wp (node_locked env host true now) (fun node s' => db s' = db s /\ node = node_json true n) no_care s.
Proof. intros F. apply wp_bind, wp_query; [done|]. rewrite F. by apply wp_ret. Qed.

Lemma lease_users_spec s :
  good now (db s) ->
  wp (lease_users env host boot now)
     (fun r s' => kept now s r s' /\ db s' = with_leases (db s) (leases (db s')) /\ answer_node (db s) (fst r) /\
        exists es, snd r = SBJ_ARRAY (map snd es) /\ answer_entries host boot now (leased_users (db s) host now) (db s') es) no_care s.
Proof.
  intros G. unfold lease_users. apply wp_bind, wp_query; [done|]. apply wp_bind, wp_read; [frames|]. intros [ready ?] s1 D1. cbn [db] in D1.
  destruct (_ && ready) eqn:En.
  - destruct (find_ingress (db s) host) as [n|] eqn:F; [|done]. apply andb_true_iff in En as [En _].
    apply wp_bind. eapply wp_mono; [apply (node_locked_spec n); by rewrite D1|..]; [|done]. intros node s2 [D2 ->]. apply wp_bind, wp_query; [done|].
    assert (E2 : db s2 = db s) by congruence. apply find_In in F as [Hn Eh]. apply bytes_eqb_eq in Eh. apply wp_bind. eapply wp_mono; [apply lease_loop_spec|..].
    + cbn [db]. by rewrite E2.
    + apply leased_users_NoDup. rewrite E2. apply G.
    + intros u (Hu & _ & _ & _ & Hx)%leased_users_In. done.
    + cbn [db]. intros users s3 (K & D & es & -> & He). rewrite E2 in *. apply wp_ret. unfold kept in *. cbn [db] in K. rewrite ?E2 in K.
      split; [done|]. split; [done|]. split; [right; by exists n|]. by exists es.
    + done.
  - apply wp_ret. unfold kept. rewrite D1. split; [split; [done|apply later_refl]|]. split; [by destruct (db s)|]. split; [by left|].
    exists []. split; [done|constructor].
Qed.

Lemma reports_locked_spec reports s :
  good now (db s) -> wp (reports_locked env host boot reports now) (fun r s' => kept now s r s' /\ db s' = with_leases (db s) (leases (db s'))) no_care s.
Proof.
  revert s. induction reports as [|r reports IH]; intros s G; cbn [reports_locked].
  - apply wp_ret. split; [split; [done|apply later_refl]|by destruct (db s)].
  - apply wp_bind. unfold report_locked. apply wp_bind, wp_query; [done|].
    destruct (List.find _ (leases (db s))) as [l|] eqn:F; [|by apply wp_pure]. case_if; [|by apply wp_pure].
    apply wp_stmt; [done|]. cbn [db]. apply find_In in F as [Hl Pl]. bool_facts. apply bytes_eqb_eq in H1.
    destruct (good_report now (db s) (member_text (Some r) "lease_id") (sbj_get_int (Some r) "used_bytes" 0) now l) as [G1 L1]; [done|done|done|lia|].
    eapply wp_mono; [by apply IH|..]; [|done]. intros ? s' [[G2 L2] D2]. cbn [db] in *. split; [split; [done|by eapply later_trans]|].
    rewrite D2. done.
Qed.
End Exchange.

(** The parts of a request. *)
Definition req_boot (request : option sbj) : bytes := member_text request "boot_id".
Definition req_seq (request : option sbj) : Z := sbj_get_int request "request_seq" 0.
Definition req_hash (env : environment) (request : option sbj) : bytes := sb_sha256_hex env (sbj_dump request (-1)).

Definition last_session (t : tables) (host boot : bytes) : option session_row := List.find (session_key host boot) (sessions t).

(** The answer is the one stored for this very request: of this host and boot, with
    the same number and the same hash. *)
Definition resent (env : environment) (host : bytes) (request : option sbj) (t : tables) (out : sbj) : Prop :=
  exists r, last_session t host (req_boot request) = Some r /\ s_seq r = req_seq request /\ s_hash r = req_hash env request /\
    sbj_parse (s_response r) = Some out.

Lemma sequence_resent env host request t response out :
  request_sequence (last_session t host (req_boot request)) (req_seq request) (req_hash env request) = Replay response ->
  sbj_parse response = Some out -> resent env host request t out.
Proof.
  unfold request_sequence. intros Es P. destruct (last_session t host (req_boot request)) as [r|] eqn:Er; [|by case_match].
  exists r. split; [done|]. repeat case_match; simplify_eq. bool_facts. split_and!; [lia| |done].
  symmetry. by apply bytes_eqb_eq.
Qed.

Definition replayed (env : environment) (host : bytes) (request : option sbj) (t : tables) (out : sbj) (t' : tables) : Prop :=
  t' = t /\ exists response, request_sequence (last_session t host (req_boot request)) (req_seq request) (req_hash env request) = Replay response /\
  sbj_parse response = Some out.

Definition answered (env : environment) (host : bytes) (request : option sbj) (now : Z) (t : tables) (out : sbj) (t' : tables) : Prop :=
  request_sequence (last_session t host (req_boot request)) (req_seq request) (req_hash env request) = Next /\
  users t' = users t /\ devices t' = devices t /\
  sessions t' = sessions (store_session (mk_session host (req_boot request) (req_seq request) (req_hash env request)
                                           (sbj_dump (Some out) (-1)) now) t) /\
  exists node es, out = answer_json host (req_boot request) (req_seq request) now node (SBJ_ARRAY (map snd es)) /\
    answer_node host t node /\ answer_entries host (req_boot request) now (leased_users t host now) t' es.

Lemma lease_entry_sessions host boot now t t' u v :
  leases t' = leases t -> devices t' = devices t -> lease_entry host boot now t u v -> lease_entry host boot now t' u v.
Proof. unfold lease_entry, device_rows, active_devices. intros -> ->. done. Qed.

Lemma exchange_spec env host request now s :
  good now (db s) ->
  wp (sb_proxy_lease_exchange env host request now)
     (fun out s' => kept now s out s' /\ host_enabled (db s) host = true /\ exchange_valid request now = Ok tt /\
        (replayed env host request (db s) out (db s') \/ answered env host request now (db s) out (db s')))
     (unchanged s) s.
Proof.
  intros G. unfold sb_proxy_lease_exchange. apply wp_bind, wp_pure. destruct (exchange_valid request now) as [[]|] eqn:Ev; [|done].
  fold (req_boot request) (req_seq request) (req_hash env request). apply wp_transaction; [done|].
  apply wp_bind, wp_query; [done|]. cbn [db mem asked]. destruct (host_enabled (db s) host) eqn:Eh; [|by apply wp_pure]. cbn [negb].
  apply wp_bind, wp_query; [done|]. cbn [db mem asked]. fold (last_session (db s) host (req_boot request)).
  destruct (request_sequence _ _ _) as [response| |] eqn:Es.
  - destruct (sbj_parse response) as [out|] eqn:Ep; [|by apply wp_pure]. apply wp_ret. split; [|done].
    split; [split; [done|apply later_refl]|]. split; [done|]. split; [done|]. left. split; [done|]. by exists response.
  - by apply wp_pure.
  - apply wp_bind. eapply wp_mono; [apply reports_locked_spec; done|..]; [|done]. cbn [db]. intros ? s1 [[G1 L1] D1]. cbn [db] in *.
    apply wp_bind. eapply wp_mono; [by apply lease_users_spec|..]; [|done]. intros [node users] s2 ([G2 L2] & D2 & An & es & Eu & He). cbn [fst snd] in *. subst users.
    apply wp_bind, wp_stmt; [done|]. apply wp_ret. split; [|done]. cbn [db mem asked].
    set (out := answer_json _ _ _ _ _ _). set (t' := store_session _ (db s2)).
    assert (K : good now t' /\ later (db s2) t') by (apply good_other; done). destruct K as [G3 L3].
    split; [split; [done|]; eapply later_trans; [exact L1|]; by eapply later_trans|]. split; [done|]. split; [done|]. right.
    split; [done|]. split; [unfold t'; cbn; by rewrite D2, D1|]. split; [unfold t'; cbn; by rewrite D2, D1|].
    split; [unfold t'; cbn [sessions store_session with_sessions]; by rewrite D2, D1|].
    exists node, es. split; [done|]. split; [by rewrite D1 in An|]. rewrite D1 in He. unfold answer_entries in *. rewrite Forall_forall in *.
    intros e Hin. destruct (He e Hin) as (A & B & C). split_and!; [done|done|]. by eapply lease_entry_sessions.
Qed.
