(* ===== verification/ProxySystem.v ===== *)
(** * The proxy users as a system

    Calls on proxy users in any order, from any clients, with any failures, and
    changes of hosts by other parts of the server: what holds in every state that
    can be reached, and which answers the sessions record. *)

From S2P Require Import Prelude Util Json JsonText Types ProxyClock Sqlite ProxyTables ProxyUsers ProxyLease SqliteProofs ProxyQuota ProxyLeaseProofs.

(** ** Calls and reachable tables *)

Inductive proxy_call :=
  | RuntimeReport (host : bytes) (capabilities : option sbj)
  | UserSave (id : option bytes) (body : option sbj)
  | UserRemove (id : bytes)
  | UserReset (id : bytes)
  | UserGet (id : bytes)
  | UsersList
  | ClaimRotate (id : bytes)
  | ClaimResolve (token : option bytes)
  | DeviceCreate (user : bytes) (body : option sbj)
  | DeviceRevoke (user device : bytes)
  | IngressSave (host : bytes) (body : option sbj)
  | IngressList
  | Subscription (token : option bytes)
  | LeaseExchange (host : bytes) (request : option sbj).

Definition ignore {A} (m : proc A) : proc unit := _ ← m; mret tt.

Definition run_call (env : environment) (now : Z) (c : proxy_call) : proc unit :=
  match c with
  | RuntimeReport h caps => sb_proxy_runtime_report env h caps now
  | UserSave id body => ignore (sb_proxy_user_save env id body now)
  | UserRemove id => sb_proxy_user_remove env id now
  | UserReset id => ignore (sb_proxy_user_reset env id now)
  | UserGet id => ignore (sb_proxy_user_get env id)
  | UsersList => ignore (sb_proxy_users_list env)
  | ClaimRotate id => ignore (sb_proxy_claim_rotate env id now)
  | ClaimResolve token => ignore (sb_proxy_claim_resolve env token now)
  | DeviceCreate u body => ignore (sb_proxy_device_create env u body now)
  | DeviceRevoke u d => sb_proxy_device_revoke env u d now
  | IngressSave h body => ignore (sb_proxy_ingress_save env h body now)
  | IngressList => ignore (sb_proxy_ingress_list env)
  | Subscription token => ignore (sb_proxy_subscription env token now)
  | LeaseExchange h request => ignore (sb_proxy_lease_exchange env h request now)
  end.

(** Hosts are changed by other calls of the server; a host that is deleted takes
    its rows along. *)
Definition hosts_changed (t t' : tables) : Prop :=
  users t' = users t /\ devices t' = devices t /\ leases t' = leases t /\ sessions t' = sessions t /\
  (forall b, b ∈ user_nodes t' -> b ∈ user_nodes t) /\ (forall n, n ∈ ingress t' -> n ∈ ingress t) /\
  (forall r, r ∈ reports t' -> r ∈ reports t).

(** A new user's identifier is drawn at random: it is not one in use. *)
Definition call_fresh (env : environment) (c : proxy_call) (s : conn tables (option sb_proxy_clock)) : Prop :=
  match c with UserSave id _ => fresh_id env id s | _ => True end.

(** Tables that can be reached by the time [now], from a new database.  Each call
    may meet other failures, clock readings and random bytes. *)
Inductive reachable : Z -> tables -> Prop :=
  | reach_new now h : reachable now (mk_tables h [] [] [] [] [] [] [])
  | reach_call now now' env c s :
      reachable now (db s) -> now <= now' -> call_fresh env c s -> reachable now' (db (snd (run_call env now' c s)))
  | reach_hosts now t t' : reachable now t -> hosts_changed t t' -> reachable now t'.

Lemma wp_ignore {A} (m : proc A) Q (E : sb_err -> conn tables (option sb_proxy_clock) -> Prop) s :
  wp m (fun _ s' => Q tt s') E s -> wp (ignore m) Q E s.
Proof. intros H. apply wp_bind. eapply wp_mono; [exact H|..]; [|done]. by intros a s' HQ; apply wp_ret. Qed.

Lemma call_keeps env now c s :
  good now (db s) -> call_fresh env c s -> wp (run_call env now c) (kept now s) (unchanged s) s.
Proof.
  intros G F. assert (K : forall {A} (m : proc A), keeps now m -> wp (ignore m) (kept now s) (unchanged s) s).
  { intros A m Km. apply wp_ignore. eapply wp_mono; [by apply Km|done|done]. }
  destruct c; cbn [run_call call_fresh] in *.
  - by apply runtime_report_keeps.
  - apply wp_ignore. eapply wp_mono; [by apply user_save_keeps|done|done].
  - by apply user_remove_keeps.
  - apply K, user_reset_keeps.
  - apply K, keeps_frame, user_locked_frame.
  - apply K, keeps_frame, sb_proxy_users_list_frame.
  - apply K, claim_rotate_keeps.
  - apply K, keeps_frame, sb_proxy_claim_resolve_frame.
  - apply K, device_create_keeps.
  - by apply device_revoke_keeps.
  - apply K, ingress_save_keeps.
  - apply K, keeps_frame, sb_proxy_ingress_list_frame.
  - apply K, keeps_frame, sb_proxy_subscription_frame.
  - apply K. intros s1 G1. eapply wp_mono; [by apply exchange_spec|..]; [|done]. by intros a s' [H _].
Qed.

Lemma reachable_good now t : reachable now t -> good now t.
Proof.
  induction 1 as [now h|now now' env c s R IH Hn F|now t t' R IH (Hu & Hd & Hl & _)].
  - split; [split|]; cbn; repeat constructor.
  - assert (G : good now' (db s)) by (by eapply good_mono). pose proof (call_keeps env now' c s G F) as W. unfold wp in W.
    destruct (run_call env now' c s) as [[[]|e] s']; cbn [snd]; [apply W|]. unfold unchanged in W. by rewrite W.
  - by apply good_other with t.
Qed.

(** ** Recorded answers

    Only an exchange writes the sessions; what it writes is the answer it gives. *)

(** Goes through a program whose statements leave the sessions as they are. *)
Ltac session_steps :=
  repeat first
    [ solve [apply preserves_frame; frames]
    | lazymatch goal with
      | |- preserves _ (transaction _ _) => apply preserves_transaction
      | |- preserves _ (mbind _ _) => apply preserves_bind; [|intros ?]
      | |- preserves _ (for_rows _ _ _ _) => apply preserves_for_rows; intros ? ?
      | |- preserves _ (stmt _ _) =>
          apply preserves_stmt; intros ? ? ? ?; unfold sql_insert; repeat case_if; try done; cbn [mbind result_bind];
          by intros [_ <-]%Ok_inj%pair_inj
      end
    | match goal with
      | |- preserves _ (match ?x with _ => _ end) => destruct x
      | |- preserves _ (let '(_, _) := ?x in _) => destruct x
      end ].

Section Sessions.
Context (env : environment) (S : list session_row).
Abbreviation same := (preserves (fun t => sessions t = S)).

Lemma bind_hosts_sessions id hosts : same (bind_hosts env id hosts).
Proof. induction hosts as [|h hosts IH]; cbn [bind_hosts]; session_steps. done. Qed.

Lemma call_sessions now c :
  match c with LeaseExchange _ _ => True | _ => same (run_call env now c) end.
Proof.
  destruct c; try done; cbn [run_call]; unfold ignore, sb_proxy_runtime_report, sb_proxy_user_save, save_locked, check_update,
    check_room, sb_proxy_user_remove, sb_proxy_user_reset, sb_proxy_claim_rotate, sb_proxy_device_create, sb_proxy_device_revoke, sb_proxy_ingress_save; session_steps;
    apply bind_hosts_sessions.
Qed.
End Sessions.

(** An exchange at [s_updated r], which was no repetition, gave the answer that the
    row records. *)
Definition first_answer (now : Z) (r : session_row) : Prop :=
  exists before env request s out s',
    reachable before (db s) /\ before <= s_updated r <= now /\
    sb_proxy_lease_exchange env (s_host r) request (s_updated r) s = (Ok out, s') /\
    answered env (s_host r) request (s_updated r) (db s) out (db s') /\
    req_boot request = s_boot r /\ req_seq request = s_seq r /\ req_hash env request = s_hash r /\
    s_response r = sbj_dump (Some out) (-1).

Lemma first_answer_mono now now' r : now <= now' -> first_answer now r -> first_answer now' r.
Proof. intros L (b & env & q & s & out & s' & R & B & H). exists b, env, q, s, out, s'. split; [done|]. split; [lia|done]. Qed.

Lemma sessions_recorded now t : reachable now t -> Forall (first_answer now) (sessions t).
Proof.
  induction 1 as [now h|now now' env c s R IH Hn F|now t t' R IH (_ & _ & _ & -> & _)]; [constructor| |done].
  assert (IH' : Forall (first_answer now') (sessions (db s))) by (eapply Forall_impl; [exact IH|intros r; by apply first_answer_mono]).
  assert (G : good now' (db s)) by (eapply good_mono; [done|by apply reachable_good]).
  pose proof (call_keeps env now' c s G F) as K. unfold wp in K.
  destruct (run_call env now' c s) as [[[]|e] s'] eqn:E; cbn [snd]; [|unfold unchanged in K; by rewrite K].
  pose proof (call_sessions env (sessions (db s)) now' c) as C.
  destruct c as [| | | | | | | | | | | | |host request]; try (specialize (C s eq_refl); unfold wp in C; rewrite E in C; by rewrite C).
  cbn [run_call] in E. unfold ignore, mbind, sql_bind in E.
  destruct (sb_proxy_lease_exchange env host request now' s) as [[out|e] s1] eqn:X; [|done]. apply pair_inj in E as [_ <-].
  pose proof (exchange_spec env host request now' s G) as W. unfold wp in W. rewrite X in W.
  destruct W as (_ & _ & _ & [(-> & _)|A]); [done|]. pose proof A as (_ & _ & _ & -> & _). apply Forall_upsert; [intros _ _|..|done].
  all: exists now, env, request, s, out, s1; split_and!; try done; cbn; lia.
Qed.

Lemma last_session_In t host boot r : last_session t host boot = Some r -> r ∈ sessions t /\ s_host r = host /\ s_boot r = boot.
Proof. intros (Hr & E)%find_In. unfold session_key in E. bool_facts. split_and!; [done|by apply bytes_eqb_eq..]. Qed.

(** ** A system that ran

    Two users share a host; one gets a lease, reports usage and is reset. *)

Definition quiet_env : environment :=
  mk_env (fun _ => None) (fun n => 100000 + Z.of_nat n) (fun _ => 1000) (fun n => replicate 16 (Z.of_nat n mod 256))
    (fun n k => Some (replicate k (chr (Z.of_nat n)))) (fun b => take 32 (b ++ replicate 32 (chr 7)))
    (fun s => bytes_eqb s (bs "0.0.0.0")) (fun _ => false).

(** JSON text with quotes written as apostrophes. *)
Definition json_text (s : string) : option sbj := sbj_parse (map (fun c => if code c =? 39 then chr 34 else c) (bs s)).

Definition sample_user : bytes := bs "09090909-0909-4909-8909-090909090909".

Definition sample_calls : list proxy_call :=
  [RuntimeReport (bs "h1") (json_text "['proxy_users_v1']");
   IngressSave (bs "h1") (json_text "{'enabled':true,'server':'a.example','listen':'0.0.0.0','listen_port':8388}");
   UserSave None (json_text "{'name':'bob','enabled':true,'quota_bytes':1000,'expires_at':0,'max_devices':2,'host_ids':['h1']}");
   DeviceCreate sample_user (json_text "{'name':'phone'}");
   LeaseExchange (bs "h1") (json_text "{'version':1,'boot_id':'b','request_seq':1,'reports':[]}")].

Definition sample_start : conn tables (option sb_proxy_clock) :=
  mk_conn (mk_tables [(bs "h1", true)] [] [] [] [] [] [] []) (Some (mk_clock 0 0 false [])) 0%nat.

Definition run_calls (env : environment) (now : Z) (cs : list proxy_call) (s : conn tables (option sb_proxy_clock)) :=
  foldl (fun s c => snd (run_call env now c s)) s cs.

Fixpoint calls_fresh (env : environment) (now : Z) (cs : list proxy_call) (s : conn tables (option sb_proxy_clock)) : Prop :=
  match cs with [] => True | c :: cs' => call_fresh env c s /\ calls_fresh env now cs' (snd (run_call env now c s)) end.

Lemma reachable_calls env now cs s :
  reachable now (db s) -> calls_fresh env now cs s -> reachable now (db (run_calls env now cs s)).
Proof.
  revert s. induction cs as [|c cs IH]; intros s R F; [done|]. destruct F as [Fc F]. apply IH; [|done].
  by apply (reach_call now); [done|lia|].
Qed.

Definition sample_state : conn tables (option sb_proxy_clock) := run_calls quiet_env 1000 sample_calls sample_start.

Lemma sample_reachable : reachable 1000 (db sample_state).
Proof.
  apply reachable_calls; [apply reach_new|]. unfold sample_calls. cbn [calls_fresh call_fresh]. repeat split.
  intros _. vm_compute. apply not_elem_of_nil.
Qed.

Definition sample_row : user_row :=
  Eval vm_compute in default (mk_user [] [] false false 0 0 0 0 0 None 0 0) (head (users (db sample_state))).

Lemma sample_row_In : sample_row ∈ users (db sample_state).
Proof. apply head_Some_elem_of. vm_compute. reflexivity. Qed.

(** ** Quotas *)

(** C2: quotas and device limits hold in every state.  Whatever calls were made, by
    whom and with what failures, the bytes granted to a user in its epoch are
    within its quota (the largest exact integer without one), the bytes reported
    within those granted, every lease's usage within its grant, and no user has
    more working devices than allowed.  The wall clock of the calls never goes back
    and the identifier drawn for a new user is not one in use. *)
Theorem quota_never_exceeded now t u :
  reachable now t -> u ∈ users t ->
  granted t u <= budget u /\ 0 <= zsum l_used (epoch_leases t (u_id u) (u_epoch u)) <= granted t u /\
  (forall l, l ∈ leases t -> 0 <= l_used l <= l_grant l) /\
  (u_deleted u = false -> Z.of_nat (length (active_devices t (u_id u) now)) <= u_max_devices u).
Proof.
  intros R Hu. apply reachable_good in R as [I D]. assert (Iu := inv_users _ I). assert (Il := inv_leases _ I).
  unfold devices_ok in D. rewrite Forall_forall in Iu. rewrite Forall_forall in Il. rewrite Forall_forall in D.
  destruct (Iu u Hu) as (_ & _ & Hg). assert (L : forall l, l ∈ leases t -> 0 <= l_used l <= l_grant l) by (intros l Hl; apply (Il l Hl)).
  split_and!; [done| | |exact L|by apply D].
  - apply zsum_nonneg. intros l (Hl & _)%filter_In. by apply L.
  - apply zsum_le. intros l (Hl & _)%filter_In. by apply L.
Qed.

Lemma quota_never_exceeded_witness :
  u_quota sample_row = 1000 /\ granted (db sample_state) sample_row = 1000 /\ granted (db sample_state) sample_row <= budget sample_row.
Proof.
  split; [vm_compute; reflexivity|]. split; [vm_compute; reflexivity|].
  exact (proj1 (quota_never_exceeded 1000 (db sample_state) sample_row sample_reachable sample_row_In)).
Defined.

(** C10: calls are all or nothing, and nothing is taken back.  A call that fails, at
    whichever statement, leaves every table as it was; a call that succeeds keeps
    every lease, with no smaller grant and no smaller usage, and every user, with
    no earlier epoch. *)
Theorem proxy_calls_atomic now now' env c s :
  reachable now (db s) -> now <= now' -> call_fresh env c s ->
  match run_call env now' c s with
  | (Ok _, s') => later (db s) (db s')
  | (Err _, s') => db s' = db s
  end.
Proof.
  intros R Hn F. assert (G : good now' (db s)) by (eapply good_mono; [done|by apply reachable_good]).
  pose proof (call_keeps env now' c s G F) as W. unfold wp, kept, unchanged in W.
  destruct (run_call env now' c s) as [[a|e] s']; [by apply W|done].
Qed.

(** A statement fails in the middle of a reset. *)
Lemma proxy_calls_atomic_witness :
  let env := mk_env (fun n => if (n =? 72)%nat then Some (bs "disk I/O error") else None) (clock_reading quiet_env)
               (unix_now quiet_env) (uuid_random quiet_env) (random_bytes quiet_env) (sha256 quiet_env)
               (inet_pton4 quiet_env) (inet_pton6 quiet_env) in
  let s := mk_conn (db sample_state) (mem sample_state) 67%nat in
  is_ok (fst (run_call env 1010 (UserReset sample_user) s)) = false /\
  db (snd (run_call env 1010 (UserReset sample_user) s)) = db sample_state.
Proof.
  intros env s. assert (E : is_ok (fst (run_call env 1010 (UserReset sample_user) s)) = false) by (vm_compute; reflexivity).
  split; [exact E|]. pose proof (proxy_calls_atomic 1000 1010 env (UserReset sample_user) s sample_reachable ltac:(lia) I) as W.
  destruct (run_call env 1010 (UserReset sample_user) s) as [[a|e] s']; [discriminate E|exact W].
Defined.

(** ** An answer *)

(** The first exchange of the host: the user gets its whole quota for a minute. *)
Definition sample_request : option sbj := json_text "{'version':1,'boot_id':'b','request_seq':1,'reports':[]}".

Definition before_exchange : conn tables (option sb_proxy_clock) := run_calls quiet_env 1000 (take 4 sample_calls) sample_start.

Lemma before_exchange_reachable : reachable 1000 (db before_exchange).
Proof.
  apply reachable_calls; [apply reach_new|]. unfold sample_calls. cbn [take calls_fresh call_fresh]. repeat split.
  intros _. vm_compute. apply not_elem_of_nil.
Qed.

Definition sample_answer : sbj :=
  Eval vm_compute in match fst (sb_proxy_lease_exchange quiet_env (bs "h1") sample_request 1001 before_exchange) with
                     | Ok out => out | Err _ => SBJ_NULL end.
