(* ===== verification/ProxyReplay.v ===== *)
(** * Texts of the tables, and answers sent again

    Every text of the tables that gets into an answer of the exchange is UTF-8 and
    every number fits 64 bits, so that a stored answer reads back as it was sent.
    What the exchange answers: a new answer, or the one recorded for the request. *)

From S2P Require Import Prelude Util Json JsonText JsonUtf8 JsonSafe JsonRound Types ProxyClock Sqlite ProxyTables ProxyUsers ProxyLease SqliteProofs ProxyQuota ProxyLeaseProofs ProxySystem.

(** ** Texts that are ASCII *)

Lemma hex_digit_ascii v : 0 <= v < 16 -> code (hex_digit v) < 128.
Proof. intros Hv. unfold hex_digit. case_if; rewrite code_chr; lia. Qed.

Lemma hex_encode_ascii d : ascii_text (sb_hex_encode d).
Proof.
  unfold sb_hex_encode. induction d as [|c d IH]; [constructor|]. rewrite bind_cons. pose proof (code_range c).
  repeat constructor; [apply hex_digit_ascii..|exact IH].
  - rewrite Z.shiftr_div_pow2 by lia. split; [apply Z.div_pos; lia|apply Z.div_lt_upper_bound; lia].
  - change 15 with (Z.ones 4). rewrite Z.land_ones by lia. apply Z.mod_pos_bound. lia.
Qed.

Lemma uuid_ascii b : ascii_text (sb_uuid_v4 b).
Proof.
  unfold sb_uuid_v4, ascii_text. cbn [sb_join]. repeat apply Forall_app_2; try apply hex_encode_ascii; repeat constructor.
Qed.

Lemma alpha_ascii i : code (alpha_at B64 i) < 128.
Proof.
  unfold alpha_at. assert (F : forallb (fun c => code c <? 128) B64 = true) by (vm_compute; reflexivity).
  destruct (B64 !! Z.to_nat i) as [c|] eqn:E; [|by vm_compute]. cbn [default].
  rewrite forallb_forall in F. apply Z.ltb_lt, F. apply list_elem_of_In. by eapply list_elem_of_lookup_2.
Qed.

Lemma base64_ascii d : ascii_text (sb_base64_encode d).
Proof.
  unfold sb_base64_encode, ascii_text. induction d as [d IH] using (induction_ltof1 _ (@length ascii)). unfold ltof in IH.
  destruct d as [|x [|y [|z d]]]; cbn [b64_encode]; [constructor|..]; repeat constructor; try apply alpha_ascii.
  apply IH. cbn. lia.
Qed.

Lemma utf8_ok_cstr s : forall need lo hi, (need = 0%nat \/ 0 < lo) -> utf8_ok s need lo hi = true -> utf8_ok (cstr s) need lo hi = true.
Proof.
  induction s as [|c s IH]; intros need lo hi Hn H; [done|]. cbn [cstr]. destruct (code c =? 0) eqn:E.
  - apply Z.eqb_eq in E. destruct need as [|need]; [done|]. cbn [utf8_ok] in H. rewrite E in H. unfold in_range in H. bool_facts. lia.
  - cbn [utf8_ok] in *. destruct need as [|need]; [|bool_facts; rewrite H; apply IH; [right; lia|done]].
    repeat case_if; try done; apply IH; try done; right; try lia; repeat case_if; lia.
Qed.

Lemma valid_cstr s : valid_utf8 s = true -> valid_utf8 (cstr s) = true.
Proof. apply utf8_ok_cstr. by left. Qed.

(** A validated text is a C string that is UTF-8. *)
Lemma text_ok_valid s limit b : text_ok (Some (SBJ_STRING s)) limit b = true -> cstr s = s /\ valid_utf8 s = true.
Proof.
  unfold text_ok. intros H. bool_facts. split.
  - apply cstr_no_nul. rewrite forallb_forall in H0. unfold no_nul. apply forallb_forall. intros c Hc. specialize (H0 c Hc).
    unfold text_byte_ok in H0. cbv zeta in H0. destruct (code c =? 0) eqn:E; [|done]. apply Z.eqb_eq in E. by rewrite E in H0.
  - apply utf8_check_ok. cbn [sbj_validate_utf8] in *. by destruct (utf8_check s) as [[]|].
Qed.

Lemma member_text_valid body key limit b : text_ok (sbj_get body key) limit b = true -> valid_utf8 (member_text body key) = true.
Proof.
  unfold member_text, sbj_get_str. destruct (sbj_get body key) as [[]|]; try done. intros H.
  destruct (text_ok_valid _ _ _ H) as [Ec V]. change (valid_utf8 (cstr s) = true). by rewrite Ec.
Qed.

(** ** The texts of the tables *)

Definition device_texts (d : device_row) : Prop :=
  valid_utf8 (d_id d) = true /\ valid_utf8 (d_password d) = true /\ 0 <= d_expires d <= SAFE_INTEGER.

Definition node_texts (n : ingress_row) : Prop :=
  valid_utf8 (n_listen n) = true /\ valid_utf8 (n_key n) = true /\ 1 <= n_port n <= 65535.

Record texts (t : tables) : Prop := mk_texts {
  texts_users : Forall (fun u => valid_utf8 (u_id u) = true) (users t);
  texts_devices : Forall device_texts (devices t);
  texts_nodes : Forall node_texts (ingress t);
  texts_leases : Forall (fun l => valid_utf8 (l_id l) = true) (leases t) }.

(** Goes through a program whose statements preserve [texts]. *)
Ltac texts_steps :=
  repeat first
    [ solve [apply preserves_frame; frames]
    | lazymatch goal with
      | |- preserves _ (transaction _ _) => apply preserves_transaction
      | |- preserves _ (mbind _ _) => apply preserves_bind; [|intros ?]
      | |- preserves _ (for_rows _ _ _ _) => apply preserves_for_rows; intros ? ?
      end
    | match goal with
      | |- preserves _ (match ?x with _ => _ end) => destruct x
      | |- preserves _ (let '(_, _) := ?x in _) => destruct x
      end ].

Section Texts.
Context (env : environment).

Lemma runtime_report_texts host caps now : preserves texts (sb_proxy_runtime_report env host caps now).
Proof.
  unfold sb_proxy_runtime_report. texts_steps. apply preserves_stmt. intros t ? t' [Hu Hd Hn Hl].
  by destruct (host_enabled t host); intros [_ <-]%Ok_inj%pair_inj.
Qed.

Lemma user_remove_texts id now : preserves texts (sb_proxy_user_remove env id now).
Proof.
  unfold sb_proxy_user_remove. texts_steps; apply preserves_stmt; intros t ? t' [Hu Hd Hn Hl];
    intros [_ <-]%Ok_inj%pair_inj; split; try done; by apply Forall_map_update.
Qed.

Lemma user_reset_texts id now : preserves texts (sb_proxy_user_reset env id now).
Proof.
  unfold sb_proxy_user_reset. texts_steps. apply preserves_stmt. intros t ? t' [Hu Hd Hn Hl] [_ <-]%Ok_inj%pair_inj.
  split; try done. by apply Forall_map_update.
Qed.

Lemma claim_rotate_texts id now : preserves texts (sb_proxy_claim_rotate env id now).
Proof.
  unfold sb_proxy_claim_rotate. texts_steps. apply preserves_stmt. intros t ? t' [Hu Hd Hn Hl]. case_if; [done|].
  intros [_ <-]%Ok_inj%pair_inj. split; try done. by apply Forall_map_update.
Qed.

Lemma device_revoke_texts u d now : preserves texts (sb_proxy_device_revoke env u d now).
Proof.
  unfold sb_proxy_device_revoke. texts_steps. apply preserves_stmt. intros t ? t' [Hu Hd Hn Hl].
  intros [_ <-]%Ok_inj%pair_inj. split; try done. by apply Forall_map_update.
Qed.

(** Identifiers and secrets that are drawn are ASCII. *)
Lemma new_uuid_ascii s : wp (new_uuid env) (fun id _ => valid_utf8 id = true) no_care s.
Proof. apply wp_ask, ascii_valid, uuid_ascii. Qed.

Lemma new_key_ascii s : wp (new_secret env true) (fun key _ => valid_utf8 key = true) no_care s.
Proof.
  apply wp_bind, wp_ask. destruct (random_bytes _ _ _); [|by apply wp_pure]. apply wp_ret, ascii_valid, base64_ascii.
Qed.

Lemma ingress_save_texts host body now : preserves texts (sb_proxy_ingress_save env host body now).
Proof.
  unfold sb_proxy_ingress_save. destruct (ingress_body_valid env body) eqn:V; cbn [negb]; [|by texts_steps].
  apply (preserves_bind_known _ (fun key => valid_utf8 key = true)); [frames|apply new_key_ascii|]. intros key Hk.
  unfold ingress_body_valid in V. bool_facts. cbv zeta. texts_steps.
  all: apply preserves_stmt; intros t ? t' [Hu Hd Hn Hl] [_ <-]%Ok_inj%pair_inj; split; try done.
  all: apply Forall_upsert; [| |exact Hn]; unfold node_texts; cbn.
  all: assert (1 <= sbj_get_int body "listen_port" 0 <= 65535) by (by apply number_ok_int).
  all: assert (valid_utf8 (member_text body "listen") = true) by (by eapply member_text_valid).
  all: intuition.
Qed.

Lemma device_create_texts uid body now : preserves texts (sb_proxy_device_create env uid body now).
Proof.
  unfold sb_proxy_device_create. destruct (device_body_valid body now) eqn:V; cbn [negb]; [|by texts_steps].
  apply (preserves_bind_known _ (fun id => valid_utf8 id = true)); [frames|apply new_uuid_ascii|]. intros id Hid.
  apply (preserves_bind_known _ (fun key => valid_utf8 key = true)); [frames|apply new_key_ascii|]. intros key Hk.
  assert (E : 0 <= sbj_get_int body "expires_at" 0 <= SAFE_INTEGER).
  { unfold device_body_valid in V. bool_facts. destruct (sbj_has body "expires_at") eqn:Hh.
    - cbn [negb orb] in *. pose proof (number_ok_int body "expires_at" 0 4102444800 0). unfold SAFE_INTEGER. intuition lia.
    - unfold sbj_has in Hh. unfold sbj_get_int, SAFE_INTEGER. destruct (sbj_get body "expires_at"); [done|]. cbn. lia. }
  texts_steps. apply preserves_stmt. intros t ? t' [Hu Hd Hn Hl]. unfold sql_insert. case_if; [done|]. cbn [mbind result_bind].
  intros [_ <-]%Ok_inj%pair_inj. split; try done. apply Forall_app. split; [exact Hd|]. by apply Forall_singleton.
Qed.
End Texts.

Section TextsSave.
Context (env : environment).

Lemma bind_hosts_texts id hosts : preserves texts (bind_hosts env id hosts).
Proof.
  induction hosts as [|h hosts IH]; cbn [bind_hosts]; [by texts_steps|]. apply preserves_bind; [|done]. apply preserves_stmt.
  intros t ? t' [Hu Hd Hn Hl]. unfold sql_insert. case_if; [done|]. by intros [_ <-]%Ok_inj%pair_inj.
Qed.

Lemma save_tail_texts id body now :
  valid_utf8 id = true ->
  preserves texts
    (_ ← check_ingress env (body_hosts body);
     _ ← stmt (fault env) (fun t => Ok (tt, upsert_user id body now t));
     _ ← stmt (fault env) (fun t => Ok (tt, with_nodes t (List.filter (fun b => negb (bytes_eqb (fst b) id)) (user_nodes t))));
     _ ← bind_hosts env id (body_hosts body);
     user_locked env id).
Proof.
  intros Hid. texts_steps.
  - apply preserves_stmt. intros t ? t' [Hu Hd Hn Hl] [_ <-]%Ok_inj%pair_inj. split; try done. by apply Forall_upsert.
  - apply preserves_stmt. by intros t ? t' [Hu Hd Hn Hl] [_ <-]%Ok_inj%pair_inj.
  - apply bind_hosts_texts.
Qed.

Lemma user_save_texts id body now : preserves texts (sb_proxy_user_save env id body now).
Proof.
  unfold sb_proxy_user_save. apply preserves_bind; [by texts_steps|intros _]. destruct id as [id|].
  - apply preserves_transaction. intros s T. apply wp_bind. eapply wp_mono; [apply check_update_spec|..]; [|done].
    intros _ s' (D & u & Hu & <- & _). apply save_tail_texts; [|by rewrite D]. pose proof (texts_users _ T) as F. rewrite Forall_forall in F. by apply F.
  - apply (preserves_bind_known _ (fun id => valid_utf8 id = true)); [frames|apply new_uuid_ascii|]. intros id Hid.
    apply preserves_transaction. unfold save_locked. apply preserves_bind; [by texts_steps|intros _]. by apply save_tail_texts.
Qed.

Lemma report_texts host boot report now : preserves texts (report_locked env host boot report now).
Proof.
  unfold report_locked. texts_steps; apply preserves_stmt; intros t ? t' [Hu Hd Hn Hl] [_ <-]%Ok_inj%pair_inj;
    split; try done; by apply Forall_map_update.
Qed.

Lemma reports_texts host boot reports now : preserves texts (reports_locked env host boot reports now).
Proof. induction reports as [|r reports IH]; cbn [reports_locked]; [by texts_steps|]. apply preserves_bind; [apply report_texts|done]. Qed.

Lemma store_lease_texts id user host boot epoch grant used until now :
  valid_utf8 id = true -> preserves texts (stmt (fault env) (store_lease (mk_lease id user host boot epoch grant used until now)) : proc unit).
Proof.
  intros Hid. apply preserves_stmt. intros t ? t' [Hu Hd Hn Hl]. unfold store_lease. case_if; [done|].
  intros [_ <-]%Ok_inj%pair_inj. split; try done. by apply Forall_upsert.
Qed.

Lemma lease_locked_texts host boot user epoch quota expiry now :
  preserves texts (lease_locked env host boot user epoch quota expiry now).
Proof.
  unfold lease_locked. apply preserves_bind; [by texts_steps|intros devices]. case_if; [by texts_steps|].
  intros s T. apply wp_bind, wp_query; [done|]. cbn [db]. set (row := List.find _ _).
  assert (R : forall l, row = Some l -> valid_utf8 (l_id l) = true).
  { intros l [Hl _]%find_In. pose proof (texts_leases _ T) as F. rewrite Forall_forall in F. by apply F. }
  set (s1 := mk_conn _ _ _). assert (T1 : texts (db s1)) by exact T. revert T1. generalize s1. clear s1. clearbody row.
  match goal with |- forall s1, _ -> wp ?m _ _ _ => change (preserves texts m) end.
  apply preserves_bind; [apply preserves_frame, frame_stmt; intros t ? t'; destruct (sql_sum _ _); [by intros [_ <-]%Ok_inj%pair_inj|done]|intros allocated].
  apply preserves_bind; [by texts_steps|intros nodes]. case_if; [by texts_steps|]. case_if; [by texts_steps|].
  apply (preserves_bind_known _ (fun id => valid_utf8 id = true)).
  - destruct row; frames.
  - intros s1. destruct row as [l|]; [by apply wp_ret, R|apply new_uuid_ascii].
  - intros id Hid. apply preserves_bind; [by apply store_lease_texts|intros _]. by texts_steps.
Qed.

Lemma exchange_texts host request now : preserves texts (sb_proxy_lease_exchange env host request now).
Proof.
  unfold sb_proxy_lease_exchange. cbv zeta. texts_steps; try apply reports_texts.
  - unfold lease_users. texts_steps. unfold lease_user. texts_steps. apply lease_locked_texts.
  - apply preserves_stmt. by intros t ? t' [Hu Hd Hn Hl] [_ <-]%Ok_inj%pair_inj.
Qed.
End TextsSave.

Lemma call_texts env now c : preserves texts (run_call env now c).
Proof.
  assert (K : forall {A} (m : proc A), preserves texts m -> preserves texts (ignore m)).
  { intros A m Hm. apply preserves_bind; [done|intros a]. by texts_steps. }
  destruct c; cbn [run_call]; try apply K; try solve [apply preserves_frame; frames].
  - apply runtime_report_texts.
  - apply user_save_texts.
  - apply user_remove_texts.
  - apply user_reset_texts.
  - apply claim_rotate_texts.
  - apply device_create_texts.
  - apply device_revoke_texts.
  - apply ingress_save_texts.
  - apply exchange_texts.
Qed.

Lemma reachable_texts now t : reachable now t -> texts t.
Proof.
  induction 1 as [now h|now now' env c s R IH Hn F|now t t' R IH (Hu & Hd & Hl & _ & _ & Hi & _)].
  - split; constructor.
  - pose proof (call_texts env now' c s IH) as W.
    pose proof (call_keeps env now' c s (good_mono _ _ _ Hn (reachable_good _ _ R)) F) as K. unfold wp in *.
    destruct (run_call env now' c s) as [[[]|e] s']; cbn [snd]; [done|]. unfold unchanged in K. by rewrite K.
  - destruct IH as [Tu Td Tn Tl]. split; [by rewrite Hu|by rewrite Hd| |by rewrite Hl].
    rewrite Forall_forall in *. intros n Hn. by apply Tn, Hi.
Qed.

(** ** Answers that can be stored *)

(** Values that a dump keeps, with at most [d] levels of nesting. *)
Definition storable (d : Z) (v : sbj) : Prop := parsed d v /\ floats_ok v = true.
Definition storable_object (d : Z) (v : sbj) : Prop := storable d v /\ exists m, v = SBJ_OBJECT m.

Lemma storable_nil d : 1 <= d -> storable_object d (SBJ_OBJECT []).
Proof. intros H. split; [|by exists []]. split; [by apply parsed_object_nil|done]. Qed.

Lemma storable_set d o k v :
  storable_object d o -> valid_utf8 (bs k) = true -> storable (d - 1) v -> storable_object d (sbj_set o k v).
Proof.
  intros [[P F] [m ->]] K [Pv Fv]. unfold sbj_set. destruct (parsed_setn d m (bs k) v P K Pv) as (m' & E & P').
  rewrite E. split; [split; [done|]|by exists m']. cbn [floats_ok] in *.
  by apply (forallb_setn (fun _ v => floats_ok v) m (bs k) v m').
Qed.

Lemma storable_text d s : valid_utf8 s = true -> storable d (SBJ_STRING (cstr s)).
Proof. intros H. split; [|done]. split; [done|]. split; [by apply valid_cstr|done]. Qed.

Lemma storable_int d i : INT64_MIN <= i <= INT64_MAX -> storable d (SBJ_INT i).
Proof. intros H. split; [|done]. split; [|done]. cbn [sbj_wf]. unfold in_range. rewrite !leb_true by lia. done. Qed.

Lemma storable_array d l : 1 <= d -> Forall (storable (d - 1)) l -> storable d (SBJ_ARRAY l).
Proof.
  intros Hd H. unfold storable, parsed. cbn [sbj_wf utf8_clean nests floats_ok]. rewrite leb_true by done. cbn [andb].
  induction H as [|v l [(W & U & N) F] _ IH]; [done|]. cbn [forallb]. rewrite W, U, N, F. exact IH.
Qed.

Lemma storable_round v : storable SBJ_MAX_DEPTH v -> sbj_parse (sbj_dump (Some v) (-1)) = Some v.
Proof.
  intros [(W & U & N) F]. unfold sbj_parse, sbj_parse_msg. cbn [sbj_dump]. rewrite document_round; [done| |done].
  unfold printable. by rewrite W, U, F.
Qed.

(** Builds an object member by member. *)
Ltac storables :=
  repeat lazymatch goal with
  | |- storable_object _ (sbj_set_str _ _ _) => unfold sbj_set_str
  | |- storable_object _ (sbj_set_int _ _ _) => unfold sbj_set_int
  | |- storable_object _ (sbj_set _ _ _) => apply storable_set; [|vm_compute; reflexivity|]
  | |- storable_object _ (SBJ_OBJECT []) => apply storable_nil
  | |- storable _ (SBJ_STRING (cstr _)) => apply storable_text
  | |- storable _ (SBJ_INT _) => apply storable_int
  end.

Lemma device_storable d r : 1 <= d -> device_texts r -> storable_object d (device_json true r).
Proof.
  intros Hd (Hi & Hp & He). unfold device_json. storables; try done. unfold SAFE_INTEGER, INT64_MIN, INT64_MAX in *. lia.
Qed.

Lemma node_storable d n : 1 <= d -> node_texts n -> storable_object d (node_json true n).
Proof.
  intros Hd (Hi & Hp & He). unfold node_json. storables; try done. unfold INT64_MIN, INT64_MAX in *. lia.
Qed.

Lemma lease_storable d user epoch id grant used until devices :
  2 <= d -> valid_utf8 user = true -> valid_utf8 id = true -> 0 <= epoch <= SAFE_INTEGER -> 0 <= grant <= SAFE_INTEGER ->
  0 <= used <= SAFE_INTEGER -> 0 <= until <= SAFE_INTEGER -> storable (d - 1) devices ->
  storable_object d (lease_json user epoch id grant used until devices).
Proof.
  intros Hd Vu Vi He Hg Hu Hx Hs. unfold lease_json. unfold SAFE_INTEGER in *.
  assert (forall x, 0 <= x <= 9007199254740991 -> INT64_MIN <= x <= INT64_MAX) by (unfold INT64_MIN, INT64_MAX; lia).
  storables; auto; try lia.
  match goal with |- storable _ ?v => assert (storable_object (d - 1) v) as [? _]; [|done] end. storables; auto. lia.
Qed.

Lemma answer_storable host boot seq now node users :
  valid_utf8 host = true -> valid_utf8 boot = true -> 0 <= seq <= SAFE_INTEGER -> 1 <= now <= 4102444740 ->
  storable (SBJ_MAX_DEPTH - 1) node -> storable (SBJ_MAX_DEPTH - 1) users ->
  storable SBJ_MAX_DEPTH (answer_json host boot seq now node users).
Proof.
  intros Vh Vb Hs Hn Sn Su. unfold SAFE_INTEGER in *.
  assert (storable_object SBJ_MAX_DEPTH (answer_json host boot seq now node users)) as [? _]; [|done].
  unfold answer_json, LEASE_SECONDS. storables; try done; unfold INT64_MIN, INT64_MAX, SBJ_MAX_DEPTH; lia.
Qed.

(** The grant of a lease of the user's epoch is within the largest exact integer. *)
Lemma grant_range t u l :
  inv t -> u ∈ users t -> l ∈ leases t -> l_user l = u_id u -> l_epoch l = u_epoch u -> l_grant l <= SAFE_INTEGER.
Proof.
  intros I Hu Hl El Ee. assert (Iu := inv_users _ I). assert (Il := inv_leases _ I). rewrite Forall_forall in Iu. rewrite Forall_forall in Il.
  destruct (Iu u Hu) as (_ & Hq & Hg). assert (budget u <= SAFE_INTEGER) by (unfold budget; case_if; lia).
  assert (l_grant l <= granted t u); [|lia]. unfold granted.
  assert (He : l ∈ epoch_leases t (u_id u) (u_epoch u)) by (apply filter_In; split; [done|by apply in_epoch_same]).
  assert (Hp : forall x, x ∈ epoch_leases t (u_id u) (u_epoch u) -> 0 <= l_grant x).
  { intros x (Hx & _)%filter_In. destruct (Il x Hx) as (? & _). lia. }
  clear -He Hp. induction (epoch_leases t (u_id u) (u_epoch u)) as [|x ls IH]; [by apply elem_of_nil in He|]. cbn [zsum].
  pose proof (Hp x (list_elem_of_here _ _)). assert (0 <= zsum l_grant ls) by (apply zsum_nonneg; intros y Hy; apply Hp; by right).
  apply elem_of_cons in He as [<-|He]; [lia|]. assert (l_grant l <= zsum l_grant ls); [|lia].
  apply IH; [done|]. intros y Hy. apply Hp. by right.
Qed.

Lemma entry_storable host boot now t u v :
  good now t -> texts t -> u ∈ users t -> 1 <= now <= 4102444740 -> lease_entry host boot now t u v ->
  storable (SBJ_MAX_DEPTH - 1 - 1) v.
Proof.
  intros [I _] [Tu Td Tn Tl] Hu Hn (_ & l & Hl & Ei & Hul & Hx & _ & ->). injection Ei as El _ _ Ee.
  rewrite Forall_forall in Tu. rewrite Forall_forall in Td. rewrite Forall_forall in Tl.
  pose proof (grant_range t u l I Hu Hl El Ee). assert (Iu := inv_users _ I). assert (Il := inv_leases _ I).
  rewrite Forall_forall in Iu. rewrite Forall_forall in Il. destruct (Iu u Hu) as (He & _). destruct (Il l Hl) as (Hr & _).
  unfold LEASE_SECONDS, SAFE_INTEGER in *.
  apply (lease_storable (SBJ_MAX_DEPTH - 1 - 1)); unfold SAFE_INTEGER; try lia; try by auto.
  apply storable_array; [unfold SBJ_MAX_DEPTH; lia|]. apply Forall_forall. intros x (d & -> & Hd)%list_elem_of_fmap.
  apply device_storable; [unfold SBJ_MAX_DEPTH; lia|]. apply Td. unfold device_rows in Hd. apply order_by_In, filter_In in Hd. apply Hd.
Qed.

Lemma find_stored_session r t :
  List.find (session_key (s_host r) (s_boot r)) (sessions (store_session r t)) = Some r.
Proof.
  unfold store_session, sql_upsert. cbn [sessions with_sessions]. set (m := session_key _ _).
  assert (Mr : m r = true) by (unfold m, session_key; by rewrite !bytes_eqb_refl). destruct (existsb m (sessions t)) eqn:E.
  - apply existsb_In in E as (x & Hx & Mx). induction (sessions t) as [|y l IH]; [by apply elem_of_nil in Hx|]. cbn [map List.find].
    destruct (m y) eqn:My; [by rewrite Mr|]. rewrite My. apply IH. apply elem_of_cons in Hx as [->|Hx]; [congruence|done].
  - rewrite existsb_none in E. induction (sessions t) as [|y l IH]; cbn [app List.find]; [by rewrite Mr|].
    rewrite (E y) by left. apply IH. intros z Hz. apply E. by right.
Qed.

Lemma exchange_request_facts request now :
  exchange_valid request now = Ok tt ->
  valid_utf8 (req_boot request) = true /\ 1 <= req_seq request <= SAFE_INTEGER /\ 1 <= now <= 4102444740.
Proof.
  unfold exchange_valid. cbv zeta. destruct (_ || _) eqn:E; [done|]. intros _. bool_facts. split_and!.
  - by eapply member_text_valid.
  - by apply (number_ok_int request "request_seq" 1 SAFE_INTEGER).
  - by apply (number_ok_int request "request_seq" 1 SAFE_INTEGER).
  - lia.
  - lia.
Qed.

Lemma exchange_valid_time request now now2 :
  exchange_valid request now = Ok tt -> 1 <= now2 <= 4102444740 -> exchange_valid request now2 = Ok tt.
Proof.
  intros V Hn. destruct (exchange_request_facts _ _ V) as (_ & _ & Hr). revert V. unfold exchange_valid. cbv zeta.
  by rewrite (ltb_false now 1), (ltb_false now2 1), (ltb_false 4102444740 now), (ltb_false 4102444740 now2) by lia.
Qed.

(** What is stored for an answer is read back as the answer. *)
Lemma answer_round env now host request t out t' :
  texts t -> valid_utf8 host = true -> exchange_valid request now = Ok tt -> good now t' -> texts t' ->
  answered env host request now t out t' -> sbj_parse (sbj_dump (Some out) (-1)) = Some out.
Proof.
  intros T Vh V G' T' (_ & Eu & _ & _ & node & es & Eo & An & He). destruct (exchange_request_facts _ _ V) as (Vb & Hs & Hr).
  apply storable_round. rewrite Eo. apply answer_storable; [done|done|lia|lia| |].
  - destruct An as [->|(n & Hin & _ & _ & ->)]; [by repeat split|]. apply node_storable; [unfold SBJ_MAX_DEPTH; lia|].
    pose proof (texts_nodes _ T) as F. rewrite Forall_forall in F. by apply F.
  - apply storable_array; [unfold SBJ_MAX_DEPTH; lia|]. apply Forall_forall. intros v ([u v'] & -> & Hin)%list_elem_of_fmap.
    unfold answer_entries in He. rewrite Forall_forall in He. destruct (He _ Hin) as (Hu%leased_users_In & _ & Hl).
    apply (entry_storable host (req_boot request) now t' u); [done|done|rewrite Eu; apply Hu|done|exact Hl].
Qed.

Lemma exchange_round env now now' host request s out s' :
  reachable now (db s) -> now <= now' -> valid_utf8 host = true ->
  sb_proxy_lease_exchange env host request now' s = (Ok out, s') -> answered env host request now' (db s) out (db s') ->
  sbj_parse (sbj_dump (Some out) (-1)) = Some out.
Proof.
  intros R Hn Vh E A. assert (G : good now' (db s)) by (eapply good_mono; [done|by apply reachable_good]).
  pose proof (exchange_spec env host request now' s G) as W. pose proof (exchange_texts env host request now' s (reachable_texts _ _ R)) as T'.
  unfold wp in W, T'. rewrite E in W, T'. destruct W as ([G' _] & _ & V & _).
  apply (answer_round env now' host request (db s) out (db s')); try done. by eapply reachable_texts.
Qed.

Lemma answered_recorded env host request now t out t' :
  answered env host request now t out t' ->
  last_session t' host (req_boot request) =
    Some (mk_session host (req_boot request) (req_seq request) (req_hash env request) (sbj_dump (Some out) (-1)) now).
Proof. intros (_ & _ & _ & Es & _). unfold last_session. rewrite Es. apply (find_stored_session (mk_session _ _ _ _ _ _) t). Qed.

Lemma answer_reads_back env now now' host request s out s' :
  reachable now (db s) -> now <= now' -> valid_utf8 host = true ->
  sb_proxy_lease_exchange env host request now' s = (Ok out, s') ->
  exchange_valid request now' = Ok tt /\ resent env host request (db s') out.
Proof.
  intros R Hn Vh E. assert (G : good now' (db s)) by (eapply good_mono; [done|by apply reachable_good]).
  pose proof (exchange_spec env host request now' s G) as W. unfold wp in W. rewrite E in W. destruct W as (_ & _ & V & H). split; [done|].
  destruct H as [(-> & response & Es & P)|A]; [by eapply sequence_resent|].
  eexists. split; [by eapply answered_recorded|]. cbn. split_and!; [done..|]. by eapply exchange_round.
Qed.

(** ** Answers *)

(** The answer was given before, as a new one, to a request of the same host and boot
    with the same number and hash: the exchange at time [at_] gave [first], whose
    stored text is read as [out], which is [first] itself if the host's identifier
    is UTF-8. *)
Definition repeats (now : Z) (env : environment) (host : bytes) (request : option sbj) (out : sbj) : Prop :=
  exists before at_ env0 request0 s0 first s1,
    reachable before (db s0) /\ before <= at_ <= now /\
    sb_proxy_lease_exchange env0 host request0 at_ s0 = (Ok first, s1) /\ answered env0 host request0 at_ (db s0) first (db s1) /\
    req_boot request0 = req_boot request /\ req_seq request0 = req_seq request /\ req_hash env0 request0 = req_hash env request /\
    sbj_parse (sbj_dump (Some first) (-1)) = Some out /\ (valid_utf8 host = true -> out = first).

Lemma resent_repeats now now' env host request t out :
  reachable now t -> now <= now' -> resent env host request t out -> repeats now' env host request out.
Proof.
  intros R Hn (r & Lr & Sr & Hr & Pr). destruct (last_session_In _ _ _ _ Lr) as (In & Eh & Eb).
  pose proof (sessions_recorded _ _ R) as F. rewrite Forall_forall in F.
  destruct (F r In) as (b & env0 & q & s0 & first & s1 & R0 & Hb & X & A & Qb & Qs & Qh & Er). rewrite Eh in *. rewrite Er in Pr.
  exists b, (s_updated r), env0, q, s0, first, s1. split_and!; try done; try lia; try congruence.
  intros Vh. pose proof (exchange_round env0 b (s_updated r) host q s0 first s1 R0 ltac:(lia) Vh X A) as P0. congruence.
Qed.

(** C4: the lease exchange answers only with what it may grant, or with what it
    answered before.  A new answer is recorded for its request; its node is none or
    the enabled ingress node of the host.  Every user in it is enabled, not deleted,
    not expired, bound to the node and past its waiting time; its lease is stored
    for this host, boot and epoch, has bytes left, ends within 60 seconds and not
    after the user does, and the user has working devices, which are listed; and
    every lease of an earlier period of the user has already ended.  Otherwise
    nothing changes and the answer is the one recorded for this very request: an
    earlier exchange gave it, as a new answer, to a request of the same host and
    boot with the same number and hash.  The tables are any that the calls can reach,
    with a wall clock that never goes back and fresh user identifiers. *)
Theorem exchange_answer_sound now now' env host request s out s' :
  reachable now (db s) -> now <= now' -> sb_proxy_lease_exchange env host request now' s = (Ok out, s') ->
  (db s' = db s /\ resent env host request (db s) out /\ repeats now' env host request out) \/
  (last_session (db s') host (req_boot request) =
     Some (mk_session host (req_boot request) (req_seq request) (req_hash env request) (sbj_dump (Some out) (-1)) now') /\
  exists node es, out = answer_json host (req_boot request) (req_seq request) now' node (SBJ_ARRAY (map snd es)) /\
    answer_node host (db s) node /\
    forall u v, (u, v) ∈ es ->
      u ∈ users (db s') /\ (u_id u, host) ∈ user_nodes (db s) /\ u_enabled u = true /\ u_deleted u = false /\
      unexpired (u_expires u) now' = true /\ u_not_before u <= now' /\
      lease_entry host (req_boot request) now' (db s') u v /\
      forall l, l ∈ leases (db s') -> l_user l = u_id u -> l_epoch l <> u_epoch u ->
        l_epoch l < u_epoch u /\ l_expires l <= now').
Proof.
  intros R Hn E. assert (G : good now' (db s)) by (eapply good_mono; [done|by apply reachable_good]).
  pose proof (exchange_spec env host request now' s G) as W. unfold wp in W. rewrite E in W.
  destruct W as ([[I' _] _] & _ & _ & [(Ed & response & Es & P)|A]).
  - left. pose proof (sequence_resent _ _ _ _ _ _ Es P) as Rs. split; [done|]. split; [done|]. by eapply resent_repeats.
  - right. split; [by eapply answered_recorded|]. destruct A as (_ & Eu & _ & _ & node & es & Eo & An & He).
    exists node, es. split; [done|]. split; [done|]. intros u v Hin. unfold answer_entries in He. rewrite Forall_forall in He.
    destruct (He _ Hin) as ((Hu & Hb & H1 & H2 & H3)%leased_users_In & Hnb & Hl). cbn [fst snd] in *.
    rewrite Eu. do 7 (split; [assumption|]). intros l Hl' Elu Ne. assert (Il := inv_leases _ I'). rewrite Forall_forall in Il.
    destruct (Il l Hl') as (_ & u0 & Hu0 & E0 & L0 & X0). rewrite Eu in Hu0.
    assert (u0 = u) as -> by (eapply (user_unique (db s)); [apply G|done|done|congruence]). split; [lia|]. specialize (X0 ltac:(lia)). lia.
Qed.

(** The first answer is new: nothing was recorded before. *)
Lemma exchange_answer_sound_witness :
  sbj_arr_len (sbj_get (Some sample_answer) "users") = 1%nat /\
  exists node es, sample_answer = answer_json (bs "h1") (req_boot sample_request) (req_seq sample_request) 1001 node (SBJ_ARRAY (map snd es)) /\
    forall u v, (u, v) ∈ es -> u_not_before u <= 1001.
Proof.
  split; [vm_compute; reflexivity|]. set (s' := snd (sb_proxy_lease_exchange quiet_env (bs "h1") sample_request 1001 before_exchange)).
  assert (E : sb_proxy_lease_exchange quiet_env (bs "h1") sample_request 1001 before_exchange = (Ok sample_answer, s')) by (vm_compute; reflexivity).
  destruct (exchange_answer_sound 1000 1001 quiet_env (bs "h1") sample_request before_exchange sample_answer s'
              before_exchange_reachable ltac:(lia) E) as [(_ & (r & Hr & _) & _)|(_ & node & es & Eo & _ & He)]; [vm_compute in Hr; discriminate Hr|].
  exists node, es. split; [exact Eo|]. intros u v Hin. apply (He u v Hin).
Defined.

(** ** Sending a request again *)

(** C9: an answer that got lost can be asked for again.  After an exchange with a
    host whose identifier is UTF-8 was answered, the same request, sent again by
    that host before another request of that boot was accepted, gets exactly the
    same answer and changes no table, however the tables have changed otherwise: as
    long as the host is still known and enabled, the database does not fail in the
    second call, the hash function is the same, and the second call comes no earlier
    than the first and no later than the last time the code accepts (the year
    2099). *)
Theorem exchange_replay now now' env host request s out s' env2 now2 s2 :
  reachable now (db s) -> now <= now' -> valid_utf8 host = true ->
  sb_proxy_lease_exchange env host request now' s = (Ok out, s') ->
  last_session (db s2) host (req_boot request) = last_session (db s') host (req_boot request) ->
  host_enabled (db s2) host = true -> now' <= now2 <= 4102444740 ->
  (forall b, sha256 env2 b = sha256 env b) -> (forall n, fault env2 n = None) ->
  exists s2', sb_proxy_lease_exchange env2 host request now2 s2 = (Ok out, s2') /\ db s2' = db s2.
Proof.
  intros R Hn Vh E El Eh Hn2 Sha Nf. destruct (answer_reads_back _ _ _ _ _ _ _ _ R Hn Vh E) as (V & r & Lr & Sr & Hr & Pr).
  destruct (exchange_request_facts _ _ V) as (_ & _ & Hr'). pose proof (exchange_valid_time request now' now2 V ltac:(lia)) as V2.
  assert (Sq : request_sequence (last_session (db s2) host (req_boot request)) (req_seq request) (req_hash env2 request) = Replay (s_response r)).
  { rewrite El, Lr. unfold request_sequence, req_hash, sb_sha256_hex. rewrite Sr, Z.eqb_refl, Sha.
    unfold req_hash, sb_sha256_hex in Hr. by rewrite Hr, bytes_eqb_refl. }
  unfold sb_proxy_lease_exchange. rewrite V2. unfold transaction, control, mbind, sql_bind, pure, query, stmt.
  cbv zeta. rewrite Nf. cbn [db mem asked]. rewrite Nf. cbn [db mem asked]. rewrite Eh. cbn [negb]. rewrite Nf. cbn [db mem asked].
  fold (req_boot request) (req_seq request) (req_hash env2 request). fold (last_session (db s2) host (req_boot request)). rewrite Sq, Pr.
  unfold mret, sql_ret. cbn [asked]. rewrite Nf. eexists. split; [reflexivity|done].
Qed.

(** The first answer of the sample system, asked for again twenty seconds later,
    after the user was reset. *)
Lemma exchange_replay_witness :
  let s' := snd (sb_proxy_lease_exchange quiet_env (bs "h1") sample_request 1001 before_exchange) in
  let s2 := snd (run_call quiet_env 1010 (UserReset sample_user) s') in
  exists s2', sb_proxy_lease_exchange quiet_env (bs "h1") sample_request 1021 s2 = (Ok sample_answer, s2') /\ db s2' = db s2.
Proof.
  intros s' s2. apply (exchange_replay 1000 1001 quiet_env (bs "h1") sample_request before_exchange sample_answer s' quiet_env 1021 s2).
  - exact before_exchange_reachable.
  - lia.
  - vm_compute. reflexivity.
  - vm_compute. reflexivity.
  - vm_compute. reflexivity.
  - vm_compute. reflexivity.
  - lia.
  - intros b. reflexivity.
  - intros n. reflexivity.
Defined.
