(* ===== verification/ProxyFence.v ===== *)
(** * Resets and leases

    The clock in the process memory and the lease exchange together: after a user
    was reset, no exchange answers with a lease for that user until the fence of
    the reset is over, whatever other calls come in between. *)

From S2P Require Import Prelude Util Json JsonText Types ProxyClock Sqlite ProxyTables ProxyUsers ProxyLease SqliteProofs ProxyQuota ProxyLeaseProofs ProxySystem ProxyReplay.

(** ** Invariants of the process memory *)

Section Memory.
Context (I : option sb_proxy_clock -> nat -> Prop).
Hypothesis tick : forall p n, I p n -> I p (S n).

Definition holds (s : conn tables (option sb_proxy_clock)) : Prop := I (mem s) (asked s).

(** The program keeps the invariant, also when it fails. *)
Definition remembers {A} (m : proc A) : Prop := forall s, holds s -> holds (snd (m s)).

Lemma remembers_ret {A} (a : A) : remembers (mret a).
Proof. by intros s. Qed.
Lemma remembers_pure {A} (r : result A) : remembers (pure r).
Proof. by intros s. Qed.
Lemma remembers_ask {A} (f : nat -> A) : remembers (ask f).
Proof. intros s H. by apply tick. Qed.
Lemma remembers_stmt {A} fault (f : tables -> result (A * tables)) : remembers (stmt fault f).
Proof. intros s H. unfold stmt. destruct (fault (asked s)); [by apply tick|]. destruct (f (db s)) as [[a t]|e]; by apply tick. Qed.
Lemma remembers_query {A} fault (f : tables -> A) : remembers (query fault f).
Proof. apply remembers_stmt. Qed.
Lemma remembers_control fault : remembers (control fault).
Proof. apply remembers_stmt. Qed.

Lemma remembers_bind {A B} (m : proc A) (f : A -> proc B) : remembers m -> (forall a, remembers (f a)) -> remembers (m ≫= f).
Proof. intros Hm Hf s H. unfold mbind, sql_bind. specialize (Hm s H). destruct (m s) as [[a|e] s']; [by apply Hf|done]. Qed.

Lemma remembers_for_rows {R B} fault (rows : list R) (body : R -> B -> proc B) acc :
  (forall r b, remembers (body r b)) -> remembers (for_rows fault rows body acc).
Proof.
  intros Hb. revert acc. induction rows as [|r rows IH]; intros acc; cbn [for_rows];
    apply remembers_bind; [apply remembers_control|..|apply remembers_control|]; intros _; [apply remembers_ret|by apply remembers_bind].
Qed.

Lemma remembers_transaction {A} fault (body : proc A) : remembers body -> remembers (transaction fault body).
Proof.
  intros Hb s H. unfold transaction. pose proof (remembers_control fault s H) as H1.
  destruct (control fault s) as [[[]|e] s1]; [|done]. cbn [snd] in H1.
  assert (Hc : remembers (a ← body; _ ← control fault; mret a)).
  { apply remembers_bind; [done|intros a]. apply remembers_bind; [apply remembers_control|intros _; apply remembers_ret]. }
  specialize (Hc s1 H1). by destruct ((a ← body; _ ← control fault; mret a) s1) as [[a|e] s2].
Qed.

(** What the calls on the clock must keep. *)
Context (env : environment).
Hypothesis on_wait : forall p n u e, I p n -> I (snd (sb_proxy_clock_wait_ms p u e (clock_reading env n))) (S n).
Hypothesis on_reset : forall p n u e, I p n -> I (sb_proxy_clock_reset_epoch p u e (clock_reading env n)) (S n).

Lemma remembers_wait u e : remembers (proxy_wait env u e).
Proof.
  intros s H. unfold proxy_wait, on_memory. specialize (on_wait _ _ u e H). by destruct (sb_proxy_clock_wait_ms _ _ _ _).
Qed.

Lemma remembers_reset u e : remembers (proxy_reset env u e).
Proof. intros s H. by apply on_reset. Qed.

(** Goes through a program, down to its calls on the clock. *)
Ltac remember_steps :=
  repeat first
    [ solve [apply remembers_ret | apply remembers_pure | apply remembers_ask | apply remembers_stmt | apply remembers_query
            | apply remembers_control | apply remembers_wait | apply remembers_reset | assumption]
    | lazymatch goal with
      | |- remembers (transaction _ _) => apply remembers_transaction
      | |- remembers (mbind _ _) => apply remembers_bind; [|intros ?]
      | |- remembers (for_rows _ _ _ _) => apply remembers_for_rows; intros ? ?
      | |- remembers (match ?x with _ => _ end) => destruct x
      | |- remembers (let '(_, _) := ?x in _) => destruct x
      | |- remembers (let _ := _ in _) => cbv zeta
      end ].

Lemma user_locked_remembers id : remembers (user_locked env id).
Proof. unfold user_locked, devices_locked. remember_steps. Qed.

Lemma node_locked_remembers h p now : remembers (node_locked env h p now).
Proof. unfold node_locked, runtime_ready. remember_steps. Qed.

Lemma check_ingress_remembers l : remembers (check_ingress env l).
Proof. induction l; cbn [check_ingress]; remember_steps. Qed.

Lemma bind_hosts_remembers id l : remembers (bind_hosts env id l).
Proof. induction l; cbn [bind_hosts]; remember_steps. Qed.

Lemma reports_locked_remembers h b l now : remembers (reports_locked env h b l now).
Proof. induction l; cbn [reports_locked]; unfold report_locked; remember_steps. Qed.

Lemma save_locked_remembers id g body now : remembers (save_locked env id g body now).
Proof.
  pose proof user_locked_remembers. pose proof (check_ingress_remembers). pose proof bind_hosts_remembers.
  unfold save_locked, check_room, check_update. remember_steps; auto.
Qed.

Lemma lease_locked_remembers h b u e q x now : remembers (lease_locked env h b u e q x now).
Proof. unfold lease_locked, devices_locked, new_uuid. remember_steps. Qed.

Lemma lease_users_remembers h b now : remembers (lease_users env h b now).
Proof.
  pose proof node_locked_remembers. pose proof lease_locked_remembers. unfold lease_users, runtime_ready, lease_user.
  remember_steps; auto.
Qed.

Lemma exchange_remembers h request now : remembers (sb_proxy_lease_exchange env h request now).
Proof.
  pose proof reports_locked_remembers. pose proof lease_users_remembers. unfold sb_proxy_lease_exchange. remember_steps; auto.
Qed.

Lemma call_remembers now c : remembers (run_call env now c).
Proof.
  pose proof user_locked_remembers. pose proof save_locked_remembers. pose proof node_locked_remembers. pose proof exchange_remembers.
  destruct c; cbn [run_call]; unfold ignore, sb_proxy_runtime_report, sb_proxy_user_save, sb_proxy_user_remove, sb_proxy_user_reset,
    sb_proxy_user_get, sb_proxy_users_list, sb_proxy_claim_rotate, sb_proxy_claim_resolve, sb_proxy_device_create, sb_proxy_device_revoke,
    sb_proxy_ingress_save, sb_proxy_ingress_list, sb_proxy_subscription, runtime_ready, new_secret, new_uuid; remember_steps; auto.
Qed.
End Memory.

(** ** The two invariants *)

(** No wait of the user ends before [T]. *)
Definition fence_memory (user : bytes) (T : Z) (p : option sb_proxy_clock) (_ : nat) : Prop :=
  exists c, p = Some c /\ fenced c user T.

(** The clock of the process is behind the readings to come, of which the [n]-th
    is next. *)
Definition clock_behind (env : environment) (n0 : nat) (p : option sb_proxy_clock) (n : nat) : Prop :=
  (n0 <= n)%nat /\ exists c, p = Some c /\ last_now c <= clock_reading env n.

(** Readings that do not go back and are in range. *)
Definition steady (env : environment) : Prop :=
  (forall n m, (n <= m)%nat -> clock_reading env n <= clock_reading env m) /\
  (forall n, 0 <= clock_reading env n <= INT64_MAX - FENCE_MS).

Lemma wait_is_step c u e t : snd (sb_proxy_clock_wait_ms (Some c) u e t) = Some (clock_step c (OpWait u e t)).
Proof.
  unfold clock_step. cbn [sb_proxy_clock_wait_ms]. destruct (read_now _ _) as [[x|] c']; [|done].
  by destruct (observe_epoch _ _ _ _).
Qed.

Lemma reset_is_step c u e t : sb_proxy_clock_reset_epoch (Some c) u e t = Some (clock_step c (OpReset u e t)).
Proof.
  unfold clock_step. cbn [sb_proxy_clock_reset_epoch]. destruct (read_now _ _) as [[x|] c']; [|done].
  by destruct (observe_epoch _ _ _ _).
Qed.

Lemma fence_on_wait user T env p n u e :
  fence_memory user T p n -> fence_memory user T (snd (sb_proxy_clock_wait_ms p u e (clock_reading env n))) (S n).
Proof. intros (c & -> & F). rewrite wait_is_step. eexists. split; [done|]. by apply fenced_step. Qed.

Lemma fence_on_reset user T env p n u e :
  fence_memory user T p n -> fence_memory user T (sb_proxy_clock_reset_epoch p u e (clock_reading env n)) (S n).
Proof. intros (c & -> & F). rewrite reset_is_step. eexists. split; [done|]. by apply fenced_step. Qed.

Lemma behind_reading env n0 c n : steady env -> clock_behind env n0 (Some c) n -> reading_ok c (clock_reading env n).
Proof. intros [_ Hr] (_ & c' & [= <-] & H). split; [done|apply Hr]. Qed.

Lemma behind_step env n0 c n op :
  steady env -> op_reading op = clock_reading env n -> clock_behind env n0 (Some c) n ->
  clock_behind env n0 (Some (clock_step c op)) (S n).
Proof.
  intros St E B. assert (R := behind_reading _ _ _ _ St B). rewrite <- E in R. destruct (step_entry c op [] R) as (_ & El & _).
  destruct B as [B _]. split; [lia|]. eexists. split; [done|]. rewrite El, E. apply St. lia.
Qed.

Lemma behind_tick env n0 p n : steady env -> clock_behind env n0 p n -> clock_behind env n0 p (S n).
Proof.
  intros [Hm _] (B & c & -> & H). split; [lia|]. exists c. split; [done|]. specialize (Hm n (S n) ltac:(lia)). lia.
Qed.

Lemma behind_on_wait env n0 p n u e :
  steady env -> clock_behind env n0 p n -> clock_behind env n0 (snd (sb_proxy_clock_wait_ms p u e (clock_reading env n))) (S n).
Proof. intros St B. pose proof B as (_ & c & -> & _). rewrite wait_is_step. by apply behind_step. Qed.

Lemma behind_on_reset env n0 p n u e :
  steady env -> clock_behind env n0 p n -> clock_behind env n0 (sb_proxy_clock_reset_epoch p u e (clock_reading env n)) (S n).
Proof. intros St B. pose proof B as (_ & c & -> & _). rewrite reset_is_step. by apply behind_step. Qed.

Lemma wp_remembers I {A} (m : proc A) s : remembers I m -> holds I s -> wp m (fun _ s' => holds I s') no_care s.
Proof. intros R H. specialize (R s H). unfold wp. by destruct (m s) as [[a|e] s']. Qed.

(** ** A reset starts a fence *)

Lemma reset_fences env id now s :
  steady env -> clock_behind env (asked s) (mem s) (asked s) ->
  wp (sb_proxy_user_reset env id now)
     (fun _ s' => holds (fence_memory id (clock_reading env (asked s) + FENCE_MS)) s') no_care s.
Proof.
  intros St B. unfold sb_proxy_user_reset. case_if; [by apply wp_pure|]. apply wp_transaction; [done|].
  set (I := clock_behind env (asked s)). assert (tick : forall p n, I p n -> I p (S n)) by (intros p n; by apply behind_tick).
  assert (Hs : I (mem s) (S (asked s))) by (by apply tick).
  apply wp_bind, wp_stmt; [done|]. cbn [db mem asked]. destruct (reset_user id now (db s)) as [n t]. case_if; [by apply wp_pure|].
  apply wp_bind. eapply wp_mono; [apply (wp_remembers I); [|by apply tick]|..]; [|cbn beta|done].
  - apply user_locked_remembers; [done|]. intros p m u e. by apply behind_on_wait.
  - intros out s1 H1. apply wp_bind. unfold proxy_reset. apply wp_on_memory. cbn [fst snd]. apply wp_ret. split; [|done].
    cbn [mem asked]. destruct H1 as (Hn & c & Ec & Hl). unfold holds. cbn [mem asked]. rewrite Ec, reset_is_step.
    eexists. split; [done|]. set (r := clock_reading env (asked s1)).
    assert (R : reading_ok c r) by (split; [done|apply St]).
    destruct (starts_fence_fenced c (OpReset id (sbj_get_int (Some out) "epoch" 0) r) R Logic.I) as [F1 F2]. cbn [op_reading op_user] in *.
    assert (clock_reading env (asked s) <= r) by (by apply St). split; [lia|]. destruct F2 as [F2|(x & Fx & F2)]; [left; lia|right].
    exists x. split; [done|lia].
Qed.

(** ** While the fence lasts *)

Definition no_entry (id : bytes) (l : list sbj) : Prop := Forall (fun v => sbj_get_str (Some v) "id" None <> Some (cstr id)) l.

Lemma fenced_same c u v T : cstr u = cstr v -> fenced c u T -> fenced c v T.
Proof. unfold fenced. intros E. by rewrite (epoch_find_cstr _ u v E). Qed.

Lemma lease_locked_id env host boot user epoch quota expiry now s :
  wp (lease_locked env host boot user epoch quota expiry now)
     (fun r _ => forall v, r = Some v -> sbj_get_str (Some v) "id" None = Some (cstr user)) no_care s.
Proof.
  unfold lease_locked. apply wp_bind, wp_read; [frames|]. intros ds s1 _. case_if; [by apply wp_ret|].
  apply wp_bind, wp_query; [done|]. apply wp_bind, wp_stmt; [done|]. destruct (sql_sum _ _) as [a|]; [|done]. cbn [mbind result_bind].
  apply wp_bind, wp_query; [done|]. case_if; [by apply wp_pure|]. case_if; [by apply wp_ret|].
  apply wp_bind, wp_read; [destruct (List.find _ _); frames|]. intros id s2 _. apply wp_bind, wp_stmt; [done|].
  destruct (store_lease _ _) as [[[] t]|]; [|done]. apply wp_ret. intros v [= <-]. reflexivity.
Qed.

Section Fenced.
Context (env : environment) (id : bytes) (T : Z).
Context (early : forall n, clock_reading env n < T).
Abbreviation fence := (fence_memory id T).

Lemma fence_tick p n : fence p n -> fence p (S n).
Proof. done. Qed.

Lemma fenced_wait_positive c u e n : fenced c id T -> cstr u = cstr id -> 0 < fst (sb_proxy_clock_wait_ms (Some c) u e (clock_reading env n)).
Proof.
  intros F E. change (0 < wait c u e (clock_reading env n)). specialize (early n).
  destruct (reading_dec c (clock_reading env n)) as [R|R].
  - pose proof (fenced_wait c u e _ T (fenced_same _ _ _ _ (eq_sym E) F) R). lia.
  - rewrite wait_rejected by done. done.
Qed.

Lemma lease_user_fenced host boot now u l s :
  holds fence s -> no_entry id l ->
  wp (lease_user env host boot now u (SBJ_ARRAY l))
     (fun out s' => holds fence s' /\ exists l', out = SBJ_ARRAY l' /\ no_entry id l') no_care s.
Proof.
  intros H N. unfold lease_user. apply wp_bind. unfold proxy_wait. apply wp_on_memory. cbn [fst snd].
  assert (H1 := fence_on_wait id T env _ (asked s) (u_id u) (u_epoch u) H). destruct H as (c & Ec & F). rewrite Ec in *.
  destruct (_ || (now <? _)) eqn:Ew; [apply wp_ret; split; [done|by exists l]|]. apply orb_false_iff in Ew as [Ew%Z.ltb_ge _].
  assert (Ne : cstr (u_id u) <> cstr id).
  { intros Eq. pose proof (fenced_wait_positive c (u_id u) (u_epoch u) (asked s) F Eq). lia. }
  apply wp_bind. eapply wp_mono; [apply wp_and; [apply lease_locked_id|apply (wp_remembers fence)]|..]; [|exact H1| |done].
  - apply lease_locked_remembers. done.
  - intros r s' [Hv H']. apply wp_ret. split; [done|]. destruct r as [v|]; [|by exists l]. exists (l ++ [v]). split; [done|].
    apply Forall_app. split; [done|]. apply Forall_singleton. rewrite (Hv v eq_refl). congruence.
Qed.

Lemma lease_users_fenced host boot now s :
  holds fence s ->
  wp (lease_users env host boot now) (fun r s' => exists l, snd r = SBJ_ARRAY l /\ no_entry id l) no_care s.
Proof.
  intros H. unfold lease_users. apply wp_bind, wp_query; [done|]. apply wp_bind.
  eapply wp_mono; [apply (wp_remembers fence); [|exact H]|..]; [unfold runtime_ready; apply remembers_bind; [by apply remembers_query|intros ?; apply remembers_ret]| |done].
  intros [ready ?] s1 F1. case_if; [|apply wp_ret; exists []; split; [done|constructor]].
  apply wp_bind. eapply wp_mono; [apply (wp_remembers fence); [by apply node_locked_remembers|exact F1]|..]; [|done].
  intros node s2 F2. apply wp_bind, wp_query; [done|]. apply wp_bind.
  apply (wp_for_rows _ (fun _ out s' => holds fence s' /\ exists l, out = SBJ_ARRAY l /\ no_entry id l)); [done|done| |..].
  - intros u rest out s3 (F3 & l & -> & Nl). by apply lease_user_fenced.
  - intros out s3 (_ & l & -> & Nl). apply wp_ret. by exists l.
  - split; [done|]. exists []. split; [done|constructor].
Qed.

Lemma exchange_fenced host request now s :
  holds fence s ->
  wp (sb_proxy_lease_exchange env host request now)
     (fun out s' => (db s' = db s /\ resent env host request (db s) out) \/ no_entry id (arr_items (sbj_get (Some out) "users"))) no_care s.
Proof.
  intros H. unfold sb_proxy_lease_exchange. apply wp_bind, wp_pure. destruct (exchange_valid _ _); [|done].
  fold (req_boot request) (req_seq request) (req_hash env request).
  apply wp_transaction; [done|]. apply wp_bind, wp_query; [done|]. case_if; [by apply wp_pure|].
  apply wp_bind, wp_query; [done|]. cbn [db]. fold (last_session (db s) host (req_boot request)).
  destruct (request_sequence _ _ _) as [response| |] eqn:Es; [|by apply wp_pure|].
  - destruct (sbj_parse response) eqn:P; [|by apply wp_pure]. apply wp_ret. split; [|done]. left. split; [done|]. by eapply sequence_resent.
  - apply wp_bind. eapply wp_mono; [apply (wp_remembers fence); [by apply reports_locked_remembers|exact H]|..]; [|done].
    intros ? s1 F1. apply wp_bind. eapply wp_mono; [by apply lease_users_fenced|..]; [|done]. intros [node users] s2 (l & El & Nl).
    cbn [snd] in El. subst users. apply wp_bind, wp_stmt; [done|]. apply wp_ret. split; [right|done].
    change (sbj_get _ "users") with (Some (SBJ_ARRAY l)). exact Nl.
Qed.
End Fenced.

(** Calls with their environments and times. *)
Definition run_all (calls : list (environment * Z * proxy_call)) (s : conn tables (option sb_proxy_clock)) :=
  foldl (fun s c => snd (run_call (fst (fst c)) (snd (fst c)) (snd c) s)) s calls.

Lemma run_all_fenced id T calls s : holds (fence_memory id T) s -> holds (fence_memory id T) (run_all calls s).
Proof.
  revert s. induction calls as [|[[env now] c] calls IH]; intros s H; [done|]. cbn [run_all foldl fst snd]. apply IH.
  apply call_remembers; [done|..|done]; intros p n u e.
  - apply fence_on_wait.
  - apply fence_on_reset.
Qed.

(** C3: a reset keeps leases back.  Once a reset of a user succeeded, no exchange
    answers with a lease of that user while the monotonic clock of the process
    shows less than 60 seconds past the start of the reset: not after any calls in
    between, whatever failed, whatever the wall clock says and however the tables
    changed.  The one exception changes nothing and repeats the answer stored for
    this very request, of the same host and boot with the same number and hash; in
    tables that the calls can reach, an earlier exchange gave that answer, as a new
    one. *)
Theorem reset_blocks_leases env id now s out s1 calls s2 env2 host request now2 out2 s3 :
  steady env -> clock_behind env (asked s) (mem s) (asked s) ->
  sb_proxy_user_reset env id now s = (Ok out, s1) ->
  mem s2 = mem (run_all calls s1) ->
  (forall n, clock_reading env2 n < clock_reading env (asked s) + FENCE_MS) ->
  sb_proxy_lease_exchange env2 host request now2 s2 = (Ok out2, s3) ->
  (db s3 = db s2 /\ resent env2 host request (db s2) out2 /\
   forall at_, reachable at_ (db s2) -> at_ <= now2 -> repeats now2 env2 host request out2) \/
  forall v, v ∈ arr_items (sbj_get (Some out2) "users") -> sbj_get_str (Some v) "id" None <> Some (cstr id).
Proof.
  intros St B E1 Em Early E2. pose proof (reset_fences env id now s St B) as W. unfold wp in W. rewrite E1 in W.
  apply (run_all_fenced _ _ calls) in W. assert (F : holds (fence_memory id (clock_reading env (asked s) + FENCE_MS)) s2).
  { unfold holds, fence_memory in *. by rewrite Em. }
  pose proof (exchange_fenced env2 id _ Early host request now2 s2 F) as X. unfold wp in X. rewrite E2 in X.
  destruct X as [[X Rs]|X]; [left|right].
  - split; [done|]. split; [done|]. intros at_ R L. by eapply resent_repeats.
  - unfold no_entry in X. by rewrite Forall_forall in X.
Qed.

(** The user of the sample system is reset; the next exchange, a second later by
    the monotonic clock and an hour later by the wall clock, has no lease. *)
Definition next_request : option sbj := json_text "{'version':1,'boot_id':'b','request_seq':2,'reports':[]}".

(** The host was seen recently. *)
Definition seen_later : list (environment * Z * proxy_call) :=
  [(quiet_env, 4610, RuntimeReport (bs "h1") (json_text "['proxy_users_v1']"))].

(** Readings up to that of the exchange. *)
Definition slow_env : environment :=
  mk_env (fault quiet_env) (fun n => Z.min (clock_reading quiet_env n) 101000) (unix_now quiet_env) (uuid_random quiet_env)
    (random_bytes quiet_env) (sha256 quiet_env) (inet_pton4 quiet_env) (inet_pton6 quiet_env).

Definition after_reset := run_all seen_later (snd (sb_proxy_user_reset slow_env sample_user 1010 sample_state)).

Definition next_answer : sbj :=
  Eval vm_compute in match fst (sb_proxy_lease_exchange slow_env (bs "h1") next_request 4610 after_reset) with
                     | Ok out => out | Err _ => SBJ_NULL end.

Lemma slow_steady : steady slow_env.
Proof. split; cbn; intros; unfold INT64_MAX, FENCE_MS; lia. Qed.

Lemma reset_blocks_leases_witness :
  sbj_get (Some next_answer) "users" = Some (SBJ_ARRAY []) /\
  forall v, v ∈ arr_items (sbj_get (Some next_answer) "users") -> sbj_get_str (Some v) "id" None <> Some (cstr sample_user).
Proof.
  split; [vm_compute; reflexivity|].
  set (s3 := snd (sb_proxy_lease_exchange slow_env (bs "h1") next_request 4610 after_reset)).
  destruct (reset_blocks_leases slow_env sample_user 1010 sample_state
           (match fst (sb_proxy_user_reset slow_env sample_user 1010 sample_state) with Ok o => o | Err _ => SBJ_NULL end)
           (snd (sb_proxy_user_reset slow_env sample_user 1010 sample_state)) seen_later after_reset slow_env (bs "h1") next_request 4610 next_answer s3)
    as [(_ & (r & Hr & Sr & _) & _)|H].
  - exact slow_steady.
  - split; [lia|]. eexists. split; [vm_compute; reflexivity|]. vm_compute. discriminate.
  - vm_compute. reflexivity.
  - vm_compute. reflexivity.
  - intros n. change (Z.min (clock_reading quiet_env n) 101000 < clock_reading slow_env (asked sample_state) + FENCE_MS).
    replace (clock_reading slow_env (asked sample_state)) with 100051 by (vm_compute; reflexivity). unfold FENCE_MS. lia.
  - vm_compute. reflexivity.
  - vm_compute in Hr. injection Hr as <-. vm_compute in Sr. discriminate Sr.
  - exact H.
Defined.
