(* ===== verification/PrefSync.v ===== *)
(** * Encrypted preferences ([c/src/preferences_sync.c])

    Clients store documents that only they can decrypt, one per slot, with a
    revision that every write must name.  Programs on the table of migration 016;
    [EVP_DecodeBlock], [EVP_EncodeBlock] and the clock are fields of the
    environment. *)

From S2P Require Import Prelude Util Json JsonText JsonUtf8 JsonSafe JsonRound Sqlite SqliteProofs.

Record pref_row := mk_pref { f_user : bytes; f_slot : bytes; f_revision : Z; f_updated : Z; f_envelope : option bytes }.

(** [known_users] are the accounts that the foreign key refers to. *)
Record pref_tables := mk_prefs { known_users : list bytes; prefs : list pref_row }.

Record pref_env := mk_pref_env {
  fault : nat -> option bytes;
  time : nat -> Z;
  EVP_DecodeBlock : bytes -> option bytes;
  EVP_EncodeBlock : bytes -> bytes }.

Abbreviation pref := (sql pref_tables unit).

Definition ENVELOPE_LIMIT : Z := 1024 * 1024.
Definition USER_BYTES_LIMIT : Z := 8 * 1024 * 1024.
Definition USER_SLOTS_LIMIT : nat := 16.

Definition exact_text (value : option sbj) (text : string) : bool :=
  match value with Some (SBJ_STRING s) => bytes_eqb s (bs text) | _ => false end.

Definition base64_letter (c : ascii) : bool :=
  in_range 65 90 (code c) || in_range 97 122 (code c) || in_range 48 57 (code c) || (code c =? 43) || (code c =? 47).

(** The character at an index is an equals sign. *)
Definition is_pad (text : bytes) (i : nat) : bool := match text !! i with Some c => code c =? 61 | None => false end.

Section Env.
Context (env : pref_env).
Abbreviation stmt := (stmt (fault env)).
Abbreviation query := (query (fault env)).
Abbreviation transaction := (transaction (fault env)).

Definition canonical_base64 (value : option sbj) (exact_length minimum : Z) : bool :=
  match value with
  | Some (SBJ_STRING text) =>
      let n := Z.of_nat (length text) in
      if (n =? 0) || (ENVELOPE_LIMIT <? n) || negb (n mod 4 =? 0) then false
      else
        let pad := (if is_pad text (length text - 1) then 1 else 0) + (if is_pad text (length text - 2) then 1 else 0) in
        if negb (forallb (fun ic => base64_letter (snd ic) || ((n - pad <=? Z.of_nat (fst ic)) && (code (snd ic) =? 61))) (imap pair text))
        then false
        else
          let bytes := n / 4 * 3 - pad in
          if (negb (exact_length =? 0) && negb (bytes =? exact_length)) || (bytes <? minimum) then false
          else
            match EVP_DecodeBlock env text with
            | Some decoded => bytes_eqb (EVP_EncodeBlock env (take (Z.to_nat bytes) decoded)) text
            | None => false
            end
  | _ => false
  end.

Definition envelope_valid (envelope : option sbj) : bool :=
  let version := sbj_get envelope "version" in
  let iterations := sbj_get envelope "iterations" in
  sbj_is_object envelope && (sbj_obj_len envelope =? 7)%nat &&
  exact_text (sbj_get envelope "format") "sb-easy.preferences" &&
  sbj_is_integer version && (sbj_get_int envelope "version" 0 =? 1) &&
  exact_text (sbj_get envelope "kdf") "pbkdf2-sha256" &&
  sbj_is_integer iterations && (sbj_get_int envelope "iterations" 0 =? 600000) &&
  canonical_base64 (sbj_get envelope "salt") 16 16 && canonical_base64 (sbj_get envelope "nonce") 12 12 &&
  canonical_base64 (sbj_get envelope "ciphertext") 0 17.

Definition sb_preferences_validate_envelope (envelope : option sbj) : result unit :=
  if negb (envelope_valid envelope) then sb_fail SB_ERR_VALIDATION (bs "Invalid encrypted preferences envelope")
  else if Z.of_nat (length (cstr (sbj_dump envelope (-1)))) <=? ENVELOPE_LIMIT then Ok tt
  else sb_fail SB_ERR_VALIDATION (bs "Encrypted preferences exceed 1 MiB").

Definition identifier (text : option bytes) (limit : nat) : bool :=
  match text with
  | Some s => negb (length s =? 0)%nat && (length s <=? limit)%nat &&
              forallb (fun c => in_range 97 122 (code c) || in_range 65 90 (code c) || in_range 48 57 (code c) ||
                                (code c =? 45) || (code c =? 95)) s
  | None => false
  end.

Definition arguments (user_id slot : option bytes) : result unit :=
  if identifier user_id 128 && identifier slot 64 then Ok tt else sb_fail SB_ERR_VALIDATION (bs "Invalid preference slot").

Definition is_slot (user slot : bytes) (r : pref_row) : bool := bytes_eqb (f_user r) user && bytes_eqb (f_slot r) slot.
Definition find_slot (t : pref_tables) (user slot : bytes) : option pref_row := List.find (is_slot user slot) (prefs t).

Definition slot_json (r : pref_row) (envelope : sbj) : sbj :=
  let o := sbj_set_int (SBJ_OBJECT []) "revision" (f_revision r) in
  let o := sbj_set_int o "updated_at" (f_updated r) in
  let o := sbj_set o "envelope" envelope in
  match f_envelope r with None => sbj_set_bool o "deleted" true | Some _ => o end.

Definition read_locked (user slot : bytes) : pref sbj :=
  row ← query (fun t => find_slot t user slot);
  match row with
  | None => pure (sb_fail SB_ERR_NOT_FOUND (bs "Preference slot not found"))
  | Some r =>
      match f_envelope r with
      | None => mret (slot_json r SBJ_NULL)
      | Some text =>
          match sbj_parse text with
          | Some envelope => mret (slot_json r envelope)
          | None => pure (sb_fail SB_ERR_GENERIC (bs "Stored encrypted preferences are invalid"))
          end
      end
  end.

Definition sb_preferences_get (user_id slot : option bytes) : pref sbj :=
  _ ← pure (arguments user_id slot);
  read_locked (default [] user_id) (default [] slot).

(** [length(CAST(envelope AS BLOB))], NULL read as 0. *)
Definition stored_bytes (r : pref_row) : Z := match f_envelope r with Some text => Z.of_nat (length text) | None => 0 end.

Definition user_slots (t : pref_tables) (user : bytes) : list pref_row := List.filter (fun r => bytes_eqb (f_user r) user) (prefs t).

(** [INSERT ... ON CONFLICT(user_id,slot) DO UPDATE]. *)
Definition store_slot (r : pref_row) (t : pref_tables) : result (unit * pref_tables) :=
  if existsb (bytes_eqb (f_user r)) (known_users t)
  then Ok (tt, mk_prefs (known_users t) (sql_upsert (is_slot (f_user r) (f_slot r)) (fun _ => r) r (prefs t)))
  else sbq_fail (bs "FOREIGN KEY constraint failed").

Definition sb_preferences_put (user_id slot : option bytes) (expected_revision : Z) (envelope : option sbj) : pref sbj :=
  _ ← pure (arguments user_id slot);
  _ ← pure (sb_preferences_validate_envelope envelope);
  let user := default [] user_id in
  let slot := default [] slot in
  if (expected_revision <? 0) || (INT64_MAX <=? expected_revision) then pure (sb_fail SB_ERR_VALIDATION (bs "Invalid preference revision"))
  else
    let encoded := cstr (sbj_dump envelope (-1)) in
    transaction
      (row ← query (fun t => find_slot t user slot);
       let revision := match row with Some r => f_revision r | None => 0 end in
       let previous_length := match row with Some r => stored_bytes r | None => 0 end in
       if negb (revision =? expected_revision)
       then pure (sb_fail SB_ERR_CONFLICT (bs "Preferences changed on another device; fetch and review before saving"))
       else
         totals ← query (fun t => (length (user_slots t user), zsum stored_bytes (user_slots t user)));
         if negb ((negb (revision =? 0) || (fst totals <? USER_SLOTS_LIMIT)%nat) &&
                  (snd totals - previous_length + Z.of_nat (length encoded) <=? USER_BYTES_LIMIT))
         then pure (sb_fail SB_ERR_CONFLICT (bs "Preference storage limit reached (16 slots / 8 MiB)"))
         else
           now ← ask (time env);
           _ ← stmt (store_slot (mk_pref user slot (revision + 1) now (Some encoded)));
           read_locked user slot).

Definition deleted_at (now : Z) (r : pref_row) : pref_row := mk_pref (f_user r) (f_slot r) (f_revision r + 1) now None.

Definition sb_preferences_delete (user_id slot : option bytes) (expected_revision : Z) : pref unit :=
  _ ← pure (arguments user_id slot);
  if (expected_revision <=? 0) || (INT64_MAX <=? expected_revision)
  then pure (sb_fail SB_ERR_VALIDATION (bs "A positive preference revision is required"))
  else
    now ← ask (time env);
    n ← stmt (fun t =>
      let (l, n) := sql_update (fun r => is_slot (default [] user_id) (default [] slot) r && (f_revision r =? expected_revision))
                      (deleted_at now) (prefs t) in
      Ok (n, mk_prefs (known_users t) l));
    if negb (n =? 1)%nat then pure (sb_fail SB_ERR_CONFLICT (bs "Preferences changed or no longer exist; fetch before deleting"))
    else mret tt.
End Env.

(** * Preferences: revisions, limits and reading back *)

(** ** Slots *)

Definition slot_key (r : pref_row) : bytes * bytes := (f_user r, f_slot r).

(** The constraints of the table: the primary key and positive revisions. *)
Definition slots_ok (t : pref_tables) : Prop := NoDup (slot_key <$> prefs t) /\ forall r, r ∈ prefs t -> 0 < f_revision r.

Definition revision_of (t : pref_tables) (user slot : bytes) : Z :=
  match find_slot t user slot with Some r => f_revision r | None => 0 end.

Lemma is_slot_key user slot r : is_slot user slot r = true <-> slot_key r = (user, slot).
Proof.
  unfold is_slot, slot_key. rewrite andb_true_iff, !bytes_eqb_eq. split; [by intros [-> ->]|by intros [= -> ->]].
Qed.

Lemma is_slot_other user slot user' slot' r :
  (user', slot') <> (user, slot) -> is_slot user' slot' r = true -> is_slot user slot r = false.
Proof.
  intros N H. destruct (is_slot user slot r) eqn:E; [|done]. apply is_slot_key in H, E. congruence.
Qed.

(** What a find says after some rows of a slot were rewritten. *)
Lemma find_map_slot user slot (p : pref_row -> bool) g l :
  (forall r, slot_key (g r) = slot_key r) ->
  List.find (is_slot user slot) (map (fun r => if p r then g r else r) l) =
  (fun r => if p r then g r else r) <$> List.find (is_slot user slot) l.
Proof.
  intros Hg. induction l as [|r l IH]; [done|]. cbn [map List.find].
  assert (E : is_slot user slot (if p r then g r else r) = is_slot user slot r).
  { specialize (Hg r). unfold slot_key in Hg. injection Hg as E1 E2. unfold is_slot. case_if; by rewrite ?E1, ?E2. }
  rewrite E. by destruct (is_slot user slot r).
Qed.

Lemma find_upsert_same r l :
  List.find (is_slot (f_user r) (f_slot r)) (sql_upsert (is_slot (f_user r) (f_slot r)) (fun _ => r) r l) = Some r.
Proof.
  assert (R : is_slot (f_user r) (f_slot r) r = true) by (by apply is_slot_key). unfold sql_upsert. destruct (existsb _ l) eqn:E.
  - induction l as [|x l IH]; [done|]. cbn [map List.find existsb] in *. destruct (is_slot _ _ x) eqn:Ex; [by rewrite R|]. rewrite Ex. by apply IH.
  - assert (N := proj1 (existsb_none _ _) E). clear E. induction l as [|x l IH]; [cbn; by rewrite R|]. cbn [app List.find].
    rewrite N by left. apply IH. intros y Hy. apply N. by right.
Qed.

Lemma find_upsert_other user slot r l : (f_user r, f_slot r) <> (user, slot) ->
  List.find (is_slot user slot) (sql_upsert (is_slot (f_user r) (f_slot r)) (fun _ => r) r l) = List.find (is_slot user slot) l.
Proof.
  intros N. assert (R : is_slot user slot r = false) by (eapply is_slot_other; [exact N|by apply is_slot_key]). unfold sql_upsert. case_if.
  - clear E. induction l as [|x l IH]; [done|]. cbn [map List.find]. destruct (is_slot (f_user r) (f_slot r) x) eqn:Ex.
    + by rewrite R, (is_slot_other _ _ _ _ x N Ex).
    + by rewrite IH.
  - clear E. induction l as [|x l IH]; [cbn; by rewrite R|]. cbn [app List.find]. by rewrite IH.
Qed.

Lemma upsert_slots_ok k r l :
  0 < f_revision r -> slots_ok (mk_prefs k l) -> slots_ok (mk_prefs k (sql_upsert (is_slot (f_user r) (f_slot r)) (fun _ => r) r l)).
Proof.
  intros Hr [N P]. cbn [prefs] in *. unfold sql_upsert. destruct (existsb _ l) eqn:E; split; cbn [prefs].
  - replace (slot_key <$> map _ l) with (slot_key <$> l); [done|]. clear. induction l as [|x l IH]; [done|]. cbn. f_equal; [|exact IH].
    destruct (is_slot _ _ x) eqn:E; [|done]. by apply is_slot_key in E.
  - intros x (y & Hy & ->)%In_map_update. case_if; [done|by apply P].
  - rewrite fmap_app. apply NoDup_app. split; [done|]. split; [|apply NoDup_singleton]. intros key (x & -> & Hx)%list_elem_of_fmap Hk.
    apply list_elem_of_singleton in Hk. assert (F := proj1 (existsb_none _ _) E x Hx). by rewrite (proj2 (is_slot_key _ _ x) Hk) in F.
  - intros x [Hx| ->%list_elem_of_singleton]%elem_of_app; [by apply P|done].
Qed.

(** ** What calls do *)

Section Calls.
Context (env : pref_env).

Definition encoded (envelope : option sbj) : bytes := cstr (sbj_dump envelope (-1)).

(** The room that a write leaves. *)
Definition fits (t : pref_tables) (user slot : bytes) (text : bytes) : Prop :=
  (revision_of t user slot <> 0 \/ (length (user_slots t user) < USER_SLOTS_LIMIT)%nat) /\
  zsum stored_bytes (user_slots t user) - match find_slot t user slot with Some r => stored_bytes r | None => 0 end + Z.of_nat (length text) <= USER_BYTES_LIMIT.

Lemma put_spec user slot expected envelope s :
  wp (sb_preferences_put env (Some user) (Some slot) expected envelope)
     (fun answer s' => exists now text_value,
        let r := mk_pref user slot (expected + 1) now (Some (encoded envelope)) in
        revision_of (db s) user slot = expected /\ 0 <= expected < INT64_MAX /\
        sb_preferences_validate_envelope env envelope = Ok tt /\ fits (db s) user slot (encoded envelope) /\
        db s' = mk_prefs (known_users (db s)) (sql_upsert (is_slot user slot) (fun _ => r) r (prefs (db s))) /\
        sbj_parse (encoded envelope) = Some text_value /\ answer = slot_json r text_value)
     (fun _ s' => db s' = db s) s.
Proof.
  unfold sb_preferences_put. apply wp_bind, wp_pure. destruct (arguments _ _) as [[]|]; [|done]. apply wp_bind, wp_pure.
  destruct (sb_preferences_validate_envelope env envelope) as [[]|] eqn:V; [|done]. cbv zeta.
  destruct (_ || _) eqn:R; [by apply wp_pure|]. apply orb_false_iff in R as [R1%Z.ltb_ge R2%Z.leb_gt]. fold (encoded envelope).
  change (default [] (Some user)) with user. change (default [] (Some slot)) with slot.
  apply wp_transaction; [done|]. apply wp_bind, wp_query; [done|]. cbn [db].
  change (match find_slot (db s) user slot with Some r => f_revision r | None => 0 end) with (revision_of (db s) user slot).
  destruct (revision_of (db s) user slot =? expected) eqn:Er; [|by apply wp_pure]. apply Z.eqb_eq in Er. cbn [negb].
  apply wp_bind, wp_query; [done|]. cbn [db fst snd]. destruct (negb (_ && _)) eqn:Room; [by apply wp_pure|].
  apply negb_false_iff, andb_true_iff in Room as [Rs Rb%Z.leb_le]. apply wp_bind, wp_ask. set (now := time env _).
  apply wp_bind, wp_stmt; [done|]. unfold store_slot. cbn [db f_user f_slot]. case_if; [|done]. unfold read_locked.
  apply wp_bind, wp_query; [done|]. cbn [db]. rewrite Er. set (r := mk_pref user slot (expected + 1) now (Some (encoded envelope))).
  assert (F : List.find (is_slot user slot) (sql_upsert (is_slot user slot) (fun _ => r) r (prefs (db s))) = Some r) by apply (find_upsert_same r).
  unfold find_slot at 1. cbn [prefs]. rewrite F. cbn [f_envelope r]. destruct (sbj_parse (encoded envelope)) as [v|] eqn:Pv; [|by apply wp_pure].
  apply wp_ret. split; [|done]. exists now, v. split; [done|]. split; [lia|]. split; [done|]. split; [|done]. split; [|exact Rb].
  apply orb_true_iff in Rs as [Rs|Rs%Nat.ltb_lt]; [left|by right]. apply negb_true_iff, Z.eqb_neq in Rs. done.
Qed.

Lemma delete_spec user slot expected s : slots_ok (db s) ->
  wp (sb_preferences_delete env (Some user) (Some slot) expected)
     (fun _ s' => exists r now, find_slot (db s) user slot = Some r /\ f_revision r = expected /\ 0 < expected < INT64_MAX /\
        db s' = mk_prefs (known_users (db s)) (map (fun x => if is_slot user slot x then deleted_at now x else x) (prefs (db s))))
     (fun _ s' => db s' = db s) s.
Proof.
  intros [N P]. unfold sb_preferences_delete. apply wp_bind, wp_pure. destruct (arguments _ _) as [[]|]; [|done].
  destruct (_ || _) eqn:R; [by apply wp_pure|]. apply orb_false_iff in R as [R1%Z.leb_gt R2%Z.leb_gt].
  apply wp_bind, wp_ask. set (now := time env _). apply wp_bind, wp_stmt; [done|]. cbn [db].
  change (default [] (Some user)) with user. change (default [] (Some slot)) with slot.
  assert (U : forall a b : pref_row, is_slot user slot a && (f_revision a =? expected) = true ->
                         is_slot user slot b && (f_revision b =? expected) = true -> slot_key a = slot_key b).
  { intros a b [Ha _]%andb_true_iff [Hb _]%andb_true_iff. apply is_slot_key in Ha, Hb. congruence. }
  pose proof (sql_update_missed slot_key _ (deleted_at now) (prefs (db s)) N U) as Miss. destruct (sql_update _ _ _) as [l n] eqn:E. cbn [fst snd] in Miss.
  destruct (n =? 1)%nat eqn:En; cbn [negb].
  - apply wp_ret. cbn [db]. unfold sql_update in E. injection E as <- <-. apply Nat.eqb_eq in En.
    destruct (List.filter _ (prefs (db s))) as [|x rest] eqn:Fl; [done|]. assert (Hx : x ∈ x :: rest) by left. rewrite <- Fl in Hx.
    apply filter_In in Hx as [Hx [Sx Rx]%andb_true_iff]. apply Z.eqb_eq in Rx. exists x, now.
    assert (Fx : find_slot (db s) user slot = Some x).
    { unfold find_slot. destruct (List.find _ (prefs (db s))) as [y|] eqn:Fy; [|by rewrite (find_none_In _ _ x Fy Hx) in Sx].
      f_equal. apply find_In in Fy as [Hy Sy]. apply (NoDup_fmap_inj_on slot_key (prefs (db s))); try done. apply is_slot_key in Sx, Sy. congruence. }
    split; [done|]. split; [done|]. split; [lia|]. f_equal. apply list_fmap_ext. intros i y Hy%list_elem_of_lookup_2.
    destruct (is_slot user slot y) eqn:Sy; [|done]. assert (y = x) as ->; [|by rewrite Rx, Z.eqb_refl].
    apply (NoDup_fmap_inj_on slot_key (prefs (db s))); try done. apply is_slot_key in Sx, Sy. congruence.
  - apply wp_pure. cbn. rewrite Miss by done. by destruct (db s).
Qed.
End Calls.

(** ** Sequences of calls *)

Inductive pref_call :=
  | PrefGet (user slot : option bytes)
  | PrefPut (user slot : option bytes) (expected : Z) (envelope : option sbj)
  | PrefDelete (user slot : option bytes) (expected : Z).

Definition run_pref (env : pref_env) (c : pref_call) : pref (option sbj) :=
  match c with
  | PrefGet u s => v ← sb_preferences_get env u s; mret (Some v)
  | PrefPut u s e v => v ← sb_preferences_put env u s e v; mret (Some v)
  | PrefDelete u s e => _ ← sb_preferences_delete env u s e; mret None
  end.

(** The slot that a call writes and the revision it expects. *)
Definition writes (c : pref_call) (user slot : bytes) (expected : Z) : Prop :=
  match c with
  | PrefPut u s e _ | PrefDelete u s e => u = Some user /\ s = Some slot /\ e = expected
  | PrefGet _ _ => False
  end.

(** What one call does to the revisions. *)
Definition advances (c : pref_call) (r : result (option sbj)) (t t' : pref_tables) : Prop :=
  (is_ok r = false -> t' = t) /\
  forall user slot, revision_of t user slot <= revision_of t' user slot /\
    forall e, writes c user slot e -> is_ok r = true -> revision_of t user slot = e /\ revision_of t' user slot = e + 1.

Lemma advances_refl c r t : (is_ok r = true -> forall u s e, ~ writes c u s e) -> advances c r t t.
Proof. intros H. split; [done|]. intros u s. split; [lia|]. intros e W Hr. by apply (H Hr) in W. Qed.

Lemma revision_upsert k l r user slot :
  revision_of (mk_prefs k (sql_upsert (is_slot (f_user r) (f_slot r)) (fun _ => r) r l)) user slot =
  if bool_decide ((f_user r, f_slot r) = (user, slot)) then f_revision r else revision_of (mk_prefs k l) user slot.
Proof.
  unfold revision_of, find_slot. cbn [prefs]. case_bool_decide as E.
  - injection E as <- <-. by rewrite find_upsert_same.
  - by rewrite find_upsert_other.
Qed.

Section Step.
Context (env : pref_env).

Lemma get_frame u s : frame (sb_preferences_get env u s).
Proof. unfold sb_preferences_get, read_locked. frames. Qed.

Lemma put_advances u sl e v s : slots_ok (db s) ->
  wp (sb_preferences_put env u sl e v)
     (fun a s' => slots_ok (db s') /\ advances (PrefPut u sl e v) (Ok (Some a)) (db s) (db s')) (fun _ s' => db s' = db s) s.
Proof.
  intros Ok0. destruct u as [u|], sl as [sl|]; try (apply wp_bind, wp_pure; unfold arguments; cbn [identifier andb]; by rewrite ?andb_false_r).
  eapply wp_mono; [apply put_spec|..]; [|done]. intros a s' (now & tv & Er & Re & _ & _ & D & _). rewrite D.
  set (r := mk_pref u sl (e + 1) now (Some (encoded v))). destruct (db s) as [k l] eqn:Ed. cbn [known_users prefs]. split; [by apply (upsert_slots_ok k r l); [cbn; lia|]|].
  split; [done|]. intros user slot. pose proof (revision_upsert k l r user slot) as Rv. cbn [f_user f_slot r f_revision] in Rv. rewrite Rv.
  case_bool_decide as E.
  - injection E as <- <-. split; [lia|]. intros e' (_ & _ & <-) _. done.
  - split; [lia|]. intros e' ([= ->] & [= ->] & _) _. done.
Qed.

Lemma revision_deleted k l u sl now user slot :
  revision_of (mk_prefs k (map (fun x => if is_slot u sl x then deleted_at now x else x) l)) user slot =
  match find_slot (mk_prefs k l) user slot with Some r => if is_slot u sl r then f_revision r + 1 else f_revision r | None => 0 end.
Proof.
  unfold revision_of, find_slot. cbn [prefs]. rewrite find_map_slot by done. destruct (List.find _ l) as [r|]; [|done]. cbn. by destruct (is_slot u sl r).
Qed.

Lemma delete_advances u sl e s : slots_ok (db s) ->
  wp (sb_preferences_delete env u sl e)
     (fun _ s' => slots_ok (db s') /\ advances (PrefDelete u sl e) (Ok None) (db s) (db s')) (fun _ s' => db s' = db s) s.
Proof.
  intros Ok0. destruct u as [u|], sl as [sl|]; try (apply wp_bind, wp_pure; unfold arguments; cbn [identifier andb]; by rewrite ?andb_false_r).
  eapply wp_mono; [by apply delete_spec|..]; [|done]. intros _ s' (r & now & F & Er & Re & D). rewrite D.
  destruct (db s) as [k l] eqn:Ed. cbn [known_users prefs]. destruct Ok0 as [N P]. cbn [prefs] in *. split.
  - split; cbn [prefs]; [by rewrite map_update_keys|]. intros x (y & Hy & ->)%In_map_update. specialize (P y Hy). case_if; cbn; lia.
  - split; [done|]. intros user slot. rewrite revision_deleted. unfold revision_of. destruct (find_slot (mk_prefs k l) user slot) as [x|] eqn:Fx.
    + split; [case_if; lia|]. intros e' ([= ->] & [= ->] & <-) _. rewrite F in Fx. injection Fx as <-. apply find_In in F as [_ Sr]. by rewrite Sr, Er.
    + split; [lia|]. intros e' ([= ->] & [= ->] & <-) _. congruence.
Qed.

Lemma call_advances c s r s' : slots_ok (db s) -> run_pref env c s = (r, s') -> slots_ok (db s') /\ advances c r (db s) (db s').
Proof.
  intros Ok0. assert (G : forall A (m : pref A) (f : A -> option sbj),
    wp m (fun a s' => slots_ok (db s') /\ advances c (Ok (f a)) (db s) (db s')) (fun _ s' => db s' = db s) s ->
    (a ← m; mret (f a)) s = (r, s') -> slots_ok (db s') /\ advances c r (db s) (db s')).
  { intros A m f W. unfold mbind, sql_bind, mret, sql_ret, wp in *. destruct (m s) as [[a|e] s1]; intros [= <- <-]; [done|].
    rewrite W. split; [done|]. by apply advances_refl. }
  destruct c; cbn [run_pref]; apply G.
  - pose proof (get_frame user slot s) as F. unfold wp. destruct (sb_preferences_get env user slot s) as [[a|e] s1]; cbn [snd] in F; rewrite F; [|done].
    split; [done|]. apply advances_refl. by intros _ ? ? ? [].
  - by apply put_advances.
  - by apply delete_advances.
Qed.
End Step.

(** Any calls, on this or other slots. *)
Inductive pref_run : conn pref_tables unit -> conn pref_tables unit -> Prop :=
  | pref_done s : pref_run s s
  | pref_step env c s r s1 s2 : run_pref env c s = (r, s1) -> pref_run s1 s2 -> pref_run s s2.

Lemma run_advances s s2 : pref_run s s2 -> slots_ok (db s) ->
  slots_ok (db s2) /\ forall user slot, revision_of (db s) user slot <= revision_of (db s2) user slot.
Proof.
  induction 1 as [s|env c s r s1 s2 E _ IH]; intros Ok0; [split; [done|]; intros; lia|].
  destruct (call_advances env c s r s1 Ok0 E) as [Ok1 [_ A]]. destruct (IH Ok1) as [Ok2 B]. split; [done|].
  intros u sl. destruct (A u sl) as [A1 _]. specialize (B u sl). lia.
Qed.

(** C36: no write is lost.  In tables that satisfy their constraints (one row per
    slot, positive revisions), a write or a deletion of a slot succeeds only if it
    names the slot's current revision, which it then raises by one; so of all writes
    that expect the same revision at most one ever succeeds, even if the slot is
    deleted and written again.  No call that fails, at whichever statement, changes
    anything. *)
Theorem preferences_no_lost_update env1 c1 s r1 s1 s2 env2 c2 r2 s3 user slot e :
  slots_ok (db s) -> run_pref env1 c1 s = (Ok r1, s1) -> writes c1 user slot e -> pref_run s1 s2 ->
  run_pref env2 c2 s2 = (r2, s3) -> writes c2 user slot e ->
  (revision_of (db s) user slot = e /\ revision_of (db s1) user slot = e + 1 /\ is_ok r2 = false /\ db s3 = db s2) /\
  forall env c t f t', slots_ok (db t) -> run_pref env c t = (Err f, t') -> db t' = db t.
Proof.
  intros Ok0 E1 W1 Run E2 W2. split.
  - destruct (call_advances env1 c1 s _ s1 Ok0 E1) as [Ok1 [_ A1]]. destruct (A1 user slot) as [_ A1'].
    destruct (A1' e W1 eq_refl) as [R1 R1']. destruct (run_advances s1 s2 Run Ok1) as [Ok2 B].
    destruct (call_advances env2 c2 s2 _ s3 Ok2 E2) as [_ [F2 A2]]. destruct (A2 user slot) as [_ A2']. specialize (B user slot).
    split; [done|]. split; [done|]. destruct r2 as [a|e2]; [|split; [done|by apply F2]]. destruct (A2' e W2 eq_refl) as [R2 _]. lia.
  - intros env c t f t' Ok1 E. destruct (call_advances env c t _ t' Ok1 E) as [_ [F _]]. by apply F.
Qed.

(** ** Limits *)

(** What the storage of each account stays within. *)
Definition within_limits (t : pref_tables) : Prop :=
  forall user, (length (user_slots t user) <= USER_SLOTS_LIMIT)%nat /\ zsum stored_bytes (user_slots t user) <= USER_BYTES_LIMIT.

Lemma user_slots_map k (g : pref_row -> pref_row) l user :
  (forall r, r ∈ l -> f_user (g r) = f_user r) -> user_slots (mk_prefs k (map g l)) user = map g (user_slots (mk_prefs k l) user).
Proof. intros H. apply filter_map_eq. intros x Hx. by rewrite H. Qed.

Lemma upsert_limits k l user slot r :
  f_user r = user -> f_slot r = slot -> slots_ok (mk_prefs k l) -> within_limits (mk_prefs k l) -> 
  (revision_of (mk_prefs k l) user slot <> 0 \/ (length (user_slots (mk_prefs k l) user) < USER_SLOTS_LIMIT)%nat) ->
  zsum stored_bytes (user_slots (mk_prefs k l) user) - match find_slot (mk_prefs k l) user slot with Some x => stored_bytes x | None => 0 end + stored_bytes r <= USER_BYTES_LIMIT ->
  within_limits (mk_prefs k (sql_upsert (is_slot user slot) (fun _ => r) r l)).
Proof.
  intros Eu Es [N P] W Slots Room u. cbn [prefs] in *. unfold sql_upsert. destruct (existsb _ l) eqn:E.
  - rewrite user_slots_map.
    2: { intros x _. destruct (is_slot user slot x) eqn:Sx; [|done]. apply is_slot_key in Sx. injection Sx as <- _. done. }
    rewrite length_map. split; [apply W|]. destruct (decide (u = user)) as [->|Nu].
    + apply existsb_In in E as (x & Hx & Sx). assert (F : find_slot (mk_prefs k l) user slot = Some x).
      { unfold find_slot. cbn [prefs]. destruct (List.find _ l) as [y|] eqn:Fy; [|by rewrite (find_none_In _ _ x Fy Hx) in Sx].
        f_equal. apply find_In in Fy as [Hy Sy]. apply (NoDup_fmap_inj_on slot_key l); try done. apply is_slot_key in Sx, Sy. congruence. }
      rewrite F in Room. rewrite (zsum_map_one stored_bytes (is_slot user slot) (fun _ => r) _ x (stored_bytes r - stored_bytes x)); [lia|..|lia].
      * apply filter_In. split; [done|]. apply is_slot_key in Sx. injection Sx as -> _. apply bytes_eqb_refl.
      * done.
      * intros y (Hy & _)%filter_In Sy. apply (NoDup_fmap_inj_on slot_key l); try done. apply is_slot_key in Sx, Sy. congruence.
      * apply NoDup_filter_list. by apply NoDup_fmap_1 in N.
    + rewrite zsum_map; [apply W|]. intros x (Hx & Ux)%filter_In. destruct (is_slot user slot x) eqn:Sx; [|done].
      apply is_slot_key in Sx. injection Sx as E1 _. apply bytes_eqb_eq in Ux. congruence.
  - unfold user_slots. cbn [prefs]. rewrite SqliteProofs.filter_app. cbn [List.filter]. rewrite Eu. destruct (bytes_eqb user u) eqn:Euu.
    + apply bytes_eqb_eq in Euu. subst u. rewrite length_app, zsum_app. cbn [length zsum].
      assert (F : find_slot (mk_prefs k l) user slot = None).
      { unfold find_slot. cbn [prefs]. destruct (List.find _ l) as [y|] eqn:Fy; [|done]. apply find_In in Fy as [Hy Sy]. by rewrite (proj1 (existsb_none _ _) E y Hy) in Sy. }
      unfold revision_of in Slots. rewrite F in Slots, Room. destruct Slots as [Slots|Slots]; [done|]. unfold user_slots in *. cbn [prefs] in *. lia.
    + rewrite app_nil_r. apply W.
Qed.

Lemma delete_limits k l user slot now :
  within_limits (mk_prefs k l) -> within_limits (mk_prefs k (map (fun x => if is_slot user slot x then deleted_at now x else x) l)).
Proof.
  intros W u. rewrite user_slots_map by (intros x _; by case_if). rewrite length_map. destruct (W u) as [W1 W2]. split; [done|].
  etrans; [|exact W2]. clear W W1 W2. induction (user_slots (mk_prefs k l) u) as [|x m IH]; [done|]. cbn [map zsum].
  assert (stored_bytes (if is_slot user slot x then deleted_at now x else x) <= stored_bytes x) by (case_if; [|lia]; unfold stored_bytes; cbn; case_match; lia).
  lia.
Qed.

Lemma bind_arguments {A} u sl (m : pref A) s a s' : (_ ← pure (arguments u sl); m) s = (Ok a, s') -> exists x y, u = Some x /\ sl = Some y.
Proof.
  unfold mbind, sql_bind, pure, arguments. destruct u as [u|], sl as [sl|]; cbn [identifier andb]; rewrite ?andb_false_r; try done. by exists u, sl.
Qed.

(** Storage is bounded.  Whatever calls are made, with whatever failures, no
    account gets more than 16 slots, counting deleted ones, or more than 8 MiB of
    documents, and each document stored is at most 1 MiB. *)
Theorem preferences_bounded s s2 :
  slots_ok (db s) -> within_limits (db s) -> Forall (fun r => stored_bytes r <= ENVELOPE_LIMIT) (prefs (db s)) -> pref_run s s2 ->
  within_limits (db s2) /\ Forall (fun r => stored_bytes r <= ENVELOPE_LIMIT) (prefs (db s2)).
Proof.
  intros Ok0 W B Run. revert Ok0 W B. induction Run as [s|env c s r s1 s2 E _ IH]; intros Ok0 W B; [done|].
  destruct (call_advances env c s r s1 Ok0 E) as [Ok1 [Er _]]. destruct r as [a|e]; [|rewrite Er in * by done; by apply IH].
  cut (within_limits (db s1) /\ Forall (fun r => stored_bytes r <= ENVELOPE_LIMIT) (prefs (db s1))); [intros [W1 B1]; by apply IH|].
  clear IH Er Ok1. destruct (db s) as [k l] eqn:Ed. cbn [prefs] in B. destruct c as [u sl|u sl e v|u sl e]; cbn [run_pref] in E; unfold mbind, sql_bind, mret, sql_ret in E.
  - pose proof (get_frame env u sl s) as F. destruct (sb_preferences_get env u sl s) as [[x|] s']; [|done]. injection E as _ <-. cbn [snd] in F. by rewrite F, Ed.
  - destruct (sb_preferences_put env u sl e v s) as [[x|] s'] eqn:Ep; [|done]. injection E as _ <-.
    destruct (bind_arguments _ _ _ _ _ _ Ep) as (u' & sl' & -> & ->). pose proof (put_spec env u' sl' e v s) as Sp. unfold wp in Sp. rewrite Ep in Sp.
    destruct Sp as (now & tv & _ & Re & V & [F1 F2] & D & _). rewrite Ed in *. rewrite D. cbn [known_users prefs]. split; [by apply upsert_limits|].
    apply Forall_upsert; [|..|exact B]; intros; cbn [stored_bytes f_envelope]; unfold sb_preferences_validate_envelope in V;
      destruct (negb _); try done; destruct (_ <=? _) eqn:L; try done; by apply Z.leb_le in L.
  - destruct (sb_preferences_delete env u sl e s) as [[x|] s'] eqn:Ep; [|done]. injection E as _ <-.
    destruct (bind_arguments _ _ _ _ _ _ Ep) as (u' & sl' & -> & ->). pose proof (delete_spec env u' sl' e s) as Sp. unfold wp in Sp. rewrite Ep, Ed in Sp.
    destruct (Sp Ok0) as (r & now & _ & _ & _ & ->). cbn [known_users prefs]. split; [by apply delete_limits|].
    apply Forall_map_update; [|exact B]. intros. cbn. by vm_compute.
Qed.

(** ** Reading back *)

Definition envelope_keys : list bytes :=
  [bs "format"; bs "version"; bs "kdf"; bs "iterations"; bs "salt"; bs "nonce"; bs "ciphertext"].

(** Values that an envelope has: numbers and ASCII texts. *)
Definition plain_scalar (v : sbj) : bool :=
  match v with SBJ_INT _ | SBJ_UINT _ => true | SBJ_STRING s => valid_utf8 s | _ => false end.

Lemma letter_ascii c : base64_letter c = true \/ (code c =? 61) = true -> code c < 128.
Proof. unfold base64_letter, in_range. intros [H|H]; bool_facts; lia. Qed.

Lemma canonical_ascii env v exact minimum : canonical_base64 env v exact minimum = true -> exists s, v = Some (SBJ_STRING s) /\ ascii_text s.
Proof.
  unfold canonical_base64. destruct v as [[]|]; try done. cbv zeta. case_if; [done|]. destruct (negb (forallb _ _)) eqn:F; [done|]. intros _.
  apply negb_false_iff in F. rewrite forallb_forall in F. eexists. split; [done|]. apply Forall_forall. intros c Hc.
  apply list_elem_of_lookup in Hc as (i & Hi). specialize (F (i, c)). cbn [fst snd] in F.
  apply letter_ascii. assert (Hin : In (i, c) (imap pair s)).
  { apply list_elem_of_In. apply (list_elem_of_lookup_2 _ i). by rewrite list_lookup_imap, Hi. }
  specialize (F Hin). apply orb_true_iff in F as [F|[_ F]%andb_true_iff]; auto.
Qed.

Lemma exact_ascii v text : exact_text v text = true -> v = Some (SBJ_STRING (bs text)).
Proof. unfold exact_text. destruct v as [[]|]; try done. by intros ->%bytes_eqb_eq. Qed.

Lemma envelope_scalars env v k : envelope_valid env v = true -> k ∈ envelope_keys -> exists x, sbj_getn v k = Some x /\ plain_scalar x = true.
Proof.
  intros V. unfold envelope_valid in V. cbv zeta in V. rewrite !andb_true_iff in V.
  destruct V as [[[[[[[[[[_ _] Hf] Hv] _] Hk] Hi] _] Hs] Hn] Hc]. apply exact_ascii in Hf, Hk.
  apply canonical_ascii in Hs as (s1 & Hs & A1), Hn as (s2 & Hn & A2), Hc as (s3 & Hc & A3).
  assert (I : forall o, sbj_is_integer o = true -> exists x, o = Some x /\ plain_scalar x = true) by (intros [[]|]; try done; intros _; by eexists).
  assert (T : forall s, ascii_text s -> plain_scalar (SBJ_STRING s) = true) by (intros s A; by apply ascii_valid).
  unfold envelope_keys. rewrite !elem_of_cons. unfold sbj_get in *.
  intros [->|[->|[->|[->|[->|[->|[->|[]%elem_of_nil]]]]]]]; [rewrite Hf|apply I, Hv|rewrite Hk|apply I, Hi|rewrite Hs|rewrite Hn|rewrite Hc];
    eexists; (split; [done|]); first [by apply T|reflexivity].
Qed.

(** An envelope with seven members has no others. *)
Lemma envelope_members env v : sbj_wf v = true -> envelope_valid env (Some v) = true ->
  exists m, v = SBJ_OBJECT m /\ forall k x, (k, x) ∈ m -> k ∈ envelope_keys /\ plain_scalar x = true.
Proof.
  intros W V. pose proof (envelope_scalars env (Some v)) as Sc. destruct v as [| | | | | | |m]; try done. exists m. split; [done|].
  apply wf_object in W as [So _].
  assert (L : length m = 7%nat). { unfold envelope_valid in V. cbv zeta in V. rewrite !andb_true_iff in V. destruct V as [[[[[[[[[[_ L] _] _] _] _] _] _] _] _] _]. by apply Nat.eqb_eq in L. }
  assert (Sub : envelope_keys ⊆+ m.*1).
  { apply NoDup_submseteq; [by apply (bool_decide_unpack _); vm_compute|]. intros k Hk. destruct (Sc k V Hk) as (x & Gx & _).
    rewrite sbj_getn_map in Gx by done. apply obj_map_lookup in Gx; [|done]. by apply (list_elem_of_fmap_2 fst) in Gx. }
  assert (Pm : envelope_keys ≡ₚ m.*1) by (apply submseteq_length_Permutation; [done|]; rewrite length_fmap, L; reflexivity).
  intros k x Hkx. assert (Hk : k ∈ envelope_keys) by (rewrite Pm; by apply (list_elem_of_fmap_2 fst) in Hkx). split; [done|].
  destruct (Sc k V Hk) as (y & Gy & Py). rewrite sbj_getn_map in Gy by done. apply (obj_map_lookup m k x) in Hkx; [|done]. congruence.
Qed.

Lemma envelope_printable env v : sbj_wf v = true -> envelope_valid env (Some v) = true -> printable v = true /\ nests v SBJ_MAX_DEPTH = true.
Proof.
  intros W V. destruct (envelope_members env v W V) as (m & -> & M). unfold printable. rewrite W. cbn [andb utf8_clean floats_ok nests].
  assert (K : forall k, k ∈ envelope_keys -> valid_utf8 k = true).
  { intros k Hk. unfold envelope_keys in Hk. rewrite !elem_of_cons in Hk. destruct Hk as [->|[->|[->|[->|[->|[->|[->|[]%elem_of_nil]]]]]]]; reflexivity. }
  split; [apply andb_true_iff; split|]; apply forallb_forall; intros [k x] Hkx%list_elem_of_In; destruct (M k x Hkx) as [Hk Px]; cbn [fst snd].
  - rewrite (K k Hk). by destruct x.
  - by destruct x.
  - by destruct x.
Qed.

Lemma envelope_parses env v : sbj_wf v = true -> envelope_valid env (Some v) = true -> sbj_parse (encoded (Some v)) = Some v.
Proof.
  intros W V. destruct (envelope_printable env v W V) as [P N]. unfold encoded. cbn [sbj_dump]. rewrite cstr_no_nul by by apply dump_no_nul.
  unfold sbj_parse, sbj_parse_msg. by rewrite document_round.
Qed.

(** Preferences read back.  A document that was stored comes back member for
    member, with the next revision, in the answer of the write and in every later
    read until the slot is written again; the server accepts no document that it
    could not give back. *)
Theorem preferences_put_get env user slot expected v s answer s1 :
  sbj_wf v = true -> sb_preferences_put env (Some user) (Some slot) expected (Some v) s = (Ok answer, s1) ->
  sbj_get (Some answer) "envelope" = Some v /\ sbj_get (Some answer) "revision" = Some (SBJ_INT (expected + 1)) /\
  forall env2 n, (forall i, PrefSync.fault env2 i = None) ->
    exists s2, sb_preferences_get env2 (Some user) (Some slot) (mk_conn (db s1) tt n) = (Ok answer, s2).
Proof.
  intros W E. pose proof (put_spec env user slot expected (Some v) s) as Sp. unfold wp in Sp. rewrite E in Sp.
  destruct Sp as (now & tv & _ & _ & V & _ & D & P & ->).
  assert (Ev : envelope_valid env (Some v) = true) by (unfold sb_preferences_validate_envelope in V; by destruct (envelope_valid env (Some v))).
  rewrite (envelope_parses env v W Ev) in P. injection P as <-. split; [reflexivity|]. split; [reflexivity|]. intros env2 n Nf.
  assert (A : arguments (Some user) (Some slot) = Ok tt).
  { revert E. unfold sb_preferences_put, mbind, sql_bind, pure. destruct (arguments _ _) as [[]|]; [done|discriminate]. }
  unfold sb_preferences_get, read_locked, mbind, sql_bind, pure, query, stmt. rewrite A. rewrite Nf. cbn [db asked]. rewrite D.
  change (default [] (Some user)) with user. change (default [] (Some slot)) with slot. unfold find_slot. cbn [prefs].
  set (r := mk_pref user slot (expected + 1) now (Some (encoded (Some v)))). rewrite (find_upsert_same r). cbn [f_envelope r].
  rewrite (envelope_parses env v W Ev). by eexists.
Qed.

(** ** A server that ran *)

Definition sample_pref_env : pref_env := mk_pref_env (fun _ => None) (fun n => 5000 + Z.of_nat n) sb_base64_decode_strict sb_base64_encode.

Definition sample_envelope_of (text : string) : sbj :=
  sbj_set_str (sbj_set_str (sbj_set_str (sbj_set_int (sbj_set_str (sbj_set_int (sbj_set_str (SBJ_OBJECT [])
    "format" (bs "sb-easy.preferences")) "version" 1) "kdf" (bs "pbkdf2-sha256")) "iterations" 600000)
    "salt" (sb_base64_encode (bs "0123456789abcdef"))) "nonce" (sb_base64_encode (bs "0123456789ab"))) "ciphertext" (sb_base64_encode (bs text)).

Definition sample_prefs : conn pref_tables unit := mk_conn (mk_prefs [bs "u1"] []) tt 0%nat.

Definition sample_put (text : string) (expected : Z) : pref_call :=
  PrefPut (Some (bs "u1")) (Some (bs "personal")) expected (Some (sample_envelope_of text)).

Definition after_put : conn pref_tables unit := snd (run_pref sample_pref_env (sample_put "first secret text" 0) sample_prefs).

Lemma sample_prefs_ok : slots_ok (db sample_prefs).
Proof. split; [constructor|]. intros r Hr. by apply elem_of_nil in Hr. Defined.

(** Two devices write over an empty slot: one succeeds; after a deletion the other
    still may not. *)
Lemma preferences_no_lost_update_witness :
  let deleted := snd (run_pref sample_pref_env (PrefDelete (Some (bs "u1")) (Some (bs "personal")) 1) after_put) in
  is_ok (fst (run_pref sample_pref_env (sample_put "first secret text" 0) sample_prefs)) = true /\
  revision_of (db deleted) (bs "u1") (bs "personal") = 2 /\
  is_ok (fst (run_pref sample_pref_env (sample_put "other secret text" 0) deleted)) = false.
Proof.
  intros deleted. split; [vm_compute; reflexivity|]. split; [vm_compute; reflexivity|].
  set (answer := match fst (run_pref sample_pref_env (sample_put "first secret text" 0) sample_prefs) with Ok a => a | Err _ => None end).
  destruct (run_pref sample_pref_env (sample_put "other secret text" 0) deleted) as [r2 s3] eqn:E2.
  apply (proj1 (preferences_no_lost_update sample_pref_env (sample_put "first secret text" 0) sample_prefs answer after_put deleted
           sample_pref_env (sample_put "other secret text" 0) r2 s3 (bs "u1") (bs "personal") 0
           ltac:(apply sample_prefs_ok) ltac:(vm_compute; reflexivity) (conj eq_refl (conj eq_refl eq_refl))
           ltac:(eapply (pref_step sample_pref_env); [apply surjective_pairing|apply pref_done]) E2 (conj eq_refl (conj eq_refl eq_refl)))).
Defined.

Lemma preferences_bounded_witness : within_limits (db after_put) /\ length (prefs (db after_put)) = 1%nat.
Proof.
  split; [|vm_compute; reflexivity]. apply (preferences_bounded sample_prefs after_put).
  - apply sample_prefs_ok.
  - intros user. vm_compute. split; [lia|discriminate].
  - constructor.
  - eapply (pref_step sample_pref_env); [apply surjective_pairing|apply pref_done].
Defined.

Lemma preferences_put_get_witness :
  exists answer s2, sb_preferences_get sample_pref_env (Some (bs "u1")) (Some (bs "personal")) (mk_conn (db after_put) tt 40%nat) = (Ok answer, s2) /\
    sbj_get (Some answer) "envelope" = Some (sample_envelope_of "first secret text").
Proof.
  destruct (sb_preferences_put sample_pref_env (Some (bs "u1")) (Some (bs "personal")) 0 (Some (sample_envelope_of "first secret text")) sample_prefs)
    as [[answer|e] s1] eqn:E; [|vm_compute in E; discriminate].
  destruct (preferences_put_get sample_pref_env (bs "u1") (bs "personal") 0 (sample_envelope_of "first secret text") sample_prefs answer s1
              ltac:(vm_compute; reflexivity) E) as (Ee & _ & G).
  exists answer. assert (D : s1 = after_put) by (unfold after_put, sample_put; cbn [run_pref]; unfold mbind, sql_bind; by rewrite E). rewrite <- D.
  destruct (G sample_pref_env 40%nat (fun _ => eq_refl)) as (s2 & Eg). exists s2. by split.
Defined.
