(* ===== verification/Tailscale.v ===== *)
(** * Tailscale networks of hosts ([c/src/tailscale.c])

    Validation and updates of the per-host settings, their public form, and the
    endpoint and routes they add to a render request.  [inet_pton] and the URL
    parser of libcurl are parameters. *)

From S2P Require Import Prelude Util Json JsonText Types.

(** The parts that [curl_url_get] gives of a URL that [curl_url_set] takes. *)
Record url_parts := mk_url {
  url_scheme : option bytes; url_host : option bytes; url_user : option bytes; url_query : option bytes; url_fragment : option bytes }.

Definition text_is_safe (v : option sbj) (limit : nat) : bool :=
  match v with Some (SBJ_STRING s) => (length s <=? limit)%nat && no_nul s | _ => false end.

Definition string_of (v : option sbj) : bytes := match v with Some (SBJ_STRING s) => s | _ => [] end.

(** The prefix length; the loop stops at the first bad character. *)
Fixpoint prefix_bits (s : bytes) (bits : Z) : option Z :=
  match s with
  | [] => Some bits
  | c :: s' =>
      if negb (in_range 48 57 (code c)) then None
      else let bits := bits * 10 + (code c - 48) in if 128 <? bits then None else prefix_bits s' bits
  end.

Section Env.
Context (inet_pton4 inet_pton6 : bytes -> bool) (curl_url : bytes -> option url_parts).

Definition cidr_valid (advertised : bool) (text : bytes) : bool :=
  match split_at (chr 47) text with
  | Some (address, (_ :: _) as prefix) =>
      let ipv6 := match split_at (chr 58) address with Some _ => true | None => false end in
      (if ipv6 then inet_pton6 address else inet_pton4 address) &&
      match prefix_bits prefix 0 with
      | Some bits => (bits <=? (if ipv6 then 128 else 32)) && (negb advertised || negb (bits =? 0))
      | None => false
      end
  | _ => false
  end.

Fixpoint cidr_items (advertised : bool) (l : list sbj) : result unit :=
  match l with
  | [] => Ok tt
  | item :: l' =>
      if negb (text_is_safe (Some item) 64) then sb_fail SB_ERR_VALIDATION (bs "Tailscale routes must contain CIDR strings")
      else if negb (cidr_valid advertised (string_of (Some item)))
      then sb_fail SB_ERR_VALIDATION (bs "Invalid Tailscale CIDR (use advertise_exit_node for advertised default routes)")
      else cidr_items advertised l'
  end.

Definition validate_cidrs (value : option sbj) (advertised : bool) : result unit :=
  if negb (sbj_is_array value) || (128 <? Z.of_nat (sbj_arr_len value))
  then sb_fail SB_ERR_VALIDATION (bs "Tailscale routes must be an array of at most 128 CIDRs")
  else cidr_items advertised (arr_items value).

(** Space, control characters and DEL. *)
Definition invisible (c : ascii) : bool := (code c <=? 32) || (code c =? 127).

Definition control_url_valid (text : bytes) : bool :=
  match text with
  | [] => true
  | _ =>
      if existsb invisible text then false
      else
        match curl_url text with
        | Some u =>
            match url_scheme u, url_host u with
            | Some scheme, Some (_ :: _) => bytes_eqb scheme (bs "https") || bytes_eqb scheme (bs "http")
            | _, _ => false
            end &&
            match url_user u, url_query u, url_fragment u with None, None, None => true | _, _, _ => false end
        | None => false
        end
  end.

Definition key_is (key : bytes) (name : string) : bool := bytes_eqb key (bs name).

(** Letters and digits, and hyphens inside. *)
Definition dns_label (s : bytes) : bool :=
  forallb (fun ic => isalnum (snd ic) || ((code (snd ic) =? 45) && negb (fst ic =? 0)%nat && (S (fst ic) <? length s)%nat)) (imap pair s).

Definition setting_valid (key : bytes) (value : sbj) : result unit :=
  let reject text := sb_fail SB_ERR_VALIDATION text in
  if negb (length (cstr key) =? length key)%nat then reject (bs "Invalid Tailscale setting name")
  else if key_is key "enabled" || key_is key "accept_routes" || key_is key "advertise_exit_node" || key_is key "has_auth_key" then
    if sbj_is_bool (Some value) then Ok tt else reject (bs "tailscale." ++ key ++ bs " must be a boolean")
  else if key_is key "auth_key" then
    if negb (text_is_safe (Some value) 4096)
    then reject (bs "tailscale.auth_key must be a string without NUL bytes (max 4096 bytes)")
    else if existsb invisible (string_of (Some value))
    then reject (bs "tailscale.auth_key must not contain whitespace or control characters")
    else Ok tt
  else if key_is key "hostname" then
    if negb (text_is_safe (Some value) 63) then reject (bs "tailscale.hostname must be a DNS label (max 63 bytes)")
    else if negb (dns_label (string_of (Some value))) then reject (bs "tailscale.hostname must be a DNS label")
    else Ok tt
  else if key_is key "control_url" then
    if negb (text_is_safe (Some value) 2048) || negb (control_url_valid (string_of (Some value)))
    then reject (bs "tailscale.control_url must be an HTTP(S) URL without credentials, query or fragment")
    else Ok tt
  else if key_is key "route_cidrs" || key_is key "advertise_routes" then validate_cidrs (Some value) (key_is key "advertise_routes")
  else reject (bs "Unknown Tailscale setting: " ++ key).

Fixpoint settings_valid (l : list (bytes * sbj)) : result unit :=
  match l with
  | [] => Ok tt
  | (key, value) :: l' => _ ← setting_valid key value; settings_valid l'
  end.

Definition sb_tailscale_validate (settings : option sbj) : result unit :=
  if negb (sbj_is_object settings) then sb_fail SB_ERR_VALIDATION (bs "tailscale must be a JSON object")
  else settings_valid (obj_members settings).

Definition sb_tailscale_enabled (settings : option sbj) : bool := sbj_get_bool settings "enabled" false.

(** The new settings; on an error the old ones stay. *)
Definition sb_tailscale_update (settings patch : option sbj) : result sbj :=
  _ ← sb_tailscale_validate patch;
  let next := match settings with Some (SBJ_OBJECT m) => sbj_clone (SBJ_OBJECT m) | _ => SBJ_OBJECT [] end in
  let next := sbj_update next patch in
  let next := snd (sbj_del next "has_auth_key") in
  _ ← sb_tailscale_validate (Some next);
  Ok next.

Definition sb_tailscale_public (settings : option sbj) : sbj :=
  let result := match settings with Some (SBJ_OBJECT m) => sbj_clone (SBJ_OBJECT m) | _ => SBJ_OBJECT [] end in
  let has_key := match sbj_get (Some result) "auth_key" with Some (SBJ_STRING (_ :: _)) => true | _ => false end in
  let result := snd (sbj_del result "auth_key") in
  let result := sbj_set_bool result "enabled" (sb_tailscale_enabled settings) in
  sbj_set_bool result "has_auth_key" has_key.

(** ** Rendering *)

(** The tags of a profile and its nodes. *)
Definition item_tag (item : sbj) : option bytes := match sbj_get (Some item) "tag" with Some (SBJ_STRING s) => Some s | _ => None end.

Definition profile_tags (r : sb_render_request) : list bytes :=
  omap item_tag (arr_items (sbj_get (Some (rq_profile r)) "endpoints")) ++
  omap item_tag (arr_items (sbj_get (Some (rq_profile r)) "outbounds")) ++ (node_tag <$> rq_nodes r).

Definition tag_in_use (r : sb_render_request) (tag : bytes) : bool := existsb (fun t => bytes_eqb t tag) (profile_tags r).

(** The loop ends after at most one round per tag, [free_tag_fresh]. *)
Fixpoint free_tag_loop (fuel : nat) (r : sb_render_request) (tag : bytes) : bytes :=
  match fuel with
  | O => tag
  | S fuel' => if tag_in_use r tag then free_tag_loop fuel' r (tag ++ bs "-next") else tag
  end.

Definition free_tag (r : sb_render_request) (base : string) : bytes :=
  free_tag_loop (S (length (profile_tags r))) r (bs base).

(** Letters and digits of the host identifier, up to 62 characters in all. *)
Fixpoint generated_name (id name : bytes) : bytes :=
  match id with
  | [] => name
  | c :: id' => if (length name <? 62)%nat then generated_name id' (if isalnum c then name ++ [tolower c] else name) else name
  end.

Definition default_hostname (host_id : option bytes) : bytes :=
  let name := generated_name (cstr (default (bs "host") host_id)) (bs "sb-easy-") in
  if (length name =? 8)%nat then name ++ bs "0" else name.

Definition copy_setting (settings : option sbj) (endpoint : sbj) (key : string) : sbj :=
  match sbj_get settings key with
  | None | Some (SBJ_STRING []) => endpoint
  | Some v => sbj_set endpoint key (sbj_clone v)
  end.

Definition tailscale_endpoint (settings : option sbj) (tag : bytes) (host_id : option bytes) : sbj :=
  let o := sbj_set_str (SBJ_OBJECT []) "type" (bs "tailscale") in
  let o := sbj_set_str o "tag" tag in
  let o := sbj_set_str o "state_directory" (bs "data/tailscale") in
  let hostname := cstr (default [] (sbj_get_str settings "hostname" (Some []))) in
  let o := sbj_set_str o "hostname" (match hostname with [] => default_hostname host_id | _ => hostname end) in
  foldl (copy_setting settings) o ["auth_key"; "control_url"; "accept_routes"; "advertise_routes"; "advertise_exit_node"]%string.

(** Connections from the network leave directly, those to it and to the configured
    subnets through the endpoint. *)
Definition incoming_rule (tag direct : bytes) : sbj :=
  sbj_set_str (sbj_set (SBJ_OBJECT []) "inbound" (sbj_str (Some tag))) "outbound" direct.

Definition outgoing_rule (settings : option sbj) (tag : bytes) : sbj :=
  let cidrs := SBJ_ARRAY ([SBJ_STRING (bs "100.64.0.0/10"); SBJ_STRING (bs "fd7a:115c:a1e0::/48")] ++
                          (sbj_clone <$> arr_items (sbj_get settings "route_cidrs"))) in
  sbj_set_str (sbj_set (SBJ_OBJECT []) "ip_cidr" cidrs) "outbound" tag.

Definition preferred_rule (tag : bytes) : sbj := sbj_set_str (sbj_set_str (SBJ_OBJECT []) "preferred_by" tag) "outbound" tag.

Definition direct_outbound (direct : bytes) : sbj := sbj_set_str (sbj_set_str (SBJ_OBJECT []) "type" (bs "direct")) "tag" direct.

Definition sb_tailscale_render (r : sb_render_request) (settings : option sbj) (host_id : option bytes) : result sb_render_request :=
  _ ← sb_tailscale_validate settings;
  if negb (sb_tailscale_enabled settings) then Ok r
  else
    match sbj_get (Some (rq_profile r)) "endpoints" with
    | None | Some (SBJ_ARRAY _) =>
        let tag := free_tag r "sb-easy-tailscale" in
        let direct := free_tag r "sb-easy-tailscale-direct" in
        let (endpoints, profile) := sbj_get_or_array (rq_profile r) "endpoints" in
        let profile := sbj_set profile "endpoints" (sbj_arr_push endpoints (Some (tailscale_endpoint settings tag host_id))) in
        let rules := sbj_arr_push (rq_priority_route_rules r) (Some (incoming_rule tag direct)) in
        let rules := sbj_arr_push rules (Some (outgoing_rule settings tag)) in
        let rules := if sbj_get_bool settings "accept_routes" false then sbj_arr_push rules (Some (preferred_rule tag)) else rules in
        Ok (mk_request (rq_mode r) profile (rq_nodes r) (rq_host_context r) (sbj_arr_push (rq_external_route_tags r) (Some (sbj_str (Some tag))))
              rules (sbj_arr_push (rq_network_outbounds r) (Some (direct_outbound direct)))
              (rq_control_plane_server r) (rq_rule_script r) (rq_clash_controller r) (rq_clash_secret r))
    | Some _ => sb_fail SB_ERR_VALIDATION (bs "Tailscale requires profile.endpoints to be an array")
    end.
End Env.

(** * Tailscale networks: secrets, updates and fresh names *)

(** ** Tags that are free *)

Definition nexts (n : nat) : bytes := concat (replicate n (bs "-next")).
Definition candidate (base : bytes) (n : nat) : bytes := base ++ nexts n.

Lemma nexts_S n : nexts (S n) = nexts n ++ bs "-next".
Proof. unfold nexts. by rewrite replicate_S_end, concat_app. Qed.

Lemma nexts_length n : length (nexts n) = (5 * n)%nat.
Proof. induction n as [|n IH]; [done|]. rewrite nexts_S, length_app, IH. cbn. lia. Qed.

Lemma candidate_inj base n n' : candidate base n = candidate base n' -> n = n'.
Proof. intros E. apply (f_equal length) in E. unfold candidate in E. rewrite !length_app, !nexts_length in E. lia. Qed.

Lemma tag_in_use_In r tag : tag_in_use r tag = true <-> tag ∈ profile_tags r.
Proof.
  unfold tag_in_use. rewrite existsb_exists. split.
  - intros (x & Hx & ->%bytes_eqb_eq). by apply list_elem_of_In.
  - intros H. exists tag. split; [by apply list_elem_of_In|apply bytes_eqb_refl].
Qed.

Lemma free_tag_loop_spec r base fuel : forall i,
  (forall k, (k < i)%nat -> candidate base k ∈ profile_tags r) ->
  exists j, free_tag_loop fuel r (candidate base i) = candidate base j /\
    (candidate base j ∉ profile_tags r \/ forall k, (k < i + fuel)%nat -> candidate base k ∈ profile_tags r).
Proof.
  induction fuel as [|fuel IH]; intros i H; cbn [free_tag_loop].
  - exists i. split; [done|]. right. by rewrite Nat.add_0_r.
  - destruct (tag_in_use r (candidate base i)) eqn:E.
    + apply tag_in_use_In in E. replace (candidate base i ++ bs "-next") with (candidate base (S i)) by (unfold candidate; by rewrite nexts_S, app_assoc).
      rewrite Nat.add_succ_r. apply IH. intros k Hk. destruct (decide (k = i)) as [->|N]; [done|]. apply H. lia.
    + exists i. split; [done|]. left. intros C%tag_in_use_In. congruence.
Qed.

(** Among one more candidate than there are tags one is free. *)
Lemma free_tag_fresh r base : exists n, free_tag r base = candidate (bs base) n /\ candidate (bs base) n ∉ profile_tags r.
Proof.
  destruct (free_tag_loop_spec r (bs base) (S (length (profile_tags r))) 0) as (j & E & [N|All]); [lia| |].
  - exists j. split; [|done]. unfold free_tag. rewrite <- E. unfold candidate, nexts. cbn. by rewrite app_nil_r.
  - exfalso. assert (Sub : candidate (bs base) <$> seq 0 (S (length (profile_tags r))) ⊆+ profile_tags r).
    { apply NoDup_submseteq; [apply NoDup_fmap_2; [intros x y; apply candidate_inj|apply NoDup_seq]|].
      intros t (k & -> & Hk%elem_of_seq)%list_elem_of_fmap. apply All. lia. }
    apply submseteq_length in Sub. rewrite length_fmap, length_seq in Sub. lia.
Qed.

(** The two names never meet: after the common part they go on differently. *)
Lemma candidates_differ n n' : candidate (bs "sb-easy-tailscale") n <> candidate (bs "sb-easy-tailscale-direct") n'.
Proof.
  unfold candidate. change (bs "sb-easy-tailscale-direct") with (bs "sb-easy-tailscale" ++ bs "-direct"). rewrite <- app_assoc. intros E%app_inv_head.
  destruct n as [|n]; [done|]. unfold nexts in E. cbn in E. discriminate.
Qed.

Lemma candidate_no_nul base n : no_nul base = true -> no_nul (candidate base n) = true.
Proof.
  intros B. unfold candidate. rewrite no_nul_app, B. cbn [andb]. induction n as [|n IH]; [done|]. by rewrite nexts_S, no_nul_app, IH.
Qed.

(** ** Settings *)

Section Settings.
Context (inet_pton4 inet_pton6 : bytes -> bool) (curl_url : bytes -> option url_parts).
Abbreviation validate := (sb_tailscale_validate inet_pton4 inet_pton6 curl_url).

(** The members of settings, none if they are no object. *)
Definition members_of (settings : option sbj) : list (bytes * sbj) := match settings with Some (SBJ_OBJECT m) => m | _ => [] end.

Lemma settings_object settings : sbj_wf (default SBJ_NULL settings) = true ->
  exists m, match settings with Some (SBJ_OBJECT m) => sbj_clone (SBJ_OBJECT m) | _ => SBJ_OBJECT [] end = SBJ_OBJECT m /\
    obj_sorted m /\ m = members_of settings.
Proof.
  intros W. exists (members_of settings). destruct settings as [[]|]; cbn [members_of];
    try (split; [done|]; split; [apply keys_sorted_strong; reflexivity|done]).
  cbn [default] in W. split; [by apply sbj_clone_wf_id|]. apply wf_object in W as [S _]. by split.
Qed.

Lemma del_map m k : obj_sorted m -> exists m', snd (sbj_del (SBJ_OBJECT m) k) = SBJ_OBJECT m' /\ obj_sorted m' /\ obj_map m' = delete (bs k) (obj_map m).
Proof. intros S. rewrite sbj_del_take. destruct (sbj_take_map m k S) as (m' & -> & S' & E). by exists m'. Qed.

(** An update merges valid settings.  It succeeds only for a valid patch and a
    valid result, which has the members of the patch and otherwise those of the old
    settings, without the read-only member; an omitted key stays as it was. *)
Theorem tailscale_update_merges settings patch next :
  sbj_wf (default SBJ_NULL settings) = true -> sbj_wf (default SBJ_NULL patch) = true ->
  sb_tailscale_update inet_pton4 inet_pton6 curl_url settings patch = Ok next ->
  validate patch = Ok tt /\ validate (Some next) = Ok tt /\
  forall key, sbj_getn (Some next) key =
    if decide (key = bs "has_auth_key") then None else (obj_map (members_of patch) ∪ obj_map (members_of settings)) !! key.
Proof.
  intros Ws Wp. unfold sb_tailscale_update. destruct (validate patch) as [[]|] eqn:Vp; [|done]. cbn [mbind result_bind].
  destruct (settings_object settings Ws) as (m & Em & Sm & Mm). rewrite Em.
  destruct patch as [[| | | | | | |mp]|]; try done. cbn [default] in Wp. apply wf_object in Wp as [Sp Fp].
  destruct (update_fold_map m mp Sm Fp Sp) as (m1 & E1 & S1 & M1). cbn [sbj_update]. rewrite E1.
  destruct (del_map m1 "has_auth_key" S1) as (m2 & E2 & S2 & M2). rewrite E2.
  destruct (validate (Some (SBJ_OBJECT m2))) as [[]|] eqn:Vn; [|done]. intros [= <-]. split; [done|]. split; [done|]. intros key.
  rewrite sbj_getn_map, M2, M1, <- Mm by done. cbn [members_of]. case_decide as D; [by rewrite D, lookup_delete_eq|by rewrite lookup_delete_ne].
Qed.

(** The public form hides the key.  It has no [auth_key] and is the same for all
    settings that agree but for the key, except that it tells whether there is one;
    its other members are those of the settings. *)
Theorem tailscale_public_hides m1 m2 :
  sbj_wf (SBJ_OBJECT m1) = true -> sbj_wf (SBJ_OBJECT m2) = true ->
  delete (bs "auth_key") (obj_map m1) = delete (bs "auth_key") (obj_map m2) ->
  let public m := sb_tailscale_public (Some (SBJ_OBJECT m)) in
  let has_key m := match obj_map m !! bs "auth_key" with Some (SBJ_STRING (_ :: _)) => true | _ => false end in
  sbj_get (Some (public m1)) "auth_key" = None /\ sbj_get (Some (public m1)) "has_auth_key" = Some (SBJ_BOOL (has_key m1)) /\
  (has_key m1 = has_key m2 -> public m1 = public m2) /\
  forall key, key ∉ [bs "auth_key"; bs "enabled"; bs "has_auth_key"] -> sbj_getn (Some (public m1)) key = obj_map m1 !! key.
Proof.
  intros W1 W2 D public has_key.
  assert (P : forall m, sbj_wf (SBJ_OBJECT m) = true -> exists m', public m = SBJ_OBJECT m' /\ obj_sorted m' /\
    obj_map m' = <[bs "has_auth_key" := SBJ_BOOL (has_key m)]> (<[bs "enabled" := SBJ_BOOL (sb_tailscale_enabled (Some (SBJ_OBJECT m)))]> (delete (bs "auth_key") (obj_map m)))).
  { intros m W. unfold public, sb_tailscale_public. rewrite sbj_clone_wf_id by done. apply wf_object in W as [S _].
    destruct (del_map m "auth_key" S) as (ma & Ea & Sa & Ma). rewrite Ea. unfold sbj_set_bool, sbj_set.
    destruct (sbj_setn_map ma (bs "enabled") (Some (SBJ_BOOL (sb_tailscale_enabled (Some (SBJ_OBJECT m))))) Sa) as (mb & -> & Sb & Mb).
    unfold sbj_get. rewrite sbj_getn_map by done. fold (has_key m).
    destruct (sbj_setn_map mb (bs "has_auth_key") (Some (SBJ_BOOL (has_key m))) Sb) as (mc & -> & Sc & Mc). exists mc. split; [done|]. split; [done|].
    by rewrite Mc, Mb, Ma. }
  destruct (P m1 W1) as (p1 & E1 & S1 & M1), (P m2 W2) as (p2 & E2 & S2 & M2). unfold sbj_get. rewrite E1, !sbj_getn_map, M1 by done.
  split; [by rewrite !lookup_insert_ne, lookup_delete_eq by done|]. split; [by rewrite lookup_insert_eq|]. split.
  - intros H. rewrite E2. f_equal. apply obj_map_inj; [done..|]. rewrite M1, M2, H, D. do 2 f_equal. f_equal.
    apply wf_object in W1 as [So1 _], W2 as [So2 _]. unfold sb_tailscale_enabled, sbj_get_bool, sbj_get. rewrite !sbj_getn_map by done.
    by rewrite <- (lookup_delete_ne (obj_map m1) (bs "auth_key")), <- (lookup_delete_ne (obj_map m2) (bs "auth_key")), D by done.
  - intros key N. rewrite !not_elem_of_cons in N. destruct N as (N1 & N2 & N3 & _).
    by rewrite sbj_getn_map, M1, !lookup_insert_ne, lookup_delete_ne by done.
Qed.
End Settings.

(** ** The request with a network *)

Lemma copy_setting_keeps settings o key : sbj_wf (default SBJ_NULL settings) = true -> sbj_wf o = true -> sbj_is_object (Some o) = true ->
  key <> "tag"%string ->
  let o' := copy_setting settings o key in
  sbj_wf o' = true /\ sbj_is_object (Some o') = true /\ sbj_get (Some o') "tag" = sbj_get (Some o) "tag".
Proof.
  intros Ws Wo Oo N o'. unfold o', copy_setting. destruct (sbj_get settings key) as [v|] eqn:G; [|done].
  assert (Wv : sbj_wf v = true) by (destruct settings as [st|]; [exact (wf_get st key v Ws G)|done]).
  assert (R : sbj_wf (sbj_set o key (sbj_clone v)) = true /\ sbj_is_object (Some (sbj_set o key (sbj_clone v))) = true /\
              sbj_get (Some (sbj_set o key (sbj_clone v))) "tag" = sbj_get (Some o) "tag").
  { rewrite sbj_clone_wf_id by done. split; [by apply wf_set|]. split; [|by rewrite sbj_get_set; [destruct (String.eqb_spec key "tag")|..]].
    destruct o; try done. unfold sbj_set, sbj_setn. by destruct (obj_find _ _). }
  by destruct v as [| | | | |[]| |].
Qed.

Lemma endpoint_tag settings tag host : sbj_wf (default SBJ_NULL settings) = true -> no_nul tag = true ->
  item_tag (tailscale_endpoint settings tag host) = Some tag.
Proof.
  intros Ws Nt. unfold item_tag, tailscale_endpoint. cbv zeta. set (name := match cstr _ with [] => _ | _ => _ end).
  set (o := sbj_set_str _ "hostname" name). assert (Wo : sbj_wf o = true) by (unfold o, sbj_set_str; repeat (apply wf_set; [|reflexivity]); reflexivity).
  assert (Oo : sbj_is_object (Some o) = true) by reflexivity.
  assert (Go : sbj_get (Some o) "tag" = Some (SBJ_STRING (cstr tag))) by reflexivity.
  cut (sbj_get (Some (foldl (copy_setting settings) o ["auth_key"; "control_url"; "accept_routes"; "advertise_routes"; "advertise_exit_node"]%string)) "tag" =
       Some (SBJ_STRING (cstr tag))); [intros ->; by rewrite cstr_no_nul|]. rewrite <- Go. clearbody o. clear Go.
  assert (F : Forall (fun k => k <> "tag"%string) ["auth_key"; "control_url"; "accept_routes"; "advertise_routes"; "advertise_exit_node"]%string) by (repeat constructor; discriminate).
  induction F as [|k ks Nk _ IH] in o, Wo, Oo |- *; [done|]. cbn [foldl]. destruct (copy_setting_keeps settings o k Ws Wo Oo Nk) as (W1 & O1 & G1).
  by rewrite IH.
Qed.

Section Render.
Context (inet_pton4 inet_pton6 : bytes -> bool) (curl_url : bytes -> option url_parts).

(** A network is added beside what is there.  Rendering enabled settings adds one
    endpoint and one direct outbound, whose tags differ from each other and from
    every tag of the profile and the nodes, and puts rules after the existing ones
    that refer to just these two; connections from the network are matched before
    those to it.  Nothing else of the request changes, and disabled settings change
    nothing. *)
Theorem tailscale_render_adds r settings host_id r' externals rules outbounds :
  sbj_wf (rq_profile r) = true -> sbj_is_object (Some (rq_profile r)) = true -> sbj_wf (default SBJ_NULL settings) = true ->
  rq_external_route_tags r = SBJ_ARRAY externals -> rq_priority_route_rules r = SBJ_ARRAY rules -> rq_network_outbounds r = SBJ_ARRAY outbounds ->
  sb_tailscale_render inet_pton4 inet_pton6 curl_url r settings host_id = Ok r' ->
  if sb_tailscale_enabled settings
  then exists tag direct endpoint,
    tag ∉ profile_tags r /\ direct ∉ profile_tags r /\ tag <> direct /\ item_tag endpoint = Some tag /\
    sbj_get (Some (rq_profile r')) "endpoints" = Some (SBJ_ARRAY (arr_items (sbj_get (Some (rq_profile r)) "endpoints") ++ [endpoint])) /\
    (forall key, key <> bs "endpoints" -> sbj_getn (Some (rq_profile r')) key = sbj_getn (Some (rq_profile r)) key) /\
    rq_network_outbounds r' = SBJ_ARRAY (outbounds ++ [direct_outbound direct]) /\
    rq_external_route_tags r' = SBJ_ARRAY (externals ++ [SBJ_STRING tag]) /\
    rq_priority_route_rules r' = SBJ_ARRAY (rules ++ incoming_rule tag direct :: outgoing_rule settings tag ::
      if sbj_get_bool settings "accept_routes" false then [preferred_rule tag] else []) /\
    rq_mode r' = rq_mode r /\ rq_nodes r' = rq_nodes r /\ rq_host_context r' = rq_host_context r /\
    rq_control_plane_server r' = rq_control_plane_server r /\ rq_rule_script r' = rq_rule_script r /\
    rq_clash_controller r' = rq_clash_controller r /\ rq_clash_secret r' = rq_clash_secret r
  else r' = r.
Proof.
  intros Wp Op Ws Ee Er Eo. unfold sb_tailscale_render. destruct (sb_tailscale_validate _ _ _ _) as [[]|]; [|done]. cbn [mbind result_bind].
  destruct (sb_tailscale_enabled settings); cbn [negb]; [|by intros [= <-]].
  destruct (free_tag_fresh r "sb-easy-tailscale") as (n & -> & Nt), (free_tag_fresh r "sb-easy-tailscale-direct") as (n' & -> & Nd).
  set (tag := candidate _ n) in *. set (direct := candidate _ n') in *. set (endpoint := tailscale_endpoint settings tag host_id).
  assert (Ct : no_nul tag = true) by (by apply candidate_no_nul). assert (Df : tag <> direct) by apply candidates_differ.
  assert (Te : item_tag endpoint = Some tag) by (by apply endpoint_tag). clearbody tag direct endpoint.
  assert (K : forall endpoints profile, sbj_wf profile = true -> sbj_is_object (Some profile) = true ->
    (forall key, key <> bs "endpoints" -> sbj_getn (Some profile) key = sbj_getn (Some (rq_profile r)) key) ->
    endpoints = SBJ_ARRAY (arr_items (sbj_get (Some (rq_profile r)) "endpoints")) ->
    let p' := sbj_set profile "endpoints" (sbj_arr_push endpoints (Some endpoint)) in
    sbj_get (Some p') "endpoints" = Some (SBJ_ARRAY (arr_items (sbj_get (Some (rq_profile r)) "endpoints") ++ [endpoint])) /\
    (forall key, key <> bs "endpoints" -> sbj_getn (Some p') key = sbj_getn (Some (rq_profile r)) key)).
  { intros endpoints profile Wf Of Others -> p'. unfold p'. rewrite sbj_get_set by done. split; [done|]. intros key N. unfold sbj_set.
    rewrite sbj_getn_setn by done. case_decide; [congruence|]. by apply Others. }
  assert (Pr : forall o, sbj_arr_push (rq_network_outbounds r) (Some o) = SBJ_ARRAY (outbounds ++ [o])) by (intros o; by rewrite Eo).
  assert (Px : sbj_arr_push (rq_external_route_tags r) (Some (sbj_str (Some tag))) = SBJ_ARRAY (externals ++ [SBJ_STRING tag]))
    by (rewrite Ee; cbn [sbj_str]; by rewrite cstr_no_nul).
  assert (Pu : (if sbj_get_bool settings "accept_routes" false
     then sbj_arr_push (sbj_arr_push (sbj_arr_push (rq_priority_route_rules r) (Some (incoming_rule tag direct))) (Some (outgoing_rule settings tag))) (Some (preferred_rule tag))
     else sbj_arr_push (sbj_arr_push (rq_priority_route_rules r) (Some (incoming_rule tag direct))) (Some (outgoing_rule settings tag))) =
     SBJ_ARRAY (rules ++ incoming_rule tag direct :: outgoing_rule settings tag ::
       (if sbj_get_bool settings "accept_routes" false then [preferred_rule tag] else []))).
  { rewrite Er. cbn [sbj_arr_push or_null default]. by destruct (sbj_get_bool settings "accept_routes" false); rewrite <- !app_assoc. }
  rewrite Pr, Px, Pu. clear Pr Px Pu. unfold sbj_get_or_array, sbj_get_or.
  intros E. exists tag, direct, endpoint. do 4 (split; [assumption|]). revert E.
  generalize (outgoing_rule settings tag) (incoming_rule tag direct) (direct_outbound direct) (preferred_rule tag). intros og ic dr pf E.
  destruct (sbj_get (Some (rq_profile r)) "endpoints") as [e|] eqn:Ge.
  - destruct e as [| | | | | |l|]; try discriminate. injection E as <-. cbn [rq_profile rq_network_outbounds rq_external_route_tags rq_priority_route_rules rq_mode rq_nodes].
    destruct (K (SBJ_ARRAY l) (rq_profile r) Wp Op ltac:(done) ltac:(done)) as [K1 K2]. do 5 (split; [assumption || reflexivity|]). by repeat split.
  - injection E as <-. cbn [rq_profile rq_network_outbounds rq_external_route_tags rq_priority_route_rules rq_mode rq_nodes].
    destruct (K (SBJ_ARRAY []) (sbj_set (rq_profile r) "endpoints" (SBJ_ARRAY []))) as [K1 K2]; [by apply wf_set|..|done|].
    + destruct (rq_profile r); try done. unfold sbj_set, sbj_setn. by destruct (obj_find _ _).
    + intros key N. unfold sbj_set. rewrite sbj_getn_setn by done. case_decide; [congruence|done].
    + do 5 (split; [assumption || reflexivity|]). by repeat split.
Qed.
End Render.

(** ** A host in a network *)

Definition sample_request : sb_render_request :=
  mk_request SB_PROFILE_MANAGED
    (SBJ_OBJECT [(bs "outbounds", SBJ_ARRAY [SBJ_OBJECT [(bs "tag", SBJ_STRING (bs "sb-easy-tailscale"))]])]) [] (SBJ_OBJECT [])
    (SBJ_ARRAY []) (SBJ_ARRAY []) (SBJ_ARRAY []) [] None [] [].

Definition sample_settings : list (bytes * sbj) :=
  [(bs "auth_key", SBJ_STRING (bs "tskey-1")); (bs "enabled", SBJ_BOOL true); (bs "hostname", SBJ_STRING (bs "lab-1"))].

Definition no_url : bytes -> option url_parts := fun _ => None.

Lemma tailscale_render_adds_witness :
  exists r' tag, sb_tailscale_render (fun _ => false) (fun _ => false) no_url sample_request (Some (SBJ_OBJECT sample_settings)) None = Ok r' /\
    tag ∉ profile_tags sample_request /\ rq_external_route_tags r' = SBJ_ARRAY [SBJ_STRING tag].
Proof.
  destruct (sb_tailscale_render (fun _ => false) (fun _ => false) no_url sample_request (Some (SBJ_OBJECT sample_settings)) None) as [r'|] eqn:E;
    [|vm_compute in E; discriminate].
  destruct (tailscale_render_adds (fun _ => false) (fun _ => false) no_url sample_request (Some (SBJ_OBJECT sample_settings)) None r' [] [] []
    ltac:(vm_compute; reflexivity) eq_refl ltac:(vm_compute; reflexivity) eq_refl eq_refl eq_refl E) as (tag & direct & endpoint & Nt & _ & _ & _ & _ & _ & _ & Ex & _).
  exists r', tag. by split.
Defined.

Lemma tailscale_update_merges_witness :
  exists next, sb_tailscale_update (fun _ => false) (fun _ => false) no_url (Some (SBJ_OBJECT sample_settings))
                 (Some (SBJ_OBJECT [(bs "hostname", SBJ_STRING (bs "lab-2"))])) = Ok next /\
    sbj_getn (Some next) (bs "auth_key") = Some (SBJ_STRING (bs "tskey-1")).
Proof.
  destruct (sb_tailscale_update (fun _ => false) (fun _ => false) no_url (Some (SBJ_OBJECT sample_settings))
              (Some (SBJ_OBJECT [(bs "hostname", SBJ_STRING (bs "lab-2"))]))) as [next|] eqn:E; [|vm_compute in E; discriminate].
  exists next. split; [done|]. destruct (tailscale_update_merges (fun _ => false) (fun _ => false) no_url (Some (SBJ_OBJECT sample_settings))
    (Some (SBJ_OBJECT [(bs "hostname", SBJ_STRING (bs "lab-2"))])) next ltac:(vm_compute; reflexivity) ltac:(vm_compute; reflexivity) E) as (_ & _ & G).
  rewrite G. vm_compute. reflexivity.
Defined.

Lemma tailscale_public_hides_witness :
  let other := [(bs "auth_key", SBJ_STRING (bs "tskey-2")); (bs "enabled", SBJ_BOOL true); (bs "hostname", SBJ_STRING (bs "lab-1"))] in
  sb_tailscale_public (Some (SBJ_OBJECT sample_settings)) = sb_tailscale_public (Some (SBJ_OBJECT other)).
Proof.
  intros other. apply (tailscale_public_hides sample_settings other); vm_compute; reflexivity.
Defined.
