(* ===== verification/Wireguard.v ===== *)
(** * WireGuard keys and the import of wg-easy configurations
    ([c/src/wireguard.c], [c/src/wg_migration.c])

    Key texts, key pairs, and [sb_wg_easy_v14_normalize], which checks the
    configuration file of another program and turns it into a batch for the store.
    Random bytes, X25519, the base64 functions of OpenSSL and [inet_pton] are fields
    of the environment.  C strings are given without their terminator. *)

From S2P Require Import Prelude Util Json JsonText SqliteProofs.

(** [x25519_key] tells whether a raw private key is taken
    ([EVP_PKEY_new_raw_private_key]), [x25519_public] is its raw public key; the base64
    functions are [EVP_DecodeBlock] and [EVP_EncodeBlock]; [inet_pton4] gives the
    address as a number. *)
Record wg_env := mk_wg_env {
  x25519_key : bytes -> bool;
  x25519_public : bytes -> option bytes;
  decode_block : bytes -> option bytes;
  encode_block : bytes -> bytes;
  inet_pton4 : bytes -> option Z;
  inet_pton6 : bytes -> bool }.

Section Env.
Context (env : wg_env).

(** ** Keys *)

Definition encode_key (raw : bytes) : result bytes :=
  match encode_block env raw with
  | [] => sb_fail SB_ERR_GENERIC (bs "WireGuard base64 encoding failed")
  | text => Ok text
  end.

Definition ends_padded (key : bytes) : bool := match key !! 43%nat with Some c => code c =? 61 | None => false end.

Definition decode_key (value : bytes) : result bytes :=
  if negb (length value =? 44)%nat then sb_fail SB_ERR_VALIDATION (bs "WireGuard key must encode 32 bytes")
  else
    match decode_block env value with
    | Some decoded =>
        if negb (length decoded =? 33)%nat || negb (ends_padded value) then sb_fail SB_ERR_VALIDATION (bs "Invalid WireGuard key")
        else Ok (take 32 decoded)
    | None => sb_fail SB_ERR_VALIDATION (bs "Invalid WireGuard key")
    end.

Record sb_wireguard_keypair := mk_keypair { kp_private : bytes; kp_public : bytes }.

(** [RAND_bytes] gives [random], if it works. *)
Definition sb_wireguard_generate_keypair (random : option bytes) : result sb_wireguard_keypair :=
  match random with
  | None => sb_fail SB_ERR_GENERIC (bs "WireGuard key generation failed")
  | Some raw =>
      if negb (x25519_key env raw) then sb_fail SB_ERR_GENERIC (bs "WireGuard X25519 private key failed")
      else
      match x25519_public env raw with
      | None => sb_fail SB_ERR_GENERIC (bs "WireGuard public key derivation failed")
      | Some public =>
          if negb (length public =? 32)%nat then sb_fail SB_ERR_GENERIC (bs "WireGuard public key derivation failed")
          else
            private_key ← encode_key raw;
            public_key ← encode_key public;
            Ok (mk_keypair private_key public_key)
      end
  end.

Definition sb_wireguard_generate_preshared_key (random : option bytes) : result bytes :=
  match random with
  | None => sb_fail SB_ERR_GENERIC (bs "WireGuard preshared key generation failed")
  | Some raw => encode_key raw
  end.

Definition sb_wireguard_public_key_from_private (private_key : option bytes) : result bytes :=
  raw ← decode_key (default [] private_key);
  if negb (x25519_key env raw) then sb_fail SB_ERR_VALIDATION (bs "Invalid WireGuard private key")
  else
  match x25519_public env raw with
  | Some public =>
      if negb (length public =? 32)%nat then sb_fail SB_ERR_VALIDATION (bs "Invalid WireGuard private key") else encode_key public
  | None => sb_fail SB_ERR_VALIDATION (bs "Invalid WireGuard private key")
  end.

(** ** Fields *)

(** A text member: absent, a text, or an error. *)
Definition text_field (value : option sbj) (key : string) (optional : bool) (max : nat) : result (option bytes) :=
  match sbj_get value key with
  | (None | Some SBJ_NULL) as field =>
      if optional then Ok None
      else sb_fail SB_ERR_VALIDATION (bs "wg-easy field " ++ bs key ++ bs " must be a bounded nonempty string")
  | Some (SBJ_STRING s) =>
      if (length s =? 0)%nat || (max <? length s)%nat || negb (no_nul s)
      then sb_fail SB_ERR_VALIDATION (bs "wg-easy field " ++ bs key ++ bs " must be a bounded nonempty string")
      else if existsb (fun c => (code c <? 32) || (code c =? 127)) s
      then sb_fail SB_ERR_VALIDATION (bs "wg-easy field " ++ bs key ++ bs " contains a control character")
      else Ok (Some s)
  | Some _ => sb_fail SB_ERR_VALIDATION (bs "wg-easy field " ++ bs key ++ bs " must be a bounded nonempty string")
  end.

(** Two calls that are both made: the error is that of the last failure. *)
Definition both {A B} (a : result A) (b : result B) : result (A * B) :=
  match a, b with
  | Ok x, Ok y => Ok (x, y)
  | _, Err e => Err e
  | Err e, _ => Err e
  end.

Definition valid_key (key : bytes) : bool :=
  if negb (length key =? 44)%nat || negb (ends_padded key) then false
  else
    match decode_block env key with
    | Some decoded =>
        (length decoded =? 33)%nat && existsb (fun c => negb (code c =? 0)) (take 32 decoded) &&
        bytes_eqb (take 44 (encode_block env (take 32 decoded))) key
    | None => false
    end.

(** The prefix length of at least one digit. *)
Fixpoint prefix_loop (s : bytes) (prefix : Z) : option Z :=
  match s with
  | [] => Some prefix
  | c :: s' => if negb (in_range 48 57 (code c)) || (128 <? prefix) then None else prefix_loop s' (prefix * 10 + (code c - 48))
  end.

Definition is_ipv4 (s : bytes) : bool := match inet_pton4 env s with Some _ => true | None => false end.

Definition valid_ip_or_cidr (value : bytes) (require_prefix : bool) : bool :=
  match split_at (chr 47) value with
  | None => negb require_prefix && (is_ipv4 value || inet_pton6 env value)
  | Some (_, []) => false
  | Some (address, text) =>
      match prefix_loop text 0 with
      | None => false
      | Some prefix => (is_ipv4 address && (prefix <=? 32)) || (inet_pton6 env address && (prefix <=? 128))
      end
  end.

Definition comma : ascii := chr 44.

(** The elements between commas; the fuel is the length. *)
Fixpoint ip_list_loop (fuel : nat) (input : bytes) (cidr : bool) : bool :=
  match fuel with
  | O => false
  | S fuel' =>
      match split_at comma input with
      | None => valid_ip_or_cidr (sb_trim_dup input) cidr
      | Some (item, rest) => valid_ip_or_cidr (sb_trim_dup item) cidr && ip_list_loop fuel' rest cidr
      end
  end.

Definition valid_ip_list (input : bytes) (cidr : bool) : bool :=
  if (length input =? 0)%nat || (2048 <? Z.of_nat (length input)) then false else ip_list_loop (S (length input)) input cidr.

(** ** The configuration *)

Definition last_byte (address : Z) : Z := Z.land address 255.
Definition first_byte (address : Z) : Z := Z.shiftr address 24.
Definition subnet_of (address : Z) : Z := Z.land address 0xffffff00.

Definition host_usable (address : Z) : bool := negb (last_byte address =? 0) && negb (last_byte address =? 255).

Definition server_usable (address : Z) : bool :=
  host_usable address && negb (first_byte address =? 0) && negb (first_byte address =? 127) && negb (224 <=? first_byte address).

(** The key texts belong together. *)
Definition keys_match (private public : bytes) : bool :=
  match sb_wireguard_public_key_from_private (Some private) with Ok derived => bytes_eqb derived public | Err _ => false end.

Record wg_defaults := mk_defaults { df_dns : bytes; df_allowed : bytes; df_keepalive : Z }.

Definition option_text_valid (options : option sbj) (key : string) : bool :=
  negb (sbj_has options key) || is_ok (text_field options key false 2048).

Definition client_defaults (options : option sbj) (default_dns : option bytes) : result wg_defaults :=
  let fallback := match cstr <$> default_dns with Some (_ :: _) => default [] (cstr <$> default_dns) | _ => bs "1.1.1.1" end in
  let dns := cstr (default [] (sbj_get_str options "dns" (Some fallback))) in
  let allowed := cstr (default [] (sbj_get_str options "allowed_ips" (Some (bs "0.0.0.0/0, ::/0")))) in
  let keepalive := sbj_get_int options "persistent_keepalive" 25 in
  if negb (option_text_valid options "dns") || negb (option_text_valid options "allowed_ips") ||
     (sbj_has options "persistent_keepalive" && negb (sbj_is_integer (sbj_get options "persistent_keepalive"))) ||
     (keepalive <? 0) || (65535 <? keepalive) || negb (valid_ip_list dns false) || negb (valid_ip_list allowed true)
  then sb_fail SB_ERR_VALIDATION (bs "Migration DNS must be IP addresses, allowed_ips must be CIDRs, and keepalive must be 0..65535")
  else Ok (mk_defaults dns allowed keepalive).

(** A client's peer in the batch. *)
Record wg_client := mk_client {
  cl_id : bytes; cl_name : bytes; cl_ip : bytes; cl_private : option bytes; cl_public : bytes; cl_psk : option bytes; cl_enabled : bool }.

Definition peer_json (d : wg_defaults) (c : wg_client) : sbj :=
  let o := sbj_set_str (SBJ_OBJECT []) "id" (bs "wg-easy-" ++ cl_id c) in
  let o := sbj_set_str o "name" (cl_name c) in
  let o := sbj_set o "address" (SBJ_STRING (cl_ip c ++ bs "/24")) in
  let o := sbj_set_str o "private_key" (default [] (cl_private c)) in
  let o := sbj_set_str o "public_key" (cl_public c) in
  let o := sbj_set o "preshared_key" (sbj_str (cl_psk c)) in
  let o := sbj_set_bool o "enabled" (cl_enabled c) in
  let o := sbj_set_str o "dns" (df_dns d) in
  let o := sbj_set_str o "allowed_ips" (df_allowed d) in
  let o := sbj_set_int o "persistent_keepalive" (df_keepalive d) in
  let o := sbj_set_int o "quota_bytes" 0 in
  sbj_set_str o "notes" (bs "Imported from wg-easy v14").

Definition at_entry (message : string) (index : nat) : bytes := bs message ++ bs " at entry " ++ fmt_uint (Z.of_nat index + 1).

(** The client identifier: letters, digits and hyphens. *)
Definition client_id_valid (id : bytes) : bool :=
  negb (length id =? 0)%nat && (length id <=? 128)%nat && no_nul id && forallb (fun c => isalnum c || (code c =? 45)) id.

(** One client, after those whose addresses and keys were seen. *)
Definition read_client (server_number : Z) (seen_addresses seen_keys : list bytes) (index : nat) (id : bytes) (client : sbj) : result wg_client :=
  if negb (client_id_valid id) || negb (sbj_is_object (Some client))
  then sb_fail SB_ERR_VALIDATION (bs "Invalid wg-easy client identifier")
  else
    '(name, ip, pub, priv, psk) ←
      both (both (both (both (text_field (Some client) "name" false 256) (text_field (Some client) "address" false 15))
                       (text_field (Some client) "publicKey" false 44)) (text_field (Some client) "privateKey" true 44))
           (text_field (Some client) "preSharedKey" true 44);
    let name := default [] name in
    let ip := default [] ip in
    let pub := default [] pub in
    match inet_pton4 env ip with
    | Some peer_number =>
        if negb (valid_key pub) || match priv with Some p => negb (valid_key p) | None => false end ||
           match psk with Some p => negb (valid_key p) | None => false end
        then sb_fail SB_ERR_VALIDATION (at_entry "Invalid wg-easy client key or IPv4 address" index)
        else if negb (subnet_of peer_number =? subnet_of server_number) || (peer_number =? server_number) || negb (host_usable peer_number) ||
                existsb (bytes_eqb ip) seen_addresses || existsb (bytes_eqb pub) seen_keys
        then sb_fail SB_ERR_VALIDATION (at_entry "Duplicate or out-of-subnet wg-easy client" index)
        else if match priv with Some p => negb (keys_match p pub) | None => false end
        then sb_fail SB_ERR_VALIDATION (at_entry "wg-easy client public and private keys do not match" index)
        else
          match sbj_get (Some client) "enabled" with
          | None => Ok (mk_client id name ip priv pub psk true)
          | Some (SBJ_BOOL b) => Ok (mk_client id name ip priv pub psk b)
          | Some _ => sb_fail SB_ERR_VALIDATION (bs "wg-easy client enabled must be boolean")
          end
    | None => sb_fail SB_ERR_VALIDATION (at_entry "Invalid wg-easy client key or IPv4 address" index)
    end.

Fixpoint read_clients (server_number : Z) (l : list (bytes * sbj)) (index : nat) (done : list wg_client) : result (list wg_client) :=
  match l with
  | [] => Ok done
  | (id, client) :: l' =>
      c ← read_client server_number (cl_ip <$> done) (cl_public <$> done) index id client;
      read_clients server_number l' (S index) (done ++ [c])
  end.

Record wg_server := mk_server { sv_private : bytes; sv_public : bytes; sv_address : bytes; sv_number : Z }.

Definition server_fields (server : option sbj) : result (bytes * bytes * bytes) :=
  '(private_key, public_key, address) ←
    both (both (text_field server "privateKey" false 44) (text_field server "publicKey" false 44)) (text_field server "address" false 15);
  Ok (default [] private_key, default [] public_key, default [] address).

Definition read_server (server : option sbj) : result wg_server :=
  '(private_key, public_key, address) ← server_fields server;
  match inet_pton4 env address with
  | Some server_number =>
      if negb (valid_key private_key) || negb (valid_key public_key)
      then sb_fail SB_ERR_VALIDATION (bs "Invalid wg-easy server key or IPv4 address")
      else if negb (server_usable server_number)
      then sb_fail SB_ERR_VALIDATION (bs "wg-easy server address must be a usable IPv4 host in a /24 subnet")
      else if negb (keys_match private_key public_key)
      then sb_fail SB_ERR_VALIDATION (bs "wg-easy server public and private keys do not match")
      else Ok (mk_server private_key public_key address server_number)
  | None => sb_fail SB_ERR_VALIDATION (bs "Invalid wg-easy server key or IPv4 address")
  end.

Definition batch_json (s : wg_server) (d : wg_defaults) (clients : list wg_client) : sbj :=
  let keys := sbj_set_str (sbj_set_str (SBJ_OBJECT []) "private_key" (sv_private s)) "public_key" (sv_public s) in
  let interface := sbj_set_str (SBJ_OBJECT []) "address" (sv_address s ++ bs "/24") in
  let settings := sbj_set (sbj_set (SBJ_OBJECT []) "wg_server_key" keys) "wireguard_interface" interface in
  let defaults := sbj_set_int (sbj_set_str (sbj_set_str (SBJ_OBJECT []) "dns" (df_dns d)) "allowed_ips" (df_allowed d))
                    "persistent_keepalive" (df_keepalive d) in
  sbj_set (sbj_set (sbj_set (SBJ_OBJECT []) "app_settings" settings) "client_defaults" defaults)
    "wireguard_peers" (SBJ_ARRAY (peer_json d <$> clients)).

Definition sb_wg_easy_v14_normalize (configuration options : option sbj) (default_dns : option bytes) : result sbj :=
  let server := sbj_get configuration "server" in
  let clients := sbj_get configuration "clients" in
  if negb (sbj_is_object configuration) || negb (sbj_is_object server) || negb (sbj_is_object clients) ||
     (4096 <? Z.of_nat (sbj_obj_len clients)) || match options with Some _ => negb (sbj_is_object options) | None => false end
  then sb_fail SB_ERR_VALIDATION (bs "Expected wg-easy v14 wg0.json with server and clients objects (maximum 4096 clients)")
  else
    s ← read_server server;
    d ← client_defaults options default_dns;
    l ← read_clients (sv_number s) (obj_members clients) 0 [];
    Ok (batch_json s d l).
End Env.

(** * WireGuard keys and imported networks *)

Section Clients.
Context (env : wg_env).

(** A client that may join the network of a server. *)
Definition client_ok (server_number : Z) (c : wg_client) : Prop :=
  client_id_valid (cl_id c) = true /\ valid_key env (cl_public c) = true /\
  (forall p, cl_private c = Some p -> valid_key env p = true /\ keys_match env p (cl_public c) = true) /\
  (forall p, cl_psk c = Some p -> valid_key env p = true) /\
  exists n, inet_pton4 env (cl_ip c) = Some n /\ subnet_of n = subnet_of server_number /\ n <> server_number /\ host_usable n = true.

Lemma existsb_eqb_false x l : existsb (bytes_eqb x) l = false -> x ∉ l.
Proof. intros H Hx. assert (E := proj1 (existsb_none _ _) H x Hx). by rewrite bytes_eqb_refl in E. Qed.

Lemma read_client_spec server_number addresses keys index id client c :
  read_client env server_number addresses keys index id client = Ok c ->
  cl_id c = id /\ client_ok server_number c /\ cl_ip c ∉ addresses /\ cl_public c ∉ keys.
Proof.
  unfold read_client. destruct (client_id_valid id) eqn:Vi; [|done]. destruct (sbj_is_object _); [|done]. cbn [negb orb].
  destruct (both _ _) as [[[[[name ip] pub] priv] psk]|]; [|done]. cbn [mbind result_bind].
  destruct (inet_pton4 env (default [] ip)) as [n|] eqn:Pn; [|done]. destruct (_ || match psk with _ => _ end) eqn:Vk; [done|].
  apply orb_false_iff in Vk as [[V1 V2]%orb_false_iff V3]. apply negb_false_iff in V1.
  destruct (_ || existsb _ keys) eqn:Vn; [done|].
  apply orb_false_iff in Vn as [[[[S1 S2]%orb_false_iff S3]%orb_false_iff S4]%orb_false_iff S5].
  apply negb_false_iff, Z.eqb_eq in S1. apply Z.eqb_neq in S2. apply negb_false_iff in S3. apply existsb_eqb_false in S4, S5.
  destruct (match priv with Some p => negb (keys_match env p (default [] pub)) | None => false end) eqn:Km; [done|]. intros H.
  assert (G : forall b, let c := mk_client id (default [] name) (default [] ip) priv (default [] pub) psk b in
    cl_id c = id /\ client_ok server_number c /\ cl_ip c ∉ addresses /\ cl_public c ∉ keys).
  { intros b. split; [done|]. split; [|by split]. split; [done|]. split; [done|]. split; [|split; [|by exists n]].
    - intros p [= ->]. by apply negb_false_iff in V2, Km.
    - intros p [= ->]. by apply negb_false_iff in V3. }
  destruct (sbj_get (Some client) "enabled") as [[]|]; try done; injection H as <-; apply G.
Qed.

Lemma read_clients_spec server_number l : forall index done r,
  Forall (client_ok server_number) done -> NoDup (cl_ip <$> done) -> NoDup (cl_public <$> done) ->
  read_clients env server_number l index done = Ok r ->
  Forall (client_ok server_number) r /\ NoDup (cl_ip <$> r) /\ NoDup (cl_public <$> r) /\ cl_id <$> r = (cl_id <$> done) ++ l.*1.
Proof.
  induction l as [|[id client] l IH]; intros index done r F Na Nk; cbn [read_clients].
  - intros [= <-]. by rewrite app_nil_r.
  - destruct (read_client _ _ _ _ _ _ _) as [c|] eqn:E; [|by intros [=]]. cbn [mbind result_bind]. apply read_client_spec in E as (Ei & Ok0 & Ha & Hk).
    intros R. destruct (IH (S index) (done ++ [c]) r) as (R1 & R2 & R3 & R4); [..|exact R|].
    + apply Forall_app. split; [exact F|by apply Forall_singleton].
    + rewrite fmap_app. apply NoDup_app. split; [exact Na|]. split; [|apply NoDup_singleton]. intros x Hx ->%list_elem_of_singleton. by destruct Ha.
    + rewrite fmap_app. apply NoDup_app. split; [exact Nk|]. split; [|apply NoDup_singleton]. intros x Hx ->%list_elem_of_singleton. by destruct Hk.
    + do 3 (split; [assumption|]). rewrite R4, fmap_app, <- app_assoc. cbn. by rewrite Ei.
Qed.

Lemma read_server_spec server s :
  read_server env server = Ok s ->
  valid_key env (sv_private s) = true /\ valid_key env (sv_public s) = true /\ keys_match env (sv_private s) (sv_public s) = true /\
  inet_pton4 env (sv_address s) = Some (sv_number s) /\ server_usable (sv_number s) = true.
Proof.
  unfold read_server. destruct (server_fields server) as [[[p q] a]|]; [|done]. cbn [mbind result_bind].
  destruct (inet_pton4 env a) as [n|] eqn:Pn; [|done]. destruct (valid_key env p) eqn:V1; [|done]. destruct (valid_key env q) eqn:V2; [|done]. cbn [negb orb].
  destruct (server_usable n) eqn:U; [|done]. destruct (keys_match env p q) eqn:K; [|done]. by intros [= <-].
Qed.

(** C37: an imported network is consistent.  If a configuration is accepted, the batch
    is that of a server with a usable address and a matching key pair, and of one
    peer for each client of the file, with distinct addresses and distinct public
    keys, all addresses usable, in the server's subnet and not the server's, all
    keys canonical, and every private key matching its public key. *)
Theorem wg_import_consistent configuration options default_dns batch :
  sb_wg_easy_v14_normalize env configuration options default_dns = Ok batch ->
  exists s d clients, batch = batch_json s d clients /\
    keys_match env (sv_private s) (sv_public s) = true /\ inet_pton4 env (sv_address s) = Some (sv_number s) /\ server_usable (sv_number s) = true /\
    cl_id <$> clients = (obj_members (sbj_get configuration "clients")).*1 /\
    Forall (client_ok (sv_number s)) clients /\ NoDup (cl_ip <$> clients) /\ NoDup (cl_public <$> clients) /\ 0 <= df_keepalive d <= 65535.
Proof.
  unfold sb_wg_easy_v14_normalize. cbv zeta. case_if; [done|]. destruct (read_server _ _) as [s|] eqn:Es; [|done]. cbn [mbind result_bind].
  destruct (client_defaults _ _ _) as [d|] eqn:Ed; [|done]. cbn [mbind result_bind]. destruct (read_clients _ _ _ _ _) as [l|] eqn:El; [|done]. intros [= <-].
  exists s, d, l. split; [done|]. apply read_server_spec in Es as (_ & _ & K & P & U). do 3 (split; [done|]).
  apply read_clients_spec in El as (F & Na & Nk & Ids); [|constructor..]. do 4 (split; [done|]).
  revert Ed. unfold client_defaults. cbv zeta. destruct (_ || _) eqn:B; [done|]. intros [= <-]. cbn [df_keepalive].
  repeat match goal with H : _ || _ = false |- _ => apply orb_false_iff in H as [? ?] end. lia.
Qed.
End Clients.

(** ** Key pairs *)

(** What is documented of the base64 functions: encoding gives the text, decoding
    it three bytes for four characters, with zeros for the padding. *)
Record wg_base64 (env : wg_env) : Prop := mk_wg_base64 {
  encodes_block d : encode_block env d = sb_base64_encode d;
  decodes_key d : length d = 32%nat -> decode_block env (sb_base64_encode d) = Some (d ++ [chr 0]) }.

Lemma base64_key_length d : length d = 32%nat -> length (sb_base64_encode d) = 44%nat /\ ends_padded (sb_base64_encode d) = true.
Proof.
  intros L. do 30 (destruct d as [|? d]; [discriminate|]). destruct d as [|x [|y [|? ?]]]; try discriminate. unfold sb_base64_encode, ends_padded.
  cbn [b64_encode b64_pad app length lookup list_lookup]. split; reflexivity.
Qed.

Lemma decode_encode_key env d : wg_base64 env -> length d = 32%nat -> decode_key env (sb_base64_encode d) = Ok d.
Proof.
  intros B L. destruct (base64_key_length d L) as [Lk Pk]. unfold decode_key. rewrite Lk, Pk. cbn [Nat.eqb negb orb].
  rewrite (decodes_key env B) by done. rewrite length_app, L. cbn [length Nat.add Nat.eqb negb orb]. by rewrite take_app_length'.
Qed.

(** Key pairs match.  A pair that was generated derives its own public key from
    its private key, both texts have 44 characters, and the import accepts the pair
    (unless the random bytes are all zero). *)
Theorem keypair_matches env random kp :
  wg_base64 env -> length random = 32%nat -> sb_wireguard_generate_keypair env (Some random) = Ok kp ->
  sb_wireguard_public_key_from_private env (Some (kp_private kp)) = Ok (kp_public kp) /\ keys_match env (kp_private kp) (kp_public kp) = true /\
  length (kp_private kp) = 44%nat /\ length (kp_public kp) = 44%nat /\
  (existsb (fun c => negb (code c =? 0)) random = true -> valid_key env (kp_private kp) = true).
Proof.
  intros B L. unfold sb_wireguard_generate_keypair. destruct (x25519_key env random) eqn:Xk; [|done]. cbn [negb].
  destruct (x25519_public env random) as [public|] eqn:Xp; [|done]. destruct (length public =? 32)%nat eqn:Lp; [|done]. cbn [negb]. apply Nat.eqb_eq in Lp.
  assert (En : forall d, length d = 32%nat -> encode_key env d = Ok (sb_base64_encode d)).
  { intros d Ld. unfold encode_key. rewrite (encodes_block env B). destruct (base64_key_length d Ld) as [Lk _]. by destruct (sb_base64_encode d). }
  rewrite !En by done. cbn [mbind result_bind]. intros [= <-]. cbn [kp_private kp_public].
  assert (P : sb_wireguard_public_key_from_private env (Some (sb_base64_encode random)) = Ok (sb_base64_encode public)).
  { unfold sb_wireguard_public_key_from_private. change (default [] (Some (sb_base64_encode random))) with (sb_base64_encode random).
    rewrite decode_encode_key by done. cbn [mbind result_bind]. rewrite Xk, Xp, Lp. cbn [negb Nat.eqb]. by apply En. }
  split; [done|]. destruct (base64_key_length random L) as [Lr Pr], (base64_key_length public Lp) as [Lq _].
  split; [unfold keys_match; rewrite P; apply bytes_eqb_refl|]. split; [done|]. split; [done|]. intros Nz.
  unfold valid_key. rewrite Lr, Pr, (decodes_key env B), length_app, L, take_app_length' by done. cbn [Nat.eqb negb orb length Nat.add andb].
  rewrite Nz, (encodes_block env B). cbn [andb]. rewrite take_ge by lia. apply bytes_eqb_refl.
Qed.

(** ** A small network *)

Definition sample_wg : wg_env :=
  mk_wg_env (fun _ => true) (fun raw => Some (reverse raw)) (fun text => (fun d => d ++ [chr 0]) <$> sb_base64_decode_strict text) sb_base64_encode
    (fun text => if bytes_eqb text (bs "10.8.0.1") then Some 168296449 else if bytes_eqb text (bs "10.8.0.2") then Some 168296450
                 else if bytes_eqb text (bs "1.1.1.1") then Some 16843009 else if bytes_eqb text (bs "0.0.0.0") then Some 0 else None)
    (fun text => bytes_eqb text (bs "::")).

Definition sample_random : bytes := bs "0123456789abcdefghijklmnopqrstuv".

Lemma sample_wg_base64 : wg_base64 sample_wg.
Proof. split; [done|]. intros d L. cbn [decode_block sample_wg]. by rewrite (proj1 (sb_base64_roundtrip d)). Defined.

Lemma keypair_matches_witness :
  exists kp, sb_wireguard_generate_keypair sample_wg (Some sample_random) = Ok kp /\
    sb_wireguard_public_key_from_private sample_wg (Some (kp_private kp)) = Ok (kp_public kp).
Proof.
  destruct (sb_wireguard_generate_keypair sample_wg (Some sample_random)) as [kp|] eqn:E; [|vm_compute in E; discriminate].
  exists kp. split; [done|]. apply (keypair_matches sample_wg sample_random kp sample_wg_base64 eq_refl E).
Defined.

Definition key_of (raw : string) : sbj := SBJ_STRING (sb_base64_encode (bs raw)).

Definition sample_wg_easy : sbj :=
  SBJ_OBJECT
    [(bs "clients", SBJ_OBJECT [(bs "c1", SBJ_OBJECT [(bs "address", SBJ_STRING (bs "10.8.0.2")); (bs "name", SBJ_STRING (bs "phone"));
       (bs "publicKey", key_of "abcdefghijklmnopqrstuvwxyz012345")])]);
     (bs "server", SBJ_OBJECT [(bs "address", SBJ_STRING (bs "10.8.0.1")); (bs "privateKey", key_of "0123456789abcdefghijklmnopqrstuv");
       (bs "publicKey", key_of "vutsrqponmlkjihgfedcba9876543210")])].

Lemma wg_import_consistent_witness :
  exists batch, sb_wg_easy_v14_normalize sample_wg (Some sample_wg_easy) None None = Ok batch /\
    exists s d clients, batch = batch_json s d clients /\ cl_id <$> clients = [bs "c1"].
Proof.
  destruct (sb_wg_easy_v14_normalize sample_wg (Some sample_wg_easy) None None) as [batch|] eqn:E; [|vm_compute in E; discriminate].
  exists batch. split; [done|].
  destruct (wg_import_consistent sample_wg (Some sample_wg_easy) None None batch E) as (s & d & l & Eb & _ & _ & _ & Ei & _).
  exists s, d, l. split; [done|]. rewrite Ei. vm_compute. reflexivity.
Defined.
