(* ===== verification/System.v ===== *)
(** * Files and processes

    What the programs do to the outside: system calls on files and commands that
    they run.  The state has the files the processes see, the entries that are known
    to be on disk, every earlier state of the two (what a power loss may leave), and
    the network state of the kernel, which is abstract.  A system call takes one
    answer: it fails with an error, or does what it is documented to do.  A call
    that is interrupted by a signal is made again by the code; the answer is the one
    after the interruptions. *)

From S2P Require Import Prelude Util Json Sqlite SqliteProofs.

Inductive errno := EEXIST | ENOENT | ENOTDIR | EINVAL | EISDIR | EOTHER (n : Z).

(** [f_synced]: the data is on disk. *)
Record file := mk_file { f_data : bytes; f_mode : Z; f_synced : bool }.
Inductive entry := Regular (f : file) | Directory (mode : Z).

Abbreviation tree := (gmap bytes entry).

Record system (K : Type) := mk_system { sy_files : tree; sy_disk : tree; sy_past : list (tree * tree); sy_kernel : K }.
Arguments mk_system {K} sy_files sy_disk sy_past sy_kernel.
Arguments sy_files {K} s.
Arguments sy_disk {K} s.
Arguments sy_past {K} s.
Arguments sy_kernel {K} s.

(** How a command ends: it was not started, it could not be waited for, or it ended
    with a status (none after a signal) and what it printed. *)
Inductive spawn_answer :=
  | PipeFailed (e : errno)
  | InitFailed (e : errno)
  | SpawnFailed (e : errno)
  | WaitFailed
  | Finished (status : option Z) (output : bytes).

(** [sys_count] is how many bytes a [write] takes; a command may read the files. *)
Record sys_env (K : Type) := mk_sys_env {
  sys_errno : nat -> option errno;
  sys_count : nat -> nat;
  strerror : errno -> bytes;
  umask : Z;
  sys_random : nat -> nat -> option bytes;
  execute : list bytes -> tree -> K -> spawn_answer * K }.
Arguments sys_errno {K} s.
Arguments sys_count {K} s.
Arguments strerror {K} s.
Arguments umask {K} s.
Arguments sys_random {K} s.
Arguments execute {K} s.

Definition slash : Z := 47.

(** The directory part of a path, as [sb_atomic_replace_file] takes it. *)
Fixpoint last_slash (s : bytes) : option bytes :=
  match s with
  | [] => None
  | c :: s' => match last_slash s' with Some a => Some (c :: a) | None => if code c =? slash then Some [] else None end
  end.
Definition parent_dir (path : bytes) : bytes :=
  match last_slash path with None => bs "." | Some [] => bs "/" | Some dir => dir end.

Section Calls.
Context {T K : Type} (env : sys_env K).

Abbreviation sys := (sql T (system K)).
Implicit Type s : system K.

(** The system after a change of the files; the state before it is kept. *)
Definition files_to (f : tree) (d : tree) s : system K := mk_system f d ((sy_files s, sy_disk s) :: sy_past s) (sy_kernel s).

(** A call that fails with an answer, or runs. *)
Definition sys_call {A} (failed : errno -> A) (f : nat -> system K -> A * system K) : sys A :=
  on_memory (fun s n => match sys_errno env n with Some e => (failed e, s) | None => f n s end).

Definition masked (mode : Z) : Z := Z.land mode (Z.lnot (umask env)).

Definition sys_mkdir (path : bytes) (mode : Z) : sys (option errno) :=
  sys_call Some (fun _ s => match sy_files s !! path with
    | Some _ => (Some EEXIST, s)
    | None => (None, files_to (<[path := Directory (masked mode)]> (sy_files s)) (sy_disk s) s)
    end).

(** [ENOENT] is the answer for no entry and for nothing else. *)
Definition sys_stat (path : bytes) : sys (entry + errno) :=
  on_memory (fun s n =>
    (match sys_errno env n, sy_files s !! path with
     | (None | Some ENOENT), Some e => inl e
     | (None | Some ENOENT), None => inr ENOENT
     | Some e, _ => inr e
     end, s)).

(** [open] with [O_CREAT | O_EXCL]. *)
Definition sys_create (path : bytes) (mode : Z) : sys (option errno) :=
  sys_call Some (fun _ s => match sy_files s !! path with
    | Some _ => (Some EEXIST, s)
    | None => (None, files_to (<[path := Regular (mk_file [] (masked mode) false)]> (sy_files s)) (sy_disk s) s)
    end).

Definition on_file (path : bytes) (f : file -> file) s : system K :=
  match sy_files s !! path with
  | Some (Regular x) => files_to (<[path := Regular (f x)]> (sy_files s)) (sy_disk s) s
  | _ => s
  end.

(** [write]: the number of bytes taken. *)
Definition sys_write (path data : bytes) : sys (nat + errno) :=
  sys_call inr (fun n s =>
    let count := Nat.min (sys_count env n) (length data) in
    (inl count, on_file path (fun x => mk_file (f_data x ++ take count data) (f_mode x) false) s)).

Definition sys_fsync (path : bytes) : sys (option errno) :=
  sys_call Some (fun _ s => (None, on_file path (fun x => mk_file (f_data x) (f_mode x) true) s)).

(** [close], [open] of a directory: they only succeed or fail. *)
Definition sys_check : sys (option errno) := sys_call Some (fun _ s => (None, s)).

Definition sys_rename (from to : bytes) : sys (option errno) :=
  sys_call Some (fun _ s => match sy_files s !! from, sy_files s !! to with
    | None, _ => (Some ENOENT, s)
    | Some (Regular _), Some (Directory _) => (Some EISDIR, s)
    | Some e, _ => (None, files_to (<[to := e]> (delete from (sy_files s))) (sy_disk s) s)
    end).

Definition sys_unlink (path : bytes) : sys (option errno) :=
  sys_call Some (fun _ s => match sy_files s !! path with
    | None => (Some ENOENT, s)
    | Some _ => (None, files_to (delete path (sy_files s)) (sy_disk s) s)
    end).

(** [fsync] of a directory: its entries are on disk. *)
Definition synced_dir (dir : bytes) (files disk : tree) : tree :=
  filter (fun x => parent_dir (fst x) = dir) files ∪ filter (fun x => parent_dir (fst x) <> dir) disk.
Definition sys_fsync_dir (dir : bytes) : sys (option errno) :=
  sys_call Some (fun _ s => (None, files_to (sy_files s) (synced_dir dir (sy_files s) (sy_disk s)) s)).

(** ** [sb_mkdirs] ([c/src/util.c]) *)

Definition mkdir_or_exists (path : bytes) (mode : Z) : sys (option errno) :=
  e ← sys_mkdir path mode;
  mret (match e with Some EEXIST => None | _ => e end).

(** The loop over the path, from its second byte on: a directory at each slash. *)
Fixpoint mkdirs_loop (mode : Z) (done rest : bytes) : sys (option errno) :=
  match rest with
  | [] => mkdir_or_exists done mode
  | c :: rest' =>
      if code c =? slash then
        e ← mkdir_or_exists done mode;
        match e with Some e => mret (Some e) | None => mkdirs_loop mode (done ++ [c]) rest' end
      else mkdirs_loop mode (done ++ [c]) rest'
  end.

Definition sb_mkdirs (path : bytes) (mode : Z) : sys (option errno) :=
  match cstr path with
  | [] => mret None
  | c :: rest => mkdirs_loop mode [c] rest
  end.

(** ** Commands *)

Definition sys_spawn (argv : list bytes) : sys spawn_answer :=
  on_memory (fun s _ =>
    let (answer, k) := execute env argv (sy_files s) (sy_kernel s) in
    (answer, mk_system (sy_files s) (sy_disk s) (sy_past s) k)).

Definition sys_fail {A} (operation : string) (e : errno) : result A :=
  sb_fail SB_ERR_IO (bs operation ++ bs ": " ++ strerror env e).
End Calls.

(** * Atomic replacement of a file ([c/src/atomic_file.c])

    The file is written under a temporary name, synced, renamed over the destination,
    and the directory is synced. *)

Section Env.
Context {T K : Type} (env : sys_env K).

Abbreviation sys := (sql T (system K)).

(** A system call whose error is reported. *)
Definition system_fail (operation : string) (call : sys (option errno)) : sys unit :=
  e ← call;
  match e with Some e => pure (sys_fail env operation e) | None => mret tt end.

Definition temporary_path_for (destination : bytes) : sys bytes :=
  random ← ask (fun n => sys_random env n 8);
  match random with
  | None => pure (sb_fail SB_ERR_GENERIC (bs "secure temporary filename generation failed"))
  | Some random => mret (destination ++ bs ".tmp." ++ sb_hex_encode random)
  end.

(** The permissions of [st_mode]: the last nine bits. *)
Definition entry_mode (e : entry) : Z := match e with Regular f => f_mode f | Directory m => m end.

Definition destination_mode (destination : bytes) : sys Z :=
  answer ← sys_stat env destination;
  match answer with
  | inl e => mret (Z.land (entry_mode e) 511)
  | inr ENOENT => mret 384
  | inr e => pure (sys_fail env "inspect destination config" e)
  end.

Definition fsync_directory (directory : bytes) : sys unit :=
  _ ← system_fail "open config directory" (sys_check env);
  _ ← system_fail "fsync config directory" (sys_fsync_dir env directory);
  system_fail "close config directory" (sys_check env).

(** Every round takes a byte at least: the fuel is the length. *)
Fixpoint write_loop (fuel : nat) (path data : bytes) : sys unit :=
  match data, fuel with
  | [], _ => mret tt
  | _, O => mret tt
  | _, S fuel' =>
      answer ← sys_write env path data;
      match answer with
      | inr e => pure (sys_fail env "write temporary config" e)
      | inl O => pure (sb_fail SB_ERR_IO (bs "write temporary config made no progress"))
      | inl count => write_loop fuel' path (drop count data)
      end
  end.

Definition write_all (path data : bytes) : sys unit :=
  _ ← write_loop (length data) path data;
  system_fail "fsync temporary config" (sys_fsync env path).

(** From the open file on; what fails goes to [cleanup], which removes the file. *)
Definition fill_and_rename (validator : option (bytes -> sys unit)) (temporary destination contents : bytes) : sys unit :=
  _ ← write_all temporary contents;
  _ ← system_fail "close temporary config" (sys_check env);
  _ ← match validator with Some v => v temporary | None => mret tt end;
  system_fail "replace config" (sys_rename env temporary destination).

(** [cleanup]: closing and unlinking may fail without notice. *)
Definition cleanup {A} (temporary : bytes) (m : sys A) : sys A :=
  r ← attempt m;
  match r with
  | Ok a => mret a
  | Err e => _ ← sys_unlink env temporary; pure (Err e)
  end.

Definition sb_atomic_replace_file (destination contents : bytes) (validator : option (bytes -> sys unit)) : sys unit :=
  let destination := cstr destination in
  if bytes_eqb destination [] || sb_ends_with destination (bs "/")
  then pure (sb_fail SB_ERR_VALIDATION (bs "config destination must name a file"))
  else
    let directory := parent_dir destination in
    _ ← system_fail "create_directories" (sb_mkdirs env directory 511);
    mode ← destination_mode destination;
    temporary ← temporary_path_for destination;
    _ ← system_fail "create temporary config" (sys_create env temporary mode);
    _ ← cleanup temporary (fill_and_rename validator temporary destination contents);
    fsync_directory directory.
End Env.

(** * A power loss during the replacement of a file

    At every moment of [sb_atomic_replace_file] the destination has, after a power
    loss, its old contents or all of the new ones. *)

Definition file_at (t : tree) (p : bytes) : option file := match t !! p with Some (Regular f) => Some f | _ => None end.

(** What may be read after a power loss: data that was not synced may be anything. *)
Definition file_after (f : option file) (c : option bytes) : Prop :=
  match f with Some f => c = Some (f_data f) \/ (f_synced f = false /\ c <> None) | None => c = None end.

(** The directory on disk may still have the entry it had when it was last synced. *)
Definition crash_may (st : tree * tree) (p : bytes) (c : option bytes) : Prop :=
  file_after (file_at (fst st) p) c \/ file_after (file_at (snd st) p) c.

Definition current {K} (m : system K) : tree * tree := (sy_files m, sy_disk m).

(** A file that a power loss leaves as it is. *)
Definition settled {K} (m : system K) (p : bytes) (c : option bytes) : Prop := forall c', crash_may (current m) p c' -> c' = c.

Lemma file_at_insert (t : tree) p e q : p <> q -> file_at (<[p := e]> t) q = file_at t q.
Proof. intros H. unfold file_at. by rewrite lookup_insert_ne. Qed.

Lemma file_at_fresh_dir (t : tree) p m q : t !! p = None -> file_at (<[p := Directory m]> t) q = file_at t q.
Proof. intros N. destruct (decide (p = q)) as [<-|H]; [|by apply file_at_insert]. unfold file_at. by rewrite lookup_insert_eq, N. Qed.

Lemma last_slash_length s a : last_slash s = Some a -> (length a < length s)%nat.
Proof.
  revert a. induction s as [|c s IH]; intros a; cbn [last_slash]; [done|]. destruct (last_slash s) as [b|].
  - intros [= <-]. specialize (IH b eq_refl). cbn [length]. lia.
  - destruct (code c =? slash); [|done]. intros [= <-]. cbn [length]. lia.
Qed.

Section Replace.
Context {T K : Type} (env : sys_env K).

Abbreviation sys := (sql T (system K)).
Abbreviation state := (conn T (system K)).

Lemma wp_sys_call {A} failed (f : nat -> system K -> A * system K) (Q : A -> state -> Prop) E s :
  (forall e, Q (failed e) (mk_conn (db s) (mem s) (S (asked s)))) ->
  (let (a, m) := f (asked s) (mem s) in Q a (mk_conn (db s) m (S (asked s)))) ->
  wp (sys_call env failed f) Q E s.
Proof.
  intros HE HQ. unfold sys_call. apply wp_on_memory. destruct (sys_errno env (asked s)); [by apply HE|].
  by destruct (f (asked s) (mem s)).
Qed.

(** A reported call ends with an error, or as the call does. *)
Lemma wp_system_fail op (call : sys (option errno)) Q (E : sb_err -> state -> Prop) s :
  wp call (fun e s' => match e with Some _ => forall err, E err s' | None => Q tt s' end) E s -> wp (system_fail env op call) Q E s.
Proof. intros W. apply wp_bind. eapply wp_mono; [exact W| |done]. intros [e|] s' H; [apply wp_pure, H|by apply wp_ret]. Qed.

Context (dest contents : bytes) (old : option bytes) (s0 : state) (x : option entry).
Hypothesis settled0 : settled (mem s0) dest old.

Definition allowed (st : tree * tree) : Prop := forall c, crash_may st dest c -> c = old \/ c = Some contents.

(** The states since the call began, the present one included. *)
Definition covered (m : system K) : Prop :=
  exists l, sy_past m = l ++ sy_past (mem s0) /\ Forall allowed (current m :: l).

(** Before the destination changes; [aside] is the temporary file, [x] the entry of the
    destination, if it has one. *)
Record waiting (aside : bytes -> Prop) (s : state) : Prop := {
  wait_db : db s = db s0;
  wait_files : forall p, ~ aside p -> file_at (sy_files (mem s)) p = file_at (sy_files (mem s0)) p;
  wait_disk : sy_disk (mem s) = sy_disk (mem s0);
  wait_dest : forall e, x = Some e -> sy_files (mem s) !! dest = Some e;
  wait_past : exists l, sy_past (mem s) = l ++ sy_past (mem s0) /\ Forall allowed l }.

Lemma waiting_covered aside s : ~ aside dest -> waiting aside s -> covered (mem s).
Proof.
  intros Ha [_ Hf Hd _ (l & Hl & Al)]. exists l. split; [done|]. constructor; [|done]. intros c [H|H]; left; apply settled0.
  - left. cbn [fst current] in *. by rewrite Hf in H.
  - right. cbn [snd current] in *. by rewrite Hd in H.
Qed.

Lemma waiting_asked aside s n : waiting aside s -> waiting aside (mk_conn (db s) (mem s) n).
Proof. intros []. by split. Qed.

Lemma waiting_step aside s f n :
  ~ aside dest -> waiting aside s -> (forall p, ~ aside p -> file_at f p = file_at (sy_files (mem s)) p) ->
  (forall e, sy_files (mem s) !! dest = Some e -> f !! dest = Some e) ->
  waiting aside (mk_conn (db s) (files_to f (sy_disk (mem s)) (mem s)) n).
Proof.
  intros Ha W Hf Hx. destruct (waiting_covered aside s Ha W) as (l & Hl & Al). destruct W as [W1 W2 W3 W4 _].
  split; cbn [db mem sy_files sy_disk sy_past files_to]; [done| |done| |].
  - intros p Hp. rewrite Hf by done. by apply W2.
  - intros e E. by apply Hx, W4.
  - exists (current (mem s) :: l). by rewrite Hl.
Qed.

Lemma wp_mkdir aside p mode s :
  ~ aside dest -> waiting aside s -> wp (mkdir_or_exists env p mode) (fun _ => waiting aside) (fun _ => waiting aside) s.
Proof.
  intros Ha W. unfold mkdir_or_exists, sys_mkdir. apply wp_bind, wp_sys_call; [intros e; apply wp_ret; by apply waiting_asked|].
  destruct (sy_files (mem s) !! p) eqn:F; apply wp_ret; [by apply waiting_asked|]. apply waiting_step; [done..| |].
  - intros q _. by apply file_at_fresh_dir.
  - intros e E. rewrite lookup_insert_ne; [done|]. intros ->. by rewrite F in E.
Qed.

Lemma wp_mkdirs aside p mode s :
  ~ aside dest -> waiting aside s -> wp (sb_mkdirs env p mode) (fun _ => waiting aside) (fun _ => waiting aside) s.
Proof.
  intros Ha. unfold sb_mkdirs. destruct (cstr p) as [|c rest]; [intros W; by apply wp_ret|]. generalize [c] as done. revert s.
  induction rest as [|y rest IH]; intros s done W; cbn [mkdirs_loop]; [by apply wp_mkdir|]. case_if; [|by apply IH].
  apply wp_bind. eapply wp_mono; [by apply wp_mkdir| |auto]. intros [e|] s' W'; [by apply wp_ret|by apply IH].
Qed.

Section Temporary.
Context (tmp : bytes) (mode : Z).
Hypothesis tmp_other : tmp <> dest.

Abbreviation aside := (fun p => p = tmp).

(** The temporary file while it is written. *)
Definition filling (written : bytes) (synced : bool) (s : state) : Prop :=
  waiting aside s /\ sy_files (mem s) !! tmp = Some (Regular (mk_file written mode synced)).

Lemma filling_asked w b s n : filling w b s -> filling w b (mk_conn (db s) (mem s) n).
Proof. intros [W F]. split; [by apply waiting_asked|done]. Qed.

Lemma filling_on_file w b s n (f : file -> file) w' b' :
  filling w b s -> f (mk_file w mode b) = mk_file w' mode b' -> filling w' b' (mk_conn (db s) (on_file tmp f (mem s)) n).
Proof.
  intros [W F] E. unfold on_file. rewrite F, E. split.
  - apply waiting_step; [intros H; by apply tmp_other|done| |].
    + intros p Hp. apply file_at_insert. intros ->. by apply Hp.
    + intros e He. by rewrite lookup_insert_ne.
  - cbn [mem sy_files files_to]. by rewrite lookup_insert_eq.
Qed.

Lemma wp_write_loop fuel data w s :
  (length data <= fuel)%nat -> filling w false s ->
  wp (write_loop env fuel tmp data) (fun _ => filling (w ++ data) false) (fun _ => waiting aside) s.
Proof.
  revert data w s. induction fuel as [|fuel IH]; intros [|c data] w s L F; cbn [write_loop length] in *; try lia;
    try (apply wp_ret; by rewrite app_nil_r).
  unfold sys_write. apply wp_bind, wp_sys_call; [intros e; apply wp_pure, waiting_asked; by destruct F|]. cbv zeta.
  remember (Nat.min _ _) as count eqn:C. assert (Hc : (count <= S (length data))%nat) by (subst count; cbn [length]; lia).
  destruct count as [|k]; [apply wp_pure|].
  - pose proof (filling_on_file w false s (S (asked s)) (fun x => mk_file (f_data x ++ take 0 (c :: data)) (f_mode x) false) _ _ F eq_refl) as F'. by destruct F'.
  - assert (E : w ++ c :: data = (w ++ take (S k) (c :: data)) ++ drop (S k) (c :: data)) by (by rewrite <- app_assoc, take_drop).
    rewrite E. apply IH; [rewrite length_drop; cbn [length]; lia|]. by eapply filling_on_file.
Qed.

Lemma wp_write_all s :
  filling [] false s -> wp (write_all env tmp contents) (fun _ => filling contents true) (fun _ => waiting aside) s.
Proof.
  intros F. apply wp_bind. eapply wp_mono; [by apply wp_write_loop|cbn beta|done]. intros _ s' F'. apply wp_system_fail, wp_sys_call.
  - intros e err. apply waiting_asked. by destruct F'.
  - by eapply filling_on_file.
Qed.

(** After the rename the destination is the new file. *)
Definition renamed (s : state) : Prop :=
  (forall m, x <> Some (Directory m)) /\ db s = db s0 /\ covered (mem s) /\ sy_files (mem s) !! dest = Some (Regular (mk_file contents mode true)) /\
  forall p, p <> tmp -> p <> dest -> file_at (sy_files (mem s)) p = file_at (sy_files (mem s0)) p.

Context (validator : option (bytes -> sys unit)).
Hypothesis validator_reads :
  forall v p s, validator = Some v -> db (snd (v p s)) = db s /\ mem (snd (v p s)) = mem s.

Lemma filling_same w b s s' : db s' = db s -> mem s' = mem s -> filling w b s -> filling w b s'.
Proof. intros D M. destruct s as [d m n], s' as [d' m' n']. cbn in D, M. subst. apply filling_asked. Qed.

Lemma wp_validator s : filling contents true s ->
  wp (match validator with Some v => v tmp | None => mret tt end) (fun _ => filling contents true) (fun _ => waiting aside) s.
Proof.
  intros F. destruct validator as [v|] eqn:V; [|by apply wp_ret]. unfold wp. destruct (validator_reads v tmp s eq_refl) as [D M].
  destruct (v tmp s) as [[a|e] s']; cbn [snd] in *; pose proof (filling_same _ _ _ s' D M F); [done|]. by destruct H.
Qed.

Lemma wp_rename s : filling contents true s ->
  wp (system_fail env "replace config" (sys_rename env tmp dest))
     (fun _ s' => renamed s' /\ file_at (sy_files (mem s')) tmp = None) (fun _ => waiting aside) s.
Proof.
  intros [W F]. apply wp_system_fail, wp_sys_call; [intros e err; by apply waiting_asked|]. rewrite F.
  assert (Fresh : (forall m, sy_files (mem s) !! dest <> Some (Directory m)) -> forall n, renamed (mk_conn (db s) (files_to (<[dest:=Regular (mk_file contents mode true)]> (delete tmp (sy_files (mem s)))) (sy_disk (mem s)) (mem s)) n) /\
     file_at (sy_files (files_to (<[dest:=Regular (mk_file contents mode true)]> (delete tmp (sy_files (mem s)))) (sy_disk (mem s)) (mem s))) tmp = None).
  { intros Nd n. assert (Ha : ~ aside dest) by (intros H; by apply tmp_other). destruct (waiting_covered aside s Ha W) as (l & Hl & Al). destruct W as [W1 W2 W3 W4 _].
    unfold renamed. cbn [db mem sy_files sy_disk sy_past files_to]. split_and!; [intros m E; by apply (Nd m), W4|done| |by rewrite lookup_insert_eq| |].
    - exists (current (mem s) :: l). cbn [sy_past files_to]. rewrite Hl. split; [done|]. constructor; [|done]. intros c [H|H].
      + right. unfold file_at in H. cbn [fst current sy_files files_to] in H. rewrite lookup_insert_eq in H. cbn in H. by destruct H as [H|[? _]].
      + left. apply settled0. right. cbn [snd current sy_disk files_to] in *. by rewrite W3 in H.
    - intros p H1 H2. rewrite file_at_insert by done. unfold file_at. rewrite lookup_delete_ne by done. by apply W2.
    - unfold file_at. rewrite lookup_insert_ne by done. by rewrite lookup_delete_eq. }
  destruct (sy_files (mem s) !! dest) as [[f|m]|]; [by apply Fresh|intros err; by apply waiting_asked|by apply Fresh].
Qed.

Lemma wp_fill s : filling [] false s ->
  wp (fill_and_rename env validator tmp dest contents) (fun _ s' => renamed s' /\ file_at (sy_files (mem s')) tmp = None)
     (fun _ => waiting aside) s.
Proof.
  intros F. apply wp_bind. eapply wp_mono; [by apply wp_write_all|cbn beta|done]. intros _ s1 F1.
  apply wp_bind, wp_system_fail, wp_sys_call; [intros e err; apply waiting_asked; by destruct F1|]. apply wp_bind.
  eapply wp_mono; [apply wp_validator, filling_asked, F1|cbn beta|done]. intros _ s2 F2. by apply wp_rename.
Qed.

Lemma wp_cleanup s : filling [] false s ->
  wp (cleanup env tmp (fill_and_rename env validator tmp dest contents)) (fun _ s' => renamed s' /\ file_at (sy_files (mem s')) tmp = None)
     (fun _ => waiting aside) s.
Proof.
  intros F. apply wp_bind, wp_attempt. eapply wp_mono; [by apply wp_fill| |]; cbn beta; [intros [] s' R; by apply wp_ret|].
  intros e s' W. apply wp_bind, wp_sys_call; [intros e'; apply wp_pure; by apply waiting_asked|].
  destruct (sy_files (mem s') !! tmp) eqn:L; apply wp_pure; [|by apply waiting_asked].
  apply waiting_step; [intros H; by apply tmp_other|done| |].
  - intros p Hp. unfold file_at. rewrite lookup_delete_ne; [done|]. intros ->. by apply Hp.
  - intros e' He. by rewrite lookup_delete_ne.
Qed.
End Temporary.
End Replace.

Section Whole.
Context {T K : Type} (env : sys_env K).

(** A check of the new file that changes nothing. *)
Definition only_reads (validator : option (bytes -> sql T (system K) unit)) : Prop :=
  forall v p s, validator = Some v -> db (snd (v p s)) = db s /\ mem (snd (v p s)) = mem s.

(** The permissions of the new file. *)
Definition kept_mode (m : system K) (dest : bytes) : Z :=
  Z.land (match sy_files m !! dest with Some e => Z.land (entry_mode e) 511 | None => 384 end) (Z.lnot (umask env)).

Lemma temporary_longer dest random : dest ++ bs ".tmp." ++ sb_hex_encode random <> dest.
Proof. intros H. apply (f_equal length) in H. rewrite !length_app in H. cbn in H. lia. Qed.

Context (dest contents : bytes) (old : option bytes) (s0 : conn T (system K)).
Hypothesis settled0 : settled (mem s0) dest old.

(** After the directory was synced, the new file is what a power loss leaves. *)
Lemma wp_fsync_directory x mode tmp s :
  renamed dest contents old s0 x tmp mode s ->
  wp (fsync_directory env (parent_dir dest))
     (fun _ s' => renamed dest contents old s0 x tmp mode s' /\ sy_files (mem s') = sy_files (mem s) /\ settled (mem s') dest (Some contents))
     (fun _ s' => renamed dest contents old s0 x tmp mode s') s.
Proof.
  intros R. apply wp_bind, wp_system_fail, wp_sys_call; [done|]. destruct R as (X & D & (l & Hl & Al) & F & O).
  set (m' := files_to (sy_files (mem s)) (synced_dir (parent_dir dest) (sy_files (mem s)) (sy_disk (mem s))) (mem s)).
  assert (S : settled m' dest (Some contents)).
  { assert (G : file_at (synced_dir (parent_dir dest) (sy_files (mem s)) (sy_disk (mem s))) dest = Some (mk_file contents mode true)).
    { unfold file_at, synced_dir. by erewrite lookup_union_Some_l by (by apply map_lookup_filter_Some_2). }
    intros c [H|H]; cbn [fst snd current m' sy_files sy_disk files_to] in H.
    - unfold file_at in H. rewrite F in H. cbn in H. by destruct H as [H|[? _]].
    - rewrite G in H. cbn in H. by destruct H as [H|[? _]]. }
  assert (R' : forall n, renamed dest contents old s0 x tmp mode (mk_conn (db s) m' n)).
  { intros n. split_and!; [done|done| |done|done]. exists (current (mem s) :: l). cbn [sy_past m' files_to mem]. rewrite Hl. split; [done|].
    constructor; [|done]. intros c H. right. by apply S. }
  apply wp_bind, wp_system_fail, wp_sys_call; cbn [mem db asked].
  - intros e err. split_and!; [done|done|by exists l|done|done].
  - apply wp_system_fail, wp_sys_call; [intros e err; apply R'|]. split_and!; try done; by apply R'.
Qed.

Context (validator : option (bytes -> sql T (system K) unit)).
Hypothesis validator_reads : only_reads validator.

(** Where the call stands when it ends: before the rename or after it. *)
Definition ended (s : conn T (system K)) : Prop := db s = db s0 /\ covered dest contents old s0 (mem s).

Definition replaced (_ : unit) (s : conn T (system K)) : Prop :=
  ended s /\ settled (mem s) dest (Some contents) /\
  sy_files (mem s) !! dest = Some (Regular (mk_file contents (kept_mode (mem s0) dest) true)) /\
  forall p, p <> dest -> file_at (sy_files (mem s)) p = file_at (sy_files (mem s0)) p.

Lemma wp_replace : cstr dest = dest -> wp (sb_atomic_replace_file env dest contents validator) replaced (fun _ => ended) s0.
Proof.
  intros Hd. unfold sb_atomic_replace_file. rewrite Hd. cbv zeta. set (none := fun _ : bytes => False). set (x0 := sy_files (mem s0) !! dest).
  assert (W0 : waiting dest contents old s0 x0 none s0) by (split; try done; by exists []).
  assert (End : forall x aside s, ~ aside dest -> waiting dest contents old s0 x aside s -> ended s).
  { intros x aside s Ha W. split; [by destruct W|by eapply waiting_covered]. }
  assert (Nn : forall p, ~ none p) by (intros p H; exact H). assert (E0 : forall s, waiting dest contents old s0 x0 none s -> ended s) by (intros s; by apply End).
  destruct (bytes_eqb dest [] || _); [apply wp_pure; by apply E0|].
  apply wp_bind, wp_system_fail. eapply wp_mono; [by apply (wp_mkdirs env dest contents old s0 x0 settled0 none)|cbn beta|intros ? s1; exact (E0 s1)].
  intros [e|] s1 W1; [intros ?; by apply E0|]. apply wp_bind. unfold destination_mode, sys_stat. apply wp_bind, wp_on_memory. cbn [fst snd].
  set (x1 := sy_files (mem s1) !! dest).
  assert (W2 : forall n, waiting dest contents old s0 x1 none (mk_conn (db s1) (mem s1) n)) by (intros n; destruct W1; by split).
  assert (E1 : forall n, ended (mk_conn (db s1) (mem s1) n)) by (intros n; by apply (End x1 none)).
  assert (Stat : forall mode, mode = match x1 with Some e => Z.land (entry_mode e) 511 | None => 384 end ->
    wp (temporary ← temporary_path_for env dest; _ ← system_fail env "create temporary config" (sys_create env temporary mode);
        _ ← cleanup env temporary (fill_and_rename env validator temporary dest contents); fsync_directory env (parent_dir dest))
       replaced (fun _ => ended) (mk_conn (db s1) (mem s1) (S (asked s1)))).
  { intros mode Hm. apply wp_bind. unfold temporary_path_for. apply wp_bind, wp_ask. destruct (sys_random env _ 8) as [random|]; [apply wp_ret|apply wp_pure; apply E1].
    pose proof (temporary_longer dest random) as Ht. set (tmp := dest ++ _) in *. apply wp_bind, wp_system_fail, wp_sys_call; [intros e err; apply E1|].
    cbn [mem db asked]. destruct (sy_files (mem s1) !! tmp) eqn:Nt; [intros err; apply E1|].
    assert (F : forall n, filling dest contents old s0 x1 tmp (masked env mode) [] false
              (mk_conn (db s1) (files_to (<[tmp:=Regular (mk_file [] (masked env mode) false)]> (sy_files (mem s1))) (sy_disk (mem s1)) (mem s1)) n)).
    { intros n. split; [|cbn; by rewrite lookup_insert_eq]. apply (waiting_step dest contents old s0 x1 settled0 _ (mk_conn (db s1) (mem s1) n)).
      - intros H. by apply Ht.
      - destruct (W2 n). split; try done. intros p _. by apply wait_files0.
      - intros p Hp. apply file_at_insert. intros ->. by apply Hp.
      - intros e He. by rewrite lookup_insert_ne. }
    apply wp_bind. eapply wp_mono; [by eapply (wp_cleanup env dest contents old s0 x1 settled0 tmp (masked env mode) Ht validator validator_reads)| |].
    - intros ? s3 [R Gone]. eapply wp_mono; [by eapply wp_fsync_directory| |intros ? s4 (_ & D & C & _); by split].
      intros ? s4 (R' & Same & Set'). destruct R' as (Nd & D & C & L & O). unfold replaced, ended; split_and!; [exact D|exact C|exact Set'| |].
      + rewrite L. do 3 f_equal. unfold masked, kept_mode. fold x0. f_equal. rewrite Hm. destruct x0 as [e|] eqn:X0.
        * by rewrite (wait_dest _ _ _ _ _ _ _ W1 e eq_refl : x1 = Some e).
        * destruct x1 as [[f|m]|] eqn:X1; [|by destruct (Nd m)|done]. exfalso.
          pose proof (wait_files _ _ _ _ _ _ _ W1 dest (Nn dest)) as E. unfold file_at in E. fold x1 x0 in E. by rewrite X1, X0 in E.
      + intros p Hp. destruct (decide (p = tmp)) as [->|Np]; [|by apply O]. rewrite Same, Gone. symmetry.
        rewrite <- (wait_files _ _ _ _ _ _ _ W1 tmp (Nn tmp)). unfold file_at. by rewrite Nt.
    - intros e s3 W3. apply (End _ _ _ (fun H => Ht (eq_sym H)) W3). }
  destruct (sys_errno env (asked s1)) as [[]|] eqn:Er; fold x1; try (apply wp_pure; apply E1);
    (destruct x1 as [e|] eqn:X1; apply wp_ret, Stat; reflexivity).
Qed.
End Whole.

(** C28: replacing a file survives a power loss at any moment.  Whatever fails, in
    every state from the beginning to the end of the call a power loss leaves the
    destination with its old contents or with all of the new ones, never with a part;
    after a success it leaves the new ones, the file keeps its permissions (0600 for
    a new one, less the umask), and no other file has changed. *)
Theorem replace_survives_crash {T K} (env : sys_env K) (validator : option (bytes -> sql T (system K) unit)) dest contents old s :
  only_reads validator -> no_nul dest = true -> settled (mem s) dest old ->
  let (r, s') := sb_atomic_replace_file env dest contents validator s in
  db s' = db s /\
  (exists since, sy_past (mem s') = since ++ sy_past (mem s) /\
     forall st c, st ∈ current (mem s') :: since -> crash_may st dest c -> c = old \/ c = Some contents) /\
  (r = Ok tt ->
     settled (mem s') dest (Some contents) /\
     sy_files (mem s') !! dest = Some (Regular (mk_file contents (kept_mode env (mem s) dest) true)) /\
     forall p, p <> dest -> file_at (sy_files (mem s')) p = file_at (sy_files (mem s)) p).
Proof.
  intros V N S. apply cstr_no_nul in N. pose proof (wp_replace env dest contents old s S validator V N) as W. unfold wp in W.
  assert (A : forall m, covered dest contents old s m -> exists since, sy_past m = since ++ sy_past (mem s) /\
     forall st c, st ∈ current m :: since -> crash_may st dest c -> c = old \/ c = Some contents).
  { intros m (l & Hl & Al). exists l. split; [done|]. intros st c Hst. rewrite Forall_forall in Al. by apply Al. }
  destruct (sb_atomic_replace_file env dest contents validator s) as [[[]|e] s'].
  - destruct W as ([D C] & R). split; [done|]. split; [by apply A|done].
  - destruct W as [D C]. split; [done|]. split; [by apply A|done].
Qed.

(** Three bytes are taken by every [write]. *)
Definition demo_sys : sys_env unit :=
  mk_sys_env unit (fun _ => None) (fun _ => 3%nat) (fun _ => bs "error") 18 (fun n k => Some (take k (bs "abcdefghijklmnop")))
    (fun _ _ k => (Finished (Some 0) [], k)).
Definition demo_conf : bytes := bs "/etc/wireguard/wg0.conf".
Definition demo_tree : tree := {[ demo_conf := Regular (mk_file (bs "old") 384 true) ]}.
Definition demo_machine : conn unit (system unit) := mk_conn tt (mk_system demo_tree demo_tree [] tt) 0.

Lemma replace_survives_crash_witness :
  exists s', sb_atomic_replace_file demo_sys demo_conf (bs "new text") None demo_machine = (Ok tt, s') /\
             settled (mem s') demo_conf (Some (bs "new text")) /\ length (sy_past (mem s')) = 9%nat.
Proof.
  assert (S0 : settled (mem demo_machine) demo_conf (Some (bs "old"))).
  { intros c [H|H]; cbn in H; destruct H as [H|[H _]]; try exact H; discriminate H. }
  pose proof (replace_survives_crash demo_sys None demo_conf (bs "new text") (Some (bs "old")) demo_machine
    ltac:(intros v p s H; discriminate H) ltac:(reflexivity) S0) as W.
  assert (F : match sb_atomic_replace_file demo_sys demo_conf (bs "new text") None demo_machine with
              | (Ok tt, s') => length (sy_past (mem s')) | _ => 0%nat end = 9%nat) by (vm_compute; reflexivity).
  destruct (sb_atomic_replace_file demo_sys demo_conf (bs "new text") None demo_machine) as [[[]|e] s']; [|discriminate F].
  exists s'. split; [reflexivity|]. split; [apply W; reflexivity|exact F].
Defined.
