(* ===== verification/StoreTables.v ===== *)
(** * The repository: rows, records and their JSON forms ([c/src/store.c])

    The tables of the migrations that [store.c] works on, the records its functions
    take and return, the readers between the two, and the helpers all its
    operations share.  A nullable column is an option; a column that holds 0 or 1 is
    a bool.  A [char *] with its length is a list of bytes; one without is bound
    as a C string ([cstr]).  Rows are kept in the order of their insertion. *)

From Stdlib Require Import SpecFloat.
From S2P Require Import Prelude Util Json JsonText Types Sqlite Auth Tailscale.

(** ** Tables *)

(** [users]; [sb_user_account] has the same members. *)
Record sb_user_account := mk_user {
  us_id : bytes; us_username : bytes; us_password : bytes; us_role : bytes; us_created : bytes }.

(** [audit_log]; [sb_audit_entry]. *)
Record sb_audit_entry := mk_audit {
  au_id : Z; au_ts : bytes; au_actor : bytes; au_action : bytes; au_target : option bytes }.

(** [app_settings]. *)
Record setting_row := mk_setting { st_key : bytes; st_value : bytes; st_updated : bytes }.

(** [wireguard_peers]; [sb_wireguard_peer]. *)
Record sb_wireguard_peer := mk_peer {
  wp_id : bytes; wp_name : bytes; wp_private : bytes; wp_public : bytes; wp_preshared : option bytes; wp_address : bytes;
  wp_dns : bytes; wp_enabled : bool; wp_keepalive : Z; wp_allowed : bytes; wp_expire : option bytes; wp_quota : Z;
  wp_created : bytes; wp_updated : bytes; wp_notes : option bytes; wp_host : option bytes }.

(** [one_time_links]. *)
Record link_row := mk_link { lk_id : bytes; lk_peer : bytes; lk_expires : bytes; lk_used : bool; lk_created : bytes }.

(** [proxy_nodes]. *)
Record node_row := mk_node_row {
  nr_id : bytes; nr_tag : bytes; nr_type : bytes; nr_enabled : bool; nr_server : bytes; nr_port : Z; nr_config : bytes;
  nr_sub : option bytes; nr_fingerprint : bytes; nr_latency : option double; nr_latency_test : option bytes;
  nr_created : bytes; nr_updated : bytes; nr_source : option bytes }.

(** [subscriptions]. *)
Record sub_row := mk_sub_row {
  sr_id : bytes; sr_name : bytes; sr_url : bytes; sr_enabled : bool; sr_interval : Z; sr_fetched : option bytes;
  sr_result : option bytes; sr_created : bytes; sr_updated : bytes; sr_usage : bytes; sr_attempt : option bytes;
  sr_error : option bytes; sr_next : Z; sr_failures : Z }.

(** [config_profiles]. *)
Record profile_row := mk_profile_row {
  pr_id : bytes; pr_name : bytes; pr_template : bytes; pr_mode : bytes; pr_script : bytes; pr_script_on : bool;
  pr_created : bytes; pr_updated : bytes }.

(** [hosts]. *)
Record host_row := mk_host_row {
  hr_id : bytes; hr_name : bytes; hr_token : bytes; hr_capabilities : bytes; hr_profile : option bytes;
  hr_wg_address : option bytes; hr_wg_public : option bytes; hr_wg_endpoint : option bytes; hr_clash_api : option bytes;
  hr_clash_secret : bytes; hr_seen : option bytes; hr_state : option bytes; hr_enabled : bool; hr_created : bytes;
  hr_updated : bytes; hr_tailscale : bytes }.

(** [host_commands]; [sb_host_command]. *)
Record sb_host_command := mk_command {
  cm_id : bytes; cm_host : bytes; cm_command : bytes; cm_status : bytes; cm_result : option bytes; cm_created : bytes;
  cm_acked : option bytes }.

(** [agent_enrollments]. *)
Record enrollment_row := mk_enrollment_row {
  en_id : bytes; en_host : bytes; en_hash : bytes; en_expires : bytes; en_redeemed : option bytes }.

(** [diagnostic_reports]. *)
Record diag_row := mk_diag {
  dg_id : bytes; dg_host : bytes; dg_reason : bytes; dg_app : bytes; dg_core : bytes; dg_payload : bytes; dg_created : bytes }.

(** [packet_captures]. *)
Record capture_row := mk_capture { cp_host : bytes; cp_digest : bytes; cp_payload : bytes; cp_created : bytes }.

(** [wireguard_imports]. *)
Record import_row := mk_import {
  im_id : bytes; im_created : bytes; im_status : bytes; im_before : bytes; im_after : bytes; im_ids : bytes }.

(** [outbounds] is [host_outbounds]: pairs of a host and a node. *)
Record store_tables := mk_store {
  users : list sb_user_account; audit : list sb_audit_entry; settings : list setting_row; peers : list sb_wireguard_peer;
  links : list link_row; nodes : list node_row; subs : list sub_row; profiles : list profile_row; hosts : list host_row;
  outbounds : list (bytes * bytes); commands : list sb_host_command; enrollments : list enrollment_row;
  diags : list diag_row; captures : list capture_row; imports : list import_row }.

Definition with_users t x := mk_store x (audit t) (settings t) (peers t) (links t) (nodes t) (subs t) (profiles t) (hosts t) (outbounds t) (commands t) (enrollments t) (diags t) (captures t) (imports t).
Definition with_audit t x := mk_store (users t) x (settings t) (peers t) (links t) (nodes t) (subs t) (profiles t) (hosts t) (outbounds t) (commands t) (enrollments t) (diags t) (captures t) (imports t).
Definition with_settings t x := mk_store (users t) (audit t) x (peers t) (links t) (nodes t) (subs t) (profiles t) (hosts t) (outbounds t) (commands t) (enrollments t) (diags t) (captures t) (imports t).
Definition with_peers t x := mk_store (users t) (audit t) (settings t) x (links t) (nodes t) (subs t) (profiles t) (hosts t) (outbounds t) (commands t) (enrollments t) (diags t) (captures t) (imports t).
Definition with_links t x := mk_store (users t) (audit t) (settings t) (peers t) x (nodes t) (subs t) (profiles t) (hosts t) (outbounds t) (commands t) (enrollments t) (diags t) (captures t) (imports t).
Definition with_nodes t x := mk_store (users t) (audit t) (settings t) (peers t) (links t) x (subs t) (profiles t) (hosts t) (outbounds t) (commands t) (enrollments t) (diags t) (captures t) (imports t).
Definition with_subs t x := mk_store (users t) (audit t) (settings t) (peers t) (links t) (nodes t) x (profiles t) (hosts t) (outbounds t) (commands t) (enrollments t) (diags t) (captures t) (imports t).
Definition with_profiles t x := mk_store (users t) (audit t) (settings t) (peers t) (links t) (nodes t) (subs t) x (hosts t) (outbounds t) (commands t) (enrollments t) (diags t) (captures t) (imports t).
Definition with_hosts t x := mk_store (users t) (audit t) (settings t) (peers t) (links t) (nodes t) (subs t) (profiles t) x (outbounds t) (commands t) (enrollments t) (diags t) (captures t) (imports t).
Definition with_outbounds t x := mk_store (users t) (audit t) (settings t) (peers t) (links t) (nodes t) (subs t) (profiles t) (hosts t) x (commands t) (enrollments t) (diags t) (captures t) (imports t).
Definition with_commands t x := mk_store (users t) (audit t) (settings t) (peers t) (links t) (nodes t) (subs t) (profiles t) (hosts t) (outbounds t) x (enrollments t) (diags t) (captures t) (imports t).
Definition with_enrollments t x := mk_store (users t) (audit t) (settings t) (peers t) (links t) (nodes t) (subs t) (profiles t) (hosts t) (outbounds t) (commands t) x (diags t) (captures t) (imports t).
Definition with_diags t x := mk_store (users t) (audit t) (settings t) (peers t) (links t) (nodes t) (subs t) (profiles t) (hosts t) (outbounds t) (commands t) (enrollments t) x (captures t) (imports t).
Definition with_captures t x := mk_store (users t) (audit t) (settings t) (peers t) (links t) (nodes t) (subs t) (profiles t) (hosts t) (outbounds t) (commands t) (enrollments t) (diags t) x (imports t).
Definition with_imports t x := mk_store (users t) (audit t) (settings t) (peers t) (links t) (nodes t) (subs t) (profiles t) (hosts t) (outbounds t) (commands t) (enrollments t) (diags t) (captures t) x.

(** What comes from outside.  [now] is the reading of the clock that SQLite uses in
    a statement, [datetime] its function [datetime(t, 'unixepoch')], [now_millis]
    the text of [strftime] with milliseconds. *)
Record store_env := mk_store_env {
  fault : nat -> option bytes;
  now : nat -> Z;
  datetime : Z -> bytes;
  now_millis : nat -> bytes;
  uuid_random : nat -> list Z;
  salt : nat -> option bytes;
  argon2id : bytes -> bytes -> bytes + bytes;
  sha256 : bytes -> bytes;
  pton4 : bytes -> bool;
  pton6 : bytes -> bool;
  curl_url : bytes -> option url_parts }.

Abbreviation store := (sql store_tables unit).

Definition refuse {A} (c : sb_code) (message : string) : store A := pure (sb_fail c (bs message)).

(** ** Records *)

Record sb_config_profile := mk_profile {
  cf_id : bytes; cf_name : bytes; cf_profile : option sbj; cf_mode : sb_profile_mode; cf_script : bytes;
  cf_script_on : bool; cf_created : bytes; cf_updated : bytes }.

Record sb_host := mk_host {
  ho_id : bytes; ho_name : bytes; ho_token : bytes; ho_capabilities : option sbj; ho_tailscale : option sbj;
  ho_profile : option bytes; ho_wg_address : option bytes; ho_wg_public : option bytes; ho_wg_endpoint : option bytes;
  ho_clash_api : option bytes; ho_clash_secret : option bytes; ho_seen : option bytes; ho_state : option bytes;
  ho_enabled : bool; ho_created : bytes; ho_updated : bytes; ho_assigned : Z }.

Record sb_proxy_record := mk_record {
  rc_id : bytes; rc_tag : bytes; rc_type : bytes; rc_enabled : bool; rc_server : bytes; rc_port : Z; rc_config : option sbj;
  rc_sub : option bytes; rc_source : option bytes; rc_fingerprint : bytes; rc_latency : option double;
  rc_latency_test : option bytes; rc_created : bytes; rc_updated : bytes }.

Record sb_subscription := mk_subscription {
  sb_id : bytes; sb_name : bytes; sb_url : bytes; sb_enabled : bool; sb_interval : Z; sb_fetched : option bytes;
  sb_result : option bytes; sb_usage : option sbj; sb_attempt : option bytes; sb_error : option bytes; sb_next : Z;
  sb_failures : Z; sb_created : bytes; sb_updated : bytes }.

Record sb_agent_enrollment := mk_enrollment { ae_id : bytes; ae_host : bytes; ae_code : bytes; ae_expires : bytes }.

Record sb_agent_enrollment_result := mk_enrolled {
  er_host : bytes; er_host_name : bytes; er_token : bytes; er_profile : bytes; er_profile_name : bytes }.

Record sb_proxy_upsert_result := mk_upsert { up_added : Z; up_updated : Z; up_errors : list bytes }.

Record sb_subscription_fetch_result := mk_fetch {
  fe_added : Z; fe_updated : Z; fe_skipped : Z; fe_found : Z; fe_usage : option sbj; fe_errors : list bytes }.

Definition sb_wireguard_peer_init : sb_wireguard_peer :=
  mk_peer [] [] [] [] None [] (bs "10.59.32.1") true 25 (bs "0.0.0.0/0, ::/0") None 0 [] [] None None.
Definition sb_config_profile_init : sb_config_profile := mk_profile [] [] (Some (SBJ_OBJECT [])) SB_PROFILE_MANAGED [] false [] [].
Definition sb_host_init : sb_host :=
  mk_host [] [] [] (Some (SBJ_OBJECT [])) (Some (SBJ_OBJECT [])) None None None None None (Some []) None None true [] [] 0.
Definition sb_proxy_record_init : sb_proxy_record := mk_record [] [] [] true [] 0 (Some (SBJ_OBJECT [])) None None [] None None [] [].
Definition sb_subscription_init : sb_subscription :=
  mk_subscription [] [] [] true 3600 None None (Some (SBJ_OBJECT [])) None None 0 0 [] [].

Definition clone_or_empty (v : option sbj) : sbj := match v with Some v => sbj_clone v | None => SBJ_OBJECT [] end.

Definition sb_config_profile_copy (p : sb_config_profile) : sb_config_profile :=
  mk_profile (cf_id p) (cf_name p) (Some (clone_or_empty (cf_profile p))) (cf_mode p) (cf_script p) (cf_script_on p)
    (cf_created p) (cf_updated p).
Definition sb_host_copy (h : sb_host) : sb_host :=
  mk_host (ho_id h) (ho_name h) (ho_token h) (Some (clone_or_empty (ho_capabilities h)))
    (Some (clone_or_empty (ho_tailscale h))) (ho_profile h) (ho_wg_address h) (ho_wg_public h) (ho_wg_endpoint h)
    (ho_clash_api h) (Some (default [] (ho_clash_secret h))) (ho_seen h) (ho_state h) (ho_enabled h) (ho_created h)
    (ho_updated h) (ho_assigned h).
Definition sb_proxy_record_copy (r : sb_proxy_record) : sb_proxy_record :=
  mk_record (rc_id r) (rc_tag r) (rc_type r) (rc_enabled r) (rc_server r) (rc_port r) (Some (clone_or_empty (rc_config r)))
    (rc_sub r) (rc_source r) (rc_fingerprint r) (rc_latency r) (rc_latency_test r) (rc_created r) (rc_updated r).
Definition sb_subscription_copy (s : sb_subscription) : sb_subscription :=
  mk_subscription (sb_id s) (sb_name s) (sb_url s) (sb_enabled s) (sb_interval s) (sb_fetched s) (sb_result s)
    (Some (clone_or_empty (sb_usage s))) (sb_attempt s) (sb_error s) (sb_next s) (sb_failures s) (sb_created s) (sb_updated s).

(** ** JSON forms *)

Definition opt_str (value : option bytes) : sbj := sbj_str value.
(** [value ? sbj_strn(value, len) : sbj_null()]. *)
Definition opt_strn (value : option bytes) : sbj := match value with Some s => SBJ_STRING s | None => SBJ_NULL end.

Definition sb_user_account_to_json (u : sb_user_account) : sbj :=
  let v := SBJ_OBJECT [] in
  let v := sbj_set_str v "id" (us_id u) in
  let v := sbj_set v "username" (SBJ_STRING (us_username u)) in
  let v := sbj_set_str v "role" (us_role u) in
  sbj_set_str v "created_at" (us_created u).

Definition sb_audit_entry_to_json (e : sb_audit_entry) : sbj :=
  let v := SBJ_OBJECT [] in
  let v := sbj_set_int v "id" (au_id e) in
  let v := sbj_set_str v "ts" (au_ts e) in
  let v := sbj_set v "actor" (SBJ_STRING (au_actor e)) in
  let v := sbj_set_str v "action" (au_action e) in
  sbj_set v "target" (opt_str (au_target e)).

Definition sb_wireguard_peer_to_json (p : sb_wireguard_peer) : sbj :=
  let v := SBJ_OBJECT [] in
  let v := sbj_set_str v "id" (wp_id p) in
  let v := sbj_set v "name" (SBJ_STRING (wp_name p)) in
  let v := sbj_set_str v "private_key" (wp_private p) in
  let v := sbj_set_str v "public_key" (wp_public p) in
  let v := sbj_set v "preshared_key" (opt_str (wp_preshared p)) in
  let v := sbj_set_str v "address" (wp_address p) in
  let v := sbj_set_str v "dns" (wp_dns p) in
  let v := sbj_set_bool v "enabled" (wp_enabled p) in
  let v := sbj_set_int v "persistent_keepalive" (wp_keepalive p) in
  let v := sbj_set_str v "allowed_ips" (wp_allowed p) in
  let v := sbj_set v "expire_at" (opt_str (wp_expire p)) in
  let v := sbj_set_int v "quota_bytes" (wp_quota p) in
  let v := sbj_set_str v "created_at" (wp_created p) in
  let v := sbj_set_str v "updated_at" (wp_updated p) in
  let v := sbj_set v "notes" (opt_strn (wp_notes p)) in
  sbj_set v "host_id" (opt_str (wp_host p)).

Definition sb_config_profile_to_json (p : sb_config_profile) : sbj :=
  let v := SBJ_OBJECT [] in
  let v := sbj_set_str v "id" (cf_id p) in
  let v := sbj_set v "name" (SBJ_STRING (cf_name p)) in
  let v := sbj_set v "template" (SBJ_STRING (cstr (sbj_dump (cf_profile p) (-1)))) in
  let v := sbj_set_str v "mode" (sb_profile_mode_name (cf_mode p)) in
  let v := sbj_set v "rule_script" (SBJ_STRING (cf_script p)) in
  let v := sbj_set_bool v "rule_script_enabled" (cf_script_on p) in
  let v := sbj_set_str v "created_at" (cf_created p) in
  sbj_set_str v "updated_at" (cf_updated p).

Definition sb_host_to_json (h : sb_host) : sbj :=
  let v := SBJ_OBJECT [] in
  let v := sbj_set_str v "id" (ho_id h) in
  let v := sbj_set v "name" (SBJ_STRING (ho_name h)) in
  let v := sbj_set v "capabilities" (match ho_capabilities h with Some c => sbj_clone c | None => SBJ_NULL end) in
  let v := sbj_set v "tailscale" (sb_tailscale_public (ho_tailscale h)) in
  let v := sbj_set v "profile_id" (opt_strn (ho_profile h)) in
  let v := sbj_set v "wg_address" (opt_strn (ho_wg_address h)) in
  let v := sbj_set v "wg_public_key" (opt_strn (ho_wg_public h)) in
  let v := sbj_set v "wg_endpoint" (opt_strn (ho_wg_endpoint h)) in
  let v := sbj_set v "clash_api" (opt_strn (ho_clash_api h)) in
  let v := sbj_set v "last_seen" (opt_str (ho_seen h)) in
  let v := sbj_set v "singbox_state" (opt_str (ho_state h)) in
  let v := sbj_set_bool v "enabled" (ho_enabled h) in
  let v := sbj_set_str v "created_at" (ho_created h) in
  let v := sbj_set_str v "updated_at" (ho_updated h) in
  let v := sbj_set v "assigned_outbounds" (sbj_uint (ho_assigned h)) in
  sbj_set_bool v "has_token" (negb (bytes_eqb (cstr (ho_token h)) [])).

Definition sb_host_command_to_json (c : sb_host_command) : sbj :=
  let v := SBJ_OBJECT [] in
  let v := sbj_set_str v "id" (cm_id c) in
  let v := sbj_set_str v "host_id" (cm_host c) in
  let v := sbj_set_str v "command" (cm_command c) in
  let v := sbj_set_str v "status" (cm_status c) in
  let v := sbj_set v "result" (opt_strn (cm_result c)) in
  let v := sbj_set_str v "created_at" (cm_created c) in
  sbj_set v "acked_at" (opt_str (cm_acked c)).

Definition sb_agent_enrollment_to_json (e : sb_agent_enrollment) : sbj :=
  let v := SBJ_OBJECT [] in
  let v := sbj_set_str v "id" (ae_id e) in
  let v := sbj_set_str v "host_id" (ae_host e) in
  let v := sbj_set_str v "code" (ae_code e) in
  sbj_set_str v "expires_at" (ae_expires e).

Definition sb_agent_enrollment_result_to_json (r : sb_agent_enrollment_result) : sbj :=
  let v := SBJ_OBJECT [] in
  let v := sbj_set_str v "host_id" (er_host r) in
  let v := sbj_set v "host_name" (SBJ_STRING (er_host_name r)) in
  let v := sbj_set_str v "agent_token" (er_token r) in
  let v := sbj_set_str v "profile_id" (er_profile r) in
  sbj_set v "profile_name" (SBJ_STRING (er_profile_name r)).

Definition sb_proxy_record_to_json (r : sb_proxy_record) : sbj :=
  let v := SBJ_OBJECT [] in
  let v := sbj_set_str v "id" (rc_id r) in
  let v := sbj_set v "tag" (SBJ_STRING (rc_tag r)) in
  let v := sbj_set v "node_type" (SBJ_STRING (rc_type r)) in
  let v := sbj_set_bool v "enabled" (rc_enabled r) in
  let v := sbj_set v "server" (SBJ_STRING (rc_server r)) in
  let v := sbj_set v "server_port" (sbj_uint (rc_port r)) in
  let v := sbj_set v "protocol_config" (SBJ_STRING (cstr (sbj_dump (rc_config r) (-1)))) in
  let v := sbj_set v "subscription_id" (opt_str (rc_sub r)) in
  let v := sbj_set v "source_tag" (opt_strn (rc_source r)) in
  let v := sbj_set_str v "fingerprint" (rc_fingerprint r) in
  let v := sbj_set v "latency" (match rc_latency r with Some f => SBJ_FLOAT f | None => SBJ_NULL end) in
  let v := sbj_set v "last_latency_test" (opt_str (rc_latency_test r)) in
  let v := sbj_set_str v "created_at" (rc_created r) in
  sbj_set_str v "updated_at" (rc_updated r).

Definition sb_subscription_to_json (s : sb_subscription) : sbj :=
  let v := SBJ_OBJECT [] in
  let v := sbj_set_str v "id" (sb_id s) in
  let v := sbj_set v "name" (SBJ_STRING (sb_name s)) in
  let v := sbj_set v "url" (SBJ_STRING (sb_url s)) in
  let v := sbj_set_bool v "enabled" (sb_enabled s) in
  let v := sbj_set_int v "refresh_interval" (sb_interval s) in
  let v := sbj_set v "last_fetched_at" (opt_str (sb_fetched s)) in
  let v := sbj_set v "last_fetch_result" (opt_str (sb_result s)) in
  let v := sbj_set v "usage" (clone_or_empty (sb_usage s)) in
  let v := sbj_set v "last_attempt_at" (opt_str (sb_attempt s)) in
  let v := sbj_set v "last_error" (opt_str (sb_error s)) in
  let v := sbj_set_int v "next_refresh_at" (sb_next s) in
  let v := sbj_set_int v "failure_count" (sb_failures s) in
  let v := sbj_set_str v "created_at" (sb_created s) in
  sbj_set_str v "updated_at" (sb_updated s).

Definition strvec_to_json (v : list bytes) : sbj :=
  foldl (fun a s => sbj_arr_push a (Some (sbj_str (Some s)))) (SBJ_ARRAY []) v.

Definition sb_proxy_upsert_result_to_json (r : sb_proxy_upsert_result) : sbj :=
  let v := SBJ_OBJECT [] in
  let v := sbj_set v "added" (sbj_uint (up_added r)) in
  let v := sbj_set v "updated" (sbj_uint (up_updated r)) in
  sbj_set v "errors" (strvec_to_json (up_errors r)).

Definition sb_subscription_fetch_result_to_json (r : sb_subscription_fetch_result) : sbj :=
  let v := SBJ_OBJECT [] in
  let v := sbj_set v "added" (sbj_uint (fe_added r)) in
  let v := sbj_set v "updated" (sbj_uint (fe_updated r)) in
  let v := sbj_set v "skipped" (sbj_uint (fe_skipped r)) in
  let v := sbj_set v "found" (sbj_uint (fe_found r)) in
  let v := sbj_set v "usage" (clone_or_empty (fe_usage r)) in
  sbj_set v "errors" (strvec_to_json (fe_errors r)).

(** ** Reading rows *)

Definition parse_profile_mode (value : bytes) : sb_profile_mode :=
  if sb_streq (Some value) (Some (bs "full")) then SB_PROFILE_FULL else SB_PROFILE_MANAGED.

Definition parse_object (text : bytes) (description : string) : result sbj :=
  match sbj_parse (cstr text) with
  | Some (SBJ_OBJECT m) => Ok (SBJ_OBJECT m)
  | _ => sb_fail SB_ERR_GENERIC (bs description ++ bs " must contain a JSON object")
  end.

Definition parse_object_or_empty (text : bytes) : sbj :=
  match sbj_parse (cstr text) with Some (SBJ_OBJECT m) => SBJ_OBJECT m | _ => SBJ_OBJECT [] end.

Definition read_profile (r : profile_row) : result sb_config_profile :=
  profile ← parse_object (pr_template r) "profile template";
  Ok (mk_profile (pr_id r) (pr_name r) (Some profile) (parse_profile_mode (pr_mode r)) (pr_script r) (pr_script_on r)
        (pr_created r) (pr_updated r)).

(** [SELECT COUNT] from [host_outbounds] of the host. *)
Definition assigned_count (t : store_tables) (host : bytes) : Z :=
  Z.of_nat (length (List.filter (fun o => bytes_eqb (fst o) host) (outbounds t))).

Definition read_host (t : store_tables) (r : host_row) : sb_host :=
  mk_host (hr_id r) (hr_name r) (hr_token r) (Some (parse_object_or_empty (hr_capabilities r)))
    (Some (parse_object_or_empty (hr_tailscale r))) (hr_profile r) (hr_wg_address r) (hr_wg_public r) (hr_wg_endpoint r)
    (hr_clash_api r) (Some (hr_clash_secret r)) (hr_seen r) (hr_state r) (hr_enabled r) (hr_created r) (hr_updated r)
    (assigned_count t (hr_id r)).

Definition read_wireguard_peer (p : sb_wireguard_peer) : sb_wireguard_peer :=
  mk_peer (wp_id p) (wp_name p) (wp_private p) (wp_public p) (wp_preshared p) (wp_address p) (wp_dns p) (wp_enabled p)
    (to_i32 (wp_keepalive p)) (wp_allowed p) (wp_expire p) (wp_quota p) (wp_created p) (wp_updated p) (wp_notes p) (wp_host p).

Definition port_error (id : bytes) : bytes := bs "proxy server_port is out of range for node " ++ cstr id.

Definition read_proxy_record (r : node_row) : result sb_proxy_record :=
  if (nr_port r <=? 0) || (65535 <? nr_port r) then sb_fail SB_ERR_GENERIC (port_error (nr_id r))
  else
    config ← parse_object (nr_config r) "proxy protocol_config";
    Ok (mk_record (nr_id r) (nr_tag r) (nr_type r) (nr_enabled r) (nr_server r) (nr_port r) (Some config) (nr_sub r)
          (nr_source r) (nr_fingerprint r) (nr_latency r) (nr_latency_test r) (nr_created r) (nr_updated r)).

Definition read_subscription (r : sub_row) : sb_subscription :=
  mk_subscription (sr_id r) (sr_name r) (sr_url r) (sr_enabled r) (sr_interval r) (sr_fetched r) (sr_result r)
    (Some (parse_object_or_empty (sr_usage r))) (sr_attempt r) (sr_error r) (sr_next r) (sr_failures r) (sr_created r) (sr_updated r).

(** ** Checks and helpers *)

Definition supported_proxy_type (type : bytes) : bool :=
  existsb (sb_strn_eq type)
    ["shadowsocks"; "vmess"; "vless"; "trojan"; "hysteria2"; "tuic"; "http"; "socks"]%string.

Definition is_empty (s : bytes) : bool := match s with [] => true | _ => false end.
(** [sb_str_empty]. *)
Definition sb_str_empty (s : bytes) : bool := is_empty (cstr s).

Definition validate_proxy (tag node_type server : bytes) (port : Z) (config : option sbj) : result unit :=
  if is_empty tag || is_empty server || (port =? 0) || negb (sbj_is_object config)
  then sb_fail SB_ERR_VALIDATION (bs "Proxy tag, server, port, and object protocol_config are required")
  else if negb (supported_proxy_type node_type)
  then sb_fail SB_ERR_VALIDATION (bs "Unsupported proxy type: " ++ cstr node_type)
  else Ok tt.

Definition controller_address (address : option bytes) : bytes :=
  match address with
  | None | Some [] => bs "0.0.0.0:9090"
  | Some a =>
      let rest := if sb_starts_with a (bs "https://") then drop 8 a else if sb_starts_with a (bs "http://") then drop 7 a else a in
      rev ((fix strip (l : bytes) := match l with c :: l' => if code c =? 47 then strip l' else l | [] => [] end) (rev rest))
  end.

(** The JSON accessors that follow nlohmann's. *)
Definition type_error {A} (want : string) (got : sbj) : result A :=
  sb_fail SB_ERR_BAD_JSON (bs "[json.exception.type_error.302] type must be " ++ bs want ++ bs ", but is " ++ sbj_type_name (Some got)).

(** The text with its full length; callers cut it where they use the pointer. *)
Definition jv_str (obj : option sbj) (key : string) (def : bytes) : result bytes :=
  match sbj_get obj key with
  | None => Ok def
  | Some (SBJ_STRING s) => Ok s
  | Some v => type_error "string" v
  end.

Definition jv_bool (obj : option sbj) (key : string) (def : bool) : result bool :=
  match sbj_get obj key with
  | None => Ok def
  | Some (SBJ_BOOL b) => Ok b
  | Some v => type_error "boolean" v
  end.

Definition float_to_int64 (f : double) : Z := if double_isfinite f then double_to_int64 f else INT64_MIN.

Definition jv_int (obj : option sbj) (key : string) (def : Z) : result Z :=
  match sbj_get obj key with
  | None => Ok def
  | Some (SBJ_INT i) => Ok i
  | Some (SBJ_UINT u) => Ok (to_i64 u)
  | Some (SBJ_FLOAT f) => Ok (float_to_int64 f)
  | Some v => type_error "number" v
  end.

Definition jv_opt_str (obj : option sbj) (key : string) : option bytes :=
  match sbj_get obj key with Some (SBJ_STRING s) => Some s | _ => None end.

Definition sbj_as_double (v : option sbj) (fallback : double) : double :=
  match v with
  | Some (SBJ_FLOAT f) => f
  | Some (SBJ_INT i) => double_of_Z i
  | Some (SBJ_UINT u) => double_of_Z u
  | _ => fallback
  end.

(** SQLite stores NaN as NULL. *)
Definition bind_opt_double (f : option double) : option double :=
  match f with Some S754_nan => None | _ => f end.

Definition dump_checked (value : option sbj) : result bytes :=
  _ ← match value with Some v => sbj_validate_utf8 v | None => Ok tt end;
  Ok (cstr (sbj_dump value (-1))).

Section Helpers.
Context (env : store_env).

Definition new_uuid : store bytes := ask (fun n => sb_uuid_v4 (uuid_random env n)).

Definition not_dash (c : ascii) : bool := negb (code c =? 45).

Definition new_agent_token : store bytes :=
  first ← new_uuid;
  second ← new_uuid;
  mret (List.filter not_dash first ++ List.filter not_dash second).

Definition sb_sha256_hex (data : bytes) : bytes := sb_hex_encode (sha256 env data).

(** [sbq_prepare], where something else may fail before the statement runs. *)
Definition prepared : store unit := control (fault env).

(** [datetime('now')] in a statement. *)
Definition sql_now : store bytes := t ← ask (now env); mret (datetime env t).

Definition host_is (id : bytes) (h : host_row) : bool := bytes_eqb (hr_id h) id.
Definition find_host_row (t : store_tables) (id : bytes) : option host_row := List.find (host_is id) (hosts t).

Definition host_exists (host_id : option bytes) : store bool :=
  query (fault env) (fun t => existsb (host_is (cstr (default [] host_id))) (hosts t)).

Definition fingerprint_of (node_type server : bytes) (port : Z) (config : option sbj) : result bytes :=
  let (first, second) := fingerprint_keys node_type in
  _ ← match first with Some k => jv_str config k [] | None => Ok [] end;
  _ ← match second with Some k => jv_str config k [] | None => Ok [] end;
  Ok (sb_parsed_node_fingerprint (sha256 env) (mk_parsed node_type [] server port (default SBJ_NULL config))).

(** [settings_upsert_sql]. *)
Definition upsert_setting (key value time : bytes) (t : store_tables) : store_tables :=
  with_settings t (sql_upsert (fun s => bytes_eqb (st_key s) key) (fun s => mk_setting (st_key s) value time)
                     (mk_setting key value time) (settings t)).

(** [exec_changes]: one statement; [not_found] is the failure when it changes no
    row. *)
Definition exec_changes (f : store_tables -> result (nat * store_tables)) (not_found : option string) : store unit :=
  changes ← stmt (fault env) f;
  match not_found with
  | Some message => if (changes =? 0)%nat then refuse SB_ERR_NOT_FOUND message else mret tt
  | None => mret tt
  end.
End Helpers.
