(* ===== verification/StoreAccounts.v ===== *)
(** * The repository: accounts, audit log, settings and peers ([c/src/store.c])

    One program per function, under the database lock.  Functions with a length
    argument and their C string variants are one definition each. *)

From S2P Require Import Prelude Util Json JsonText Types Sqlite Auth Tailscale StoreTables.

Section Env.
Context (env : store_env).

(** ** Users *)

Definition find_user_locked (username : bytes) : store (option sb_user_account) :=
  query (fault env) (fun t => List.find (fun u => bytes_eqb (us_username u) username) (users t)).

Definition sb_store_list_users : store (list sb_user_account) :=
  query (fault env) (fun t => order_by (fun a b => text_le (us_created a) (us_created b)) (users t)).

Definition sb_store_find_user_by_username_n (username : option bytes) : store (option sb_user_account) :=
  find_user_locked (default [] username).
Definition sb_store_find_user_by_username (username : option bytes) : store (option sb_user_account) :=
  sb_store_find_user_by_username_n (cstr <$> username).

Definition user_role_valid (role : option bytes) : bool :=
  sb_streq role (Some (bs "admin")) || sb_streq role (Some (bs "viewer")) || sb_streq role (Some (bs "operator")).

(** [id] and [username] are unique. *)
Definition insert_user (u : sb_user_account) (t : store_tables) : result (unit * store_tables) :=
  l ← sql_insert (fun x => bytes_eqb (us_id x) (us_id u) || bytes_eqb (us_username x) (us_username u)) u (users t);
  Ok (tt, with_users t l).

Definition sb_store_create_user_n (username : option bytes) (password_hash : bytes) (role : option bytes) : store sb_user_account :=
  let name := default [] username in
  if is_empty name || sb_str_empty password_hash || negb (user_role_valid role)
  then refuse SB_ERR_VALIDATION "Invalid user"
  else
    id ← new_uuid env;
    taken ← query (fault env) (fun t => existsb (fun u => bytes_eqb (us_username u) name) (users t));
    if taken : bool then refuse SB_ERR_CONFLICT "Username already exists"
    else
      time ← sql_now env;
      _ ← stmt (fault env) (insert_user (mk_user (cstr id) name (cstr password_hash) (cstr (default [] role)) time));
      created ← find_user_locked name;
      match created with
      | Some u => mret u
      | None => refuse SB_ERR_GENERIC "created user could not be reloaded"
      end.

Definition sb_store_create_user (username : option bytes) (password_hash : bytes) (role : option bytes) : store sb_user_account :=
  sb_store_create_user_n (cstr <$> username) password_hash role.

Definition sb_store_ensure_default_admin (password : option bytes) : store unit :=
  count ← query (fault env) (fun t => length (users t));
  if negb (count =? 0)%nat then mret tt
  else
    salt ← ask (salt env);
    hash ← pure (sb_hash_password (argon2id env) salt password);
    _ ← sb_store_create_user (Some (bs "admin")) hash (Some (bs "admin"));
    mret tt.

Definition is_admin (u : sb_user_account) : bool := bytes_eqb (us_role u) (bs "admin").

Definition sb_store_delete_user (actor_id user_id : option bytes) : store unit :=
  let user := cstr (default [] user_id) in
  if sb_streq (Some (default [] actor_id)) (Some (default [] user_id))
  then refuse SB_ERR_VALIDATION "You cannot delete your own account"
  else
    row ← query (fault env) (fun t => List.find (fun u => bytes_eqb (us_id u) user) (users t));
    match row with
    | None => mret tt
    | Some u =>
        _ ← (if sb_streq (Some (us_role u)) (Some (bs "admin")) then
               count ← query (fault env) (fun t => length (List.filter is_admin (users t)));
               if (count <=? 1)%nat then refuse SB_ERR_VALIDATION "Cannot delete the last admin" else mret tt
             else mret tt);
        stmt (fault env) (fun t => Ok (tt, with_users t (List.filter (fun u => negb (bytes_eqb (us_id u) user)) (users t))))
    end.

Definition sb_store_reset_user_password (user_id password_hash : option bytes) : store unit :=
  exec_changes env (fun t =>
    let (l, n) := sql_update (fun u => bytes_eqb (us_id u) (cstr (default [] user_id)))
                    (fun u => mk_user (us_id u) (us_username u) (cstr (default [] password_hash)) (us_role u) (us_created u)) (users t) in
    Ok (n, with_users t l)) (Some "User not found"%string).

(** ** Audit log *)

(** The next number of the log; no row of it is ever deleted. *)
Definition next_audit_id (t : store_tables) : Z := 1 + foldr (fun e m => Z.max (au_id e) m) 0 (audit t).

Definition append_audit (actor action : bytes) (target : option bytes) (time : bytes) (t : store_tables) : store_tables :=
  with_audit t (audit t ++ [mk_audit (next_audit_id t) time actor (cstr action) (cstr <$> target)]).

Definition sb_store_record_audit_n (actor action target : option bytes) : store unit :=
  time ← sql_now env;
  stmt (fault env) (fun t => Ok (tt, append_audit (default [] actor) (default [] action) target time t)).
Definition sb_store_record_audit (actor action target : option bytes) : store unit :=
  sb_store_record_audit_n (cstr <$> actor) action target.

Definition audit_limit (limit : Z) : nat := Z.to_nat (if limit <? 1 then 1 else if 1000 <? limit then 1000 else limit).

Definition sb_store_list_audit (limit : Z) : store (list sb_audit_entry) :=
  query (fault env) (fun t => take (audit_limit limit) (order_by (fun a b => au_id b <=? au_id a) (audit t))).

(** ** Settings *)

(** Values that do not parse are left out. *)
Definition add_setting (acc : sbj) (s : setting_row) : sbj :=
  match sbj_parse (st_value s) with
  | Some v => sbj_setn acc (cstr (st_key s)) (Some v)
  | None => acc
  end.

Definition sb_store_app_settings : store sbj :=
  query (fault env) (fun t => foldl add_setting (SBJ_OBJECT []) (settings t)).

Definition allowed_sections : list string := ["wireguard_interface"; "singbox_connection"; "general"]%string.

Fixpoint update_sections (sections : option sbj) (keys : list string) : store unit :=
  match keys with
  | [] => mret tt
  | key :: keys' =>
      _ ← match sbj_get sections key with
          | None => mret tt
          | Some found =>
              _ ← prepared env;
              text ← pure (dump_checked (Some found));
              time ← sql_now env;
              stmt (fault env) (fun t => Ok (tt, upsert_setting (bs key) text time t))
          end;
      update_sections sections keys'
  end.

Definition sb_store_update_app_settings (sections : option sbj) : store unit :=
  if negb (sbj_is_object sections) then refuse SB_ERR_VALIDATION "settings must be a JSON object"
  else transaction (fault env) (update_sections sections allowed_sections).

Definition sb_store_app_setting (key : option bytes) : store (option sbj) :=
  row ← query (fault env) (fun t => List.find (fun s => bytes_eqb (st_key s) (cstr (default [] key))) (settings t));
  mret (match row with Some s => sbj_parse (st_value s) | None => None end).

Definition sb_store_set_app_setting (key : option bytes) (value : option sbj) : store unit :=
  match key with
  | Some k =>
      if sb_str_empty k then refuse SB_ERR_VALIDATION "setting key is required"
      else
        text ← pure (dump_checked value);
        time ← sql_now env;
        exec_changes env (fun t => Ok (1%nat, upsert_setting (cstr k) text time t)) None
  | None => refuse SB_ERR_VALIDATION "setting key is required"
  end.
End Env.

(** * The repository: WireGuard peers, one-time links and captures ([c/src/store.c]) *)

(** ** [strtoul] and [strrchr] as the address search uses them *)

(** The text before the first [c]. *)
Fixpoint before_char (c : Z) (s : bytes) : bytes :=
  match s with [] => [] | x :: s' => if code x =? c then [] else x :: before_char c s' end.

(** The text before and after the last [c]. *)
Fixpoint split_last (c : Z) (s : bytes) : option (bytes * bytes) :=
  match s with
  | [] => None
  | x :: s' =>
      match split_last c s' with
      | Some (a, b) => Some (x :: a, b)
      | None => if code x =? c then Some ([], s') else None
      end
  end.

Fixpoint decimal_prefix (s : bytes) (acc : Z) : Z :=
  match s with x :: s' => if isdigit x then decimal_prefix s' (acc * 10 + (code x - 48)) else acc | [] => acc end.

Fixpoint skip_spaces (s : bytes) : bytes := match s with x :: s' => if isspace x then skip_spaces s' else s | [] => [] end.

(** [strtoul(s, &end, 10)] with [end != s] and [errno == 0]: a sign negates the
    number modulo 2^64; a larger number is [ERANGE]. *)
Definition strtoul (s : bytes) : option Z :=
  let s := skip_spaces s in
  let '(negative, digits) :=
    match s with x :: s' => if code x =? 45 then (true, s') else if code x =? 43 then (false, s') else (false, s) | [] => (false, []) end in
  match digits with
  | x :: _ =>
      if isdigit x then
        let v := decimal_prefix digits 0 in
        if 2 ^ 64 <=? v then None else Some (if negative then (- v) mod 2 ^ 64 else v)
      else None
  | [] => None
  end.

Section Env.
Context (env : store_env).

(** ** Peers *)

Definition peer_is (id : bytes) (p : sb_wireguard_peer) : bool := bytes_eqb (wp_id p) id.

Definition find_peer_locked (id : option bytes) : store (option sb_wireguard_peer) :=
  query (fault env) (fun t => read_wireguard_peer <$> List.find (peer_is (cstr (default [] id))) (peers t)).

Definition sb_store_list_wireguard_peers : store (list sb_wireguard_peer) :=
  query (fault env) (fun t => map read_wireguard_peer (order_by (fun a b => text_le (wp_address a) (wp_address b)) (peers t))).

Definition sb_store_find_wireguard_peer (id : option bytes) : store (option sb_wireguard_peer) := find_peer_locked id.

Definition reload_peer (id : bytes) : store sb_wireguard_peer :=
  found ← find_peer_locked (Some id);
  match found with
  | Some p => mret p
  | None => refuse SB_ERR_GENERIC "WireGuard peer could not be reloaded"
  end.

Definition peer_limits (p : sb_wireguard_peer) : bool :=
  (0 <=? wp_keepalive p) && (wp_keepalive p <=? 65535) && (0 <=? wp_quota p).

(** [id] and [address] are unique. *)
Definition insert_peer (p : sb_wireguard_peer) (t : store_tables) : result (unit * store_tables) :=
  l ← sql_insert (fun x => bytes_eqb (wp_id x) (wp_id p) || bytes_eqb (wp_address x) (wp_address p)) p (peers t);
  Ok (tt, with_peers t l).

Definition sb_store_create_wireguard_peer (peer : sb_wireguard_peer) : store sb_wireguard_peer :=
  if is_empty (wp_name peer) || sb_str_empty (wp_private peer) || sb_str_empty (wp_public peer) || sb_str_empty (wp_address peer)
  then refuse SB_ERR_VALIDATION "WireGuard name, keys, and address are required"
  else if negb (peer_limits peer) then refuse SB_ERR_VALIDATION "Invalid WireGuard keepalive or quota"
  else
    id ← (if sb_str_empty (wp_id peer) then new_uuid env else mret (cstr (wp_id peer)));
    taken ← query (fault env) (fun t => existsb (fun p => bytes_eqb (wp_address p) (cstr (wp_address peer))) (peers t));
    if taken : bool then refuse SB_ERR_CONFLICT "WireGuard address already exists"
    else
      time ← sql_now env;
      _ ← stmt (fault env) (insert_peer (mk_peer id (wp_name peer) (cstr (wp_private peer)) (cstr (wp_public peer))
             (cstr <$> wp_preshared peer) (cstr (wp_address peer)) (cstr (wp_dns peer)) (wp_enabled peer) (wp_keepalive peer)
             (cstr (wp_allowed peer)) (cstr <$> wp_expire peer) (wp_quota peer) time time (wp_notes peer) (cstr <$> wp_host peer)));
      reload_peer id.

Definition updated_peer (peer : sb_wireguard_peer) (time : bytes) (p : sb_wireguard_peer) : sb_wireguard_peer :=
  mk_peer (wp_id p) (wp_name peer) (wp_private p) (wp_public p) (wp_preshared p) (wp_address p) (cstr (wp_dns peer))
    (wp_enabled peer) (wp_keepalive peer) (cstr (wp_allowed peer)) (cstr <$> wp_expire peer) (wp_quota peer) (wp_created p)
    time (wp_notes peer) (cstr <$> wp_host peer).

Definition sb_store_update_wireguard_peer (peer : sb_wireguard_peer) : store sb_wireguard_peer :=
  if sb_str_empty (wp_id peer) || is_empty (wp_name peer) || negb (peer_limits peer)
  then refuse SB_ERR_VALIDATION "Invalid WireGuard peer"
  else
    time ← sql_now env;
    changes ← stmt (fault env) (fun t =>
      let (l, n) := sql_update (peer_is (cstr (wp_id peer))) (updated_peer peer time) (peers t) in Ok (n, with_peers t l));
    if (changes =? 0)%nat then refuse SB_ERR_NOT_FOUND "Peer not found" else reload_peer (cstr (wp_id peer)).

Definition sb_store_delete_wireguard_peer (id : option bytes) : store unit :=
  let id := cstr (default [] id) in
  exec_changes env (fun t => Ok (length (List.filter (peer_is id) (peers t)),
                                 with_peers t (List.filter (fun p => negb (peer_is id p)) (peers t))))
    (Some "Peer not found"%string).

Definition enabled_peer (enabled : bool) (time : bytes) (p : sb_wireguard_peer) : sb_wireguard_peer :=
  mk_peer (wp_id p) (wp_name p) (wp_private p) (wp_public p) (wp_preshared p) (wp_address p) (wp_dns p) enabled (wp_keepalive p)
    (wp_allowed p) (wp_expire p) (wp_quota p) (wp_created p) time (wp_notes p) (wp_host p).

Definition sb_store_set_wireguard_peer_enabled (id : option bytes) (enabled : bool) : store unit :=
  time ← sql_now env;
  exec_changes env (fun t =>
    let (l, n) := sql_update (peer_is (cstr (default [] id))) (enabled_peer enabled time) (peers t) in Ok (n, with_peers t l))
    (Some "Peer not found"%string).

(** ** Free addresses *)

(** The first three parts of the server's address. *)
Definition address_base (server_address : option bytes) : bytes :=
  match split_last 46 (before_char 47 (cstr (default [] server_address))) with
  | Some (base, _) => base
  | None => bs "10.59.32"
  end.

(** The last part of a peer's address, if it is in the same subnet. *)
Definition taken_octet (base address : bytes) : option Z :=
  match split_last 46 (before_char 47 (cstr address)) with
  | Some (prefix, digits) =>
      if bytes_eqb prefix base then
        match strtoul digits with Some octet => if octet <? 255 then Some octet else None | None => None end
      else None
  | None => None
  end.

Definition octet_taken (base : bytes) (l : list bytes) (octet : Z) : bool :=
  existsb (fun a => match taken_octet base a with Some o => o =? octet | None => false end) l.

Definition candidate_octets : list Z := map Z.of_nat (seq 2 253).

Definition sb_store_next_wireguard_address (server_address : option bytes) : store bytes :=
  let base := address_base server_address in
  rows ← query (fault env) (fun t => map wp_address (peers t));
  match List.find (fun octet => negb (octet_taken base rows octet)) candidate_octets with
  | Some octet => mret (base ++ bs "." ++ fmt_uint octet ++ bs "/24")
  | None => refuse SB_ERR_CONFLICT "No available IPs in subnet"
  end.

(** ** One-time links *)

Definition sb_store_create_one_time_link (token peer_id expires_at : option bytes) : store unit :=
  found ← sb_store_find_wireguard_peer peer_id;
  match found with
  | None => refuse SB_ERR_NOT_FOUND "Peer not found"
  | Some _ =>
      time ← sql_now env;
      exec_changes env (fun t =>
        l ← sql_insert (fun x => bytes_eqb (lk_id x) (cstr (default [] token)))
              (mk_link (cstr (default [] token)) (cstr (default [] peer_id)) (cstr (default [] expires_at)) false time) (links t);
        Ok (1%nat, with_links t l)) None
  end.

(** ** Captures *)

Definition capture_is (host digest : bytes) (c : capture_row) : bool :=
  bytes_eqb (cp_host c) host && bytes_eqb (cp_digest c) digest.
Definition host_captures (t : store_tables) (host : bytes) : list capture_row :=
  List.filter (fun c => bytes_eqb (cp_host c) host) (captures t).
Definition capture_size (c : capture_row) : Z := Z.of_nat (length (cp_payload c)).
Definition CAPTURE_FILES : nat := 1000.
Definition CAPTURE_BYTES : Z := 128 * 1024 * 1024.

(** The host must exist (FOREIGN KEY). *)
Definition insert_capture (c : capture_row) (t : store_tables) : result (unit * store_tables) :=
  if negb (existsb (host_is (cp_host c)) (hosts t)) then sbq_fail (bs "FOREIGN KEY constraint failed")
  else
    l ← sql_insert (capture_is (cp_host c) (cp_digest c)) c (captures t);
    Ok (tt, with_captures t l).

Definition sb_store_save_capture (host_id digest data : bytes) : store unit :=
  let host := cstr host_id in
  let digest := cstr digest in
  transaction (fault env)
    (found ← query (fault env) (fun t => existsb (capture_is host digest) (captures t));
     if found : bool then mret tt
     else
       totals ← query (fault env) (fun t => (length (host_captures t host), zsum capture_size (host_captures t host)));
       if (CAPTURE_FILES <=? fst totals)%nat || (CAPTURE_BYTES <? snd totals + Z.of_nat (length data))
       then refuse SB_ERR_CONFLICT "Capture storage full (128 MiB or 1000 files); delete captures first"
       else
         time ← sql_now env;
         stmt (fault env) (insert_capture (mk_capture host digest data time))).

Definition capture_json (c : capture_row) : sbj :=
  let v := SBJ_OBJECT [] in
  let v := sbj_set_str v "digest" (cp_digest c) in
  let v := sbj_set_int v "size" (capture_size c) in
  sbj_set_str v "created_at" (cp_created c).

(** [ORDER BY created_at DESC, digest]. *)
Definition capture_le (a b : capture_row) : bool :=
  if bytes_eqb (cp_created a) (cp_created b) then text_le (cp_digest a) (cp_digest b) else text_le (cp_created b) (cp_created a).

Definition sb_store_list_captures (host_id : bytes) : store sbj :=
  query (fault env) (fun t => SBJ_ARRAY (map capture_json (take 1000 (order_by capture_le (host_captures t (cstr host_id)))))).

Definition sb_store_get_capture (host_id digest : bytes) : store bytes :=
  found ← query (fault env) (fun t => List.find (capture_is (cstr host_id) (cstr digest)) (captures t));
  match found with
  | Some c => mret (cp_payload c)
  | None => refuse SB_ERR_NOT_FOUND "Capture not found"
  end.

Definition sb_store_delete_capture (host_id digest : bytes) : store unit :=
  stmt (fault env) (fun t => Ok (tt, with_captures t (List.filter (fun c => negb (capture_is (cstr host_id) (cstr digest) c)) (captures t)))).
End Env.
