(* ===== verification/StoreHosts.v ===== *)
(** * The repository: profiles, hosts, enrollment and commands ([c/src/store.c]) *)

From S2P Require Import Prelude Util Json JsonText Types Sqlite Auth Tailscale StoreTables.

Section Env.
Context (env : store_env).

(** ** Profiles *)

Definition profile_is (id : bytes) (p : profile_row) : bool := bytes_eqb (pr_id p) id.

Definition find_profile_locked (id : option bytes) : store (option sb_config_profile) :=
  row ← query (fault env) (fun t => List.find (profile_is (cstr (default [] id))) (profiles t));
  match row with
  | Some r => p ← pure (read_profile r); mret (Some p)
  | None => mret None
  end.

Definition reload_profile (id : bytes) : store sb_config_profile :=
  found ← find_profile_locked (Some id);
  match found with Some p => mret p | None => refuse SB_ERR_GENERIC "profile could not be reloaded" end.

Definition sb_store_list_profiles : store (list sb_config_profile) :=
  rows ← query (fault env) (fun t => order_by (fun a b => text_le (pr_name a) (pr_name b)) (profiles t));
  pure (mapM read_profile rows).

Definition sb_store_find_profile (id : option bytes) : store (option sb_config_profile) := find_profile_locked id.

Definition insert_profile (p : profile_row) (t : store_tables) : result (unit * store_tables) :=
  l ← sql_insert (profile_is (pr_id p)) p (profiles t);
  Ok (tt, with_profiles t l).

Definition sb_store_create_profile (profile : sb_config_profile) : store sb_config_profile :=
  if is_empty (cf_name profile) || negb (sbj_is_object (cf_profile profile))
  then refuse SB_ERR_VALIDATION "Profile name and object template are required"
  else
    id ← (if sb_str_empty (cf_id profile) then new_uuid env else mret (cstr (cf_id profile)));
    _ ← prepared env;
    template ← pure (dump_checked (cf_profile profile));
    time ← sql_now env;
    _ ← stmt (fault env) (insert_profile (mk_profile_row id (cf_name profile) template (sb_profile_mode_name (cf_mode profile))
           (cf_script profile) (cf_script_on profile) time time));
    reload_profile id.

Definition updated_profile (p : sb_config_profile) (template time : bytes) (r : profile_row) : profile_row :=
  mk_profile_row (pr_id r) (cf_name p) template (sb_profile_mode_name (cf_mode p)) (cf_script p) (cf_script_on p) (pr_created r) time.

Definition sb_store_update_profile (profile : sb_config_profile) : store sb_config_profile :=
  if sb_str_empty (cf_id profile) || is_empty (cf_name profile) || negb (sbj_is_object (cf_profile profile))
  then refuse SB_ERR_VALIDATION "Profile id, name, and object template are required"
  else
    _ ← prepared env;
    template ← pure (dump_checked (cf_profile profile));
    time ← sql_now env;
    changes ← stmt (fault env) (fun t =>
      let (l, n) := sql_update (profile_is (cstr (cf_id profile))) (updated_profile profile template time) (profiles t) in
      Ok (n, with_profiles t l));
    if (changes =? 0)%nat then refuse SB_ERR_NOT_FOUND "Profile not found" else reload_profile (cstr (cf_id profile)).

(** [hosts.profile_id REFERENCES config_profiles(id)]. *)
Definition profile_known (t : store_tables) (id : option bytes) : bool :=
  match id with Some p => existsb (profile_is p) (profiles t) | None => true end.

Definition has_profile (id : bytes) (h : host_row) : bool :=
  match hr_profile h with Some p => bytes_eqb p id | None => false end.

Definition default_profile (time : bytes) (h : host_row) : host_row :=
  mk_host_row (hr_id h) (hr_name h) (hr_token h) (hr_capabilities h) (Some (bs "default")) (hr_wg_address h) (hr_wg_public h)
    (hr_wg_endpoint h) (hr_clash_api h) (hr_clash_secret h) (hr_seen h) (hr_state h) (hr_enabled h) (hr_created h) time
    (hr_tailscale h).

(** [UPDATE hosts SET profile_id = 'default']. *)
Definition move_hosts (id time : bytes) (t : store_tables) : result (unit * store_tables) :=
  if existsb (has_profile id) (hosts t) && negb (profile_known t (Some (bs "default")))
  then sbq_fail (bs "FOREIGN KEY constraint failed")
  else Ok (tt, with_hosts t (fst (sql_update (has_profile id) (default_profile time) (hosts t)))).

Definition delete_profile_row (id : bytes) (t : store_tables) : result (nat * store_tables) :=
  if existsb (profile_is id) (profiles t) && existsb (has_profile id) (hosts t) then sbq_fail (bs "FOREIGN KEY constraint failed")
  else Ok (length (List.filter (profile_is id) (profiles t)),
           with_profiles t (List.filter (fun p => negb (profile_is id p)) (profiles t))).

Definition sb_store_delete_profile (id : option bytes) : store unit :=
  if sb_streq id (Some (bs "default")) then refuse SB_ERR_VALIDATION "Cannot delete the default profile"
  else
    let id := cstr (default [] id) in
    transaction (fault env)
      (time ← sql_now env;
       _ ← stmt (fault env) (move_hosts id time);
       changes ← stmt (fault env) (delete_profile_row id);
       if (changes =? 0)%nat then refuse SB_ERR_NOT_FOUND "Profile not found" else mret tt).

(** ** Hosts *)

Definition find_host_locked (id : option bytes) : store (option sb_host) :=
  query (fault env) (fun t => read_host t <$> find_host_row t (cstr (default [] id))).

Definition reload_host (id : bytes) : store sb_host :=
  found ← find_host_locked (Some id);
  match found with Some h => mret h | None => refuse SB_ERR_GENERIC "host could not be reloaded" end.

Definition sb_store_list_hosts : store (list sb_host) :=
  query (fault env) (fun t => map (read_host t) (order_by (fun a b => text_le (hr_created a) (hr_created b)) (hosts t))).

Definition sb_store_find_host (id : option bytes) : store (option sb_host) := find_host_locked id.

(** Networks need sing-box. *)
Definition host_tailscale_valid (h : sb_host) : result unit :=
  _ ← sb_tailscale_validate (pton4 env) (pton6 env) (curl_url env) (ho_tailscale h);
  match sb_tailscale_enabled (ho_tailscale h), sbj_get (ho_capabilities h) "runs_singbox" with
  | true, Some (SBJ_BOOL false) => sb_fail SB_ERR_VALIDATION (bs "Tailscale requires runs_singbox to be enabled")
  | _, _ => Ok tt
  end.

Definition insert_host (h : host_row) (t : store_tables) : result (unit * store_tables) :=
  if negb (profile_known t (hr_profile h)) then sbq_fail (bs "FOREIGN KEY constraint failed")
  else
    l ← sql_insert (host_is (hr_id h)) h (hosts t);
    Ok (tt, with_hosts t l).

(** [clash_secret] is NOT NULL. *)
Definition required_text (text : option bytes) : result bytes :=
  match text with Some s => Ok s | None => sbq_fail (bs "NOT NULL constraint failed") end.

Definition sb_store_create_host (host : sb_host) : store sb_host :=
  if is_empty (ho_name host) || negb (sbj_is_object (ho_capabilities host))
  then refuse SB_ERR_VALIDATION "Host name and object capabilities are required"
  else
    _ ← pure (host_tailscale_valid host);
    id ← (if sb_str_empty (ho_id host) then new_uuid env else mret (cstr (ho_id host)));
    token ← (if sb_str_empty (ho_token host) then new_agent_token env else mret (cstr (ho_token host)));
    _ ← prepared env;
    capabilities ← pure (dump_checked (ho_capabilities host));
    tailscale ← pure (dump_checked (ho_tailscale host));
    time ← sql_now env;
    _ ← stmt (fault env) (fun t =>
      secret ← required_text (ho_clash_secret host);
      insert_host (mk_host_row id (ho_name host) token capabilities (Some (default (bs "default") (ho_profile host)))
        (ho_wg_address host) (ho_wg_public host) (ho_wg_endpoint host) (ho_clash_api host) secret
        (cstr <$> ho_seen host) (cstr <$> ho_state host) (ho_enabled host) time time tailscale) t);
    reload_host id.

Definition updated_host (h : sb_host) (capabilities secret tailscale time : bytes) (r : host_row) : host_row :=
  mk_host_row (hr_id r) (ho_name h) (hr_token r) capabilities (ho_profile h) (ho_wg_address h) (ho_wg_public h)
    (ho_wg_endpoint h) (ho_clash_api h) secret (hr_seen r) (hr_state r) (ho_enabled h) (hr_created r) time tailscale.

Definition sb_store_update_host (host : sb_host) : store sb_host :=
  if sb_str_empty (ho_id host) || is_empty (ho_name host) || negb (sbj_is_object (ho_capabilities host))
  then refuse SB_ERR_VALIDATION "Host id, name, and object capabilities are required"
  else
    _ ← pure (host_tailscale_valid host);
    let id := cstr (ho_id host) in
    _ ← prepared env;
    capabilities ← pure (dump_checked (ho_capabilities host));
    tailscale ← pure (dump_checked (ho_tailscale host));
    time ← sql_now env;
    changes ← stmt (fault env) (fun t =>
      if negb (existsb (host_is id) (hosts t)) then Ok (0%nat, t)
      else if negb (profile_known t (ho_profile host)) then sbq_fail (bs "FOREIGN KEY constraint failed")
      else
        secret ← required_text (ho_clash_secret host);
        let (l, n) := sql_update (host_is id) (updated_host host capabilities secret tailscale time) (hosts t) in
        Ok (n, with_hosts t l));
    if (changes =? 0)%nat then refuse SB_ERR_NOT_FOUND "Host not found" else reload_host id.

(** [ON DELETE CASCADE]: enrollments, reports and captures of the host go with it. *)
Definition delete_host_row (id : bytes) (t : store_tables) : store_tables :=
  let t := with_hosts t (List.filter (fun h => negb (host_is id h)) (hosts t)) in
  let t := with_enrollments t (List.filter (fun e => negb (bytes_eqb (en_host e) id)) (enrollments t)) in
  let t := with_diags t (List.filter (fun d => negb (bytes_eqb (dg_host d) id)) (diags t)) in
  with_captures t (List.filter (fun c => negb (bytes_eqb (cp_host c) id)) (captures t)).

Definition sb_store_delete_host (id : option bytes) : store unit :=
  if sb_streq id (Some (bs "self")) then refuse SB_ERR_VALIDATION "Cannot delete the built-in self host"
  else
    let id := cstr (default [] id) in
    transaction (fault env)
      (_ ← stmt (fault env) (fun t => Ok (tt, with_outbounds t (List.filter (fun o => negb (bytes_eqb (fst o) id)) (outbounds t))));
       changes ← stmt (fault env) (fun t => Ok (length (List.filter (host_is id) (hosts t)), delete_host_row id t));
       if (changes =? 0)%nat then refuse SB_ERR_NOT_FOUND "Host not found" else mret tt).

(** ** Diagnostic reports *)

(** [ORDER BY created_at DESC, rowid DESC]. *)
Definition newest_diags (t : store_tables) (host : bytes) : list diag_row :=
  order_by (fun a b => text_le (dg_created b) (dg_created a)) (rev (List.filter (fun d => bytes_eqb (dg_host d) host) (diags t))).

Definition prune_diags (host : bytes) (t : store_tables) : store_tables :=
  let kept := map dg_id (take 20 (newest_diags t host)) in
  with_diags t (List.filter (fun d => negb (bytes_eqb (dg_host d) host) || existsb (bytes_eqb (dg_id d)) kept) (diags t)).

Definition insert_diag (d : diag_row) (t : store_tables) : result (unit * store_tables) :=
  if negb (existsb (host_is (dg_host d)) (hosts t)) then sbq_fail (bs "FOREIGN KEY constraint failed")
  else
    l ← sql_insert (fun x => bytes_eqb (dg_id x) (dg_id d)) d (diags t);
    Ok (tt, with_diags t l).

Definition sb_store_save_diagnostic_report (host_id : option bytes) (report : option sbj) : store bytes :=
  if negb (sbj_is_object report) then refuse SB_ERR_VALIDATION "Diagnostic report must be a JSON object"
  else
    reason ← pure (jv_str report "reason" (bs "manual"));
    app_version ← pure (jv_str report "app_version" []);
    core_version ← pure (jv_str report "core_version" []);
    id ← new_uuid env;
    let host := cstr (default [] host_id) in
    transaction (fault env)
      (known ← host_exists env host_id;
       if negb known then refuse SB_ERR_NOT_FOUND "Host not found"
       else
         _ ← prepared env;
         payload ← pure (dump_checked report);
         created ← ask (now_millis env);
         _ ← stmt (fault env) (insert_diag (mk_diag id host reason app_version core_version payload created));
         _ ← stmt (fault env) (fun t => Ok (tt, prune_diags host t));
         mret id).

Definition diag_json (d : diag_row) : sbj :=
  let report := match sbj_parse (cstr (dg_payload d)) with
                | Some (SBJ_OBJECT m) => SBJ_OBJECT m
                | _ => sbj_set (SBJ_OBJECT []) "logs" (SBJ_ARRAY [])
                end in
  let report := sbj_set_str report "report_id" (dg_id d) in
  let report := sbj_set report "reason" (SBJ_STRING (dg_reason d)) in
  let report := sbj_set report "app_version" (SBJ_STRING (dg_app d)) in
  let report := sbj_set report "core_version" (SBJ_STRING (dg_core d)) in
  sbj_set_str report "created_at" (dg_created d).

Definition sb_store_list_diagnostic_reports (host_id : option bytes) (limit : Z) : store sbj :=
  known ← host_exists env host_id;
  if negb known then refuse SB_ERR_NOT_FOUND "Host not found"
  else query (fault env) (fun t =>
         SBJ_ARRAY (map diag_json (take (Z.to_nat (if limit <? 20 then limit else 20)) (newest_diags t (cstr (default [] host_id)))))).

(** ** Outbounds of a host *)

Definition sb_store_host_outbounds (host_id : option bytes) : store (list bytes) :=
  known ← host_exists env host_id;
  if negb known then refuse SB_ERR_NOT_FOUND "Host not found"
  else query (fault env) (fun t =>
         order_by text_le (map snd (List.filter (fun o => bytes_eqb (fst o) (cstr (default [] host_id))) (outbounds t)))).

Definition outbound_is (host node : bytes) (o : bytes * bytes) : bool := bytes_eqb (fst o) host && bytes_eqb (snd o) node.

(** [INSERT OR IGNORE]. *)
Definition add_outbound (host node : bytes) (t : store_tables) : store_tables :=
  if existsb (outbound_is host node) (outbounds t) then t else with_outbounds t (outbounds t ++ [(host, node)]).

Fixpoint add_outbounds (host : bytes) (node_ids : list bytes) : store unit :=
  match node_ids with
  | [] => mret tt
  | node :: rest => _ ← stmt (fault env) (fun t => Ok (tt, add_outbound host (cstr node) t)); add_outbounds host rest
  end.

Definition sb_store_set_host_outbounds (host_id : option bytes) (node_ids : list bytes) : store unit :=
  let host := cstr (default [] host_id) in
  known ← host_exists env host_id;
  if negb known then refuse SB_ERR_NOT_FOUND "Host not found"
  else transaction (fault env)
    (_ ← stmt (fault env) (fun t => Ok (tt, with_outbounds t (List.filter (fun o => negb (bytes_eqb (fst o) host)) (outbounds t))));
     add_outbounds host node_ids).

(** ** Tokens and enrollment *)

Definition with_token (token time : bytes) (h : host_row) : host_row :=
  mk_host_row (hr_id h) (hr_name h) token (hr_capabilities h) (hr_profile h) (hr_wg_address h) (hr_wg_public h)
    (hr_wg_endpoint h) (hr_clash_api h) (hr_clash_secret h) (hr_seen h) (hr_state h) (hr_enabled h) (hr_created h) time
    (hr_tailscale h).

Definition update_host_row (id : bytes) (f : host_row -> host_row) (t : store_tables) : result (nat * store_tables) :=
  let (l, n) := sql_update (host_is id) f (hosts t) in Ok (n, with_hosts t l).

Definition sb_store_rotate_agent_token (host_id : option bytes) : store bytes :=
  token ← new_agent_token env;
  time ← sql_now env;
  _ ← exec_changes env (update_host_row (cstr (default [] host_id)) (with_token token time)) (Some "Host not found"%string);
  mret token.

(** Codes are valid for ten minutes. *)
Definition ENROLLMENT_SECONDS : Z := 600.

Definition expire_enrollment (time : bytes) (e : enrollment_row) : enrollment_row :=
  mk_enrollment_row (en_id e) (en_host e) (en_hash e) time (en_redeemed e).

Definition unredeemed (e : enrollment_row) : bool := match en_redeemed e with None => true | Some _ => false end.

Definition insert_enrollment (e : enrollment_row) (t : store_tables) : result (unit * store_tables) :=
  if negb (existsb (host_is (en_host e)) (hosts t)) then sbq_fail (bs "FOREIGN KEY constraint failed")
  else
    l ← sql_insert (fun x => bytes_eqb (en_id x) (en_id e) || bytes_eqb (en_hash x) (en_hash e)) e (enrollments t);
    Ok (tt, with_enrollments t l).

(** The part under the lock; the host was looked up before, so another call may
    run in between. *)
Definition enrollment_locked (host id code : bytes) : store sb_agent_enrollment :=
  let code_hash := sb_sha256_hex env code in
  transaction (fault env)
    (time ← sql_now env;
     _ ← stmt (fault env) (fun t => Ok (tt, with_enrollments t
           (fst (sql_update (fun e => bytes_eqb (en_host e) host && unredeemed e) (expire_enrollment time) (enrollments t)))));
     start ← ask (now env);
     _ ← stmt (fault env) (insert_enrollment (mk_enrollment_row id host code_hash (datetime env (start + ENROLLMENT_SECONDS)) None));
     row ← query (fault env) (fun t => List.find (fun e => bytes_eqb (en_id e) id) (enrollments t));
     match row with
     | Some e => mret (mk_enrollment id host code (en_expires e))
     | None => refuse SB_ERR_GENERIC "Created enrollment could not be read"
     end).

Definition sb_store_create_agent_enrollment (host_id : option bytes) : store sb_agent_enrollment :=
  found ← sb_store_find_host host_id;
  match found with
  | None => refuse SB_ERR_NOT_FOUND "Host not found"
  | Some h =>
      if sb_streq (Some (ho_id h)) (Some (bs "self")) || negb (ho_enabled h)
      then refuse SB_ERR_VALIDATION "Enrollment requires an enabled remote host"
      else
        id ← new_uuid env;
        code ← new_agent_token env;
        enrollment_locked (cstr (default [] host_id)) id code
  end.

Definition feature_keys : list string :=
  ["interactive_client"; "supports_proxy_selection"; "supports_local_route_stats"; "supports_diagnostic_upload"]%string.
Definition device_keys : list string :=
  ["platform"; "app_version"; "agent_version"; "core_version"; "install_id"; "model"; "hostname"; "architecture"; "os"]%string.

Fixpoint features_valid (device : option sbj) (keys : list string) : result unit :=
  match keys with
  | [] => Ok tt
  | k :: keys' =>
      match sbj_get device k with
      | Some (SBJ_BOOL _) | None => features_valid device keys'
      | Some _ => sb_fail SB_ERR_VALIDATION (bs "Device capability '" ++ bs k ++ bs "' must be a boolean")
      end
  end.

(** What the device says about itself is added to the capabilities. *)
Definition copy_text (device : option sbj) (capabilities : sbj) (k : string) : sbj :=
  match sbj_get device k with
  | Some (SBJ_STRING (c :: s)) => sbj_set capabilities k (sbj_clone (SBJ_STRING (c :: s)))
  | _ => capabilities
  end.
Definition copy_feature (device : option sbj) (capabilities : sbj) (k : string) : sbj :=
  match sbj_get device k with Some v => sbj_set capabilities k (sbj_clone v) | None => capabilities end.
Definition device_capabilities (device : option sbj) (capabilities : sbj) : sbj :=
  foldl (copy_feature device) (foldl (copy_text device) capabilities device_keys) feature_keys.

(** [e.expires_at > datetime('now')]. *)
Definition text_after (a b : bytes) : bool := match key_compare a b with Gt => true | _ => false end.

(** The joined row of a code that is good. *)
Definition find_enrollment (t : store_tables) (hash time : bytes) : option (enrollment_row * host_row * profile_row) :=
  e ← List.find (fun e => bytes_eqb (en_hash e) hash) (enrollments t);
  h ← find_host_row t (en_host e);
  p ← List.find (profile_is (default (bs "default") (hr_profile h))) (profiles t);
  if unredeemed e && text_after (en_expires e) time && hr_enabled h then Some (e, h, p) else None.

Definition redeemed_at (time : bytes) (e : enrollment_row) : enrollment_row :=
  mk_enrollment_row (en_id e) (en_host e) (en_hash e) (en_expires e) (Some time).

Definition enrolled_host (capabilities time : bytes) (h : host_row) : host_row :=
  mk_host_row (hr_id h) (hr_name h) (hr_token h) capabilities (hr_profile h) (hr_wg_address h) (hr_wg_public h)
    (hr_wg_endpoint h) (hr_clash_api h) (hr_clash_secret h) (Some time) (hr_state h) (hr_enabled h) (hr_created h) time
    (hr_tailscale h).

Definition sb_store_redeem_agent_enrollment (code : option bytes) (device : option sbj) : store sb_agent_enrollment_result :=
  let code := cstr (default [] code) in
  if (length code <? 32)%nat || negb (sbj_is_object device)
  then refuse SB_ERR_VALIDATION "A valid enrollment code and device are required"
  else
    _ ← pure (features_valid device feature_keys);
    let code_hash := sb_sha256_hex env code in
    transaction (fault env)
      (time ← sql_now env;
       found ← query (fault env) (fun t => find_enrollment t code_hash time);
       match found with
       | None => refuse SB_ERR_VALIDATION "Enrollment code is invalid or expired"
       | Some (e, h, p) =>
           let capabilities := device_capabilities device (parse_object_or_empty (hr_capabilities h)) in
           time ← sql_now env;
           changes ← stmt (fault env) (fun t =>
             let (l, n) := sql_update (fun x => bytes_eqb (en_id x) (en_id e) && unredeemed x) (redeemed_at time) (enrollments t) in
             Ok (n, with_enrollments t l));
           if negb (changes =? 1)%nat then refuse SB_ERR_CONFLICT "Enrollment code was already redeemed"
           else
             _ ← prepared env;
             text ← pure (dump_checked (Some capabilities));
             time ← sql_now env;
             _ ← stmt (fault env) (update_host_row (hr_id h) (enrolled_host text time));
             mret (mk_enrolled (hr_id h) (hr_name h) (hr_token h) (default (bs "default") (hr_profile h)) (pr_name p))
       end).

(** [None] when no enabled host has the token. *)
Definition sb_store_find_enabled_host_by_token (token : option bytes) : store (option sb_host) :=
  let token := cstr (default [] token) in
  if is_empty token then mret None
  else query (fault env) (fun t =>
         read_host t <$> List.find (fun h => bytes_eqb (hr_token h) token && negb (is_empty (hr_token h)) && hr_enabled h) (hosts t)).

Definition seen_host (state : option bytes) (time : bytes) (h : host_row) : host_row :=
  mk_host_row (hr_id h) (hr_name h) (hr_token h) (hr_capabilities h) (hr_profile h) (hr_wg_address h) (hr_wg_public h)
    (hr_wg_endpoint h) (hr_clash_api h) (hr_clash_secret h) (Some time)
    (match state with Some s => Some s | None => hr_state h end) (hr_enabled h) (hr_created h) (hr_updated h) (hr_tailscale h).

Definition sb_store_touch_host (host_id : option bytes) : store unit :=
  time ← sql_now env;
  exec_changes env (update_host_row (cstr (default [] host_id)) (seen_host None time)) (Some "Host not found"%string).

Definition sb_store_update_agent_status (host_id : option bytes) (state : option sbj) : store unit :=
  if negb (sbj_is_object state) then refuse SB_ERR_VALIDATION "Agent state must be a JSON object"
  else
    text ← pure (dump_checked state);
    time ← sql_now env;
    exec_changes env (update_host_row (cstr (default [] host_id)) (seen_host (Some text) time)) (Some "Host not found"%string).

(** ** Commands *)

Definition insert_command (c : sb_host_command) (t : store_tables) : result (unit * store_tables) :=
  l ← sql_insert (fun x => bytes_eqb (cm_id x) (cm_id c)) c (commands t);
  Ok (tt, with_commands t l).

Definition sb_store_enqueue_host_command (host_id command : option bytes) : store sb_host_command :=
  let command := cstr (default [] command) in
  if is_empty command then refuse SB_ERR_VALIDATION "Command is required"
  else
    id ← new_uuid env;
    known ← host_exists env host_id;
    if negb known then refuse SB_ERR_NOT_FOUND "Host not found"
    else
      time ← sql_now env;
      _ ← stmt (fault env) (insert_command (mk_command id (cstr (default [] host_id)) command (bs "pending") None time None));
      row ← query (fault env) (fun t => List.find (fun c => bytes_eqb (cm_id c) id) (commands t));
      match row with
      | Some c => mret c
      | None => refuse SB_ERR_GENERIC "created host command could not be reloaded"
      end.

Definition sb_store_list_host_commands (host_id : option bytes) (pending_only : bool) : store (list sb_host_command) :=
  let host := cstr (default [] host_id) in
  known ← host_exists env host_id;
  if negb known then refuse SB_ERR_NOT_FOUND "Host not found"
  else query (fault env) (fun t =>
         let l := List.filter (fun c => bytes_eqb (cm_host c) host) (commands t) in
         if pending_only
         then order_by (fun a b => text_le (cm_created a) (cm_created b)) (List.filter (fun c => bytes_eqb (cm_status c) (bs "pending")) l)
         else take 20 (order_by (fun a b => text_le (cm_created b) (cm_created a)) l)).

Definition acked_command (status : bytes) (result : option bytes) (time : bytes) (c : sb_host_command) : sb_host_command :=
  mk_command (cm_id c) (cm_host c) (cm_command c) status result (cm_created c) (Some time).

(** Whether the command was there. *)
Definition sb_store_acknowledge_host_command_n (host_id command_id status result : option bytes) : store bool :=
  time ← sql_now env;
  changes ← stmt (fault env) (fun t =>
    let (l, n) := sql_update (fun c => bytes_eqb (cm_id c) (cstr (default [] command_id)) && bytes_eqb (cm_host c) (cstr (default [] host_id)))
                    (acked_command (cstr (default [] status)) result time) (commands t) in
    Ok (n, with_commands t l));
  mret (negb (changes =? 0)%nat).
Definition sb_store_acknowledge_host_command (host_id command_id status result : option bytes) : store bool :=
  sb_store_acknowledge_host_command_n host_id command_id status (cstr <$> result).
End Env.
