(* ===== verification/StoreNodes.v ===== *)
(** * The repository: proxy nodes and subscriptions ([c/src/store.c])

    Nodes are found again by the fingerprint of their credentials, so that importing
    them twice updates instead of adding.  A query without an order gives its first
    row in the order of insertion. *)

From Stdlib Require Import SpecFloat.
From S2P Require Import Prelude Util Json JsonText Types Sqlite Auth Tailscale StoreTables StoreHosts.

Section Env.
Context (env : store_env).

(** ** Latencies *)

Definition with_latency (latency : option double) (time : bytes) (r : node_row) : node_row :=
  mk_node_row (nr_id r) (nr_tag r) (nr_type r) (nr_enabled r) (nr_server r) (nr_port r) (nr_config r) (nr_sub r)
    (nr_fingerprint r) (bind_opt_double latency) (Some time) (nr_created r) (nr_updated r) (nr_source r).

Definition set_latency (matches : node_row -> bool) (latency : option double) (time : bytes) (t : store_tables) : result (nat * store_tables) :=
  let (l, n) := sql_update matches (with_latency latency time) (nodes t) in Ok (n, with_nodes t l).

Definition latency_of (value : sbj) : result (option double) :=
  match value with
  | SBJ_NULL => Ok None
  | _ => if sbj_is_number (Some value) then Ok (Some (sbj_as_double (Some value) (S754_zero false)))
         else sb_fail SB_ERR_VALIDATION (bs "proxy latency values must be numbers or null")
  end.

Fixpoint update_latencies (results : list (bytes * sbj)) (count : Z) : store Z :=
  match results with
  | [] => mret count
  | (tag, value) :: rest =>
      latency ← pure (latency_of value);
      time ← sql_now env;
      changes ← stmt (fault env) (set_latency (fun r => bytes_eqb (nr_tag r) tag) latency time);
      update_latencies rest (count + Z.of_nat changes)
  end.

Definition sb_store_update_proxy_latencies (results : option sbj) : store Z :=
  if negb (sbj_is_object results) then refuse SB_ERR_VALIDATION "results must be a JSON object"
  else transaction (fault env) (update_latencies (obj_members results) 0).

Definition node_is (id : bytes) (r : node_row) : bool := bytes_eqb (nr_id r) id.

Definition sb_store_update_proxy_latency (id : option bytes) (latency : option double) : store unit :=
  time ← sql_now env;
  exec_changes env (set_latency (node_is (cstr (default [] id))) latency time) (Some "Node not found"%string).

(** ** Nodes *)

Definition find_proxy_locked (id : option bytes) : store (option sb_proxy_record) :=
  row ← query (fault env) (fun t => List.find (node_is (cstr (default [] id))) (nodes t));
  match row with
  | Some r => p ← pure (read_proxy_record r); mret (Some p)
  | None => mret None
  end.

Definition reload_proxy (id : bytes) : store sb_proxy_record :=
  found ← find_proxy_locked (Some id);
  match found with Some p => mret p | None => refuse SB_ERR_GENERIC "proxy node could not be reloaded" end.

(** [ORDER BY node_type, tag]. *)
Definition node_le (a b : node_row) : bool :=
  if bytes_eqb (nr_type a) (nr_type b) then text_le (nr_tag a) (nr_tag b) else text_le (nr_type a) (nr_type b).

Definition sb_store_list_proxy_nodes : store (list sb_proxy_record) :=
  rows ← query (fault env) (fun t => order_by node_le (nodes t));
  pure (mapM read_proxy_record rows).

Definition sb_store_find_proxy_node (id : option bytes) : store (option sb_proxy_record) := find_proxy_locked id.

(** Nodes of a subscription have a fingerprint of their own. *)
Definition scoped_fingerprint (subscription_id : option bytes) (fingerprint : bytes) : bytes :=
  match subscription_id with
  | Some s => sb_sha256_hex env (cstr s ++ bs ":" ++ fingerprint)
  | None => fingerprint
  end.

(** [tag] and [fingerprint] are unique, as is [id]. *)
Definition node_conflicts (id tag fingerprint : bytes) (r : node_row) : bool :=
  negb (bytes_eqb (nr_id r) id) && (bytes_eqb (nr_tag r) tag || bytes_eqb (nr_fingerprint r) fingerprint).

Definition insert_node (n : node_row) (t : store_tables) : result (unit * store_tables) :=
  l ← sql_insert (fun r => node_is (nr_id n) r || node_conflicts (nr_id n) (nr_tag n) (nr_fingerprint n) r) n (nodes t);
  Ok (tt, with_nodes t l).

(** An update of one row may not take the tag or fingerprint of another. *)
Definition update_node (id : bytes) (f : node_row -> node_row) (t : store_tables) : result (nat * store_tables) :=
  if existsb (fun r => node_is id r && existsb (node_conflicts id (nr_tag (f r)) (nr_fingerprint (f r))) (nodes t)) (nodes t)
  then sbq_fail (bs "UNIQUE constraint failed")
  else let (l, n) := sql_update (node_is id) f (nodes t) in Ok (n, with_nodes t l).

Definition node_taken : string := "A proxy with the same tag or fingerprint already exists".

Definition sb_store_create_proxy_node (node : sb_proxy_record) : store sb_proxy_record :=
  _ ← pure (validate_proxy (rc_tag node) (rc_type node) (rc_server node) (rc_port node) (rc_config node));
  fingerprint ← pure (fingerprint_of env (rc_type node) (rc_server node) (rc_port node) (rc_config node));
  let fingerprint := scoped_fingerprint (rc_sub node) fingerprint in
  id ← (if sb_str_empty (rc_id node) then new_uuid env else mret (cstr (rc_id node)));
  taken ← query (fault env) (fun t =>
    existsb (fun r => bytes_eqb (nr_tag r) (rc_tag node) || bytes_eqb (nr_fingerprint r) fingerprint) (nodes t));
  if taken : bool then refuse SB_ERR_VALIDATION node_taken
  else
    _ ← prepared env;
    config ← pure (dump_checked (rc_config node));
    time ← sql_now env;
    _ ← stmt (fault env) (insert_node (mk_node_row id (rc_tag node) (rc_type node) (rc_enabled node) (rc_server node) (rc_port node)
           config (cstr <$> rc_sub node) fingerprint (bind_opt_double (rc_latency node)) (cstr <$> rc_latency_test node) time time None));
    reload_proxy id.

Definition updated_node (node : sb_proxy_record) (config fingerprint time : bytes) (r : node_row) : node_row :=
  mk_node_row (nr_id r) (rc_tag node) (rc_type node) (rc_enabled node) (rc_server node) (rc_port node) config
    (cstr <$> rc_sub node) fingerprint (nr_latency r) (nr_latency_test r) (nr_created r) time (nr_source r).

Definition sb_store_update_proxy_node (node : sb_proxy_record) : store sb_proxy_record :=
  _ ← pure (validate_proxy (rc_tag node) (rc_type node) (rc_server node) (rc_port node) (rc_config node));
  if sb_str_empty (rc_id node) then refuse SB_ERR_VALIDATION "Proxy id is required"
  else
    let id := cstr (rc_id node) in
    fingerprint ← pure (fingerprint_of env (rc_type node) (rc_server node) (rc_port node) (rc_config node));
    let fingerprint := scoped_fingerprint (rc_sub node) fingerprint in
    taken ← query (fault env) (fun t => existsb (node_conflicts id (rc_tag node) fingerprint) (nodes t));
    if taken : bool then refuse SB_ERR_VALIDATION node_taken
    else
      _ ← prepared env;
      config ← pure (dump_checked (rc_config node));
      time ← sql_now env;
      changes ← stmt (fault env) (update_node id (updated_node node config fingerprint time));
      if (changes =? 0)%nat then refuse SB_ERR_NOT_FOUND "Node not found" else reload_proxy id.

Definition sb_store_delete_proxy_node (id : option bytes) : store unit :=
  let id := cstr (default [] id) in
  transaction (fault env)
    (_ ← stmt (fault env) (fun t => Ok (tt, with_outbounds t (List.filter (fun o => negb (bytes_eqb (snd o) id)) (outbounds t))));
     changes ← stmt (fault env) (fun t => Ok (length (List.filter (node_is id) (nodes t)),
                                              with_nodes t (List.filter (fun r => negb (node_is id r)) (nodes t))));
     if (changes =? 0)%nat then refuse SB_ERR_NOT_FOUND "Node not found" else mret tt).

(** ** Importing *)

(** [tag = ?1 AND (?2 IS NULL OR id != ?2)]. *)
Definition tag_taken (existing_id : option bytes) (tag : bytes) (r : node_row) : bool :=
  bytes_eqb (nr_tag r) tag && match existing_id with Some id => negb (bytes_eqb (nr_id r) id) | None => true end.

(** The name tried after [suffix] failures. *)
Definition display_candidate (tag : bytes) (suffix : nat) : bytes :=
  match suffix with O => tag | S _ => tag ++ bs " [" ++ fmt_uint (Z.of_nat suffix + 1) ++ bs "]" end.

(** The loop has no bound in the code; [fuel] is more than there are nodes. *)
Fixpoint display_loop (fuel : nat) (tag : bytes) (existing_id : option bytes) (suffix : nat) : store bytes :=
  match fuel with
  | O => refuse SB_ERR_GENERIC "out of fuel"
  | S fuel' =>
      found ← query (fault env) (fun t => existsb (tag_taken existing_id (display_candidate tag suffix)) (nodes t));
      if found : bool then display_loop fuel' tag existing_id (S suffix) else mret (display_candidate tag suffix)
  end.

Definition import_display_tag (tag : bytes) (existing_id : option bytes) : store bytes :=
  fun s => display_loop (S (length (nodes (db s)))) tag existing_id 0 s.

Definition sub_is (subscription_id : option bytes) (r : node_row) : bool :=
  match nr_sub r, subscription_id with Some a, Some b => bytes_eqb a b | None, None => true | _, _ => false end.

(** The node that an imported one replaces: the same fingerprint in the same
    subscription, or else the same name. *)
Definition same_fingerprint (fingerprint legacy : bytes) (sub : option bytes) (r : node_row) : bool :=
  (bytes_eqb (nr_fingerprint r) fingerprint || bytes_eqb (nr_fingerprint r) legacy) && sub_is sub r.
Definition same_name (tag fingerprint : bytes) (sub : option bytes) (r : node_row) : bool :=
  (bytes_eqb (nr_tag r) tag || match nr_source r with Some s => bytes_eqb s tag | None => false end) &&
  negb (bytes_eqb (nr_fingerprint r) fingerprint) && sub_is sub r.
Definition find_existing (tag fingerprint legacy : bytes) (sub : option bytes) (t : store_tables) : option bytes :=
  match List.find (same_fingerprint fingerprint legacy sub) (nodes t) with
  | Some r => Some (nr_id r)
  | None => nr_id <$> List.find (same_name tag fingerprint sub) (nodes t)
  end.

(** A name the user gave to the node stays. *)
Definition kept_tag (sub : option bytes) (display : bytes) (r : node_row) : bytes :=
  match sub, nr_source r with
  | Some _, Some source => if bytes_eqb (nr_tag r) source then display else nr_tag r
  | _, _ => display
  end.

Definition imported_node (node : sb_parsed_node) (sub : option bytes) (fingerprint config display time : bytes) (r : node_row) : node_row :=
  mk_node_row (nr_id r) (kept_tag sub display r) (pn_node_type node) (nr_enabled r) (pn_server node) (pn_server_port node)
    config sub fingerprint (nr_latency r) (nr_latency_test r) (nr_created r) time
    (match sub with Some _ => Some (pn_tag node) | None => None end).

(** [true] when the node was added, [false] when one was updated. *)
Definition upsert_one (node : sb_parsed_node) (subscription_id : option bytes) : store bool :=
  _ ← pure (validate_proxy (pn_tag node) (pn_node_type node) (pn_server node) (pn_server_port node) (Some (pn_protocol_config node)));
  legacy ← pure (fingerprint_of env (pn_node_type node) (pn_server node) (pn_server_port node) (Some (pn_protocol_config node)));
  let fingerprint := scoped_fingerprint subscription_id legacy in
  let sub := cstr <$> subscription_id in
  existing ← query (fault env) (find_existing (pn_tag node) fingerprint legacy sub);
  display ← import_display_tag (pn_tag node) existing;
  _ ← prepared env;
  match existing with
  | Some id =>
      config ← pure (dump_checked (Some (pn_protocol_config node)));
      time ← sql_now env;
      _ ← stmt (fault env) (update_node id (imported_node node sub fingerprint config display time));
      mret false
  | None =>
      id ← new_uuid env;
      config ← pure (dump_checked (Some (pn_protocol_config node)));
      time ← sql_now env;
      _ ← stmt (fault env) (insert_node (mk_node_row id display (pn_node_type node) true (pn_server node) (pn_server_port node)
             config sub fingerprint None None time time (match sub with Some _ => Some (pn_tag node) | None => None end)));
      mret true
  end.

Definition counted (added : bool) (r : sb_proxy_upsert_result) : sb_proxy_upsert_result :=
  if added then mk_upsert (up_added r + 1) (up_updated r) (up_errors r) else mk_upsert (up_added r) (up_updated r + 1) (up_errors r).

(** Nodes that fail are reported and skipped. *)
Fixpoint upsert_all (l : list sb_parsed_node) (sub : option bytes) (r : sb_proxy_upsert_result) : store sb_proxy_upsert_result :=
  match l with
  | [] => mret r
  | node :: l' =>
      outcome ← attempt (upsert_one node sub);
      upsert_all l' sub
        (match outcome with
         | Ok added => counted added r
         | Err e => mk_upsert (up_added r) (up_updated r)
                      (up_errors r ++ [bs "Failed to import " ++ cstr (pn_tag node) ++ bs ": " ++ err_msg e])
         end)
  end.

Definition sub_row_is (id : bytes) (r : sub_row) : bool := bytes_eqb (sr_id r) id.

Definition sb_store_upsert_proxy_nodes (l : list sb_parsed_node) (subscription_id : option bytes) : store sb_proxy_upsert_result :=
  _ ← match subscription_id with
      | Some id =>
          known ← query (fault env) (fun t => existsb (sub_row_is (cstr id)) (subs t));
          if known : bool then mret tt else refuse SB_ERR_NOT_FOUND "Subscription not found"
      | None => mret tt
      end;
  transaction (fault env) (upsert_all l subscription_id (mk_upsert 0 0 [])).

(** ** Subscriptions *)

Definition find_subscription_locked (id : option bytes) : store (option sb_subscription) :=
  query (fault env) (fun t => read_subscription <$> List.find (sub_row_is (cstr (default [] id))) (subs t)).

Definition reload_subscription (id : bytes) : store sb_subscription :=
  found ← find_subscription_locked (Some id);
  match found with Some s => mret s | None => refuse SB_ERR_GENERIC "subscription could not be reloaded" end.

Definition sb_store_list_subscriptions : store (list sb_subscription) :=
  query (fault env) (fun t => map read_subscription (order_by (fun a b => text_le (sr_name a) (sr_name b)) (subs t))).

Definition sb_store_find_subscription (id : option bytes) : store (option sb_subscription) := find_subscription_locked id.

Definition insert_sub (r : sub_row) (t : store_tables) : result (unit * store_tables) :=
  l ← sql_insert (sub_row_is (sr_id r)) r (subs t);
  Ok (tt, with_subs t l).

Definition sb_store_create_subscription (sub : sb_subscription) : store sb_subscription :=
  if is_empty (sb_name sub) || is_empty (sb_url sub) || (sb_interval sub <=? 0)
  then refuse SB_ERR_VALIDATION "Subscription name, URL, and positive refresh interval are required"
  else
    id ← (if sb_str_empty (sb_id sub) then new_uuid env else mret (cstr (sb_id sub)));
    time ← sql_now env;
    _ ← stmt (fault env) (insert_sub (mk_sub_row id (sb_name sub) (sb_url sub) (sb_enabled sub) (sb_interval sub)
           (cstr <$> sb_fetched sub) (cstr <$> sb_result sub) time time (bs "{}") None None 0 0));
    reload_subscription id.

Definition updated_sub (sub : sb_subscription) (time : bytes) (r : sub_row) : sub_row :=
  mk_sub_row (sr_id r) (sb_name sub) (sb_url sub) (sb_enabled sub) (sb_interval sub) (sr_fetched r) (sr_result r) (sr_created r)
    time (sr_usage r) (sr_attempt r) (sr_error r)
    (if negb (bytes_eqb (sr_url r) (sb_url sub)) || negb (Bool.eqb (sr_enabled r) (sb_enabled sub)) || negb (sr_interval r =? sb_interval sub)
     then 0 else sr_next r) (sr_failures r).

Definition update_sub (id : bytes) (f : sub_row -> sub_row) (t : store_tables) : result (nat * store_tables) :=
  let (l, n) := sql_update (sub_row_is id) f (subs t) in Ok (n, with_subs t l).

Definition sb_store_update_subscription (sub : sb_subscription) : store sb_subscription :=
  if sb_str_empty (sb_id sub) || is_empty (sb_name sub) || is_empty (sb_url sub) || (sb_interval sub <=? 0)
  then refuse SB_ERR_VALIDATION "Subscription id, name, URL, and positive refresh interval are required"
  else
    time ← sql_now env;
    changes ← stmt (fault env) (update_sub (cstr (sb_id sub)) (updated_sub sub time));
    if (changes =? 0)%nat then refuse SB_ERR_NOT_FOUND "Subscription not found" else reload_subscription (cstr (sb_id sub)).

Definition sb_store_delete_subscription (id : option bytes) : store unit :=
  let id := cstr (default [] id) in
  exec_changes env (fun t => Ok (length (List.filter (sub_row_is id) (subs t)),
                                 with_subs t (List.filter (fun r => negb (sub_row_is id r)) (subs t))))
    (Some "Subscription not found"%string).

(** ** Fetch results *)

Definition fetch_metadata (r : sb_subscription_fetch_result) : sbj :=
  let v := SBJ_OBJECT [] in
  let v := sbj_set v "added" (sbj_uint (fe_added r)) in
  let v := sbj_set v "updated" (sbj_uint (fe_updated r)) in
  let v := sbj_set v "skipped" (sbj_uint (fe_skipped r)) in
  let v := sbj_set v "total" (sbj_uint (fe_found r)) in
  sbj_set v "errors" (strvec_to_json (fe_errors r)).

Definition recorded_fetch (text time : bytes) (r : sub_row) : sub_row :=
  mk_sub_row (sr_id r) (sr_name r) (sr_url r) (sr_enabled r) (sr_interval r) (Some time) (Some text) (sr_created r) (sr_updated r)
    (sr_usage r) (sr_attempt r) (sr_error r) (sr_next r) (sr_failures r).

Definition sb_store_record_subscription_fetch (id : option bytes) (result : sb_subscription_fetch_result) : store unit :=
  text ← pure (dump_checked (Some (fetch_metadata result)));
  time ← sql_now env;
  exec_changes env (update_sub (cstr (default [] id)) (recorded_fetch text time)) (Some "Subscription not found"%string).

(** An answer for a source that was edited or deleted meanwhile is refused. *)
Definition subscription_unchanged (expected : sb_subscription) : store sb_subscription :=
  found ← find_subscription_locked (Some (sb_id expected));
  match found with
  | None => refuse SB_ERR_NOT_FOUND "Subscription not found"
  | Some current =>
      if negb (bytes_eqb (sb_url current) (sb_url expected)) || negb (Bool.eqb (sb_enabled current) (sb_enabled expected))
      then refuse SB_ERR_CONFLICT "Subscription changed during refresh; response discarded"
      else mret current
  end.

Fixpoint apply_nodes (l : list sb_parsed_node) (sub : bytes) (r : sb_proxy_upsert_result) : store sb_proxy_upsert_result :=
  match l with
  | [] => mret r
  | node :: l' => added ← upsert_one node (Some sub); apply_nodes l' sub (counted added r)
  end.

Definition next_refresh (now interval : Z) : Z :=
  let interval := if interval <? 60 then 60 else interval in
  if INT64_MAX - now <? interval then INT64_MAX else now + interval.

Definition applied_fetch (time metadata usage : bytes) (next : Z) (r : sub_row) : sub_row :=
  mk_sub_row (sr_id r) (sr_name r) (sr_url r) (sr_enabled r) (sr_interval r) (Some time) (Some metadata) (sr_created r) (sr_updated r)
    usage (Some time) None next 0.

Definition sb_store_apply_subscription_fetch (expected : sb_subscription) (l : list sb_parsed_node)
    (result : sb_subscription_fetch_result) (now : Z) : store sb_subscription_fetch_result :=
  transaction (fault env)
    (current ← subscription_unchanged expected;
     upsert ← apply_nodes l (sb_id expected) (mk_upsert 0 0 []);
     let result := mk_fetch (up_added upsert) (up_updated upsert) (fe_skipped result) (Z.of_nat (length l)) (fe_usage result) (fe_errors result) in
     _ ← prepared env;
     metadata ← pure (dump_checked (Some (fetch_metadata result)));
     usage ← pure (dump_checked (fe_usage result));
     _ ← stmt (fault env) (update_sub (cstr (sb_id expected))
           (applied_fetch (datetime env now) metadata usage (next_refresh now (sb_interval current))));
     mret result).

(** The pause doubles from one minute to an hour.  The counter is never negative
    (see [restore_subscription]); the shift would be undefined if it were. *)
Definition retry_attempts (failures : Z) : Z := if failures <? 20 then failures + 1 else 20.
Definition retry_delay (attempts : Z) : Z := if 6 <? attempts then 3600 else Z.shiftl 60 (attempts - 1).
Definition retry_at (now delay : Z) : Z := if INT64_MAX - delay <? now then INT64_MAX else now + delay.

Definition failed_fetch (time : bytes) (message : option bytes) (attempts next : Z) (r : sub_row) : sub_row :=
  mk_sub_row (sr_id r) (sr_name r) (sr_url r) (sr_enabled r) (sr_interval r) (sr_fetched r) (sr_result r) (sr_created r) (sr_updated r)
    (sr_usage r) (Some time) message next attempts.

Definition sb_store_record_subscription_failure (expected : sb_subscription) (message : option bytes) (now : Z) : store unit :=
  current ← subscription_unchanged expected;
  let attempts := retry_attempts (sb_failures current) in
  _ ← stmt (fault env) (update_sub (cstr (sb_id expected))
        (failed_fetch (datetime env now) (cstr <$> message) attempts (retry_at now (retry_delay attempts))));
  mret tt.
End Env.

(** * The repository: the render request of a host ([c/src/store.c])

    Collects the profile, nodes, capabilities and network of a host into the request
    that the renderer takes. *)

Section Env.
Context (env : store_env).

Definition read_node (r : node_row) : result sb_proxy_node :=
  if (nr_port r <? 0) || (65535 <? nr_port r) then sb_fail SB_ERR_GENERIC (port_error (nr_id r))
  else
    config ← parse_object (nr_config r) "proxy protocol_config";
    Ok (mk_node (nr_id r) (nr_tag r) (nr_type r) (nr_enabled r) (nr_server r) (nr_port r) config).

(** The enabled nodes assigned to the host. *)
Definition assigned_nodes (host : bytes) (t : store_tables) : list node_row :=
  order_by node_le (List.filter (fun r => nr_enabled r && existsb (outbound_is host (nr_id r)) (outbounds t)) (nodes t)).
Definition enabled_nodes (t : store_tables) : list node_row := order_by node_le (List.filter nr_enabled (nodes t)).

Definition read_nodes (rows : store_tables -> list node_row) : store (list sb_proxy_node) :=
  l ← query (fault env) rows;
  pure (mapM read_node l).

Definition host_nodes (mode : sb_profile_mode) (host : bytes) : store (list sb_proxy_node) :=
  match mode with
  | SB_PROFILE_FULL => mret []
  | SB_PROFILE_MANAGED =>
      l ← read_nodes (assigned_nodes host);
      match l with [] => read_nodes enabled_nodes | _ => mret l end
  end.

Definition host_context (h : host_row) (capabilities : sbj) : sbj :=
  let v := sbj_set (SBJ_OBJECT []) "id" (SBJ_STRING (cstr (hr_id h))) in
  let v := sbj_set v "name" (SBJ_STRING (hr_name h)) in
  sbj_set v "capabilities" capabilities.

(** The tags of the profile's endpoints can be routed to. *)
Definition push_endpoint_tag (tags : sbj) (endpoint : sbj) : sbj :=
  match sbj_get (Some endpoint) "tag" with
  | Some (SBJ_STRING s) => sbj_arr_push tags (Some (sbj_clone (SBJ_STRING s)))
  | _ => tags
  end.
Definition with_endpoint_tags (r : sb_render_request) : sb_render_request :=
  mk_request (rq_mode r) (rq_profile r) (rq_nodes r) (rq_host_context r)
    (foldl push_endpoint_tag (rq_external_route_tags r) (arr_items (sbj_get (Some (rq_profile r)) "endpoints")))
    (rq_priority_route_rules r) (rq_network_outbounds r) (rq_control_plane_server r) (rq_rule_script r)
    (rq_clash_controller r) (rq_clash_secret r).

Definition sb_store_render_request_for_host (host_id : option bytes) : store sb_render_request :=
  let id := cstr (default [] host_id) in
  row ← query (fault env) (fun t => find_host_row t id);
  match row with
  | None => refuse SB_ERR_NOT_FOUND "Host not found"
  | Some h =>
      let profile_id := default (bs "default") (hr_profile h) in
      found ← find_profile_locked env (Some profile_id);
      match found with
      | None => pure (sb_fail SB_ERR_GENERIC (bs "host profile not found: " ++ cstr profile_id))
      | Some p =>
          l ← host_nodes (cf_mode p) id;
          capabilities ← pure (parse_object (hr_capabilities h) "host capabilities");
          tailscale ← pure (parse_object (hr_tailscale h) "host tailscale");
          let request := mk_request (cf_mode p) (default (SBJ_OBJECT []) (cf_profile p)) l (host_context h capabilities) (SBJ_ARRAY [])
                           (SBJ_ARRAY []) (SBJ_ARRAY []) []
                           (if cf_script_on p && negb (is_empty (cf_script p)) then Some (cf_script p) else None)
                           (controller_address (hr_clash_api h)) (hr_clash_secret h) in
          request ← pure (sb_tailscale_render (pton4 env) (pton6 env) (curl_url env) request (Some tailscale) host_id);
          mret (with_endpoint_tags request)
      end
  end.
End Env.
