(* ===== verification/StoreBackup.v ===== *)
(** * The repository: backups and WireGuard imports ([c/src/store.c])

    Export and restoration of nodes, peers, subscriptions and settings as one
    document, and the guarded import of a converted WireGuard configuration with
    its rollback. *)

From Stdlib Require Import SpecFloat.
From S2P Require Import Prelude Util Json JsonText Types Sqlite Auth Tailscale StoreTables StoreAccounts StoreNodes.

Section Env.
Context (env : store_env).

(** ** Export *)

Definition sb_store_export_backup : store sbj :=
  l ← sb_store_list_proxy_nodes env;
  p ← sb_store_list_wireguard_peers env;
  s ← sb_store_list_subscriptions env;
  settings ← sb_store_app_settings env;
  let result := sbj_set (SBJ_OBJECT []) "proxy_nodes" (SBJ_ARRAY (map sb_proxy_record_to_json l)) in
  let result := sbj_set result "wireguard_peers" (SBJ_ARRAY (map sb_wireguard_peer_to_json p)) in
  let result := sbj_set result "subscriptions" (SBJ_ARRAY (map sb_subscription_to_json s)) in
  mret (sbj_set result "app_settings" settings).

(** ** Restoration *)

(** [INSERT OR REPLACE]: rows with the same keys give way. *)
Definition sql_replace {R} (conflicts : R -> bool) (fresh : R) (l : list R) : list R :=
  List.filter (fun r => negb (conflicts r)) l ++ [fresh].

(** [COALESCE(NULLIF(created, ''), datetime('now'))]. *)
Definition created_or (created time : bytes) : bytes := if is_empty created then time else created.

Definition replace_sub (r : sub_row) (t : store_tables) : store_tables :=
  with_subs t (sql_replace (sub_row_is (sr_id r)) r (subs t)).

Definition clamp_failures (n : Z) : Z := if n <? 0 then 0 else if 20 <? n then 20 else n.

(** [true] when a row was written, [false] when the entry is skipped. *)
Definition restore_subscription (value : option sbj) : store bool :=
  id ← pure (jv_str value "id" []);
  url ← pure (jv_str value "url" []);
  if is_empty (cstr id) || is_empty url then mret false
  else
    name ← pure (jv_str value "name" []);
    enabled ← pure (jv_bool value "enabled" true);
    refresh ← pure (jv_int value "refresh_interval" 3600);
    created_at ← pure (jv_str value "created_at" []);
    _ ← prepared env;
    usage ← pure (dump_checked (Some (match sbj_get value "usage" with Some (SBJ_OBJECT m) => SBJ_OBJECT m | _ => SBJ_OBJECT [] end)));
    next_refresh ← pure (jv_int value "next_refresh_at" 0);
    failure_count ← pure (jv_int value "failure_count" 0);
    time ← sql_now env;
    _ ← stmt (fault env) (fun t => Ok (tt, replace_sub
          (mk_sub_row (cstr id) name url enabled refresh (cstr <$> jv_opt_str value "last_fetched_at")
             (cstr <$> jv_opt_str value "last_fetch_result") (created_or (cstr created_at) time) time usage
             (cstr <$> jv_opt_str value "last_attempt_at") (cstr <$> jv_opt_str value "last_error")
             (if next_refresh <? 0 then 0 else next_refresh) (clamp_failures failure_count)) t));
    mret true.

Definition replace_node (r : node_row) (t : store_tables) : store_tables :=
  with_nodes t (sql_replace (fun x => node_is (nr_id r) x || node_conflicts (nr_id r) (nr_tag r) (nr_fingerprint r) x) r (nodes t)).

Definition protocol_text (value : option sbj) : result bytes :=
  match sbj_get value "protocol_config" with
  | None => Ok (bs "{}")
  | Some (SBJ_STRING s) => Ok (cstr s)
  | Some v => dump_checked (Some v)
  end.

Definition backup_latency (value : option sbj) : option double :=
  let latency := sbj_get value "latency" in
  if sbj_is_number latency then bind_opt_double (Some (sbj_as_double latency (S754_zero false))) else None.

Definition backup_source (value : option sbj) (tag : bytes) : option bytes :=
  match sbj_get value "source_tag" with
  | Some (SBJ_STRING s) => Some s
  | _ => match jv_opt_str value "subscription_id" with Some _ => Some tag | None => None end
  end.

Definition restore_node (value : option sbj) : store bool :=
  id ← pure (jv_str value "id" []);
  tag ← pure (jv_str value "tag" []);
  if is_empty (cstr id) || is_empty tag then mret false
  else
    protocol ← pure (protocol_text value);
    node_type ← pure (jv_str value "node_type" []);
    enabled ← pure (jv_bool value "enabled" true);
    server ← pure (jv_str value "server" []);
    port ← pure (jv_int value "server_port" 0);
    fingerprint ← pure (jv_str value "fingerprint" []);
    created_at ← pure (jv_str value "created_at" []);
    time ← sql_now env;
    _ ← stmt (fault env) (fun t => Ok (tt, replace_node
          (mk_node_row (cstr id) tag node_type enabled server port protocol (cstr <$> jv_opt_str value "subscription_id")
             (cstr fingerprint) (backup_latency value) (cstr <$> jv_opt_str value "last_latency_test")
             (created_or (cstr created_at) time) time (backup_source value tag)) t));
    mret true.

Definition replace_peer (p : sb_wireguard_peer) (t : store_tables) : store_tables :=
  with_peers t (sql_replace (fun x => bytes_eqb (wp_id x) (wp_id p) || bytes_eqb (wp_address x) (wp_address p)) p (peers t)).

Definition restore_peer (value : option sbj) : store bool :=
  id ← pure (jv_str value "id" []);
  address ← pure (jv_str value "address" []);
  if is_empty (cstr id) || is_empty (cstr address) then mret false
  else
    name ← pure (jv_str value "name" []);
    private_key ← pure (jv_str value "private_key" []);
    public_key ← pure (jv_str value "public_key" []);
    dns ← pure (jv_str value "dns" (bs "10.59.32.1"));
    enabled ← pure (jv_bool value "enabled" true);
    keepalive ← pure (jv_int value "persistent_keepalive" 25);
    allowed_ips ← pure (jv_str value "allowed_ips" (bs "0.0.0.0/0, ::/0"));
    quota ← pure (jv_int value "quota_bytes" 0);
    created_at ← pure (jv_str value "created_at" []);
    time ← sql_now env;
    _ ← stmt (fault env) (fun t => Ok (tt, replace_peer
          (mk_peer (cstr id) name (cstr private_key) (cstr public_key) (cstr <$> jv_opt_str value "preshared_key") (cstr address)
             (cstr dns) enabled keepalive (cstr allowed_ips) (cstr <$> jv_opt_str value "expire_at") quota
             (created_or (cstr created_at) time) time (jv_opt_str value "notes") (cstr <$> jv_opt_str value "host_id")) t));
    mret true.

Fixpoint restore_settings (l : list (bytes * sbj)) (count : Z) : store Z :=
  match l with
  | [] => mret count
  | (key, value) :: l' =>
      _ ← prepared env;
      text ← pure (dump_checked (Some value));
      time ← sql_now env;
      _ ← stmt (fault env) (fun t => Ok (tt, upsert_setting (cstr key) text time t));
      restore_settings l' (count + 1)
  end.

(** Entries that are not objects are skipped. *)
Fixpoint restore_all (restore : option sbj -> store bool) (l : list sbj) (count : Z) : store Z :=
  match l with
  | [] => mret count
  | SBJ_OBJECT m :: l' =>
      written ← restore (Some (SBJ_OBJECT m));
      restore_all restore l' (if written : bool then count + 1 else count)
  | _ :: l' => restore_all restore l' count
  end.

Definition section_valid (check : option sbj -> bool) (section : option sbj) : bool :=
  match section with None => true | Some v => check (Some v) end.

Definition sb_store_restore_backup (backup : option sbj) : store sbj :=
  let settings := sbj_get backup "app_settings" in
  let subscriptions := sbj_get backup "subscriptions" in
  let nodes := sbj_get backup "proxy_nodes" in
  let peers := sbj_get backup "wireguard_peers" in
  if negb (sbj_is_object backup) then refuse SB_ERR_VALIDATION "backup must be a JSON object"
  else if negb (section_valid sbj_is_object settings) then refuse SB_ERR_VALIDATION "backup app_settings must be an object"
  else if negb (section_valid sbj_is_array subscriptions && section_valid sbj_is_array nodes && section_valid sbj_is_array peers)
  then refuse SB_ERR_VALIDATION "backup row sections must be arrays"
  else
    counts ← transaction (fault env)
      (a ← restore_settings (obj_members settings) 0;
       b ← restore_all restore_subscription (arr_items subscriptions) 0;
       c ← restore_all restore_node (arr_items nodes) 0;
       d ← restore_all restore_peer (arr_items peers) 0;
       mret (a, b, c, d));
    let '(a, b, c, d) := counts in
    let result := sbj_set (SBJ_OBJECT []) "app_settings" (sbj_uint a) in
    let result := sbj_set result "subscriptions" (sbj_uint b) in
    let result := sbj_set result "proxy_nodes" (sbj_uint c) in
    mret (sbj_set result "wireguard_peers" (sbj_uint d)).

(** ** Imports *)

Definition import_json (r : import_row) : sbj :=
  let v := sbj_set (SBJ_OBJECT []) "id" (SBJ_STRING (cstr (im_id r))) in
  let v := sbj_set v "created_at" (SBJ_STRING (cstr (im_created r))) in
  let v := sbj_set v "status" (SBJ_STRING (cstr (im_status r))) in
  sbj_set v "added" (sbj_uint (Z.of_nat (sbj_arr_len (sbj_parse (im_ids r))))).

(** [ORDER BY created_at DESC, rowid DESC LIMIT 20]. *)
Definition sb_store_list_wg_imports : store sbj :=
  query (fault env) (fun t =>
    SBJ_ARRAY (map import_json (take 20 (order_by (fun a b => text_le (im_created b) (im_created a)) (rev (imports t)))))).

Definition wg_keys : list string := ["wg_server_key"; "wireguard_interface"]%string.
Definition is_wg_key (key : bytes) : bool := existsb (fun k => bytes_eqb key (bs k)) wg_keys.

Fixpoint snapshot_settings (rows : list setting_row) (acc : sbj) : result sbj :=
  match rows with
  | [] => Ok acc
  | r :: rows' =>
      value ← parse_object (st_value r) "WireGuard settings";
      snapshot_settings rows' (sbj_setn acc (cstr (st_key r)) (Some value))
  end.

Definition snapshot_json (settings : sbj) (l : list sb_wireguard_peer) : sbj :=
  let v := sbj_set (SBJ_OBJECT []) "app_settings" settings in
  sbj_set v "wireguard_peers" (SBJ_ARRAY (map sb_wireguard_peer_to_json l)).

Definition wg_snapshot_locked : store sbj :=
  rows ← query (fault env) (fun t => order_by (fun a b => text_le (st_key a) (st_key b)) (List.filter (fun s => is_wg_key (st_key s)) (settings t)));
  settings ← pure (snapshot_settings rows (SBJ_OBJECT []));
  l ← query (fault env) (fun t => map read_wireguard_peer (order_by (fun a b => text_le (wp_id a) (wp_id b)) (peers t)));
  mret (snapshot_json settings l).

Definition delete_setting (key : bytes) (t : store_tables) : store_tables :=
  with_settings t (List.filter (fun s => negb (bytes_eqb (st_key s) key)) (settings t)).

Fixpoint wg_settings_locked (settings : option sbj) (keys : list string) : store unit :=
  match keys with
  | [] => mret tt
  | key :: keys' =>
      _ ← match sbj_get settings key with
          | Some value =>
              _ ← prepared env;
              text ← pure (dump_checked (Some value));
              time ← sql_now env;
              stmt (fault env) (fun t => Ok (tt, upsert_setting (bs key) text time t))
          | None => stmt (fault env) (fun t => Ok (tt, delete_setting (bs key) t))
          end;
      wg_settings_locked settings keys'
  end.

Definition wg_import_audit (actor : option bytes) (action : string) (id : bytes) : store unit :=
  time ← sql_now env;
  stmt (fault env) (fun t => Ok (tt, append_audit (default [] actor) (bs action) (Some id) time t)).

Definition wg_import_same_ip (left right : bytes) : bool := bytes_eqb (before_char 47 (cstr left)) (before_char 47 (cstr right)).

(** A member as a C string, [""] if it is no string. *)
Definition member_text (v : option sbj) (key : string) : bytes := cstr (default [] (sbj_get_str v key (Some []))).

Inductive import_action := Add | AlreadyPresent | Conflict.

Definition action_name (a : import_action) : string :=
  match a with Add => "add" | AlreadyPresent => "already_present" | Conflict => "conflict" end.

(** How an incoming peer relates to those in the table. *)
Definition same_peer (peer old : sbj) : bool :=
  bytes_eqb (member_text (Some peer) "public_key") (member_text (Some old) "public_key") &&
  wg_import_same_ip (member_text (Some peer) "address") (member_text (Some old) "address").
Definition overlaps (peer old : sbj) : bool :=
  bytes_eqb (member_text (Some peer) "public_key") (member_text (Some old) "public_key") ||
  wg_import_same_ip (member_text (Some peer) "address") (member_text (Some old) "address") ||
  bytes_eqb (member_text (Some peer) "id") (member_text (Some old) "id").
Definition peer_action (existing : list sbj) (peer : sbj) : import_action :=
  if existsb (fun old => negb (same_peer peer old) && overlaps peer old) existing then Conflict
  else if existsb (same_peer peer) existing then AlreadyPresent else Add.

Definition peer_report (existing : list sbj) (peer : sbj) : sbj :=
  let p := Some peer in
  let row := sbj_set_str (SBJ_OBJECT []) "id" (member_text p "id") in
  let row := sbj_set_str row "name" (member_text p "name") in
  let row := sbj_set_str row "address" (member_text p "address") in
  let row := sbj_set_bool row "enabled" (sbj_get_bool p "enabled" false) in
  let row := sbj_set_bool row "has_private_key" (negb (is_empty (member_text p "private_key"))) in
  sbj_set_str row "action" (bs (action_name (peer_action existing peer))).

Definition is_action (existing : list sbj) (a : import_action) (peer : sbj) : bool :=
  match a, peer_action existing peer with Add, Add | AlreadyPresent, AlreadyPresent | Conflict, Conflict => true | _, _ => false end.

(** Conflicts with the server settings, then with single peers. *)
Definition server_conflicts (before incoming_settings : option sbj) : list bytes :=
  let old := sbj_get before "app_settings" in
  match arr_items (sbj_get before "wireguard_peers") with
  | [] => []
  | _ =>
      (if bytes_eqb (member_text (sbj_get old "wg_server_key") "public_key") (member_text (sbj_get incoming_settings "wg_server_key") "public_key")
       then [] else [bs "Existing WireGuard peers use a different or unknown server identity"]) ++
      (if bytes_eqb (member_text (sbj_get old "wireguard_interface") "address") (member_text (sbj_get incoming_settings "wireguard_interface") "address")
       then [] else [bs "Existing WireGuard peers use a different server subnet"])
  end.

Fixpoint peer_conflicts (existing incoming : list sbj) (index : nat) : list bytes :=
  match incoming with
  | [] => []
  | peer :: rest =>
      (if is_action existing Conflict peer
       then [bs "Client " ++ fmt_uint (Z.of_nat index + 1) ++ bs " conflicts with an existing identifier, address or public key"] else []) ++
      peer_conflicts existing rest (S index)
  end.

Record import_plan := mk_plan { pl_before : sbj; pl_digest : bytes; pl_conflicts : list bytes; pl_additions : list sbj; pl_report : sbj }.

Definition import_digest (before batch : sbj) : result bytes :=
  let material := sbj_set (SBJ_OBJECT []) "before" (sbj_clone before) in
  let material := sbj_set material "incoming" (sbj_clone batch) in
  serialized ← dump_checked (Some material);
  Ok (sb_sha256_hex env serialized).

Definition plan_report (incoming_settings : option sbj) (existing incoming : list sbj) (conflicts : list bytes) (apply : bool) (digest : bytes) : sbj :=
  let r := sbj_set (SBJ_OBJECT []) "conflicts" (SBJ_ARRAY (map (fun c => SBJ_STRING (cstr c)) conflicts)) in
  let r := sbj_set r "clients" (SBJ_ARRAY (map (peer_report existing) incoming)) in
  let r := sbj_set_str r "format" (bs "wg-easy-v14") in
  let r := sbj_set_str r "status" (bs (if apply then "imported" else "preview")) in
  let r := sbj_set_str r "preview_digest" digest in
  let r := sbj_set_bool r "can_import" (match conflicts with [] => true | _ => false end) in
  let r := sbj_set r "added" (sbj_uint (Z.of_nat (length (List.filter (is_action existing Add) incoming)))) in
  let r := sbj_set r "skipped" (sbj_uint (Z.of_nat (length (List.filter (is_action existing AlreadyPresent) incoming)))) in
  let r := sbj_set_str r "server_address" (member_text (sbj_get incoming_settings "wireguard_interface") "address") in
  sbj_set_str r "server_public_key" (member_text (sbj_get incoming_settings "wg_server_key") "public_key").

Definition wg_import_plan (batch : sbj) (apply : bool) : store import_plan :=
  let incoming := arr_items (sbj_get (Some batch) "wireguard_peers") in
  let incoming_settings := sbj_get (Some batch) "app_settings" in
  before ← wg_snapshot_locked;
  digest ← pure (import_digest before batch);
  let existing := arr_items (sbj_get (Some before) "wireguard_peers") in
  let conflicts := server_conflicts (Some before) incoming_settings ++ peer_conflicts existing incoming 0 in
  mret (mk_plan before digest conflicts (map sbj_clone (List.filter (is_action existing Add) incoming))
          (plan_report incoming_settings existing incoming conflicts apply digest)).

(** The settings after the import: the new keys, and the address of the interface. *)
Definition merged_settings (before incoming_settings : option sbj) : sbj :=
  let old := sbj_get before "app_settings" in
  let s := sbj_setn (sbj_clone (default (SBJ_OBJECT []) old)) (bs "wg_server_key") (sbj_clone <$> sbj_get incoming_settings "wg_server_key") in
  let interface := match sbj_get old "wireguard_interface" with Some i => sbj_clone i | None => SBJ_OBJECT [] end in
  sbj_set s "wireguard_interface"
    (sbj_set_str interface "address" (member_text (sbj_get incoming_settings "wireguard_interface") "address")).

Fixpoint restore_peers (l : list sbj) : store unit :=
  match l with [] => mret tt | p :: l' => _ ← restore_peer (Some p); restore_peers l' end.

Definition insert_import (r : import_row) (t : store_tables) : result (unit * store_tables) :=
  l ← sql_insert (fun x => bytes_eqb (im_id x) (im_id r)) r (imports t);
  Ok (tt, with_imports t l).

Definition import_ids (additions : list sbj) : sbj := SBJ_ARRAY (map (fun p => SBJ_STRING (member_text (Some p) "id")) additions).

Definition wg_import_apply (batch : sbj) (plan : import_plan) (preview_digest actor : option bytes) : store sbj :=
  match pl_conflicts plan with
  | _ :: _ => refuse SB_ERR_CONFLICT "Migration has conflicts; no changes applied"
  | [] =>
      if negb (sb_streq preview_digest (Some (pl_digest plan)))
      then refuse SB_ERR_CONFLICT "Migration input or WireGuard state changed; preview again before importing"
      else
        _ ← wg_settings_locked (Some (merged_settings (Some (pl_before plan)) (sbj_get (Some batch) "app_settings"))) wg_keys;
        _ ← restore_peers (pl_additions plan);
        after ← wg_snapshot_locked;
        migration_id ← new_uuid env;
        _ ← prepared env;
        before_text ← pure (dump_checked (Some (pl_before plan)));
        after_text ← pure (dump_checked (Some after));
        ids_text ← pure (dump_checked (Some (import_ids (pl_additions plan))));
        time ← sql_now env;
        _ ← stmt (fault env) (insert_import (mk_import migration_id time (bs "applied") before_text after_text ids_text));
        _ ← wg_import_audit actor "wireguard.import" migration_id;
        mret (sbj_set_bool (sbj_set_str (pl_report plan) "migration_id" migration_id) "restart_required" true)
  end.

(** Without [apply] the transaction is rolled back after it has read the tables. *)
Definition sb_store_wg_import (batch : option sbj) (apply : bool) (preview_digest actor : option bytes) : store sbj :=
  match batch, sbj_get batch "wireguard_peers", sbj_get batch "app_settings" with
  | Some b, Some (SBJ_ARRAY _), Some (SBJ_OBJECT _) =>
      if apply then transaction (fault env) (plan ← wg_import_plan b true; wg_import_apply b plan preview_digest actor)
      else
        _ ← control (fault env);
        plan ← wg_import_plan b false;
        mret (pl_report plan)
  | _, _, _ => refuse SB_ERR_VALIDATION "Validated WireGuard migration batch is required"
  end.

Fixpoint remove_peers (ids : list sbj) : store unit :=
  match ids with
  | [] => mret tt
  | v :: ids' =>
      let id := cstr (default [] (sbj_as_str (Some v) (Some []))) in
      _ ← stmt (fault env) (fun t => Ok (tt, with_links t (List.filter (fun k => negb (bytes_eqb (lk_peer k) id)) (links t))));
      _ ← stmt (fault env) (fun t => Ok (tt, with_peers t (List.filter (fun p => negb (peer_is id p)) (peers t))));
      remove_peers ids'
  end.

Definition rolled_back (r : import_row) : import_row :=
  mk_import (im_id r) (im_created r) (bs "rolled_back") (im_before r) (im_after r) (im_ids r).

Definition import_is (id : bytes) (r : import_row) : bool := bytes_eqb (im_id r) id.

Definition sb_store_wg_import_rollback (id : option bytes) (actor : option bytes) : store sbj :=
  let key := cstr (default [] id) in
  transaction (fault env)
    (row ← query (fault env) (fun t => List.find (import_is key) (imports t));
     match row with
     | None => refuse SB_ERR_NOT_FOUND "Migration record not found"
     | Some r =>
         if negb (bytes_eqb (cstr (im_status r)) (bs "applied")) then refuse SB_ERR_CONFLICT "Migration was already rolled back"
         else
           match parse_object (im_before r) "migration before snapshot", parse_object (im_after r) "migration after snapshot", sbj_parse (im_ids r) with
           | Ok before, Ok after, Some (SBJ_ARRAY ids) =>
               current ← wg_snapshot_locked;
               if negb (sbj_equal (Some current) (Some after))
               then refuse SB_ERR_CONFLICT "WireGuard state changed after import; automatic rollback would overwrite those changes"
               else
                 _ ← remove_peers ids;
                 _ ← wg_settings_locked (sbj_get (Some before) "app_settings") wg_keys;
                 _ ← stmt (fault env) (fun t => Ok (tt, with_imports t (fst (sql_update (import_is key) rolled_back (imports t)))));
                 _ ← wg_import_audit actor "wireguard.import.rollback" key;
                 let out := sbj_set_str (SBJ_OBJECT []) "status" (bs "rolled_back") in
                 let out := sbj_set_str out "migration_id" key in
                 mret (sbj_set_bool out "restart_required" true)
           | _, _, _ => refuse SB_ERR_GENERIC "Invalid migration rollback record"
           end
     end).
End Env.
