(* ===== verification/StoreCalls.v ===== *)
(** * Calls of the repository and the steps they take

    [store_step] is the repository as a transition system on its tables, one kind of
    step per statement that writes.  [call_steps]: every call takes only steps of
    the kinds listed for it, in whatever way it ends.  Invariants of the tables are
    then proved once per step instead of once per call. *)

From S2P Require Import Prelude Util Json JsonText Types Sqlite SqliteProofs Auth Tailscale StoreTables StoreAccounts StoreHosts StoreNodes StoreBackup.

(** ** Calls

    The calls that write.  [EnrollLocked] is the part of an enrollment under the
    lock: together with the whole call it covers what other threads do between its
    two parts. *)
Inductive store_call :=
  | EnsureAdmin (password : option bytes)
  | CreateUser (username : option bytes) (hash : bytes) (role : option bytes)
  | DeleteUser (actor user : option bytes)
  | ResetPassword (user hash : option bytes)
  | RecordAudit (actor action target : option bytes)
  | UpdateSettings (sections : option sbj)
  | SetSetting (key : option bytes) (value : option sbj)
  | CreatePeer (peer : sb_wireguard_peer)
  | UpdatePeer (peer : sb_wireguard_peer)
  | DeletePeer (id : option bytes)
  | EnablePeer (id : option bytes) (enabled : bool)
  | OneTimeLink (token peer expires : option bytes)
  | SaveCapture (host digest data : bytes)
  | DeleteCapture (host digest : bytes)
  | CreateProfile (profile : sb_config_profile)
  | UpdateProfile (profile : sb_config_profile)
  | DeleteProfile (id : option bytes)
  | CreateHost (host : sb_host)
  | UpdateHost (host : sb_host)
  | DeleteHost (id : option bytes)
  | SaveReport (host : option bytes) (report : option sbj)
  | SetOutbounds (host : option bytes) (ids : list bytes)
  | RotateToken (host : option bytes)
  | Enroll (host : option bytes)
  | EnrollLocked (host id code : bytes)
  | Redeem (code : option bytes) (device : option sbj)
  | TouchHost (host : option bytes)
  | AgentStatus (host : option bytes) (state : option sbj)
  | Enqueue (host command : option bytes)
  | Acknowledge (host command status result : option bytes)
  | Latencies (results : option sbj)
  | Latency (id : option bytes) (latency : option double)
  | CreateNode (node : sb_proxy_record)
  | UpdateNode (node : sb_proxy_record)
  | DeleteNode (id : option bytes)
  | UpsertNodes (l : list sb_parsed_node) (sub : option bytes)
  | CreateSub (sub : sb_subscription)
  | UpdateSub (sub : sb_subscription)
  | DeleteSub (id : option bytes)
  | RecordFetch (id : option bytes) (result : sb_subscription_fetch_result)
  | ApplyFetch (expected : sb_subscription) (l : list sb_parsed_node) (result : sb_subscription_fetch_result) (at_time : Z)
  | RecordFailure (expected : sb_subscription) (message : option bytes) (at_time : Z)
  | RestoreBackup (backup : option sbj)
  | WgImport (batch : option sbj) (apply : bool) (digest actor : option bytes)
  | WgRollback (id actor : option bytes).

Definition void {A} (m : store A) : store unit := _ ← m; mret tt.

Definition run_store (env : store_env) (c : store_call) : store unit :=
  match c with
  | EnsureAdmin p => sb_store_ensure_default_admin env p
  | CreateUser u h r => void (sb_store_create_user_n env u h r)
  | DeleteUser a u => sb_store_delete_user env a u
  | ResetPassword u h => sb_store_reset_user_password env u h
  | RecordAudit a b c => sb_store_record_audit_n env a b c
  | UpdateSettings s => sb_store_update_app_settings env s
  | SetSetting k v => sb_store_set_app_setting env k v
  | CreatePeer p => void (sb_store_create_wireguard_peer env p)
  | UpdatePeer p => void (sb_store_update_wireguard_peer env p)
  | DeletePeer id => sb_store_delete_wireguard_peer env id
  | EnablePeer id b => sb_store_set_wireguard_peer_enabled env id b
  | OneTimeLink t p x => sb_store_create_one_time_link env t p x
  | SaveCapture h d x => sb_store_save_capture env h d x
  | DeleteCapture h d => sb_store_delete_capture env h d
  | CreateProfile p => void (sb_store_create_profile env p)
  | UpdateProfile p => void (sb_store_update_profile env p)
  | DeleteProfile id => sb_store_delete_profile env id
  | CreateHost h => void (sb_store_create_host env h)
  | UpdateHost h => void (sb_store_update_host env h)
  | DeleteHost id => sb_store_delete_host env id
  | SaveReport h r => void (sb_store_save_diagnostic_report env h r)
  | SetOutbounds h l => sb_store_set_host_outbounds env h l
  | RotateToken h => void (sb_store_rotate_agent_token env h)
  | Enroll h => void (sb_store_create_agent_enrollment env h)
  | EnrollLocked h id code => void (enrollment_locked env h id code)
  | Redeem code device => void (sb_store_redeem_agent_enrollment env code device)
  | TouchHost h => sb_store_touch_host env h
  | AgentStatus h v => sb_store_update_agent_status env h v
  | Enqueue h c => void (sb_store_enqueue_host_command env h c)
  | Acknowledge h c a r => void (sb_store_acknowledge_host_command_n env h c a r)
  | Latencies v => void (sb_store_update_proxy_latencies env v)
  | Latency id l => sb_store_update_proxy_latency env id l
  | CreateNode n => void (sb_store_create_proxy_node env n)
  | UpdateNode n => void (sb_store_update_proxy_node env n)
  | DeleteNode id => sb_store_delete_proxy_node env id
  | UpsertNodes l s => void (sb_store_upsert_proxy_nodes env l s)
  | CreateSub s => void (sb_store_create_subscription env s)
  | UpdateSub s => void (sb_store_update_subscription env s)
  | DeleteSub id => sb_store_delete_subscription env id
  | RecordFetch id r => sb_store_record_subscription_fetch env id r
  | ApplyFetch e l r n => void (sb_store_apply_subscription_fetch env e l r n)
  | RecordFailure e m n => sb_store_record_subscription_failure env e m n
  | RestoreBackup v => void (sb_store_restore_backup env v)
  | WgImport b a d x => void (sb_store_wg_import env b a d x)
  | WgRollback id x => void (sb_store_wg_import_rollback env id x)
  end.

(** The tables after calls made one after the other, each ending as it may. *)
Fixpoint run_calls (env : store_env) (cs : list store_call) (s : conn store_tables unit) : conn store_tables unit :=
  match cs with [] => s | c :: cs' => run_calls env cs' (snd (run_store env c s)) end.

(** ** Steps *)

Inductive table :=
  Users | Audit | Settings | Peers | Links | Nodes | Subs | Profiles | HostRows | HostDeletion (id : bytes) | Outbounds | Commands
  | Enrollments | Diags | Captures | Imports.

Inductive store_step : table -> store_tables -> store_tables -> Prop :=
  | step_users t l : store_step Users t (with_users t l)
  | step_audit t l : store_step Audit t (with_audit t l)
  | step_settings t l : store_step Settings t (with_settings t l)
  | step_links t l : store_step Links t (with_links t l)
  | step_insert_profile p t t' : insert_profile p t = Ok (tt, t') -> store_step Profiles t t'
  | step_update_profiles m g t : (forall p, pr_id (g p) = pr_id p) ->
      store_step Profiles t (with_profiles t (fst (sql_update m g (profiles t))))
  | step_delete_profile id n t t' : id <> bs "default" -> delete_profile_row id t = Ok (n, t') -> store_step Profiles t t'
  | step_outbounds t l : store_step Outbounds t (with_outbounds t l)
  | step_commands t l : store_step Commands t (with_commands t l)
  | step_imports t l : store_step Imports t (with_imports t l)
  | step_insert_peer p t t' : insert_peer p t = Ok (tt, t') -> store_step Peers t t'
  | step_update_peers m g t : (forall p, wp_id (g p) = wp_id p /\ wp_address (g p) = wp_address p) ->
      store_step Peers t (with_peers t (fst (sql_update m g (peers t))))
  | step_delete_peers q t : store_step Peers t (with_peers t (List.filter q (peers t)))
  | step_replace_peer p t : store_step Peers t (replace_peer p t)
  | step_insert_node n t t' : insert_node n t = Ok (tt, t') -> store_step Nodes t t'
  | step_update_node id f n t t' : (forall r, nr_id (f r) = nr_id r) -> update_node id f t = Ok (n, t') -> store_step Nodes t t'
  | step_latency m l time n t t' : set_latency m l time t = Ok (n, t') -> store_step Nodes t t'
  | step_delete_nodes q t : store_step Nodes t (with_nodes t (List.filter q (nodes t)))
  | step_replace_node r t : store_step Nodes t (replace_node r t)
  | step_insert_sub r t t' : insert_sub r t = Ok (tt, t') -> store_step Subs t t'
  | step_update_sub id f n t t' : (forall r, sr_id (f r) = sr_id r) -> update_sub id f t = Ok (n, t') -> store_step Subs t t'
  | step_delete_subs q t : store_step Subs t (with_subs t (List.filter q (subs t)))
  | step_replace_sub r t : store_step Subs t (replace_sub r t)
  | step_insert_host h t t' : insert_host h t = Ok (tt, t') -> store_step HostRows t t'
  | step_update_hosts m g t :
      (forall h, m h = true -> h ∈ hosts t -> hr_id (g h) = hr_id h /\ (hr_profile (g h) = hr_profile h \/ profile_known t (hr_profile (g h)) = true)) ->
      store_step HostRows t (with_hosts t (fst (sql_update m g (hosts t))))
  | step_delete_host id t : store_step (HostDeletion id) t (delete_host_row id t)
  | step_expire m time t : store_step Enrollments t (with_enrollments t (fst (sql_update m (expire_enrollment time) (enrollments t))))
  | step_redeem m time t : store_step Enrollments t (with_enrollments t (fst (sql_update m (redeemed_at time) (enrollments t))))
  | step_insert_enrollment e t t' : insert_enrollment e t = Ok (tt, t') -> store_step Enrollments t t'
  | step_diags t l : store_step Diags t (with_diags t l)
  | step_insert_capture c t t' : insert_capture c t = Ok (tt, t') -> store_step Captures t t'
  | step_delete_captures q t : store_step Captures t (with_captures t (List.filter q (captures t))).

(** The tables a step leaves alone: [t'] is [t] with another table of its kind. *)
Definition changed (k : table) (t t' : store_tables) : store_tables :=
  match k with
  | Users => with_users t (users t')
  | Audit => with_audit t (audit t')
  | Settings => with_settings t (settings t')
  | Peers => with_peers t (peers t')
  | Links => with_links t (links t')
  | Nodes => with_nodes t (nodes t')
  | Subs => with_subs t (subs t')
  | Profiles => with_profiles t (profiles t')
  | HostRows => with_hosts t (hosts t')
  | HostDeletion _ => with_captures (with_diags (with_enrollments (with_hosts t (hosts t')) (enrollments t')) (diags t')) (captures t')
  | Outbounds => with_outbounds t (outbounds t')
  | Commands => with_commands t (commands t')
  | Enrollments => with_enrollments t (enrollments t')
  | Diags => with_diags t (diags t')
  | Captures => with_captures t (captures t')
  | Imports => with_imports t (imports t')
  end.

(** What a successful statement made of the tables. *)
Ltac stmt_result H :=
  let a := fresh in
  repeat lazymatch type of H with
  | (if ?b then _ else _) = Ok _ => destruct b eqn:?; [solve [discriminate H | done]|]
  | (_ ← _; _) = Ok _ => apply bind_Ok in H as (a & ? & H)
  | Ok _ = Ok _ => apply Ok_inj, pair_inj in H as [_ <-]
  end.

Lemma step_changed k t t' : store_step k t t' -> t' = changed k t t'.
Proof.
  destruct 1; try done;
    lazymatch goal with E : _ = Ok _ |- _ =>
      unfold insert_profile, delete_profile_row, insert_peer, insert_node, update_node, set_latency, insert_sub, update_sub, insert_host,
        insert_enrollment, insert_capture, sql_update in E; cbv beta iota zeta in E; stmt_result E; done
    end.
Qed.

Create HintDb store discriminated.
#[export] Hint Constructors store_step : store.

(** What a call may write. *)
Definition touches (c : store_call) : list table :=
  match c with
  | EnsureAdmin _ | CreateUser _ _ _ | DeleteUser _ _ | ResetPassword _ _ => [Users]
  | RecordAudit _ _ _ => [Audit]
  | UpdateSettings _ | SetSetting _ _ => [Settings]
  | CreatePeer _ | UpdatePeer _ | DeletePeer _ | EnablePeer _ _ => [Peers]
  | OneTimeLink _ _ _ => [Links]
  | SaveCapture _ _ _ | DeleteCapture _ _ => [Captures]
  | CreateProfile _ | UpdateProfile _ => [Profiles]
  | DeleteProfile _ => [HostRows; Profiles]
  | CreateHost _ | UpdateHost _ | RotateToken _ | TouchHost _ | AgentStatus _ _ => [HostRows]
  | DeleteHost id => [Outbounds; HostDeletion (cstr (default [] id))]
  | SaveReport _ _ => [Diags]
  | SetOutbounds _ _ => [Outbounds]
  | Enroll _ | EnrollLocked _ _ _ => [Enrollments]
  | Redeem _ _ => [Enrollments; HostRows]
  | Enqueue _ _ | Acknowledge _ _ _ _ => [Commands]
  | Latencies _ | Latency _ _ | CreateNode _ | UpdateNode _ | UpsertNodes _ _ => [Nodes]
  | DeleteNode _ => [Outbounds; Nodes]
  | CreateSub _ | UpdateSub _ | DeleteSub _ | RecordFetch _ _ | RecordFailure _ _ _ => [Subs]
  | ApplyFetch _ _ _ _ => [Nodes; Subs]
  | RestoreBackup _ => [Settings; Subs; Nodes; Peers]
  | WgImport _ _ _ _ => [Settings; Peers; Imports; Audit]
  | WgRollback _ _ => [Links; Peers; Settings; Imports; Audit]
  end.

(** ** Programs that only read *)

Section Reads.
Context (env : store_env).

Lemma store_refuse_frame {A} c m : frame (refuse c m : store A).
Proof. unfold refuse. frames. Qed.
Lemma store_uuid_frame : frame (new_uuid env).
Proof. unfold new_uuid. frames. Qed.
Lemma sql_now_frame : frame (sql_now env).
Proof. unfold sql_now. frames. Qed.
Lemma prepared_frame : frame (prepared env).
Proof. unfold prepared. frames. Qed.
Lemma host_exists_frame id : frame (host_exists env id).
Proof. unfold host_exists. frames. Qed.
Hint Resolve store_refuse_frame store_uuid_frame sql_now_frame prepared_frame host_exists_frame : frame.

Lemma new_agent_token_frame : frame (new_agent_token env).
Proof. unfold new_agent_token. frames. Qed.
Lemma find_user_frame u : frame (find_user_locked env u).
Proof. unfold find_user_locked. frames. Qed.
Lemma find_peer_frame id : frame (find_peer_locked env id).
Proof. unfold find_peer_locked. frames. Qed.
Lemma find_profile_frame id : frame (find_profile_locked env id).
Proof. unfold find_profile_locked. frames. Qed.
Lemma find_host_frame id : frame (find_host_locked env id).
Proof. unfold find_host_locked. frames. Qed.
Lemma find_proxy_frame id : frame (find_proxy_locked env id).
Proof. unfold find_proxy_locked. frames. Qed.
Lemma find_subscription_frame id : frame (find_subscription_locked env id).
Proof. unfold find_subscription_locked. frames. Qed.
Lemma wg_snapshot_frame : frame (wg_snapshot_locked env).
Proof. unfold wg_snapshot_locked. frames. Qed.
Hint Resolve new_agent_token_frame find_user_frame find_peer_frame find_profile_frame find_host_frame find_proxy_frame
  find_subscription_frame wg_snapshot_frame : frame.

Lemma reload_peer_frame id : frame (reload_peer env id).
Proof. unfold reload_peer. frames. Qed.
Lemma reload_profile_frame id : frame (reload_profile env id).
Proof. unfold reload_profile. frames. Qed.
Lemma reload_host_frame id : frame (reload_host env id).
Proof. unfold reload_host. frames. Qed.
Lemma reload_proxy_frame id : frame (reload_proxy env id).
Proof. unfold reload_proxy. frames. Qed.
Lemma reload_subscription_frame id : frame (reload_subscription env id).
Proof. unfold reload_subscription. frames. Qed.
Lemma subscription_unchanged_frame e : frame (subscription_unchanged env e).
Proof. unfold subscription_unchanged. frames. Qed.
Lemma wg_import_plan_frame b a : frame (wg_import_plan env b a).
Proof. unfold wg_import_plan. frames. Qed.

Lemma display_loop_frame fuel tag id : forall n, frame (display_loop env fuel tag id n).
Proof. induction fuel as [|fuel IH]; intros n; cbn [display_loop]; frames. Qed.
Lemma import_display_tag_frame tag id : frame (import_display_tag env tag id).
Proof. intros s. unfold import_display_tag. apply display_loop_frame. Qed.
End Reads.

#[export] Hint Resolve store_refuse_frame store_uuid_frame sql_now_frame prepared_frame host_exists_frame new_agent_token_frame
  find_user_frame find_peer_frame find_profile_frame find_host_frame find_proxy_frame find_subscription_frame wg_snapshot_frame
  reload_peer_frame reload_profile_frame reload_host_frame reload_proxy_frame reload_subscription_frame
  subscription_unchanged_frame wg_import_plan_frame import_display_tag_frame : frame.

(** ** Every call takes its steps *)

(** [t'] is reached from [t] by steps of the kinds [L]. *)
Definition steps (L : list table) : store_tables -> store_tables -> Prop :=
  rtc (fun t t' => exists k, k ∈ L /\ store_step k t t').

Lemma steps_more k L t0 t t' : k ∈ L -> steps L t0 t -> store_step k t t' -> steps L t0 t'.
Proof. intros Hk H St. eapply rtc_r; [exact H|]. by exists k. Qed.

Section Steps.
Context (env : store_env) (L : list table) (t0 : store_tables).
Local Abbreviation J := (steps L t0).

(** A statement that always works, one that may meet a constraint, and one that
    counts its changes. *)
Lemma stmt_steps {A} k (f : store_tables -> result (A * store_tables)) :
  k ∈ L -> (forall t a t', f t = Ok (a, t') -> store_step k t t') -> always J (stmt (fault env) f : store A).
Proof. intros Hk Hf. apply always_stmt. intros t a t' Ht E. apply (steps_more k L t0 t); [done|done|]. by eapply Hf. Qed.

Lemma change_steps k (f : store_tables -> store_tables) :
  k ∈ L -> (forall t, store_step k t (f t)) -> always J (stmt (fault env) (fun t => Ok (tt, f t)) : store unit).
Proof. intros Hk Hf. eapply stmt_steps; [done|]. intros t a t' [_ <-]%Ok_inj%pair_inj. apply Hf. Qed.

Lemma exec_changes_steps k f m :
  k ∈ L -> (forall t n t', f t = Ok (n, t') -> store_step k t t') -> always J (exec_changes env f m).
Proof. intros Hk Hf. unfold exec_changes. always_steps. by eapply stmt_steps. Qed.
End Steps.

Ltac in_kinds := solve [done | rewrite ?elem_of_cons; tauto].
(** A statement that writes: its kind is looked for among the constructors. *)
Ltac store_stmt k :=
  first [ apply (change_steps _ _ _ k); [in_kinds|intros ?; eauto with store]
        | apply (stmt_steps _ _ _ k); [in_kinds|let a := fresh in intros ? a ?; (lazymatch type of a with unit => destruct a | _ => idtac end); eauto with store]
        | apply (exec_changes_steps _ _ _ k); [in_kinds|intros ? ? ?; eauto with store] ].

Section Calls.
Context (env : store_env) (L : list table) (t0 : store_tables).
Local Abbreviation J := (steps L t0).

Lemma update_sections_steps v keys : Settings ∈ L -> always J (update_sections env v keys).
Proof. intros H. induction keys; cbn [update_sections]; always_steps; [|done]. store_stmt Settings. Qed.

Lemma add_outbounds_steps h l : Outbounds ∈ L -> always J (add_outbounds env h l).
Proof.
  intros H. induction l as [|n l IH]; cbn [add_outbounds]; always_steps; [|done]. apply always_stmt. intros t a t' Ht.
  unfold add_outbound. case_if; intros [_ <-]%Ok_inj%pair_inj; [done|]. eapply steps_more; [done|done|apply step_outbounds].
Qed.

Lemma update_latencies_steps l : Nodes ∈ L -> forall n, always J (update_latencies env l n).
Proof. intros H. induction l as [|[tag v] l IH]; intros n; cbn [update_latencies]; always_steps; [|done]. store_stmt Nodes. Qed.

Lemma upsert_one_steps n s : Nodes ∈ L -> always J (upsert_one env n s).
Proof.
  intros H. unfold upsert_one. always_steps; [|by store_stmt Nodes]. apply (stmt_steps _ _ _ Nodes); [done|].
  intros t a' t' E. eapply step_update_node; [|exact E]. done.
Qed.

Lemma upsert_all_steps l s : Nodes ∈ L -> forall r, always J (upsert_all env l s r).
Proof. intros H. induction l as [|n l IH]; intros r; cbn [upsert_all]; always_steps; [by apply upsert_one_steps|done]. Qed.

Lemma apply_nodes_steps l s : Nodes ∈ L -> forall r, always J (apply_nodes env l s r).
Proof. intros H. induction l as [|n l IH]; intros r; cbn [apply_nodes]; always_steps; [by apply upsert_one_steps|done]. Qed.

Lemma restore_settings_steps l : Settings ∈ L -> forall n, always J (restore_settings env l n).
Proof. intros H. induction l as [|[k v] l IH]; intros n; cbn [restore_settings]; always_steps; [|done]. store_stmt Settings. Qed.

Lemma restore_all_steps f l : (forall v, always J (f v)) -> forall n, always J (restore_all f l n).
Proof. intros H. induction l as [|[] l IH]; intros n; cbn [restore_all]; always_steps; done. Qed.

Lemma restore_subscription_steps v : Subs ∈ L -> always J (restore_subscription env v).
Proof. intros H. unfold restore_subscription. always_steps. store_stmt Subs. Qed.

Lemma restore_node_steps v : Nodes ∈ L -> always J (restore_node env v).
Proof. intros H. unfold restore_node. always_steps. store_stmt Nodes. Qed.

Lemma restore_peer_steps v : Peers ∈ L -> always J (restore_peer env v).
Proof. intros H. unfold restore_peer. always_steps. store_stmt Peers. Qed.

Lemma restore_peers_steps l : Peers ∈ L -> always J (restore_peers env l).
Proof. intros H. induction l; cbn [restore_peers]; always_steps; [by apply restore_peer_steps|done]. Qed.

Lemma wg_settings_steps v keys : Settings ∈ L -> always J (wg_settings_locked env v keys).
Proof. intros H. induction keys; cbn [wg_settings_locked]; always_steps; try done; store_stmt Settings. Qed.

Lemma wg_import_audit_steps a x id : Audit ∈ L -> always J (wg_import_audit env a x id).
Proof. intros H. unfold wg_import_audit. always_steps. store_stmt Audit. Qed.

Lemma remove_peers_steps l : Links ∈ L -> Peers ∈ L -> always J (remove_peers env l).
Proof. intros H1 H2. induction l; cbn [remove_peers]; always_steps; try done; [store_stmt Links|store_stmt Peers]. Qed.
End Calls.

#[export] Hint Resolve update_sections_steps add_outbounds_steps update_latencies_steps upsert_one_steps upsert_all_steps
  apply_nodes_steps restore_settings_steps restore_all_steps restore_subscription_steps restore_node_steps restore_peer_steps
  restore_peers_steps wg_settings_steps wg_import_audit_steps remove_peers_steps : store.

Section Calls.
Context (env : store_env) (t0 : store_tables).

Lemma account_calls_steps c :
  match c with
  | EnsureAdmin _ | CreateUser _ _ _ | DeleteUser _ _ | ResetPassword _ _ | RecordAudit _ _ _ | UpdateSettings _ | SetSetting _ _ => True
  | _ => False
  end -> always (steps (touches c) t0) (run_store env c).
Proof.
  assert (C : forall u h r, always (steps [Users] t0) (sb_store_create_user_n env u h r)).
  { intros. unfold sb_store_create_user_n. always_steps. apply (stmt_steps _ _ _ Users); [in_kinds|]. intros t x t'.
    unfold insert_user. intros (l & _ & [_ <-]%Ok_inj%pair_inj)%bind_Ok. apply step_users. }
  destruct c; intros Hc; try destruct Hc; cbn [run_store touches]; unfold void.
  - unfold sb_store_ensure_default_admin, sb_store_create_user. always_steps. apply C.
  - always_steps. apply C.
  - unfold sb_store_delete_user. always_steps. store_stmt Users.
  - unfold sb_store_reset_user_password. apply (exec_changes_steps _ _ _ Users); [in_kinds|].
    intros t n t'. destruct (sql_update _ _ _) as [l k]. intros [_ <-]%Ok_inj%pair_inj. apply step_users.
  - unfold sb_store_record_audit_n. always_steps. store_stmt Audit.
  - unfold sb_store_update_app_settings. always_steps. apply update_sections_steps. in_kinds.
  - unfold sb_store_set_app_setting. always_steps. apply (exec_changes_steps _ _ _ Settings); [in_kinds|].
    intros t n t' [_ <-]%Ok_inj%pair_inj. apply step_settings.
Qed.

Lemma peer_calls_steps c :
  match c with
  | CreatePeer _ | UpdatePeer _ | DeletePeer _ | EnablePeer _ _ | OneTimeLink _ _ _ | SaveCapture _ _ _ | DeleteCapture _ _ => True
  | _ => False
  end -> always (steps (touches c) t0) (run_store env c).
Proof.
  destruct c; intros Hc; try destruct Hc; cbn [run_store touches]; unfold void.
  - unfold sb_store_create_wireguard_peer. always_steps. store_stmt Peers.
  - unfold sb_store_update_wireguard_peer. always_steps. apply (stmt_steps _ _ _ Peers); [in_kinds|].
    intros t n t' [_ <-]%Ok_inj%pair_inj. by apply step_update_peers.
  - unfold sb_store_delete_wireguard_peer. apply (exec_changes_steps _ _ _ Peers); [in_kinds|].
    intros t n t' [_ <-]%Ok_inj%pair_inj. apply step_delete_peers.
  - unfold sb_store_set_wireguard_peer_enabled. always_steps. apply (exec_changes_steps _ _ _ Peers); [in_kinds|].
    intros t n t' [_ <-]%Ok_inj%pair_inj. by apply step_update_peers.
  - unfold sb_store_create_one_time_link, sb_store_find_wireguard_peer. always_steps. apply (exec_changes_steps _ _ _ Links); [in_kinds|].
    intros t n t' (l & _ & [_ <-]%Ok_inj%pair_inj)%bind_Ok. apply step_links.
  - unfold sb_store_save_capture. always_steps. store_stmt Captures.
  - unfold sb_store_delete_capture. store_stmt Captures.
Qed.

Lemma update_host_row_steps L id f m :
  HostRows ∈ L -> (forall h, hr_id (f h) = hr_id h /\ hr_profile (f h) = hr_profile h) ->
  always (steps L t0) (exec_changes env (update_host_row id f) m).
Proof.
  intros Hk Hf. apply (exec_changes_steps _ _ _ HostRows); [done|]. intros t n t' [_ <-]%Ok_inj%pair_inj. apply step_update_hosts.
  intros h _ _. destruct (Hf h). auto.
Qed.

Lemma enrollment_locked_steps L host id code : Enrollments ∈ L -> always (steps L t0) (enrollment_locked env host id code).
Proof.
  intros Hk. unfold enrollment_locked. always_steps; store_stmt Enrollments.
Qed.

Lemma host_calls_steps c :
  match c with
  | CreateProfile _ | UpdateProfile _ | DeleteProfile _ | CreateHost _ | UpdateHost _ | DeleteHost _ | SaveReport _ _ | SetOutbounds _ _ => True
  | _ => False
  end -> always (steps (touches c) t0) (run_store env c).
Proof.
  destruct c; intros Hc; try destruct Hc; cbn [run_store touches]; unfold void.
  - unfold sb_store_create_profile. always_steps. apply (stmt_steps _ _ _ Profiles); [in_kinds|].
    intros t [] t' E. by eapply step_insert_profile.
  - unfold sb_store_update_profile. always_steps. apply (stmt_steps _ _ _ Profiles); [in_kinds|].
    intros t n t' [_ <-]%Ok_inj%pair_inj. by apply step_update_profiles.
  - unfold sb_store_delete_profile. destruct (sb_streq id _) eqn:Ed; [by always_steps|].
    always_steps; [apply (stmt_steps _ _ _ HostRows)|apply (stmt_steps _ _ _ Profiles)]; try in_kinds; intros t n t'.
    + unfold move_hosts. destruct (_ && _) eqn:K; [done|]. intros [_ <-]%Ok_inj%pair_inj. apply step_update_hosts. intros h Mh Hh. split; [done|].
      right. apply andb_false_iff in K as [K|K%negb_false_iff]; [|done]. by rewrite (proj1 (existsb_none _ _) K h Hh) in Mh.
    + apply step_delete_profile. intros X. destruct id as [i|]; [|done]. change (cstr i = bs "default") in X. cbn [sb_streq] in Ed. by rewrite X in Ed.
  - unfold sb_store_create_host. always_steps. apply (stmt_steps _ _ _ HostRows); [in_kinds|].
    intros t [] t' (x & _ & E)%bind_Ok. by eapply step_insert_host.
  - unfold sb_store_update_host. always_steps. apply always_stmt. intros t n t' Ht. case_if; [by intros [_ <-]%Ok_inj%pair_inj|].
    case_if; [done|]. intros (x & _ & [_ <-]%Ok_inj%pair_inj)%bind_Ok. apply (steps_more HostRows _ _ t); [in_kinds|done|].
    apply step_update_hosts. intros h _ _. auto.
  - unfold sb_store_delete_host. always_steps; [store_stmt Outbounds|]. apply (stmt_steps _ _ _ (HostDeletion (cstr (default [] id)))); [in_kinds|].
    intros t n t' [_ <-]%Ok_inj%pair_inj. apply step_delete_host.
  - unfold sb_store_save_diagnostic_report. always_steps; [|store_stmt Diags]. apply (stmt_steps _ _ _ Diags); [in_kinds|].
    intros t x t'. unfold insert_diag. case_if; [done|]. intros (l & _ & [_ <-]%Ok_inj%pair_inj)%bind_Ok. apply step_diags.
  - unfold sb_store_set_host_outbounds. always_steps; [store_stmt Outbounds|]. apply add_outbounds_steps. in_kinds.
Qed.

Lemma agent_calls_steps c :
  match c with
  | RotateToken _ | Enroll _ | EnrollLocked _ _ _ | Redeem _ _ | TouchHost _ | AgentStatus _ _ | Enqueue _ _ | Acknowledge _ _ _ _ => True
  | _ => False
  end -> always (steps (touches c) t0) (run_store env c).
Proof.
  destruct c; intros Hc; try destruct Hc; cbn [run_store touches]; unfold void.
  - unfold sb_store_rotate_agent_token. always_steps. apply update_host_row_steps; [in_kinds|done].
  - unfold sb_store_create_agent_enrollment, sb_store_find_host. always_steps. apply enrollment_locked_steps. in_kinds.
  - always_steps. apply enrollment_locked_steps. in_kinds.
  - unfold sb_store_redeem_agent_enrollment. always_steps; [apply (stmt_steps _ _ _ Enrollments)|apply (stmt_steps _ _ _ HostRows)]; try in_kinds;
      intros t n t' [_ <-]%Ok_inj%pair_inj; [apply step_redeem|apply step_update_hosts; auto].
  - unfold sb_store_touch_host. always_steps. apply update_host_row_steps; [in_kinds|done].
  - unfold sb_store_update_agent_status. always_steps. apply update_host_row_steps; [in_kinds|done].
  - unfold sb_store_enqueue_host_command. always_steps. apply (stmt_steps _ _ _ Commands); [in_kinds|].
    intros t x t' (l & _ & [_ <-]%Ok_inj%pair_inj)%bind_Ok. apply step_commands.
  - unfold sb_store_acknowledge_host_command_n. always_steps. apply (stmt_steps _ _ _ Commands); [in_kinds|].
    intros t n t' [_ <-]%Ok_inj%pair_inj. apply step_commands.
Qed.

Lemma update_sub_steps {A} L id f (k : nat -> store A) :
  Subs ∈ L -> (forall r, sr_id (f r) = sr_id r) -> (forall n, always (steps L t0) (k n)) ->
  always (steps L t0) (stmt (fault env) (update_sub id f) ≫= k).
Proof.
  intros Hk Hf Hc. apply always_bind; [|done]. apply (stmt_steps _ _ _ Subs); [done|]. intros t n t' E. eapply step_update_sub; [|exact E]; done.
Qed.

Lemma node_calls_steps c :
  match c with
  | Latencies _ | Latency _ _ | CreateNode _ | UpdateNode _ | DeleteNode _ | UpsertNodes _ _ => True
  | _ => False
  end -> always (steps (touches c) t0) (run_store env c).
Proof.
  destruct c; intros Hc; try destruct Hc; cbn [run_store touches]; unfold void.
  - unfold sb_store_update_proxy_latencies. always_steps. apply update_latencies_steps. in_kinds.
  - unfold sb_store_update_proxy_latency. always_steps. store_stmt Nodes.
  - unfold sb_store_create_proxy_node. always_steps. store_stmt Nodes.
  - unfold sb_store_update_proxy_node. always_steps. apply (stmt_steps _ _ _ Nodes); [in_kinds|].
    intros t n t' E. eapply step_update_node; [|exact E]. done.
  - unfold sb_store_delete_proxy_node. always_steps; [store_stmt Outbounds|]. apply (stmt_steps _ _ _ Nodes); [in_kinds|].
    intros t n t' [_ <-]%Ok_inj%pair_inj. apply step_delete_nodes.
  - unfold sb_store_upsert_proxy_nodes. always_steps. apply upsert_all_steps. in_kinds.
Qed.

Lemma sub_calls_steps c :
  match c with
  | CreateSub _ | UpdateSub _ | DeleteSub _ | RecordFetch _ _ | ApplyFetch _ _ _ _ | RecordFailure _ _ _ => True
  | _ => False
  end -> always (steps (touches c) t0) (run_store env c).
Proof.
  destruct c; intros Hc; try destruct Hc; cbn [run_store touches]; unfold void.
  - unfold sb_store_create_subscription. always_steps. store_stmt Subs.
  - unfold sb_store_update_subscription. apply always_bind; [|intros ?; by always_steps]. case_if; [by always_steps|].
    apply always_bind; [by always_steps|intros ?]. apply update_sub_steps; [in_kinds|done|]. intros n. by always_steps.
  - unfold sb_store_delete_subscription. apply (exec_changes_steps _ _ _ Subs); [in_kinds|].
    intros t n t' [_ <-]%Ok_inj%pair_inj. apply step_delete_subs.
  - unfold sb_store_record_subscription_fetch. always_steps. apply (exec_changes_steps _ _ _ Subs); [in_kinds|].
    intros t n t' E. eapply step_update_sub; [|exact E]; done.
  - unfold sb_store_apply_subscription_fetch. always_steps; [apply apply_nodes_steps; in_kinds|].
    apply (stmt_steps _ _ _ Subs); [in_kinds|]. intros t n t' E. eapply step_update_sub; [|exact E]; done.
  - unfold sb_store_record_subscription_failure. always_steps. apply (stmt_steps _ _ _ Subs); [in_kinds|].
    intros t n t' E. eapply step_update_sub; [|exact E]; done.
Qed.

Lemma backup_calls_steps c :
  match c with RestoreBackup _ | WgImport _ _ _ _ | WgRollback _ _ => True | _ => False end ->
  always (steps (touches c) t0) (run_store env c).
Proof.
  destruct c; intros Hc; try destruct Hc; cbn [run_store touches]; unfold void.
  - unfold sb_store_restore_backup. always_steps; [apply restore_settings_steps; in_kinds|..]; apply restore_all_steps; intros v;
      [apply restore_subscription_steps|apply restore_node_steps|apply restore_peer_steps]; in_kinds.
  - unfold sb_store_wg_import, wg_import_apply. always_steps.
    + apply wg_settings_steps. in_kinds.
    + apply restore_peers_steps. in_kinds.
    + apply (stmt_steps _ _ _ Imports); [in_kinds|]. intros t x t' (l & _ & [_ <-]%Ok_inj%pair_inj)%bind_Ok. apply step_imports.
    + apply wg_import_audit_steps. in_kinds.
  - unfold sb_store_wg_import_rollback. always_steps.
    + apply remove_peers_steps; in_kinds.
    + apply wg_settings_steps. in_kinds.
    + store_stmt Imports.
    + apply wg_import_audit_steps. in_kinds.
Qed.

(** Every call takes steps of the kinds listed for it. *)
Lemma call_steps c : always (steps (touches c) t0) (run_store env c).
Proof.
  destruct c; first [by apply account_calls_steps|by apply peer_calls_steps|by apply host_calls_steps|by apply agent_calls_steps
    |by apply node_calls_steps|by apply sub_calls_steps|by apply backup_calls_steps].
Qed.
End Calls.

(** ** Properties of tables *)

(** A property that the steps of a call keep is kept by the call. *)
Lemma store_call_keeps (J : store_tables -> Prop) env c s :
  (forall k t t', k ∈ touches c -> store_step k t t' -> J t -> J t') -> J (db s) -> J (db (snd (run_store env c s))).
Proof.
  intros HJ Hs. assert (R : steps (touches c) (db s) (db (snd (run_store env c s)))) by (apply call_steps, rtc_refl).
  induction R as [|t t' t'' (k & Hk & St) _ IH]; [done|]. apply IH. by eapply HJ.
Qed.

Lemma calls_keep (J : store_tables -> Prop) env cs s :
  (forall c, c ∈ cs -> forall k t t', k ∈ touches c -> store_step k t t' -> J t -> J t') -> J (db s) -> J (db (run_calls env cs s)).
Proof.
  revert s. induction cs as [|c cs IH]; intros s HJ Hs; [done|]. apply IH.
  - intros c' Hc'. apply HJ. by right.
  - apply store_call_keeps; [|done]. apply HJ. by left.
Qed.

(** * A small repository

    A clock, random bytes and digests that are concrete functions, and tables made
    by calls of the repository: the theorems on it are applied here. *)

(** Every reading of the clock is a second after the last one; texts of times are
    their seconds, ten digits long. *)
Definition demo_env : store_env :=
  mk_store_env (fun _ => None) (fun n => 1700000000 + Z.of_nat n) fmt_uint (fun n => fmt_uint (1700000000000 + Z.of_nat n))
    (fun n => repeat (Z.of_nat n) 16) (fun n => Some (fmt_uint (Z.of_nat n))) (fun password salt => inr (salt ++ password)) (fun x => x)
    (fun s => negb (sb_str_empty s)) (fun _ => false) (fun _ => None).

Definition empty_tables : store_tables := mk_store [] [] [] [] [] [] [] [] [] [] [] [] [] [] [].
Definition demo_start : conn store_tables unit := mk_conn empty_tables tt 0.

Definition demo_profile : sb_config_profile :=
  mk_profile (bs "default") (bs "Default") (Some (SBJ_OBJECT [])) SB_PROFILE_MANAGED [] false [] [].
Definition demo_host : sb_host :=
  mk_host (bs "phone") (bs "Phone") (bs "token") (Some (SBJ_OBJECT [])) (Some (SBJ_OBJECT [])) None None None None None (Some []) None None
    true [] [] 0.
Definition demo_code : bytes := bs "0123456789abcdef0123456789abcdef".

(** A host with a code that was not used yet. *)
Definition demo_enrolling : conn store_tables unit :=
  run_calls demo_env [CreateProfile demo_profile; CreateHost demo_host; EnrollLocked (bs "phone") (bs "e1") demo_code] demo_start.

(** A node from a share link, and a repository with it. *)
Definition demo_node : sb_parsed_node :=
  mk_parsed (bs "trojan") (bs "Tokyo") (bs "tokyo.example") 443 (SBJ_OBJECT [(bs "password", SBJ_STRING (bs "secret"))]).
Definition demo_hosted : conn store_tables unit :=
  run_calls demo_env
    [CreateProfile demo_profile; CreateHost demo_host; UpsertNodes [demo_node] None; EnsureAdmin (Some (bs "correct horse"))] demo_start.

(** A subscription that was just fetched. *)
Definition demo_node2 : sb_parsed_node :=
  mk_parsed (bs "trojan") (bs "Osaka") (bs "osaka.example") 443 (SBJ_OBJECT [(bs "password", SBJ_STRING (bs "secret"))]).
Definition demo_sub : sb_subscription :=
  mk_subscription (bs "sub1") (bs "Provider") (bs "https://provider.example/s") true 3600 None None None None None 0 0 [] [].
Definition demo_subscribed : conn store_tables unit := run_calls demo_env [CreateSub demo_sub] demo_hosted.
Definition demo_report : sb_subscription_fetch_result := mk_fetch 0 0 0 0 (Some (SBJ_OBJECT [])) [].

(** One row of each kind that a backup has. *)
Definition demo_peer : sb_wireguard_peer :=
  mk_peer (bs "p1") (bs "Laptop") (bs "private") (bs "public") None (bs "10.59.32.2/24") (bs "10.59.32.1") true 25 (bs "0.0.0.0/0") None 0 [] []
    (Some (bs "notes")) None.
Definition demo_full : conn store_tables unit :=
  run_calls demo_env [CreatePeer demo_peer; SetSetting (Some (bs "general")) (Some (SBJ_OBJECT [(bs "theme", SBJ_STRING (bs "dark"))]))] demo_subscribed.
