(* ===== verification/WgText.v ===== *)
(** * WireGuard: addresses, numbers, times, statistics and QR codes ([c/src/wireguard.c])

    The parts of the hub that only work on texts.  C strings are taken up to their
    terminator ([cstr]).  The QR encoder is a library: its answers are fields of
    [qr_lib]. *)

From Stdlib Require Import SpecFloat.
From S2P Require Import Prelude Util Json JsonText DateTime Sqlite StoreTables StoreAccounts.

(** ** Addresses *)

(** [subnet_cidr]: the last number of a /24 address is cleared. *)
Definition subnet_cidr (address : bytes) : bytes :=
  let address := cstr address in
  match split_at "/" address with
  | None => address
  | Some (host, prefix) =>
      match (if bytes_eqb prefix (bs "24") then split_last 46 host else None) with
      | Some (base, _) => base ++ bs ".0/" ++ prefix
      | None => host ++ bs "/" ++ prefix
      end
  end.

Definition peer_ip (address : bytes) : bytes := before_char 47 (cstr address).

Fixpoint port_digits (text : bytes) (value : Z) : option Z :=
  match text with
  | [] => Some value
  | c :: text' =>
      if negb (isdigit c) then None
      else let value := value * 10 + (code c - 48) in if 65535 <? value then None else port_digits text' value
  end.

(** [endpoint_port]: the number after the last colon. *)
Definition endpoint_port (endpoint : option bytes) : option Z :=
  match endpoint with
  | None => None
  | Some endpoint =>
      match split_last 58 (cstr endpoint) with
      | None | Some (_, []) => None
      | Some (_, text) => match port_digits text 0 with Some 0 | None => None | Some v => Some v end
      end
  end.

(** ** Numbers *)

(** The digits at the front: the value, whether it overflowed, and how many. *)
Fixpoint magnitude_loop (s : bytes) (magnitude : Z) (overflow : bool) (n : nat) : Z * bool * nat :=
  match s with
  | c :: s' =>
      if isdigit c then
        let digit := code c - 48 in
        if (UINT64_MAX - digit) / 10 <? magnitude then magnitude_loop s' magnitude true (S n)
        else magnitude_loop s' (magnitude * 10 + digit) overflow (S n)
      else (magnitude, overflow, n)
  | [] => (magnitude, overflow, n)
  end.

Definition minus_sign (s : bytes) : bool * bytes :=
  match s with c :: s' => if code c =? 45 then (true, s') else (false, s) | [] => (false, []) end.

(** [from_chars_i64_prefix]: the new value of [*out]. *)
Definition from_chars_i64_prefix (s : bytes) (out : Z) : Z :=
  let '(negative, digits) := minus_sign s in
  let '(magnitude, overflow, n) := magnitude_loop digits 0 false 0 in
  if (n =? 0)%nat then out
  else
    let limit := if negative then INT64_MAX + 1 else INT64_MAX in
    if overflow || (limit <? magnitude) then out
    else if negb negative then magnitude
    else if magnitude =? limit then INT64_MIN else - magnitude.

Fixpoint exact_digits (s : bytes) (value : Z) : option Z :=
  match s with
  | [] => Some value
  | c :: s' =>
      if negb (isdigit c) then None
      else let value := value * 10 + (code c - 48) in if 2 ^ 31 <? value then None else exact_digits s' value
  end.

Definition from_chars_int_exact (s : bytes) : option Z :=
  let '(negative, digits) := minus_sign s in
  match digits with
  | [] => None
  | _ =>
      match exact_digits digits 0 with
      | None => None
      | Some value =>
          let value := if negative then - value else value in
          if (value <? - 2 ^ 31) || (2 ^ 31 - 1 <? value) then None else Some value
      end
  end.

(** ** Times *)

Definition c_isspace (c : ascii) : bool := (code c =? 32) || in_range 9 13 (code c).
Definition c_tolower (c : ascii) : ascii := if in_range 65 90 (code c) then chr (code c + 32) else c.
Definition c_toupper (c : ascii) : ascii := if in_range 97 122 (code c) then chr (code c - 32) else c.

(** The loop of [extract_num]: the rest, whether a character was taken, the value. *)
Fixpoint extract_loop (s : bytes) (max : Z) (len : nat) (any : bool) (value : Z) : bytes * bool * Z :=
  match len, s with
  | S len', c :: s' =>
      if negb (isdigit c) then (s, any, value)
      else
        let value := value * 10 + (code c - 48) in
        if max <? value then (s, any, value) else extract_loop s' max len' true value
  | _, _ => (s, any, value)
  end.

Definition extract_num (s : bytes) (min max : Z) (len : nat) : option (bytes * Z) :=
  let '(rest, any, value) := extract_loop s max len false 0 in
  if any && (min <=? value) && (value <=? max) then Some (rest, value) else None.

(** [struct tm], with the year and the month as they are written. *)
Record tm := mk_tm { tm_year : Z; tm_mon : Z; tm_mday : Z; tm_hour : Z; tm_min : Z; tm_sec : Z }.
Definition tm_zero : tm := mk_tm 1900 1 0 0 0 0.

Inductive time_item := Literal (c : ascii) | FieldY | Fieldm | Fieldd | FieldH | FieldM | FieldS.

(** [%Y-%m-%dT%H:%M:%S]. *)
Definition rfc3339_format : list time_item :=
  [FieldY; Literal "-"; Fieldm; Literal "-"; Fieldd; Literal "T"; FieldH; Literal ":"; FieldM; Literal ":"; FieldS].

Definition take_field (item : time_item) (s : bytes) (t : tm) : option (bytes * tm) :=
  match item with
  | Literal _ => None
  | FieldY => '(s, v) ← extract_num s 0 9999 4; Some (s, mk_tm v (tm_mon t) (tm_mday t) (tm_hour t) (tm_min t) (tm_sec t))
  | Fieldm => '(s, v) ← extract_num s 1 12 2; Some (s, mk_tm (tm_year t) v (tm_mday t) (tm_hour t) (tm_min t) (tm_sec t))
  | Fieldd =>
      let s := match s with c :: s' => if c_isspace c then s' else s | [] => [] end in
      '(s, v) ← extract_num s 1 31 2; Some (s, mk_tm (tm_year t) (tm_mon t) v (tm_hour t) (tm_min t) (tm_sec t))
  | FieldH => '(s, v) ← extract_num s 0 23 2; Some (s, mk_tm (tm_year t) (tm_mon t) (tm_mday t) v (tm_min t) (tm_sec t))
  | FieldM => '(s, v) ← extract_num s 0 59 2; Some (s, mk_tm (tm_year t) (tm_mon t) (tm_mday t) (tm_hour t) v (tm_sec t))
  | FieldS => '(s, v) ← extract_num s 0 60 2; Some (s, mk_tm (tm_year t) (tm_mon t) (tm_mday t) (tm_hour t) (tm_min t) v)
  end.

(** The loop over the format: the input may end after a conversion. *)
Fixpoint format_loop (format : list time_item) (s : bytes) (t : tm) : option tm :=
  match format, s with
  | [], _ => Some t
  | _, [] => None
  | Literal f :: format', c :: s' =>
      if negb (code (c_tolower c) =? code (c_tolower f)) && negb (code (c_toupper c) =? code (c_toupper f)) then None
      else format_loop format' s' t
  | item :: format', _ =>
      match take_field item s t with
      | None => None
      | Some ([], t) => Some t
      | Some (s, t) => format_loop format' s t
      end
  end.

Definition get_time_rfc3339 (s : bytes) : option tm :=
  match skip_spaces s with [] => None | s => format_loop rfc3339_format s tm_zero end.

(** From the first of [Z], [+] and [-] on. *)
Fixpoint zone_text (s : bytes) : bytes :=
  match s with c :: s' => if existsb (fun z => code c =? z) [90; 43; 45] then s else zone_text s' | [] => [] end.

Definition parse_rfc3339 (value : bytes) : option Z :=
  let value := cstr value in
  if (length value <? 19)%nat then None
  else
    match get_time_rfc3339 (take 19 value) with
    | None => None
    | Some t =>
        let seconds := timegm (tm_year t) (tm_mon t) (tm_mday t) (tm_hour t) (tm_min t) (tm_sec t) in
        match zone_text (drop 19 value) with
        | z :: h1 :: h2 :: colon :: m1 :: m2 :: _ =>
            if negb (code z =? 90) && (code colon =? 58) then
              match from_chars_int_exact [h1; h2], from_chars_int_exact [m1; m2] with
              | Some hours, Some minutes =>
                  let offset := hours * 3600 + minutes * 60 in
                  Some (seconds + (if code z =? 43 then - offset else offset))
              | _, _ => None
              end
            else Some seconds
        | _ => Some seconds
        end
    end.

(** [sb_wireguard_peer_expired] at a reading of the clock (seconds, nanoseconds). *)
Definition expired_at (clock : Z * Z) (peer : sb_wireguard_peer) : bool :=
  match wp_expire peer with
  | None => false
  | Some text =>
      if sb_str_empty text then false
      else
        match parse_rfc3339 text with
        | None => false
        | Some seconds => to_i64 (seconds * 1000000000) <? to_i64 (fst clock * 1000000000 + snd clock)
        end
  end.

(** ** QR codes *)

(** [qr_encode]: the modules that [qrcodegen_encodeText] makes, row by row, if the
    text fits. *)
Record qr_lib := mk_qr_lib {
  qr_numeric : bytes -> bool;
  qr_alphanumeric : bytes -> bool;
  qr_encode : bytes -> option (list (list bool)) }.

Section Qr.
Context (lib : qr_lib).

Definition qr_too_long {A} (text : bytes) : result A :=
  let n := Z.of_nat (length text) in
  let '(count_bits, data_bits) :=
    if qr_numeric lib text then (14, n / 3 * 10 + (if n mod 3 =? 0 then 0 else n mod 3 * 3 + 1))
    else if qr_alphanumeric lib text then (13, n / 2 * 11 + n mod 2 * 6)
    else (16, to_u64 (n * 8)) in
  if (2 ^ count_bits <=? n) || (2 ^ 31 - 1 - 4 - count_bits <? data_bits)
  then sb_fail SB_ERR_GENERIC (bs "Segment too long")
  else sb_fail SB_ERR_GENERIC (bs "Data length = " ++ fmt_uint (data_bits + 4 + count_bits) ++ bs " bits, Max capacity = " ++
         fmt_uint (2334 * 8) ++ bs " bits").

Definition dquote : bytes := [chr 34].
Definition quoted (s : bytes) : bytes := dquote ++ s ++ dquote.
Definition border : nat := 4.

Definition svg_module (x y : nat) : bytes :=
  bs "M" ++ fmt_uint (Z.of_nat (x + border)) ++ bs "," ++ fmt_uint (Z.of_nat (y + border)) ++ bs "h1v1h-1z".

Definition svg_row (y : nat) (row : list bool) : bytes :=
  mjoin (imap (fun x (dark : bool) => if dark then svg_module x y else []) row).

Definition sb_qr_svg_for_text (text : option bytes) : result bytes :=
  let value := cstr (default [] text) in
  match qr_encode lib value with
  | None => qr_too_long value
  | Some modules =>
      let size := fmt_uint (Z.of_nat (length modules + border * 2)) in
      Ok (bs "<?xml version=" ++ quoted (bs "1.0") ++ bs " encoding=" ++ quoted (bs "UTF-8") ++ bs "?>" ++
          bs "<svg xmlns=" ++ quoted (bs "http://www.w3.org/2000/svg") ++ bs " viewBox=" ++ quoted (bs "0 0 " ++ size ++ bs " " ++ size) ++
          bs " shape-rendering=" ++ quoted (bs "crispEdges") ++ bs ">" ++
          bs "<rect width=" ++ quoted (bs "100%") ++ bs " height=" ++ quoted (bs "100%") ++ bs " fill=" ++ quoted (bs "#fff") ++ bs "/>" ++
          bs "<path d=" ++ quoted (mjoin (imap svg_row modules)) ++ bs " fill=" ++ quoted (bs "#000") ++ bs "/></svg>")
  end.
End Qr.

(** ** Statistics *)

Record sb_wireguard_peer_stats := mk_stats {
  ps_public : bytes; ps_endpoint : option bytes; ps_handshake : option Z; ps_rx : Z; ps_tx : Z }.

Definition sb_wireguard_peer_stats_to_json (s : sb_wireguard_peer_stats) : sbj :=
  let v := sbj_set_str (SBJ_OBJECT []) "public_key" (ps_public s) in
  let v := sbj_set v "endpoint" (match ps_endpoint s with Some e => sbj_str (Some e) | None => SBJ_NULL end) in
  let v := sbj_set v "latest_handshake" (match ps_handshake s with Some h => SBJ_INT h | None => SBJ_NULL end) in
  let v := sbj_set_int v "transfer_rx" (ps_rx s) in
  sbj_set_int v "transfer_tx" (ps_tx s).

Definition sb_wireguard_peer_stats_vec_to_json (v : list sb_wireguard_peer_stats) : sbj :=
  foldl (fun a s => sbj_arr_push a (Some (sb_wireguard_peer_stats_to_json s))) (SBJ_ARRAY []) v.

(** The lines of a dump: a newline ends one, the end of the text too. *)
Fixpoint dump_lines (s : bytes) : list bytes :=
  match s with
  | [] => []
  | c :: s' =>
      if code c =? 10 then [] :: dump_lines s'
      else match dump_lines s' with [] => [[c]] | l :: ls => (c :: l) :: ls end
  end.

Definition stats_of_fields (fields : list bytes) : option sb_wireguard_peer_stats :=
  match fields with
  | key :: _ :: endpoint :: _ :: handshake :: received :: transmitted :: _ :: _ =>
      let h := from_chars_i64_prefix handshake 0 in
      Some (mk_stats key (if (length endpoint =? 0)%nat || bytes_eqb endpoint (bs "(none)") then None else Some endpoint)
              (if 0 <? h then Some h else None) (from_chars_i64_prefix received 0) (from_chars_i64_prefix transmitted 0))
  | _ => None
  end.

(** Lines of fewer than eight fields are skipped. *)
Definition parse_stats (dump : bytes) : list sb_wireguard_peer_stats :=
  omap (fun line => stats_of_fields (split_from (chr 9) [] line)) (dump_lines dump).

Definition sb_wireguard_parse_stats (dump : option bytes) : list sb_wireguard_peer_stats := parse_stats (cstr (default [] dump)).

(** [find_stats]. *)
Definition find_stats (stats : list sb_wireguard_peer_stats) (public_key : bytes) : option sb_wireguard_peer_stats :=
  List.find (fun s => bytes_eqb (cstr (ps_public s)) (cstr public_key)) stats.

(** ** Saved settings *)

(** The x86-64 branch of [double_to_u64]; the int64 conversions are of values in
    range. *)
Definition double_to_u64 (value : double) : Z :=
  let two63 := double_of_Z (2 ^ 63) in
  match value with
  | S754_nan => 2 ^ 63
  | _ =>
      if SFltb value two63 then
        if SFleb (double_of_Z (- 2 ^ 63)) value then to_u64 (double_trunc value) else 2 ^ 63
      else
        let value := SFsub 53 1024 value two63 in
        if SFltb value two63 then Z.lxor (to_u64 (double_trunc value)) (2 ^ 63) else 0
  end.

Definition type_error {A} (expected : string) (value : sbj) : result A :=
  sb_fail SB_ERR_BAD_JSON (bs "[json.exception.type_error.302] type must be " ++ bs expected ++ bs ", but is " ++ sbj_type_name (Some value)).

(** [saved_string]: the new value of the slot. *)
Definition saved_string (saved : option sbj) (key : string) (slot : bytes) : result bytes :=
  match sbj_get saved key with
  | None => Ok slot
  | Some (SBJ_STRING s) => Ok (cstr s)
  | Some value => type_error "string" value
  end.

Definition saved_u64 (saved : option sbj) (key : string) (fallback : Z) : result Z :=
  match sbj_get saved key with
  | None => Ok fallback
  | Some (SBJ_INT i) => Ok (to_u64 i)
  | Some (SBJ_UINT u) => Ok u
  | Some (SBJ_FLOAT f) => Ok (double_to_u64 f)
  | Some value => type_error "number" value
  end.
