(* ===== verification/WgHub.v ===== *)
(** * The WireGuard hub ([c/src/wireguard.c])

    The service over the repository, the file system and the commands [wg], [ip],
    [sysctl] and [iptables]: options and keys, the configurations of clients, of the
    hub and of managed hosts, provisioning, and the kernel interface.  A program
    works on the tables and the [system]; calls of the repository are lifted with
    [on_store]. *)

From S2P Require Import Prelude Util Json JsonText Types Sqlite Wireguard System StoreTables StoreAccounts StoreHosts WgText.

(** [sb_wireguard_options]; the strings of the options given to the service may be
    NULL. *)
Record options_of (S : Type) := mk_options {
  wo_enabled : bool; wo_interface : S; wo_port : Z; wo_address : S; wo_dns : S; wo_mtu : Z; wo_hostname : S; wo_egress : S;
  wo_directory : S }.
Arguments mk_options {S}.
Arguments wo_enabled {S}.
Arguments wo_interface {S}.
Arguments wo_port {S}.
Arguments wo_address {S}.
Arguments wo_dns {S}.
Arguments wo_mtu {S}.
Arguments wo_hostname {S}.
Arguments wo_egress {S}.
Arguments wo_directory {S}.

Abbreviation sb_wireguard_options := (options_of bytes).

Definition sb_wireguard_options_init : sb_wireguard_options :=
  mk_options false (bs "wg0") 51820 (bs "10.59.32.1/24") (bs "10.59.32.1") 1420 (bs "127.0.0.1") (bs "eth0") (bs "/etc/wireguard").

(** The options of the service: NULL strings take the defaults. *)
Definition sb_wireguard_new (options : option (options_of (option bytes))) : sb_wireguard_options :=
  match options with
  | None => sb_wireguard_options_init
  | Some o =>
      mk_options (wo_enabled o) (default (bs "wg0") (wo_interface o)) (wo_port o) (default (bs "10.59.32.1/24") (wo_address o))
        (default (bs "10.59.32.1") (wo_dns o)) (wo_mtu o) (default (bs "127.0.0.1") (wo_hostname o)) (default (bs "eth0") (wo_egress o))
        (default (bs "/etc/wireguard") (wo_directory o))
  end.

Record hub_env (K : Type) := mk_hub_env {
  hub_store : store_env; hub_keys : wg_env; hub_sys : sys_env K; hub_qr : qr_lib; hub_clock : nat -> Z * Z }.
Arguments hub_store {K} h.
Arguments hub_keys {K} h.
Arguments hub_sys {K} h.
Arguments hub_qr {K} h.
Arguments hub_clock {K} h.

(** A call of the repository. *)
Definition on_store {K A} (m : store A) : sql store_tables (system K) A :=
  fun s => let (r, s') := m (mk_conn (db s) tt (asked s)) in (r, mk_conn (db s') (mem s) (asked s')).

Section Hub.
Context {K : Type} (env : hub_env K) (wg : sb_wireguard_options).

Abbreviation hub := (sql store_tables (system K)).
Let store_env := hub_store env.
Let sys_env := hub_sys env.

Definition fail {A} (c : sb_code) (message : bytes) : hub A := pure (sb_fail c message).

(** ** Processes *)

(** The exit code (-1 after a signal) and the output. *)
Definition run_command (argv : list bytes) (check : bool) : hub (Z * bytes) :=
  match argv with
  | [] | [] :: _ => fail SB_ERR_VALIDATION (bs "process command is empty")
  | name :: _ =>
      answer ← sys_spawn sys_env argv;
      match answer with
      | PipeFailed e => fail SB_ERR_IO (bs "create process pipe failed: " ++ strerror sys_env e)
      | InitFailed e => fail SB_ERR_IO (bs "initialize process failed: " ++ strerror sys_env e)
      | SpawnFailed e => fail SB_ERR_IO (name ++ bs ": " ++ strerror sys_env e)
      | WaitFailed => fail SB_ERR_IO (name ++ bs ": wait failed")
      | Finished status output =>
          let exit_code := default (-1) status in
          if check && negb (exit_code =? 0)
          then fail SB_ERR_IO (name ++ bs " exited with code " ++ fmt_int exit_code ++ bs ": " ++ cstr output)
          else mret (exit_code, output)
      end
  end.

Definition run (argv : list bytes) (check : bool) : hub Z := result ← run_command argv check; mret (fst result).

(** ** Options and keys *)

Definition merge_saved (saved : option sbj) : result sb_wireguard_options :=
  interface ← saved_string saved "interface" (wo_interface wg);
  address ← saved_string saved "address" (wo_address wg);
  dns ← saved_string saved "dns" (wo_dns wg);
  port ← saved_u64 saved "listen_port" (wo_port wg);
  mtu ← saved_u64 saved "mtu" (wo_mtu wg);
  Ok (mk_options (wo_enabled wg) interface (if (0 <? port) && (port <=? 65535) then port else wo_port wg) address dns
        (if mtu <=? 65535 then mtu else wo_mtu wg) (wo_hostname wg) (wo_egress wg) (wo_directory wg)).

Definition sb_wireguard_runtime_options : hub sb_wireguard_options :=
  saved ← on_store (sb_store_app_setting store_env (Some (bs "wireguard_interface")));
  if sbj_is_object saved then pure (merge_saved saved) else mret wg.

Definition random_key : hub (option bytes) := ask (fun n => sys_random sys_env n 32).

(** A member that must be a string, empty when it is absent. *)
Definition key_member (saved : option sbj) (key : string) : result bytes :=
  match sbj_get saved key with
  | None => Ok []
  | Some (SBJ_STRING s) => Ok (cstr s)
  | Some value => type_error "string" value
  end.

Definition generated_keypair : hub sb_wireguard_keypair :=
  random ← random_key;
  keys ← pure (sb_wireguard_generate_keypair (hub_keys env) random);
  let value := sbj_set_str (SBJ_OBJECT []) "private_key" (kp_private keys) in
  let value := sbj_set_str value "public_key" (kp_public keys) in
  _ ← on_store (sb_store_set_app_setting store_env (Some (bs "wg_server_key")) (Some value));
  mret keys.

(** The saved key pair, or a new one that is saved first. *)
Definition server_keypair : hub sb_wireguard_keypair :=
  saved ← on_store (sb_store_app_setting store_env (Some (bs "wg_server_key")));
  if sbj_is_object saved then
    private_key ← pure (key_member saved "private_key");
    public_key ← pure (key_member saved "public_key");
    match private_key with
    | [] => generated_keypair
    | _ =>
        public_key ← pure (match public_key with
                           | [] => sb_wireguard_public_key_from_private (hub_keys env) (Some private_key)
                           | _ => Ok public_key
                           end);
        mret (mk_keypair private_key public_key)
    end
  else generated_keypair.

Definition sb_wireguard_server_public_key : hub bytes := keys ← server_keypair; mret (kp_public keys).

Definition sb_wireguard_stats : hub (list sb_wireguard_peer_stats) :=
  runtime ← sb_wireguard_runtime_options;
  result ← run_command [bs "wg"; bs "show"; wo_interface runtime; bs "dump"] true;
  mret (parse_stats (snd result)).

(** The clock is only read for a peer that has a valid date. *)
Definition sb_wireguard_peer_expired (peer : sb_wireguard_peer) : hub bool :=
  match wp_expire peer with
  | None => mret false
  | Some text =>
      if sb_str_empty text then mret false
      else match parse_rfc3339 text with None => mret false | Some _ => ask (fun n => expired_at (hub_clock env n) peer) end
  end.

(** ** Configurations of clients *)

Definition newline : bytes := [chr 10].
(** A line [key = value]. *)
Definition line (key : string) (value : bytes) : bytes := bs key ++ bs " = " ++ value ++ newline.
Definition preshared_line (peer : sb_wireguard_peer) : bytes :=
  match wp_preshared peer with Some k => if sb_str_empty k then [] else line "PresharedKey" (cstr k) | None => [] end.
Definition keepalive_line (peer : sb_wireguard_peer) : bytes :=
  if 0 <? wp_keepalive peer then line "PersistentKeepalive" (fmt_int (to_i32 (wp_keepalive peer))) else [].
Definition mtu_line (o : sb_wireguard_options) : bytes := if 0 <? wo_mtu o then line "MTU" (fmt_uint (wo_mtu o)) else [].
Definition endpoint_line (o : sb_wireguard_options) : bytes := line "Endpoint" (cstr (wo_hostname o) ++ bs ":" ++ fmt_uint (wo_port o)).

Definition client_text (peer : sb_wireguard_peer) (o : sb_wireguard_options) (server_public : bytes) : bytes :=
  bs "# Client: " ++ wp_name peer ++ newline ++ bs "[Interface]" ++ newline ++
  line "PrivateKey" (cstr (wp_private peer)) ++ line "Address" (cstr (wp_address peer)) ++ line "DNS" (cstr (wp_dns peer)) ++ mtu_line o ++
  newline ++ bs "[Peer]" ++ newline ++ line "PublicKey" server_public ++ preshared_line peer ++
  line "AllowedIPs" (cstr (wp_allowed peer)) ++ endpoint_line o ++ keepalive_line peer.

Definition sb_wireguard_client_config_n (peer : option sb_wireguard_peer) : hub bytes :=
  match peer with
  | None => fail SB_ERR_VALIDATION (bs "Client private key is unavailable; use the client's existing WireGuard configuration")
  | Some peer =>
      if sb_str_empty (wp_private peer)
      then fail SB_ERR_VALIDATION (bs "Client private key is unavailable; use the client's existing WireGuard configuration")
      else
        runtime ← sb_wireguard_runtime_options;
        server_public ← sb_wireguard_server_public_key;
        mret (client_text peer runtime server_public)
  end.

Definition sb_wireguard_qr_svg (peer : option sb_wireguard_peer) : hub bytes :=
  config ← sb_wireguard_client_config_n peer;
  pure (sb_qr_svg_for_text (hub_qr env) (Some config)).

Definition is_host_peer (host_id : bytes) (p : sb_wireguard_peer) : bool :=
  match wp_host p with Some h => bytes_eqb (cstr h) (cstr host_id) | None => false end.
Definition find_host_peer (l : list sb_wireguard_peer) (host_id : bytes) : option sb_wireguard_peer := List.find (is_host_peer host_id) l.

Definition endpoint_json (peer : sb_wireguard_peer) (o : sb_wireguard_options) (server_public : bytes) : sbj :=
  let remote := sbj_set_str (SBJ_OBJECT []) "address" (wo_hostname o) in
  let remote := sbj_set remote "port" (sbj_uint (wo_port o)) in
  let remote := sbj_set remote "public_key" (SBJ_STRING server_public) in
  let remote := sbj_set remote "allowed_ips" (SBJ_ARRAY [SBJ_STRING (subnet_cidr (wo_address o))]) in
  let remote := sbj_set_int remote "persistent_keepalive_interval" (wp_keepalive peer) in
  let remote := match wp_preshared peer with
                | Some k => if sb_str_empty k then remote else sbj_set_str remote "pre_shared_key" k
                | None => remote
                end in
  let endpoint := sbj_set_str (SBJ_OBJECT []) "type" (bs "wireguard") in
  let endpoint := sbj_set_str endpoint "tag" (bs "sb-easy-network") in
  let endpoint := sbj_set endpoint "address" (SBJ_ARRAY [sbj_str (Some (wp_address peer))]) in
  let endpoint := sbj_set_str endpoint "private_key" (wp_private peer) in
  let endpoint := sbj_set endpoint "peers" (SBJ_ARRAY [remote]) in
  if 0 <? wo_mtu o then sbj_set endpoint "mtu" (sbj_uint (wo_mtu o)) else endpoint.

Definition sb_wireguard_client_endpoint (host : sb_host) : hub (option sbj) :=
  peers ← on_store (sb_store_list_wireguard_peers store_env);
  match find_host_peer peers (ho_id host) with
  | None => mret None
  | Some found =>
      if negb (wp_enabled found) then mret None
      else
        expired ← sb_wireguard_peer_expired found;
        if expired : bool then mret None
        else
          runtime ← sb_wireguard_runtime_options;
          server_public ← sb_wireguard_server_public_key;
          mret (Some (endpoint_json found runtime server_public))
  end.

(** ** Configuration of the hub *)

Definition over_quota (stats : list sb_wireguard_peer_stats) (peer : sb_wireguard_peer) : bool :=
  (0 <? wp_quota peer) &&
  match find_stats stats (wp_public peer) with
  | Some s => wp_quota peer <=? to_i64 (to_u64 (ps_rx s) + to_u64 (ps_tx s))
  | None => false
  end.

Definition peer_section (peer : sb_wireguard_peer) : bytes :=
  newline ++ bs "# Client: " ++ wp_name peer ++ newline ++ bs "[Peer]" ++ newline ++ line "PublicKey" (cstr (wp_public peer)) ++
  preshared_line peer ++ line "AllowedIPs" (peer_ip (wp_address peer) ++ bs "/32") ++ keepalive_line peer.

(** The peers that get a section, in order. *)
Fixpoint served_peers (stats : list sb_wireguard_peer_stats) (l : list sb_wireguard_peer) : hub (list sb_wireguard_peer) :=
  match l with
  | [] => mret []
  | p :: l' =>
      skip ← (if negb (wp_enabled p) then mret true else sb_wireguard_peer_expired p);
      rest ← served_peers stats l';
      mret (if skip || over_quota stats p then rest else p :: rest)
  end.

Definition interface_section (keys : sb_wireguard_keypair) (o : sb_wireguard_options) : bytes :=
  bs "# Generated by sb-easy" ++ newline ++ newline ++ bs "[Interface]" ++ newline ++ line "PrivateKey" (cstr (kp_private keys)) ++
  line "ListenPort" (fmt_uint (wo_port o)).

(** Statistics that are not available are no error. *)
Definition sb_wireguard_server_config_n : hub bytes :=
  runtime ← sb_wireguard_runtime_options;
  current ← attempt sb_wireguard_stats;
  keys ← server_keypair;
  peers ← on_store (sb_store_list_wireguard_peers store_env);
  served ← served_peers (match current with Ok l => l | Err _ => [] end) peers;
  mret (interface_section keys runtime ++ mjoin (map peer_section served)).
End Hub.

(** * The WireGuard hub: managed hosts and the kernel interface ([c/src/wireguard.c]) *)

Section Hub.
Context {K : Type} (env : hub_env K) (wg : sb_wireguard_options).

Abbreviation hub := (sql store_tables (system K)).
Let store_env := hub_store env.
Let sys_env := hub_sys env.
Let runtime_options := sb_wireguard_runtime_options env wg.

(** ** Provisioning *)

(** Failures end the call without notice. *)
Definition sb_wireguard_remove_peer (public_key : bytes) : hub unit :=
  if negb (wo_enabled wg) then mret tt
  else
    _ ← attempt (runtime ← runtime_options;
                 run env [bs "wg"; bs "set"; wo_interface runtime; bs "peer"; public_key; bs "remove"] false);
    mret tt.

(** A peer of this name that no host has. *)
Definition is_unlinked (name : bytes) (p : sb_wireguard_peer) : bool :=
  match wp_host p with None => bytes_eqb (wp_name p) name | Some _ => false end.

Definition linked_peer (host : sb_host) (o : sb_wireguard_options) (p : sb_wireguard_peer) : sb_wireguard_peer :=
  mk_peer (wp_id p) (wp_name p) (wp_private p) (wp_public p) (wp_preshared p) (wp_address p) (wp_dns p) true (wp_keepalive p)
    (subnet_cidr (wo_address o)) (wp_expire p) (wp_quota p) (wp_created p) (wp_updated p) (wp_notes p) (Some (cstr (ho_id host))).

Definition new_host_peer (host : sb_host) (o : sb_wireguard_options) (keys : sb_wireguard_keypair) (preshared allocated : bytes) :
    sb_wireguard_peer :=
  mk_peer [] (bs "host: " ++ ho_name host) (kp_private keys) (kp_public keys) (Some preshared) (peer_ip allocated ++ bs "/32") [] true 25
    (subnet_cidr (wo_address o)) None 0 [] [] None (Some (cstr (ho_id host))).

(** The peer of the host: the one it has, an unlinked one of its name, or a new one. *)
Definition host_peer (host : sb_host) : hub sb_wireguard_peer :=
  existing ← on_store (sb_store_list_wireguard_peers store_env);
  match find_host_peer existing (ho_id host) with
  | Some found => mret found
  | None =>
      runtime ← runtime_options;
      match List.find (is_unlinked (ho_name host)) existing with
      | Some found => on_store (sb_store_update_wireguard_peer store_env (linked_peer host runtime found))
      | None =>
          random ← random_key env;
          keys ← pure (sb_wireguard_generate_keypair (hub_keys env) random);
          allocated ← on_store (sb_store_next_wireguard_address store_env (Some (wo_address runtime)));
          random ← random_key env;
          preshared ← pure (sb_wireguard_generate_preshared_key (hub_keys env) random);
          on_store (sb_store_create_wireguard_peer store_env (new_host_peer host runtime keys preshared allocated))
      end
  end.

Definition provisioned (host : sb_host) (set_default_clash : bool) (peer : sb_wireguard_peer) : sb_host :=
  let h := sb_host_copy host in
  mk_host (ho_id h) (ho_name h) (ho_token h) (ho_capabilities h) (ho_tailscale h) (ho_profile h) (Some (cstr (wp_address peer)))
    (Some (cstr (wp_public peer))) (ho_wg_endpoint h)
    (match ho_clash_api h with
     | None => if set_default_clash then Some (bs "http://" ++ peer_ip (wp_address peer) ++ bs ":9090") else None
     | Some api => Some api
     end)
    (ho_clash_secret h) (ho_seen h) (ho_state h) (ho_enabled h) (ho_created h) (ho_updated h) (ho_assigned h).

Definition sb_wireguard_provision_host (host : sb_host) (set_default_clash : bool) : hub sb_host :=
  peer ← host_peer host;
  on_store (sb_store_update_host store_env (provisioned host set_default_clash peer)).

Definition sb_wireguard_deprovision_host (host_id : option bytes) : hub unit :=
  peers ← on_store (sb_store_list_wireguard_peers store_env);
  match find_host_peer peers (default [] host_id) with
  | None => mret tt
  | Some found =>
      _ ← sb_wireguard_remove_peer (wp_public found);
      on_store (sb_store_delete_wireguard_peer store_env (Some (wp_id found)))
  end.

(** ** Configuration of a managed host *)

Definition host_label (name : bytes) : bytes := if sb_starts_with name (bs "host: ") then drop 6 name else name.

Definition mesh_section (this_has_endpoint : bool) (host_id : bytes) (other : sb_host) : bytes :=
  match ho_wg_public other, ho_wg_address other with
  | Some public_key, Some address =>
      if bytes_eqb (cstr (ho_id other)) (cstr host_id) || negb (ho_enabled other) then []
      else
        let other_port := endpoint_port (ho_wg_endpoint other) in
        match other_port, this_has_endpoint with
        | None, false => []
        | _, _ =>
            newline ++ bs "# Mesh: " ++ ho_name other ++ newline ++ bs "[Peer]" ++ newline ++ line "PublicKey" (cstr public_key) ++
            line "AllowedIPs" (peer_ip address ++ bs "/32") ++
            match other_port with Some _ => line "Endpoint" (cstr (default [] (ho_wg_endpoint other))) | None => [] end ++
            line "PersistentKeepalive" (bs "25")
        end
  | _, _ => []
  end.

Definition host_text (host : sb_host) (found : sb_wireguard_peer) (o : sb_wireguard_options) (server_public : bytes) (hosts : list sb_host) : bytes :=
  let port := endpoint_port (ho_wg_endpoint host) in
  bs "# sb-easy managed host: " ++ host_label (wp_name found) ++ newline ++ bs "[Interface]" ++ newline ++
  line "PrivateKey" (cstr (wp_private found)) ++ line "Address" (cstr (wp_address found)) ++ mtu_line o ++
  match port with Some port => line "ListenPort" (fmt_uint port) | None => [] end ++
  newline ++ bs "# Hub (central server)" ++ newline ++ bs "[Peer]" ++ newline ++ line "PublicKey" server_public ++ preshared_line found ++
  line "AllowedIPs" (subnet_cidr (wo_address o)) ++ endpoint_line o ++ line "PersistentKeepalive" (bs "25") ++
  mjoin (map (mesh_section (bool_decide (is_Some port)) (ho_id host)) hosts).

Definition sb_wireguard_host_config_n (host : sb_host) : hub bytes :=
  peers ← on_store (sb_store_list_wireguard_peers store_env);
  match find_host_peer peers (ho_id host) with
  | None => fail SB_ERR_NOT_FOUND (bs "Host has no WireGuard peer")
  | Some found =>
      runtime ← runtime_options;
      server_public ← sb_wireguard_server_public_key env;
      hosts ← on_store (sb_store_list_hosts store_env);
      mret (host_text host found runtime server_public hosts)
  end.

(** ** Kernel interface *)

Definition create_directories (path : bytes) : hub unit :=
  let failed e := fail SB_ERR_IO (bs "filesystem error: cannot create directories: " ++ strerror sys_env e ++ bs " [" ++ cstr path ++ bs "]") in
  if sb_str_empty path then failed EINVAL
  else
    information ← sys_stat sys_env path;
    match information with
    | inl (Directory _) => mret tt
    | inl (Regular _) => failed ENOTDIR
    | inr (ENOENT | ENOTDIR) =>
        e ← sb_mkdirs sys_env path 511;
        match e with Some e => failed e | None => mret tt end
    | inr e => failed e
    end.

Definition write_server_config (o : sb_wireguard_options) : hub bytes :=
  _ ← create_directories (wo_directory o);
  let path := sb_path_join (wo_directory o) (wo_interface o ++ bs ".conf") in
  config ← sb_wireguard_server_config_n env wg;
  _ ← sb_atomic_replace_file sys_env path config None;
  mret path.

Definition sb_wireguard_sync : hub unit :=
  if negb (wo_enabled wg) then mret tt
  else
    runtime ← runtime_options;
    path ← write_server_config runtime;
    _ ← run env [bs "wg"; bs "syncconf"; wo_interface runtime; path] true;
    mret tt.

Definition ip_link (args : list bytes) : list bytes := bs "ip" :: bs "link" :: args.

(** The interface exists already, or is made. *)
Definition bring_up (o : sb_wireguard_options) (path : bytes) : hub unit :=
  let interface := wo_interface o in
  code ← run env (ip_link [bs "show"; interface]) false;
  if code =? 0 then _ ← run env [bs "wg"; bs "syncconf"; interface; path] true; mret tt
  else
    _ ← run env (ip_link [bs "add"; interface; bs "type"; bs "wireguard"]) true;
    _ ← (if 0 <? wo_mtu o then run env (ip_link [bs "set"; interface; bs "mtu"; fmt_uint (wo_mtu o)]) true else mret 0);
    _ ← run env [bs "ip"; bs "address"; bs "add"; wo_address o; bs "dev"; interface] true;
    _ ← run env (ip_link [bs "set"; bs "up"; interface]) true;
    _ ← run env [bs "wg"; bs "setconf"; interface; path] true;
    mret tt.

Definition masquerade (action : string) (o : sb_wireguard_options) : list bytes :=
  [bs "iptables"; bs "-t"; bs "nat"; bs action; bs "POSTROUTING"; bs "-s"; subnet_cidr (wo_address o); bs "-o"; wo_egress o; bs "-j";
   bs "MASQUERADE"].

Definition forward (action direction : string) (o : sb_wireguard_options) : list bytes :=
  [bs "iptables"; bs action; bs "FORWARD"; bs direction; wo_interface o; bs "-j"; bs "ACCEPT"].

(** A rule is appended when the check does not find it. *)
Definition ensure_rule (rule : string -> list bytes) : hub unit :=
  code ← run env (rule "-C"%string) false;
  if code =? 0 then mret tt else _ ← run env (rule "-A"%string) false; mret tt.

Definition sb_wireguard_startup : hub unit :=
  if negb (wo_enabled wg) then mret tt
  else
    runtime ← runtime_options;
    path ← write_server_config runtime;
    _ ← bring_up runtime path;
    _ ← run env [bs "sysctl"; bs "-w"; bs "net.ipv4.ip_forward=1"] false;
    _ ← ensure_rule (fun action => masquerade action runtime);
    _ ← ensure_rule (fun action => forward action "-i" runtime);
    ensure_rule (fun action => forward action "-o" runtime).

(** The first command that cannot be run ends the teardown. *)
Definition sb_wireguard_shutdown : hub unit :=
  if negb (wo_enabled wg) then mret tt
  else
    _ ← attempt (runtime ← runtime_options;
                 _ ← run env (masquerade "-D" runtime) false;
                 _ ← run env (forward "-D" "-i" runtime) false;
                 _ ← run env (forward "-D" "-o" runtime) false;
                 run env (ip_link [bs "delete"; wo_interface runtime]) false);
    mret tt.
End Hub.
