(* ===== verification/StoreEnroll.v ===== *)
(** * Enrollment codes

    A code works once, for ten minutes, and only until the next code of its host is
    made, whatever other calls come between. *)

From S2P Require Import Prelude Util Json JsonText Types Sqlite SqliteProofs Auth Tailscale StoreTables StoreAccounts StoreHosts StoreNodes StoreBackup StoreCalls.

(** ** Steps and the table of codes *)

Lemma step_enrollments_same k t t' :
  store_step k t t' -> k <> Enrollments -> (forall id, k <> HostDeletion id) -> enrollments t' = enrollments t.
Proof. intros ->%step_changed N D. destruct k; try done. by destruct (D id). Qed.

(** The code with this hash was redeemed for the host. *)
Definition spent (hash host : bytes) (t : store_tables) : Prop :=
  NoDup (en_hash <$> enrollments t) /\
  exists e, e ∈ enrollments t /\ en_hash e = hash /\ en_host e = host /\ en_redeemed e <> None.

Lemma hash_unique_insert e t t' :
  insert_enrollment e t = Ok (tt, t') -> enrollments t' = enrollments t ++ [e] /\ (NoDup (en_hash <$> enrollments t) -> NoDup (en_hash <$> enrollments t')).
Proof.
  unfold insert_enrollment, sql_insert. case_if; [done|]. intros (l & El & [_ <-]%Ok_inj%pair_inj)%bind_Ok.
  destruct (existsb (fun x => _ || _) _) eqn:X; [done|]. apply Ok_inj in El as <-.
  split; [done|]. intros N. cbn [enrollments with_enrollments]. rewrite fmap_app. apply NoDup_app. split; [done|]. split; [|apply NoDup_singleton].
  intros h (x & -> & Hx)%list_elem_of_fmap H%list_elem_of_singleton. apply (proj1 (existsb_none _ _) X) in Hx.
  apply orb_false_iff in Hx as [_ Hx]. apply bytes_eqb_neq in Hx. done.
Qed.

Lemma spent_step hash host k t t' : store_step k t t' -> k <> HostDeletion host -> spent hash host t -> spent hash host t'.
Proof.
  intros St D (N & e & He & Eh & Eo & Er).
  assert (M : forall m g, (forall x, en_hash (g x) = en_hash x /\ en_host (g x) = en_host x /\ (en_redeemed x <> None -> en_redeemed (g x) <> None)) ->
    spent hash host (with_enrollments t (fst (sql_update m g (enrollments t))))).
  { intros m g G. split; cbn [enrollments with_enrollments sql_update fst].
    - rewrite map_update_keys; [done|]. apply G.
    - exists (if m e then g e else e). split; [apply In_map_update; by exists e|]. destruct (G e) as (? & ? & ?). destruct (m e); [|done]. by split_and!; try congruence; auto. }
  assert (Same : enrollments t' = enrollments t -> spent hash host t').
  { intros X. unfold spent. rewrite X. split; [done|]. by exists e. }
  destruct St; try (apply Same; eapply step_enrollments_same; [by econstructor|done|done]).
  - split; cbn [enrollments delete_host_row with_enrollments with_diags with_captures with_hosts].
    + eapply sublist_NoDup; [exact N|]. clear. induction (enrollments t); cbn [List.filter]; [done|]. case_if; rewrite !fmap_cons; by constructor.
    + exists e. split; [|done]. apply filter_In. split; [done|]. apply negb_true_iff, bytes_eqb_neq. congruence.
  - apply M. done.
  - apply M. done.
  - destruct (hash_unique_insert _ _ _ H) as [X Y]. split; [by apply Y|]. exists e. rewrite X. split; [|done]. apply elem_of_app. by left.
Qed.

(** ** Redeeming *)

Definition code_hash (env : store_env) (code : option bytes) : bytes := sb_sha256_hex env (cstr (default [] code)).

(** Redeemed rows of a table. *)
Definition redeem_rows (id time : bytes) (l : list enrollment_row) : list enrollment_row :=
  map (fun x => if bytes_eqb (en_id x) id && unredeemed x then redeemed_at time x else x) l.

Lemma find_enrollment_spec t hash time e h p :
  find_enrollment t hash time = Some (e, h, p) ->
  e ∈ enrollments t /\ en_hash e = hash /\ unredeemed e = true /\ text_after (en_expires e) time = true /\
  hr_id h = en_host e /\ hr_enabled h = true /\ find_host_row t (en_host e) = Some h.
Proof.
  unfold find_enrollment. destruct (List.find _ (enrollments t)) as [e'|] eqn:Fe; cbn; [|done].
  destruct (find_host_row t (en_host e')) as [h'|] eqn:Fh; cbn; [|done]. destruct (List.find _ (profiles t)) as [p'|]; cbn; [|done].
  destruct (_ && _ && _) eqn:C; [|done]. intros [= -> -> ->]. apply andb_true_iff in C as [[C1 C2]%andb_true_iff C3].
  apply find_In in Fe as [He Ee]. apply bytes_eqb_eq in Ee. pose proof Fh as [_ Eh]%find_In. apply bytes_eqb_eq in Eh. done.
Qed.

(** What a redemption does: the code was good at a reading of the clock, and its row
    is marked. *)
Lemma redeem_spec env code device s :
  wp (sb_store_redeem_agent_enrollment env code device)
     (fun r s' => exists e h p n n', find_enrollment (db s) (code_hash env code) (datetime env (now env n)) = Some (e, h, p) /\
        (asked s <= n < asked s')%nat /\ er_host r = hr_id h /\ er_token r = hr_token h /\
        enrollments (db s') = redeem_rows (en_id e) (datetime env (now env n')) (enrollments (db s)))
     (fun _ s' => db s' = db s) s.
Proof.
  unfold sb_store_redeem_agent_enrollment, refuse, prepared, sql_now. cbv zeta. case_if; [by apply wp_pure|]. apply wp_bind, wp_pure.
  destruct (features_valid _ _); [|done]. apply wp_transaction; [done|]. repeat wp_step; cbn [db asked mem]; try done.
  destruct (find_enrollment _ _ _) as [[[e h] p]|] eqn:F; [|by apply wp_pure]. repeat wp_step; cbn [db asked mem]; try done.
  unfold sql_update at 1. cbv beta iota. destruct (negb (_ =? 1)%nat); [by apply wp_pure|].
  repeat wp_step; cbn [db asked mem]; try done. destruct (dump_checked _); [|done].
  repeat wp_step; cbn [db asked mem]; try done. split; [|done].
  exists e, h, p, (S (asked s)), (S (S (S (asked s)))). split; [exact F|]. split; [cbn; lia|]. done.
Qed.

Lemma spent_refused env code host device s :
  spent (code_hash env code) host (db s) ->
  exists e s', sb_store_redeem_agent_enrollment env code device s = (Err e, s') /\ db s' = db s.
Proof.
  intros (N & e & He & Eh & _ & Er). pose proof (redeem_spec env code device s) as W. unfold wp in W.
  destruct (sb_store_redeem_agent_enrollment env code device s) as [[r|x] s']; [|by exists x, s'].
  destruct W as (e' & h & p & n & n' & F & _). apply find_enrollment_spec in F as (He' & Eh' & U & _).
  assert (e' = e) as -> by (eapply (NoDup_fmap_inj_on en_hash); [done..|congruence]). unfold unredeemed in U. by destruct (en_redeemed e).
Qed.

Lemma touches_deletion c host : HostDeletion host ∈ touches c -> exists id, c = DeleteHost id /\ cstr (default [] id) = host.
Proof.
  destruct c; cbn [touches]; intros H; repeat (apply elem_of_cons in H as [H|H]; [try discriminate|]); try by apply elem_of_nil in H.
  injection H as ->. eauto.
Qed.

(** C12: an enrollment code works once.  After a device was enrolled with a code, no later
    redemption of that code succeeds, whatever calls are made in between and whatever
    fails in them, unless the host itself is deleted; and the refused redemption
    changes nothing. *)
Theorem enrollment_single_use env code device device' s r s' cs :
  NoDup (en_hash <$> enrollments (db s)) ->
  sb_store_redeem_agent_enrollment env code device s = (Ok r, s') ->
  (forall id, DeleteHost id ∈ cs -> cstr (default [] id) <> er_host r) ->
  exists e s'', sb_store_redeem_agent_enrollment env code device' (run_calls env cs s') = (Err e, s'') /\
                db s'' = db (run_calls env cs s').
Proof.
  intros N E D. pose proof (redeem_spec env code device s) as W. unfold wp in W. rewrite E in W.
  destruct W as (e & h & p & n & n' & F & _ & Eh & _ & El). apply find_enrollment_spec in F as (He & Ehash & U & _ & Ho & _).
  apply spent_refused with (host := er_host r), calls_keep.
  - intros c Hc k t t' Hk St. eapply spent_step; [done|]. intros ->. destruct (touches_deletion _ _ Hk) as (id & -> & Ei). by apply (D id).
  - split; rewrite El.
    + unfold redeem_rows. by rewrite (map_update_keys en_hash).
    + exists (redeemed_at (datetime env (now env n')) e). split; [|by rewrite <- Ehash, Eh, Ho]. apply In_map_update. exists e. split; [done|].
      by rewrite bytes_eqb_refl, U.
Qed.

Lemma enrollment_single_use_witness :
  let s := demo_enrolling in
  exists r s', sb_store_redeem_agent_enrollment demo_env (Some demo_code) (Some (SBJ_OBJECT [])) s = (Ok r, s') /\
    exists e s'', sb_store_redeem_agent_enrollment demo_env (Some demo_code) (Some (SBJ_OBJECT []))
                    (run_calls demo_env [Enroll (Some (bs "phone")); TouchHost (Some (bs "phone"))] s') = (Err e, s'') /\
                  db s'' = db (run_calls demo_env [Enroll (Some (bs "phone")); TouchHost (Some (bs "phone"))] s').
Proof.
  eexists _, _. split; [vm_compute; reflexivity|]. eapply (enrollment_single_use demo_env (Some demo_code) (Some (SBJ_OBJECT [])) _ demo_enrolling).
  - vm_compute. apply NoDup_singleton.
  - vm_compute. reflexivity.
  - intros id H. by repeat apply elem_of_cons in H as [H|H]; try apply elem_of_nil in H.
Defined.
