(* ===== verification/StoreInvariants.v ===== *)
(** * Invariants of the repository

    Properties of the tables that hold after any sequence of calls, however each of
    them ends: an administrator is left, what a host may store is bounded, and every
    host has its profile. *)

From S2P Require Import Prelude Util Json JsonText Types Sqlite SqliteProofs Auth Tailscale StoreTables StoreAccounts StoreHosts StoreNodes StoreBackup StoreCalls.

(** What each call keeps is kept by a sequence of them. *)
Lemma calls_always (J : store_tables -> Prop) env cs s :
  (forall c, always J (run_store env c)) -> J (db s) -> J (db (run_calls env cs s)).
Proof. intros H. revert s. induction cs as [|c cs IH]; intros s Hs; [done|]. apply IH. by apply H. Qed.

(** A property of one table, and a call that does not write it. *)
Lemma untouched_always (J : store_tables -> Prop) env c :
  (forall k t t', k ∈ touches c -> J t -> J (changed k t t')) -> always J (run_store env c).
Proof. intros H s. apply store_call_keeps. intros k t t' Hk St Ht. rewrite (step_changed k t t' St). by apply H. Qed.

(** A call that writes none of the tables that a property is about. *)
Ltac untouched :=
  apply untouched_always; let k := fresh in let t := fresh in let t' := fresh in let Hk := fresh in let Ht := fresh in
  intros k t t' Hk Ht; cbn [touches] in Hk; repeat (apply elem_of_cons in Hk as [->|Hk]; [exact Ht|]); by apply elem_of_nil in Hk.

(** ** Administrators *)

Definition admin_left (t : store_tables) : Prop :=
  NoDup (us_id <$> users t) /\ exists u, u ∈ users t /\ is_admin u = true.

Lemma create_user_admin env u h r : always admin_left (sb_store_create_user_n env u h r).
Proof.
  unfold sb_store_create_user_n. always_steps. apply always_stmt. intros t x t' (N & w & Hw & Aw) (l & E & [_ <-]%Ok_inj%pair_inj)%bind_Ok.
  unfold sql_insert in E. destruct (existsb _ _) eqn:X; [done|]. apply Ok_inj in E as <-. split; cbn [users with_users].
  - rewrite fmap_app. apply NoDup_app. split; [done|]. split; [|apply NoDup_singleton].
    intros i (y & -> & Hy)%list_elem_of_fmap E%list_elem_of_singleton. apply (proj1 (existsb_none _ _) X) in Hy.
    apply orb_false_iff in Hy as [Hy _]. by apply bytes_eqb_neq in Hy.
  - exists w. split; [|done]. apply elem_of_app. by left.
Qed.

(** Two administrators in the list: one of them has another id. *)
Lemma other_admin (l : list sb_user_account) (id : bytes) :
  NoDup (us_id <$> l) -> (2 <= length (List.filter is_admin l))%nat -> exists u, u ∈ l /\ is_admin u = true /\ us_id u <> id.
Proof.
  intros N Len. assert (Nf : NoDup (us_id <$> List.filter is_admin l)).
  { eapply sublist_NoDup; [exact N|]. clear. induction l; cbn [List.filter]; [done|]. case_if; rewrite !fmap_cons; by constructor. }
  assert (I : forall u, u ∈ List.filter is_admin l -> u ∈ l /\ is_admin u = true) by (intros u; apply filter_In).
  destruct (List.filter is_admin l) as [|a [|b m]]; cbn [length] in Len; try lia.
  rewrite !fmap_cons in Nf. apply NoDup_cons in Nf as [Na _].
  destruct (decide (us_id a = id)) as [Ea|Ea].
  - exists b. destruct (I b) as [Hb Ab]; [right; left|]. split_and!; [done|done|]. intros Eb. apply Na. rewrite Ea, <- Eb. left.
  - exists a. destruct (I a) as [Ha Aa]; [left|]. done.
Qed.

Lemma delete_user_admin env a u : always admin_left (sb_store_delete_user env a u).
Proof.
  intros s Hs. pose (Q := fun (x : unit) (s' : conn store_tables unit) => admin_left (db s')).
  assert (W : wp (sb_store_delete_user env a u) Q (fun _ s' => admin_left (db s')) s).
  2: { unfold wp in W. by destruct (sb_store_delete_user env a u s) as [[]]. }
  unfold sb_store_delete_user, refuse. cbv zeta. case_if; [by apply wp_pure|]. apply wp_bind, wp_stmt; [done|]. cbv beta iota.
  destruct (List.find _ _) as [v|] eqn:F; [|by apply wp_ret]. apply find_In in F as [Hv Ev]. apply bytes_eqb_eq in Ev.
  destruct Hs as (N & w & Hw & Aw).
  set (user := cstr (default [] u)) in *.
  assert (D : forall k, (exists x, x ∈ users (db s) /\ is_admin x = true /\ us_id x <> user) ->
     wp (stmt (fault env) (fun t => Ok (tt, with_users t (List.filter (fun x => negb (bytes_eqb (us_id x) user)) (users t)))))
        Q (fun _ s' => admin_left (db s')) (mk_conn (db s) (mem s) k)).
  { intros k (x & Hx & Ax & Nx). apply wp_stmt; [intros ?; by split; [|exists w]|]. split; cbn [users with_users db].
    - eapply sublist_NoDup; [exact N|]. clear. induction (users (db s)); cbn [List.filter]; [done|]. case_if; rewrite !fmap_cons; by constructor.
    - exists x. split; [|done]. apply filter_In. split; [done|]. by apply negb_true_iff, bytes_eqb_neq. }
  destruct (sb_streq (Some (us_role v)) (Some (bs "admin"))) eqn:R.
  - apply wp_bind, wp_bind, wp_stmt; [intros; by split; [|exists w]|]. cbv beta iota. cbn [db mem].
    destruct (_ <=? 1)%nat eqn:L; [apply wp_pure; by split; [|exists w]|]. apply wp_ret, D, other_admin; [done|].
    apply Nat.leb_gt in L. lia.
  - apply wp_bind, wp_ret, D. exists w. split; [done|]. split; [done|]. intros Ew.
    assert (w = v) as -> by (eapply (NoDup_fmap_inj_on us_id); [done..|congruence]).
    unfold is_admin in Aw. apply bytes_eqb_eq in Aw. cbn [sb_streq] in R. by rewrite Aw in R.
Qed.

Lemma reset_password_admin env u h : always admin_left (sb_store_reset_user_password env u h).
Proof.
  unfold sb_store_reset_user_password, exec_changes. always_steps. apply always_stmt. intros t n t' (N & w & Hw & Aw) [_ <-]%Ok_inj%pair_inj.
  split; cbn [users with_users].
  - by rewrite (map_update_keys us_id).
  - eexists. split; [apply In_map_update; by exists w|]. by case_if.
Qed.

(** No call of the repository takes the last administrator away, whatever fails. *)
Lemma store_call_admin env c : always admin_left (run_store env c).
Proof.
  destruct c; try untouched; cbn [run_store]; unfold void.
  - unfold sb_store_ensure_default_admin, sb_store_create_user. always_steps. apply create_user_admin.
  - always_steps. apply create_user_admin.
  - apply delete_user_admin.
  - apply reset_password_admin.
Qed.

(** ** What a host may store *)

Definition host_diags (t : store_tables) (host : bytes) : list diag_row := List.filter (fun d => bytes_eqb (dg_host d) host) (diags t).

Definition DIAG_REPORTS : nat := 20.

Definition captures_bounded (t : store_tables) : Prop :=
  forall host, (length (host_captures t host) <= CAPTURE_FILES)%nat /\ zsum capture_size (host_captures t host) <= CAPTURE_BYTES.
Definition diags_bounded (t : store_tables) : Prop :=
  NoDup (dg_id <$> diags t) /\ forall host, (length (host_diags t host) <= DIAG_REPORTS)%nat.
Definition storage_bounded (t : store_tables) : Prop := captures_bounded t /\ diags_bounded t.

Lemma filter_filter_impl {R} (p q : R -> bool) l : (forall x, p x = true -> q x = true) -> List.filter p (List.filter q l) = List.filter p l.
Proof.
  intros H. induction l as [|x l IH]; cbn [List.filter]; [done|]. destruct (q x) eqn:Q; cbn [List.filter]; rewrite IH; [done|].
  destruct (p x) eqn:P; [|done]. by rewrite (H x P) in Q.
Qed.

Lemma filter_swap {R} (p q : R -> bool) l : List.filter p (List.filter q l) = List.filter q (List.filter p l).
Proof.
  induction l as [|x l IH]; cbn [List.filter]; [done|].
  destruct (p x) eqn:P, (q x) eqn:Q; cbn [List.filter]; rewrite ?P, ?Q, IH; done.
Qed.

Lemma filter_shorter {R} (p : R -> bool) l : (length (List.filter p l) <= length l)%nat.
Proof. induction l as [|x l IH]; cbn [List.filter length]; [lia|]. destruct (p x); cbn [length]; lia. Qed.

Lemma zsum_filter {R} (f : R -> Z) p l : (forall x, 0 <= f x) -> zsum f (List.filter p l) <= zsum f l.
Proof. intros H. induction l as [|x l IH]; cbn [List.filter zsum]; [lia|]. specialize (H x). destruct (p x); cbn [zsum]; lia. Qed.

Lemma filter_captures_bounded t q : captures_bounded t -> captures_bounded (with_captures t (List.filter q (captures t))).
Proof.
  intros H host. specialize (H host). unfold host_captures in *. cbn [captures with_captures]. rewrite filter_swap.
  pose proof (filter_shorter q (List.filter (fun c => bytes_eqb (cp_host c) host) (captures t))).
  pose proof (zsum_filter capture_size q (List.filter (fun c => bytes_eqb (cp_host c) host) (captures t))) as Z.
  destruct H. split; [lia|]. etrans; [apply Z|done]. intros c. unfold capture_size. lia.
Qed.

Lemma filter_diags_bounded t q : diags_bounded t -> diags_bounded (with_diags t (List.filter q (diags t))).
Proof.
  intros [N H]. split; cbn [diags with_diags]; [by apply filter_keys_NoDup|]. intros host. specialize (H host).
  unfold host_diags in *. cbn [diags with_diags]. rewrite filter_swap. etrans; [apply filter_shorter|done].
Qed.

Lemma save_capture_bounded env h d x : always storage_bounded (sb_store_save_capture env h d x).
Proof.
  intros s Hs. pose (Q := fun (x : unit) (s' : conn store_tables unit) => storage_bounded (db s')).
  assert (W : wp (sb_store_save_capture env h d x) Q (fun _ s' => storage_bounded (db s')) s).
  2: { unfold wp in W. by destruct (sb_store_save_capture env h d x s) as [[]]. }
  unfold sb_store_save_capture, refuse, sql_now. apply wp_transaction; [done|]. repeat wp_step; cbn [db mem asked]; try done.
  destruct (existsb _ _) eqn:F; [by apply wp_ret|]. repeat wp_step; cbn [db mem asked fst snd]; try done.
  destruct (_ || _) eqn:B; [by apply wp_pure|]. apply orb_false_iff in B as [B1%Nat.leb_gt B2%Z.ltb_ge].
  repeat wp_step; cbn [db mem asked]; try done. unfold insert_capture, sql_insert. destruct (negb _); [done|]. cbn [cp_host cp_digest].
  rewrite F. cbn [mbind result_bind]. split; [|done]. destruct Hs as [Hc Hd]. split; [|done]. intros host. specialize (Hc host).
  unfold host_captures in *. cbn [captures with_captures db]. rewrite filter_app. cbn [List.filter cp_host].
  destruct (bytes_eqb (cstr h) host) eqn:Eh; [|by rewrite app_nil_r]. apply bytes_eqb_eq in Eh as <-.
  rewrite length_app, zsum_app. cbn [length zsum]. unfold capture_size at 2. cbn [cp_payload]. split; [lia|]. lia.
Qed.

(** Of a host that has the rows [l], those with one of the ids [kept] are no more. *)
Lemma kept_length (l : list diag_row) (kept : list bytes) :
  NoDup (dg_id <$> l) -> (length (List.filter (fun d => existsb (bytes_eqb (dg_id d)) kept) l) <= length kept)%nat.
Proof.
  intros N. rewrite <- (length_fmap dg_id). apply submseteq_length, NoDup_submseteq; [by apply filter_keys_NoDup|].
  intros i (d & -> & [_ E]%filter_In)%list_elem_of_fmap. apply existsb_In in E as (k & Hk & E). apply bytes_eqb_eq in E as ->. done.
Qed.

Lemma prune_bounded d t :
  diags_bounded t -> ~ dg_id d ∈ dg_id <$> diags t -> diags_bounded (prune_diags (dg_host d) (with_diags t (diags t ++ [d]))).
Proof.
  intros [N H] Nd. assert (N' : NoDup (dg_id <$> diags t ++ [d])).
  { rewrite fmap_app. apply NoDup_app. split; [done|]. split; [|apply NoDup_singleton]. by intros i Hi ->%list_elem_of_singleton. }
  unfold prune_diags. set (kept := map dg_id _). split; cbn [diags with_diags]; [by apply filter_keys_NoDup|].
  intros host. unfold host_diags. cbn [diags with_diags]. destruct (decide (host = dg_host d)) as [->|Ne].
  - rewrite filter_swap, (filter_ext_in _ (fun x => existsb (bytes_eqb (dg_id x)) kept)).
    + etrans; [apply kept_length, filter_keys_NoDup, N'|]. unfold kept. rewrite length_map, length_take. unfold DIAG_REPORTS. lia.
    + intros x Hx%list_elem_of_In. apply filter_In in Hx as [_ ->]. done.
  - rewrite filter_filter_impl.
    + rewrite filter_app. cbn [List.filter]. rewrite (proj2 (bytes_eqb_neq (dg_host d) host)) by done. rewrite app_nil_r. apply H.
    + intros x ->%bytes_eqb_eq. apply orb_true_iff. left. by apply negb_true_iff, bytes_eqb_neq.
Qed.

Lemma save_report_bounded env h r : always storage_bounded (sb_store_save_diagnostic_report env h r).
Proof.
  intros s Hs. pose (Q := fun (x : bytes) (s' : conn store_tables unit) => storage_bounded (db s')).
  assert (W : wp (sb_store_save_diagnostic_report env h r) Q (fun _ s' => storage_bounded (db s')) s).
  2: { unfold wp in W. by destruct (sb_store_save_diagnostic_report env h r s) as [[]]. }
  unfold sb_store_save_diagnostic_report, refuse, new_uuid, host_exists, prepared. destruct (negb _); [by apply wp_pure|].
  apply wp_bind, wp_pure. destruct (jv_str r "reason" _); [|done]. apply wp_bind, wp_pure. destruct (jv_str r "app_version" _); [|done].
  apply wp_bind, wp_pure. destruct (jv_str r "core_version" _); [|done]. apply wp_bind, wp_ask, wp_transaction; [done|]. cbn [db].
  repeat wp_step; cbn [db mem asked]; try done. destruct (negb _); [by apply wp_pure|]. repeat wp_step; cbn [db mem asked]; try done.
  destruct (dump_checked _); [|done]. repeat wp_step; cbn [db mem asked]; try done. unfold insert_diag, sql_insert. destruct (negb _); [done|].
  destruct (existsb _ (diags _)) eqn:X; [done|]. cbn [mbind result_bind]. repeat wp_step; cbn [db mem asked]; try done. split; [|done].
  destruct Hs as [Hc Hd]. split; [done|]. set (d := mk_diag _ _ _ _ _ _ _) in *. apply (prune_bounded d); [done|].
  intros (y & Ey & Hy)%list_elem_of_fmap. apply (proj1 (existsb_none _ _) X) in Hy. apply bytes_eqb_neq in Hy. done.
Qed.

Lemma delete_host_bounded id t : storage_bounded t -> storage_bounded (delete_host_row id t).
Proof. intros [Hc Hd]. split; [by apply (filter_captures_bounded (with_diags _ _))|by apply (filter_diags_bounded t)]. Qed.

(** What a host can make the server store is bounded: at most 1000 captures of
    together 128 MiB and the twenty newest reports, after any sequence of calls. *)
Theorem host_storage_bounded env cs s : storage_bounded (db s) -> storage_bounded (db (run_calls env cs s)).
Proof.
  apply calls_always. intros c. destruct c; try untouched; cbn [run_store]; unfold void.
  - apply save_capture_bounded.
  - unfold sb_store_delete_capture. apply always_stmt. intros t x t' [Hc Hd] [_ <-]%Ok_inj%pair_inj. split; [by apply filter_captures_bounded|done].
  - unfold sb_store_delete_host. always_steps; apply always_stmt; intros t x t' Ht [_ <-]%Ok_inj%pair_inj; [done|by apply delete_host_bounded].
  - always_steps. apply save_report_bounded.
Qed.

(** ** Profiles of hosts *)

(** The default profile is there, and every host refers to a profile that is. *)
Definition profiles_linked (t : store_tables) : Prop :=
  existsb (profile_is (bs "default")) (profiles t) = true /\ forall h, h ∈ hosts t -> profile_known t (hr_profile h) = true.

Lemma existsb_map_update (id : bytes) (m : profile_row -> bool) (g : profile_row -> profile_row) (l : list profile_row) :
  (forall p, pr_id (g p) = pr_id p) -> existsb (profile_is id) l = true -> existsb (profile_is id) (map (fun p => if m p then g p else p) l) = true.
Proof.
  intros G (p & Hp & Ep)%existsb_In. apply existsb_In. eexists. split; [apply In_map_update; by exists p|].
  unfold profile_is in *. case_if; [by rewrite G|done].
Qed.

Lemma linked_profiles t l :
  (forall id, existsb (profile_is id) (profiles t) = true -> existsb (profile_is id) l = true \/
     (id <> bs "default" /\ forall h, h ∈ hosts t -> hr_profile h <> Some id)) ->
  profiles_linked t -> profiles_linked (with_profiles t l).
Proof.
  intros Hl [Hd Hh]. split; cbn [profiles hosts with_profiles].
  - destruct (Hl _ Hd) as [|[]]; done.
  - intros h H. specialize (Hh h H). unfold profile_known in *. destruct (hr_profile h) as [id|] eqn:E; [|done]. cbn [profiles with_profiles].
    destruct (Hl id Hh) as [|[_ N]]; [done|]. by destruct (N h).
Qed.

Lemma linked_step k t t' : store_step k t t' -> profiles_linked t -> profiles_linked t'.
Proof.
  intros St Ht. pose proof (step_changed _ _ _ St) as C. destruct k; try (rewrite C; exact Ht); clear C; inversion St; subst; clear St;
    repeat match goal with H : _ = Ok _ |- _ => revert H | H : forall _ : profile_row, pr_id _ = _ |- _ => revert H
      | H : forall _ : host_row, _ -> _ -> _ |- _ => revert H end.
  - intros (l & E & [_ <-]%Ok_inj%pair_inj)%bind_Ok. unfold sql_insert in E. destruct (existsb _ _) in E; [done|]. apply Ok_inj in E as <-.
    apply linked_profiles; [|done]. intros id H. left. rewrite existsb_app. by rewrite H.
  - intros G. apply linked_profiles; [|done]. intros id H. left. by apply existsb_map_update.
  - unfold delete_profile_row. destruct (_ && _) eqn:X; [done|]. intros [_ <-]%Ok_inj%pair_inj. apply linked_profiles; [|done].
    intros i Hi. destruct (decide (i = id)) as [->|Ne].
    + right. split; [done|]. rewrite Hi in X. cbn [andb] in X. intros h Hh Eh. apply (proj1 (existsb_none _ _) X) in Hh.
      unfold has_profile in Hh. rewrite Eh in Hh. by apply bytes_eqb_neq in Hh.
    + left. apply existsb_In in Hi as (p & Hp & Ep). apply existsb_In. exists p. split; [|done]. apply filter_In. split; [done|].
      unfold profile_is in *. apply bytes_eqb_eq in Ep as <-. by apply negb_true_iff, bytes_eqb_neq.
  - unfold insert_host. destruct (negb _) eqn:K; [done|]. apply negb_false_iff in K. intros (l & E & [_ <-]%Ok_inj%pair_inj)%bind_Ok.
    unfold sql_insert in E. destruct (existsb _ _) in E; [done|]. apply Ok_inj in E as <-. destruct Ht as [Hd Hh]. split; [done|].
    cbn [hosts with_hosts]. intros x [Hx| ->%list_elem_of_singleton]%elem_of_app; [by apply Hh|done].
  - intros G. destruct Ht as [Hd Hh]. split; [done|]. cbn [hosts with_hosts sql_update fst]. intros x (y & Hy & ->)%In_map_update.
    change (profile_known t (hr_profile (if m y then g y else y)) = true). destruct (m y) eqn:M; [|by apply Hh].
    destruct (G y M Hy) as [_ [->|]]; [by apply Hh|done].
  - destruct Ht as [Hd Hh]. split; [done|]. cbn [hosts delete_host_row with_captures with_diags with_enrollments with_hosts].
    intros x [Hx _]%filter_In. by apply Hh.
Qed.

Lemma linked_calls env cs s : profiles_linked (db s) -> profiles_linked (db (run_calls env cs s)).
Proof. apply calls_keep. intros c _ k t t' _. apply linked_step. Qed.

Lemma linked_found t h : profiles_linked t -> h ∈ hosts t -> exists p, List.find (profile_is (default (bs "default") (hr_profile h))) (profiles t) = Some p.
Proof.
  intros [Hd Hh] H. specialize (Hh h H). destruct (List.find _ _) as [p|] eqn:F; [by exists p|].
  assert (X : existsb (profile_is (default (bs "default") (hr_profile h))) (profiles t) = true) by (by destruct (hr_profile h)).
  apply existsb_In in X as (p & Hp & Ep). by rewrite (find_none_In _ _ _ F Hp) in Ep.
Qed.

(** Every host keeps a profile.  After any sequence of calls, the default profile is
    still there, and the profile that each host is rendered with (its own, or else
    the default one) is in the table: no deletion of a profile leaves a host without. *)
Theorem hosts_keep_profiles env cs s :
  profiles_linked (db s) ->
  let t := db (run_calls env cs s) in
  (exists p, p ∈ profiles t /\ pr_id p = bs "default") /\
  forall h, h ∈ hosts t -> exists p, p ∈ profiles t /\ pr_id p = default (bs "default") (hr_profile h).
Proof.
  intros Hs t. assert (L : profiles_linked t) by (by apply linked_calls). split.
  - destruct L as [(p & Hp & Ep)%existsb_In _]. exists p. split; [done|]. by apply bytes_eqb_eq.
  - intros h Hh. destruct (linked_found t h L Hh) as [p [Hp Ep]%find_In]. exists p. split; [done|]. by apply bytes_eqb_eq.
Qed.

(** ** The invariants of a small repository *)

Lemma host_storage_bounded_witness : storage_bounded (db (run_calls demo_env [SaveCapture (bs "phone") (bs "d1") (bs "data")] demo_hosted)).
Proof.
  apply host_storage_bounded. split; [|split; [vm_compute; apply NoDup_nil_2|]]; intros host; [split|]; vm_compute; lia || done.
Defined.

Lemma hosts_keep_profiles_witness :
  let t := db (run_calls demo_env [DeleteProfile (Some (bs "default"))] demo_hosted) in
  (exists p, p ∈ profiles t /\ pr_id p = bs "default") /\
  forall h, h ∈ hosts t -> exists p, p ∈ profiles t /\ pr_id p = default (bs "default") (hr_profile h).
Proof.
  apply hosts_keep_profiles. split; [vm_compute; reflexivity|]. intros h Hh. vm_compute in Hh. apply list_elem_of_singleton in Hh as ->. vm_compute. reflexivity.
Defined.
