(* ===== verification/StoreRenderProofs.v ===== *)
(** * From the tables to a configuration

    The request that is collected for a host is one the renderer's guarantees are
    about. *)

From S2P Require Import Prelude Util Json JsonText JsonSafe Types Script Renderer RendererProofs RenderProofs RenderMain Sqlite SqliteProofs Auth Tailscale StoreTables StoreAccounts StoreHosts StoreNodes StoreBackup StoreCalls.

Lemma parse_object_wf text what v : parse_object text what = Ok v -> sbj_wf v = true /\ sbj_is_object (Some v) = true.
Proof.
  unfold parse_object. destruct (sbj_parse (cstr text)) as [w|] eqn:P; [|done]. apply sbj_parse_wf in P.
  destruct w; try done. intros [= <-]. split; [|done]. apply P.
Qed.

(** ** Nodes *)

Lemma read_node_wf r n : read_node r = Ok n -> node_wf n.
Proof.
  unfold read_node. destruct (_ || _) eqn:B; [done|]. apply orb_false_iff in B as [B1%Z.ltb_ge B2%Z.ltb_ge].
  intros (c & [W O]%parse_object_wf & [= <-])%bind_Ok. split; [cbn; lia|]. done.
Qed.

Lemma mapM_read_nodes (l : list node_row) (ns : list sb_proxy_node) :
  mapM read_node l = Ok ns -> length ns = length l /\ Forall node_wf ns.
Proof.
  revert ns. induction l as [|r l IH]; intros ns; cbn [mapM].
  - by intros [= <-].
  - intros (n & Hn & (ns' & Hl & E)%bind_Ok)%bind_Ok. injection E as <-. destruct (IH ns' Hl) as [Len F].
    split; [by apply (f_equal S)|]. constructor; [by apply (read_node_wf r)|done].
Qed.

Lemma filter_length_le {R} (p : R -> bool) l : (length (List.filter p l) <= length l)%nat.
Proof. induction l as [|x l IH]; cbn [List.filter length]; [lia|]. destruct (p x); cbn [length]; lia. Qed.

Lemma ordered_length {R} (le : R -> R -> bool) p l : (length (order_by le (List.filter p l)) <= length l)%nat.
Proof. rewrite (Permutation_length (order_by_Permutation le _)). apply filter_length_le. Qed.

(** Which nodes a host gets: the enabled ones among those assigned to it, or all
    enabled ones if there is none of them. *)
Definition chosen_nodes (t : store_tables) (mode : sb_profile_mode) (host : bytes) : list node_row :=
  match mode with
  | SB_PROFILE_FULL => []
  | SB_PROFILE_MANAGED => match assigned_nodes host t with [] => enabled_nodes t | l => l end
  end.

Lemma chosen_length t mode host : (length (chosen_nodes t mode host) <= length (nodes t))%nat.
Proof.
  destruct mode; cbn [chosen_nodes length]; [|lia]. pose proof (ordered_length node_le (fun r => nr_enabled r && existsb (outbound_is host (nr_id r)) (outbounds t)) (nodes t)) as L.
  unfold assigned_nodes. destruct (order_by _ _); [apply ordered_length|done].
Qed.

Lemma host_nodes_spec env mode host s :
  wp (host_nodes env mode host) (fun ns s' => db s' = db s /\ mapM read_node (chosen_nodes (db s) mode host) = Ok ns) (fun _ s' => db s' = db s) s.
Proof.
  unfold host_nodes, read_nodes. destruct mode; [|by apply wp_ret]. repeat wp_step; cbn [db mem asked]; try done.
  cbn [chosen_nodes]. destruct (mapM read_node (assigned_nodes host (db s))) as [l|e] eqn:E; [|done].
  pose proof (mapM_read_nodes _ _ E) as [Len _]. destruct (assigned_nodes host (db s)) as [|r rows] eqn:A, l as [|n l]; try done.
  repeat wp_step; cbn [db mem asked]; try done. by destruct (mapM read_node (enabled_nodes (db s))).
Qed.

(** ** The network of a host *)

Lemma wf_opt_get v k x : sbj_wf (default SBJ_NULL v) = true -> sbj_get v k = Some x -> sbj_wf x = true.
Proof. intros W E. destruct v as [v|]; [by apply (wf_get v k)|done]. Qed.

Lemma tailscale_endpoint_wf settings tag host : sbj_wf (default SBJ_NULL settings) = true -> sbj_wf (tailscale_endpoint settings tag host) = true.
Proof.
  intros W. unfold tailscale_endpoint. cbv zeta. set (o := sbj_set_str _ "hostname" _).
  assert (Wo : sbj_wf o = true) by (unfold o; by repeat apply wf_set_str). clearbody o.
  generalize ["auth_key"; "control_url"; "accept_routes"; "advertise_routes"; "advertise_exit_node"]%string. intros keys.
  revert o Wo. induction keys as [|k keys IH]; intros o Wo; [done|]. cbn [foldl]. apply IH. unfold copy_setting.
  destruct (sbj_get settings k) as [v|] eqn:G; [|done]. pose proof (wf_opt_get _ _ _ W G) as Wv.
  assert (sbj_wf (sbj_set o k (sbj_clone v)) = true) by (apply wf_set; [done|by apply wf_clone]). by destruct v as [| | | | |[]| |].
Qed.

Lemma outgoing_rule_wf settings tag : sbj_wf (default SBJ_NULL settings) = true -> sbj_wf (outgoing_rule settings tag) = true.
Proof.
  intros W. unfold outgoing_rule. apply wf_set_str, wf_set; [done|]. apply wf_array. cbn [app]. repeat (constructor; [done|]).
  destruct (sbj_get settings "route_cidrs") as [v|] eqn:G; [|done]. apply (wf_opt_get _ _ _ W) in G.
  apply Forall_fmap, Forall_forall. intros x Hx. apply wf_clone. by apply (wf_items v).
Qed.

Lemma tailscale_request_wf p4 p6 url r settings host r' :
  request_wf r -> sbj_wf (default SBJ_NULL settings) = true -> sb_tailscale_render p4 p6 url r settings host = Ok r' ->
  request_wf r' /\ rq_mode r' = rq_mode r /\ rq_nodes r' = rq_nodes r.
Proof.
  intros (Wp & Wn & Ln & Wh & Wr & Wo) Ws. unfold sb_tailscale_render. destruct (sb_tailscale_validate _ _ _ _) as [[]|]; [|done].
  cbn [mbind result_bind]. destruct (negb _); [by intros [= <-]|].
  destruct (free_tag_fresh r "sb-easy-tailscale") as (n & -> & _), (free_tag_fresh r "sb-easy-tailscale-direct") as (n' & -> & _).
  set (tag := candidate _ n). set (direct := candidate _ n'). clearbody tag direct.
  destruct (sbj_get_or_array (rq_profile r) "endpoints") as [es p] eqn:Eg. intros E.
  assert (W2 : sbj_wf es = true /\ sbj_wf p = true).
  { unfold sbj_get_or_array, sbj_get_or in Eg. destruct (sbj_get (Some (rq_profile r)) "endpoints") as [e|] eqn:G.
    - apply wf_get in G; [|done]. destruct e; injection Eg as <- <-; (split; [done|try done; by apply wf_set]).
    - injection Eg as <- <-. split; [done|by apply wf_set]. }
  destruct W2 as [We Wq].
  assert (Wt : forall rules, sbj_wf rules = true -> request_wf (mk_request (rq_mode r)
     (sbj_set p "endpoints" (sbj_arr_push es (Some (tailscale_endpoint settings tag host)))) (rq_nodes r) (rq_host_context r)
     (sbj_arr_push (rq_external_route_tags r) (Some (sbj_str (Some tag)))) rules
     (sbj_arr_push (rq_network_outbounds r) (Some (direct_outbound direct))) (rq_control_plane_server r) (rq_rule_script r)
     (rq_clash_controller r) (rq_clash_secret r))).
  { intros rules Wx. split_and!; cbn [rq_profile rq_nodes rq_host_context rq_priority_route_rules rq_network_outbounds]; try done.
    - apply wf_set, wf_push; [done|done|]. by apply tailscale_endpoint_wf.
    - apply wf_push; [done|]. cbn [or_null]. by repeat apply wf_set_str. }
  assert (W1 : sbj_wf (sbj_arr_push (sbj_arr_push (rq_priority_route_rules r) (Some (incoming_rule tag direct))) (Some (outgoing_rule settings tag))) = true).
  { apply wf_push; [|by apply outgoing_rule_wf]. apply wf_push; [done|]. by apply wf_set_str, wf_set. }
  assert (Wf : sbj_wf (if sbj_get_bool settings "accept_routes" false
     then sbj_arr_push (sbj_arr_push (sbj_arr_push (rq_priority_route_rules r) (Some (incoming_rule tag direct))) (Some (outgoing_rule settings tag))) (Some (preferred_rule tag))
     else sbj_arr_push (sbj_arr_push (rq_priority_route_rules r) (Some (incoming_rule tag direct))) (Some (outgoing_rule settings tag))) = true).
  { destruct (sbj_get_bool _ _ _); [|done]. apply wf_push; [done|]. by repeat apply wf_set_str. }
  specialize (Wt _ Wf). revert E Wt. destruct (sbj_get (Some (rq_profile r)) "endpoints") as [[]|]; try done; by intros [= <-] Wt.
Qed.

(** ** The request of a host *)

(** The network of the host, if it is switched on: one endpoint after those of the
    profile, a direct outbound and the rules that refer to just these two. *)
Definition with_network (settings document : sbj) (rq : sb_render_request) (tags : list sbj) : Prop :=
  exists tag direct endpoint, tags = [SBJ_STRING tag] /\ tag <> direct /\ item_tag endpoint = Some tag /\
    sbj_get (Some (rq_profile rq)) "endpoints" = Some (SBJ_ARRAY (arr_items (sbj_get (Some document) "endpoints") ++ [endpoint])) /\
    (forall key, key <> bs "endpoints" -> sbj_getn (Some (rq_profile rq)) key = sbj_getn (Some document) key) /\
    rq_network_outbounds rq = SBJ_ARRAY [direct_outbound direct] /\
    rq_priority_route_rules rq = SBJ_ARRAY (incoming_rule tag direct :: outgoing_rule (Some settings) tag ::
      if sbj_get_bool (Some settings) "accept_routes" false then [preferred_rule tag] else []).

Definition without_network (document : sbj) (rq : sb_render_request) (tags : list sbj) : Prop :=
  tags = [] /\ rq_profile rq = document /\ rq_network_outbounds rq = SBJ_ARRAY [] /\ rq_priority_route_rules rq = SBJ_ARRAY [].

(** What the request is made of: the row of the host, the row of its profile with the
    document and the script in it, the nodes, and the network. *)
Definition request_of (t : store_tables) (host : bytes) (rq : sb_render_request) : Prop :=
  exists h p document capabilities network tags,
    find_host_row t host = Some h /\ List.find (profile_is (cstr (default (bs "default") (hr_profile h)))) (profiles t) = Some p /\
    sbj_parse (cstr (pr_template p)) = Some document /\ sbj_parse (cstr (hr_capabilities h)) = Some capabilities /\
    sbj_parse (cstr (hr_tailscale h)) = Some network /\
    rq_mode rq = parse_profile_mode (pr_mode p) /\ mapM read_node (chosen_nodes t (rq_mode rq) host) = Ok (rq_nodes rq) /\
    rq_rule_script rq = (if pr_script_on p && negb (is_empty (pr_script p)) then Some (pr_script p) else None) /\
    rq_host_context rq =
      SBJ_OBJECT [(bs "capabilities", capabilities); (bs "id", SBJ_STRING (cstr (hr_id h))); (bs "name", SBJ_STRING (hr_name h))] /\
    rq_clash_controller rq = controller_address (hr_clash_api h) /\ rq_clash_secret rq = hr_clash_secret h /\ rq_control_plane_server rq = [] /\
    (if sb_tailscale_enabled (Some network) then with_network network document rq tags else without_network document rq tags) /\
    rq_external_route_tags rq = foldl push_endpoint_tag (SBJ_ARRAY tags) (arr_items (sbj_get (Some (rq_profile rq)) "endpoints")).

Lemma parse_object_parse text what v : parse_object text what = Ok v -> sbj_parse (cstr text) = Some v.
Proof. unfold parse_object. destruct (sbj_parse (cstr text)) as [[]|]; try done. by intros [= <-]. Qed.

Lemma with_endpoint_tags_wf r : request_wf r -> request_wf (with_endpoint_tags r).
Proof. done. Qed.

(** What [sb_tailscale_render] makes of the request, and the endpoint tags added to it. *)
Lemma collected_request p4 p6 url h p document capabilities network nodes mode script controller secret host rq t id :
  find_host_row t id = Some h -> List.find (profile_is (cstr (default (bs "default") (hr_profile h)))) (profiles t) = Some p ->
  parse_object (pr_template p) "profile template" = Ok document -> parse_object (hr_capabilities h) "host capabilities" = Ok capabilities ->
  parse_object (hr_tailscale h) "host tailscale" = Ok network ->
  mode = parse_profile_mode (pr_mode p) -> mapM read_node (chosen_nodes t mode id) = Ok nodes ->
  script = (if pr_script_on p && negb (is_empty (pr_script p)) then Some (pr_script p) else None) ->
  controller = controller_address (hr_clash_api h) -> secret = hr_clash_secret h ->
  sb_tailscale_render p4 p6 url
    (mk_request mode document nodes (host_context h capabilities) (SBJ_ARRAY []) (SBJ_ARRAY []) (SBJ_ARRAY []) [] script controller secret)
    (Some network) host = Ok rq ->
  request_of t id (with_endpoint_tags rq).
Proof.
  intros Fh Fp Pd Pc Pn -> En -> -> -> Er. destruct (parse_object_wf _ _ _ Pd) as [Wd Od]. destruct (parse_object_wf _ _ _ Pn) as [Wn _].
  match type of Er with sb_tailscale_render _ _ _ ?r _ _ = _ =>
    pose proof (tailscale_render_adds p4 p6 url r (Some network) host rq [] [] [] Wd Od Wn eq_refl eq_refl eq_refl Er) as A end.
  cbn [rq_profile rq_mode rq_nodes rq_host_context rq_control_plane_server rq_rule_script rq_clash_controller rq_clash_secret app] in A.
  assert (T : exists tags, rq_external_route_tags rq = SBJ_ARRAY tags /\
    (if sb_tailscale_enabled (Some network) then with_network network document rq tags else without_network document rq tags) /\
    rq_mode rq = parse_profile_mode (pr_mode p) /\ rq_nodes rq = nodes /\ rq_host_context rq = host_context h capabilities /\ rq_control_plane_server rq = [] /\
    rq_rule_script rq = (if pr_script_on p && negb (is_empty (pr_script p)) then Some (pr_script p) else None) /\
    rq_clash_controller rq = controller_address (hr_clash_api h) /\ rq_clash_secret rq = hr_clash_secret h).
  { destruct (sb_tailscale_enabled (Some network)).
    - destruct A as (tag & direct & endpoint & _ & _ & Nd & It & Ge & Go & No & Ex & Pr & Rest). exists [SBJ_STRING tag].
      split; [exact Ex|]. split; [by exists tag, direct, endpoint|exact Rest].
    - subst rq. exists []. by repeat split. }
  destruct T as (tags & Ex & N & Em & Es & Ec & Ep & Er' & Ek & Ese). exists h, p, document, capabilities, network, tags.
  cbn [with_endpoint_tags rq_profile rq_mode rq_nodes rq_host_context rq_control_plane_server rq_rule_script rq_clash_controller rq_clash_secret rq_external_route_tags].
  rewrite Em, Es, Ex. split_and!; try done; by eapply parse_object_parse.
Qed.

Lemma render_request_spec env host s :
  Z.of_nat (length (nodes (db s))) < 2 ^ 32 ->
  wp (sb_store_render_request_for_host env host)
     (fun rq s' => db s' = db s /\ request_wf rq /\ request_of (db s) (cstr (default [] host)) rq) (fun _ s' => db s' = db s) s.
Proof.
  intros Len. unfold sb_store_render_request_for_host, find_profile_locked, refuse. cbv zeta. repeat wp_step; cbn [db mem asked]; try done.
  destruct (find_host_row _ _) as [h|] eqn:Fh; [|by apply wp_pure]. repeat wp_step; cbn [db mem asked]; try done.
  destruct (List.find _ (profiles _)) as [p|] eqn:Fp; [|by repeat wp_step]. apply wp_bind, wp_pure.
  destruct (read_profile p) as [c|] eqn:Rp; [|done]. apply wp_ret, wp_bind. apply bind_Ok in Rp as (v & Pv & [= <-]).
  pose proof (parse_object_wf _ _ _ Pv) as [Wv Ov].
  eapply wp_mono; [apply host_nodes_spec|..]; [|done]. cbn [db cf_mode cf_profile cf_script cf_script_on]. intros ns s' [Hs En].
  pose proof (mapM_read_nodes _ _ En) as [Ln Wn]. pose proof (chosen_length (db s) (parse_profile_mode (pr_mode p)) (cstr (default [] host))).
  apply wp_bind, wp_pure. destruct (parse_object (hr_capabilities h) _) as [caps|] eqn:Pc; [|done]. pose proof (parse_object_wf _ _ _ Pc) as [Wc _].
  apply wp_bind, wp_pure. destruct (parse_object (hr_tailscale h) _) as [ts|] eqn:Pt; [|done]. pose proof (parse_object_wf _ _ _ Pt) as [Wt _].
  apply wp_bind, wp_pure. destruct (sb_tailscale_render _ _ _ _ _ _) as [rq|] eqn:Er; [|done].
  apply wp_ret. split; [done|]. split; [|by eapply collected_request].
  apply with_endpoint_tags_wf. apply tailscale_request_wf in Er as (Wr & _); [done|split_and!; try done|done].
  - cbn [rq_nodes]. lia.
  - cbn [rq_host_context]. unfold host_context. by repeat apply wf_set.
Qed.

(** C30: what is stored can be rendered.  The request collected for a host has the
    mode, the document and, if it is switched on, the script of the host's profile;
    unless the profile is a full one, the enabled nodes that are assigned to the host,
    or all enabled nodes if none is; the identifier, name and capabilities and the
    Clash settings of the host; and, if its network is switched on, one more endpoint
    after those of the document, with its direct outbound and rules, and nothing else
    in the document changed.  No table changes.  It is well-formed whatever the rows
    hold, so that the configuration rendered from it has the renderer's guarantees and
    a failure to render is of a documented kind.  The repository has fewer than 2^32
    nodes. *)
Theorem stored_host_renders env js limits pton4 pton6 host s :
  Z.of_nat (length (nodes (db s))) < 2 ^ 32 ->
  match sb_store_render_request_for_host env host s with
  | (Ok rq, s') =>
      db s' = db s /\ request_of (db s) (cstr (default [] host)) rq /\
      match sb_config_renderer_render js limits pton4 pton6 rq with
      | Ok c => rendered pton4 pton6 rq c
      | Err e => err_code e ∈ [SB_ERR_VALIDATION; SB_ERR_SCRIPT; SB_ERR_GENERIC]
      end
  | (Err _, s') => db s' = db s
  end.
Proof.
  intros Len. pose proof (render_request_spec env host s Len) as W. unfold wp in W.
  destruct (sb_store_render_request_for_host env host s) as [[rq|e] s']; [|done]. destruct W as (Hs & Wf & R). split; [done|]. split; [done|].
  destruct (sb_config_renderer_render _ _ _ _ rq) as [c|e] eqn:E; [by eapply render_ok|]. by eapply render_failure.
Qed.

Lemma stored_host_renders_witness :
  exists rq s' c, sb_store_render_request_for_host demo_env (Some (bs "phone")) demo_hosted = (Ok rq, s') /\ length (rq_nodes rq) = 1%nat /\
    sb_config_renderer_render (constant_js (bs "[]")) sb_script_limits_default (fun _ => false) (fun _ => false) rq = Ok c /\
    rendered (fun _ => false) (fun _ => false) rq c.
Proof.
  pose proof (stored_host_renders demo_env (constant_js (bs "[]")) sb_script_limits_default (fun _ => false) (fun _ => false)
    (Some (bs "phone")) demo_hosted ltac:(vm_compute; reflexivity)) as H.
  destruct (sb_store_render_request_for_host demo_env (Some (bs "phone")) demo_hosted) as [[rq|e] s'] eqn:E; [|vm_compute in E; discriminate E].
  pose proof E as Erq. vm_compute in Erq. injection Erq as Erq _. destruct H as (_ & _ & H).
  destruct (sb_config_renderer_render _ _ _ _ rq) as [c|e] eqn:R; [|rewrite <- Erq in R; vm_compute in R; discriminate R].
  exists rq, s', c. split; [reflexivity|]. split; [rewrite <- Erq; reflexivity|]. split; [exact R|exact H].
Defined.
