(* ===== verification/StorePeersProofs.v ===== *)
(** * Addresses of WireGuard peers *)

From S2P Require Import Prelude Util Json JsonText Types Sqlite SqliteProofs Auth Tailscale StoreTables StoreAccounts StoreHosts StoreNodes StoreBackup StoreCalls WgText.

Definition lacks (c : Z) (s : bytes) : Prop := Forall (fun x => code x <> c) s.

Lemma before_char_lacks c s : lacks c (before_char c s).
Proof. induction s as [|x s IH]; cbn [before_char]; [constructor|]. destruct (code x =? c) eqn:E; constructor; [|done]. by apply Z.eqb_neq. Qed.

Lemma before_char_app c a b : lacks c a -> before_char c (a ++ b) = a ++ before_char c b.
Proof. induction 1 as [|x a Hx _ IH]; cbn [app before_char]; [done|]. by rewrite (proj2 (Z.eqb_neq _ _) Hx), IH. Qed.

Lemma split_last_none c s : lacks c s -> split_last c s = None.
Proof. induction 1 as [|x s Hx _ IH]; cbn [split_last]; [done|]. by rewrite IH, (proj2 (Z.eqb_neq _ _) Hx). Qed.

Lemma split_last_app c a x b : code x = c -> lacks c b -> split_last c (a ++ x :: b) = Some (a, b).
Proof.
  intros Hx Hb. induction a as [|y a IH]; cbn [app split_last]; [|by rewrite IH]. rewrite split_last_none by done. by rewrite Hx, Z.eqb_refl.
Qed.

Lemma split_last_spec c s a b : split_last c s = Some (a, b) -> exists x, code x = c /\ s = a ++ x :: b.
Proof.
  revert a. induction s as [|y s IH]; intros a; cbn [split_last]; [done|]. destruct (split_last c s) as [[a' b']|].
  - intros [= <- <-]. destruct (IH a' eq_refl) as (x & Hx & ->). by exists x.
  - destruct (code y =? c) eqn:E; [|done]. intros [= <- <-]. exists y. by apply Z.eqb_eq in E.
Qed.

Lemma address_base_lacks server : lacks 47 (address_base server) /\ lacks 0 (address_base server).
Proof.
  unfold address_base. set (s := cstr (default [] server)).
  assert (N : lacks 0 (before_char 47 s)).
  { assert (lacks 0 s) as H by (unfold s; generalize (default [] server); intros l; induction l as [|x l IH]; cbn [cstr]; [constructor|];
      destruct (code x =? 0) eqn:E; constructor; [by apply Z.eqb_neq|done]).
    induction H as [|x l Hx Hl IH]; cbn [before_char]; [constructor|]. destruct (code x =? 47); constructor; done. }
  destruct (split_last 46 (before_char 47 s)) as [[base rest]|] eqn:E; [|split; repeat constructor; done].
  apply split_last_spec in E as (x & _ & E). pose proof (before_char_lacks 47 s) as L. rewrite E in L, N.
  apply Forall_app in L as [L _]. apply Forall_app in N as [N _]. done.
Qed.

(** What the search relies on, for each of the 253 numbers. *)
Definition octet_ok (k : Z) : bool :=
  forallb (fun x => negb (code x =? 46) && negb (code x =? 47) && negb (code x =? 0)) (fmt_uint k) &&
  match strtoul (fmt_uint k) with Some v => v =? k | None => false end && (2 <=? k) && (k <? 255).

Lemma candidate_octets_ok k : k ∈ candidate_octets -> octet_ok k = true.
Proof.
  assert (H : forallb octet_ok candidate_octets = true) by (vm_compute; reflexivity).
  rewrite forallb_forall in H. intros Hk. apply H. by apply list_elem_of_In.
Qed.

Lemma octet_text k : octet_ok k = true ->
  lacks 46 (fmt_uint k) /\ lacks 47 (fmt_uint k) /\ lacks 0 (fmt_uint k) /\ strtoul (fmt_uint k) = Some k /\ 2 <= k < 255.
Proof.
  unfold octet_ok. rewrite !andb_true_iff, forallb_forall. intros [[[F S] L] U]. assert (G : forall c x, In x (fmt_uint k) -> c ∈ [46; 47; 0] -> code x <> c).
  { intros c x Hx Hc. specialize (F x Hx). rewrite !andb_true_iff, !negb_true_iff, !Z.eqb_neq in F. destruct F as [[F1 F2] F3].
    repeat (apply elem_of_cons in Hc as [->|Hc]; [done|]). by apply elem_of_nil in Hc. }
  split_and!; try (apply Forall_forall; intros x Hx; apply G; [by apply list_elem_of_In|]; rewrite !elem_of_cons; tauto).
  - destruct (strtoul _) as [v|]; [|done]. by apply Z.eqb_eq in S as ->.
  - lia.
  - lia.
Qed.

Definition client_address (base : bytes) (k : Z) : bytes := base ++ bs "." ++ fmt_uint k ++ bs "/24".

Lemma client_ip base k : lacks 47 base -> octet_ok k = true -> before_char 47 (client_address base k) = base ++ bs "." ++ fmt_uint k.
Proof.
  intros Lb (_ & Lk & _)%octet_text. unfold client_address. rewrite before_char_app by done. rewrite before_char_app by (repeat constructor; done).
  rewrite before_char_app by done. by rewrite app_nil_r.
Qed.

(** A peer with that address is seen by the search. *)
Lemma octet_seen base k address :
  octet_ok k = true -> before_char 47 (cstr address) = base ++ bs "." ++ fmt_uint k -> taken_octet base address = Some k.
Proof.
  intros (L & _ & _ & S & B)%octet_text E. unfold taken_octet. rewrite E. change (bs "." ++ fmt_uint k) with ("."%char :: fmt_uint k).
  rewrite (split_last_app 46 base "."%char (fmt_uint k)) by done. rewrite bytes_eqb_refl, S. by rewrite (proj2 (Z.ltb_lt k 255)) by lia.
Qed.

Lemma cstr_lacks s : lacks 0 s -> cstr s = s.
Proof. induction 1 as [|x s Hx _ IH]; cbn [cstr]; [done|]. by rewrite (proj2 (Z.eqb_neq _ _) Hx), IH. Qed.


Lemma address_not_taken env peer s :
  (forall p, p ∈ peers (db s) -> wp_address p <> cstr (wp_address peer)) ->
  wp (sb_store_create_wireguard_peer env peer) (fun _ _ => True) (fun e _ => err_code e <> SB_ERR_CONFLICT) s.
Proof.
  intros H. unfold sb_store_create_wireguard_peer, refuse, new_uuid, sql_now. case_if; [by apply wp_pure|]. case_if; [by apply wp_pure|].
  match goal with |- wp (_ ≫= ?f) ?Q ?E s => assert (K : forall id k, wp (f id) Q E (mk_conn (db s) (mem s) k)) end.
  { intros id k. apply wp_bind, wp_stmt; [by intros ? ->|]. cbv beta iota. cbn [db mem asked].
    rewrite (proj2 (existsb_none _ _)) by (intros p Hp; by apply bytes_eqb_neq, H). repeat wp_step; try by intros ? ->.
    unfold insert_peer, sql_insert. destruct (existsb _ _); [done|]. cbn [mbind result_bind]. unfold reload_peer, find_peer_locked, refuse.
    repeat wp_step; try by intros ? ->. by case_match; repeat wp_step. }
  destruct (sb_str_empty (wp_id peer)); apply wp_bind; [apply wp_ask, K|]. apply wp_ret. destruct s. apply K.
Qed.

(** The search gives the first number that is free. *)
Lemma find_seq_least (p : Z -> bool) a n k j :
  List.find (fun x => negb (p x)) (map Z.of_nat (seq a n)) = Some k -> Z.of_nat a <= j < k -> p j = true.
Proof.
  revert a. induction n as [|n IH]; intros a; cbn [seq map List.find]; [done|]. destruct (p (Z.of_nat a)) eqn:E; cbn [negb].
  - intros F Hj. destruct (Z.eq_dec j (Z.of_nat a)) as [->|]; [done|]. apply (IH (S a)); [done|lia].
  - intros [= <-]. lia.
Qed.

Lemma candidate_octets_all k : 2 <= k <= 254 -> k ∈ candidate_octets.
Proof. intros Hk. unfold candidate_octets. apply list_elem_of_fmap. exists (Z.to_nat k). split; [lia|]. apply elem_of_seq. lia. Qed.

Lemma client_address_cstr server k : octet_ok k = true -> cstr (client_address (address_base server) k) = client_address (address_base server) k.
Proof.
  intros (_ & _ & L0 & _)%octet_text. destruct (address_base_lacks server) as [_ Ln]. apply cstr_lacks. unfold client_address.
  repeat (apply Forall_app; split; [try done; repeat constructor; done|]). repeat constructor; done.
Qed.

(** What the search answers. *)
Lemma next_address_spec env server s :
  let base := address_base server in
  let taken k := octet_taken base (map wp_address (peers (db s))) k in
  wp (sb_store_next_wireguard_address env server)
    (fun a s' => db s' = db s /\ exists k, octet_ok k = true /\ a = client_address base k /\ (forall j, 2 <= j < k -> taken j = true) /\
                 forall p, p ∈ peers (db s) -> peer_ip (wp_address p) <> peer_ip a)
    (fun e s' => db s' = db s /\ (err_code e = SB_ERR_CONFLICT -> forall k, 2 <= k <= 254 -> taken k = true)) s.
Proof.
  intros base taken. destruct (address_base_lacks server) as [Ls Ln]. fold base in Ls, Ln.
  unfold sb_store_next_wireguard_address, refuse. apply wp_bind, wp_stmt; [by intros e ->|]. cbv beta iota zeta. fold base.
  destruct (List.find _ candidate_octets) as [k|] eqn:F.
  - apply wp_ret. split; [done|]. pose proof F as [Hk T]%find_In. apply candidate_octets_ok in Hk. apply negb_true_iff in T.
    exists k. split; [done|]. split; [done|]. split; [intros j Hj; unfold candidate_octets in F; by apply find_seq_least with (j := j) in F|].
    change (base ++ _) with (client_address base k). intros p Hp E. unfold peer_ip in E. unfold base in E. rewrite (client_address_cstr server k Hk) in E.
    rewrite client_ip in E by done. apply octet_seen in E; [|done].
    assert (X : taken k = true); [|unfold taken in X; congruence]. apply existsb_In. exists (wp_address p). split; [by apply list_elem_of_fmap_2|]. unfold base. by rewrite E, Z.eqb_refl.
  - apply wp_pure. split; [done|]. intros _ k Hk. pose proof (find_none_In _ _ _ F (candidate_octets_all k Hk)) as N. by apply negb_false_iff in N.
Qed.

(** A new client gets a free address.  The address proposed is in the server's
    subnet, with the least number from 2 to 254 that no peer has; no peer has its IP
    address under any prefix length, so creating a peer with it is never refused as a
    conflict, and there is no address only when all 253 are taken. *)
Theorem next_address_free env server s :
  let base := address_base server in
  let taken k := octet_taken base (map wp_address (peers (db s))) k in
  match sb_store_next_wireguard_address env server s with
  | (Ok a, s') =>
      db s' = db s /\
      (exists k, 2 <= k <= 254 /\ a = client_address base k /\ forall j, 2 <= j < k -> taken j = true) /\
      (forall p, p ∈ peers (db s) -> peer_ip (wp_address p) <> peer_ip a) /\
      (forall peer e s'', wp_address peer = a -> sb_store_create_wireguard_peer env peer s' = (Err e, s'') -> err_code e <> SB_ERR_CONFLICT)
  | (Err e, s') => db s' = db s /\ (err_code e = SB_ERR_CONFLICT -> forall k, 2 <= k <= 254 -> taken k = true)
  end.
Proof.
  intros base taken. pose proof (next_address_spec env server s) as W. cbv zeta in W. fold base in W. unfold wp in W.
  destruct (sb_store_next_wireguard_address env server s) as [[a|e] s']; [|exact W].
  destruct W as (Hs & k & Ok & -> & Least & Free). pose proof (octet_text k Ok) as (_ & _ & _ & _ & B). split; [done|].
  split; [exists k; split; [lia|done]|]. split; [done|]. intros peer e s'' Ep Ec.
  pose proof (address_not_taken env peer s') as W. unfold wp in W. rewrite Ec in W. apply W. intros p Hp Eq. rewrite Hs in Hp.
  apply (Free p Hp). unfold base in *. by rewrite Eq, Ep, client_address_cstr.
Qed.
