(* ===== verification/WgHubProofs.v ===== *)
(** * Programs of the hub: what their parts read and change *)

From S2P Require Import Prelude Util Json JsonText Types Sqlite SqliteProofs Wireguard System StoreTables StoreAccounts StoreHosts StoreCalls WgText WgHub JsonSafe JsonRound StorePeersProofs.

Section Hub.
Context {K : Type} (env : hub_env K).

Abbreviation hub := (sql store_tables (system K)).
Abbreviation state := (conn store_tables (system K)).

Lemma wp_on_store {A} (m : store A) (Q : A -> state -> Prop) E s :
  wp m (fun a s' => Q a (mk_conn (db s') (mem s) (asked s'))) (fun e s' => E e (mk_conn (db s') (mem s) (asked s'))) (mk_conn (db s) tt (asked s)) ->
  wp (on_store m) Q E s.
Proof. unfold wp, on_store. by destruct (m _) as [[a|e] s']. Qed.

(** What a program may leave behind: tables, files and kernel related by [R] to those
    before it, in whatever way it ends. *)
Definition within (R : store_tables * system K -> store_tables * system K -> Prop) {A} (m : hub A) : Prop :=
  forall s, R (db s, mem s) (db (snd (m s)), mem (snd (m s))).

Section Within.
Context (R : store_tables * system K -> store_tables * system K -> Prop) `{!PreOrder R}.

Lemma within_ret {A} (a : A) : within R (mret a).
Proof. intros s. reflexivity. Qed.
Lemma within_pure {A} (r : result A) : within R (pure r).
Proof. intros s. reflexivity. Qed.
Lemma within_ask {A} (f : nat -> A) : within R (ask f).
Proof. intros s. reflexivity. Qed.
Lemma within_bind {A B} (m : hub A) (f : A -> hub B) : within R m -> (forall a, within R (f a)) -> within R (m ≫= f).
Proof.
  intros Hm Hf s. unfold mbind, sql_bind. specialize (Hm s). destruct (m s) as [[a|e] s']; [|done]. etrans; [exact Hm|apply Hf].
Qed.
Lemma within_attempt {A} (m : hub A) : within R m -> within R (attempt m).
Proof. intros H s. unfold attempt. specialize (H s). by destruct (m s). Qed.
Lemma within_store {A} (m : store A) :
  (forall s mm, R (db s, mm) (db (snd (m s)), mm)) -> within R (on_store m).
Proof. intros H s. unfold on_store. specialize (H (mk_conn (db s) tt (asked s)) (mem s)). by destruct (m _). Qed.
Lemma within_read {A} (m : store A) : frame m -> within R (on_store m).
Proof. intros F. apply within_store. intros s mm. by rewrite F. Qed.
Lemma within_mono {A} (R' : store_tables * system K -> store_tables * system K -> Prop) (m : hub A) :
  (forall x y, R x y -> R' x y) -> within R m -> within R' m.
Proof. intros H W s. apply H, W. Qed.
End Within.

Lemma wp_within {A} R (m : hub A) s :
  within R m -> wp m (fun _ s' => R (db s, mem s) (db s', mem s')) (fun _ s' => R (db s, mem s) (db s', mem s')) s.
Proof. intros H. specialize (H s). unfold wp. by destruct (m s) as [[a|e] s']. Qed.

End Hub.

Create HintDb within discriminated.

(** Goes through a program. *)
Ltac withins :=
  repeat first
    [ assumption | solve [auto with within nocore]
    | apply within_ret; exact _ | apply within_pure; exact _ | apply within_ask; exact _
    | apply within_bind; [exact _| |intros ?] | apply within_attempt; try exact _
    | apply within_read; [exact _|by auto with frame nocore]
    | match goal with
      | |- within _ (match ?x with _ => _ end) => destruct x
      | |- within _ (let '(_, _) := ?x in _) => destruct x
      end ].

Section Parts.
Context {K : Type} (env : hub_env K).

Abbreviation hub := (sql store_tables (system K)).
Abbreviation state := (conn store_tables (system K)).

(** Nothing changes. *)
Definition same (x y : store_tables * system K) : Prop := y = x.
#[export] Instance same_preorder : PreOrder same.
Proof. split; [done|]. unfold same. by intros x y z -> ->. Qed.

(** Only the settings and the kernel change. *)
Definition settings_only (x y : store_tables * system K) : Prop :=
  fst y = with_settings (fst x) (settings (fst y)) /\ exists k, snd y = mk_system (sy_files (snd x)) (sy_disk (snd x)) (sy_past (snd x)) k.
#[export] Instance settings_only_preorder : PreOrder settings_only.
Proof.
  split.
  - intros [t m]. split; [by destruct t|]. exists (sy_kernel m). by destruct m.
  - intros x y z [Hy (k & Ky)] [Hz (k' & Kz)]. split; [by rewrite Hz, Hy|]. exists k'. by rewrite Kz, Ky.
Qed.

Lemma same_settings x y : same x y -> settings_only x y.
Proof. intros ->. reflexivity. Qed.

Lemma app_setting_frame key : frame (sb_store_app_setting (hub_store env) key).
Proof. unfold sb_store_app_setting. frames. Qed.
Lemma list_peers_frame : frame (sb_store_list_wireguard_peers (hub_store env)).
Proof. apply frame_query. Qed.
Hint Resolve app_setting_frame list_peers_frame : frame.

Context (wg : sb_wireguard_options).

Lemma runtime_options_same : within same (sb_wireguard_runtime_options env wg).
Proof. unfold sb_wireguard_runtime_options. withins. Qed.

Hint Resolve runtime_options_same : within.

Lemma expired_same p : within same (sb_wireguard_peer_expired env p).
Proof. unfold sb_wireguard_peer_expired. withins. Qed.

Hint Resolve expired_same : within.

Lemma run_command_settings argv check : within settings_only (run_command env argv check).
Proof.
  unfold run_command, fail. withins. unfold sys_spawn. intros s. unfold on_memory. destruct (execute _ _ _ _) as [answer k].
  cbn [snd db mem]. split; [by destruct (db s)|by exists k].
Qed.

Lemma set_setting_changes key value s :
  let t := db (snd (sb_store_set_app_setting (hub_store env) key value s)) in t = with_settings (db s) (settings t).
Proof.
  apply (store_call_keeps (fun t => t = with_settings (db s) (settings t)) (hub_store env) (SetSetting key value) s); [|by destruct (db s)].
  intros k t t' Hk St Ht. apply list_elem_of_singleton in Hk as ->. rewrite (step_changed _ _ _ St). cbn [changed]. by rewrite Ht.
Qed.

Lemma server_keypair_settings : within settings_only (server_keypair env).
Proof.
  assert (G : within settings_only (generated_keypair env)).
  { unfold generated_keypair, random_key. withins. apply within_store. intros s mm. cbn [fst snd].
    split; [apply set_setting_changes|]. exists (sy_kernel mm). by destruct mm. }
  unfold server_keypair. withins.
Qed.

Lemma runtime_options_settings : within settings_only (sb_wireguard_runtime_options env wg).
Proof. eapply within_mono; [exact same_settings|apply runtime_options_same]. Qed.
Hint Resolve run_command_settings runtime_options_settings server_keypair_settings : within.

Lemma stats_settings : within settings_only (sb_wireguard_stats env wg).
Proof. unfold sb_wireguard_stats. withins. Qed.
Hint Resolve stats_settings : within.

Lemma served_same stats l : within same (served_peers env stats l).
Proof. induction l as [|p l IH]; cbn [served_peers]; withins. Qed.

(** The parts whose answers the theorems speak about. *)

Definition listed (t : store_tables) : list sb_wireguard_peer :=
  map read_wireguard_peer (order_by (fun a b => text_le (wp_address a) (wp_address b)) (peers t)).

Lemma wp_list_peers (Q : list sb_wireguard_peer -> state -> Prop) (E : sb_err -> state -> Prop) s :
  (forall e n, err_code e = SB_ERR_GENERIC -> E e (mk_conn (db s) (mem s) n)) ->
  Q (listed (db s)) (mk_conn (db s) (mem s) (S (asked s))) ->
  wp (on_store (sb_store_list_wireguard_peers (hub_store env))) Q E s.
Proof. intros HE HQ. apply wp_on_store, wp_query; [by intros e He; apply HE|done]. Qed.

(** The options are those of the service or saved ones. *)
Definition options_in_force (t : store_tables) (o : sb_wireguard_options) : Prop :=
  exists saved, (row ← List.find (fun r => bytes_eqb (st_key r) (bs "wireguard_interface")) (settings t); sbj_parse (st_value row)) = saved /\
  if sbj_is_object saved then merge_saved wg saved = Ok o else o = wg.

Lemma options_in_force_unique t o o' : options_in_force t o -> options_in_force t o' -> o = o'.
Proof. intros (x & Ex & H) (y & Ey & H'). rewrite Ex in Ey. subst y. destruct (sbj_is_object x); congruence. Qed.

(** The database failed at an answer of the call. *)
Definition database_failed (lo hi : nat) : Prop := exists n, (lo <= n < hi)%nat /\ fault (hub_store env) n <> None.

Lemma runtime_options_spec s :
  wp (sb_wireguard_runtime_options env wg)
     (fun o s' => db s' = db s /\ mem s' = mem s /\ asked s' = S (asked s) /\ options_in_force (db s) o)
     (fun _ s' => db s' = db s /\ mem s' = mem s /\ asked s' = S (asked s) /\
        (database_failed (asked s) (asked s') \/ forall o, ~ options_in_force (db s) o)) s.
Proof.
  unfold sb_wireguard_runtime_options, options_in_force, wp, mbind, sql_bind, on_store, sb_store_app_setting, mbind, sql_bind, query, stmt.
  cbn [db mem asked]. destruct (fault (hub_store env) (asked s)) eqn:F.
  { split_and!; try done. left. exists (asked s). cbn [asked]. split; [lia|]. by rewrite F. }
  cbn [db mem asked]. change (cstr (default [] (Some (bs "wireguard_interface")))) with (bs "wireguard_interface").
  unfold mret, sql_ret. set (row := List.find _ _). set (saved := match row with Some r => _ | None => _ end).
  assert (E : (row ≫= fun r => sbj_parse (st_value r)) = saved) by (unfold saved; by destruct row). change (match row with Some r => sbj_parse (st_value r) | None => None end) with saved in E |- *.
  cbn [db mem asked]. destruct (sbj_is_object saved) eqn:O.
  - unfold pure. destruct (merge_saved wg saved) as [o|e] eqn:M; cbn [db mem asked]; split_and!; try done; [exists saved; by rewrite O|].
    right. intros o (x & Ex & H). assert (x = saved) as -> by (rewrite <- Ex; unfold saved; by destruct row). rewrite O in H. congruence.
  - cbn [db mem asked]. split_and!; try done. exists saved. by rewrite O.
Qed.

Lemma options_in_force_port t o : 0 <= wo_port wg -> options_in_force t o -> 0 <= wo_port o.
Proof.
  intros H (saved & _ & M). destruct (sbj_is_object saved); [|by rewrite M]. unfold merge_saved in M.
  repeat (apply bind_Ok in M as (? & _ & M)). apply Ok_inj in M as <-. cbn [wo_port]. destruct (0 <? _) eqn:E; cbn [andb]; [|done].
  destruct (_ <=? 65535); [lia|done].
Qed.

(** What [wg show] answers for the interface of the options. *)
Definition shown (s : state) (o : sb_wireguard_options) : spawn_answer :=
  fst (execute (hub_sys env) [bs "wg"; bs "show"; wo_interface o; bs "dump"] (sy_files (mem s)) (sy_kernel (mem s))).

(** Statistics are what [wg] printed. *)
Definition live_stats (s : state) (o : sb_wireguard_options) (stats : list sb_wireguard_peer_stats) : Prop :=
  exists output, shown s o = Finished (Some 0) output /\ stats = parse_stats output.

Lemma stats_spec o s :
  options_in_force (db s) o ->
  wp (sb_wireguard_stats env wg) (fun stats s' => (asked s <= asked s')%nat /\ live_stats s o stats)
     (fun _ s' => (asked s <= asked s')%nat /\ ((forall output, shown s o <> Finished (Some 0) output) \/ database_failed (asked s) (asked s'))) s.
Proof.
  intros Ho. unfold sb_wireguard_stats. apply wp_bind. eapply wp_mono; [apply runtime_options_spec|..]; cbn beta.
  2: { intros e s1 (_ & _ & A & [F|F]); [|by destruct (F o)]. split; [lia|by right]. }
  intros o' s1 (D & M & A & O). pose proof (options_in_force_unique _ _ _ Ho O) as <-.
  apply wp_bind. unfold run_command, fail. apply wp_bind. unfold sys_spawn. apply wp_on_memory. rewrite M. unfold live_stats, shown.
  destruct (execute _ _ _ _) as [answer k] eqn:X. cbn [fst snd]. destruct answer as [e|e|e| |status output];
    try (apply wp_pure; cbn [asked]; split; [lia|left; intros ? ?; discriminate]).
  destruct (default (-1) status =? 0) eqn:C; cbn [negb andb].
  - apply wp_ret, wp_ret. cbn [asked]. split; [lia|]. exists output. apply Z.eqb_eq in C. destruct status as [c|]; [|done]. cbn in C. by subst c.
  - apply wp_pure. cbn [asked]. split; [lia|]. left. intros out [= -> _]. done.
Qed.

(** The peer's date, looked at at one of the readings of the clock from [lo] on. *)
Definition dated (lo hi : nat) (p : sb_wireguard_peer) (expired : bool) : Prop :=
  exists n, (lo <= n < hi)%nat /\ expired_at (hub_clock env n) p = expired.

Lemma dated_mono lo hi hi' p b : (hi <= hi')%nat -> dated lo hi p b -> dated lo hi' p b.
Proof. intros H (n & Hn & E). exists n. split; [lia|done]. Qed.

Lemma expired_spec lo p s :
  (lo < asked s)%nat ->
  wp (sb_wireguard_peer_expired env p)
     (fun b s' => db s' = db s /\ mem s' = mem s /\ (asked s <= asked s')%nat /\ dated lo (asked s') p b) (fun _ _ => False) s.
Proof.
  intros L. unfold sb_wireguard_peer_expired, dated.
  assert (N : (forall n, expired_at (hub_clock env n) p = false) ->
    wp (mret false) (fun b s' => db s' = db s /\ mem s' = mem s /\ (asked s <= asked s')%nat /\
      exists n, (lo <= n < asked s')%nat /\ expired_at (hub_clock env n) p = b) (fun _ _ => False) s).
  { intros N. apply wp_ret. split_and!; try done. exists lo. split; [lia|apply N]. }
  unfold expired_at in *. destruct (wp_expire p) as [text|]; [|by apply N]. destruct (sb_str_empty text); [by apply N|].
  destruct (parse_rfc3339 text); [|by apply N]. apply wp_ask. cbn [db mem asked]. split_and!; try done; [lia|]. exists (asked s). split; [lia|done].
Qed.

(** A peer that may be served, at some reading of the clock. *)
Definition may_serve (lo hi : nat) (stats : list sb_wireguard_peer_stats) (p : sb_wireguard_peer) (expired : bool) : Prop :=
  wp_enabled p = true /\ over_quota stats p = false /\ dated lo hi p expired.

Lemma may_serve_mono lo hi hi' stats p b : (hi <= hi')%nat -> may_serve lo hi stats p b -> may_serve lo hi' stats p b.
Proof. intros H (E & Q & D). split_and!; [done|done|by eapply dated_mono]. Qed.

Lemma served_spec lo stats l s :
  (lo < asked s)%nat ->
  wp (served_peers env stats l)
     (fun served s' => db s' = db s /\ mem s' = mem s /\ (asked s <= asked s')%nat /\ sublist served l /\
        (forall p, p ∈ served -> may_serve lo (asked s') stats p false) /\
        (forall p, p ∈ l -> wp_enabled p = true -> over_quota stats p = false -> p ∈ served \/ may_serve lo (asked s') stats p true))
     (fun _ _ => False) s.
Proof.
  revert s. induction l as [|p l IH]; intros s L; cbn [served_peers].
  - apply wp_ret. split_and!; try done; by intros p ?%elem_of_nil.
  - apply wp_bind. assert (X : wp (if negb (wp_enabled p) then mret true else sb_wireguard_peer_expired env p)
      (fun b s' => db s' = db s /\ mem s' = mem s /\ (asked s <= asked s')%nat /\ (wp_enabled p = true -> dated lo (asked s') p b) /\ (wp_enabled p = false -> b = true))
      (fun _ _ => False) s).
    { destruct (wp_enabled p); cbn [negb]; [|by apply wp_ret]. eapply wp_mono; [by apply expired_spec| |done]. by intros b s' (? & ? & ? & ?). }
    eapply wp_mono; [exact X| |done]. cbn beta. intros skip s1 (D1 & M1 & A1 & On & Off). apply wp_bind. eapply wp_mono; [apply IH; lia| |done].
    cbn beta. intros rest s2 (D2 & M2 & A2 & Sub & In & Out). apply wp_ret. rewrite D2, M2, D1, M1. split_and!; [done|done|lia| | |].
    + destruct (skip || over_quota stats p); by constructor.
    + intros q Hq. destruct (skip || over_quota stats p) eqn:B; [by apply In|]. apply orb_false_iff in B as [-> Bq].
      apply elem_of_cons in Hq as [->|Hq]; [|by apply In]. destruct (wp_enabled p) eqn:Ep; [|by specialize (Off eq_refl)].
      split_and!; [done|done|]. by eapply dated_mono; [|by apply On].
    + intros q Hq Eq Oq. apply elem_of_cons in Hq as [->|Hq].
      * rewrite Oq, orb_false_r. destruct skip; [|by left; left]. right. split_and!; [done|done|]. by eapply dated_mono; [|by apply On].
      * destruct (Out q Hq Eq Oq) as [H|H]; [|by right]. left. destruct (skip || over_quota stats p); [done|by right].
Qed.

(** The parts of the call in between. *)
Lemma on_store_onward {A} (m : store A) : onward m -> onward (on_store m : hub A).
Proof. intros H s. unfold on_store. specialize (H (mk_conn (db s) tt (asked s))). by destruct (m _). Qed.

Lemma server_keypair_onward : onward (server_keypair env).
Proof.
  assert (G : onward (generated_keypair env)).
  { unfold generated_keypair, random_key. onwards. apply on_store_onward. unfold sb_store_set_app_setting, sql_now, exec_changes, refuse. onwards. }
  unfold server_keypair. onwards. apply on_store_onward. unfold sb_store_app_setting, query. onwards.
Qed.
End Parts.

#[export] Hint Resolve runtime_options_same expired_same run_command_settings runtime_options_settings server_keypair_settings stats_settings served_same : within.
#[export] Hint Resolve app_setting_frame list_peers_frame : frame.

(** * The configuration of the hub, read back

    [read_conf] reads a file as wg(8) documents: what follows a number sign is a
    comment, white space is ignored, a line in brackets begins a section, the other
    lines are settings.  The file that the hub writes has one section for each peer
    that may be served, and no other. *)

Definition stripped (l : bytes) : bytes := List.filter (fun c => negb (isspace c)) (before_char 35 l).

Abbreviation settings_of := (list (bytes * bytes)).

(** The settings before the first section, and the sections. *)
Fixpoint read_lines (ls : list bytes) : settings_of * list (bytes * settings_of) :=
  match ls with
  | [] => ([], [])
  | l :: ls' =>
      let (pending, sections) := read_lines ls' in
      match stripped l with
      | [] => (pending, sections)
      | (c :: _) as text =>
          if code c =? 91 then ([], (text, pending) :: sections)
          else (match split_at "=" text with Some kv => kv :: pending | None => pending end, sections)
      end
  end.

Definition read_conf (text : bytes) : list (bytes * settings_of) := snd (read_lines (dump_lines text)).

(** ** Lines *)

Definition one_line (s : bytes) : Prop := lacks 10 s.
(** A value without white space and comments. *)
Definition plain (s : bytes) : Prop := Forall (fun c => isspace c = false /\ code c <> 35) s.

Lemma plain_one_line s : plain s -> one_line s.
Proof. intros P. eapply Forall_impl; [exact P|]. intros c [H _] E. unfold isspace, in_range in H. by rewrite E in H. Qed.

Lemma plain_app a b : plain a -> plain b -> plain (a ++ b).
Proof. intros. by apply Forall_app. Qed.

Lemma dump_line l rest : one_line l -> dump_lines (l ++ newline ++ rest) = l :: dump_lines rest.
Proof.
  induction 1 as [|c l Hc _ IH]; cbn [app dump_lines]; [done|]. rewrite (proj2 (Z.eqb_neq _ _) Hc). cbn [app] in IH. by rewrite IH.
Qed.

Lemma stripped_plain s : plain s -> stripped s = s.
Proof.
  intros P. unfold stripped. rewrite <- (app_nil_r s) at 1. rewrite before_char_app by (eapply Forall_impl; [exact P|]; by intros c [_ H]).
  cbn [before_char]. rewrite app_nil_r. induction P as [|c s [Hc _] _ IH]; cbn [List.filter]; [done|]. by rewrite Hc, IH.
Qed.

Lemma stripped_app a b : lacks 35 a -> stripped (a ++ b) = stripped a ++ stripped b.
Proof.
  intros L. unfold stripped. rewrite before_char_app by done. rewrite List.filter_app. do 2 f_equal.
  rewrite <- (app_nil_r a) at 2. rewrite before_char_app by done. by rewrite app_nil_r.
Qed.

(** What a line adds to what follows it. *)
Lemma read_setting key value rest pending sections :
  plain (bs key) -> lacks 61 (bs key) -> (exists c k, bs key = c :: k /\ code c <> 91) -> plain value ->
  read_lines (dump_lines rest) = (pending, sections) ->
  read_lines (dump_lines (line key value ++ rest)) = ((bs key, value) :: pending, sections).
Proof.
  intros Pk Lk (c & k & Ek & Hc) Pv E. unfold line.
  assert (O : one_line (bs key ++ bs " = " ++ value)).
  { apply Forall_app. split; [by apply plain_one_line|]. apply Forall_app. split; [repeat constructor; done|by apply plain_one_line]. }
  rewrite <- !app_assoc. rewrite (app_assoc (bs " = ")), (app_assoc (bs key)). rewrite dump_line by done. cbn [read_lines]. rewrite E.
  assert (St : stripped (bs key ++ bs " = " ++ value) = bs key ++ "="%char :: value).
  { rewrite stripped_app by (eapply Forall_impl; [exact Pk|]; by intros x [_ H]). rewrite (stripped_plain (bs key)) by done.
    rewrite stripped_app by (repeat constructor; done). by rewrite (stripped_plain value). }
  rewrite St, Ek. cbn [app]. rewrite (proj2 (Z.eqb_neq _ _) Hc). change (c :: k ++ "="%char :: value) with ((c :: k) ++ "="%char :: value). rewrite <- Ek.
  assert (Sp : split_at "=" (bs key ++ "="%char :: value) = Some (bs key, value)); [|by rewrite Sp].
  clear -Lk. induction Lk as [|x l Hx _ IH]; cbn [app split_at]; [done|]. change (code "="%char) with 61. rewrite (proj2 (Z.eqb_neq _ _) Hx). by rewrite IH.
Qed.

Lemma read_comment text rest : one_line text -> read_lines (dump_lines (bs "# " ++ text ++ newline ++ rest)) = read_lines (dump_lines rest).
Proof.
  intros O. rewrite app_assoc, dump_line by (apply Forall_app; split; [repeat constructor; done|done]). cbn [read_lines].
  replace (stripped (bs "# " ++ text)) with ([] : bytes) by done. by destruct (read_lines _).
Qed.

Lemma read_blank rest : read_lines (dump_lines (newline ++ rest)) = read_lines (dump_lines rest).
Proof. change (newline ++ rest) with ([] ++ newline ++ rest). rewrite dump_line by constructor. cbn [read_lines]. by destruct (read_lines _). Qed.

Lemma read_header name rest pending sections :
  plain (bs name) -> (exists c k, bs name = c :: k /\ code c = 91) -> read_lines (dump_lines rest) = (pending, sections) ->
  read_lines (dump_lines (bs name ++ newline ++ rest)) = ([], (bs name, pending) :: sections).
Proof.
  intros P (c & k & Ek & Hc) E. rewrite dump_line by (by apply plain_one_line). cbn [read_lines]. rewrite E, stripped_plain by done.
  rewrite Ek. by rewrite (proj2 (Z.eqb_eq _ _) Hc).
Qed.

Lemma fmt_uint_plain z : 0 <= z -> plain (fmt_uint z).
Proof.
  intros H. destruct (fmt_uint_numeral z H) as [D _ _]. eapply Forall_impl; [exact D|]. intros c Hc. unfold isspace, in_range. unfold isdigit, in_range in Hc.
  apply andb_true_iff in Hc as [H1 H2]. apply Z.leb_le in H1, H2. split; [|lia]. apply orb_false_iff. split; [apply Z.eqb_neq; lia|].
  apply andb_false_iff. right. apply Z.leb_gt. lia.
Qed.

Lemma fmt_int_plain z : plain (fmt_int z).
Proof. unfold fmt_int. destruct (z <? 0) eqn:E; [constructor; [done|]|]; apply fmt_uint_plain; lia. Qed.

(** ** Sections of peers *)

(** A peer whose texts cannot be taken for other lines. *)
Record tidy (p : sb_wireguard_peer) : Prop := {
  tidy_name : one_line (wp_name p);
  tidy_public : plain (cstr (wp_public p));
  tidy_preshared : forall k, wp_preshared p = Some k -> plain (cstr k);
  tidy_address : plain (cstr (wp_address p)) }.

Definition peer_settings (p : sb_wireguard_peer) : settings_of :=
  (bs "PublicKey", cstr (wp_public p)) ::
  match wp_preshared p with Some k => if sb_str_empty k then [] else [(bs "PresharedKey", cstr k)] | None => [] end ++
  (bs "AllowedIPs", peer_ip (wp_address p) ++ bs "/32") ::
  (if 0 <? wp_keepalive p then [(bs "PersistentKeepalive", fmt_int (to_i32 (wp_keepalive p)))] else []).

Lemma before_char_plain c s : plain s -> plain (before_char c s).
Proof. induction 1 as [|x s Hx _ IH]; cbn [before_char]; [constructor|]. destruct (code x =? c); by constructor. Qed.

(** A key of a setting, as the texts have them. *)
Ltac setting_key := first [by repeat constructor | by do 2 eexists].

Lemma read_peer_section p rest sections :
  tidy p -> read_lines (dump_lines rest) = ([], sections) ->
  read_lines (dump_lines (peer_section p ++ rest)) = ([], (bs "[Peer]", peer_settings p) :: sections).
Proof.
  intros [Tn Tp Tk Ta] E. unfold peer_section. rewrite <- !app_assoc, read_blank.
  change (bs "# Client: ") with (bs "# " ++ bs "Client: "). rewrite <- app_assoc. rewrite (app_assoc (bs "Client: ")).
  rewrite read_comment by (apply Forall_app; split; [repeat constructor; done|done]).
  assert (Ip : plain (peer_ip (wp_address p) ++ bs "/32")) by (apply plain_app; [by apply before_char_plain|repeat constructor; done]).
  apply read_header; [setting_key..|]. apply read_setting; [setting_key..|done|].
  assert (Last : read_lines (dump_lines (line "AllowedIPs" (peer_ip (wp_address p) ++ bs "/32") ++ keepalive_line p ++ rest)) =
    ((bs "AllowedIPs", peer_ip (wp_address p) ++ bs "/32") :: (if 0 <? wp_keepalive p then [(bs "PersistentKeepalive", fmt_int (to_i32 (wp_keepalive p)))] else []), sections)).
  { apply read_setting; [setting_key..|done|]. unfold keepalive_line. destruct (0 <? wp_keepalive p); [|done].
    apply read_setting; [setting_key..|apply fmt_int_plain|done]. }
  unfold preshared_line. destruct (wp_preshared p) as [k|]; [|done]. destruct (sb_str_empty k); [done|].
  apply read_setting; [setting_key..|by apply Tk|done].
Qed.

Lemma read_peer_sections l :
  Forall tidy l -> read_lines (dump_lines (mjoin (map peer_section l))) = ([], map (fun p => (bs "[Peer]", peer_settings p)) l).
Proof. induction 1 as [|p l Hp _ IH]; [done|]. cbn [map mjoin list_join]. by apply read_peer_section. Qed.

Lemma read_interface keys o rest sections :
  plain (cstr (kp_private keys)) -> 0 <= wo_port o -> read_lines (dump_lines rest) = ([], sections) ->
  read_conf (interface_section keys o ++ rest) =
    (bs "[Interface]", [(bs "PrivateKey", cstr (kp_private keys)); (bs "ListenPort", fmt_uint (wo_port o))]) :: sections.
Proof.
  intros P H E. unfold read_conf, interface_section. rewrite <- !app_assoc. change (bs "# Generated by sb-easy") with (bs "# " ++ bs "Generated by sb-easy").
  rewrite <- app_assoc, read_comment, read_blank by (repeat constructor; done).
  erewrite read_header; [reflexivity|setting_key..|]. apply read_setting; [setting_key..|done|].
  apply read_setting; [setting_key..|by apply fmt_uint_plain|done].
Qed.

(** ** The file of the hub *)

Lemma server_config_spec {K} (env : hub_env K) wg s :
  wp (sb_wireguard_server_config_n env wg) (fun text s' => exists keys o stats served,
    text = interface_section keys o ++ mjoin (map peer_section served) /\ options_in_force wg (db s) o /\
    (live_stats env s o stats \/
     stats = [] /\ ((forall output, shown env s o <> Finished (Some 0) output) \/ database_failed env (asked s) (asked s'))) /\
    sublist served (listed (db s)) /\ (forall p, p ∈ served -> may_serve env (asked s) (asked s') stats p false) /\
    (forall p, p ∈ listed (db s) -> wp_enabled p = true -> over_quota stats p = false ->
       p ∈ served \/ may_serve env (asked s) (asked s') stats p true)) (fun _ _ => True) s.
Proof.
  unfold sb_wireguard_server_config_n. apply wp_bind. eapply wp_mono; [apply runtime_options_spec| |done]. cbn beta. intros o [d1 m1 n1] (D1 & M1 & A1 & O).
  cbn [db mem asked] in D1, M1, A1. subst d1 m1 n1. set (s1 := mk_conn (db s) (mem s) (S (asked s))). apply wp_bind.
  assert (St : wp (attempt (sb_wireguard_stats env wg)) (fun r s2 => peers (db s2) = peers (db s) /\ (asked s1 <= asked s2)%nat /\
     (match r with
      | Ok l => live_stats env s o l
      | Err _ => (forall output, shown env s o <> Finished (Some 0) output) \/ database_failed env (asked s1) (asked s2)
      end)) (fun _ _ => True) s1).
  { apply wp_attempt. pose proof (stats_spec env wg o s1 O) as L.
    pose proof (wp_within _ _ s1 (stats_settings env wg)) as R. unfold wp in *.
    destruct (sb_wireguard_stats env wg s1) as [[l|e] s2]; destruct R as [R _]; cbn [fst db] in R; rewrite R; split; done. }
  eapply wp_mono; [exact St| |done]. cbn beta. intros r s2 (P2 & A2 & L). cbn [asked s1] in A2. apply wp_bind.
  assert (Ke : wp (server_keypair env) (fun _ s3 => settings_only (db s2, mem s2) (db s3, mem s3) /\ (asked s2 <= asked s3)%nat) (fun _ _ => True) s2).
  { pose proof (server_keypair_settings env s2) as X. pose proof (server_keypair_onward env s2) as Y. unfold wp. by destruct (server_keypair env s2) as [[]]. }
  eapply wp_mono; [exact Ke| |done].
  cbn beta. intros keys s3 [[P3 _] A3]. cbn [fst db] in P3.
  assert (Lp : listed (db s3) = listed (db s)) by (unfold listed; by rewrite P3; cbn [peers with_settings]; rewrite P2).
  apply wp_bind, wp_list_peers; [done|]. rewrite Lp. apply wp_bind. eapply wp_mono; [apply (served_spec env (asked s)); cbn [asked]; lia| |done]. cbn beta.
  intros served s4 (_ & _ & A4 & Sub & In & Out). cbn [asked] in A4. apply wp_ret. exists keys, o, (match r with Ok l => l | Err _ => [] end), served.
  split_and!; [done|done| |done|done|done]. destruct r as [l|e]; [by left|right]. split; [done|]. destruct L as [L|(n & Hn & F)]; [by left|right].
  exists n. split; [cbn [asked s1] in Hn; lia|done].
Qed.

