(* ===== verification/WgFirewall.v ===== *)
(** * The firewall rules of the hub

    [Firewall] is what iptables(8) documents of the commands the hub runs: a check
    ([-C]) changes nothing and succeeds only if the rule is there; [-A] appends the
    rule and [-D] removes one copy of it, or else they change nothing and fail; other
    commands leave the tables alone.  Whether such a command succeeds is not assumed:
    the theorem says what follows where it does.  The hub does not look at the
    outcome of [-A] ([append_failure_ignored]).  The second part is on the peers that
    hosts are provisioned with. *)

From S2P Require Import Prelude Util Json JsonText Types Sqlite SqliteProofs Wireguard System StoreTables StoreAccounts StoreHosts StoreCalls WgText WgHub WgHubProofs StorePeersProofs.

Definition rule := (string -> list bytes).

(** The rules of the hub under options. *)
Definition hub_rules (o : sb_wireguard_options) : list rule :=
  [(fun action => masquerade action o); (fun action => forward action "-i" o); (fun action => forward action "-o" o)].
Definition hub_rule (r : rule) : Prop := exists o, r ∈ hub_rules o.

(** A rule stands in the tables as the command that appends it. *)
Definition added (r : rule) : list bytes := r "-A"%string.

Definition ended_well (a : spawn_answer) : Prop := exists output, a = Finished (Some 0) output.
Definition ended_somehow (a : spawn_answer) : Prop := exists status output, a = Finished status output.

Class Firewall {K : Type} (exec : list bytes -> tree -> K -> spawn_answer * K) (rules : K -> list (list bytes)) : Prop := {
  fw_check r f k : hub_rule r ->
    rules (snd (exec (r "-C"%string) f k)) = rules k /\ (ended_well (fst (exec (r "-C"%string) f k)) -> added r ∈ rules k);
  fw_append r f k : hub_rule r ->
    rules (snd (exec (added r) f k)) = rules k ++ [added r] \/
    (rules (snd (exec (added r) f k)) = rules k /\ ~ ended_well (fst (exec (added r) f k)));
  fw_delete r f k : hub_rule r ->
    rules k ≡ₚ added r :: rules (snd (exec (r "-D"%string) f k)) \/
    (rules (snd (exec (r "-D"%string) f k)) = rules k /\ ~ ended_well (fst (exec (r "-D"%string) f k)));
  fw_other argv f k : head argv <> Some (bs "iptables") -> rules (snd (exec argv f k)) = rules k }.

(** ** What may be true of a rule on a system *)

Section Outcomes.
Context {K : Type} (exec : list bytes -> tree -> K -> spawn_answer * K) (rules : K -> list (list bytes)).

(** Appending it succeeds. *)
Definition appends (r : rule) : Prop := forall f k, ended_well (fst (exec (added r) f k)).
(** A check finds it where it is. *)
Definition finds (r : rule) : Prop := forall f k, added r ∈ rules k -> ended_well (fst (exec (r "-C"%string) f k)).
(** Deleting it succeeds where it is, and the attempt ends elsewhere. *)
Definition deletes (r : rule) : Prop := forall f k,
  ended_somehow (fst (exec (r "-D"%string) f k)) /\ (added r ∈ rules k -> ended_well (fst (exec (r "-D"%string) f k))).
End Outcomes.

Definition copies (x : list bytes) (l : list (list bytes)) : nat := length (filter (eq x) l).

Lemma copies_app x l l' : copies x (l ++ l') = (copies x l + copies x l')%nat.
Proof. unfold copies. by rewrite list.filter_app, length_app. Qed.

Lemma copies_cons x y l : copies x (y :: l) = ((if decide (x = y) then 1 else 0) + copies x l)%nat.
Proof. unfold copies. rewrite filter_cons. by destruct (decide (x = y)). Qed.

Lemma copies_perm x l l' : l ≡ₚ l' -> copies x l = copies x l'.
Proof. intros P. unfold copies. by rewrite P. Qed.

Lemma copies_present x l : x ∈ l <-> (0 < copies x l)%nat.
Proof.
  unfold copies. split.
  - intros H. assert (x ∈ filter (eq x) l) as F by (by apply list_elem_of_filter). destruct (filter _ l); [by apply elem_of_nil in F|cbn; lia].
  - destruct (filter (eq x) l) as [|y r] eqn:E; [cbn; lia|]. assert (y ∈ filter (eq x) l) as F by (rewrite E; left).
    apply list_elem_of_filter in F as [-> F]. done.
Qed.

Section Rules.
Context {K : Type} (env : hub_env K) (wg : sb_wireguard_options) (rules : K -> list (list bytes)).
Context `{!Firewall (execute (hub_sys env)) rules}.

Abbreviation hub := (sql store_tables (system K)).
Abbreviation state := (conn store_tables (system K)).

(** The tables of the firewall stay. *)
Definition no_rule (x y : store_tables * system K) : Prop := rules (sy_kernel (snd y)) = rules (sy_kernel (snd x)).
#[local] Instance no_rule_preorder : PreOrder no_rule.
Proof. split; [done|]. unfold no_rule. intros x y z H1 H2. congruence. Qed.

Lemma spawn_other argv : head argv <> Some (bs "iptables") -> within no_rule (sys_spawn (hub_sys env) argv).
Proof.
  intros H s. unfold sys_spawn, on_memory, no_rule. pose proof (fw_other argv (sy_files (mem s)) (sy_kernel (mem s)) H) as O.
  by destruct (execute _ _ _ _) as [answer k].
Qed.

Lemma run_command_other argv check : head argv <> Some (bs "iptables") -> within no_rule (run_command env argv check).
Proof. intros H. unfold run_command, fail. withins; by apply spawn_other. Qed.

(** File operations. *)
Lemma within_sys_call {A} failed (f : nat -> system K -> A * system K) :
  (forall n m, sy_kernel (snd (f n m)) = sy_kernel m) -> within no_rule (sys_call (hub_sys env) failed f).
Proof.
  intros H s. unfold sys_call, on_memory, no_rule. destruct (sys_errno _ _); [done|]. specialize (H (asked s) (mem s)).
  destruct (f (asked s) (mem s)) as [a m]. cbn in *. by rewrite H.
Qed.

Lemma on_file_kernel p g (m : system K) : sy_kernel (on_file p g m) = sy_kernel m.
Proof. unfold on_file. by repeat case_match. Qed.

Ltac file_call := apply within_sys_call; intros ? ?; repeat case_match; cbn [snd]; rewrite ?on_file_kernel; done.

Lemma mkdir_no_rule p m : within no_rule (mkdir_or_exists (hub_sys env) p m).
Proof. unfold mkdir_or_exists. withins. file_call. Qed.
Lemma stat_no_rule p : within no_rule (sys_stat (hub_sys env) p).
Proof. intros s. done. Qed.
Hint Resolve mkdir_no_rule stat_no_rule : within.

Lemma mkdirs_no_rule p m : within no_rule (sb_mkdirs (hub_sys env) p m).
Proof.
  unfold sb_mkdirs. destruct (cstr p) as [|c rest]; [withins|]. generalize [c] as done. induction rest as [|x rest IH]; intros done; cbn [mkdirs_loop]; withins; apply IH.
Qed.
Hint Resolve mkdirs_no_rule : within.

Lemma write_loop_no_rule fuel p data : within no_rule (write_loop (hub_sys env) fuel p data).
Proof. revert data. induction fuel as [|fuel IH]; intros [|c data]; cbn [write_loop]; withins; first [apply IH|file_call]. Qed.

Lemma atomic_no_rule p contents : within no_rule (sb_atomic_replace_file (hub_sys env) p contents None).
Proof.
  unfold sb_atomic_replace_file, system_fail, destination_mode, temporary_path_for, cleanup, fill_and_rename, write_all, system_fail, fsync_directory.
  cbv zeta. withins; first [apply write_loop_no_rule|file_call].
Qed.
Hint Resolve atomic_no_rule : within.

(** Calls of the repository. *)
Lemma store_no_rule {A} (m : store A) : within no_rule (on_store m).
Proof. by apply within_store. Qed.
Hint Resolve store_no_rule : within.

Lemma run_no_rule argv check : head argv <> Some (bs "iptables") -> within no_rule (run env argv check).
Proof. intros H. unfold run. apply within_bind; [exact _|by apply run_command_other|intros ?; withins]. Qed.

(** A command of another name. *)
Ltac other_command :=
  first [apply run_no_rule|apply run_command_other|apply spawn_other]; let H := fresh in intros H; injection H; discriminate.
Hint Extern 1 (within _ (run_command _ _ _)) => other_command : within.
Hint Extern 1 (within _ (run _ _ _)) => other_command : within.

Lemma runtime_options_no_rule : within no_rule (sb_wireguard_runtime_options env wg).
Proof. unfold sb_wireguard_runtime_options. withins. Qed.
Lemma server_keypair_no_rule : within no_rule (server_keypair env).
Proof. unfold server_keypair, generated_keypair, random_key. withins. Qed.
Hint Resolve runtime_options_no_rule server_keypair_no_rule : within.

Lemma served_no_rule stats l : within no_rule (served_peers env stats l).
Proof. intros s. by rewrite (served_same env stats l s). Qed.
Hint Resolve served_no_rule : within.

Lemma server_config_no_rule : within no_rule (sb_wireguard_server_config_n env wg).
Proof. unfold sb_wireguard_server_config_n, sb_wireguard_stats. withins. Qed.
Hint Resolve server_config_no_rule : within.

Lemma write_config_no_rule o : within no_rule (write_server_config env wg o).
Proof. unfold write_server_config, create_directories, fail. withins. Qed.

Lemma bring_up_no_rule o path : within no_rule (bring_up env o path).
Proof. unfold bring_up. withins. Qed.

(** ** One rule *)

Abbreviation table s := (rules (sy_kernel (mem s))).
Abbreviation exec := (execute (hub_sys env)).

(** Rules that are not listed are as they were, and each listed one has copies before
    and after as the relation says. *)
Definition changed (R : rule -> nat -> nat -> Prop) (rs : list rule) (l l' : list (list bytes)) : Prop :=
  (forall x, x ∉ added <$> rs -> copies x l' = copies x l) /\ forall r, r ∈ rs -> R r (copies (added r) l) (copies (added r) l').

Lemma changed_one (R : rule -> nat -> nat -> Prop) r l l' :
  (forall x, x <> added r -> copies x l' = copies x l) -> R r (copies (added r) l) (copies (added r) l') -> changed R [r] l l'.
Proof.
  intros H1 H2. split.
  - intros x Hx. apply H1. intros ->. apply Hx, list_elem_of_fmap. exists r. split; [done|left].
  - by intros q ->%list_elem_of_singleton.
Qed.

Lemma changed_more (R : rule -> nat -> nat -> Prop) r rs l l1 l2 :
  added r ∉ added <$> rs -> changed R [r] l l1 -> changed R rs l1 l2 -> changed R (r :: rs) l l2.
Proof.
  intros N [A1 B1] [A2 B2]. split.
  - intros x Hx. rewrite fmap_cons, not_elem_of_cons in Hx. destruct Hx as [Hx Hxs]. rewrite A2 by done. apply A1.
    rewrite list_fmap_singleton, list_elem_of_singleton. done.
  - intros q [->|Hq]%elem_of_cons; [rewrite A2 by done; apply B1; left|].
    rewrite <- (A1 (added q)); [by apply B2|]. rewrite list_fmap_singleton, list_elem_of_singleton. intros E. apply N. rewrite <- E. by apply list_elem_of_fmap_2.
Qed.

(** Ensuring a rule adds at most one copy; the rule is there if appending succeeds,
    and gets no second copy if checks find it. *)
Definition ensured (r : rule) (n n' : nat) : Prop :=
  (n <= n' <= S n)%nat /\ (appends exec r -> (0 < n')%nat) /\ (finds exec rules r -> (n' <= Nat.max 1 n)%nat).

Lemma wp_run_rule argv (Q : Z -> state -> Prop) (E : sb_err -> state -> Prop) s :
  (exists name rest, argv = name :: rest /\ name <> []) ->
  (forall n, let '(a, k) := exec argv (sy_files (mem s)) (sy_kernel (mem s)) in
     let s' := mk_conn (db s) (mk_system (sy_files (mem s)) (sy_disk (mem s)) (sy_past (mem s)) k) n in
     match a with
     | Finished status output => Q (default (-1) status) s'
     | _ => forall e, E e s'
     end) ->
  wp (run env argv false) Q E s.
Proof.
  intros (name & rest & -> & Hn) H. unfold run, run_command, fail. apply wp_bind. destruct name as [|c name]; [done|]. apply wp_bind. unfold sys_spawn. apply wp_on_memory.
  specialize (H (S (asked s))). destruct (execute _ _ _ _) as [[e|e|e| |status output] k]; cbn [fst snd andb]; apply wp_pure, H.
Qed.

Lemma rule_starts r a : hub_rule r -> exists name rest, r a = name :: rest /\ name <> [].
Proof. intros (o & H). repeat (apply elem_of_cons in H as [->|H]; [by do 2 eexists|]). by apply elem_of_nil in H. Qed.

Lemma status_zero status output : default (-1) status = 0 -> ended_well (Finished status output).
Proof. destruct status as [c|]; cbn; [intros ->; by eexists|done]. Qed.

Lemma copies_snoc x y l : copies x (l ++ [y]) = (copies x l + if decide (x = y) then 1 else 0)%nat.
Proof. rewrite copies_app. f_equal. rewrite copies_cons. cbn [copies]. case_decide; cbn; lia. Qed.

Lemma changed_appended r l : (finds exec rules r -> added r ∉ l) -> changed ensured [r] l (l ++ [added r]).
Proof.
  intros N. apply changed_one; [intros x Hx; rewrite copies_snoc, decide_False by done; lia|]. rewrite copies_snoc, decide_True by done.
  split; [lia|]. split; [lia|]. intros F. specialize (N F). rewrite copies_present in N. lia.
Qed.

Lemma changed_same (R : rule -> nat -> nat -> Prop) r l : R r (copies (added r) l) (copies (added r) l) -> changed R [r] l l.
Proof. by apply changed_one. Qed.

Lemma wp_ensure_rule r s :
  hub_rule r -> wp (ensure_rule env r) (fun _ s' => changed ensured [r] (table s) (table s')) no_care s.
Proof.
  intros H. unfold ensure_rule. apply wp_bind, wp_run_rule; [by apply rule_starts|]. intros n.
  pose proof (fw_check r (sy_files (mem s)) (sy_kernel (mem s)) H) as [C1 C2].
  assert (Fi : finds exec rules r -> added r ∈ table s -> ended_well (fst (exec (r "-C"%string) (sy_files (mem s)) (sy_kernel (mem s))))) by (intros F; apply F).
  destruct (execute _ (r _) _ _) as [a k]. cbn [fst snd] in *.
  destruct a as [e|e|e| |status output]; try done. cbn beta zeta. destruct (default (-1) status =? 0) eqn:D.
  - apply Z.eqb_eq, (status_zero _ output), C2 in D. apply wp_ret. cbn [mem sy_kernel]. rewrite C1. apply copies_present in D. apply changed_same. unfold ensured. lia.
  - apply wp_bind, wp_run_rule; [by apply (rule_starts r)|]. intros n'. cbn [mem sy_files sy_kernel db].
    pose proof (fw_append r (sy_files (mem s)) k H) as A. assert (P : appends exec r -> ended_well (fst (exec (added r) (sy_files (mem s)) k))) by (intros P; apply P).
    unfold added in A at 1 3 4, P. destruct (execute _ (r _) _ _) as [a' k']. cbn [fst snd] in *. rewrite C1 in A.
    destruct a' as [e|e|e| |status' output']; try done. apply wp_ret. cbn [mem sy_kernel]. destruct A as [-> | [-> A]]; [|apply changed_same; unfold ensured; split; [lia|]; split; [tauto|lia]].
    apply changed_appended. intros F I. destruct (Fi F I) as (out & E). injection E as -> _. done.
Qed.

(** Removing a rule takes at most one copy, and takes it, if there is one, where
    deleting succeeds. *)
Definition removed (r : rule) (n n' : nat) : Prop :=
  (Nat.pred n <= n' <= n)%nat /\ (deletes exec rules r -> n' = Nat.pred n).

Lemma wp_remove_rule r s :
  hub_rule r ->
  wp (run env (r "-D"%string) false) (fun _ s' => changed removed [r] (table s) (table s'))
     (fun _ s' => changed removed [r] (table s) (table s') /\ ~ deletes exec rules r) s.
Proof.
  intros H. apply wp_run_rule; [by apply rule_starts|]. intros n. pose proof (fw_delete r (sy_files (mem s)) (sy_kernel (mem s)) H) as D.
  assert (De : deletes exec rules r -> ended_somehow (fst (exec (r "-D"%string) (sy_files (mem s)) (sy_kernel (mem s)))) /\
    (added r ∈ table s -> ended_well (fst (exec (r "-D"%string) (sy_files (mem s)) (sy_kernel (mem s)))))) by (intros De; apply De).
  destruct (execute _ (r _) _ _) as [a k]. cbn [fst snd] in *.
  assert (R : changed removed [r] (table s) (rules k)).
  { destruct D as [D|[-> D]].
    - assert (C : forall x, copies x (table s) = ((if decide (x = added r) then 1 else 0) + copies x (rules k))%nat) by (intros x; rewrite (copies_perm x _ _ D); apply copies_cons).
      apply changed_one; [intros x Hx; rewrite C, decide_False by done; lia|]. rewrite C, decide_True by done. split; [lia|intros _; lia].
    - apply changed_same. split; [lia|]. intros X. destruct (De X) as [_ De']. destruct (decide (added r ∈ table s)) as [I|I]; [by destruct D; apply De'|].
      rewrite copies_present in I. lia. }
  destruct a as [e|e|e| |status output]; [..|exact R]; intros err; (split; [exact R|]); intros X; destruct (De X) as [(st & out & ?) _]; discriminate.
Qed.

Lemma masquerade_rule o : hub_rule (fun action => masquerade action o).
Proof. exists o. by left. Qed.
Lemma forward_rule o d : d = "-i"%string \/ d = "-o"%string -> hub_rule (fun action => forward action d o).
Proof. intros [-> | ->]; exists o; [by right; left|by right; right; left]. Qed.

Lemma wp_no_rule {A} (m : hub A) s :
  within no_rule m -> wp m (fun _ s' => table s' = table s) (fun _ s' => table s' = table s) s.
Proof. intros H. specialize (H s). unfold wp. destruct (m s) as [[a|e] s']; exact H. Qed.

(** ** The three rules *)

Lemma hub_rules_differ o : NoDup (added <$> hub_rules o).
Proof.
  unfold added. cbn [fmap list_fmap hub_rules]. rewrite !NoDup_cons, !elem_of_cons, !elem_of_nil.
  split_and!; [|intros [H|[]]; inversion H|by intros []|by apply NoDup_nil]. intros [H|[H|[]]]; inversion H.
Qed.

Lemma changed_three R o l0 l1 l2 l3 :
  changed R [fun a => masquerade a o] l0 l1 -> changed R [fun a => forward a "-i" o] l1 l2 -> changed R [fun a => forward a "-o" o] l2 l3 ->
  changed R (hub_rules o) l0 l3.
Proof.
  intros C1 C2 C3. pose proof (hub_rules_differ o) as N. unfold hub_rules in *. rewrite !fmap_cons, !NoDup_cons in N. destruct N as (N1 & N2 & _).
  by eapply changed_more; [|exact C1|eapply changed_more; [|exact C2|exact C3]].
Qed.

Lemma wp_bind_known {A B} (m : hub A) (f : A -> hub B) Q E s a s' : m s = (Ok a, s') -> wp (f a) Q E s' -> wp (m ≫= f) Q E s.
Proof. intros H W. apply wp_bind. unfold wp at 1. by rewrite H. Qed.

(** A part that leaves the tables alone. *)
Lemma wp_nothing {A B} (m : hub A) (f : A -> hub B) (Q : B -> list (list bytes) -> Prop) s :
  within no_rule m -> (forall a s', table s' = table s -> wp (f a) (fun b s'' => Q b (table s'')) no_care s') ->
  wp (m ≫= f) (fun b s'' => Q b (table s'')) no_care s.
Proof. intros W H. apply wp_bind. eapply wp_mono; [by apply wp_no_rule| |done]. exact H. Qed.

Lemma startup_rules o s s1 :
  wo_enabled wg = true -> sb_wireguard_runtime_options env wg s = (Ok o, s1) ->
  wp (sb_wireguard_startup env wg) (fun _ s' => changed ensured (hub_rules o) (table s) (table s')) no_care s.
Proof.
  intros En O. unfold sb_wireguard_startup. rewrite En. cbn [negb]. eapply wp_bind_known; [exact O|]. pose proof (runtime_options_no_rule s) as T1. rewrite O in T1.
  unfold no_rule in T1. cbn [snd] in T1. rewrite <- T1. set (Q := fun (_ : unit) l => changed ensured (hub_rules o) (table s1) l).
  apply (wp_nothing _ _ Q); [apply write_config_no_rule|]. intros path s2 T2.
  apply (wp_nothing _ _ Q); [apply bring_up_no_rule|]. intros [] s3 T3.
  apply (wp_nothing _ _ Q); [withins|]. intros c s4 T4. unfold Q. rewrite <- T2, <- T3, <- T4.
  apply wp_bind. eapply wp_mono; [apply wp_ensure_rule, masquerade_rule| |done]. cbn beta. intros _ s5 E5.
  apply wp_bind. eapply wp_mono; [apply wp_ensure_rule, forward_rule; by left| |done]. cbn beta. intros _ s6 E6.
  eapply wp_mono; [apply wp_ensure_rule, forward_rule; by right| |done]. cbn beta. intros _ s7 E7. by eapply changed_three.
Qed.

(** The teardown ends at a command that cannot be run; what was not reached stays. *)
Lemma shutdown_rules o s s1 :
  wo_enabled wg = true -> sb_wireguard_runtime_options env wg s = (Ok o, s1) ->
  wp (sb_wireguard_shutdown env wg)
     (fun _ s' => changed (fun _ n n' => (Nat.pred n <= n' <= n)%nat) (hub_rules o) (table s) (table s') /\
        (Forall (deletes exec rules) (hub_rules o) -> changed removed (hub_rules o) (table s) (table s'))) (fun _ _ => False) s.
Proof.
  intros En O. unfold sb_wireguard_shutdown. rewrite En. cbn [negb]. apply wp_bind, wp_attempt. eapply wp_bind_known; [exact O|].
  pose proof (runtime_options_no_rule s) as T1. rewrite O in T1. unfold no_rule in T1. cbn [snd] in T1. rewrite <- T1.
  assert (Wk : forall r l l', changed removed [r] l l' -> changed (fun _ n n' => (Nat.pred n <= n' <= n)%nat) [r] l l').
  { intros r l l' [A B]. split; [done|]. intros q Hq. apply B, Hq. }
  assert (Sm : forall r l, changed (fun _ n n' => (Nat.pred n <= n' <= n)%nat) [r] l l) by (intros r l; apply changed_same; lia).
  assert (No : forall r l l', r ∈ hub_rules o -> ~ deletes exec rules r -> Forall (deletes exec rules) (hub_rules o) -> changed removed (hub_rules o) l l').
  { intros r l l' Hr N F. rewrite Forall_forall in F. by destruct N; apply F. }
  assert (Hr : forall r, r ∈ hub_rules o -> hub_rule r) by (intros r Hr; by exists o).
  apply wp_bind. eapply wp_mono; [by apply (wp_remove_rule (fun a => masquerade a o)), masquerade_rule|..]; cbn beta.
  2: { intros e s2 [E2 N2]. apply wp_ret. split; [|by apply (No (fun a => masquerade a o)); [left|]]. eapply changed_three; [by apply Wk|apply Sm..]. }
  intros _ s2 E2. apply wp_bind. eapply wp_mono; [by apply (wp_remove_rule (fun a => forward a "-i" o)), forward_rule; left|..]; cbn beta.
  2: { intros e s3 [E3 N3]. apply wp_ret. split; [|by apply (No (fun a => forward a "-i" o)); [right; left|]]. eapply changed_three; [by apply Wk..|apply Sm]. }
  intros _ s3 E3. apply wp_bind. eapply wp_mono; [by apply (wp_remove_rule (fun a => forward a "-o" o)), forward_rule; right|..]; cbn beta.
  2: { intros e s4 [E4 N4]. apply wp_ret. split; [|by apply (No (fun a => forward a "-o" o)); [right; right; left|]]. eapply changed_three; by apply Wk. }
  intros _ s4 E4.
  pose proof (wp_no_rule _ s4 (run_no_rule (ip_link [bs "delete"; wo_interface o]) false ltac:(intros H; injection H; discriminate))) as W.
  eapply wp_mono; [exact W| |]; cbn beta; intros r s5 T5; apply wp_ret; rewrite T5; (split; [eapply changed_three; by apply Wk|intros _; by eapply changed_three]).
Qed.
End Rules.

(** C29: the firewall rules of the hub come with it and go with it.  A start of an
    enabled hub that succeeds leaves every rule that is not one of the hub's three as
    it was and adds at most one copy of each of these; each is there afterwards if
    appending it succeeds, the outcome of which the code ignores, and none gets a
    second copy if checks find the rules that are there, so that starting again adds
    none.  Shutting the hub down under the same options touches no other rule and
    takes at most one copy of each of the three, exactly one where deleting them
    succeeds.  A start and such a shutdown leave no rule of the hub behind, unless it
    was there more than once before, if checks find and deletions succeed.  Of
    iptables only the documented effects of [-C], [-A] and [-D] are assumed, not that
    they succeed. *)
Theorem firewall_follows_hub {K} (env : hub_env K) wg (rules : K -> list (list bytes)) `{!Firewall (execute (hub_sys env)) rules} o s s' :
  let table s := rules (sy_kernel (mem s)) in
  let exec := execute (hub_sys env) in
  let n s r := copies (added r) (table s) in
  wo_enabled wg = true -> fst (sb_wireguard_runtime_options env wg s) = Ok o -> sb_wireguard_startup env wg s = (Ok tt, s') ->
  (forall x, x ∉ added <$> hub_rules o -> copies x (table s') = copies x (table s)) /\
  (forall r, r ∈ hub_rules o ->
     (n s r <= n s' r <= S (n s r))%nat /\ (appends exec r -> added r ∈ table s') /\
     (finds exec rules r -> (n s' r <= Nat.max 1 (n s r))%nat)) /\
  (fst (sb_wireguard_runtime_options env wg s') = Ok o ->
   let s'' := snd (sb_wireguard_shutdown env wg s') in
   (forall x, x ∉ added <$> hub_rules o -> copies x (table s'') = copies x (table s')) /\
   (forall r, r ∈ hub_rules o -> (Nat.pred (n s' r) <= n s'' r <= n s' r)%nat) /\
   (Forall (deletes exec rules) (hub_rules o) ->
      forall r, r ∈ hub_rules o ->
        n s'' r = Nat.pred (n s' r) /\ (finds exec rules r -> (n s r <= 1)%nat -> added r ∉ table s''))).
Proof.
  intros table exec n En O E. destruct (sb_wireguard_runtime_options env wg s) as [r1 s1] eqn:O1. cbn [fst] in O. subst r1.
  pose proof (startup_rules env wg rules o s s1 En O1) as W. unfold wp in W. rewrite E in W. destruct W as [W1 W2]. split; [exact W1|].
  split; [intros r Hr; rewrite copies_present; exact (W2 r Hr)|]. intros O2 s''.
  destruct (sb_wireguard_runtime_options env wg s') as [r2 s2] eqn:O2'. cbn [fst] in O2. subst r2.
  pose proof (shutdown_rules env wg rules o s' s2 En O2') as G. unfold wp in G. unfold s''.
  destruct (sb_wireguard_shutdown env wg s') as [[[]|e] s3]; [|done]. cbn [snd]. destruct G as [[G1 G2] G3]. split; [exact G1|]. split; [exact G2|].
  intros D r Hr. destruct (G3 D) as [_ G4]. destruct (G4 r Hr) as [_ G5]. rewrite Forall_forall in D. specialize (G5 (D r Hr)). split; [exact G5|].
  intros F L P. apply copies_present in P. destruct (W2 r Hr) as (_ & _ & W3). specialize (W3 F). unfold n, table in *. lia.
Qed.

(** * A small hub

    A kernel whose state is the list of firewall rules, and a hub over the small
    repository: the theorems on the hub are applied here. *)

Fixpoint remove_one (x : list bytes) (l : list (list bytes)) : list (list bytes) :=
  match l with [] => [] | y :: l' => if decide (x = y) then l' else y :: remove_one x l' end.

Lemma remove_one_perm x l : x ∈ l -> l ≡ₚ x :: remove_one x l.
Proof.
  induction l as [|y l IH]; [by intros ?%elem_of_nil|]. cbn [remove_one]. destruct (decide (x = y)) as [->|N]; [done|].
  intros [->|H]%elem_of_cons; [done|]. rewrite (IH H) at 1. apply Permutation_swap.
Qed.

Definition demo_iptables (action : bytes) (rule : list bytes) (k : list (list bytes)) : spawn_answer * list (list bytes) :=
  if bytes_eqb action (bs "-A") then (Finished (Some 0) [], k ++ [rule])
  else if bool_decide (rule ∈ k) then (Finished (Some 0) [], if bytes_eqb action (bs "-D") then remove_one rule k else k)
  else (Finished (Some 1) [], k).

(** [wg show] prints one peer that was heard of and has used 1500 bytes. *)
Definition demo_dump : bytes :=
  mjoin (map (fun f => f ++ [chr 9]) [bs "public"; bs "(none)"; bs "192.0.2.7:4242"; bs "10.59.32.2/32"; bs "1700000000"; bs "1000"; bs "500"]) ++ bs "off".

Definition demo_execute (argv : list bytes) (f : tree) (k : list (list bytes)) : spawn_answer * list (list bytes) :=
  match argv with
  | name :: second :: third :: fourth :: rest =>
      if negb (bytes_eqb name (bs "iptables")) then (Finished (Some 0) (if bytes_eqb name (bs "wg") then demo_dump else []), k)
      else if bytes_eqb second (bs "-t") then demo_iptables fourth (name :: second :: third :: bs "-A" :: rest) k
      else demo_iptables second (name :: bs "-A" :: third :: fourth :: rest) k
  | _ => (Finished (Some 0) [], k)
  end.

Lemma demo_rule action r f k : hub_rule r -> (action = "-C" \/ action = "-A" \/ action = "-D")%string ->
  demo_execute (r action) f k = demo_iptables (bs action) (added r) k.
Proof. intros (o & H) A. repeat (apply elem_of_cons in H as [->|H]; [by destruct A as [->|[->| ->]]|]). by apply elem_of_nil in H. Qed.

#[export] Instance demo_firewall : Firewall demo_execute (fun k => k).
Proof.
  pose proof demo_rule as F.
  split.
  - intros r f k H. rewrite F by tauto. unfold demo_iptables. change (bytes_eqb (bs "-C") (bs "-A")) with false. change (bytes_eqb (bs "-C") (bs "-D")) with false.
    case_bool_decide; cbn [fst snd]; split; try done. by intros (out & [=]).
  - intros r f k H. left. unfold added at 1. rewrite F by tauto. done.
  - intros r f k H. rewrite F by tauto. unfold demo_iptables. change (bytes_eqb (bs "-D") (bs "-A")) with false. change (bytes_eqb (bs "-D") (bs "-D")) with true.
    case_bool_decide as B; cbn [fst snd]; [left; by apply remove_one_perm|]. right. split; [done|]. by intros (out & [=]).
  - intros argv f k H. unfold demo_execute. destruct argv as [|name [|second [|third [|fourth rest]]]]; try done.
    destruct (bytes_eqb name (bs "iptables")) eqn:E; [|done]. apply bytes_eqb_eq in E as ->. done.
Qed.

Definition demo_wg : wg_env := mk_wg_env (fun _ => true) (fun k => Some k) (fun s => Some s) (fun s => bs "key-" ++ s) (fun _ => Some 0) (fun _ => false).

(** A hub whose commands are answered by [exec]. *)
Definition hub_with (exec : list bytes -> tree -> list (list bytes) -> spawn_answer * list (list bytes)) : hub_env (list (list bytes)) :=
  mk_hub_env _ demo_env demo_wg
    (mk_sys_env _ (fun _ => None) (fun _ => 4096%nat) (fun _ => bs "error") 0 (fun n k => Some (take k (bs "0123456789abcdefghijklmnopqrstuv"))) exec)
    (mk_qr_lib (fun _ => false) (fun _ => false) (fun _ => None)) (fun n => (1700000000 + Z.of_nat n, 0)).

Definition demo_hub : hub_env (list (list bytes)) := hub_with demo_execute.

Definition demo_options : sb_wireguard_options := sb_wireguard_new (Some (mk_options true None 51820 None None 1420 None None None)).

(** The repository has a peer with a quota of 1200 bytes, one that expired, and one
    that may be served. *)
Definition demo_peers : conn store_tables unit :=
  run_calls demo_env
    [CreatePeer (mk_peer (bs "p1") (bs "Laptop") (bs "private") (bs "public") None (bs "10.59.32.2/24") [] true 25 [] None 1200 [] [] None None);
     CreatePeer (mk_peer (bs "p2") (bs "Guest") (bs "private2") (bs "public2") None (bs "10.59.32.3/24") [] true 25 [] (Some (bs "2020-01-01T00:00:00Z")) 0 [] [] None None);
     CreatePeer (mk_peer (bs "p3") (bs "Phone") (bs "private3") (bs "public3") None (bs "10.59.32.4/24") [] true 25 [] None 0 [] [] None None)] demo_hosted.
Definition demo_running : conn store_tables (system (list (list bytes))) := mk_conn (db demo_peers) (mk_system ∅ ∅ [] []) (asked demo_peers).


(** The public keys of the peers that the configuration has. *)
Definition configured (env : hub_env (list (list bytes))) (s : conn store_tables (system (list (list bytes)))) : option (list bytes) :=
  match fst (sb_wireguard_server_config_n env demo_options s) with
  | Ok text => Some (omap (fun x => snd <$> head (snd x)) (drop 1 (read_conf text)))
  | Err _ => None
  end.

(** Of the three peers one has used up its quota and one has expired. *)
Example demo_configured : configured demo_hub demo_running = Some [bs "public3"].
Proof. vm_compute. reflexivity. Qed.

(** A peer that was left out is no longer listed by [wg show]: the next configuration
    has it again, with its quota unused. *)
Definition forgetful_execute (argv : list bytes) (f : tree) (k : list (list bytes)) : spawn_answer * list (list bytes) :=
  if bytes_eqb (default [] (head argv)) (bs "wg") then (Finished (Some 0) [], k) else demo_execute argv f k.
Example quota_forgotten : configured (hub_with forgetful_execute) demo_running = Some [bs "public"; bs "public3"].
Proof. vm_compute. reflexivity. Qed.

(** A name of several lines becomes lines of the file: here it adds a peer. *)
Definition demo_injected : conn store_tables unit :=
  run_calls demo_env
    [CreatePeer (mk_peer (bs "p1") (bs "x" ++ newline ++ bs "[Peer]" ++ newline ++ line "PublicKey" (bs "other") ++ bs "AllowedIPs = 0.0.0.0/0")
       (bs "private") (bs "public") None (bs "10.59.32.2/24") [] true 25 [] None 0 [] [] None None)] demo_hosted.
Example name_adds_peer :
  configured demo_hub (mk_conn (db demo_injected) (mk_system ∅ ∅ [] []) (asked demo_injected)) = Some [bs "other"; bs "public"].
Proof. vm_compute. reflexivity. Qed.

(** On the small system checks find, and what is there can be deleted. *)
Lemma demo_outcomes r : hub_rule r -> appends demo_execute r /\ finds demo_execute id r /\ deletes demo_execute id r.
Proof.
  intros H. split; [|split].
  - intros f k. unfold added at 1. rewrite demo_rule by tauto. by eexists.
  - intros f k I. rewrite demo_rule by tauto. unfold demo_iptables. change (bytes_eqb (bs "-C") (bs "-A")) with false.
    rewrite bool_decide_eq_true_2 by exact I. by eexists.
  - intros f k. rewrite demo_rule by tauto. unfold demo_iptables. change (bytes_eqb (bs "-D") (bs "-A")) with false.
    case_bool_decide as B; (split; [by do 2 eexists|]); [by eexists|done].
Qed.

Lemma firewall_follows_hub_witness :
  exists s' s'' : conn store_tables (system (list (list bytes))),
    sb_wireguard_startup demo_hub demo_options demo_running = (Ok tt, s') /\
    (forall r, r ∈ hub_rules demo_options -> copies (added r) (sy_kernel (mem s')) = 1%nat) /\
    forall r, r ∈ hub_rules demo_options -> added r ∉ sy_kernel (mem s'').
Proof.
  assert (R : match sb_wireguard_startup demo_hub demo_options demo_running with
              | (Ok _, s') => match fst (sb_wireguard_runtime_options demo_hub demo_options s') with Ok o => bool_decide (wo_address o = wo_address demo_options) | Err _ => false end
              | (Err _, _) => false end = true) by (vm_compute; reflexivity).
  assert (O : fst (sb_wireguard_runtime_options demo_hub demo_options demo_running) = Ok demo_options) by (vm_compute; reflexivity).
  assert (O2 : fst (sb_wireguard_runtime_options demo_hub demo_options (snd (sb_wireguard_startup demo_hub demo_options demo_running))) = Ok demo_options)
    by (vm_compute; reflexivity).
  destruct (sb_wireguard_startup demo_hub demo_options demo_running) as [[[]|e] s'] eqn:E; [|discriminate R].
  destruct (firewall_follows_hub demo_hub demo_options (fun k => k) demo_options demo_running s' eq_refl O E) as (_ & P & G).
  assert (H : forall r, r ∈ hub_rules demo_options -> hub_rule r) by (intros r Hr; by exists demo_options).
  exists s', (snd (sb_wireguard_shutdown demo_hub demo_options s')). split; [reflexivity|]. split.
  - intros r Hr. destruct (demo_outcomes r (H r Hr)) as (A & F & _). destruct (P r Hr) as (_ & P1 & P2). specialize (P1 A). specialize (P2 F).
    apply copies_present in P1. cbn in P1, P2. lia.
  - destruct (G O2) as (_ & _ & N). assert (D : Forall (deletes demo_execute id) (hub_rules demo_options)).
    { apply Forall_forall. intros r Hr. apply (demo_outcomes r (H r Hr)). }
    intros r Hr. apply (N D r Hr); [apply (demo_outcomes r (H r Hr))|cbn; lia].
Defined.

(** A system on which no rule can be appended: the start succeeds all the same, with no
    rule in the tables. *)
Definition full_execute (argv : list bytes) (f : tree) (k : list (list bytes)) : spawn_answer * list (list bytes) :=
  if bytes_eqb (default [] (head argv)) (bs "iptables") then (Finished (Some 4) [], k) else demo_execute argv f k.
Example append_failure_ignored :
  match sb_wireguard_startup (hub_with full_execute) demo_options demo_running with
  | (Ok _, s') => sy_kernel (mem s') = []
  | _ => False
  end.
Proof. vm_compute. reflexivity. Qed.

(** * Provisioning of managed hosts *)

(** ** Calls of the repository *)

Section Store.
Context (env : store_env).

Lemma find_app_fresh {R} (p : R -> bool) l x : existsb p l = false -> p x = true -> List.find p (l ++ [x]) = Some x.
Proof.
  intros N Px. induction l as [|y l IH]; cbn [app List.find]; [by rewrite Px|]. cbn [existsb] in N. apply orb_false_iff in N as [-> N]. by apply IH.
Qed.

Lemma hex_encode_lacks d : lacks 0 (sb_hex_encode d).
Proof.
  unfold sb_hex_encode. induction d as [|c d IH]; [constructor|]. rewrite bind_cons. pose proof (code_range c).
  assert (D : forall v, 0 <= v < 16 -> code (hex_digit v) <> 0) by (intros v Hv; unfold hex_digit; case_if; rewrite code_chr; lia).
  repeat constructor; [apply D..|exact IH].
  - rewrite Z.shiftr_div_pow2 by lia. split; [apply Z.div_pos; lia|apply Z.div_lt_upper_bound; lia].
  - change 15 with (Z.ones 4). rewrite Z.land_ones by lia. apply Z.mod_pos_bound. lia.
Qed.

Lemma uuid_cstr b : cstr (sb_uuid_v4 b) = sb_uuid_v4 b.
Proof. apply cstr_lacks. unfold sb_uuid_v4. cbn [sb_join]. repeat apply Forall_app_2; try apply hex_encode_lacks; repeat constructor; done. Qed.

Definition created_row (peer : sb_wireguard_peer) (id time : bytes) : sb_wireguard_peer :=
  mk_peer id (wp_name peer) (cstr (wp_private peer)) (cstr (wp_public peer)) (cstr <$> wp_preshared peer) (cstr (wp_address peer))
    (cstr (wp_dns peer)) (wp_enabled peer) (wp_keepalive peer) (cstr (wp_allowed peer)) (cstr <$> wp_expire peer) (wp_quota peer) time time
    (wp_notes peer) (cstr <$> wp_host peer).

Lemma create_peer_spec peer s :
  wp (sb_store_create_wireguard_peer env peer)
     (fun p s' => exists id time, let row := created_row peer id time in
        db s' = with_peers (db s) (peers (db s) ++ [row]) /\ p = read_wireguard_peer row /\ forall q, q ∈ peers (db s) -> wp_id q <> id)
     no_care s.
Proof.
  unfold sb_store_create_wireguard_peer, refuse, new_uuid, sql_now. case_if; [by apply wp_pure|]. case_if; [by apply wp_pure|].
  match goal with |- wp (_ ≫= ?f) ?Q ?E s => assert (X : forall id k, cstr id = id -> wp (f id) Q E (mk_conn (db s) (mem s) k)) end.
  { intros id k Hid. apply wp_bind, wp_stmt; [done|]. cbv beta iota. cbn [db mem asked]. destruct (existsb _ (peers (db s))); [by apply wp_pure|].
    apply wp_bind, wp_bind, wp_ask, wp_ret. apply wp_bind, wp_stmt; [done|]. cbn [db mem asked].
    set (time := datetime env _). change (mk_peer id _ _ _ _ _ _ _ _ _ _ _ _ _ _ _) with (created_row peer id time).
    unfold insert_peer, sql_insert. destruct (existsb _ (peers (db s))) eqn:U; [done|]. cbn [mbind result_bind].
    pose proof (proj1 (existsb_none _ _) U) as N.
    unfold reload_peer, find_peer_locked, refuse. apply wp_bind, wp_query; [done|]. cbn [db mem asked].
    change (cstr (default [] (Some id))) with (cstr id). rewrite Hid. change (peers (with_peers (db s) ?l)) with l.
    assert (Nid : forall q, q ∈ peers (db s) -> wp_id q <> id).
    { intros q Hq Eid. specialize (N q Hq). apply orb_false_iff in N as [N _]. apply bytes_eqb_neq in N. by apply N. }
    rewrite find_app_fresh; [apply wp_ret; by exists id, time| |unfold peer_is; apply bytes_eqb_refl].
    apply existsb_none. intros q Hq. by apply bytes_eqb_neq, Nid. }
  destruct (sb_str_empty (wp_id peer)); apply wp_bind; [apply wp_ask, X, uuid_cstr|]. apply wp_ret. destruct s. apply X, cstr_idem.
Qed.

Lemma update_peer_spec peer s :
  wp (sb_store_update_wireguard_peer env peer)
     (fun p s' => exists time row, let l := fst (sql_update (peer_is (cstr (wp_id peer))) (updated_peer peer time) (peers (db s))) in
        db s' = with_peers (db s) l /\ List.find (peer_is (cstr (wp_id peer))) l = Some row /\ p = read_wireguard_peer row)
     no_care s.
Proof.
  unfold sb_store_update_wireguard_peer, refuse, sql_now. case_if; [by apply wp_pure|]. apply wp_bind, wp_bind, wp_ask, wp_ret.
  apply wp_bind, wp_stmt; [done|]. unfold sql_update. cbn [db mem asked fst]. case_if; [by apply wp_pure|]. unfold reload_peer, find_peer_locked, refuse.
  apply wp_bind, wp_query; [done|]. cbn [db mem asked]. change (cstr (default [] (Some (cstr (wp_id peer))))) with (cstr (cstr (wp_id peer))). rewrite cstr_idem.
  change (peers (with_peers (db s) ?l)) with l. set (time := datetime env _). destruct (List.find _ (map _ _)) as [row|] eqn:F; [|by apply wp_pure].
  apply wp_ret. by exists time, row.
Qed.

Lemma update_host_spec host s :
  wp (sb_store_update_host env host)
     (fun out s' => db s' = with_hosts (db s) (hosts (db s')) /\ ho_wg_address out = ho_wg_address host /\ ho_wg_public out = ho_wg_public host /\
        ho_clash_api out = ho_clash_api host)
     no_care s.
Proof.
  unfold sb_store_update_host, refuse, prepared, sql_now. case_if; [by apply wp_pure|]. apply wp_bind, wp_pure. destruct (host_tailscale_valid _ _); [|done].
  cbv zeta. apply wp_bind, wp_control; [done|]. apply wp_bind, wp_pure. destruct (dump_checked _) as [cap|]; [|done]. apply wp_bind, wp_pure.
  destruct (dump_checked _) as [ts|]; [|done]. apply wp_bind, wp_bind, wp_ask, wp_ret. apply wp_bind, wp_stmt; [done|]. cbn [db mem asked].
  destruct (existsb (host_is _) (hosts (db s))) eqn:X; cbn [negb]; [|by apply wp_pure]. destruct (profile_known _ _); cbn [negb]; [|done].
  destruct (required_text _) as [secret|]; [|done]. cbn [mbind result_bind]. unfold sql_update. cbn [db mem asked]. case_if; [by apply wp_pure|].
  unfold reload_host, find_host_locked, refuse. apply wp_bind, wp_query; [done|]. cbn [db mem asked].
  change (cstr (default [] (Some (cstr (ho_id host))))) with (cstr (cstr (ho_id host))). rewrite cstr_idem. unfold find_host_row.
  change (hosts (with_hosts (db s) ?l)) with l. destruct (List.find _ (map _ _)) as [row|] eqn:F; [|by apply wp_pure]. apply wp_ret. cbn [db].
  split; [by destruct (db s)|]. apply find_In in F as [F P]. apply In_map_update in F as (r & Hr & ->). destruct (host_is (cstr (ho_id host)) r) eqn:M; [done|by rewrite M in P].
Qed.
End Store.

(** ** The peer of a host *)

Lemma find_only {R} (f : R -> bool) l x : x ∈ l -> f x = true -> (forall y, y ∈ l -> f y = true -> y = x) -> List.find f l = Some x.
Proof.
  intros Hx Fx U. destruct (List.find f l) as [y|] eqn:E.
  - apply find_In in E as [Hy Fy]. f_equal. by apply U.
  - by rewrite (find_none_In _ _ _ E Hx) in Fx.
Qed.

(** Identifiers are C strings, and keys of the table. *)
Definition ids_ok (l : list sb_wireguard_peer) : Prop := NoDup (wp_id <$> l) /\ forall p, p ∈ l -> no_nul (wp_id p) = true.

Lemma listed_In t p : p ∈ listed t <-> exists r, r ∈ peers t /\ p = read_wireguard_peer r.
Proof.
  unfold listed. rewrite list_elem_of_fmap. split; intros (r & H1 & H2); exists r; rewrite ?order_by_In in *; by split.
Qed.

Lemma read_host_peer id r : is_host_peer id (read_wireguard_peer r) = is_host_peer id r.
Proof. done. Qed.

Lemma none_linked t id : find_host_peer (listed t) id = None -> forall r, r ∈ peers t -> is_host_peer id r = false.
Proof. intros N r Hr. rewrite <- read_host_peer. eapply find_none_In; [exact N|]. apply listed_In. by exists r. Qed.

(** The rows of two peers have the same keys and the same address. *)
Definition same_identity (p q : sb_wireguard_peer) : Prop :=
  wp_id p = wp_id q /\ wp_private p = wp_private q /\ wp_public p = wp_public q /\ wp_preshared p = wp_preshared q /\ wp_address p = wp_address q.

(** How a host comes to its peer [p]. *)
Inductive peer_source (host : sb_host) (t t' : store_tables) (p : sb_wireguard_peer) : Prop :=
  | AlreadyLinked : find_host_peer (listed t) (ho_id host) = Some p -> peers t' = peers t -> peer_source host t t' p
  | TakenOver row change :
      find_host_peer (listed t) (ho_id host) = None -> row ∈ peers t -> wp_host row = None -> wp_name row = ho_name host ->
      p = read_wireguard_peer (change row) -> same_identity p row -> is_host_peer (ho_id host) p = true ->
      peers t' = map (fun r => if peer_is (wp_id row) r then change r else r) (peers t) -> peer_source host t t' p
  | Fresh row :
      find_host_peer (listed t) (ho_id host) = None -> p = read_wireguard_peer row -> is_host_peer (ho_id host) p = true ->
      peers t' = peers t ++ [row] -> (forall q, q ∈ peers t -> peer_ip (wp_address q) <> peer_ip (wp_address p)) -> peer_source host t t' p.

(** Whichever way, it is the only peer of the host or the one it had. *)
Lemma source_found host t t' p : ids_ok (peers t) -> peer_source host t t' p -> find_host_peer (listed t') (ho_id host) = Some p.
Proof.
  intros [U _] [F E|row change N Hr Hh Hn -> I L E|row N -> L E _].
  - unfold listed in *. by rewrite E.
  - apply find_only; [|done|].
    + apply listed_In. exists (change row). split; [|done]. rewrite E. apply In_map_update. exists row. split; [done|]. unfold peer_is. by rewrite bytes_eqb_refl.
    + intros y Hy Fy. apply listed_In in Hy as (r & Hr' & ->). rewrite E in Hr'. apply In_map_update in Hr' as (r0 & H0 & ->).
      destruct (peer_is (wp_id row) r0) eqn:P.
      * apply bytes_eqb_eq in P. by rewrite (NoDup_fmap_inj_on wp_id (peers t) r0 row U H0 Hr P).
      * rewrite read_host_peer, (none_linked t (ho_id host) N r0 H0) in Fy. done.
  - apply find_only; [|done|].
    + apply listed_In. exists row. split; [|done]. rewrite E. apply elem_of_app. right. by left.
    + intros y Hy Fy. apply listed_In in Hy as (r & Hr' & ->). rewrite E in Hr'. apply elem_of_app in Hr' as [H0|H0%list_elem_of_singleton]; [|by subst r].
      rewrite read_host_peer, (none_linked t (ho_id host) N r H0) in Fy. done.
Qed.

Lemma host_ip_spec server k :
  octet_ok k = true ->
  peer_ip (cstr (peer_ip (client_address (address_base server) k) ++ bs "/32")) = peer_ip (client_address (address_base server) k).
Proof.
  intros Ok. pose proof (octet_text k Ok) as (_ & L47 & L0 & _). destruct (address_base_lacks server) as [B47 B0].
  unfold peer_ip at 2 3. rewrite (client_address_cstr server k Ok), client_ip by done. set (ip := address_base server ++ bs "." ++ fmt_uint k).
  assert (I0 : lacks 0 ip) by (apply Forall_app; split; [done|]; apply Forall_app; split; [repeat constructor; done|done]).
  assert (I47 : lacks 47 ip) by (apply Forall_app; split; [done|]; apply Forall_app; split; [repeat constructor; done|done]).
  unfold peer_ip. rewrite cstr_idem, cstr_lacks by (apply Forall_app; split; [done|repeat constructor; done]).
  rewrite before_char_app by done. cbn. by rewrite app_nil_r.
Qed.

Section Hub.
Context {K : Type} (env : hub_env K) (wg : sb_wireguard_options).

Lemma is_host_peer_linked host p : wp_host p = Some (cstr (cstr (ho_id host))) -> is_host_peer (ho_id host) p = true.
Proof. intros E. unfold is_host_peer. rewrite E, !cstr_idem. apply bytes_eqb_refl. Qed.

Lemma host_peer_spec host s :
  ids_ok (peers (db s)) -> wp (host_peer env wg host) (fun p s' => peer_source host (db s) (db s') p) no_care s.
Proof.
  intros [U Nn]. unfold host_peer. apply wp_bind, wp_list_peers; [done|]. destruct (find_host_peer (listed (db s)) (ho_id host)) as [p|] eqn:F.
  { apply wp_ret. by apply AlreadyLinked. }
  apply wp_bind. eapply wp_mono; [apply runtime_options_spec| |done]. cbn beta. cbn [db mem]. intros o s1 (D1 & M1 & _).
  destruct (List.find (is_unlinked (ho_name host)) (listed (db s))) as [q|] eqn:L.
  - apply find_In in L as [Hq Lq]. apply listed_In in Hq as (row & Hr & ->). apply wp_on_store. eapply wp_mono; [apply update_peer_spec| |done].
    cbn beta. cbn [db]. intros p s2 (time & row' & Hd & Fr & ->). cbn [wp_id linked_peer read_wireguard_peer] in *. rewrite D1 in *.
    pose proof (Nn row Hr) as Ni. apply cstr_no_nul in Ni. rewrite Ni in *.
    assert (Er : row' = updated_peer (linked_peer host o (read_wireguard_peer row)) time row).
    { apply find_In in Fr as [Fi Fp]. apply In_map_update in Fi as (r0 & H0 & ->). destruct (peer_is (wp_id row) r0) eqn:P; [|by rewrite P in Fp].
      apply bytes_eqb_eq in P. by rewrite (NoDup_fmap_inj_on wp_id (peers (db s)) r0 row U H0 Hr P). }
    unfold is_unlinked in Lq. cbn [wp_host wp_name read_wireguard_peer] in Lq. destruct (wp_host row) eqn:Hh; [done|]. apply bytes_eqb_eq in Lq.
    eapply (TakenOver host _ _ _ row (updated_peer (linked_peer host o (read_wireguard_peer row)) time)); try done.
    + by rewrite Er.
    + by rewrite Er.
    + by apply is_host_peer_linked; rewrite Er.
    + by rewrite Hd.
  - unfold random_key. apply wp_bind, wp_ask. apply wp_bind, wp_pure. destruct (sb_wireguard_generate_keypair _ _) as [keys|]; [|done].
    apply wp_bind, wp_on_store. eapply wp_mono; [apply next_address_spec| |done]. cbn beta. cbn [db]. intros a s2 (D2 & k & Ok & -> & _ & Free).
    apply wp_bind, wp_ask. apply wp_bind, wp_pure. destruct (sb_wireguard_generate_preshared_key _ _) as [preshared|]; [|done].
    apply wp_on_store. eapply wp_mono; [apply create_peer_spec| |done]. cbn beta. cbn [db]. intros p s3 (id & time & Hd & -> & _). cbn [db] in Hd. rewrite D2, D1 in *.
    eapply (Fresh host _ _ _ _ F eq_refl); [by apply is_host_peer_linked|by rewrite Hd|]. intros q Hq. cbn [wp_address read_wireguard_peer created_row new_host_peer].
    rewrite host_ip_spec by done. by apply Free.
Qed.

Lemma remove_peer_db public_key : forall s, db (snd (sb_wireguard_remove_peer env wg public_key s)) = db s.
Proof.
  assert (W : within (fun x y => fst y = fst x) (sb_wireguard_remove_peer env wg public_key)).
  { assert (PreOrder (fun x y : store_tables * system K => fst y = fst x)) by (split; [done|]; intros x y z H1 H2; congruence).
    unfold sb_wireguard_remove_peer, sb_wireguard_runtime_options, run, run_command, fail, sys_spawn. withins. intros s. unfold on_memory. by destruct (execute _ _ _ _). }
  intros s. exact (W s).
Qed.

Lemma deprovision_spec id s p :
  find_host_peer (listed (db s)) (default [] id) = Some p ->
  wp (sb_wireguard_deprovision_host env wg id)
     (fun _ s' => peers (db s') = List.filter (fun q => negb (peer_is (cstr (wp_id p)) q)) (peers (db s))) no_care s.
Proof.
  intros F. unfold sb_wireguard_deprovision_host. apply wp_bind, wp_list_peers; [done|]. rewrite F. apply wp_bind.
  pose proof (remove_peer_db (wp_public p) (mk_conn (db s) (mem s) (S (asked s)))) as D. unfold wp at 1.
  destruct (sb_wireguard_remove_peer _ _ _ _) as [[a|e] s2]; [|done]. cbn [snd db] in D. apply wp_on_store.
  unfold sb_store_delete_wireguard_peer, exec_changes, refuse. apply wp_bind, wp_stmt; [done|]. cbn [db]. rewrite D. cbn [default from_option]. case_if; [by apply wp_pure|by apply wp_ret].
Qed.
End Hub.

(** A managed host has one peer, and keeps it.  After provisioning, the host has
    the address and the public key of its peer: the peer it had already; an unlinked
    peer of its name, which keeps its keys and its address; or a new one, with an IP
    address that no other peer has.  No other peer changes.  Provisioning again finds
    this peer and changes nothing; removing the host from the network removes
    it and no other peer. *)
Theorem host_keeps_its_peer {K} (env : hub_env K) wg host clash s out s' :
  ids_ok (peers (db s)) -> sb_wireguard_provision_host env wg host clash s = (Ok out, s') ->
  exists p,
    peer_source host (db s) (db s') p /\ ho_wg_address out = Some (cstr (wp_address p)) /\ ho_wg_public out = Some (cstr (wp_public p)) /\
    (forall m n, wp (host_peer env wg host) (fun p' s'' => p' = p /\ db s'' = db s') (fun e _ => err_code e = SB_ERR_GENERIC) (mk_conn (db s') m n)) /\
    (forall s'', sb_wireguard_deprovision_host env wg (Some (ho_id host)) s' = (Ok tt, s'') ->
       peers (db s'') = List.filter (fun q => negb (peer_is (cstr (wp_id p)) q)) (peers (db s'))).
Proof.
  intros I E. assert (W : wp (sb_wireguard_provision_host env wg host clash)
    (fun out s' => exists p, peer_source host (db s) (db s') p /\ ho_wg_address out = Some (cstr (wp_address p)) /\ ho_wg_public out = Some (cstr (wp_public p))) no_care s).
  { unfold sb_wireguard_provision_host. apply wp_bind. eapply wp_mono; [by apply host_peer_spec| |done]. cbn beta. intros p s1 P. apply wp_on_store.
    eapply wp_mono; [apply update_host_spec| |done]. cbn beta. cbn [db]. intros h s2 (D & A & B & _). exists p. split; [|done].
    destruct P as [F P|row change N Hr Hh Hn Ep Si L P|row N Ep L P Fr]; [apply AlreadyLinked|eapply TakenOver|eapply Fresh]; try done; by rewrite D. }
  unfold wp in W. rewrite E in W. destruct W as (p & P & A & B). exists p. split; [exact P|]. split; [exact A|]. split; [exact B|].
  pose proof (source_found host _ _ p I P) as F. split.
  - intros m n. unfold host_peer. apply wp_bind, wp_list_peers; [done|]. cbn [db mem asked]. rewrite F. by apply wp_ret.
  - intros s'' Ed. pose proof (deprovision_spec env wg (Some (ho_id host)) s' p F) as G. unfold wp in G. by rewrite Ed in G.
Qed.

(** A host that takes over a peer of its name. *)
Definition demo_device : sb_host :=
  mk_host (bs "phone") (bs "Phone") (bs "token") (Some (SBJ_OBJECT [])) (Some (SBJ_OBJECT [])) None None None None None (Some []) None None true [] [] 0.

Lemma demo_ids : ids_ok (peers (db demo_running)).
Proof.
  split.
  - assert (H : bool_decide (NoDup (wp_id <$> peers (db demo_running))) = true) by (vm_compute; reflexivity). by apply bool_decide_eq_true in H.
  - assert (H : forallb (fun p => no_nul (wp_id p)) (peers (db demo_running)) = true) by (vm_compute; reflexivity).
    rewrite forallb_forall in H. intros p Hp. exact (H p (proj1 (list_elem_of_In _ _) Hp)).
Qed.

Lemma host_keeps_its_peer_witness :
  exists out s' p, sb_wireguard_provision_host demo_hub demo_options demo_device true demo_running = (Ok out, s') /\
    peer_source demo_device (db demo_running) (db s') p /\ ho_wg_address out = Some (cstr (wp_address p)) /\ ho_wg_address out = Some (bs "10.59.32.4/24").
Proof.
  assert (R : match sb_wireguard_provision_host demo_hub demo_options demo_device true demo_running with
              | (Ok out, _) => bool_decide (ho_wg_address out = Some (bs "10.59.32.4/24")) | (Err _, _) => false end = true) by (vm_compute; reflexivity).
  destruct (sb_wireguard_provision_host demo_hub demo_options demo_device true demo_running) as [[out|e] s'] eqn:E; [|discriminate R].
  destruct (host_keeps_its_peer demo_hub demo_options demo_device true demo_running out s' demo_ids E) as (p & P & A & _).
  exists out, s', p. split; [reflexivity|]. split; [exact P|]. split; [exact A|]. apply bool_decide_eq_true in R. exact R.
Defined.
