(* ===== verification/StoreNodesProofs.v ===== *)
(** * Importing and refreshing nodes

    The name an imported node is shown with, what importing one node does to the
    table, and what a refresh of a subscription leaves.  The last part is on backups:
    what was exported is restored. *)

From Stdlib Require Import SpecFloat.
From S2P Require Import Prelude Util Json JsonText JsonRound Types RendererProofs Sqlite SqliteProofs Auth Tailscale StoreTables StoreAccounts StoreHosts StoreNodes StoreBackup StoreCalls JsonSafe.

(** ** Names *)

Lemma display_candidate_inj tag a b : display_candidate tag a = display_candidate tag b -> a = b.
Proof.
  assert (N : forall n, display_candidate tag (S n) <> tag).
  { intros n E. apply (f_equal length) in E. unfold display_candidate in E. rewrite length_app in E. cbn [bs String.list_ascii_of_string app length] in E. lia. }
  destruct a as [|a], b as [|b]; [done|intros E; by destruct (N b)|intros E; by destruct (N a)|].
  unfold display_candidate. intros E%app_inv_head%app_inv_head%app_inv_tail. apply fmt_uint_inj in E; lia.
Qed.

(** Among the first [length l + 1] names one is not taken by any of [l]. *)
Lemma free_candidate (l : list node_row) tag id :
  exists j, (j <= length l)%nat /\ existsb (tag_taken id (display_candidate tag j)) l = false.
Proof.
  destruct (existsb (fun j => negb (existsb (tag_taken id (display_candidate tag j)) l)) (seq 0 (S (length l)))) eqn:E.
  - apply existsb_In in E as (j & Hj%elem_of_seq & E%negb_true_iff). exists j. split; [lia|done].
  - exfalso. assert (L : (length (map (display_candidate tag) (seq 0 (S (length l)))) <= length (nr_tag <$> l))%nat).
    { apply submseteq_length, NoDup_submseteq.
      - apply NoDup_fmap_2_strong; [|apply NoDup_seq]. intros x y _ _. apply display_candidate_inj.
      - intros c (j & -> & Hj)%list_elem_of_fmap. apply (proj1 (existsb_none _ _) E) in Hj. apply negb_false_iff in Hj.
        apply existsb_In in Hj as (r & Hr & T). apply andb_true_iff in T as [T%bytes_eqb_eq _]. apply list_elem_of_fmap. by exists r. }
    rewrite length_map, length_seq, length_fmap in L. lia.
Qed.

Lemma display_loop_spec env tag id fuel n s :
  (exists j, (n <= j < n + fuel)%nat /\ existsb (tag_taken id (display_candidate tag j)) (nodes (db s)) = false) ->
  match display_loop env fuel tag id n s with
  | (Ok d, s') => db s' = db s /\ exists j, d = display_candidate tag j /\ existsb (tag_taken id d) (nodes (db s)) = false /\
      forall i, (n <= i < j)%nat -> existsb (tag_taken id (display_candidate tag i)) (nodes (db s)) = true
  | (Err e, s') => db s' = db s /\ exists k m, fault env k = Some m /\ Err e = (sbq_fail m : result bytes)
  end.
Proof.
  revert n s. induction fuel as [|fuel IH]; intros n s (j & Hj & F); [lia|]. cbn [display_loop].
  unfold mbind, sql_bind, query, stmt. destruct (fault env (asked s)) as [m|] eqn:Ef; [by split; [|exists (asked s), m]|]. cbv beta iota zeta.
  destruct (existsb (tag_taken id (display_candidate tag n)) (nodes (db s))) eqn:T; [|split; [done|]; exists n; split_and!; [done|done|lia]].
  assert (n <> j) by (intros ->; by rewrite T in F).
  specialize (IH (S n) (mk_conn (db s) (mem s) (S (asked s)))). cbn [db] in IH.
  destruct (display_loop env fuel tag id (S n) _) as [[d|e] s']; destruct IH as [Hs IH]; try (exists j; split; [lia|done]).
  - split; [done|]. destruct IH as (i & Hd & Hf & Least). exists i. split_and!; [done|done|]. intros x Hx. destruct (decide (x = n)) as [->|]; [done|].
    apply Least. lia.
  - by split.
Qed.

(** The search for a name ends.  The loop that looks for a name to show an imported
    node with has no bound in the code; it ends after at most one round more than
    there are nodes, unless a query fails, with the first of [tag], [tag [2]],
    [tag [3]], ... that no other node has. *)
Theorem display_name_found env tag id s :
  match import_display_tag env tag id s with
  | (Ok d, s') => db s' = db s /\ exists j, (j <= length (nodes (db s)))%nat /\ d = display_candidate tag j /\
      (forall r, r ∈ nodes (db s) -> nr_tag r = d -> id = Some (nr_id r)) /\
      forall i, (i < j)%nat -> exists r, r ∈ nodes (db s) /\ nr_tag r = display_candidate tag i
  | (Err e, s') => db s' = db s /\ exists k m, fault env k = Some m /\ Err e = (sbq_fail m : result bytes)
  end.
Proof.
  destruct (free_candidate (nodes (db s)) tag id) as (f & Hf & Free).
  pose proof (display_loop_spec env tag id (S (length (nodes (db s)))) 0 s ltac:(exists f; split; [lia|done])) as H.
  unfold import_display_tag. destruct (display_loop _ _ _ _ _ s) as [[d|e] s']; [|done]. destruct H as (Hs & j & -> & T & Least).
  split; [done|]. exists j. split_and!; [|done|..].
  - destruct (decide (j <= f)%nat); [lia|]. by rewrite Least in Free by lia.
  - intros r Hr E. apply (proj1 (existsb_none _ _) T) in Hr. unfold tag_taken in Hr. rewrite (proj2 (bytes_eqb_eq _ _) E) in Hr. cbn [andb] in Hr.
    destruct id as [i|]; [|done]. apply negb_false_iff, bytes_eqb_eq in Hr. by rewrite Hr.
  - intros i Hi. specialize (Least i ltac:(lia)). apply existsb_In in Least as (r & Hr & T'). apply andb_true_iff in T' as [T'%bytes_eqb_eq _]. by exists r.
Qed.

Lemma display_tag_spec env tag id s :
  wp (import_display_tag env tag id) (fun d s' => db s' = db s /\ exists j, d = display_candidate tag j) (fun _ s' => db s' = db s) s.
Proof.
  destruct (free_candidate (nodes (db s)) tag id) as (f & Hf & Free).
  pose proof (display_loop_spec env tag id (S (length (nodes (db s)))) 0 s ltac:(exists f; split; [lia|done])) as H.
  unfold wp, import_display_tag. destruct (display_loop _ _ _ _ _ s) as [[d|e] s']; [|by destruct H]. destruct H as (Hs & j & Hd & _). eauto.
Qed.

(** ** Importing one node *)

Section ImportNodes.
Context (env : store_env).

Definition node_print (n : sb_parsed_node) : result bytes :=
  fingerprint_of env (pn_node_type n) (pn_server n) (pn_server_port n) (Some (pn_protocol_config n)).

(** The row that was written for the node, as far as the node determines it. *)
Definition holds (sid : option bytes) (n : sb_parsed_node) (r : node_row) : Prop :=
  nr_sub r = cstr <$> sid /\ nr_type r = pn_node_type n /\ nr_server r = pn_server n /\ nr_port r = pn_server_port n /\
  dump_checked (Some (pn_protocol_config n)) = Ok (nr_config r) /\
  (exists legacy, node_print n = Ok legacy /\ nr_fingerprint r = scoped_fingerprint env sid legacy) /\
  nr_source r = match sid with Some _ => Some (pn_tag n) | None => None end.

(** The name of the new row: one for the node, or the one a user gave. *)
Definition renamed (sid : option bytes) (n : sb_parsed_node) (old r : node_row) : Prop :=
  (exists j, nr_tag r = display_candidate (pn_tag n) j) \/
  (nr_tag r = nr_tag old /\ exists source, sid <> None /\ nr_source old = Some source /\ nr_tag old <> source).

Lemma upsert_one_spec n sid s :
  wp (upsert_one env n sid)
     (fun added s' => exists legacy l', node_print n = Ok legacy /\ db s' = with_nodes (db s) l' /\
        let existing := find_existing (pn_tag n) (scoped_fingerprint env sid legacy) legacy (cstr <$> sid) (db s) in
        match existing with
        | Some id => added = false /\ exists f, l' = map (fun r => if node_is id r then f r else r) (nodes (db s)) /\
                       forall r, nr_id (f r) = nr_id r /\ holds sid n (f r) /\ renamed sid n r (f r)
        | None => added = true /\ exists r j, l' = nodes (db s) ++ [r] /\ holds sid n r /\ nr_tag r = display_candidate (pn_tag n) j /\
                    ~ nr_id r ∈ nr_id <$> nodes (db s)
        end)
     no_care s.
Proof.
  unfold upsert_one, prepared, sql_now, new_uuid. apply wp_bind, wp_pure. destruct (validate_proxy _ _ _ _ _); [|done].
  apply wp_bind, wp_pure. fold (node_print n). destruct (node_print n) as [legacy|] eqn:Ep; [|done]. cbv zeta.
  apply wp_bind, wp_stmt; [done|]. cbv beta iota. apply wp_bind. eapply wp_mono; [apply display_tag_spec|..]; [|done]. cbn [db].
  intros d s1 (Hs & j & ->). set (existing := find_existing _ _ _ _ _). apply wp_bind, wp_stmt; [done|]. cbv beta iota. rewrite Hs.
  destruct existing as [id|] eqn:Ex; repeat wp_step; cbn [db mem asked]; try done;
    (destruct (dump_checked _) as [config|] eqn:Ed; [|done]); repeat wp_step; cbn [db mem asked]; try done.
  - unfold update_node. destruct (existsb _ _); [done|]. unfold sql_update. cbv beta iota. repeat wp_step; cbn [db mem asked]; try done.
    exists legacy. eexists. split; [done|]. split; [reflexivity|]. fold existing. rewrite Ex. split; [done|]. eexists. split; [reflexivity|].
    intros r. split; [done|]. split; [split_and!; try done; [by exists legacy|by destruct sid]|]. unfold renamed, imported_node, kept_tag. cbn [nr_tag].
    destruct sid as [sid|]; [|by left; exists j]. cbn [fmap option_fmap option_map]. destruct (nr_source r) as [source|]; [|by left; exists j].
    destruct (bytes_eqb (nr_tag r) source) eqn:Et; [by left; exists j|]. right. split; [done|]. exists source. by apply bytes_eqb_neq in Et.
  - unfold insert_node, sql_insert. destruct (existsb _ _) eqn:X; [done|]. cbn [mbind result_bind]. repeat wp_step; cbn [db mem asked]; try done.
    exists legacy. eexists. split; [done|]. split; [reflexivity|]. fold existing. rewrite Ex. split; [done|]. eexists _, j. split; [reflexivity|].
    split; [split_and!; try done; [by exists legacy|by destruct sid]|]. split; [done|]. cbn [nr_id].
    intros (x & Ei & Hx)%list_elem_of_fmap. apply (proj1 (existsb_none _ _) X) in Hx. apply orb_false_iff in Hx as [Hx _].
    unfold node_is in Hx. cbn [nr_id] in Hx. apply bytes_eqb_neq in Hx. done.
Qed.
End ImportNodes.

(** Rows that a filter drops before and after a change do not matter to it. *)
Lemma filter_map_own {R} (p m : R -> bool) (f : R -> R) l :
  (forall r, r ∈ l -> m r = true -> p r = true /\ p (f r) = true) ->
  List.filter (fun r => negb (p r)) (map (fun r => if m r then f r else r) l) = List.filter (fun r => negb (p r)) l.
Proof.
  induction l as [|x l IH]; intros H; cbn [map List.filter]; [done|]. rewrite IH by (intros r Hr; apply H; by right).
  destruct (m x) eqn:M; [|done]. destruct (H x ltac:(left) M) as [-> ->]. done.
Qed.

(** ** Refreshing a subscription *)

Section Refresh.
Context (env : store_env) (sub : bytes) (fetched : list sb_parsed_node).

Definition own (r : node_row) : bool := sub_is (Some (cstr sub)) r.

(** Two nodes that are not taken for each other: neither has a name that the other
    may be shown with, and they have other fingerprints. *)
Definition apart (a b : sb_parsed_node) : Prop :=
  (forall k, pn_tag a <> display_candidate (pn_tag b) k) /\
  forall p q, node_print env a = Ok p -> node_print env b = Ok q ->
    scoped_fingerprint env (Some sub) p <> scoped_fingerprint env (Some sub) q /\ p <> scoped_fingerprint env (Some sub) q.

(** No node of the subscription was renamed by hand to the name of a fetched one. *)
Definition named (r : node_row) : Prop :=
  own r = true -> forall n source, n ∈ fetched -> nr_source r = Some source -> nr_tag r = pn_tag n -> source = pn_tag n.

Record refreshed (t0 : store_tables) (written : list sb_parsed_node) (added : Z) (t : store_tables) : Prop := {
  rf_tables : t = with_nodes t0 (nodes t);
  rf_ids : NoDup (nr_id <$> nodes t);
  rf_named : Forall named (nodes t);
  rf_others : List.filter (fun r => negb (own r)) (nodes t) = List.filter (fun r => negb (own r)) (nodes t0);
  rf_count : Z.of_nat (length (nodes t)) = Z.of_nat (length (nodes t0)) + added;
  rf_written : forall n, n ∈ written -> exists r, r ∈ nodes t /\ holds env (Some sub) n r }.

Context (Apart : forall a b, a ∈ fetched -> b ∈ fetched -> a = b \/ apart a b).

Lemma holds_own n r : holds env (Some sub) n r -> own r = true.
Proof. intros (E & _). unfold own, sub_is. rewrite E. apply bytes_eqb_refl. Qed.

(** The new row of a node is named well. *)
Lemma renamed_named n old r :
  n ∈ fetched -> named old -> own old = true -> holds env (Some sub) n r -> renamed (Some sub) n old r -> named r.
Proof.
  intros Hn No Oo H R _ m source Hm Es Et. destruct H as (_ & _ & _ & _ & _ & _ & Hs). rewrite Hs in Es. injection Es as <-.
  destruct R as [[j Ej]|(Ek & s & _ & Eo & Ne)].
  - destruct (Apart m n Hm Hn) as [->|[A _]]; [done|]. destruct (A j). congruence.
  - destruct Ne. rewrite (No Oo m s Hm Eo) by congruence. congruence.
Qed.

(** The row a node takes over is one of the subscription, and not the row of another
    fetched node. *)
Lemma existing_row n p t id :
  find_existing (pn_tag n) (scoped_fingerprint env (Some sub) p) p (Some (cstr sub)) t = Some id ->
  exists r, r ∈ nodes t /\ nr_id r = id /\ own r = true /\
    (nr_fingerprint r = scoped_fingerprint env (Some sub) p \/ nr_fingerprint r = p \/ nr_tag r = pn_tag n \/ nr_source r = Some (pn_tag n)).
Proof.
  unfold find_existing. destruct (List.find (same_fingerprint _ _ _) _) as [r|] eqn:F.
  - intros [= <-]. apply find_In in F as [Hr F]. apply andb_true_iff in F as [F O]. exists r. split_and!; [done..|].
    apply orb_true_iff in F as [F|F]; apply bytes_eqb_eq in F; auto.
  - destruct (List.find (same_name _ _ _) _) as [r|] eqn:G; [|done]. intros [= <-]. apply find_In in G as [Hr G].
    apply andb_true_iff in G as [[G _]%andb_true_iff O]. exists r. split_and!; [done..|].
    apply orb_true_iff in G as [G|G]; [apply bytes_eqb_eq in G; auto|]. destruct (nr_source r) as [x|]; [|done]. apply bytes_eqb_eq in G as ->. auto.
Qed.

Lemma not_taken_over n m p r :
  n ∈ fetched -> apart n m -> node_print env n = Ok p -> named r -> holds env (Some sub) m r ->
  ~ (nr_fingerprint r = scoped_fingerprint env (Some sub) p \/ nr_fingerprint r = p \/ nr_tag r = pn_tag n \/ nr_source r = Some (pn_tag n)).
Proof.
  intros Hn [A F] Ep N H. pose proof (holds_own m r H) as O. destruct H as (_ & _ & _ & _ & _ & (q & Eq & Er) & Es).
  destruct (F p q Ep Eq) as [F1 F2]. rewrite Er, Es. intros [E|[E|[E|E]]]; [congruence..| |].
  - apply (A 0%nat). cbn [display_candidate]. symmetry. by apply (N O n (pn_tag m)).
  - apply (A 0%nat). cbn [display_candidate]. congruence.
Qed.

Lemma refreshed_step t0 written added n s :
  refreshed t0 written added (db s) -> n ∈ fetched -> (forall m, m ∈ written -> apart n m) ->
  wp (upsert_one env n (Some sub)) (fun a s' => refreshed t0 (written ++ [n]) (added + if a : bool then 1 else 0) (db s')) no_care s.
Proof.
  intros [Ht Hi Hn Ho Hc Hw] Nf Na. eapply wp_mono; [apply upsert_one_spec|..]; [|done].
  intros a s' (p & l' & Ep & -> & E). cbv zeta in E. change (cstr <$> Some sub) with (Some (cstr sub)) in E.
  destruct (find_existing _ _ _ _ _) as [id|] eqn:Ex.
  - destruct E as (-> & f & -> & Hf). apply existing_row in Ex as (r0 & H0 & <- & O0 & Why).
    assert (U : forall r, r ∈ nodes (db s) -> node_is (nr_id r0) r = true -> r = r0).
    { intros r Hr E%bytes_eqb_eq. by apply (NoDup_fmap_inj_on nr_id (nodes (db s))). }
    destruct (Hf r0) as (F1 & F2 & F3). rewrite Forall_forall in Hn.
    split; cbn [nodes with_nodes].
    + rewrite Ht at 1. done.
    + rewrite (map_update_keys nr_id); [done|]. intros r. apply Hf.
    + apply Forall_forall. intros x (y & Hy & ->)%In_map_update. destruct (node_is _ y) eqn:Ey; [|by apply Hn].
      rewrite (U y Hy Ey). by apply (renamed_named n r0); [|apply Hn| | |].
    + rewrite filter_map_own; [done|]. intros r Hr Er. rewrite (U r Hr Er), O0. by rewrite (holds_own n).
    + rewrite length_map. lia.
    + intros m [Hm| ->%list_elem_of_singleton]%elem_of_app.
      * destruct (Hw m Hm) as (r & Hr & Hh). exists r. split; [|done]. apply In_map_update. exists r. split; [done|].
        destruct (node_is (nr_id r0) r) eqn:Er; [|done]. rewrite (U r Hr Er) in Hh. by destruct (not_taken_over n m p r0 Nf (Na m Hm) Ep (Hn r0 H0) Hh).
      * exists (f r0). split; [|done]. apply In_map_update. exists r0. split; [done|]. unfold node_is. by rewrite bytes_eqb_refl.
  - destruct E as (-> & r & j & -> & Hh & Et & Ni). split; cbn [nodes with_nodes].
    + rewrite Ht at 1. done.
    + rewrite fmap_app. apply NoDup_app. split; [done|]. split; [|apply NoDup_singleton]. by intros x Hx ->%list_elem_of_singleton.
    + apply Forall_app. split; [done|]. apply Forall_singleton. intros O m source Hm Es Em.
      destruct Hh as (_ & _ & _ & _ & _ & _ & Hs). rewrite Hs in Es. injection Es as <-. destruct (Apart m n Hm Nf) as [->|[A _]]; [done|].
      destruct (A j). congruence.
    + rewrite filter_app. cbn [List.filter]. by rewrite (holds_own n r Hh), app_nil_r.
    + rewrite length_app. cbn [length]. lia.
    + intros m [Hm| ->%list_elem_of_singleton]%elem_of_app.
      * destruct (Hw m Hm) as (x & Hx & Hy). exists x. split; [|done]. apply elem_of_app. by left.
      * exists r. split; [|done]. apply elem_of_app. right. by apply list_elem_of_singleton.
Qed.

Lemma apply_nodes_refreshed t0 l : forall written u s,
  refreshed t0 written (up_added u) (db s) -> up_added u + up_updated u = Z.of_nat (length written) ->
  NoDup (written ++ l) -> (forall n, n ∈ written ++ l -> n ∈ fetched) ->
  wp (apply_nodes env l sub u)
     (fun v s' => refreshed t0 (written ++ l) (up_added v) (db s') /\ up_added v + up_updated v = Z.of_nat (length (written ++ l))) no_care s.
Proof.
  induction l as [|n l IH]; intros written u s R Cu Nd In.
  - apply wp_ret. by rewrite app_nil_r.
  - cbn [apply_nodes]. apply wp_bind. assert (Hn : n ∈ fetched) by (apply In, elem_of_app; right; left).
    eapply wp_mono; [apply (refreshed_step t0 written (up_added u) n s R Hn)|..]; [|intros a s1 R1|done].
    + intros m Hm. destruct (Apart n m Hn) as [->|A]; [apply In, elem_of_app; by left| |done].
      apply NoDup_app in Nd as (_ & Nd & _). destruct (Nd m Hm). left.
    + replace (written ++ n :: l) with ((written ++ [n]) ++ l) in * by (by rewrite <- app_assoc).
      apply IH; [|destruct a; cbn [counted up_added up_updated]; rewrite length_app; cbn [length]; lia|done..].
      destruct a; cbn [counted up_added]; [done|]. by rewrite Z.add_0_r in R1.
Qed.
End Refresh.

(** C13: a refresh stores what was fetched and nothing else.  When the answer for a
    subscription is applied, the source has still the URL and the switch it had when
    it was asked; every fetched node has a row of the subscription with its
    protocol, server, port, settings and fingerprint; the rows of other subscriptions
    and those added by hand are as they were; the counts reported are those of the
    rows, and the subscription has no failures and its next refresh is due.  This
    holds for nodes that the code does not take for each other: row ids are distinct,
    the fetched nodes have other fingerprints and none has the name of another or
    that name with a number added, like [X] and [X [2]], and no row of the
    subscription was renamed by hand to the name of another fetched node. *)
Theorem refresh_stores_all env expected l report time s r s' :
  NoDup (nr_id <$> nodes (db s)) -> NoDup l ->
  (forall a b, a ∈ l -> b ∈ l -> a = b \/ apart env (sb_id expected) a b) ->
  Forall (named (sb_id expected) l) (nodes (db s)) ->
  sb_store_apply_subscription_fetch env expected l report time s = (Ok r, s') ->
  (forall n, n ∈ l -> exists row, row ∈ nodes (db s') /\ holds env (Some (sb_id expected)) n row) /\
  List.filter (fun x => negb (own (sb_id expected) x)) (nodes (db s')) = List.filter (fun x => negb (own (sb_id expected) x)) (nodes (db s)) /\
  fe_found r = Z.of_nat (length l) /\ fe_added r + fe_updated r = fe_found r /\
  Z.of_nat (length (nodes (db s'))) = Z.of_nat (length (nodes (db s))) + fe_added r /\
  exists current metadata usage,
    List.find (sub_row_is (cstr (sb_id expected))) (subs (db s)) = Some current /\
    sr_url current = sb_url expected /\ sr_enabled current = sb_enabled expected /\
    subs (db s') = map (fun x => if sub_row_is (cstr (sb_id expected)) x
                                 then applied_fetch (datetime env time) metadata usage (next_refresh time (sr_interval current)) x else x) (subs (db s)).
Proof.
  intros Ni Nl A Nm E.
  assert (W : wp (sb_store_apply_subscription_fetch env expected l report time) (fun r s' =>
    (exists t', refreshed env (sb_id expected) l (db s) l (fe_added r) t' /\ nodes (db s') = nodes t') /\
    fe_found r = Z.of_nat (length l) /\ fe_added r + fe_updated r = fe_found r /\
    exists current metadata usage, List.find (sub_row_is (cstr (sb_id expected))) (subs (db s)) = Some current /\
    sr_url current = sb_url expected /\ sr_enabled current = sb_enabled expected /\
    subs (db s') = map (fun x => if sub_row_is (cstr (sb_id expected)) x
      then applied_fetch (datetime env time) metadata usage (next_refresh time (sr_interval current)) x else x) (subs (db s))) no_care s).
  2: { unfold wp in W. rewrite E in W. destruct W as ((t' & [Ht Hi Hn Ho Hc Hw] & En) & F & C & S). rewrite En. done. }
  unfold sb_store_apply_subscription_fetch, subscription_unchanged, find_subscription_locked, refuse, prepared.
  apply wp_transaction; [done|]. apply wp_bind, wp_bind, wp_stmt; [done|]. change (cstr (default [] (Some (sb_id expected)))) with (cstr (sb_id expected)).
  destruct (List.find (sub_row_is (cstr (sb_id expected))) (subs (db s))) as [cur|] eqn:F; cbv beta iota; cbn [db]; rewrite F; [|by apply wp_pure].
  change (read_subscription <$> Some cur) with (Some (read_subscription cur)). cbv beta iota. cbn [read_subscription sb_url sb_enabled sb_interval].
  destruct (negb _ || negb _) eqn:U; [by apply wp_pure|]. apply orb_false_iff in U as [U1%negb_false_iff%bytes_eqb_eq U2%negb_false_iff%Bool.eqb_prop].
  apply wp_ret, wp_bind. eapply wp_mono; [apply (apply_nodes_refreshed env (sb_id expected) l A (db s) l [] (mk_upsert 0 0 []))|..];
    [|done|done|done| |done].
  - split; cbn [up_added db]; try done; [by destruct (db s)|lia|by intros n ?%elem_of_nil].
  - cbn [app]. intros v s1 [R C]. cbv zeta. repeat wp_step; cbn [db mem asked]; try done. destruct (dump_checked _) as [metadata|]; [|done].
    repeat wp_step; try done. destruct (dump_checked _) as [usage|]; [|done]. repeat wp_step; cbn [db mem asked]; try done.
    unfold update_sub, sql_update. cbv beta iota. repeat wp_step; cbn [db mem asked]; try done. split; [|done]. cbn [nodes subs with_subs fe_added fe_found fe_updated].
    split; [by exists (db s1)|]. split; [done|]. split; [done|]. exists cur, metadata, usage. split; [done|]. split; [done|]. split; [done|].
    by rewrite (rf_tables _ _ _ _ _ _ _ R).
Qed.

Lemma refresh_stores_all_witness :
  let l := [demo_node; demo_node2] in
  exists r s', sb_store_apply_subscription_fetch demo_env demo_sub l demo_report 1700001000 demo_subscribed = (Ok r, s') /\
    fe_added r = 2 /\ forall n, n ∈ l -> exists row, row ∈ nodes (db s') /\ holds demo_env (Some (bs "sub1")) n row.
Proof.
  intros l. destruct (sb_store_apply_subscription_fetch demo_env demo_sub l demo_report 1700001000 demo_subscribed) as [[r|e] s'] eqn:E;
    [|vm_compute in E; discriminate E].
  exists r, s'. split; [reflexivity|]. split; [vm_compute in E; injection E as <- _; reflexivity|].
  assert (In : forall a, a ∈ l -> a = demo_node \/ a = demo_node2).
  { intros a [->|Ha]%elem_of_cons; [by left|]. right. by apply list_elem_of_singleton. }
  apply (refresh_stores_all demo_env demo_sub l demo_report 1700001000 demo_subscribed r s'); [..|exact E].
  - vm_compute. apply NoDup_singleton.
  - apply NoDup_cons. split; [|apply NoDup_singleton]. intros H. apply list_elem_of_singleton in H. discriminate H.
  - clear E. intros a b [-> | ->]%In [-> | ->]%In; [left; reflexivity|right|right|left; reflexivity];
      (split; [intros [|k]; discriminate|]); intros p q Ep Eq; vm_compute in Ep, Eq; injection Ep as <-; injection Eq as <-;
      vm_compute; split; discriminate.
  - apply Forall_forall. intros x Hx O. exfalso. revert O. vm_compute in Hx. apply list_elem_of_singleton in Hx as ->. vm_compute. discriminate.
Defined.

(** Two nodes of one answer with the same name: the second takes over the row of the
    first, and the report counts it as an update. *)
Example same_name_taken_over :
  let other := mk_parsed (bs "trojan") (bs "Tokyo") (bs "tokyo2.example") 443 (SBJ_OBJECT [(bs "password", SBJ_STRING (bs "secret"))]) in
  match sb_store_apply_subscription_fetch demo_env demo_sub [demo_node; other] demo_report 1700001000 demo_subscribed with
  | (Ok r, s') => fe_found r = 2 /\ fe_added r = 1 /\ fe_updated r = 1 /\
      map nr_server (List.filter (own (bs "sub1")) (nodes (db s'))) = [bs "tokyo2.example"]
  | _ => False
  end.
Proof. vm_compute. repeat split. Qed.

(** A node that was renamed by hand to the name of another fetched one: its row is
    updated for the first node and then taken over, by its name, for the second. *)
Example renamed_taken_over :
  let s1 := snd (sb_store_apply_subscription_fetch demo_env demo_sub [demo_node] demo_report 1700001000 demo_subscribed) in
  let renamed (x : node_row) := if own (bs "sub1") x
    then mk_node_row (nr_id x) (bs "Osaka") (nr_type x) (nr_enabled x) (nr_server x) (nr_port x) (nr_config x) (nr_sub x)
           (nr_fingerprint x) (nr_latency x) (nr_latency_test x) (nr_created x) (nr_updated x) (nr_source x) else x in
  let s2 := mk_conn (with_nodes (db s1) (map renamed (nodes (db s1)))) tt (asked s1) in
  match sb_store_apply_subscription_fetch demo_env demo_sub [demo_node; demo_node2] demo_report 1700002000 s2 with
  | (Ok r, s') => fe_found r = 2 /\ fe_added r = 0 /\ map nr_server (List.filter (own (bs "sub1")) (nodes (db s'))) = [bs "osaka.example"]
  | _ => False
  end.
Proof. vm_compute. repeat split. Qed.

(** * Backups

    What is exported can be restored, into any tables. *)

(** ** Rows as the repository writes them *)

(** A text without NUL, and one that is there. *)
Definition plain (s : bytes) : Prop := cstr s = s.
Definition plain_opt (s : option bytes) : Prop := forall x, s = Some x -> plain x.
Definition filled (s : bytes) : Prop := plain s /\ s <> [].

(** Text of an object as it is dumped. *)
Definition canonical (text : bytes) : Prop :=
  exists m, sbj_parse (cstr text) = Some (SBJ_OBJECT m) /\ dump_checked (Some (SBJ_OBJECT m)) = Ok text /\ sbj_clone (SBJ_OBJECT m) = SBJ_OBJECT m.

Definition node_clean (r : node_row) : Prop :=
  filled (nr_id r) /\ nr_tag r <> [] /\ 0 < nr_port r <= 65535 /\ canonical (nr_config r) /\ plain_opt (nr_sub r) /\ plain (nr_fingerprint r) /\
  bind_opt_double (nr_latency r) = nr_latency r /\ plain_opt (nr_latency_test r) /\ filled (nr_created r).

Definition sub_clean (r : sub_row) : Prop :=
  filled (sr_id r) /\ sr_url r <> [] /\ plain_opt (sr_fetched r) /\ plain_opt (sr_result r) /\ filled (sr_created r) /\ canonical (sr_usage r) /\
  plain_opt (sr_attempt r) /\ plain_opt (sr_error r) /\ 0 <= sr_next r /\ 0 <= sr_failures r <= 20.

Definition peer_clean (p : sb_wireguard_peer) : Prop :=
  filled (wp_id p) /\ plain (wp_private p) /\ plain (wp_public p) /\ plain_opt (wp_preshared p) /\ filled (wp_address p) /\ plain (wp_dns p) /\
  0 <= wp_keepalive p <= 65535 /\ plain (wp_allowed p) /\ plain_opt (wp_expire p) /\ filled (wp_created p) /\ plain_opt (wp_host p).

(** The row after a restoration at [time]. *)
Definition restored_node (time : bytes) (r : node_row) : node_row :=
  mk_node_row (nr_id r) (nr_tag r) (nr_type r) (nr_enabled r) (nr_server r) (nr_port r) (nr_config r) (nr_sub r) (nr_fingerprint r)
    (nr_latency r) (nr_latency_test r) (nr_created r) time
    (match nr_source r with Some s => Some s | None => match nr_sub r with Some _ => Some (nr_tag r) | None => None end end).
Definition restored_sub (time : bytes) (r : sub_row) : sub_row :=
  mk_sub_row (sr_id r) (sr_name r) (sr_url r) (sr_enabled r) (sr_interval r) (sr_fetched r) (sr_result r) (sr_created r) time (sr_usage r)
    (sr_attempt r) (sr_error r) (sr_next r) (sr_failures r).
Definition restored_peer (time : bytes) (p : sb_wireguard_peer) : sb_wireguard_peer :=
  mk_peer (wp_id p) (wp_name p) (wp_private p) (wp_public p) (wp_preshared p) (wp_address p) (wp_dns p) (wp_enabled p) (wp_keepalive p)
    (wp_allowed p) (wp_expire p) (wp_quota p) (wp_created p) time (wp_notes p) (wp_host p).

Lemma plain_fmap s : plain_opt s -> cstr <$> s = s.
Proof. destruct s as [x|]; [|done]. intros H. cbn. by rewrite (H x). Qed.

(** A C string member read back. *)
Lemma opt_str_back s : plain_opt s -> match opt_str s with SBJ_STRING x => Some x | _ => None end = s.
Proof. destruct s as [x|]; [|done]. intros H. cbn. by rewrite (H x). Qed.

Lemma created_back created time : filled created -> created_or (cstr (cstr created)) time = created.
Proof. intros [P N]. rewrite !P. unfold created_or. by destruct created. Qed.

Section Restore.
Context (env : store_env).

(** Failures of SQLite leave their mark. *)
Definition sqlite_failed (e : sb_err) (s : conn store_tables unit) : Prop := err_code e = SB_ERR_GENERIC.

Lemma wp_pure_ok {A} (r : result A) (a : A) (Q : A -> conn store_tables unit -> Prop) E s : r = Ok a -> Q a s -> wp (pure r) Q E s.
Proof. intros ->. done. Qed.

Lemma node_json_members c :
  let v := Some (sb_proxy_record_to_json c) in
  sbj_get v "id" = Some (SBJ_STRING (cstr (rc_id c))) /\ sbj_get v "tag" = Some (SBJ_STRING (rc_tag c)) /\
  sbj_get v "node_type" = Some (SBJ_STRING (rc_type c)) /\ sbj_get v "enabled" = Some (SBJ_BOOL (rc_enabled c)) /\
  sbj_get v "server" = Some (SBJ_STRING (rc_server c)) /\ sbj_get v "server_port" = Some (sbj_uint (rc_port c)) /\
  sbj_get v "protocol_config" = Some (SBJ_STRING (cstr (sbj_dump (rc_config c) (-1)))) /\
  sbj_get v "subscription_id" = Some (opt_str (rc_sub c)) /\ sbj_get v "source_tag" = Some (opt_strn (rc_source c)) /\
  sbj_get v "fingerprint" = Some (SBJ_STRING (cstr (rc_fingerprint c))) /\
  sbj_get v "latency" = Some (match rc_latency c with Some f => SBJ_FLOAT f | None => SBJ_NULL end) /\
  sbj_get v "last_latency_test" = Some (opt_str (rc_latency_test c)) /\ sbj_get v "created_at" = Some (SBJ_STRING (cstr (rc_created c))).
Proof. repeat split. Qed.

Lemma sub_json_members c :
  let v := Some (sb_subscription_to_json c) in
  sbj_get v "id" = Some (SBJ_STRING (cstr (sb_id c))) /\ sbj_get v "name" = Some (SBJ_STRING (sb_name c)) /\
  sbj_get v "url" = Some (SBJ_STRING (sb_url c)) /\ sbj_get v "enabled" = Some (SBJ_BOOL (sb_enabled c)) /\
  sbj_get v "refresh_interval" = Some (SBJ_INT (sb_interval c)) /\ sbj_get v "last_fetched_at" = Some (opt_str (sb_fetched c)) /\
  sbj_get v "last_fetch_result" = Some (opt_str (sb_result c)) /\ sbj_get v "usage" = Some (clone_or_empty (sb_usage c)) /\
  sbj_get v "last_attempt_at" = Some (opt_str (sb_attempt c)) /\ sbj_get v "last_error" = Some (opt_str (sb_error c)) /\
  sbj_get v "next_refresh_at" = Some (SBJ_INT (sb_next c)) /\ sbj_get v "failure_count" = Some (SBJ_INT (sb_failures c)) /\
  sbj_get v "created_at" = Some (SBJ_STRING (cstr (sb_created c))).
Proof. repeat split. Qed.

Lemma peer_json_members p :
  let v := Some (sb_wireguard_peer_to_json p) in
  sbj_get v "id" = Some (SBJ_STRING (cstr (wp_id p))) /\ sbj_get v "name" = Some (SBJ_STRING (wp_name p)) /\
  sbj_get v "private_key" = Some (SBJ_STRING (cstr (wp_private p))) /\ sbj_get v "public_key" = Some (SBJ_STRING (cstr (wp_public p))) /\
  sbj_get v "preshared_key" = Some (opt_str (wp_preshared p)) /\ sbj_get v "address" = Some (SBJ_STRING (cstr (wp_address p))) /\
  sbj_get v "dns" = Some (SBJ_STRING (cstr (wp_dns p))) /\ sbj_get v "enabled" = Some (SBJ_BOOL (wp_enabled p)) /\
  sbj_get v "persistent_keepalive" = Some (SBJ_INT (wp_keepalive p)) /\ sbj_get v "allowed_ips" = Some (SBJ_STRING (cstr (wp_allowed p))) /\
  sbj_get v "expire_at" = Some (opt_str (wp_expire p)) /\ sbj_get v "quota_bytes" = Some (SBJ_INT (wp_quota p)) /\
  sbj_get v "created_at" = Some (SBJ_STRING (cstr (wp_created p))) /\ sbj_get v "notes" = Some (opt_strn (wp_notes p)) /\
  sbj_get v "host_id" = Some (opt_str (wp_host p)).
Proof. repeat split. Qed.

Lemma jv_str_member v k d x : sbj_get v k = Some (SBJ_STRING x) -> jv_str v k d = Ok x.
Proof. unfold jv_str. by intros ->. Qed.
Lemma jv_bool_member v k d x : sbj_get v k = Some (SBJ_BOOL x) -> jv_bool v k d = Ok x.
Proof. unfold jv_bool. by intros ->. Qed.
Lemma jv_int_member v k d x : sbj_get v k = Some (SBJ_INT x) -> jv_int v k d = Ok x.
Proof. unfold jv_int. by intros ->. Qed.

(** Reads a member of a known kind. *)
Ltac read_back :=
  lazymatch goal with
  | H : sbj_get ?v ?k = Some _ |- wp (pure (jv_str ?v ?k _) ≫= _) _ _ _ => rewrite (jv_str_member _ _ _ _ H); apply wp_bind, wp_pure
  | H : sbj_get ?v ?k = Some _ |- wp (pure (jv_bool ?v ?k _) ≫= _) _ _ _ => rewrite (jv_bool_member _ _ _ _ H); apply wp_bind, wp_pure
  | H : sbj_get ?v ?k = Some _ |- wp (pure (jv_int ?v ?k _) ≫= _) _ _ _ => rewrite (jv_int_member _ _ _ _ H); apply wp_bind, wp_pure
  end.

Lemma opt_member v k s : plain_opt s -> sbj_get v k = Some (opt_str s) -> cstr <$> jv_opt_str v k = s.
Proof. intros P E. unfold jv_opt_str. rewrite E. destruct s as [x|]; [|done]. cbn. rewrite !(P x eq_refl). done. Qed.

Lemma uint_member p : 0 < p <= 65535 -> sbj_uint p = SBJ_INT p.
Proof. intros H. unfold sbj_uint. by rewrite (proj2 (Z.leb_le p INT64_MAX)) by (unfold INT64_MAX; lia). Qed.

Lemma restore_node_row r c s :
  node_clean r -> read_proxy_record r = Ok c ->
  wp (restore_node env (Some (sb_proxy_record_to_json c))) (fun b s' => b = true /\ exists time, db s' = replace_node (restored_node time r) (db s))
     sqlite_failed s.
Proof.
  intros ([Pi Ni] & Nt & Port & (m & Em & Ed & _) & Ps & Pf & Ld & Pl & Pc). intros E. unfold read_proxy_record in E.
  destruct (_ || _); [discriminate E|]. unfold parse_object in E. rewrite Em in E. apply Ok_inj in E as <-.
  assert (Dump : cstr (sbj_dump (Some (SBJ_OBJECT m)) (-1)) = nr_config r).
  { unfold dump_checked in Ed. apply bind_Ok in Ed as (? & _ & Ed). by apply Ok_inj in Ed. }
  match goal with |- wp (restore_node _ (Some (sb_proxy_record_to_json ?c))) _ _ _ => destruct (node_json_members c) as
    (Gi & Gt & Gy & Ge & Gs & Gp & Gc & Gb & Gr & Gf & Gl & Gx & Gd); generalize dependent (sb_proxy_record_to_json c) end.
  cbn [rc_id rc_tag rc_type rc_enabled rc_server rc_port rc_config rc_sub rc_source rc_fingerprint rc_latency rc_latency_test rc_created].
  rewrite Dump, uint_member by done. intros v Gi Gt Gy Ge Gs Gp Gc Gb Gr Gf Gl Gx Gd. unfold restore_node, sql_now. do 2 read_back. rewrite !Pi.
  assert (is_empty (nr_id r) = false) as -> by (by destruct (nr_id r)). assert (is_empty (nr_tag r) = false) as -> by (by destruct (nr_tag r)).
  cbn [orb].
  assert (protocol_text (Some v) = Ok (cstr (nr_config r))) as -> by (unfold protocol_text; by rewrite Gc). apply wp_bind, wp_pure. do 6 read_back. repeat wp_step; cbn [db mem asked]; try done.
  split; [done|]. eexists. unfold restored_node. rewrite !(opt_member _ _ _ Ps Gb), !(opt_member _ _ _ Pl Gx), created_back by done.
  rewrite !Pf. do 2 f_equal.
  - by rewrite <- Dump, cstr_idem.
  - unfold backup_latency. rewrite Gl. by destruct (nr_latency r).
  - unfold backup_source. rewrite Gr. destruct (nr_source r); [done|]. cbn [opt_strn]. unfold jv_opt_str. rewrite Gb. by destruct (nr_sub r).
Qed.

Lemma clamp_failures_id n : 0 <= n <= 20 -> clamp_failures n = n.
Proof. intros H. unfold clamp_failures. by rewrite (proj2 (Z.ltb_ge n 0)), (proj2 (Z.ltb_ge 20 n)) by lia. Qed.

Lemma restore_sub_row r s :
  sub_clean r ->
  wp (restore_subscription env (Some (sb_subscription_to_json (read_subscription r))))
     (fun b s' => b = true /\ exists time, db s' = replace_sub (restored_sub time r) (db s)) sqlite_failed s.
Proof.
  intros ([Pi Ni] & Nu & Pf & Pr & Pc & (m & Em & Ed & Eclone) & Pa & Pe & Hn & Hf).
  destruct (sub_json_members (read_subscription r)) as (Gi & Gn & Gu & Ge & Gv & Gf & Gr & Gs & Ga & Gx & Gt & Gl & Gd).
  generalize dependent (sb_subscription_to_json (read_subscription r)). cbn [read_subscription sb_id sb_name sb_url sb_enabled sb_interval
    sb_fetched sb_result sb_usage sb_attempt sb_error sb_next sb_failures sb_created]. unfold parse_object_or_empty, clone_or_empty. rewrite Em, Eclone.
  intros v Gi Gn Gu Ge Gv Gf Gr Gs Ga Gx Gt Gl Gd. unfold restore_subscription, prepared, sql_now. do 2 read_back. rewrite !Pi.
  assert (is_empty (sr_id r) = false) as -> by (by destruct (sr_id r)). assert (is_empty (sr_url r) = false) as -> by (by destruct (sr_url r)).
  cbn [orb]. do 4 read_back. apply wp_bind, wp_stmt; [done|]. cbv beta iota. rewrite Gs, Ed. apply wp_bind, wp_pure. do 2 read_back.
  repeat wp_step; cbn [db mem asked]; try done. split; [done|]. eexists. unfold restored_sub.
  rewrite (opt_member _ _ _ Pf Gf), (opt_member _ _ _ Pr Gr), (opt_member _ _ _ Pa Ga), (opt_member _ _ _ Pe Gx), created_back, clamp_failures_id by done.
  by rewrite (proj2 (Z.ltb_ge (sr_next r) 0)) by lia.
Qed.

Lemma to_i32_small z : 0 <= z <= 65535 -> to_i32 z = z.
Proof. intros H. unfold to_i32. rewrite Z.mod_small; lia. Qed.

Lemma restore_peer_row p s :
  peer_clean p ->
  wp (restore_peer env (Some (sb_wireguard_peer_to_json (read_wireguard_peer p))))
     (fun b s' => b = true /\ exists time, db s' = replace_peer (restored_peer time p) (db s)) sqlite_failed s.
Proof.
  intros ([Pi Ni] & Pp & Pq & Ps & [Pa Na] & Pd & Hk & Pl & Pe & Pc & Ph).
  destruct (peer_json_members (read_wireguard_peer p)) as (Gi & Gn & Gp & Gq & Gs & Ga & Gd & Ge & Gk & Gl & Gx & Gu & Gc & Go & Gh).
  generalize dependent (sb_wireguard_peer_to_json (read_wireguard_peer p)). cbn [read_wireguard_peer wp_id wp_name wp_private wp_public wp_preshared
    wp_address wp_dns wp_enabled wp_keepalive wp_allowed wp_expire wp_quota wp_created wp_notes wp_host]. rewrite to_i32_small by done.
  intros v Gi Gn Gp Gq Gs Ga Gd Ge Gk Gl Gx Gu Gc Go Gh. unfold restore_peer, sql_now. do 2 read_back. rewrite !Pi, !Pa.
  assert (is_empty (wp_id p) = false) as -> by (by destruct (wp_id p)). assert (is_empty (wp_address p) = false) as -> by (by destruct (wp_address p)).
  cbn [orb]. do 9 read_back. repeat wp_step; cbn [db mem asked]; try done. split; [done|]. eexists. unfold restored_peer.
  rewrite (opt_member _ _ _ Ps Gs), (opt_member _ _ _ Pe Gx), (opt_member _ _ _ Ph Gh), created_back by done. rewrite !Pp, !Pq, !Pd, !Pl.
  do 2 f_equal. unfold jv_opt_str. rewrite Go. by destruct (wp_notes p).
Qed.

(** ** Lists of rows *)

(** Restoring values one after the other replaces rows one after the other. *)
Lemma restore_all_rows {R} (restore : option sbj -> store bool) (json : R -> sbj) (replace : R -> store_tables -> store_tables)
    (stamp : bytes -> R -> R) (rows : list R) :
  (forall r, r ∈ rows -> exists m, json r = SBJ_OBJECT m) ->
  (forall r s, r ∈ rows -> wp (restore (Some (json r))) (fun b s' => b = true /\ exists time, db s' = replace (stamp time r) (db s)) sqlite_failed s) ->
  forall n s, wp (restore_all restore (map json rows) n)
    (fun _ s' => exists times, length times = length rows /\
       db s' = foldl (fun t r => replace r t) (db s) (zip_with stamp times rows)) sqlite_failed s.
Proof.
  intros Obj H. induction rows as [|r rows IH]; intros n s; cbn [map restore_all]; [apply wp_ret; by exists []|].
  destruct (Obj r ltac:(left)) as [m Em]. rewrite Em. apply wp_bind. rewrite <- Em. eapply wp_mono; [apply H; left|..]; [|done].
  intros b s1 (-> & time & Es). eapply wp_mono; [apply IH; [intros x Hx; apply Obj; by right|intros x s2 Hx; apply H; by right]|..]; [|done].
  intros _ s2 (times & Len & E2). exists (time :: times). split; [cbn [length]; congruence|]. cbn [zip_with foldl]. by rewrite <- Es.
Qed.

(** Replacing rows one after the other, where none gives way to a later one. *)
Lemma replaced_stay {R} (conflicts : R -> R -> bool) (l : list R) :
  ForallOrdPairs (fun a b => conflicts b a = false) l ->
  forall t, (forall r, r ∈ l -> r ∈ foldl (fun t r => sql_replace (conflicts r) r t) t l) /\
            (forall r, r ∈ t -> Forall (fun b => conflicts b r = false) l -> r ∈ foldl (fun t r => sql_replace (conflicts r) r t) t l).
Proof.
  induction 1 as [|x l Hx _ IH]; intros t; cbn [foldl]; [split; [by intros r ?%elem_of_nil|done]|].
  destruct (IH (sql_replace (conflicts x) x t)) as [I1 I2]. split.
  - intros r [->|Hr]%elem_of_cons; [|by apply I1]. apply I2; [|exact Hx].
    apply elem_of_app. right. by apply list_elem_of_singleton.
  - intros r Hr [Hb Hl]%Forall_cons. apply I2; [|done]. apply elem_of_app. left. apply filter_In. split; [done|]. by rewrite Hb.
Qed.

(** ** Settings *)

Lemma upsert_setting_spec key value time t :
  (exists s, s ∈ settings (upsert_setting key value time t) /\ st_key s = key /\ st_value s = value) /\
  (forall s, s ∈ settings t -> st_key s <> key -> s ∈ settings (upsert_setting key value time t)).
Proof.
  unfold upsert_setting, sql_upsert. cbn [settings with_settings]. destruct (existsb _ _) eqn:X; split.
  - apply existsb_In in X as (s & Hs & Es). eexists. split; [apply In_map_update; by exists s|]. rewrite Es. cbn [st_key st_value].
    split; [by apply bytes_eqb_eq|done].
  - intros s Hs N. apply In_map_update. exists s. split; [done|]. by rewrite (proj2 (bytes_eqb_neq _ _) N).
  - eexists. split; [apply elem_of_app; right; by apply list_elem_of_singleton|]. done.
  - intros s Hs N. apply elem_of_app. by left.
Qed.

Lemma restore_settings_spec (l : list (bytes * sbj)) :
  NoDup (cstr <$> l.*1) -> Forall (fun kv => utf8_clean (snd kv) = true) l ->
  forall n s, wp (restore_settings env l n)
    (fun _ s' => db s' = with_settings (db s) (settings (db s')) /\
       (forall k v, (k, v) ∈ l -> exists r, r ∈ settings (db s') /\ st_key r = cstr k /\ dump_checked (Some v) = Ok (st_value r)) /\
       (forall r, r ∈ settings (db s) -> st_key r ∉ cstr <$> l.*1 -> r ∈ settings (db s'))) sqlite_failed s.
Proof.
  induction l as [|[k v] l IH]; intros N F n s; cbn [restore_settings].
  - apply wp_ret. split; [by destruct (db s)|]. split; [by intros ? ? ?%elem_of_nil|done].
  - rewrite !fmap_cons in N. apply NoDup_cons in N as [Nk Nl]. apply Forall_cons in F as [Fk Fl]. cbn [fst snd] in *.
    unfold prepared, sql_now. apply wp_bind, wp_control; [done|]. apply wp_bind, wp_pure.
    assert (exists text, dump_checked (Some v) = Ok text) as [text Et].
    { unfold dump_checked. apply validate_utf8_clean in Fk. rewrite Fk. by eexists. }
    rewrite Et. apply wp_bind, wp_bind, wp_ask, wp_ret, wp_bind, wp_stmt; [done|]. cbv beta iota. cbn [db mem asked].
    eapply wp_mono; [by apply IH|..]; [|done]. cbn [db]. intros _ s' (Ht & Hl & Hk).
    destruct (upsert_setting_spec (cstr k) text (datetime env (now env (S (asked s)))) (db s)) as [(r & Hr & Er & Ev) Hother].
    split; [by rewrite Ht at 1|]. split.
    + intros k' v' [[= -> ->]|H]%elem_of_cons; [|by apply Hl]. exists r. split; [|by rewrite Er, Ev]. apply Hk; [done|]. by rewrite Er.
    + intros x Hx Nx. rewrite !fmap_cons in Nx. apply not_elem_of_cons in Nx as [N1 N2]. apply Hk; [|done]. by apply Hother.
Qed.
End Restore.

(** ** The exported document *)

Definition collect_setting (g : gmap bytes sbj) (s : setting_row) : gmap bytes sbj :=
  match sbj_parse (st_value s) with Some v => <[cstr (st_key s) := v]> g | None => g end.

Lemma app_settings_map rows m0 : obj_sorted m0 ->
  exists m, foldl add_setting (SBJ_OBJECT m0) rows = SBJ_OBJECT m /\ obj_sorted m /\ obj_map m = foldl collect_setting (obj_map m0) rows.
Proof.
  revert m0. induction rows as [|s rows IH]; intros m0 S0; cbn [foldl]; [by exists m0|].
  unfold add_setting at 2, collect_setting at 2. destruct (sbj_parse (st_value s)) as [v|]; [|by apply IH].
  destruct (sbj_setn_map m0 (cstr (st_key s)) (Some v) S0) as (m' & -> & S' & E). destruct (IH m' S') as (m & E1 & S1 & E2).
  exists m. split; [done|]. split; [done|]. by rewrite E2, E.
Qed.

Lemma collect_other rows g k : (forall s, s ∈ rows -> cstr (st_key s) <> k) -> foldl collect_setting g rows !! k = g !! k.
Proof.
  revert g. induction rows as [|s rows IH]; intros g H; cbn [foldl]; [done|]. rewrite IH by (intros x Hx; apply H; by right).
  unfold collect_setting. destruct (sbj_parse _); [|done]. apply lookup_insert_ne, H. left.
Qed.

Lemma collect_found rows g s v :
  NoDup (cstr <$> (st_key <$> rows)) -> s ∈ rows -> sbj_parse (st_value s) = Some v -> foldl collect_setting g rows !! cstr (st_key s) = Some v.
Proof.
  revert g. induction rows as [|x rows IH]; intros g N Hs P; [by apply elem_of_nil in Hs|]. rewrite !fmap_cons in N. apply NoDup_cons in N as [Nx Nr].
  cbn [foldl]. apply elem_of_cons in Hs as [->|Hs]; [|by apply IH]. rewrite collect_other.
  - unfold collect_setting. rewrite P. apply lookup_insert_eq.
  - intros y Hy E. apply Nx. rewrite <- E. apply list_elem_of_fmap_2, list_elem_of_fmap_2, Hy.
Qed.

Lemma collect_parsed rows g k v :
  foldl collect_setting g rows !! k = Some v -> g !! k = Some v \/ exists s, s ∈ rows /\ k = cstr (st_key s) /\ sbj_parse (st_value s) = Some v.
Proof.
  revert g. induction rows as [|x rows IH]; intros g; cbn [foldl]; [auto|]. intros [E|(s & Hs & E)]%IH.
  - unfold collect_setting in E. destruct (sbj_parse (st_value x)) as [w|] eqn:P; [|auto].
    apply lookup_insert_Some in E as [[<- <-]|[_ E]]; [|auto]. right. exists x. split; [left|done].
  - right. exists s. split; [by right|done].
Qed.

(** Tables that can be exported: rows as the repository writes them. *)
Record exportable (t : store_tables) : Prop := {
  ex_nodes : Forall node_clean (nodes t);
  ex_node_ids : NoDup (nr_id <$> nodes t);
  ex_node_tags : NoDup (nr_tag <$> nodes t);
  ex_node_prints : NoDup (nr_fingerprint <$> nodes t);
  ex_subs : Forall sub_clean (subs t);
  ex_sub_ids : NoDup (sr_id <$> subs t);
  ex_peers : Forall peer_clean (peers t);
  ex_peer_ids : NoDup (wp_id <$> peers t);
  ex_peer_addresses : NoDup (wp_address <$> peers t);
  ex_settings : NoDup (cstr <$> (st_key <$> settings t)) }.

(** Everything of [t] is in [t'], rows that were there under the same keys apart. *)
Record restored (t t' : store_tables) : Prop := {
  rs_nodes : forall r, r ∈ nodes t -> exists time, restored_node time r ∈ nodes t';
  rs_subs : forall r, r ∈ subs t -> exists time, restored_sub time r ∈ subs t';
  rs_peers : forall p, p ∈ peers t -> exists time, restored_peer time p ∈ peers t';
  rs_settings : forall s v, s ∈ settings t -> sbj_parse (st_value s) = Some v ->
    exists r, r ∈ settings t' /\ st_key r = cstr (st_key s) /\ dump_checked (Some v) = Ok (st_value r) }.

(** The rows of a table with other columns [stamp]ed into them stay in it. *)
Lemma stamped_stay {R} (conflicts : R -> R -> bool) (stamp : bytes -> R -> R) (rows : list R) times t :
  (forall a b x y, conflicts (stamp y b) (stamp x a) = conflicts b a) ->
  ForallOrdPairs (fun a b => conflicts b a = false) rows -> length times = length rows ->
  forall r, r ∈ rows -> exists time, stamp time r ∈ foldl (fun t r => sql_replace (conflicts r) r t) t (zip_with stamp times rows).
Proof.
  intros Hc Hp Len r Hr.
  assert (P : ForallOrdPairs (fun a b => conflicts b a = false) (zip_with stamp times rows)).
  { revert times Len. clear r Hr. induction Hp as [|x l Hx _ IH]; intros [|time times] Len; cbn [zip_with]; try constructor; try done.
    - injection Len as Len. apply Forall_forall. intros y Hy. apply elem_of_lookup_zip_with in Hy as (i & tm & z & -> & _ & Hz).
      rewrite Hc. rewrite Forall_forall in Hx. apply Hx. by eapply list_elem_of_lookup_2.
    - apply IH. by injection Len. }
  apply list_elem_of_lookup in Hr as [i Hi]. assert (is_Some (times !! i)) as [time Ht].
  { apply lookup_lt_is_Some. rewrite Len. by eapply lookup_lt_Some. }
  exists time. apply (proj1 (replaced_stay conflicts _ P t)). apply elem_of_lookup_zip_with. by exists i, time, r.
Qed.

Lemma unique_pairs {R} (conflicts : R -> R -> bool) (rows : list R) :
  NoDup rows -> (forall a b, a ∈ rows -> b ∈ rows -> a <> b -> conflicts b a = false) -> ForallOrdPairs (fun a b => conflicts b a = false) rows.
Proof.
  induction 1 as [|x l Nx _ IH]; intros H; constructor.
  - apply Forall_forall. intros b Hb. apply H; [left|by right|]. by intros ->.
  - apply IH. intros a b Ha Hb. apply H; by right.
Qed.

Definition node_conflict (b a : node_row) : bool := node_is (nr_id b) a || node_conflicts (nr_id b) (nr_tag b) (nr_fingerprint b) a.
Definition sub_conflict (b a : sub_row) : bool := sub_row_is (sr_id b) a.
Definition peer_conflict (b a : sb_wireguard_peer) : bool := bytes_eqb (wp_id a) (wp_id b) || bytes_eqb (wp_address a) (wp_address b).

Lemma fold_replace_node l t :
  foldl (fun t r => replace_node r t) t l = with_nodes t (foldl (fun t r => sql_replace (node_conflict r) r t) (nodes t) l).
Proof. revert t. induction l as [|r l IH]; intros t; cbn [foldl]; [by destruct t|]. by rewrite IH. Qed.
Lemma fold_replace_sub l t :
  foldl (fun t r => replace_sub r t) t l = with_subs t (foldl (fun t r => sql_replace (sub_conflict r) r t) (subs t) l).
Proof. revert t. induction l as [|r l IH]; intros t; cbn [foldl]; [by destruct t|]. by rewrite IH. Qed.
Lemma fold_replace_peer l t :
  foldl (fun t r => replace_peer r t) t l = with_peers t (foldl (fun t r => sql_replace (peer_conflict r) r t) (peers t) l).
Proof. revert t. induction l as [|r l IH]; intros t; cbn [foldl]; [by destruct t|]. by rewrite IH. Qed.

Lemma key_differs {R} (key : R -> bytes) l a b : NoDup (key <$> l) -> a ∈ l -> b ∈ l -> a <> b -> bytes_eqb (key a) (key b) = false.
Proof. intros N Ha Hb Ne. apply bytes_eqb_neq. intros E. apply Ne. by apply (NoDup_fmap_inj_on key l). Qed.

Lemma exportable_nodes t : exportable t -> ForallOrdPairs (fun a b => node_conflict b a = false) (order_by node_le (nodes t)).
Proof.
  intros E. apply unique_pairs.
  - rewrite order_by_Permutation. apply (NoDup_fmap_1 nr_id), E.
  - intros a b Ha%order_by_In Hb%order_by_In Ne. unfold node_conflict, node_conflicts, node_is.
    rewrite (key_differs nr_id (nodes t) a b), (key_differs nr_tag (nodes t) a b), (key_differs nr_fingerprint (nodes t) a b); try done; apply E.
Qed.
Lemma exportable_subs t le : exportable t -> ForallOrdPairs (fun a b => sub_conflict b a = false) (order_by le (subs t)).
Proof.
  intros E. apply unique_pairs; [rewrite order_by_Permutation; apply (NoDup_fmap_1 sr_id), E|].
  intros a b Ha%order_by_In Hb%order_by_In Ne. apply (key_differs sr_id (subs t)); [apply E|done..].
Qed.
Lemma exportable_peers t le : exportable t -> ForallOrdPairs (fun a b => peer_conflict b a = false) (order_by le (peers t)).
Proof.
  intros E. apply unique_pairs; [rewrite order_by_Permutation; apply (NoDup_fmap_1 wp_id), E|].
  intros a b Ha%order_by_In Hb%order_by_In Ne. unfold peer_conflict. rewrite (key_differs wp_id (peers t) a b), (key_differs wp_address (peers t) a b); try done; apply E.
Qed.

(** What the export is made of. *)
Lemma export_spec env s v s' :
  sb_store_export_backup env s = (Ok v, s') ->
  exists l m, mapM read_proxy_record (order_by node_le (nodes (db s))) = Ok l /\ obj_sorted m /\
    obj_map m = foldl collect_setting ∅ (settings (db s)) /\ sbj_is_object (Some v) = true /\
    sbj_get (Some v) "proxy_nodes" = Some (SBJ_ARRAY (map sb_proxy_record_to_json l)) /\
    sbj_get (Some v) "wireguard_peers" = Some (SBJ_ARRAY (map (fun p => sb_wireguard_peer_to_json (read_wireguard_peer p))
      (order_by (fun a b => text_le (wp_address a) (wp_address b)) (peers (db s))))) /\
    sbj_get (Some v) "subscriptions" = Some (SBJ_ARRAY (map (fun r => sb_subscription_to_json (read_subscription r))
      (order_by (fun a b => text_le (sr_name a) (sr_name b)) (subs (db s))))) /\
    sbj_get (Some v) "app_settings" = Some (SBJ_OBJECT m).
Proof.
  intros E. destruct (app_settings_map (settings (db s)) [] ltac:(constructor)) as (m & Em & Sm & Om).
  assert (W : wp (sb_store_export_backup env) (fun v s' => exists l, mapM read_proxy_record (order_by node_le (nodes (db s))) = Ok l /\
    v = sbj_set (sbj_set (sbj_set (sbj_set (SBJ_OBJECT []) "proxy_nodes" (SBJ_ARRAY (map sb_proxy_record_to_json l)))
      "wireguard_peers" (SBJ_ARRAY (map sb_wireguard_peer_to_json (map read_wireguard_peer (order_by (fun a b => text_le (wp_address a) (wp_address b)) (peers (db s)))))))
      "subscriptions" (SBJ_ARRAY (map sb_subscription_to_json (map read_subscription (order_by (fun a b => text_le (sr_name a) (sr_name b)) (subs (db s)))))))
      "app_settings" (SBJ_OBJECT m)) no_care s).
  { unfold sb_store_export_backup, sb_store_list_proxy_nodes, sb_store_list_wireguard_peers, sb_store_list_subscriptions, sb_store_app_settings.
    repeat wp_step; cbn [db mem asked]; try done. destruct (mapM _ _) as [l|]; [|done]. repeat wp_step; cbn [db mem asked]; try done.
    exists l. by rewrite Em. }
  unfold wp in W. rewrite E in W. destruct W as (l & El & ->). exists l, m. rewrite !map_map.
  split; [done|]. split; [done|]. split; [done|]. repeat split.
Qed.

(** The documents of rows are objects. *)
Definition is_obj (v : sbj) : Prop := exists m, v = SBJ_OBJECT m.
Lemma is_obj_set o k v : is_obj o -> is_obj (sbj_set o k v).
Proof. intros [m ->]. unfold sbj_set, sbj_setn. destruct (obj_find _ _) as [? []]; by eexists. Qed.
Lemma sub_json_object c : is_obj (sb_subscription_to_json c).
Proof. unfold sb_subscription_to_json, sbj_set_str, sbj_set_bool, sbj_set_int. cbv zeta. repeat apply is_obj_set. by exists []. Qed.
Lemma record_json_object c : is_obj (sb_proxy_record_to_json c).
Proof. unfold sb_proxy_record_to_json, sbj_set_str, sbj_set_bool, sbj_set_int. cbv zeta. repeat apply is_obj_set. by exists []. Qed.
Lemma peer_json_object c : is_obj (sb_wireguard_peer_to_json c).
Proof. unfold sb_wireguard_peer_to_json, sbj_set_str, sbj_set_bool, sbj_set_int. cbv zeta. repeat apply is_obj_set. by exists []. Qed.

Definition node_json (r : node_row) : sbj := match read_proxy_record r with Ok c => sb_proxy_record_to_json c | Err _ => SBJ_NULL end.

Lemma mapM_json rows l :
  mapM read_proxy_record rows = Ok l -> map sb_proxy_record_to_json l = map node_json rows /\ forall r, r ∈ rows -> exists c, read_proxy_record r = Ok c.
Proof.
  revert l. induction rows as [|r rows IH]; intros l; cbn [mapM].
  - intros [= <-]. split; [done|]. by intros r ?%elem_of_nil.
  - intros (c & Hc & (l' & Hl & E)%bind_Ok)%bind_Ok. injection E as <-. destruct (IH l' Hl) as [E' H]. cbn [map]. rewrite E'. unfold node_json at 2.
    rewrite Hc. split; [done|]. intros x [->|Hx]%elem_of_cons; [by exists c|by apply H].
Qed.

(** C14: a backup can be restored.  What is exported from tables whose rows are as the
    repository writes them goes, by the restoration, into any tables whatever: every
    node, subscription and peer is there with its columns as they were, except that
    it was updated at the time of the restoration (and a node of a subscription
    has a source name), and every setting that was exported has its value again.  The
    only failures are those of SQLite, and then the tables are as they were. *)
Theorem backup_roundtrip env s v s' s2 :
  exportable (db s) -> sb_store_export_backup env s = (Ok v, s') ->
  match sb_store_restore_backup env (Some v) s2 with
  | (Ok _, s3) => restored (db s) (db s3)
  | (Err e, s3) => err_code e = SB_ERR_GENERIC /\ db s3 = db s2
  end.
Proof.
  intros Ex E. apply export_spec in E as (l & m & El & Sm & Em & Ov & Gn & Gp & Gs & Ga). apply mapM_json in El as [Ej Rd]. rewrite Ej in Gn.
  assert (Wm : Forall (fun kv => utf8_clean (snd kv) = true) m /\ cstr <$> m.*1 = m.*1).
  { assert (K : forall k w, (k, w) ∈ m -> exists x, k = cstr (st_key x) /\ sbj_parse (st_value x) = Some w).
    { intros k w H%obj_map_lookup; [|done]. rewrite Em in H. apply collect_parsed in H as [H|(x & _ & Hx)]; [by rewrite lookup_empty in H|by exists x]. }
    split; [apply Forall_forall; intros [k w] (x & _ & P)%K; by apply sbj_parse_wf in P as (_ & U & _)|].
    rewrite <- (list_fmap_id m.*1) at 2. apply list_fmap_ext. intros i k (kw & -> & Hk)%list_lookup_fmap_Some.
    destruct (K (fst kw) (snd kw)) as (x & Ek & _); [destruct kw; by eapply list_elem_of_lookup_2|]. by rewrite Ek, cstr_idem. }
  destruct Wm as [Wm Km].
  assert (W : wp (sb_store_restore_backup env (Some v)) (fun _ s3 => restored (db s) (db s3))
    (fun e s3 => err_code e = SB_ERR_GENERIC /\ db s3 = db s2) s2).
  2: { unfold wp in W. by destruct (sb_store_restore_backup env (Some v) s2) as [[]]. }
  unfold sb_store_restore_backup. rewrite Gn, Gp, Gs, Ga, Ov. cbn [negb section_valid sbj_is_object sbj_is_array andb obj_members arr_items].
  apply wp_bind, wp_transaction; [done|]. apply wp_bind.
  eapply wp_mono; [apply restore_settings_spec; [rewrite Km; by apply obj_sorted_NoDup|done]|..]; [|done]. cbn [db]. intros na s3 (T3 & V3 & _).
  apply wp_bind. eapply wp_mono; [apply (restore_all_rows (restore_subscription env) (fun r => sb_subscription_to_json (read_subscription r)) replace_sub restored_sub)|..].
  { intros r _. apply sub_json_object. } { intros r s4 Hr%order_by_In. apply restore_sub_row. pose proof (ex_subs _ Ex) as F. rewrite Forall_forall in F. by apply F. } 2: done.
  intros nb s4 (ts & Ls & E4). apply wp_bind.
  eapply wp_mono; [apply (restore_all_rows (restore_node env) node_json replace_node restored_node)|..].
  { intros r [c Hc]%Rd. unfold node_json. rewrite Hc. apply record_json_object. }
  { intros r s5 Hr. destruct (Rd r Hr) as [c Hc]. unfold node_json. rewrite Hc. apply restore_node_row; [|done]. pose proof (ex_nodes _ Ex) as F.
    rewrite Forall_forall in F. apply F. by apply order_by_In in Hr. } 2: done.
  intros nc s5 (tn & Ln & E5). apply wp_bind.
  eapply wp_mono; [apply (restore_all_rows (restore_peer env) (fun p => sb_wireguard_peer_to_json (read_wireguard_peer p)) replace_peer restored_peer)|..].
  { intros r _. apply peer_json_object. } { intros r s6 Hr%order_by_In. apply restore_peer_row. pose proof (ex_peers _ Ex) as F. rewrite Forall_forall in F. by apply F. } 2: done.
  intros nd s6 (tp & Lp & E6). apply wp_ret. split; [|done]. apply wp_ret. cbn [db].
  rewrite fold_replace_sub in E4. rewrite fold_replace_node in E5. rewrite fold_replace_peer in E6. rewrite E6, E5, E4. split; cbn [nodes subs peers settings with_nodes with_subs with_peers].
  - intros r Hr. apply (stamped_stay node_conflict restored_node); [done|by apply exportable_nodes|done|by apply order_by_In].
  - intros r Hr. apply (stamped_stay sub_conflict restored_sub); [done|by apply exportable_subs|done|by apply order_by_In].
  - intros r Hr. apply (stamped_stay peer_conflict restored_peer); [done|by apply exportable_peers|done|by apply order_by_In].
  - intros x w Hx P. destruct (V3 (cstr (st_key x)) w) as (r & Hr & Ek & Ed).
    + apply obj_map_lookup; [done|]. rewrite Em. by apply collect_found; [apply Ex| |].
    + exists r. rewrite cstr_idem in Ek. done.
Qed.

(** The tables of a small repository. *)
Lemma demo_exportable : exportable (db demo_full).
Proof.
  assert (E : db demo_full = db demo_full) by reflexivity. revert E. generalize (db demo_full) at 1 3. intros t E. vm_compute in E. subst t.
  split; cbn [nodes subs peers settings]; try apply NoDup_singleton; apply Forall_singleton; repeat split; try done; try (by intros x [= <-]);
    (eexists; split; [vm_compute; reflexivity|]; split; vm_compute; reflexivity).
Qed.

Lemma backup_roundtrip_witness :
  exists v s' r s3, sb_store_export_backup demo_env demo_full = (Ok v, s') /\ sb_store_restore_backup demo_env (Some v) demo_start = (Ok r, s3) /\
    restored (db demo_full) (db s3).
Proof.
  destruct (sb_store_export_backup demo_env demo_full) as [[v|e] s'] eqn:E; [|vm_compute in E; discriminate E].
  pose proof (backup_roundtrip demo_env demo_full v s' demo_start demo_exportable E) as H. pose proof E as Ev. vm_compute in Ev. injection Ev as Ev _.
  destruct (sb_store_restore_backup demo_env (Some v) demo_start) as [[r|e] s3] eqn:R; [|rewrite <- Ev in R; vm_compute in R; discriminate R].
  exists v, s', r, s3. split; [reflexivity|]. split; [exact R|exact H].
Defined.

(** A backup may hold a node without a port: it is restored, and from then on the list
    of nodes cannot be read. *)
Example restored_node_without_port :
  let node := SBJ_OBJECT [(bs "id", SBJ_STRING (bs "n1")); (bs "tag", SBJ_STRING (bs "Berlin"))] in
  match sb_store_restore_backup demo_env (Some (SBJ_OBJECT [(bs "proxy_nodes", SBJ_ARRAY [node])])) demo_hosted with
  | (Ok _, s') => exists m, fst (sb_store_list_proxy_nodes demo_env s') = Err (mk_err SB_ERR_GENERIC m)
  | _ => False
  end.
Proof. vm_compute. eexists. reflexivity. Qed.
