(* ===== verification/Observability.v ===== *)
(** * Monitoring ([c/src/observability.c])

    Samples of traffic, the state that devices report, alerts with their settings,
    and the metrics.  A program works on the tables of
    [migrations/017_observability.sql] and reads those of the repository.

    Two theorems: the traffic that is counted is what the counters of a device went
    up ([traffic_accounted]), and after an evaluation the open alerts are those
    whose condition holds ([alerts_follow_state]). *)

From Stdlib Require Import SpecFloat Sorted.
From S2P Require Import Prelude Util Json JsonText Types Sqlite SqliteProofs StoreTables.

(** ** Tables *)

Record obs_settings := mk_obs_settings { os_retention : Z; os_offline : Z; os_drift : Z; os_latency : Z; os_token : option bytes }.

(** [observability_hosts]. *)
Record obs_host := mk_obs_host {
  oh_host : bytes; oh_sampled : Z; oh_up : Z; oh_down : Z; oh_observed_up : Z; oh_observed_down : Z; oh_resets : Z; oh_status : Z;
  oh_target : bytes; oh_since : Z; oh_applied : bytes; oh_applied_at : Z }.

(** [observability_samples]: one row per device and minute. *)
Record sample_row := mk_sample {
  sa_host : bytes; sa_bucket : Z; sa_samples : Z; sa_up_average : double; sa_down_average : double; sa_connections : Z; sa_up : Z;
  sa_down : Z; sa_resets : Z }.

(** [observability_alerts]. *)
Record alert_row := mk_alert {
  al_id : Z; al_kind : bytes; al_resource : bytes; al_host : option bytes; al_opened : Z; al_updated : Z; al_resolved : option Z;
  al_acknowledged : option Z; al_by : option bytes }.

(** [ob_store] is only read; [ob_last] is the largest id that an alert has had. *)
Record obs_tables := mk_obs {
  ob_store : store_tables; ob_settings : obs_settings; ob_hosts : list obs_host; ob_samples : list sample_row;
  ob_alerts : list alert_row; ob_last : Z }.

Definition with_obs_settings (t : obs_tables) x := mk_obs (ob_store t) x (ob_hosts t) (ob_samples t) (ob_alerts t) (ob_last t).
Definition with_obs_hosts (t : obs_tables) x := mk_obs (ob_store t) (ob_settings t) x (ob_samples t) (ob_alerts t) (ob_last t).
Definition with_samples (t : obs_tables) x := mk_obs (ob_store t) (ob_settings t) (ob_hosts t) x (ob_alerts t) (ob_last t).
Definition with_alerts (t : obs_tables) x last := mk_obs (ob_store t) (ob_settings t) (ob_hosts t) (ob_samples t) x last.

(** What comes from outside.  [oe_epoch] is [strftime('%s', text)] as an integer;
    [oe_error] the member [last_error] that the JSON functions of SQLite find in a
    state, as text; [oe_sum] its sum of reals; [oe_fixed] is [%.6f]; [oe_gap] how
    many ids [AUTOINCREMENT] leaves out. *)
Record obs_env := mk_obs_env {
  oe_fault : nat -> option bytes; oe_now : nat -> Z; oe_random : nat -> option bytes; oe_sha256 : bytes -> bytes;
  oe_epoch : bytes -> option Z; oe_error : bytes -> bytes; oe_sum : list double -> double; oe_fixed : double -> bytes; oe_gap : nat -> nat }.

Abbreviation obs := (sql obs_tables unit).

Definition MAX_COUNTER : Z := 9007199254740991.

Definition saturated_add (a b : Z) : Z := if MAX_COUNTER - b <? a then MAX_COUNTER else a + b.
Definition valid_time (now : Z) : bool := (0 <? now) && (now <? 253402300800).

Definition obs_is (host : bytes) (o : obs_host) : bool := bytes_eqb (oh_host o) host.
Definition find_obs (t : obs_tables) (host : bytes) : option obs_host := List.find (obs_is host) (ob_hosts t).

Definition new_obs (host : bytes) : obs_host := mk_obs_host host 0 0 0 0 0 0 0 [] 0 [] 0.

(** The device must exist (FOREIGN KEY). *)
Definition known_device (t : obs_tables) (host : bytes) : bool := existsb (fun h => bytes_eqb (hr_id h) host) (hosts (ob_store t)).
Definition for_device {A} (host : bytes) (f : obs_tables -> A) (t : obs_tables) : result A :=
  if known_device t host then Ok (f t) else sbq_fail (bs "FOREIGN KEY constraint failed").

Section Env.
Context (env : obs_env).

Definition refuse {A} (message : string) : obs A := pure (sb_fail SB_ERR_VALIDATION (bs message)).

(** ** Samples of traffic *)

Definition ensure_host (host : bytes) : obs unit :=
  stmt (oe_fault env) (fun t =>
    if existsb (obs_is host) (ob_hosts t) then Ok (tt, t)
    else for_device host (fun t => (tt, with_obs_hosts t (ob_hosts t ++ [new_obs host]))) t).

Definition sample_fields : list string := ["up"; "down"; "up_total"; "down_total"; "conn_count"]%string.

(** A counter of the sample. *)
Definition counter_of (sample : option sbj) (field : string) : option Z :=
  let value := sbj_get sample field in
  let v := sbj_as_int value (-1) in
  if sbj_is_integer value && (0 <=? v) && (v <=? MAX_COUNTER) then Some v else None.

(** How far a counter went up: a counter that went down was reset. *)
Definition traffic_delta (at_ before value : Z) : Z := if at_ =? 0 then 0 else if before <=? value then value - before else value.

Record measured := mk_measured { ms_up : Z; ms_down : Z; ms_up_total : Z; ms_down_total : Z; ms_connections : Z }.

Definition was_reset (o : obs_host) (m : measured) : bool :=
  negb (oh_sampled o =? 0) && ((ms_up_total m <? oh_up o) || (ms_down_total m <? oh_down o)).

Definition sampled_host (now : Z) (m : measured) (o : obs_host) : obs_host :=
  mk_obs_host (oh_host o) now (ms_up_total m) (ms_down_total m)
    (saturated_add (oh_observed_up o) (traffic_delta (oh_sampled o) (oh_up o) (ms_up_total m)))
    (saturated_add (oh_observed_down o) (traffic_delta (oh_sampled o) (oh_down o) (ms_down_total m)))
    (saturated_add (oh_resets o) (if was_reset o m then 1 else 0)) (oh_status o) (oh_target o) (oh_since o) (oh_applied o) (oh_applied_at o).

(** The mean of one value more. *)
Definition running_mean (mean value : double) (samples : Z) : double :=
  SFadd 53 1024 mean (SFdiv 53 1024 (SFsub 53 1024 value mean) (double_of_Z (samples + 1))).

Definition merged_sample (new old : sample_row) : sample_row :=
  mk_sample (sa_host old) (sa_bucket old) (Z.min (sa_samples old + 1) MAX_COUNTER)
    (running_mean (sa_up_average old) (sa_up_average new) (sa_samples old))
    (running_mean (sa_down_average old) (sa_down_average new) (sa_samples old)) (Z.max (sa_connections old) (sa_connections new))
    (Z.min MAX_COUNTER (sa_up old + sa_up new)) (Z.min MAX_COUNTER (sa_down old + sa_down new)) (sa_resets old + sa_resets new).

Definition new_sample (host : bytes) (now : Z) (o : obs_host) (m : measured) : sample_row :=
  mk_sample host (now / 60 * 60) 1 (double_of_Z (ms_up m)) (double_of_Z (ms_down m)) (ms_connections m)
    (traffic_delta (oh_sampled o) (oh_up o) (ms_up_total m)) (traffic_delta (oh_sampled o) (oh_down o) (ms_down_total m))
    (if was_reset o m then 1 else 0).

Definition sample_is (host : bytes) (bucket : Z) (r : sample_row) : bool := bytes_eqb (sa_host r) host && (sa_bucket r =? bucket).

Definition record_sample (host : bytes) (now : Z) (m : measured) : obs unit :=
  _ ← ensure_host host;
  row ← query (oe_fault env) (fun t => find_obs t host);
  match row with
  | None => pure (sbq_fail [])
  | Some o =>
      if now <? oh_sampled o then mret tt
      else
        _ ← stmt (oe_fault env) (fun t => Ok (tt, with_obs_hosts t (fst (sql_update (obs_is host) (sampled_host now m) (ob_hosts t)))));
        let new := new_sample host now o m in
        stmt (oe_fault env) (fun t =>
          Ok (tt, with_samples t (sql_upsert (sample_is host (sa_bucket new)) (merged_sample new) new (ob_samples t))))
  end.

(** A sample that is older than the last one is left out. *)
Definition sb_observability_sample (host : option bytes) (sample : option sbj) (now : Z) : obs unit :=
  match host with
  | None => refuse "Invalid telemetry sample"
  | Some host =>
      if negb (valid_time now) || negb (sbj_is_object sample) then refuse "Invalid telemetry sample"
      else
        match mapM (counter_of sample) sample_fields with
        | Some [up; down; up_total; down_total; connections] =>
            transaction (oe_fault env) (record_sample (cstr host) now (mk_measured up down up_total down_total connections))
        | _ => refuse "Telemetry counters must be nonnegative safe integers"
        end
  end.

(** ** What devices should run and what they run *)

Definition sb_observability_target (host etag : option bytes) (now : Z) : obs unit :=
  match host, etag with
  | Some host, Some etag =>
      let host := cstr host in
      let etag := cstr etag in
      if bytes_eqb etag [] || (256 <? length etag)%nat || negb (valid_time now) then refuse "Invalid configuration target"
      else
        stmt (oe_fault env) (for_device host (fun t =>
          (tt, with_obs_hosts t (sql_upsert (obs_is host)
            (fun o => mk_obs_host (oh_host o) (oh_sampled o) (oh_up o) (oh_down o) (oh_observed_up o) (oh_observed_down o) (oh_resets o)
                        (oh_status o) etag (if bytes_eqb (oh_target o) etag then oh_since o else now) (oh_applied o) (oh_applied_at o))
            (mk_obs_host host 0 0 0 0 0 0 0 etag now [] 0) (ob_hosts t)))))
  | _, _ => refuse "Invalid configuration target"
  end.

Definition text_member (v : option sbj) (key : string) : bytes := cstr (default [] (sbj_get_str v key None)).

Definition sb_observability_status (host : option bytes) (state : option sbj) (now : Z) : obs unit :=
  match host with
  | None => refuse "Invalid runtime status"
  | Some host =>
      let host := cstr host in
      if negb (sbj_is_object state) || negb (valid_time now) then refuse "Invalid runtime status"
      else
        let etag := text_member state "etag" in
        let applied := sbj_get_bool state "running" false && negb (bytes_eqb etag []) && (length etag <=? 256)%nat &&
                       bytes_eqb (text_member state "last_error") [] in
        let new_etag := if applied then etag else [] in
        let new_at := if applied then now else 0 in
        stmt (oe_fault env) (for_device host (fun t =>
          (tt, with_obs_hosts t (sql_upsert (obs_is host)
            (fun o => mk_obs_host (oh_host o) (oh_sampled o) (oh_up o) (oh_down o) (oh_observed_up o) (oh_observed_down o) (oh_resets o)
                        (Z.max (oh_status o) now) (oh_target o) (oh_since o) (if applied then new_etag else oh_applied o)
                        (if applied then new_at else oh_applied_at o))
            (mk_obs_host host 0 0 0 0 0 0 now [] 0 new_etag new_at) (ob_hosts t)))))
  end.

(** ** Settings *)

Definition settings_json (s : obs_settings) : sbj :=
  let out := sbj_set_int (SBJ_OBJECT []) "retention_days" (os_retention s) in
  let out := sbj_set_int out "offline_seconds" (os_offline s) in
  let out := sbj_set_int out "drift_seconds" (os_drift s) in
  let out := sbj_set_int out "node_latency_ms" (os_latency s) in
  let out := sbj_set_bool out "metrics_token_configured" (match os_token s with Some _ => true | None => false end) in
  sbj_set_int (sbj_set_int out "sample_bucket_seconds" 60) "evaluation_interval_seconds" 30.

Definition settings_locked : obs sbj := query (oe_fault env) (fun t => settings_json (ob_settings t)).
Definition sb_observability_settings : obs sbj := settings_locked.

Definition setting_ranges : list (string * Z * Z) :=
  [("retention_days", 1, 365); ("offline_seconds", 30, 86400); ("drift_seconds", 30, 86400); ("node_latency_ms", 1, 60000)]%string.

Definition setting_in (settings : option sbj) (range : string * Z * Z) : result Z :=
  let '(field, low, high) := range in
  let v := sbj_get_int settings field (-1) in
  if sbj_is_integer (sbj_get settings field) && (low <=? v) && (v <=? high) then Ok v
  else sb_fail SB_ERR_VALIDATION (bs "Invalid observability setting: " ++ bs field).

Definition sb_observability_configure (settings : option sbj) : obs unit :=
  v ← pure (mapM (setting_in settings) setting_ranges);
  match v with
  | [retention; offline; drift; latency] =>
      stmt (oe_fault env) (fun t => Ok (tt, with_obs_settings t (mk_obs_settings retention offline drift latency (os_token (ob_settings t)))))
  | _ => mret tt
  end.
(** ** Alerts *)

Definition alert_is (kind resource : bytes) (a : alert_row) : bool :=
  bytes_eqb (al_kind a) kind && bytes_eqb (al_resource a) resource && match al_resolved a with None => true | Some _ => false end.

Definition touched (now : Z) (a : alert_row) : alert_row :=
  mk_alert (al_id a) (al_kind a) (al_resource a) (al_host a) (al_opened a) now (al_resolved a) (al_acknowledged a) (al_by a).
Definition resolved (now : Z) (a : alert_row) : alert_row :=
  mk_alert (al_id a) (al_kind a) (al_resource a) (al_host a) (al_opened a) now (Some now) (al_acknowledged a) (al_by a).

Definition open_alert (kind resource : bytes) (host : option bytes) (now : Z) (gap : nat) (t : obs_tables) : result (unit * obs_tables) :=
  if existsb (alert_is kind resource) (ob_alerts t)
  then Ok (tt, with_alerts t (fst (sql_update (alert_is kind resource) (touched now) (ob_alerts t))) (ob_last t))
  else
    let id := ob_last t + 1 + Z.of_nat gap in
    let add t := (tt, with_alerts t (ob_alerts t ++ [mk_alert id kind resource host now now None None None]) id) in
    match host with None => Ok (add t) | Some h => for_device h add t end.

Definition close_alert (kind resource : bytes) (now : Z) (t : obs_tables) : unit * obs_tables :=
  (tt, with_alerts t (fst (sql_update (alert_is kind resource) (resolved now) (ob_alerts t))) (ob_last t)).

Definition alert_locked (kind : string) (resource : bytes) (host : option bytes) (active : bool) (now : Z) : obs unit :=
  let resource := cstr resource in
  let host := cstr <$> host in
  if active then
    gap ← ask (oe_gap env);
    stmt (oe_fault env) (open_alert (bs kind) resource host now gap)
  else stmt (oe_fault env) (fun t => Ok (close_alert (bs kind) resource now t)).

(** A time of 0 and an empty text stand for none. *)
Definition device_offline (s : obs_settings) (now : Z) (o : option obs_host) (h : host_row) : bool :=
  let seen := match o with Some o => oh_status o | None => 0 end in
  let created := default 0 (oe_epoch env (hr_created h)) in
  hr_enabled h && (os_offline s <=? now - (if seen =? 0 then created else seen)) && negb (bytes_eqb (cstr (hr_id h)) (bs "self")).

Definition config_drift (s : obs_settings) (now : Z) (o : option obs_host) (h : host_row) : bool :=
  match o with
  | Some o =>
      let target := cstr (oh_target o) in
      hr_enabled h && (negb (bytes_eqb target []) && negb (bytes_eqb target (cstr (oh_applied o))) && negb (oh_since o =? 0) &&
                       (os_drift s <=? now - oh_since o))
  | None => false
  end.

Definition config_failure (h : host_row) : bool :=
  hr_enabled h && negb (bytes_eqb (cstr (match hr_state h with Some state => oe_error env state | None => [] end)) []).

Definition host_verdicts (s : obs_settings) (now : Z) (row : host_row * option obs_host) : list (string * bool) :=
  let (h, o) := row in
  [("device_offline", device_offline s now o h); ("config_drift", config_drift s now o h); ("config_failure", config_failure h)]%string.

Definition node_verdicts (s : obs_settings) (now : Z) (n : node_row) : list (string * bool) :=
  let tested := default 0 (text ← nr_latency_test n; oe_epoch env text) in
  let fresh := nr_enabled n && (0 <? tested) && (tested <=? now) && (now - tested <=? 3600) in
  let failed := match nr_latency n with None => true | Some l => SFltb l (double_of_Z 0) end in
  let slow := match nr_latency n with None => false | Some l => SFleb (double_of_Z (os_latency s)) l end in
  let stale := nr_enabled n && (0 <? tested) && (3600 <? now - tested) in
  [("node_unreachable", fresh && failed); ("node_slow", fresh && negb failed && slow); ("node_probe_stale", stale)]%string.

Definition device_rows (t : obs_tables) : list (host_row * option obs_host) := (fun h => (h, find_obs t (hr_id h))) <$> hosts (ob_store t).

Fixpoint alert_verdicts (resource : bytes) (host : option bytes) (now : Z) (l : list (string * bool)) : obs unit :=
  match l with
  | [] => mret tt
  | (kind, active) :: l' => _ ← alert_locked kind resource host active now; alert_verdicts resource host now l'
  end.

Definition node_kinds : list bytes := bs <$> ["node_unreachable"; "node_slow"; "node_probe_stale"]%string.

(** An open alert of a node that is gone. *)
Definition orphaned (t : obs_tables) (a : alert_row) : bool :=
  match al_resolved a, al_host a with
  | None, None => existsb (bytes_eqb (al_kind a)) node_kinds && negb (existsb (fun n => bytes_eqb (nr_id n) (al_resource a)) (nodes (ob_store t)))
  | _, _ => false
  end.

Definition expired_alert (limit : Z) (a : alert_row) : bool := match al_resolved a with Some _ => al_updated a <? limit | None => false end.

Definition evaluate_locked (now : Z) : obs unit :=
  s ← query (oe_fault env) (fun t => ob_settings t);
  rows ← query (oe_fault env) device_rows;
  _ ← for_rows (oe_fault env) rows (fun row _ =>
        let id := hr_id (fst row) in alert_verdicts id (Some id) now (host_verdicts s now row)) tt;
  rows ← query (oe_fault env) (fun t => nodes (ob_store t));
  _ ← for_rows (oe_fault env) rows (fun n _ => alert_verdicts (nr_id n) None now (node_verdicts s now n)) tt;
  _ ← stmt (oe_fault env) (fun t => Ok (tt, with_alerts t (fst (sql_update (orphaned t) (resolved now) (ob_alerts t))) (ob_last t)));
  let limit := now - os_retention s * 86400 in
  _ ← stmt (oe_fault env) (fun t => Ok (tt, with_samples t (List.filter (fun r => negb (sa_bucket r <? limit)) (ob_samples t))));
  stmt (oe_fault env) (fun t => Ok (tt, with_alerts t (List.filter (fun a => negb (expired_alert limit a)) (ob_alerts t)) (ob_last t))).

Definition sb_observability_evaluate (now : Z) : obs unit :=
  if negb (valid_time now) then refuse "Invalid monitor time" else transaction (oe_fault env) (evaluate_locked now).

(** ** What is shown *)

Definition history_group (step : Z) (r : sample_row) : Z := Z.quot (sa_bucket r) step * step.

(** The smaller of the limit and a sum of reals, as an integer. *)
Definition total_bytes (l : list Z) : Z :=
  let sum := oe_sum env (double_of_Z <$> l) in
  if SFltb sum (double_of_Z MAX_COUNTER) then double_trunc sum else MAX_COUNTER.

Definition weighted_mean (average : sample_row -> double) (rows : list sample_row) (samples : Z) : double :=
  SFdiv 53 1024 (oe_sum env ((fun r => SFmul 53 1024 (average r) (double_of_Z (sa_samples r))) <$> rows)) (double_of_Z samples).

Definition history_json (at_ : Z) (rows : list sample_row) : result sbj :=
  samples ← sql_sum sa_samples rows;
  resets ← sql_sum sa_resets rows;
  let out := sbj_set_int (SBJ_OBJECT []) "at" at_ in
  let out := sbj_set_int out "samples" samples in
  let out := sbj_set out "up_average" (SBJ_FLOAT (weighted_mean sa_up_average rows samples)) in
  let out := sbj_set out "down_average" (SBJ_FLOAT (weighted_mean sa_down_average rows samples)) in
  let out := sbj_set_int out "connections_max" (foldr (fun r m => Z.max (sa_connections r) m) 0 rows) in
  let out := sbj_set_int out "up_bytes" (total_bytes (sa_up <$> rows)) in
  let out := sbj_set_int out "down_bytes" (total_bytes (sa_down <$> rows)) in
  Ok (sbj_set_int out "counter_resets" resets).

Definition history_rows (t : obs_tables) (host : bytes) (from to : Z) : list sample_row :=
  List.filter (fun r => bytes_eqb (sa_host r) host && (from <=? sa_bucket r) && (sa_bucket r <=? to)) (ob_samples t).

Definition history_groups (step : Z) (rows : list sample_row) : list Z := remove_dups (order_by Z.leb (history_group step <$> rows)).

Definition history_of (step : Z) (rows : list sample_row) : result sbj :=
  l ← mapM (fun g => history_json g (List.filter (fun r => history_group step r =? g) rows)) (history_groups step rows);
  Ok (SBJ_ARRAY l).

Definition history_range (from to step : Z) : bool :=
  valid_time from && valid_time to && (from <=? to) && (to - from <=? 366 * 86400) && existsb (Z.eqb step) [60; 300; 3600; 86400] &&
  ((to - from) / step <=? 2000).

Definition sb_observability_history (host : option bytes) (from to step : Z) : obs sbj :=
  match host with
  | Some host =>
      if history_range from to step
      then stmt (oe_fault env) (fun t => out ← history_of step (history_rows t (cstr host) from to); Ok (out, t))
      else refuse "History requires a range of at most 2000 buckets and a 60/300/3600/86400-second step"
  | None => refuse "History requires a range of at most 2000 buckets and a 60/300/3600/86400-second step"
  end.

Definition host_le (a b : host_row) : bool :=
  match key_compare (hr_name a) (hr_name b) with Lt => true | Gt => false | Eq => text_le (hr_id a) (hr_id b) end.

Definition last_sample (t : obs_tables) (o : obs_host) : option sample_row :=
  List.find (sample_is (oh_host o) (Z.quot (oh_sampled o) 60 * 60)) (ob_samples t).

Definition online (s : obs_settings) (now : Z) (h : host_row) (o : obs_host) : bool :=
  hr_enabled h && (0 <? oh_status o) && (now - oh_status o <? os_offline s).

Definition host_item (now : Z) (t : obs_tables) (h : host_row) : sbj :=
  let row := find_obs t (hr_id h) in
  let o := default (new_obs (hr_id h)) row in
  let last := o ← row; last_sample t o in
  let runtime := sbj_parse (cstr (default [] (hr_state h))) in
  let item := sbj_set_str (SBJ_OBJECT []) "host_id" (hr_id h) in
  let item := sbj_set_str item "name" (hr_name h) in
  let item := sbj_set_bool item "enabled" (hr_enabled h) in
  let item := sbj_set_int item "sampled_at" (oh_sampled o) in
  let item := sbj_set_int item "observed_up" (oh_observed_up o) in
  let item := sbj_set_int item "observed_down" (oh_observed_down o) in
  let item := sbj_set_int item "counter_resets" (oh_resets o) in
  let item := sbj_set_int item "status_at" (oh_status o) in
  let item := sbj_set_str item "target_etag" (oh_target o) in
  let item := sbj_set_str item "applied_etag" (oh_applied o) in
  let item := sbj_set_int item "applied_at" (oh_applied_at o) in
  let item := sbj_set item "up_average" (SBJ_FLOAT (match last with Some r => sa_up_average r | None => double_of_Z 0 end)) in
  let item := sbj_set item "down_average" (SBJ_FLOAT (match last with Some r => sa_down_average r | None => double_of_Z 0 end)) in
  let item := sbj_set_int item "connections_max" (match last with Some r => sa_connections r | None => 0 end) in
  let item := sbj_set_bool item "online" (online (ob_settings t) now h o) in
  let item := sbj_set_str item "app_version" (default [] (sbj_get_str runtime "app_version" None)) in
  let item := sbj_set_str item "core_version" (default [] (sbj_get_str runtime "version" None)) in
  let item := sbj_set_str item "last_error" (default [] (sbj_get_str runtime "last_error" None)) in
  sbj_set_bool item "running" (sbj_get_bool runtime "running" false).

Definition sb_observability_hosts (now : Z) : obs sbj :=
  query (oe_fault env) (fun t => SBJ_ARRAY (host_item now t <$> order_by host_le (hosts (ob_store t)))).

Definition opt_int (v : option Z) : sbj := match v with Some z => SBJ_INT z | None => SBJ_NULL end.

Definition alert_json (a : alert_row) : sbj :=
  let item := sbj_set_int (SBJ_OBJECT []) "id" (al_id a) in
  let item := sbj_set item "kind" (sbj_str (Some (al_kind a))) in
  let item := sbj_set item "resource_id" (sbj_str (Some (al_resource a))) in
  let item := sbj_set item "host_id" (match al_host a with Some h => sbj_str (Some h) | None => SBJ_NULL end) in
  let item := sbj_set_int item "opened_at" (al_opened a) in
  let item := sbj_set_int item "updated_at" (al_updated a) in
  sbj_set (sbj_set item "resolved_at" (opt_int (al_resolved a))) "acknowledged_at" (opt_int (al_acknowledged a)).

Definition alert_listed (host : option bytes) (active : bool) (a : alert_row) : bool :=
  match host with None => true | Some h => match al_host a with Some x => bytes_eqb x (cstr h) | None => false end end &&
  (negb active || match al_resolved a with None => true | Some _ => false end).

Definition alert_le (a b : alert_row) : bool := (al_opened b <? al_opened a) || ((al_opened a =? al_opened b) && (al_id b <=? al_id a)).

Definition sb_observability_alerts (host : option bytes) (active : bool) : obs sbj :=
  query (oe_fault env) (fun t => SBJ_ARRAY (alert_json <$> take 500 (order_by alert_le (List.filter (alert_listed host active) (ob_alerts t))))).

Definition acknowledged (now : Z) (user : option bytes) (a : alert_row) : alert_row :=
  mk_alert (al_id a) (al_kind a) (al_resource a) (al_host a) (al_opened a) (al_updated a) (al_resolved a) (Some now) user.

Definition open_with_id (id : Z) (a : alert_row) : bool := (al_id a =? id) && match al_resolved a with None => true | Some _ => false end.

(** The account must exist (FOREIGN KEY). *)
Definition sb_observability_ack (id : Z) (user : option bytes) : obs unit :=
  now ← ask (oe_now env);
  let user := cstr <$> user in
  changes ← stmt (oe_fault env) (fun t =>
    let (l, n) := sql_update (open_with_id id) (acknowledged now user) (ob_alerts t) in
    if match user with Some u => (0 <? n)%nat && negb (existsb (fun x => bytes_eqb (us_id x) u) (users (ob_store t))) | None => false end
    then sbq_fail (bs "FOREIGN KEY constraint failed") else Ok (n, with_alerts t l (ob_last t)));
  if (changes =? 0)%nat then pure (sb_fail SB_ERR_NOT_FOUND (bs "Active alert not found")) else mret tt.

(** ** Metrics *)

Definition metrics_prefix : bytes := bs "sbm_".
Definition token_hash (token : bytes) : bytes := sb_hex_encode (oe_sha256 env token).

Definition set_token (hash : option bytes) (t : obs_tables) : obs_tables :=
  let s := ob_settings t in with_obs_settings t (mk_obs_settings (os_retention s) (os_offline s) (os_drift s) (os_latency s) hash).

Definition sb_observability_rotate_token (revoke : bool) : obs bytes :=
  if revoke then _ ← stmt (oe_fault env) (fun t => Ok (tt, set_token None t)); mret []
  else
    random ← ask (oe_random env);
    match random with
    | None => pure (sb_fail SB_ERR_GENERIC (bs "Random generation failed"))
    | Some random =>
        let token := metrics_prefix ++ sb_hex_encode random in
        _ ← stmt (oe_fault env) (fun t => Ok (tt, set_token (Some (token_hash token)) t));
        mret token
    end.

(** A failure of the statement is a refusal. *)
Definition sb_observability_check_token (token : option bytes) : obs bool :=
  match token with
  | None => mret false
  | Some token =>
      let token := cstr token in
      if negb (length token =? 68)%nat || negb (bytes_eqb (take 4 token) metrics_prefix) then mret false
      else
        r ← attempt (query (oe_fault env) (fun t => os_token (ob_settings t)));
        mret (match r with
              | Ok (Some saved) => let saved := cstr saved in (length saved =? 64)%nat && bytes_eqb (take 64 (token_hash token)) saved
              | _ => false
              end)
  end.

Definition metric_char (c : ascii) : bytes :=
  (if (code c =? 92) || (code c =? 34) then [chr 92] else []) ++
  (if code c =? 10 then [chr 92; chr 110] else if (code c <? 32) || (code c =? 127) then [chr 63] else [c]).
Definition metric_label (text : bytes) : bytes := cstr text ≫= metric_char.

Definition nl : bytes := [chr 10].
Definition metric_help (name kind help : string) : bytes :=
  bs "# HELP " ++ bs name ++ bs " " ++ bs help ++ nl ++ bs "# TYPE " ++ bs name ++ bs " " ++ bs kind ++ nl.

Definition metrics_head : bytes :=
  metric_help "sb_easy_device_online" "gauge" "Recent enabled device status report." ++
  metric_help "sb_easy_device_report_timestamp_seconds" "gauge" "Last device status receipt." ++
  metric_help "sb_easy_traffic_observed_bytes_total" "counter" "Observed counter deltas since monitoring began; first sample is a baseline." ++
  metric_help "sb_easy_traffic_sample_timestamp_seconds" "gauge" "Last telemetry receipt; check freshness before using bucket rates." ++
  metric_help "sb_easy_traffic_bytes_per_second" "gauge" "Latest sampled minute mean rate." ++
  metric_help "sb_easy_traffic_counter_resets_total" "counter" "Observed device counter decreases." ++
  metric_help "sb_easy_alert_active" "gauge" "Active alert instances.".

Definition in_quotes (s : bytes) : bytes := [chr 34] ++ s ++ [chr 34].
(** A line: name, labels and value. *)
Definition metric_line (name : string) (labels : list (string * bytes)) (value : bytes) : bytes :=
  bs name ++ bs "{" ++ mjoin (imap (fun i l => (if (i =? 0)%nat then [] else bs ",") ++ bs (fst l) ++ bs "=" ++ in_quotes (snd l)) labels) ++
  bs "} " ++ value ++ nl.

Definition host_metrics (h : sbj) : bytes :=
  let host := Some h in
  let id := metric_label (default [] (sbj_get_str host "host_id" None)) in
  let int key := fmt_int (sbj_get_int host key 0) in
  let direction name counter rate :=
    metric_line "sb_easy_traffic_observed_bytes_total" [("host_id", id); ("direction", bs name)] (int counter) ++
    metric_line "sb_easy_traffic_bytes_per_second" [("host_id", id); ("direction", bs name)] (oe_fixed env (sbj_as_double (sbj_get host rate) (double_of_Z 0))) in
  metric_line "sb_easy_device_online" [("host_id", id)] (if sbj_get_bool host "online" false then bs "1" else bs "0") ++
  metric_line "sb_easy_device_report_timestamp_seconds" [("host_id", id)] (int "status_at"%string) ++
  metric_line "sb_easy_traffic_sample_timestamp_seconds" [("host_id", id)] (int "sampled_at"%string) ++
  metric_line "sb_easy_traffic_counter_resets_total" [("host_id", id)] (int "counter_resets"%string) ++
  direction "up"%string "observed_up"%string "up_average"%string ++ direction "down"%string "observed_down"%string "down_average"%string.

Definition alert_metric (a : sbj) : bytes :=
  metric_line "sb_easy_alert_active"
    [("kind", cstr (default [] (sbj_get_str (Some a) "kind" None))); ("resource_id", metric_label (default [] (sbj_get_str (Some a) "resource_id" None)))]
    (bs "1").

Definition items_of (v : sbj) : list sbj := match v with SBJ_ARRAY l => l | _ => [] end.

Definition sb_observability_prometheus (now : Z) : obs bytes :=
  hosts ← sb_observability_hosts now;
  alerts ← sb_observability_alerts None true;
  mret (metrics_head ++ mjoin (host_metrics <$> items_of hosts) ++ mjoin (alert_metric <$> items_of alerts)).
End Env.

(** * Theorems *)

Lemma Forall2_in_r {A B} (R : A -> B -> Prop) l k y : Forall2 R l k -> y ∈ k -> exists x, x ∈ l /\ R x y.
Proof.
  induction 1 as [|a b l k Rab _ IH]; [by intros ?%elem_of_nil|]. intros [->|I]%elem_of_cons; [exists a; split; [by left|done]|].
  destruct (IH I) as (x & X & Rx). exists x. split; [by right|done].
Qed.

Lemma Forall2_in_l {A B} (R : A -> B -> Prop) l k x : Forall2 R l k -> x ∈ l -> exists y, y ∈ k /\ R x y.
Proof. intros F I. apply Forall2_flip in F. by apply (Forall2_in_r _ _ _ _ F). Qed.

(** ** Alerts *)

(** A judgement: what the alert of a kind on a resource should be. *)
Record verdict := mk_verdict { vd_kind : bytes; vd_resource : bytes; vd_host : option bytes; vd_active : bool }.
Definition vd_key (v : verdict) : bytes * bytes := (vd_kind v, vd_resource v).
Definition al_key (a : alert_row) : bytes * bytes := (al_kind a, al_resource a).
Definition is_open (a : alert_row) : bool := match al_resolved a with None => true | Some _ => false end.

Definition open_in (l : list alert_row) (key : bytes * bytes) : Prop := exists a, a ∈ l /\ al_key a = key /\ is_open a = true.

Definition fresh_alert (now id : Z) (v : verdict) : alert_row := mk_alert id (vd_kind v) (vd_resource v) (vd_host v) now now None None None.

Definition on_verdict (v : verdict) : alert_row -> bool := alert_is (vd_kind v) (vd_resource v).

(** What one judgement does to the alerts. *)
Definition effect (now : Z) (v : verdict) (p p' : list alert_row * Z) : Prop :=
  let (l, last) := p in
  if vd_active v then
    if existsb (on_verdict v) l then p' = (map (fun a => if on_verdict v a then touched now a else a) l, last)
    else exists gap : nat, p' = (l ++ [fresh_alert now (last + 1 + Z.of_nat gap) v], last + 1 + Z.of_nat gap)
  else p' = (map (fun a => if on_verdict v a then resolved now a else a) l, last).

Inductive effects (now : Z) : list verdict -> list alert_row * Z -> list alert_row * Z -> Prop :=
  | effects_nil p : effects now [] p p
  | effects_cons v vs p1 p2 p3 : effect now v p1 p2 -> effects now vs p2 p3 -> effects now (v :: vs) p1 p3.

Lemma effects_app now vs ws p1 p2 p3 : effects now vs p1 p2 -> effects now ws p2 p3 -> effects now (vs ++ ws) p1 p3.
Proof. induction 1 as [|v vs p1 p2 p4 E _ IH]; cbn [app]; [done|]. intros W. by eapply effects_cons; [|apply IH]. Qed.

Lemma alert_is_iff k r a : alert_is k r a = true <-> al_key a = (k, r) /\ is_open a = true.
Proof.
  unfold alert_is, al_key, is_open. rewrite !andb_true_iff, !bytes_eqb_eq. split; [intros [[-> ->] ?]; done|]. by intros [[= -> ->] ?].
Qed.

Lemma on_verdict_iff v a : on_verdict v a = true <-> al_key a = vd_key v /\ is_open a = true.
Proof. apply alert_is_iff. Qed.

(** The judgement on an alert, if there is one. *)
Definition judged (vs : list verdict) (a : alert_row) : option bool := vd_active <$> List.find (fun v => on_verdict v a) vs.

Definition changed (now : Z) (vs : list verdict) (a : alert_row) : alert_row :=
  match judged vs a with Some true => touched now a | Some false => resolved now a | None => a end.

Lemma judged_none vs a : (forall v, v ∈ vs -> vd_key v <> al_key a) -> judged vs a = None.
Proof.
  intros H. unfold judged. destruct (List.find _ vs) as [v|] eqn:F; [|done]. apply find_In in F as [I O%on_verdict_iff]. destruct O as [E _].
  destruct (H v I). by rewrite E.
Qed.

Lemma judged_closed vs a : is_open a = false -> judged vs a = None.
Proof.
  intros C. unfold judged. destruct (List.find _ vs) as [v|] eqn:F; [|done]. apply find_In in F as [_ O%on_verdict_iff]. destruct O as [_ O].
  by rewrite C in O.
Qed.

(** The alerts that are opened, in the order of the judgements. *)
Definition opening (vs : list verdict) (l : list alert_row) : list verdict :=
  List.filter (fun v => vd_active v && negb (existsb (on_verdict v) l)) vs.

Definition opened_as (now last : Z) (vs : list verdict) (news : list alert_row) (last' : Z) : Prop :=
  Forall2 (fun v a => exists id, last < id <= last' /\ a = fresh_alert now id v) vs news /\ NoDup (al_id <$> news) /\ last <= last'.

Lemma changed_same_key now v vs a g :
  NoDup (vd_key <$> (v :: vs)) -> on_verdict v a = true -> (forall x, al_key (g x) = al_key x) -> changed now vs (g a) = g a.
Proof.
  intros N [K _]%on_verdict_iff G. unfold changed. rewrite judged_none; [done|]. intros w W. rewrite G, K. apply NoDup_cons in N as [N _].
  intros E. apply N. rewrite <- E. by apply list_elem_of_fmap_2.
Qed.

Lemma changed_cons now v vs a : on_verdict v a = false -> changed now (v :: vs) a = changed now vs a.
Proof. intros E. unfold changed, judged. cbn [List.find]. by rewrite E. Qed.

Lemma changed_head now v vs a : on_verdict v a = true -> changed now (v :: vs) a = if vd_active v then touched now a else resolved now a.
Proof. intros E. unfold changed, judged. cbn [List.find]. rewrite E. cbn. by destruct (vd_active v). Qed.

(** Alerts that change keep their key, and only one that is closed is open no more. *)
Lemma existsb_other v w l g :
  vd_key v <> vd_key w -> (forall x, al_key (g x) = al_key x) ->
  existsb (on_verdict w) (map (fun a => if on_verdict v a then g a else a) l) = existsb (on_verdict w) l.
Proof.
  intros N G. induction l as [|a l IH]; [done|]. cbn [map existsb]. rewrite IH. f_equal. destruct (on_verdict v a) eqn:V; [|done].
  apply on_verdict_iff in V as [K _]. destruct (on_verdict w a) eqn:W.
  - apply on_verdict_iff in W as [K' _]. congruence.
  - destruct (on_verdict w (g a)) eqn:W'; [|done]. apply on_verdict_iff in W' as [K' _]. rewrite G in K'. congruence.
Qed.

Lemma opening_ext vs l l' : (forall v, v ∈ vs -> existsb (on_verdict v) l = existsb (on_verdict v) l') -> opening vs l = opening vs l'.
Proof.
  unfold opening. induction vs as [|v vs IH]; intros H; [done|]. cbn [List.filter]. rewrite (H v) by (by left).
  rewrite IH by (intros w W; apply H; by right). done.
Qed.

Lemma NoDup_keys_tail (v w : verdict) vs : NoDup (vd_key <$> (v :: vs)) -> w ∈ vs -> vd_key v <> vd_key w.
Proof. intros [N _]%NoDup_cons W E. apply N. rewrite E. by apply list_elem_of_fmap_2. Qed.

Lemma map_changed_cons now v vs l g :
  NoDup (vd_key <$> (v :: vs)) -> (forall x, al_key (g x) = al_key x) -> (forall x, (if vd_active v then touched now x else resolved now x) = g x) ->
  map (changed now vs) (map (fun a => if on_verdict v a then g a else a) l) = map (changed now (v :: vs)) l.
Proof.
  intros N G E. rewrite map_map. apply map_ext. intros a. destruct (on_verdict v a) eqn:V.
  - rewrite changed_head by done. rewrite E. by eapply changed_same_key.
  - by rewrite changed_cons.
Qed.

Lemma effects_spec now vs l last l' last' :
  NoDup (vd_key <$> vs) -> effects now vs (l, last) (l', last') ->
  exists news, l' = map (changed now vs) l ++ news /\ opened_as now last (opening vs l) news last'.
Proof.
  intros N E. remember (l, last) as p eqn:P. remember (l', last') as p' eqn:P'. revert l last l' last' P P' N.
  induction E as [p|v vs p1 [l2 last2] p3 E _ IH]; intros l last l' last' P P' N.
  { subst. injection P' as <- <-. exists []. rewrite app_nil_r. split; [by rewrite map_id|]. split_and!; [constructor|constructor|lia]. }
  subst p1 p3. pose proof N as [_ N']%NoDup_cons. specialize (IH _ _ _ _ eq_refl eq_refl N'). destruct IH as (news & -> & F & D & L).
  unfold effect in E. destruct (vd_active v) eqn:A; [destruct (existsb (on_verdict v) l) eqn:X|].
  - injection E as -> ->. exists news. rewrite (map_changed_cons now v vs) by (try done; by rewrite A). split; [done|].
    unfold opening. cbn [List.filter]. rewrite A, X. cbn [andb negb]. fold (opening vs l). split_and!; try done.
    erewrite opening_ext; [exact F|]. intros w W. symmetry. apply existsb_other; [by eapply NoDup_keys_tail|done].
  - destruct E as (gap & [= -> ->]). exists (fresh_alert now (last + 1 + Z.of_nat gap) v :: news).
    assert (map (changed now vs) l = map (changed now (v :: vs)) l) as M.
    { apply map_ext_in. intros a I. rewrite changed_cons; [done|]. rewrite existsb_none in X. by apply X, list_elem_of_In. }
    rewrite map_app, M, <- app_assoc. cbn [map app]. split.
    { f_equal. f_equal. unfold changed. rewrite judged_none; [done|]. intros w W Ew. by apply (NoDup_keys_tail _ _ _ N W). }
    unfold opening. cbn [List.filter]. rewrite A, X. cbn [andb negb]. fold (opening vs l).
    assert (opening vs (l ++ [fresh_alert now (last + 1 + Z.of_nat gap) v]) = opening vs l) as Op.
    { apply opening_ext. intros w W. rewrite existsb_app. cbn [existsb]. rewrite orb_false_r. destruct (on_verdict w (fresh_alert _ _ _)) eqn:O; [|by rewrite orb_false_r].
      apply on_verdict_iff in O as [K _]. destruct (NoDup_keys_tail _ _ _ N W). exact K. }
    rewrite Op in F. split_and!.
    + constructor; [eexists; split; [|done]; lia|]. eapply Forall2_impl; [exact F|]. cbn. intros w a (id & I & ->). exists id. split; [lia|done].
    + cbn. constructor; [|done]. intros (a & Ea & Ia)%list_elem_of_fmap. destruct (Forall2_in_r _ _ _ _ F Ia) as (w & _ & (id & I & ->)). cbn in Ea. lia.
    + lia.
  - injection E as -> ->. exists news. rewrite (map_changed_cons now v vs) by (try done; by rewrite A). split; [done|].
    unfold opening. cbn [List.filter]. rewrite A. cbn [andb]. fold (opening vs l). split_and!; try done.
    erewrite opening_ext; [exact F|]. intros w W. symmetry. apply existsb_other; [by eapply NoDup_keys_tail|done].
Qed.

Section Evaluate.
Context (env : obs_env).

Definition verdicts_of (resource : bytes) (host : option bytes) (l : list (string * bool)) : list verdict :=
  (fun kv => mk_verdict (bs (fst kv)) (cstr resource) (cstr <$> host) (snd kv)) <$> l.

(** The alerts of the tables go from one state to another, and nothing else. *)
Definition judged_to (now : Z) (vs : list verdict) (s s' : conn obs_tables unit) : Prop :=
  exists l last, db s' = with_alerts (db s) l last /\ effects now vs (ob_alerts (db s), ob_last (db s)) (l, last).

Lemma with_alerts_same t : with_alerts t (ob_alerts t) (ob_last t) = t.
Proof. by destruct t. Qed.

Lemma judged_refl now s s' : db s' = db s -> judged_to now [] s s'.
Proof. intros E. exists (ob_alerts (db s)), (ob_last (db s)). split; [by rewrite with_alerts_same|constructor]. Qed.

Lemma judged_trans now vs ws s s1 s2 : judged_to now vs s s1 -> judged_to now ws s1 s2 -> judged_to now (vs ++ ws) s s2.
Proof.
  intros (l & last & E1 & F1) (l' & last' & E2 & F2). exists l', last'. rewrite E2, E1. split; [done|]. rewrite E1 in F2. by eapply effects_app.
Qed.

Lemma wp_alert_locked kind resource host active now s :
  wp (alert_locked env kind resource host active now) (fun _ s' => judged_to now (verdicts_of resource host [(kind, active)]) s s') no_care s.
Proof.
  unfold alert_locked, verdicts_of. cbn [fmap list_fmap fst snd].
  assert (forall t l last s1, db s1 = with_alerts (db s) l last -> db s = t -> effect now (mk_verdict (bs kind) (cstr resource) (cstr <$> host) active) (ob_alerts t, ob_last t) (l, last) ->
    judged_to now [mk_verdict (bs kind) (cstr resource) (cstr <$> host) active] s s1) as J.
  { intros t l last s1 E1 <- F. exists l, last. split; [done|]. by eapply effects_cons; [|constructor]. }
  destruct active.
  - apply wp_bind, wp_ask, wp_stmt; [done|]. cbn [db mem asked]. unfold open_alert. destruct (existsb _ _) eqn:X.
    + eapply J; [done..|]. unfold effect. cbn [vd_active]. unfold on_verdict at 1. cbn [vd_kind vd_resource]. by rewrite X.
    + destruct (cstr <$> host) as [h|] eqn:H; [unfold for_device; destruct (known_device _ _); [|done]|];
        (eapply J; [done..|]; unfold effect; cbn [vd_active]; unfold on_verdict at 1; cbn [vd_kind vd_resource]; rewrite X; by eexists).
  - apply wp_stmt; [done|]. by eapply J.
Qed.

Lemma wp_alert_verdicts resource host now l s :
  wp (alert_verdicts env resource host now l) (fun _ s' => judged_to now (verdicts_of resource host l) s s') no_care s.
Proof.
  revert s. induction l as [|[kind active] l IH]; intros s; cbn [alert_verdicts]; [apply wp_ret; by apply judged_refl|].
  apply wp_bind. eapply wp_mono; [apply wp_alert_locked|..]; [|done]. intros ? s1 J1. eapply wp_mono; [apply IH|..]; [|done].
  intros ? s2 J2. change (verdicts_of resource host ((kind, active) :: l)) with (verdicts_of resource host [(kind, active)] ++ verdicts_of resource host l).
  eapply judged_trans; [exact J1|]. exact J2.
Qed.

Lemma wp_judge_rows {R} (rows : list R) (id : R -> bytes) (host : R -> option bytes) (l : R -> list (string * bool)) now s :
  wp (for_rows (oe_fault env) rows (fun r _ => alert_verdicts env (id r) (host r) now (l r)) tt)
     (fun _ s' => judged_to now (rows ≫= fun r => verdicts_of (id r) (host r) (l r)) s s') no_care s.
Proof.
  set (f := fun r => verdicts_of (id r) (host r) (l r)).
  apply (wp_for_rows _ (fun rest _ s1 => exists vs, judged_to now vs s s1 /\ vs ++ (rest ≫= f) = rows ≫= f)); try done.
  - intros r rest _ s1 (vs & J & E). eapply wp_mono; [apply wp_alert_verdicts|..]; [|done]. intros ? s2 J2.
    exists (vs ++ f r). split; [eapply judged_trans; eassumption|]. by rewrite <- app_assoc.
  - intros ? s1 (vs & J & E). rewrite app_nil_r in E. by rewrite <- E.
  - exists []. split; [by apply judged_refl|done].
Qed.

(** All judgements of an evaluation. *)
Definition all_verdicts (t : obs_tables) (now : Z) : list verdict :=
  (device_rows t ≫= fun row => verdicts_of (hr_id (fst row)) (Some (hr_id (fst row))) (host_verdicts env (ob_settings t) now row)) ++
  (nodes (ob_store t) ≫= fun n => verdicts_of (nr_id n) None (node_verdicts env (ob_settings t) now n)).

Definition retention_limit (t : obs_tables) (now : Z) : Z := now - os_retention (ob_settings t) * 86400.

Lemma evaluate_effects now s s' :
  sb_observability_evaluate env now s = (Ok tt, s') ->
  exists l last, effects now (all_verdicts (db s) now) (ob_alerts (db s), ob_last (db s)) (l, last) /\
    db s' = mk_obs (ob_store (db s)) (ob_settings (db s)) (ob_hosts (db s))
      (List.filter (fun r => negb (sa_bucket r <? retention_limit (db s) now)) (ob_samples (db s)))
      (List.filter (fun a => negb (expired_alert (retention_limit (db s) now) a))
         (map (fun a => if orphaned (db s) a then resolved now a else a) l)) last.
Proof.
  intros E. assert (wp (sb_observability_evaluate env now) (fun _ s' => exists l last,
    effects now (all_verdicts (db s) now) (ob_alerts (db s), ob_last (db s)) (l, last) /\
    db s' = mk_obs (ob_store (db s)) (ob_settings (db s)) (ob_hosts (db s))
      (List.filter (fun r => negb (sa_bucket r <? retention_limit (db s) now)) (ob_samples (db s)))
      (List.filter (fun a => negb (expired_alert (retention_limit (db s) now) a))
         (map (fun a => if orphaned (db s) a then resolved now a else a) l)) last) no_care s) as W; [|unfold wp in W; by rewrite E in W].
  unfold sb_observability_evaluate. case_if; [by apply wp_pure|]. apply wp_transaction; [done|]. unfold evaluate_locked.
  apply wp_bind, wp_query; [done|]. apply wp_bind, wp_query; [done|]. cbn [db mem asked].
  apply wp_bind. eapply wp_mono; [apply (wp_judge_rows _ (fun row => hr_id (fst row)) (fun row => Some (hr_id (fst row))) (host_verdicts env (ob_settings (db s)) now))|..]; [|done].
  intros ? s1 J1. apply wp_bind, wp_query; [done|]. cbn [db mem asked].
  assert (nodes (ob_store (db s1)) = nodes (ob_store (db s))) as Nn by (by destruct J1 as (l & last & -> & _)). rewrite Nn.
  apply wp_bind. eapply wp_mono; [apply (wp_judge_rows _ nr_id (fun _ => None) (node_verdicts env (ob_settings (db s)) now))|..]; [|done].
  intros ? s2 J2. cbn [db] in *.
  assert (judged_to now (all_verdicts (db s) now) s s2) as (l & last & E2 & F).
  { unfold all_verdicts. eapply judged_trans; [|exact J2]. destruct J1 as (l & last & E1 & F1). exists l, last. by split. }
  repeat (apply wp_bind, wp_stmt; [done|]). apply wp_stmt; [done|]. cbn [db mem asked]. split; [|done].
  exists l, last. split; [exact F|]. rewrite E2. destruct (db s). reflexivity.
Qed.
End Evaluate.

(** ** The state after an evaluation *)

Definition host_kinds : list bytes := bs <$> ["device_offline"; "config_drift"; "config_failure"]%string.

(** The ids of devices and nodes are texts that C reads whole, each once. *)
Definition plain_ids (l : list bytes) : Prop := NoDup l /\ Forall (fun id => no_nul id = true) l.
Definition ids_plain (t : store_tables) : Prop := plain_ids (hr_id <$> hosts t) /\ plain_ids (nr_id <$> nodes t).

(** Open alerts are about devices that exist, or about nodes; at most one is open of
    a kind on a resource; ids are not used twice; records are kept for some days. *)
Definition alert_sort (t : store_tables) (a : alert_row) : Prop :=
  match al_host a with
  | Some h => h = al_resource a /\ al_kind a ∈ host_kinds /\ h ∈ hr_id <$> hosts t
  | None => al_kind a ∈ node_kinds
  end.

Record alerts_ok (t : obs_tables) : Prop := {
  ok_sorts : forall a, a ∈ ob_alerts t -> is_open a = true -> alert_sort (ob_store t) a;
  ok_single : forall a b, a ∈ ob_alerts t -> b ∈ ob_alerts t -> is_open a = true -> is_open b = true -> al_key a = al_key b -> a = b;
  ok_ids : NoDup (al_id <$> ob_alerts t);
  ok_last : Forall (fun a => al_id a <= ob_last t) (ob_alerts t);
  ok_retention : 0 <= os_retention (ob_settings t) }.

(** The conditions of alerts that hold: key and condition. *)
Definition due (env : obs_env) (t : obs_tables) (now : Z) (key : bytes * bytes) : Prop :=
  (exists row kind, row ∈ device_rows t /\ (kind, true) ∈ host_verdicts env (ob_settings t) now row /\ key = (bs kind, hr_id (fst row))) \/
  (exists n kind, n ∈ nodes (ob_store t) /\ (kind, true) ∈ node_verdicts env (ob_settings t) now n /\ key = (bs kind, nr_id n)).

Lemma NoDup_row_keys {R} (rows : list R) (id : R -> bytes) (host : R -> option bytes) (l : R -> list (string * bool)) :
  plain_ids (id <$> rows) -> (forall r, NoDup (bs <$> (fst <$> l r))) -> NoDup (vd_key <$> (rows ≫= fun r => verdicts_of (id r) (host r) (l r))).
Proof.
  intros [N P] L. induction rows as [|r rows IH]; [constructor|]. apply NoDup_cons in N as [Nr N]. apply Forall_cons in P as [Pr P].
  change ((r :: rows) ≫= fun r => verdicts_of (id r) (host r) (l r)) with (verdicts_of (id r) (host r) (l r) ++ (rows ≫= fun r => verdicts_of (id r) (host r) (l r))).
  rewrite fmap_app. apply NoDup_app. split_and!; [|..|by apply IH].
  - unfold verdicts_of. rewrite <- list_fmap_compose. specialize (L r). rewrite <- list_fmap_compose in L.
    apply (NoDup_fmap_1 fst). by rewrite <- list_fmap_compose.
  - intros key (v & -> & V)%list_elem_of_fmap (w & E & W)%list_elem_of_fmap. apply list_elem_of_fmap in V as (kv & -> & _).
    apply list_elem_of_bind in W as (r' & W & R'). apply list_elem_of_fmap in W as (kv' & -> & _). injection E as _ E.
    assert (no_nul (id r') = true) as P'. { rewrite Forall_forall in P. apply P. by apply list_elem_of_fmap_2. }
    rewrite !cstr_no_nul in E by done. apply Nr. rewrite E. by apply list_elem_of_fmap_2.
Qed.

Lemma map_elem {A B} (f : A -> B) (l : list A) y : y ∈ map f l <-> exists x, x ∈ l /\ f x = y.
Proof. rewrite list_elem_of_In, in_map_iff. by setoid_rewrite list_elem_of_In; split; intros (x & ? & ?); exists x. Qed.

Section Judgements.
Context (env : obs_env) (t : obs_tables) (now : Z) (plain : ids_plain (ob_store t)).

Abbreviation vs := (all_verdicts env t now).

Lemma plain_id (l : list bytes) id : plain_ids l -> id ∈ l -> cstr id = id.
Proof. intros [_ P] I. rewrite Forall_forall in P. by apply cstr_no_nul, P. Qed.

Lemma device_ids : hr_id <$> hosts (ob_store t) = (fun row => hr_id (fst row)) <$> device_rows t.
Proof. unfold device_rows. by rewrite <- list_fmap_compose. Qed.

(** The judgements are those of the devices and of the nodes. *)
Lemma verdict_cases v :
  v ∈ vs <->
  (exists row kind active, row ∈ device_rows t /\ (kind, active) ∈ host_verdicts env (ob_settings t) now row /\
     v = mk_verdict (bs kind) (hr_id (fst row)) (Some (hr_id (fst row))) active) \/
  (exists n kind active, n ∈ nodes (ob_store t) /\ (kind, active) ∈ node_verdicts env (ob_settings t) now n /\ v = mk_verdict (bs kind) (nr_id n) None active).
Proof.
  destruct plain as [Ph Pn]. rewrite device_ids in Ph. unfold all_verdicts. rewrite elem_of_app, !list_elem_of_bind. unfold verdicts_of. split.
  - intros [(row & ([k b] & -> & V)%list_elem_of_fmap & R)|(n & ([k b] & -> & V)%list_elem_of_fmap & R)]; [left; exists row|right; exists n]; exists k, b; split_and!; try done; cbn [fst snd fmap option_fmap option_map].
    + by rewrite (plain_id _ _ Ph) by (by apply (list_elem_of_fmap_2 (fun row => hr_id (fst row)))).
    + by rewrite (plain_id _ _ Pn) by (by apply list_elem_of_fmap_2).
  - intros [(row & k & b & R & V & ->)|(n & k & b & R & V & ->)]; [left; exists row|right; exists n]; (split; [|done]); apply list_elem_of_fmap; exists (k, b); split; try done; cbn [fst snd fmap option_fmap option_map].
    + by rewrite (plain_id _ _ Ph) by (by apply (list_elem_of_fmap_2 (fun row => hr_id (fst row)))).
    + by rewrite (plain_id _ _ Pn) by (by apply list_elem_of_fmap_2).
Qed.

Lemma due_verdict key : due env t now key <-> exists v, v ∈ vs /\ vd_active v = true /\ vd_key v = key.
Proof.
  unfold due. setoid_rewrite verdict_cases. split.
  - intros [(row & k & R & V & ->)|(n & k & R & V & ->)].
    + exists (mk_verdict (bs k) (hr_id (fst row)) (Some (hr_id (fst row))) true). split; [left; by exists row, k, true|done].
    + exists (mk_verdict (bs k) (nr_id n) None true). split; [right; by exists n, k, true|done].
  - intros (v & [(row & k & b & R & V & ->)|(n & k & b & R & V & ->)] & A & <-); cbn in A; subst b; [left; by exists row, k|right; by exists n, k].
Qed.

Lemma host_kind_in row kind b : (kind, b) ∈ host_verdicts env (ob_settings t) now row -> bs kind ∈ host_kinds.
Proof.
  destruct row as [h o]. unfold host_verdicts, host_kinds. intros I. apply (list_elem_of_fmap_2 (fun kv => bs (fst kv))) in I. exact I.
Qed.

Lemma node_kind_in n kind b : (kind, b) ∈ node_verdicts env (ob_settings t) now n -> bs kind ∈ node_kinds.
Proof. unfold node_verdicts, node_kinds. intros I. apply (list_elem_of_fmap_2 (fun kv => bs (fst kv))) in I. exact I. Qed.

Lemma kinds_apart k : k ∈ host_kinds -> k ∈ node_kinds -> False.
Proof.
  revert k. rewrite <- Forall_forall. apply (bool_decide_eq_true_1 (Forall (fun k => k ∉ node_kinds) host_kinds)). vm_compute. reflexivity.
Qed.

Lemma NoDup_verdicts : NoDup (vd_key <$> vs).
Proof.
  destruct plain as [Ph Pn]. rewrite device_ids in Ph. unfold all_verdicts. rewrite fmap_app. apply NoDup_app. split_and!.
  - apply (NoDup_row_keys (device_rows t) (fun row => hr_id (fst row)) (fun row => Some (hr_id (fst row)))); [exact Ph|]. intros [h o].
    change (NoDup host_kinds). refine (bool_decide_eq_true_1 _ _). vm_compute. reflexivity.
  - intros key (v & -> & V)%list_elem_of_fmap (w & E & W)%list_elem_of_fmap. apply list_elem_of_bind in V as (row & V & _), W as (n & W & _).
    unfold verdicts_of in V, W. apply list_elem_of_fmap in V as ([k b] & -> & V), W as ([k' b'] & -> & W). injection E as E _.
    apply (kinds_apart (bs k)); [by eapply host_kind_in|]. cbn in E. rewrite E. by eapply node_kind_in.
  - apply (NoDup_row_keys (nodes (ob_store t)) nr_id (fun _ => None)); [exact Pn|]. intros n.
    change (NoDup node_kinds). refine (bool_decide_eq_true_1 _ _). vm_compute. reflexivity.
Qed.

Lemma judged_by v a : v ∈ vs -> on_verdict v a = true -> judged vs a = Some (vd_active v).
Proof.
  intros V O. unfold judged. destruct (List.find _ _) as [w|] eqn:F.
  - apply find_In in F as [W [K _]%on_verdict_iff]. apply on_verdict_iff in O as [K' _]. cbn. f_equal. f_equal.
    apply (NoDup_fmap_inj_on vd_key vs); [apply NoDup_verdicts|done|done|congruence].
  - apply list_elem_of_In in V. pose proof (List.find_none _ _ F v V). congruence.
Qed.

(** An alert that is judged is not that of a node that is gone. *)
Lemma judged_not_orphaned v a : v ∈ vs -> al_key a = vd_key v -> orphaned t a = false.
Proof.
  intros V K. unfold orphaned. destruct (al_resolved a), (al_host a); try done.
  apply verdict_cases in V as [(row & k & b & R & V & ->)|(n & k & b & R & V & ->)]; injection K as -> ->; cbn [vd_kind vd_resource].
  - apply andb_false_iff. left. apply existsb_none. intros x X. apply bytes_eqb_neq. intros <-. eapply kinds_apart; [by eapply host_kind_in|]. done.
  - apply andb_false_iff. right. apply negb_false_iff, existsb_exists. exists n. split; [by apply list_elem_of_In|]. by apply bytes_eqb_eq.
Qed.

(** An open alert that is not judged is that of a node that is gone. *)
Lemma unjudged_orphaned a : is_open a = true -> alert_sort (ob_store t) a -> judged vs a = None -> orphaned t a = true.
Proof.
  intros O S J. assert (forall v, v ∈ vs -> al_key a <> vd_key v) as No.
  { intros v V K. rewrite (judged_by v) in J; [done|done|]. by apply on_verdict_iff. }
  unfold alert_sort in S. unfold orphaned. unfold is_open in O. destruct (al_resolved a); [done|]. destruct (al_host a) as [h|].
  - destruct S as (-> & K & H). exfalso. rewrite device_ids in H. apply list_elem_of_fmap in H as ([h o] & E & R).
    apply list_elem_of_fmap in K as (k & E' & K). assert (exists b, (k, b) ∈ host_verdicts env (ob_settings t) now (h, o)) as [b B].
    { change (k ∈ fst <$> host_verdicts env (ob_settings t) now (h, o)) in K. apply list_elem_of_fmap in K as ([k' b] & -> & B). by exists b. }
    apply (No (mk_verdict (bs k) (hr_id h) (Some (hr_id h)) b)); [apply verdict_cases; left; by exists (h, o), k, b|]. unfold al_key. by rewrite E, E'.
  - apply andb_true_iff. split; [apply existsb_exists; exists (al_kind a); split; [by apply list_elem_of_In|by apply bytes_eqb_eq]|].
    apply negb_true_iff, existsb_none. intros n N. apply bytes_eqb_neq. intros E.
    apply list_elem_of_fmap in S as (k & E' & K). assert (exists b, (k, b) ∈ node_verdicts env (ob_settings t) now n) as [b B].
    { change (k ∈ fst <$> node_verdicts env (ob_settings t) now n) in K. apply list_elem_of_fmap in K as ([k' b] & -> & B). by exists b. }
    apply (No (mk_verdict (bs k) (nr_id n) None b)); [apply verdict_cases; right; by exists n, k, b|]. unfold al_key. by rewrite E, E'.
Qed.
End Judgements.

(** ** The theorem on alerts *)

Section Outcome.
Context (env : obs_env) (now : Z) (s s' : conn obs_tables unit).
Context (plain : ids_plain (ob_store (db s))) (ok : alerts_ok (db s)) (E : sb_observability_evaluate env now s = (Ok tt, s')).

Abbreviation t := (db s).
Abbreviation t' := (db s').
Abbreviation vs := (all_verdicts env t now).

Definition swept (a : alert_row) : alert_row := if orphaned t a then resolved now a else a.

(** What becomes of an alert that was there. *)
Definition fate (a : alert_row) : alert_row := swept (changed now vs a).

Lemma changed_open a : is_open (changed now vs a) = true -> is_open a = true.
Proof. unfold changed. by destruct (judged vs a) as [[]|]. Qed.

Lemma changed_key a : al_key (changed now vs a) = al_key a /\ al_id (changed now vs a) = al_id a.
Proof. unfold changed. by destruct (judged vs a) as [[]|]. Qed.

Lemma swept_open a : is_open (swept a) = true -> swept a = a.
Proof. unfold swept. by destruct (orphaned t a). Qed.

Lemma swept_key a : al_key (swept a) = al_key a /\ al_id (swept a) = al_id a.
Proof. unfold swept. by destruct (orphaned t a). Qed.

Lemma fate_closed a : is_open a = false -> fate a = a.
Proof.
  intros C. unfold fate, changed. rewrite judged_closed by done. unfold swept, orphaned. unfold is_open in C. by destruct (al_resolved a).
Qed.

Lemma fate_due a : is_open a = true -> due env t now (al_key a) -> fate a = touched now a.
Proof.
  intros O (v & V & A & K)%due_verdict; [|done]. unfold fate, changed. rewrite (judged_by env t now plain v), A; [|done|by apply on_verdict_iff].
  unfold swept. by rewrite (judged_not_orphaned env t now plain v).
Qed.

Lemma fate_past a : a ∈ ob_alerts t -> is_open a = true -> ~ due env t now (al_key a) -> fate a = resolved now a.
Proof.
  intros I O N. unfold fate, changed. destruct (judged vs a) as [[]|] eqn:J.
  - destruct N. apply due_verdict; [done|]. unfold judged in J. destruct (List.find _ _) as [v|] eqn:F; [|done]. injection J as J.
    apply find_In in F as [V [K _]%on_verdict_iff]. by exists v.
  - unfold swept, orphaned. by cbn.
  - unfold swept. rewrite (unjudged_orphaned env t now plain); [done..| |done]. by apply ok_sorts.
Qed.

Lemma kept a : is_open a = true \/ al_updated a = now -> expired_alert (retention_limit t now) a = false.
Proof.
  pose proof (ok_retention _ ok). unfold is_open, expired_alert, retention_limit. destruct (al_resolved a); [|done]. intros [?| ->]; [done|].
  apply Z.ltb_ge. lia.
Qed.

Lemma opening_elem v : v ∈ opening vs (ob_alerts t) -> v ∈ vs /\ vd_active v = true /\ existsb (on_verdict v) (ob_alerts t) = false.
Proof. unfold opening. intros [V [A X%negb_true_iff]%andb_true_iff]%filter_In. done. Qed.

Lemma opened_alert news last a : opened_as now (ob_last t) (opening vs (ob_alerts t)) news last -> a ∈ news ->
  exists v id, v ∈ opening vs (ob_alerts t) /\ ob_last t < id <= last /\ a = fresh_alert now id v /\ swept a = a.
Proof.
  intros (F & _ & _) I. destruct (Forall2_in_r _ _ _ _ F I) as (v & V & (id & L & ->)). exists v, id. split_and!; [done|lia|lia|done|].
  unfold swept. rewrite (judged_not_orphaned env t now plain v); [done|by apply opening_elem|done].
Qed.

(** The alerts after the evaluation: what became of those before, and those opened. *)
Lemma evaluate_outcome :
  exists news, opened_as now (ob_last t) (opening vs (ob_alerts t)) news (ob_last t') /\
    ob_store t' = ob_store t /\ ob_settings t' = ob_settings t /\
    ob_alerts t' = List.filter (fun a => negb (expired_alert (retention_limit t now) a)) (map fate (ob_alerts t) ++ news).
Proof.
  destruct (evaluate_effects env now s s' E) as (l & last & F & D). apply effects_spec in F; [|by apply NoDup_verdicts].
  destruct F as (news & -> & O). exists news. rewrite D. split_and!; try done. cbn [ob_alerts]. f_equal.
  change (fun a => if orphaned t a then resolved now a else a) with swept. rewrite map_app, map_map. f_equal.
  rewrite <- (map_id news) at 2. apply map_ext_in. intros a I. apply list_elem_of_In in I. by destruct (opened_alert _ _ _ O I) as (v & id & _ & _ & _ & W).
Qed.

Lemma fate_key a : al_key (fate a) = al_key a /\ al_id (fate a) = al_id a.
Proof. unfold fate. destruct (swept_key (changed now vs a)) as [-> ->]. apply changed_key. Qed.

(** An alert that stays open is one that was open, and due. *)
Lemma fate_open a : a ∈ ob_alerts t -> is_open (fate a) = true -> is_open a = true /\ due env t now (al_key a) /\ fate a = touched now a.
Proof.
  intros I O. pose proof O as W%swept_open. assert (is_open a = true) as Oa. { apply changed_open. unfold fate in O. by rewrite W in O. }
  assert (due env t now (al_key a)) as D; [|by split_and!; try apply fate_due].
  unfold fate in O. rewrite W in O. destruct (judged vs a) as [[]|] eqn:J.
  - apply due_verdict; [done|]. unfold judged in J. destruct (List.find _ _) as [v|] eqn:F; [|done]. injection J as J.
    apply find_In in F as [V [K _]%on_verdict_iff]. by exists v.
  - unfold changed in O. by rewrite J in O.
  - pose proof (unjudged_orphaned env t now plain a Oa (ok_sorts _ ok a I Oa) J) as Orph. unfold changed in W. rewrite J in W.
    unfold swept in W. rewrite Orph in W. apply (f_equal is_open) in W. by rewrite Oa in W.
Qed.

Section News.
Context (news : list alert_row) (O : opened_as now (ob_last t) (opening vs (ob_alerts t)) news (ob_last t')).
Context (Est : ob_store t' = ob_store t) (Ese : ob_settings t' = ob_settings t).
Context (Ea : ob_alerts t' = List.filter (fun a => negb (expired_alert (retention_limit t now) a)) (map fate (ob_alerts t) ++ news)).

Lemma alert_after b :
  b ∈ ob_alerts t' <-> expired_alert (retention_limit t now) b = false /\ ((exists a, a ∈ ob_alerts t /\ fate a = b) \/ b ∈ news).
Proof. rewrite Ea, filter_In, negb_true_iff, elem_of_app, map_elem. tauto. Qed.

(** An open alert was open and is due, or is one of those opened. *)
Lemma open_after b : b ∈ ob_alerts t' -> is_open b = true ->
  (exists a, a ∈ ob_alerts t /\ is_open a = true /\ due env t now (al_key a) /\ b = touched now a) \/
  (exists v id, v ∈ opening vs (ob_alerts t) /\ ob_last t < id <= ob_last t' /\ b = fresh_alert now id v).
Proof.
  intros [_ [(a & I & <-)|I]]%alert_after Ob.
  - left. destruct (fate_open a I Ob) as (? & ? & ?). by exists a.
  - right. destruct (opened_alert _ _ _ O I) as (v & id & ? & ? & ? & _). by exists v, id.
Qed.

Lemma open_iff_due key : open_in (ob_alerts t') key <-> due env t now key.
Proof.
  split.
  - intros (b & I & <- & Ob). destruct (open_after b I Ob) as [(a & _ & _ & D & ->)|(v & id & (V & A & _)%opening_elem & _ & ->)]; [exact D|].
    apply due_verdict; [done|]. by exists v.
  - intros D. pose proof D as (v & V & A & <-)%due_verdict; [|done]. destruct (existsb (on_verdict v) (ob_alerts t)) eqn:X.
    + apply existsb_exists in X as (a & I%list_elem_of_In & [K Oa]%on_verdict_iff). rewrite <- K in D. exists (touched now a).
      split; [|by rewrite <- K]. apply alert_after. split; [apply kept; by right|]. left. exists a. split; [done|]. by apply fate_due.
    + destruct O as (F & _ & _). assert (v ∈ opening vs (ob_alerts t)) as Vo by (apply filter_In; split; [done|]; by rewrite A, X).
      destruct (Forall2_in_l _ _ _ _ F Vo) as (b & I & (id & _ & ->)). exists (fresh_alert now id v). split; [|done].
      apply alert_after. split; [apply kept; by right|by right].
Qed.

Lemma opening_keys : NoDup (vd_key <$> opening vs (ob_alerts t)).
Proof. apply filter_keys_NoDup. by apply NoDup_verdicts. Qed.

Lemma fresh_not_old v a : v ∈ opening vs (ob_alerts t) -> a ∈ ob_alerts t -> is_open a = true -> al_key a = vd_key v -> False.
Proof. intros (_ & _ & X)%opening_elem I Oa K. rewrite existsb_none in X. specialize (X a I). by rewrite (proj2 (on_verdict_iff v a)) in X. Qed.

Lemma news_keys : al_key <$> news = vd_key <$> opening vs (ob_alerts t).
Proof. destruct O as (F & _ & _). clear -F. induction F as [|v a l k (id & _ & ->) _ IH]; [done|]. cbn. by rewrite IH. Qed.

Lemma single_after a b : a ∈ ob_alerts t' -> b ∈ ob_alerts t' -> is_open a = true -> is_open b = true -> al_key a = al_key b -> a = b.
Proof.
  intros Ia Ib Oa Ob K. pose proof Ia as [_ Na]%alert_after. pose proof Ib as [_ Nb]%alert_after.
  destruct Na as [(a0 & Ia0 & Fa)|Na], Nb as [(b0 & Ib0 & Fb)|Nb].
  - rewrite <- Fa in Oa. rewrite <- Fb in Ob. apply fate_open in Oa as (Oa & _), Ob as (Ob & _); [|done..].
    rewrite <- Fa, <- Fb in K. rewrite !(proj1 (fate_key _)) in K. rewrite <- Fa, <- Fb. f_equal. by apply (ok_single _ ok).
  - exfalso. destruct (opened_alert _ _ _ O Nb) as (v & id & V & _ & -> & _). subst a. apply fate_open in Oa as (Oa & _); [|done].
    rewrite (proj1 (fate_key _)) in K. by apply (fresh_not_old v a0).
  - exfalso. destruct (opened_alert _ _ _ O Na) as (v & id & V & _ & -> & _). subst b. apply fate_open in Ob as (Ob & _); [|done].
    rewrite (proj1 (fate_key _)) in K. by apply (fresh_not_old v b0).
  - apply (NoDup_fmap_inj_on al_key news); try done. rewrite news_keys. apply opening_keys.
Qed.

Lemma ids_after : NoDup (al_id <$> ob_alerts t') /\ Forall (fun a => al_id a <= ob_last t') (ob_alerts t').
Proof.
  pose proof (ok_last _ ok) as L. rewrite Forall_forall in L. pose proof O as (_ & N & Le). split.
  - rewrite Ea. apply filter_keys_NoDup. rewrite fmap_app.
    change (al_id <$> map fate (ob_alerts t)) with (al_id <$> (fate <$> ob_alerts t)). rewrite <- list_fmap_compose.
    rewrite (list_fmap_ext _ al_id) by (intros ? x _; apply fate_key).
    apply NoDup_app. split_and!; [apply (ok_ids _ ok)| |done]. intros id (a & -> & I)%list_elem_of_fmap (b & Eb & Ib)%list_elem_of_fmap.
    destruct (opened_alert _ _ _ O Ib) as (v & id & _ & R & -> & _). specialize (L a I). cbn in *. lia.
  - apply Forall_forall. intros b [_ [(a & I & <-)|Ib]]%alert_after.
    + rewrite (proj2 (fate_key a)). specialize (L a I). cbn in L. lia.
    + destruct (opened_alert _ _ _ O Ib) as (v & id & _ & R & -> & _). cbn. lia.
Qed.

Lemma sorts_after a : a ∈ ob_alerts t' -> is_open a = true -> alert_sort (ob_store t') a.
Proof.
  intros I Oa. rewrite Est. destruct (open_after a I Oa) as [(b & Ib & Ob & _ & ->)|(v & id & (V & _)%opening_elem & _ & ->)].
  - exact (ok_sorts _ ok b Ib Ob).
  - apply (verdict_cases env t now plain) in V as [(row & k & b & R & V & ->)|(n & k & b & R & V & ->)]; unfold alert_sort; cbn.
    + split_and!; [done|by eapply host_kind_in|]. rewrite device_ids. by apply (list_elem_of_fmap_2 (fun row => hr_id (fst row))).
    + by eapply node_kind_in.
Qed.

Lemma ok_after : alerts_ok t'.
Proof.
  destruct ids_after. split; [exact sorts_after|exact single_after|done|done|]. rewrite Ese. apply (ok_retention _ ok).
Qed.
End News.
End Outcome.

(** C16: an evaluation of the monitor ([sb_observability_evaluate]) that succeeds leaves
    open exactly the alerts whose condition holds: a device that is off line, runs
    another configuration than the one it was given or reports a failure, a node
    that does not answer, is slow or was not tested.  The alerts stay well formed
    (one open alert per kind and resource, ids used once).  An alert that was open
    keeps its id, its opening and its acknowledgement and is touched when still due
    and resolved when not; closed ones go exactly when older than the retention;
    all others are new, opened now and acknowledged by nobody. *)
Theorem alerts_follow_state (env : obs_env) (now : Z) (s s' : conn obs_tables unit) :
  ids_plain (ob_store (db s)) -> alerts_ok (db s) -> sb_observability_evaluate env now s = (Ok tt, s') ->
  alerts_ok (db s') /\
  (forall key, open_in (ob_alerts (db s')) key <-> due env (db s) now key) /\
  (forall a, a ∈ ob_alerts (db s) ->
     if is_open a then (due env (db s) now (al_key a) -> touched now a ∈ ob_alerts (db s')) /\
                       (~ due env (db s) now (al_key a) -> resolved now a ∈ ob_alerts (db s'))
     else a ∈ ob_alerts (db s') <-> retention_limit (db s) now <= al_updated a) /\
  (forall b, b ∈ ob_alerts (db s') -> al_id b ∈ (al_id <$> ob_alerts (db s)) \/
     (ob_last (db s) < al_id b /\ is_open b = true /\ al_opened b = now /\ al_acknowledged b = None /\ al_by b = None)).
Proof.
  intros P K E. destruct (evaluate_outcome env now s s' P E) as (news & O & Est & Ese & Ea).
  split_and!.
  - by apply (ok_after env now s s' P K news).
  - by apply (open_iff_due env now s s' P K news).
  - intros a I. destruct (is_open a) eqn:Oa; [split; intros D|]; rewrite (alert_after env now s s' news Ea).
    + split; [by apply kept; [|right]|]. left. exists a. split; [done|by apply fate_due].
    + split; [by apply kept; [|right]|]. left. exists a. split; [done|by apply fate_past].
    + unfold expired_alert. pose proof Oa as Oa'. unfold is_open in Oa'. destruct (al_resolved a); [|done]. rewrite Z.ltb_ge. split; [tauto|].
      intros L. split; [done|]. left. exists a. split; [done|by apply fate_closed].
  - intros b [_ [(a & I & <-)|Ib]]%(alert_after env now s s' news Ea).
    + left. rewrite (proj2 (fate_key env now s a)). by apply list_elem_of_fmap_2.
    + right. destruct (opened_alert env now s P _ _ _ O Ib) as (v & id & _ & R & -> & _). cbn. split_and!; try done. lia.
Qed.

(** ** Traffic *)

Definition sample_key (r : sample_row) : bytes * Z := (sa_host r, sa_bucket r).

(** The keys of the tables, and the ranges that samples keep. *)
Record traffic_ok (t : obs_tables) : Prop := {
  tk_hosts : NoDup (oh_host <$> ob_hosts t);
  tk_observed : Forall (fun o => 0 <= oh_observed_up o <= MAX_COUNTER /\ 0 <= oh_observed_down o <= MAX_COUNTER) (ob_hosts t);
  tk_keys : NoDup (sample_key <$> ob_samples t);
  tk_rows : Forall (fun r => 0 <= sa_up r /\ 0 <= sa_down r) (ob_samples t) }.

(** What the readings of a counter say that went through: from one to the next, what
    it went up by, or all of it when it is below the one before. *)
Fixpoint traffic (before : option Z) (counters : list Z) : Z :=
  match counters with
  | [] => 0
  | c :: rest => match before with None => 0 | Some b => if c <? b then c else c - b end + traffic (Some c) rest
  end.

(** Of samples in the order they come in, those that are not older than one before. *)
Fixpoint in_order (at_ : Z) (samples : list (Z * sbj)) : list (Z * sbj) :=
  match samples with
  | [] => []
  | (now, sample) :: rest => if now <? at_ then in_order at_ rest else (now, sample) :: in_order now rest
  end.

Fixpoint sample_all (env : obs_env) (host : bytes) (samples : list (Z * sbj)) : obs unit :=
  match samples with
  | [] => mret tt
  | (now, sample) :: rest => _ ← sb_observability_sample env (Some host) (Some sample) now; sample_all env host rest
  end.

Definition reading (field : string) (p : Z * sbj) : Z := default 0 (counter_of (Some (snd p)) field).
Definition observed (t : obs_tables) (host : bytes) : obs_host := default (new_obs host) (find_obs t host).
Definition before (counter : obs_host -> Z) (o : obs_host) : option Z := if oh_sampled o =? 0 then None else Some (counter o).
Definition of_host (host : bytes) (r : sample_row) : bool := bytes_eqb (sa_host r) host.

(** The bytes of a device in the history. *)
Definition stored (f : sample_row -> Z) (t : obs_tables) (host : bytes) : Z := zsum f (List.filter (of_host host) (ob_samples t)).

Lemma traffic_monotone b counters : Sorted Z.le (b :: counters) -> traffic (Some b) counters = default b (last counters) - b.
Proof.
  revert b. induction counters as [|c l IH]; intros b S; [cbn; lia|]. inversion_clear S as [|? ? S' H]. inversion_clear H as [|? ? L].
  cbn [traffic]. rewrite (IH c S'). destruct (Z.ltb_spec c b); [lia|]. rewrite last_cons. destruct (last l); cbn; lia.
Qed.

(** *** One sample *)

Definition ensured (host : bytes) (l : list obs_host) : list obs_host := if existsb (obs_is host) l then l else l ++ [new_obs host].

(** What a sample leaves behind when it is taken. *)
Definition taken (host : bytes) (now : Z) (m : measured) (t : obs_tables) : obs_tables :=
  let new := new_sample host now (observed t host) m in
  mk_obs (ob_store t) (ob_settings t) (map (fun o => if obs_is host o then sampled_host now m o else o) (ensured host (ob_hosts t)))
    (sql_upsert (sample_is host (sa_bucket new)) (merged_sample new) new (ob_samples t)) (ob_alerts t) (ob_last t).

Lemma find_ensured host l : List.find (obs_is host) (ensured host l) = Some (default (new_obs host) (List.find (obs_is host) l)).
Proof.
  unfold ensured. induction l as [|o l IH]; cbn [existsb List.find app].
  - unfold obs_is. cbn [oh_host new_obs]. by rewrite bytes_eqb_refl.
  - destruct (obs_is host o) eqn:O; cbn [orb]; [cbn [List.find]; by rewrite O|]. destruct (existsb (obs_is host) l); cbn [List.find app]; by rewrite O.
Qed.

Lemma find_ensured_other host other l : other <> host -> List.find (obs_is other) (ensured host l) = List.find (obs_is other) l.
Proof.
  intros N. unfold ensured. destruct (existsb (obs_is host) l); [done|]. induction l as [|o l IH]; cbn [app List.find]; [|by rewrite IH].
  unfold obs_is. cbn [oh_host new_obs]. rewrite (proj2 (bytes_eqb_neq host other)) by congruence. done.
Qed.

Lemma find_updated host other g l : (forall o, oh_host (g o) = oh_host o) ->
  List.find (obs_is other) (map (fun o => if obs_is host o then g o else o) l) =
  (fun o => if obs_is host o then g o else o) <$> List.find (obs_is other) l.
Proof.
  intros G. induction l as [|o l IH]; [done|]. cbn [map List.find].
  replace (obs_is other (if obs_is host o then g o else o)) with (obs_is other o) by (unfold obs_is; case_match; by rewrite ?G).
  destruct (obs_is other o); [done|exact IH].
Qed.

Lemma wp_ensure_host env host s :
  wp (ensure_host env host) (fun _ s' => db s' = with_obs_hosts (db s) (ensured host (ob_hosts (db s)))) no_care s.
Proof.
  unfold ensure_host. apply wp_stmt; [done|]. unfold ensured. destruct (existsb _ _); [cbn [db]; by destruct (db s)|].
  unfold for_device. by destruct (known_device _ _).
Qed.

Lemma wp_record_sample env host now m s :
  wp (record_sample env host now m) (fun _ s' =>
    db s' = if now <? oh_sampled (observed (db s) host) then with_obs_hosts (db s) (ensured host (ob_hosts (db s))) else taken host now m (db s)) no_care s.
Proof.
  unfold record_sample. apply wp_bind. eapply wp_mono; [apply wp_ensure_host|..]; [|done]. intros ? s1 E1. apply wp_bind, wp_query; [done|].
  unfold find_obs. rewrite E1. cbn [ob_hosts with_obs_hosts]. rewrite find_ensured. fold (find_obs (db s) host). fold (observed (db s) host).
  destruct (now <? _); [by apply wp_ret|]. apply wp_bind, wp_stmt; [done|]. apply wp_stmt; [done|]. done.
Qed.

Lemma counter_reading sample f v now : counter_of (Some sample) f = Some v -> v = reading f (now, sample) /\ 0 <= v <= MAX_COUNTER.
Proof.
  intros H. unfold reading. cbn [snd]. rewrite H. split; [done|]. unfold counter_of in H. cbv zeta in H.
  destruct (_ && _) eqn:G in H; [|done]. injection H as <-. apply andb_true_iff in G as [[_ ?%Z.leb_le]%andb_true_iff ?%Z.leb_le]. done.
Qed.

Lemma sample_taken env host sample now s s' :
  sb_observability_sample env (Some host) (Some sample) now s = (Ok tt, s') ->
  exists m, ms_up_total m = reading "up_total" (now, sample) /\ ms_down_total m = reading "down_total" (now, sample) /\
    0 <= ms_up_total m <= MAX_COUNTER /\ 0 <= ms_down_total m <= MAX_COUNTER /\ 0 < now /\
    db s' = if now <? oh_sampled (observed (db s) (cstr host)) then with_obs_hosts (db s) (ensured (cstr host) (ob_hosts (db s)))
            else taken (cstr host) now m (db s).
Proof.
  intros E. unfold sb_observability_sample in E. destruct (_ || _) eqn:G; [done|]. destruct (mapM _ _) as [l|] eqn:M; [|done].
  assert (0 < now) as T. { apply orb_false_iff in G as [G _]. unfold valid_time in G. lia. }
  apply mapM_Some in M. unfold sample_fields in M.
  apply Forall2_cons_inv_l in M as (up & l1 & _ & M & ->). apply Forall2_cons_inv_l in M as (down & l2 & _ & M & ->).
  apply Forall2_cons_inv_l in M as (ut & l3 & U & M & ->). apply Forall2_cons_inv_l in M as (dt & l4 & D & M & ->).
  apply Forall2_cons_inv_l in M as (cc & l5 & _ & M & ->). apply Forall2_nil_inv_l in M as ->.
  apply (counter_reading _ _ _ now) in U as [U ?], D as [D ?]. exists (mk_measured up down ut dt cc). do 5 (split; [done|]).
  assert (wp (transaction (oe_fault env) (record_sample env (cstr host) now (mk_measured up down ut dt cc))) (fun _ s' =>
    db s' = if now <? oh_sampled (observed (db s) (cstr host)) then with_obs_hosts (db s) (ensured (cstr host) (ob_hosts (db s)))
            else taken (cstr host) now (mk_measured up down ut dt cc) (db s)) no_care s) as W; [|unfold wp in W; by rewrite E in W].
  apply wp_transaction; [done|]. eapply wp_mono; [apply wp_record_sample|..]; [|done]. intros ? s2 E2. by split.
Qed.

(** *** What it counts *)

Lemma saturated_min a d x : 0 <= d -> a = Z.min MAX_COUNTER x -> saturated_add a d = Z.min MAX_COUNTER (x + d).
Proof. unfold saturated_add. intros D ->. destruct (Z.ltb_spec (MAX_COUNTER - d) (Z.min MAX_COUNTER x)); lia. Qed.

Lemma delta_traffic (c : obs_host -> Z) o v : traffic_delta (oh_sampled o) (c o) v = traffic (before c o) [v].
Proof. unfold traffic_delta, before. cbn [traffic]. destruct (_ =? 0); [done|]. destruct (Z.leb_spec (c o) v), (Z.ltb_spec v (c o)); lia. Qed.

Lemma traffic_cons b c l : traffic b (c :: l) = traffic b [c] + traffic (Some c) l.
Proof. cbn [traffic]. lia. Qed.

Lemma traffic_nonneg b l : Forall (fun c => 0 <= c) l -> 0 <= traffic b l.
Proof. intros F. revert b. induction F as [|c l C _ IH]; intros b; cbn [traffic]; [lia|]. specialize (IH (Some c)). destruct b as [b|]; [|lia]. destruct (Z.ltb_spec c b); lia. Qed.

Lemma observed_taken host now m t : observed (taken host now m t) host = sampled_host now m (observed t host).
Proof.
  unfold observed, find_obs, taken. cbn [ob_hosts]. rewrite find_updated by done. rewrite find_ensured. cbn.
  replace (obs_is host _) with true; [done|]. symmetry. unfold obs_is. destruct (List.find _ _) as [o|] eqn:F; cbn; [by apply find_In in F as [_ F]|apply bytes_eqb_refl].
Qed.

Lemma find_taken_other host other now m t : other <> host -> find_obs (taken host now m t) other = find_obs t other.
Proof.
  intros N. unfold find_obs, taken. cbn [ob_hosts]. rewrite find_updated by done. rewrite find_ensured_other by done.
  destruct (List.find _ _) as [o|] eqn:F; [|done]. cbn. f_equal. apply find_In in F as [_ F]. unfold obs_is in *. apply bytes_eqb_eq in F as ->.
  by rewrite (proj2 (bytes_eqb_neq other host)).
Qed.

Section Bucket.
Context (host : bytes) (new : sample_row) (f : sample_row -> Z).
Context (Hnew : sa_host new = host) (Hf : forall old, f (merged_sample new old) = Z.min MAX_COUNTER (f old + f new)).

Abbreviation put := (sql_upsert (sample_is host (sa_bucket new)) (merged_sample new) new).

Lemma sample_is_key r : sample_is host (sa_bucket new) r = true <-> sample_key r = sample_key new.
Proof.
  unfold sample_is, sample_key. rewrite andb_true_iff, bytes_eqb_eq, Z.eqb_eq, Hnew. split; [by intros [-> ->]|by intros [= -> ->]].
Qed.

Lemma put_keys l : NoDup (sample_key <$> l) -> NoDup (sample_key <$> put l).
Proof.
  intros N. unfold sql_upsert. destruct (existsb _ _) eqn:X; [by rewrite (map_update_keys sample_key)|].
  rewrite fmap_app. apply NoDup_app. split_and!; [done| |apply NoDup_singleton]. intros k (r & -> & I)%list_elem_of_fmap [K|[]%elem_of_nil]%elem_of_cons.
  rewrite existsb_none in X. specialize (X r I). by rewrite (proj2 (sample_is_key r)) in X.
Qed.

Lemma put_other other l : other <> host -> List.filter (of_host other) (put l) = List.filter (of_host other) l.
Proof.
  intros N. unfold sql_upsert. assert (forall r, sa_host r = host -> of_host other r = false) as F.
  { intros r E. unfold of_host. apply bytes_eqb_neq. congruence. }
  destruct (existsb _ _).
  - rewrite filter_map_update by done. rewrite <- (map_id (List.filter (of_host other) l)) at 2. apply map_ext_in.
    intros r [_ R]%list_elem_of_In%filter_In. destruct (sample_is _ _ r) eqn:M; [|done]. apply sample_is_key in M.
    injection M as M _. rewrite F in R; [done|]. congruence.
  - rewrite filter_app. cbn [List.filter]. by rewrite F, app_nil_r.
Qed.

Lemma zsum_elem (l : list sample_row) x : (forall y, y ∈ l -> 0 <= f y) -> x ∈ l -> f x <= zsum f l.
Proof.
  induction l as [|y l IH]; intros H I; [by apply elem_of_nil in I|]. cbn [zsum]. pose proof (H y ltac:(by left)).
  assert (forall z, z ∈ l -> 0 <= f z) as H' by (intros z Z; apply H; by right). pose proof (zsum_nonneg f l H').
  apply elem_of_cons in I as [-> |I]; [lia|]. specialize (IH H' I). lia.
Qed.

Lemma put_sum l :
  NoDup (sample_key <$> l) -> (forall r, r ∈ l -> 0 <= f r) -> 0 <= f new -> zsum f (List.filter (of_host host) l) + f new <= MAX_COUNTER ->
  zsum f (List.filter (of_host host) (put l)) = zsum f (List.filter (of_host host) l) + f new.
Proof.
  intros N P Pn L. assert (of_host host new = true) as Hh by (unfold of_host; rewrite Hnew; apply bytes_eqb_refl).
  unfold sql_upsert. destruct (existsb _ _) eqn:X.
  - apply existsb_exists in X as (x & I%list_elem_of_In & M). rewrite filter_map_update by done.
    assert (x ∈ List.filter (of_host host) l) as If by (apply filter_In; split; [done|]; unfold sample_is in M; by apply andb_true_iff in M as [M _]).
    apply (zsum_map_one f _ _ _ x); [done|done| |apply NoDup_filter_list; by eapply NoDup_fmap_1|].
    + intros y [Iy _]%filter_In My. apply (NoDup_fmap_inj_on sample_key l); try done. apply sample_is_key in M, My. congruence.
    + rewrite Hf. enough (f x <= zsum f (List.filter (of_host host) l)) by lia.
      apply zsum_elem; [|done]. intros y [Iy _]%filter_In. by apply P.
  - rewrite filter_app, zsum_app. cbn [List.filter]. rewrite Hh. cbn [zsum]. lia.
Qed.
End Bucket.

Lemma reading_nonneg f p : 0 <= reading f p.
Proof. unfold reading. destruct (counter_of _ _) as [v|] eqn:C; [|done]. by apply (counter_reading _ _ _ 0) in C as [_ [? _]]. Qed.

Lemma readings_nonneg b f (l : list (Z * sbj)) : 0 <= traffic b (reading f <$> l).
Proof. apply traffic_nonneg, Forall_fmap, Forall_true. intros p. apply reading_nonneg. Qed.

Lemma ensured_ok host t : traffic_ok t -> traffic_ok (with_obs_hosts t (ensured host (ob_hosts t))).
Proof.
  intros [H O K R]. split; [..|exact K|exact R]; cbn [ob_hosts with_obs_hosts]; unfold ensured; destruct (existsb _ _) eqn:X; try done.
  - rewrite fmap_app. apply NoDup_app. split_and!; [done| |apply NoDup_singleton].
    intros h (o & -> & I)%list_elem_of_fmap [E|[]%elem_of_nil]%elem_of_cons. rewrite existsb_none in X. specialize (X o I).
    unfold obs_is in X. cbn in E. by rewrite E, bytes_eqb_refl in X.
  - apply Forall_app. split; [done|]. apply Forall_singleton. cbn. unfold MAX_COUNTER. lia.
Qed.

Lemma observed_ensured host t : observed (with_obs_hosts t (ensured host (ob_hosts t))) host = observed t host.
Proof. unfold observed, find_obs. cbn [ob_hosts with_obs_hosts]. by rewrite find_ensured. Qed.

Lemma observed_range host t : traffic_ok t ->
  0 <= oh_observed_up (observed t host) <= MAX_COUNTER /\ 0 <= oh_observed_down (observed t host) <= MAX_COUNTER.
Proof.
  intros [_ O _ _]. unfold observed, find_obs. destruct (List.find _ _) as [o|] eqn:F; [|cbn; unfold MAX_COUNTER; lia].
  apply find_In in F as [I _]. rewrite Forall_forall in O. by apply O.
Qed.

Lemma delta_nonneg o c v : 0 <= v -> 0 <= traffic_delta (oh_sampled o) (c o) v.
Proof. intros V. rewrite delta_traffic. apply traffic_nonneg. by repeat constructor. Qed.

Lemma saturated_range a d : 0 <= a <= MAX_COUNTER -> 0 <= d -> 0 <= saturated_add a d <= MAX_COUNTER.
Proof. unfold saturated_add. intros A D. destruct (Z.ltb_spec (MAX_COUNTER - d) a); lia. Qed.

Lemma taken_ok host now m t : 0 <= ms_up_total m -> 0 <= ms_down_total m -> traffic_ok t -> traffic_ok (taken host now m t).
Proof.
  intros U D K0. pose proof (ensured_ok host t K0) as [H O _ _]. destruct K0 as [_ _ K R]. cbn [ob_hosts with_obs_hosts] in *. unfold taken. split; cbn [ob_hosts ob_samples].
  - by rewrite (map_update_keys oh_host).
  - apply Forall_map_update; [|done]. cbn. intros o [Ou Od]. split; apply saturated_range; try done; [by apply (delta_nonneg o oh_up)|by apply (delta_nonneg o oh_down)].
  - by apply put_keys.
  - apply Forall_upsert; [| |done].
    + cbn [sa_up sa_down merged_sample new_sample]. intros r [Ru Rd]. pose proof (delta_nonneg (observed t host) oh_up _ U). pose proof (delta_nonneg (observed t host) oh_down _ D).
      unfold MAX_COUNTER. lia.
    + split; [by apply (delta_nonneg _ oh_up)|by apply (delta_nonneg _ oh_down)].
Qed.

(** The history grows by what a sample adds. *)
Lemma stored_taken host now m t (f : sample_row -> Z) (c : obs_host -> Z) v :
  (forall old, f (merged_sample (new_sample host now (observed t host) m) old) = Z.min MAX_COUNTER (f old + traffic (before c (observed t host)) [v])) ->
  f (new_sample host now (observed t host) m) = traffic (before c (observed t host)) [v] -> 0 <= v ->
  NoDup (sample_key <$> ob_samples t) -> Forall (fun r => 0 <= f r) (ob_samples t) ->
  stored f t host + traffic (before c (observed t host)) [v] <= MAX_COUNTER ->
  stored f (taken host now m t) host = stored f t host + traffic (before c (observed t host)) [v].
Proof.
  intros M N V K R L. unfold stored, taken in *. cbn [ob_samples]. rewrite <- N in M, L |- *. rewrite Forall_forall in R. apply put_sum; try done.
  rewrite N. apply traffic_nonneg. by repeat constructor.
Qed.

(** What samples of a device leave alone. *)
Definition only_device (host : bytes) (t t' : obs_tables) : Prop :=
  ob_store t' = ob_store t /\ ob_settings t' = ob_settings t /\ ob_alerts t' = ob_alerts t /\ ob_last t' = ob_last t /\
  forall other, other <> host -> find_obs t' other = find_obs t other /\ List.filter (of_host other) (ob_samples t') = List.filter (of_host other) (ob_samples t).

Lemma only_device_trans host t1 t2 t3 : only_device host t1 t2 -> only_device host t2 t3 -> only_device host t1 t3.
Proof.
  intros (A1 & B1 & C1 & D1 & E1) (A2 & B2 & C2 & D2 & E2). split_and!; try congruence. intros other N.
  destruct (E1 other N), (E2 other N). split; congruence.
Qed.

Lemma taken_only host now m t : only_device host t (taken host now m t).
Proof. split_and!; try done. intros other N. split; [by apply find_taken_other|]. by apply put_other. Qed.

Lemma ensured_only host t : only_device host t (with_obs_hosts t (ensured host (ob_hosts t))).
Proof. split_and!; try done. intros other N. split; [|done]. unfold find_obs. cbn [ob_hosts with_obs_hosts]. by apply find_ensured_other. Qed.

Definition counted (t t' : obs_tables) (host : bytes) (samples : list (Z * sbj)) (total : obs_host -> Z) (counter : obs_host -> Z)
    (field : string) (bytes_of : sample_row -> Z) : Prop :=
  let o := observed t host in
  let sum := traffic (before counter o) (reading field <$> in_order (oh_sampled o) samples) in
  total (observed t' host) = Z.min MAX_COUNTER (total o + sum) /\
  (stored bytes_of t host + sum <= MAX_COUNTER -> stored bytes_of t' host = stored bytes_of t host + sum).

Lemma counted_here t host total counter field bytes_of : 0 <= total (observed t host) <= MAX_COUNTER -> counted t t host [] total counter field bytes_of.
Proof. intros R. split; cbn; lia. Qed.

(** One sample that is taken and those after it. *)
Lemma counted_step t t' host now m sample samples total counter field bytes_of :
  let o := observed t host in
  (now <? oh_sampled o) = false -> 0 < now -> 0 <= total o <= MAX_COUNTER ->
  total (sampled_host now m o) = saturated_add (total o) (traffic (before counter o) [reading field (now, sample)]) ->
  counter (sampled_host now m o) = reading field (now, sample) ->
  (stored bytes_of t host + traffic (before counter o) [reading field (now, sample)] <= MAX_COUNTER ->
   stored bytes_of (taken host now m t) host = stored bytes_of t host + traffic (before counter o) [reading field (now, sample)]) ->
  counted (taken host now m t) t' host samples total counter field bytes_of ->
  counted t t' host ((now, sample) :: samples) total counter field bytes_of.
Proof.
  intros o N P R T C St [Et Es]. rewrite observed_taken in Et, Es. fold o in Et, Es.
  assert (before counter (sampled_host now m o) = Some (reading field (now, sample))) as B.
  { unfold before. cbn [oh_sampled sampled_host]. rewrite (proj2 (Z.eqb_neq now 0)) by lia. by rewrite C. }
  rewrite B in Et, Es. cbn [oh_sampled sampled_host] in Et, Es. unfold counted. cbn [in_order]. fold o. rewrite N. rewrite fmap_cons, traffic_cons.
  assert (0 <= traffic (before counter o) [reading field (now, sample)]) as D by (apply traffic_nonneg; repeat constructor; apply reading_nonneg).
  pose proof (readings_nonneg (Some (reading field (now, sample))) field (in_order now samples)) as D'. split.
  - rewrite Et, T, (saturated_min _ _ (total o)) by lia. lia.
  - intros L. rewrite Es; rewrite St; lia.
Qed.

(** A sample that is too old and those after it. *)
Lemma counted_late t t' host now sample samples total counter field bytes_of :
  (now <? oh_sampled (observed t host)) = true ->
  counted (with_obs_hosts t (ensured host (ob_hosts t))) t' host samples total counter field bytes_of ->
  counted t t' host ((now, sample) :: samples) total counter field bytes_of.
Proof. intros N C. unfold counted in *. rewrite observed_ensured in C. cbn [in_order]. rewrite N. exact C. Qed.

(** C17: samples of a device ([sb_observability_sample]) that are all accepted count its
    traffic: what the counters went up from one sample to the next, all of a counter
    that was reset, nothing for the first sample and nothing for samples older than
    one before.  The totals of the device grow by that and stop at the limit, and
    the bytes of its history grow by the same; the tables stay well formed, and
    other devices, the settings and the alerts stay as they are. *)
Theorem traffic_accounted (env : obs_env) (host : bytes) (samples : list (Z * sbj)) (s s' : conn obs_tables unit) :
  traffic_ok (db s) -> sample_all env host samples s = (Ok tt, s') ->
  traffic_ok (db s') /\ only_device (cstr host) (db s) (db s') /\
  counted (db s) (db s') (cstr host) samples oh_observed_up oh_up "up_total" sa_up /\
  counted (db s) (db s') (cstr host) samples oh_observed_down oh_down "down_total" sa_down.
Proof.
  revert s. induction samples as [|[now sample] samples IH]; intros s K E; cbn [sample_all] in E.
  { injection E as <-. destruct (observed_range (cstr host) (db s) K). split_and!; try done; by apply counted_here. }
  unfold mbind, sql_bind in E. destruct (sb_observability_sample _ _ _ _ s) as [[[]|] s1] eqn:E1; [|done].
  apply sample_taken in E1 as (m & U & D & Ru & Rd & P & E1). destruct (now <? _) eqn:N.
  - destruct (IH s1) as (K' & O' & Cu & Cd); [rewrite E1; by apply ensured_ok|done|]. rewrite E1 in O', Cu, Cd.
    split_and!; [done|eapply only_device_trans; [apply ensured_only|done]|by apply counted_late|by apply counted_late].
  - destruct (IH s1) as (K' & O' & Cu & Cd); [rewrite E1; apply taken_ok; lia || done|done|]. rewrite E1 in O', Cu, Cd.
    destruct (observed_range (cstr host) (db s) K). destruct K as [_ _ Kk Kr]. split_and!; [done|eapply only_device_trans; [apply taken_only|done]|..].
    + eapply counted_step; try done; rewrite <- U.
      * cbn [oh_observed_up sampled_host]. by rewrite (delta_traffic oh_up).
      * done.
      * apply stored_taken; [intros old; cbn [sa_up merged_sample new_sample]; by rewrite (delta_traffic oh_up)|cbn [sa_up new_sample]; apply (delta_traffic oh_up)|lia|done|].
        eapply Forall_impl; [exact Kr|]. by intros r [? _].
    + eapply counted_step; try done; rewrite <- D.
      * cbn [oh_observed_down sampled_host]. by rewrite (delta_traffic oh_down).
      * done.
      * apply stored_taken; [intros old; cbn [sa_down merged_sample new_sample]; by rewrite (delta_traffic oh_down)|cbn [sa_down new_sample]; apply (delta_traffic oh_down)|lia|done|].
        eapply Forall_impl; [exact Kr|]. by intros r [_ ?].
Qed.

(** ** An example *)

Definition demo_obs_env : obs_env :=
  mk_obs_env (fun _ => None) (fun _ => 100000) (fun _ => None) (fun b => b) (fun text => if bytes_eqb text (bs "tested") then Some 99000 else Some 1000) (fun _ => [])
    (fun _ => double_of_Z 0) (fun _ => []) (fun _ => O).

Definition demo_obs_host : host_row :=
  mk_host_row (bs "h1") (bs "Laptop") [] [] None None None None None [] None None true (bs "created") [] [].
Definition demo_obs_node : node_row :=
  mk_node_row (bs "n1") (bs "n1") (bs "direct") true [] 1 [] None [] (Some (double_of_Z 3000)) (Some (bs "tested")) [] [] None.

(** One device that was never seen, one slow node, and an open alert of a node that is gone. *)
Definition demo_obs : obs_tables :=
  mk_obs (mk_store [] [] [] [] [] [demo_obs_node] [] [] [demo_obs_host] [] [] [] [] [] []) (mk_obs_settings 30 300 300 2000 None) [] []
    [mk_alert 4 (bs "node_slow") (bs "n0") None 90000 90000 None None None] 7.

Definition demo_obs_conn : conn obs_tables unit := mk_conn demo_obs tt O.

Lemma alerts_follow_state_witness :
  let s' := snd (sb_observability_evaluate demo_obs_env 100000 demo_obs_conn) in
  alerts_ok (db s') /\
  (forall key, open_in (ob_alerts (db s')) key <-> due demo_obs_env demo_obs 100000 key) /\
  map (fun a => (al_id a, is_open a)) (ob_alerts (db s')) = [(4, false); (8, true); (9, true)].
Proof.
  assert (ids_plain (ob_store demo_obs)) as P.
  { split; (split; [refine (bool_decide_eq_true_1 _ _); vm_compute; reflexivity|repeat constructor]). }
  assert (alerts_ok demo_obs) as K.
  { split; cbn [demo_obs ob_alerts ob_last ob_settings os_retention].
    - intros a [-> |[]%elem_of_nil]%elem_of_cons _. cbn [alert_sort al_host al_kind].
      refine (bool_decide_eq_true_1 _ _). vm_compute. reflexivity.
    - intros a b [-> |[]%elem_of_nil]%elem_of_cons [-> |[]%elem_of_nil]%elem_of_cons _ _ _. reflexivity.
    - apply NoDup_singleton.
    - repeat constructor. vm_compute. discriminate.
    - lia. }
  set (s' := snd _). assert (sb_observability_evaluate demo_obs_env 100000 demo_obs_conn = (Ok tt, s')) as E by (vm_compute; reflexivity).
  destruct (alerts_follow_state demo_obs_env 100000 demo_obs_conn s' P K E) as (A & B & _). split; [exact A|]. split; [exact B|].
  vm_compute. reflexivity.
Defined.

Definition demo_reading (up down : Z) : sbj :=
  SBJ_OBJECT [(bs "conn_count", SBJ_INT 2); (bs "down", SBJ_INT 1); (bs "down_total", SBJ_INT down); (bs "up", SBJ_INT 1); (bs "up_total", SBJ_INT up)].

(** Four readings, the third out of order, the last after a restart. *)
Definition demo_samples : list (Z * sbj) := [(1000, demo_reading 10 20); (1010, demo_reading 15 20); (1005, demo_reading 12 20); (1070, demo_reading 4 5)].

Lemma traffic_accounted_witness :
  let s' := snd (sample_all demo_obs_env (bs "h1") demo_samples demo_obs_conn) in
  traffic_ok (db s') /\ oh_observed_up (observed (db s') (bs "h1")) = 9 /\ stored sa_up (db s') (bs "h1") = 9.
Proof.
  assert (traffic_ok demo_obs) as K by (split; constructor).
  set (s' := snd _). assert (sample_all demo_obs_env (bs "h1") demo_samples demo_obs_conn = (Ok tt, s')) as E by (vm_compute; reflexivity).
  destruct (traffic_accounted demo_obs_env (bs "h1") demo_samples demo_obs_conn s' K E) as (A & _ & (U & S) & _).
  change (cstr (bs "h1")) with (bs "h1") in U, S. split; [exact A|]. split; [rewrite U; vm_compute; reflexivity|]. rewrite S; vm_compute; reflexivity || discriminate.
Defined.
