(* ===== verification/HttpText.v ===== *)
(** * Texts of the HTTP server ([c/src/http_server.c])

    Trimming, encodings, request parameters, the members of JSON bodies, methods,
    dates, and the Range header.  Strings that come from the HTTP library
    (civetweb) are C strings, given without their terminator; a [char *] that may
    be NULL is an option. *)

From S2P Require Import Prelude Util Json JsonText DateTime.

(** ** Small helpers *)

Definition sb_http_trim_n (s : bytes) : bytes := reverse (drop_spaces (reverse (drop_spaces s))).
Definition sb_http_trim (s : option bytes) : bytes := sb_http_trim_n (cstr (default [] s)).

Fixpoint drop_slashes (s : bytes) : bytes :=
  match s with
  | c :: s' => if code c =? 47 then drop_slashes s' else s
  | [] => []
  end.
Definition sb_http_trim_trailing_slashes (s : option bytes) : bytes := reverse (drop_slashes (reverse (sb_http_trim s))).

(** The text without the first of the prefixes that it has. *)
Fixpoint strip_first (prefixes : list string) (v : bytes) : bytes :=
  match prefixes with
  | p :: prefixes' => if bytes_eqb (take (length (bs p)) v) (bs p) then drop (length (bs p)) v else strip_first prefixes' v
  | [] => v
  end.
Definition sb_http_clash_controller_address (url : option bytes) : bytes :=
  strip_first ["https://"; "http://"; "wss://"; "ws://"]%string (sb_http_trim_trailing_slashes url).

Definition sb_http_encode_component_n (s : bytes) : bytes :=
  s ≫= fun c =>
    if url_unreserved c then [c]
    else [chr 37; hex_digit_upper (Z.shiftr (code c) 4); hex_digit_upper (Z.land (code c) 15)].
Definition sb_http_encode_component (s : option bytes) : bytes := sb_http_encode_component_n (cstr (default [] s)).

(** [sb_http_secure_token], of the bytes that the random source gave. *)
Definition sb_http_secure_token (random : option bytes) : option bytes :=
  match random with Some ((_ :: _) as b) => Some (sb_hex_encode b) | _ => None end.

(** [sb_http_utc_now], of a reading of the clock. *)
Definition sb_http_utc_now (t : Z) : bytes := fmt_utc t (bs "T") (bs "Z").

(** From [end] back to the start of the sequence that [end] is in. *)
Fixpoint utf8_boundary (s : bytes) (n : nat) : nat :=
  match n with
  | O => O
  | S n' => match s !! n with
            | Some c => if Z.land (code c) 192 =? 128 then utf8_boundary s n' else n
            | None => n
            end
  end.
Definition truncate_utf8 (s : bytes) (max_bytes : nat) : bytes :=
  if (length s <=? max_bytes)%nat then s else take (utf8_boundary s max_bytes) s.
Definition sb_http_truncate_utf8 (s : option bytes) (max_bytes : nat) : bytes := truncate_utf8 (cstr (default [] s)) max_bytes.

Definition ascii_lower_dup (s : bytes) : bytes := tolower <$> s.
Definition toupper (c : ascii) : ascii := if islower c then chr (code c - 32) else c.

(** [strcasecmp(a, b) == 0], [strncasecmp(s, prefix, strlen(prefix)) == 0]. *)
Definition strcaseeq (a b : bytes) : bool := bytes_eqb (ascii_lower_dup a) (ascii_lower_dup b).
Definition starts_with_ci (s prefix : bytes) : bool := strcaseeq (take (length prefix) s) prefix.

Fixpoint strstr (s needle : bytes) : bool :=
  bytes_eqb (take (length needle) s) needle ||
  match s with [] => false | _ :: s' => strstr s' needle end.

(** The text after the last occurrence of a character ([strrchr]). *)
Fixpoint after_last (c : Z) (s : bytes) : option bytes :=
  match s with
  | [] => None
  | x :: s' => match after_last c s' with Some r => Some r | None => if code x =? c then Some s' else None end
  end.

(** ** Parameters *)

Definition isxdigit (c : ascii) : bool := 0 <=? hexval c.

Fixpoint drogon_url_decode (s : bytes) : bytes :=
  match s with
  | [] => []
  | c :: s1 =>
      if code c =? 43 then chr 32 :: drogon_url_decode s1
      else
        match s1 with
        | h :: l :: s2 =>
            if (code c =? 37) && isxdigit h && isxdigit l then chr (hexval h * 16 + hexval l) :: drogon_url_decode s2
            else c :: drogon_url_decode s1
        | _ => c :: drogon_url_decode s1
        end
  end.

(** A pair assigns; a name alone only makes an empty value. *)
Definition take_pair (name : bytes) (value : option bytes) (pair : bytes) : option bytes :=
  match split_at (chr 61) pair with
  | Some (key, v) =>
      if bytes_eqb (cstr (drogon_url_decode (drop_spaces key))) name then Some (cstr (drogon_url_decode v)) else value
  | None => if bytes_eqb (cstr (drogon_url_decode pair)) name then Some (default [] value) else value
  end.

Fixpoint skip_question (s : bytes) : bytes :=
  match s with c :: s' => if (code c =? 63) || isspace c then skip_question s' else s | [] => [] end.

(** The texts between ampersands; an empty one at the end is left out. *)
Definition parameter_pairs (input : bytes) : list bytes :=
  let l := split_from (chr 38) [] (skip_question input) in
  match last l with Some [] => removelast l | _ => l end.

Definition scan_parameters (input name : bytes) (value : option bytes) : option bytes :=
  foldl (take_pair name) value (parameter_pairs input).

(** ** JSON bodies *)

Definition invalid {A} (field : string) (what : string) : result A := sb_fail SB_ERR_VALIDATION (bs field ++ bs what).

(** The text, whose pointer the C code returns: users without its length see it up
    to the first NUL. *)
Definition sb_json_required_string (body : option sbj) (field : string) : result bytes :=
  match sbj_get body field with
  | Some (SBJ_STRING ((_ :: _) as s)) => Ok s
  | _ => invalid field " must be a non-empty string"
  end.

Definition sb_json_required_object (body : option sbj) (field : string) : result sbj :=
  match sbj_get body field with
  | Some (SBJ_OBJECT m) => Ok (SBJ_OBJECT m)
  | _ => invalid field " must be a JSON object"
  end.

(** The member when it is there and not null. *)
Definition present (body : option sbj) (field : string) : option sbj :=
  match sbj_get body field with Some SBJ_NULL | None => None | v => v end.

Definition sb_json_assign_string_n {A} (body : option sbj) (field : string) (dest : A) (set : bytes -> A) : result A :=
  match present body field with
  | None => Ok dest
  | Some (SBJ_STRING s) => Ok (set s)
  | Some _ => invalid field " must be a string"
  end.
Definition sb_json_assign_string {A} (body : option sbj) (field : string) (dest : A) (set : bytes -> A) : result A :=
  sb_json_assign_string_n body field dest (fun s => set (cstr s)).

Definition sb_json_assign_bool (body : option sbj) (field : string) (dest : bool) : result bool :=
  match present body field with
  | None => Ok dest
  | Some (SBJ_BOOL b) => Ok b
  | Some _ => invalid field " must be a boolean"
  end.

Fixpoint only_strings (field : string) (l : list sbj) : result (list bytes) :=
  match l with
  | [] => Ok []
  | SBJ_STRING s :: l' => v ← only_strings field l'; Ok (cstr s :: v)
  | _ => invalid field " must contain only strings"
  end.
Definition sb_json_required_string_array (body : option sbj) (field : string) : result (list bytes) :=
  match sbj_get body field with
  | Some (SBJ_ARRAY l) => only_strings field l
  | _ => invalid field " must be an array"
  end.

(** The number of an integer value: an unsigned one wraps. *)
Definition json_int64 (v : sbj) : option Z :=
  match v with SBJ_UINT u => Some (to_i64 u) | SBJ_INT i => Some i | _ => None end.

Definition sb_json_integer_field (body : option sbj) (field : string) : result Z :=
  match sbj_get body field with
  | None => Ok 0
  | Some v => match json_int64 v with Some z => Ok z | None => invalid field " must be an integer" end
  end.

(** ** Methods *)

Inductive method := M_GET | M_POST | M_HEAD | M_PUT | M_DELETE | M_OPTIONS | M_PATCH | M_COPY | M_MOVE | M_MKCOL | M_PROPFIND.
#[export] Instance method_eq_dec : EqDecision method.
Proof. solve_decision. Defined.

Definition methods : list method :=
  [M_GET; M_POST; M_HEAD; M_PUT; M_DELETE; M_OPTIONS; M_PATCH; M_COPY; M_MOVE; M_MKCOL; M_PROPFIND].

Definition method_name (m : method) : bytes :=
  bs (match m with
      | M_GET => "GET" | M_POST => "POST" | M_HEAD => "HEAD" | M_PUT => "PUT" | M_DELETE => "DELETE" | M_OPTIONS => "OPTIONS"
      | M_PATCH => "PATCH" | M_COPY => "COPY" | M_MOVE => "MOVE" | M_MKCOL => "MKCOL" | M_PROPFIND => "PROPFIND"
      end).

Definition method_index (name : bytes) : option method := List.find (fun m => bytes_eqb (method_name m) name) methods.

Definition safe_method (m : method) : bool := match m with M_GET | M_HEAD | M_OPTIONS => true | _ => false end.

(** ** Dates *)

Definition day_names : list string := ["Sun"; "Mon"; "Tue"; "Wed"; "Thu"; "Fri"; "Sat"]%string.
Definition month_names : list string :=
  ["Jan"; "Feb"; "Mar"; "Apr"; "May"; "Jun"; "Jul"; "Aug"; "Sep"; "Oct"; "Nov"; "Dec"]%string.

(** [strftime] with [%a, %d %b %Y %H:%M:%S GMT] of a time in UTC; 1970 began on a
    Thursday. *)
Definition http_date (t : Z) : bytes :=
  let days := t / 86400 in
  let s := t mod 86400 in
  let '(y, m, d) := civil_from_days days in
  bs (default ""%string (day_names !! Z.to_nat ((days + 4) mod 7))) ++ bs ", " ++ two d ++ bs " " ++
  bs (default ""%string (month_names !! Z.to_nat (m - 1))) ++ bs " " ++ fmt_int y ++ bs " " ++
  two (s / 3600) ++ bs ":" ++ two (s / 60 mod 60) ++ bs ":" ++ two (s mod 60) ++ bs " GMT".

(** ** Ranges *)

Inductive range_result := RANGE_INVALID | RANGE_NOT_SATISFIABLE | RANGE_SINGLE (first : Z * Z) | RANGE_MULTI (first : Z * Z).

Fixpoint skip_blanks (it : bytes) : bytes :=
  match it with c :: it' => if code c =? 32 then skip_blanks it' else it | [] => [] end.

(** The digits read as a number of 64 bits; [None] when it does not fit. *)
Fixpoint range_number (it : bytes) (v : Z) : option (Z * bytes) :=
  match it with
  | c :: it' =>
      if isdigit c then
        if (UINT64_MAX / 10 <? v) || ((UINT64_MAX / 10 <=? v) && (UINT64_MAX mod 10 <? code c - 48)) then None
        else range_number it' (v * 10 + (code c - 48))
      else Some (v, it)
  | [] => Some (v, [])
  end.

Definition at_digit (it : bytes) : bool := match it with c :: _ => isdigit c | [] => false end.
(** [*it == ',' || *it == 0]. *)
Definition at_end (it : bytes) : bool := match it with c :: _ => code c =? 44 | [] => true end.

(** The total length, the number of ranges, and the first one. *)
Record ranges := mk_ranges { rg_total : Z; rg_count : nat; rg_first : Z * Z }.

Definition count_range (start stop : Z) (r : ranges) : ranges :=
  mk_ranges (rg_total r) (S (rg_count r)) (if (rg_count r =? 0)%nat then (start, stop) else rg_first r).
Definition add_length (start stop : Z) (r : ranges) : ranges :=
  mk_ranges (rg_total r + (stop - start)) (rg_count r) (rg_first r).
(** The sum of the lengths would not fit. *)
Definition too_long (start stop : Z) (r : ranges) : bool := UINT64_MAX - (stop - start) <? rg_total r.

Definition finish_ranges (content_length : Z) (r : ranges) : range_result :=
  if (rg_count r =? 0)%nat || (content_length <? rg_total r) then RANGE_NOT_SATISFIABLE
  else if (rg_count r =? 1)%nat then RANGE_SINGLE (rg_first r) else RANGE_MULTI (rg_first r).

(** A range [start-]: to the end of the file. *)
Definition open_range (content_length start : Z) (r : ranges) : range_result + ranges :=
  if start <? content_length then
    if too_long start content_length r then inl RANGE_NOT_SATISFIABLE
    else inr (count_range start content_length (add_length start content_length r))
  else inr r.

(** A range [start-last], or [-last] for the last bytes. *)
Definition closed_range (content_length : Z) (suffix : bool) (start last : Z) (r : ranges) : range_result + ranges :=
  let start := if suffix then (if last <? content_length then content_length - last else 0) else start in
  let stop := if suffix then to_u64 (content_length - 1) else last in
  let stop := if content_length <=? stop then content_length else stop + 1 in
  if start <? stop then
    let r := count_range start stop r in
    if too_long start stop r then inl RANGE_NOT_SATISFIABLE
    else if (100 <? rg_count r)%nat then inl RANGE_INVALID
    else inr (add_length start stop r)
  else inr r.

Section Range.
Context (content_length : Z).

(** From the last number of a range on; [next] reads the ranges after a comma. *)
Definition range_tail (next : bytes -> ranges -> range_result) (suffix : bool) (start : Z) (it : bytes) (r : ranges) : range_result :=
  if negb (at_digit it) then RANGE_INVALID
  else
    match range_number it 0 with
    | None => RANGE_NOT_SATISFIABLE
    | Some (last, it) =>
        let it := skip_blanks it in
        if negb (at_end it) then RANGE_INVALID
        else
          match closed_range content_length suffix start last r with
          | inl e => e
          | inr r => match it with _ :: it => next it r | [] => finish_ranges content_length r end
          end
    end.

(** One range per round; [fuel] is more than the characters left. *)
Fixpoint range_loop (fuel : nat) (it : bytes) (r : ranges) : range_result :=
  match fuel with
  | O => RANGE_INVALID
  | S fuel' =>
      let it := skip_blanks it in
      match it with
      | [] => RANGE_INVALID
      | c :: it' =>
          if code c =? 45 then range_tail (range_loop fuel') true 0 it' r
          else if negb (isdigit c) then RANGE_INVALID
          else
            match range_number it 0 with
            | None => RANGE_NOT_SATISFIABLE
            | Some (start, it) =>
                match skip_blanks it with
                | d :: it =>
                    if negb (code d =? 45) then RANGE_INVALID
                    else
                      let it := skip_blanks it in
                      if at_end it then
                        match open_range content_length start r with
                        | inl e => e
                        | inr r => match it with _ :: it => range_loop fuel' it r | [] => finish_ranges content_length r end
                        end
                      else range_tail (range_loop fuel') false start it r
                | [] => RANGE_INVALID
                end
            end
      end
  end.

Definition parse_range_header (text : bytes) : range_result :=
  if (length text <? 7)%nat || negb (bytes_eqb (take 6 text) (bs "bytes=")) then RANGE_INVALID
  else range_loop (S (length text)) (drop 6 text) (mk_ranges 0 0 (0, 0)).
End Range.

(** * Theorems *)

(** A range that is found, by either branch of the loop, is a non-empty part of the
    file. *)
Definition within_file (content_length : Z) (r : ranges) : Prop :=
  (rg_count r > 0)%nat -> 0 <= fst (rg_first r) < snd (rg_first r) /\ snd (rg_first r) <= content_length.

Definition result_within (content_length : Z) (r : range_result) : Prop :=
  match r with
  | RANGE_SINGLE (start, stop) | RANGE_MULTI (start, stop) => 0 <= start < stop /\ stop <= content_length
  | _ => True
  end.

Lemma range_number_nonneg it v n rest : 0 <= v -> range_number it v = Some (n, rest) -> 0 <= n.
Proof.
  revert v. induction it as [|c it IH]; intros v V E; cbn in E; [congruence|].
  case_if_in E; [|congruence]. case_if_in E; [done|]. apply IH in E; [done|].
  unfold isdigit, in_range in E0. bool_facts. lia.
Qed.

Lemma count_within n start stop r : 0 <= start < stop -> stop <= n -> within_file n r -> within_file n (count_range start stop r).
Proof. intros ? ? W _. unfold count_range. cbn. destruct (rg_count r) eqn:C; cbn; [done|]. apply W. lia. Qed.

Lemma finish_within n r : within_file n r -> result_within n (finish_ranges n r).
Proof.
  intros W. unfold finish_ranges. destruct (rg_count r =? 0)%nat eqn:C; [done|]. apply Nat.eqb_neq in C. cbn [orb]. case_if; [done|].
  destruct (W ltac:(lia)) as [? ?]. case_if; cbn; by destruct (rg_first r).
Qed.

Lemma closed_within n suffix start last r :
  0 <= n -> 0 <= start -> 0 <= last -> within_file n r ->
  match closed_range n suffix start last r with inl e => result_within n e | inr r' => within_file n r' end.
Proof.
  intros N S L W. unfold closed_range.
  set (a := if suffix then _ else start). set (b := if n <=? _ then n else _).
  assert (0 <= a) by (subst a; destruct suffix; [case_if|]; lia).
  assert (b <= n) by (subst b; case_if; lia).
  case_if; [|done]. case_if; [done|]. case_if; [done|].
  intros C. by apply (count_within n a b r).
Qed.

Lemma open_within n start r :
  0 <= start -> within_file n r ->
  match open_range n start r with inl e => result_within n e | inr r' => within_file n r' end.
Proof. intros S W. unfold open_range. case_if; [|done]. case_if; [done|]. apply count_within; [lia..|done]. Qed.

Lemma tail_within n next suffix start it r :
  0 <= n -> 0 <= start -> within_file n r ->
  (forall it' r', within_file n r' -> result_within n (next it' r')) ->
  result_within n (range_tail n next suffix start it r).
Proof.
  intros N S W Next. unfold range_tail. case_if; [done|].
  destruct (range_number it 0) as [[last rest]|] eqn:R; [|done]. case_if; [done|].
  pose proof (range_number_nonneg _ _ _ _ (Z.le_refl 0) R) as L.
  pose proof (closed_within n suffix start last r N S L W) as C.
  destruct (closed_range n suffix start last r); [done|]. destruct (skip_blanks rest); [by apply finish_within|by apply Next].
Qed.

Lemma loop_within n fuel it r : 0 <= n -> within_file n r -> result_within n (range_loop n fuel it r).
Proof.
  intros N. revert it r. induction fuel as [|fuel IH]; intros it r W; cbn; [done|].
  destruct (skip_blanks it) as [|c it'] eqn:K; [done|].
  case_if; [by apply tail_within; [| | |auto]|]. case_if; [done|].
  destruct (range_number (c :: it') 0) as [[start rest]|] eqn:R; [|done].
  pose proof (range_number_nonneg _ _ _ _ (Z.le_refl 0) R) as S.
  destruct (skip_blanks rest) as [|d it1]; [done|]. case_if; [done|].
  case_if; [|by apply tail_within; [| | |auto]].
  pose proof (open_within n start r S W) as O.
  destruct (open_range n start r); [done|]. destruct (skip_blanks it1); [by apply finish_within|by apply IH].
Qed.

(** A Range header never makes the server read outside a file: whatever the text,
    the part that is served is not empty, starts inside the file and ends at its end
    at the latest. *)
Theorem range_within_file content_length text :
  0 <= content_length -> result_within content_length (parse_range_header content_length text).
Proof. intros. unfold parse_range_header. case_if; [done|]. apply loop_within; [done|]. intros C. cbn in C. lia. Qed.

Lemma range_within_file_witness :
  result_within 100 (parse_range_header 100 (bs "bytes=-30, 5-9")) /\ parse_range_header 100 (bs "bytes=-30, 5-9") = RANGE_MULTI (70, 100).
Proof. split; [apply (range_within_file 100 (bs "bytes=-30, 5-9")); lia | vm_compute; reflexivity]. Defined.

Example ranges_read :
  parse_range_header 100 (bs "bytes= 10 - 19 ") = RANGE_SINGLE (10, 20) /\
  parse_range_header 100 (bs "bytes=90-") = RANGE_SINGLE (90, 100) /\
  parse_range_header 100 (bs "bytes=100-") = RANGE_NOT_SATISFIABLE /\
  parse_range_header 0 (bs "bytes=-5") = RANGE_NOT_SATISFIABLE /\
  parse_range_header 100 (bs "bytes=0-99,0-99") = RANGE_NOT_SATISFIABLE /\
  parse_range_header 100 (bs "bytes=1") = RANGE_INVALID /\
  parse_range_header 100 (bs "bytes=18446744073709551616-") = RANGE_NOT_SATISFIABLE.
Proof. vm_compute. done. Qed.

Example http_date_reads : http_date 784111777 = bs "Sun, 06 Nov 1994 08:49:37 GMT".
Proof. vm_compute. reflexivity. Qed.

Example parameters_read :
  scan_parameters (bs "?a=1&host=h%201&b&&host=h+2&") (bs "host") None = Some (bs "h 2") /\
  scan_parameters (bs "b&a=1") (bs "b") None = Some [] /\ scan_parameters (bs "a=1") (bs "b") None = None.
Proof. vm_compute. done. Qed.

(** An escaped byte is read back. *)
Lemma drogon_decode_escape c t :
  drogon_url_decode (chr 37 :: hex_digit_upper (Z.shiftr (code c) 4) :: hex_digit_upper (Z.land (code c) 15) :: t) = c :: drogon_url_decode t.
Proof.
  cbn [drogon_url_decode].
  assert (forallb (fun c => let h := hex_digit_upper (Z.shiftr (code c) 4) in let l := hex_digit_upper (Z.land (code c) 15) in
    isxdigit h && isxdigit l && (code (chr (hexval h * 16 + hexval l)) =? code c)) all_bytes = true) as F by (vm_compute; reflexivity).
  pose proof (byte_forallb _ F c) as B. cbn zeta in B.
  apply andb_true_iff in B as [B E%Z.eqb_eq]. apply andb_true_iff in B as [H L].
  change (code (chr 37) =? 43) with false. change (code (chr 37) =? 37) with true. cbn [andb].
  rewrite H, L. cbn [andb]. f_equal. by apply code_inj.
Qed.

(** A byte that is neither a plus nor a percent sign stands for itself. *)
Lemma drogon_decode_plain c t : code c <> 43 -> code c <> 37 -> drogon_url_decode (c :: t) = c :: drogon_url_decode t.
Proof. intros P%eqb_false Q%eqb_false. cbn [drogon_url_decode]. rewrite P, Q. by destruct t as [|? [|? ?]]. Qed.

(** [encodeURIComponent] is read back by the decoder of the server. *)
Lemma drogon_decode_component s : drogon_url_decode (sb_http_encode_component_n s) = s.
Proof.
  induction s as [|c s IH]; [done|]. unfold sb_http_encode_component_n in *. rewrite bind_cons.
  destruct (url_unreserved c) eqn:U; cbn [app].
  - rewrite drogon_decode_plain, IH; [done|..];
      revert U; unfold url_unreserved, isalnum, isdigit, isupper, islower, in_range; intros U E; rewrite E in U; discriminate U.
  - by rewrite drogon_decode_escape, IH.
Qed.
