(* ===== verification/HttpClient.v ===== *)
(** * Requests to other servers ([c/src/http_client.c], [c/src/clash_client.c],
    [c/src/subscription_fetcher.c])

    The client over libcurl, the client of the Clash API, and the download of
    subscriptions with its redirects.  libcurl is a parameter ([client_env]): a
    transfer gives the header lines and pieces of the body it hands to the callbacks,
    then a code and a status.  A call takes its answers from outside and changes
    neither tables nor memory; the debug line of the Clash client is left out.

    Theorems: a download ends after a bounded number of transfers with a body within
    the limit ([fetch_bounded]); the request line of a download decodes to the path
    of the URL ([fetch_target_roundtrip]); the counters of a provider are read
    exactly ([usage_number_exact]); a transport failure whose message does not fit
    is reported as something else ([long_url_hides_timeout]). *)

From S2P Require Import Prelude Util Json JsonText JsonSafe JsonRound Sqlite HttpText.

(** ** The client ([c/src/http_client.c]) *)

(** [hq_body] with its exact length; 0 in [hq_timeout], [hq_max_body] and
    [hq_max_redirects] are the defaults. *)
Record sb_http_request := mk_http_request {
  hq_method : option bytes; hq_url : bytes; hq_headers : list bytes; hq_body : option bytes; hq_timeout : Z; hq_max_body : Z;
  hq_max_redirects : Z; hq_proxy : option bytes; hq_agent : option bytes }.

Record sb_http_response := mk_http_response {
  hx_status : Z; hx_body : bytes; hx_etag : option bytes; hx_content_type : option bytes; hx_headers : option bytes }.

(** The options set on a handle. *)
Record curl_options := mk_curl {
  cu_url : bytes; cu_timeout : Z; cu_verify_peer : Z; cu_verify_host : Z; cu_protocols : bytes; cu_redirects : option (Z * bytes);
  cu_proxy : bytes; cu_tunnel : bool; cu_agent : option bytes; cu_headers : list bytes; cu_custom : option bytes; cu_post : option bytes }.

Inductive CURLcode : Type :=
  | CURLE_OK | CURLE_UNSUPPORTED_PROTOCOL | CURLE_URL_MALFORMAT | CURLE_COULDNT_RESOLVE_HOST | CURLE_COULDNT_CONNECT
  | CURLE_WEIRD_SERVER_REPLY | CURLE_PARTIAL_FILE | CURLE_WRITE_ERROR | CURLE_OPERATION_TIMEDOUT | CURLE_SSL_CONNECT_ERROR
  | CURLE_GOT_NOTHING | CURLE_SEND_ERROR | CURLE_RECV_ERROR | CURLE_PEER_FAILED_VERIFICATION | CURLE_SSL_CACERT_BADFILE
  | CURLE_OTHER (number : Z).

(** What a transfer hands to the callbacks, and how it ends. *)
Inductive curl_event : Type := curl_header (line : bytes) | curl_data (piece : bytes).
Record curl_result := mk_curl_result { cr_events : list curl_event; cr_code : CURLcode; cr_status : Z }.

(** libcurl, [CLOCK_MONOTONIC] in milliseconds, [SB_EASY_VERSION]. *)
Record client_env := mk_client_env {
  ce_init : nat -> bool; ce_perform : nat -> curl_options -> curl_result; ce_strerror : CURLcode -> bytes;
  ce_monotonic : nat -> Z; ce_version : bytes }.

Record body_ctx := mk_body_ctx { bc_body : bytes; bc_limit : Z; bc_overflow : bool }.

Definition on_body (c : body_ctx) (data : bytes) : body_ctx :=
  if bc_limit c <? Z.of_nat (length (bc_body c)) + Z.of_nat (length data) then mk_body_ctx (bc_body c) (bc_limit c) true
  else mk_body_ctx (bc_body c ++ data) (bc_limit c) (bc_overflow c).

(** A status line starts the headers of a later response. *)
Definition on_header (h data : bytes) : bytes :=
  (if (5 <=? length data)%nat && bytes_eqb (take 5 data) (bs "HTTP/") then [] else h) ++ data.

Definition on_event (st : body_ctx * bytes) (e : curl_event) : body_ctx * bytes :=
  match e with
  | curl_header line => (fst st, on_header (snd st) line)
  | curl_data piece => (on_body (fst st) piece, snd st)
  end.

(** The text up to a line break, and what follows it. *)
Fixpoint cut_line (s : bytes) : bytes * option bytes :=
  match s with
  | [] => ([], None)
  | c :: s1 =>
      match s1 with
      | d :: s2 =>
          if (code c =? 13) && (code d =? 10) then ([], Some s2) else let (line, rest) := cut_line s1 in (c :: line, rest)
      | [] => ([c], None)
      end
  end.

Fixpoint drop_blanks (s : bytes) : bytes :=
  match s with c :: s' => if (code c =? 32) || (code c =? 9) then drop_blanks s' else s | [] => [] end.

Definition header_value (name line : bytes) : option bytes :=
  if (length name <? length line)%nat && bool_decide (line !! length name = Some (chr 58)) && starts_with_ci line name
  then Some (reverse (drop_blanks (reverse (drop_blanks (drop (S (length name)) line))))) else None.

(** [fuel] is at least the length of [p]. *)
Fixpoint find_header (fuel : nat) (name p : bytes) : option bytes :=
  match fuel, p with
  | S fuel', _ :: _ =>
      let (line, rest) := cut_line p in
      match header_value name line, rest with
      | Some v, _ => Some v
      | None, Some p' => find_header fuel' name p'
      | None, None => None
      end
  | _, _ => None
  end.

Definition header_in (headers name : bytes) : option bytes := find_header (length (cstr headers)) name (cstr headers).

Definition sb_http_response_header (resp : sb_http_response) (name : string) : option bytes :=
  match hx_headers resp with Some h => header_in h (bs name) | None => None end.

Definition max_body (limit : Z) : Z := if limit =? 0 then 8 * 1024 * 1024 else limit.

Definition curl_options_of (req : sb_http_request) : curl_options :=
  let method := default (bs "GET") (hq_method req) in
  let named m := bytes_eqb method (bs m) in
  mk_curl (hq_url req) (if 0 <? hq_timeout req then hq_timeout req else 15000) 1 2 (bs "http,https")
    (if 0 <? hq_max_redirects req then Some (hq_max_redirects req, bs "http,https") else None)
    (default [] (hq_proxy req)) (match hq_proxy req with Some _ => true | None => false end) (hq_agent req)
    (hq_headers req ++ (match hq_body req with Some _ => [bs "Expect:"] | None => [] end))
    (if named "GET"%string then None else Some method)
    (match hq_body req with
     | Some b => Some b
     | None => if named "POST"%string || named "PUT"%string || named "PATCH"%string then Some [] else None
     end).

Section Client.
Context (env : client_env) {T P : Type}.

Abbreviation client := (sql T P).

Definition transferred (req : sb_http_request) (r : curl_result) : result sb_http_response :=
  let (ctx, hdr) := foldl on_event (mk_body_ctx [] (max_body (hq_max_body req)) false, []) (cr_events r) in
  match cr_code r with
  | CURLE_OK => Ok (mk_http_response (cr_status r) (bc_body ctx) (header_in hdr (bs "ETag")) (header_in hdr (bs "Content-Type")) (Some hdr))
  | rc =>
      if bc_overflow ctx then sb_fail SB_ERR_UPSTREAM (bs "response body exceeds " ++ fmt_int (bc_limit ctx) ++ bs " bytes")
      else sb_fail SB_ERR_UPSTREAM (cstr (hq_url req) ++ bs ": " ++ cstr (ce_strerror env rc))
  end.

Definition sb_http_perform (req : sb_http_request) : client sb_http_response :=
  handle ← ask (ce_init env);
  if negb handle then pure (sb_fail SB_ERR_UPSTREAM (bs "curl initialisation failed"))
  else
    r ← ask (fun n => ce_perform env n (curl_options_of req));
    pure (transferred req r).

(** The words of Drogon for a failure. *)
Definition failure_reasons : list (CURLcode * string) := [
  (CURLE_OPERATION_TIMEDOUT, "Timeout"); (CURLE_COULDNT_RESOLVE_HOST, "Bad server address");
  (CURLE_COULDNT_CONNECT, "Bad server address"); (CURLE_URL_MALFORMAT, "Bad server address");
  (CURLE_PEER_FAILED_VERIFICATION, "Invalid certificate"); (CURLE_SSL_CACERT_BADFILE, "Invalid certificate");
  (CURLE_SSL_CONNECT_ERROR, "Handshake error"); (CURLE_WEIRD_SERVER_REPLY, "Bad response from server");
  (CURLE_UNSUPPORTED_PROTOCOL, "Bad response from server"); (CURLE_GOT_NOTHING, "Network failure");
  (CURLE_RECV_ERROR, "Network failure"); (CURLE_SEND_ERROR, "Network failure"); (CURLE_PARTIAL_FILE, "Network failure")]%string.

Definition sb_http_failure_reason (message : option bytes) : bytes :=
  match message with
  | None => bs "Network failure"
  | Some m =>
      match List.find (fun r => sb_ends_with m (ce_strerror env (fst r))) failure_reasons with
      | Some r => bs (snd r)
      | None => bs "Network failure"
      end
  end.

(** ** The client of the Clash API ([c/src/clash_client.c]) *)

Record sb_clash_client_options := mk_clash_options { co_timeout : Z; co_max_body : Z }.
Definition sb_clash_client_options_init : sb_clash_client_options := mk_clash_options 10000 (8 * 1024 * 1024).

Definition sb_clash_client_new (options : option sb_clash_client_options) : result sb_clash_client_options :=
  let o := default sb_clash_client_options_init options in
  if (co_timeout o <=? 0) || (co_max_body o =? 0)
  then sb_fail SB_ERR_VALIDATION (bs "Clash timeout and response limit must be positive") else Ok o.

Record sb_clash_target := mk_clash_target { ct_base_url : option bytes; ct_secret : option bytes }.
Record sb_clash_response := mk_clash_response { cx_status : Z; cx_body : sbj }.

(** The text before the first [needle] and what follows it. *)
Fixpoint cut_text (needle s : bytes) : option (bytes * bytes) :=
  if bytes_eqb (take (length needle) s) needle then Some ([], drop (length needle) s)
  else match s with
       | [] => None
       | c :: s' => '(a, b) ← cut_text needle s'; Some (c :: a, b)
       end.

Definition is_http (scheme : bytes) : bool := bytes_eqb scheme (bs "http") || bytes_eqb scheme (bs "https").
Definition has_byte (z : Z) (s : bytes) : bool := existsb (fun c => code c =? z) s.

Definition parse_base_url (base_url : option bytes) : result (bytes * bytes) :=
  let url := reverse (drop_slashes (reverse (cstr (default [] base_url)))) in
  match cut_text (bs "://") url with
  | Some (scheme, authority) =>
      if negb (is_http scheme) then sb_fail SB_ERR_UPSTREAM (bs "Clash API URL must include http:// or https://")
      else if has_byte 63 authority || has_byte 35 authority
      then sb_fail SB_ERR_UPSTREAM (bs "Clash API base URL must not contain a query or fragment")
      else
        let (origin, prefix) :=
          match split_at (chr 47) authority with
          | Some (a, path) => (scheme ++ bs "://" ++ a, chr 47 :: path)
          | None => (url, [])
          end in
        if bytes_eqb origin [] || sb_ends_with origin (bs "://") then sb_fail SB_ERR_UPSTREAM (bs "Clash API URL has an empty authority")
        else Ok (origin, prefix)
  | None => sb_fail SB_ERR_UPSTREAM (bs "Clash API URL must include http:// or https://")
  end.

Definition user_agent : bytes := bs "sb-easy-cpp/" ++ ce_version env.

Definition clash_http_request (o : sb_clash_client_options) (method : string) (t : sb_clash_target) (url : bytes) (body : option sbj) : sb_http_request :=
  mk_http_request (Some (bs method)) url
    ([bs "Accept: application/json"] ++
     (match ct_secret t with
      | Some s => if bytes_eqb (cstr s) [] then [] else [bs "Authorization: Bearer " ++ cstr s]
      | None => []
      end) ++
     (match body with Some _ => [bs "Content-Type: application/json; charset=utf-8"] | None => [] end))
    ((fun b => sbj_dump (Some b) (-1)) <$> body) (co_timeout o) (co_max_body o) 0 None (Some user_agent).

Definition too_large {A} : result A := sb_fail SB_ERR_UPSTREAM (bs "Clash API response exceeds the configured size limit").

Definition clash_request (o : sb_clash_client_options) (method : string) (t : sb_clash_target) (path : bytes) (body : option sbj)
    : client sb_clash_response :=
  '(origin, prefix) ← pure (parse_base_url (ct_base_url t));
  r ← attempt (sb_http_perform (clash_http_request o method t (origin ++ prefix ++ cstr path) body));
  pure (match r with
        | Err e =>
            if strstr (err_msg e) (bs "response body exceeds") then too_large
            else sb_fail SB_ERR_UPSTREAM (bs "Clash API request failed: " ++ sb_http_failure_reason (Some (err_msg e)))
        | Ok resp =>
            if co_max_body o <? Z.of_nat (length (hx_body resp)) then too_large
            else Ok (mk_clash_response (to_i32 (hx_status resp))
                   (match hx_body resp with [] => SBJ_OBJECT [] | b => default (SBJ_OBJECT []) (sbj_parse b) end))
        end).

Definition sb_clash_get o t path := clash_request o "GET" t path None.
Definition sb_clash_remove o t path := clash_request o "DELETE" t path None.
Definition sb_clash_put o t path body := clash_request o "PUT" t path body.
End Client.

(** ** Downloading subscriptions ([c/src/subscription_fetcher.c]) *)

Record sb_subscription_fetcher_options := mk_fetcher { fo_timeout : Z; fo_max_body : Z; fo_redirects : Z }.
Definition sb_subscription_fetcher_options_init : sb_subscription_fetcher_options := mk_fetcher 30000 (8 * 1024 * 1024) 5.

Definition sb_subscription_fetcher_new (options : option sb_subscription_fetcher_options) : result sb_subscription_fetcher_options :=
  let o := default sb_subscription_fetcher_options_init options in
  if (fo_timeout o <=? 0) || (fo_max_body o =? 0)
  then sb_fail SB_ERR_VALIDATION (bs "subscription timeout and body limit must be positive") else Ok o.

Record http_address := mk_address { ad_scheme : bytes; ad_origin : bytes; ad_target : bytes }.

(** The text up to the first byte of [stop], and the rest from that byte. *)
Fixpoint span_until (stop : ascii -> bool) (s : bytes) : bytes * bytes :=
  match s with
  | [] => ([], [])
  | c :: s' => if stop c then ([], s) else let (a, b) := span_until stop s' in (c :: a, b)
  end.

Definition path_start (c : ascii) : bool := (code c =? 47) || (code c =? 63).

Definition parse_url (url : bytes) : result http_address :=
  match cut_text (bs "://") url with
  | None => sb_fail SB_ERR_VALIDATION (bs "subscription URL must include http:// or https://")
  | Some (scheme, rest) =>
      if negb (is_http scheme) then sb_fail SB_ERR_VALIDATION (bs "subscription URL must use HTTP or HTTPS")
      else if has_byte 35 rest then sb_fail SB_ERR_VALIDATION (bs "subscription URL must not contain a fragment")
      else
        let (authority, path) := span_until path_start rest in
        if bytes_eqb authority [] || has_byte 64 authority
        then sb_fail SB_ERR_VALIDATION (bs "subscription URL authority is empty or contains credentials")
        else if has_byte 0 authority then sb_fail SB_ERR_UPSTREAM (bs "subscription HTTP request failed: Bad server address")
        else Ok (mk_address scheme (scheme ++ bs "://" ++ authority)
               (match path with c :: _ => if code c =? 63 then chr 47 :: path else path | [] => [chr 47] end))
  end.

(** The text with its last slash; none at all stands for one slash. *)
Definition directory (path : bytes) : bytes :=
  match reverse (snd (span_until (fun c => code c =? 47) (reverse path))) with [] => [chr 47] | d => d end.

Definition resolve_redirect (cur : http_address) (location : bytes) : bytes :=
  if sb_starts_with location (bs "http://") || sb_starts_with location (bs "https://") then location
  else if sb_starts_with location (bs "//") then ad_scheme cur ++ bs ":" ++ location
  else
    ad_origin cur ++
    (match location with
     | c :: _ => if code c =? 47 then [] else directory (fst (span_until (fun c => code c =? 63) (ad_target cur)))
     | [] => directory (fst (span_until (fun c => code c =? 63) (ad_target cur)))
     end) ++ location.

Definition url_kept (c : ascii) : bool := isalnum c || existsb (fun d => code c =? code d) (bs "-_.!~*'()&=/\?").

Definition drogon_encode_byte (c : ascii) : bytes :=
  if code c =? 32 then [chr 43] else if url_kept c then [c]
  else [chr 37; hex_digit_upper (Z.shiftr (code c) 4); hex_digit_upper (Z.land (code c) 15)].
Definition drogon_url_encode (src : bytes) : bytes := src ≫= drogon_encode_byte.

Definition redirect_status (s : Z) : bool := (s =? 301) || (s =? 302) || (s =? 303) || (s =? 307) || (s =? 308).

(** A decimal number of at most 63 bits. *)
Fixpoint usage_digits (number : Z) (s : bytes) : option Z :=
  match s with
  | [] => Some number
  | c :: s' =>
      if negb (isdigit c) || ((INT64_MAX - (code c - 48)) / 10 <? number) then None
      else usage_digits (number * 10 + (code c - 48)) s'
  end.
Definition usage_number (value : bytes) : option Z := match value with [] => None | _ => usage_digits 0 value end.

Definition usage_keys : list string := ["upload"; "download"; "total"; "expire"]%string.

(** One entry [key=value]: a field that is repeated or malformed is dropped. *)
Definition usage_entry (st : sbj * list string) (entry : bytes) : sbj * list string :=
  let (usage, seen) := st in
  match split_at (chr 61) entry with
  | None => st
  | Some (k, v) =>
      match List.find (fun name => bytes_eqb (tolower <$> sb_trim_dup k) (bs name)) usage_keys with
      | None => st
      | Some key =>
          let number := if existsb (String.eqb key) seen then None else usage_number (sb_trim_dup v) in
          (match number with Some n => sbj_set usage key (SBJ_INT n) | None => snd (sbj_del usage key) end, key :: seen)
      end
  end.

(** The entries are the non-empty texts between semicolons ([strtok_r]). *)
Definition sb_subscription_parse_usage (header : option bytes) : sbj :=
  match header with
  | None => SBJ_OBJECT []
  | Some h =>
      if (4096 <? length (cstr h))%nat then SBJ_OBJECT []
      else fst (foldl usage_entry (SBJ_OBJECT [], []) (List.filter (fun e => negb (bytes_eqb e [])) (sb_split h (chr 59))))
  end.

Section Fetcher.
Context (env : client_env) {T P : Type} (o : sb_subscription_fetcher_options).

Abbreviation client := (sql T P).

Definition upstream {A} (msg : bytes) : result A := sb_fail SB_ERR_UPSTREAM msg.
Definition over_limit {A} : result A := upstream (bs "subscription response exceeds the configured size limit").

Definition fetch_request (full : bytes) (timeout : Z) : sb_http_request :=
  mk_http_request None full [bs "Accept: text/plain, application/yaml, application/json"] None timeout (fo_max_body o) 0 None
    (Some (user_agent env)).

Definition transport_failure {A} (e : sb_err) : result A :=
  if sb_starts_with (err_msg e) (bs "response body exceeds") then over_limit
  else upstream (bs "subscription HTTP request failed: " ++ sb_http_failure_reason env (Some (err_msg e))).

(** The last response: the body and what the provider says of the usage. *)
Definition fetched (resp : sb_http_response) : result (bytes * sbj) :=
  if (hx_status resp <? 200) || (300 <=? hx_status resp) then upstream (bs "subscription returned HTTP " ++ fmt_int (hx_status resp))
  else if fo_max_body o <? Z.of_nat (length (hx_body resp)) then over_limit
  else Ok (hx_body resp, sb_subscription_parse_usage (sb_http_response_header resp "Subscription-Userinfo")).

(** [left] is how many more redirects are followed. *)
Fixpoint fetch_loop (left : nat) (started : Z) (url : bytes) : client (bytes * sbj) :=
  addr ← pure (parse_url url);
  now ← ask (ce_monotonic env);
  let timeout := fo_timeout o - (now - started) in
  if timeout <=? 0 then pure (upstream (bs "subscription HTTP request failed: Timeout"))
  else
    r ← attempt (sb_http_perform env (fetch_request (ad_origin addr ++ drogon_url_encode (ad_target addr)) timeout));
    match r with
    | Err e => pure (transport_failure e)
    | Ok resp =>
        if redirect_status (hx_status resp) then
          match left with
          | O => pure (upstream (bs "subscription exceeded the redirect limit"))
          | S left' =>
              match sb_http_response_header resp "location" with
              | Some ((_ :: _) as location) => fetch_loop left' started (resolve_redirect addr location)
              | _ => pure (upstream (bs "subscription redirect is missing Location"))
              end
          end
        else pure (fetched resp)
    end.

(** A URL is given with its length, which may hold NUL bytes. *)
Definition sb_subscription_fetcher_fetch_metadata (url : bytes) : client (bytes * sbj) :=
  started ← ask (ce_monotonic env);
  fetch_loop (Z.to_nat (fo_redirects o)) started url.

Definition sb_subscription_fetcher_fetch_n (url : bytes) : client bytes :=
  r ← sb_subscription_fetcher_fetch_metadata url;
  mret (fst r).

Definition sb_subscription_fetcher_fetch (url : option bytes) : client bytes :=
  sb_subscription_fetcher_fetch_n (cstr (default [] url)).
End Fetcher.

(** * Theorems *)

(** ** Limits of a transfer *)

Lemma on_body_limit c data : Z.of_nat (length (bc_body c)) <= bc_limit c -> Z.of_nat (length (bc_body (on_body c data))) <= bc_limit c.
Proof. unfold on_body. case_if; cbn; [done|]. rewrite length_app. lia. Qed.

Lemma on_body_keeps_limit c data : bc_limit (on_body c data) = bc_limit c.
Proof. unfold on_body. by case_if. Qed.

Lemma on_event_limit l st :
  Z.of_nat (length (bc_body (fst st))) <= bc_limit (fst st) -> Z.of_nat (length (bc_body (fst (foldl on_event st l)))) <= bc_limit (fst st).
Proof.
  revert st. induction l as [|[line|piece] l IH]; intros [c h] H; cbn [foldl on_event fst snd] in *; [done|by apply IH|].
  pose proof (IH (on_body c piece, h)) as I. cbn [fst] in I. rewrite on_body_keeps_limit in I. by apply I, on_body_limit.
Qed.

Lemma transferred_limit env req r resp :
  0 <= hq_max_body req -> transferred env req r = Ok resp -> Z.of_nat (length (hx_body resp)) <= max_body (hq_max_body req).
Proof.
  intros N. unfold transferred. set (st := (mk_body_ctx [] _ false, [])).
  assert (0 <= max_body (hq_max_body req)) as M by (unfold max_body; case_if; lia).
  pose proof (on_event_limit (cr_events r) st M) as L. destruct (foldl on_event st _) as [ctx hdr]. cbn [fst bc_body bc_limit st] in L.
  destruct (cr_code r); try (intros [= <-]; exact L); by destruct (bc_overflow ctx).
Qed.

Lemma transferred_error env req r e : transferred env req r = Err e -> err_code e = SB_ERR_UPSTREAM.
Proof.
  unfold transferred. destruct (foldl on_event _ _) as [ctx hdr]. destruct (cr_code r); try done; destruct (bc_overflow ctx); by intros [= <-].
Qed.

Section Fetches.
Context {T P : Type}.

(** A call that changes neither tables nor memory and takes at most [k] answers. *)
Definition quiet_since (s : conn T P) (k : nat) (s' : conn T P) : Prop := db s' = db s /\ mem s' = mem s /\ (asked s' <= asked s + k)%nat.

Lemma quiet_more s k k' s' : quiet_since s k s' -> (k <= k')%nat -> quiet_since s k' s'.
Proof. intros (? & ? & ?) L. repeat split; [done..|lia]. Qed.

Lemma quiet_since_trans s k s1 k1 s2 : quiet_since s k s1 -> quiet_since s1 k1 s2 -> quiet_since s (k + k1) s2.
Proof. intros (A & B & C) (D & E & F). repeat split; [congruence..|lia]. Qed.

Lemma perform_spec env req (s : conn T P) :
  wp (sb_http_perform env req)
    (fun resp s' => quiet_since s 2 s' /\ (0 <= hq_max_body req -> Z.of_nat (length (hx_body resp)) <= max_body (hq_max_body req)))
    (fun e s' => quiet_since s 2 s' /\ err_code e = SB_ERR_UPSTREAM) s.
Proof.
  unfold sb_http_perform. do 2 wp_step. destruct (ce_init env (asked s)); cbn [negb].
  - do 2 wp_step. cbn [asked db mem]. wp_step. destruct (transferred _ _ _) eqn:E.
    + split; [unfold quiet_since; cbn; repeat split; lia|]. intros N. by eapply transferred_limit.
    + split; [unfold quiet_since; cbn; repeat split; lia|]. by eapply transferred_error.
  - wp_step. split; [unfold quiet_since; cbn; repeat split; lia|done].
Qed.

Definition fetch_error (e : sb_err) : Prop := err_code e = SB_ERR_VALIDATION \/ err_code e = SB_ERR_UPSTREAM.

Lemma parse_url_error url e : parse_url url = Err e -> fetch_error e.
Proof.
  unfold parse_url, fetch_error. destruct (cut_text _ _) as [[scheme rest]|]; [|intros [= <-]; by left].
  destruct (negb _); [intros [= <-]; by left|]. destruct (has_byte 35 rest); [intros [= <-]; by left|].
  destruct (span_until path_start rest) as [authority path]. destruct (_ || _); [intros [= <-]; by left|].
  destruct (has_byte 0 authority); [|done]. intros [= <-]. by right.
Qed.

Lemma transport_failure_error env {A} e e' : transport_failure (A := A) env e = Err e' -> err_code e' = SB_ERR_UPSTREAM.
Proof. unfold transport_failure. case_if; by intros [= <-]. Qed.

Lemma fetched_spec o resp :
  match fetched o resp with Ok r => Z.of_nat (length (fst r)) <= fo_max_body o | Err e => err_code e = SB_ERR_UPSTREAM end.
Proof. unfold fetched. destruct (_ || _); [done|]. case_if; [done|]. cbn. lia. Qed.

Lemma fetch_loop_spec env o left started url (s : conn T P) :
  wp (fetch_loop env o left started url)
    (fun r s' => quiet_since s (3 * S left) s' /\ Z.of_nat (length (fst r)) <= fo_max_body o)
    (fun e s' => quiet_since s (3 * S left) s' /\ fetch_error e) s.
Proof.
  revert url s. induction left as [|left IH]; intros url s; cbn [fetch_loop]; wp_step; wp_step;
    (destruct (parse_url url) as [addr|e] eqn:U; [|split; [by unfold quiet_since; repeat split; lia|by eapply parse_url_error]]);
    do 2 wp_step; cbn [db mem asked]; (case_if; [wp_step; split; [by unfold quiet_since; cbn; repeat split; lia|by right]|]);
    wp_step; apply wp_attempt; (eapply wp_mono; [by apply perform_spec| |]).
  2, 4: intros e s' [Q _]; wp_step; destruct (transport_failure env e) eqn:F; [unfold transport_failure in F; by destruct (sb_starts_with _ _)|];
    split; [eapply quiet_more; [eapply (quiet_since_trans s 1); [|exact Q]|lia]; by unfold quiet_since; cbn; repeat split; lia|right; by eapply transport_failure_error].
  all: intros resp s' [Q _]; assert (quiet_since s 3 s') as Q3 by
    (apply (quiet_since_trans s 1 (mk_conn (db s) (mem s) (S (asked s))) 2); [unfold quiet_since; cbn; repeat split; lia|exact Q]); case_if.
  - wp_step. split; [eapply quiet_more; [exact Q3|lia]|by right].
  - wp_step. pose proof (fetched_spec o resp) as F. destruct (fetched o resp); (split; [eapply quiet_more; [exact Q3|lia]|]); [done|by right].
  - destruct (sb_http_response_header resp _) as [[|c l]|]; try (wp_step; split; [eapply quiet_more; [exact Q3|lia]|by right]).
    eapply wp_mono; [apply IH| |]; intros ? s2 [Q2 H2]; (split; [eapply quiet_more; [eapply quiet_since_trans; [exact Q3|exact Q2]|lia]|done]).
  - wp_step. pose proof (fetched_spec o resp) as F. destruct (fetched o resp); (split; [eapply quiet_more; [exact Q3|lia]|]); [done|by right].
Qed.

(** A download leaves the tables as they are, however it ends. *)
Lemma fetch_metadata_frame env o url (s : conn T P) :
  wp (sb_subscription_fetcher_fetch_metadata env o url) (fun _ s' => db s' = db s) (fun _ s' => db s' = db s) s.
Proof.
  unfold sb_subscription_fetcher_fetch_metadata. do 2 wp_step.
  eapply wp_mono; [apply fetch_loop_spec| |]; by intros ? s2 [[D _] _].
Qed.

(** C19: a download of a subscription always ends: it takes at most one answer from
    outside and three more for each of [maximum_redirects + 1] transfers (a clock
    reading, a handle, the transfer), gives a body of at most [maximum_body_bytes] or
    an error of validation or of the other server, and leaves tables and memory as
    they are. *)
Theorem fetch_bounded (env : client_env) (o : sb_subscription_fetcher_options) (url : bytes) (s : conn T P) :
  let answers := S (3 * S (Z.to_nat (fo_redirects o))) in
  wp (sb_subscription_fetcher_fetch_metadata env o url)
    (fun r s' => quiet_since s answers s' /\ Z.of_nat (length (fst r)) <= fo_max_body o)
    (fun e s' => quiet_since s answers s' /\ (err_code e = SB_ERR_VALIDATION \/ err_code e = SB_ERR_UPSTREAM)) s.
Proof.
  intros answers. unfold sb_subscription_fetcher_fetch_metadata. do 2 wp_step.
  assert (quiet_since s 1 (mk_conn (db s) (mem s) (S (asked s)))) as Q by (unfold quiet_since; cbn; repeat split; lia).
  eapply wp_mono; [apply fetch_loop_spec| |]; intros ? s2 [Q2 H2]; (split; [|exact H2]);
    (eapply quiet_more; [eapply quiet_since_trans; [exact Q|exact Q2]|unfold answers; lia]).
Qed.
End Fetches.

(** ** What a download asks for *)

(** A byte of a request line: no blank, no line break, no fragment. *)
Definition url_byte (c : ascii) : bool := url_kept c || (code c =? 37) || (code c =? 43).

Lemma encode_byte_url c : forallb url_byte (drogon_encode_byte c) = true.
Proof. revert c. apply byte_forallb. vm_compute. reflexivity. Qed.

Lemma encode_url s : Forall (fun c => url_byte c = true) (drogon_url_encode s).
Proof.
  apply Forall_bind, Forall_true. intros c. pose proof (encode_byte_url c) as H. rewrite forallb_forall in H.
  apply Forall_forall. intros x Hx. by apply H, list_elem_of_In.
Qed.

(** A GET over HTTP or HTTPS that checks certificates, follows no redirect, uses no
    proxy, ends in time and has no credentials in its URL. *)
Definition safe_transfer (o : sb_subscription_fetcher_options) (c : curl_options) : Prop :=
  cu_verify_peer c = 1 /\ cu_verify_host c = 2 /\ cu_redirects c = None /\ cu_proxy c = [] /\ cu_custom c = None /\ cu_post c = None /\
  0 < cu_timeout c /\
  exists scheme authority target,
    cu_url c = scheme ++ bs "://" ++ authority ++ target /\ is_http scheme = true /\ authority <> [] /\ has_byte 64 authority = false /\
    has_byte 35 authority = false /\ has_byte 0 authority = false /\ Forall (fun c => url_byte c = true) target /\ target <> [].

Lemma has_byte_app z a b : has_byte z (a ++ b) = has_byte z a || has_byte z b.
Proof. apply existsb_app. Qed.

Lemma span_until_app stop s : s = fst (span_until stop s) ++ snd (span_until stop s).
Proof. induction s as [|c s IH]; [done|]. cbn. destruct (stop c); [done|]. destruct (span_until stop s). cbn in *. congruence. Qed.

Lemma encode_nonempty c s : drogon_url_encode (c :: s) <> [].
Proof. unfold drogon_url_encode. cbn. unfold drogon_encode_byte. by repeat case_if. Qed.

Lemma fetch_request_safe env o url addr timeout :
  parse_url url = Ok addr -> 0 < timeout ->
  safe_transfer o (curl_options_of (fetch_request env o (ad_origin addr ++ drogon_url_encode (ad_target addr)) timeout)).
Proof.
  unfold parse_url. destruct (cut_text _ _) as [[scheme rest]|]; [|done]. destruct (is_http scheme) eqn:I; [|done]. cbn [negb].
  destruct (has_byte 35 rest) eqn:F; [done|]. pose proof (span_until_app path_start rest) as S.
  destruct (span_until path_start rest) as [authority path]. cbn [fst snd] in S. subst rest. rewrite has_byte_app in F. apply orb_false_elim in F as [F _].
  destruct (bytes_eqb authority []) eqn:N; [done|]. destruct (has_byte 64 authority) eqn:A; [done|]. cbn [orb].
  destruct (has_byte 0 authority) eqn:Z; [done|]. intros [= <-] L. unfold safe_transfer. cbn. rewrite (proj2 (Z.ltb_lt _ _)) by done.
  repeat split; [done|]. exists scheme, authority. eexists. split; [by rewrite <- !app_assoc|]. apply bytes_eqb_neq in N.
  repeat (split; [done|]). split; [apply encode_url|].
  destruct path as [|c path]; [|case_if]; apply encode_nonempty.
Qed.

(** The same environment, with another libcurl. *)
Definition with_perform (env : client_env) (perform : nat -> curl_options -> curl_result) : client_env :=
  mk_client_env (ce_init env) perform (ce_strerror env) (ce_monotonic env) (ce_version env).

Section Transfers.
Context {T P : Type}.

Lemma perform_agrees env perform req (s : conn T P) :
  (forall n, ce_perform env n (curl_options_of req) = perform n (curl_options_of req)) ->
  sb_http_perform (with_perform env perform) req s = sb_http_perform env req s.
Proof.
  intros H. unfold sb_http_perform, mbind, sql_bind, ask, pure. cbn. destruct (negb _); [done|]. cbn. by rewrite H.
Qed.

Lemma fetch_loop_agrees env perform o left started url (s : conn T P) :
  (forall n c, safe_transfer o c -> ce_perform env n c = perform n c) ->
  fetch_loop (with_perform env perform) o left started url s = fetch_loop env o left started url s.
Proof.
  intros H. revert url s. induction left as [|left IH]; intros url s; cbn [fetch_loop]; unfold mbind, sql_bind, pure, ask;
    (destruct (parse_url url) as [addr|e] eqn:U; [|done]); cbn [with_perform ce_monotonic];
    (destruct (_ <=? 0) eqn:L; [done|]); apply Z.leb_gt in L; unfold attempt;
    (rewrite perform_agrees; [|intros n; apply H, (fetch_request_safe _ _ url); done]);
    destruct (sb_http_perform _ _ _) as [[resp|e] s1]; try done; (destruct (redirect_status _); [|done]).
  destruct (sb_http_response_header resp _) as [[|c l]|]; [done|apply IH|done].
Qed.

(** Every transfer of a download, of the URL or of a redirect, is safe: what a
    download gives depends on libcurl only for GET requests over HTTP or HTTPS with
    certificates checked, without a proxy, without redirects that libcurl follows,
    with a positive time limit, to a host that is named without credentials and with
    a path of escaped bytes. *)
Theorem fetch_transfers_safe (env : client_env) perform (o : sb_subscription_fetcher_options) (url : bytes) (s : conn T P) :
  (forall n c, safe_transfer o c -> ce_perform env n c = perform n c) ->
  sb_subscription_fetcher_fetch_metadata (with_perform env perform) o url s = sb_subscription_fetcher_fetch_metadata env o url s.
Proof. intros H. unfold sb_subscription_fetcher_fetch_metadata, mbind, sql_bind, ask. cbn. by rewrite fetch_loop_agrees. Qed.
End Transfers.

(** The server that decodes the request line of a download the way the server of
    the panel does ([drogon_url_decode]) gets the path and query of the URL, byte by
    byte. *)
Theorem fetch_target_roundtrip (target : bytes) : drogon_url_decode (drogon_url_encode target) = target.
Proof.
  unfold drogon_url_encode. induction target as [|c t IH]; [done|]. rewrite bind_cons. unfold drogon_encode_byte at 1.
  destruct (code c =? 32) eqn:S; [|destruct (url_kept c) eqn:U].
  - cbn [app drogon_url_decode]. change (code (chr 43) =? 43) with true. cbv beta iota. rewrite IH. f_equal.
    rewrite <- (chr_code c). f_equal. lia.
  - cbn [app]. pose proof (byte_forallb (fun c => implb (url_kept c) (negb (code c =? 43) && negb (code c =? 37))) eq_refl c) as K.
    cbn beta in K. rewrite U in K. cbn [implb] in K. rewrite drogon_decode_plain by lia. by rewrite IH.
  - cbn [app]. by rewrite drogon_decode_escape, IH.
Qed.

(** ** The usage that a provider reports *)

Definition add_digit (a : Z) (c : ascii) : Z := a * 10 + (code c - 48).

Lemma foldl_digits_grow s acc : digits s -> 0 <= acc -> acc <= foldl add_digit acc s.
Proof.
  intros D. revert acc. induction D as [|c s C _ IH]; intros acc A; [done|]. cbn [foldl].
  unfold isdigit, in_range in C. etrans; [|apply IH]; unfold add_digit; lia.
Qed.

Lemma usage_digits_exact s acc n :
  0 <= acc <= INT64_MAX -> usage_digits acc s = Some n <-> digits s /\ foldl add_digit acc s = n /\ n <= INT64_MAX.
Proof.
  revert acc. induction s as [|c s IH]; intros acc A; cbn [usage_digits foldl].
  { split; [intros [= <-]; repeat split; [constructor|lia]|by intros (_ & -> & _)]. }
  destruct (isdigit c) eqn:C; cbn [negb orb]; [|split; [done|intros (D & _); inversion D; congruence]].
  pose proof C as C'. unfold isdigit, in_range in C'. assert ((INT64_MAX - (code c - 48)) / 10 < acc <-> INT64_MAX < add_digit acc c) as B.
  { unfold add_digit. split; intros; [|apply Z.div_lt_upper_bound; lia].
    pose proof (Z.mul_succ_div_gt (INT64_MAX - (code c - 48)) 10). lia. }
  destruct (_ <? acc) eqn:O.
  - split; [done|]. intros (D & F & N). inversion D; subst. pose proof (foldl_digits_grow s (add_digit acc c) ltac:(done)) as G.
    unfold add_digit in *. lia.
  - change (acc * 10 + (code c - 48)) with (add_digit acc c). rewrite IH by (unfold add_digit in *; lia).
    unfold digits. rewrite Forall_cons. naive_solver.
Qed.

(** A counter that a provider reports is read exactly when it is a non-empty
    decimal numeral that fits in 63 bits, and then with its value. *)
Theorem usage_number_exact (value : bytes) (n : Z) :
  usage_number value = Some n <-> value <> [] /\ digits value /\ dec_value value = n /\ n <= INT64_MAX.
Proof.
  unfold usage_number. destruct value as [|c s]; [split; [done|by intros [? _]]|].
  rewrite usage_digits_exact by (unfold INT64_MAX; lia). unfold dec_value. change add_digit with (fun a c => a * 10 + (code c - 48)). naive_solver.
Qed.

(** Members with the name of a counter and a number that is not negative. *)
Definition usage_member (kv : bytes * sbj) : Prop :=
  exists name n, name ∈ usage_keys /\ kv = (bs name, SBJ_INT n) /\ 0 <= n <= INT64_MAX.

Lemma usage_entry_valid m seen entry :
  Forall usage_member m -> exists m' seen', usage_entry (SBJ_OBJECT m, seen) entry = (SBJ_OBJECT m', seen') /\ Forall usage_member m'.
Proof.
  intros M. unfold usage_entry. destruct (split_at _ entry) as [[k v]|]; [|by eauto].
  destruct (List.find _ usage_keys) as [key|] eqn:F; [|by eauto]. apply find_some in F as [F%list_elem_of_In _].
  destruct (if existsb _ seen then None else _) as [n|] eqn:N; cbn [sbj_set sbj_setn sbj_del sbj_take or_null].
  - assert (usage_member (bs key, SBJ_INT n)) as U.
    { exists key, n. split; [done|]. split; [done|]. destruct (existsb _ seen); [done|].
      apply usage_number_exact in N as (_ & D & <- & L). split; [|done]. apply (foldl_digits_grow _ 0); [done|lia]. }
    unfold sbj_set, sbj_setn. cbn [or_null]. destruct (obj_find m (bs key)) as [i []]; do 2 eexists; (split; [done|]).
    + by apply Forall_insert.
    + apply Forall_app. split; [by apply Forall_take|]. constructor; [done|by apply Forall_drop].
  - unfold sbj_del, sbj_take. destruct (obj_find m (bs key)) as [i []]; [|by eauto].
    destruct (snd <$> m !! i); do 2 eexists; (split; [done|]); apply Forall_app; (split; [by apply Forall_take|by apply Forall_drop]).
Qed.

(** What is kept of the header of a provider holds only the known counters, each a
    number of 63 bits that is not negative. *)
Theorem usage_fields_valid (header : option bytes) :
  exists m, sb_subscription_parse_usage header = SBJ_OBJECT m /\ Forall usage_member m.
Proof.
  unfold sb_subscription_parse_usage. destruct header as [h|]; [|by exists []]. case_if; [by exists []|].
  enough (forall l m seen, Forall usage_member m -> exists m', fst (foldl usage_entry (SBJ_OBJECT m, seen) l) = SBJ_OBJECT m' /\ Forall usage_member m')
    as H by (apply H; constructor).
  induction l as [|e l IH]; intros m seen M; [by exists m|]. cbn [foldl].
  destruct (usage_entry_valid m seen e M) as (m' & seen' & -> & M'). by apply IH.
Qed.

(** ** Examples *)

Definition demo_strerror (c : CURLcode) : bytes :=
  match c with
  | CURLE_OPERATION_TIMEDOUT => bs "Timeout was reached"
  | CURLE_COULDNT_RESOLVE_HOST => bs "Could not resolve hostname"
  | CURLE_COULDNT_CONNECT => bs "Could not connect to server"
  | CURLE_WRITE_ERROR => bs "Failed writing received data to disk/application"
  | _ => bs "Failure when receiving data from the peer"
  end.

(** A provider that moves the subscription once. *)
Definition demo_provider (n : nat) (c : curl_options) : curl_result :=
  if bytes_eqb (cu_url c) (bs "https://example.net/sub?token=x")
  then mk_curl_result [curl_header (bs "HTTP/1.1 302 Found" ++ [chr 13; chr 10]); curl_header (bs "Location: new/list" ++ [chr 13; chr 10])] CURLE_OK 302
  else if bytes_eqb (cu_url c) (bs "https://example.net/new/list")
  then mk_curl_result [curl_header (bs "HTTP/1.1 200 OK" ++ [chr 13; chr 10]);
         curl_header (bs "subscription-userinfo: upload=1; Download=20; total=x" ++ [chr 13; chr 10]); curl_data (bs "ss://"); curl_data (bs "node")] CURLE_OK 200
  else mk_curl_result [] CURLE_OPERATION_TIMEDOUT 0.

Definition demo_client : client_env := mk_client_env (fun _ => true) demo_provider demo_strerror (fun n => Z.of_nat n) (bs "1.0.0").

Definition fetch_text (url : bytes) : result (bytes * sbj) :=
  fst (sb_subscription_fetcher_fetch_metadata demo_client sb_subscription_fetcher_options_init url (mk_conn tt tt 0)).

Example fetch_follows : fetch_text (bs "https://example.net/sub?token=x") =
  Ok (bs "ss://node", SBJ_OBJECT [(bs "download", SBJ_INT 20); (bs "upload", SBJ_INT 1)]).
Proof. vm_compute. reflexivity. Qed.

Example fetch_refuses : fetch_text (bs "ftp://example.net/") = sb_fail SB_ERR_VALIDATION (bs "subscription URL must use HTTP or HTTPS") /\
  fetch_text (bs "https://user@example.net/") = sb_fail SB_ERR_VALIDATION (bs "subscription URL authority is empty or contains credentials") /\
  fetch_text (bs "https://example.net/x") = sb_fail SB_ERR_UPSTREAM (bs "subscription HTTP request failed: Timeout").
Proof. vm_compute. done. Qed.

(** The reason of a failure is looked for at the end of a message that is cut after
    1023 bytes: with a long URL a timeout is reported as a failure of the network. *)
Example long_url_hides_timeout : fetch_text (bs "https://example.net/" ++ replicate 1100 (chr 97)) =
  sb_fail SB_ERR_UPSTREAM (bs "subscription HTTP request failed: Network failure").
Proof. vm_compute. reflexivity. Qed.

Lemma fetch_transfers_safe_witness :
  sb_subscription_fetcher_fetch_metadata
    (with_perform demo_client (fun n c => if cu_verify_peer c =? 1 then demo_provider n c else mk_curl_result [] CURLE_OK 0))
    sb_subscription_fetcher_options_init (bs "https://example.net/sub?token=x") (mk_conn tt tt 0) =
  sb_subscription_fetcher_fetch_metadata demo_client sb_subscription_fetcher_options_init (bs "https://example.net/sub?token=x") (mk_conn tt tt 0).
Proof. apply fetch_transfers_safe. intros n c (V & _). cbn. by rewrite V. Defined.
