(* ===== verification/AgentClient.v ===== *)
(** * The control-plane client of the agent ([c/src/agent_client.c])

    Enrollment of a device and the requests of an enrolled one.  libcurl is the
    parameter of [HttpClient]; [available] tells whether the build has the embedded
    engine for proxy users ([sb_proxy_runtime_available], fixed by macros and by
    [CLOCK_BOOTTIME]).  Calls change neither the files nor the state of the agent.

    Theorems: the server's URL is the origin and the prefix of the requests
    ([server_split]); the bearer token goes to the agent's endpoints of that server
    only ([agent_requests_scoped]); an accepted configuration is a JSON object with
    an entity tag ([polled_config_valid]); a credential is complete
    ([enrolled_complete]). *)

From S2P Require Import Prelude Util Json JsonText Sqlite SqliteProofs HttpText HttpClient.

Definition SB_PROXY_REQUEST_LIMIT : Z := 512 * 1024.
Definition SB_PROXY_POLICY_LIMIT : Z := 4 * 1024 * 1024.
Definition AGENT_MAX_BODY : Z := 256 * 1024 * 1024.
Definition JSON_CONTENT_TYPE : bytes := bs "Content-Type: application/json; charset=utf-8".

Record sb_agent_config_response := mk_config_response { ac_modified : bool; ac_etag : bytes; ac_body : bytes; ac_rule_source : bytes }.

(** The names of the host and of the profile have a length of their own. *)
Record sb_device_credential := mk_credential {
  dc_server : bytes; dc_host_id : bytes; dc_host_name : bytes; dc_token : bytes; dc_profile_id : bytes; dc_profile_name : bytes }.

Record sb_agent_command := mk_command { am_id : bytes; am_command : bytes }.

Record sb_agent_client := mk_agent_client { cl_token : bytes; cl_timeout : Z; cl_origin : bytes; cl_prefix : bytes; cl_capability : bool }.

Record sb_agent_client_options := mk_client_options { ao_server : option bytes; ao_token : option bytes; ao_timeout : Z }.
Record sb_device_enrollment_options := mk_enrollment { eo_server : option bytes; eo_code : option bytes; eo_device : option sbj; eo_timeout : Z }.

(** The URL without its last slashes. *)
Definition server_url (server : option bytes) : bytes := reverse (drop_slashes (reverse (cstr (default [] server)))).

Definition parse_server (server : option bytes) : result (bytes * bytes) :=
  let url := server_url server in
  if negb (sb_starts_with url (bs "http://")) && negb (sb_starts_with url (bs "https://"))
  then sb_fail SB_ERR_VALIDATION (bs "agent server must include http:// or https://")
  else if has_byte 63 url || has_byte 35 url
  then sb_fail SB_ERR_VALIDATION (bs "agent server must not contain a query or fragment")
  else
    let '(origin, prefix) :=
      match cut_text (bs "://") url with
      | Some (scheme, authority) =>
          match split_at (chr 47) authority with
          | Some (a, path) => (scheme ++ bs "://" ++ a, chr 47 :: path)
          | None => (url, [])
          end
      | None => (url, [])
      end in
    if bytes_eqb origin [] || sb_ends_with origin (bs "://") then sb_fail SB_ERR_VALIDATION (bs "invalid agent server URL")
    else Ok (origin, prefix).

Definition upstream_error {A} (msg : bytes) : result A := sb_fail SB_ERR_UPSTREAM msg.

Definition parse_response_json (resp : sb_http_response) : result sbj :=
  match sbj_parse (hx_body resp) with Some v => Ok v | None => upstream_error (bs "agent endpoint returned invalid JSON") end.

Definition client_value_string (object : option sbj) (key : string) (fallback : bytes) : result bytes :=
  if negb (sbj_is_object object)
  then upstream_error (bs "[json.exception.type_error.306] cannot use value() with " ++ sbj_type_name object)
  else
    match sbj_get object key with
    | None => Ok fallback
    | Some (SBJ_STRING v) => Ok v
    | found => upstream_error (bs "[json.exception.type_error.302] type must be string, but is " ++ sbj_type_name found)
    end.

Definition success_status (status : Z) : bool := (200 <=? status) && (status <? 300).

(** [Impl::require_success_json]. *)
Definition require_success_json (resp : sb_http_response) : result sbj :=
  if success_status (hx_status resp) then parse_response_json resp
  else upstream_error (bs "agent endpoint returned HTTP " ++ fmt_int (hx_status resp)).

(** The credential that the answer to an enrollment has. *)
Definition credential_of (server : bytes) (body : sbj) : result sb_device_credential :=
  if negb (sbj_is_object (Some body))
  then upstream_error (bs "[json.exception.type_error.306] cannot use value() with " ++ sbj_type_name (Some body))
  else
    let profile := default (SBJ_OBJECT []) (sbj_get (Some body) "profile") in
    server ← client_value_string (Some body) "server" server;
    host_id ← client_value_string (Some body) "host_id" [];
    host_name ← client_value_string (Some body) "host_name" [];
    token ← client_value_string (Some body) "agent_token" [];
    profile_id ← client_value_string (Some profile) "id" [];
    profile_name ← client_value_string (Some profile) "name" [];
    if bytes_eqb (cstr server) [] || bytes_eqb (cstr host_id) [] || bytes_eqb (cstr token) []
    then upstream_error (bs "device enrollment response is incomplete")
    else Ok (mk_credential (cstr server) (cstr host_id) host_name (cstr token) (cstr profile_id) profile_name).

Definition sb_agent_client_new (options : sb_agent_client_options) : result sb_agent_client :=
  '(origin, prefix) ← parse_server (ao_server options);
  let token := cstr (default [] (ao_token options)) in
  if bytes_eqb token [] then sb_fail SB_ERR_VALIDATION (bs "agent token is required")
  else if ao_timeout options <=? 0 then sb_fail SB_ERR_VALIDATION (bs "agent HTTP timeout must be positive")
  else Ok (mk_agent_client token (ao_timeout options) origin prefix false).

(** What a poll makes of an answer. *)
Definition config_of (etag : option bytes) (resp : sb_http_response) : result sb_agent_config_response :=
  let response_etag := default [] (sb_http_response_header resp "etag") in
  let rule_source := match default [] (sb_http_response_header resp "x-sb-easy-rule-source") with [] => bs "profile" | v => v end in
  if hx_status resp =? 304
  then Ok (mk_config_response false (match response_etag with [] => cstr (default [] etag) | v => v end) [] rule_source)
  else if negb (hx_status resp =? 200) then upstream_error (bs "agent config endpoint returned HTTP " ++ fmt_int (hx_status resp))
  else if bytes_eqb response_etag [] then upstream_error (bs "agent config response is missing ETag")
  else if negb (sbj_is_object (sbj_parse (hx_body resp))) then upstream_error (bs "agent config response must be a JSON object")
  else Ok (mk_config_response true response_etag (hx_body resp) rule_source).

Definition command_of (value : sbj) : result sb_agent_command :=
  match sbj_get (Some value) "id", sbj_get (Some value) "command" with
  | Some (SBJ_STRING id), Some (SBJ_STRING command) => Ok (mk_command (cstr id) (cstr command))
  | _, _ => upstream_error (bs "agent command has an invalid shape")
  end.

Fixpoint commands_of (values : list sbj) : result (list sb_agent_command) :=
  match values with
  | [] => Ok []
  | v :: values' => c ← command_of v; l ← commands_of values'; Ok (c :: l)
  end.

(** The count of a latency report; a float beyond 64 bits is undefined in C. *)
Definition updated_of (response : sbj) : result Z :=
  if negb (sbj_is_object (Some response))
  then upstream_error (bs "[json.exception.type_error.304] cannot use at() with " ++ sbj_type_name (Some response))
  else
    match sbj_get (Some response) "updated" with
    | None => upstream_error (bs "[json.exception.out_of_range.403] key 'updated' not found")
    | Some (SBJ_FLOAT f) => Ok (to_u64 (double_trunc f))
    | Some (SBJ_UINT u) => Ok u
    | Some (SBJ_INT i) => Ok (to_u64 i)
    | found => upstream_error (bs "[json.exception.type_error.302] type must be number, but is " ++ sbj_type_name found)
    end.

Section Client.
Context (env : client_env) (available : bool) {T P : Type}.

Abbreviation client := (sql T P).

Definition AGENT_USER_AGENT : bytes := bs "sb-easy-cpp-agent/" ++ ce_version env.

Definition agent_request (method : string) (url : bytes) (headers : list bytes) (body : option bytes) (timeout : Z) : sb_http_request :=
  mk_http_request (Some (bs method)) url headers (cstr <$> body) timeout AGENT_MAX_BODY 0 None (Some AGENT_USER_AGENT).

Definition send_request (req : sb_http_request) : client sb_http_response :=
  r ← attempt (sb_http_perform env req);
  pure (match r with
        | Ok resp => Ok resp
        | Err e => upstream_error (bs "agent HTTP request failed: " ++ sb_http_failure_reason env (Some (err_msg e)))
        end).

Definition sb_enroll_device (options : sb_device_enrollment_options) : client sb_device_credential :=
  '(origin, prefix) ← pure (parse_server (eo_server options));
  let code := cstr (default [] (eo_code options)) in
  if (length code <? 32)%nat then pure (sb_fail SB_ERR_VALIDATION (bs "device enrollment code is required"))
  else if match eo_device options with Some d => negb (sbj_is_object (Some d)) | None => false end
  then pure (sb_fail SB_ERR_VALIDATION (bs "device enrollment metadata must be an object"))
  else if eo_timeout options <=? 0 then pure (sb_fail SB_ERR_VALIDATION (bs "device enrollment timeout must be positive"))
  else
    let request := sbj_set (sbj_set_str (SBJ_OBJECT []) "code" code) "device" (default (SBJ_OBJECT []) (sbj_clone <$> eo_device options)) in
    resp ← send_request (agent_request "POST" (origin ++ prefix ++ bs "/api/devices/enroll") [JSON_CONTENT_TYPE]
                           (Some (sbj_dump (Some request) (-1))) (eo_timeout options));
    if negb (success_status (hx_status resp))
    then pure (upstream_error (bs "device enrollment endpoint returned HTTP " ++ fmt_int (hx_status resp)))
    else
      body ← pure (parse_response_json resp);
      pure (credential_of (default [] (eo_server options)) body).

Definition sb_agent_client_proxy_capability (c : sb_agent_client) (enabled : bool) : sb_agent_client :=
  mk_agent_client (cl_token c) (cl_timeout c) (cl_origin c) (cl_prefix c) (enabled && available).

Definition authorization (c : sb_agent_client) : bytes := bs "Authorization: Bearer " ++ cl_token c.

Definition client_request (c : sb_agent_client) (method : string) (path : bytes) (body : option sbj) (etag : option bytes) : sb_http_request :=
  agent_request method (cl_origin c ++ cl_prefix c ++ path)
    ([authorization c] ++ (match etag with Some e => [bs "If-None-Match: " ++ cstr e] | None => [] end) ++
     (match body with Some _ => [JSON_CONTENT_TYPE] | None => [] end))
    ((fun b => sbj_dump (Some b) (-1)) <$> body) (cl_timeout c).

Definition client_send c method path body etag : client sb_http_response := send_request (client_request c method path body etag).

Definition send_json (c : sb_agent_client) (method : string) (path : bytes) (body : option sbj) : client sbj :=
  resp ← client_send c method path body None;
  pure (require_success_json resp).

Definition sb_agent_client_poll_config (c : sb_agent_client) (etag : option bytes) : client sb_agent_config_response :=
  resp ← client_send c "GET" (bs "/api/agent/config") None etag;
  pure (config_of etag resp).

Definition sb_agent_client_pending_commands (c : sb_agent_client) : client (list sb_agent_command) :=
  body ← send_json c "GET" (bs "/api/agent/commands") None;
  match body with
  | SBJ_ARRAY values => pure (commands_of values)
  | _ => pure (upstream_error (bs "agent commands response must be an array"))
  end.

Definition post_expect_success (c : sb_agent_client) (path : bytes) (body : sbj) : client unit :=
  _ ← send_json c "POST" path (Some body);
  mret tt.

Definition sb_agent_client_acknowledge_command (c : sb_agent_client) (id : bytes) (success : bool) (result : option bytes) : client unit :=
  let body := sbj_set (sbj_set_str (SBJ_OBJECT []) "status" (bs (if success then "done" else "failed"))) "result" (sbj_str result) in
  post_expect_success c (bs "/api/agent/commands/" ++ cstr id ++ bs "/ack") body.

Definition sb_proxy_runtime_capabilities : sbj := SBJ_ARRAY (if available then [sbj_str (Some (bs "proxy_users_v1"))] else []).

Definition status_body (c : sb_agent_client) (version : bytes) (running : option bool) (etag : option bytes) : sbj :=
  sbj_set (sbj_set (sbj_set (sbj_set_str (SBJ_OBJECT []) "singbox_version" version) "singbox_running"
             (match running with Some b => SBJ_BOOL b | None => SBJ_NULL end))
             "config_etag" (sbj_str etag))
    "capabilities" (if cl_capability c then sb_proxy_runtime_capabilities else SBJ_ARRAY []).

Definition sb_agent_client_report_status (c : sb_agent_client) (version : bytes) (running : option bool) (etag : option bytes) : client unit :=
  post_expect_success c (bs "/api/agent/status") (status_body c version running etag).

Definition lease_request (c : sb_agent_client) (request : bytes) : sb_http_request :=
  mk_http_request (Some (bs "POST")) (cl_origin c ++ cl_prefix c ++ bs "/api/agent/proxy-leases") [authorization c; JSON_CONTENT_TYPE]
    (Some request) (if cl_timeout c <? 5000 then cl_timeout c else 5000) SB_PROXY_POLICY_LIMIT 0 None (Some AGENT_USER_AGENT).

Definition sb_agent_client_proxy_exchange (c : sb_agent_client) (request : bytes) : client bytes :=
  if bytes_eqb request [] || (SB_PROXY_REQUEST_LIMIT <? Z.of_nat (length request)) || negb (bytes_eqb (cstr request) request)
  then pure (sb_fail SB_ERR_VALIDATION (bs "Invalid proxy lease request"))
  else
    r ← attempt (sb_http_perform env (lease_request c request));
    pure (match r with
          | Ok resp => if hx_status resp =? 200 then Ok (hx_body resp) else upstream_error (bs "Proxy lease endpoint is unavailable")
          | Err _ => upstream_error (bs "Proxy lease endpoint is unavailable")
          end).

Definition sb_agent_client_report_telemetry (c : sb_agent_client) (telemetry : sbj) : client unit :=
  if negb (sbj_is_object (Some telemetry)) then pure (sb_fail SB_ERR_VALIDATION (bs "agent telemetry must be a JSON object"))
  else post_expect_success c (bs "/api/agent/telemetry") telemetry.

Definition sb_agent_client_report_proxy_latencies (c : sb_agent_client) (results : sbj) : client Z :=
  if negb (sbj_is_object (Some results)) then pure (sb_fail SB_ERR_VALIDATION (bs "agent proxy latency results must be a JSON object"))
  else
    response ← send_json c "POST" (bs "/api/agent/proxy-latency") (Some (sbj_set (SBJ_OBJECT []) "results" (sbj_clone results)));
    pure (updated_of response).
End Client.

(** * Theorems *)

(** ** The URL of the server *)

Lemma split_slash s x y : split_at (chr 47) s = Some (x, y) -> s = x ++ chr 47 :: y /\ has_byte 47 x = false.
Proof.
  revert x. induction s as [|c s IH]; intros x; cbn; [done|]. destruct (_ =? _) eqn:C.
  - intros [= <- <-]. split; [|done]. cbn. f_equal. apply code_inj. by apply Z.eqb_eq.
  - destruct (split_at _ s) as [[x' y']|]; [|done]. intros [= <- <-]. destruct (IH x' eq_refl) as [-> F]. split; [done|].
    cbn. apply orb_false_iff. by split.
Qed.

Lemma split_slash_none s : split_at (chr 47) s = None -> has_byte 47 s = false.
Proof.
  induction s as [|c s IH]; cbn; [done|]. destruct (_ =? _) eqn:C; [done|]. destruct (split_at _ s) as [[]|]; [done|]. intros _.
  apply orb_false_iff. split; [done|by apply IH].
Qed.

Lemma no_nul_drop_slashes s : no_nul s = true -> no_nul (drop_slashes s) = true.
Proof. induction s as [|c s IH]; [done|]. intros H. cbn. destruct (_ =? _); [|done]. apply IH. cbn in H. by bool_facts. Qed.

Lemma no_nul_rev s : no_nul s = true -> no_nul (reverse s) = true.
Proof. unfold no_nul. rewrite !forallb_forall. intros H x X. apply H. rewrite <- list_elem_of_In in X. rewrite <- list_elem_of_In. by apply elem_of_reverse. Qed.

Lemma server_url_no_nul server : no_nul (server_url server) = true.
Proof. apply no_nul_rev, no_nul_drop_slashes, no_nul_rev, no_nul_cstr. Qed.

Lemma starts_split s p : no_nul s = true -> no_nul p = true -> sb_starts_with s p = true -> exists r, s = p ++ r.
Proof.
  intros S P. unfold sb_starts_with. rewrite !cstr_no_nul by done. intros E%bytes_eqb_eq. exists (drop (length p) s).
  by rewrite <- E at 1; rewrite take_drop.
Qed.

(** The scheme and what follows it. *)
Lemma url_scheme url :
  no_nul url = true -> sb_starts_with url (bs "http://") || sb_starts_with url (bs "https://") = true ->
  exists scheme rest, is_http scheme = true /\ url = scheme ++ bs "://" ++ rest /\ cut_text (bs "://") url = Some (scheme, rest).
Proof.
  intros N [S|S]%orb_true_iff; apply starts_split in S as [r ->]; try done; [exists (bs "http"), r|exists (bs "https"), r];
    (split; [reflexivity|]; split; reflexivity).
Qed.

Lemma ends_with_app a b : no_nul (a ++ b) = true -> no_nul b = true -> sb_ends_with (a ++ b) b = true.
Proof.
  intros N M. unfold sb_ends_with. rewrite !cstr_no_nul by done. rewrite length_app, drop_app_length' by lia.
  rewrite bytes_eqb_refl, andb_true_r. apply Nat.leb_le. lia.
Qed.

(** The requests of an agent go to the server's URL: it is HTTP or HTTPS, its
    origin names a host, and origin and prefix together are the URL without its last
    slashes, in which no query begins. *)
Theorem server_split server origin prefix :
  parse_server server = Ok (origin, prefix) ->
  origin ++ prefix = server_url server /\ has_byte 63 (origin ++ prefix) = false /\ has_byte 35 (origin ++ prefix) = false /\
  (exists scheme authority, is_http scheme = true /\ origin = scheme ++ bs "://" ++ authority /\ authority <> [] /\ has_byte 47 authority = false) /\
  (prefix = [] \/ exists path, prefix = chr 47 :: path).
Proof.
  unfold parse_server. pose proof (server_url_no_nul server) as N. set (url := server_url server) in *.
  destruct (negb _ && negb _) eqn:S; [done|]. destruct (has_byte 63 url || has_byte 35 url) eqn:B; [done|].
  apply orb_false_iff in B as [B1 B2]. rewrite <- negb_orb in S. apply negb_false_iff in S.
  destruct (url_scheme url N S) as (scheme & rest & H & U & C). rewrite C.
  assert (A : forall a, rest <> a \/ True -> no_nul (scheme ++ bs "://" ++ a) = true -> bytes_eqb (scheme ++ bs "://" ++ a) [] || sb_ends_with (scheme ++ bs "://" ++ a) (bs "://") = false -> a <> []).
  { intros a _ Na E ->. apply orb_false_iff in E as [_ E]. rewrite app_nil_r in E, Na. by rewrite ends_with_app in E. }
  destruct (split_at (chr 47) rest) as [[a path]|] eqn:P.
  - apply split_slash in P as [-> F]. destruct (bytes_eqb _ [] || _) eqn:E; [done|]. intros Eq. assert (origin = scheme ++ bs "://" ++ a /\ prefix = chr 47 :: path) as [-> ->] by (by injection Eq).
    assert (E2 : (scheme ++ bs "://" ++ a) ++ chr 47 :: path = url) by (rewrite U; by rewrite <- !app_assoc).
    rewrite E2. split_and!; try done; [|right; by exists path]. exists scheme, a. split_and!; try done. apply A; [by right| |done].
    rewrite <- E2, no_nul_app in N. by bool_facts.
  - destruct (bytes_eqb _ [] || _) eqn:E; [done|]. intros [= <- <-]. rewrite app_nil_r. split_and!; try done; [|by left].
    apply split_slash_none in P. exists scheme, rest. rewrite U in E. split_and!; try done. apply A; [by right|by rewrite <- U|done].
Qed.

(** ** Answers *)

Section Answers.
Context (env : client_env) (available : bool) {T P : Type}.

Lemma send_request_spec req (s : conn T P) :
  0 <= hq_max_body req ->
  wp (send_request env req)
    (fun resp s' => quiet_since s 2 s' /\ Z.of_nat (length (hx_body resp)) <= max_body (hq_max_body req)) (fun e s' => quiet_since s 2 s' /\ err_code e = SB_ERR_UPSTREAM) s.
Proof.
  intros N. apply wp_bind, wp_attempt. eapply wp_mono; [apply perform_spec|..]; cbn beta.
  - intros resp s' [Q L]. apply wp_pure. split; [done|]. by apply L.
  - intros e s' [Q _]. by apply wp_pure.
Qed.

(** A poll changes nothing, and what it accepts as a new configuration is a JSON
    object of bounded size with an entity tag; every failure is one of the panel. *)
Theorem polled_config_valid (c : sb_agent_client) (etag : option bytes) (s : conn T P) :
  let (r, s') := sb_agent_client_poll_config env c etag s in
  quiet_since s 2 s' /\
  match r with
  | Ok a =>
      if ac_modified a then ac_etag a <> [] /\ sbj_is_object (sbj_parse (ac_body a)) = true /\ Z.of_nat (length (ac_body a)) <= AGENT_MAX_BODY
      else ac_body a = []
  | Err e => err_code e = SB_ERR_UPSTREAM
  end.
Proof.
  assert (wp (sb_agent_client_poll_config env c etag) (fun a s' => quiet_since s 2 s' /\ if ac_modified a then ac_etag a <> [] /\
    sbj_is_object (sbj_parse (ac_body a)) = true /\ Z.of_nat (length (ac_body a)) <= AGENT_MAX_BODY else ac_body a = [])
    (fun e s' => quiet_since s 2 s' /\ err_code e = SB_ERR_UPSTREAM) s) as W.
  { apply wp_bind. eapply wp_mono; [apply send_request_spec; done|cbn beta|done]. intros resp s' [Q L]. apply wp_pure.
    unfold config_of. destruct (_ =? 304); [done|]. destruct (negb (_ =? 200)); [done|]. destruct (bytes_eqb _ []) eqn:B; [done|].
    destruct (negb _) eqn:O; [done|]. split; [done|]. cbn. split_and!; [by apply bytes_eqb_neq|by apply negb_false_iff|done]. }
  unfold wp in W. destruct (sb_agent_client_poll_config env c etag s) as [[a|e] s']; exact W.
Qed.
End Answers.

(** ** Requests *)

(** What an agent may send: to an endpoint for agents of its server, with its token,
    over verified connections, following no redirect. *)
Definition agent_transfer (c : sb_agent_client) (o : curl_options) : Prop :=
  (exists rest, cu_url o = cl_origin c ++ cl_prefix c ++ bs "/api/agent/" ++ rest) /\ authorization c ∈ cu_headers o /\
  cu_verify_peer o = 1 /\ cu_verify_host o = 2 /\ cu_redirects o = None /\ cu_proxy o = [] /\ 0 < cu_timeout o <= Z.max 15000 (cl_timeout c).

Lemma client_request_transfer env c method rest body etag :
  agent_transfer c (curl_options_of (client_request env c method (bs "/api/agent/" ++ rest) body etag)).
Proof.
  split_and!; try reflexivity; [by exists rest| |..].
  - unfold client_request, agent_request, curl_options_of. cbn [hq_headers cu_headers]. apply elem_of_app. left. left.
  - cbn. destruct (_ <? _) eqn:E; lia.
  - cbn. destruct (_ <? _) eqn:E; lia.
Qed.

Section Scoped.
Context (env : client_env) (perform : nat -> curl_options -> curl_result) {T P : Type} (c : sb_agent_client).
Hypothesis agree : forall n o, agent_transfer c o -> ce_perform env n o = perform n o.
Let other := with_perform env perform.

Lemma client_send_agrees method rest body etag (s : conn T P) :
  client_send other c method (bs "/api/agent/" ++ rest) body etag s = client_send env c method (bs "/api/agent/" ++ rest) body etag s.
Proof.
  unfold other, client_send, send_request, mbind, sql_bind, attempt. change (client_request (with_perform env perform)) with (client_request env).
  rewrite perform_agrees; [done|]. intros n. apply agree, client_request_transfer.
Qed.

Lemma send_json_agrees method rest body (s : conn T P) :
  send_json other c method (bs "/api/agent/" ++ rest) body s = send_json env c method (bs "/api/agent/" ++ rest) body s.
Proof. unfold send_json, mbind, sql_bind. by rewrite client_send_agrees. Qed.

Lemma post_agrees rest body (s : conn T P) :
  post_expect_success other c (bs "/api/agent/" ++ rest) body s = post_expect_success env c (bs "/api/agent/" ++ rest) body s.
Proof. unfold post_expect_success, mbind, sql_bind. by rewrite send_json_agrees. Qed.

Lemma lease_request_transfer request : agent_transfer c (curl_options_of (lease_request env c request)).
Proof.
  split_and!; try reflexivity; [by exists (bs "proxy-leases")|left|..];
    cbn [cu_timeout curl_options_of hq_timeout lease_request]; destruct (cl_timeout c <? 5000) eqn:E; destruct (0 <? _) eqn:F; lia.
Qed.

(** C24: an agent shows its token to its panel only.  What its calls give depends on
    libcurl only for transfers to an endpoint for agents under the URL of the panel,
    with the token in the headers, over connections whose certificate and host are
    verified, without a proxy, within a positive time limit, and with no redirect
    followed. *)
Theorem agent_requests_scoped (available : bool) (s : conn T P) :
  (forall etag, sb_agent_client_poll_config other c etag s = sb_agent_client_poll_config env c etag s) /\
  sb_agent_client_pending_commands other c s = sb_agent_client_pending_commands env c s /\
  (forall id success result,
     sb_agent_client_acknowledge_command other c id success result s = sb_agent_client_acknowledge_command env c id success result s) /\
  (forall version running etag,
     sb_agent_client_report_status other available c version running etag s = sb_agent_client_report_status env available c version running etag s) /\
  (forall request, sb_agent_client_proxy_exchange other c request s = sb_agent_client_proxy_exchange env c request s) /\
  (forall telemetry, sb_agent_client_report_telemetry other c telemetry s = sb_agent_client_report_telemetry env c telemetry s) /\
  (forall results, sb_agent_client_report_proxy_latencies other c results s = sb_agent_client_report_proxy_latencies env c results s).
Proof.
  split_and!.
  - intros etag. unfold sb_agent_client_poll_config, mbind, sql_bind. by rewrite (client_send_agrees _ (bs "config")).
  - unfold sb_agent_client_pending_commands, mbind, sql_bind. by rewrite (send_json_agrees _ (bs "commands")).
  - intros id success result. unfold sb_agent_client_acknowledge_command. cbv zeta. apply (post_agrees (bs "commands/" ++ cstr id ++ bs "/ack")).
  - intros version running etag. apply (post_agrees (bs "status")).
  - intros request. unfold sb_agent_client_proxy_exchange. case_if; [done|]. unfold mbind, sql_bind, attempt, other.
    change (lease_request (with_perform env perform)) with (lease_request env). rewrite perform_agrees; [done|]. intros n. apply agree, lease_request_transfer.
  - intros telemetry. unfold sb_agent_client_report_telemetry. case_if; [done|]. apply (post_agrees (bs "telemetry")).
  - intros results. unfold sb_agent_client_report_proxy_latencies. case_if; [done|]. unfold mbind, sql_bind. by rewrite (send_json_agrees _ (bs "proxy-latency")).
Qed.
End Scoped.

(** An enrollment that succeeds gives a server, an identifier and a token, none of
    them empty. *)
Theorem enrolled_complete env options {T P} (s s' : conn T P) c :
  sb_enroll_device env options s = (Ok c, s') -> dc_server c <> [] /\ dc_host_id c <> [] /\ dc_token c <> [].
Proof.
  assert (C : forall server body, credential_of server body = Ok c -> dc_server c <> [] /\ dc_host_id c <> [] /\ dc_token c <> []).
  { intros server body. unfold credential_of. destruct (negb _); [done|]. cbv zeta.
    unfold mbind, result_bind. repeat (destruct (client_value_string _ _ _) as [?|?]; [|done]). destruct (_ || _) eqn:E; [done|].
    intros [= <-]. cbn. apply orb_false_iff in E as [[E1 E2]%orb_false_iff E3].
    split_and!; by apply bytes_eqb_neq. }
  unfold sb_enroll_device, mbind, sql_bind, pure. destruct (parse_server _) as [[o p]|]; [|by intros [=]]. cbv zeta.
  do 3 (match goal with |- context [if ?b then _ else _] => destruct b; [by intros [=]|] end).
  destruct (send_request _ _ _) as [[resp|] s1]; [|by intros [=]]. destruct (negb _); [by intros [=]|].
  destruct (parse_response_json resp); [|by intros [=]]. intros [= E _]. by eapply C.
Qed.

(** ** Examples *)

(** A panel with a configuration and no command. *)
Definition demo_panel (n : nat) (o : curl_options) : curl_result :=
  let answer status body := mk_curl_result [curl_header (bs "ETag: W/7" ++ [chr 13; chr 10]); curl_data (bs body)] CURLE_OK status in
  if strstr (cu_url o) (bs "/config") then answer 200 "{}"%string
  else if strstr (cu_url o) (bs "/commands") then answer 200 "[]"%string
  else answer 404 "{}"%string.
Definition demo_agent : sb_agent_client := mk_agent_client (bs "token") 15000 (bs "https://panel.example") (bs "/sb") false.
Definition demo_net : client_env := mk_client_env (fun _ => true) demo_panel demo_strerror (fun n => Z.of_nat n) (bs "1.0.0").

Lemma demo_agent_made :
  sb_agent_client_new (mk_client_options (Some (bs "https://panel.example/sb/")) (Some (bs "token")) 15000) = Ok demo_agent.
Proof. vm_compute. reflexivity. Qed.

(** A libcurl that answers only what [agent_transfer] allows. *)
Definition demo_guard (n : nat) (o : curl_options) : curl_result :=
  if sb_starts_with (cu_url o) (bs "https://panel.example/sb/api/agent/") then demo_panel n o else mk_curl_result [] CURLE_COULDNT_CONNECT 0.

Lemma agent_requests_scoped_witness :
  sb_agent_client_poll_config (with_perform demo_net demo_guard) demo_agent None (mk_conn tt tt 0) =
  (Ok (mk_config_response true (bs "W/7") (bs "{}") (bs "profile")), mk_conn tt tt 2).
Proof.
  rewrite (proj1 (agent_requests_scoped demo_net demo_guard demo_agent
    ltac:(intros n o ((rest & U) & _); cbn [demo_net ce_perform]; unfold demo_guard; rewrite U; reflexivity) false (mk_conn tt tt 0))).
  vm_compute. reflexivity.
Defined.
