(* ===== verification/Supervisor.v ===== *)
(** * The supervised sing-box process ([c/src/singbox_supervisor_child.c])

    The supervisor that runs sing-box as a child of the agent.  The state has the
    supervisor, the children that the process has started and not waited for, and
    the monotonic clock, which advances by itself ([px_tick]) and while the process
    sleeps.  Process calls are answered from outside ([process_env]): [waitpid] of a
    process that is no child fails with [ECHILD], of a child as the answer says, and
    a child that was waited for, or that the kernel says is none, is gone.  Programs that are run and waited for read
    files and change none.

    Theorems: the agent never has two children ([one_child]); stopping takes as many
    rounds as the time limit allows and leaves no child ([stop_leaves_none]); a child
    that ends is not started again before its pause is over ([restart_waits]). *)

From S2P Require Import Prelude Util Json Sqlite SqliteProofs System.

(** The status that [waitpid] gives. *)
Inductive exit_status := Exited (code : Z) | Signaled (signal : Z) | NoStatus.

(** [waitpid] with [WNOHANG] of a child. *)
Inductive wait_answer := StillRunning | Ended (status : exit_status) | Interrupted | NoChild | WaitError (e : errno).
Inductive kill_answer := Delivered | NoProcess | KillError (e : errno).
Inductive run_outcome := NotStarted (e : errno) | NotWaited (e : errno) | Ran (status : exit_status).

Definition SIGHUP : Z := 1.
Definition SIGKILL : Z := 9.
Definition SIGTERM : Z := 15.

(** [px_run]: a program that is run to its end.  [px_end]: [waitpid] without
    [WNOHANG], after the interruptions.  [px_actions]: the two calls that prepare the
    standard input of a child. *)
Record process_env := mk_process_env {
  px_run : nat -> list bytes -> tree -> run_outcome;
  px_actions : nat -> option errno;
  px_spawn : nat -> list bytes -> Z + errno;
  px_wait : nat -> wait_answer;
  px_end : nat -> exit_status + errno;
  px_kill : nat -> Z -> Z -> kill_answer;
  px_tick : nat -> nat }.

Record sb_singbox_supervisor := mk_supervisor {
  sv_binary : bytes; sv_config_path : bytes; sv_validate : bool; sv_backoff : Z; sv_shutdown : Z;
  sv_child : Z; sv_started : bool; sv_next_start : Z; sv_error : option bytes }.

Record sb_singbox_supervisor_options := mk_supervisor_options {
  so_binary : option bytes; so_config_path : option bytes; so_validate : bool; so_backoff : Z; so_shutdown : Z }.

Definition sb_singbox_supervisor_options_init : sb_singbox_supervisor_options :=
  mk_supervisor_options (Some (bs "sing-box")) (Some (bs "data/sing-box.gen.json")) true 1000 2000.

Definition sb_singbox_supervisor_new (options : option sb_singbox_supervisor_options) : result sb_singbox_supervisor :=
  let o := default sb_singbox_supervisor_options_init options in
  let binary := cstr (default [] (so_binary o)) in
  let path := cstr (default [] (so_config_path o)) in
  if bytes_eqb binary [] then sb_fail SB_ERR_VALIDATION (bs "sing-box binary is required")
  else if bytes_eqb path [] || sb_ends_with path (bs "/") then sb_fail SB_ERR_VALIDATION (bs "sing-box config path must name a file")
  else if (so_backoff o <? 0) || (so_shutdown o <? 0) then sb_fail SB_ERR_VALIDATION (bs "sing-box process durations cannot be negative")
  else Ok (mk_supervisor binary path (so_validate o) (so_backoff o) (so_shutdown o) (-1) false 0 None).

(** The supervisor, the children not waited for, the clock. *)
Record world := mk_world { w_sup : sb_singbox_supervisor; w_children : gset Z; w_now : Z }.

Definition set_child (child : Z) (s : sb_singbox_supervisor) : sb_singbox_supervisor :=
  mk_supervisor (sv_binary s) (sv_config_path s) (sv_validate s) (sv_backoff s) (sv_shutdown s) child (sv_started s) (sv_next_start s) (sv_error s).
Definition set_started (b : bool) (s : sb_singbox_supervisor) : sb_singbox_supervisor :=
  mk_supervisor (sv_binary s) (sv_config_path s) (sv_validate s) (sv_backoff s) (sv_shutdown s) (sv_child s) b (sv_next_start s) (sv_error s).
Definition set_next_start (at_ms : Z) (s : sb_singbox_supervisor) : sb_singbox_supervisor :=
  mk_supervisor (sv_binary s) (sv_config_path s) (sv_validate s) (sv_backoff s) (sv_shutdown s) (sv_child s) (sv_started s) at_ms (sv_error s).
Definition set_last_error (message : option bytes) (s : sb_singbox_supervisor) : sb_singbox_supervisor :=
  mk_supervisor (sv_binary s) (sv_config_path s) (sv_validate s) (sv_backoff s) (sv_shutdown s) (sv_child s) (sv_started s) (sv_next_start s) message.

Definition exit_detail (subject ended : string) (none : string) (status : exit_status) : bytes :=
  match status with
  | Exited n => bs subject ++ fmt_int n
  | Signaled n => bs ended ++ fmt_int n
  | NoStatus => bs none
  end.
Definition child_exit_detail : exit_status -> bytes :=
  exit_detail "sing-box exited with code " "sing-box terminated by signal " "sing-box exited without a status".

Section Supervisor.
Context {K : Type} (env : sys_env K) (px : process_env).

Abbreviation sup := (sql world (system K)).

(** ** Calls *)

(** A call on the supervisor, the children and the clock that takes one answer. *)
Definition on_world {A} (f : world -> nat -> A * world) : sup A :=
  fun s => let (a, w) := f (db s) (asked s) in (Ok a, mk_conn w (mem s) (S (asked s))).

Definition get_sup : sup sb_singbox_supervisor := fun s => (Ok (w_sup (db s)), s).
Definition update (f : sb_singbox_supervisor -> sb_singbox_supervisor) : sup unit :=
  fun s => (Ok tt, mk_conn (mk_world (f (w_sup (db s))) (w_children (db s)) (w_now (db s))) (mem s) (asked s)).

Definition sb_monotonic_ms : sup Z :=
  on_world (fun w n => let now := w_now w + Z.of_nat (px_tick px n) in (now, mk_world (w_sup w) (w_children w) now)).
Definition sb_sleep_ms (ms : Z) : sup unit :=
  on_world (fun w n => (tt, mk_world (w_sup w) (w_children w) (w_now w + ms + Z.of_nat (px_tick px n)))).

Definition posix_spawnp (argv : list bytes) : sup (Z + errno) :=
  on_world (fun w n =>
    (px_spawn px n argv, match px_spawn px n argv with inl pid => mk_world (w_sup w) ({[pid]} ∪ w_children w) (w_now w) | inr _ => w end)).

Definition waitpid_nohang (pid : Z) : sup wait_answer :=
  on_world (fun w n =>
    if bool_decide (pid ∈ w_children w) then
      (px_wait px n, match px_wait px n with Ended _ | NoChild => mk_world (w_sup w) (w_children w ∖ {[pid]}) (w_now w) | _ => w end)
    else (NoChild, w)).

(** It waits for the end of the child. *)
Definition waitpid_end (pid : Z) : sup wait_answer :=
  on_world (fun w n =>
    if bool_decide (pid ∈ w_children w) then
      match px_end px n with inl status => (Ended status, mk_world (w_sup w) (w_children w ∖ {[pid]}) (w_now w)) | inr e => (WaitError e, w) end
    else (NoChild, w)).

Definition kill (pid signal : Z) : sup kill_answer := on_world (fun w n => (px_kill px n pid signal, w)).

(** [run_program]: whether the exit code is 0, and the outcome in words. *)
Definition run_outcome_detail (r : run_outcome) : bool * bytes :=
  match r with
  | NotStarted e => (false, bs "spawn failed: " ++ strerror env e)
  | NotWaited e => (false, bs "wait failed: " ++ strerror env e)
  | Ran status =>
      (match status with Exited n => n =? 0 | _ => false end,
       exit_detail "exit code " "terminated by signal " "process ended without an exit status" status)
  end.
Definition run_program (argv : list bytes) : sup (bool * bytes) :=
  fun s => (Ok (run_outcome_detail (px_run px (asked s) argv (sy_files (mem s)))), mk_conn (db s) (mem s) (S (asked s))).

Definition check_config (checked : bool) (binary path : bytes) : sup unit :=
  if negb checked then mret tt
  else
    r ← run_program [binary; bs "check"; bs "-c"; path];
    if fst r : bool then mret tt else pure (sb_fail SB_ERR_GENERIC (bs "sing-box config validation failed: " ++ snd r)).

Definition validate (path : bytes) : sup unit :=
  s ← get_sup;
  check_config (sv_validate s) (sv_binary s) path.

Definition is_regular_file (path : bytes) : sup bool :=
  answer ← sys_stat env path;
  mret (match answer with inl (Regular _) => true | _ => false end).

(** ** The supervisor *)

Definition pause (detail : bytes) : sup unit :=
  _ ← update (set_child (-1));
  _ ← update (set_last_error (Some detail));
  now ← sb_monotonic_ms;
  update (fun s => set_next_start (now + sv_backoff s) s).

Definition reap : sup unit :=
  s ← get_sup;
  if sv_child s <=? 0 then mret tt
  else
    result ← waitpid_nohang (sv_child s);
    match result with
    | StillRunning | Interrupted => mret tt
    | Ended status => pause (child_exit_detail status)
    | NoChild => pause (bs "sing-box child could not be reaped")
    | WaitError e => update (set_last_error (Some (bs "sing-box wait failed: " ++ strerror env e)))
    end.

Definition start_child : sup unit :=
  s ← get_sup;
  _ ← system_fail env "initialize sing-box spawn actions failed" (ask (px_actions px));
  _ ← system_fail env "configure sing-box stdin failed" (ask (px_actions px));
  result ← posix_spawnp [sv_binary s; bs "run"; bs "-c"; sv_config_path s];
  match result with
  | inr e =>
      let message := bs "start sing-box failed: " ++ strerror env e in
      _ ← update (set_child (-1));
      _ ← update (set_started true);
      now ← sb_monotonic_ms;
      _ ← update (fun s => set_next_start (now + sv_backoff s) s);
      _ ← update (set_last_error (Some message));
      pure (sb_fail SB_ERR_IO message)
  | inl pid =>
      _ ← update (set_child pid);
      _ ← update (set_started true);
      _ ← update (set_next_start 0);
      update (set_last_error None)
  end.

Definition start (ignore_backoff : bool) : sup unit :=
  _ ← reap;
  s ← get_sup;
  if 0 <? sv_child s then mret tt
  else
    early ← (if ignore_backoff then mret false else now ← sb_monotonic_ms; mret (now <? sv_next_start s));
    if early : bool then mret tt
    else
      regular ← is_regular_file (sv_config_path s);
      if negb regular then mret tt else start_child.

(** A signal to the child; a child that is gone is started again. *)
Definition signal_child : sup unit :=
  s ← get_sup;
  answer ← kill (sv_child s) SIGHUP;
  match answer with
  | Delivered => update (set_last_error None)
  | NoProcess => _ ← reap; start true
  | KillError e => pure (sb_fail SB_ERR_IO (bs "reload sing-box failed: " ++ strerror env e))
  end.

Definition sb_singbox_supervisor_apply_config (contents : bytes) : sup unit :=
  s ← get_sup;
  _ ← sb_atomic_replace_file env (sv_config_path s) contents (Some validate);
  _ ← reap;
  s ← get_sup;
  if 0 <? sv_child s then signal_child else start true.

Definition sb_singbox_supervisor_ensure_alive : sup unit :=
  previous ← get_sup;
  _ ← reap;
  s ← get_sup;
  _ ← (if (0 <? sv_child previous) && (sv_child s <=? 0) then update (set_started true) else mret tt);
  s ← get_sup;
  if sv_started s && (sv_child s <=? 0) then
    r ← attempt (start false);
    match r with Ok _ => mret tt | Err e => update (set_last_error (Some (err_msg e))) end
  else mret tt.

Definition sb_singbox_supervisor_reload : sup unit :=
  _ ← reap;
  s ← get_sup;
  if sv_child s <=? 0 then start true else signal_child.

(** The rounds of ten milliseconds; [true] when the child was waited for. *)
Fixpoint stop_loop (fuel : nat) (process deadline : Z) : sup bool :=
  match fuel with
  | O => mret false
  | S fuel' =>
      now ← sb_monotonic_ms;
      if deadline <=? now then mret false
      else
        result ← waitpid_nohang process;
        match result with
        | Ended _ | NoChild => mret true
        | WaitError _ => mret false
        | StillRunning | Interrupted => _ ← sb_sleep_ms 10; stop_loop fuel' process deadline
        end
  end.

(** Each round takes ten milliseconds at least. *)
Definition stop_fuel (shutdown : Z) : nat := S (Z.to_nat (shutdown / 10 + 1)).

Definition stopped : sup unit :=
  _ ← update (set_child (-1));
  update (set_started false).

Definition sb_singbox_supervisor_stop : sup unit :=
  s ← get_sup;
  let process := sv_child s in
  if process <=? 0 then mret tt
  else
    answer ← kill process SIGTERM;
    _ ← match answer with KillError e => update (set_last_error (Some (bs "stop sing-box failed: " ++ strerror env e))) | _ => mret tt end;
    now ← sb_monotonic_ms;
    ended ← stop_loop (stop_fuel (sv_shutdown s)) process (now + sv_shutdown s);
    if ended : bool then stopped
    else
      _ ← kill process SIGKILL;
      _ ← waitpid_end process;
      stopped.

Definition sb_singbox_supervisor_restart : sup unit :=
  _ ← sb_singbox_supervisor_stop;
  _ ← update (set_started true);
  start true.

Definition sb_singbox_supervisor_running : sup bool :=
  _ ← reap;
  s ← get_sup;
  mret (0 <? sv_child s).

Definition sb_singbox_supervisor_pid : sup Z :=
  _ ← reap;
  s ← get_sup;
  mret (if 0 <? sv_child s then sv_child s else -1).
End Supervisor.

(** * Theorems *)

(** ** Replacing a file leaves the first part of the state *)

Section Frames.
Context {T K : Type} (env : sys_env K).

Abbreviation sys := (sql T (system K)).

Lemma frame_sys_call {A} failed (f : nat -> system K -> A * system K) : frame (sys_call (T := T) env failed f).
Proof. intros s. unfold sys_call, on_memory. destruct (sys_errno env _); [done|]. by destruct (f _ _). Qed.

Lemma frame_attempt {A} (m : sys A) : frame m -> frame (attempt m).
Proof. intros F s. specialize (F s). unfold attempt. by destruct (m s). Qed.

Lemma frame_system_fail op (call : sys (option errno)) : frame call -> frame (system_fail env op call).
Proof. intros F. apply frame_bind; [done|]. by intros [e|]. Qed.

Lemma frame_mkdir path mode : frame (mkdir_or_exists (T := T) env path mode).
Proof. apply frame_bind; [apply frame_sys_call|done]. Qed.

Lemma frame_mkdirs path mode : frame (sb_mkdirs (T := T) env path mode).
Proof.
  unfold sb_mkdirs. destruct (cstr path) as [|c rest]; [done|]. generalize [c]. induction rest as [|d rest IH]; intros done; cbn [mkdirs_loop].
  - apply frame_mkdir.
  - destruct (code d =? slash); [|apply IH]. apply frame_bind; [apply frame_mkdir|]. intros [e|]; [by intros s|apply IH].
Qed.

Lemma frame_write_all path data : frame (write_all (T := T) env path data).
Proof.
  apply frame_bind; [|intros _; apply frame_system_fail, frame_sys_call]. generalize (length data) as fuel. intros fuel. revert data.
  induction fuel as [|fuel IH]; intros [|c data]; cbn [write_loop]; try done. apply frame_bind; [apply frame_sys_call|].
  intros [[|n]|e]; [done|apply IH|done].
Qed.

Lemma frame_replace dest contents (validator : option (bytes -> sys unit)) :
  (forall v p, validator = Some v -> frame (v p)) -> frame (sb_atomic_replace_file env dest contents validator).
Proof.
  intros V. unfold sb_atomic_replace_file. cbv zeta. destruct (_ || _); [done|].
  apply frame_bind; [apply frame_system_fail, frame_mkdirs|intros _]. apply frame_bind.
  { apply frame_bind; [apply frame_on_memory|]. by intros [e|[]]. }
  intros mode. apply frame_bind; [apply frame_bind; [apply frame_ask|by intros [r|]]|intros tmp].
  apply frame_bind; [apply frame_system_fail, frame_sys_call|intros _]. apply frame_bind.
  - apply frame_bind.
    + apply frame_attempt. apply frame_bind; [apply frame_write_all|intros _]. apply frame_bind; [apply frame_system_fail, frame_sys_call|intros _].
      apply frame_bind; [|intros _; apply frame_system_fail, frame_sys_call]. destruct validator as [v|]; [by apply V|done].
    + intros [a|e]; [done|]. apply frame_bind; [apply frame_sys_call|done].
  - intros _. apply frame_bind; [apply frame_system_fail, frame_sys_call|intros _].
    apply frame_bind; [apply frame_system_fail, frame_sys_call|intros _]. apply frame_system_fail, frame_sys_call.
Qed.
End Frames.

Section Invariant.
Context {K : Type} (env : sys_env K) (px : process_env).

Abbreviation sup := (sql world (system K)).
Abbreviation state := (conn world (system K)).

Lemma wp_on_world {A} (f : world -> nat -> A * world) (Q : A -> state -> Prop) E s :
  Q (fst (f (db s) (asked s))) (mk_conn (snd (f (db s) (asked s))) (mem s) (S (asked s))) -> wp (on_world f) Q E s.
Proof. unfold wp, on_world. by destruct (f (db s) (asked s)). Qed.

Lemma wp_get_sup (Q : sb_singbox_supervisor -> state -> Prop) E s : Q (w_sup (db s)) s -> wp get_sup Q E s.
Proof. done. Qed.

Lemma wp_update f (Q : unit -> state -> Prop) E s :
  Q tt (mk_conn (mk_world (f (w_sup (db s))) (w_children (db s)) (w_now (db s))) (mem s) (asked s)) -> wp (update f) Q E s.
Proof. done. Qed.

(** The children are at most the one that the supervisor has. *)
Definition at_most_one (w : world) : Prop := w_children w ⊆ (if 0 <? sv_child (w_sup w) then {[sv_child (w_sup w)]} else ∅).

(** What never changes. *)
Definition same_setup (a b : sb_singbox_supervisor) : Prop :=
  sv_binary a = sv_binary b /\ sv_config_path a = sv_config_path b /\ sv_validate a = sv_validate b /\
  sv_backoff a = sv_backoff b /\ sv_shutdown a = sv_shutdown b.

(** What looking for the end of the child does: nothing, or the child is gone and the
    pause begins. *)
Record reaped (w w' : world) : Prop := {
  reap_one : at_most_one w -> at_most_one w';
  reap_setup : same_setup (w_sup w') (w_sup w);
  reap_time : w_now w <= w_now w';
  reap_started : sv_started (w_sup w') = sv_started (w_sup w);
  reap_child : (sv_child (w_sup w') = sv_child (w_sup w) /\ sv_next_start (w_sup w') = sv_next_start (w_sup w) /\ w_children w' = w_children w) \/
               (0 < sv_child (w_sup w) /\ sv_child (w_sup w') = -1 /\ sv_next_start (w_sup w') = w_now w' + sv_backoff (w_sup w)) }.

Lemma wp_pause detail w0 (s : state) :
  0 < sv_child (w_sup w0) -> w_sup (db s) = w_sup w0 -> w_now (db s) = w_now w0 -> (at_most_one w0 -> w_children (db s) = ∅) ->
  wp (pause px detail) (fun _ s' => reaped w0 (db s') /\ mem s' = mem s) (fun _ _ => False) s.
Proof.
  intros C S N E. unfold pause. apply wp_bind, wp_update, wp_bind, wp_update, wp_bind, wp_on_world, wp_update. cbn.
  split; [|done]. rewrite S, N. split; cbn; try done; [|lia|right; split_and!; [done|done|lia]].
  intros I. unfold at_most_one. cbn. by rewrite (E I).
Qed.

Lemma wp_reap (s : state) : wp (reap env px) (fun _ s' => reaped (db s) (db s') /\ mem s' = mem s) (fun _ _ => False) s.
Proof.
  assert (R : forall w n, w_children w = w_children (db s) -> w_now w = w_now (db s) -> same_setup (w_sup w) (w_sup (db s)) ->
    sv_child (w_sup w) = sv_child (w_sup (db s)) -> sv_next_start (w_sup w) = sv_next_start (w_sup (db s)) ->
    sv_started (w_sup w) = sv_started (w_sup (db s)) ->
    reaped (db s) (db (mk_conn (P := system K) w (mem s) n)) /\ mem (mk_conn w (mem s) n) = mem s).
  { intros w n H1 H2 H3 H4 H5 H6. split; [|done]. cbn. split; try done; [|lia|by left]. unfold at_most_one. by rewrite H1, H4. }
  assert (Same : forall n, reaped (db s) (db (mk_conn (P := system K) (db s) (mem s) n)) /\ mem (mk_conn (db s) (mem s) n) = mem s) by (intros n; by apply R).
  unfold reap. apply wp_bind, wp_get_sup. destruct (sv_child (w_sup (db s)) <=? 0) eqn:C.
  { apply wp_ret. destruct s as [w m n]. apply Same. }
  assert (0 < sv_child (w_sup (db s))) as P by lia.
  assert (Pause : forall detail (s1 : state), w_sup (db s1) = w_sup (db s) -> w_now (db s1) = w_now (db s) -> mem s1 = mem s ->
    (at_most_one (db s) -> w_children (db s1) = ∅) -> wp (pause px detail) (fun _ s' => reaped (db s) (db s') /\ mem s' = mem s) (fun _ _ => False) s1).
  { intros detail s1 H1 H2 H3 H4. rewrite <- H3. by apply wp_pause. }
  assert (Gone : at_most_one (db s) -> w_children (db s) ∖ {[sv_child (w_sup (db s))]} = ∅).
  { unfold at_most_one. rewrite ltb_true by done. set_solver. }
  apply wp_bind. unfold waitpid_nohang. apply wp_on_world. case_bool_decide as M; cbn [fst snd].
  - destruct (px_wait px (asked s)) as [|status| | |e]; try (by apply wp_ret); try (by apply Pause). apply wp_update. by apply R.
  - apply Pause; try done. cbn. intros I. specialize (Gone I). set_solver.
Qed.

Lemma wp_reap_both (Q : state -> Prop) (s : state) :
  (forall s', reaped (db s) (db s') -> mem s' = mem s -> Q s') -> wp (reap env px) (fun _ => Q) (fun _ => Q) s.
Proof. intros H. eapply wp_mono; [apply wp_reap|..]; cbn beta; [|done]. intros _ s' [R M]. by apply H. Qed.

Hypothesis spawn_positive : forall n argv pid, px_spawn px n argv = inl pid -> 0 < pid.

(** The time from which a supervisor starts a child by itself: after the pause, or,
    when it has a child, after a pause that is still to come. *)
Definition due_at (w : world) : Z := if 0 <? sv_child (w_sup w) then w_now w + sv_backoff (w_sup w) else sv_next_start (w_sup w).

(** What starting does; [early] is a start that does not wait for the pause. *)
Record moved (early : bool) (w w' : world) : Prop := {
  move_one : at_most_one w';
  move_setup : same_setup (w_sup w') (w_sup w);
  move_time : w_now w <= w_now w';
  move_due : early = false -> 0 < sv_child (w_sup w') -> sv_child (w_sup w') = sv_child (w_sup w) \/ due_at w <= w_now w' }.

Lemma wp_start_child w0 (s : state) :
  at_most_one (db s) -> sv_child (w_sup (db s)) <= 0 -> same_setup (w_sup (db s)) (w_sup w0) -> w_now w0 <= w_now (db s) ->
  wp (start_child env px)
    (fun _ s' => at_most_one (db s') /\ same_setup (w_sup (db s')) (w_sup w0) /\ w_now (db s) <= w_now (db s') /\ mem s' = mem s)
    (fun _ s' => at_most_one (db s') /\ same_setup (w_sup (db s')) (w_sup w0) /\ w_now (db s) <= w_now (db s') /\ mem s' = mem s) s.
Proof.
  intros I C S N. assert (w_children (db s) = ∅) as Emp by (unfold at_most_one in I; rewrite ltb_false in I by done; set_solver).
  unfold start_child. apply wp_bind, wp_get_sup. apply wp_bind, wp_system_fail, wp_ask. destruct (px_actions px _); [by intros err|].
  apply wp_bind, wp_system_fail, wp_ask. destruct (px_actions px _); [by intros err|]. apply wp_bind, wp_on_world. cbn [fst snd db mem asked].
  destruct (px_spawn px _ _) as [pid|e] eqn:X.
  - apply spawn_positive in X. do 3 apply wp_bind, wp_update. apply wp_update. cbn. split_and!; try done; try lia.
    unfold at_most_one. cbn. rewrite ltb_true by done. rewrite Emp. set_solver.
  - do 2 apply wp_bind, wp_update. apply wp_bind, wp_on_world, wp_bind, wp_update, wp_bind, wp_update, wp_pure. cbn.
    split_and!; try done; try lia. unfold at_most_one. cbn. by rewrite Emp.
Qed.

Lemma wp_start early (s : state) :
  at_most_one (db s) ->
  wp (start env px early) (fun _ s' => moved early (db s) (db s') /\ mem s' = mem s) (fun _ s' => moved early (db s) (db s') /\ mem s' = mem s) s.
Proof.
  intros I. unfold start. apply wp_bind. eapply wp_mono; [apply wp_reap|cbn beta|done]. intros _ s1 [[R1 R2 R3 R4 R5] M1]. specialize (R1 I).
  apply wp_bind, wp_get_sup. destruct (0 <? sv_child (w_sup (db s1))) eqn:C.
  { apply wp_ret. split; [|done]. split; try done. intros _ P. left. destruct R5 as [[R5 _]|(_ & R5 & _)]; [done|]. rewrite R5 in P. lia. }
  assert (Stay : forall s2 : state, w_sup (db s2) = w_sup (db s1) -> w_children (db s2) = w_children (db s1) -> w_now (db s1) <= w_now (db s2) -> mem s2 = mem s1 ->
    moved early (db s) (db s2) /\ mem s2 = mem s).
  { intros s2 H1 H2 H3 H4. split; [|congruence]. split; [|by rewrite H1|lia|intros _ P; rewrite H1 in P; lia]. unfold at_most_one. by rewrite H1, H2. }
  assert (Go : forall s2 : state, w_sup (db s2) = w_sup (db s1) -> w_children (db s2) = w_children (db s1) -> w_now (db s1) <= w_now (db s2) -> mem s2 = mem s1 ->
    (early = false -> sv_next_start (w_sup (db s1)) <= w_now (db s2)) ->
    wp (regular ← is_regular_file env (sv_config_path (w_sup (db s1))); if negb regular then mret tt else start_child env px)
      (fun _ s' => moved early (db s) (db s') /\ mem s' = mem s) (fun _ s' => moved early (db s) (db s') /\ mem s' = mem s) s2).
  { intros s2 H1 H2 H3 H4 D. apply wp_bind. unfold is_regular_file. apply wp_bind, wp_on_memory. apply wp_ret. cbn [fst snd].
    destruct (negb _); [by apply wp_ret, Stay|].
    eapply wp_mono; [apply (wp_start_child (db s)); cbn|..]; [unfold at_most_one; by rewrite H1, H2|rewrite H1; lia|by rewrite H1|lia|..]; cbn;
      intros ? s3 (A & B & N & M); (split; [|congruence]); (split; [done|done|lia|]); intros Early P; right; specialize (D Early);
      unfold due_at; (destruct R5 as [(E1 & E2 & _)|(E1 & _ & E2)];
        [rewrite E1 in C; rewrite C; lia|rewrite ltb_true by done; lia]). }
  destruct early.
  - apply wp_bind, wp_ret, Go; done.
  - apply wp_bind, wp_bind, wp_on_world, wp_ret. cbn [fst snd]. match goal with |- wp (if ?b then _ else _) _ _ _ => destruct b eqn:L end.
    + apply wp_ret, Stay; cbn; try done. lia.
    + apply Go; cbn; try done; lia.
Qed.

Lemma moved_after_reap early w w1 w2 : reaped w w1 -> moved early w1 w2 -> moved early w w2.
Proof.
  intros [R1 R2 R3 R4 R5] [A B C D]. split; [done| |lia|].
  - destruct R2 as (? & ? & ? & ? & ?), B as (? & ? & ? & ? & ?). by split_and!; etrans.
  - intros E P. destruct (D E P) as [H|H]; destruct R5 as [(E1 & E2 & _)|(E1 & E2 & E3)].
    + left. congruence.
    + rewrite E2 in H. lia.
    + right. unfold due_at in *. rewrite E1 in H. destruct R2 as (_ & _ & _ & E4 & _). rewrite E2, E4 in H. revert H. destruct (0 <? sv_child (w_sup w)); lia.
    + right. unfold due_at in *. rewrite E2 in H. rewrite ltb_true by done. cbn in H. lia.
Qed.

Lemma validate_reads : only_reads (T := world) (Some (validate (K := K) env px)).
Proof.
  intros v p s [= <-]. unfold validate, get_sup, check_config, mbind, sql_bind. destruct (negb _); [done|].
  unfold run_program, pure. by destruct (fst _).
Qed.

Lemma frame_validate p : frame (validate (K := K) env px p).
Proof. intros s. by destruct (validate_reads _ p s eq_refl). Qed.

Lemma wp_signal (s : state) :
  at_most_one (db s) -> wp (signal_child env px) (fun _ s' => at_most_one (db s')) (fun _ s' => at_most_one (db s')) s.
Proof.
  intros I. unfold signal_child. apply wp_bind, wp_get_sup, wp_bind, wp_on_world. cbn [fst snd]. destruct (px_kill px _ _ _) as [| |e].
  - by apply wp_update.
  - apply wp_bind. eapply wp_mono; [apply wp_reap|cbn beta|done]. intros _ s1 [R _].
    eapply wp_mono; [apply wp_start; by apply (reap_one _ _ R)|..]; cbn; intros ? s2 [M _]; by destruct M.
  - by apply wp_pure.
Qed.

Hypothesis wait_ends : forall n e, px_end px n <> inr e.

Lemma wp_stop_loop fuel process deadline (s : state) :
  wp (stop_loop px fuel process deadline)
    (fun b s' => w_sup (db s') = w_sup (db s) /\ w_children (db s') ⊆ w_children (db s) /\ mem s' = mem s /\ w_now (db s) <= w_now (db s') /\
                 (b = true -> process ∉ w_children (db s'))) (fun _ _ => False) s.
Proof.
  revert s. induction fuel as [|fuel IH]; intros s; cbn [stop_loop]; [apply wp_ret; split_and!; try done; lia|].
  apply wp_bind, wp_on_world. cbn [fst snd]. destruct (deadline <=? _); [apply wp_ret; cbn; split_and!; try done; lia|].
  apply wp_bind, wp_on_world. cbn [fst snd db mem asked w_children].
  assert (Next : forall s1 : state, w_sup (db s1) = w_sup (db s) -> w_children (db s1) = w_children (db s) -> mem s1 = mem s -> w_now (db s) <= w_now (db s1) ->
    wp (_ ← sb_sleep_ms px 10; stop_loop px fuel process deadline) (fun b s' => w_sup (db s') = w_sup (db s) /\ w_children (db s') ⊆ w_children (db s) /\
       mem s' = mem s /\ w_now (db s) <= w_now (db s') /\ (b = true -> process ∉ w_children (db s'))) (fun _ _ => False) s1).
  { intros s1 H1 H2 H3 H4. apply wp_bind, wp_on_world. cbn [fst snd]. eapply wp_mono; [apply IH|cbn|done].
    intros b s' (A & B & C & D & E). split_and!; try congruence; [by rewrite <- H2|lia|done]. }
  case_bool_decide as M; cbn [fst snd].
  - destruct (px_wait px _) as [|status| | |e]; try (apply wp_ret; cbn; split_and!; try done; try lia; set_solver); apply Next; cbn; try done; lia.
  - apply wp_ret. cbn. split_and!; try done; lia.
Qed.

Lemma wp_stop (s : state) :
  at_most_one (db s) ->
  wp (sb_singbox_supervisor_stop env px)
    (fun _ s' => same_setup (w_sup (db s')) (w_sup (db s)) /\ w_children (db s') = ∅ /\ sv_child (w_sup (db s')) <= 0 /\ mem s' = mem s /\
                 w_now (db s) <= w_now (db s')) (fun _ _ => False) s.
Proof.
  intros I. unfold sb_singbox_supervisor_stop. apply wp_bind, wp_get_sup. cbv zeta. set (p := sv_child (w_sup (db s))).
  destruct (p <=? 0) eqn:C.
  { apply wp_ret. split_and!; try done; [|subst p; lia]. unfold at_most_one in I. rewrite ltb_false in I by (subst p; lia). set_solver. }
  assert (Sub : w_children (db s) ⊆ {[p]}) by (unfold at_most_one in I; by rewrite ltb_true in I by (subst p; lia)).
  apply wp_bind, wp_on_world. cbn [fst snd]. apply wp_bind.
  set (s1 := mk_conn (db s) (mem s) (S (asked s)) : state).
  assert (wp (match px_kill px (asked s) p SIGTERM with KillError e => update (set_last_error (Some (bs "stop sing-box failed: " ++ strerror env e))) | _ => mret tt end)
    (fun _ s' => same_setup (w_sup (db s')) (w_sup (db s)) /\ w_children (db s') = w_children (db s) /\ mem s' = mem s /\ w_now (db s') = w_now (db s)) (fun _ _ => False) s1) as W
    by (destruct (px_kill _ _ _ _); [by apply wp_ret..|by apply wp_update]).
  eapply wp_mono; [exact W|cbn beta|done]. intros _ s2 (A1 & A2 & A3 & A4). apply wp_bind, wp_on_world. cbn [fst snd].
  apply wp_bind. eapply wp_mono; [apply wp_stop_loop|cbn beta; cbn [db mem asked w_sup w_children w_now]|done].
  intros b s3 (B1 & B2 & B3 & B4 & B5).
  assert (Fin : forall s4 : state, w_sup (db s4) = w_sup (db s3) -> w_children (db s4) ⊆ w_children (db s3) -> p ∉ w_children (db s4) -> mem s4 = mem s3 -> w_now (db s3) <= w_now (db s4) ->
    wp stopped (fun _ s' => same_setup (w_sup (db s')) (w_sup (db s)) /\ w_children (db s') = ∅ /\ sv_child (w_sup (db s')) <= 0 /\ mem s' = mem s /\ w_now (db s) <= w_now (db s'))
      (fun _ _ => False) s4).
  { intros s4 H1 H2 H3 H4 H5. apply wp_bind, wp_update, wp_update. cbn. split_and!; try lia; [|set_solver|congruence].
    rewrite H1, B1. exact A1. }
  destruct b; [apply Fin; try done; by apply B5|]. apply wp_bind, wp_on_world, wp_bind, wp_on_world. cbn [fst snd db asked mem].
  case_bool_decide as M; cbn [fst snd]; [|apply Fin; try done; cbn; lia].
  destruct (px_end px _) as [status|e] eqn:X; [|by apply wait_ends in X]. cbn [snd]. apply Fin; cbn; try done; set_solver.
Qed.

(** The calls of an agent. *)
Inductive sup_op := ApplyConfig (contents : bytes) | EnsureAlive | Reload | Restart | Stop | AskRunning.

Definition sup_step (op : sup_op) : sup unit :=
  match op with
  | ApplyConfig contents => sb_singbox_supervisor_apply_config env px contents
  | EnsureAlive => sb_singbox_supervisor_ensure_alive env px
  | Reload => sb_singbox_supervisor_reload env px
  | Restart => sb_singbox_supervisor_restart env px
  | Stop => sb_singbox_supervisor_stop env px
  | AskRunning => _ ← sb_singbox_supervisor_running env px; mret tt
  end.

Fixpoint sup_run (ops : list sup_op) : sup unit :=
  match ops with
  | [] => mret tt
  | op :: ops' => _ ← attempt (sup_step op); sup_run ops'
  end.

Abbreviation one := (fun (_ : _) (s' : state) => at_most_one (db s')).

Lemma wp_start_one early (s : state) : at_most_one (db s) -> wp (start env px early) one one s.
Proof. intros I. eapply wp_mono; [by apply wp_start|..]; cbn; intros ? s' [M _]; by destruct M. Qed.

Lemma wp_reap_one {B} (f : unit -> sup B) (s : state) :
  at_most_one (db s) -> (forall s1, at_most_one (db s1) -> wp (f tt) one one s1) -> wp (_ ← reap env px; f tt) one one s.
Proof. intros I H. apply wp_bind. eapply wp_mono; [apply wp_reap|cbn beta|done]. intros _ s1 [R _]. by apply H, (reap_one _ _ R). Qed.

(** The same but for what is told: errors, and whether a child was ever started. *)
Definition alike (w w' : world) : Prop :=
  sv_child (w_sup w') = sv_child (w_sup w) /\ sv_next_start (w_sup w') = sv_next_start (w_sup w) /\ same_setup (w_sup w') (w_sup w) /\
  w_children w' = w_children w /\ w_now w' = w_now w.

Lemma alike_one w w' : alike w w' -> at_most_one w -> at_most_one w'.
Proof. intros (A & _ & _ & B & _). unfold at_most_one. by rewrite A, B. Qed.

Lemma same_setup_trans a b c : same_setup a b -> same_setup b c -> same_setup a c.
Proof. intros (? & ? & ? & ? & ?) (? & ? & ? & ? & ?). by split_and!; etrans. Qed.

Lemma moved_alike early w0 w1 w2 w3 : alike w0 w1 -> moved early w1 w2 -> alike w2 w3 -> moved early w0 w3.
Proof.
  intros (A1 & A2 & A3 & A4 & A5) [M1 M2 M3 M4] L. pose proof (alike_one _ _ L M1) as I. destruct L as (B1 & B2 & B3 & B4 & B5). split; [done| |lia|].
  - eapply same_setup_trans; [done|]. by eapply same_setup_trans.
  - intros E P. rewrite B1 in P |- *. rewrite <- A1, B5. destruct (M4 E P) as [H|H]; [by left|right]. unfold due_at in *.
    destruct A3 as (_ & _ & _ & A3 & _). by rewrite A1, A2, A3, A5 in H.
Qed.

Lemma wp_ensure_alive (s : state) :
  at_most_one (db s) ->
  wp (sb_singbox_supervisor_ensure_alive env px) (fun _ s' => moved false (db s) (db s') /\ mem s' = mem s) (fun _ _ => False) s.
Proof.
  intros I. unfold sb_singbox_supervisor_ensure_alive. apply wp_bind, wp_get_sup, wp_bind.
  eapply wp_mono; [apply wp_reap|cbn beta|done]. intros _ s1 [R M1]. pose proof (reap_one _ _ R I) as I1.
  assert (Refl : forall w, alike w w) by (intros w; by split_and!).
  apply wp_bind, wp_get_sup, wp_bind.
  assert (wp (if (0 <? sv_child (w_sup (db s))) && (sv_child (w_sup (db s1)) <=? 0) then update (set_started true) else mret tt)
    (fun _ s' => alike (db s1) (db s') /\ mem s' = mem s1) (fun _ _ => False) s1) as W
    by (destruct (_ && _); [apply wp_update|apply wp_ret]; by split_and!).
  eapply wp_mono; [exact W|cbn beta|done]. clear W. intros _ s2 [L M2]. apply wp_bind, wp_get_sup. pose proof (alike_one _ _ L I1) as I2.
  destruct (sv_started (w_sup (db s2)) && (sv_child (w_sup (db s2)) <=? 0)) eqn:C.
  - apply wp_bind, wp_attempt. assert (Q : forall s3 s4 : state, moved false (db s2) (db s3) /\ mem s3 = mem s2 -> alike (db s3) (db s4) -> mem s4 = mem s3 ->
      moved false (db s) (db s4) /\ mem s4 = mem s).
    { intros s3 s4 [M E] L' E'. split; [|congruence]. eapply moved_after_reap; [done|]. by eapply moved_alike. }
    eapply wp_mono; [by apply wp_start|..]; cbn beta; intros a s3 H; [apply wp_ret|apply wp_update]; apply (Q s3); done.
  - apply wp_ret. split; [|congruence]. eapply moved_after_reap; [done|]. eapply moved_alike; [done|..|apply Refl].
    split; [done|by split_and!|lia|by left].
Qed.

Lemma sup_step_one op (s : state) : at_most_one (db s) -> wp (sup_step op) one one s.
Proof.
  intros I. destruct op as [contents| | | | |]; cbn [sup_step].
  - unfold sb_singbox_supervisor_apply_config. apply wp_bind, wp_get_sup, wp_bind.
    assert (F : frame (sb_atomic_replace_file env (sv_config_path (w_sup (db s))) contents (Some (validate env px))))
      by (apply frame_replace; intros v p [= <-]; apply frame_validate).
    eapply wp_mono; [apply (wp_frame _ s F)|..]; cbn beta; intros ? s1 E; rewrite <- E in I; [|done].
    apply (wp_reap_one (fun _ => _)); [done|]. intros s2 I2. apply wp_bind, wp_get_sup. destruct (0 <? _); [by apply wp_signal|by apply wp_start_one].
  - eapply wp_mono; [by apply wp_ensure_alive|..]; cbn beta; [intros ? s' [M _]; by destruct M|done].
  - unfold sb_singbox_supervisor_reload. apply (wp_reap_one (fun _ => _)); [done|]. intros s2 I2. apply wp_bind, wp_get_sup.
    destruct (_ <=? 0); [by apply wp_start_one|by apply wp_signal].
  - unfold sb_singbox_supervisor_restart. apply wp_bind. eapply wp_mono; [by apply wp_stop|cbn beta|done]. intros _ s1 (_ & E & _).
    apply wp_bind, wp_update. apply wp_start_one. unfold at_most_one. cbn. by rewrite E.
  - eapply wp_mono; [by apply wp_stop|cbn beta|done]. intros _ s1 (_ & E & _). unfold at_most_one. by rewrite E.
  - apply wp_bind. unfold sb_singbox_supervisor_running. apply (wp_reap_one (fun _ => _)); [done|]. intros s2 I2. by apply wp_bind, wp_get_sup, wp_ret.
Qed.

Lemma sup_run_one ops (s : state) : at_most_one (db s) -> wp (sup_run ops) one (fun _ _ => False) s.
Proof.
  revert s. induction ops as [|op ops IH]; intros s I; cbn [sup_run]; [by apply wp_ret|]. apply wp_bind, wp_attempt.
  eapply wp_mono; [by apply sup_step_one|..]; cbn beta; intros ? s' I'; by apply IH.
Qed.

(** C23: the agent has at most one sing-box.  Whatever sequence of calls it makes from
    the start, and whatever the processes do meanwhile (end by themselves, refuse
    signals, vanish), the children that are not waited for are at most one, and it is
    the one that the supervisor knows.  A child has a positive number, and waiting
    for a child that was killed does not fail. *)
Theorem one_child ops sup0 (s s' : state) r :
  w_sup (db s) = sup0 -> sv_child sup0 = -1 -> w_children (db s) = ∅ -> sup_run ops s = (r, s') ->
  (size (w_children (db s')) <= 1)%nat /\ (forall pid, pid ∈ w_children (db s') -> pid = sv_child (w_sup (db s')) /\ 0 < pid).
Proof.
  intros E0 C0 C1 R. assert (at_most_one (db s)) as I by (unfold at_most_one; by rewrite C1).
  pose proof (sup_run_one ops s I) as W. unfold wp in W. rewrite R in W. destruct r; [|done]. unfold at_most_one in W.
  split.
  - apply subseteq_size in W. destruct (0 <? _); [by rewrite size_singleton in W|]. rewrite size_empty in W. lia.
  - intros pid P. apply W in P. destruct (0 <? _) eqn:L; [|set_solver]. apply elem_of_singleton in P as ->. lia.
Qed.

(** Stopping never fails, leaves no child, and touches no file. *)
Theorem stop_leaves_none (s : state) :
  at_most_one (db s) ->
  exists s', sb_singbox_supervisor_stop env px s = (Ok tt, s') /\ w_children (db s') = ∅ /\ sv_child (w_sup (db s')) <= 0 /\ mem s' = mem s.
Proof.
  intros I. pose proof (wp_stop s I) as W. unfold wp in W. destruct (sb_singbox_supervisor_stop env px s) as [[[]|e] s']; [|done].
  exists s'. destruct W as (_ & A & B & C & _). done.
Qed.

(** A child that the periodic check leaves running is the one before, or was started
    when its pause was over: the pause of an earlier end, or a whole one after an end
    that the check itself found. *)
Theorem restart_waits (s s' : state) r :
  at_most_one (db s) -> sb_singbox_supervisor_ensure_alive env px s = (r, s') -> 0 < sv_child (w_sup (db s')) ->
  r = Ok tt /\ (sv_child (w_sup (db s')) = sv_child (w_sup (db s)) \/ due_at (db s) <= w_now (db s')).
Proof.
  intros I E P. pose proof (wp_ensure_alive s I) as W. unfold wp in W. rewrite E in W. destruct r as [[]|]; [|done].
  destruct W as [[_ _ _ D] _]. split; [done|]. by apply D.
Qed.

(** A round that goes on takes ten milliseconds. *)
Lemma stop_loop_ext f f' process deadline (s : state) :
  (forall s' : state, w_now (db s) + 10 <= w_now (db s') -> stop_loop px f process deadline s' = stop_loop px f' process deadline s') ->
  stop_loop px (S f) process deadline s = stop_loop px (S f') process deadline s.
Proof.
  intros H. cbn [stop_loop]. unfold mbind, sql_bind, sb_monotonic_ms, waitpid_nohang, sb_sleep_ms, on_world. cbn [db asked mem w_children w_now w_sup].
  destruct (deadline <=? _); [done|]. cbn [db asked mem w_children w_now w_sup]. destruct (bool_decide _); [|done].
  destruct (px_wait px _); try done; apply H; cbn; lia.
Qed.

(** The rounds of [sb_singbox_supervisor_stop] end by themselves: more fuel changes
    nothing. *)
Theorem stop_loop_terminates process shutdown deadline (s : state) k :
  0 <= shutdown -> deadline <= w_now (db s) + shutdown ->
  stop_loop px (stop_fuel shutdown + k) process deadline s = stop_loop px (stop_fuel shutdown) process deadline s.
Proof.
  intros N. unfold stop_fuel.
  assert (G : forall fuel (s : state), deadline <= w_now (db s) + Z.of_nat fuel * 10 ->
    stop_loop px (S fuel + k) process deadline s = stop_loop px (S fuel) process deadline s).
  { induction fuel as [|fuel IH]; intros s1 D.
    - cbn [Nat.add stop_loop]. unfold mbind, sql_bind, sb_monotonic_ms, on_world. rewrite leb_true by (cbn; lia). done.
    - apply stop_loop_ext. intros s' L. apply IH. lia. }
  intros D. apply G. rewrite Z2Nat.id by (apply Z.add_nonneg_nonneg; [apply Z.div_pos; lia|lia]).
  pose proof (Z.div_mod shutdown 10 ltac:(lia)). pose proof (Z.mod_pos_bound shutdown 10 ltac:(lia)). lia.
Qed.
End Invariant.

(** ** Example *)

(** The first child ends at once, the second runs until it is killed. *)
Definition demo_processes : process_env :=
  mk_process_env (fun _ _ _ => Ran (Exited 0)) (fun _ => None) (fun n _ => inl (100 + Z.of_nat n)) (fun n => if (n <? 30)%nat then Ended (Exited 1) else StillRunning)
    (fun _ => inl (Signaled 9)) (fun _ _ _ => Delivered) (fun _ => 400%nat).
Definition demo_supervised : conn world (system unit) :=
  mk_conn (mk_world (mk_supervisor (bs "sing-box") demo_conf true 1000 2000 (-1) false 0 None) ∅ 0) (mk_system demo_tree demo_tree [] tt) 0.

Lemma one_child_witness :
  exists s', sup_run demo_sys demo_processes [ApplyConfig (bs "{}"); EnsureAlive; EnsureAlive; EnsureAlive; Restart] demo_supervised = (Ok tt, s') /\
             size (w_children (db s')) = 1%nat /\ forall pid, pid ∈ w_children (db s') -> pid = sv_child (w_sup (db s')) /\ 0 < pid.
Proof.
  destruct (sup_run demo_sys demo_processes [ApplyConfig (bs "{}"); EnsureAlive; EnsureAlive; EnsureAlive; Restart] demo_supervised) as [r s'] eqn:E. exists s'.
  assert (X : (r, size (w_children (db s'))) = (Ok tt, 1%nat)).
  { change (r, size (w_children (db s'))) with ((fun p : result unit * conn world (system unit) => (fst p, size (w_children (db (snd p))))) (r, s')).
    rewrite <- E. vm_compute. reflexivity. }
  apply pair_inj in X as [-> S]. split; [reflexivity|]. split; [exact S|].
  exact (proj2 (one_child demo_sys demo_processes ltac:(intros n argv pid H; cbn in H; injection H as <-; lia) ltac:(intros n e H; discriminate H)
    [ApplyConfig (bs "{}"); EnsureAlive; EnsureAlive; EnsureAlive; Restart] (w_sup (db demo_supervised)) demo_supervised s' (Ok tt)
    ltac:(reflexivity) ltac:(reflexivity) ltac:(reflexivity) E)).
Defined.

(** ** Where the child comes from *)

Section FilesOnward.
Context {T K : Type} (env : sys_env K).

Lemma onward_sys_call {A} failed (f : nat -> system K -> A * system K) : onward (sys_call (T := T) env failed f).
Proof. apply onward_on_memory. Qed.
Hint Resolve onward_sys_call : onward.

Lemma onward_replace dest contents (validator : option (bytes -> sql T (system K) unit)) :
  (forall v p, validator = Some v -> onward (v p)) -> onward (sb_atomic_replace_file env dest contents validator).
Proof.
  intros V. assert (M : forall p mode, onward (sb_mkdirs (T := T) env p mode)).
  { intros p mode. unfold sb_mkdirs. destruct (cstr p) as [|c rest]; [onwards|]. generalize [c]. induction rest as [|d rest IH]; intros pre; cbn [mkdirs_loop];
      unfold mkdir_or_exists; onwards; apply IH || apply onward_sys_call. }
  assert (W : forall fuel p data, onward (write_loop (T := T) env fuel p data)).
  { induction fuel as [|fuel IH]; intros p [|c data]; cbn [write_loop]; onwards; apply IH || apply onward_sys_call. }
  unfold sb_atomic_replace_file, cleanup, fill_and_rename, write_all, fsync_directory, destination_mode, temporary_path_for, system_fail. cbv zeta.
  onwards; try apply onward_sys_call; try apply W; try apply M; try apply onward_on_memory. by apply V.
Qed.
End FilesOnward.

(** A property of the supervisor's child and the number of the next answer that
    every call of the supervisor keeps. *)
Record child_property (px : process_env) (I : world -> nat -> Prop) : Prop := {
  cp_tick : forall w n, I w n -> I w (S n);
  cp_same : forall w w' n, sv_child (w_sup w') = sv_child (w_sup w) -> I w n -> I w' n;
  cp_none : forall w w' n, sv_child (w_sup w') = -1 -> I w n -> I w' n;
  cp_spawn : forall w w' k n argv, I w k -> (k < n)%nat -> px_spawn px k argv = inl (sv_child (w_sup w')) -> I w' n }.

Section Child.
Context {K : Type} (env : sys_env K) (px : process_env) (I : world -> nat -> Prop) (Ci : child_property px I).

Abbreviation sup := (sql world (system K)).
Abbreviation state := (conn world (system K)).
Abbreviation tracks := (tracks (P := system K) I).

Lemma tracks_on_world {A} (f : world -> nat -> A * world) : (forall w n, sv_child (w_sup (snd (f w n))) = sv_child (w_sup w)) -> tracks (on_world f).
Proof.
  intros H s Hs. unfold on_world. specialize (H (db s) (asked s)). destruct (f (db s) (asked s)) as [a w]. cbn in *.
  apply (cp_tick _ _ Ci). by apply (cp_same _ _ Ci (db s)).
Qed.
Lemma tracks_update f : (forall u, sv_child (f u) = sv_child u \/ sv_child (f u) = -1) -> tracks (update f).
Proof. intros H s Hs. cbn. destruct (H (w_sup (db s))); [by apply (cp_same _ _ Ci (db s))|by apply (cp_none _ _ Ci (db s))]. Qed.
Lemma tracks_get_sup : tracks get_sup.
Proof. by intros s. Qed.
Lemma tracks_ask {A} (f : nat -> A) : tracks (ask f).
Proof. intros s H. by apply (cp_tick _ _ Ci). Qed.
Lemma tracks_memory {A} (f : system K -> nat -> A * system K) : tracks (on_memory f).
Proof. intros s H. unfold on_memory. destruct (f _ _). by apply (cp_tick _ _ Ci). Qed.
Lemma tracks_monotonic : tracks (sb_monotonic_ms px).
Proof. by apply tracks_on_world. Qed.
Lemma tracks_sleep ms : tracks (sb_sleep_ms px ms).
Proof. by apply tracks_on_world. Qed.
Lemma tracks_kill pid sig : tracks (kill px pid sig).
Proof. by apply tracks_on_world. Qed.
Lemma tracks_wait pid : tracks (waitpid_nohang px pid).
Proof. apply tracks_on_world. intros w n. case_bool_decide; [|done]. by destruct (px_wait px n). Qed.
Lemma tracks_wait_end pid : tracks (waitpid_end px pid).
Proof. apply tracks_on_world. intros w n. case_bool_decide; [|done]. by destruct (px_end px n). Qed.
Hint Resolve tracks_get_sup tracks_ask tracks_monotonic tracks_sleep tracks_kill tracks_wait tracks_wait_end : tracks.

(** An update that keeps the child, or has none. *)
Hint Extern 1 (SqliteProofs.tracks _ (update _)) => apply tracks_update; intros ?; first [by left|by right] : tracks.

Lemma tracks_reap : tracks (reap env px).
Proof. unfold reap, pause. tracked. Qed.
Hint Resolve tracks_reap : tracks.

Lemma tracks_start_child : tracks (start_child env px).
Proof.
  unfold start_child. do 3 (apply tracks_bind; [unfold system_fail; by tracked|intros ?]). apply tracks_wp. intros s H. unfold posix_spawnp. apply wp_bind, wp_on_world. cbn [fst snd].
  destruct (px_spawn px (asked s) _) as [pid|e] eqn:X.
  - do 3 apply wp_bind, wp_update. apply wp_update. cbn. eapply (cp_spawn _ _ Ci (db s)); [exact H|lia|]. cbn. exact X.
  - eapply wp_tracks; [|by apply (cp_tick _ _ Ci)]. tracked.
Qed.
Hint Resolve tracks_start_child : tracks.

Lemma tracks_start b : tracks (start env px b).
Proof. unfold start, is_regular_file. tracked. apply tracks_memory. Qed.
Hint Resolve tracks_start : tracks.

Lemma tracks_signal : tracks (signal_child env px).
Proof. unfold signal_child. tracked. Qed.
Hint Resolve tracks_signal : tracks.

Lemma tracks_stop : tracks (sb_singbox_supervisor_stop env px).
Proof.
  assert (L : forall fuel p d, tracks (stop_loop px fuel p d)) by (induction fuel as [|fuel IH]; intros p d; cbn [stop_loop]; tracked; apply IH).
  unfold sb_singbox_supervisor_stop, stopped. cbv zeta. tracked.
Qed.
Hint Resolve tracks_stop : tracks.

Lemma tracks_restart : tracks (sb_singbox_supervisor_restart env px).
Proof. unfold sb_singbox_supervisor_restart. tracked. Qed.
Lemma tracks_reload : tracks (sb_singbox_supervisor_reload env px).
Proof. unfold sb_singbox_supervisor_reload. tracked. Qed.
Lemma tracks_running : tracks (sb_singbox_supervisor_running env px).
Proof. unfold sb_singbox_supervisor_running. tracked. Qed.
Lemma tracks_ensure_alive : tracks (sb_singbox_supervisor_ensure_alive env px).
Proof. unfold sb_singbox_supervisor_ensure_alive. tracked. Qed.

Lemma tracks_run_program argv : tracks (run_program env px argv).
Proof. intros s H. by apply (cp_tick _ _ Ci). Qed.

Lemma tracks_apply_config contents : tracks (sb_singbox_supervisor_apply_config env px contents).
Proof.
  unfold sb_singbox_supervisor_apply_config. tracked. apply tracks_frame; [apply Ci|apply frame_replace; intros v p [= <-]; apply frame_validate|].
  apply onward_replace. intros v p [= <-]. unfold validate, check_config. apply onward_bind; [by intros s|intros u]. onwards. intros s. cbn. lia.
Qed.
End Child.

Lemma later_property px k : child_property px (fun _ n => (k <= n)%nat).
Proof. split; lia. Qed.

(** The supervisor has no child, or one that was started from answer [lo] on. *)
Definition born (px : process_env) (lo : nat) (w : world) (n : nat) : Prop :=
  (lo <= n)%nat /\ (sv_child (w_sup w) <= 0 \/ exists k argv, (lo <= k < n)%nat /\ px_spawn px k argv = inl (sv_child (w_sup w))).

Lemma born_property px lo : child_property px (born px lo).
Proof.
  unfold born. split.
  - intros w n [L [H|(k & argv & Hk & E)]]; (split; [lia|]); [by left|right]. exists k, argv. split; [lia|done].
  - intros w w' n E [L H]. split; [done|]. by rewrite E.
  - intros w w' n E [L H]. split; [done|]. left. lia.
  - intros w w' k n argv [L _] Hk E. split; [lia|right]. exists k, argv. split; [lia|done].
Qed.
