(* ===== verification/AgentClash.v ===== *)
(** * The agent and its local Clash API ([c/src/agent_clash.c])

    Latency tests, telemetry with its statistics by route, selection of nodes and
    route tests, over the client of [HttpClient].  The state is that of the service;
    the installed configuration is read from the files of [System].  Clocks and
    sockets are answered from outside ([clash_env]).  Sums are those of C while they
    fit 64 bits (C leaves larger ones undefined).

    Theorems: the statistics have at most 1000 routes, one entry per route, and no
    negative counter, whatever the Clash API answers ([statistics_sound]); a sample
    counts every connection once and moves one that changes its route
    ([connections_counted]). *)

From Stdlib Require Import SpecFloat.
From S2P Require Import Prelude Util Json JsonText Sqlite SqliteProofs System HttpText HttpClient.

(** ** Helpers *)

Fixpoint port_digits (value : Z) (s : bytes) : option Z :=
  match s with
  | [] => Some value
  | c :: s' =>
      if negb (isdigit c) then None
      else let value := value * 10 + (code c - 48) in if 65535 <? value then None else port_digits value s'
  end.
Definition parse_port_text (s : bytes) : option Z :=
  match s with
  | [] => None
  | _ => match port_digits 0 s with Some 0 => None | r => r end
  end.

(** [fuel] is the length of the text. *)
Fixpoint replace_loop (fuel : nat) (p from to : bytes) : bytes :=
  match fuel, cut_text from p with
  | S fuel', Some (before, after) => before ++ to ++ replace_loop fuel' after from to
  | _, _ => p
  end.
Definition replace_all (value from to : bytes) : bytes := replace_loop (length value) value from to.

(** [encode_component_n] is the encoding of the panel's routes. *)
Definition encode_component_n (value : bytes) : bytes := sb_http_encode_component_n value.

Definition value_text (object : option sbj) (key : string) (fallback : bytes) : result bytes :=
  match sbj_get object key with
  | None => Ok fallback
  | Some (SBJ_STRING s) => Ok (cstr s)
  | found => sb_fail SB_ERR_BAD_JSON (bs "[json.exception.type_error.302] type must be string, but is " ++ sbj_type_name found)
  end.

Definition as_int64 (v : sbj) : Z := match v with SBJ_UINT u => to_i64 u | SBJ_INT i => i | _ => 0 end.
Definition as_uint32 (v : sbj) : Z := match v with SBJ_UINT u => to_u32 u | SBJ_INT i => to_u32 i | _ => 0 end.

Definition FNV_PRIME : Z := 1099511628211.
Definition fnv1a (s : bytes) : Z := foldl (fun h c => to_u64 (Z.lxor h (code c) * FNV_PRIME)) 1469598103934665603 (cstr s).

(** How many of the last bytes continue a UTF-8 sequence, at most four. *)
Fixpoint continuation_bytes (limit : nat) (reversed : bytes) : nat :=
  match limit, reversed with
  | S limit', c :: r => if Z.land (code c) 192 =? 128 then S (continuation_bytes limit' r) else O
  | _, _ => O
  end.
Definition utf8_need (lead : Z) : Z :=
  if lead <? 128 then 1 else if Z.land lead 224 =? 192 then 2 else if Z.land lead 240 =? 224 then 3 else if Z.land lead 248 =? 240 then 4 else 1.
Definition check_utf8_complete (s : bytes) : result unit :=
  let r := reverse (cstr s) in
  let n := continuation_bytes 4 r in
  match drop n r, r with
  | lead :: _, last :: _ =>
      if Z.of_nat n + 1 <? utf8_need (code lead)
      then sb_fail SB_ERR_BAD_JSON (bs "[json.exception.type_error.316] incomplete UTF-8 string; last byte: 0x" ++ fmt_hex2_upper (code last))
      else Ok tt
  | _, _ => Ok tt
  end.

(** ** The service *)

(** A route with what went over it; [ds_key] is the text of [ds_identity]. *)
Record domain_stat := mk_stat {
  ds_key : bytes; ds_hash : Z; ds_identity : sbj; ds_count : Z; ds_up : Z; ds_down : Z; ds_first : Z; ds_last : Z; ds_sequence : Z }.
Record observed_connection := mk_observed { ob_id : bytes; ob_hash : Z; ob_route : bytes; ob_up : Z; ob_down : Z; ob_seen : bool }.

(** [ca_sample]: the totals and the time of the last sample. *)
Record sb_agent_clash := mk_clash {
  ca_path : bytes; ca_sample : option (Z * Z * Z); ca_observed : list observed_connection; ca_stats : list domain_stat; ca_sequence : Z }.

Definition sb_agent_clash_new (config_path : option bytes) : sb_agent_clash := mk_clash (cstr (default [] config_path)) None [] [] 0.
Definition clash_options : sb_clash_client_options := mk_clash_options 8000 (8 * 1024 * 1024).

Definition find_stat (stats : list domain_stat) (key : bytes) (hash : Z) : option nat :=
  fst <$> list_find (fun st => (ds_hash st =? hash) && bytes_eqb (ds_key st) key = true) stats.

Definition erase_stat (stats : list domain_stat) (index : nat) : list domain_stat := take index stats ++ drop (S index) stats.

(** The first of the entries that were seen last the longest ago. *)
Fixpoint oldest_from (stats : list domain_stat) (i best : nat) (best_seen : Z) : nat :=
  match stats with
  | [] => best
  | st :: stats' => if ds_last st <? best_seen then oldest_from stats' (S i) i (ds_last st) else oldest_from stats' (S i) best best_seen
  end.
Definition oldest (stats : list domain_stat) : nat :=
  match stats with [] => O | st :: stats' => oldest_from stats' 1 0 (ds_last st) end.

Definition add_to (connections uplink downlink now : Z) (st : domain_stat) : domain_stat :=
  mk_stat (ds_key st) (ds_hash st) (ds_identity st) (ds_count st + Z.max connections 0) (ds_up st + Z.max uplink 0)
    (ds_down st + Z.max downlink 0) (ds_first st) (Z.max (ds_last st) now) (ds_sequence st).

Definition with_stats (c : sb_agent_clash) (stats : list domain_stat) (sequence : Z) : sb_agent_clash :=
  mk_clash (ca_path c) (ca_sample c) (ca_observed c) stats sequence.
Definition with_observed (c : sb_agent_clash) (observed : list observed_connection) : sb_agent_clash :=
  mk_clash (ca_path c) (ca_sample c) observed (ca_stats c) (ca_sequence c).

Definition add_domain_route (c : sb_agent_clash) (identity : sbj) (route_key : bytes) (hash connections uplink downlink now : Z) : sb_agent_clash :=
  match find_stat (ca_stats c) route_key hash with
  | Some i => with_stats c (alter (add_to connections uplink downlink now) i (ca_stats c)) (ca_sequence c)
  | None =>
      let stats := if (1000 <=? length (ca_stats c))%nat then erase_stat (ca_stats c) (oldest (ca_stats c)) else ca_stats c in
      let fresh := mk_stat route_key hash (sbj_clone identity) 0 0 0 now now (ca_sequence c) in
      with_stats c (stats ++ [add_to connections uplink downlink now fresh]) (to_u64 (ca_sequence c + 1))
  end.

Definition subtract_from (o : observed_connection) (st : domain_stat) : domain_stat :=
  mk_stat (ds_key st) (ds_hash st) (ds_identity st) (Z.max (ds_count st - 1) 0) (Z.max (ds_up st - ob_up o) 0)
    (Z.max (ds_down st - ob_down o) 0) (ds_first st) (ds_last st) (ds_sequence st).

Definition subtract_domain_route (c : sb_agent_clash) (o : observed_connection) : sb_agent_clash :=
  match find_stat (ca_stats c) (ob_route o) (fnv1a (ob_route o)) with
  | None => c
  | Some i =>
      match ca_stats c !! i with
      | None => c
      | Some st =>
          let st := subtract_from o st in
          with_stats c (if (ds_count st =? 0) && (ds_up st =? 0) && (ds_down st =? 0) then erase_stat (ca_stats c) i else <[i := st]> (ca_stats c))
            (ca_sequence c)
      end
  end.

Definition string_field (value : option sbj) (field : string) : bytes :=
  match sbj_get value field with Some (SBJ_STRING s) => cstr s | _ => [] end.

Fixpoint drop_dots (s : bytes) : bytes := match s with c :: s' => if code c =? 46 then drop_dots s' else s | [] => [] end.

Definition or_else (a b : bytes) : bytes := match a with [] => b | _ => a end.

Definition route_domain (connection : sbj) : bytes :=
  let metadata := match sbj_get (Some connection) "metadata" with Some (SBJ_OBJECT m) => Some (SBJ_OBJECT m) | _ => None end in
  let domain := or_else (or_else (string_field metadata "host") (string_field metadata "destinationIP")) (bs "unknown") in
  take 512 (tolower <$> reverse (drop_dots (reverse domain))).

(** The first sixteen names of the chain, at most 256 bytes of each. *)
Definition route_chain (connection : sbj) : list bytes :=
  take 16 (arr_items (sbj_get (Some connection) "chains") ≫= fun tag => match tag with SBJ_STRING s => [take 256 s] | _ => [] end).

Definition route_rule (connection : sbj) : bytes :=
  let rule_value := string_field (Some connection) "rule" in
  let payload := string_field (Some connection) "rulePayload" in
  take 512 (match payload with [] => rule_value | _ => rule_value ++ (match rule_value with [] => [] | _ => bs ": " end) ++ payload end).

Fixpoint check_all (l : list bytes) : result unit :=
  match l with [] => Ok tt | s :: l' => _ ← check_utf8_complete s; check_all l' end.

Definition domain_route_identity (connection : sbj) : result sbj :=
  let domain := route_domain connection in
  let chain := route_chain connection in
  let outbound := cstr (default [] (last chain)) in
  let route_text := tolower <$> outbound in
  let outbound_type := if strstr route_text (bs "direct") then bs "direct" else match route_text with [] => [] | _ => bs "proxy" end in
  let rule := route_rule connection in
  let identity := sbj_set_str (sbj_set_str (sbj_set_str (sbj_set_str (SBJ_OBJECT []) "domain" domain) "outbound" outbound)
                    "outbound_type" outbound_type) "rule" rule in
  _ ← check_all (chain ++ [domain; rule]);
  Ok (sbj_set identity "chain" (SBJ_ARRAY (SBJ_STRING <$> chain))).

Definition nonnegative_connection_integer (connection : sbj) (field : string) : Z :=
  match sbj_get (Some connection) field with Some ((SBJ_INT _ | SBJ_UINT _) as v) => Z.max (as_int64 v) 0 | _ => 0 end.

Definition find_observed (observed : list observed_connection) (id : bytes) (hash : Z) : option nat :=
  fst <$> list_find (fun o => (ob_hash o =? hash) && bytes_eqb (ob_id o) id = true) observed.

Definition mark_seen (seen : bool) (o : observed_connection) : observed_connection :=
  mk_observed (ob_id o) (ob_hash o) (ob_route o) (ob_up o) (ob_down o) seen.

(** A connection whose route is known, with what it transferred since. *)
Definition account_connection (c : sb_agent_clash) (now : Z) (found : option nat) (id : bytes) (identity : sbj) (uplink downlink : Z) : sb_agent_clash :=
  let route_key := cstr (sbj_dump (Some identity) (-1)) in
  let key_hash := fnv1a route_key in
  match found with
  | None =>
      let c := add_domain_route c identity route_key key_hash 1 uplink downlink now in
      with_observed c (ca_observed c ++ [mk_observed id (fnv1a id) route_key uplink downlink true])
  | Some i =>
      match ca_observed c !! i with
      | None => c
      | Some o =>
          if negb (bytes_eqb (ob_route o) route_key) then
            let c := add_domain_route (subtract_domain_route c o) identity route_key key_hash 1 uplink downlink now in
            with_observed c (<[i := mk_observed (ob_id o) (ob_hash o) route_key uplink downlink (ob_seen o)]> (ca_observed c))
          else
            let c := add_domain_route c identity route_key key_hash 0 (Z.max (uplink - ob_up o) 0) (Z.max (downlink - ob_down o) 0) now in
            with_observed c (<[i := mk_observed (ob_id o) (ob_hash o) (ob_route o) (Z.max (ob_up o) uplink) (Z.max (ob_down o) downlink) (ob_seen o)]>
              (ca_observed c))
      end
  end.

(** One connection of an answer; an error leaves what was done. *)
Definition update_connection (c : sb_agent_clash) (now : Z) (connection : sbj) : sb_agent_clash * option sb_err :=
  match connection, sbj_get (Some connection) "id" with
  | SBJ_OBJECT _, Some (SBJ_STRING ((_ :: _) as raw)) =>
      let id := cstr raw in
      let found := find_observed (ca_observed c) id (fnv1a id) in
      let c := match found with Some i => with_observed c (alter (mark_seen true) i (ca_observed c)) | None => c end in
      match domain_route_identity connection with
      | Err e => (c, Some e)
      | Ok identity =>
          (account_connection c now found id identity (nonnegative_connection_integer connection "upload")
             (nonnegative_connection_integer connection "download"), None)
      end
  | _, _ => (c, None)
  end.

Fixpoint update_connections (c : sb_agent_clash) (now : Z) (connections : list sbj) : sb_agent_clash * option sb_err :=
  match connections with
  | [] => (c, None)
  | x :: l => match update_connection c now x with (c, None) => update_connections c now l | r => r end
  end.

(** [compare_stats]: more connections first, then more bytes, then the older entry. *)
Definition stat_le (a b : domain_stat) : bool :=
  if negb (ds_count a =? ds_count b) then ds_count b <? ds_count a
  else
    let ta := ds_up a + ds_down a in
    let tb := ds_up b + ds_down b in
    if negb (ta =? tb) then tb <? ta else ds_sequence a <=? ds_sequence b.

Definition stat_json (st : domain_stat) : sbj :=
  sbj_set_int (sbj_set_int (sbj_set_int (sbj_set_int (sbj_set_int (sbj_clone (ds_identity st)) "connection_count" (ds_count st))
    "uplink_total" (ds_up st)) "downlink_total" (ds_down st)) "first_seen" (ds_first st)) "last_seen" (ds_last st).

Definition update_domain_route_stats (c : sb_agent_clash) (now : Z) (connections : sbj) : sb_agent_clash * result sbj :=
  match connections with
  | SBJ_ARRAY l =>
      match update_connections (with_observed c (mark_seen false <$> ca_observed c)) now l with
      | (c, Some e) => (c, Err e)
      | (c, None) =>
          (with_observed c (List.filter ob_seen (ca_observed c)), Ok (SBJ_ARRAY (stat_json <$> order_by stat_le (ca_stats c))))
      end
  | _ => (with_observed c [], Ok (SBJ_ARRAY []))
  end.

(** ** The installed configuration *)

(** What reading a file gives: not opened, an error, or the contents. *)
Inductive stream := NotOpened | ReadFailed (e : errno) | Contents (text : bytes).

Section Files.
Context {T K : Type} (env : sys_env K).

Abbreviation sys := (sql T (system K)).

Definition sys_open (path : bytes) : sys (option errno) :=
  sys_call env Some (fun _ s => (match sy_files s !! path with Some _ => None | None => Some ENOENT end, s)).

(** The reads up to the end of an open file; a directory opens and is not read. *)
Definition sys_read (path : bytes) : sys (bytes + errno) :=
  sys_call env inr (fun _ s => (match sy_files s !! path with Some (Regular f) => inl (f_data f) | _ => inr EISDIR end, s)).

Definition read_stream (path : bytes) : sys stream :=
  opened ← sys_open path;
  match opened with
  | Some _ => mret NotOpened
  | None => r ← sys_read path; mret (match r with inl text => Contents text | inr e => ReadFailed e end)
  end.

Definition skip_bom (text : bytes) : bytes :=
  if bytes_eqb (take 3 text) [chr 239; chr 187; chr 191] then drop 3 text else text.

(** [json::parse] without exceptions. *)
Definition parse_json_lenient (text : bytes) : option sbj := match skip_bom text with [] => None | t => sbj_parse t end.

Definition underflow {A} (code : sb_code) (e : errno) : result A :=
  sb_fail code (bs "basic_filebuf::underflow error reading the file: " ++ strerror env e).

Definition read_config (path : bytes) : sys sbj :=
  r ← read_stream path;
  pure (match r with
        | NotOpened => sb_fail SB_ERR_GENERIC (bs "cannot read sing-box config: " ++ path)
        | ReadFailed e => underflow SB_ERR_GENERIC e
        | Contents text =>
            match parse_json_lenient text with
            | Some (SBJ_OBJECT m) => Ok (SBJ_OBJECT m)
            | _ => sb_fail SB_ERR_GENERIC (bs "sing-box config is not a JSON object: " ++ path)
            end
        end).
End Files.

Definition local_controller : bytes := bs "127.0.0.1:9090".

(** The address of the controller; none without one unless there is a default. *)
Definition controller_address (use_default_controller : bool) (clash_api : option sbj) : option bytes :=
  match sbj_get clash_api "external_controller" with
  | Some (SBJ_STRING s) => match cstr s with [] => if use_default_controller then Some local_controller else None | a => Some a end
  | _ => if use_default_controller then Some local_controller else None
  end.

Definition controller_url (address : bytes) : bytes :=
  let address := replace_all (replace_all address (bs "0.0.0.0") (bs "127.0.0.1")) (bs "[::]") (bs "127.0.0.1") in
  let address := if sb_starts_with address (bs "http://") || sb_starts_with address (bs "https://") then address else bs "http://" ++ address in
  reverse (drop_slashes (reverse address)).

Definition target_of (use_default_controller : bool) (config : sbj) : option sb_clash_target :=
  let clash_api := sbj_get (sbj_get (Some config) "experimental") "clash_api" in
  match controller_address use_default_controller clash_api with
  | None => None
  | Some address => Some (mk_clash_target (Some (controller_url address)) (Some (string_field clash_api "secret")))
  end.

Definition successful (r : sb_clash_response) : bool := (200 <=? cx_status r) && (cx_status r <? 300).

Definition response_error (r : sb_clash_response) : bytes :=
  let text field := match sbj_get (Some (cx_body r)) field with Some (SBJ_STRING ((_ :: _) as s)) => Some (cstr s) | _ => None end in
  match text "message", text "error" with
  | Some m, _ => m
  | None, Some m => m
  | None, None => bs "HTTP " ++ fmt_int (cx_status r)
  end.

Definition integer_or_zero (body : sbj) (field : string) : Z :=
  match sbj_get (Some body) field with Some ((SBJ_INT _ | SBJ_UINT _) as v) => as_int64 v | _ => 0 end.

(** ** Latency tests *)

Definition skipped_types : list string :=
  ["Selector"; "URLTest"; "Fallback"; "LoadBalance"; "Direct"; "Reject"; "Compatible"; "Pass"; "Dns"; "Block"; "Loopback"]%string.
Definition skipped_type (type : option sbj) : bool := existsb (sbj_string_is type) skipped_types.

Definition contains_tag (tags : sbj) (name : bytes) : bool :=
  existsb (fun tag => match tag with SBJ_STRING s => bytes_eqb s name | _ => false end) (arr_items (Some tags)).

(** The nodes to test: neither groups nor built in, and asked for. *)
Fixpoint testable (tags : option sbj) (proxies : list (bytes * sbj)) (names : sbj) : result sbj :=
  match proxies with
  | [] => Ok names
  | (name, proxy) :: rest =>
      let object := sbj_is_object (Some proxy) in
      _ ← (if object then value_text (Some proxy) "type" [] else Ok []);
      let wanted := negb (object && sbj_has (Some proxy) "all") && negb (skipped_type (sbj_get (Some proxy) "type")) &&
                    match tags with None => true | Some t => contains_tag t name end in
      testable tags rest (if wanted then sbj_setn names name (Some (SBJ_BOOL true)) else names)
  end.

Definition delay_query : bytes := bs "/delay?url=" ++ encode_component_n (bs "https://www.gstatic.com/generate_204") ++ bs "&timeout=5000".
Definition delay_path (name : bytes) : bytes := bs "/proxies/" ++ encode_component_n name ++ delay_query.

(** An unreachable node is measured as null. *)
Definition latency_of (r : result sb_clash_response) : sbj :=
  match r with
  | Ok d =>
      if successful d then
        match sbj_get (Some (cx_body d)) "delay" with Some v => if sbj_is_number (Some v) then sbj_clone v else SBJ_NULL | None => SBJ_NULL end
      else SBJ_NULL
  | Err _ => SBJ_NULL
  end.

(** Clocks and sockets.  [ch_connect]: the local proxy is not resolved, not
    connected, or connected; [ch_port]: the port of the connection's own end. *)
Inductive connect_answer := NotResolved | NotConnected | Connected.
Inductive port_answer := PortUnknown | OtherFamily | LocalPort (port : Z).
Record clash_env := mk_clash_env {
  ch_client : client_env; ch_realtime : nat -> Z; ch_monotonic_ns : nat -> Z;
  ch_connect : nat -> bytes -> Z -> connect_answer; ch_port : nat -> port_answer; ch_send : nat -> nat -> Z }.

Section Service.
Context {T K : Type} (env : sys_env K) (ch : clash_env).

Abbreviation sys := (sql T (system K)).

Definition read_target (path : bytes) (use_default_controller : bool) : sys (option sb_clash_target) :=
  config ← read_config env path;
  mret (target_of use_default_controller config).

(** With the default there is a target. *)
Definition read_target_default (path : bytes) : sys sb_clash_target :=
  t ← read_target path true;
  mret (default (mk_clash_target None None) t).

Fixpoint test_names (target : sb_clash_target) (reporter : sbj -> sys unit) (names : list (bytes * sbj)) (count : Z) : sys Z :=
  match names with
  | [] => mret count
  | (name, _) :: rest =>
      delay ← attempt (sb_clash_get (ch_client ch) clash_options target (delay_path name));
      _ ← reporter (sbj_setn (SBJ_OBJECT []) name (Some (latency_of delay)));
      test_names target reporter rest (count + 1)
  end.

Definition sb_agent_clash_test_proxies (path : bytes) (tags : option sbj) (reporter : sbj -> sys unit) : sys Z :=
  target ← read_target_default path;
  response ← sb_clash_get (ch_client ch) clash_options target (bs "/proxies");
  if negb (successful response) then pure (sb_fail SB_ERR_GENERIC (bs "Clash proxy list returned HTTP " ++ fmt_int (cx_status response)))
  else
    match sbj_get (Some (cx_body response)) "proxies" with
    | Some (SBJ_OBJECT proxies) =>
        names ← pure (testable tags proxies (SBJ_OBJECT []));
        test_names target reporter (obj_members (Some names)) 0
    | _ => mret 0
    end.

(** ** Nodes *)

Definition sb_agent_clash_proxies (path : bytes) : sys sbj :=
  target ← read_target_default path;
  response ← sb_clash_get (ch_client ch) clash_options target (bs "/proxies");
  pure (if negb (successful response) then sb_fail SB_ERR_GENERIC (bs "读取本地代理组失败：" ++ response_error response)
        else if negb (sbj_is_object (Some (cx_body response))) || negb (sbj_is_object (sbj_get (Some (cx_body response)) "proxies"))
        then sb_fail SB_ERR_GENERIC (bs "本地 Clash API 返回了无效的代理组数据")
        else Ok (cx_body response)).

Definition sb_agent_clash_select_proxy_n (path group proxy : bytes) : sys sbj :=
  if bytes_eqb group [] || bytes_eqb proxy [] then pure (sb_fail SB_ERR_VALIDATION (bs "策略组和节点名称不能为空"))
  else
    target ← read_target_default path;
    response ← sb_clash_put (ch_client ch) clash_options target (bs "/proxies/" ++ encode_component_n group)
                 (Some (sbj_set (SBJ_OBJECT []) "name" (SBJ_STRING proxy)));
    pure (if negb (successful response) then sb_fail SB_ERR_GENERIC (bs "切换节点失败：" ++ response_error response)
          else Ok (sbj_set (sbj_set (sbj_set_bool (SBJ_OBJECT []) "success" true) "group" (SBJ_STRING group)) "name" (SBJ_STRING proxy))).
End Service.

(** ** Telemetry *)

Definition double_div (a b : double) : double := SFdiv 53 1024 a b.

(** Bytes in a second, over the [ns] nanoseconds since the last sample. *)
Definition rate (ns delta : Z) : Z :=
  let elapsed := double_div (double_of_Z ns) (double_of_Z 1000000000) in
  let least := double_div (double_of_Z 1) (double_of_Z 1000) in
  let elapsed := if SFltb elapsed least then least else elapsed in
  double_to_int64 (double_div (double_of_Z (Z.max delta 0)) elapsed).

Definition telemetry_of (up down up_total down_total : Z) (connections domain_stats : sbj) : sbj :=
  sbj_set (sbj_set (sbj_set (sbj_set_int (sbj_set_int (sbj_set_int (sbj_set_int (sbj_set_int (SBJ_OBJECT []) "up" up) "down" down)
    "up_total" up_total) "down_total" down_total) "conn_count" (Z.of_nat (sbj_arr_len (Some connections))))
    "connections" connections) "domain_stats" domain_stats) "logs" (SBJ_ARRAY []).

(** What the service makes of an answer at the time [ns]; [now] is the wall clock. *)
Definition sample_connections (c : sb_agent_clash) (ns now : Z) (body : sbj) : sb_agent_clash * result sbj :=
  let upload_total := integer_or_zero body "uploadTotal" in
  let download_total := integer_or_zero body "downloadTotal" in
  let '(up, down) :=
    match ca_sample c with
    | Some (last_up, last_down, last_ns) => (rate (ns - last_ns) (upload_total - last_up), rate (ns - last_ns) (download_total - last_down))
    | None => (0, 0)
    end in
  let c := mk_clash (ca_path c) (Some (upload_total, download_total, ns)) (ca_observed c) (ca_stats c) (ca_sequence c) in
  let connections := default (SBJ_ARRAY []) (sbj_clone <$> sbj_get (Some body) "connections") in
  let (c, stats) := update_domain_route_stats c now connections in
  (c, match stats with Ok domain_stats => Ok (telemetry_of up down upload_total download_total connections domain_stats) | Err e => Err e end).

Section Telemetry.
Context {K : Type} (env : sys_env K) (ch : clash_env).

Abbreviation clash := (sql sb_agent_clash (system K)).

Definition get_clash : clash sb_agent_clash := fun s => (Ok (db s), s).
Definition set_clash (c : sb_agent_clash) : clash unit := fun s => (Ok tt, mk_conn c (mem s) (asked s)).

(** Nothing without a controller in the configuration. *)
Definition sb_agent_clash_sample_telemetry : clash (option sbj) :=
  c ← get_clash;
  target ← read_target env (ca_path c) false;
  match target with
  | None => mret None
  | Some target =>
      response ← sb_clash_get (ch_client ch) clash_options target (bs "/connections");
      if negb (successful response) then pure (sb_fail SB_ERR_GENERIC (bs "Clash connections returned HTTP " ++ fmt_int (cx_status response)))
      else
        ns ← ask (ch_monotonic_ns ch);
        now ← ask (ch_realtime ch);
        c ← get_clash;
        let (c, r) := sample_connections c ns now (cx_body response) in
        _ ← set_clash c;
        pure (match r with Ok telemetry => Ok (Some telemetry) | Err e => Err e end)
  end.
End Telemetry.

(** ** Route tests *)

Record url_target := mk_url_target { ut_url : bytes; ut_host : bytes; ut_port : Z }.
Record local_proxy := mk_local_proxy { lp_host : bytes; lp_port : Z }.

Definition bad_url {A} (msg : string) : result A := sb_fail SB_ERR_VALIDATION (bs msg).

(** The host and the port of an authority; [port] is that of the scheme. *)
Definition parse_authority (authority : bytes) (port : Z) : result (bytes * Z) :=
  match authority with
  | c :: tail =>
      if code c =? 91 then
        match split_at (chr 93) tail with
        | None => bad_url "URL IPv6 主机名无效"
        | Some (host, []) => Ok (host, port)
        | Some (host, d :: text) =>
            if negb (code d =? 58) then bad_url "URL 主机名无效"
            else match parse_port_text text with Some p => Ok (host, p) | None => bad_url "URL 端口无效" end
        end
      else
        match split_at (chr 58) authority with
        | Some (host, text) =>
            if has_byte 58 text then Ok (authority, port)
            else match parse_port_text text with Some p => Ok (host, p) | None => bad_url "URL 端口无效" end
        | None => Ok (authority, port)
        end
  | [] => Ok ([], port)
  end.

Definition authority_end (c : ascii) : bool := (code c =? 47) || (code c =? 63) || (code c =? 35).
Definition c_cntrl (c : ascii) : bool := (code c <? 32) || (code c =? 127).

Definition parse_route_url (input : bytes) : result url_target :=
  match sb_trim_dup input with
  | [] => bad_url "请输入要测试的 URL"
  | trimmed =>
      let value := if strstr trimmed (bs "://") then trimmed else bs "https://" ++ trimmed in
      match cut_text (bs "://") value with
      | None => bad_url "只支持 http:// 或 https:// URL"
      | Some (scheme, rest) =>
          let scheme := tolower <$> scheme in
          let https := bytes_eqb scheme (bs "https") in
          if negb https && negb (bytes_eqb scheme (bs "http")) then bad_url "只支持 http:// 或 https:// URL"
          else
            let authority := fst (span_until authority_end rest) in
            if bytes_eqb authority [] || has_byte 64 authority || existsb (fun c => c_cntrl c || isspace c) authority
            then bad_url "URL 主机名无效"
            else
              '(host, port) ← parse_authority authority (if https then 443 else 80);
              if bytes_eqb host [] then bad_url "URL 主机名无效" else Ok (mk_url_target value host port)
      end
  end.

Definition local_listen (listen : bytes) : bytes :=
  if bytes_eqb listen [] || bytes_eqb listen (bs "0.0.0.0") then bs "127.0.0.1"
  else if bytes_eqb listen (bs "::") || bytes_eqb listen (bs "[::]") then bs "::1" else listen.

Fixpoint first_proxy (inbounds : list sbj) : result local_proxy :=
  match inbounds with
  | [] => sb_fail SB_ERR_GENERIC (bs "当前配置需要 mixed 或 http 入站才能执行真实路由测试")
  | inbound :: rest =>
      if negb (sbj_is_object (Some inbound)) then first_proxy rest
      else
        type ← value_text (Some inbound) "type" [];
        if negb (bytes_eqb type (bs "mixed")) && negb (bytes_eqb type (bs "http")) then first_proxy rest
        else
          match sbj_get (Some inbound) "listen_port" with
          | Some ((SBJ_INT _ | SBJ_UINT _) as port) =>
              let number := as_uint32 port in
              if (number =? 0) || (65535 <? number) then first_proxy rest
              else listen ← value_text (Some inbound) "listen" (bs "127.0.0.1"); Ok (mk_local_proxy (local_listen listen) number)
          | _ => first_proxy rest
          end
  end.

Definition read_local_proxy (config : sbj) : result local_proxy :=
  match sbj_get (Some config) "inbounds" with
  | Some (SBJ_ARRAY l) => first_proxy l
  | _ => sb_fail SB_ERR_GENERIC (bs "当前配置没有可用于测试的 HTTP/mixed 入站")
  end.

Definition metadata_matches_port (metadata : option sbj) (port : Z) : bool :=
  match sbj_get metadata "sourcePort" with
  | Some (SBJ_UINT u) => to_u32 u =? port
  | Some (SBJ_INT i) => (0 <=? i) && (to_u32 i =? port)
  | Some (SBJ_STRING s) => match parse_port_text s with Some p => p =? port | None => false end
  | _ => false
  end.

Definition find_connection (response : sbj) (port : Z) : option sbj :=
  match sbj_get (Some response) "connections" with
  | Some (SBJ_ARRAY l) =>
      List.find (fun x => sbj_is_object (Some x) && sbj_is_object (sbj_get (Some x) "metadata") &&
                          metadata_matches_port (sbj_get (Some x) "metadata") port) l
  | _ => None
  end.

Definition route_kind (outbound : bytes) : bytes :=
  let normalized := tolower <$> outbound in
  if bytes_eqb normalized (bs "direct") then bs "direct"
  else if bytes_eqb normalized (bs "block") || bytes_eqb normalized (bs "reject") then bs "block"
  else match outbound with [] => bs "unknown" | _ => bs "proxy" end.

Definition route_result (target : url_target) (connection : sbj) : result sbj :=
  let chains := match sbj_get (Some connection) "chains" with Some (SBJ_ARRAY l) => sbj_clone (SBJ_ARRAY l) | _ => SBJ_ARRAY [] end in
  let outbound := match sbj_arr_at (Some chains) 0 with Some (SBJ_STRING s) => cstr s | _ => [] end in
  rule ← value_text (Some connection) "rule" [];
  rule_payload ← value_text (Some connection) "rulePayload" [];
  Ok (sbj_set (sbj_set_str (sbj_set_str (sbj_set_str (sbj_set_str (sbj_set_int (sbj_set_str (sbj_set_str
        (sbj_set_bool (SBJ_OBJECT []) "success" true) "url" (ut_url target)) "host" (ut_host target)) "port" (ut_port target))
        "kind" (route_kind outbound)) "outbound" outbound) "rule" rule) "rule_payload" rule_payload) "chains" chains).

Definition connect_request (target : url_target) : bytes :=
  let authority := (if has_byte 58 (ut_host target) then bs "[" ++ ut_host target ++ bs "]" else ut_host target) ++ bs ":" ++ fmt_int (ut_port target) in
  let line s := s ++ [chr 13; chr 10] in
  line (bs "CONNECT " ++ authority ++ bs " HTTP/1.1") ++ line (bs "Host: " ++ authority) ++
  line (bs "User-Agent: sb-easy-route-test/1.0") ++ line (bs "Proxy-Connection: keep-alive") ++ line [].

Section RouteTest.
Context {T K : Type} (env : sys_env K) (ch : clash_env).

Abbreviation sys := (sql T (system K)).

Definition connect_local_proxy (proxy : local_proxy) : sys unit :=
  answer ← ask (fun n => ch_connect ch n (lp_host proxy) (lp_port proxy));
  pure (match answer with
        | NotResolved => sb_fail SB_ERR_GENERIC (bs "无法解析本地代理入口")
        | NotConnected => sb_fail SB_ERR_GENERIC (bs "无法连接当前配置的本地代理入口")
        | Connected => Ok tt
        end).

Definition source_port : sys Z :=
  answer ← ask (ch_port ch);
  pure (match answer with
        | PortUnknown => sb_fail SB_ERR_GENERIC (bs "无法读取测试连接源端口")
        | OtherFamily => sb_fail SB_ERR_GENERIC (bs "测试连接使用了不支持的地址类型")
        | LocalPort port => Ok port
        end).

(** Every round sends a byte at least: the fuel is the length. *)
Fixpoint send_all (fuel : nat) (value : bytes) : sys unit :=
  match fuel, value with
  | S fuel', _ :: _ =>
      count ← ask (fun n => ch_send ch n (length value));
      if count <=? 0 then pure (sb_fail SB_ERR_GENERIC (bs "无法向本地代理发送测试请求")) else send_all fuel' (drop (Z.to_nat count) value)
  | _, _ => mret tt
  end.

Definition route_options : sb_clash_client_options := mk_clash_options 2000 (8 * 1024 * 1024).

Fixpoint find_route (attempts : nat) (target : sb_clash_target) (destination : url_target) (port : Z) : sys sbj :=
  match attempts with
  | O => pure (sb_fail SB_ERR_GENERIC (bs "未能在 Clash API 中找到测试连接；目标可能不可达或被规则拒绝"))
  | S attempts' =>
      response ← sb_clash_get (ch_client ch) route_options target (bs "/connections");
      if negb (successful response) then pure (sb_fail SB_ERR_GENERIC (bs "Clash connections returned HTTP " ++ fmt_int (cx_status response)))
      else
        match find_connection (cx_body response) port with
        | Some connection => pure (route_result destination connection)
        | None => find_route attempts' target destination port
        end
  end.

Definition sb_agent_clash_test_route (path url : bytes) : sys sbj :=
  destination ← pure (parse_route_url url);
  config ← read_config env path;
  proxy ← pure (read_local_proxy config);
  target ← read_target_default env path;
  _ ← connect_local_proxy proxy;
  port ← source_port;
  _ ← send_all (length (connect_request destination)) (connect_request destination);
  find_route 50 target destination port.
End RouteTest.

(** * Theorems *)

(** ** Lists with one entry changed *)

Section Entries.
Context {A : Type} (f : A -> Z).

Lemma zsum_split (l : list A) i x : l !! i = Some x -> zsum f l = zsum f (take i l) + f x + zsum f (drop (S i) l).
Proof. intros H. rewrite <- (take_drop_middle l i x H) at 1. rewrite zsum_app. cbn. lia. Qed.

Lemma zsum_insert (l : list A) i x y : l !! i = Some x -> zsum f (<[i := y]> l) = zsum f l - f x + f y.
Proof.
  intros H. pose proof (lookup_lt_Some _ _ _ H). rewrite (zsum_split l i x H). rewrite insert_take_drop by done. rewrite zsum_app. cbn. lia.
Qed.

Lemma zsum_erase (l : list A) i x : l !! i = Some x -> zsum f (take i l ++ drop (S i) l) = zsum f l - f x.
Proof. intros H. rewrite (zsum_split l i x H), zsum_app. lia. Qed.
End Entries.

Lemma erase_sublist {A} (l : list A) i : take i l ++ drop (S i) l `sublist_of` l.
Proof.
  destruct (l !! i) as [x|] eqn:E.
  - rewrite <- (take_drop_middle l i x E) at 3. apply sublist_app; [done|]. by constructor.
  - apply lookup_ge_None in E. rewrite take_ge, drop_ge by lia. by rewrite app_nil_r.
Qed.

Lemma sublist_keys {A B} (f : A -> B) (l k : list A) : l `sublist_of` k -> (f <$> l) `sublist_of` (f <$> k).
Proof. induction 1; cbn; by constructor. Qed.

Lemma Forall_sublist' {A} (P : A -> Prop) (l k : list A) : l `sublist_of` k -> Forall P k -> Forall P l.
Proof. intros S F. apply Forall_forall. intros x X. rewrite Forall_forall in F. apply F. by eapply elem_of_sublist. Qed.

Lemma fmap_insert_same {A B} (f : A -> B) (l : list A) i x y : l !! i = Some x -> f y = f x -> f <$> <[i := y]> l = f <$> l.
Proof. intros H E. rewrite list_fmap_insert. apply list_insert_id. by rewrite list_lookup_fmap, H, E. Qed.

Lemma alter_insert {A} (f : A -> A) (l : list A) i x : l !! i = Some x -> alter f i l = <[i := f x]> l.
Proof. intros H. apply list_eq. intros j. destruct (decide (i = j)) as [->|N].
  - rewrite list_lookup_alter_eq, H. rewrite list_lookup_insert_eq; [done|]. by eapply lookup_lt_Some.
  - by rewrite list_lookup_alter_ne, list_lookup_insert_ne. Qed.

(** ** The statistics *)

Record stat_ok (st : domain_stat) : Prop := {
  so_hash : ds_hash st = fnv1a (ds_key st);
  so_count : 0 <= ds_count st; so_up : 0 <= ds_up st; so_down : 0 <= ds_down st; so_times : ds_first st <= ds_last st }.

Record stats_ok (stats : list domain_stat) : Prop := {
  sts_size : (length stats <= 1000)%nat;
  sts_keys : NoDup (ds_key <$> stats);
  sts_all : Forall stat_ok stats }.

Record observed_ok (observed : list observed_connection) : Prop := {
  obs_ids : NoDup (ob_id <$> observed);
  obs_all : Forall (fun o => ob_hash o = fnv1a (ob_id o) /\ 0 <= ob_up o /\ 0 <= ob_down o) observed }.

Lemma find_stat_some stats key i : find_stat stats key (fnv1a key) = Some i -> exists st, stats !! i = Some st /\ ds_key st = key.
Proof.
  unfold find_stat. destruct (list_find _ _) as [[j st]|] eqn:E; cbn; [|done]. intros [= <-]. apply list_find_Some in E as (L & H & _).
  exists st. split; [done|]. apply andb_true_iff in H as [_ H]. by apply bytes_eqb_eq.
Qed.

Lemma find_stat_none stats key : Forall stat_ok stats -> find_stat stats key (fnv1a key) = None -> key ∉ ds_key <$> stats.
Proof.
  unfold find_stat. intros F. destruct (list_find _ _) as [[j st]|] eqn:E; cbn; [done|]. intros _ (st & -> & X)%list_elem_of_fmap.
  apply list_find_None in E. rewrite Forall_forall in E, F. apply (E st X). destruct (F st X) as [-> _ _ _ _]. by rewrite Z.eqb_refl, bytes_eqb_refl.
Qed.

Lemma find_observed_some observed id i : find_observed observed id (fnv1a id) = Some i -> exists o, observed !! i = Some o /\ ob_id o = id.
Proof.
  unfold find_observed. destruct (list_find _ _) as [[j o]|] eqn:E; cbn; [|done]. intros [= <-]. apply list_find_Some in E as (L & H & _).
  exists o. split; [done|]. apply andb_true_iff in H as [_ H]. by apply bytes_eqb_eq.
Qed.

Lemma find_observed_none observed id : observed_ok observed -> find_observed observed id (fnv1a id) = None -> id ∉ ob_id <$> observed.
Proof.
  unfold find_observed. intros [_ F]. destruct (list_find _ _) as [[j o]|] eqn:E; cbn; [done|]. intros _ (o & -> & X)%list_elem_of_fmap.
  apply list_find_None in E. rewrite Forall_forall in E, F. apply (E o X). destruct (F o X) as [-> _]. by rewrite Z.eqb_refl, bytes_eqb_refl.
Qed.

Lemma oldest_from_lt stats i best seen : (best < i)%nat -> (oldest_from stats i best seen < i + length stats)%nat.
Proof.
  revert i best seen. induction stats as [|st stats IH]; intros i best seen H; cbn [oldest_from length]; [lia|].
  destruct (_ <? _); [specialize (IH (S i) i (ds_last st))|specialize (IH (S i) best seen)]; lia.
Qed.

Lemma oldest_lt stats : stats <> [] -> (oldest stats < length stats)%nat.
Proof. destruct stats as [|st stats]; [done|]. intros _. cbn [oldest length]. pose proof (oldest_from_lt stats 1 0 (ds_last st)). lia. Qed.

Lemma length_erase stats i : (i < length stats)%nat -> length (erase_stat stats i) = pred (length stats).
Proof. intros H. unfold erase_stat. rewrite length_app, length_take, length_drop. lia. Qed.

Lemma stats_erase stats i : stats_ok stats -> stats_ok (erase_stat stats i).
Proof.
  intros [S N F]. pose proof (erase_sublist stats i) as L. split.
  - apply sublist_length in L. unfold erase_stat. lia.
  - eapply sublist_NoDup; [done|]. by apply sublist_keys.
  - by eapply Forall_sublist'.
Qed.

Lemma stats_insert stats i st st' : stats_ok stats -> stats !! i = Some st -> ds_key st' = ds_key st -> stat_ok st' -> stats_ok (<[i := st']> stats).
Proof.
  intros [S N F] L K O. split; [by rewrite length_insert|by erewrite fmap_insert_same|by apply Forall_insert].
Qed.

Lemma add_to_ok connections uplink downlink now st : stat_ok st -> stat_ok (add_to connections uplink downlink now st).
Proof. intros []. split; cbn; try done; lia. Qed.

Record clash_ok (c : sb_agent_clash) : Prop := { ok_stats : stats_ok (ca_stats c); ok_observed : observed_ok (ca_observed c) }.

(** The connections counted, over all routes and for one. *)
Definition total_count (c : sb_agent_clash) : Z := zsum ds_count (ca_stats c).
Definition count_at (key : bytes) (st : domain_stat) : Z := if bytes_eqb (ds_key st) key then ds_count st else 0.
Definition counted (key : bytes) (c : sb_agent_clash) : Z := zsum (count_at key) (ca_stats c).

Lemma add_ok c identity key connections uplink downlink now :
  clash_ok c -> clash_ok (add_domain_route c identity key (fnv1a key) connections uplink downlink now).
Proof.
  intros [S O]. unfold add_domain_route. destruct (find_stat _ _ _) as [i|] eqn:F.
  - apply find_stat_some in F as (st & L & K). split; [|done]. cbn. rewrite (alter_insert _ _ _ _ L).
    apply (stats_insert _ _ st); try done. apply add_to_ok. destruct S as [_ _ A]. rewrite Forall_lookup in A. by eapply A.
  - apply find_stat_none in F; [|by destruct S]. split; [|done]. cbv zeta. cbn [ca_stats with_stats].
    set (stats := if (1000 <=? length (ca_stats c))%nat then erase_stat (ca_stats c) (oldest (ca_stats c)) else ca_stats c).
    assert (stats_ok stats /\ (length stats < 1000)%nat /\ key ∉ ds_key <$> stats) as ([S1 S2 S3] & Len & N).
    { subst stats. destruct (1000 <=? length (ca_stats c))%nat eqn:E; [|split_and!; [done|apply Nat.leb_gt in E; lia|done]].
      apply Nat.leb_le in E. split_and!; [by apply stats_erase| |].
      - destruct S as [S _ _]. rewrite length_erase; [lia|]. apply oldest_lt. intros X. rewrite X in E. cbn in E. lia.
      - intros X. apply F. eapply elem_of_sublist; [exact X|]. apply sublist_keys, erase_sublist. }
    split.
    + rewrite length_app. cbn. lia.
    + rewrite fmap_app. apply NoDup_app. split_and!; [done| |apply NoDup_singleton]. cbn. intros x X ->%list_elem_of_singleton. done.
    + apply Forall_app_2; [done|]. constructor; [|done]. apply add_to_ok. by split.
Qed.

Lemma add_observed c identity key hash connections uplink downlink now :
  ca_observed (add_domain_route c identity key hash connections uplink downlink now) = ca_observed c.
Proof. unfold add_domain_route. by destruct (find_stat _ _ _). Qed.

Lemma add_counts c identity key connections uplink downlink now :
  0 <= connections -> (length (ca_stats c) < 1000)%nat ->
  let c' := add_domain_route c identity key (fnv1a key) connections uplink downlink now in
  total_count c' = total_count c + connections /\
  (forall k, counted k c' = counted k c + (if bytes_eqb key k then connections else 0)) /\ (length (ca_stats c') <= S (length (ca_stats c)))%nat.
Proof.
  intros N Len. unfold add_domain_route. destruct (find_stat _ _ _) as [i|] eqn:F; cbv zeta.
  - apply find_stat_some in F as (st & L & <-). unfold total_count, counted. cbn [ca_stats with_stats]. rewrite (alter_insert _ _ _ _ L). split_and!.
    + rewrite (zsum_insert _ _ _ _ _ L). cbn. lia.
    + intros k. rewrite (zsum_insert _ _ _ _ _ L). unfold count_at. cbn. destruct (bytes_eqb _ k); lia.
    + rewrite length_insert. lia.
  - rewrite (proj2 (Nat.leb_gt 1000 _)) by done. unfold total_count, counted. cbn. rewrite length_app. split_and!; [|intros k|cbn; lia]; rewrite zsum_app; cbn.
    + lia.
    + unfold count_at at 2. cbn. destruct (bytes_eqb key k); lia.
Qed.

Lemma subtract_ok c o : clash_ok c -> clash_ok (subtract_domain_route c o).
Proof.
  intros [S O]. unfold subtract_domain_route. destruct (find_stat _ _ _) as [i|] eqn:F; [|done].
  apply find_stat_some in F as (st & L & K). rewrite L. split; [|done]. cbn. destruct (_ && _); [by apply stats_erase|].
  apply (stats_insert _ _ st); try done. destruct S as [_ _ A]. rewrite Forall_lookup in A. destruct (A _ _ L). split; cbn; try done; lia.
Qed.

Lemma subtract_observed c o : ca_observed (subtract_domain_route c o) = ca_observed c.
Proof. unfold subtract_domain_route. destruct (find_stat _ _ _) as [i|]; [|done]. by destruct (_ !! _). Qed.

(** One entry per route: the count of a route is that of its entry. *)
Lemma counted_entry stats i st : NoDup (ds_key <$> stats) -> stats !! i = Some st -> zsum (count_at (ds_key st)) stats = ds_count st.
Proof.
  intros N L. assert (Z0 : forall l, ds_key st ∉ ds_key <$> l -> zsum (count_at (ds_key st)) l = 0).
  { induction l as [|x l IH]; [done|]. cbn. rewrite not_elem_of_cons. intros [A B]. rewrite IH by done. unfold count_at.
    rewrite (proj2 (bytes_eqb_neq _ _)); [done|]. congruence. }
  rewrite (zsum_split _ _ _ _ L). rewrite <- (take_drop_middle _ _ _ L), fmap_app, fmap_cons in N.
  apply NoDup_app in N as (_ & N1 & N2). apply NoDup_cons in N2 as [N2 _]. rewrite !Z0; [unfold count_at; rewrite bytes_eqb_refl; lia|done|].
  intros X. apply (N1 _ X). left.
Qed.

Lemma counted_none key stats : key ∉ ds_key <$> stats -> zsum (count_at key) stats = 0.
Proof.
  induction stats as [|x l IH]; [done|]. cbn. rewrite not_elem_of_cons. intros [A B]. rewrite IH by done. unfold count_at.
  rewrite (proj2 (bytes_eqb_neq _ _)); [done|]. congruence.
Qed.

Lemma subtract_counts c o :
  stats_ok (ca_stats c) -> 1 <= counted (ob_route o) c ->
  let c' := subtract_domain_route c o in
  total_count c' = total_count c - 1 /\ (forall k, counted k c' = counted k c - (if bytes_eqb (ob_route o) k then 1 else 0)) /\
  (length (ca_stats c') <= length (ca_stats c))%nat.
Proof.
  intros [_ N A] P. unfold subtract_domain_route. destruct (find_stat _ _ _) as [i|] eqn:F.
  - apply find_stat_some in F as (st & L & K). rewrite L. cbv zeta. rewrite <- K in *. unfold counted in P. rewrite (counted_entry _ _ _ N L) in P.
    set (st' := subtract_from o st). assert (C : ds_count st' = ds_count st - 1) by (cbn; lia).
    unfold total_count, counted. cbn [ca_stats with_stats]. destruct (_ && _) eqn:E.
    + assert (ds_count st' = 0) as C0 by (apply andb_true_iff in E as [[E _]%andb_true_iff _]; by apply Z.eqb_eq).
      unfold erase_stat. split_and!; [|intros k|].
      * rewrite (zsum_erase _ _ _ _ L). lia.
      * rewrite (zsum_erase _ _ _ _ L). unfold count_at at 2. destruct (bytes_eqb _ k); lia.
      * apply sublist_length, erase_sublist.
    + split_and!; [|intros k|by rewrite length_insert].
      * rewrite (zsum_insert _ _ _ _ _ L). lia.
      * rewrite (zsum_insert _ _ _ _ _ L). unfold count_at at 2 3. change (ds_key st') with (ds_key st). destruct (bytes_eqb _ k); lia.
  - apply find_stat_none in F; [|done]. unfold counted in P. rewrite counted_none in P by done. lia.
Qed.

(** ** The connections *)

Definition on_route (key : bytes) (o : observed_connection) : Z := if bytes_eqb (ob_route o) key then 1 else 0.

(** Every connection that is observed is counted for its route. *)
Definition tracked (c : sb_agent_clash) : Prop := forall key, zsum (on_route key) (ca_observed c) <= counted key c.

Definition known (c : sb_agent_clash) (found : option nat) (id : bytes) : Prop :=
  match found with None => id ∉ ob_id <$> ca_observed c | Some i => exists o, ca_observed c !! i = Some o /\ ob_id o = id end.

Lemma observed_insert observed i o o' :
  observed_ok observed -> observed !! i = Some o -> ob_id o' = ob_id o -> ob_hash o' = ob_hash o -> 0 <= ob_up o' -> 0 <= ob_down o' ->
  observed_ok (<[i := o']> observed).
Proof.
  intros [N F] L E1 E2 U D. split; [by erewrite fmap_insert_same|]. apply Forall_insert; [done|]. rewrite Forall_lookup in F.
  destruct (F _ _ L) as [H _]. rewrite E1, E2. done.
Qed.

Lemma observed_app observed id route up down seen :
  observed_ok observed -> id ∉ ob_id <$> observed -> 0 <= up -> 0 <= down -> observed_ok (observed ++ [mk_observed id (fnv1a id) route up down seen]).
Proof.
  intros [N F] X U D. split.
  - rewrite fmap_app. apply NoDup_app. split_and!; [done| |apply NoDup_singleton]. cbn. intros x Y ->%list_elem_of_singleton. done.
  - apply Forall_app_2; [done|]. by constructor.
Qed.

Lemma account_ok c now found id identity up down :
  clash_ok c -> known c found id -> 0 <= up -> 0 <= down -> clash_ok (account_connection c now found id identity up down).
Proof.
  intros I K U D. unfold account_connection. set (key := cstr _). destruct found as [i|]; cbn [known] in K; cbv zeta.
  - destruct K as (o & L & E). rewrite L. pose proof (ok_observed _ I) as [_ F]. rewrite Forall_lookup in F. destruct (F _ _ L) as (H & Ho & Hd).
    destruct (negb _).
    + pose proof (add_ok _ identity key 1 up down now (subtract_ok _ o I)) as [S1 S2]. split; [done|]. cbn.
      rewrite add_observed, subtract_observed. by apply (observed_insert _ _ o); destruct I.
    + pose proof (add_ok _ identity key 0 (Z.max (up - ob_up o) 0) (Z.max (down - ob_down o) 0) now I) as [S1 S2]. split; [done|]. cbn.
      rewrite add_observed. apply (observed_insert _ _ o); cbn; try done; [by destruct I|lia..].
  - pose proof (add_ok _ identity key 1 up down now I) as [S1 S2]. split; [done|]. cbn. rewrite add_observed. by apply observed_app; destruct I.
Qed.

(** A connection adds one to the count when it is new, and nothing otherwise. *)
Lemma account_counts c now found id identity up down :
  clash_ok c -> known c found id -> tracked c -> (length (ca_stats c) < 1000)%nat ->
  let c' := account_connection c now found id identity up down in
  tracked c' /\ total_count c' = total_count c + (match found with None => 1 | Some _ => 0 end) /\
  ob_id <$> ca_observed c' = (ob_id <$> ca_observed c) ++ (match found with None => [id] | Some _ => [] end) /\
  (length (ca_stats c') <= S (length (ca_stats c)))%nat.
Proof.
  intros I K Tr Len. unfold account_connection. set (key := cstr _). destruct found as [i|]; cbn [known] in K; cbv zeta.
  - destruct K as (o & L & E). rewrite L, app_nil_r.
    assert (One : 1 <= counted (ob_route o) c).
    { specialize (Tr (ob_route o)). pose proof (zsum_split (on_route (ob_route o)) _ _ _ L) as Z. unfold on_route at 3 in Z. rewrite bytes_eqb_refl in Z.
      assert (P : forall l, 0 <= zsum (on_route (ob_route o)) l) by (intros l; apply zsum_nonneg; intros x _; unfold on_route; by destruct (bytes_eqb _ _)).
      pose proof (P (take i (ca_observed c))). pose proof (P (drop (S i) (ca_observed c))). lia. }
    destruct (negb _) eqn:R.
    + pose proof (subtract_counts c o (ok_stats _ I) One) as (T1 & C1 & L1). cbv zeta in T1, C1, L1. set (c1 := subtract_domain_route c o) in *.
      pose proof (add_counts c1 identity key 1 up down now ltac:(lia) ltac:(lia)) as (T2 & C2 & L2). cbv zeta in T2, C2, L2.
      set (c2 := add_domain_route c1 _ _ _ _ _ _ _) in *. assert (O : ca_observed c2 = ca_observed c) by (subst c2 c1; by rewrite add_observed, subtract_observed).
      split_and!; cbn [ca_observed ca_stats with_observed].
      * intros k. change (counted k (with_observed c2 _)) with (counted k c2). cbn [ca_observed with_observed]. rewrite O, (zsum_insert _ _ _ _ _ L), C2, C1. specialize (Tr k).
        unfold on_route at 2 3. cbn [ob_route]. destruct (bytes_eqb (ob_route o) k), (bytes_eqb key k); lia.
      * unfold total_count in *. cbn. lia.
      * rewrite O. by erewrite fmap_insert_same.
      * lia.
    + pose proof (add_counts c identity key 0 (Z.max (up - ob_up o) 0) (Z.max (down - ob_down o) 0) now ltac:(lia) Len) as (T2 & C2 & L2). cbv zeta in T2, C2, L2.
      set (c2 := add_domain_route c _ _ _ _ _ _ _) in *. assert (O : ca_observed c2 = ca_observed c) by (subst c2; by rewrite add_observed).
      split_and!; cbn [ca_observed ca_stats with_observed].
      * intros k. change (counted k (with_observed c2 _)) with (counted k c2). cbn [ca_observed with_observed]. rewrite O, (zsum_insert _ _ _ _ _ L), C2. specialize (Tr k).
        unfold on_route at 2 3. cbn [ob_route]. destruct (bytes_eqb (ob_route o) k), (bytes_eqb key k); lia.
      * unfold total_count in *. cbn. lia.
      * rewrite O. by erewrite fmap_insert_same.
      * lia.
  - pose proof (add_counts c identity key 1 up down now ltac:(lia) Len) as (T2 & C2 & L2). cbv zeta in T2, C2, L2.
    set (c2 := add_domain_route c _ _ _ _ _ _ _) in *. assert (O : ca_observed c2 = ca_observed c) by (subst c2; by rewrite add_observed).
    split_and!; cbn [ca_observed ca_stats with_observed].
    + intros k. change (counted k (with_observed c2 _)) with (counted k c2). cbn [ca_observed with_observed]. rewrite O, zsum_app, C2. specialize (Tr k). cbn [zsum].
      unfold on_route at 2. cbn [ob_route]. destruct (bytes_eqb key k); lia.
    + unfold total_count in *. cbn. lia.
    + by rewrite O, fmap_app.
    + lia.
Qed.

Abbreviation ids c := (ob_id <$> ca_observed c).

(** The identifier of a connection that is accounted for. *)
Definition connection_id (connection : sbj) : option bytes :=
  match connection, sbj_get (Some connection) "id" with
  | SBJ_OBJECT _, Some (SBJ_STRING ((_ :: _) as raw)) => Some (cstr raw)
  | _, _ => None
  end.

(** Marking a connection as seen changes nothing that counts. *)
Lemma mark_same c i o :
  clash_ok c -> ca_observed c !! i = Some o ->
  let c' := with_observed c (alter (mark_seen true) i (ca_observed c)) in
  clash_ok c' /\ ids c' = ids c /\ (tracked c -> tracked c') /\ ca_observed c' !! i = Some (mark_seen true o).
Proof.
  intros [S O] L. cbv zeta. rewrite (alter_insert _ _ _ _ L). cbn [ca_observed with_observed]. split_and!.
  - split; [done|]. cbn. pose proof O as [_ F]. rewrite Forall_lookup in F. destruct (F _ _ L) as (_ & U & D). by apply (observed_insert _ _ o).
  - by erewrite fmap_insert_same.
  - intros T k. cbn. rewrite (zsum_insert _ _ _ _ _ L). specialize (T k). unfold counted in *. cbn. change (on_route k (mark_seen true o)) with (on_route k o). lia.
  - apply list_lookup_insert_eq. by eapply lookup_lt_Some.
Qed.

Lemma nonnegative_integer connection field : 0 <= nonnegative_connection_integer connection field.
Proof. unfold nonnegative_connection_integer. destruct (sbj_get _ _) as [[]|]; lia. Qed.

Lemma update_connection_ok c now x : clash_ok c -> clash_ok (fst (update_connection c now x)).
Proof.
  intros I. unfold update_connection. destruct x; try done. destruct (sbj_get _ "id") as [[| | | | |[|b raw]| |]|]; try done. cbv zeta. set (id := cstr _).
  destruct (find_observed _ _ _) as [i|] eqn:F.
  - apply find_observed_some in F as (o & L & E). destruct (mark_same c i o I L) as (I' & _ & _ & L'). cbv zeta in I', L'.
    destruct (domain_route_identity _); [|done]. cbn [fst]. apply account_ok; try apply nonnegative_integer; [done|]. by eexists.
  - apply find_observed_none in F; [|by destruct I]. destruct (domain_route_identity _); [|done]. by apply account_ok; try apply nonnegative_integer.
Qed.

Lemma update_connection_counts c now x c' :
  clash_ok c -> tracked c -> (length (ca_stats c) < 1000)%nat -> update_connection c now x = (c', None) ->
  tracked c' /\ (length (ca_stats c') <= S (length (ca_stats c)))%nat /\
  match connection_id x with
  | Some id => (id ∈ ids c /\ ids c' = ids c /\ total_count c' = total_count c) \/
               (id ∉ ids c /\ ids c' = ids c ++ [id] /\ total_count c' = total_count c + 1)
  | None => ids c' = ids c /\ total_count c' = total_count c
  end.
Proof.
  intros I T Len. unfold update_connection, connection_id.
  assert (Skip : (c, None : option sb_err) = (c', None) -> tracked c' /\ (length (ca_stats c') <= S (length (ca_stats c)))%nat /\ ids c' = ids c /\ total_count c' = total_count c)
    by (intros [= <-]; split_and!; try done; lia).
  destruct x; try exact Skip. destruct (sbj_get _ "id") as [[| | | | |[|b raw]| |]|]; try exact Skip. cbv zeta. set (id := cstr _).
  destruct (find_observed _ _ _) as [i|] eqn:F.
  - apply find_observed_some in F as (o & L & E). destruct (mark_same c i o I L) as (I' & Id & T' & L'). cbv zeta in I', Id, T', L'.
    destruct (domain_route_identity _) as [identity|]; [|by intros [=]]. intros [<- _]%pair_inj.
    set (c1 := with_observed c _) in *.
    match goal with |- context [account_connection _ _ _ _ _ ?u ?d] =>
      destruct (account_counts c1 now (Some i) id identity u d I' ltac:(by eexists) (T' T) Len) as (A & B & C & D) end. cbv zeta in A, B, C, D.
    rewrite app_nil_r, Id in C. split_and!; [done|done|left]. split_and!; [|done|].
    + rewrite <- E. apply list_elem_of_fmap_2. by eapply list_elem_of_lookup_2.
    + rewrite B. unfold total_count. cbn. lia.
  - apply find_observed_none in F; [|by destruct I]. destruct (domain_route_identity _) as [identity|]; [|by intros [=]]. intros [<- _]%pair_inj.
    match goal with |- context [account_connection _ _ _ _ _ ?u ?d] =>
      destruct (account_counts c now None id identity u d I F T Len) as (A & B & C & D) end. cbv zeta in A, B, C, D.
    split_and!; [done|done|right]. by split_and!.
Qed.

Lemma update_connections_ok l c now : clash_ok c -> clash_ok (fst (update_connections c now l)).
Proof.
  revert c. induction l as [|x l IH]; intros c I; cbn [update_connections]; [done|]. pose proof (update_connection_ok c now x I) as I'.
  destruct (update_connection c now x) as [c1 [e|]]; [done|by apply IH].
Qed.

(** The identifiers of a list that are not among others. *)
Definition fresh (l : list sbj) (old : list bytes) : gset bytes := list_to_set (omap connection_id l) ∖ list_to_set old.

Lemma fresh_known (id : bytes) (l old : list bytes) :
  id ∈ old -> (list_to_set (id :: l) ∖ list_to_set old : gset bytes) = list_to_set l ∖ list_to_set old /\
  (list_to_set old ∪ list_to_set (id :: l) : gset bytes) = list_to_set old ∪ list_to_set l.
Proof. intros H. split; apply leibniz_equiv; set_solver. Qed.

Lemma fresh_new (id : bytes) (l old : list bytes) :
  id ∉ old -> size (list_to_set (id :: l) ∖ list_to_set old : gset bytes) = S (size (list_to_set l ∖ list_to_set (old ++ [id]) : gset bytes)) /\
  (list_to_set old ∪ list_to_set (id :: l) : gset bytes) = list_to_set (old ++ [id]) ∪ list_to_set l.
Proof.
  intros H. split; [|apply leibniz_equiv; set_solver].
  assert (X : (list_to_set (id :: l) ∖ list_to_set old : gset bytes) = {[id]} ∪ list_to_set l ∖ list_to_set (old ++ [id])).
  { apply leibniz_equiv. intros y. destruct (decide (y = id)) as [->|N]; set_solver. }
  rewrite X, size_union by set_solver. by rewrite size_singleton.
Qed.

Lemma update_connections_counts l c now c' :
  clash_ok c -> tracked c -> (length (ca_stats c) + length l <= 1000)%nat -> update_connections c now l = (c', None) ->
  tracked c' /\ total_count c' = total_count c + Z.of_nat (size (fresh l (ids c))) /\
  (list_to_set (ids c') : gset bytes) = list_to_set (ids c) ∪ list_to_set (omap connection_id l).
Proof.
  revert c. induction l as [|x l IH]; intros c I T Len; cbn [update_connections length] in *.
  - intros [= <-]. split_and!; [done| |set_solver]. unfold fresh. cbn. rewrite (proj2 (size_empty_iff (∅ ∖ list_to_set (ids c) : gset bytes))) by set_solver. lia.
  - pose proof (update_connection_ok c now x I) as I1. pose proof (update_connection_counts c now x) as U.
    destruct (update_connection c now x) as [c1 [e|]]; [by intros [=]|]. intros E. cbn [fst] in I1.
    destruct (U c1 I T ltac:(lia) eq_refl) as (T1 & L1 & S1). destruct (IH c1 I1 T1 ltac:(lia) E) as (T2 & C2 & D2). split; [done|].
    unfold fresh in *. change (omap connection_id (x :: l)) with (match connection_id x with Some y => y :: omap connection_id l | None => omap connection_id l end).
    destruct (connection_id x) as [id|].
    + destruct S1 as [(H & E1 & E2)|(H & E1 & E2)]; rewrite E1 in *; rewrite E2 in *.
      * destruct (fresh_known _ (omap connection_id l) _ H) as [-> ->]. by split.
      * destruct (fresh_new _ (omap connection_id l) _ H) as [-> ->]. split; [lia|done].
    + destruct S1 as [E1 E2]. rewrite E1, E2 in *. by split.
Qed.

Lemma mark_none c : clash_ok c -> let c' := with_observed c (mark_seen false <$> ca_observed c) in
  clash_ok c' /\ ids c' = ids c /\ (tracked c -> tracked c').
Proof.
  intros [S [N F]]. assert (E : ob_id <$> (mark_seen false <$> ca_observed c) = ob_id <$> ca_observed c) by (rewrite <- list_fmap_compose; by apply list_fmap_ext).
  cbv zeta. split_and!; [|done|].
  - split; [done|]. split; cbn [ca_observed with_observed]; [by rewrite E|]. apply Forall_fmap. by eapply Forall_impl; [exact F|].
  - intros T k. specialize (T k). unfold counted in *. cbn. replace (zsum (on_route k) (mark_seen false <$> ca_observed c)) with (zsum (on_route k) (ca_observed c)); [done|].
    clear. induction (ca_observed c) as [|o l IH]; cbn; [done|]. by rewrite IH.
Qed.

Lemma drop_unseen c : clash_ok c -> let c' := with_observed c (List.filter ob_seen (ca_observed c)) in clash_ok c' /\ (tracked c -> tracked c').
Proof.
  intros [S [N F]]. assert (L : List.filter ob_seen (ca_observed c) `sublist_of` ca_observed c).
  { clear. induction (ca_observed c) as [|o l IH]; cbn; [done|]. destruct (ob_seen o); by constructor. }
  cbv zeta. split.
  - split; [done|]. split; cbn.
    + eapply sublist_NoDup; [exact N|]. by apply sublist_keys.
    + by eapply Forall_sublist'.
  - intros T k. specialize (T k). unfold counted in *. cbn. etrans; [|exact T]. clear. induction (ca_observed c) as [|o l IH]; cbn; [done|].
    assert (0 <= on_route k o) by (unfold on_route; by destruct (bytes_eqb _ _)). destruct (ob_seen o); cbn; lia.
Qed.

Lemma update_stats_ok c now connections : clash_ok c -> clash_ok (fst (update_domain_route_stats c now connections)).
Proof.
  intros I. assert (clash_ok (with_observed c [])) as E by (split; [by destruct I|split; constructor]).
  unfold update_domain_route_stats. destruct connections as [| | | | | |l|]; try exact E. destruct (mark_none c I) as (I1 & _ & _).
  pose proof (update_connections_ok l _ now I1) as I2. destruct (update_connections _ now l) as [c2 [e|]]; [done|]. by apply drop_unseen.
Qed.

(** C25: connections are counted once.  While the table of routes does not overflow, an
    update from a list of connections raises the sum of the counters by the number of
    connections that were not known before: a known one adds nothing, also when it is
    listed twice, and one whose route has changed is moved, not counted again.  After
    it every connection that is kept is counted for its route. *)
Theorem connections_counted (c c' : sb_agent_clash) (now : Z) (l : list sbj) (stats : sbj) :
  clash_ok c -> tracked c -> (length (ca_stats c) + length l <= 1000)%nat ->
  update_domain_route_stats c now (SBJ_ARRAY l) = (c', Ok stats) ->
  total_count c' = total_count c + Z.of_nat (size (fresh l (ids c))) /\ tracked c' /\ clash_ok c'.
Proof.
  intros I T Len. unfold update_domain_route_stats. destruct (mark_none c I) as (I1 & E1 & T1). cbv zeta in I1, E1, T1.
  set (c1 := with_observed c _) in *. pose proof (update_connections_ok l c1 now I1) as I2. pose proof (update_connections_counts l c1 now) as U.
  destruct (update_connections c1 now l) as [c2 [e|]]; [by intros [=]|]. cbn [fst] in I2. intros [<- _]%pair_inj.
  destruct (U c2 I1 (T1 T) Len eq_refl) as (T2 & C2 & _). destruct (drop_unseen c2 I2) as [I3 T3]. split_and!; [|by apply T3|done].
  change (total_count (with_observed c2 _)) with (total_count c2). by rewrite C2, E1.
Qed.

Section Samples.
Context {K : Type} (env : sys_env K) (ch : clash_env).

Fixpoint samples (k : nat) : sql sb_agent_clash (system K) unit :=
  match k with
  | O => mret tt
  | S k' => _ ← attempt (sb_agent_clash_sample_telemetry env ch); samples k'
  end.

Lemma frame_clash_request client o method t path body {T P} : frame (T := T) (P := P) (clash_request client o method t path body).
Proof.
  intros s. unfold clash_request, mbind, sql_bind, pure. destruct (parse_base_url _) as [[origin prefix]|]; [|done]. unfold attempt.
  pose proof (perform_spec client (clash_http_request client o method t (origin ++ prefix ++ cstr path) body) s) as W. unfold wp in W.
  destruct (sb_http_perform _ _ s) as [[r|e] s']; cbn; by destruct W as [(D & _) _].
Qed.

Lemma frame_read_config {T} path : frame (T := T) (read_config env path).
Proof.
  apply frame_bind; [|intros [|e|text]; done]. apply frame_bind; [intros s; unfold sys_open, sys_call, on_memory; by destruct (sys_errno _ _)|].
  intros [e|]; [done|]. apply frame_bind; [|done]. intros s. unfold sys_read, sys_call, on_memory. by destruct (sys_errno _ _).
Qed.

Lemma wp_get_clash (Q : sb_agent_clash -> conn sb_agent_clash (system K) -> Prop) E s : Q (db s) s -> wp get_clash Q E s.
Proof. done. Qed.

Lemma wp_set_clash c (Q : unit -> conn sb_agent_clash (system K) -> Prop) E s : Q tt (mk_conn c (mem s) (asked s)) -> wp (set_clash c) Q E s.
Proof. done. Qed.

Lemma sample_ok (s : conn sb_agent_clash (system K)) :
  clash_ok (db s) -> wp (sb_agent_clash_sample_telemetry env ch) (fun _ s' => clash_ok (db s')) (fun _ s' => clash_ok (db s')) s.
Proof.
  intros I. unfold sb_agent_clash_sample_telemetry. apply wp_bind, wp_get_clash, wp_bind, wp_bind.
  eapply wp_mono; [apply wp_frame, frame_read_config|..]; cbn beta; intros a s1 D1; rewrite <- D1 in I; [|done]. apply wp_ret.
  destruct (target_of _ _) as [t|]; [|by apply wp_ret]. apply wp_bind.
  eapply wp_mono; [apply wp_frame, frame_clash_request|..]; cbn beta; intros r s2 D2; rewrite <- D2 in I; [|done].
  destruct (negb _); [by apply wp_pure|]. apply wp_bind, wp_ask, wp_bind, wp_ask. apply wp_bind, wp_get_clash. cbn [db asked].
  assert (J : forall ns now, clash_ok (fst (sample_connections (db s2) ns now (cx_body r)))).
  { intros ns now. unfold sample_connections. destruct (ca_sample (db s2)) as [[[lu ld] lns]|];
      (match goal with |- context [update_domain_route_stats ?c ?n ?x] =>
         pose proof (update_stats_ok c n x ltac:(by destruct I)) as U; by destruct (update_domain_route_stats c n x) end). }
  specialize (J (ch_monotonic_ns ch (asked s2)) (ch_realtime ch (S (asked s2)))). destruct (sample_connections _ _ _ _) as [c' res].
  apply wp_bind, wp_set_clash, wp_pure. by destruct res.
Qed.

(** After any number of samples, whatever the Clash API answered, the statistics have
    at most 1000 routes, one entry for each, with no negative counter and first seen
    before last seen, and a connection is remembered once. *)
Theorem statistics_sound (k : nat) (path : option bytes) (s s' : conn sb_agent_clash (system K)) r :
  db s = sb_agent_clash_new path -> samples k s = (r, s') ->
  (length (ca_stats (db s')) <= 1000)%nat /\ NoDup (ds_key <$> ca_stats (db s')) /\ NoDup (ob_id <$> ca_observed (db s')) /\
  Forall (fun st => 0 <= ds_count st /\ 0 <= ds_up st /\ 0 <= ds_down st /\ ds_first st <= ds_last st) (ca_stats (db s')).
Proof.
  intros D R. assert (I : clash_ok (db s)) by (rewrite D; split; split; cbn; try lia; constructor).
  assert (W : wp (samples k) (fun _ s' => clash_ok (db s')) (fun _ s' => clash_ok (db s')) s).
  { clear D R. revert s I. induction k as [|k IH]; intros s I; cbn [samples]; [by apply wp_ret|]. apply wp_bind, wp_attempt.
    eapply wp_mono; [by apply sample_ok|..]; cbn beta; intros ? s1 I1; by apply IH. }
  unfold wp in W. rewrite R in W. assert (J : clash_ok (db s')) by (by destruct r). destruct J as [[A B C] [E _]]. split_and!; try done.
  eapply Forall_impl; [exact C|]. by intros st [].
Qed.
End Samples.


(** ** Examples *)

Definition demo_connection (id host : string) : sbj :=
  sbj_set (sbj_set_int (sbj_set_str (SBJ_OBJECT []) "id" (bs id)) "upload" 7) "metadata" (sbj_set_str (SBJ_OBJECT []) "host" (bs host)).
Definition demo_connections : list sbj := [demo_connection "a" "Example.org."; demo_connection "b" "example.org"; demo_connection "a" "example.net"].

Lemma connections_counted_witness :
  exists c' stats, update_domain_route_stats (sb_agent_clash_new None) 5 (SBJ_ARRAY demo_connections) = (c', Ok stats) /\
                   total_count c' = 2 /\ (ds_count <$> ca_stats c') = [1; 1].
Proof.
  destruct (update_domain_route_stats (sb_agent_clash_new None) 5 (SBJ_ARRAY demo_connections)) as [c' r] eqn:E.
  assert (X : (match r with Ok _ => true | _ => false end, ds_count <$> ca_stats c') = (true, [1; 1])).
  { change r with (snd (c', r)). change c' with (fst (c', r)) at 2. rewrite <- E. vm_compute. reflexivity. }
  destruct r as [stats|e]; [|discriminate X]. exists c', stats. split; [reflexivity|].
  destruct (connections_counted (sb_agent_clash_new None) c' 5 demo_connections stats
    ltac:(split; split; cbn; try lia; constructor) ltac:(intros k; cbn; lia) ltac:(cbn; lia) E) as (T & _).
  split; [rewrite T; vm_compute; reflexivity|by injection X].
Defined.

Definition demo_api (n : nat) (o : curl_options) : curl_result :=
  mk_curl_result [curl_data (sbj_dump (Some (sbj_set (SBJ_OBJECT []) "connections" (SBJ_ARRAY demo_connections))) (-1))] CURLE_OK 200.
Definition demo_installed : bytes :=
  sbj_dump (Some (sbj_set (SBJ_OBJECT []) "experimental" (sbj_set (SBJ_OBJECT []) "clash_api"
    (sbj_set_str (SBJ_OBJECT []) "external_controller" (bs "0.0.0.0:9090"))))) (-1).
Definition demo_clash_env : clash_env :=
  mk_clash_env (mk_client_env (fun _ => true) demo_api demo_strerror (fun n => Z.of_nat n) (bs "1.0.0")) (fun n => 1000 + Z.of_nat n)
    (fun n => Z.of_nat n * 1000000) (fun _ _ _ => Connected) (fun _ => LocalPort 40000) (fun _ n => Z.of_nat n).
Definition demo_service : conn sb_agent_clash (system unit) :=
  let files : tree := {[ bs "sing-box.json" := Regular (mk_file demo_installed 384 true) ]} in
  mk_conn (sb_agent_clash_new (Some (bs "sing-box.json"))) (mk_system files files [] tt) 0.

Lemma statistics_sound_witness :
  exists s', samples demo_sys demo_clash_env 2 demo_service = (Ok tt, s') /\ length (ca_stats (db s')) = 2%nat /\ NoDup (ds_key <$> ca_stats (db s')).
Proof.
  destruct (samples demo_sys demo_clash_env 2 demo_service) as [r s'] eqn:E. exists s'.
  assert (X : (r, length (ca_stats (db s'))) = (Ok tt, 2%nat)).
  { change (r, length (ca_stats (db s'))) with ((fun p : result unit * conn sb_agent_clash (system unit) => (fst p, length (ca_stats (db (snd p))))) (r, s')).
    rewrite <- E. vm_compute. reflexivity. }
  apply pair_inj in X as [-> L]. split; [reflexivity|]. split; [exact L|].
  apply (statistics_sound demo_sys demo_clash_env 2 (Some (bs "sing-box.json")) demo_service s' (Ok tt) ltac:(reflexivity) E).
Defined.
