(* ===== verification/AgentMain.v ===== *)
(** * The polling agent ([c/src/agent_main.c])

    The program that keeps a device: enrollment and the stored credential, polling
    and installation of configurations, commands, reports, and the callbacks of its
    local interface.  It is the build that runs sing-box as a process of its own
    ([Supervisor]); the engine for proxy users is not part of it.  The first part of
    the state is the runtime of the agent, under [state_mutex], with the supervisor
    and the Clash service; the second the files of [System].  A callback of the local
    interface runs between the steps of a cycle, not inside one.  What the program
    prints is left out.

    Theorems: whatever fails, the configuration file has the text it had or the one
    prepared from the panel's answer, and the entity tag moves only with an installed
    configuration ([apply_keeps_config]); a cycle takes every request of the local
    interface and carries it out or notes why it could not ([cycle_takes_requests]); a stored credential is read back
    ([credential_roundtrip]); a command line is split as it was quoted
    ([split_quoted]). *)

From S2P Require Import Prelude Util Json JsonText JsonUtf8 JsonSafe JsonRound AgentConfig AgentProofs DateTime Sqlite SqliteProofs System HttpText HttpClient AgentClient Supervisor AgentClash.

(** ** Numbers and paths *)

Fixpoint unsigned_digits (limit value : Z) (text : bytes) : option Z :=
  match text with
  | [] => Some value
  | c :: text' =>
      if negb (isdigit c) then None
      else let digit := code c - 48 in if (limit - digit) / 10 <? value then None else unsigned_digits limit (value * 10 + digit) text'
  end.
Definition parse_unsigned (text : bytes) (limit : Z) : option Z := match text with [] => None | _ => unsigned_digits limit 0 text end.

Fixpoint drop_until_slash (s : bytes) : bytes := match s with c :: s' => if code c =? 47 then s else drop_until_slash s' | [] => [] end.
Fixpoint leading_slashes (s : bytes) : nat := match s with c :: s' => if code c =? 47 then S (leading_slashes s') else O | [] => O end.

(** [std::filesystem::path::parent_path]. *)
Definition parent_path (path : bytes) : bytes :=
  let root_end := leading_slashes path in
  if (root_end =? length path)%nat then path
  else
    let relative := drop root_end path in
    match drop_until_slash (reverse relative) with
    | [] => if (root_end =? 0)%nat then [] else bs "/"
    | dir => take root_end path ++ reverse (drop_slashes dir)
    end.

Definition path_append (directory name : bytes) : bytes :=
  match directory with [] => name | _ => directory ++ (if sb_ends_with directory (bs "/") then [] else bs "/") ++ name end.

Definition path_beside (config : bytes) (name : string) : bytes :=
  path_append (match parent_path config with [] => bs "." | d => d end) (bs name).

(** ** Command lines *)

(** [quote] is the open quote, [started] tells of a word that has begun. *)
Record split_state := mk_split { sp_words : list bytes; sp_current : bytes; sp_quote : option ascii; sp_escaped : bool; sp_started : bool }.

Definition split_char (st : split_state) (c : ascii) : split_state :=
  let put := sp_current st ++ [c] in
  let quoted_by z := match sp_quote st with Some q => code q =? z | None => false end in
  if sp_escaped st then mk_split (sp_words st) put (sp_quote st) false true
  else if (code c =? 92) && negb (quoted_by 39) then mk_split (sp_words st) (sp_current st) (sp_quote st) true true
  else
    match sp_quote st with
    | Some q =>
        if code c =? code q then mk_split (sp_words st) (sp_current st) None false true
        else mk_split (sp_words st) put (Some q) false true
    | None =>
        if (code c =? 39) || (code c =? 34) then mk_split (sp_words st) (sp_current st) (Some c) false true
        else if isspace c then
          if sp_started st then mk_split (sp_words st ++ [sp_current st]) [] None false false else st
        else mk_split (sp_words st) put None false true
    end.

Definition split_command_line (command : bytes) : result (list bytes) :=
  let st := foldl split_char (mk_split [] [] None false false) (cstr command) in
  if sp_escaped st || (match sp_quote st with Some _ => true | None => false end)
  then sb_fail SB_ERR_VALIDATION (bs "unterminated command escape or quote")
  else Ok (sp_words st ++ (if sp_started st then [sp_current st] else [])).

(** ** Environment *)

(** [ae_getenv]: the environment; [ae_time]: [time(NULL)]; [ae_hostname] and
    [ae_uname]: the name of the machine, of its system and its architecture. *)
Record agent_env (K : Type) := mk_agent_env {
  ae_sys : sys_env K; ae_px : process_env; ae_ch : clash_env; ae_getenv : string -> option bytes;
  ae_time : nat -> Z; ae_hostname : nat -> option bytes; ae_uname : nat -> option (bytes * bytes) }.
Arguments ae_sys {K} a.
Arguments ae_px {K} a.
Arguments ae_ch {K} a.
Arguments ae_getenv {K} a.
Arguments ae_time {K} a.
Arguments ae_hostname {K} a.
Arguments ae_uname {K} a.

Record agent_identity := mk_identity {
  id_server : bytes; id_token : bytes; id_host_id : bytes; id_host_name : bytes; id_profile_id : bytes; id_profile_name : bytes }.

Record local_ui_config := mk_ui_config { lu_address : bytes; lu_port : Z; lu_username : bytes; lu_password : bytes; lu_directory : bytes }.

(** [json::parse]. *)
Definition parse_json (text : bytes) : result sbj :=
  match skip_bom text with
  | [] => sb_fail SB_ERR_BAD_JSON
            (bs "[json.exception.parse_error.101] parse error at line 1, column 1: attempting to parse an empty input; check that your input string or stream contains the expected JSON")
  | t =>
      match sbj_parse_msg t with
      | inr v => Ok v
      | inl m => sb_fail SB_ERR_BAD_JSON (bs "[json.exception.parse_error.101] parse error: " ++ match m with [] => bs "syntax error" | _ => m end)
      end
  end.

Section Environment.
Context {K : Type} (env : agent_env K).

Definition environment (name : string) (fallback : string) : bytes :=
  match ae_getenv env name with Some v => cstr v | None => bs fallback end.

Definition environment_flag (name : string) (fallback : bool) : bool :=
  match environment name "" with
  | [] => fallback
  | v => existsb (fun t => bytes_eqb (sb_lower_dup v) (bs t)) ["1"; "true"; "yes"; "on"]%string
  end.

Definition poll_interval : result Z :=
  match parse_unsigned (environment "AGENT_INTERVAL" "10") UINT64_MAX with
  | None => sb_fail SB_ERR_VALIDATION (bs "AGENT_INTERVAL must be an integer")
  | Some parsed => Ok (Z.min (Z.max parsed 2) INT64_MAX)
  end.

Definition config_path : bytes :=
  match environment "SINGBOX_CONFIG_PATH" "" with
  | [] => match environment "SELF_SINGBOX_CONFIG_PATH" "" with [] => bs "data/sing-box.gen.json" | v => v end
  | v => v
  end.

Definition settings_path (singbox_config_path : bytes) : bytes :=
  match environment "AGENT_UI_SETTINGS_PATH" "" with [] => path_beside singbox_config_path "agent-ui-settings.json" | v => v end.
Definition device_credential_path (singbox_config_path : bytes) : bytes :=
  match environment "AGENT_CREDENTIAL_PATH" "" with [] => path_beside singbox_config_path "device-credential.json" | v => v end.

Definition parse_port (value : bytes) (variable : string) : result Z :=
  match parse_unsigned value (2 ^ 32 - 1) with
  | Some port => if (port =? 0) || (65535 <? port) then sb_fail SB_ERR_VALIDATION (bs variable ++ bs " must contain a valid TCP port") else Ok port
  | None => sb_fail SB_ERR_VALIDATION (bs variable ++ bs " must contain a valid TCP port")
  end.

(** The text before the last colon, and the port. *)
Definition split_bind (bind : bytes) : result (bytes * bytes) :=
  match bind with
  | c :: tail =>
      if code c =? 91 then
        match split_at (chr 93) tail with
        | Some (address, d :: port) =>
            if code d =? 58 then Ok (address, port) else sb_fail SB_ERR_VALIDATION (bs "AGENT_UI_BIND IPv6 addresses must use [address]:port")
        | _ => sb_fail SB_ERR_VALIDATION (bs "AGENT_UI_BIND IPv6 addresses must use [address]:port")
        end
      else
        match after_last 58 bind with
        | Some port => Ok (take (length bind - length port - 1) bind, port)
        | None => sb_fail SB_ERR_VALIDATION (bs "AGENT_UI_BIND must use address:port")
        end
  | [] => sb_fail SB_ERR_VALIDATION (bs "AGENT_UI_BIND must use address:port")
  end.

Definition local_ui_options : result local_ui_config :=
  '(address, port) ← split_bind (environment "AGENT_UI_BIND" "0.0.0.0:51822");
  if bytes_eqb address [] then sb_fail SB_ERR_VALIDATION (bs "AGENT_UI_BIND address must not be empty")
  else
    port ← parse_port port "AGENT_UI_BIND";
    Ok (mk_ui_config address port (environment "AGENT_UI_USERNAME" "admin") (environment "AGENT_UI_PASSWORD" "") (environment "AGENT_UI_PATH" "")).

Definition all_or {A} (ok : A -> bool) (bad : A -> bytes) (l : list A) : result unit :=
  match List.find (fun x => negb (ok x)) l with Some x => sb_fail SB_ERR_VALIDATION (bad x) | None => Ok tt end.

Definition env_server_overrides : result sbj :=
  match environment "SINGBOX_OUTBOUND_SERVER_OVERRIDES" "" with
  | [] => Ok (SBJ_OBJECT [])
  | value =>
      parsed ← parse_json value;
      match parsed with
      | SBJ_OBJECT members =>
          _ ← all_or (fun kv => sbj_is_string (Some (snd kv)))
                (fun kv => bs "outbound server override for " ++ cstr (fst kv) ++ bs " must be a string") members;
          Ok parsed
      | _ => sb_fail SB_ERR_VALIDATION (bs "SINGBOX_OUTBOUND_SERVER_OVERRIDES must be a JSON object")
      end
  end.

Definition outbounds_value (text : bytes) : result sbj :=
  parsed ← parse_json text;
  match parsed with
  | SBJ_OBJECT members =>
      _ ← all_or (fun kv => sbj_is_object (Some (snd kv)))
            (fun kv => bs "outbound override for " ++ cstr (fst kv) ++ bs " must be a JSON object") members;
      Ok parsed
  | _ => sb_fail SB_ERR_VALIDATION (bs "SINGBOX_OUTBOUND_OVERRIDE_FILE must contain a JSON object")
  end.

Definition rules_value (text : bytes) : result sbj :=
  parsed ← parse_json text;
  match parsed with
  | SBJ_ARRAY rules =>
      _ ← all_or (fun r => sbj_is_object (Some r)) (fun _ => bs "local route rules file must contain JSON objects") rules;
      Ok parsed
  | _ => sb_fail SB_ERR_VALIDATION (bs "SINGBOX_LOCAL_ROUTE_RULES_FILE must contain a JSON array")
  end.

(** ** Files *)

Section Files.
Context {T : Type}.

Abbreviation sys := (sql T (system K)).
Let se := ae_sys env.

(** Whether there is an entry; [inr] when that cannot be told. *)
Definition path_exists (path : bytes) : sys (bool + errno) :=
  answer ← sys_stat se path;
  mret (match answer with inl _ => inl true | inr (ENOENT | ENOTDIR) => inl false | inr e => inr e end).

Definition path_exists_or_fail (path : bytes) : sys bool :=
  answer ← path_exists path;
  pure (match answer with
        | inl b => Ok b
        | inr e => sb_fail SB_ERR_IO (bs "filesystem error: status: " ++ strerror se e ++ bs " [" ++ path ++ bs "]")
        end).

(** A file that may be missing. *)
Definition read_optional (path : bytes) (what : string) : sys (option bytes) :=
  r ← read_stream se path;
  match r with
  | Contents text => mret (Some text)
  | ReadFailed e => pure (underflow se SB_ERR_IO e)
  | NotOpened =>
      exists_ ← path_exists_or_fail path;
      if exists_ : bool then pure (sb_fail SB_ERR_IO (bs what ++ path)) else mret None
  end.

Definition read_existing (path : bytes) : sys (option bytes) := read_optional path "cannot read existing config: ".

Definition env_outbound_overrides : sys sbj :=
  match environment "SINGBOX_OUTBOUND_OVERRIDE_FILE" "" with
  | [] => mret (SBJ_OBJECT [])
  | path =>
      r ← read_stream se path;
      pure (match r with
            | Contents text => outbounds_value text
            | ReadFailed e => underflow se SB_ERR_IO e
            | NotOpened => sb_fail SB_ERR_IO (bs "cannot read outbound override file: " ++ path)
            end)
  end.

Definition env_route_rules (singbox_config_path : bytes) : sys sbj :=
  let path := match environment "SINGBOX_LOCAL_ROUTE_RULES_FILE" "" with
              | [] => path_append (parent_path singbox_config_path) (bs "local-route-rules.json")
              | v => v
              end in
  text ← read_optional path "cannot read local route rules file: ";
  pure (match text with None => Ok (SBJ_ARRAY []) | Some text => rules_value text end).

Definition transform_options : sys sb_agent_config_options :=
  let default_outbound := match environment "SINGBOX_DEFAULT_PROXY_OUTBOUND" "" with [] => None | v => Some v end in
  servers ← pure env_server_overrides;
  overrides ← env_outbound_overrides;
  rules ← env_route_rules config_path;
  mret (mk_options (environment_flag "SINGBOX_LOCAL_PROXY_EGRESS" true) (Some servers) (Some overrides) default_outbound (Some rules)).

(** [sb_read_file] and [sb_file_exists] ([c/src/util.c]) as the settings use them. *)
Definition settings_file (path : bytes) : sys file_state :=
  r ← read_stream se path;
  match r with
  | Contents text => mret (FileText text)
  | _ =>
      answer ← sys_stat se path;
      mret (match answer with inl _ => FileUnreadable | inr _ => FileMissing end)
  end.

(** ** The credential *)

Definition identity_of (path : bytes) (parsed : sbj) : result agent_identity :=
  let text key := match sbj_get (Some parsed) key with Some (SBJ_STRING s) => s | _ => [] end in
  server ← value_text (Some parsed) "server" [];
  token ← value_text (Some parsed) "agent_token" [];
  host_id ← value_text (Some parsed) "host_id" [];
  _ ← value_text (Some parsed) "host_name" [];
  profile_id ← value_text (Some parsed) "profile_id" [];
  _ ← value_text (Some parsed) "profile_name" [];
  if bytes_eqb server [] || bytes_eqb token [] then sb_fail SB_ERR_GENERIC (bs "device credential is incomplete: " ++ path)
  else Ok (mk_identity server token host_id (text "host_name") profile_id (text "profile_name")).

Definition load_device_credential (path : bytes) : sys (option agent_identity) :=
  r ← read_stream se path;
  match r with
  | ReadFailed e => pure (underflow se SB_ERR_IO e)
  | NotOpened =>
      answer ← path_exists path;
      match answer with
      | inl false => mret None
      | _ => pure (sb_fail SB_ERR_IO (bs "cannot read device credential: " ++ path))
      end
  | Contents text =>
      match parse_json_lenient text with
      | Some (SBJ_OBJECT m) => i ← pure (identity_of path (SBJ_OBJECT m)); mret (Some i)
      | _ => pure (sb_fail SB_ERR_GENERIC (bs "device credential is not valid JSON: " ++ path))
      end
  end.

Definition sys_chmod (path : bytes) (mode : Z) : sys (option errno) :=
  sys_call se Some (fun _ s => match sy_files s !! path with
    | None => (Some ENOENT, s)
    | Some (Regular f) => (None, files_to (<[path := Regular (mk_file (f_data f) mode (f_synced f))]> (sy_files s)) (sy_disk s) s)
    | Some (Directory _) => (None, files_to (<[path := Directory mode]> (sy_files s)) (sy_disk s) s)
    end).

Definition credential_json (c : sb_device_credential) : sbj :=
  sbj_set (sbj_set_str (sbj_set_str (sbj_set (sbj_set_str (sbj_set_str (SBJ_OBJECT []) "server" (dc_server c)) "host_id" (dc_host_id c))
    "host_name" (SBJ_STRING (dc_host_name c))) "agent_token" (dc_token c)) "profile_id" (dc_profile_id c))
    "profile_name" (SBJ_STRING (dc_profile_name c)).

Definition credential_text (c : sb_device_credential) : bytes := cstr (sbj_dump (Some (credential_json c)) 2) ++ [chr 10].

Definition save_device_credential (path : bytes) (c : sb_device_credential) : sys unit :=
  _ ← sb_atomic_replace_file se path (credential_text c) None;
  e ← sys_chmod path 384;
  pure (match e with
        | None => Ok tt
        | Some e => sb_fail SB_ERR_IO (bs "filesystem error: cannot set permissions: " ++ strerror se e ++ bs " [" ++ path ++ bs "]")
        end).

Definition AGENT_SERVICE : bytes := bs "sb-easy-cpp-agent".
Definition AGENT_VERSION : bytes := AGENT_SERVICE ++ bs "/" ++ ce_version (ch_client (ae_ch env)).

(** The host's name is cut to the buffer of 256 bytes. *)
Definition local_device_metadata : sys sbj :=
  hostname ← ask (ae_hostname env);
  names ← ask (ae_uname env);
  let '(operating_system, architecture) := match names with Some (s, m) => (s, m) | None => (bs "linux", []) end in
  mret (sbj_set_str (sbj_set_str (sbj_set_str (sbj_set_str (sbj_set_str (SBJ_OBJECT []) "platform" (environment "AGENT_PLATFORM" "linux"))
          "agent_version" AGENT_VERSION) "hostname" (take 255 (default [] hostname))) "architecture" architecture) "os" operating_system).

Definition resolve_agent_identity (credential_path : bytes) : sys agent_identity :=
  let environment_server := environment "SB_EASY_SERVER" "" in
  let environment_token := environment "AGENT_TOKEN" "" in
  if negb (bytes_eqb environment_token []) then
    pure (if bytes_eqb environment_server [] then sb_fail SB_ERR_VALIDATION (bs "SB_EASY_SERVER is required when AGENT_TOKEN is set")
          else Ok (mk_identity environment_server environment_token [] [] [] []))
  else
    loaded ← load_device_credential credential_path;
    match loaded with
    | Some i => mret i
    | None =>
        let code := environment "AGENT_ENROLLMENT_CODE" "" in
        if bytes_eqb environment_server [] || bytes_eqb code [] then
          pure (sb_fail SB_ERR_VALIDATION
                  (bs "set SB_EASY_SERVER with AGENT_ENROLLMENT_CODE for first-time enrollment, or provide an existing AGENT_TOKEN"))
        else
          device ← local_device_metadata;
          c ← sb_enroll_device (ch_client (ae_ch env)) (mk_enrollment (Some environment_server) (Some code) (Some device) 15000);
          _ ← save_device_credential credential_path c;
          mret (mk_identity (dc_server c) (dc_token c) (dc_host_id c) (dc_host_name c) (dc_profile_id c) (dc_profile_name c))
    end.
End Files.
End Environment.

(** ** The runtime *)

(** What [runtime_init] fixes. *)
Record agent_setup := mk_setup {
  rt_config_path : bytes; rt_identity : agent_identity; rt_settings_path : bytes; rt_singbox_bin : bytes; rt_managed : bool;
  rt_reload_command : list bytes; rt_restart_command : list bytes; rt_validate : bool; rt_client : sb_agent_client }.

Record agent_runtime := mk_runtime {
  rt_world : world; rt_clash : sb_agent_clash; rt_options : sb_agent_config_options; rt_etag : option bytes; rt_running : option bool;
  rt_cycle : option bytes; rt_error : option bytes; rt_telemetry : sbj; rt_rule_source : bytes;
  rt_refresh : bool; rt_reload : bool; rt_restart : bool }.

Definition set_world (w : world) (r : agent_runtime) : agent_runtime :=
  mk_runtime w (rt_clash r) (rt_options r) (rt_etag r) (rt_running r) (rt_cycle r) (rt_error r) (rt_telemetry r) (rt_rule_source r) (rt_refresh r) (rt_reload r) (rt_restart r).
Definition put_clash (c : sb_agent_clash) (r : agent_runtime) : agent_runtime :=
  mk_runtime (rt_world r) c (rt_options r) (rt_etag r) (rt_running r) (rt_cycle r) (rt_error r) (rt_telemetry r) (rt_rule_source r) (rt_refresh r) (rt_reload r) (rt_restart r).
Definition put_etag (e : option bytes) (r : agent_runtime) : agent_runtime :=
  mk_runtime (rt_world r) (rt_clash r) (rt_options r) e (rt_running r) (rt_cycle r) (rt_error r) (rt_telemetry r) (rt_rule_source r) (rt_refresh r) (rt_reload r) (rt_restart r).
Definition put_running (b : bool) (r : agent_runtime) : agent_runtime :=
  mk_runtime (rt_world r) (rt_clash r) (rt_options r) (rt_etag r) (Some b) (rt_cycle r) (rt_error r) (rt_telemetry r) (rt_rule_source r) (rt_refresh r) (rt_reload r) (rt_restart r).
Definition put_cycle (at_ : bytes) (error : option bytes) (r : agent_runtime) : agent_runtime :=
  mk_runtime (rt_world r) (rt_clash r) (rt_options r) (rt_etag r) (rt_running r) (Some at_) error (rt_telemetry r) (rt_rule_source r) (rt_refresh r) (rt_reload r) (rt_restart r).
Definition put_telemetry (t : sbj) (r : agent_runtime) : agent_runtime :=
  mk_runtime (rt_world r) (rt_clash r) (rt_options r) (rt_etag r) (rt_running r) (rt_cycle r) (rt_error r) t (rt_rule_source r) (rt_refresh r) (rt_reload r) (rt_restart r).
Definition put_rule_source (v : bytes) (r : agent_runtime) : agent_runtime :=
  mk_runtime (rt_world r) (rt_clash r) (rt_options r) (rt_etag r) (rt_running r) (rt_cycle r) (rt_error r) (rt_telemetry r) v (rt_refresh r) (rt_reload r) (rt_restart r).
Definition put_flags (refresh reload restart : bool) (r : agent_runtime) : agent_runtime :=
  mk_runtime (rt_world r) (rt_clash r) (rt_options r) (rt_etag r) (rt_running r) (rt_cycle r) (rt_error r) (rt_telemetry r) (rt_rule_source r) refresh reload restart.
Definition put_options (o : sb_agent_config_options) (r : agent_runtime) : agent_runtime :=
  mk_runtime (rt_world r) (rt_clash r) o (rt_etag r) (rt_running r) (rt_cycle r) (rt_error r) (rt_telemetry r) (rt_rule_source r) (rt_refresh r) (rt_reload r) (rt_restart r).

Definition default_telemetry : sbj :=
  foldl (fun o k => sbj_set_int o k 0) (sbj_set (sbj_set_bool (SBJ_OBJECT []) "available" false) "sampled_at" SBJ_NULL)
    ["up"; "down"; "up_total"; "down_total"; "conn_count"]%string.

Definition telemetry_fields : list string := ["up"; "down"; "up_total"; "down_total"; "conn_count"]%string.

(** The tags of a test of proxies; none for all of them. *)
Definition proxy_test_tags (command : bytes) : result (option sbj) :=
  let prefix := bs "test-proxies" in
  if bytes_eqb command prefix then Ok None
  else
    match drop (length prefix) command with
    | c :: suffix =>
        if sb_starts_with command prefix && isspace c then
          Ok (match parse_json_lenient (drop_spaces (c :: suffix)) with
              | Some (SBJ_ARRAY l) => if forallb (fun v => sbj_is_string (Some v)) l then Some (SBJ_ARRAY l) else None
              | _ => None
              end)
        else sb_fail SB_ERR_VALIDATION (bs "not a test-proxies command")
    | [] => sb_fail SB_ERR_VALIDATION (bs "not a test-proxies command")
    end.

Section Runtime.
Context {K : Type} (env : agent_env K).
Let se := ae_sys env.
Let px := ae_px env.
Let client := ch_client (ae_ch env).

Abbreviation agent := (sql agent_runtime (system K)).

Definition get_rt : agent agent_runtime := fun s => (Ok (db s), s).
Definition set_rt (f : agent_runtime -> agent_runtime) : agent unit := fun s => (Ok tt, mk_conn (f (db s)) (mem s) (asked s)).

(** A call of the supervisor, of the Clash service. *)
Definition on_sup {A} (m : sql world (system K) A) : agent A := fun s =>
  let (r, s') := m (mk_conn (rt_world (db s)) (mem s) (asked s)) in (r, mk_conn (set_world (db s') (db s)) (mem s') (asked s')).
Definition on_clash {A} (m : sql sb_agent_clash (system K) A) : agent A := fun s =>
  let (r, s') := m (mk_conn (rt_clash (db s)) (mem s) (asked s)) in (r, mk_conn (put_clash (db s') (db s)) (mem s') (asked s')).

Definition set_etag (value : bytes) : agent unit := set_rt (put_etag (Some (cstr value))).
Definition set_rule_source (value : bytes) : agent unit :=
  set_rt (put_rule_source (if bytes_eqb (cstr value) (bs "quickjs") then bs "quickjs" else bs "profile")).
Definition set_running (b : bool) : agent unit := set_rt (put_running b).

Definition current_time_iso8601 : agent bytes := now ← ask (ae_time env); mret (sb_rfc3339 now).

(** The reload and restart requests; a refresh forgets the entity tag. *)
Definition take_queued_actions : agent (bool * bool) :=
  rt ← get_rt;
  _ ← (if rt_refresh rt then set_rt (put_etag None) else mret tt);
  _ ← set_rt (put_flags false false false);
  mret (rt_reload rt, rt_restart rt).

Definition finish_cycle (errors : list bytes) : agent unit :=
  now ← current_time_iso8601;
  set_rt (put_cycle now (match errors with [] => None | _ => Some (sb_join errors (bs "; ")) end)).

Definition update_local_telemetry (telemetry : sbj) : agent unit :=
  now ← current_time_iso8601;
  let value := sbj_set (sbj_set_bool (SBJ_OBJECT []) "available" true) "sampled_at" (SBJ_STRING now) in
  set_rt (put_telemetry (foldl (fun o k => sbj_set o k (match sbj_get (Some telemetry) k with
                                                        | Some ((SBJ_INT _ | SBJ_UINT _) as v) => sbj_clone v
                                                        | _ => SBJ_INT 0
                                                        end)) value telemetry_fields)).

(** [run_program]: an empty command is not started. *)
Definition run_words (arguments : list bytes) : agent (bool * bytes) :=
  match arguments with
  | (_ :: _) :: _ => on_sup (run_program se px arguments)
  | _ => mret (false, bs "command is empty")
  end.

Section Setup.
Context (su : agent_setup).

Definition validate_with_singbox (temporary : bytes) : agent unit :=
  if negb (rt_validate su) then mret tt
  else
    checked ← run_words [rt_singbox_bin su; bs "check"; bs "-c"; temporary];
    if fst checked : bool then mret tt else pure (sb_fail SB_ERR_GENERIC (bs "sing-box config validation failed: " ++ snd checked)).

(** What is noted of an installed configuration. *)
Definition installed (running : bool) (config : sb_agent_config_response) : agent unit :=
  _ ← set_running running;
  _ ← set_etag (ac_etag config);
  set_rule_source (ac_rule_source config).

(** The reload failed: the text that was there is put back, if there was one. *)
Definition restore_config (previous : option bytes) (detail : bytes) : agent unit :=
  _ ← match previous with
      | Some text => _ ← sb_atomic_replace_file se (rt_config_path su) text None; _ ← run_words (rt_reload_command su); mret tt
      | None => mret tt
      end;
  pure (sb_fail SB_ERR_GENERIC (bs "sing-box reload failed: " ++ detail)).

Definition apply_config (config : sb_agent_config_response) : agent unit :=
  rt ← get_rt;
  prepared ← pure (sb_prepare_agent_config (cstr (ac_body config)) (sb_agent_config_options_copy (rt_options rt)));
  let prepared := cstr prepared in
  if rt_managed su then
    _ ← on_sup (sb_singbox_supervisor_apply_config se px prepared);
    running ← on_sup (sb_singbox_supervisor_running se px);
    installed running config
  else
    previous ← read_existing env (rt_config_path su);
    _ ← sb_atomic_replace_file se (rt_config_path su) prepared (Some validate_with_singbox);
    reloaded ← run_words (rt_reload_command su);
    if fst reloaded : bool then installed true config else restore_config previous (snd reloaded).

Definition run_runtime_command (restart : bool) : agent (bool * bytes) :=
  if negb (rt_managed su) then run_words (if restart then rt_restart_command su else rt_reload_command su)
  else
    r ← attempt (on_sup (if restart then sb_singbox_supervisor_restart se px else sb_singbox_supervisor_reload se px));
    match r with
    | Err e => mret (false, err_msg e)
    | Ok _ =>
        success ← on_sup (sb_singbox_supervisor_running se px);
        again ← on_sup (sb_singbox_supervisor_running se px);
        mret (success, if again : bool then bs (if restart then "restarted" else "reloaded") else bs "sing-box did not start")
    end.

(** What runs after a command. *)
Definition note_running (success : bool) : agent unit :=
  running ← (if rt_managed su then on_sup (sb_singbox_supervisor_running se px) else mret success);
  set_running running.

Definition run_local_action (reload restart : bool) : agent unit :=
  if negb reload && negb restart then mret tt
  else
    result ← run_runtime_command restart;
    _ ← note_running (fst result);
    if fst result : bool then mret tt else pure (sb_fail SB_ERR_GENERIC (snd result)).

Definition report_latency (latency : sbj) : agent unit :=
  _ ← sb_agent_client_report_proxy_latencies client (rt_client su) latency;
  mret tt.

(** One command, and whether it changes what runs. *)
Definition run_command (command : bytes) : agent (bool * bytes) :=
  if bytes_eqb command (bs "reload") || bytes_eqb command (bs "restart") then
    result ← run_runtime_command (bytes_eqb command (bs "restart"));
    _ ← note_running (fst result);
    mret result
  else if bytes_eqb command (bs "test-proxies") || sb_starts_with command (bs "test-proxies ") then
    rt ← get_rt;
    r ← attempt (tags ← pure (proxy_test_tags command);
                 sb_agent_clash_test_proxies se (ae_ch env) (ca_path (rt_clash rt)) tags report_latency);
    mret (match r with
          | Ok tested => (true, bs "tested " ++ fmt_int tested ++ bs " proxies")
          | Err e => (false, bs "test-proxies: " ++ err_msg e)
          end)
  else mret (false, bs "unknown command: " ++ command).

Fixpoint run_each (commands : list sb_agent_command) : agent unit :=
  match commands with
  | [] => mret tt
  | c :: rest =>
      result ← run_command (am_command c);
      _ ← sb_agent_client_acknowledge_command client (rt_client su) (am_id c) (fst result) (Some (snd result));
      run_each rest
  end.

Definition run_commands : agent unit :=
  commands ← sb_agent_client_pending_commands client (rt_client su);
  run_each commands.

(** A step of the cycle; its failure is recorded and the cycle goes on. *)
Definition recorded (operation : string) (errors : list bytes) (m : agent unit) : agent (list bytes) :=
  r ← attempt m;
  mret (match r with Ok _ => errors | Err e => errors ++ [bs operation ++ bs ": " ++ err_msg e] end).

Definition poll_and_apply : agent unit :=
  rt ← get_rt;
  config ← sb_agent_client_poll_config client (rt_client su) (rt_etag rt);
  if ac_modified config then apply_config config else set_rule_source (ac_rule_source config).

Definition supervise (errors : list bytes) : agent (list bytes) :=
  if rt_managed su then
    _ ← on_sup (sb_singbox_supervisor_ensure_alive se px);
    running ← on_sup (sb_singbox_supervisor_running se px);
    _ ← set_running running;
    rt ← get_rt;
    mret (match sv_error (w_sup (rt_world rt)) with Some e => errors ++ [bs "managed sing-box: " ++ e] | None => errors end)
  else mret errors.

Definition sample_and_report : agent unit :=
  telemetry ← on_clash (sb_agent_clash_sample_telemetry se (ae_ch env));
  match telemetry with
  | None => mret tt
  | Some t => _ ← update_local_telemetry t; sb_agent_client_report_telemetry client (rt_client su) t
  end.

Definition report_status : agent unit :=
  rt ← get_rt;
  sb_agent_client_report_status client false (rt_client su) (AGENT_VERSION env) (rt_running rt) (rt_etag rt).

(** Whether nothing failed. *)
Definition run_cycle : agent bool :=
  actions ← take_queued_actions;
  errors ← recorded "config poll/apply" [] poll_and_apply;
  errors ← recorded "local action" errors (run_local_action (fst actions) (snd actions));
  errors ← supervise errors;
  errors ← recorded "command poll" errors run_commands;
  _ ← attempt sample_and_report;
  errors ← recorded "status report" errors report_status;
  _ ← finish_cycle errors;
  mret (match errors with [] => true | _ => false end).

(** ** The local interface *)

Definition ui_status : agent sbj :=
  rt ← get_rt;
  let pending := sbj_set_bool (sbj_set_bool (sbj_set_bool (SBJ_OBJECT []) "refresh" (rt_refresh rt)) "reload" (rt_reload rt)) "restart" (rt_restart rt) in
  let status := sbj_set_str (sbj_set_bool (sbj_set_str (sbj_set_str (sbj_set_str (sbj_set_str (sbj_set_str (SBJ_OBJECT [])
      "service" AGENT_SERVICE) "version" (ce_version client)) "server" (id_server (rt_identity su))) "config_path" (rt_config_path su))
      "settings_path" (rt_settings_path su)) "singbox_managed" (rt_managed su)) "singbox_mode" (bs "external") in
  let status := sbj_set_str (sbj_set (sbj_set (sbj_set (sbj_set status "running" (match rt_running rt with Some b => SBJ_BOOL b | None => SBJ_NULL end))
      "etag" (sbj_str (rt_etag rt))) "last_cycle" (sbj_str (rt_cycle rt))) "last_error" (sbj_str (rt_error rt))) "rule_source" (rt_rule_source rt) in
  mret (sbj_set (sbj_set (sbj_set status "pending" pending) "telemetry" (sbj_clone (rt_telemetry rt)))
          "proxy_users" (sbj_set_bool (SBJ_OBJECT []) "supported" false)).

Definition ui_settings : agent sbj := rt ← get_rt; mret (sb_agent_config_options_to_json (rt_options rt)).

Definition ui_update_settings (value : option sbj) : agent sbj :=
  rt ← get_rt;
  updated ← pure (sb_agent_config_options_from_json value (Some (sb_agent_config_options_copy (rt_options rt))));
  _ ← sb_atomic_replace_file se (rt_settings_path su) (sb_agent_config_options_save updated) None;
  _ ← set_rt (put_options updated);
  rt ← get_rt;
  _ ← set_rt (put_flags true (rt_reload rt) (rt_restart rt));
  mret (sb_agent_config_options_to_json updated).

(** The installed configuration without its secrets. *)
Definition ui_config : agent sbj :=
  found ← read_existing env (rt_config_path su);
  match found with
  | None => mret (SBJ_OBJECT [])
  | Some text => config ← pure (parse_json text); mret (sb_agent_config_redact config)
  end.

Definition fallback_proxy (outbound : sbj) : result (option (bytes * sbj)) :=
  if negb (sbj_is_object (Some outbound)) then Ok None
  else
    tag ← value_text (Some outbound) "tag" [];
    if bytes_eqb tag [] then Ok None
    else
      type_or_unknown ← value_text (Some outbound) "type" (bs "unknown");
      type ← value_text (Some outbound) "type" [];
      let proxy := sbj_set_str (SBJ_OBJECT []) "type" type_or_unknown in
      if bytes_eqb type (bs "selector") || bytes_eqb type (bs "urltest") then
        now ← value_text (Some outbound) "default" [];
        Ok (Some (tag, sbj_set_str (sbj_set (sbj_set_str proxy "type" (bs (if bytes_eqb type (bs "selector") then "Selector" else "URLTest")))
                         "all" (default (SBJ_ARRAY []) (sbj_clone <$> sbj_get (Some outbound) "outbounds"))) "now" now))
      else Ok (Some (tag, proxy)).

Fixpoint fallback_proxies (outbounds : list sbj) (proxies : sbj) : result sbj :=
  match outbounds with
  | [] => Ok proxies
  | o :: rest =>
      p ← fallback_proxy o;
      fallback_proxies rest (match p with Some (tag, proxy) => sbj_setn proxies tag (Some proxy) | None => proxies end)
  end.

(** The live groups, or those of the configuration and why. *)
Definition ui_proxies : agent sbj :=
  rt ← get_rt;
  live ← attempt (sb_agent_clash_proxies se (ae_ch env) (ca_path (rt_clash rt)));
  match live with
  | Ok v => mret v
  | Err e =>
      config ← ui_config;
      proxies ← pure (fallback_proxies (arr_items (sbj_get (Some config) "outbounds")) (SBJ_OBJECT []));
      mret (sbj_set_str (sbj_set (SBJ_OBJECT []) "proxies" proxies) "error" (err_msg e))
  end.

Definition ui_select_proxy (group proxy : bytes) : agent sbj :=
  rt ← get_rt;
  sb_agent_clash_select_proxy_n se (ae_ch env) (ca_path (rt_clash rt)) group proxy.

Definition ui_test_route (url : bytes) : agent sbj :=
  rt ← get_rt;
  sb_agent_clash_test_route se (ae_ch env) (ca_path (rt_clash rt)) url.

Definition ui_request_action (action : bytes) : agent unit :=
  rt ← get_rt;
  if bytes_eqb (cstr action) (bs "refresh") then set_rt (put_flags true (rt_reload rt) (rt_restart rt))
  else if bytes_eqb (cstr action) (bs "reload") then set_rt (put_flags (rt_refresh rt) true (rt_restart rt))
  else if bytes_eqb (cstr action) (bs "restart") then set_rt (put_flags (rt_refresh rt) (rt_reload rt) true)
  else pure (sb_fail SB_ERR_VALIDATION (bs "unsupported Agent UI action")).
End Setup.
End Runtime.

(** ** The program *)

Section Program.
Context {K : Type} (env : agent_env K) {T : Type}.

Abbreviation sys := (sql T (system K)).

(** [runtime_init]; [clock] is the monotonic clock.  [ae_ch] is the same client for
    the panel and for the Clash API. *)
Definition runtime_init (clock : Z) : sys (agent_setup * agent_runtime) :=
  let path := config_path env in
  identity ← resolve_agent_identity env (device_credential_path env path);
  let settings := settings_path env path in
  let bin := environment env "SINGBOX_BIN" "sing-box" in
  reload ← pure (split_command_line (environment env "RELOAD_CMD" "systemctl reload sing-box"));
  restart ← pure (split_command_line (environment env "RESTART_CMD" "systemctl restart sing-box"));
  let validate := environment_flag env "SINGBOX_VALIDATE_CONFIG" true in
  defaults ← transform_options env;
  file ← settings_file env settings;
  options ← pure (sb_agent_config_options_load settings file (Some defaults));
  let o := sb_singbox_supervisor_options_init in
  supervisor ← pure (sb_singbox_supervisor_new (Some (mk_supervisor_options (Some bin) (Some path) validate (so_backoff o) (so_shutdown o))));
  client ← pure (sb_agent_client_new (mk_client_options (Some (id_server identity)) (Some (id_token identity)) 15000));
  mret (mk_setup path identity settings bin (environment_flag env "SINGBOX_MANAGED" true) reload restart validate client,
        mk_runtime (mk_world supervisor ∅ clock) (sb_agent_clash_new (Some path)) options None None None None default_telemetry (bs "profile") false false false).

(** [--once]: the exit code, the runtime when it is freed, which stops a child that
    is left, and the files. *)
Definition agent_once (clock : Z) (s : conn T (system K)) : Z * option agent_runtime * system K :=
  match runtime_init clock s with
  | (Err _, s') => (1, None, mem s')
  | (Ok (su, rt), s') =>
      let (r, s2) := run_cycle env su (mk_conn rt (mem s') (asked s')) in
      let (_, s3) := on_sup (sb_singbox_supervisor_stop (ae_sys env) (ae_px env)) s2 in
      (match r with Ok true => 0 | _ => 1 end, Some (db s3), mem s3)
  end.

Lemma ran {A B} (m : sys A) (f : A -> sys B) s b s' : (m ≫= f) s = (Ok b, s') -> exists a s1, m s = (Ok a, s1) /\ f a s1 = (Ok b, s').
Proof. unfold mbind, sql_bind. destruct (m s) as [[a|e] s1]; [by eauto|by intros [=]]. Qed.

(** The conditions of [apply_keeps_config] and [one_child] hold from the start: the
    supervisor has the path of the setup, which C reads whole, and no child. *)
Lemma runtime_ready clock (s s' : conn T (system K)) su rt :
  runtime_init clock s = (Ok (su, rt), s') ->
  cstr (rt_config_path su) = rt_config_path su /\ sv_config_path (w_sup (rt_world rt)) = rt_config_path su /\ rt_config_path su <> [] /\
  sv_child (w_sup (rt_world rt)) = -1 /\ w_children (rt_world rt) = ∅.
Proof.
  assert (N : no_nul (config_path env) = true).
  { unfold config_path, environment. destruct (ae_getenv env "SINGBOX_CONFIG_PATH") as [v|]; [pose proof (no_nul_cstr v); destruct (cstr v)|]; try done;
      (destruct (ae_getenv env "SELF_SINGBOX_CONFIG_PATH") as [v'|]; [pose proof (no_nul_cstr v'); by destruct (cstr v')|done]). }
  apply cstr_no_nul in N. unfold runtime_init. cbv zeta.
  do 5 (intros (? & ? & _ & H)%ran; revert H). intros (options & ? & _ & (supervisor & s1 & [= S ->] & (client & ? & _ & H)%ran)%ran)%ran.
  apply pair_inj in H as [[= <- <-] _]. cbn [rt_config_path rt_world w_sup w_children].
  unfold sb_singbox_supervisor_new in S. cbn [default id so_config_path so_binary] in S. rewrite N in S. repeat case_match; try done.
  apply Ok_inj in S as <-. split_and!; try done. cbn [rt_config_path]. intros E. by rewrite E in *.
Qed.
End Program.

(** * Theorems *)

(** ** Command lines *)

Definition quoted (w : bytes) : bytes := [chr 39] ++ w ++ [chr 39].

Lemma split_inside w words current :
  Forall (fun c => code c <> 39) w ->
  foldl split_char (mk_split words current (Some (chr 39)) false true) w = mk_split words (current ++ w) (Some (chr 39)) false true.
Proof.
  revert current. induction w as [|c w IH]; intros current; [by rewrite app_nil_r|]. intros [C F]%Forall_cons. cbn [foldl].
  assert (split_char (mk_split words current (Some (chr 39)) false true) c = mk_split words (current ++ [c]) (Some (chr 39)) false true) as ->.
  { unfold split_char. cbn [sp_escaped sp_quote sp_current sp_words]. change (code (chr 39)) with 39. rewrite andb_false_r, eqb_false by done. done. }
  rewrite IH by done. by rewrite <- app_assoc.
Qed.

Lemma split_word w words :
  Forall (fun c => code c <> 39) w -> foldl split_char (mk_split words [] None false false) (quoted w) = mk_split words w None false true.
Proof.
  intros F. unfold quoted. cbn [app foldl]. change (split_char (mk_split words [] None false false) (chr 39)) with (mk_split words [] (Some (chr 39)) false true).
  rewrite foldl_app, split_inside by done. done.
Qed.

Lemma split_words ws words :
  Forall (fun w => Forall (fun c => code c <> 39) w) ws -> ws <> [] ->
  let st := foldl split_char (mk_split words [] None false false) (sb_join (quoted <$> ws) (bs " ")) in
  sp_escaped st = false /\ sp_quote st = None /\ sp_started st = true /\ sp_words st ++ [sp_current st] = words ++ ws.
Proof.
  revert words. induction ws as [|w ws IH]; intros words; [done|]. intros [W F]%Forall_cons _. cbv zeta. destruct ws as [|w' ws].
  - cbn [fmap list_fmap sb_join]. by rewrite split_word.
  - change (sb_join (quoted <$> (w :: w' :: ws)) (bs " ")) with (quoted w ++ bs " " ++ sb_join (quoted <$> (w' :: ws)) (bs " ")).
    rewrite foldl_app, split_word by done. change (bs " ") with [chr 32] at 1. rewrite foldl_app.
    change (foldl split_char (mk_split words w None false true) [chr 32]) with (mk_split (words ++ [w]) [] None false false).
    destruct (IH (words ++ [w]) F ltac:(done)) as (A & B & C & D). split_and!; try done. etrans; [exact D|]. by rewrite <- app_assoc.
Qed.

Lemma no_nul_join ws : Forall (fun w => no_nul w = true) ws -> no_nul (sb_join (quoted <$> ws) (bs " ")) = true.
Proof.
  induction 1 as [|w ws W F IH]; [done|]. assert (no_nul (quoted w) = true) as Q by (unfold quoted; by rewrite !no_nul_app, W).
  destruct ws as [|w' ws]; [done|]. change (sb_join (quoted <$> (w :: w' :: ws)) (bs " ")) with (quoted w ++ bs " " ++ sb_join (quoted <$> (w' :: ws)) (bs " ")).
  rewrite no_nul_app, Q, no_nul_app. by rewrite IH.
Qed.

(** A command line that is written with every word in single quotes is split into
    those words. *)
Theorem split_quoted (ws : list bytes) :
  Forall (fun w => no_nul w = true /\ Forall (fun c => code c <> 39) w) ws -> split_command_line (sb_join (quoted <$> ws) (bs " ")) = Ok ws.
Proof.
  intros F. unfold split_command_line. rewrite cstr_no_nul by (apply no_nul_join; eapply Forall_impl; [exact F|]; by intros w []).
  destruct (decide (ws = [])) as [->|N]; [done|]. destruct (split_words ws [] ltac:(eapply Forall_impl; [exact F|]; by intros w []) N) as (A & B & C & D).
  cbv zeta in *. by rewrite A, B, C, D.
Qed.

(** ** Programs that keep a part of the state *)

Section Along.
Context {T P X : Type} (g : conn T P -> X).

Definition along {A} (m : sql T P A) : Prop := forall s, g (snd (m s)) = g s.

Lemma along_ret {A} (a : A) : along (mret a).
Proof. done. Qed.
Lemma along_pure {A} (r : result A) : along (pure r).
Proof. done. Qed.
Lemma along_bind {A B} (m : sql T P A) (f : A -> sql T P B) : along m -> (forall a, along (f a)) -> along (m ≫= f).
Proof.
  intros M F s. specialize (M s). unfold mbind, sql_bind. destruct (m s) as [[a|e] s']; [|done]. cbn [snd] in M. by rewrite F.
Qed.
Lemma along_attempt {A} (m : sql T P A) : along m -> along (attempt m).
Proof. intros M s. specialize (M s). unfold attempt. by destruct (m s). Qed.
End Along.

(** Goes through a program, leaving the calls it does not know. *)
Ltac alongs :=
  repeat lazymatch goal with
    | |- along _ (mret _) => apply along_ret
    | |- along _ (pure _) => apply along_pure
    | |- along _ (attempt _) => apply along_attempt
    | |- along _ (mbind _ _) => apply along_bind; [|intros ?]
    | |- along _ (match ?x with _ => _ end) => destruct x
    end.

(** A property of the runtime that the supervisor and the Clash service do not have. *)
Class outer {X} (g : agent_runtime -> X) : Prop := { outer_world : forall w r, g (set_world w r) = g r; outer_clash : forall c r, g (put_clash c r) = g r }.

Section Keeps.
Context {K : Type} (env : agent_env K).

Abbreviation state := (conn agent_runtime (system K)).
Abbreviation agent := (sql agent_runtime (system K)).

Context {X : Type} (g : agent_runtime -> X) {Og : outer g}.

(** A program that keeps [g]. *)
Definition keeps {A} (m : agent A) : Prop := along (fun s : state => g (db s)) m.

Lemma keeps_untouched {A} (m : agent A) : frame m -> keeps m.
Proof. intros F s. cbn. by rewrite F. Qed.

Lemma keeps_get : keeps get_rt.
Proof. by intros s. Qed.

Lemma keeps_set f : (forall r, g (f r) = g r) -> keeps (set_rt f).
Proof. intros H s. apply H. Qed.

Lemma keeps_sup {A} (m : sql world (system K) A) : keeps (on_sup m).
Proof. intros s. unfold on_sup. destruct (m _) as [r s']. cbn. apply outer_world. Qed.

Lemma keeps_clash {A} (m : sql sb_agent_clash (system K) A) : keeps (on_clash m).
Proof. intros s. unfold on_clash. destruct (m _) as [r s']. cbn. apply outer_clash. Qed.

Lemma keeps_words l : keeps (run_words env l).
Proof. unfold run_words. destruct l as [|[|c w] l]; [apply along_ret..|apply keeps_sup]. Qed.

Lemma keeps_ask {A} (f : nat -> A) : keeps (ask f).
Proof. by apply keeps_untouched, frame_ask. Qed.
End Keeps.

Section ClientFrames.
Context (client : client_env) {T P : Type}.

Lemma frame_send req : frame (T := T) (P := P) (send_request client req).
Proof.
  intros s. unfold send_request, mbind, sql_bind, attempt, pure. pose proof (perform_spec client req s) as W. unfold wp in W.
  destruct (sb_http_perform _ _ s) as [[r|e] s']; cbn; by destruct W as [(D & _) _].
Qed.

Lemma frame_json c method path body : frame (T := T) (P := P) (send_json client c method path body).
Proof. apply frame_bind; [apply frame_send|done]. Qed.

Lemma frame_post c path body : frame (T := T) (P := P) (post_expect_success client c path body).
Proof. apply frame_bind; [apply frame_json|done]. Qed.

Lemma frame_poll c etag : frame (T := T) (P := P) (sb_agent_client_poll_config client c etag).
Proof. apply frame_bind; [apply frame_send|done]. Qed.

Lemma frame_pending c : frame (T := T) (P := P) (sb_agent_client_pending_commands client c).
Proof. apply frame_bind; [apply frame_json|by intros []]. Qed.

Lemma frame_telemetry c t : frame (T := T) (P := P) (sb_agent_client_report_telemetry client c t).
Proof. unfold sb_agent_client_report_telemetry. destruct (negb _); [done|apply frame_post]. Qed.

Lemma frame_latencies c t : frame (T := T) (P := P) (sb_agent_client_report_proxy_latencies client c t).
Proof. unfold sb_agent_client_report_proxy_latencies. destruct (negb _); [done|]. apply frame_bind; [apply frame_json|done]. Qed.
End ClientFrames.

Section FileFrames.
Context {K : Type} (env : agent_env K) {T : Type}.

Lemma frame_read_optional path what : frame (T := T) (read_optional env path what).
Proof.
  apply frame_bind.
  - apply frame_bind; [apply frame_sys_call|]. intros [e|]; [done|]. apply frame_bind; [apply frame_sys_call|done].
  - intros [|e|text]; [|done..]. apply frame_bind; [|by intros []]. apply frame_bind; [|done]. apply frame_bind; [apply frame_on_memory|done].
Qed.

Lemma frame_target path b : frame (T := T) (read_target (ae_sys env) path b).
Proof. apply frame_bind; [apply frame_read_config|done]. Qed.

Lemma frame_test_proxies ch path tags reporter :
  (forall v, frame (reporter v)) -> frame (T := T) (sb_agent_clash_test_proxies (ae_sys env) ch path tags reporter).
Proof.
  intros R. apply frame_bind; [apply frame_bind; [apply frame_target|done]|]. intros target. apply frame_bind; [apply frame_clash_request|]. intros response.
  destruct (negb _); [done|]. destruct (sbj_get _ _) as [[]|]; try done. apply frame_bind; [done|]. intros names. generalize 0.
  induction (obj_members _) as [|[name v] l IH]; intros n; cbn [test_names]; [done|].
  apply frame_bind; [apply frame_attempt, frame_clash_request|intros delay]. apply frame_bind; [apply R|intros _; apply IH].
Qed.
End FileFrames.

(** ** A cycle *)

(** A program that does not fail. *)
Definition sure {T P A} (m : sql T P A) : Prop := forall s, is_ok (fst (m s)) = true.

Lemma sure_bind {T P A B} (m : sql T P A) (f : A -> sql T P B) : sure m -> (forall a, sure (f a)) -> sure (m ≫= f).
Proof. intros M F s. specialize (M s). unfold mbind, sql_bind. destruct (m s) as [[a|e] s']; [apply F|done]. Qed.

Lemma sure_attempt {T P A} (m : sql T P A) : sure (attempt m).
Proof. intros s. unfold attempt. by destruct (m s). Qed.

Lemma sure_reap {K} (se : sys_env K) px : sure (reap se px).
Proof. intros s. pose proof (wp_reap se px s) as W. unfold wp in W. by destruct (reap se px s) as [[]]. Qed.

Lemma sure_running {K} (se : sys_env K) px : sure (sb_singbox_supervisor_running se px).
Proof. apply sure_bind; [apply sure_reap|intros _]. by apply sure_bind. Qed.

Lemma sure_ensure_alive {K} (se : sys_env K) px : sure (sb_singbox_supervisor_ensure_alive se px).
Proof.
  apply sure_bind; [by intros s|intros p]. apply sure_bind; [apply sure_reap|intros _]. apply sure_bind; [by intros s|intros q].
  apply sure_bind; [by destruct (_ && _); intros s|intros _]. apply sure_bind; [by intros s|intros r]. destruct (_ && _); [|by intros s].
  apply sure_bind; [apply sure_attempt|]. intros [a|e]; by intros s.
Qed.

Section Cycle.
Context {K : Type} (env : agent_env K) (su : agent_setup).

Abbreviation state := (conn agent_runtime (system K)).

Lemma sure_on_sup {A} (m : sql world (system K) A) : sure m -> sure (on_sup m).
Proof. intros M s. specialize (M (mk_conn (rt_world (db s)) (mem s) (asked s))). unfold on_sup. by destruct (m _) as [r s']. Qed.

Definition flags (r : agent_runtime) : bool * bool * bool := (rt_refresh r, rt_reload r, rt_restart r).
#[local] Instance flags_outer : outer flags.
Proof. by split. Qed.

(** Requests of the local interface come from its callbacks only. *)
Abbreviation quiet m := (keeps (K := K) flags m).

Lemma quiet_installed b c : quiet (installed b c).
Proof. unfold installed. unfold keeps. alongs; by apply keeps_set. Qed.

Lemma quiet_validator p : quiet (validate_with_singbox env su p).
Proof. unfold validate_with_singbox, keeps. alongs. apply keeps_words, _. Qed.

Lemma frame_words l : frame (run_words env l).
Proof.
  intros s. unfold run_words. destruct l as [|[|c w] l]; try done. unfold on_sup, run_program. cbn. by destruct (db s).
Qed.

Lemma frame_validator p : frame (validate_with_singbox env su p).
Proof. unfold validate_with_singbox. destruct (negb _); [done|]. apply frame_bind; [apply frame_words|]. intros r. by destruct (fst r). Qed.

Lemma quiet_replace dest contents v : (forall f p, v = Some f -> frame (f p)) -> quiet (sb_atomic_replace_file (ae_sys env) dest contents v).
Proof. intros V. by apply keeps_untouched, frame_replace. Qed.

Lemma quiet_apply config : quiet (apply_config env su config).
Proof.
  unfold apply_config, restore_config, keeps. alongs; try apply keeps_get; try (apply keeps_sup, _); try apply quiet_installed; try (apply keeps_words, _).
  - apply keeps_untouched, frame_read_optional.
  - apply quiet_replace. intros f p [= <-]. apply frame_validator.
  - by apply quiet_replace.
Qed.

Lemma quiet_poll : quiet (poll_and_apply env su).
Proof.
  unfold poll_and_apply, keeps. alongs; [apply keeps_get|apply keeps_untouched, frame_poll|apply quiet_apply|by apply keeps_set].
Qed.

Lemma quiet_command b : quiet (run_runtime_command env su b).
Proof. unfold run_runtime_command, keeps. alongs; try apply keeps_words, _; apply keeps_sup, _. Qed.

Lemma quiet_note b : quiet (note_running env su b).
Proof. unfold note_running, keeps. alongs; [apply keeps_sup, _|by apply keeps_set]. Qed.

Lemma quiet_local a b : quiet (run_local_action env su a b).
Proof. unfold run_local_action, keeps. alongs; [apply quiet_command|apply quiet_note]. Qed.

Lemma quiet_run_command c : quiet (run_command env su c).
Proof.
  unfold run_command, keeps. alongs; try apply quiet_command; try apply quiet_note; try apply keeps_get.
  apply keeps_untouched, frame_test_proxies. intros v. apply frame_bind; [apply frame_latencies|done].
Qed.

Lemma quiet_commands : quiet (run_commands env su).
Proof.
  unfold run_commands, keeps. alongs; [apply keeps_untouched, frame_pending|]. induction a as [|c l IH]; cbn [run_each]; [apply along_ret|].
  apply along_bind; [apply quiet_run_command|intros r]. apply along_bind; [apply keeps_untouched, frame_post|intros _; exact IH].
Qed.

Lemma quiet_sample : quiet (sample_and_report env su).
Proof.
  unfold sample_and_report, update_local_telemetry, current_time_iso8601, keeps.
  alongs; [apply keeps_clash, _|apply keeps_ask|by apply keeps_set|apply keeps_untouched, frame_telemetry].
Qed.

Lemma quiet_status : quiet (report_status env su).
Proof. unfold report_status, keeps. alongs; [apply keeps_get|apply keeps_untouched, frame_post]. Qed.

Lemma quiet_recorded op errors m : quiet m -> quiet (recorded op errors m).
Proof. intros Q. unfold recorded, keeps. alongs. exact Q. Qed.

Lemma quiet_supervise errors : quiet (supervise env su errors).
Proof. unfold supervise, keeps. alongs; try (apply keeps_sup, _); try apply keeps_get. by apply keeps_set. Qed.

Lemma sure_recorded op errors m : sure (recorded (K := K) op errors m).
Proof. apply sure_bind; [apply sure_attempt|done]. Qed.

Lemma sure_supervise errors : sure (supervise env su errors).
Proof.
  unfold supervise. destruct (rt_managed su); [|done]. apply sure_bind; [apply sure_on_sup, sure_ensure_alive|intros _].
  apply sure_bind; [apply sure_on_sup, sure_running|intros b]. by apply sure_bind.
Qed.

Lemma wp_get_rt (Q : agent_runtime -> state -> Prop) E s : Q (db s) s -> wp get_rt Q E s.
Proof. done. Qed.

Lemma wp_set_rt f (Q : unit -> state -> Prop) E s : Q tt (mk_conn (f (db s)) (mem s) (asked s)) -> wp (set_rt f) Q E s.
Proof. done. Qed.

Lemma wp_quiet {A} (m : sql agent_runtime (system K) A) (Q : A -> state -> Prop) E (s : state) :
  sure m -> quiet m -> (forall a s', flags (db s') = flags (db s) -> Q a s') -> wp m Q E s.
Proof.
  intros S F H. specialize (S s). specialize (F s). unfold wp. destruct (m s) as [[a|e] s']; [|done]. by apply H.
Qed.

(** ** The child and the answers of a cycle *)

(** What the calls over the network and on files take. *)
Lemma onward_send {T P} client req : onward (T := T) (P := P) (send_request client req).
Proof. unfold send_request, sb_http_perform. onwards. Qed.
Hint Resolve onward_send : onward.

Lemma onward_json {T P} client c method path body : onward (T := T) (P := P) (send_json client c method path body).
Proof. unfold send_json, client_send. onwards. Qed.
Hint Resolve onward_json : onward.

Lemma onward_post {T P} client c path body : onward (T := T) (P := P) (post_expect_success client c path body).
Proof. unfold post_expect_success. onwards. Qed.
Hint Resolve onward_post : onward.

Lemma onward_clash {T P} client o t path : onward (T := T) (P := P) (sb_clash_get client o t path).
Proof. unfold sb_clash_get, clash_request, sb_http_perform. onwards. Qed.
Hint Resolve onward_clash : onward.

Lemma onward_stream {T} path : onward (T := T) (read_stream (ae_sys env) path).
Proof. unfold read_stream, sys_open, sys_read. onwards; apply onward_sys_call. Qed.
Hint Resolve onward_stream : onward.

Lemma onward_existing {T} path : onward (T := T) (read_existing env path).
Proof. unfold read_existing, read_optional, path_exists_or_fail, path_exists, sys_stat. onwards. Qed.

Lemma onward_target {T} path b : onward (T := T) (read_target (ae_sys env) path b).
Proof. unfold read_target, read_config. onwards. Qed.
Hint Resolve onward_target : onward.

Lemma onward_test_proxies {T} ch path tags reporter :
  (forall v, onward (reporter v)) -> onward (T := T) (sb_agent_clash_test_proxies (ae_sys env) ch path tags reporter).
Proof.
  intros R. assert (N : forall target names count, onward (test_names (T := T) (K := K) ch target reporter names count)).
  { intros target names. induction names as [|[name v] names IH]; intros count; cbn [test_names]; onwards; apply R || apply IH. }
  unfold sb_agent_clash_test_proxies, read_target_default. onwards.
Qed.

Lemma onward_words l : onward (run_words env l).
Proof. unfold run_words. destruct l as [|[|c w] l]; [apply onward_ret..|]. intros s. unfold on_sup, run_program. cbn. lia. Qed.

Section Follow.
Context (I : world -> nat -> Prop) (Ci : child_property (ae_px env) I).

Definition of_child (r : agent_runtime) (n : nat) : Prop := I (rt_world r) n.
Abbreviation follows m := (tracks (P := system K) of_child m).

Lemma follows_frame {A} (m : sql agent_runtime (system K) A) : frame m -> onward m -> follows m.
Proof. apply tracks_frame. intros r n. apply (cp_tick _ _ Ci). Qed.

Lemma follows_sup {A} (m : sql world (system K) A) : tracks I m -> follows (on_sup m).
Proof.
  intros H s Hs. unfold on_sup. specialize (H (mk_conn (rt_world (db s)) (mem s) (asked s)) Hs). by destruct (m _) as [r s'].
Qed.

Lemma follows_set f : (forall r, rt_world (f r) = rt_world r) -> follows (set_rt f).
Proof. intros H s Hs. unfold of_child. cbn. by rewrite H. Qed.

Lemma follows_get : follows get_rt.
Proof. by intros s. Qed.

Lemma follows_ask {A} (f : nat -> A) : follows (ask f).
Proof. intros s H. by apply (cp_tick _ _ Ci). Qed.

Lemma follows_words l : follows (run_words env l).
Proof. apply follows_frame; [apply frame_words|apply onward_words]. Qed.
Hint Resolve follows_get follows_ask follows_words : tracks.
Hint Extern 1 (tracks _ (set_rt _)) => by apply follows_set : tracks.
Hint Extern 1 (tracks _ (on_sup _)) =>
  apply follows_sup; first [by apply tracks_running|by apply tracks_restart|by apply tracks_reload|by apply tracks_ensure_alive|by apply tracks_apply_config] : tracks.

Lemma follows_replace dest contents v :
  (forall f p, v = Some f -> frame (f p)) -> (forall f p, v = Some f -> onward (f p)) -> follows (sb_atomic_replace_file (ae_sys env) dest contents v).
Proof. intros V O. apply follows_frame; [by apply frame_replace|by apply onward_replace]. Qed.

Lemma follows_apply config : follows (apply_config env su config).
Proof.
  unfold apply_config, restore_config, installed, set_running, set_etag, set_rule_source. cbv zeta. tracked.
  - apply follows_frame; [apply frame_read_optional|apply onward_existing].
  - apply follows_replace; intros f p [= <-]; [apply frame_validator|]. unfold validate_with_singbox. onwards. apply onward_words.
  - by apply follows_replace.
Qed.

Lemma follows_poll : follows (poll_and_apply env su).
Proof.
  unfold poll_and_apply, set_rule_source. tracked; [|apply follows_apply].
  apply follows_frame; [apply frame_poll|]. unfold sb_agent_client_poll_config, client_send. onwards.
Qed.

Lemma follows_command b : follows (run_runtime_command env su b).
Proof. unfold run_runtime_command. destruct b; tracked. Qed.
Hint Resolve follows_command : tracks.

Lemma follows_note b : follows (note_running env su b).
Proof. unfold note_running, set_running. tracked. Qed.
Hint Resolve follows_note : tracks.

Lemma follows_local a b : follows (run_local_action env su a b).
Proof. unfold run_local_action. tracked. Qed.

Lemma follows_run_command c : follows (run_command env su c).
Proof.
  unfold run_command. tracked. apply follows_frame.
  - apply frame_test_proxies. intros v. apply frame_bind; [apply frame_latencies|done].
  - apply onward_test_proxies. intros v. unfold report_latency, sb_agent_client_report_proxy_latencies. onwards.
Qed.

Lemma follows_post c path body : follows (post_expect_success (ch_client (ae_ch env)) c path body).
Proof. apply follows_frame; [apply frame_post|apply onward_post]. Qed.

Lemma follows_commands : follows (run_commands env su).
Proof.
  unfold run_commands. apply tracks_bind.
  - apply follows_frame; [apply frame_pending|]. unfold sb_agent_client_pending_commands. onwards.
  - intros l. induction l as [|c l IH]; cbn [run_each]; [apply tracks_ret|].
    apply tracks_bind; [apply follows_run_command|intros r]. apply tracks_bind; [apply follows_post|intros _; exact IH].
Qed.

Lemma follows_clash {A} (m : sql sb_agent_clash (system K) A) : onward m -> follows (on_clash m).
Proof.
  intros O s Hs. unfold on_clash. specialize (O (mk_conn (rt_clash (db s)) (mem s) (asked s))). destruct (m _) as [r s']. cbn in *.
  unfold of_child. cbn. induction O as [|k _ IH]; [exact Hs|]. by apply (cp_tick _ _ Ci).
Qed.

Lemma follows_sample : follows (sample_and_report env su).
Proof.
  unfold sample_and_report, update_local_telemetry, current_time_iso8601. cbv zeta. tracked.
  - apply follows_clash. unfold sb_agent_clash_sample_telemetry. apply onward_bind; [by intros s|intros c]. onwards; intros x; cbn; lia.
  - apply follows_frame; [apply frame_telemetry|]. unfold sb_agent_client_report_telemetry. onwards.
Qed.

Lemma follows_status : follows (report_status env su).
Proof. unfold report_status. tracked. apply follows_post. Qed.

Lemma follows_recorded op errors m : follows m -> follows (recorded op errors m).
Proof. intros H. unfold recorded. tracked. Qed.

Lemma follows_supervise errors : follows (supervise env su errors).
Proof. unfold supervise, set_running. tracked. Qed.
End Follow.

(** ** The queued action *)

(** The command that the device's own sing-box is reloaded or restarted with. *)
Definition action_command (restart : bool) : list bytes := if restart then rt_restart_command su else rt_reload_command su.

(** The action was carried out, with answers from [lo] to [hi]: the command was run and
    ended with code 0, or, where the agent runs sing-box, a child was started, or, for a
    reload, the child was sent a hangup signal. *)
Definition carried_out (restart : bool) (lo hi : nat) : Prop :=
  if rt_managed su then
    (exists n argv pid, (lo <= n < hi)%nat /\ px_spawn (ae_px env) n argv = inl pid) \/
    (restart = false /\ exists n pid, (lo <= n < hi)%nat /\ 0 < pid /\ forall e, px_kill (ae_px env) n pid SIGHUP <> KillError e)
  else
    action_command restart <> [] /\
    exists n files, (lo <= n < hi)%nat /\ fst (run_outcome_detail (ae_sys env) (px_run (ae_px env) n (action_command restart) files)) = true.

Lemma carried_out_mono restart lo hi lo' hi' : (lo' <= lo)%nat -> (hi <= hi')%nat -> carried_out restart lo hi -> carried_out restart lo' hi'.
Proof.
  intros L H. unfold carried_out. destruct (rt_managed su).
  - intros [(n & argv & pid & W & E)|(R & n & pid & W & E)]; [left; exists n, argv, pid|right; split; [done|]; exists n, pid]; (split; [lia|done]).
  - intros (N & n & f & W & E). split; [done|]. exists n, f. split; [lia|done].
Qed.

(** The supervisor has no child, or one that was started since [lo]. *)
Abbreviation fresh lo := (of_child (born (ae_px env) lo)).

Lemma later_asked {A} (m : sql agent_runtime (system K) A) s :
  (forall I, child_property (ae_px env) I -> tracks (P := system K) (of_child I) m) -> (asked s <= asked (snd (m s)))%nat.
Proof. intros H. pose proof (H _ (later_property _ (asked s)) s (le_n _)) as X. exact X. Qed.

Lemma wp_any {T P A} (m : sql T P A) s : wp m (fun _ _ => True) (fun _ _ => True) s.
Proof. unfold wp. by destruct (m s) as [[]]. Qed.

Lemma wp_sup {A} (m : sql world (system K) A) (Q : A -> state -> Prop) (E : sb_err -> state -> Prop) s :
  wp m (fun a s' => Q a (mk_conn (set_world (db s') (db s)) (mem s') (asked s'))) (fun e s' => E e (mk_conn (set_world (db s') (db s)) (mem s') (asked s')))
     (mk_conn (rt_world (db s)) (mem s) (asked s)) -> wp (on_sup m) Q E s.
Proof. unfold wp, on_sup. by destruct (m _) as [[a|e] s']. Qed.

Lemma stop_no_child (s : conn world (system K)) :
  wp (sb_singbox_supervisor_stop (ae_sys env) (ae_px env)) (fun _ s' => sv_child (w_sup (db s')) <= 0) (fun _ _ => True) s.
Proof.
  assert (C : forall s1 : conn world (system K), wp stopped (fun _ s' => sv_child (w_sup (db s')) <= 0) (fun _ _ => True) s1)
    by (intros s1; by apply wp_bind, wp_update, wp_update).
  unfold sb_singbox_supervisor_stop. cbv zeta. apply wp_bind, wp_get_sup. destruct (sv_child (w_sup (db s)) <=? 0) eqn:L; [apply wp_ret; lia|].
  apply wp_bind, wp_on_world, wp_bind. eapply wp_mono; [apply wp_any|cbn beta|done]. intros _ s1 _. apply wp_bind, wp_on_world, wp_bind.
  eapply wp_mono; [apply wp_any|cbn beta|done]. intros [] s2 _; [apply C|]. apply wp_bind, wp_on_world, wp_bind, wp_on_world, C.
Qed.

Lemma sure_stop : sure (sb_singbox_supervisor_stop (ae_sys env) (ae_px env)).
Proof.
  assert (W : forall A f, sure (on_world (A := A) (K := K) f)) by (intros A f s; unfold on_world; by destruct (f _ _)).
  assert (L : forall fuel p d, sure (stop_loop (K := K) (ae_px env) fuel p d)).
  { induction fuel as [|fuel IH]; intros p d; cbn [stop_loop]; [done|]. apply sure_bind; [apply W|intros now]. destruct (d <=? now); [done|].
    apply sure_bind; [apply W|intros a]. destruct a; try done; by apply sure_bind; [apply W|intros _; apply IH]. }
  unfold sb_singbox_supervisor_stop. cbv zeta. apply sure_bind; [done|intros u]. destruct (_ <=? 0); [done|].
  apply sure_bind; [apply W|intros k]. apply sure_bind; [by destruct k|intros _]. apply sure_bind; [apply W|intros now].
  apply sure_bind; [apply L|intros []]; [by apply sure_bind|]. apply sure_bind; [apply W|intros ?]. apply sure_bind; [apply W|intros ?]. by apply sure_bind.
Qed.

Lemma restart_fresh (s : conn world (system K)) :
  let after := fun (s' : conn world (system K)) => born (ae_px env) (asked s) (db s') (asked s') in
  wp (sb_singbox_supervisor_restart (ae_sys env) (ae_px env)) (fun _ => after) (fun _ => after) s.
Proof.
  intros after. pose proof (tracks_stop (ae_sys env) (ae_px env) _ (later_property (ae_px env) (asked s)) s (le_n _)) as O.
  pose proof (stop_no_child s) as C. unfold sb_singbox_supervisor_restart. apply wp_bind. unfold wp in C |- *.
  pose proof (sure_stop s) as Su.
  destruct (sb_singbox_supervisor_stop _ _ s) as [[[]|e] s1]; [|done]. cbn [snd] in O. apply wp_bind, wp_update.
  apply (wp_tracks (born (ae_px env) (asked s))); [apply tracks_start, born_property|]. split; [exact O|left]. exact C.
Qed.

Lemma reload_done (s : conn world (system K)) :
  wp (sb_singbox_supervisor_reload (ae_sys env) (ae_px env))
     (fun _ s' => born (ae_px env) (asked s) (db s') (asked s') \/
        exists n pid, (asked s <= n < asked s')%nat /\ 0 < pid /\ forall e, px_kill (ae_px env) n pid SIGHUP <> KillError e) (fun _ _ => True) s.
Proof.
  unfold sb_singbox_supervisor_reload. apply wp_bind. pose proof (later_property (ae_px env) (asked s)) as L.
  eapply wp_mono; [apply (wp_tracks (fun _ n => (asked s <= n)%nat)); [by apply tracks_reap|done]|cbn beta|done]. intros _ s1 O1.
  apply wp_bind, wp_get_sup. destruct (sv_child (w_sup (db s1)) <=? 0) eqn:C.
  - eapply wp_mono; [apply (wp_tracks (born (ae_px env) (asked s))); [apply tracks_start, born_property|split; [done|left; lia]]|cbn beta|done].
    intros _ s2 B. by left.
  - unfold signal_child. apply wp_bind, wp_get_sup, wp_bind, wp_on_world. cbn [fst snd].
    assert (Ev : (forall e, px_kill (ae_px env) (asked s1) (sv_child (w_sup (db s1))) SIGHUP <> KillError e) -> forall k, (asked s1 < k)%nat ->
      exists n pid, (asked s <= n < k)%nat /\ 0 < pid /\ forall e, px_kill (ae_px env) n pid SIGHUP <> KillError e).
    { intros N k Hk. exists (asked s1), (sv_child (w_sup (db s1))). split_and!; [lia|lia|lia|done]. }
    destruct (px_kill (ae_px env) (asked s1) (sv_child (w_sup (db s1))) SIGHUP) as [| |e] eqn:X.
    + apply wp_update. right. apply Ev; [done|]. cbn. lia.
    + eapply wp_mono; [apply (wp_tracks (fun _ n => (S (asked s1) <= n)%nat)); [|done]|cbn beta|done].
      * apply tracks_bind; [apply tracks_reap, later_property|intros _; apply tracks_start, later_property].
      * intros _ s2 O2. right. apply Ev; [done|lia].
    + by apply wp_pure.
Qed.

(** A run that reports success was carried out. *)
Lemma command_done restart (s : state) :
  wp (run_runtime_command env su restart) (fun r s' => fst r = true -> carried_out restart (asked s) (asked s')) (fun _ _ => True) s.
Proof.
  unfold run_runtime_command, carried_out, action_command. destruct (rt_managed su); cbn [negb].
  2: { unfold run_words. destruct (if restart then rt_restart_command su else rt_reload_command su) as [|[|c w] l] eqn:W; [by apply wp_ret..|].
       apply wp_sup. unfold run_program, wp. cbn. intros F. split; [done|]. exists (asked s), (sy_files (mem s)). split; [lia|exact F]. }
  apply wp_bind, wp_attempt.
  assert (Go : forall s1 : state, (asked s <= asked s1)%nat -> of_child (born (ae_px env) (asked s)) (db s1) (asked s1) ->
    wp (success ← on_sup (sb_singbox_supervisor_running (ae_sys env) (ae_px env)); again ← on_sup (sb_singbox_supervisor_running (ae_sys env) (ae_px env));
        mret (success, if again : bool then bs (if restart then "restarted" else "reloaded") else bs "sing-box did not start"))
       (fun r s' => fst r = true -> exists n argv pid, (asked s <= n < asked s')%nat /\ px_spawn (ae_px env) n argv = inl pid) (fun _ _ => True) s1).
  { intros s1 L1 B1. apply wp_bind.
    assert (R : wp (on_sup (sb_singbox_supervisor_running (ae_sys env) (ae_px env)))
      (fun b (s2 : state) => b = true -> exists n argv pid, (asked s <= n < asked s2)%nat /\ px_spawn (ae_px env) n argv = inl pid) (fun _ _ => True) s1).
    { apply wp_sup. unfold sb_singbox_supervisor_running. apply wp_bind.
      eapply wp_mono; [apply (wp_tracks (born (ae_px env) (asked s))); [apply tracks_reap, born_property|exact B1]|cbn beta|done].
      intros _ s2 [_ B2]. apply wp_bind, wp_get_sup, wp_ret. cbn [asked]. intros P%Z.ltb_lt. destruct B2 as [B2|(k & argv & Hk & E)]; [lia|].
      by exists k, argv, (sv_child (w_sup (db s2))). }
    eapply wp_mono; [exact R|cbn beta|done]. intros b s2 H2. apply wp_bind.
    eapply wp_mono; [apply (wp_tracks (of_child (fun _ n => (asked s2 <= n)%nat))); [apply follows_sup, tracks_running, later_property|apply le_n]|cbn beta|done].
    intros again s3 O3. unfold of_child in O3. apply wp_ret. cbn [fst]. intros ->. destruct (H2 eq_refl) as (n & argv & pid & W & E). exists n, argv, pid. split; [lia|done]. }
  destruct restart.
  - apply wp_sup. eapply wp_mono; [apply restart_fresh|..]; cbn beta; cbn [asked]; [|intros e s1 _; by apply wp_ret].
    intros _ s1 B. eapply wp_mono; [apply Go; [apply B|exact B]|cbn beta|done]. intros r s2 H F. left. by apply H.
  - apply wp_sup. eapply wp_mono; [apply reload_done|..]; cbn beta; cbn [asked]; [|intros e s1 _; by apply wp_ret].
    intros _ s1 [B|(n & pid & W & P & N)].
    + eapply wp_mono; [apply Go; [apply B|exact B]|cbn beta|done]. intros r s2 H F. left. by apply H.
    + set (s1' := mk_conn _ _ _). eapply wp_mono; [apply (wp_tracks (of_child (fun _ n => (asked s1 <= n)%nat)) _ s1')|cbn beta|done].
      * apply tracks_bind; [apply follows_sup, tracks_running, later_property|intros b].
        apply tracks_bind; [apply follows_sup, tracks_running, later_property|intros b']. apply tracks_ret.
      * unfold of_child. cbn. lia.
      * intros r s2 O F. unfold of_child in O. right. split; [done|]. exists n, pid. split; [lia|done].
Qed.

Lemma local_done reload restart (s : state) :
  reload || restart = true ->
  wp (run_local_action env su reload restart) (fun _ s' => carried_out restart (asked s) (asked s')) (fun _ _ => True) s.
Proof.
  intros R. unfold run_local_action. replace (negb reload && negb restart) with false by (by destruct reload, restart).
  apply wp_bind. eapply wp_mono; [apply command_done|cbn beta|done]. intros [ok m] s1 H. cbn [fst] in H. apply wp_bind.
  eapply wp_mono; [apply (wp_tracks (of_child (fun _ n => (asked s1 <= n)%nat))); [apply follows_note, later_property|apply le_n]|cbn beta|done].
  intros _ s2 O. unfold of_child in O. destruct ok; cbn [fst snd]; [|by apply wp_pure]. apply wp_ret. by apply (carried_out_mono restart (asked s) (asked s1)); [..|apply H].
Qed.

Lemma local_fresh reload (s : state) :
  rt_managed su = true -> let after := fun (s' : state) => fresh (asked s) (db s') (asked s') in
  wp (run_local_action env su reload true) (fun _ => after) (fun _ => after) s.
Proof.
  intros M after. pose proof (born_property (ae_px env) (asked s)) as P.
  assert (R : wp (run_runtime_command env su true) (fun _ => after) (fun _ => after) s).
  { unfold run_runtime_command. rewrite M. cbn [negb]. apply wp_bind, wp_attempt, wp_sup.
    eapply wp_mono; [apply restart_fresh|..]; cbn beta; intros a s1 B; apply (wp_tracks (fresh (asked s))); try exact B; [|apply tracks_ret].
    apply tracks_bind; [by apply follows_sup, tracks_running|intros b]. apply tracks_bind; [by apply follows_sup, tracks_running|intros b']. apply tracks_ret. }
  unfold run_local_action. rewrite andb_false_r. apply wp_bind. eapply wp_mono; [exact R|cbn beta|done]. intros r s1 B.
  apply (wp_tracks (fresh (asked s))); [|exact B]. apply tracks_bind; [by apply follows_note|intros _]. destruct (fst r); [apply tracks_ret|apply tracks_pure].
Qed.

(** ** The steps of a cycle *)

(** A step that asks for nothing, and after which the supervisor has the child it had
    or a newer one. *)
Definition civil {A} (m : sql agent_runtime (system K) A) : Prop :=
  quiet m /\ forall I, child_property (ae_px env) I -> tracks (P := system K) (of_child I) m.

Definition stepped (s s' : state) : Prop :=
  flags (db s') = flags (db s) /\ (asked s <= asked s')%nat /\ forall lo, fresh lo (db s) (asked s) -> fresh lo (db s') (asked s').

Lemma stepped_trans s1 s2 s3 : stepped s1 s2 -> stepped s2 s3 -> stepped s1 s3.
Proof. intros (F1 & A1 & B1) (F2 & A2 & B2). split_and!; [congruence|lia|auto]. Qed.

Lemma civil_stepped {A} (m : sql agent_runtime (system K) A) s : civil m -> stepped s (snd (m s)).
Proof.
  intros [Qm Tm]. split_and!; [apply Qm|by apply later_asked|]. intros lo. apply (Tm _ (born_property _ lo)).
Qed.

Lemma wp_recorded op errors m (Q : list bytes -> state -> Prop) E (s : state) :
  civil m -> (forall errors' s', stepped s s' -> errors `prefix_of` errors' -> Q errors' s') -> wp (recorded op errors m) Q E s.
Proof.
  intros C H. pose proof (civil_stepped m s C) as St. unfold recorded, wp, mbind, sql_bind, attempt. destruct (m s) as [[a|e] s']; cbn in *.
  - by apply H.
  - apply H; [done|]. by eexists.
Qed.

Lemma civil_poll : civil (poll_and_apply env su).
Proof. split; [apply quiet_poll|intros I C; by apply follows_poll]. Qed.
Lemma civil_local a b : civil (run_local_action env su a b).
Proof. split; [apply quiet_local|intros I C; by apply follows_local]. Qed.
Lemma civil_commands : civil (run_commands env su).
Proof. split; [apply quiet_commands|intros I C; by apply follows_commands]. Qed.
Lemma civil_sample : civil (sample_and_report env su).
Proof. split; [apply quiet_sample|intros I C; by apply follows_sample]. Qed.
Lemma civil_status : civil (report_status env su).
Proof. split; [apply quiet_status|intros I C; by apply follows_status]. Qed.

Lemma wp_supervise errors (Q : list bytes -> state -> Prop) E (s : state) :
  (forall errors' s', stepped s s' -> errors `prefix_of` errors' -> Q errors' s') -> wp (supervise env su errors) Q E s.
Proof.
  intros H. assert (St : stepped s (snd (supervise env su errors s))).
  { apply civil_stepped. split; [apply quiet_supervise|intros I C; by apply follows_supervise]. }
  pose proof (sure_supervise errors s) as Su.
  assert (P : wp (supervise env su errors) (fun errors' _ => errors `prefix_of` errors') (fun _ _ => True) s).
  { unfold supervise. destruct (rt_managed su); [|by apply wp_ret]. do 3 (apply wp_bind; eapply wp_mono; [apply wp_any|intros ? ? _|done]).
    apply wp_bind, wp_get_rt, wp_ret. destruct (sv_error _); [by eexists|done]. }
  unfold wp in P |- *. destruct (supervise env su errors s) as [[l|e] s']; [|done]. by apply H.
Qed.

(** The queued action with its record. *)
Lemma wp_local_recorded errors reload restart (Q : list bytes -> state -> Prop) E (s : state) :
  (forall errors' s', stepped s s' -> errors `prefix_of` errors' ->
     (reload || restart = true -> carried_out restart (asked s) (asked s') \/ exists m, (bs "local action: " ++ m) ∈ errors') ->
     (rt_managed su = true -> restart = true -> fresh (asked s) (db s') (asked s')) -> Q errors' s') ->
  wp (recorded "local action" errors (run_local_action env su reload restart)) Q E s.
Proof.
  intros H. pose proof (civil_stepped _ s (civil_local reload restart)) as St. pose proof (local_done reload restart s) as D.
  assert (F : rt_managed su = true -> restart = true -> fresh (asked s) (db (snd (run_local_action env su reload restart s)))
                                                          (asked (snd (run_local_action env su reload restart s)))).
  { intros M ->. pose proof (local_fresh reload s M) as L. unfold wp in L. by destruct (run_local_action env su reload true s) as [[]]. }
  unfold wp in D. unfold recorded, wp, mbind, sql_bind, attempt. destruct (run_local_action env su reload restart s) as [[a|e] s']; cbn in *.
  - apply H; [done|done|intros R; left; by apply D|done].
  - apply H; [done|by eexists| |done]. intros _. right. exists (err_msg e). apply elem_of_app. right. left.
Qed.

Lemma cycle_spec (s : state) :
  wp (run_cycle env su) (fun ok s' => exists errors,
    flags (db s') = (false, false, false) /\
    (exists n, (asked s <= n)%nat /\ asked s' = S n /\ rt_cycle (db s') = Some (sb_rfc3339 (ae_time env n))) /\
    rt_error (db s') = (match errors with [] => None | _ => Some (sb_join errors (bs "; ")) end) /\ ok = (match errors with [] => true | _ => false end) /\
    (rt_reload (db s) || rt_restart (db s) = true ->
       carried_out (rt_restart (db s)) (asked s) (asked s') \/ exists m, (bs "local action: " ++ m) ∈ errors) /\
    (rt_managed su = true -> rt_restart (db s) = true -> fresh (asked s) (db s') (asked s'))) (fun _ _ => False) s.
Proof.
  unfold run_cycle. apply wp_bind. unfold take_queued_actions. apply wp_bind, wp_get_rt.
  match goal with |- wp _ ?Q0 _ _ => set (Q := Q0) end.
  assert (Go : forall s1 : state, flags (db s1) = (false, false, false) -> asked s1 = asked s -> Q (rt_reload (db s), rt_restart (db s)) s1).
  { intros s1 F1 A1. unfold Q. cbn [fst snd].
    apply wp_bind, wp_recorded; [apply civil_poll|intros e1 s2 T2 _]. apply wp_bind, wp_local_recorded. intros e2 s3 T3 _ D3 R3.
    apply wp_bind, wp_supervise. intros e3 s4 T4 P3. apply wp_bind, wp_recorded; [apply civil_commands|intros e4 s5 T5 P4].
    apply wp_bind, wp_attempt. pose proof (civil_stepped _ s5 civil_sample) as T6.
    assert (Fin : forall s6, stepped s5 s6 -> wp (errors ← recorded "status report" e4 (report_status env su); _ ← finish_cycle env errors;
      mret (match errors with [] => true | _ => false end)) (fun ok s' => exists errors, flags (db s') = (false, false, false) /\
    (exists n, (asked s <= n)%nat /\ asked s' = S n /\ rt_cycle (db s') = Some (sb_rfc3339 (ae_time env n))) /\
    rt_error (db s') = (match errors with [] => None | _ => Some (sb_join errors (bs "; ")) end) /\ ok = (match errors with [] => true | _ => false end) /\
    (rt_reload (db s) || rt_restart (db s) = true ->
       carried_out (rt_restart (db s)) (asked s) (asked s') \/ exists m, (bs "local action: " ++ m) ∈ errors) /\
    (rt_managed su = true -> rt_restart (db s) = true -> fresh (asked s) (db s') (asked s'))) (fun _ _ => False) s6).
    { clear T6. intros s6 T6. apply wp_bind, wp_recorded; [apply civil_status|intros errors s7 T7 P6].
      assert (T : stepped s3 s7) by (do 3 (eapply stepped_trans; [eassumption|]); done).
      apply wp_bind, wp_bind, wp_bind, wp_ask, wp_ret, wp_set_rt, wp_ret. exists errors.
      destruct T2 as (F2 & A2 & _), T3 as (F3 & A3 & _), T as (F7 & A7 & B7).
      cbn [db asked mem put_cycle rt_cycle rt_error]. split_and!; try done.
      - change (flags (db s7) = (false, false, false)). congruence.
      - exists (asked s7). split_and!; [lia|done|done].
      - intros R. destruct (D3 R) as [D|(m & Hm)]; [left; eapply carried_out_mono; [| |exact D]; lia|right]. exists m.
        assert (Pr : e2 `prefix_of` errors) by (do 2 (etrans; [eassumption|]); done). destruct Pr as (l & ->). apply elem_of_app. by left.
      - intros M R. assert (L : fresh (asked s2) (db s7) (asked s7)) by (apply B7; by apply R3).
        apply (cp_tick _ _ (born_property (ae_px env) (asked s))). destruct L as [L1 L2]. unfold of_child, born in *. split; [lia|].
        destruct L2 as [L2|(n & argv & Hn & X)]; [by left|right]. exists n, argv. split; [lia|exact X]. }
    unfold wp in Fin |- *. destruct (sample_and_report env su s5) as [[a|e] s6]; by apply Fin. }
  destruct (rt_refresh (db s)); apply wp_bind; [apply wp_set_rt|apply wp_ret]; apply wp_bind, wp_set_rt; by apply wp_ret, Go.
Qed.

End Cycle.

(** ** The installed configuration *)

(** Since [m0] a power loss leaves the file with one of two contents. *)
Definition only_texts {K} (path : bytes) (a b : option bytes) (m0 m : system K) : Prop :=
  exists since, sy_past m = since ++ sy_past m0 /\ forall st c, st ∈ current m :: since -> crash_may st path c -> c = a \/ c = b.

Lemma only_texts_trans {K} path a b (m0 m1 m2 : system K) : only_texts path a b m0 m1 -> only_texts path a b m1 m2 -> only_texts path a b m0 m2.
Proof.
  intros (l1 & E1 & H1) (l2 & E2 & H2). exists (l2 ++ l1). rewrite E2, E1, app_assoc. split; [done|]. intros st c [->|[X|X]%elem_of_app]%elem_of_cons.
  - apply H2. left.
  - apply H2. by right.
  - apply H1. by right.
Qed.

Lemma only_texts_swap {K} path a b (m0 m : system K) : only_texts path a b m0 m -> only_texts path b a m0 m.
Proof. intros (l & E & H). exists l. split; [done|]. intros st c X Y. destruct (H st c X Y); auto. Qed.

Lemma covered_texts {T K} path contents old (s0 : conn T (system K)) m : covered path contents old s0 m -> only_texts path old (Some contents) (mem s0) m.
Proof. intros (l & E & F). exists l. split; [done|]. intros st c X. rewrite Forall_forall in F. by apply F. Qed.

Lemma settled_texts {K} path a b (m : system K) : settled m path a -> only_texts path a b m m.
Proof. intros S. exists []. split; [done|]. intros st c ->%list_elem_of_singleton C. left. by apply S. Qed.

Lemma still_on_world {K A} (f : world -> nat -> A * world) : along (mem (T := world) (P := system K)) (on_world f).
Proof. intros s. unfold on_world. by destruct (f _ _). Qed.

Lemma still_reap {K} (se : sys_env K) px : along mem (reap se px).
Proof. intros s. pose proof (wp_reap se px s) as W. unfold wp in W. destruct (reap se px s) as [[]]; by destruct W. Qed.

Lemma still_stat {T K} (se : sys_env K) path : along (mem (T := T)) (sys_stat se path).
Proof. by intros s. Qed.

Lemma still_start {K} (se : sys_env K) px early : along mem (start se px early).
Proof.
  unfold start, is_regular_file, start_child, system_fail.
  alongs; try apply still_reap; try apply still_stat; try apply still_on_world; by intros s.
Qed.

Lemma still_signal {K} (se : sys_env K) px : along mem (signal_child se px).
Proof. unfold signal_child. alongs; try apply still_reap; try apply still_start; try apply still_on_world; by intros s. Qed.

Lemma still_running {K} (se : sys_env K) px : along mem (sb_singbox_supervisor_running se px).
Proof. unfold sb_singbox_supervisor_running. alongs; [apply still_reap|by intros s]. Qed.

Lemma wp_along {T P A X} (g : conn T P -> X) (m : sql T P A) (Q : A -> conn T P -> Prop) (E : sb_err -> conn T P -> Prop) s :
  along g m -> (forall a s', g s' = g s -> Q a s') -> (forall e s', g s' = g s -> E e s') -> wp m Q E s.
Proof. intros L H1 H2. specialize (L s). unfold wp. destruct (m s) as [[a|e] s']; auto. Qed.

Section Apply.
Context {K : Type} (env : agent_env K) (su : agent_setup).

Abbreviation state := (conn agent_runtime (system K)).
Let se := ae_sys env.
Let px := ae_px env.
Let path := rt_config_path su.

Hypothesis path_plain : cstr path = path.

(** The supervisor installs or leaves the file. *)
Lemma wp_sup_apply contents old (s : conn world (system K)) :
  sv_config_path (w_sup (db s)) = path -> settled (mem s) path old ->
  wp (sb_singbox_supervisor_apply_config se px contents)
    (fun _ s' => settled (mem s') path (Some contents) /\ only_texts path old (Some contents) (mem s) (mem s'))
    (fun _ s' => only_texts path old (Some contents) (mem s) (mem s')) s.
Proof.
  intros Pa S. unfold sb_singbox_supervisor_apply_config. apply wp_bind, wp_get_sup. rewrite Pa. apply wp_bind.
  eapply wp_mono; [apply (wp_replace se path contents old s S (Some (validate se px)) (validate_reads se px) path_plain)|cbn beta|].
  - intros _ s1 ([_ C] & St & _). apply covered_texts in C.
    assert (Same : forall s2 : conn world (system K), mem s2 = mem s1 ->
      settled (mem s2) path (Some contents) /\ only_texts path old (Some contents) (mem s) (mem s2)) by (intros s2 ->; done).
    apply wp_bind, (wp_along mem); [apply still_reap| |intros e s2 M; by apply Same]. intros _ s2 M2. apply wp_bind, wp_get_sup.
    destruct (0 <? _); apply (wp_along mem); try apply still_signal; try apply still_start; intros ? s3 M3; apply Same; congruence.
  - intros e s1 [_ C]. by apply covered_texts in C.
Qed.

Lemma validator_reads : only_reads (Some (validate_with_singbox env su)).
Proof.
  intros v p s [= <-]. split; [apply frame_validator|]. unfold validate_with_singbox, mbind, sql_bind, run_words, on_sup, run_program.
  destruct (negb _); [done|]. destruct (rt_singbox_bin su); [done|]. cbn. by destruct (fst _).
Qed.

Lemma words_still l (s : state) : db (snd (run_words env l s)) = db s /\ mem (snd (run_words env l s)) = mem s.
Proof. split; [apply frame_words|]. unfold run_words. by destruct l as [|[|c w] l]. Qed.

Lemma words_sure l : sure (run_words env l).
Proof. intros s. unfold run_words. by destruct l as [|[|c w] l]. Qed.

Lemma wp_words l (Q : bool * bytes -> state -> Prop) E (s : state) :
  (forall r n, Q r (mk_conn (db s) (mem s) n)) -> wp (run_words env l) Q E s.
Proof.
  intros H. pose proof (words_sure l s) as S. destruct (words_still l s) as [D M]. unfold wp. destruct (run_words env l s) as [[r|e] [d m n]]; [|done].
  cbn in D, M. subst. apply H.
Qed.

(** Reading the file finds what a power loss would leave. *)
Lemma wp_read_existing old (s : state) (Q : option bytes -> state -> Prop) (E : sb_err -> state -> Prop) :
  settled (mem s) path old -> (forall n previous, (previous = None \/ previous = old) -> Q previous (mk_conn (db s) (mem s) n)) ->
  (forall e n, E e (mk_conn (db s) (mem s) n)) -> wp (read_existing env path) Q E s.
Proof.
  intros S HQ HE. unfold read_existing, read_optional, read_stream, sys_open, sys_read.
  apply wp_bind, wp_bind, wp_sys_call; [|destruct (sy_files (mem s) !! path) as [x|] eqn:L].
  1,3: cbn beta iota; try (intros e); apply wp_ret; unfold path_exists_or_fail, path_exists;
    apply wp_bind, wp_bind, wp_bind, wp_on_memory, wp_ret, wp_pure; cbn [fst snd mem db];
    destruct (match _ with inl _ => inl true | inr (ENOENT | ENOTDIR) => inl false | inr e0 => inr e0 end) as [[]|]; cbn beta iota;
    [apply wp_pure, HE|apply wp_ret, HQ; by left|apply HE].
  apply wp_bind, wp_sys_call; cbn [mem db asked].
  - intros e. apply wp_ret, wp_pure, HE.
  - rewrite L. destruct x as [f|m]; apply wp_ret; [|apply wp_pure, HE]. apply wp_ret, HQ. right.
    apply S. left. cbn. unfold file_at. rewrite L. by left.
Qed.

(** How an installation ends: the file and the entity tag move together. *)
Definition applied (config : sb_agent_config_response) (old : option bytes) (contents : bytes) (s : state) (r : result unit) (s' : state) : Prop :=
  only_texts path old (Some contents) (mem s) (mem s') /\
  match r with
  | Ok _ => settled (mem s') path (Some contents) /\ rt_etag (db s') = Some (cstr (ac_etag config))
  | Err _ => rt_etag (db s') = rt_etag (db s)
  end.

Lemma wp_installed b config old contents (s s1 : state) :
  only_texts path old (Some contents) (mem s) (mem s1) -> settled (mem s1) path (Some contents) ->
  wp (installed b config) (fun u => applied config old contents s (Ok u)) (fun e => applied config old contents s (Err e)) s1.
Proof. intros C S. apply wp_bind, wp_set_rt, wp_bind, wp_set_rt, wp_set_rt. by split. Qed.

Lemma wp_restore config old contents previous detail (s s1 : state) :
  (previous = None \/ previous = old) -> only_texts path old (Some contents) (mem s) (mem s1) -> settled (mem s1) path (Some contents) ->
  rt_etag (db s1) = rt_etag (db s) ->
  wp (restore_config env su previous detail) (fun u => applied config old contents s (Ok u)) (fun e => applied config old contents s (Err e)) s1.
Proof.
  intros Pr C S Et. unfold restore_config. apply wp_bind. destruct previous as [text|]; [|by apply wp_ret, wp_pure].
  destruct Pr as [[=]|<-]. apply wp_bind.
  assert (V : only_reads (T := agent_runtime) (K := K) None) by (intros v p x [=]).
  assert (Back : forall m, covered path text (Some contents) s1 m -> only_texts path (Some text) (Some contents) (mem s) m)
    by (intros m Cm; eapply only_texts_trans; [exact C|]; by apply only_texts_swap, covered_texts).
  eapply wp_mono; [apply (wp_replace se path text (Some contents) s1 S None V path_plain)|cbn beta|].
  - intros _ s2 ([D Cv] & _). apply wp_bind, wp_words. intros r n. apply wp_ret, wp_pure. cbn. split; [by apply Back|]. cbn. by rewrite D.
  - intros e s2 [D Cv]. split; [by apply Back|]. by rewrite D.
Qed.

(** C21: a configuration is installed whole or not at all.  Whatever fails (the check by
    sing-box, the disk, the reload, putting the old text back), at every moment a power
    loss leaves the configuration file with the text it had or with all of the text
    prepared from the panel's answer; after a success it leaves the new one and the
    agent has the entity tag of it; after a failure the agent keeps the tag it had,
    so the next poll asks for the configuration again. *)
Theorem apply_keeps_config (config : sb_agent_config_response) old (s s' : state) r :
  (rt_managed su = true -> sv_config_path (w_sup (rt_world (db s))) = path) -> settled (mem s) path old ->
  apply_config env su config s = (r, s') ->
  match sb_prepare_agent_config (cstr (ac_body config)) (sb_agent_config_options_copy (rt_options (db s))) with
  | Ok prepared => applied config old (cstr prepared) s r s'
  | Err e => r = Err e /\ s' = s
  end.
Proof.
  intros M S R. unfold apply_config, mbind at 1, sql_bind at 1, get_rt in R. cbn beta iota in R.
  set (o := sb_agent_config_options_copy _) in *. destruct (sb_prepare_agent_config _ o) as [prepared|e] eqn:Pr.
  2: { unfold mbind, sql_bind, pure in R. cbn beta iota in R. by injection R as <- <-. }
  unfold mbind at 1, sql_bind at 1, pure at 1 in R. cbn beta iota zeta in R. set (contents := cstr prepared) in *.
  match type of R with ?m s = _ => assert (W : wp m (fun u => applied config old contents s (Ok u)) (fun e => applied config old contents s (Err e)) s) end.
  2: { unfold wp in W. rewrite R in W. by destruct r as [[]|]. }
  destruct (rt_managed su).
  - apply wp_bind. unfold on_sup at 1, wp. pose proof (wp_sup_apply contents old (mk_conn (rt_world (db s)) (mem s) (asked s)) (M eq_refl) S) as W. unfold wp in W.
    fold se px. destruct (sb_singbox_supervisor_apply_config se px contents _) as [[[]|e] s1]; [|by split]. destruct W as [St C].
    change (wp (running ← on_sup (sb_singbox_supervisor_running se px); installed running config) (fun u => applied config old contents s (Ok u))
      (fun e => applied config old contents s (Err e)) (mk_conn (set_world (db s1) (db s)) (mem s1) (asked s1))).
    apply wp_bind. unfold on_sup, wp. cbn [db mem asked rt_world set_world].
    pose proof (still_running se px (mk_conn (db s1) (mem s1) (asked s1))) as L. pose proof (sure_running se px (mk_conn (db s1) (mem s1) (asked s1))) as Su.
    destruct (sb_singbox_supervisor_running se px _) as [[b|e] s2]; [|done]. cbn in L.
    apply (wp_installed b config old contents s); cbn; by rewrite L.
  - apply wp_bind, (wp_read_existing old); [done| |intros e n; split; [by apply settled_texts|done]]. intros n previous Prev. apply wp_bind.
    set (s1 := mk_conn (db s) (mem s) n : state).
    eapply wp_mono; [apply (wp_replace se path contents old s1 S (Some (validate_with_singbox env su)) validator_reads path_plain)|cbn beta|].
    + intros _ s2 ([D C] & St & _). apply covered_texts in C. apply wp_bind, wp_words. intros w k. destruct (fst w).
      * by apply wp_installed.
      * apply wp_restore; try done. cbn. by rewrite D.
    + intros e s2 [D C]. apply covered_texts in C. split; [done|]. by rewrite D.
Qed.
End Apply.

(** ** The credential *)

(** A credential of an enrollment: the fields that C reads as strings have no
    terminator inside, and all are UTF-8. *)
Record credential_plain (c : sb_device_credential) : Prop := {
  cp_complete : dc_server c <> [] /\ dc_token c <> [];
  cp_strings : Forall (fun v => no_nul v = true) [dc_server c; dc_host_id c; dc_token c; dc_profile_id c];
  cp_utf8 : Forall (fun v => valid_utf8 v = true)
              [dc_server c; dc_host_id c; dc_host_name c; dc_token c; dc_profile_id c; dc_profile_name c] }.

Definition identity_from (c : sb_device_credential) : agent_identity :=
  mk_identity (dc_server c) (dc_token c) (dc_host_id c) (dc_host_name c) (dc_profile_id c) (dc_profile_name c).

Lemma credential_members c :
  credential_plain c ->
  credential_json c = SBJ_OBJECT [(bs "agent_token", SBJ_STRING (dc_token c)); (bs "host_id", SBJ_STRING (dc_host_id c));
    (bs "host_name", SBJ_STRING (dc_host_name c)); (bs "profile_id", SBJ_STRING (dc_profile_id c));
    (bs "profile_name", SBJ_STRING (dc_profile_name c)); (bs "server", SBJ_STRING (dc_server c))].
Proof.
  intros [_ S _]. rewrite !Forall_cons in S. destruct S as (S1 & S2 & S3 & S4 & _). unfold credential_json, sbj_set_str.
  rewrite !(cstr_no_nul _) by done. reflexivity.
Qed.

Lemma credential_printable c : credential_plain c -> printable (credential_json c) = true /\ nests (credential_json c) SBJ_MAX_DEPTH = true.
Proof.
  intros P. rewrite credential_members by done. destruct P as [_ _ U]. rewrite !Forall_cons in U. destruct U as (U1 & U2 & U3 & U4 & U5 & U6 & _).
  split; [|reflexivity]. unfold printable. cbn [utf8_clean floats_ok forallb fst snd]. rewrite U1, U2, U3, U4, U5, U6. reflexivity.
Qed.

Lemma credential_parses c : credential_plain c -> parse_json_lenient (credential_text c) = Some (credential_json c).
Proof.
  intros P. destruct (credential_printable c P) as [Pr N]. unfold credential_text, parse_json_lenient. cbn [sbj_dump].
  rewrite cstr_no_nul by (by apply dump_no_nul). set (text := dump_value 2 (credential_json c) 0 ++ [chr 10]).
  assert (sbj_parse text = Some (credential_json c)) as E by (unfold sbj_parse, sbj_parse_msg, text; by rewrite document_round_ws).
  assert (exists rest, text = chr 123 :: rest) as [rest T] by (unfold text; rewrite credential_members by done; by eexists).
  assert (skip_bom text = text) as B.
  { unfold skip_bom. rewrite (proj2 (bytes_eqb_neq _ _)); [done|]. rewrite T. cbn [take]. intros [=]. }
  rewrite B. rewrite T in E |- *. exact E.
Qed.

Lemma credential_identity path c : credential_plain c -> identity_of path (credential_json c) = Ok (identity_from c).
Proof.
  intros P. rewrite credential_members by done. destruct P as [[C1 C2] S _]. rewrite !Forall_cons in S. destruct S as (S1 & S2 & S3 & S4 & _).
  destruct c as [server host_id host_name token profile_id profile_name]. cbn [dc_server dc_host_id dc_host_name dc_token dc_profile_id dc_profile_name] in *.
  unfold identity_of, value_text. eval_get. unfold mbind, result_bind. rewrite !(cstr_no_nul _) by done.
  rewrite (proj2 (bytes_eqb_neq server [])), (proj2 (bytes_eqb_neq token [])) by done. done.
Qed.

Section Credential.
Context {K : Type} (env : agent_env K) {T : Type}.
Let se := ae_sys env.

(** A stored credential can be read by its owner only and is read back: loading it
    gives the server, the token and the names that the enrollment gave. *)
Theorem credential_roundtrip (path : bytes) (c : sb_device_credential) old (s s' : conn T (system K)) :
  no_nul path = true -> credential_plain c -> settled (mem s) path old -> save_device_credential env path c s = (Ok tt, s') ->
  (exists f, sy_files (mem s') !! path = Some (Regular f) /\ f_data f = credential_text c /\ f_mode f = 384) /\
  (sys_errno se (asked s') = None -> sys_errno se (S (asked s')) = None -> fst (load_device_credential env path s') = Ok (Some (identity_from c))).
Proof.
  intros N P S. unfold save_device_credential, mbind, sql_bind.
  assert (V : only_reads (T := T) (K := K) None) by (intros v p x [=]).
  pose proof (wp_replace se path (credential_text c) old s S None V (cstr_no_nul _ N)) as W. unfold wp in W. fold se.
  destruct (sb_atomic_replace_file se path (credential_text c) None s) as [[[]|e] s1]; [|by intros [=]].
  destruct W as (_ & _ & L & _). unfold sys_chmod, sys_call, on_memory, pure. fold se. destruct (sys_errno se (asked s1)); [by intros [=]|]. rewrite L.
  intros [= <-]. cbn [mem asked db sy_files files_to]. split.
  - eexists. rewrite lookup_insert_eq. split; [reflexivity|]. done.
  - intros E1 E2. unfold load_device_credential, read_stream, sys_open, sys_read, sys_call, on_memory, mbind, sql_bind. fold se. cbn [mem asked db sy_files files_to].
    rewrite E1, lookup_insert_eq. cbn [mem asked db sy_files files_to]. rewrite E2. rewrite lookup_insert_eq. cbn [f_data]. unfold mret, sql_ret. cbv beta iota. rewrite credential_parses by done.
    rewrite credential_members by done. unfold pure. rewrite <- credential_members by done. by rewrite credential_identity.
Qed.
End Credential.

(** ** Examples *)

(** An agent of another service manager, whose reload fails. *)
Definition demo_env : agent_env unit :=
  mk_agent_env unit demo_sys (mk_process_env (fun _ argv _ => Ran (Exited (if bytes_eqb (default [] (argv !! 1%nat)) (bs "check") then 0 else 1)))
      (fun _ => None) (fun _ _ => inr (EOTHER 1)) (fun _ => StillRunning) (fun _ => inl NoStatus) (fun _ _ _ => Delivered) (fun _ => 0%nat))
    demo_clash_env (fun _ => None) (fun _ => 0) (fun _ => None) (fun _ => None).
Definition demo_setup : agent_setup :=
  mk_setup demo_conf (mk_identity (bs "https://panel.example") (bs "token") [] [] [] []) (bs "settings.json") (bs "sing-box") false
    [bs "systemctl"; bs "reload"] [bs "systemctl"; bs "restart"] true demo_agent.
Definition demo_runtime : agent_runtime :=
  mk_runtime (db demo_supervised) (sb_agent_clash_new (Some demo_conf)) (mk_options false None None None None) (Some (bs "W/6")) None None None default_telemetry
    (bs "profile") true false false.
Definition demo_device : conn agent_runtime (system unit) := mk_conn demo_runtime (mk_system demo_tree demo_tree [] tt) 0.
Definition demo_answer : sb_agent_config_response := mk_config_response true (bs "W/7") (bs "{}") (bs "profile").

(** The old text is put back and the old tag is kept. *)
Lemma apply_keeps_config_witness :
  exists e s', apply_config demo_env demo_setup demo_answer demo_device = (Err e, s') /\
    only_texts demo_conf (Some (bs "old")) (Some (bs "{}")) (mem demo_device) (mem s') /\ rt_etag (db s') = Some (bs "W/6") /\
    (f_data <$> file_at (sy_files (mem s')) demo_conf) = Some (bs "old").
Proof.
  assert (S0 : settled (mem demo_device) demo_conf (Some (bs "old"))).
  { intros c [H|H]; cbn in H; destruct H as [H|[H _]]; try exact H; discriminate H. }
  destruct (apply_config demo_env demo_setup demo_answer demo_device) as [r s'] eqn:E.
  pose proof (apply_keeps_config demo_env demo_setup ltac:(reflexivity) demo_answer (Some (bs "old")) demo_device s' r ltac:(intros H; discriminate H) S0 E) as W.
  assert (X : (is_ok r, f_data <$> file_at (sy_files (mem s')) demo_conf) = (false, Some (bs "old"))).
  { change (is_ok r, f_data <$> file_at (sy_files (mem s')) demo_conf) with
      ((fun p : result unit * conn agent_runtime (system unit) => (is_ok (fst p), f_data <$> file_at (sy_files (mem (snd p))) demo_conf)) (r, s')).
    rewrite <- E. vm_compute. reflexivity. }
  apply pair_inj in X as [O F]. destruct r as [|e]; [discriminate O|]. exists e, s'. split; [reflexivity|].
  change (applied demo_setup demo_answer (Some (bs "old")) (bs "{}") demo_device (Err e) s') in W. destruct W as [C T].
  split; [exact C|]. split; [exact T|exact F].
Defined.
