(* ===== verification/Subscriptions.v ===== *)
(** * Refreshing subscriptions ([c/src/subscription_service.c])

    Downloads a subscription, parses it and stores its nodes; the sweep does so for
    every enabled subscription that is due.  A manual refresh waits for the lock of
    the service, the sweep gives way to one: whether the lock is taken and whether the
    service stops are answers from outside.  The thread that calls the sweep every
    five seconds is not modelled.

    Theorems: an attempt that fails keeps the nodes and everything but the dates and
    counters of the subscription, and any attempt moves the next one by a minute at
    least ([attempt_reschedules]); a sweep that is neither stopped nor in the way of a
    manual refresh leaves no enabled subscription due ([sweep_clears_due]). *)

From S2P Require Import Prelude Util Json Sqlite SqliteProofs ProxyUri ProxyImport StoreTables StoreNodes StoreCalls StoreNodesProofs HttpClient.

(** [sv_time] is [time(NULL)], [sv_busy] whether the lock is taken, [sv_stopping]
    whether the service stops, [sv_decode] [EVP_DecodeBlock], [sv_yaml] the loader of
    YAML. *)
Record service_env := mk_service_env {
  sv_store : store_env; sv_client : client_env; sv_fetcher : sb_subscription_fetcher_options; sv_time : nat -> Z;
  sv_busy : nat -> bool; sv_stopping : nat -> bool; sv_decode : bytes -> option bytes; sv_yaml : bytes -> option (list ynode * nat) }.

Section Service.
Context (env : service_env).

Abbreviation store_env := (sv_store env).

(** The nodes of a body, stored; the caller's result gets the diagnostics. *)
Definition apply_body (sub : sb_subscription) (body : bytes) (usage : sbj) (now : Z) : store sb_subscription_fetch_result :=
  let (parsed, rc) := sb_parse_subscription_report (sv_decode env) (sv_yaml env) (Some body) in
  _ ← pure rc;
  sb_store_apply_subscription_fetch store_env sub (imp_nodes parsed)
    (mk_fetch 0 0 (Z.of_nat (length (imp_skipped parsed))) 0 (Some usage) (imp_skipped parsed)) now.

(** What is kept of a failure never holds the URL. *)
Definition failure_text (downloaded : bool) : bytes :=
  if downloaded then bs "Subscription refresh failed: incompatible response or storage conflict"
  else bs "Subscription download failed; check source availability and credentials".

Definition failed {A} (sub : sb_subscription) (downloaded : bool) (now : Z) (e : result A) : store A :=
  _ ← attempt (sb_store_record_subscription_failure store_env sub (Some (failure_text downloaded)) now);
  pure e.

(** [None]: the subscription is not due. *)
Definition fetch_locked (id : bytes) (only_due : bool) (now : Z) : store (option sb_subscription_fetch_result) :=
  found ← sb_store_find_subscription store_env (Some id);
  match found with
  | None => refuse SB_ERR_NOT_FOUND "Subscription not found"
  | Some sub =>
      if only_due && (negb (sb_enabled sub) || (now <? sb_next sub)) then mret None
      else
        download ← attempt (sb_subscription_fetcher_fetch_metadata (sv_client env) (sv_fetcher env) (sb_url sub));
        match download with
        | Err e => failed sub false now (sb_fail SB_ERR_VALIDATION (bs "Failed to fetch subscription: " ++ err_msg e))
        | Ok (body, usage) =>
            applied ← attempt (apply_body sub body usage now);
            match applied with
            | Ok r => mret (Some r)
            | Err e => failed sub true now (Err e)
            end
        end
  end.

Definition sb_subscription_service_fetch (id : bytes) : store (option sb_subscription_fetch_result) :=
  now ← ask (sv_time env);
  fetch_locked id false now.

Fixpoint refresh_each (l : list sb_subscription) (now : Z) (attempted : nat) : store nat :=
  match l with
  | [] => mret attempted
  | sub :: l' =>
      stop ← ask (sv_stopping env);
      if stop : bool then mret attempted
      else if negb (sb_enabled sub) || (now <? sb_next sub) then refresh_each l' now attempted
      else
        busy ← ask (sv_busy env);
        if busy : bool then mret attempted
        else
          r ← attempt (fetch_locked (sb_id sub) true now);
          refresh_each l' now (match r with Ok None => attempted | _ => S attempted end)
  end.

Definition sb_subscription_service_refresh_due (now : Z) : store nat :=
  l ← sb_store_list_subscriptions store_env;
  refresh_each l now 0.
End Service.

(** * Theorems *)

(** ** Statements that do not fail *)

Section Sure.
Context {T P : Type} (fault : nat -> option bytes) (sure : forall n, fault n = None).

Lemma wp_stmt_sure {A} (f : T -> result (A * T)) (Q : A -> conn T P -> Prop) E s :
  match f (db s) with
  | Ok (a, t) => Q a (mk_conn t (mem s) (S (asked s)))
  | Err e => E e (mk_conn (db s) (mem s) (S (asked s)))
  end -> wp (stmt fault f) Q E s.
Proof. unfold wp, stmt. rewrite sure. by destruct (f (db s)) as [[a t]|e]. Qed.

Lemma wp_query_sure {A} (f : T -> A) (Q : A -> conn T P -> Prop) E s :
  Q (f (db s)) (mk_conn (db s) (mem s) (S (asked s))) -> wp (query fault f) Q E s.
Proof. intros H. by apply wp_stmt_sure. Qed.

Lemma wp_transaction_sure {A} (body : sql T P A) (Q : A -> conn T P -> Prop) E s :
  wp body (fun a s2 => Q a (mk_conn (db s2) (mem s2) (S (asked s2)))) (fun e s2 => E e (mk_conn (db s) (mem s2) (asked s2)))
     (mk_conn (db s) (mem s) (S (asked s))) ->
  wp (transaction fault body) Q E s.
Proof.
  unfold transaction, control, wp, stmt, mbind, sql_bind. rewrite sure. cbn [db mem asked].
  destruct (body _) as [[a|e] s2]; [|done]. by rewrite sure.
Qed.
End Sure.

Lemma apply_nodes_only_nodes env l sub : forall u s,
  wp (apply_nodes env l sub u) (fun _ s' => exists l', db s' = with_nodes (db s) l') no_care s.
Proof.
  induction l as [|n l IH]; intros u s; cbn [apply_nodes].
  - apply wp_ret. exists (nodes (db s)). by destruct (db s).
  - wp_step. eapply wp_mono; [apply upsert_one_spec| |done]. intros a s1 (p & l1 & _ & E1 & _).
    eapply wp_mono; [apply IH| |done]. intros ? s2 (l2 & E2). exists l2. by rewrite E2, E1.
Qed.

(** ** One attempt *)

Section Attempt.
Context (env : service_env) (sure : forall n, fault (sv_store env) n = None).
Context (id : bytes) (now : Z).

(** The rows of the subscription are changed, and their next refresh is a minute
    away at least. *)
Definition rescheduled (g : sub_row -> sub_row) (t t' : store_tables) : Prop :=
  subs t' = map (fun x => if sub_row_is (cstr id) x then g x else x) (subs t) /\
  forall x, sr_id (g x) = sr_id x /\ sr_url (g x) = sr_url x /\ sr_enabled (g x) = sr_enabled x /\ sr_interval (g x) = sr_interval x /\
    Z.min (now + 60) INT64_MAX <= sr_next (g x) /\ 0 <= sr_failures (g x).

Lemma next_refresh_later interval : Z.min (now + 60) INT64_MAX <= next_refresh now interval.
Proof. unfold next_refresh. repeat case_if; lia. Qed.

Lemma retry_later failures : 0 <= failures -> Z.min (now + 60) INT64_MAX <= retry_at now (retry_delay (retry_attempts failures)).
Proof.
  intros F. assert (60 <= retry_delay (retry_attempts failures)) as D.
  { unfold retry_delay, retry_attempts. repeat case_if; try lia; rewrite Z.shiftl_mul_pow2 by lia;
      (assert (0 < 2 ^ (failures + 1 - 1)) by (apply Z.pow_pos_nonneg; lia)); lia. }
  unfold retry_at. case_if; lia.
Qed.

Lemma row_id row (s : conn store_tables unit) : List.find (sub_row_is (cstr id)) (subs (db s)) = Some row -> cstr (sb_id (read_subscription row)) = cstr id.
Proof. intros F. pose proof (find_In _ _ _ F) as [_ I%bytes_eqb_eq]. cbn. by rewrite I, cstr_idem. Qed.

Lemma unchanged_found row s :
  List.find (sub_row_is (cstr id)) (subs (db s)) = Some row ->
  wp (subscription_unchanged (sv_store env) (read_subscription row))
    (fun current s' => current = read_subscription row /\ db s' = db s) (fun _ _ => False) s.
Proof.
  intros F. unfold subscription_unchanged, find_subscription_locked. wp_step. apply (wp_query_sure _ sure).
  change (default [] (Some (sb_id (read_subscription row)))) with (sb_id (read_subscription row)). rewrite (row_id row s F), F.
  change (read_subscription <$> Some row) with (Some (read_subscription row)). cbv beta iota. cbn [read_subscription sb_url sb_enabled]. rewrite bytes_eqb_refl, Bool.eqb_reflx. cbn [negb orb]. by wp_step.
Qed.

Lemma record_failure_reschedules row message s :
  List.find (sub_row_is (cstr id)) (subs (db s)) = Some row -> 0 <= sr_failures row ->
  wp (sb_store_record_subscription_failure (sv_store env) (read_subscription row) message now)
    (fun _ s' => exists g, rescheduled g (db s) (db s') /\ db s' = with_subs (db s) (subs (db s'))) (fun _ _ => False) s.
Proof.
  intros F N. unfold sb_store_record_subscription_failure. wp_step. eapply wp_mono; [by apply unchanged_found| |done].
  intros current s1 [-> D]. cbv zeta. wp_step. apply (wp_stmt_sure _ sure). rewrite D, (row_id row s F). unfold update_sub, sql_update. cbv beta iota.
  wp_step. cbn [db]. eexists. split; [|done]. split; [reflexivity|]. intros x. cbn [failed_fetch sr_id sr_url sr_enabled sr_interval sr_next sr_failures].
  repeat (split; [done|]). split; [by apply retry_later|]. cbn. unfold retry_attempts. case_if; lia.
Qed.

Lemma apply_reschedules row l result s :
  List.find (sub_row_is (cstr id)) (subs (db s)) = Some row ->
  wp (sb_store_apply_subscription_fetch (sv_store env) (read_subscription row) l result now)
    (fun _ s' => exists g, rescheduled g (db s) (db s') /\ forall x, sr_failures (g x) = 0) (fun _ s' => db s' = db s) s.
Proof.
  intros F. unfold sb_store_apply_subscription_fetch. apply (wp_transaction_sure _ sure). wp_step.
  eapply wp_mono; [apply unchanged_found; exact F| |by intros]. intros current s1 [-> D]. cbn [db] in D. wp_step.
  eapply wp_mono; [apply apply_nodes_only_nodes| |done]. intros u s2 (l' & E). cbv zeta. unfold prepared. wp_step.
  apply (wp_stmt_sure _ sure). cbv beta iota. cbn [db mem asked]. do 2 wp_step. destruct (dump_checked _) as [metadata|e]; [|done].
  do 2 wp_step. destruct (dump_checked _) as [usage|e]; [|done]. wp_step. apply (wp_stmt_sure _ sure).
  rewrite (row_id row s F). unfold update_sub, sql_update. cbv beta iota. wp_step. cbn [db mem asked].
  eexists. split; [split; [cbn [subs with_subs]; rewrite E, D; reflexivity|]|by intros x].
  intros x. cbn [applied_fetch sr_id sr_url sr_enabled sr_interval sr_next sr_failures]. repeat (split; [done|]). split; [apply next_refresh_later|done].
Qed.

Lemma failed_reschedules {A} row downloaded e s :
  List.find (sub_row_is (cstr id)) (subs (db s)) = Some row -> 0 <= sr_failures row ->
  wp (failed (A := A) env (read_subscription row) downloaded now (Err e)) (fun _ _ => False)
    (fun _ s' => exists g, rescheduled g (db s) (db s') /\ db s' = with_subs (db s) (subs (db s'))) s.
Proof.
  intros F N. unfold failed. wp_step. apply wp_attempt. eapply wp_mono; [by apply record_failure_reschedules| |done].
  intros ? s1 H. by wp_step.
Qed.

Lemma fetch_locked_spec (only_due : bool) row s :
  List.find (sub_row_is (cstr id)) (subs (db s)) = Some row -> 0 <= sr_failures row ->
  let (r, s') := fetch_locked env id only_due now s in
  if only_due && (negb (sr_enabled row) || (now <? sr_next row)) then r = Ok None /\ db s' = db s
  else exists g, rescheduled g (db s) (db s') /\
    match r with
    | Ok answer => answer <> None /\ forall x, sr_failures (g x) = 0
    | Err _ => db s' = with_subs (db s) (subs (db s'))
    end.
Proof.
  intros F N. enough (wp (fetch_locked env id only_due now) (fun r s' =>
      if only_due && (negb (sr_enabled row) || (now <? sr_next row)) then r = None /\ db s' = db s
      else exists g, rescheduled g (db s) (db s') /\ r <> None /\ forall x, sr_failures (g x) = 0)
    (fun _ s' => only_due && (negb (sr_enabled row) || (now <? sr_next row)) = false /\
      exists g, rescheduled g (db s) (db s') /\ db s' = with_subs (db s) (subs (db s'))) s) as W.
  { unfold wp in W. destruct (fetch_locked _ _ _ _ s) as [[r|e] s']; [|by destruct W as [-> W]]. case_if; [|done]. by destruct W as [-> W]. }
  unfold fetch_locked, sb_store_find_subscription, find_subscription_locked. wp_step. apply (wp_query_sure _ sure).
  change (default [] (Some id)) with id. rewrite F. change (read_subscription <$> Some row) with (Some (read_subscription row)). cbv beta iota.
  cbn [read_subscription sb_enabled sb_next]. destruct (only_due && _) eqn:D; [by wp_step|]. wp_step. apply wp_attempt.
  eapply wp_mono; [apply fetch_metadata_frame| |]; cbn [db].
  - intros [body usage] s1 E1. wp_step. apply wp_attempt. unfold apply_body. destruct (sb_parse_subscription_report _ _ _) as [parsed rc].
    wp_step. wp_step. destruct rc as [[]|e].
    + eapply wp_mono; [apply apply_reschedules; by rewrite E1| |].
      * rewrite E1. intros r s2 (g & G & Z). wp_step. by exists g.
      * rewrite E1. intros e s2 E2. eapply wp_mono; [apply failed_reschedules; [by rewrite E2|done]|done|]. rewrite E2. by intros ? s3 H.
    + eapply wp_mono; [apply failed_reschedules; [by rewrite E1|done]|done|]. rewrite E1. by intros ? s3 H.
  - intros e s1 E1. eapply wp_mono; [apply failed_reschedules; [by rewrite E1|done]|done|]. rewrite E1. by intros ? s3 H.
Qed.

(** With a database that works, an attempt to refresh a subscription ends, and
    changes the rows as follows.  It changes no other subscription, and never the
    name, URL, switch or interval of its own; the next refresh is due a minute later
    at the earliest (at the end of time at the latest).  An attempt that fails keeps
    the nodes and every other table; one that succeeds has no failures any more. *)
Theorem attempt_reschedules (only_due : bool) (row : sub_row) (s : conn store_tables unit) :
  List.find (sub_row_is (cstr id)) (subs (db s)) = Some row -> 0 <= sr_failures row ->
  only_due && (negb (sr_enabled row) || (now <? sr_next row)) = false ->
  let (r, s') := fetch_locked env id only_due now s in
  exists g, rescheduled g (db s) (db s') /\
    match r with
    | Ok answer => answer <> None /\ forall x, sr_failures (g x) = 0
    | Err _ => db s' = with_subs (db s) (subs (db s'))
    end.
Proof. intros F N D. pose proof (fetch_locked_spec only_due row s F N) as W. rewrite D in W. exact W. Qed.
End Attempt.

(** ** A sweep *)

Section Sweep.
Context (env : service_env) (sure : forall n, fault (sv_store env) n = None).
Context (calm : forall n, sv_stopping env n = false /\ sv_busy env n = false).
Context (now : Z) (Now : 0 <= now < INT64_MAX).

(** The identifiers are keys and C strings; failures are counted from zero. *)
Definition healthy (l : list sub_row) : Prop :=
  NoDup (sr_id <$> l) /\ Forall (fun r => cstr (sr_id r) = sr_id r /\ 0 <= sr_failures r) l.

Definition listed_due (sub : sb_subscription) (r : sub_row) : Prop := sb_id sub = sr_id r /\ sb_enabled sub = true /\ sb_next sub <= now.

(** Every row that is due is still to come. *)
Definition sweeping (l : list sb_subscription) (rows : list sub_row) : Prop :=
  healthy rows /\ forall r, r ∈ rows -> sr_enabled r = true -> sr_next r <= now -> exists sub, sub ∈ l /\ listed_due sub r.

Lemma sweeping_skip sub l rows : sweeping (sub :: l) rows -> (forall r, r ∈ rows -> sr_enabled r = true -> sr_next r <= now -> ~ listed_due sub r) -> sweeping l rows.
Proof.
  intros [H S] N. split; [done|]. intros r R E D. destruct (S r R E D) as (x & [-> |X]%elem_of_cons & L); [by destruct (N r R E D)|by exists x].
Qed.

Lemma rescheduled_healthy id g t t' : rescheduled id now g t t' -> healthy (subs t) -> healthy (subs t') /\ sr_id <$> subs t' = sr_id <$> subs t.
Proof.
  intros [-> G] [N F]. rewrite (map_update_keys sr_id) by (intros x; apply G). split; [|done]. unfold healthy.
  rewrite (map_update_keys sr_id) by (intros x; apply G). split; [done|]. rewrite Forall_forall in *.
  intros x (y & Hy & ->)%In_map_update. destruct (F y Hy) as [C P]. destruct (sub_row_is _ y); [|done]. destruct (G y) as (-> & _ & _ & _ & _ & L). done.
Qed.

Lemma rescheduled_sweeping sub l g t t' :
  rescheduled (sb_id sub) now g t t' -> sweeping (sub :: l) (subs t) -> sweeping l (subs t').
Proof.
  intros R S. pose proof (rescheduled_healthy _ _ _ _ R (proj1 S)) as [H _]. split; [done|]. destruct R as [-> G], S as [[_ F] S]. rewrite Forall_forall in F.
  intros r (y & Hy & ->)%In_map_update. destruct (sub_row_is (cstr (sb_id sub)) y) eqn:I.
  - destruct (G y) as (_ & _ & _ & _ & L & _). intros _ D. unfold INT64_MAX in *. lia.
  - intros E D. destruct (S y Hy E D) as (x & [-> |X]%elem_of_cons & L); [|by exists x].
    exfalso. destruct L as [Q _]. unfold sub_row_is in I. apply bytes_eqb_neq in I. rewrite Q, (proj1 (F y Hy)) in I. done.
Qed.

(** One subscription of the sweep. *)
Lemma sweep_one sub l s :
  sweeping (sub :: l) (subs (db s)) ->
  let s' := snd (fetch_locked env (sb_id sub) true now s) in
  sweeping l (subs (db s')) /\ sr_id <$> subs (db s') = sr_id <$> subs (db s).
Proof.
  intros S. destruct (List.find (sub_row_is (cstr (sb_id sub))) (subs (db s))) as [row|] eqn:F.
  - pose proof S as [[N A] _]. pose proof (find_In _ _ _ F) as [Hr _]. rewrite Forall_forall in A. destruct (A row Hr) as [_ Fr].
    pose proof (fetch_locked_spec env sure (sb_id sub) now true row s F Fr) as W.
    destruct (fetch_locked _ _ _ _ s) as [r s']. cbn [snd andb] in *. destruct (negb (sr_enabled row) || (now <? sr_next row)) eqn:D.
    + destruct W as [_ ->]. split; [|done]. apply (sweeping_skip sub); [done|]. intros r0 R0 E0 D0 [Q _].
      assert (r0 = row) as ->.
      { eapply (find_key_unique sr_id); [exact N| |exact F|exact R0|].
        - intros a b Ha%bytes_eqb_eq Hb%bytes_eqb_eq. congruence.
        - apply bytes_eqb_eq. rewrite Q. symmetry. apply A, R0. }
      rewrite E0 in D. cbn [negb orb] in D. lia.
    + destruct W as (g & R & _). split; [by eapply rescheduled_sweeping|]. eapply rescheduled_healthy; [exact R|apply S].
  - unfold fetch_locked, sb_store_find_subscription, find_subscription_locked, mbind, sql_bind, query, stmt. rewrite sure.
    change (default [] (Some (sb_id sub))) with (sb_id sub). rewrite F. cbn. split; [|done]. apply (sweeping_skip sub); [done|].
    intros r R E D [Q _]. pose proof (find_none_In _ _ r F R) as X. apply bytes_eqb_neq in X. destruct X. rewrite Q. symmetry.
    destruct S as [[_ A] _]. rewrite Forall_forall in A. apply A, R.
Qed.

Lemma refresh_each_sweeps l : forall k s, sweeping l (subs (db s)) ->
  exists n s', refresh_each env l now k s = (Ok n, s') /\ sweeping [] (subs (db s')) /\ sr_id <$> subs (db s') = sr_id <$> subs (db s).
Proof.
  induction l as [|sub l IH]; intros k s S; cbn [refresh_each]; [by exists k, s|].
  unfold mbind at 1, sql_bind at 1, ask at 1. rewrite (proj1 (calm _)). destruct (negb (sb_enabled sub) || (now <? sb_next sub)) eqn:D.
  - apply (IH k (mk_conn (db s) (mem s) (Datatypes.S (asked s)))). cbn [db]. apply (sweeping_skip sub); [done|]. intros r _ _ _ (_ & E & L). rewrite E in D. cbn [negb orb] in D. lia.
  - unfold mbind at 1, sql_bind at 1, ask at 1. rewrite (proj2 (calm _)). unfold mbind, sql_bind, attempt. cbn [db mem asked].
    pose proof (sweep_one sub l (mk_conn (db s) (mem s) (Datatypes.S (Datatypes.S (asked s)))) S) as [S1 E1].
    destruct (fetch_locked _ _ _ _ _) as [r s1]. cbn [snd db] in *. destruct (IH (match r with Ok None => k | _ => Datatypes.S k end) s1 S1) as (n & s' & R & S2 & E2).
    exists n, s'. split; [exact R|]. split; [done|]. congruence.
Qed.

(** C20: a sweep of a service that is neither stopped nor in the way of a manual
    refresh, with a database that works, ends and leaves no enabled subscription due;
    every subscription is still there. *)
Theorem sweep_clears_due (s : conn store_tables unit) :
  healthy (subs (db s)) ->
  exists n s', sb_subscription_service_refresh_due env now s = (Ok n, s') /\ sr_id <$> subs (db s') = sr_id <$> subs (db s) /\
    forall row, row ∈ subs (db s') -> sr_enabled row = true -> now < sr_next row.
Proof.
  intros H. unfold sb_subscription_service_refresh_due, sb_store_list_subscriptions, mbind, sql_bind, query, stmt. rewrite sure.
  edestruct (refresh_each_sweeps (map read_subscription (order_by (fun a b => text_le (sr_name a) (sr_name b)) (subs (db s)))) 0) as (n & s' & R & S & E).
  2: { exists n, s'. split; [exact R|]. split; [exact E|]. intros row Hr En. destruct (Z.lt_ge_cases now (sr_next row)) as [?|D]; [done|].
       destruct (proj2 S row Hr En D) as (x & []%elem_of_nil & _). }
  cbn [db]. split; [done|]. intros r R En D. exists (read_subscription r). split; [|by repeat split].
  apply list_elem_of_fmap. exists r. split; [done|]. by apply order_by_In.
Qed.
End Sweep.

(** ** Examples *)

(** A provider that answers with one link, or not at all. *)
Definition demo_service (up : bool) : service_env :=
  mk_service_env demo_env
    (with_perform demo_client (fun _ _ => if up then mk_curl_result [curl_data (bs "trojan://secret@kyoto.example:443#Kyoto")] CURLE_OK 200
                                          else mk_curl_result [] CURLE_OPERATION_TIMEDOUT 0))
    sb_subscription_fetcher_options_init (fun _ => 1700001000) (fun _ => false) (fun _ => false) (fun _ => None) (fun _ => None).

Example refresh_adds_node :
  match sb_subscription_service_fetch (demo_service true) (bs "sub1") demo_subscribed with
  | (Ok (Some r), s') => fe_added r = 1 /\ map nr_tag (nodes (db s')) = [bs "Tokyo"; bs "Kyoto"] /\ map sr_next (subs (db s')) = [1700004600]
  | _ => False
  end.
Proof. vm_compute. repeat split. Qed.

Example refresh_reports_failure :
  match sb_subscription_service_fetch (demo_service false) (bs "sub1") demo_subscribed with
  | (Err e, s') => e = mk_err SB_ERR_VALIDATION (bs "Failed to fetch subscription: subscription HTTP request failed: Timeout") /\
      nodes (db s') = nodes (db demo_subscribed) /\ map sr_next (subs (db s')) = [1700001060] /\ map sr_failures (subs (db s')) = [1]
  | _ => False
  end.
Proof. vm_compute. repeat split. Qed.

Lemma attempt_reschedules_witness :
  exists row, List.find (sub_row_is (cstr (bs "sub1"))) (subs (db demo_subscribed)) = Some row /\
    let (r, s') := fetch_locked (demo_service false) (bs "sub1") true 1700001000 demo_subscribed in
    exists g, rescheduled (bs "sub1") 1700001000 g (db demo_subscribed) (db s') /\
      match r with
      | Ok answer => answer <> None /\ forall x, sr_failures (g x) = 0
      | Err _ => db s' = with_subs (db demo_subscribed) (subs (db s'))
      end.
Proof.
  eexists. split; [vm_compute; reflexivity|]. eapply (attempt_reschedules (demo_service false) (fun _ => eq_refl) (bs "sub1") 1700001000 true);
    [vm_compute; reflexivity|vm_compute; discriminate|vm_compute; reflexivity].
Defined.

Lemma sweep_clears_due_witness :
  exists n s', sb_subscription_service_refresh_due (demo_service false) 1700001000 demo_subscribed = (Ok n, s') /\
    sr_id <$> subs (db s') = sr_id <$> subs (db demo_subscribed) /\
    forall row, row ∈ subs (db s') -> sr_enabled row = true -> 1700001000 < sr_next row.
Proof.
  apply (sweep_clears_due (demo_service false) (fun _ => eq_refl) (fun _ => conj eq_refl eq_refl) 1700001000); [unfold INT64_MAX; lia|].
  split; [vm_compute; apply NoDup_singleton|]. vm_compute. constructor; [split; [reflexivity|discriminate]|constructor].
Defined.
