(* ===== verification/HttpTelemetry.v ===== *)
(** * Telemetry, diagnostics and the log of the HTTP server ([c/src/http_server.c])

    What agents report is checked and brought to a fixed form before it is kept;
    the last lines of the log of the server are kept in a ring. *)

From S2P Require Import Prelude Util Json JsonText HttpText.

(** ** Telemetry *)

Definition sb_http_default_telemetry : sbj :=
  let t := sbj_set_str (SBJ_OBJECT []) "at" [] in
  let t := sbj_set_int t "up" 0 in
  let t := sbj_set_int t "down" 0 in
  let t := sbj_set_int t "up_total" 0 in
  let t := sbj_set_int t "down_total" 0 in
  let t := sbj_set_int t "conn_count" 0 in
  let t := sbj_set t "connections" SBJ_NULL in
  let t := sbj_set t "domain_stats" (SBJ_ARRAY []) in
  sbj_set t "logs" (SBJ_ARRAY []).

Definition bounded_string (entry : option sbj) (field : string) (maximum : nat) (required : bool) (out : sbj) : result sbj :=
  match present entry field with
  | None => if required then invalid field " is required" else Ok (sbj_set_str out field [])
  | Some (SBJ_STRING s) =>
      if (required && (length s =? 0)%nat) || (maximum <? length s)%nat then invalid field " has an invalid length"
      else Ok (sbj_set out field (SBJ_STRING s))
  | Some _ => invalid field " must be a string"
  end.

Definition valid_tag (tag : sbj) : bool := match tag with SBJ_STRING s => (length s <=? 256)%nat | _ => false end.

Definition stats_chain (entry : option sbj) : result sbj :=
  match sbj_get entry "chain" with
  | None => Ok (SBJ_ARRAY [])
  | Some (SBJ_ARRAY l) =>
      if (16 <? length l)%nat then sb_fail SB_ERR_VALIDATION (bs "domain_stats chain must be an array of at most 16 entries")
      else if forallb valid_tag l then Ok (SBJ_ARRAY (sbj_clone <$> l))
      else sb_fail SB_ERR_VALIDATION (bs "domain_stats chain contains an invalid tag")
  | Some _ => sb_fail SB_ERR_VALIDATION (bs "domain_stats chain must be an array of at most 16 entries")
  end.

Definition counters : list string := ["connection_count"; "uplink_total"; "downlink_total"; "first_seen"; "last_seen"]%string.

Fixpoint integer_fields (entry : option sbj) (fields : list string) : result (list (string * Z)) :=
  match fields with
  | [] => Ok []
  | f :: fields' => v ← sb_json_integer_field entry f; l ← integer_fields entry fields'; Ok ((f, v) :: l)
  end.

Definition set_ints (out : sbj) (l : list (string * Z)) : sbj := foldl (fun o fv => sbj_set_int o (fst fv) (snd fv)) out l.

Definition normalize_entry (entry : sbj) : result sbj :=
  if negb (sbj_is_object (Some entry)) then sb_fail SB_ERR_VALIDATION (bs "domain_stats must contain only objects")
  else
    let entry := Some entry in
    chain ← stats_chain entry;
    values ← integer_fields entry counters;
    if existsb (fun fv => snd fv <? 0) values then sb_fail SB_ERR_VALIDATION (bs "domain_stats counters must not be negative")
    else
      item ← bounded_string entry "domain" 512 true (SBJ_OBJECT []);
      item ← bounded_string entry "outbound" 256 false item;
      item ← bounded_string entry "outbound_type" 80 false item;
      item ← bounded_string entry "rule" 512 false item;
      Ok (set_ints (sbj_set item "chain" chain) values).

Fixpoint normalize_entries (l : list sbj) : result (list sbj) :=
  match l with
  | [] => Ok []
  | entry :: l' => item ← normalize_entry entry; items ← normalize_entries l'; Ok (item :: items)
  end.

Definition normalize_domain_stats (stats : sbj) : result sbj :=
  match stats with
  | SBJ_ARRAY l =>
      if (1000 <? Z.of_nat (length l)) then sb_fail SB_ERR_VALIDATION (bs "domain_stats must contain at most 1000 entries")
      else items ← normalize_entries l; Ok (SBJ_ARRAY items)
  | _ => sb_fail SB_ERR_VALIDATION (bs "domain_stats must be an array")
  end.

(** [truncate_json_string]. *)
Definition truncate_json_string (s : bytes) (maximum : nat) : sbj := SBJ_STRING (truncate_utf8 s maximum).

Fixpoint log_strings (max_bytes : nat) (l : list sbj) : result (list sbj) :=
  match l with
  | [] => Ok []
  | SBJ_STRING s :: l' =>
      rest ← log_strings max_bytes l';
      Ok ((if (max_bytes =? 0)%nat then SBJ_STRING s else truncate_json_string s max_bytes) :: rest)
  | _ => sb_fail SB_ERR_VALIDATION (bs "logs must contain only strings")
  end.

(** The last [limit] entries. *)
Definition tail_strings (array : sbj) (limit max_bytes : nat) : result sbj :=
  match array with
  | SBJ_ARRAY l => out ← log_strings max_bytes (drop (length l - limit) l); Ok (SBJ_ARRAY out)
  | _ => sb_fail SB_ERR_VALIDATION (bs "logs must be an array")
  end.

(** The telemetry with a member set, if the body has it. *)
Definition set_if_present (body : option sbj) (field : string) (normalize : sbj -> result sbj) (t : sbj) : result sbj :=
  match sbj_get body field with
  | None => Ok t
  | Some v => n ← normalize v; Ok (sbj_set t field n)
  end.

(** [now] is the reading of the clock. *)
Definition sb_http_normalize_telemetry (now : Z) (body : option sbj) : result sbj :=
  let t := sbj_set_str sb_http_default_telemetry "at" (sb_http_utc_now now) in
  traffic ← integer_fields body ["up"; "down"; "up_total"; "down_total"]%string;
  let t := set_ints t traffic in
  count ← sb_json_integer_field body "conn_count";
  if count <? 0 then sb_fail SB_ERR_VALIDATION (bs "conn_count must not be negative")
  else
    let t := sbj_set_int t "conn_count" count in
    t ← set_if_present body "connections" (fun v => Ok (sbj_clone v)) t;
    t ← set_if_present body "domain_stats" normalize_domain_stats t;
    set_if_present body "logs" (fun v => tail_strings v 500 0) t.

(** ** Diagnostic reports *)

Definition diagnostic_string (body : option sbj) (field : string) (fallback : string) (max_bytes : nat) (out : sbj) : result sbj :=
  match present body field with
  | None => Ok (sbj_set_str out field (bs fallback))
  | Some (SBJ_STRING s) => Ok (sbj_set out field (truncate_json_string s max_bytes))
  | Some _ => invalid field " must be a string"
  end.

Definition diagnostic_object (body : option sbj) (field : string) (out : sbj) : result sbj :=
  match present body field with
  | None => Ok (sbj_set out field (SBJ_OBJECT []))
  | Some (SBJ_OBJECT m) => Ok (sbj_set out field (sbj_clone (SBJ_OBJECT m)))
  | Some _ => invalid field " must be a JSON object"
  end.

Definition diagnostic_count (body : option sbj) (field : string) (out : sbj) : result sbj :=
  match present body field with
  | None => Ok (sbj_set_int out field 0)
  | Some v =>
      match json_int64 v with
      | None => invalid field " must be an integer"
      | Some z => if z <? 0 then invalid field " must not be negative" else Ok (sbj_set_int out field z)
      end
  end.

Definition sb_http_normalize_diagnostic_report (body : option sbj) : result sbj :=
  logs ← match sbj_get body "logs" with Some v => tail_strings v 1500 4000 | None => Ok (SBJ_ARRAY []) end;
  r ← diagnostic_string body "reason" "manual" 80 (SBJ_OBJECT []);
  r ← diagnostic_string body "app_version" "" 80 r;
  r ← diagnostic_string body "core_version" "" 120 r;
  r ← diagnostic_object body "device" r;
  r ← diagnostic_object body "vpn" r;
  r ← diagnostic_object body "network" r;
  r ← diagnostic_object body "config" r;
  r ← diagnostic_count body "runtime_log_count" r;
  r ← diagnostic_count body "connection_count" r;
  Ok (sbj_set r "logs" logs).

(** ** What the server keeps *)

(** [srv->telemetry] is an object by host. *)
Definition sb_http_telemetry_put (telemetry : sbj) (host_id : option bytes) (t : sbj) : sbj :=
  sbj_setn telemetry (cstr (default [] host_id)) (Some t).
Definition sb_http_telemetry_get (telemetry : sbj) (host_id : option bytes) : sbj :=
  match sbj_getn (Some telemetry) (cstr (default [] host_id)) with
  | Some found => sbj_clone found
  | None => sb_http_default_telemetry
  end.

(** [log_lines] and [log_head]. *)
Record log_ring := mk_ring { lr_lines : list bytes; lr_head : nat }.

Definition SB_HTTP_LOG_CAPACITY : nat := 1000.

Definition ring_push (line : bytes) (r : log_ring) : log_ring :=
  if (length (lr_lines r) <? SB_HTTP_LOG_CAPACITY)%nat then mk_ring (lr_lines r ++ [line]) (lr_head r)
  else mk_ring (<[lr_head r := line]> (lr_lines r)) ((lr_head r + 1) mod SB_HTTP_LOG_CAPACITY).

Definition log_ring_append (text : bytes) (r : log_ring) : log_ring :=
  foldl (fun r line => match line with [] => r | _ => ring_push line r end) r (sb_split text (chr 10)).

(** The lines, the oldest first. *)
Definition ring_lines (r : log_ring) : list bytes :=
  omap (fun i => lr_lines r !! ((lr_head r + i) mod length (lr_lines r))%nat) (seq 0 (length (lr_lines r))).

Definition sb_http_log_lines (r : log_ring) : sbj := SBJ_ARRAY ((fun l => sbj_str (Some l)) <$> ring_lines r).

(** * Theorems *)

(** ** The ring keeps the last lines *)

Definition last_n {A} (n : nat) (l : list A) : list A := drop (length l - n) l.

Definition ring_ok (r : log_ring) : Prop :=
  (length (lr_lines r) <= SB_HTTP_LOG_CAPACITY)%nat /\
  if decide (length (lr_lines r) = SB_HTTP_LOG_CAPACITY) then (lr_head r < SB_HTTP_LOG_CAPACITY)%nat else lr_head r = O.

Lemma rotated_lookups {A} (l : list A) (h n : nat) :
  (h + n = length l)%nat ->
  omap (fun i => l !! ((h + i) mod length l)%nat) (seq 0 n) = drop h l /\
  omap (fun i => l !! ((h + i) mod length l)%nat) (seq n h) = take h l.
Proof.
  intros H. split.
  - assert (forall k, (k <= n)%nat -> omap (fun i => l !! ((h + i) mod length l)%nat) (seq (n - k) k) = drop (length l - k) l) as G.
    { induction k as [|k IH]; intros K; [by rewrite drop_ge by lia|]. cbn [seq omap list_omap].
      replace (S (n - S k)) with (n - k)%nat by lia. rewrite IH by lia.
      rewrite Nat.mod_small by lia. replace (h + (n - S k))%nat with (length l - S k)%nat by lia.
      destruct (lookup_lt_is_Some_2 l (length l - S k)) as [x X]; [lia|]. rewrite X.
      rewrite (drop_S _ _ _ X). by replace (S (length l - S k)) with (length l - k)%nat by lia. }
    specialize (G n ltac:(lia)). rewrite Nat.sub_diag in G. by replace (length l - n)%nat with h in G by lia.
  - assert (forall k, (k <= h)%nat -> omap (fun i => l !! ((h + i) mod length l)%nat) (seq n k) = take k l) as G.
    { induction k as [|k IH]; intros K; [done|]. rewrite seq_S, omap_app, IH by lia. cbn [omap list_omap].
      replace (h + (n + k))%nat with (k + 1 * length l)%nat by lia. rewrite Nat.Div0.mod_add, Nat.mod_small by lia.
      destruct (lookup_lt_is_Some_2 l k) as [x X]; [lia|]. rewrite X. by rewrite (take_S_r _ _ _ X). }
    by apply G.
Qed.

Lemma ring_lines_rotated l h : (h <= length l)%nat -> ring_lines (mk_ring l h) = drop h l ++ take h l.
Proof.
  intros H. destruct (rotated_lookups l h (length l - h)) as [<- <-]; [lia|].
  rewrite <- omap_app. pose proof (seq_app (length l - h) h 0) as S. cbn [Nat.add] in S. rewrite <- S. unfold ring_lines. cbn [lr_lines lr_head].
  by replace (length l - h + h)%nat with (length l) by lia.
Qed.

Lemma ring_head_inside r : ring_ok r -> (lr_head r <= length (lr_lines r))%nat.
Proof. intros [L H]. case_decide; lia. Qed.

Lemma ring_lines_ok r : ring_ok r -> ring_lines r = drop (lr_head r) (lr_lines r) ++ take (lr_head r) (lr_lines r).
Proof. intros R. destruct r. by apply ring_lines_rotated, (ring_head_inside _ R). Qed.

(** A full ring, with the oldest line overwritten and the head moved on. *)
Lemma overwrite_rotated {A} (l : list A) h x n :
  length l = n -> (h < n)%nat ->
  let l' := <[h := x]> l in let h' := ((h + 1) mod n)%nat in
  (h' < n)%nat /\ drop h' l' ++ take h' l' = drop 1 (drop h l ++ take h l) ++ [x].
Proof.
  intros L H l' h'. destruct (lookup_lt_is_Some_2 l h) as [y Y]; [lia|].
  assert (l' = (take h l ++ [x]) ++ drop (S h) l) as ->
    by (subst l'; rewrite insert_take_drop, <- app_assoc by lia; done).
  rewrite (drop_S _ _ _ Y). cbn [drop app]. rewrite drop_0.
  assert (length (take h l ++ [x]) = h + 1)%nat as T by (rewrite length_app, length_take; cbn; lia).
  subst h'. assert (h + 1 = n \/ h + 1 < n)%nat as [C|C] by lia.
  - rewrite C, Nat.Div0.mod_same, drop_0, take_0, app_nil_r. split; [lia|]. by rewrite (drop_ge l (S h)), app_nil_r by lia.
  - rewrite Nat.mod_small by lia. split; [lia|]. rewrite <- T, drop_app_length, take_app_length. by rewrite app_assoc.
Qed.

Lemma ring_push_spec line r :
  ring_ok r -> ring_ok (ring_push line r) /\ ring_lines (ring_push line r) = last_n SB_HTTP_LOG_CAPACITY (ring_lines r ++ [line]).
Proof.
  intros R. pose proof R as [L H]. unfold ring_push, last_n. rewrite (ring_lines_ok r R), !length_app, length_drop, length_take.
  revert L H. unfold ring_ok. generalize SB_HTTP_LOG_CAPACITY. intros n L H. cbn [length].
  destruct (length (lr_lines r) <? n)%nat eqn:F.
  - apply Nat.ltb_lt in F. rewrite decide_False in H by lia. rewrite ring_lines_rotated by (rewrite H; lia).
    cbn [lr_lines lr_head]. rewrite H, length_app, !drop_0, !take_0, !app_nil_r. cbn [length].
    split; [split; [lia|]; case_decide; lia|]. by replace (_ - n)%nat with 0%nat by lia.
  - apply Nat.ltb_ge in F. assert (length (lr_lines r) = n) as N by lia. rewrite decide_True in H by lia.
    destruct (overwrite_rotated (lr_lines r) (lr_head r) line n N H) as [B E].
    rewrite ring_lines_rotated by (rewrite length_insert; lia). rewrite E. cbn [lr_lines lr_head]. rewrite length_insert, N.
    split; [split; [lia|]; by rewrite decide_True|]. replace (_ - n)%nat with 1%nat by lia.
    symmetry. apply drop_app_le. rewrite length_app, length_drop, length_take. lia.
Qed.

Lemma last_n_app {A} n (a b : list A) : last_n n (last_n n a ++ b) = last_n n (a ++ b).
Proof.
  unfold last_n. rewrite !length_app, length_drop.
  destruct (Nat.le_gt_cases (length a) n) as [C|C].
  - replace (length a - n)%nat with 0%nat by lia. by rewrite drop_0, Nat.sub_0_r.
  - rewrite <- (drop_app_le a b (length a - n)) by lia. rewrite drop_drop. f_equal. lia.
Qed.

(** The ring of the log is a queue of bounded length: after a text is appended,
    the lines that are shown are the last thousand of the earlier lines followed by
    the non-empty lines of the text, in their order. *)
Theorem log_keeps_last_lines text r :
  ring_ok r ->
  ring_ok (log_ring_append text r) /\
  ring_lines (log_ring_append text r) =
    last_n SB_HTTP_LOG_CAPACITY (ring_lines r ++ List.filter (fun l => negb (bytes_eqb l [])) (sb_split text (chr 10))).
Proof.
  intros R. unfold log_ring_append. revert r R. generalize (sb_split text (chr 10)). intros ls.
  induction ls as [|l ls IH]; intros r R; cbn [foldl List.filter].
  { split; [done|]. rewrite app_nil_r. unfold last_n. pose proof (ring_head_inside r R). pose proof R as [L _].
    rewrite (ring_lines_ok r), length_app, length_drop, length_take by done. by replace (_ + _ - _)%nat with 0%nat by lia. }
  destruct l as [|c l]; [by apply IH|]. destruct (ring_push_spec (c :: l) r R) as [R' E].
  destruct (IH _ R') as [? ->]. split; [done|]. assert (bytes_eqb (c :: l) [] = false) as -> by done. cbn [negb].
  by rewrite E, last_n_app, <- app_assoc.
Qed.

Lemma log_keeps_last_lines_witness :
  ring_lines (log_ring_append (bs "two

three") (mk_ring [bs "one"] 0)) = [bs "one"; bs "two"; bs "three"].
Proof. destruct (log_keeps_last_lines (bs "two

three") (mk_ring [bs "one"] 0)) as [_ ->]; [split; [vm_compute; lia|done] | vm_compute; reflexivity]. Defined.

(** ** Normal forms *)

Definition stats_entry (domain outbound kind rule : bytes) (chain : list bytes) (count up down first last : Z) : sbj :=
  SBJ_OBJECT [(bs "chain", SBJ_ARRAY (SBJ_STRING <$> chain)); (bs "connection_count", SBJ_INT count); (bs "domain", SBJ_STRING domain);
    (bs "downlink_total", SBJ_INT down); (bs "first_seen", SBJ_INT first); (bs "last_seen", SBJ_INT last); (bs "outbound", SBJ_STRING outbound);
    (bs "outbound_type", SBJ_STRING kind); (bs "rule", SBJ_STRING rule); (bs "uplink_total", SBJ_INT up)].

Definition entry_bounded (e : sbj) : Prop :=
  exists domain outbound kind rule chain count up down first last,
    e = stats_entry domain outbound kind rule chain count up down first last /\
    (1 <= length domain <= 512 /\ length outbound <= 256 /\ length kind <= 80 /\ length rule <= 512 /\ length chain <= 16 /\
     Forall (fun tag => length tag <= 256) chain)%nat /\
    0 <= count /\ 0 <= up /\ 0 <= down /\ 0 <= first /\ 0 <= last.

Definition telemetry_of (time : bytes) (up down up_total down_total count : Z) (connections : sbj) (stats : list sbj) (logs : list bytes) : sbj :=
  SBJ_OBJECT [(bs "at", SBJ_STRING time); (bs "conn_count", SBJ_INT count); (bs "connections", connections);
    (bs "domain_stats", SBJ_ARRAY stats); (bs "down", SBJ_INT down); (bs "down_total", SBJ_INT down_total);
    (bs "logs", SBJ_ARRAY (SBJ_STRING <$> logs)); (bs "up", SBJ_INT up); (bs "up_total", SBJ_INT up_total)].

Definition telemetry_bounded (t : sbj) : Prop :=
  exists time up down up_total down_total count connections stats logs,
    t = telemetry_of time up down up_total down_total count connections stats logs /\
    0 <= count /\ Z.of_nat (length stats) <= 1000 /\ Forall entry_bounded stats /\ (length logs <= 500)%nat.

Lemma bounded_string_ok entry field maximum required out r :
  bounded_string entry field maximum required out = Ok r ->
  exists s, r = sbj_set out field (SBJ_STRING s) /\ (length s <= maximum)%nat /\ (required = true -> 1 <= length s)%nat.
Proof.
  unfold bounded_string. destruct (present entry field) as [[]|]; try done.
  - destruct (_ || _) eqn:E; [done|]. intros [= <-]. eexists. split; [done|]. apply orb_false_iff in E as [R L]. apply Nat.ltb_ge in L.
    split; [done|]. intros ->. cbn in R. apply Nat.eqb_neq in R. lia.
  - destruct required; [done|]. intros [= <-]. exists []. repeat split; [cbn; lia | done].
Qed.

Lemma valid_tags_ok l : forallb valid_tag l = true ->
  exists tags, l = SBJ_STRING <$> tags /\ sbj_clone <$> l = SBJ_STRING <$> tags /\ Forall (fun tag => length tag <= 256)%nat tags.
Proof.
  induction l as [|v l IH]; cbn; [by exists []|]. intros [V (tags & -> & E & F)%IH]%andb_true_iff.
  destruct v as [| | | | |s| |]; try done. exists (s :: tags). cbn. rewrite E. repeat split. constructor; [by apply Nat.leb_le|done].
Qed.

Lemma stats_chain_ok entry r : stats_chain entry = Ok r ->
  exists tags, r = SBJ_ARRAY (SBJ_STRING <$> tags) /\ (length tags <= 16)%nat /\ Forall (fun tag => length tag <= 256)%nat tags.
Proof.
  unfold stats_chain. destruct (sbj_get entry "chain") as [[]|]; try done.
  - case_if; [done|]. apply Nat.ltb_ge in E. case_if; [|done]. intros [= <-].
    apply valid_tags_ok in E0 as (tags & -> & -> & F). exists tags. rewrite length_fmap in E. done.
  - intros [= <-]. exists []. repeat split; [cbn; lia | done].
Qed.

Lemma integer_fields_names entry fields l : integer_fields entry fields = Ok l -> fst <$> l = fields.
Proof.
  revert l. induction fields as [|f fields IH]; intros l; cbn; [by intros [= <-]|].
  intros (v & _ & (l' & E & [= <-])%bind_Ok)%bind_Ok. cbn. by rewrite (IH _ E).
Qed.

Lemma normalize_entry_bounded e r : normalize_entry e = Ok r -> entry_bounded r.
Proof.
  unfold normalize_entry. case_if; [done|].
  intros (chain & (tags & -> & C & T)%stats_chain_ok & (values & V%integer_fields_names & H)%bind_Ok)%bind_Ok.
  destruct (existsb _ values) eqn:X; [done|].
  apply bind_Ok in H as (i1 & (domain & -> & D & D1)%bounded_string_ok & H).
  apply bind_Ok in H as (i2 & (outbound & -> & O & _)%bounded_string_ok & H).
  apply bind_Ok in H as (i3 & (kind & -> & K & _)%bounded_string_ok & H).
  apply bind_Ok in H as (i4 & (rule & -> & R & _)%bounded_string_ok & [= <-]).
  destruct values as [|[] [|[] [|[] [|[] [|[] [|]]]]]]; try done. injection V as -> -> -> -> ->.
  cbn [existsb snd] in X. bool_facts. specialize (D1 eq_refl).
  do 10 eexists. split; [reflexivity|]. split; [done|]. cbn [snd]. lia.
Qed.

Lemma bounded_string_same entry field maximum required out s :
  present entry field = Some (SBJ_STRING s) -> (length s <= maximum)%nat -> (required = true -> 1 <= length s)%nat ->
  bounded_string entry field maximum required out = Ok (sbj_set out field (SBJ_STRING s)).
Proof.
  intros P L R. unfold bounded_string. rewrite P. destruct (_ || _) eqn:E; [|done].
  apply orb_true_iff in E as [[-> E%Nat.eqb_eq]%andb_true_iff | E%Nat.ltb_lt]; [specialize (R eq_refl)|]; lia.
Qed.

Lemma tags_clone (tags : list bytes) : sbj_clone <$> (SBJ_STRING <$> tags) = SBJ_STRING <$> tags.
Proof. induction tags as [|t tags IH]; cbn; [done|]. by rewrite IH. Qed.
Lemma tags_valid (tags : list bytes) : Forall (fun tag => length tag <= 256)%nat tags -> forallb valid_tag (SBJ_STRING <$> tags) = true.
Proof. induction 1 as [|t tags L _ IH]; cbn; [done|]. rewrite IH. apply Nat.leb_le in L. by rewrite L. Qed.

Lemma entry_bounded_normal e : entry_bounded e -> normalize_entry e = Ok e.
Proof.
  intros (domain & outbound & kind & rule & chain & count & up & down & first & last & -> & (D & O & K & R & C & T) & P).
  unfold normalize_entry. change (negb _) with false. cbn iota.
  assert (stats_chain (Some (stats_entry domain outbound kind rule chain count up down first last)) = Ok (SBJ_ARRAY (SBJ_STRING <$> chain))) as ->.
  { unfold stats_chain. change (sbj_get _ _) with (Some (SBJ_ARRAY (SBJ_STRING <$> chain))). cbn iota.
    rewrite length_fmap, tags_valid, tags_clone by done. destruct (16 <? length chain)%nat eqn:E; [|done]. apply Nat.ltb_lt in E. lia. }
  cbn [mbind result_bind].
  change (integer_fields _ counters) with (Ok [("connection_count", count); ("uplink_total", up); ("downlink_total", down);
    ("first_seen", first); ("last_seen", last)]%string). cbn [mbind result_bind existsb snd]. decide_cmp. cbn [orb].
  rewrite (bounded_string_same _ "domain" _ _ _ domain) by (done || lia). cbn [mbind result_bind].
  rewrite (bounded_string_same _ "outbound" _ _ _ outbound) by (done || lia). cbn [mbind result_bind].
  rewrite (bounded_string_same _ "outbound_type" _ _ _ kind) by (done || lia). cbn [mbind result_bind].
  rewrite (bounded_string_same _ "rule" _ _ _ rule) by (done || lia). reflexivity.
Qed.

Lemma normalize_entries_ok l r : normalize_entries l = Ok r -> Forall entry_bounded r /\ length r = length l.
Proof.
  revert r. induction l as [|e l IH]; intros r; cbn; [intros [= <-]; done|].
  intros (i & I%normalize_entry_bounded & (r' & [F L]%IH & [= <-])%bind_Ok)%bind_Ok. cbn. auto.
Qed.

Lemma normalize_entries_same l : Forall entry_bounded l -> normalize_entries l = Ok l.
Proof. induction 1 as [|e l E _ IH]; cbn; [done|]. by rewrite entry_bounded_normal, IH. Qed.

Lemma domain_stats_ok v r : normalize_domain_stats v = Ok r ->
  exists l, r = SBJ_ARRAY l /\ Z.of_nat (length l) <= 1000 /\ Forall entry_bounded l.
Proof.
  unfold normalize_domain_stats. destruct v; try done. case_if; [done|].
  intros (l & [F L]%normalize_entries_ok & [= <-])%bind_Ok. exists l. split; [done|]. split; [lia|done].
Qed.

Lemma log_strings_ok max l r : log_strings max l = Ok r -> exists t, r = SBJ_STRING <$> t /\ length t = length l.
Proof.
  revert r. induction l as [|v l IH]; intros r; cbn; [intros [= <-]; by exists []|].
  destruct v as [| | | | |s| |]; try done. intros (r' & (t & -> & L)%IH & [= <-])%bind_Ok.
  unfold truncate_json_string. destruct (max =? 0)%nat; [exists (s :: t) | exists (truncate_utf8 s max :: t)]; cbn; by rewrite L.
Qed.

Lemma log_strings_same (t : list bytes) : log_strings 0 (SBJ_STRING <$> t) = Ok (SBJ_STRING <$> t).
Proof. induction t as [|s t IH]; [done|]. cbn. cbn in IH. by rewrite IH. Qed.

Lemma tail_strings_ok v limit max r : tail_strings v limit max = Ok r ->
  exists t, r = SBJ_ARRAY (SBJ_STRING <$> t) /\ (length t <= limit)%nat.
Proof.
  unfold tail_strings. destruct v; try done. intros (l & (t & -> & L)%log_strings_ok & [= <-])%bind_Ok.
  exists t. split; [done|]. rewrite L, length_drop. lia.
Qed.

Lemma tail_strings_same (t : list bytes) limit : (length t <= limit)%nat ->
  tail_strings (SBJ_ARRAY (SBJ_STRING <$> t)) limit 0 = Ok (SBJ_ARRAY (SBJ_STRING <$> t)).
Proof. intros L. unfold tail_strings. rewrite length_fmap. replace (_ - _)%nat with 0%nat by lia. by rewrite drop_0, log_strings_same. Qed.

Lemma set_if_present_ok body field normalize t r (P : sbj -> Prop) (old : sbj) :
  set_if_present body field normalize t = Ok r -> sbj_set t field old = t -> P old ->
  (forall v n, sbj_get body field = Some v -> normalize v = Ok n -> P n) ->
  exists n, r = sbj_set t field n /\ P n.
Proof.
  unfold set_if_present. intros H O Po Pn. destruct (sbj_get body field) as [v|].
  - apply bind_Ok in H as (n & N & [= <-]). eauto.
  - injection H as <-. exists old. auto.
Qed.

(** Telemetry is brought to a normal form: of any well-formed report that is
    accepted, what is kept has exactly the known members, at most 1000 domain
    entries with bounded texts and counters that are not negative, and at most 500
    log lines; and the normal form is stable: it is accepted again, unchanged. *)
Theorem telemetry_normal_form now body t :
  sbj_wf body = true -> sb_http_normalize_telemetry now (Some body) = Ok t ->
  telemetry_bounded t /\ sb_http_normalize_telemetry now (Some t) = Ok t.
Proof.
  intros W. unfold sb_http_normalize_telemetry at 1.
  intros (traffic & F%integer_fields_names & H)%bind_Ok. apply bind_Ok in H as (count & _ & H). case_if_in H; [done|].
  destruct traffic as [|[] [|[] [|[] [|[] [|]]]]]; try done. injection F as -> -> -> ->.
  apply bind_Ok in H as (t1 & H1 & H). apply bind_Ok in H as (t2 & H2 & H3).
  apply (set_if_present_ok _ _ _ _ _ (fun v => sbj_clone v = v) SBJ_NULL) in H1 as (conns & -> & C); [|reflexivity..|].
  2: { intros v n G [= <-]. by rewrite !(sbj_clone_wf_id v (wf_get _ _ _ W G)). }
  apply (set_if_present_ok _ _ _ _ _ (fun v => exists l, v = SBJ_ARRAY l /\ Z.of_nat (length l) <= 1000 /\ Forall entry_bounded l) (SBJ_ARRAY []))
    in H2 as (? & -> & stats & -> & LS & FS); [|reflexivity|by exists []|intros v n _; apply domain_stats_ok].
  apply (set_if_present_ok _ _ _ _ _ (fun v => exists l, v = SBJ_ARRAY (SBJ_STRING <$> l) /\ (length l <= 500)%nat) (SBJ_ARRAY []))
    in H3 as (? & -> & logs & -> & LL); [|reflexivity|exists []; split; [done|cbn; lia]|intros v n _; apply tail_strings_ok].
  set (at' := cstr (sb_http_utc_now now)).
  change (sbj_set _ "logs" _) with (telemetry_of at' z z0 z1 z2 count conns stats logs).
  split; [do 9 eexists; split; [reflexivity|done]|].
  unfold sb_http_normalize_telemetry, set_if_present.
  change (integer_fields _ _) with (Ok [("up", z); ("down", z0); ("up_total", z1); ("down_total", z2)]%string).
  change (sb_json_integer_field _ "conn_count") with (Ok count). cbn [mbind result_bind]. rewrite ltb_false by done.
  change (sbj_get _ "connections") with (Some conns). change (sbj_get _ "domain_stats") with (Some (SBJ_ARRAY stats)).
  change (sbj_get _ "logs") with (Some (SBJ_ARRAY (SBJ_STRING <$> logs))). cbn [mbind result_bind]. rewrite C.
  unfold normalize_domain_stats. rewrite ltb_false, normalize_entries_same by done. cbn [mbind result_bind].
  rewrite tail_strings_same by done. reflexivity.
Qed.

Definition sample_report : sbj :=
  SBJ_OBJECT [(bs "conn_count", SBJ_INT 1);
    (bs "domain_stats", SBJ_ARRAY [SBJ_OBJECT [(bs "chain", SBJ_ARRAY [SBJ_STRING (bs "proxy")]); (bs "domain", SBJ_STRING (bs "example.org"))]]);
    (bs "extra", SBJ_BOOL true); (bs "logs", SBJ_ARRAY [SBJ_STRING (bs "a")])].

Lemma telemetry_normal_form_witness : exists t,
  sb_http_normalize_telemetry 0 (Some sample_report) = Ok t /\ telemetry_bounded t /\ sbj_get (Some t) "extra" = None.
Proof.
  assert (is_ok (sb_http_normalize_telemetry 0 (Some sample_report)) = true) as R by (vm_compute; reflexivity).
  destruct (sb_http_normalize_telemetry 0 (Some sample_report)) as [t|] eqn:E; [|discriminate R].
  exists t. destruct (telemetry_normal_form 0 sample_report t) as [B _]; [vm_compute; reflexivity|exact E|].
  split; [done|]. split; [done|]. destruct B as (? & ? & ? & ? & ? & ? & ? & ? & ? & -> & _). reflexivity.
Defined.
