(* ===== verification/HttpRoutes.v ===== *)
(** * Routing ([c/src/http_server.c], router section)

    Routes are registered with a list of methods and a pattern, in which a segment
    in braces stands for any segment.  Patterns without parameters are looked up
    first, by the lowercased path; the others are tried in the order of their
    registration.  Handlers are of any type [H]. *)

From S2P Require Import Prelude Util HttpText.

Section Router.
Context {H : Type}.

(** [handlers]: the latest registration of a method comes first. *)
Record route_item := mk_route {
  ro_key : bytes; ro_parameterised : bool; ro_segments : list bytes; ro_handlers : list (method * H) }.

Definition segment_is_param (segment : bytes) : bool :=
  match segment with
  | c :: (_ :: _) as rest => (code c =? 123) && match last rest with Some d => code d =? 125 | None => false end
  | _ => false
  end.

Definition drop_first_slash (path : bytes) : bytes :=
  match path with c :: rest => if code c =? 47 then rest else path | [] => [] end.

Definition path_segments (path : bytes) : list bytes := sb_split (drop_first_slash path) (chr 47).

Definition route_key (segments : list bytes) : bytes :=
  segments ≫= fun s => bs "/" ++ (if segment_is_param s then bs "{}" else s).

Definition handler_for (item : route_item) (m : method) : option H :=
  snd <$> List.find (fun mh => bool_decide (fst mh = m)) (ro_handlers item).

(** The methods of a registration; names that are not known are only logged. *)
Definition method_list (names : bytes) : list method :=
  omap (fun n => method_index (toupper <$> sb_http_trim (Some n))) (sb_split names (chr 44)).

Definition add_handlers (ms : list method) (h : H) (item : route_item) : route_item :=
  mk_route (ro_key item) (ro_parameterised item) (ro_segments item)
    (foldl (fun l m => (m, h) :: l) (ro_handlers item) ms).

Definition same_route (parameterised : bool) (key : bytes) (item : route_item) : bool :=
  Bool.eqb (ro_parameterised item) parameterised && bytes_eqb (ro_key item) key.

(** The item with the key gets the handlers, or a new item at the end. *)
Fixpoint update_route (parameterised : bool) (key : bytes) (segments : list bytes) (ms : list method) (h : H)
    (items : list route_item) : list route_item :=
  match items with
  | [] => [add_handlers ms h (mk_route key parameterised segments [])]
  | item :: items' =>
      if same_route parameterised key item then add_handlers ms h item :: items'
      else item :: update_route parameterised key segments ms h items'
  end.

Definition sb_http_route (names pattern : bytes) (h : H) (items : list route_item) : list route_item :=
  let segments := path_segments pattern in
  let parameterised := existsb segment_is_param segments in
  let key := if parameterised then route_key segments else ascii_lower_dup (route_key segments) in
  update_route parameterised key segments (method_list names) h items.

Inductive route_result := ROUTE_NOT_FOUND | ROUTE_FOUND (h : H) (params : list bytes) | ROUTE_METHOD_NOT_ALLOWED.

Fixpoint segments_match (segments parts : list bytes) : bool :=
  match segments, parts with
  | [], [] => true
  | s :: segments', p :: parts' => (segment_is_param s || strcaseeq s p) && segments_match segments' parts'
  | _, _ => false
  end.

(** The parts that parameters stand for, at most eight. *)
Definition route_params (segments parts : list bytes) : list bytes :=
  take 8 (omap (fun sp => if segment_is_param (fst sp) then Some (snd sp) else None) (zip segments parts)).

Fixpoint lookup_parameterised (items : list route_item) (parts : list bytes) (m : method) : route_result :=
  match items with
  | [] => ROUTE_NOT_FOUND
  | item :: items' =>
      match handler_for item m with
      | Some h => if ro_parameterised item && segments_match (ro_segments item) parts
                  then ROUTE_FOUND h (route_params (ro_segments item) parts)
                  else lookup_parameterised items' parts m
      | None => lookup_parameterised items' parts m
      end
  end.

Definition is_exact (path : bytes) (item : route_item) : bool :=
  negb (ro_parameterised item) && bytes_eqb (ro_key item) (ascii_lower_dup path).

Definition router_lookup (items : list route_item) (path : bytes) (m : method) : route_result :=
  match List.find (is_exact path) items with
  | Some item => match handler_for item m with Some h => ROUTE_FOUND h [] | None => ROUTE_METHOD_NOT_ALLOWED end
  | None =>
      match path with
      | c :: _ => if code c =? 47 then lookup_parameterised items (path_segments path) m else ROUTE_NOT_FOUND
      | [] => ROUTE_NOT_FOUND
      end
  end.

(** ** What a lookup finds *)

(** The item accepts the path. *)
Definition item_accepts (item : route_item) (path : bytes) : Prop :=
  if ro_parameterised item then sb_starts_with path (bs "/") = true /\ segments_match (ro_segments item) (path_segments path) = true
  else ro_key item = ascii_lower_dup path.

Lemma handler_for_In item m h : handler_for item m = Some h -> (m, h) ∈ ro_handlers item.
Proof.
  unfold handler_for. destruct (List.find _ _) as [[m' h']|] eqn:E; [|done]. intros [= ->].
  apply List.find_some in E as [I D]. cbn in D. apply bool_decide_eq_true in D as ->. by apply list_elem_of_In.
Qed.

Lemma starts_with_slash c path : code c = 47 -> sb_starts_with (c :: path) (bs "/") = true.
Proof. intros E. assert (c = chr 47) as -> by (apply code_inj; by rewrite E). unfold sb_starts_with. cbn. apply bool_decide_eq_true. done. Qed.

Lemma lookup_parameterised_found items parts m h ps :
  lookup_parameterised items parts m = ROUTE_FOUND h ps ->
  exists item, item ∈ items /\ ro_parameterised item = true /\ segments_match (ro_segments item) parts = true /\
    handler_for item m = Some h /\ ps = route_params (ro_segments item) parts.
Proof.
  induction items as [|item items IH]; cbn; [done|]. destruct (handler_for item m) as [h'|] eqn:F.
  - destruct (_ && _) eqn:E.
    + intros [= -> <-]. apply andb_true_iff in E as [? ?]. exists item. repeat split; try done. left.
    + intros (i & I & ?)%IH. exists i. split; [by right|done].
  - intros (i & I & ?)%IH. exists i. split; [by right|done].
Qed.

Lemma router_lookup_found items path m h ps :
  router_lookup items path m = ROUTE_FOUND h ps ->
  exists item, item ∈ items /\ item_accepts item path /\ (m, h) ∈ ro_handlers item /\
    ps = if ro_parameterised item then route_params (ro_segments item) (path_segments path) else [].
Proof.
  unfold router_lookup, item_accepts. destruct (List.find (is_exact path) items) as [item|] eqn:F.
  - apply List.find_some in F as [I E]. destruct (handler_for item m) as [h'|] eqn:G; [|done]. intros [= -> <-].
    unfold is_exact in E. apply andb_true_iff in E as [P%negb_true_iff K%bytes_eqb_eq]. exists item. rewrite P.
    split; [by apply list_elem_of_In|]. split; [done|]. split; [by apply handler_for_In|done].
  - destruct path as [|c path]; [done|]. case_if; [|done]. intros (item & I & P & S & G & ->)%lookup_parameterised_found.
    exists item. rewrite P. split; [done|]. split; [|by split; [apply handler_for_In|]]. split; [by apply starts_with_slash|done].
Qed.
End Router.
Arguments route_item H : clear implicits.
Arguments route_result H : clear implicits.

(** * The routes of the panel ([c/src/http_routes_*.c], the functions
    [sb_http_register_*_routes])

    The table of all registrations, with the names of the handlers, in the order in
    which [sb_http_server_new] makes them; and which handlers the paths of a given
    shape can reach. *)

(** ** Registrations: methods, pattern, handler *)

Definition sb_http_register_admin_routes : list (string * string * string) := [
  ("GET", "/api/health", "handle_health");
  ("GET", "/api/system/status", "handle_system_status");
  ("GET", "/api/system/logs", "handle_system_logs");
  ("POST", "/api/system/migrate/wg-easy", "handle_migrate_wg_easy");
  ("GET", "/api/system/migrate/wg-easy", "handle_wg_import_history");
  ("POST", "/api/auth/login", "handle_auth_login");
  ("GET", "/api/auth/session", "handle_auth_session");
  ("GET", "/api/users/audit", "handle_users_audit");
  ("GET", "/api/users", "handle_users_list");
  ("POST", "/api/users", "handle_users_create");
  ("DELETE", "/api/users/{id}", "handle_users_delete");
  ("POST", "/api/users/{id}/password", "handle_users_password");
  ("GET", "/api/settings", "handle_settings_get");
  ("PUT", "/api/settings", "handle_settings_put");
  ("GET", "/api/settings/backup", "handle_settings_backup");
  ("POST", "/api/settings/restore", "handle_settings_restore");
  ("GET", "/api/wireguard/peers", "handle_wireguard_peers_list");
  ("POST", "/api/wireguard/peers", "handle_wireguard_peers_create");
  ("GET", "/api/wireguard/peers/{id}", "handle_wireguard_peer_get");
  ("PUT", "/api/wireguard/peers/{id}", "handle_wireguard_peer_update");
  ("DELETE", "/api/wireguard/peers/{id}", "handle_wireguard_peer_delete");
  ("POST", "/api/wireguard/peers/{id}/enable", "handle_wireguard_peer_enable");
  ("POST", "/api/wireguard/peers/{id}/disable", "handle_wireguard_peer_disable");
  ("GET", "/api/wireguard/peers/{id}/config", "handle_wireguard_peer_config");
  ("GET", "/api/wireguard/peers/{id}/qr", "handle_wireguard_peer_qr");
  ("POST", "/api/wireguard/peers/{id}/one-time-link", "handle_wireguard_peer_one_time_link");
  ("GET", "/api/wireguard/stats", "handle_wireguard_stats");
  ("POST", "/api/wireguard/sync", "handle_wireguard_sync");
  ("GET", "/api/config/sing-box/full", "handle_config_full");
  ("GET", "/api/config/sing-box/outbounds", "handle_config_outbounds");
  ("GET", "/api/config/sing-box/outbound/{id}", "handle_config_outbound")]%string.

Definition sb_http_register_security_routes : list (string * string * string) := [
  ("POST", "/api/auth/login/mfa", "login_mfa");
  ("POST", "/api/auth/logout", "logout_session");
  ("GET", "/api/auth/sessions", "sessions");
  ("DELETE", "/api/auth/sessions", "revoke_session");
  ("DELETE", "/api/auth/sessions/{id}", "revoke_session");
  ("GET", "/api/auth/mfa", "mfa_status");
  ("POST", "/api/auth/mfa/{action}", "mfa_change");
  ("POST", "/api/auth/password", "own_password");
  ("GET", "/api/auth/oidc", "oidc_public");
  ("POST", "/api/auth/oidc/start", "oidc_start");
  ("POST", "/api/auth/oidc/finish", "oidc_finish");
  ("GET,PUT", "/api/auth/oidc/config", "oidc_config");
  ("GET,PUT,DELETE", "/api/users/{id}/oidc", "oidc_links");
  ("GET,PUT", "/api/device-groups", "groups");
  ("DELETE", "/api/device-groups/{id}", "groups");
  ("GET,PUT", "/api/users/{id}/scope", "scope");
  ("GET,DELETE", "/api/users/{id}/sessions", "admin_sessions");
  ("PUT", "/api/users/{id}/role", "change_role")]%string.

Definition sb_http_register_preferences_routes : list (string * string * string) := [
  ("GET,PUT,DELETE", "/api/auth/preferences/{slot}", "preferences")]%string.

Definition sb_http_register_observability_routes : list (string * string * string) := [
  ("GET", "/api/hosts/{id}/history", "history");
  ("GET", "/api/hosts/{id}/alerts", "alerts");
  ("GET", "/api/observability", "overview");
  ("GET", "/api/observability/alerts", "alerts");
  ("POST", "/api/observability/alerts/{id}/ack", "acknowledge");
  ("GET,PUT", "/api/observability/settings", "settings");
  ("POST,DELETE", "/api/observability/token", "token");
  ("GET", "/api/metrics", "prometheus")]%string.

Definition sb_http_register_proxy_routes : list (string * string * string) := [
  ("GET", "/api/sing-box/proxies", "h_clash_proxies");
  ("GET", "/api/sing-box/proxies/{name}", "h_clash_proxy_get");
  ("PUT", "/api/sing-box/proxies/{name}", "h_clash_proxy_put");
  ("GET", "/api/sing-box/proxies/{name}/delay", "h_clash_proxy_delay");
  ("GET", "/api/sing-box/group/{name}/delay", "h_clash_group_delay");
  ("GET", "/api/sing-box/rules", "h_clash_rules");
  ("GET", "/api/sing-box/connections", "h_clash_connections");
  ("GET", "/api/sing-box/version", "h_clash_version");
  ("DELETE", "/api/sing-box/connections", "h_clash_close_connections");
  ("DELETE", "/api/sing-box/connections/{id}", "h_clash_close_connection");
  ("GET", "/api/proxy/nodes", "h_nodes_list");
  ("POST", "/api/proxy/nodes", "h_nodes_create");
  ("POST", "/api/proxy/nodes/import", "h_nodes_import");
  ("POST", "/api/proxy/nodes/test-all", "h_nodes_test_all");
  ("POST", "/api/proxy/nodes/{id}/test-latency", "h_node_test_latency");
  ("GET", "/api/proxy/nodes/{id}", "h_node_get");
  ("PUT", "/api/proxy/nodes/{id}", "h_node_update");
  ("DELETE", "/api/proxy/nodes/{id}", "h_node_delete");
  ("GET", "/api/subscriptions", "h_subscriptions_list");
  ("POST", "/api/subscriptions", "h_subscriptions_create");
  ("POST", "/api/subscriptions/fetch-all", "h_subscriptions_fetch_all");
  ("GET", "/api/subscriptions/{id}", "h_subscription_get");
  ("PUT", "/api/subscriptions/{id}", "h_subscription_update");
  ("DELETE", "/api/subscriptions/{id}", "h_subscription_delete");
  ("POST", "/api/subscriptions/{id}/fetch", "h_subscription_fetch")]%string.

Definition sb_http_register_proxy_user_routes : list (string * string * string) := [
  ("GET,POST", "/api/proxy-users", "users");
  ("GET,PUT,DELETE", "/api/proxy-users/{id}", "user");
  ("POST", "/api/proxy-users/{id}/reset", "reset");
  ("POST", "/api/proxy-users/{id}/claim-token", "claim");
  ("POST", "/api/proxy-users/{id}/devices", "admin_device");
  ("DELETE", "/api/proxy-users/{id}/devices/{device}", "admin_device");
  ("GET", "/api/proxy-ingress", "ingress");
  ("PUT", "/api/proxy-ingress/{host}", "ingress");
  ("POST", "/api/proxy-self/status", "self_service");
  ("POST", "/api/proxy-self/devices", "self_service");
  ("DELETE", "/api/proxy-self/devices/{device}", "self_service");
  ("GET", "/api/proxy-self/subscription", "subscription");
  ("POST", "/api/agent/proxy-leases", "exchange")]%string.

Definition sb_http_register_hosts_routes : list (string * string * string) := [
  ("POST", "/api/agent/captures/{digest}", "handle_agent_capture");
  ("GET", "/api/hosts/{id}/captures", "handle_host_captures");
  ("GET,DELETE", "/api/hosts/{id}/captures/{digest}", "handle_host_capture");
  ("GET", "/api/hosts/profiles", "handle_list_profiles");
  ("POST", "/api/hosts/profiles", "handle_create_profile");
  ("POST", "/api/hosts/rule-script/test", "handle_rule_script_test");
  ("GET", "/api/hosts/profiles/{id}", "handle_get_profile");
  ("PUT", "/api/hosts/profiles/{id}", "handle_update_profile");
  ("DELETE", "/api/hosts/profiles/{id}", "handle_delete_profile");
  ("GET", "/api/hosts", "handle_list_hosts");
  ("POST", "/api/hosts", "handle_create_host");
  ("GET", "/api/hosts/{id}", "handle_get_host");
  ("PUT", "/api/hosts/{id}", "handle_update_host");
  ("DELETE", "/api/hosts/{id}", "handle_delete_host");
  ("GET", "/api/hosts/{id}/telemetry", "handle_host_telemetry");
  ("GET", "/api/hosts/{id}/diagnostics", "handle_host_diagnostics");
  ("GET", "/api/hosts/{id}/commands", "handle_list_host_commands");
  ("POST", "/api/hosts/{id}/commands", "handle_enqueue_host_command");
  ("GET", "/api/hosts/{id}/outbounds", "handle_get_host_outbounds");
  ("PUT", "/api/hosts/{id}/outbounds", "handle_set_host_outbounds");
  ("GET", "/api/hosts/{id}/config", "handle_host_config");
  ("GET", "/api/hosts/{id}/wg-config", "handle_host_wg_config");
  ("GET", "/api/hosts/{id}/token", "handle_host_token");
  ("POST", "/api/hosts/{id}/rotate-token", "handle_rotate_host_token");
  ("POST", "/api/devices/{id}/enrollment-codes", "handle_create_device_enrollment");
  ("POST", "/api/hosts/{id}/enrollment-codes", "handle_create_device_enrollment");
  ("GET", "/api/agent/health", "handle_agent_health");
  ("POST", "/api/devices/enroll", "handle_redeem_device_enrollment");
  ("POST", "/api/agent/enroll", "handle_redeem_device_enrollment");
  ("GET", "/api/agent/config", "handle_agent_config");
  ("POST", "/api/agent/status", "handle_agent_status");
  ("GET", "/api/agent/commands", "handle_agent_commands");
  ("POST", "/api/agent/commands/{command_id}/ack", "handle_agent_command_ack");
  ("POST", "/api/agent/proxy-latency", "handle_agent_proxy_latency");
  ("POST", "/api/agent/telemetry", "handle_agent_telemetry");
  ("POST", "/api/agent/diagnostics", "handle_agent_diagnostics")]%string.

Definition registrations : list (string * string * string) :=
  sb_http_register_admin_routes ++
  sb_http_register_security_routes ++
  sb_http_register_preferences_routes ++
  sb_http_register_observability_routes ++
  sb_http_register_proxy_routes ++
  sb_http_register_proxy_user_routes ++
  sb_http_register_hosts_routes.

(** [srv->routes]. *)
Definition routes : list (route_item string) :=
  foldl (fun items r => match r with (names, pattern, h) => sb_http_route (bs names) (bs pattern) h items end) [] registrations.

(** * Theorems *)

(** ** Lowercase and segments *)

Lemma tolower_iff d c : isupper d || islower d = false -> tolower c = d <-> c = d.
Proof.
  unfold tolower. intros D. destruct (isupper c) eqn:U; [|done]. unfold isupper, islower, in_range in *.
  apply orb_false_iff in D. apply andb_true_iff in U. rewrite !andb_false_iff in D.
  split; intros <-; rewrite ?code_chr in D by (bool_facts; lia); bool_facts; lia.
Qed.

Lemma tolower_idem c : tolower (tolower c) = tolower c.
Proof.
  assert (forallb (fun c => bool_decide (tolower (tolower c) = tolower c)) all_bytes = true) as F by (vm_compute; reflexivity).
  pose proof (byte_forallb _ F c) as B. by apply bool_decide_eq_true in B.
Qed.

Lemma lower_idem s : ascii_lower_dup (ascii_lower_dup s) = ascii_lower_dup s.
Proof. unfold ascii_lower_dup. rewrite <- list_fmap_compose. apply list_fmap_ext. intros ? ? _. apply tolower_idem. Qed.

Lemma cstr_lower s : cstr (ascii_lower_dup s) = ascii_lower_dup (cstr s).
Proof.
  induction s as [|c s IH]; [done|]. cbn. fold (ascii_lower_dup s).
  assert ((code (tolower c) =? 0) = (code c =? 0)) as ->; [|case_if; [done|]; cbn; by rewrite IH].
  apply Bool.eq_iff_eq_true. rewrite !Z.eqb_eq. split; intros E.
  - assert (tolower c = chr 0) as T by (apply code_inj; by rewrite E). apply tolower_iff in T as ->; done.
  - assert (c = chr 0) as -> by (apply code_inj; by rewrite E). done.
Qed.

Lemma split_from_lower d start s : isupper d || islower d = false ->
  split_from d (ascii_lower_dup start) (ascii_lower_dup s) = ascii_lower_dup <$> split_from d start s.
Proof.
  intros D. revert start. induction s as [|c s IH]; intros start; [done|]. cbn. fold (ascii_lower_dup s).
  rewrite (bool_decide_ext (tolower c = d) (c = d)) by (by apply tolower_iff).
  case_bool_decide; cbn.
  - f_equal. apply (IH []).
  - rewrite <- IH. unfold ascii_lower_dup. by rewrite fmap_app.
Qed.

Lemma path_segments_lower path : path_segments (ascii_lower_dup path) = ascii_lower_dup <$> path_segments path.
Proof.
  assert (drop_first_slash (ascii_lower_dup path) = ascii_lower_dup (drop_first_slash path)) as E.
  { destruct path as [|c path]; [done|]. cbn. assert ((code (tolower c) =? 47) = (code c =? 47)) as ->; [|by case_if].
    apply Bool.eq_iff_eq_true. rewrite !Z.eqb_eq. split; intros E.
    - assert (tolower c = chr 47) as T by (apply code_inj; by rewrite E). apply tolower_iff in T as ->; done.
    - assert (c = chr 47) as -> by (apply code_inj; by rewrite E). done. }
  unfold path_segments, sb_split. rewrite E, cstr_lower. by apply (split_from_lower _ []).
Qed.

(** ** Shapes of paths *)

(** A segment of a path: a text up to case, or any text but some. *)
Inductive segment_shape := Lit (text : string) | Other (except : list string).

Definition segment_fits (x : segment_shape) (part : bytes) : Prop :=
  match x with
  | Lit text => ascii_lower_dup part = bs text
  | Other except => ascii_lower_dup part ∉ (bs <$> except)
  end.

(** A shape: its first segments, and whether more may follow. *)
Fixpoint path_fits (xs : list segment_shape) (more : bool) (parts : list bytes) : Prop :=
  match xs, parts with
  | [], [] => True
  | [], _ :: _ => more = true
  | x :: xs', part :: parts' => segment_fits x part /\ path_fits xs' more parts'
  | _ :: _, [] => False
  end.

Definition segment_meets (segment : bytes) (x : segment_shape) : bool :=
  segment_is_param segment ||
  match x with
  | Lit text => bytes_eqb (ascii_lower_dup segment) (bs text)
  | Other except => negb (existsb (bytes_eqb (ascii_lower_dup segment)) (bs <$> except))
  end.

Fixpoint segments_meet (segments : list bytes) (xs : list segment_shape) (more : bool) : bool :=
  match segments, xs with
  | [], [] => true
  | _ :: _, [] => more
  | s :: segments', x :: xs' => segment_meets s x && segments_meet segments' xs' more
  | [], _ :: _ => false
  end.

Lemma segments_meet_complete segments xs more parts :
  segments_match segments parts = true -> path_fits xs more parts -> segments_meet segments xs more = true.
Proof.
  revert xs parts. induction segments as [|s segments IH]; intros xs parts M F.
  { destruct parts; [|done]. by destruct xs. }
  destruct parts as [|part parts]; [done|]. destruct xs as [|x xs]; [done|]. cbn in M, F |- *.
  apply andb_true_iff in M as [M Ms]. destruct F as [Fx Fs]. rewrite (IH _ _ Ms Fs), andb_true_r.
  unfold segment_meets. destruct (segment_is_param s); [done|]. cbn in M |- *. apply bytes_eqb_eq in M.
  destruct x; cbn in Fx; rewrite M.
  - by apply bytes_eqb_eq.
  - apply negb_true_iff, Bool.not_true_iff_false. intros (y & Y & <-%bytes_eqb_eq)%existsb_exists. by apply Fx, list_elem_of_In.
Qed.

(** The items of the table that accept some path of a shape. *)
Definition reached (xs : list segment_shape) (more : bool) : list (route_item string) :=
  List.filter (fun item => segments_meet (ro_segments item) xs more) routes.

(** The key of a pattern without parameters gives its segments back. *)
Lemma exact_segments : forallb (fun item => ro_parameterised item ||
  bool_decide (path_segments (ro_key item) = ascii_lower_dup <$> ro_segments item)) routes = true.
Proof. vm_compute. reflexivity. Qed.

Lemma segments_match_lower segments parts :
  ascii_lower_dup <$> parts = ascii_lower_dup <$> segments -> segments_match segments parts = true.
Proof.
  revert parts. induction segments as [|s segments IH]; intros [|p parts]; cbn; try done. intros [= E Es].
  rewrite IH by done. rewrite andb_true_r. apply orb_true_iff. right. by apply bytes_eqb_eq.
Qed.

Lemma accepted_segments item path : item ∈ routes -> item_accepts item path -> segments_match (ro_segments item) (path_segments path) = true.
Proof.
  unfold item_accepts. intros I A. pose proof exact_segments as X. rewrite forallb_forall in X.
  specialize (X item (proj1 (list_elem_of_In _ _) I)). destruct (ro_parameterised item); [by destruct A|]. cbn in X.
  apply bool_decide_eq_true in X. apply segments_match_lower. by rewrite <- X, A, path_segments_lower.
Qed.

Lemma lookup_reached path m h ps xs more :
  router_lookup routes path m = ROUTE_FOUND h ps -> path_fits xs more (path_segments path) ->
  exists item, item ∈ reached xs more /\ (m, h) ∈ ro_handlers item /\
    ps = if ro_parameterised item then route_params (ro_segments item) (path_segments path) else [].
Proof.
  intros (item & I & A & Hm & ->)%router_lookup_found F. exists item. split; [|done].
  apply list_elem_of_In, filter_In. split; [by apply list_elem_of_In|].
  eapply segments_meet_complete; [by apply accepted_segments|done].
Qed.

(** The handlers of some items, with their methods. *)
Definition handlers_of (items : list (route_item string)) : list (method * string) := items ≫= ro_handlers.

Lemma lookup_handlers path m h ps xs more :
  router_lookup routes path m = ROUTE_FOUND h ps -> path_fits xs more (path_segments path) -> (m, h) ∈ handlers_of (reached xs more).
Proof.
  intros L F. destruct (lookup_reached _ _ _ _ _ _ L F) as (item & I & Hm & _).
  apply list_elem_of_bind. eauto.
Qed.

(** ** Paths and shapes *)

Lemma split_from_segment d start s r : Forall (fun c => c <> d) s -> split_from d start (s ++ d :: r) = (start ++ s) :: split_from d [] r.
Proof.
  intros F. revert start. induction F as [|c s N _ IH]; intros start; cbn.
  - by rewrite bool_decide_eq_true_2, app_nil_r.
  - rewrite bool_decide_eq_false_2, IH by done. by rewrite <- app_assoc.
Qed.

Lemma split_from_last d start s : Forall (fun c => c <> d) s -> split_from d start s = [start ++ s].
Proof.
  intros F. revert start. induction F as [|c s N _ IH]; intros start; cbn; [by rewrite app_nil_r|].
  rewrite bool_decide_eq_false_2, IH by done. by rewrite <- app_assoc.
Qed.

Definition slash : ascii := chr 47.
(** Segments, each followed by a slash. *)
Definition joined (l : list string) : bytes := l ≫= fun s => bs s ++ [slash].
Definition plain_segment (s : string) : Prop := Forall (fun c => c <> slash) (bs s).

Lemma lower_no_slash x s : ascii_lower_dup x = s -> Forall (fun c => c <> slash) s -> Forall (fun c => c <> slash) x.
Proof.
  intros <- F. rewrite Forall_forall in F |- *. intros c C ->. apply (F slash); [|done]. apply list_elem_of_fmap. by exists slash.
Qed.

Lemma joined_segments l q r :
  Forall plain_segment l -> ascii_lower_dup q = joined l ++ r ->
  exists xs, split_from slash [] q = xs ++ split_from slash [] (drop (length (joined l)) q) /\ ascii_lower_dup <$> xs = bs <$> l.
Proof.
  intros F. revert q. induction F as [|s l P _ IH]; intros q E; [by exists []|].
  cbn [joined mbind list_bind] in E. fold (joined l) in E. rewrite <- !app_assoc in E. cbn [app] in E.
  unfold ascii_lower_dup in E. apply fmap_app_inv in E as (x & y & E1 & E2 & ->).
  destruct y as [|c q']; [done|]. cbn in E2. injection E2 as C E2. symmetry in C. apply tolower_iff in C as ->; [|done].
  destruct (IH q' (eq_sym E2)) as (xs & X & L). exists (x :: xs). rewrite split_from_segment by (eapply lower_no_slash; [symmetry; exact E1|done]).
  cbn [app]. rewrite X. split; [|cbn; f_equal; [by symmetry|done]]. f_equal. f_equal. f_equal.
  cbn [joined mbind list_bind]. fold (joined l). rewrite <- app_assoc. cbn.
  assert (length (bs s) = length x) as LS by (rewrite <- (length_fmap tolower x); by f_equal).
  rewrite !length_app. cbn. rewrite LS. rewrite (drop_app_ge x) by lia.
  replace (length x + S (length (joined l)) - length x)%nat with (S (length (joined l))) by lia. done.
Qed.

Lemma starts_with_app s p : no_nul s = true -> no_nul p = true -> sb_starts_with s p = true -> exists r, s = p ++ r.
Proof.
  intros S P. unfold sb_starts_with. rewrite !cstr_no_nul by done. intros E%bytes_eqb_eq. exists (drop (length p) s). by rewrite <- E at 1; rewrite take_drop.
Qed.

Lemma no_nul_lower s : no_nul s = true -> no_nul (ascii_lower_dup s) = true.
Proof.
  unfold no_nul. rewrite !forallb_forall. intros F c (x & <- & X)%in_map_iff. specialize (F x X).
  apply negb_true_iff, Z.eqb_neq. apply negb_true_iff, Z.eqb_neq in F. intros E. apply F.
  assert (tolower x = chr 0) as T by (apply code_inj; by rewrite E). apply tolower_iff in T as ->; done.
Qed.

(** The segments of a path that starts with the segments [l], up to case. *)
Lemma prefix_segments l path :
  Forall plain_segment l -> no_nul (joined l) = true -> no_nul path = true ->
  sb_starts_with (ascii_lower_dup path) (slash :: joined l) = true ->
  exists xs, path_segments path = xs ++ split_from slash [] (drop (S (length (joined l))) path) /\ ascii_lower_dup <$> xs = bs <$> l.
Proof.
  intros F N P S. apply starts_with_app in S as [r E]; [|by apply no_nul_lower|done].
  destruct path as [|c q]; [done|]. cbn in E. injection E as C E. apply tolower_iff in C as ->; [|done].
  cbn [drop]. unfold path_segments, sb_split. cbn [drop_first_slash]. change (code slash =? 47) with true. cbn iota.
  rewrite cstr_no_nul by (by apply andb_true_iff in P as [_ P]). by eapply joined_segments.
Qed.

Lemma fits_literals l more parts rest :
  (rest = [] \/ more = true) -> ascii_lower_dup <$> parts = (bs <$> l) ++ rest -> path_fits (Lit <$> l) more parts.
Proof.
  intros M. revert parts. induction l as [|s l IH]; intros parts E; cbn in E |- *.
  - destruct parts; [done|]. destruct M as [-> | ->]; done.
  - destruct parts as [|p parts]; [done|]. injection E as E1 E2. split; [done|]. by apply IH.
Qed.

Lemma prefix_fits l path :
  Forall plain_segment l -> no_nul (joined l) = true -> no_nul path = true ->
  sb_starts_with (ascii_lower_dup path) (slash :: joined l) = true -> path_fits (Lit <$> l) true (path_segments path).
Proof.
  intros F N P S. destruct (prefix_segments l path F N P S) as (xs & -> & L).
  eapply (fits_literals _ _ _ (ascii_lower_dup <$> _)); [by right|]. by rewrite fmap_app, L.
Qed.

Lemma exact_fits l path text :
  path_segments text = bs <$> l -> ascii_lower_dup path = text -> path_fits (Lit <$> l) false (path_segments path).
Proof. intros T <-. eapply fits_literals; [by left|]. by rewrite <- path_segments_lower, T, app_nil_r. Qed.
