(* ===== verification/HttpWire.v ===== *)
(** * Requests and responses of the HTTP server ([c/src/http_server.c])

    The options of the server, what a handler gets and gives, and what is sent:
    status line, headers and body. *)

From S2P Require Import Prelude Util Json JsonText Auth WgHub HttpText.

(** ** Options ([include/sb/http_server.h]) *)

(** The strings of the options given by the caller may be NULL. *)
Record server_options (S : Type) := mk_server_options {
  so_address : S; so_port : Z; so_threads : Z; so_public_server : S; so_hash_seed : S; so_agent_token : S; so_jwt_secret : S;
  so_admin_password : S; so_clash_url : S; so_clash_secret : S; so_auto_refresh : bool; so_managed : bool; so_binary : S;
  so_config_path : S; so_interval : Z; so_validate : bool; so_wg_enabled : bool; so_wg_interface : S; so_wg_port : Z;
  so_wg_address : S; so_wg_dns : S; so_wg_mtu : Z; so_wg_egress : S; so_hostname : S; so_wg_directory : S; so_static : S;
  so_cors : S; so_log_level : S }.
Arguments mk_server_options {S}.
Arguments so_address {S}.
Arguments so_port {S}.
Arguments so_threads {S}.
Arguments so_public_server {S}.
Arguments so_hash_seed {S}.
Arguments so_agent_token {S}.
Arguments so_jwt_secret {S}.
Arguments so_admin_password {S}.
Arguments so_clash_url {S}.
Arguments so_clash_secret {S}.
Arguments so_auto_refresh {S}.
Arguments so_managed {S}.
Arguments so_binary {S}.
Arguments so_config_path {S}.
Arguments so_interval {S}.
Arguments so_validate {S}.
Arguments so_wg_enabled {S}.
Arguments so_wg_interface {S}.
Arguments so_wg_port {S}.
Arguments so_wg_address {S}.
Arguments so_wg_dns {S}.
Arguments so_wg_mtu {S}.
Arguments so_wg_egress {S}.
Arguments so_hostname {S}.
Arguments so_wg_directory {S}.
Arguments so_static {S}.
Arguments so_cors {S}.
Arguments so_log_level {S}.

Abbreviation sb_http_server_options := (server_options bytes).

Definition sb_http_server_options_init : sb_http_server_options :=
  mk_server_options (bs "127.0.0.1") 51821 1 [] [] [] [] (bs "admin") (bs "http://127.0.0.1:9090") [] true false (bs "sing-box") [] 10 true
    false (bs "wg0") 51820 (bs "10.59.32.1/24") (bs "10.59.32.1") 1420 (bs "eth0") (bs "127.0.0.1") (bs "/etc/wireguard")
    (bs "frontend/dist") [] (bs "info").

Definition opt_dup (s : option bytes) : bytes := cstr (default [] s).

Definition sb_http_server_options_copy (o : server_options (option bytes)) : sb_http_server_options :=
  mk_server_options (opt_dup (so_address o)) (so_port o) (so_threads o) (opt_dup (so_public_server o)) (opt_dup (so_hash_seed o))
    (opt_dup (so_agent_token o)) (opt_dup (so_jwt_secret o)) (opt_dup (so_admin_password o)) (opt_dup (so_clash_url o))
    (opt_dup (so_clash_secret o)) (so_auto_refresh o) (so_managed o) (opt_dup (so_binary o)) (opt_dup (so_config_path o))
    (so_interval o) (so_validate o) (so_wg_enabled o) (opt_dup (so_wg_interface o)) (so_wg_port o) (opt_dup (so_wg_address o))
    (opt_dup (so_wg_dns o)) (so_wg_mtu o) (opt_dup (so_wg_egress o)) (opt_dup (so_hostname o)) (opt_dup (so_wg_directory o))
    (opt_dup (so_static o)) (opt_dup (so_cors o)) (opt_dup (so_log_level o)).

Definition wireguard_options_from (o : sb_http_server_options) : sb_wireguard_options :=
  mk_options (so_wg_enabled o) (so_wg_interface o) (so_wg_port o) (so_wg_address o) (so_wg_dns o) (so_wg_mtu o) (so_hostname o)
    (so_wg_egress o) (so_wg_directory o).

(** [%u] of a port. *)
Definition normalized_enrollment_server (o : sb_http_server_options) : bytes :=
  let server := sb_http_trim_trailing_slashes (Some (so_public_server o)) in
  if sb_starts_with server (bs "http://") || sb_starts_with server (bs "https://") then server
  else if negb (existsb (fun c => code c =? 58) server) ||
          (sb_starts_with server (bs "[") && sb_ends_with server (bs "]"))
  then bs "http://" ++ server ++ bs ":" ++ fmt_uint (so_port o)
  else bs "http://" ++ server.

(** The origins that may read answers: all of them, or a list. *)
Fixpoint cors_list (parts : list bytes) (origins : list bytes) : bool * list bytes :=
  match parts with
  | [] => (false, origins)
  | part :: parts' =>
      let origin := sb_http_trim (Some part) in
      if bytes_eqb origin (bs "*") then (true, [])
      else cors_list parts' (match origin with [] => origins | _ => origins ++ [origin] end)
  end.
Definition cors_init (configured : option bytes) : bool * list bytes :=
  let origins := sb_http_trim configured in
  if bytes_eqb origins [] || bytes_eqb origins (bs "*") then (true, []) else cors_list (sb_split origins (chr 44)) [].

(** The part of [struct sb_http_server] that does not change. *)
Record sb_http_server := mk_http_server {
  hs_opts : sb_http_server_options; hs_wireguard : sb_wireguard_options; hs_enrollment : bytes; hs_agent_token : bytes;
  hs_wildcard : bool; hs_origins : list bytes }.

Definition server_of (o : sb_http_server_options) : sb_http_server :=
  let (wildcard, origins) := cors_init (Some (so_cors o)) in
  mk_http_server o (wireguard_options_from o) (normalized_enrollment_server o) (sb_http_trim (Some (so_agent_token o))) wildcard origins.

(** ** Requests *)

Record sb_http_req := mk_req {
  rq_method : method; rq_path : bytes; rq_query : option bytes; rq_body : bytes; rq_headers : list (bytes * bytes);
  rq_params : list bytes; rq_claims : option sb_auth_claims; rq_remote : bytes }.

Definition with_params (rq : sb_http_req) (params : list bytes) : sb_http_req :=
  mk_req (rq_method rq) (rq_path rq) (rq_query rq) (rq_body rq) (rq_headers rq) params (rq_claims rq) (rq_remote rq).
Definition with_claims (rq : sb_http_req) (claims : sb_auth_claims) : sb_http_req :=
  mk_req (rq_method rq) (rq_path rq) (rq_query rq) (rq_body rq) (rq_headers rq) (rq_params rq) (Some claims) (rq_remote rq).

Definition sb_req_header (rq : sb_http_req) (name : string) : option bytes :=
  snd <$> List.find (fun h => strcaseeq (fst h) (bs name)) (rq_headers rq).
Definition exchange_header (rq : sb_http_req) (name : string) : bytes := default [] (sb_req_header rq name).

Definition sb_req_query_param (rq : sb_http_req) (name : string) : option bytes :=
  let value := match rq_query rq with Some q => scan_parameters q (bs name) None | None => None end in
  match rq_body rq with
  | [] => value
  | body =>
      let type := ascii_lower_dup (exchange_header rq "content-type") in
      if bytes_eqb type [] || strstr type (bs "application/x-www-form-urlencoded") then scan_parameters body (bs name) value else value
  end.

Definition sb_req_json_object (rq : sb_http_req) : result sbj :=
  match sbj_parse (rq_body rq) with
  | Some (SBJ_OBJECT m) => Ok (SBJ_OBJECT m)
  | _ => sb_fail SB_ERR_VALIDATION (bs "Request body must be a JSON object")
  end.

Definition no_token {A} : result A := sb_fail SB_ERR_AUTH (bs "Invalid or expired token").

Definition sb_req_claims (rq : sb_http_req) : result sb_auth_claims :=
  match rq_claims rq with Some c => Ok c | None => no_token end.

Definition is_admin_role (c : sb_auth_claims) : bool := bytes_eqb (cstr (role c)) (bs "admin").

Definition sb_require_admin (rq : sb_http_req) : result unit :=
  match rq_claims rq with
  | None => no_token
  | Some c => if is_admin_role c then Ok tt else sb_fail SB_ERR_FORBIDDEN (bs "Admin role required")
  end.

(** ** Responses of handlers *)

Record sb_http_resp := mk_resp {
  rs_status : Z; rs_json : option sbj; rs_body : option bytes; rs_type : option bytes; rs_headers : list (bytes * bytes);
  rs_file : option bytes; rs_immutable : bool; rs_handled : bool }.

Definition resp_init : sb_http_resp := mk_resp 200 None None None [] None false false.

Definition sb_resp_json (status : Z) (body : sbj) (r : sb_http_resp) : sb_http_resp :=
  mk_resp status (Some body) (rs_body r) (rs_type r) (rs_headers r) (rs_file r) (rs_immutable r) (rs_handled r).
Definition sb_resp_error (status : Z) (message : option bytes) (r : sb_http_resp) : sb_http_resp :=
  sb_resp_json status (sbj_set_str (SBJ_OBJECT []) "error" (default [] message)) r.
Definition sb_resp_text (status : Z) (content_type : bytes) (body : option bytes) (r : sb_http_resp) : sb_http_resp :=
  mk_resp status None body (Some content_type) (rs_headers r) (rs_file r) (rs_immutable r) (rs_handled r).
Definition sb_resp_header_n (name : string) (value : bytes) (r : sb_http_resp) : sb_http_resp :=
  mk_resp (rs_status r) (rs_json r) (rs_body r) (rs_type r) (rs_headers r ++ [(bs name, value)]) (rs_file r) (rs_immutable r) (rs_handled r).
Definition sb_resp_header (name : string) (value : bytes) (r : sb_http_resp) : sb_http_resp := sb_resp_header_n name (cstr value) r.
Definition quote : ascii := chr 34.
Definition sb_resp_attachment (name : bytes) (suffix : string) (r : sb_http_resp) : sb_http_resp :=
  sb_resp_header_n "Content-Disposition"
    (bs "attachment; filename=" ++ [quote] ++ ((fun c => if code c =? 32 then chr 95 else c) <$> name) ++ bs suffix ++ [quote]) r.
Definition resp_file (path : bytes) (immutable : bool) (r : sb_http_resp) : sb_http_resp :=
  mk_resp (rs_status r) (rs_json r) (rs_body r) (rs_type r) (rs_headers r) (Some path) immutable (rs_handled r).

(** ** What is sent *)

(** [ws_file]: the path, the offset and the length of the part that is sent. *)
Record wire_response := mk_wire {
  ws_status : Z; ws_type : option bytes; ws_headers : list (bytes * bytes); ws_body : bytes; ws_file : option (bytes * Z * Z);
  ws_close : bool }.

Definition wire_init (status : Z) : wire_response := mk_wire status None [] [] None false.

Definition set_status (status : Z) (w : wire_response) : wire_response :=
  mk_wire status (ws_type w) (ws_headers w) (ws_body w) (ws_file w) (ws_close w).
Definition set_type (type : bytes) (w : wire_response) : wire_response :=
  mk_wire (ws_status w) (Some type) (ws_headers w) (ws_body w) (ws_file w) (ws_close w).
Definition set_body (body : bytes) (w : wire_response) : wire_response :=
  mk_wire (ws_status w) (ws_type w) (ws_headers w) body (ws_file w) (ws_close w).

(** The value of a header that is there is replaced. *)
Definition wire_set_header_n (name value : bytes) (w : wire_response) : wire_response :=
  let name := ascii_lower_dup name in
  mk_wire (ws_status w) (ws_type w)
    (if existsb (fun h => bytes_eqb (fst h) name) (ws_headers w)
     then (fun h => if bytes_eqb (fst h) name then (name, value) else h) <$> ws_headers w
     else ws_headers w ++ [(name, value)])
    (ws_body w) (ws_file w) (ws_close w).
Definition wire_set_header (name : string) (value : bytes) (w : wire_response) : wire_response := wire_set_header_n (bs name) (cstr value) w.

Definition wire_header (w : wire_response) (lowered_name : string) : option bytes :=
  snd <$> List.find (fun h => bytes_eqb (fst h) (bs lowered_name)) (ws_headers w).

Definition json_type : bytes := bs "application/json; charset=utf-8".

(** A body that is not UTF-8 is replaced by an error. *)
Definition wire_json (status : Z) (body : sbj) (w : wire_response) : wire_response :=
  let (status, body) :=
    match sbj_validate_utf8 body with
    | Ok _ => (status, body)
    | Err e => (400, sbj_set_str (SBJ_OBJECT []) "error" (bs "Invalid JSON request: " ++ cstr (err_msg e)))
    end in
  set_type json_type (set_body (cstr (sbj_dump (Some body) (-1))) (set_status status w)).

Definition wire_error (status : Z) (message : bytes) (w : wire_response) : wire_response :=
  wire_json status (sbj_set_str (SBJ_OBJECT []) "error" message) w.

Definition html_type : bytes := bs "text/html; charset=utf-8".
Definition wire_empty_html (status : Z) (w : wire_response) : wire_response := set_type html_type (set_status status w).

Definition crlf : bytes := [chr 13; chr 10].
Definition lf : bytes := [chr 10].
Definition quoted_text (s : string) : bytes := [quote] ++ bs s ++ [quote].
Definition not_found_page : bytes :=
  let padding := bs "<!-- a padding to disable MSIE and Chrome friendly error page -->" ++ lf in
  bs "<html>" ++ lf ++ bs "<head><title>404 Not Found</title></head>" ++ lf ++
  bs "<body bgcolor=" ++ quoted_text "white" ++ bs " text=" ++ quoted_text "black" ++ bs ">" ++ lf ++
  bs "<center><h1>404 Not Found</h1></center>" ++ lf ++
  bs "<hr><center>drogon/1.9.13</center>" ++ lf ++ bs "</body>" ++ lf ++ bs "</html>" ++ lf ++
  padding ++ padding ++ padding ++ padding ++ padding ++ padding.
Definition wire_not_found_page (w : wire_response) : wire_response := set_body not_found_page (wire_empty_html 404 w).

Definition reasons : list (Z * string) := [
  (100, "Continue"); (101, "Switching Protocols"); (200, "OK"); (201, "Created"); (202, "Accepted");
  (203, "Non-Authoritative Information"); (204, "No Content"); (205, "Reset Content"); (206, "Partial Content");
  (301, "Moved Permanently"); (302, "Found"); (303, "See Other"); (304, "Not Modified"); (307, "Temporary Redirect");
  (308, "Permanent Redirect"); (400, "Bad Request"); (401, "Unauthorized"); (402, "Payment Required"); (403, "Forbidden");
  (404, "Not Found"); (405, "Method Not Allowed"); (406, "Not Acceptable"); (408, "Request Time-out"); (409, "Conflict");
  (410, "Gone"); (411, "Length Required"); (412, "Precondition Failed"); (413, "Request Entity Too Large");
  (414, "Request-URI Too Large"); (415, "Unsupported Media Type"); (416, "Requested Range Not Satisfiable");
  (417, "Expectation Failed"); (422, "Unprocessable Entity"); (429, "Too Many Requests"); (500, "Internal Server Error");
  (501, "Not Implemented"); (502, "Bad Gateway"); (503, "Service Unavailable"); (504, "Gateway Time-out");
  (505, "HTTP Version Not Supported")]%string.
Definition status_reason (status : Z) : bytes :=
  bs (match List.find (fun r => fst r =? status) reasons with Some r => snd r | None => "Unknown"%string end).

Definition content_length_allowed (status : Z) : bool := ((200 <=? status) || (status <? 100)) && negb (status =? 204).

(** ** Errors of handlers *)

(** The second component is the text that goes to the log. *)
Definition map_error (e : sb_err) (w : wire_response) : wire_response * option bytes :=
  match err_code e with
  | SB_ERR_AUTH => (wire_error 401 (err_msg e) w, None)
  | SB_ERR_UNAVAILABLE => (wire_error 503 (err_msg e) w, None)
  | SB_ERR_FORBIDDEN => (wire_error 403 (err_msg e) w, None)
  | SB_ERR_NOT_FOUND => (wire_error 404 (err_msg e) w, None)
  | SB_ERR_CONFLICT => (wire_error 409 (err_msg e) w, None)
  | SB_ERR_VALIDATION => (wire_error 400 (err_msg e) w, None)
  | SB_ERR_SCRIPT =>
      (wire_json 422 (sbj_set_str (sbj_set_str (SBJ_OBJECT []) "error" (err_msg e)) "kind" (bs "rule_script")) w, None)
  | SB_ERR_BAD_JSON => (wire_error 400 (bs "Invalid JSON request: " ++ cstr (err_msg e)) w, None)
  | _ => (wire_error 500 (bs "Internal server error") w, Some (bs "HTTP handler failed: " ++ cstr (err_msg e)))
  end.

(** ** Headers of cross-origin answers *)

Definition cors_apply (srv : sb_http_server) (rq : sb_http_req) (w : wire_response) : wire_response :=
  match wire_header w "access-control-allow-origin" with
  | Some (_ :: _) => w
  | _ =>
      let origin := sb_http_trim (sb_req_header rq "origin") in
      if bytes_eqb origin [] || (negb (hs_wildcard srv) && negb (sb_strvec_contains (hs_origins srv) origin)) then w
      else
        let w := wire_set_header "Access-Control-Allow-Origin" (if hs_wildcard srv then bs "*" else origin) w in
        let w := wire_set_header "Access-Control-Allow-Methods" (bs "GET, POST, PUT, DELETE, PATCH, OPTIONS") w in
        let headers := sb_http_trim (sb_req_header rq "access-control-request-headers") in
        let w := wire_set_header "Access-Control-Allow-Headers" (match headers with [] => bs "Authorization, Content-Type" | _ => headers end) w in
        let w := wire_set_header "Access-Control-Expose-Headers"
          (bs "ETag, Content-Disposition, X-SB-Easy-Rule-Source, X-SB-Easy-Profile-Id, X-SB-Easy-Profile-Name") w in
        let w := wire_set_header "Access-Control-Max-Age" (bs "600") w in
        if hs_wildcard srv then w else wire_set_header "Vary" (bs "Origin") w
  end.

(** ** Types of files *)

Definition mime_table : list (string * string) := [
  ("aac", "audio/aac"); ("ac3", "audio/ac3"); ("aif", "audio/aiff"); ("aifc", "audio/aiff"); ("aiff", "audio/aiff");
  ("apg", "video/apg"); ("ape", "audio/x-ape"); ("apng", "image/apng"); ("av1", "video/av01"); ("avi", "video/x-msvideo");
  ("avif", "image/avif"); ("bmp", "image/bmp"); ("bz", "application/x-bzip"); ("bz2", "application/x-bzip2");
  ("css", "text/css; charset=utf-8"); ("csv", "text/csv; charset=utf-8"); ("doc", "application/msword");
  ("docx", "application/vnd.openxmlformats-officedocument.wordprocessingml.document");
  ("eot", "application/vnd.ms-fontobject"); ("flac", "audio/flac"); ("gif", "image/gif"); ("gz", "application/gzip");
  ("htm", "text/html; charset=utf-8"); ("html", "text/html; charset=utf-8"); ("icns", "image/icns");
  ("ico", "image/vnd.microsoft.icon"); ("j2k", "image/jp2"); ("jar", "application/java-archive"); ("j2c", "image/jp2");
  ("jp2", "image/jp2"); ("jpeg", "image/jpeg"); ("jpc", "image/jp2"); ("jpf", "image/jp2"); ("jpg", "image/jpeg");
  ("jpg2", "image/jp2"); ("jpm", "image/jp2"); ("jpx", "image/jp2"); ("js", "text/javascript; charset=utf-8");
  ("json", "application/json; charset=utf-8"); ("lzma", "application/x-xz"); ("m1a", "audio/mpeg"); ("m1v", "video/mpeg");
  ("m2a", "audio/mpeg"); ("m2ts", "video/mp2t"); ("m2v", "video/mpeg"); ("m4a", "audio/mp4"); ("m4v", "video/x-m4v");
  ("mjs", "text/javascript; charset=utf-8"); ("mka", "audio/matroska"); ("mkv", "video/matroska"); ("mng", "image/x-mng");
  ("mov", "video/quicktime"); ("mp1", "audio/mpeg"); ("mp2", "audio/mpeg"); ("mp3", "audio/mpeg"); ("mp4", "video/mp4");
  ("mpa", "audio/mpeg"); ("mpe", "video/mpeg"); ("mpeg", "video/mpeg"); ("mpg", "video/mpeg"); ("mpv", "video/mpeg");
  ("oga", "audio/ogg"); ("ogg", "audio/ogg"); ("ogv", "video/ogg"); ("otf", "application/x-font-opentype");
  ("pdf", "application/pdf"); ("php", "application/x-httpd-php"); ("png", "image/png"); ("rar", "application/vnd.rar");
  ("svg", "image/svg+xml"); ("tar", "application/x-tar"); ("targa", "image/x-tga"); ("tif", "image/tiff");
  ("tiff", "image/tiff"); ("tga", "image/x-tga"); ("tgz", "application/x-tgz"); ("ts", "video/mp2t"); ("tta", "audio/x-tta");
  ("ttf", "application/x-font-truetype"); ("txt", "text/plain; charset=utf-8"); ("w64", "audio/wav"); ("wav", "audio/wav");
  ("wave", "audio/wav"); ("wasm", "application/wasm"); ("weba", "audio/webm"); ("webm", "video/webm");
  ("webp", "image/webp"); ("wma", "audio/x-ms-wma"); ("woff", "application/font-woff"); ("woff2", "application/font-woff2");
  ("wv", "audio/x-wavpack"); ("xht", "application/xhtml+xml; charset=utf-8");
  ("xhtml", "application/xhtml+xml; charset=utf-8"); ("xml", "application/xml; charset=utf-8");
  ("xsl", "text/xsl; charset=utf-8"); ("xz", "application/x-xz"); ("zip", "application/zip");
  ("7z", "application/x-7z-compressed")]%string.

Definition drogon_mime_for (path : bytes) : bytes :=
  bs (match after_last 46 path with
      | None => "application/octet-stream"%string
      | Some extension =>
          match List.find (fun t => strcaseeq (bs (fst t)) extension) mime_table with
          | Some t => snd t
          | None => "application/octet-stream"%string
          end
      end).

Definition drogon_static_file_type (lowered_extension : bytes) : bool :=
  existsb (fun t => bytes_eqb (bs t) lowered_extension)
    ["html"; "js"; "css"; "xml"; "xsl"; "txt"; "svg"; "ttf"; "otf"; "woff2"; "woff"; "eot"; "png"; "jpg"; "jpeg"; "gif"; "bmp";
     "ico"; "icns"]%string.

(** Not empty, relative, without NUL and without a component [..]. *)
Definition safe_static_relative_path (value : bytes) (has_nul : bool) : bool :=
  match value with
  | [] => false
  | c :: _ => negb (code c =? 47) && negb has_nul && forallb (fun p => negb (bytes_eqb p (bs ".."))) (sb_split value (chr 47))
  end.

(** ** The bytes of a response *)

Definition header_line (name value : bytes) : bytes := name ++ bs ": " ++ value ++ crlf.

(** [data] is what can be read of the file of the response, from the offset on.
    The date is that of the moment of writing. *)
Definition write_response (w : wire_response) (http10 keep_alive head : bool) (date : bytes) (data : bytes) : bytes :=
  if ws_close w then bs "HTTP/1.1 " ++ fmt_int (ws_status w) ++ bs " " ++ status_reason (ws_status w) ++ crlf ++ bs "Connection: close" ++ crlf ++ crlf
  else
    let body_allowed := content_length_allowed (ws_status w) in
    let length := match ws_file w with Some (_, _, n) => n | None => Z.of_nat (length (ws_body w)) end in
    bs "HTTP/1." ++ bs (if http10 then "0" else "1") ++ bs " " ++ fmt_int (ws_status w) ++ bs " " ++ status_reason (ws_status w) ++ crlf ++
    (if body_allowed then header_line (bs "content-length") (fmt_uint length) else []) ++
    (match wire_header w "connection" with
     | Some _ => []
     | None => if negb keep_alive then header_line (bs "connection") (bs "close")
               else if http10 then header_line (bs "connection") (bs "Keep-Alive") else []
     end) ++
    (match ws_type w with Some ((_ :: _) as t) => header_line (bs "content-type") t | _ => [] end) ++
    (ws_headers w ≫= fun h => header_line (fst h) (snd h)) ++
    header_line (bs "date") date ++ crlf ++
    (if body_allowed && negb head then
       match ws_file w with Some (_, _, n) => take (Z.to_nat n) data | None => ws_body w end
     else []).
