(* ===== verification/HttpPanel.v ===== *)
(** * The state of the panel

    The components of the panel work on one database and one process: here their
    states are put together.  Every component reads its own view of the tables; the
    accounts and the devices that the account service knows are those of the
    repository.  Deleting an account or a device deletes what refers to it (the
    [ON DELETE CASCADE] of the migrations; foreign keys are enforced).  A call of a
    component is lifted to the panel with [on_store], [on_security], [on_prefs],
    [on_proxy], [on_obs], [on_hub] or [on_sys].  Each holds the database lock from its first
    to its last statement; between the calls of one request the model lets nothing
    else happen. *)

From S2P Require Import Prelude Util Json JsonText DateTime Script Sqlite Auth AuthSecurity ProxyClock ProxyTables ProxyUsers PrefSync System StoreTables WgHub Observability HttpTelemetry.

(** [pd_security] without its view of accounts and devices, [pd_prefs] the rows of
    the preferences, [pd_proxy] without its view of the devices, [pd_obs] without its
    view of the repository. *)
Record panel_db := mk_panel {
  pd_store : store_tables; pd_security : auth_tables; pd_prefs : list pref_row; pd_proxy : ProxyTables.tables; pd_obs : obs_tables }.

(** The memory of the process: files and kernel, telemetry by device, the log, the
    clock of the leases. *)
Record server_mem (K : Type) := mk_mem {
  sm_system : system K; sm_telemetry : sbj; sm_log : log_ring; sm_clock : option sb_proxy_clock }.
Arguments mk_mem {K} sm_system sm_telemetry sm_log sm_clock.
Arguments sm_system {K} s.
Arguments sm_telemetry {K} s.
Arguments sm_log {K} s.
Arguments sm_clock {K} s.

Abbreviation http K := (sql panel_db (server_mem K)).

(** What comes from outside.  [pe_time] is [time(NULL)], [pe_random] [RAND_bytes],
    [pe_mtime] the modification time of a file, [pe_verify] [argon2id_verify],
    [pe_version] the version of the build ([SB_EASY_VERSION]), [pe_etag] the digest
    of OpenSSL in [sb_config_etag]. *)
Record panel_env (K : Type) := mk_panel_env {
  pe_auth : auth_env; pe_hub : hub_env K; pe_pref : pref_env; pe_proxy : ProxyUsers.environment; pe_obs : obs_env;
  pe_time : nat -> Z; pe_random : nat -> nat -> option bytes; pe_mtime : nat -> bytes -> Z;
  pe_verify : bytes -> bytes -> bool; pe_js : quickjs; pe_version : bytes; pe_etag : bytes -> option bytes }.
Arguments pe_auth {K} p.
Arguments pe_hub {K} p.
Arguments pe_pref {K} p.
Arguments pe_proxy {K} p.
Arguments pe_time {K} p.
Arguments pe_random {K} p.
Arguments pe_mtime {K} p.
Arguments pe_verify {K} p.
Arguments pe_js {K} p.
Arguments pe_version {K} p.
Arguments pe_obs {K} p.
Arguments pe_etag {K} p.

(** ** Views *)

Definition account_of (u : sb_user_account) : account_row := mk_account (us_id u) (us_username u) (us_role u).
Definition user_ids (t : store_tables) : list bytes := us_id <$> StoreTables.users t.
Definition host_ids (t : store_tables) : list bytes := hr_id <$> StoreTables.hosts t.

Definition security_view (p : panel_db) : auth_tables :=
  let t := pd_security p in
  mk_auth (account_of <$> StoreTables.users (pd_store p)) (host_ids (pd_store p)) (AuthSecurity.sessions t) (mfa t) (recovery t)
    (challenges t) (groups t) (group_hosts t) (scopes t) (grants t).

(** The account service keeps the accounts in place and changes nothing of them but
    the role. *)
Definition with_role (u : sb_user_account) (a : account_row) : sb_user_account :=
  StoreTables.mk_user (us_id u) (us_username u) (us_password u) (a_role a) (us_created u).

Definition set_security (p : panel_db) (t : auth_tables) : panel_db :=
  mk_panel (StoreTables.with_users (pd_store p) (zip_with with_role (StoreTables.users (pd_store p)) (AuthSecurity.accounts t))) t
    (pd_prefs p) (pd_proxy p) (pd_obs p).

Definition prefs_view (p : panel_db) : pref_tables := mk_prefs (user_ids (pd_store p)) (pd_prefs p).
Definition set_prefs (p : panel_db) (t : pref_tables) : panel_db := mk_panel (pd_store p) (pd_security p) (prefs t) (pd_proxy p) (pd_obs p).

Definition proxy_view (p : panel_db) : ProxyTables.tables :=
  let t := pd_proxy p in
  mk_tables ((fun h => (hr_id h, hr_enabled h)) <$> StoreTables.hosts (pd_store p)) (ProxyTables.users t) (user_nodes t) (devices t) (leases t)
    (ingress t) (reports t) (ProxyTables.sessions t).
Definition set_proxy (p : panel_db) (t : ProxyTables.tables) : panel_db := mk_panel (pd_store p) (pd_security p) (pd_prefs p) t (pd_obs p).

Definition obs_view (p : panel_db) : obs_tables :=
  let t := pd_obs p in mk_obs (pd_store p) (ob_settings t) (ob_hosts t) (ob_samples t) (ob_alerts t) (ob_last t).
Definition set_obs (p : panel_db) (t : obs_tables) : panel_db := mk_panel (pd_store p) (pd_security p) (pd_prefs p) (pd_proxy p) t.

(** ** Foreign keys *)

Definition is_in (l : list bytes) (x : bytes) : bool := existsb (bytes_eqb x) l.

(** The rows that refer to accounts and devices that exist. *)
Definition cascade_security (user_ok host_ok : bytes -> bool) (t : auth_tables) : auth_tables :=
  mk_auth (AuthSecurity.accounts t) (known_hosts t) (List.filter (fun r => user_ok (s_user r)) (AuthSecurity.sessions t))
    (List.filter (fun r => user_ok (m_user r)) (mfa t)) (List.filter (fun r => user_ok (c_user r)) (recovery t))
    (List.filter (fun r => user_ok (h_user r)) (challenges t)) (groups t) (List.filter (fun r => host_ok (snd r)) (group_hosts t))
    (List.filter (fun r => user_ok (fst r)) (scopes t)) (List.filter (fun r => user_ok (p_user r)) (grants t)).

(** Reports, entry points and the bindings of users to them refer to devices; leases
    and their sessions do not, they stay. *)
Definition cascade_proxy (host_ok : bytes -> bool) (t : ProxyTables.tables) : ProxyTables.tables :=
  mk_tables (ProxyTables.hosts t) (ProxyTables.users t) (List.filter (fun r => host_ok (snd r)) (user_nodes t)) (devices t) (leases t)
    (List.filter (fun r => host_ok (n_host r)) (ingress t)) (List.filter (fun r => host_ok (r_host r)) (reports t)) (ProxyTables.sessions t).

(** What is known of a device goes with it; an acknowledgement stays without the
    account that made it. *)
Definition cascade_obs (user_ok host_ok : bytes -> bool) (t : obs_tables) : obs_tables :=
  let kept a := match al_host a with Some h => host_ok h | None => true end in
  let still a := match al_by a with Some u => if user_ok u then Some u else None | None => None end in
  mk_obs (ob_store t) (ob_settings t) (List.filter (fun o => host_ok (oh_host o)) (ob_hosts t))
    (List.filter (fun r => host_ok (sa_host r)) (ob_samples t))
    ((fun a => mk_alert (al_id a) (al_kind a) (al_resource a) (al_host a) (al_opened a) (al_updated a) (al_resolved a) (al_acknowledged a) (still a)) <$>
       List.filter kept (ob_alerts t)) (ob_last t).

Definition set_store (p : panel_db) (t : store_tables) : panel_db :=
  let user_ok := is_in (user_ids t) in
  let host_ok := is_in (host_ids t) in
  mk_panel t (cascade_security user_ok host_ok (pd_security p)) (List.filter (fun r => user_ok (f_user r)) (pd_prefs p))
    (cascade_proxy host_ok (pd_proxy p)) (cascade_obs user_ok host_ok (pd_obs p)).

(** ** Calls of the components *)

Section Lift.
Context {K : Type}.

(** A call on a part of the tables and a part of the memory. *)
Definition lift {T P A} (view : panel_db -> T) (set : panel_db -> T -> panel_db) (get_mem : server_mem K -> P)
    (set_mem : server_mem K -> P -> server_mem K) (m : sql T P A) : http K A :=
  fun s =>
    let (r, s') := m (mk_conn (view (db s)) (get_mem (mem s)) (asked s)) in
    (r, mk_conn (set (db s) (db s')) (set_mem (mem s) (mem s')) (asked s')).

Definition keep_mem (m : server_mem K) (_ : unit) : server_mem K := m.
Definition set_system (m : server_mem K) (x : system K) : server_mem K := mk_mem x (sm_telemetry m) (sm_log m) (sm_clock m).
Definition set_telemetry (m : server_mem K) (x : sbj) : server_mem K := mk_mem (sm_system m) x (sm_log m) (sm_clock m).
Definition set_log (m : server_mem K) (x : log_ring) : server_mem K := mk_mem (sm_system m) (sm_telemetry m) x (sm_clock m).
Definition set_clock (m : server_mem K) (x : option sb_proxy_clock) : server_mem K := mk_mem (sm_system m) (sm_telemetry m) (sm_log m) x.

Definition on_store {A} (m : store A) : http K A := lift pd_store set_store (fun _ => tt) keep_mem m.
Definition on_security {A} (m : auth A) : http K A := lift security_view set_security (fun _ => tt) keep_mem m.
Definition on_prefs {A} (m : pref A) : http K A := lift prefs_view set_prefs (fun _ => tt) keep_mem m.
Definition on_proxy {A} (m : proc A) : http K A := lift proxy_view set_proxy sm_clock set_clock m.
Definition on_obs {A} (m : obs A) : http K A := lift obs_view set_obs (fun _ => tt) keep_mem m.
Definition on_hub {A} (m : sql store_tables (system K) A) : http K A := lift pd_store set_store sm_system set_system m.
Definition on_sys {A} (m : sql panel_db (system K) A) : http K A := lift id (fun _ => id) sm_system set_system m.

(** [sb_log] of [c/src/util.c], for the level that is never left out: the line goes to
    the standard error, and to the ring of the server. *)
Definition log_line (clock : Z * Z) (level : string) (msg : bytes) : bytes :=
  fmt_utc (fst clock) (bs "T") [] ++ bs "." ++ fmt_padded 3 (snd clock / 1000000) ++ bs "Z " ++
  replicate (5 - length (bs level)) (chr 32) ++ bs level ++ bs " " ++ cstr msg.

Definition sb_error (env : panel_env K) (msg : bytes) : http K unit :=
  on_memory (fun m n => (tt, set_log m (log_ring_append (log_line (hub_clock (pe_hub env) n) "ERROR" msg) (sm_log m)))).
End Lift.
