(* ===== verification/HttpSecurity.v ===== *)
(** * Accounts over HTTP ([c/src/http_routes_security.c])

    Who may make which request, and the handlers of sessions, codes, passwords,
    device groups, scopes and roles.  The handlers of the OpenID Connect login are
    not modelled. *)

From S2P Require Import Prelude Util Json JsonText Auth Sqlite AuthSecurity AuthPolicy StoreTables StoreAccounts WgHub HttpText HttpWire HttpPanel.

Section Security.
Context {K : Type} (env : panel_env K) (srv : sb_http_server).

Abbreviation http := (http K).
Let store_env : store_env := hub_store (pe_hub env).
Let auth_env : auth_env := pe_auth env.

Definition fail {A} (c : sb_code) (message : string) : http A := pure (sb_fail c (bs message)).

(** ** Who may make a request *)

Definition is_read (m : method) : bool := safe_method m.

(** The endpoints of the own account. *)
Definition own_path (path : bytes) : bool :=
  bytes_eqb path (bs "/api/auth/session") || bytes_eqb path (bs "/api/auth/logout") || bytes_eqb path (bs "/api/auth/password") ||
  bytes_eqb path (bs "/api/auth/sessions") || sb_starts_with path (bs "/api/auth/sessions/") ||
  sb_starts_with path (bs "/api/auth/preferences/") || bytes_eqb path (bs "/api/auth/mfa") || sb_starts_with path (bs "/api/auth/mfa/").

Definition read_tails : list string := [""; "/telemetry"; "/diagnostics"; "/commands"; "/outbounds"; "/history"; "/alerts"]%string.

(** The device of a path below [/api/hosts/], if the request is one of the listed
    operations. *)
Definition host_operation (m : method) (raw : bytes) : option bytes :=
  let (host, tail) := match split_at (chr 47) raw with Some (a, b) => (a, ascii_lower_dup (chr 47 :: b)) | None => (raw, []) end in
  if if is_read m then existsb (fun t => bytes_eqb tail (bs t)) read_tails
     else bool_decide (m = M_POST) && bytes_eqb tail (bs "/commands")
  then Some host else None.

Definition clash_operation (m : method) (path : bytes) : bool :=
  is_read m || (bool_decide (m = M_PUT) && sb_starts_with path (bs "/api/sing-box/proxies/")) ||
  (bool_decide (m = M_DELETE) && sb_starts_with path (bs "/api/sing-box/connections")).

(** The device that the request is about, if the operation is open to users that
    are not administrators. *)
Definition requested_device (rq : sb_http_req) : option bytes :=
  let path := sb_lower_dup (rq_path rq) in
  if sb_starts_with path (bs "/api/hosts/") then host_operation (rq_method rq) (drop (length (bs "/api/hosts/")) (rq_path rq))
  else if sb_starts_with path (bs "/api/sing-box/") then
    if clash_operation (rq_method rq) path then Some (sb_http_trim (Some (default [] (sb_req_query_param rq "host")))) else None
  else None.

Definition sb_http_security_authorize (rq : sb_http_req) : http unit :=
  match rq_claims rq with
  | None => pure no_token
  | Some c =>
      if is_admin_role c then mret tt
      else
        let path := sb_lower_dup (rq_path rq) in
        let read := is_read (rq_method rq) in
        if own_path path then mret tt
        else if bytes_eqb (cstr (role c)) (bs "viewer") && negb read then fail SB_ERR_FORBIDDEN "Viewer role is read-only"
        else if read && bytes_eqb path (bs "/api/hosts") then mret tt
        else
          let device_path := sb_starts_with path (bs "/api/hosts/") || sb_starts_with path (bs "/api/sing-box/") in
          allowed ← match requested_device rq with
                    | Some ((_ :: _) as host) =>
                        r ← attempt (on_security (sb_auth_device_allowed auth_env (Some (cstr (subject c))) (Some host) (negb read)));
                        mret (is_ok r)
                    | _ => mret false
                    end;
          if allowed : bool then mret tt
          else fail SB_ERR_FORBIDDEN (if device_path then "Authorized device scope required" else "Admin role required")
  end.

(** ** Helpers *)

Definition request_token (rq : sb_http_req) : option bytes :=
  match sb_req_header rq "Authorization" with
  | Some value => if bytes_eqb (take 7 value) (bs "Bearer ") then Some (sb_http_trim (Some (drop 7 value))) else None
  | None => None
  end.

(** A text without NUL. *)
Definition text_field (body : option sbj) (key : string) : result bytes :=
  s ← sb_json_required_string body key;
  if no_nul s then Ok s else invalid key " contains an invalid character".

Definition no_cache (r : sb_http_resp) : sb_http_resp := sb_resp_header "Cache-Control" (bs "no-store") r.
Definition success (r : sb_http_resp) : sb_http_resp := sb_resp_json 200 (sbj_set_bool (SBJ_OBJECT []) "success" true) (no_cache r).
Definition answer (body : sbj) : sb_http_resp := sb_resp_json 200 body (no_cache resp_init).

Fixpoint skip_cookie_blanks (s : bytes) : bytes :=
  match s with c :: s' => if (code c =? 32) || (code c =? 59) then skip_cookie_blanks s' else s | [] => [] end.

(** The values of the cookie [sb_auth_flow] that are not empty; one pass per
    cookie, [fuel] is more than the characters. *)
Fixpoint cookie_values (fuel : nat) (s : bytes) : list bytes :=
  match fuel with
  | O => []
  | S fuel' =>
      match skip_cookie_blanks s with
      | [] => []
      | p =>
          let (cookie, rest) := match split_at (chr 59) p with Some (a, b) => (a, chr 59 :: b) | None => (p, []) end in
          (if (13 <? length cookie)%nat && bytes_eqb (take 13 cookie) (bs "sb_auth_flow=") then [drop 13 cookie] else []) ++
          cookie_values fuel' rest
      end
  end.

(** One value; none when the cookie is there twice. *)
Definition cookie_binding (rq : sb_http_req) : option bytes :=
  match sb_req_header rq "Cookie" with
  | None => None
  | Some cookies => match cookie_values (S (length cookies)) cookies with [value] => Some value | _ => None end
  end.

Definition binding_cookie (binding : option bytes) (r : sb_http_resp) : sb_http_resp :=
  let secure := sb_starts_with (so_public_server (hs_opts srv)) (bs "https://") in
  no_cache (sb_resp_header "Set-Cookie"
    (bs "sb_auth_flow=" ++ default [] binding ++ bs "; Path=/api/auth/; HttpOnly; SameSite=Lax; Max-Age=" ++
     bs (match binding with Some _ => "300" | None => "0" end) ++ bs (if secure then "; Secure" else "")) r).

Definition new_binding : http bytes :=
  b ← ask (fun n => pe_random env n 32);
  match b with
  | None => fail SB_ERR_GENERIC "Random generation failed"
  | Some b => mret (sb_hex_encode b)
  end.

(** The first 128 bytes of the user agent, with a question mark for what is not
    printable; [char] is signed. *)
Definition client_label (rq : sb_http_req) : bytes :=
  (fun c => if in_range 32 126 (code c) then c else chr 63) <$> take 128 (default [] (sb_req_header rq "User-Agent")).

(** ** Logins *)

Definition token_response (token : bytes) : http sb_http_resp :=
  claims ← on_security (sb_auth_security_verify auth_env (Some token));
  let out := sbj_set (SBJ_OBJECT []) "token" (SBJ_STRING token) in
  let out := sbj_set out "username" (SBJ_STRING (username claims)) in
  let out := sbj_set_str out "role" (role claims) in
  mret (sb_resp_json 200 out (binding_cookie None resp_init)).

Definition sb_http_security_login (rq : sb_http_req) (user_id method : bytes) : http sb_http_resp :=
  status ← on_security (sb_auth_mfa_status auth_env user_id);
  if negb (sbj_get_bool (Some status) "enabled" false) then
    token ← on_security (sb_auth_security_issue auth_env user_id method (Some (client_label rq)));
    token_response token
  else
    binding ← new_binding;
    challenge ← on_security (sb_auth_security_challenge_bound auth_env user_id (Some method) (Some binding));
    let out := sbj_set_bool (SBJ_OBJECT []) "mfa_required" true in
    let out := sbj_set out "challenge" (SBJ_STRING challenge) in
    mret (sb_resp_json 200 out (binding_cookie (Some binding) resp_init)).

(** The claims that the caller has checked to be there. *)
Definition subject_of (rq : sb_http_req) : bytes := match rq_claims rq with Some c => cstr (subject c) | None => [] end.
Definition username_of (rq : sb_http_req) : bytes := match rq_claims rq with Some c => username c | None => [] end.

Definition to_forbidden (e : sb_err) : sb_err :=
  match err_code e with SB_ERR_AUTH => mk_err SB_ERR_FORBIDDEN (err_msg e) | _ => e end.

Definition fresh_proof (rq : sb_http_req) (body : option sbj) : http unit :=
  password ← pure (sb_json_required_string body "password");
  found ← attempt (on_store (sb_store_find_user_by_username_n store_env (Some (username_of rq))));
  let valid :=
    match found with
    | Ok (Some user) => bytes_eqb (cstr (us_id user)) (subject_of rq) && sb_verify_password_n (pe_verify env) (Some password) (Some (us_password user))
    | _ => false
    end in
  if negb valid then fail SB_ERR_FORBIDDEN "Current password is incorrect"
  else
    status ← on_security (sb_auth_mfa_status auth_env (subject_of rq));
    if sbj_get_bool (Some status) "enabled" false then
      code ← pure (text_field body "code");
      r ← attempt (on_security (sb_auth_mfa_verify auth_env (subject_of rq) (Some code)));
      pure (match r with Ok _ => Ok tt | Err e => Err (to_forbidden e) end)
    else mret tt.

Definition login_mfa (rq : sb_http_req) : http sb_http_resp :=
  body ← pure (sb_req_json_object rq);
  challenge ← pure (text_field (Some body) "challenge");
  code ← pure (text_field (Some body) "code");
  match cookie_binding rq with
  | None => fail SB_ERR_AUTH "Login browser binding is missing"
  | Some binding =>
      token ← on_security (sb_auth_security_complete_bound auth_env (Some challenge) (Some code) (Some (client_label rq)) (Some binding));
      token_response token
  end.

Definition logout_session (rq : sb_http_req) : http sb_http_resp :=
  _ ← on_security (sb_auth_security_logout auth_env (request_token rq));
  mret (success resp_init).

Definition sessions (rq : sb_http_req) : http sb_http_resp :=
  out ← on_security (sb_auth_security_sessions auth_env (subject_of rq) (request_token rq));
  mret (answer out).

Definition revoke_session (rq : sb_http_req) : http sb_http_resp :=
  _ ← on_security (sb_auth_security_revoke auth_env (subject_of rq) (head (rq_params rq)) None);
  mret (success resp_init).

(** ** Verification codes *)

Definition mfa_status (rq : sb_http_req) : http sb_http_resp :=
  out ← on_security (sb_auth_mfa_status auth_env (subject_of rq));
  mret (answer out).

(** [params[0]]: the route has a parameter. *)
Definition param (rq : sb_http_req) : bytes := default [] (head (rq_params rq)).

Definition mfa_change (rq : sb_http_req) : http sb_http_resp :=
  body ← pure (sb_req_json_object rq);
  let token := request_token rq in
  if bytes_eqb (param rq) (bs "confirm") then
    code ← pure (text_field (Some body) "code");
    out ← on_security (sb_auth_mfa_confirm auth_env (subject_of rq) (Some code) token);
    mret (answer out)
  else
    _ ← fresh_proof rq (Some body);
    if bytes_eqb (param rq) (bs "setup") then
      out ← on_security (sb_auth_mfa_begin auth_env (subject_of rq));
      mret (answer out)
    else if bytes_eqb (param rq) (bs "disable") then
      _ ← on_security (sb_auth_mfa_disable auth_env (subject_of rq) token);
      mret (success resp_init)
    else fail SB_ERR_NOT_FOUND "Unknown MFA action".

Definition own_password (rq : sb_http_req) : http sb_http_resp :=
  body ← pure (sb_req_json_object rq);
  _ ← fresh_proof rq (Some body);
  password ← pure (sb_json_required_string (Some body) "new_password");
  if (length password <? 8)%nat then fail SB_ERR_VALIDATION "New password must be at least 8 characters"
  else
    salt ← ask (salt store_env);
    hash ← pure (sb_hash_password_n (argon2id store_env) salt (Some password));
    _ ← on_store (sb_store_reset_user_password store_env (Some (subject_of rq)) (Some hash));
    _ ← on_security (sb_auth_security_revoke auth_env (subject_of rq) None None);
    mret (success resp_init).

(** ** Device groups, scopes, roles *)

Definition plain (body : sbj) : sb_http_resp := sb_resp_json 200 body resp_init.

Definition groups (rq : sb_http_req) : http sb_http_resp :=
  _ ← pure (sb_require_admin rq);
  _ ← match rq_method rq with
      | M_PUT => body ← pure (sb_req_json_object rq); on_security (sb_auth_device_group_save auth_env (Some body))
      | M_DELETE => on_security (sb_auth_device_group_remove auth_env (Some (param rq)))
      | _ => mret tt
      end;
  out ← on_security (sb_auth_device_groups auth_env);
  mret (plain out).

Definition scope (rq : sb_http_req) : http sb_http_resp :=
  _ ← pure (sb_require_admin rq);
  _ ← match rq_method rq with
      | M_PUT => body ← pure (sb_req_json_object rq); on_security (sb_auth_user_scope_set auth_env (param rq) (Some body))
      | _ => mret tt
      end;
  out ← on_security (sb_auth_user_scope auth_env (param rq));
  mret (plain out).

Definition change_role (rq : sb_http_req) : http sb_http_resp :=
  _ ← pure (sb_require_admin rq);
  body ← pure (sb_req_json_object rq);
  role ← pure (text_field (Some body) "role");
  _ ← on_security (sb_auth_security_change_role auth_env (param rq) (Some role));
  mret (success resp_init).

Definition admin_sessions (rq : sb_http_req) : http sb_http_resp :=
  _ ← pure (sb_require_admin rq);
  match rq_method rq with
  | M_DELETE =>
      _ ← on_security (sb_auth_security_revoke auth_env (param rq) None None);
      mret (success resp_init)
  | _ =>
      out ← on_security (sb_auth_security_sessions auth_env (param rq) None);
      mret (answer out)
  end.
End Security.
