(* ===== verification/HttpServer.v ===== *)
(** * The HTTP server ([c/src/http_server.c])

    From a request to the bytes of its answer: static files, authentication and
    authorization before the handler, the handler, the audit record after it,
    routing.  The handlers of the routes are given by [run]. *)

From S2P Require Import Prelude Util Json JsonText Auth Sqlite AuthSecurity System StoreTables StoreAccounts WgHub HttpText HttpRoutes HttpWire HttpPanel HttpSecurity.

(** What civetweb gives for a request.  [mi_chunks] is what its reads return, an
    empty one at the end. *)
Record mg_request := mk_mg_request {
  mi_method : bytes; mi_uri : option bytes; mi_version : option bytes; mi_query : option bytes; mi_headers : list (bytes * bytes);
  mi_content_length : Z; mi_remote : bytes; mi_chunks : list bytes }.

Definition mg_get_header (ri : mg_request) (name : string) : option bytes :=
  snd <$> List.find (fun h => strcaseeq (fst h) (bs name)) (mi_headers ri).

Record http_exchange := mk_exchange {
  ex_req : sb_http_req; ex_head : bool; ex_http10 : bool; ex_keep_alive : bool; ex_path_has_nul : bool }.

Definition with_req (ex : http_exchange) (rq : sb_http_req) : http_exchange :=
  mk_exchange rq (ex_head ex) (ex_http10 ex) (ex_keep_alive ex) (ex_path_has_nul ex).

Section Server.
Context {K H : Type} (env : panel_env K) (srv : sb_http_server).
Context (items : list (route_item H)) (run : H -> sb_http_req -> http K sb_http_resp).

Abbreviation http := (http K).
Let sys_env : sys_env K := hub_sys (pe_hub env).

(** ** Static files *)

Definition stat (path : bytes) : http (entry + errno) := on_sys (sys_stat sys_env path).

(** [fopen] and [fstat]: the contents.  The callers have seen that it is a regular
    file. *)
Definition open_read (path : bytes) : http (option bytes) :=
  on_sys (sys_call sys_env (fun _ => None) (fun _ s =>
    (match sy_files s !! path with Some (Regular f) => Some (f_data f) | _ => None end, s))).

(** A length of 0 is the rest of the file. *)
Definition wire_file (path : bytes) (offset length : Z) (w : wire_response) : http (bool * wire_response) :=
  f ← open_read path;
  match f with
  | None => mret (false, wire_not_found_page w)
  | Some data =>
      let size := Z.of_nat (List.length data) in
      mret (true, mk_wire 200 (Some (drogon_mime_for path)) (ws_headers w) (ws_body w)
                    (Some (path, offset, if length =? 0 then to_u64 (size - offset) else length)) (ws_close w))
  end.

Definition is_regular (path : bytes) : http (option file) :=
  e ← stat path;
  mret (match e with inl (Regular f) => Some f | _ => None end).

Definition static_file_response (path : bytes) (immutable : bool) (w : wire_response) : http wire_response :=
  f ← is_regular path;
  match f with
  | None => mret (wire_error 404 (bs "Static resource not found") w)
  | Some _ =>
      r ← wire_file path 0 0 w;
      mret (wire_set_header "Cache-Control" (bs (if immutable then "public, max-age=31536000, immutable" else "no-cache")) (snd r))
  end.

(** [file_stat]: the size and the date of a regular file. *)
Definition file_stat (path : bytes) : http (option (Z * bytes)) :=
  f ← is_regular path;
  match f with
  | None => mret None
  | Some f => t ← ask (fun n => pe_mtime env n path); mret (Some (Z.of_nat (length (f_data f)), http_date t))
  end.

Definition no_expiry : bytes := bs "Thu, 01 Jan 1970 00:00:00 GMT".

(** A part of a file, or [None] when the header is not a range. *)
Definition send_range (rq : sb_http_req) (path : bytes) (size : Z) (modified : bytes) (w : wire_response) : http (option wire_response) :=
  match parse_range_header size (exchange_header rq "range") with
  | RANGE_SINGLE (start, stop) | RANGE_MULTI (start, stop) =>
      '(found, w) ← wire_file path start (stop - start) w;
      if found : bool then
        let w := if stop - start <? size then set_status 206 w else w in
        let w := wire_set_header "Content-Range" (bs "bytes " ++ fmt_uint start ++ bs "-" ++ fmt_uint (stop - 1) ++ bs "/" ++ fmt_uint size) w in
        let w := wire_set_header "Last-Modified" modified w in
        mret (Some (wire_set_header "Expires" no_expiry w))
      else mret (Some w)
  | RANGE_NOT_SATISFIABLE =>
      mret (Some (wire_set_header "Content-Range" (bs "bytes */" ++ fmt_uint size) (wire_empty_html 416 w)))
  | RANGE_INVALID => mret None
  end.

(** The compressed copies that the client accepts, the first that is there. *)
Fixpoint send_encoded (accept : bytes) (encodings : list (string * string)) (path : bytes) (w : wire_response) : http (option wire_response) :=
  match encodings with
  | [] => mret None
  | (name, suffix) :: encodings' =>
      if negb (strstr accept (bs name)) then send_encoded accept encodings' path w
      else
        let compressed := path ++ bs suffix in
        f ← is_regular compressed;
        match f with
        | None => send_encoded accept encodings' path w
        | Some _ =>
            '(found, w) ← wire_file compressed 0 0 w;
            mret (Some (if found : bool then wire_set_header "Content-Encoding" (bs name) (set_type (drogon_mime_for path) w) else w))
        end
  end.

Definition send_whole (rq : sb_http_req) (path modified : bytes) (w : wire_response) : http wire_response :=
  if bytes_eqb (exchange_header rq "if-modified-since") modified then mret (set_status 304 w)
  else
    served ← send_encoded (exchange_header rq "accept-encoding") [("br", ".br"); ("gzip", ".gz")]%string path w;
    w ← match served with Some w => mret w | None => r ← wire_file path 0 0 w; mret (snd r) end;
    if ws_status w =? 404 then mret w
    else
      let w := wire_set_header "Last-Modified" modified w in
      let w := wire_set_header "Expires" no_expiry w in
      mret (wire_set_header "accept-range" (bs "bytes") w).

Definition send_static_file (rq : sb_http_req) (path : bytes) (w : wire_response) : http wire_response :=
  if negb (bool_decide (rq_method rq = M_GET)) then mret (wire_empty_html 405 w)
  else
    st ← file_stat path;
    match st with
    | None => mret (wire_not_found_page w)
    | Some (size, modified) =>
        match exchange_header rq "range" with
        | [] => send_whole rq path modified w
        | _ =>
            if bytes_eqb (exchange_header rq "if-modified-since") modified then mret (set_status 304 w)
            else
              let if_range := exchange_header rq "if-range" in
              part ← if bytes_eqb if_range [] || bytes_eqb if_range modified then send_range rq path size modified w else mret None;
              match part with Some w => mret w | None => send_whole rq path modified w end
        end
    end.

(** The components of a path lead above its root at some point. *)
Fixpoint leaves_root (depth : Z) (parts : list bytes) : bool :=
  match parts with
  | [] => false
  | [] :: parts' => leaves_root depth parts'
  | p :: parts' =>
      let depth := if bytes_eqb p (bs "..") then depth - 1 else if bytes_eqb p (bs ".") then depth else depth + 1 in
      (depth <? 0) || leaves_root depth parts'
  end.

Definition static_router (ex : http_exchange) (w : wire_response) : http wire_response :=
  let rq := ex_req ex in
  let path := if bytes_eqb (rq_path rq) (bs "/") then bs "/index.html" else rq_path rq in
  if ex_path_has_nul ex then mret (wire_not_found_page w)
  else if strstr path (bs "..") && leaves_root 0 (sb_split path (chr 47)) then mret (wire_empty_html 403 w)
  else
    let directory_path := bs "./" ++ path in
    e ← stat directory_path;
    match e with
    | inr _ => mret (wire_not_found_page w)
    | inl (Directory _) => send_static_file rq (directory_path ++ bs "/index.html") w
    | inl (Regular _) =>
        match after_last 46 path with
        | None => mret (wire_empty_html 403 w)
        | Some extension =>
            if drogon_static_file_type (ascii_lower_dup extension) then send_static_file rq directory_path w
            else mret (wire_not_found_page w)
        end
    end.

(** ** Before the handler *)

Definition ws_prefix : bytes := bs "/api/sing-box/ws/".
Definition clash_websocket_path (path : bytes) : bool :=
  bytes_eqb (take (length ws_prefix) path) ws_prefix &&
  existsb (fun k => bytes_eqb (drop (length ws_prefix) path) (bs k)) ["traffic"; "logs"; "connections"; "memory"]%string.

Definition public_api_path (path : bytes) : bool :=
  bytes_eqb path (bs "/api/health") || bytes_eqb path (bs "/api/metrics") || sb_starts_with path (bs "/api/proxy-self/") ||
  bytes_eqb path (bs "/api/devices/enroll") || bytes_eqb path (bs "/api/auth/login") || bytes_eqb path (bs "/api/auth/login/mfa") ||
  bytes_eqb path (bs "/api/auth/oidc") || bytes_eqb path (bs "/api/auth/oidc/start") || bytes_eqb path (bs "/api/auth/oidc/finish") ||
  sb_starts_with path (bs "/api/agent/").

Definition protected_path (path : bytes) : bool :=
  let lowered := ascii_lower_dup path in
  sb_starts_with lowered (bs "/api/") && negb (public_api_path lowered).

Definition bearer_token (rq : sb_http_req) : option bytes :=
  match sb_req_header rq "authorization" with
  | Some a =>
      if bytes_eqb (take 7 a) (bs "Bearer ") then match sb_http_trim (Some (drop 7 a)) with [] => None | t => Some t end else None
  | None => None
  end.

Definition verify_into (token : option bytes) : http (option sb_auth_claims) :=
  match token with
  | Some ((_ :: _) as t) =>
      r ← attempt (on_security (sb_auth_security_verify (pe_auth env) (Some t)));
      mret (match r with Ok c => Some c | Err _ => None end)
  | _ => mret None
  end.

(** The request with its claims, or the answer that rejects it. *)
Definition check_token (token : option bytes) (rq : sb_http_req) (w : wire_response) : http (sb_http_req + wire_response) :=
  claims ← verify_into token;
  match claims with
  | None => mret (inr (wire_error 401 (bs "Invalid or expired token") w))
  | Some c =>
      let rq := with_claims rq c in
      r ← attempt (sb_http_security_authorize env rq);
      mret (match r with Ok _ => inl rq | Err e => inr (wire_error 403 (err_msg e) w) end)
  end.

Definition auth_advice (rq : sb_http_req) (w : wire_response) : http (sb_http_req + wire_response) :=
  if clash_websocket_path (rq_path rq) then check_token (Some (sb_http_trim (sb_req_query_param rq "token"))) rq w
  else if negb (protected_path (rq_path rq)) then mret (inl rq)
  else check_token (bearer_token rq) rq w.

(** ** After the handler *)

(** [status >= 200 && status < 300]. *)
Definition audited (rq : sb_http_req) (status : Z) : bool :=
  negb (safe_method (rq_method rq)) && (200 <=? status) && (status <? 300).

Definition audit_advice (rq : sb_http_req) (status : Z) : http unit :=
  match rq_claims rq with
  | Some c =>
      if audited rq status then
        r ← attempt (on_store (sb_store_record_audit_n (hub_store (pe_hub env)) (Some (username c)) (Some (method_name (rq_method rq))) (Some (rq_path rq))));
        match r with Ok _ => mret tt | Err e => sb_error env (bs "audit write failed: " ++ cstr (err_msg e)) end
      else mret tt
  | None => mret tt
  end.

Definition resp_headers (headers : list (bytes * bytes)) (w : wire_response) : wire_response :=
  foldl (fun w h =>
    let name := sb_http_trim (Some (fst h)) in
    let value := sb_http_trim_n (snd h) in
    if strcaseeq name (bs "content-type") then set_type (cstr value) w
    else if strcaseeq name (bs "content-length") then w
    else wire_set_header_n name value w) w headers.

Definition resp_to_wire (r : sb_http_resp) (w : wire_response) : http wire_response :=
  let status := if rs_status r =? 0 then 200 else rs_status r in
  w ← match rs_file r, rs_json r with
      | Some path, _ => static_file_response path (rs_immutable r) w
      | None, Some json => mret (wire_json status json w)
      | None, None =>
          mret (set_type (default (bs "text/plain; charset=utf-8") (rs_type r)) (set_body (default [] (rs_body r)) (set_status status w)))
      end;
  mret (resp_headers (rs_headers r) w).

(** The answer, and whether the handler has written it itself. *)
Definition run_handler (handler : sb_http_req -> http sb_http_resp) (rq : sb_http_req) (w : wire_response) : http (bool * wire_response) :=
  r ← attempt (handler rq);
  out ← match r with
        | Err e =>
            let (w, text) := map_error e w in
            _ ← match text with Some t => sb_error env t | None => mret tt end;
            mret (false, w)
        | Ok resp =>
            if rs_handled resp then mret (true, set_status (if rs_status resp =? 0 then 200 else rs_status resp) w)
            else w ← resp_to_wire resp w; mret (false, w)
        end;
  _ ← audit_advice rq (ws_status (snd out));
  mret out.

(** ** The routes registered last *)

Definition h_assets (has_nul : bool) (rq : sb_http_req) : http sb_http_resp :=
  let relative := drop (length (bs "/assets/")) (rq_path rq) in
  if negb (safe_static_relative_path relative has_nul) then mret (sb_resp_error 404 (Some (bs "Static resource not found")) resp_init)
  else mret (resp_file (sb_path_join (sb_path_join (so_static (hs_opts srv)) (bs "assets")) relative) true resp_init).

Definition h_public_asset (rq : sb_http_req) : http sb_http_resp :=
  mret (resp_file (sb_path_join (so_static (hs_opts srv)) (drop 1 (rq_path rq))) false resp_init).

Definition h_api_not_found (rq : sb_http_req) : http sb_http_resp :=
  mret (sb_resp_error 404 (Some (bs "API route not found")) resp_init).

Definition h_spa (rq : sb_http_req) : http sb_http_resp :=
  mret (resp_file (sb_path_join (so_static (hs_opts srv)) (bs "index.html")) false resp_init).

Definition no_line_breaks (s : bytes) : bool := forallb (fun c => negb ((code c =? 13) || (code c =? 10))) s.

Definition builtin_route (has_nul : bool) (rq : sb_http_req) : option (sb_http_req -> http sb_http_resp) :=
  let path := rq_path rq in
  let m := rq_method rq in
  let get := bool_decide (m = M_GET) in
  if negb (no_line_breaks path) then None
  else if get && starts_with_ci path (bs "/assets/") then Some (h_assets has_nul)
  else if get && (bytes_eqb path (bs "/sb-easy-mark.svg") || bytes_eqb path (bs "/favicon.svg")) then Some h_public_asset
  else if bool_decide (m ∈ [M_GET; M_POST; M_PUT; M_DELETE; M_PATCH]) && (strcaseeq path (bs "/api") || starts_with_ci path (bs "/api/"))
  then Some h_api_not_found
  else
    match path with
    | c :: rest =>
        if get && (code c =? 47) &&
           negb (strcaseeq rest (bs "api") || starts_with_ci rest (bs "api/") || strcaseeq rest (bs "assets") ||
                 starts_with_ci rest (bs "assets/") || starts_with_ci rest (bs "downloads/"))
        then Some h_spa else None
    | [] => None
    end.

(** ** Requests *)

Definition drogon_is_websocket (rq : sb_http_req) (original : method) : bool :=
  bool_decide (original = M_GET) &&
  match sb_req_header rq "upgrade", sb_req_header rq "connection" with
  | Some u, Some c => strstr (ascii_lower_dup c) (bs "upgrade") && bytes_eqb (ascii_lower_dup u) (bs "websocket")
  | _, _ => false
  end.

(** [strcasestr]. *)
Definition civetweb_websocket_upgrade (ri : mg_request) : bool :=
  existsb (fun h => strcaseeq (fst h) (bs "Connection") && strstr (ascii_lower_dup (snd h)) (bs "upgrade")) (mi_headers ri) &&
  match mg_get_header ri "Upgrade" with Some to => strstr (ascii_lower_dup to) (bs "websocket") | None => false end.

Definition dispatch_http (ex : http_exchange) (w : wire_response) : http (bool * wire_response) :=
  let rq := ex_req ex in
  '(handled, w) ←
    (if bool_decide (rq_method rq = M_OPTIONS) && bytes_eqb (rq_path rq) (bs "/*") then
       mret (false, wire_set_header "Allow" (bs "GET,HEAD,POST,PUT,DELETE,OPTIONS,PATCH")
                      (set_type (bs "text/plain; charset=utf-8") (set_status 200 w)))
     else if bool_decide (rq_method rq = M_OPTIONS) && negb (bytes_eqb (exchange_header rq "access-control-request-method") []) then
       mret (false, cors_apply srv rq (wire_empty_html 204 w))
     else
       a ← auth_advice rq w;
       match a with
       | inr w => mret (false, w)
       | inl rq =>
           match router_lookup items (rq_path rq) (rq_method rq) with
           | ROUTE_FOUND h params => run_handler (run h) (with_params rq params) w
           | ROUTE_METHOD_NOT_ALLOWED =>
               mret (false, wire_empty_html (if bool_decide (rq_method rq = M_OPTIONS) then 403 else 405) w)
           | ROUTE_NOT_FOUND =>
               match builtin_route (ex_path_has_nul ex) rq with
               | Some handler => run_handler handler (with_params rq []) w
               | None => w ← static_router (with_req ex rq) w; mret (false, w)
               end
           end
       end);
  mret (handled, if handled : bool then w else cors_apply srv rq w).

Definition header_has_token (value token : bytes) : bool :=
  existsb (fun p => strcaseeq (sb_http_trim (Some p)) token) (sb_split value (chr 44)).

Definition compute_keep_alive (ri : mg_request) (rq : sb_http_req) (http10 : bool) : bool :=
  let civet := match mg_get_header ri "Connection" with Some c => header_has_token c (bs "keep-alive") | None => negb http10 end in
  let value := sb_req_header rq "connection" in
  let value_is (s : string) := match value with Some v => bytes_eqb v (bs s) | None => false end in
  civet && (if http10 then value_is "Keep-Alive" || value_is "keep-alive" else negb (value_is "close")).

(** The decoded path, with NUL written as [%00], and whether it has one. *)
Definition exchange_set_path (raw : option bytes) : bytes * bool :=
  let raw := match raw with None | Some [] => bs "/" | Some r => r end in
  if negb (existsb (fun c => (code c =? 37) || (code c =? 43)) raw) then (raw, false)
  else
    let decoded := drogon_url_decode raw in
    if no_nul decoded then (decoded, false)
    else (decoded ≫= fun c => if code c =? 0 then bs "%00" else [c], true).

Definition SB_HTTP_MAX_BODY : Z := 1024 * 1024.
Definition SB_HTTP_MAX_HEADERS : nat := 64.

(** The body, or none when it is too long. *)
Fixpoint read_chunks (chunks : list bytes) (body : bytes) : option bytes :=
  match chunks with
  | [] | [] :: _ => Some body
  | chunk :: chunks' =>
      let body := body ++ chunk in
      if SB_HTTP_MAX_BODY <? Z.of_nat (length body) then None else read_chunks chunks' body
  end.

(** An error status, or the body; and whether an interim answer was sent. *)
Definition exchange_read_body (ri : mg_request) (rq : sb_http_req) (http10 : bool) : (Z + bytes) * bool :=
  let chunked := match mg_get_header ri "Transfer-Encoding" with Some te => strcaseeq te (bs "chunked") | None => false end in
  if SB_HTTP_MAX_BODY <? mi_content_length ri then (inl 413, false)
  else
    let expect := exchange_header rq "expect" in
    let continue := bytes_eqb expect (bs "100-continue") in
    if continue && negb http10 && (mi_content_length ri <=? 0) then (inl 400, false)
    else if negb (bytes_eqb expect []) && negb continue then (inl 417, false)
    else
      (if (0 <? mi_content_length ri) || chunked then
         match read_chunks (mi_chunks ri) [] with Some body => inr body | None => inl 413 end
       else inr [], continue && negb http10).

Definition interim (date : bytes) : bytes :=
  bs "HTTP/1.1 100 Continue" ++ crlf ++ header_line (bs "content-type") html_type ++ header_line (bs "date") date ++ crlf.

(** The headers, trimmed; the first of a name, at most 64. *)
Definition exchange_headers (headers : list (bytes * bytes)) : list (bytes * bytes) :=
  foldl (fun l h =>
    if (length l <? SB_HTTP_MAX_HEADERS)%nat && negb (existsb (fun x => strcaseeq (fst x) (fst h)) l)
    then l ++ [(fst h, sb_http_trim (Some (snd h)))] else l) [] headers.

Definition raw_close (status : Z) : wire_response := mk_wire status None [] [] None true.

(** What can be read of the file of a response, from its offset on. *)
Definition response_data (w : wire_response) : http bytes :=
  match ws_file w with
  | None => mret []
  | Some (path, offset, _) => f ← open_read path; mret (drop (Z.to_nat offset) (default [] f))
  end.

(** [begin_request]: the bytes that are sent and the value returned to civetweb; 0
    leaves the request to the WebSocket handler, -1 closes the connection. *)
Definition begin_request (ri : mg_request) : http (bytes * Z) :=
  let http10 := match mi_version ri with Some v => bytes_eqb v (bs "1.0") | None => false end in
  let headers := exchange_headers (mi_headers ri) in
  match method_index (mi_method ri) with
  | None =>
      mret (write_response (raw_close 405) http10 false false [] [], -1)
  | Some original =>
      let head := bool_decide (original = M_HEAD) in
      let m := if head then M_GET else original in
      let (path, has_nul) := exchange_set_path (mi_uri ri) in
      let rq := mk_req m path (mi_query ri) [] headers [] None (mi_remote ri) in
      let keep_alive := compute_keep_alive ri rq http10 in
      let (body, continued) := exchange_read_body ri rq http10 in
      now ← ask (pe_time env);
      let sent := if continued : bool then interim (http_date now) else [] in
      match body with
      | inl status => mret (sent ++ write_response (raw_close status) http10 keep_alive head [] [], -1)
      | inr body =>
          let rq := mk_req m path (mi_query ri) body headers [] None (mi_remote ri) in
          let ex := mk_exchange rq head http10 keep_alive has_nul in
          if bool_decide (original = M_GET) && civetweb_websocket_upgrade ri && clash_websocket_path path then mret (sent, 0)
          else
            '(handled, w, keep_alive) ← (if drogon_is_websocket rq original then
                     a ← auth_advice rq (wire_init 200);
                     mret (match a with
                           | inl _ => (false, cors_apply srv rq (wire_not_found_page (wire_init 200)), false)
                           | inr w => (false, cors_apply srv rq w, keep_alive)
                           end)
                   else
                     r ← dispatch_http ex (wire_init 200); mret (r, keep_alive));
            let status := if 0 <? ws_status w then ws_status w else 200 in
            if handled : bool then mret (sent, status)
            else
              now ← ask (pe_time env);
              data ← (if content_length_allowed (ws_status w) && negb head then response_data w else mret []);
              mret (sent ++ write_response w http10 keep_alive head (http_date now) data, status)
      end
  end.
End Server.
