(* ===== verification/HttpSurface.v ===== *)
(** * Who reaches which handler

    The answer to a request of the protected part of the interface consults a
    handler only after the session of the caller was found and its role, and the
    scope of its devices, allow the request. *)

From S2P Require Import Prelude Util Json JsonText Auth Sqlite SqliteProofs AuthSecurity AuthPolicy System StoreTables StoreAccounts WgHub HttpText HttpRoutes HttpWire HttpPanel HttpSecurity HttpServer.

(** ** Calls of a component *)

Section Lift.
Context {K : Type}.

Lemma wp_lift {T P A} view set get_mem put (m : sql T P A) (Q : A -> conn panel_db (server_mem K) -> Prop) (E : sb_err -> conn panel_db (server_mem K) -> Prop) s :
  wp m (fun a s' => Q a (mk_conn (set (db s) (db s')) (put (mem s) (mem s')) (asked s')))
       (fun e s' => E e (mk_conn (set (db s) (db s')) (put (mem s) (mem s')) (asked s')))
     (mk_conn (view (db s)) (get_mem (mem s)) (asked s)) ->
  wp (lift view set get_mem put m) Q E s.
Proof. unfold wp, lift. by destruct (m _) as [[a|e] s']. Qed.

(** What a call of the account service leaves that does not touch accounts. *)
Lemma set_security_view p t :
  AuthSecurity.accounts t = AuthSecurity.accounts (security_view p) -> known_hosts t = known_hosts (security_view p) ->
  security_view (set_security p t) = t /\ pd_store (set_security p t) = pd_store p.
Proof.
  intros A H.
  assert (zip_with with_role (StoreTables.users (pd_store p)) (AuthSecurity.accounts t) = StoreTables.users (pd_store p)) as Z.
  { rewrite A. cbn. induction (StoreTables.users (pd_store p)) as [|u l IH]; cbn; [done|]. rewrite IH. by destruct u. }
  assert (pd_store (set_security p t) = pd_store p) as S.
  { unfold set_security. cbn. rewrite Z. by destruct (pd_store p). }
  split; [|done]. unfold security_view at 1. rewrite S.
  assert (account_of <$> StoreTables.users (pd_store p) = AuthSecurity.accounts t) as -> by (by rewrite A).
  assert (host_ids (pd_store p) = known_hosts t) as -> by (by rewrite H). by destruct t.
Qed.

(** A change of the panel that the account service and the repository do not see. *)
Definition same_view (s s' : conn panel_db (server_mem K)) : Prop :=
  security_view (db s') = security_view (db s) /\ pd_store (db s') = pd_store (db s).

Lemma wp_on_security_frame {A} (m : auth A) (Q : A -> conn panel_db (server_mem K) -> Prop) s :
  frame m -> (forall a s', same_view s s' -> (exists s0 : conn auth_tables unit, db s0 = security_view (db s) /\ fst (m s0) = Ok a) -> Q a s') ->
  wp (on_security m) Q (fun _ s' => same_view s s') s.
Proof.
  intros F H. apply wp_lift. set (s0 := mk_conn _ _ _). specialize (F s0). unfold wp.
  assert (same_view s (mk_conn (set_security (db s) (db (snd (m s0)))) (keep_mem (mem s) (mem (snd (m s0)))) (asked (snd (m s0))))) as V
    by (rewrite F; by apply set_security_view).
  destruct (m s0) as [[a|e] s'] eqn:E; cbn [snd] in V; [|done]. apply H; [done|]. exists s0. by rewrite E.
Qed.
End Lift.

Section Access.
Context {K : Type} (env : panel_env K) (srv : sb_http_server).
Let auth_env := pe_auth env.

(** The session of a token: not revoked, not expired at some reading of the clock,
    and of the account whose name and role the claims have. *)
Definition has_session (token : bytes) (c : sb_auth_claims) (t : auth_tables) : Prop :=
  exists r a, r ∈ AuthSecurity.sessions t /\ s_token_hash r = sb_auth_sec_hash auth_env (bs "session") token /\ s_user r = subject c /\
    s_revoked r = None /\ (exists n, unix_now auth_env n < s_expires r) /\ cstr (subject c) = subject c /\
    find_account t (subject c) = Some a /\ username c = a_username a /\ role c = a_role a.

Lemma touch_has_session token c hash now t : has_session token c t -> has_session token c (touch_session hash now t).
Proof.
  intros (r & a & Hr & H & U & R & X & A). unfold touch_session, sql_update. cbn [fst].
  set (f := fun x => if _ : bool then _ else x).
  exists (f r), a. split; [apply list_elem_of_In, in_map, list_elem_of_In, Hr|].
  subst f. cbn beta. by destruct (_ && _).
Qed.

Lemma verify_token_subject hmac secret token now c : sb_auth_verify_token hmac secret token now = Some c -> cstr (subject c) = subject c.
Proof.
  assert (forall payload, claims_of payload now = Some c -> cstr (subject c) = subject c) as C.
  { intros payload. unfold claims_of. cbv zeta. repeat case_match; try done. intros [= <-]. apply cstr_idem. }
  unfold sb_auth_verify_token, mbind, option_bind. intros E. repeat (case_match; try done). by eapply C.
Qed.

Lemma verify_session token s :
  wp (sb_auth_security_verify auth_env (Some token))
     (fun c s' => has_session token c (db s') /\ AuthSecurity.accounts (db s') = AuthSecurity.accounts (db s) /\ known_hosts (db s') = known_hosts (db s))
     (fun _ s' => db s' = db s) s.
Proof.
  unfold sb_auth_security_verify. cbv zeta. case_if; [by apply wp_pure|]. apply wp_bind, wp_ask.
  destruct (sb_auth_verify_token _ _ _ _) as [claims|] eqn:V; [|by apply wp_pure]. apply verify_token_subject in V.
  apply wp_bind, wp_ask. apply wp_bind, wp_query; [done|].
  cbn [db]. destruct (List.find _ _) as [r|] eqn:F; [|by apply wp_pure].
  destruct (find_account _ _) as [a|] eqn:A; [|by apply wp_pure]. apply wp_bind, wp_ask. apply wp_bind, wp_stmt; [done|]. apply wp_ret.
  cbn [db]. split; [|done]. apply touch_has_session. apply List.find_some in F as [Hr Pr].
  apply andb_true_iff in Pr as [Pr _]. unfold session_live in Pr. apply andb_true_iff in Pr as [Pr X%Z.ltb_lt].
  apply andb_true_iff in Pr as [Pr R]. apply andb_true_iff in Pr as [H%bytes_eqb_eq U%bytes_eqb_eq].
  exists r, a. cbn [subject username role]. rewrite <- U in *. split; [by apply list_elem_of_In|]. split; [done|]. split; [done|].
  split; [by destruct (s_revoked r)|]. split; [by eexists|done].
Qed.

(** ** Authorization *)

Definition allowed_device (t : auth_tables) (c : sb_auth_claims) (host : bytes) (mutate : bool) : Prop :=
  exists a, find_account t (cstr (subject c)) = Some a /\ device_allowed t a host mutate = true.

Definition viewer_writes (c : sb_auth_claims) (rq : sb_http_req) : bool :=
  bytes_eqb (cstr (role c)) (bs "viewer") && negb (is_read (rq_method rq)).

(** What a request must be to pass: of an administrator, on the own account, the
    list of devices, or an operation on a device of the scope. *)
Definition authorized (t : auth_tables) (c : sb_auth_claims) (rq : sb_http_req) : Prop :=
  is_admin_role c = true \/ own_path (sb_lower_dup (rq_path rq)) = true \/
  (viewer_writes c rq = false /\
   ((is_read (rq_method rq) = true /\ sb_lower_dup (rq_path rq) = bs "/api/hosts") \/
    exists host, requested_device rq = Some host /\ host <> [] /\ allowed_device t c host (negb (is_read (rq_method rq))))).

Lemma device_allowed_ok user host mutate (s0 : conn auth_tables unit) :
  fst (sb_auth_device_allowed auth_env (Some user) (Some host) mutate s0) = Ok tt ->
  exists a, find_account (db s0) user = Some a /\ device_allowed (db s0) a host mutate = true.
Proof.
  unfold sb_auth_device_allowed. destruct (_ || _); [discriminate|]. unfold query, stmt, mbind, sql_bind.
  destruct (AuthSecurity.fault auth_env (asked s0)); [discriminate|].
  cbn -[find_account device_allowed]. destruct (find_account (db s0) user) as [a|]; [|discriminate]. destruct (device_allowed (db s0) a host mutate) eqn:D; [by eauto|discriminate].
Qed.

Lemma device_allowed_frame user host mutate : frame (sb_auth_device_allowed auth_env user host mutate).
Proof. unfold sb_auth_device_allowed, AuthSecurity.refuse. frames. Qed.

Lemma authorize_spec rq c (s : conn panel_db (server_mem K)) :
  rq_claims rq = Some c ->
  wp (sb_http_security_authorize env rq) (fun _ s' => authorized (security_view (db s)) c rq /\ same_view s s') (fun _ s' => same_view s s') s.
Proof.
  intros C. unfold sb_http_security_authorize. rewrite C. cbv zeta. destruct (is_admin_role c) eqn:Ad; [apply wp_ret; by split; [left|]|].
  destruct (own_path _) eqn:Own; [apply wp_ret; by split; [right; left|]|].
  destruct (_ && _) eqn:V; [by apply wp_pure|]. destruct (_ && bytes_eqb _ (bs "/api/hosts")) eqn:Hosts.
  { apply wp_ret. split; [|done]. right. right. split; [done|]. left. by apply andb_true_iff in Hosts as [? ?%bytes_eqb_eq]. }
  apply wp_bind. assert (forall text s', same_view s s' -> wp (fail (A := unit) SB_ERR_FORBIDDEN text)
    (fun _ s' => authorized (security_view (db s)) c rq /\ same_view s s') (fun _ s' => same_view s s') s') as No by (intros; by apply wp_pure).
  destruct (requested_device rq) as [[|x host]|] eqn:R; [by apply wp_ret, No| |by apply wp_ret, No].
  apply wp_bind, wp_attempt. eapply wp_mono; [apply (wp_on_security_frame _ (fun _ s' => same_view s s' /\ allowed_device (security_view (db s)) c (x :: host) (negb (is_read (rq_method rq)))));
    [apply device_allowed_frame|]|..].
  - intros [] s' V' (s0 & <- & E). split; [done|]. by apply device_allowed_ok.
  - intros [] s' [V' D]. apply wp_ret. cbn [is_ok]. apply wp_ret. split; [|done]. right. right. split; [done|]. right. by exists (x :: host).
  - intros e s' V'. apply wp_ret. cbn [is_ok]. by apply No.
Qed.

(** ** Before the handler *)

Definition authenticated (rq rq' : sb_http_req) (t : auth_tables) : Prop :=
  exists token c, rq' = with_claims rq c /\ has_session token c t /\ authorized t c rq'.

Definition checked (rq : sb_http_req) (s : conn panel_db (server_mem K)) (r : sb_http_req + wire_response) (s' : conn panel_db (server_mem K)) : Prop :=
  match r with inl rq' => authenticated rq rq' (security_view (db s')) /\ pd_store (db s') = pd_store (db s) | inr _ => True end.

Lemma check_token_spec token rq w (s : conn panel_db (server_mem K)) :
  wp (check_token env token rq w) (checked rq s) (fun _ _ => False) s.
Proof.
  unfold check_token, verify_into. apply wp_bind.
  destruct token as [[|x t]|]; [by apply wp_ret, wp_ret| |by apply wp_ret, wp_ret].
  apply wp_bind, wp_attempt, wp_lift. eapply wp_mono; [apply verify_session|..].
  - intros c s' (S & A & H). cbn [db] in *. apply wp_ret. set (s1 := mk_conn _ _ _).
    destruct (set_security_view (db s) (db s') A H) as [V St].
    apply wp_bind, wp_attempt. eapply wp_mono; [apply (authorize_spec (with_claims rq c) c); done|..].
    + intros _ s2 [Au [V2 St2]]. apply wp_ret. subst s1. cbn [db] in *. split; [|by rewrite St2].
      exists (x :: t), c. rewrite V2. by rewrite V in *.
    + intros e s2 _. by apply wp_ret.
  - intros e s' _. by apply wp_ret, wp_ret.
Qed.

Lemma auth_advice_spec rq w (s : conn panel_db (server_mem K)) :
  wp (auth_advice env rq w)
     (fun r s' => match r with
                  | inl rq' => (rq' = rq /\ protected_path (rq_path rq) = false) \/ checked rq s r s'
                  | inr _ => True
                  end) (fun _ _ => False) s.
Proof.
  unfold auth_advice. case_if.
  - eapply wp_mono; [apply check_token_spec|..]; [|done]. intros [rq'|] s' A; [by right|done].
  - case_if; [apply wp_ret; by left|]. eapply wp_mono; [apply check_token_spec|..]; [|done]. intros [rq'|] s' A; [by right|done].
Qed.

(** ** The handler *)

Lemma bind_ext {T P A B} (m m' : sql T P A) (f : A -> sql T P B) s : m s = m' s -> (m ≫= f) s = (m' ≫= f) s.
Proof. intros E. unfold mbind, sql_bind. by rewrite E. Qed.

Lemma run_handler_ext (f g : sb_http_req -> http K sb_http_resp) rq w s :
  f rq s = g rq s -> run_handler env f rq w s = run_handler env g rq w s.
Proof. intros E. apply bind_ext. unfold attempt. by rewrite E. Qed.

(** The circumstances in which a handler is consulted. *)
Definition consulted (s : conn panel_db (server_mem K)) (rq : sb_http_req) : Prop :=
  (protected_path (rq_path rq) = false /\ rq_claims rq = None) \/
  exists token c, rq_claims rq = Some c /\ has_session token c (security_view (db s)) /\ authorized (security_view (db s)) c rq.

Lemma dispatch_ext items (run1 run2 : string -> sb_http_req -> http K sb_http_resp) ex w s :
  rq_claims (ex_req ex) = None -> no_nul (rq_path (ex_req ex)) = true ->
  (forall h rq params s', consulted s' rq -> (rq_claims rq <> None -> pd_store (db s') = pd_store (db s)) -> no_nul (rq_path rq) = true ->
     router_lookup items (rq_path rq) (rq_method rq) = ROUTE_FOUND h params ->
     run1 h (with_params rq params) s' = run2 h (with_params rq params) s') ->
  dispatch_http env srv items run1 ex w s = dispatch_http env srv items run2 ex w s.
Proof.
  intros N P E. unfold dispatch_http. cbv zeta. apply bind_ext.
  case_if; [done|]. case_if; [done|]. unfold mbind, sql_bind. pose proof (auth_advice_spec (ex_req ex) w s) as A. unfold wp in A.
  destruct (auth_advice env (ex_req ex) w s) as [[[rq'|w']|e] s']; [|done..].
  destruct (router_lookup items (rq_path rq') (rq_method rq')) as [|h params|] eqn:R; [done| |done].
  apply run_handler_ext, E; [| | |done]; destruct A as [[-> A]|[(token & c & -> & S & Au) St]]; try done; [by left|right; by exists token, c].
Qed.
End Access.

(** * The surface of the interface

    Which handlers a request can reach without a session, and which ones a user
    that is not an administrator reaches, on which devices. *)

Definition public_handlers : list (method * string) := [
  (M_GET, "handle_health"); (M_GET, "prometheus"); (M_POST, "self_service"); (M_DELETE, "self_service"); (M_GET, "subscription");
  (M_POST, "handle_redeem_device_enrollment"); (M_POST, "handle_auth_login"); (M_POST, "login_mfa"); (M_GET, "oidc_public");
  (M_POST, "oidc_start"); (M_POST, "oidc_finish"); (M_POST, "exchange"); (M_POST, "handle_agent_capture"); (M_GET, "handle_agent_health");
  (M_GET, "handle_agent_config"); (M_POST, "handle_agent_status"); (M_GET, "handle_agent_commands"); (M_POST, "handle_agent_command_ack");
  (M_POST, "handle_agent_proxy_latency"); (M_POST, "handle_agent_telemetry"); (M_POST, "handle_agent_diagnostics")]%string.

(** Of the own account. *)
Definition own_handlers : list (method * string) := [
  (M_GET, "handle_auth_session"); (M_POST, "logout_session"); (M_POST, "own_password"); (M_GET, "sessions"); (M_DELETE, "revoke_session");
  (M_GET, "mfa_status"); (M_POST, "mfa_change"); (M_GET, "preferences"); (M_PUT, "preferences"); (M_DELETE, "preferences")]%string.

(** Of the device of the first parameter. *)
Definition device_handlers : list (method * string) := [
  (M_GET, "handle_get_host"); (M_GET, "handle_host_telemetry"); (M_GET, "handle_host_diagnostics"); (M_GET, "handle_list_host_commands");
  (M_POST, "handle_enqueue_host_command"); (M_GET, "handle_get_host_outbounds"); (M_GET, "history"); (M_GET, "alerts")]%string.

(** Of the device of the parameter [host] of the query. *)
Definition clash_handlers : list (method * string) := [
  (M_GET, "h_clash_proxies"); (M_PUT, "h_clash_proxy_put"); (M_GET, "h_clash_proxy_get"); (M_GET, "h_clash_proxy_delay");
  (M_GET, "h_clash_group_delay"); (M_GET, "h_clash_rules"); (M_DELETE, "h_clash_close_connections"); (M_GET, "h_clash_connections");
  (M_GET, "h_clash_version"); (M_DELETE, "h_clash_close_connection")]%string.

(** ** Handlers by shape *)

Lemma found_among (l : list (method * string)) path m h ps xs more :
  router_lookup routes path m = ROUTE_FOUND h ps -> path_fits xs more (path_segments path) ->
  forallb (fun mh => bool_decide (mh ∈ l)) (handlers_of (reached xs more)) = true -> (m, h) ∈ l.
Proof.
  intros L F B. pose proof (lookup_handlers _ _ _ _ _ _ L F) as I. rewrite forallb_forall in B.
  by apply (bool_decide_eq_true_1 _ (B _ (proj1 (list_elem_of_In _ _) I))).
Qed.

(** A disjunction of tests on the path: each names a shape. *)
Ltac by_shape L :=
  lazymatch goal with
  | H : bytes_eqb (ascii_lower_dup _) (bs ?t) = true |- _ =>
      apply bytes_eqb_eq in H; let l := eval vm_compute in (String.string_of_list_ascii <$> path_segments (bs t)) in
      apply (found_among _ _ _ _ _ _ _ L (exact_fits l _ (bs t) eq_refl H)); vm_compute; reflexivity
  | H : sb_starts_with (ascii_lower_dup _) (bs ?t) = true |- _ =>
      let l := eval vm_compute in (String.string_of_list_ascii <$> removelast (path_segments (bs t))) in
      refine (found_among _ _ _ _ _ _ _ L (prefix_fits l _ _ _ _ H) _);
      [repeat constructor; discriminate | reflexivity | assumption | vm_compute; reflexivity]
  end.

Lemma split_from_cons2 d start s x y r : split_from d start s = x :: y :: r -> exists u s', x = start ++ u /\ s = u ++ d :: s'.
Proof.
  revert start. induction s as [|c s IH]; intros start; cbn; [done|]. case_bool_decide as C.
  - intros [= <- _]. exists [], s. by rewrite app_nil_r, C.
  - intros (u & s' & -> & ->)%IH. exists (c :: u), s'. by rewrite <- app_assoc.
Qed.

(** All routes are below [/api/]. *)
Lemma routes_below_api : forallb (fun item =>
  if ro_parameterised item then match ro_segments item with x :: _ :: _ => negb (segment_is_param x) && bytes_eqb x (bs "api") | _ => false end
  else sb_starts_with (ro_key item) (bs "/api/")) routes = true.
Proof. vm_compute. reflexivity. Qed.

Lemma found_below_api path m h ps :
  no_nul path = true -> router_lookup routes path m = ROUTE_FOUND h ps -> sb_starts_with (ascii_lower_dup path) (bs "/api/") = true.
Proof.
  intros N (item & I & A & _)%router_lookup_found. pose proof routes_below_api as B. rewrite forallb_forall in B.
  specialize (B item (proj1 (list_elem_of_In _ _) I)). unfold item_accepts in A. destruct (ro_parameterised item); [|by rewrite <- A].
  destruct A as [S M]. destruct (ro_segments item) as [|x [|x' xs]]; try done. apply andb_true_iff in B as [P%negb_true_iff X%bytes_eqb_eq].
  destruct (path_segments path) as [|p [|p' ps']] eqn:E; cbn in M; [done|by rewrite andb_false_r in M|].
  rewrite P in M. apply andb_true_iff in M as [Q%bytes_eqb_eq _]. apply starts_with_app in S as [q ->]; [|done..].
  assert (path_segments (bs "/" ++ q) = split_from (chr 47) [] q) as Sq
    by (change (path_segments (bs "/" ++ q)) with (split_from (chr 47) [] (cstr q)); by rewrite cstr_no_nul by (by apply andb_true_iff in N as [_ N])).
  rewrite Sq in E. apply split_from_cons2 in E as (u & q' & -> & ->). cbn [app] in Q.
  unfold sb_starts_with. rewrite (cstr_no_nul (ascii_lower_dup _)) by (by apply no_nul_lower).
  unfold ascii_lower_dup in *. rewrite fmap_app, fmap_app. change (tolower <$> u) with (ascii_lower_dup u). unfold ascii_lower_dup.
  rewrite <- Q, X. apply bytes_eqb_eq. reflexivity.
Qed.

Lemma public_reaches path m h ps :
  no_nul path = true -> public_api_path (ascii_lower_dup path) = true -> router_lookup routes path m = ROUTE_FOUND h ps ->
  (m, h) ∈ public_handlers.
Proof.
  intros N P L. unfold public_api_path in P. repeat (apply orb_true_iff in P as [P|P]); by_shape L.
Qed.

Lemma lower_dup_no_nul path : no_nul path = true -> sb_lower_dup path = ascii_lower_dup path.
Proof. intros N. unfold sb_lower_dup. by rewrite cstr_no_nul. Qed.

Lemma own_reaches path m h ps :
  no_nul path = true -> own_path (ascii_lower_dup path) = true -> router_lookup routes path m = ROUTE_FOUND h ps -> (m, h) ∈ own_handlers.
Proof.
  intros N P L. unfold own_path in P. repeat (apply orb_true_iff in P as [P|P]); by_shape L.
Qed.

(** Segments that the fixed routes below [/api/hosts/] have where others have a
    device. *)
Definition fixed_segments : list string := ["profiles"; "rule-script"]%string.

Definition hosts_named (t : store_tables) : Prop := Forall (fun id => ascii_lower_dup id ∉ (bs <$> fixed_segments)) (host_ids t).

(** The shapes of the operations on a device, with what may follow the device. *)
Definition device_shape (tail : list string) : list segment_shape := (Lit <$> ["api"; "hosts"]%string) ++ [Other fixed_segments] ++ (Lit <$> tail).

Definition device_routes (tail : list string) : list (route_item string) := reached (device_shape tail) false.

(** Their routes have parameters, the first one at the place of the device. *)
Definition first_is_device (item : route_item string) : bool :=
  ro_parameterised item &&
  match ro_segments item with a :: b :: c :: _ => negb (segment_is_param a) && negb (segment_is_param b) && segment_is_param c | _ => false end.

Definition tails : list (list string) := [[]; ["telemetry"]; ["diagnostics"]; ["commands"]; ["outbounds"]; ["history"]; ["alerts"]]%string.

(** The handlers that are reached with a method of an operation. *)
Definition device_operation (tail : list string) (m : method) : bool :=
  safe_method m || (bool_decide (m = M_POST) && bool_decide (tail = ["commands"]%string)).

Lemma device_routes_ok : forallb (fun tail => forallb (fun item => first_is_device item &&
    forallb (fun mh => negb (device_operation tail (fst mh)) || bool_decide (mh ∈ device_handlers)) (ro_handlers item)) (device_routes tail)) tails = true.
Proof. vm_compute. reflexivity. Qed.

Lemma first_param item parts a b host rest :
  first_is_device item = true -> parts = a :: b :: host :: rest -> head (route_params (ro_segments item) parts) = Some host.
Proof.
  unfold first_is_device. intros [_ F]%andb_true_iff ->. destruct (ro_segments item) as [|x [|y [|z l]]]; try done.
  apply andb_true_iff in F as [F Z]. apply andb_true_iff in F as [X%negb_true_iff Y%negb_true_iff].
  unfold route_params. cbn [zip_with omap list_omap fst snd]. by rewrite X, Y, Z.
Qed.

Lemma device_reaches path m h ps host tail a b rest :
  router_lookup routes path m = ROUTE_FOUND h ps -> tail ∈ tails -> device_operation tail m = true ->
  path_segments path = a :: b :: host :: rest -> path_fits (device_shape tail) false (path_segments path) ->
  (m, h) ∈ device_handlers /\ head ps = Some host.
Proof.
  intros L T O S F. destruct (lookup_reached _ _ _ _ _ _ L F) as (item & I & Hm & ->).
  pose proof device_routes_ok as B. rewrite forallb_forall in B. specialize (B tail (proj1 (list_elem_of_In _ _) T)).
  rewrite forallb_forall in B. specialize (B item (proj1 (list_elem_of_In _ _) I)). apply andb_true_iff in B as [D B].
  rewrite forallb_forall in B. specialize (B _ (proj1 (list_elem_of_In _ _) Hm)). cbn [fst] in B. rewrite O in B. cbn in B.
  split; [by apply bool_decide_eq_true in B|]. pose proof D as [-> _]%andb_true_iff. by eapply first_param.
Qed.

Lemma not_slash_split s : split_at (chr 47) s = None -> Forall (fun c => c <> slash) s.
Proof.
  induction s as [|c s IH]; cbn; [constructor|]. destruct (_ =? _) eqn:C; [done|]. apply Z.eqb_neq in C.
  destruct (split_at (chr 47) s) as [[]|]; [done|]. intros _. constructor; [|by apply IH]. intros ->. by apply C.
Qed.

Lemma split_at_slash s x y : split_at (chr 47) s = Some (x, y) -> s = x ++ slash :: y /\ Forall (fun c => c <> slash) x.
Proof.
  revert x. induction s as [|c s IH]; intros x; cbn; [done|]. destruct (_ =? _) eqn:C.
  - intros [= <- <-]. split; [|constructor]. apply Z.eqb_eq in C. cbn. f_equal. by apply code_inj.
  - apply Z.eqb_neq in C. destruct (split_at (chr 47) s) as [[x' y']|]; [|done]. intros [= <- <-]. destruct (IH x' eq_refl) as [-> F].
    split; [done|]. constructor; [|done]. intros ->. by apply C.
Qed.

(** The device and the rest of the path of an operation. *)
Lemma host_operation_tail m raw host :
  host_operation m raw = Some host ->
  exists tail rest, tail ∈ tails /\ device_operation tail m = true /\ split_from slash [] raw = host :: rest /\ ascii_lower_dup <$> rest = bs <$> tail.
Proof.
  unfold host_operation. destruct (split_at (chr 47) raw) as [[x y]|] eqn:S.
  - apply split_at_slash in S as [-> F]. rewrite split_from_segment by done. cbn [app].
    assert (forall t, [t] ∈ tails -> device_operation [t] m = true -> plain_segment t -> ascii_lower_dup (slash :: y) = slash :: bs t ->
      exists tail rest, tail ∈ tails /\ device_operation tail m = true /\ x :: split_from slash [] y = x :: rest /\ ascii_lower_dup <$> rest = bs <$> tail) as Y.
    { intros t T O P [= E]. exists [t], (split_from slash [] y). split; [done|]. split; [done|]. split; [done|].
      rewrite split_from_last; [cbn; by rewrite <- E|]. by eapply lower_no_slash. }
    match goal with |- (if ?b then _ else _) = _ -> _ => destruct b eqn:O; [|done] end. intros [= <-]. unfold is_read in O. unfold device_operation in *. destruct (safe_method m) eqn:R.
    + apply existsb_exists in O as (t & T & E%bytes_eqb_eq).
      destruct T as [<- | [<- | [<- | [<- | [<- | [<- | [<- | []]]]]]]]; [done|..];
        [apply (Y "telemetry"%string) | apply (Y "diagnostics"%string) | apply (Y "commands"%string) | apply (Y "outbounds"%string)
        | apply (Y "history"%string) | apply (Y "alerts"%string)]; try done; try (repeat constructor; discriminate); apply list_elem_of_In; cbn; tauto.
    + apply andb_true_iff in O as [M E%bytes_eqb_eq]. apply (Y "commands"%string); [apply list_elem_of_In; cbn; tauto|by rewrite M|repeat constructor; discriminate|exact E].
  - apply not_slash_split in S. rewrite split_from_last by done. cbn [app]. match goal with |- (if ?b then _ else _) = _ -> _ => destruct b eqn:O; [|done] end. intros [= <-].
    exists [], []. split; [apply list_elem_of_In; cbn; tauto|]. split; [|done]. unfold is_read in O. unfold device_operation. by destruct (safe_method m); [|rewrite andb_false_r in O].
Qed.

Section Surface.
Context {K : Type} (env : panel_env K) (srv : sb_http_server).

(** A user that is not an administrator may do this with a device. *)
Definition device_request (t : auth_tables) (c : sb_auth_claims) (h : string) (rq : sb_http_req) (host : bytes) : Prop :=
  allowed_device t c host (negb (is_read (rq_method rq))) /\
  (((rq_method rq, h) ∈ device_handlers /\ head (rq_params rq) = Some host) \/
   ((rq_method rq, h) ∈ clash_handlers /\ sb_http_trim (sb_req_query_param rq "host") = host)).

(** The requests on which the handler of a route may be consulted. *)
Definition guarded (s : conn panel_db (server_mem K)) (h : string) (rq : sb_http_req) : Prop :=
  let t := security_view (db s) in
  (rq_claims rq = None /\ (rq_method rq, h) ∈ public_handlers) \/
  exists token c, rq_claims rq = Some c /\ has_session env token c t /\
    (is_admin_role c = true \/ (rq_method rq, h) ∈ own_handlers \/
     (viewer_writes c rq = false /\
      ((rq_method rq, h) = (M_GET, "handle_list_hosts"%string) \/ exists host, device_request t c h rq host))).

Lemma allowed_known token c t host mutate :
  has_session env token c t -> is_admin_role c = false -> allowed_device t c host mutate -> host ∈ known_hosts t.
Proof.
  intros (r & a & _ & _ & _ & _ & _ & Sub & A & _ & R) N (a' & A' & D). rewrite Sub in A'. rewrite A in A'. injection A' as <-.
  unfold device_allowed in D. apply orb_true_iff in D as [D|D].
  - unfold AuthSecurity.is_admin in D. apply bytes_eqb_eq in D. unfold is_admin_role in N. by rewrite R, D in N.
  - apply andb_true_iff in D as [D _]. apply andb_true_iff in D as [_ D]. apply existsb_exists in D as (x & X & ->%bytes_eqb_eq). by apply list_elem_of_In.
Qed.

Lemma host_path_guarded rq h params host :
  no_nul (rq_path rq) = true -> router_lookup routes (rq_path rq) (rq_method rq) = ROUTE_FOUND h params ->
  sb_starts_with (ascii_lower_dup (rq_path rq)) (bs "/api/hosts/") = true ->
  host_operation (rq_method rq) (drop (length (bs "/api/hosts/")) (rq_path rq)) = Some host ->
  ascii_lower_dup host ∉ (bs <$> fixed_segments) ->
  (rq_method rq, h) ∈ device_handlers /\ head params = Some host.
Proof.
  intros N L Sh O X. apply host_operation_tail in O as (tail & rest & T & Op & R & Lr).
  destruct (prefix_segments ["api"; "hosts"]%string (rq_path rq)) as (xs & Sx & Lx); [repeat constructor; discriminate|done|done|exact Sh|].
  change (S (length (joined ["api"; "hosts"]%string))) with (length (bs "/api/hosts/")) in Sx. rewrite R in Sx.
  destruct xs as [|a [|b [|]]]; try discriminate Lx. injection Lx as La Lb.
  eapply device_reaches; [exact L|exact T|exact Op|exact Sx|]. rewrite Sx. cbn. split; [done|]. split; [done|]. split; [done|].
  eapply (fits_literals _ _ _ []); [by left|]. by rewrite Lr, app_nil_r.
Qed.

Lemma consulted_guarded rq h params (s : conn panel_db (server_mem K)) :
  consulted env s rq -> no_nul (rq_path rq) = true -> router_lookup routes (rq_path rq) (rq_method rq) = ROUTE_FOUND h params ->
  (rq_claims rq <> None -> hosts_named (pd_store (db s))) -> guarded s h (with_params rq params).
Proof.
  intros [[P C]|(token & c & C & S & A)] N L Named.
  { left. split; [done|]. unfold protected_path in P. rewrite (found_below_api _ _ _ _ N L) in P. cbn in P.
    apply negb_false_iff in P. by eapply public_reaches. }
  right. exists token, c. split; [done|]. split; [done|]. unfold authorized in A. rewrite lower_dup_no_nul in A by done.
  destruct (is_admin_role c) eqn:Ad; [by left|]. right. destruct A as [A|[A|[V A]]]; [discriminate A|left; exact (own_reaches _ _ _ _ N A L)|].
  right. split; [done|]. destruct A as [[R A]|(host & D & _ & Al)].
  { left. cbn [rq_method with_params]. assert ((rq_method rq, h) ∈ [(M_POST, "handle_create_host"); (M_GET, "handle_list_hosts")]%string) as I.
    { assert (bytes_eqb (ascii_lower_dup (rq_path rq)) (bs "/api/hosts") = true) as Q by (by apply bytes_eqb_eq). by_shape L. }
    apply list_elem_of_In in I as [I|[I|[]]]; [injection I as M _; rewrite <- M in R; discriminate R|symmetry; exact I]. }
  right. exists host. split; [exact Al|]. unfold requested_device in D. rewrite lower_dup_no_nul in D by done. cbn [rq_method with_params rq_params].
  destruct (sb_starts_with _ (bs "/api/hosts/")) eqn:Sh.
  - left. eapply host_path_guarded; [done|done|done|done|].
    assert (host ∈ host_ids (pd_store (db s))) as I by (exact (allowed_known _ _ _ _ _ S Ad Al)).
    unfold hosts_named in Named. rewrite Forall_forall in Named. apply Named; [by rewrite C|done].
  - destruct (sb_starts_with _ (bs "/api/sing-box/")) eqn:Sb; [|discriminate D]. destruct (clash_operation _ _); [|discriminate D]. injection D as D.
    right. split; [by_shape L|]. rewrite <- D. change (sb_req_query_param (with_params rq params) "host") with (sb_req_query_param rq "host").
    by destruct (sb_req_query_param rq "host").
Qed.

(** C15: no request gets further than its caller may: the answer to a request depends
    on the handler of a route only where the route is one of the public ones, or a
    session was found, not revoked and not expired, of an account that is an
    administrator, or calls a handler of its own account, or, not writing as a
    viewer, lists the devices or calls one of the operations on a device of its
    scope, and that device is the one the handler is given.  (Two servers whose
    handlers agree on these requests answer every request alike.)  Devices must not
    be named like the fixed routes below [/api/hosts/]. *)
Theorem handlers_guarded (run1 run2 : string -> sb_http_req -> http K sb_http_resp) ex w s :
  rq_claims (ex_req ex) = None -> no_nul (rq_path (ex_req ex)) = true -> hosts_named (pd_store (db s)) ->
  (forall h rq s', guarded s' h rq -> run1 h rq s' = run2 h rq s') ->
  dispatch_http env srv routes run1 ex w s = dispatch_http env srv routes run2 ex w s.
Proof.
  intros C N Named E. apply dispatch_ext; [exact C|exact N|]. intros h rq params s' Co St P L. apply E.
  eapply consulted_guarded; [done|done|done|]. intros Cl. by rewrite (St Cl).
Qed.
End Surface.
