(* ===== verification/HttpAdmin.v ===== *)
(** * Panel administration over HTTP ([c/src/http_routes_admin.c])

    Health, logs, migration, password login, accounts, settings and backups, the
    peers of the WireGuard hub, and the rendered configurations.  A handler gives
    the response or an error; [json_aware] is how the handlers end. *)

From S2P Require Import Prelude Util Json JsonText DateTime Types Script Renderer Auth Sqlite AuthSecurity Wireguard System StoreTables StoreAccounts StoreHosts StoreNodes StoreBackup WgText WgHub HttpText HttpTelemetry HttpWire HttpPanel HttpSecurity.

(** ** Values of JSON bodies *)

(** The error of a text of nlohmann is an error of the request. *)
Definition fail_json_aware (e : sb_err) : sb_err :=
  match err_code e with
  | SB_ERR_GENERIC => if sb_starts_with (err_msg e) (bs "[json.exception.") then mk_err SB_ERR_BAD_JSON (err_msg e) else e
  | _ => e
  end.

Definition type_error_302 {A} (expected : string) (value : sbj) : result A :=
  sb_fail SB_ERR_BAD_JSON
    (bs "[json.exception.type_error.302] type must be " ++ bs expected ++ bs ", but is " ++ sbj_type_name (Some value)).

(** The range tests on the [double] are tests on its truncation. *)
Definition double_to_i32 (d : double) : Z :=
  if double_isfinite d && in_range (- 2 ^ 31) (2 ^ 31 - 1) (double_trunc d) then double_trunc d else - 2 ^ 31.
Definition double_to_i64 (d : double) : Z :=
  if double_isfinite d && in_range INT64_MIN INT64_MAX (double_trunc d) then double_trunc d else INT64_MIN.

Definition json_get_i32 (v : sbj) : result Z :=
  match v with
  | SBJ_INT i => Ok (to_i32 i)
  | SBJ_UINT u => Ok (to_i32 u)
  | SBJ_FLOAT f => Ok (double_to_i32 f)
  | SBJ_BOOL b => Ok (if b then 1 else 0)
  | v => type_error_302 "number" v
  end.

Definition json_get_i64 (v : sbj) : result Z :=
  match v with
  | SBJ_INT i => Ok i
  | SBJ_UINT u => Ok (to_i64 u)
  | SBJ_FLOAT f => Ok (double_to_i64 f)
  | v => type_error_302 "number" v
  end.

Definition json_value_string (body : option sbj) (field : string) (fallback : bytes) : result bytes :=
  match sbj_get body field with
  | None => Ok fallback
  | Some (SBJ_STRING s) => Ok s
  | Some v => type_error_302 "string" v
  end.

Definition json_string_is (value : sbj) (literal : string) : bool :=
  match value with SBJ_STRING s => bytes_eqb s (bs literal) | _ => false end.

Definition utc_after_minutes (now minutes : Z) : bytes := fmt_utc (now + minutes * 60) (bs "T") (bs "Z").

(** A member that replaces a value when it is a string. *)
Definition string_or {A} (body : option sbj) (field : string) (set : bytes -> A) (keep : A) : A :=
  match sbj_get body field with Some (SBJ_STRING s) => set s | _ => keep end.

(** A number of the body, or the value of [keep]. *)
Definition number_or (get : sbj -> result Z) (v : option sbj) (keep : Z) : result Z :=
  match v with Some v => get v | None => Ok keep end.

Definition renderer_node (record : sb_proxy_record) : sb_proxy_node :=
  mk_node (cstr (rc_id record)) (rc_tag record) (rc_type record) (rc_enabled record) (rc_server record) (rc_port record)
    (match rc_config record with Some c => sbj_clone c | None => SBJ_OBJECT [] end).

Definition bearer_token (rq : sb_http_req) : option bytes :=
  match sb_req_header rq "Authorization" with
  | Some a => if bytes_eqb (take 7 a) (bs "Bearer ") then match sb_http_trim (Some (drop 7 a)) with [] => None | t => Some t end else None
  | None => None
  end.

Section Admin.
Context {K : Type} (env : panel_env K) (srv : sb_http_server).

Abbreviation http := (http K).
Let store_env : store_env := hub_store (pe_hub env).
Let auth_env : auth_env := pe_auth env.
Let wg : sb_wireguard_options := hs_wireguard srv.

Definition json_aware {A} (m : http A) : http A :=
  r ← attempt m;
  pure (match r with Ok a => Ok a | Err e => Err (fail_json_aware e) end).

Definition respond_success : sb_http_resp := plain (sbj_set_bool (SBJ_OBJECT []) "success" true).

(** ** Lookups ([c/src/http_server.c]) *)

Definition required {A} (what : string) (found : store (option A)) : http A :=
  r ← on_store found;
  match r with Some a => mret a | None => fail SB_ERR_NOT_FOUND what end.
Definition sb_http_require_host (id : bytes) : http sb_host := required "Host not found" (sb_store_find_host store_env (Some id)).
Definition sb_http_require_profile (id : bytes) : http sb_config_profile := required "Profile not found" (sb_store_find_profile store_env (Some id)).
Definition sb_http_require_proxy (id : bytes) : http sb_proxy_record := required "Node not found" (sb_store_find_proxy_node store_env (Some id)).
Definition require_peer (id : bytes) : http sb_wireguard_peer := required "Peer not found" (sb_store_find_wireguard_peer store_env (Some id)).

Definition sb_http_sync_wireguard_best_effort : http unit :=
  r ← attempt (on_hub (sb_wireguard_sync (pe_hub env) wg));
  match r with Ok _ => mret tt | Err e => sb_error env (bs "WireGuard sync failed: " ++ cstr (err_msg e)) end.
(** ** State of the panel *)

Definition handle_health (rq : sb_http_req) : http sb_http_resp :=
  let body := sbj_set_str (SBJ_OBJECT []) "status" (bs "ok") in
  mret (plain (sbj_set_str body "service" (bs "sb-easy-c"))).

Definition count_section (key : string) (n : nat) : sbj := sbj_set_int (SBJ_OBJECT []) key (Z.of_nat n).

Definition handle_system_status (rq : sb_http_req) : http sb_http_resp :=
  json_aware
    (peers ← on_store (sb_store_list_wireguard_peers store_env);
     nodes ← on_store (sb_store_list_proxy_nodes store_env);
     subscriptions ← on_store (sb_store_list_subscriptions store_env);
     let body := sbj_set_str (SBJ_OBJECT []) "version" (pe_version env) in
     let body := sbj_set_str body "status" (bs "running") in
     let body := sbj_set body "wireguard" (count_section "peer_count" (length peers)) in
     let body := sbj_set body "sing_box" (count_section "node_count" (length nodes)) in
     mret (plain (sbj_set body "subscriptions" (count_section "count" (length subscriptions))))).

Definition handle_system_logs (rq : sb_http_req) : http sb_http_resp :=
  on_memory (fun m _ => (plain (sbj_set (SBJ_OBJECT []) "lines" (sb_http_log_lines (sm_log m))), m)).

(** ** Migration *)

Definition handle_wg_import_history (rq : sb_http_req) : http sb_http_resp :=
  _ ← pure (sb_require_admin rq);
  history ← on_store (sb_store_list_wg_imports store_env);
  mret (plain history).

Inductive migration := Preview | Apply | Rollback.

Definition migration_action (body : sbj) : result migration :=
  let refused := sb_fail SB_ERR_VALIDATION (bs "Migration action must be preview, apply or rollback") in
  match sbj_get (Some body) "action" with
  | None => Ok Preview
  | Some (SBJ_STRING s) =>
      let action := cstr s in
      if bytes_eqb action (bs "apply") then Ok Apply
      else if bytes_eqb action (bs "rollback") then Ok Rollback
      else if bytes_eqb action (bs "preview") then Ok Preview else refused
  | Some _ => refused
  end.

(** The batch of peers and settings of a configuration, planned or applied. *)
Definition migrate_import (rq : sb_http_req) (body : sbj) (apply : bool) : http sbj :=
  if negb (sbj_string_is (sbj_get (Some body) "format") "wg-easy-v14")
  then fail SB_ERR_VALIDATION "Supported migration format is wg-easy-v14 (wg0.json); v15 SQLite backups require conversion"
  else
    runtime ← on_hub (sb_wireguard_runtime_options (pe_hub env) wg);
    batch ← pure (sb_wg_easy_v14_normalize (hub_keys (pe_hub env)) (sbj_get (Some body) "configuration") (sbj_get (Some body) "options")
                    (Some (wo_dns runtime)));
    result ← on_store (sb_store_wg_import store_env (Some batch) apply (sbj_get_str (Some body) "preview_digest" None) (Some (username_of rq)));
    let result := sbj_set_bool result "wireguard_running" (so_wg_enabled (hs_opts srv)) in
    let result := sbj_set_str result "activation"
      (bs "Import while WG_ENABLED=false; restart with WG_ENABLED=true after checking endpoint, DNS and firewall settings") in
    mret (sbj_setn result (bs "client_defaults") (sbj_clone <$> sbj_get (Some batch) "client_defaults")).

Definition handle_migrate_wg_easy (rq : sb_http_req) : http sb_http_resp :=
  _ ← pure (sb_require_admin rq);
  body ← pure (sb_req_json_object rq);
  action ← pure (migration_action body);
  if so_wg_enabled (hs_opts srv) && match action with Preview => false | _ => true end
  then fail SB_ERR_CONFLICT "Stop WireGuard with WG_ENABLED=false and restart the panel before applying or rolling back a migration"
  else
    result ← match action with
             | Rollback =>
                 id ← pure (sb_json_required_string (Some body) "migration_id");
                 on_store (sb_store_wg_import_rollback store_env (Some id) (Some (username_of rq)))
             | Apply => migrate_import rq body true
             | Preview => migrate_import rq body false
             end;
    mret (plain result).

(** ** Logins *)

Definition login_name (body : sbj) : result bytes :=
  match present (Some body) "username" with
  | None => Ok (bs "admin")
  | Some (SBJ_STRING s) => Ok s
  | Some _ => sb_fail SB_ERR_VALIDATION (bs "username must be a string")
  end.

Definition handle_auth_login (rq : sb_http_req) : http sb_http_resp :=
  json_aware
    (body ← pure (sb_req_json_object rq);
     username ← pure (login_name body);
     password ← pure (sb_json_required_string (Some body) "password");
     found ← on_store (sb_store_find_user_by_username_n store_env (Some username));
     match found with
     | Some user =>
         if sb_verify_password_n (pe_verify env) (Some password) (Some (us_password user))
         then sb_http_security_login env srv rq (us_id user) (bs "password")
         else fail SB_ERR_AUTH "Invalid credentials"
     | None => fail SB_ERR_AUTH "Invalid credentials"
     end).

Definition handle_auth_session (rq : sb_http_req) : http sb_http_resp :=
  r ← match bearer_token rq with
      | None => mret no_token
      | Some token => attempt (on_security (sb_auth_security_verify auth_env (Some token)))
      end;
  match r with
  | Err _ => pure no_token
  | Ok claims =>
      let body := sbj_set (SBJ_OBJECT []) "username" (SBJ_STRING (username claims)) in
      let body := sbj_set_str body "role" (role claims) in
      mret (plain (sbj_set_bool body "authenticated" true))
  end.

(** ** Accounts *)

Definition json_list {A} (to_json : A -> sbj) (l : list A) : sbj := SBJ_ARRAY (to_json <$> l).

Definition handle_users_audit (rq : sb_http_req) : http sb_http_resp :=
  _ ← pure (sb_require_admin rq);
  json_aware (entries ← on_store (sb_store_list_audit store_env 200); mret (plain (json_list sb_audit_entry_to_json entries))).

Definition handle_users_list (rq : sb_http_req) : http sb_http_resp :=
  _ ← pure (sb_require_admin rq);
  json_aware (users ← on_store (sb_store_list_users store_env); mret (plain (json_list sb_user_account_to_json users))).

(** The member, and the role that it names. *)
Definition new_role (body : sbj) : result (option sbj * bytes) :=
  match present (Some body) "role" with
  | None => Ok (None, bs "viewer")
  | Some (SBJ_STRING s) => Ok (Some (SBJ_STRING s), s)
  | Some _ => sb_fail SB_ERR_VALIDATION (bs "role must be a string")
  end.

Definition hash_password (password : bytes) : http bytes :=
  salt ← ask (salt store_env);
  pure (sb_hash_password_n (argon2id store_env) salt (Some password)).

Definition handle_users_create (rq : sb_http_req) : http sb_http_resp :=
  json_aware
    (_ ← pure (sb_require_admin rq);
     body ← pure (sb_req_json_object rq);
     username ← pure (sb_json_required_string (Some body) "username");
     password ← pure (sb_json_required_string (Some body) "password");
     '(role_value, role) ← pure (new_role body);
     if forallb isspace username || (length password <? 4)%nat
     then fail SB_ERR_VALIDATION "Username required, password must be at least 4 characters"
     else if match role_value with
             | Some v => negb (json_string_is v "admin") && negb (json_string_is v "viewer") && negb (json_string_is v "operator")
             | None => false
             end
     then fail SB_ERR_VALIDATION "Role must be admin, operator or viewer"
     else
       hash ← hash_password password;
       user ← on_store (sb_store_create_user_n store_env (Some username) hash (Some role));
       mret (plain (sb_user_account_to_json user))).

Definition handle_users_delete (rq : sb_http_req) : http sb_http_resp :=
  _ ← pure (sb_require_admin rq);
  json_aware (_ ← on_store (sb_store_delete_user store_env (Some (subject_of rq)) (Some (param rq))); mret respond_success).

Definition handle_users_password (rq : sb_http_req) : http sb_http_resp :=
  json_aware
    (_ ← pure (sb_require_admin rq);
     body ← pure (sb_req_json_object rq);
     password ← pure (sb_json_required_string (Some body) "password");
     if (length password <? 4)%nat then fail SB_ERR_VALIDATION "Password must be at least 4 characters"
     else
       hash ← hash_password password;
       _ ← on_store (sb_store_reset_user_password store_env (Some (param rq)) (Some hash));
       _ ← on_security (sb_auth_security_revoke auth_env (param rq) None None);
       mret respond_success).
(** ** Settings and backups *)

(** The options of the process, under the members of the saved section. *)
Definition effective_wireguard (saved : option sbj) : sbj :=
  let o := hs_opts srv in
  let w := sbj_set_str (SBJ_OBJECT []) "interface" (so_wg_interface o) in
  let w := sbj_set_int w "listen_port" (so_wg_port o) in
  let w := sbj_set_str w "address" (so_wg_address o) in
  let w := sbj_set_str w "dns" (so_wg_dns o) in
  let w := sbj_set_int w "mtu" (so_wg_mtu o) in
  match saved with
  | Some (SBJ_OBJECT m) =>
      foldl (fun w kv => if sbj_is_null (Some (snd kv)) then w else sbj_setn w (cstr (fst kv)) (Some (sbj_clone (snd kv)))) w m
  | _ => w
  end.

Definition settings_view : http sbj :=
  settings ← on_store (sb_store_app_settings store_env);
  mret (sbj_set settings "wireguard_interface" (effective_wireguard (sbj_get (Some settings) "wireguard_interface"))).

Definition handle_settings_get (rq : sb_http_req) : http sb_http_resp := json_aware (settings ← settings_view; mret (plain settings)).

Definition handle_settings_put (rq : sb_http_req) : http sb_http_resp :=
  body ← pure (sb_req_json_object rq);
  json_aware
    (_ ← on_store (sb_store_update_app_settings store_env (Some body));
     _ ← sb_http_sync_wireguard_best_effort;
     settings ← settings_view;
     mret (plain settings)).

Definition handle_settings_backup (rq : sb_http_req) : http sb_http_resp :=
  json_aware
    (backup ← on_store (sb_store_export_backup store_env);
     now ← ask (pe_time env);
     mret (plain (sbj_set (sbj_set_int backup "version" 1) "exported_at" (SBJ_STRING (sb_http_utc_now now))))).

Definition handle_settings_restore (rq : sb_http_req) : http sb_http_resp :=
  body ← pure (sb_req_json_object rq);
  json_aware
    (restored ← on_store (sb_store_restore_backup store_env (Some body));
     _ ← sb_http_sync_wireguard_best_effort;
     mret (plain (sbj_set (SBJ_OBJECT []) "restored" restored))).

(** ** Peers *)

Definition or_json_null {A} (f : A -> sbj) (o : option A) : sbj := match o with Some a => f a | None => SBJ_NULL end.

(** The statistics of the interface are added when there are any. *)
Definition live_members (live : option sb_wireguard_peer_stats) (value : sbj) : sbj :=
  match live with
  | None => value
  | Some l =>
      let value := sbj_set value "endpoint" (or_json_null (fun e => sbj_str (Some e)) (ps_endpoint l)) in
      let value := sbj_set value "latest_handshake" (or_json_null SBJ_INT (ps_handshake l)) in
      sbj_set_int (sbj_set_int value "transfer_rx" (ps_rx l)) "transfer_tx" (ps_tx l)
  end.

Definition listed_peer (stats : list sb_wireguard_peer_stats) (peer : sb_wireguard_peer) : http sbj :=
  expired ← on_hub (sb_wireguard_peer_expired (pe_hub env) peer);
  let value := sbj_set_bool (sb_wireguard_peer_to_json peer) "expired" expired in
  let value := sbj_set_str value "kind" (bs (match wp_host peer with Some _ => "agent" | None => "wg" end)) in
  value ← match wp_host peer with
          | None => mret value
          | Some id =>
              host ← on_store (sb_store_find_host store_env (Some id));
              mret (sbj_set value "host_name" (or_json_null (fun h => SBJ_STRING (ho_name h)) host))
          end;
  mret (live_members (List.find (fun s => sb_streq (Some (ps_public s)) (Some (wp_public peer))) stats) value).

Fixpoint listed_peers (stats : list sb_wireguard_peer_stats) (peers : list sb_wireguard_peer) : http (list sbj) :=
  match peers with
  | [] => mret []
  | peer :: peers' => value ← listed_peer stats peer; rest ← listed_peers stats peers'; mret (value :: rest)
  end.

(** Statistics are best effort. *)
Definition current_stats : http (list sb_wireguard_peer_stats) :=
  r ← attempt (on_hub (sb_wireguard_stats (pe_hub env) wg));
  mret (match r with Ok l => l | Err _ => [] end).

Definition handle_wireguard_peers_list (rq : sb_http_req) : http sb_http_resp :=
  json_aware
    (stats ← current_stats;
     peers ← on_store (sb_store_list_wireguard_peers store_env);
     result ← listed_peers stats peers;
     mret (plain (SBJ_ARRAY result))).

Definition random_bytes (n : nat) : http (option bytes) := ask (fun k => pe_random env k n).

Definition handle_wireguard_peers_create (rq : sb_http_req) : http sb_http_resp :=
  json_aware
    (body ← pure (sb_req_json_object rq);
     let body := Some body in
     runtime ← on_hub (sb_wireguard_runtime_options (pe_hub env) wg);
     random ← on_hub (random_key (pe_hub env));
     keys ← pure (sb_wireguard_generate_keypair (hub_keys (pe_hub env)) random);
     name ← pure (sb_json_required_string body "name");
     random ← on_hub (random_key (pe_hub env));
     preshared ← pure (sb_wireguard_generate_preshared_key (hub_keys (pe_hub env)) random);
     address ← match sbj_get body "address" with
               | Some (SBJ_STRING s) => mret (cstr s)
               | _ => on_store (sb_store_next_wireguard_address store_env (Some (wo_address runtime)))
               end;
     dns ← pure (json_value_string body "dns" (wo_dns runtime));
     keepalive ← pure (number_or json_get_i32 (sbj_get body "persistent_keepalive") 25);
     allowed ← pure (json_value_string body "allowed_ips" (bs "0.0.0.0/0, ::/0"));
     quota ← pure (number_or json_get_i32 (sbj_get body "quota_bytes") 0);
     let peer := mk_peer [] (sb_http_trim_n name) (kp_private keys) (kp_public keys) (Some preshared) address (cstr dns) true keepalive
                   (cstr allowed) (string_or body "expire_at" (fun s => Some (cstr s)) None) quota [] []
                   (string_or body "notes" Some None) None in
     created ← on_store (sb_store_create_wireguard_peer store_env peer);
     _ ← sb_http_sync_wireguard_best_effort;
     mret (plain (sb_wireguard_peer_to_json created))).

Definition handle_wireguard_peer_get (rq : sb_http_req) : http sb_http_resp :=
  json_aware (peer ← require_peer (param rq); mret (plain (sb_wireguard_peer_to_json peer))).

(** The peer with the members that the body has. *)
Definition changed_peer (body : option sbj) (p : sb_wireguard_peer) : result sb_wireguard_peer :=
  name ← sb_json_assign_string_n body "name" (wp_name p) id;
  dns ← sb_json_assign_string body "dns" (wp_dns p) id;
  enabled ← sb_json_assign_bool body "enabled" (wp_enabled p);
  allowed ← sb_json_assign_string body "allowed_ips" (wp_allowed p) id;
  keepalive ← number_or json_get_i32 (present body "persistent_keepalive") (wp_keepalive p);
  quota ← number_or json_get_i64 (present body "quota_bytes") (wp_quota p);
  Ok (mk_peer (wp_id p) name (wp_private p) (wp_public p) (wp_preshared p) (wp_address p) dns enabled keepalive allowed
        (string_or body "expire_at" (fun s => Some (cstr s)) (wp_expire p)) quota (wp_created p) (wp_updated p)
        (string_or body "notes" Some (wp_notes p)) (wp_host p)).

Definition handle_wireguard_peer_update (rq : sb_http_req) : http sb_http_resp :=
  json_aware
    (peer ← require_peer (param rq);
     body ← pure (sb_req_json_object rq);
     peer ← pure (changed_peer (Some body) peer);
     updated ← on_store (sb_store_update_wireguard_peer store_env peer);
     _ ← sb_http_sync_wireguard_best_effort;
     mret (plain (sb_wireguard_peer_to_json updated))).

Definition handle_wireguard_peer_delete (rq : sb_http_req) : http sb_http_resp :=
  json_aware
    (peer ← require_peer (param rq);
     _ ← on_hub (sb_wireguard_remove_peer (pe_hub env) wg (wp_public peer));
     _ ← on_store (sb_store_delete_wireguard_peer store_env (Some (param rq)));
     mret respond_success).

Definition set_peer_enabled (enabled : bool) (rq : sb_http_req) : http sb_http_resp :=
  json_aware
    (_ ← on_store (sb_store_set_wireguard_peer_enabled store_env (Some (param rq)) enabled);
     _ ← sb_http_sync_wireguard_best_effort;
     mret respond_success).
Definition handle_wireguard_peer_enable : sb_http_req -> http sb_http_resp := set_peer_enabled true.
Definition handle_wireguard_peer_disable : sb_http_req -> http sb_http_resp := set_peer_enabled false.

Definition handle_wireguard_peer_config (rq : sb_http_req) : http sb_http_resp :=
  json_aware
    (peer ← require_peer (param rq);
     config ← on_hub (sb_wireguard_client_config_n (pe_hub env) wg (Some peer));
     mret (sb_resp_attachment (wp_name peer) ".conf" (sb_resp_text 200 (bs "application/octet-stream") (Some config) resp_init))).

Definition handle_wireguard_peer_qr (rq : sb_http_req) : http sb_http_resp :=
  json_aware
    (peer ← require_peer (param rq);
     svg ← on_hub (sb_wireguard_qr_svg (pe_hub env) wg (Some peer));
     mret (sb_resp_text 200 (bs "image/svg+xml") (Some (cstr svg)) resp_init)).

Definition handle_wireguard_peer_one_time_link (rq : sb_http_req) : http sb_http_resp :=
  json_aware
    (_ ← require_peer (param rq);
     random ← random_bytes 16;
     match sb_http_secure_token random with
     | None => fail SB_ERR_GENERIC "secure token generation failed"
     | Some token =>
         now ← ask (pe_time env);
         let expires := utc_after_minutes now 5 in
         _ ← on_store (sb_store_create_one_time_link store_env (Some token) (Some (param rq)) (Some expires));
         let url := bs "https://" ++ cstr (so_hostname (hs_opts srv)) ++ bs "/api/one-time/" ++ token in
         mret (plain (sbj_set_str (sbj_set (SBJ_OBJECT []) "url" (SBJ_STRING url)) "expires_at" expires))
     end).

Definition handle_wireguard_stats (rq : sb_http_req) : http sb_http_resp :=
  stats ← current_stats;
  mret (plain (sbj_set (SBJ_OBJECT []) "peers" (sb_wireguard_peer_stats_vec_to_json stats))).

Definition handle_wireguard_sync (rq : sb_http_req) : http sb_http_resp :=
  json_aware (_ ← on_hub (sb_wireguard_sync (pe_hub env) wg); mret respond_success).

(** ** Configurations *)

(** The controller of the panel in place of the one of the profile. *)
Definition with_controller (request : sb_render_request) : sb_render_request :=
  mk_request (rq_mode request) (rq_profile request) (rq_nodes request) (rq_host_context request) (rq_external_route_tags request)
    (rq_priority_route_rules request) (rq_network_outbounds request) (rq_control_plane_server request) (rq_rule_script request)
    (sb_http_clash_controller_address (Some (so_clash_url (hs_opts srv)))) (cstr (so_clash_secret (hs_opts srv))).

Definition handle_config_full (rq : sb_http_req) : http sb_http_resp :=
  json_aware
    (request ← on_store (sb_store_render_request_for_host store_env (Some (bs "self")));
     config ← pure (sb_config_renderer_render (pe_js env) sb_script_limits_default (pton4 store_env) (pton6 store_env)
                      (with_controller request));
     mret (plain config)).

Definition handle_config_outbounds (rq : sb_http_req) : http sb_http_resp :=
  json_aware
    (records ← on_store (sb_store_list_proxy_nodes store_env);
     outbounds ← pure (sb_config_generate_outbounds (renderer_node <$> records));
     mret (plain outbounds)).

Definition handle_config_outbound (rq : sb_http_req) : http sb_http_resp :=
  json_aware
    (record ← sb_http_require_proxy (param rq);
     outbound ← pure (sb_config_generate_outbound (renderer_node record));
     mret (plain outbound)).
End Admin.
