(* ===== verification/HttpProxy.v ===== *)
(** * Proxies, subscriptions and the Clash API over HTTP ([c/src/http_routes_proxy.c])

    The handlers of the proxy nodes, of the subscriptions, and those that pass a
    request on to the Clash API of a device.  The server has the options of
    [sb_clash_client_new(NULL)] and [sb_subscription_fetcher_new(NULL)].  The eight
    measurements of a batch run in threads of their own: here one after the other,
    each with answers of its own.

    Theorems: a user who is not an administrator reaches no Clash API but that of a
    device that is theirs ([clash_requests_scoped]); a name in a path to a Clash API
    stays one segment of it ([clash_name_one_segment]). *)

From S2P Require Import Prelude Util Json JsonText Types Auth Sqlite SqliteProofs AuthSecurity AuthPolicy ProxyUri ProxyImport StoreTables StoreHosts StoreNodes WgHub HttpText HttpClient Subscriptions HttpWire HttpPanel HttpSecurity HttpServer HttpSurface HttpAdmin.

(** ** Values of requests *)

Definition default_delay_url : bytes := bs "https://www.gstatic.com/generate_204".

Definition success_body : sbj := sbj_set_bool (SBJ_OBJECT []) "success" true.

Definition trimmed_query_param (rq : sb_http_req) (name : string) : bytes := sb_http_trim (Some (default [] (sb_req_query_param rq name))).
Definition query_param_or_empty (rq : sb_http_req) (name : string) : bytes := default [] (sb_req_query_param rq name).

Definition parser_failure (e : sb_err) : sb_err :=
  if bytes_eqb (take 16 (err_msg e)) (bs "[json.exception.") then mk_err SB_ERR_BAD_JSON (err_msg e) else e.

(** An integer of a request; one beyond [INT64_MAX] counts as negative. *)
Definition integer_or_negative (found : sbj) : Z := match found with SBJ_INT i => i | _ => -1 end.

Definition required_port (body : option sbj) (field : string) : result Z :=
  match sbj_get body field with
  | Some ((SBJ_INT _ | SBJ_UINT _) as found) =>
      let value := integer_or_negative found in
      if (value <=? 0) || (65535 <? value) then invalid field " must be between 1 and 65535" else Ok value
  | _ => invalid field " must be an integer"
  end.

Definition enabled_or_true (body : option sbj) : result bool :=
  match sbj_get body "enabled" with
  | None => Ok true
  | Some (SBJ_BOOL b) => Ok b
  | Some v => type_error_302 "boolean" v
  end.

Definition proxy_from_create_request (body : option sbj) : result sb_proxy_record :=
  let node := sb_proxy_record_init in
  tag ← sb_json_required_string body "tag";
  node_type ← sb_json_required_string body "node_type";
  enabled ← enabled_or_true body;
  server ← sb_json_required_string body "server";
  port ← required_port body "server_port";
  config ← sb_json_required_object body "protocol_config";
  Ok (mk_record (rc_id node) tag node_type enabled server port (Some (sbj_clone config)) (rc_sub node) (rc_source node)
        (rc_fingerprint node) (rc_latency node) (rc_latency_test node) (rc_created node) (rc_updated node)).

(** A member that is there and not null replaces the value. *)
Definition replaced {A} (body : option sbj) (field : string) (keep : A) (read : sbj -> result A) : result A :=
  match present body field with Some v => read v | None => Ok keep end.

Definition read_enabled (v : sbj) : result bool :=
  match v with SBJ_BOOL b => Ok b | _ => invalid "enabled" " must be a boolean" end.

Definition proxy_from_update_request (body : option sbj) (node : sb_proxy_record) : result sb_proxy_record :=
  tag ← replaced body "tag" (rc_tag node) (fun _ => sb_json_required_string body "tag");
  server ← replaced body "server" (rc_server node) (fun _ => sb_json_required_string body "server");
  port ← replaced body "server_port" (rc_port node) (fun _ => required_port body "server_port");
  config ← replaced body "protocol_config" (rc_config node)
    (fun v => match v with SBJ_OBJECT m => Ok (Some (sbj_clone (SBJ_OBJECT m))) | _ => invalid "protocol_config" " must be a JSON object" end);
  enabled ← replaced body "enabled" (rc_enabled node) read_enabled;
  Ok (mk_record (rc_id node) tag (rc_type node) enabled server port config (rc_sub node) (rc_source node) (rc_fingerprint node)
        (rc_latency node) (rc_latency_test node) (rc_created node) (rc_updated node)).

(** The host of a URL, without credentials, port or brackets. *)
Definition default_subscription_name (url : bytes) : bytes :=
  let rest := match cut_text (bs "://") url with Some (_, r) => r | None => url end in
  let authority := fst (span_until (fun c => code c =? 47) rest) in
  let host := default authority (after_last 64 authority) in
  let name :=
    match host with
    | c :: inside =>
        if code c =? 91 then match split_at (chr 93) inside with Some (x, _) => x | None => host end
        else match split_at (chr 58) (reverse host) with Some (_, before) => reverse before | None => host end
    | [] => []
    end in
  match name with [] => bs "Subscription" | _ => name end.

Definition refresh_interval (body : option sbj) (fallback : Z) : result Z :=
  match present body "refresh_interval" with
  | None => Ok fallback
  | Some ((SBJ_INT _ | SBJ_UINT _) as found) =>
      if integer_or_negative found <=? 0 then invalid "refresh_interval" " must be positive" else Ok (integer_or_negative found)
  | Some _ => invalid "refresh_interval" " must be an integer"
  end.

Definition with_request (sub : sb_subscription) (name url : bytes) (enabled : bool) (interval : Z) : sb_subscription :=
  mk_subscription (sb_id sub) name url enabled interval (sb_fetched sub) (sb_result sub) (sb_usage sub) (sb_attempt sub) (StoreTables.sb_error sub)
    (sb_next sub) (sb_failures sub) (sb_created sub) (sb_updated sub).

Definition subscription_from_create_request (body : option sbj) : result sb_subscription :=
  url ← sb_json_required_string body "url";
  match sbj_get body "name" with
  | Some (SBJ_STRING s) =>
      let name := match sb_http_trim_n s with [] => default_subscription_name url | n => n end in
      interval ← refresh_interval body 3600;
      Ok (with_request sb_subscription_init name url true interval)
  | _ => invalid "name" " must be a string"
  end.

Definition subscription_from_update_request (body : option sbj) (sub : sb_subscription) : result sb_subscription :=
  name ← replaced body "name" (sb_name sub) (fun _ => name ← sb_json_required_string body "name"; Ok (sb_http_trim_n name));
  url ← replaced body "url" (sb_url sub) (fun _ => sb_json_required_string body "url");
  enabled ← replaced body "enabled" (sb_enabled sub) read_enabled;
  interval ← refresh_interval body (sb_interval sub);
  Ok (with_request sub name url enabled interval).

Definition strvec_json (values : list bytes) : sbj := SBJ_ARRAY (fmap (fun v => SBJ_STRING (cstr v)) values).

Definition queued (host_id : bytes) : sb_http_resp :=
  plain (sbj_set_str (sbj_set_bool (SBJ_OBJECT []) "queued" true) "host" host_id).

(** A named device other than the panel's own. *)
Definition is_remote (host_id : bytes) : bool := negb (bytes_eqb host_id []) && negb (bytes_eqb host_id (bs "self")).

Definition import_json (parsed : sb_proxy_import) (result : sb_proxy_upsert_result) : sbj :=
  let out := SBJ_OBJECT [] in
  let out := sbj_set out "found" (sbj_uint (Z.of_nat (length (imp_nodes parsed)))) in
  let out := sbj_set out "added" (sbj_uint (up_added result)) in
  let out := sbj_set out "updated" (sbj_uint (up_updated result)) in
  let out := sbj_set out "skipped" (strvec_json (imp_skipped parsed)) in
  sbj_set out "errors" (strvec_json (up_errors result)).

Definition latency_json (latency : option double) : sbj := match latency with Some d => SBJ_FLOAT d | None => SBJ_NULL end.

Inductive clash_method : Type := CLASH_GET | CLASH_PUT | CLASH_DELETE.

(** [resolve_clash_target]: a base URL, empty when there is none, and a secret. *)
Record clash_target := mk_target { tg_base : bytes; tg_secret : bytes }.

Definition target_of (t : clash_target) : sb_clash_target := mk_clash_target (Some (tg_base t)) (Some (tg_secret t)).

Definition delay_path (kind : string) (name url timeout : bytes) : bytes :=
  bs "/" ++ bs kind ++ bs "/" ++ sb_http_encode_component_n name ++ bs "/delay?url=" ++ sb_http_encode_component (Some url) ++
  bs "&timeout=" ++ sb_http_encode_component (Some timeout).

Definition named_path (prefix : string) (name : bytes) : bytes := bs prefix ++ sb_http_encode_component (Some name).

Section Proxy.
Context {K : Type} (env : panel_env K) (net : service_env) (srv : sb_http_server).

Abbreviation http := (http K).
Let store_env : store_env := hub_store (pe_hub env).

(** The service works on the database of the panel. *)
Definition panel_service : service_env :=
  mk_service_env store_env (sv_client net) sb_subscription_fetcher_options_init (sv_time net) (sv_busy net) (sv_stopping net)
    (sv_decode net) (sv_yaml net).

(** ** The Clash API *)

Definition local_target : clash_target :=
  mk_target (sb_http_trim_trailing_slashes (Some (so_clash_url (hs_opts srv)))) (cstr (so_clash_secret (hs_opts srv))).

Definition host_target (host : option sb_host) : option clash_target :=
  match host with
  | Some h =>
      match ho_clash_api h with
      | Some api =>
          match sb_http_trim_trailing_slashes (Some api) with
          | [] => None
          | url => Some (mk_target url (cstr (default [] (ho_clash_secret h))))
          end
      | None => None
      end
  | None => None
  end.

Definition resolve_clash_target (rq : sb_http_req) : http clash_target :=
  let host_id := trimmed_query_param rq "host" in
  if is_remote host_id then
    found ← on_store (sb_store_find_host store_env (Some host_id));
    match host_target found, rq_claims rq with
    | Some t, _ => mret t
    | None, Some c => if is_admin_role c then mret local_target else fail SB_ERR_UNAVAILABLE "Selected device has no Clash API configured"
    | None, None => mret local_target
    end
  else mret local_target.

Definition no_clash_url {A} : result A := sb_fail SB_ERR_UNAVAILABLE (bs "No sing-box Clash API URL is configured").

Definition clash_call (target : clash_target) (method : clash_method) (path : bytes) (body : option sbj) : http sb_clash_response :=
  let o := sb_clash_client_options_init in
  match method with
  | CLASH_PUT => sb_clash_put (sv_client net) o (target_of target) path body
  | CLASH_DELETE => sb_clash_remove (sv_client net) o (target_of target) path
  | CLASH_GET => sb_clash_get (sv_client net) o (target_of target) path
  end.

Definition request_clash (target : clash_target) (method : clash_method) (path : bytes) (body : option sbj) : http sb_clash_response :=
  match tg_base target with
  | [] => pure no_clash_url
  | base =>
      r ← attempt (clash_call target method path body);
      pure (match r with
            | Err e =>
                match err_code e with
                | SB_ERR_UPSTREAM => sb_fail SB_ERR_UNAVAILABLE (bs "Could not reach sing-box Clash API (" ++ base ++ bs "): " ++ err_msg e)
                | _ => Err e
                end
            | Ok out =>
                if cx_status out =? 401
                then sb_fail SB_ERR_UNAVAILABLE (bs "sing-box Clash API authentication failed for " ++ base ++ bs "; check the configured secret")
                else Ok out
            end)
  end.

Definition clash_passthrough (rq : sb_http_req) (method : clash_method) (path : bytes) : http sb_http_resp :=
  target ← resolve_clash_target rq;
  response ← request_clash target method path None;
  mret (plain (cx_body response)).

(** No measurement on any failure. *)
Definition test_proxy_latency (target : clash_target) (tag : bytes) : http (option double) :=
  match tg_base target with
  | [] => mret None
  | _ =>
      r ← attempt (clash_call target CLASH_GET (delay_path "proxies" tag default_delay_url (bs "5000")) None);
      mret (match r with
            | Ok response =>
                if (200 <=? cx_status response) && (cx_status response <? 300) then
                  let delay := sbj_get (Some (cx_body response)) "delay" in
                  if sbj_is_number delay then Some (sbj_as_double delay (double_of_Z 0)) else None
                else None
            | Err _ => None
            end)
  end.

Definition h_clash_proxies (rq : sb_http_req) : http sb_http_resp := clash_passthrough rq CLASH_GET (bs "/proxies").
Definition h_clash_proxy_get (rq : sb_http_req) : http sb_http_resp := clash_passthrough rq CLASH_GET (named_path "/proxies/" (param rq)).

Definition h_clash_proxy_put (rq : sb_http_req) : http sb_http_resp :=
  target ← resolve_clash_target rq;
  match tg_base target with
  | [] => pure no_clash_url
  | _ =>
      body ← pure (sb_req_json_object rq);
      response ← request_clash target CLASH_PUT (named_path "/proxies/" (param rq)) (Some body);
      if (cx_status response <? 200) || (300 <=? cx_status response)
      then pure (sb_fail SB_ERR_VALIDATION (bs "sing-box returned HTTP " ++ fmt_int (cx_status response)))
      else mret (plain success_body)
  end.

Definition clash_delay (rq : sb_http_req) (kind : string) : http sb_http_resp :=
  target ← resolve_clash_target rq;
  let or_else v d := match v with [] => d | _ => v end in
  let url := or_else (query_param_or_empty rq "url") default_delay_url in
  let timeout := or_else (query_param_or_empty rq "timeout") (bs "5000") in
  response ← request_clash target CLASH_GET (delay_path kind (cstr (param rq)) url timeout) None;
  mret (plain (cx_body response)).

Definition h_clash_proxy_delay (rq : sb_http_req) : http sb_http_resp := clash_delay rq "proxies".
Definition h_clash_group_delay (rq : sb_http_req) : http sb_http_resp := clash_delay rq "group".
Definition h_clash_rules (rq : sb_http_req) : http sb_http_resp := clash_passthrough rq CLASH_GET (bs "/rules").
Definition h_clash_connections (rq : sb_http_req) : http sb_http_resp := clash_passthrough rq CLASH_GET (bs "/connections").
Definition h_clash_version (rq : sb_http_req) : http sb_http_resp := clash_passthrough rq CLASH_GET (bs "/version").
Definition h_clash_close_connections (rq : sb_http_req) : http sb_http_resp := clash_passthrough rq CLASH_DELETE (bs "/connections").
Definition h_clash_close_connection (rq : sb_http_req) : http sb_http_resp :=
  clash_passthrough rq CLASH_DELETE (named_path "/connections/" (param rq)).

(** ** Nodes *)

Definition enqueue_remote_test (host_id command : bytes) : http unit :=
  _ ← sb_http_require_host env host_id;
  _ ← on_store (sb_store_enqueue_host_command store_env (Some host_id) (Some command));
  mret tt.

Definition h_nodes_list (rq : sb_http_req) : http sb_http_resp :=
  nodes ← on_store (sb_store_list_proxy_nodes store_env);
  mret (plain (json_list sb_proxy_record_to_json nodes)).

Definition h_nodes_create (rq : sb_http_req) : http sb_http_resp :=
  body ← pure (sb_req_json_object rq);
  node ← pure (proxy_from_create_request (Some body));
  created ← on_store (sb_store_create_proxy_node store_env node);
  mret (plain (sb_proxy_record_to_json created)).

(** The configuration of a profile, or one that was pasted. *)
Definition import_config (body : sbj) : http sbj :=
  match sbj_get (Some body) "profile_id", sbj_get (Some body) "config" with
  | Some (SBJ_STRING ((_ :: _) as id)), _ =>
      profile ← sb_http_require_profile env (cstr id);
      match cf_profile profile with Some config => mret config | None => pure (Err (mk_err SB_OK [])) end
  | _, Some (SBJ_STRING raw) =>
      match sbj_parse raw with Some v => mret v | None => fail SB_ERR_VALIDATION "Pasted config is not valid JSON" end
  | _, _ => fail SB_ERR_VALIDATION "Provide either profile_id or config"
  end.

Definition h_nodes_import (rq : sb_http_req) : http sb_http_resp :=
  body ← pure (sb_req_json_object rq);
  config ← import_config body;
  parsed ← pure (match sb_parse_outbound_config (Some config) with Ok p => Ok p | Err e => Err (parser_failure e) end);
  result ← on_store (sb_store_upsert_proxy_nodes store_env (imp_nodes parsed) None);
  mret (plain (import_json parsed result)).

(** The measurements of a batch, then what is stored of them, in order. *)
Fixpoint measure (target : clash_target) (nodes : list sb_proxy_record) : http (list (sb_proxy_record * option double)) :=
  match nodes with
  | [] => mret []
  | n :: nodes' => latency ← test_proxy_latency target (rc_tag n); rest ← measure target nodes'; mret ((n, latency) :: rest)
  end.

Fixpoint record_latencies (jobs : list (sb_proxy_record * option double)) (results : sbj) : http sbj :=
  match jobs with
  | [] => mret results
  | (n, latency) :: jobs' =>
      _ ← on_store (sb_store_update_proxy_latency store_env (Some (rc_id n)) latency);
      record_latencies jobs' (sbj_setn results (rc_tag n) (Some (latency_json latency)))
  end.

Definition concurrency : nat := 8.

(** [fuel] is at least the number of nodes. *)
Fixpoint test_batches (fuel : nat) (target : clash_target) (nodes : list sb_proxy_record) (results : sbj) : http sbj :=
  match fuel, nodes with
  | S fuel', _ :: _ =>
      jobs ← measure target (take concurrency nodes);
      results ← record_latencies jobs results;
      test_batches fuel' target (drop concurrency nodes) results
  | _, _ => mret results
  end.

Definition h_nodes_test_all (rq : sb_http_req) : http sb_http_resp :=
  let host_id := trimmed_query_param rq "host" in
  if is_remote host_id then _ ← enqueue_remote_test host_id (bs "test-proxies"); mret (queued host_id)
  else
    target ← resolve_clash_target rq;
    all ← on_store (sb_store_list_proxy_nodes store_env);
    let nodes := List.filter rc_enabled all in
    results ← test_batches (length nodes) target nodes (SBJ_OBJECT []);
    now ← ask (pe_time env);
    let body := sbj_set (SBJ_OBJECT []) "tested" (sbj_uint (Z.of_nat (length nodes))) in
    let body := sbj_set body "results" results in
    mret (plain (sbj_set_str body "tested_at" (sb_http_utc_now now))).

Definition h_node_test_latency (rq : sb_http_req) : http sb_http_resp :=
  node ← sb_http_require_proxy env (param rq);
  let host_id := trimmed_query_param rq "host" in
  if is_remote host_id then
    _ ← enqueue_remote_test host_id (bs "test-proxies " ++ sbj_dump (Some (SBJ_ARRAY [SBJ_STRING (cstr (rc_tag node))])) (-1));
    mret (queued host_id)
  else
    target ← resolve_clash_target rq;
    latency ← test_proxy_latency target (rc_tag node);
    _ ← on_store (sb_store_update_proxy_latency store_env (Some (rc_id node)) latency);
    now ← ask (pe_time env);
    let body := sbj_set_str (SBJ_OBJECT []) "node_id" (rc_id node) in
    let body := sbj_set body "latency" (latency_json latency) in
    mret (plain (sbj_set_str body "tested_at" (sb_http_utc_now now))).

Definition h_node_get (rq : sb_http_req) : http sb_http_resp :=
  node ← sb_http_require_proxy env (param rq);
  mret (plain (sb_proxy_record_to_json node)).

Definition h_node_update (rq : sb_http_req) : http sb_http_resp :=
  node ← sb_http_require_proxy env (param rq);
  body ← pure (sb_req_json_object rq);
  node ← pure (proxy_from_update_request (Some body) node);
  updated ← on_store (sb_store_update_proxy_node store_env node);
  mret (plain (sb_proxy_record_to_json updated)).

Definition h_node_delete (rq : sb_http_req) : http sb_http_resp :=
  _ ← on_store (sb_store_delete_proxy_node store_env (Some (param rq)));
  mret (plain success_body).

(** ** Subscriptions *)

Definition require_subscription (id : bytes) : http sb_subscription :=
  required "Subscription not found" (sb_store_find_subscription store_env (Some id)).

(** A manual refresh is never skipped: it always has a result or an error. *)
Definition fetch_subscription (sub : sb_subscription) : http sb_subscription_fetch_result :=
  r ← json_aware (on_store (sb_subscription_service_fetch panel_service (sb_id sub)));
  match r with Some r => mret r | None => pure (Err (mk_err SB_OK [])) end.

Definition h_subscriptions_list (rq : sb_http_req) : http sb_http_resp :=
  subs ← on_store (sb_store_list_subscriptions store_env);
  mret (plain (json_list
    (fun s => sbj_set_bool (sb_subscription_to_json s) "background_refresh_enabled" (so_auto_refresh (hs_opts srv))) subs)).

Definition h_subscriptions_create (rq : sb_http_req) : http sb_http_resp :=
  body ← pure (sb_req_json_object rq);
  sub ← pure (subscription_from_create_request (Some body));
  created ← on_store (sb_store_create_subscription store_env sub);
  mret (plain (sb_subscription_to_json created)).

Definition fetched_entry (sub : sb_subscription) (r : result sb_subscription_fetch_result) : sbj :=
  let entry := sbj_set_str (SBJ_OBJECT []) "id" (sb_id sub) in
  let entry := sbj_set entry "name" (SBJ_STRING (sb_name sub)) in
  match r with
  | Ok r =>
      let entry := sbj_set entry "added" (sbj_uint (fe_added r)) in
      let entry := sbj_set entry "updated" (sbj_uint (fe_updated r)) in
      let entry := sbj_set entry "found" (sbj_uint (fe_found r)) in
      sbj_set entry "errors" (strvec_json (fe_errors r))
  | Err e => sbj_set_str entry "error" (err_msg e)
  end.

Fixpoint fetch_each (l : list sb_subscription) : http (list sbj) :=
  match l with
  | [] => mret []
  | sub :: l' =>
      if sb_enabled sub then r ← attempt (fetch_subscription sub); rest ← fetch_each l'; mret (fetched_entry sub r :: rest)
      else fetch_each l'
  end.

Definition h_subscriptions_fetch_all (rq : sb_http_req) : http sb_http_resp :=
  subs ← on_store (sb_store_list_subscriptions store_env);
  results ← fetch_each subs;
  mret (plain (SBJ_ARRAY results)).

Definition h_subscription_get (rq : sb_http_req) : http sb_http_resp :=
  sub ← require_subscription (param rq);
  mret (plain (sb_subscription_to_json sub)).

Definition h_subscription_update (rq : sb_http_req) : http sb_http_resp :=
  sub ← require_subscription (param rq);
  body ← pure (sb_req_json_object rq);
  sub ← pure (subscription_from_update_request (Some body) sub);
  updated ← on_store (sb_store_update_subscription store_env sub);
  mret (plain (sb_subscription_to_json updated)).

Definition h_subscription_delete (rq : sb_http_req) : http sb_http_resp :=
  _ ← on_store (sb_store_delete_subscription store_env (Some (param rq)));
  mret (plain success_body).

Definition h_subscription_fetch (rq : sb_http_req) : http sb_http_resp :=
  sub ← require_subscription (param rq);
  r ← fetch_subscription sub;
  mret (plain (sb_subscription_fetch_result_to_json r)).

(** ** The table of the routes *)

Definition proxy_handlers : list (string * (sb_http_req -> http sb_http_resp)) := [
  ("h_clash_proxies", h_clash_proxies); ("h_clash_proxy_get", h_clash_proxy_get); ("h_clash_proxy_put", h_clash_proxy_put);
  ("h_clash_proxy_delay", h_clash_proxy_delay); ("h_clash_group_delay", h_clash_group_delay); ("h_clash_rules", h_clash_rules);
  ("h_clash_connections", h_clash_connections); ("h_clash_version", h_clash_version);
  ("h_clash_close_connections", h_clash_close_connections); ("h_clash_close_connection", h_clash_close_connection);
  ("h_nodes_list", h_nodes_list); ("h_nodes_create", h_nodes_create); ("h_nodes_import", h_nodes_import);
  ("h_nodes_test_all", h_nodes_test_all); ("h_node_test_latency", h_node_test_latency); ("h_node_get", h_node_get);
  ("h_node_update", h_node_update); ("h_node_delete", h_node_delete); ("h_subscriptions_list", h_subscriptions_list);
  ("h_subscriptions_create", h_subscriptions_create); ("h_subscriptions_fetch_all", h_subscriptions_fetch_all);
  ("h_subscription_get", h_subscription_get); ("h_subscription_update", h_subscription_update);
  ("h_subscription_delete", h_subscription_delete); ("h_subscription_fetch", h_subscription_fetch)]%string.

Definition proxy_handler (name : string) : option (sb_http_req -> http sb_http_resp) :=
  snd <$> List.find (fun h => String.eqb (fst h) name) proxy_handlers.
End Proxy.

(** * Theorems *)

(** ** Where requests go *)

Lemma cut_text_app needle s a b : cut_text needle s = Some (a, b) -> s = a ++ needle ++ b.
Proof.
  revert a. induction s as [|c s IH]; intros a; cbn [cut_text].
  - case_if; [|done]. apply bytes_eqb_eq in E. intros [= <- <-]. cbn. rewrite take_nil in E. subst needle. done.
  - destruct (bytes_eqb _ _) eqn:E.
    + apply bytes_eqb_eq in E. intros [= <- <-]. cbn [app]. rewrite <- E at 1. by rewrite take_drop.
    + destruct (cut_text needle s) as [[x y]|]; [|done]. intros [= <- <-]. cbn. f_equal. by apply IH.
Qed.

(** The URL of a target without slashes at its end. *)
Definition api_base (base : bytes) : bytes := reverse (drop_slashes (reverse (cstr base))).

Lemma parse_base_url_app base origin prefix : parse_base_url (Some base) = Ok (origin, prefix) -> origin ++ prefix = api_base base.
Proof.
  unfold parse_base_url. change (default [] (Some base)) with base. fold (api_base base).
  destruct (cut_text _ (api_base base)) as [[scheme authority]|] eqn:C; [|done]. apply cut_text_app in C.
  destruct (negb _); [done|]. destruct (_ || _); [done|]. destruct (split_at (chr 47) authority) as [[a path]|] eqn:S.
  - destruct (_ || _); [done|]. intros [= <- <-]. apply split_at_slash in S as [-> _]. rewrite C, <- !app_assoc. done.
  - destruct (_ || _); [done|]. intros [= <- <-]. by rewrite app_nil_r.
Qed.

(** A transfer to the API of a target, with its secret. *)
Definition sends (t : clash_target) (o : curl_options) : Prop :=
  (exists path, cu_url o = api_base (tg_base t) ++ chr 47 :: path) /\ cu_redirects o = None /\
  forall h, h ∈ cu_headers o -> sb_starts_with h (bs "Authorization") = true -> h = bs "Authorization: Bearer " ++ cstr (tg_secret t).

Definition with_net (net : service_env) (perform : nat -> curl_options -> curl_result) : service_env :=
  mk_service_env (sv_store net) (with_perform (sv_client net) perform) (sv_fetcher net) (sv_time net) (sv_busy net) (sv_stopping net)
    (sv_decode net) (sv_yaml net).

Lemma clash_request_sends env o method t path rest body origin prefix :
  parse_base_url (Some (tg_base t)) = Ok (origin, prefix) -> cstr path = chr 47 :: rest ->
  sends t (curl_options_of (clash_http_request env o method (target_of t) (origin ++ prefix ++ cstr path) body)).
Proof.
  intros B P. apply parse_base_url_app in B. split; [|split; [done|]].
  { exists rest. cbn [cu_url curl_options_of hq_url clash_http_request]. rewrite P, <- B. by rewrite <- app_assoc. }
  cbn [cu_headers curl_options_of hq_headers hq_body clash_http_request target_of ct_secret app].
  intros h [-> |[[H|H]%elem_of_app|H]%elem_of_app]%elem_of_cons; [intros A; vm_compute in A; discriminate A|..].
  - destruct (bytes_eqb (cstr (tg_secret t)) []); [by apply elem_of_nil in H|]. by apply list_elem_of_singleton in H as ->.
  - destruct body; [|by apply elem_of_nil in H]. apply list_elem_of_singleton in H as ->. intros A. vm_compute in A. discriminate A.
  - destruct body; [|by apply elem_of_nil in H]. apply list_elem_of_singleton in H as ->. intros A. vm_compute in A. discriminate A.
Qed.

Section Scoped.
Context {K : Type} (env : panel_env K) (net : service_env) (srv : sb_http_server) (perform : nat -> curl_options -> curl_result).

Abbreviation http := (http K).
Abbreviation state := (conn panel_db (server_mem K)).

Lemma request_clash_agrees t method path rest body (s : state) :
  (forall n o, sends t o -> ce_perform (sv_client net) n o = perform n o) -> cstr path = chr 47 :: rest ->
  request_clash (with_net net perform) t method path body s = request_clash net t method path body s.
Proof.
  intros A P. unfold request_clash. destruct (tg_base t) as [|b bs] eqn:B; [done|].
  enough (forall name body, clash_request (with_perform (sv_client net) perform) sb_clash_client_options_init name (target_of t) path body s =
    clash_request (sv_client net) sb_clash_client_options_init name (target_of t) path body s) as E.
  { unfold mbind, sql_bind, attempt, clash_call, sb_clash_put, sb_clash_remove, sb_clash_get. destruct method; cbn [with_net sv_client]; by rewrite E. }
  intros name body'. unfold clash_request, mbind, sql_bind, pure. cbn [target_of ct_base_url].
  destruct (parse_base_url (Some (tg_base t))) as [[origin prefix]|e] eqn:U; [|done]. unfold attempt.
  rewrite perform_agrees; [done|]. intros n. by apply A, (clash_request_sends _ _ _ _ _ rest).
Qed.

(** The APIs that a request may be passed on to: the panel's own, for the device
    [self], or that of the device it names. *)
Definition permitted (t : store_tables) (rq : sb_http_req) (target : clash_target) : Prop :=
  let host := trimmed_query_param rq "host" in
  (host = bs "self" /\ target = local_target srv) \/
  exists row, row ∈ hosts t /\ hr_id row = host /\ host_target (Some (read_host t row)) = Some target.

Lemma no_nul_drop_spaces s : no_nul s = true -> no_nul (drop_spaces s) = true.
Proof. induction s as [|c s IH]; [done|]. cbn. destruct (isspace c); [|done]. intros [_ H]%andb_true_iff. by apply IH. Qed.

Lemma no_nul_reverse s : no_nul s = true -> no_nul (reverse s) = true.
Proof. unfold no_nul. rewrite !forallb_forall. intros H x. rewrite <- list_elem_of_In, elem_of_reverse, list_elem_of_In. apply H. Qed.

Lemma trimmed_no_nul rq name : cstr (trimmed_query_param rq name) = trimmed_query_param rq name.
Proof.
  unfold trimmed_query_param, sb_http_trim, sb_http_trim_n. apply cstr_no_nul.
  apply no_nul_reverse, no_nul_drop_spaces, no_nul_reverse, no_nul_drop_spaces, no_nul_cstr.
Qed.

Lemma resolve_permitted rq c (s : state) :
  rq_claims rq = Some c -> is_admin_role c = false -> trimmed_query_param rq "host" <> [] ->
  wp (resolve_clash_target env srv rq) (fun target _ => permitted (pd_store (db s)) rq target) (fun _ _ => True) s.
Proof.
  intros C A N. unfold resolve_clash_target. cbv zeta. destruct (is_remote (trimmed_query_param rq "host")) eqn:R.
  - apply wp_bind. unfold wp, on_store, lift, sb_store_find_host, find_host_locked, query, stmt. cbn [db mem asked].
    destruct (fault _ _); [done|]. cbv beta iota. change (default [] (Some (trimmed_query_param rq "host"))) with (trimmed_query_param rq "host").
    rewrite trimmed_no_nul. destruct (find_host_row (pd_store (db s)) (trimmed_query_param rq "host")) as [row|] eqn:F; cbn [fmap option_fmap option_map].
    + destruct (host_target (Some (read_host _ row))) as [t|] eqn:H; [|by rewrite C, A]. right. exists row.
      apply find_In in F as [F1 F2]. unfold host_is in F2. apply bytes_eqb_eq in F2. by repeat split.
    + by rewrite C, A.
  - apply wp_ret. left. split; [|done]. unfold is_remote in R. apply andb_false_iff in R as [R|R].
    + apply negb_false_iff, bytes_eqb_eq in R. done.
    + by apply negb_false_iff, bytes_eqb_eq in R.
Qed.

Section Device.
Context (rq : sb_http_req) (s : state).
Context (agree : forall n o target, permitted (pd_store (db s)) rq target -> sends target o -> ce_perform (sv_client net) n o = perform n o).
Context (resolves : wp (resolve_clash_target env srv rq) (fun target _ => permitted (pd_store (db s)) rq target) (fun _ _ => True) s).

Lemma passthrough_agrees method path rest :
  cstr path = chr 47 :: rest -> clash_passthrough env (with_net net perform) srv rq method path s = clash_passthrough env net srv rq method path s.
Proof.
  intros P. unfold clash_passthrough, mbind, sql_bind. unfold wp in resolves. destruct (resolve_clash_target env srv rq s) as [[t|e] s1]; [|done].
  rewrite (request_clash_agrees _ _ _ rest); [done| |done]. intros n o. by apply agree.
Qed.

Lemma delay_agrees kind : clash_delay env (with_net net perform) srv rq kind s = clash_delay env net srv rq kind s.
Proof.
  unfold clash_delay, mbind, sql_bind. unfold wp in resolves. destruct (resolve_clash_target env srv rq s) as [[t|e] s1]; [|done].
  erewrite request_clash_agrees; [done| |reflexivity]. intros n o. by apply agree.
Qed.

Lemma put_agrees : h_clash_proxy_put env (with_net net perform) srv rq s = h_clash_proxy_put env net srv rq s.
Proof.
  unfold h_clash_proxy_put, mbind, sql_bind. unfold wp in resolves. destruct (resolve_clash_target env srv rq s) as [[t|e] s1]; [|done].
  destruct (tg_base t); [done|]. unfold pure at 1 3. destruct (sb_req_json_object rq); [|done].
  erewrite request_clash_agrees; [done| |reflexivity]. intros n o. by apply agree.
Qed.
End Device.

(** A guarded request for a Clash API of a user who is no administrator names a
    device of the user's scope. *)
Lemma guarded_clash name rq c (s : state) :
  guarded env s name rq -> (rq_method rq, name) ∈ clash_handlers -> rq_claims rq = Some c -> is_admin_role c = false ->
  exists token, has_session env token c (security_view (db s)) /\
    allowed_device (security_view (db s)) c (trimmed_query_param rq "host") (negb (is_read (rq_method rq))).
Proof.
  assert (forallb (fun mh => negb (bool_decide (mh ∈ public_handlers)) && negb (bool_decide (mh ∈ own_handlers)) &&
    negb (bool_decide (mh ∈ device_handlers)) && negb (bool_decide (mh = (M_GET, "handle_list_hosts"%string)))) clash_handlers = true) as D by (vm_compute; reflexivity).
  intros G M C A. rewrite forallb_forall in D. specialize (D _ (proj1 (list_elem_of_In _ _) M)).
  apply andb_true_iff in D as [D L]. apply andb_true_iff in D as [D V]. apply andb_true_iff in D as [P O].
  apply negb_true_iff, bool_decide_eq_false in P, O, V, L. destruct G as [[_ G]|(token & c' & C' & S & G)]; [by destruct P|].
  rewrite C in C'. injection C' as <-. exists token. split; [done|]. destruct G as [G|[G|[_ [G|(host & Al & [[G _]|[_ H]])]]]]; [congruence|by destruct O|by destruct L|by destruct V|].
  assert (trimmed_query_param rq "host" = host) as ->; [|done]. rewrite <- H. unfold trimmed_query_param. by destruct (sb_req_query_param rq "host").
Qed.

(** C18: a user who is not an administrator reaches no Clash API but that of a device
    of the user's scope.  For a request that passed the checks of the server, the
    device it names is allowed to the user, and what the handler does depends on
    libcurl only for transfers to the API of that device: its URL, followed by a
    path, with the secret of that device and no other, and no redirects (for the
    panel's own device, the API of the options).  Devices must not have empty
    identifiers. *)
Theorem clash_requests_scoped name rq c (s : state) :
  guarded env s name rq -> (rq_method rq, name) ∈ clash_handlers -> rq_claims rq = Some c -> is_admin_role c = false ->
  [] ∉ host_ids (pd_store (db s)) ->
  (forall n o target, permitted (pd_store (db s)) rq target -> sends target o -> ce_perform (sv_client net) n o = perform n o) ->
  allowed_device (security_view (db s)) c (trimmed_query_param rq "host") (negb (is_read (rq_method rq))) /\
  exists h h', proxy_handler env net srv name = Some h /\ proxy_handler env (with_net net perform) srv name = Some h' /\ h' rq s = h rq s.
Proof.
  intros G M C A E Ag. destruct (guarded_clash _ _ _ _ G M C A) as (token & S & Al). split; [done|].
  assert (trimmed_query_param rq "host" <> []) as N.
  { intros Q. apply E. rewrite <- Q. exact (allowed_known _ _ _ _ _ _ S A Al). }
  pose proof (resolve_permitted rq c s C A N) as R. apply list_elem_of_In in M. clear G E.
  pose proof (fun m p r (H : cstr p = chr 47 :: r) => passthrough_agrees rq s Ag R m p r H) as Pass.
  destruct M as [M|[M|[M|[M|[M|[M|[M|[M|[M|[M|[]]]]]]]]]]]; injection M as _ <-; (eexists _, _; split; [reflexivity|]; split; [reflexivity|]).
  - refine (Pass CLASH_GET (bs "/proxies") _ _). reflexivity.
  - exact (put_agrees rq s Ag R).
  - refine (Pass CLASH_GET (named_path "/proxies/" (param rq)) _ _). reflexivity.
  - exact (delay_agrees rq s Ag R _).
  - exact (delay_agrees rq s Ag R _).
  - refine (Pass CLASH_GET (bs "/rules") _ _). reflexivity.
  - refine (Pass CLASH_DELETE (bs "/connections") _ _). reflexivity.
  - refine (Pass CLASH_GET (bs "/connections") _ _). reflexivity.
  - refine (Pass CLASH_GET (bs "/version") _ _). reflexivity.
  - refine (Pass CLASH_DELETE (named_path "/connections/" (param rq)) _ _). reflexivity.
Qed.
End Scoped.

(** A name in the path of a request to a Clash API stays one segment of the path. *)
Lemma clash_name_one_segment (name : bytes) :
  Forall (fun c => code c <> 47 /\ code c <> 63 /\ code c <> 35 /\ code c <> 0) (sb_http_encode_component_n name) /\
  drogon_url_decode (sb_http_encode_component_n name) = name.
Proof.
  split; [|apply drogon_decode_component]. apply Forall_bind, Forall_true. intros c.
  assert (forallb (fun c => forallb (fun x => negb (code x =? 47) && negb (code x =? 63) && negb (code x =? 35) && negb (code x =? 0))
    (sb_http_encode_component_n [c])) all_bytes = true) as F by (vm_compute; reflexivity).
  pose proof (byte_forallb _ F c) as B. unfold sb_http_encode_component_n in B. rewrite bind_cons, app_nil_r in B. rewrite forallb_forall in B.
  apply Forall_forall. intros x Hx. specialize (B x (proj1 (list_elem_of_In _ _) Hx)). lia.
Qed.
