(* ===== verification/HttpHosts.v ===== *)
(** * Devices over HTTP ([c/src/http_routes_hosts.c])

    Profiles, devices and their commands, what is rendered for a device, enrolment,
    and what the agent on a device asks for and reports.  A handler gives the
    response or an error; [json_aware] is how the handlers end.

    Theorems: the search for a free tag ends, and with a tag that is not used
    ([network_tag_free]); the captures that are taken are exactly the well-formed
    files of packets ([captures_well_formed]); the configuration that users who are
    not administrators see holds no key of the Tailscale network
    ([shown_config_has_no_key]). *)

From S2P Require Import Prelude Util Json JsonText Types Script Renderer Auth Sqlite AuthSecurity AuthPolicy ProxyClock ProxyTables ProxyUsers Tailscale System StoreTables StoreAccounts StoreHosts StoreNodes WgText WgHub Observability HttpText HttpTelemetry HttpWire HttpPanel HttpSecurity HttpAdmin.

(** ** Values of JSON bodies *)

Definition type_error_306 {A} (v : option sbj) : result A :=
  sb_fail SB_ERR_BAD_JSON (bs "[json.exception.type_error.306] cannot use value() with " ++ sbj_type_name v).

Definition json_value_bool (object : option sbj) (key : string) (fallback : bool) : result bool :=
  if negb (sbj_is_object object) then type_error_306 object
  else
    match sbj_get object key with
    | None => Ok fallback
    | Some (SBJ_BOOL b) => Ok b
    | Some v => type_error_302 "boolean" v
    end.

(** The member, and its text: that of the member up to a NUL, or [fallback]. *)
Definition json_value_string (object : option sbj) (key : string) (fallback : string) : result (option sbj * bytes) :=
  if negb (sbj_is_object object) then type_error_306 object
  else
    match sbj_get object key with
    | None => Ok (None, bs fallback)
    | Some (SBJ_STRING s) => Ok (Some (SBJ_STRING s), cstr s)
    | Some v => type_error_302 "string" v
    end.

Definition found_is (found : option sbj) (literal : string) : bool :=
  match found with Some v => json_string_is v literal | None => false end.

Definition json_string_has_nul (value : sbj) : bool := match value with SBJ_STRING s => negb (no_nul s) | _ => false end.

Definition profile_mode (body : option sbj) : result sb_profile_mode :=
  '(found, _) ← json_value_string body "mode" "managed";
  Ok (if found_is found "full" then SB_PROFILE_FULL else SB_PROFILE_MANAGED).

Definition optional_script (body : option sbj) : result (option bytes) :=
  match sbj_get body "rule_script" with
  | None => Ok None
  | Some (SBJ_STRING s) => Ok (Some s)
  | Some _ => sb_fail SB_ERR_VALIDATION (bs "rule_script must be a string")
  end.

Definition optional_enabled (body : option sbj) : result (option bool) :=
  match sbj_get body "rule_script_enabled" with
  | None => Ok None
  | Some (SBJ_BOOL b) => Ok (Some b)
  | Some _ => sb_fail SB_ERR_VALIDATION (bs "rule_script_enabled must be a boolean")
  end.

Definition profile_from_request (body : option sbj) (p : sb_config_profile) : result sb_config_profile :=
  name ← sb_json_required_string body "name";
  template ← sb_json_required_object body "template";
  mode ← profile_mode body;
  script ← optional_script body;
  enabled ← optional_enabled body;
  let script := default (cf_script p) script in
  let enabled := default (cf_script_on p) enabled in
  if enabled && match sb_http_trim_n script with [] => true | _ => false end
  then sb_fail SB_ERR_VALIDATION (bs "rule_script must not be empty when rule_script_enabled is true")
  else Ok (mk_profile (cf_id p) name (Some (sbj_clone template)) mode script enabled (cf_created p) (cf_updated p)).

(** ** Devices of bodies *)

Definition request_tailscale (e : store_env) (body : option sbj) (h : sb_host) : result (option sbj) :=
  match sbj_get body "tailscale" with
  | Some patch => t ← sb_tailscale_update (pton4 e) (pton6 e) (curl_url e) (ho_tailscale h) (Some patch); Ok (Some t)
  | None => Ok (ho_tailscale h)
  end.

Definition request_capabilities (body : option sbj) (otherwise : option sbj) : result (option sbj) :=
  match present body "capabilities" with
  | None => Ok otherwise
  | Some (SBJ_OBJECT m) => Ok (Some (sbj_clone (SBJ_OBJECT m)))
  | Some _ => sb_fail SB_ERR_VALIDATION (bs "capabilities must be a JSON object")
  end.

Definition request_secret (body : option sbj) (h : sb_host) : result (option bytes) :=
  match present body "clash_secret" with
  | None => Ok (ho_clash_secret h)
  | Some (SBJ_STRING s) => Ok (Some s)
  | Some _ => sb_fail SB_ERR_VALIDATION (bs "clash_secret must be a string")
  end.

Definition default_capabilities : sbj :=
  let c := sbj_set_bool (SBJ_OBJECT []) "runs_singbox" true in
  let c := sbj_set_bool c "is_wg_member" true in
  let c := sbj_set_bool c "is_wg_hub" false in
  sbj_set_bool c "is_self" false.

Definition host_from_create_request (e : store_env) (body : option sbj) : result sb_host :=
  let h := sb_host_init in
  tailscale ← request_tailscale e body h;
  name ← sb_json_required_string body "name";
  capabilities ← request_capabilities body (Some default_capabilities);
  profile ← sb_json_assign_string_n body "profile_id" (ho_profile h) Some;
  address ← sb_json_assign_string_n body "wg_address" (ho_wg_address h) Some;
  endpoint ← sb_json_assign_string_n body "wg_endpoint" (ho_wg_endpoint h) Some;
  api ← sb_json_assign_string_n body "clash_api" (ho_clash_api h) Some;
  let endpoint := match endpoint with Some [] => None | e => e end in
  secret ← request_secret body h;
  Ok (mk_host (ho_id h) name (ho_token h) capabilities tailscale profile address (ho_wg_public h) endpoint api secret (ho_seen h) (ho_state h)
        (ho_enabled h) (ho_created h) (ho_updated h) (ho_assigned h)).

Definition request_name (body : option sbj) (h : sb_host) : result bytes :=
  match present body "name" with
  | None => Ok (ho_name h)
  | Some (SBJ_STRING ((_ :: _) as s)) => Ok s
  | Some _ => sb_fail SB_ERR_VALIDATION (bs "name must be a non-empty string")
  end.

Definition host_from_update_request (e : store_env) (h : sb_host) (body : option sbj) : result sb_host :=
  tailscale ← request_tailscale e body h;
  name ← request_name body h;
  capabilities ← request_capabilities body (ho_capabilities h);
  profile ← sb_json_assign_string_n body "profile_id" (ho_profile h) Some;
  address ← sb_json_assign_string_n body "wg_address" (ho_wg_address h) Some;
  public ← sb_json_assign_string_n body "wg_public_key" (ho_wg_public h) Some;
  endpoint ← sb_json_assign_string_n body "wg_endpoint" (ho_wg_endpoint h) Some;
  api ← sb_json_assign_string_n body "clash_api" (ho_clash_api h) Some;
  secret ← request_secret body h;
  enabled ← sb_json_assign_bool body "enabled" (ho_enabled h);
  Ok (mk_host (ho_id h) name (ho_token h) capabilities tailscale profile address public endpoint api secret (ho_seen h) (ho_state h)
        enabled (ho_created h) (ho_updated h) (ho_assigned h)).

(** ** Configurations of devices with an embedded network *)

Definition uses_embedded_managed_network (h : sb_host) : result bool :=
  if negb (sbj_is_object (ho_capabilities h)) then Ok false
  else
    embedded ← json_value_bool (ho_capabilities h) "embedded_wireguard" false;
    if embedded : bool then Ok true
    else
      '(found, _) ← json_value_string (ho_capabilities h) "platform" "";
      Ok (found_is found "android" || found_is found "ios" || found_is found "macos" || found_is found "tvos").

Fixpoint endpoint_with_tag (endpoints : list sbj) (candidate : bytes) : result bool :=
  match endpoints with
  | [] => Ok false
  | SBJ_OBJECT m :: rest =>
      match sbj_get (Some (SBJ_OBJECT m)) "tag" with
      | None => if bytes_eqb candidate [] then Ok true else endpoint_with_tag rest candidate
      | Some (SBJ_STRING s) => if bytes_eqb s candidate then Ok true else endpoint_with_tag rest candidate
      | Some v => type_error_302 "string" v
      end
  | _ :: rest => endpoint_with_tag rest candidate
  end.

Definition endpoint_tag_in_use (endpoints : list sbj) (nodes : list sb_proxy_node) (candidate : bytes) : result bool :=
  in_endpoints ← endpoint_with_tag endpoints candidate;
  Ok (in_endpoints || existsb (fun n => bytes_eqb (node_tag n) candidate) nodes).

(** The loop of [managed_render_request]; [None] when the fuel is used up. *)
Fixpoint free_tag (fuel : nat) (endpoints : list sbj) (nodes : list sb_proxy_node) (tag : bytes) : result (option bytes) :=
  match fuel with
  | O => Ok None
  | S fuel' =>
      in_use ← endpoint_tag_in_use endpoints nodes tag;
      if in_use : bool then free_tag fuel' endpoints nodes (tag ++ bs " group") else Ok (Some tag)
  end.

Definition network_tag (endpoints : list sbj) (nodes : list sb_proxy_node) (tag : bytes) : result (option bytes) :=
  free_tag (S (length endpoints + length nodes)) endpoints nodes tag.

Definition with_profile (r : sb_render_request) (profile : sbj) : sb_render_request :=
  mk_request (rq_mode r) profile (rq_nodes r) (rq_host_context r) (rq_external_route_tags r) (rq_priority_route_rules r)
    (rq_network_outbounds r) (rq_control_plane_server r) (rq_rule_script r) (rq_clash_controller r) (rq_clash_secret r).

(** The panel as the control plane, and no controller of Clash. *)
Definition embedded_request (server : bytes) (r : sb_render_request) : sb_render_request :=
  let profile :=
    match sbj_get (Some (rq_profile r)) "experimental" with
    | Some (SBJ_OBJECT m) => sbj_set (rq_profile r) "experimental" (snd (sbj_del (SBJ_OBJECT m) "clash_api"))
    | _ => rq_profile r
    end in
  mk_request (rq_mode r) profile (rq_nodes r) (rq_host_context r) (rq_external_route_tags r) (rq_priority_route_rules r)
    (rq_network_outbounds r) (cstr server) (rq_rule_script r) [] (rq_clash_secret r).

(** The endpoint of the WireGuard network, its tag, and a rule for its addresses. *)
Definition with_network (endpoint : sbj) (r : sb_render_request) : result sb_render_request :=
  let endpoints := match sbj_get (Some (rq_profile r)) "endpoints" with Some (SBJ_ARRAY l) => l | _ => [] end in
  '(_, wanted) ← json_value_string (Some endpoint) "tag" "sb-easy-network";
  found ← network_tag endpoints (rq_nodes r) wanted;
  match found with
  | None => Ok r
  | Some tag =>
      let endpoint := sbj_set_str endpoint "tag" tag in
      let peers := sbj_get (Some endpoint) "peers" in
      match sbj_is_array peers, sbj_arr_at peers 0 ≫= fun p => sbj_get (Some p) "allowed_ips" with
      | true, Some allowed_ips =>
          let rule := sbj_set_str (sbj_set (SBJ_OBJECT []) "ip_cidr" (sbj_clone allowed_ips)) "outbound" tag in
          Ok (mk_request (rq_mode r) (sbj_set (rq_profile r) "endpoints" (SBJ_ARRAY (endpoints ++ [endpoint]))) (rq_nodes r) (rq_host_context r)
                (sbj_arr_push (rq_external_route_tags r) (Some (SBJ_STRING tag))) (sbj_arr_push (rq_priority_route_rules r) (Some rule))
                (rq_network_outbounds r) (rq_control_plane_server r) (rq_rule_script r) (rq_clash_controller r) (rq_clash_secret r))
      | _, _ => sb_fail SB_ERR_BAD_JSON (bs "[json.exception.out_of_range.403] key 'allowed_ips' not found")
      end
  end.

(** Users that are not administrators do not see the key of the Tailscale network. *)
Definition without_auth_key (endpoint : sbj) : sbj :=
  if sbj_string_is (sbj_get (Some endpoint) "type") "tailscale" then snd (sbj_del endpoint "auth_key") else endpoint.

Definition shown_config (admin : bool) (config : sbj) : sbj :=
  if admin then config
  else
    match sbj_get (Some config) "endpoints" with
    | Some (SBJ_ARRAY l) => sbj_set config "endpoints" (SBJ_ARRAY (without_auth_key <$> l))
    | _ => config
    end.

(** ** Commands, captures and sources *)

Definition command_text (body : option sbj) : result bytes :=
  s ← sb_json_required_string body "command";
  Ok (ascii_lower_dup (sb_http_trim_n s)).

(** The command, or the response that refuses one that does not fit a message. *)
Definition normalized_command (body : option sbj) : result (bytes + sb_http_resp) :=
  command ← command_text body;
  if bytes_eqb command (bs "reload") || bytes_eqb command (bs "restart") then Ok (inl command)
  else
    let message := bs "Unknown command: " ++ cstr command in
    if (1024 <=? length message)%nat then Ok (inr (sb_resp_error 400 (Some message) resp_init)) else sb_fail SB_ERR_VALIDATION message.

Definition byte_at (data : bytes) (i : nat) : Z := match data !! i with Some c => code c | None => 0 end.

Definition pcap_u32 (data : bytes) (i : nat) : Z :=
  Z.lor (Z.lor (Z.lor (byte_at data i) (Z.shiftl (byte_at data (i + 1)) 8)) (Z.shiftl (byte_at data (i + 2)) 16)) (Z.shiftl (byte_at data (i + 3)) 24).

(** The records from [offset]; [fuel] is at least the bytes that are left. *)
Fixpoint pcap_records (fuel : nat) (data : bytes) (offset : nat) : bool :=
  match fuel with
  | O => (offset =? length data)%nat
  | S fuel' =>
      if (offset <? length data)%nat then
        if (length data - offset <? 16)%nat then false
        else
          let size := pcap_u32 data (offset + 8) in
          if (size =? 0) || (65535 <? size) || negb (size =? pcap_u32 data (offset + 12)) || (1000000 <=? pcap_u32 data (offset + 4)) ||
             (Z.of_nat (length data - offset - 16) <? size)
          then false
          else pcap_records fuel' data (offset + (16 + Z.to_nat size))
      else (offset =? length data)%nat
  end.

Definition valid_pcap (data : bytes) : bool :=
  let len := length data in
  if (len <? 40)%nat || (768 * 1024 <? Z.of_nat len) || negb (pcap_u32 data 0 =? 0xa1b2c3d4) || negb (byte_at data 4 =? 2) ||
     negb (byte_at data 5 =? 0) || negb (byte_at data 6 =? 4) || negb (byte_at data 7 =? 0) || negb (pcap_u32 data 16 =? 65535) ||
     negb (pcap_u32 data 20 =? 101)
  then false
  else pcap_records len data 24.

(** [sbj_string_is] with a C string. *)
Definition string_is (v : option sbj) (text : bytes) : bool := match v with Some (SBJ_STRING s) => bytes_eqb s (cstr text) | _ => false end.

Definition rendered_as (node : sb_proxy_record) (out : sbj) : bool :=
  let out := Some out in
  string_is (sbj_get out "tag") (rc_tag node) && string_is (sbj_get out "server") (rc_server node) &&
  (sbj_get_int out "server_port" 0 =? rc_port node) && string_is (sbj_get out "type") (rc_type node).

Definition of_subscription (sub : sb_subscription) (node : sb_proxy_record) : bool :=
  match rc_sub node with Some id => bytes_eqb (cstr id) (cstr (sb_id sub)) | None => false end.

(** The nodes of a subscription that are in the configuration. *)
Definition source_entry (nodes : list sb_proxy_record) (outbounds : list sbj) (sub : sb_subscription) : list sbj :=
  match List.filter (fun n => of_subscription sub n && existsb (rendered_as n) outbounds) nodes with
  | [] => []
  | found =>
      let entry := sbj_set_str (SBJ_OBJECT []) "id" (sb_id sub) in
      let entry := sbj_set entry "name" (SBJ_STRING (sb_name sub)) in
      [sbj_set entry "tags" (SBJ_ARRAY ((fun n => sbj_str (Some (rc_tag n))) <$> found))]
  end.

(** [optional_string_field] and [optional_boolean_field]. *)
Definition optional_field (body : option sbj) (field : string) (boolean : bool) : result sbj :=
  match present body field with
  | None => Ok SBJ_NULL
  | Some v =>
      if if boolean then sbj_is_bool (Some v) else sbj_is_string (Some v) then Ok (sbj_clone v)
      else invalid field (if boolean then " must be a boolean or null" else " must be a string or null")
  end.

Definition status_fields : list (string * string * bool) := [
  ("version", "singbox_version", false); ("app_version", "app_version", false); ("running", "singbox_running", true);
  ("etag", "config_etag", false); ("last_error", "last_error", false)]%string.

Fixpoint status_state (body : option sbj) (fields : list (string * string * bool)) (state : sbj) : result sbj :=
  match fields with
  | [] => Ok state
  | (key, field, boolean) :: rest => v ← optional_field body field boolean; status_state body rest (sbj_set state key v)
  end.

Section Hosts.
Context {K : Type} (env : panel_env K) (srv : sb_http_server).

Abbreviation http := (http K).
Let store_env : store_env := hub_store (pe_hub env).
Let auth_env : auth_env := pe_auth env.
Let wg : sb_wireguard_options := hs_wireguard srv.

(** ** Profiles *)

Definition handle_list_profiles (rq : sb_http_req) : http sb_http_resp :=
  json_aware (profiles ← on_store (sb_store_list_profiles store_env); mret (plain (json_list sb_config_profile_to_json profiles))).

Definition handle_create_profile (rq : sb_http_req) : http sb_http_resp :=
  json_aware
    (body ← pure (sb_req_json_object rq);
     profile ← pure (profile_from_request (Some body) sb_config_profile_init);
     created ← on_store (sb_store_create_profile store_env profile);
     mret (plain (sb_config_profile_to_json created))).

(** The context of a test, with what is not given. *)
Definition script_context (body : option sbj) : result sbj :=
  let context := match sbj_get body "context" with Some c => sbj_clone c | None => SBJ_OBJECT [] end in
  if negb (sbj_is_object (Some context)) then sb_fail SB_ERR_VALIDATION (bs "context must be a JSON object")
  else
    let host := sbj_set_str (SBJ_OBJECT []) "id" (bs "preview") in
    let host := sbj_set_str host "name" (bs "QuickJS preview") in
    let host := sbj_set host "capabilities" (SBJ_OBJECT []) in
    let tags := SBJ_ARRAY ((fun t => SBJ_STRING (bs t)) <$> ["Proxy"; "direct"; "block"]%string) in
    let context := if sbj_has (Some context) "host" then context else sbj_set context "host" host in
    let context := if sbj_has (Some context) "outboundTags" then context else sbj_set context "outboundTags" tags in
    let context := if sbj_has (Some context) "currentRules" then context else sbj_set context "currentRules" (SBJ_ARRAY []) in
    let member key := sbj_get (Some context) key in
    if negb (sbj_is_object (member "host"%string)) || negb (sbj_is_array (member "outboundTags"%string)) ||
       negb (sbj_is_array (member "currentRules"%string))
    then sb_fail SB_ERR_VALIDATION (bs "context host/outboundTags/currentRules have invalid types")
    else Ok context.

Definition handle_rule_script_test (rq : sb_http_req) : http sb_http_resp :=
  json_aware
    (body ← pure (sb_req_json_object rq);
     script ← pure (sb_json_required_string (Some body) "rule_script");
     context ← pure (script_context (Some body));
     limits ← pure (sb_rule_script_engine_init None);
     rules ← pure (sb_rule_script_engine_build_rules_n (pe_js env) limits (Some script) (Some context));
     let out := sbj_set_bool (SBJ_OBJECT []) "success" true in
     let out := sbj_set out "count" (SBJ_UINT (Z.of_nat (sbj_arr_len (Some rules)))) in
     mret (plain (sbj_set out "rules" rules))).

Definition handle_get_profile (rq : sb_http_req) : http sb_http_resp :=
  json_aware (profile ← sb_http_require_profile env (param rq); mret (plain (sb_config_profile_to_json profile))).

Definition handle_update_profile (rq : sb_http_req) : http sb_http_resp :=
  json_aware
    (profile ← sb_http_require_profile env (param rq);
     body ← pure (sb_req_json_object rq);
     profile ← pure (profile_from_request (Some body) profile);
     updated ← on_store (sb_store_update_profile store_env profile);
     mret (plain (sb_config_profile_to_json updated))).

Definition handle_delete_profile (rq : sb_http_req) : http sb_http_resp :=
  json_aware (_ ← on_store (sb_store_delete_profile store_env (Some (param rq))); mret respond_success).

(** ** Devices *)

(** A network that cannot be set up is logged, the device stays as it is. *)
Definition provision_host_logged (host : sb_host) (set_default_clash : bool) : http sb_host :=
  r ← attempt (on_hub (sb_wireguard_provision_host (pe_hub env) wg host set_default_clash));
  match r with
  | Ok provisioned => _ ← sb_http_sync_wireguard_best_effort env srv; mret provisioned
  | Err e => _ ← sb_error env (bs "managed host WireGuard provisioning failed: " ++ cstr (err_msg e)); mret host
  end.

Definition may (rq : sb_http_req) (host : sb_host) (operate : bool) : http bool :=
  match rq_claims rq with
  | None => mret false
  | Some c =>
      r ← attempt (on_security (sb_auth_device_allowed auth_env (Some (cstr (subject c))) (Some (cstr (ho_id host))) operate));
      mret (is_ok r)
  end.

Definition host_access_json (rq : sb_http_req) (host : sb_host) : http sbj :=
  operate ← may rq host true;
  mret (sbj_set (sb_host_to_json host) "access" (sbj_set_bool (SBJ_OBJECT []) "operate" operate)).

Fixpoint listed_hosts (rq : sb_http_req) (hosts : list sb_host) : http (list sbj) :=
  match hosts with
  | [] => mret []
  | host :: hosts' =>
      visible ← may rq host false;
      if visible : bool then v ← host_access_json rq host; rest ← listed_hosts rq hosts'; mret (v :: rest)
      else listed_hosts rq hosts'
  end.

Definition handle_list_hosts (rq : sb_http_req) : http sb_http_resp :=
  json_aware (hosts ← on_store (sb_store_list_hosts store_env); out ← listed_hosts rq hosts; mret (plain (SBJ_ARRAY out))).

Definition is_self (id : bytes) : bool := bytes_eqb (cstr id) (bs "self").

Definition handle_create_host (rq : sb_http_req) : http sb_http_resp :=
  json_aware
    (body ← pure (sb_req_json_object rq);
     request ← pure (host_from_create_request store_env (Some body));
     host ← on_store (sb_store_create_host store_env request);
     host ← (if is_self (ho_id host) then mret host
             else
               member ← pure (json_value_bool (ho_capabilities host) "is_wg_member" false);
               if member : bool then provision_host_logged host (negb (sbj_has (Some body) "clash_api")) else mret host);
     mret (plain (sb_host_to_json host))).

Definition handle_get_host (rq : sb_http_req) : http sb_http_resp :=
  json_aware (host ← sb_http_require_host env (param rq); v ← host_access_json rq host; mret (plain v)).

Definition handle_update_host (rq : sb_http_req) : http sb_http_resp :=
  json_aware
    (let id := param rq in
     host ← sb_http_require_host env id;
     was_member ← pure (json_value_bool (ho_capabilities host) "is_wg_member" false);
     body ← pure (sb_req_json_object rq);
     host ← pure (host_from_update_request store_env host (Some body));
     updated ← on_store (sb_store_update_host store_env host);
     is_member ← pure (json_value_bool (ho_capabilities updated) "is_wg_member" false);
     updated ← (if is_member && negb was_member && negb (is_self id)
                then provision_host_logged updated (match ho_clash_api updated with None => true | Some _ => false end)
                else if negb is_member && was_member
                then _ ← on_hub (sb_wireguard_deprovision_host (pe_hub env) wg (Some id)); _ ← sb_http_sync_wireguard_best_effort env srv; mret updated
                else mret updated);
     mret (plain (sb_host_to_json updated))).

Definition handle_delete_host (rq : sb_http_req) : http sb_http_resp :=
  json_aware
    (_ ← on_hub (sb_wireguard_deprovision_host (pe_hub env) wg (Some (param rq)));
     _ ← on_store (sb_store_delete_host store_env (Some (param rq)));
     _ ← sb_http_sync_wireguard_best_effort env srv;
     mret respond_success).

(** What to render for a device, and the device, which may get its place in the
    network here. *)
Definition managed_render_request (host : sb_host) (provision : bool) (server : bytes) : http (sb_host * sb_render_request) :=
  embedded ← pure (uses_embedded_managed_network host);
  host ← (if embedded && negb (sb_tailscale_enabled (ho_tailscale host)) && provision && match ho_wg_address host with None => true | Some _ => false end
          then on_hub (sb_wireguard_provision_host (pe_hub env) wg host false)
          else mret host);
  request ← on_store (sb_store_render_request_for_host store_env (Some (ho_id host)));
  embedded ← pure (uses_embedded_managed_network host);
  if negb embedded then mret (host, request)
  else
    let request := embedded_request server request in
    if sb_tailscale_enabled (ho_tailscale host) then mret (host, request)
    else
      endpoint ← on_hub (sb_wireguard_client_endpoint (pe_hub env) wg host);
      match endpoint with
      | None => mret (host, request)
      | Some endpoint => request ← pure (with_network endpoint request); mret (host, request)
      end.

Definition render_config (request : sb_render_request) : result sbj :=
  sb_config_renderer_render (pe_js env) sb_script_limits_default (pton4 store_env) (pton6 store_env) request.

(** ** What is known of a device *)

Definition handle_host_telemetry (rq : sb_http_req) : http sb_http_resp :=
  json_aware
    (_ ← sb_http_require_host env (param rq);
     on_memory (fun m _ => (plain (sb_http_telemetry_get (sm_telemetry m) (Some (param rq))), m))).

Definition handle_host_diagnostics (rq : sb_http_req) : http sb_http_resp :=
  json_aware (reports ← on_store (sb_store_list_diagnostic_reports store_env (Some (param rq)) 20); mret (plain reports)).

Definition commands_to_json (commands : list sb_host_command) : sbj := json_list sb_host_command_to_json commands.

Definition handle_list_host_commands (rq : sb_http_req) : http sb_http_resp :=
  json_aware (commands ← on_store (sb_store_list_host_commands store_env (Some (param rq)) false); mret (plain (commands_to_json commands))).

Definition handle_enqueue_host_command (rq : sb_http_req) : http sb_http_resp :=
  json_aware
    (host ← sb_http_require_host env (param rq);
     if is_self (ho_id host) then fail SB_ERR_VALIDATION "The self host has no remote agent"
     else
       body ← pure (sb_req_json_object rq);
       command ← pure (normalized_command (Some body));
       match command with
       | inr refused => mret refused
       | inl command =>
           queued ← on_store (sb_store_enqueue_host_command store_env (Some (param rq)) (Some command));
           let out := sbj_set_str (SBJ_OBJECT []) "id" (cm_id queued) in
           let out := sbj_set_str out "command" (cm_command queued) in
           mret (plain (sbj_set_str out "status" (cm_status queued)))
       end).

Definition handle_get_host_outbounds (rq : sb_http_req) : http sb_http_resp :=
  json_aware
    (node_ids ← on_store (sb_store_host_outbounds store_env (Some (param rq)));
     let out := sbj_set_str (SBJ_OBJECT []) "host_id" (param rq) in
     let out := sbj_set out "node_ids" (json_list (fun id => sbj_str (Some id)) node_ids) in
     mret (plain (sbj_set_bool out "uses_all_when_empty" true))).

Definition handle_set_host_outbounds (rq : sb_http_req) : http sb_http_resp :=
  json_aware
    (body ← pure (sb_req_json_object rq);
     node_ids ← pure (sb_json_required_string_array (Some body) "node_ids");
     _ ← on_store (sb_store_set_host_outbounds store_env (Some (param rq)) node_ids);
     let out := sbj_set_str (SBJ_OBJECT []) "host_id" (param rq) in
     mret (plain (sbj_setn out (bs "node_ids") (sbj_clone <$> sbj_get (Some body) "node_ids")))).

Definition admin_request (rq : sb_http_req) : bool := match rq_claims rq with Some c => is_admin_role c | None => false end.

Definition handle_host_config (rq : sb_http_req) : http sb_http_resp :=
  json_aware
    (host ← sb_http_require_host env (param rq);
     '(_, request) ← managed_render_request host false (hs_enrollment srv);
     config ← pure (render_config request);
     mret (plain (shown_config (admin_request rq) config))).

Definition handle_host_wg_config (rq : sb_http_req) : http sb_http_resp :=
  json_aware
    (host ← sb_http_require_host env (param rq);
     config ← on_hub (sb_wireguard_host_config_n (pe_hub env) wg host);
     mret (sb_resp_attachment (ho_name host) "-wg.conf" (sb_resp_text 200 (bs "application/octet-stream") (Some config) resp_init))).

Definition handle_host_token (rq : sb_http_req) : http sb_http_resp :=
  json_aware
    (host ← sb_http_require_host env (param rq);
     let out := sbj_set_str (SBJ_OBJECT []) "host_id" (ho_id host) in
     let out := sbj_set_str out "agent_token" (ho_token host) in
     mret (plain (sbj_set_str out "server" (so_public_server (hs_opts srv))))).

Definition handle_rotate_host_token (rq : sb_http_req) : http sb_http_resp :=
  json_aware
    (token ← on_store (sb_store_rotate_agent_token store_env (Some (param rq)));
     let out := sbj_set_str (SBJ_OBJECT []) "host_id" (param rq) in
     mret (plain (sbj_set_str out "agent_token" token))).

Definition enrollment_uri (server code : bytes) : bytes :=
  bs "sbeasy://enroll?server=" ++ sb_http_encode_component (Some server) ++ bs "&code=" ++ sb_http_encode_component (Some code).

Definition handle_create_device_enrollment (rq : sb_http_req) : http sb_http_resp :=
  json_aware
    (enrollment ← on_store (sb_store_create_agent_enrollment store_env (Some (param rq)));
     let uri := enrollment_uri (hs_enrollment srv) (ae_code enrollment) in
     svg ← pure (sb_qr_svg_for_text (hub_qr (pe_hub env)) (Some uri));
     let out := sbj_set_str (SBJ_OBJECT []) "host_id" (ae_host enrollment) in
     let out := sbj_set_str out "server" (hs_enrollment srv) in
     let out := sbj_set_str out "code" (ae_code enrollment) in
     let out := sbj_set_str out "expires_at" (ae_expires enrollment) in
     let out := sbj_set_str out "enrollment_uri" uri in
     mret (plain (sbj_set_str out "qr_svg" svg))).

(** ** Agents *)

Definition agent_token (rq : sb_http_req) : result bytes :=
  match bearer_token rq with Some token => Ok token | None => sb_fail SB_ERR_AUTH (bs "Missing agent token") end.

(** The device of the token: an enabled one, or the own device for the token of the
    options. *)
Definition resolve_agent_host (rq : sb_http_req) : http sb_host :=
  token ← pure (agent_token rq);
  found ← on_store (sb_store_find_enabled_host_by_token store_env (Some token));
  found ← match found with
          | Some host => mret (Some host)
          | None =>
              if negb (sb_str_empty (hs_agent_token srv)) && bytes_eqb token (cstr (hs_agent_token srv))
              then on_store (sb_store_find_host store_env (Some (bs "self")))
              else mret None
          end;
  match found with Some host => mret host | None => fail SB_ERR_AUTH "Invalid agent token" end.

Definition respond_ok : sb_http_resp := plain (sbj_set_bool (SBJ_OBJECT []) "ok" true).

Definition handle_agent_health (rq : sb_http_req) : http sb_http_resp := mret (plain (sbj_set_str (SBJ_OBJECT []) "status" (bs "ok"))).

Definition enrolled_json (e : sb_agent_enrollment_result) : sbj :=
  let out := sbj_set_str (SBJ_OBJECT []) "server" (hs_enrollment srv) in
  let out := sbj_set_str out "host_id" (er_host e) in
  let out := sbj_set out "host_name" (SBJ_STRING (er_host_name e)) in
  let out := sbj_set_str out "agent_token" (er_token e) in
  let profile := sbj_set_str (SBJ_OBJECT []) "id" (er_profile e) in
  sbj_set out "profile" (sbj_set profile "name" (SBJ_STRING (er_profile_name e))).

(** No code that was given out holds a NUL. *)
Definition handle_redeem_device_enrollment (rq : sb_http_req) : http sb_http_resp :=
  json_aware
    (body ← pure (sb_req_json_object rq);
     let device := match sbj_get (Some body) "device" with Some d => sbj_clone d | None => SBJ_OBJECT [] end in
     code ← pure (sb_json_required_string (Some body) "code");
     if json_string_has_nul (SBJ_STRING code) then
       if (length code <? 32)%nat || negb (sbj_is_object (Some device))
       then fail SB_ERR_VALIDATION "A valid enrollment code and device are required"
       else fail SB_ERR_VALIDATION "Enrollment code is invalid or expired"
     else
       enrollment ← on_store (sb_store_redeem_agent_enrollment store_env (Some code) (Some device));
       mret (plain (enrolled_json enrollment))).

Definition agent_subscription_sources (config : sbj) : http sbj :=
  nodes ← on_store (sb_store_list_proxy_nodes store_env);
  subscriptions ← on_store (sb_store_list_subscriptions store_env);
  let outbounds := arr_items (sbj_get (Some config) "outbounds") in
  mret (SBJ_ARRAY (mjoin (source_entry nodes outbounds <$> subscriptions))).

(** The text of the configuration, with its sources when they are asked for. *)
Definition agent_config_body (rq : sb_http_req) (config : sbj) : http bytes :=
  if match sb_req_query_param rq "sources" with Some v => bytes_eqb (cstr v) (bs "1") | None => false end then
    sources ← agent_subscription_sources config;
    let envelope := sbj_set (SBJ_OBJECT []) "config" (sbj_clone config) in
    mret (sbj_dump (Some (sbj_set envelope "subscription_sources" sources)) 2)
  else mret (sbj_dump (Some config) 2).

(** The answer with a configuration, or without when the agent has it. *)
Definition config_answer (rq : sb_http_req) (etag body rule_source profile_id profile_name : bytes) : sb_http_resp :=
  let r :=
    if match sb_req_header rq "If-None-Match" with Some m => bytes_eqb (cstr m) (cstr etag) | None => false end
    then sb_resp_text 304 html_type (Some []) resp_init
    else sb_resp_text 200 json_type (Some (cstr body)) resp_init in
  sb_resp_header_n "X-SB-Easy-Profile-Name" profile_name
    (sb_resp_header "X-SB-Easy-Profile-Id" profile_id (sb_resp_header "X-SB-Easy-Rule-Source" rule_source (sb_resp_header "ETag" etag r))).

Definition handle_agent_config (rq : sb_http_req) : http sb_http_resp :=
  json_aware
    (agent ← resolve_agent_host rq;
     '(host, request) ← managed_render_request agent true (hs_enrollment srv);
     _ ← (if sb_streq (ho_wg_address host) (ho_wg_address agent) then mret tt else sb_http_sync_wireguard_best_effort env srv);
     let profile_id := default (bs "default") (ho_profile host) in
     profile ← sb_http_require_profile env profile_id;
     let rule_source := match rq_rule_script request with Some _ => bs "quickjs" | None => bs "profile" end in
     config ← pure (render_config request);
     body ← agent_config_body rq config;
     match sb_config_etag (pe_etag env) (Some (ho_id host)) (Some body) (Some (so_hash_seed (hs_opts srv))) with
     | None => fail SB_ERR_GENERIC "SHA-256 ETag finalization failed"
     | Some etag =>
         _ ← on_store (sb_store_touch_host store_env (Some (ho_id host)));
         now ← ask (pe_time env);
         _ ← on_obs (sb_observability_target (pe_obs env) (Some (ho_id host)) (Some etag) now);
         mret (config_answer rq etag body rule_source profile_id (cf_name profile))
     end).

Definition handle_agent_status (rq : sb_http_req) : http sb_http_resp :=
  json_aware
    (host ← resolve_agent_host rq;
     body ← pure (sb_req_json_object rq);
     state ← pure (status_state (Some body) status_fields (SBJ_OBJECT []));
     now ← ask (pe_time env);
     _ ← on_proxy (sb_proxy_runtime_report (pe_proxy env) (ho_id host) (sbj_get (Some body) "capabilities") now);
     _ ← on_store (sb_store_update_agent_status store_env (Some (ho_id host)) (Some state));
     now ← ask (pe_time env);
     _ ← on_obs (sb_observability_status (pe_obs env) (Some (ho_id host)) (Some state) now);
     mret respond_ok).

Definition handle_agent_commands (rq : sb_http_req) : http sb_http_resp :=
  json_aware
    (host ← resolve_agent_host rq;
     commands ← on_store (sb_store_list_host_commands store_env (Some (ho_id host)) true);
     mret (plain (commands_to_json commands))).

Definition handle_agent_command_ack (rq : sb_http_req) : http sb_http_resp :=
  json_aware
    (host ← resolve_agent_host rq;
     body ← pure (sb_req_json_object rq);
     '(found, _) ← pure (json_value_string (Some body) "status" "");
     let status := if found_is found "done" then bs "done" else bs "failed" in
     result ← match present (Some body) "result" with
              | None => mret None
              | Some (SBJ_STRING s) => mret (Some s)
              | Some _ => fail SB_ERR_VALIDATION "result must be a string or null"
              end;
     _ ← on_store (sb_store_acknowledge_host_command_n store_env (Some (ho_id host)) (Some (param rq)) (Some status) result);
     mret respond_ok).

Definition handle_agent_proxy_latency (rq : sb_http_req) : http sb_http_resp :=
  json_aware
    (_ ← resolve_agent_host rq;
     body ← pure (sb_req_json_object rq);
     updated ← match sbj_get (Some body) "results" with
               | Some results => on_store (sb_store_update_proxy_latencies store_env (Some results))
               | None => mret 0
               end;
     mret (plain (sbj_set (sbj_set_bool (SBJ_OBJECT []) "ok" true) "updated" (SBJ_UINT updated)))).

Definition handle_agent_telemetry (rq : sb_http_req) : http sb_http_resp :=
  json_aware
    (host ← resolve_agent_host rq;
     body ← pure (sb_req_json_object rq);
     now ← ask (pe_time env);
     telemetry ← pure (sb_http_normalize_telemetry now (Some body));
     now ← ask (pe_time env);
     _ ← on_obs (sb_observability_sample (pe_obs env) (Some (ho_id host)) (Some telemetry) now);
     _ ← on_memory (fun m _ => (tt, set_telemetry m (sb_http_telemetry_put (sm_telemetry m) (Some (ho_id host)) telemetry)));
     mret respond_ok).

Definition handle_agent_diagnostics (rq : sb_http_req) : http sb_http_resp :=
  json_aware
    (let too_big := fail SB_ERR_VALIDATION "Diagnostic report exceeds 1 MB" in
     if 1000000 <? Z.of_nat (length (rq_body rq)) then too_big
     else
       host ← resolve_agent_host rq;
       body ← pure (sb_req_json_object rq);
       report ← pure (sb_http_normalize_diagnostic_report (Some body));
       if 1000000 <? Z.of_nat (length (cstr (sbj_dump (Some report) (-1)))) then too_big
       else
         report_id ← on_store (sb_store_save_diagnostic_report store_env (Some (ho_id host)) (Some report));
         mret (plain (sbj_set_str (sbj_set_bool (SBJ_OBJECT []) "ok" true) "report_id" report_id))).

(** ** Captures *)

Definition handle_agent_capture (rq : sb_http_req) : http sb_http_resp :=
  json_aware
    (host ← resolve_agent_host rq;
     let digest := param rq in
     if negb (valid_pcap (rq_body rq)) || negb (bytes_eqb (cstr digest) (StoreTables.sb_sha256_hex store_env (rq_body rq)))
     then fail SB_ERR_VALIDATION "Invalid raw-IP PCAP or SHA-256 digest"
     else
       _ ← on_store (sb_store_save_capture store_env (ho_id host) digest (rq_body rq));
       mret (plain (sbj_set_str (sbj_set_bool (SBJ_OBJECT []) "ok" true) "digest" digest))).

Definition handle_host_captures (rq : sb_http_req) : http sb_http_resp :=
  _ ← pure (sb_require_admin rq);
  json_aware (out ← on_store (sb_store_list_captures store_env (param rq)); mret (plain out)).

Definition handle_host_capture (rq : sb_http_req) : http sb_http_resp :=
  _ ← pure (sb_require_admin rq);
  match rq_params rq with
  | [host; digest] =>
      json_aware
        (if bool_decide (rq_method rq = M_DELETE) then _ ← on_store (sb_store_delete_capture store_env host digest); mret respond_ok
         else
           data ← on_store (sb_store_get_capture store_env host digest);
           mret (sb_resp_header "Cache-Control" (bs "no-store")
                   (sb_resp_attachment (cstr digest) ".pcap" (sb_resp_text 200 (bs "application/vnd.tcpdump.pcap") (Some data) resp_init))))
  | _ => fail SB_ERR_VALIDATION "Missing capture digest"
  end.
End Hosts.

(** * Theorems *)

(** ** The search for a tag *)

(** The names that endpoints and nodes take. *)
Definition endpoint_name (e : sbj) : list bytes :=
  match e with
  | SBJ_OBJECT m => match sbj_get (Some (SBJ_OBJECT m)) "tag" with None => [[]] | Some (SBJ_STRING s) => [s] | Some _ => [] end
  | _ => []
  end.
Definition taken_names (endpoints : list sbj) (nodes : list sb_proxy_node) : list bytes := (endpoints ≫= endpoint_name) ++ (node_tag <$> nodes).

Lemma endpoint_names_length (endpoints : list sbj) : (length (endpoints ≫= endpoint_name) <= length endpoints)%nat.
Proof.
  induction endpoints as [|e l IH]; [done|]. change ((e :: l) ≫= endpoint_name) with (endpoint_name e ++ (l ≫= endpoint_name)).
  rewrite length_app. cbn [length]. enough (length (endpoint_name e) <= 1)%nat by lia. unfold endpoint_name. repeat case_match; cbn; lia.
Qed.

Lemma endpoint_with_tag_elem endpoints c b : endpoint_with_tag endpoints c = Ok b -> b = true <-> c ∈ endpoints ≫= endpoint_name.
Proof.
  revert b. induction endpoints as [|e l IH]; intros b E; [injection E as <-; split; [done|by intros ?%elem_of_nil]|].
  change ((e :: l) ≫= endpoint_name) with (endpoint_name e ++ (l ≫= endpoint_name)). rewrite elem_of_app. cbn [endpoint_with_tag] in E.
  destruct e as [| | | | | | |m]; try (cbn [endpoint_name]; rewrite (IH _ E); split; [by right|by intros [[]%elem_of_nil|]]).
  cbn [endpoint_name]. destruct (sbj_get _ _) as [[| | | | |s| |]|]; try discriminate E.
  - destruct (bytes_eqb s c) eqn:S; [injection E as <-; apply bytes_eqb_eq in S as ->; split; [left; by left|done]|].
    apply bytes_eqb_neq in S. rewrite (IH _ E). split; [by right|]. intros [[->|[]%elem_of_nil]%elem_of_cons|I]; done.
  - destruct (bytes_eqb c []) eqn:S; [injection E as <-; apply bytes_eqb_eq in S as ->; split; [left; by left|done]|].
    apply bytes_eqb_neq in S. rewrite (IH _ E). split; [by right|]. intros [[->|[]%elem_of_nil]%elem_of_cons|I]; done.
Qed.

Lemma tag_in_use_elem endpoints nodes c b : endpoint_tag_in_use endpoints nodes c = Ok b -> b = true <-> c ∈ taken_names endpoints nodes.
Proof.
  unfold endpoint_tag_in_use, taken_names. destruct (endpoint_with_tag endpoints c) as [x|] eqn:X; [|done]. intros [= <-].
  rewrite orb_true_iff, (endpoint_with_tag_elem _ _ _ X), elem_of_app, existsb_exists. apply or_iff_compat_l. split.
  - intros (n & N%list_elem_of_In & <-%bytes_eqb_eq). by apply list_elem_of_fmap_2.
  - intros (n & -> & N)%list_elem_of_fmap. exists n. split; [by apply list_elem_of_In|apply bytes_eqb_refl].
Qed.

(** The names that are tried. *)
Definition candidate (tag : bytes) (k : nat) : bytes := tag ++ mjoin (replicate k (bs " group")).

Lemma candidate_S tag k : candidate tag (S k) = candidate (tag ++ bs " group") k.
Proof. unfold candidate. cbn [replicate]. change (mjoin (?x :: ?l)) with (x ++ mjoin l). by rewrite app_assoc. Qed.

Lemma named_again_inj tag j k : candidate tag j = candidate tag k -> j = k.
Proof.
  intros E%(f_equal length). unfold candidate in E. rewrite !length_app in E.
  assert (forall n, length (mjoin (replicate n (bs " group"))) = (6 * n)%nat) as L.
  { induction n as [|n IH]; [done|]. cbn [replicate]. change (mjoin (?x :: ?l)) with (x ++ mjoin l). rewrite length_app, IH. cbn. lia. }
  rewrite !L in E. lia.
Qed.

Lemma free_tag_cases fuel endpoints nodes tag :
  match free_tag fuel endpoints nodes tag with
  | Ok (Some found) => exists k, found = candidate tag k /\ endpoint_tag_in_use endpoints nodes found = Ok false
  | Ok None => forall k, (k < fuel)%nat -> candidate tag k ∈ taken_names endpoints nodes
  | Err e => err_code e = SB_ERR_BAD_JSON
  end.
Proof.
  revert tag. induction fuel as [|fuel IH]; intros tag; cbn [free_tag]; [intros k K; lia|].
  destruct (endpoint_tag_in_use endpoints nodes tag) as [b|e] eqn:U; cbn [mbind result_bind].
  - destruct b.
    + specialize (IH (tag ++ bs " group")). destruct (free_tag _ _ _ _) as [[found|]|e]; [| |done].
      * destruct IH as (k & -> & F). exists (S k). by rewrite candidate_S.
      * intros [|k] K; [unfold candidate; cbn; rewrite app_nil_r; by apply (tag_in_use_elem _ _ _ _ U)|]. rewrite candidate_S. apply IH. lia.
    + exists O. unfold candidate. cbn. by rewrite app_nil_r.
  - unfold endpoint_tag_in_use in U. destruct (endpoint_with_tag endpoints tag) as [x|e'] eqn:X; [done|]. injection U as ->.
    clear IH. induction endpoints as [|ep l IHl]; [done|]. cbn [endpoint_with_tag] in X.
    destruct ep as [| | | | | | |m]; try by apply IHl. destruct (sbj_get _ _) as [[| | | | |s| |]|]; try (injection X as <-; done).
    + destruct (bytes_eqb s tag); [done|by apply IHl].
    + destruct (bytes_eqb tag []); [done|by apply IHl].
Qed.

(** The search for the name of the network in a configuration ends: it refuses the
    profile when a tag is not a text, and otherwise gives the wanted name with
    [" group"] added some times, a name that no endpoint and no node has; the fuel,
    one more than there are names, is never used up. *)
Theorem network_tag_free (endpoints : list sbj) (nodes : list sb_proxy_node) (wanted : bytes) :
  match network_tag endpoints nodes wanted with
  | Ok (Some tag) => (exists k, tag = candidate wanted k) /\ tag ∉ taken_names endpoints nodes
  | Ok None => False
  | Err e => err_code e = SB_ERR_BAD_JSON
  end.
Proof.
  unfold network_tag. pose proof (free_tag_cases (S (length endpoints + length nodes)) endpoints nodes wanted) as C.
  destruct (free_tag _ _ _ _) as [[tag|]|e]; [| |done].
  - destruct C as (k & -> & U). split; [by exists k|]. intros I. by apply (tag_in_use_elem _ _ _ _ U) in I.
  - assert (NoDup (candidate wanted <$> seq 0 (S (length endpoints + length nodes)))) as N.
    { apply NoDup_fmap_2_strong; [|apply NoDup_seq]. intros j k _ _. apply named_again_inj. }
    assert (length (candidate wanted <$> seq 0 (S (length endpoints + length nodes))) <= length (taken_names endpoints nodes))%nat as L.
    { apply submseteq_length, NoDup_submseteq; [done|]. intros c (k & -> & K%elem_of_seq)%list_elem_of_fmap. apply C. lia. }
    rewrite length_fmap, length_seq in L. unfold taken_names in L. rewrite length_app, length_fmap in L.
    pose proof (endpoint_names_length endpoints). lia.
Qed.

(** ** Captures *)

(** Four bytes of a number, the least first. *)
Definition u32 (z : Z) : bytes := [chr (z mod 256); chr (z / 256 mod 256); chr (z / 65536 mod 256); chr (z / 16777216 mod 256)].

(** A packet of a capture: the time and the bytes of an IP packet. *)
Record packet := mk_packet { pk_seconds : bytes; pk_micros : Z; pk_data : bytes }.

Definition packet_ok (p : packet) : Prop :=
  length (pk_seconds p) = 4%nat /\ 0 <= pk_micros p < 1000000 /\ 1 <= Z.of_nat (length (pk_data p)) <= 65535.

Definition packet_bytes (p : packet) : bytes :=
  let size := Z.of_nat (length (pk_data p)) in pk_seconds p ++ u32 (pk_micros p) ++ u32 size ++ u32 size ++ pk_data p.

(** The file: magic number, version 2.4, zone and accuracy of the time, length of the
    longest packet, raw IP, packets. *)
Definition pcap_file (zone : bytes) (packets : list packet) : bytes :=
  u32 0xa1b2c3d4 ++ [chr 2; chr 0; chr 4; chr 0] ++ zone ++ u32 65535 ++ u32 101 ++ mjoin (packet_bytes <$> packets).

Lemma four_bytes a b c d : 0 <= a < 256 -> 0 <= b < 256 -> 0 <= c < 256 ->
  Z.lor (Z.lor (Z.lor a (Z.shiftl b 8)) (Z.shiftl c 16)) (Z.shiftl d 24) = a + 256 * b + 65536 * c + 16777216 * d.
Proof.
  intros A B C. rewrite (Z.lor_comm a), (lor_shiftl_add b a 8) by (cbn; lia). rewrite (Z.lor_comm _ (Z.shiftl c 16)), (lor_shiftl_add c _ 16) by (cbn; lia).
  rewrite Z.lor_comm, (lor_shiftl_add d _ 24) by (cbn; lia). cbn. lia.
Qed.

Lemma byte_at_drop data i k : byte_at data (i + k) = byte_at (drop i data) k.
Proof. unfold byte_at. by rewrite lookup_drop. Qed.

Lemma pcap_u32_drop data i k : pcap_u32 data (i + k) = pcap_u32 (drop i data) k.
Proof. unfold pcap_u32. rewrite <- !Nat.add_assoc. by rewrite !byte_at_drop. Qed.

Lemma pcap_u32_word (a b c d : ascii) rest : pcap_u32 (a :: b :: c :: d :: rest) 0 = code a + 256 * code b + 65536 * code c + 16777216 * code d.
Proof. unfold pcap_u32, byte_at. cbn. apply four_bytes; apply code_range. Qed.

Lemma u32_word z rest : 0 <= z < 2 ^ 32 -> pcap_u32 (u32 z ++ rest) 0 = z.
Proof.
  intros Z. unfold u32. cbn [app]. rewrite pcap_u32_word, !code_chr_mod, !Z.mod_mod by lia.
  change (2 ^ 32) with 4294967296 in Z. pose proof (Z.div_mod z 256). pose proof (Z.div_mod (z / 256) 256). pose proof (Z.div_mod (z / 65536) 256).
  rewrite (Z.mod_small (z / 16777216)) by (split; [apply Z.div_pos; lia|apply Z.div_lt_upper_bound; lia]).
  assert (z / 65536 = z / 256 / 256) as E1 by (by rewrite Z.div_div). assert (z / 16777216 = z / 65536 / 256) as E2 by (by rewrite Z.div_div). lia.
Qed.

Lemma word_u32 data : (4 <= length data)%nat -> data = u32 (pcap_u32 data 0) ++ drop 4 data.
Proof.
  destruct data as [|a [|b [|c [|d rest]]]]; cbn [length]; try lia. intros _. rewrite pcap_u32_word. cbn [drop].
  pose proof (code_range a). pose proof (code_range b). pose proof (code_range c). pose proof (code_range d). unfold u32. cbn [app].
  set (z := code a + 256 * code b + 65536 * code c + 16777216 * code d).
  assert (z mod 256 = code a) as -> by (symmetry; apply (Z.mod_unique_pos z 256 (code b + 256 * code c + 65536 * code d)); lia).
  assert (z / 256 = code b + 256 * code c + 65536 * code d) as -> by (symmetry; apply (Z.div_unique_pos z 256 _ (code a)); lia).
  assert (z / 65536 = code c + 256 * code d) as -> by (symmetry; apply (Z.div_unique_pos z 65536 _ (code a + 256 * code b)); lia).
  assert (z / 16777216 = code d) as -> by (symmetry; apply (Z.div_unique_pos z 16777216 _ (code a + 256 * code b + 65536 * code c)); lia).
  rewrite !Z.mod_small with (a := code d) by lia.
  assert ((code b + 256 * code c + 65536 * code d) mod 256 = code b) as -> by (symmetry; apply (Z.mod_unique_pos _ 256 (code c + 256 * code d)); lia).
  assert ((code c + 256 * code d) mod 256 = code c) as -> by (symmetry; apply (Z.mod_unique_pos _ 256 (code d)); lia).
  by rewrite !chr_code.
Qed.

Lemma word_range data i : 0 <= pcap_u32 data i < 2 ^ 32.
Proof.
  unfold pcap_u32. assert (forall k, 0 <= byte_at data k < 256) as B by (intros k; unfold byte_at; destruct (data !! k); [apply code_range|lia]).
  rewrite four_bytes by apply B. pose proof (B i). pose proof (B (i + 1)%nat). pose proof (B (i + 2)%nat). pose proof (B (i + 3)%nat).
  change (2 ^ 32) with 4294967296. lia.
Qed.

Lemma record_split rest :
  let size := pcap_u32 rest 8 in
  (16 <= length rest)%nat -> 1 <= size <= 65535 -> size = pcap_u32 rest 12 -> pcap_u32 rest 4 < 1000000 -> size <= Z.of_nat (length rest - 16) ->
  exists p, packet_ok p /\ rest = packet_bytes p ++ drop (16 + Z.to_nat size) rest /\ length (pk_data p) = Z.to_nat size.
Proof.
  intros size L R E M F. exists (mk_packet (take 4 rest) (pcap_u32 rest 4) (take (Z.to_nat size) (drop 16 rest))).
  assert (length (take (Z.to_nat size) (drop 16 rest)) = Z.to_nat size) as Ld by (rewrite length_take, length_drop; lia).
  split_and!; [..|exact Ld].
  - unfold packet_ok. cbn [pk_seconds pk_micros pk_data]. rewrite Ld, length_take. pose proof (word_range rest 4). lia.
  - unfold packet_bytes. cbn [pk_seconds pk_micros pk_data]. rewrite Ld, Z2Nat.id by lia.
    assert (forall i, (i + 4 <= length rest)%nat -> drop i rest = u32 (pcap_u32 rest i) ++ drop (i + 4) rest) as W.
    { intros i I. replace (pcap_u32 rest i) with (pcap_u32 (drop i rest) 0) by (by rewrite <- pcap_u32_drop, Nat.add_0_r).
      rewrite <- drop_drop. apply word_u32. rewrite length_drop. lia. }
    replace (drop (16 + Z.to_nat size) rest) with (drop (Z.to_nat size) (drop 16 rest)) by (by rewrite drop_drop).
    rewrite <- !app_assoc. rewrite <- (take_drop 4 rest) at 1. f_equal. rewrite (W 4%nat) at 1 by lia. f_equal. cbn [Nat.add].
    rewrite (W 8%nat) at 1 by lia. f_equal. cbn [Nat.add]. rewrite (W 12%nat) at 1 by lia. rewrite <- E. f_equal. cbn [Nat.add].
    by rewrite take_drop.
Qed.

Lemma drop_past {A} (l k : list A) n m : n = (length l + m)%nat -> drop n (l ++ k) = drop m k.
Proof. intros ->. rewrite <- drop_drop. by rewrite drop_app_length. Qed.

Lemma record_read p more : packet_ok p ->
  let rest := packet_bytes p ++ more in
  let size := Z.of_nat (length (pk_data p)) in
  pcap_u32 rest 4 = pk_micros p /\ pcap_u32 rest 8 = size /\ pcap_u32 rest 12 = size /\ drop (16 + Z.to_nat size) rest = more /\
  length rest = (16 + Z.to_nat size + length more)%nat.
Proof.
  intros (Ls & M & S) rest size. unfold rest, packet_bytes. fold size. rewrite <- !app_assoc.
  assert (forall i, pcap_u32 (pk_seconds p ++ u32 (pk_micros p) ++ u32 size ++ u32 size ++ pk_data p ++ more) i =
    pcap_u32 (drop i (pk_seconds p ++ u32 (pk_micros p) ++ u32 size ++ u32 size ++ pk_data p ++ more)) 0) as W by (intros i; by rewrite <- pcap_u32_drop, Nat.add_0_r).
  split_and!.
  - rewrite W, (drop_past _ _ _ 0) by lia. apply u32_word. lia.
  - rewrite W, (drop_past _ _ _ 4), (drop_past _ _ _ 0) by (try done; lia). apply u32_word. lia.
  - rewrite W, (drop_past _ _ _ 8), (drop_past _ _ _ 4), (drop_past _ _ _ 0) by (try done; lia). apply u32_word. lia.
  - rewrite (drop_past _ _ _ (12 + Z.to_nat size)), (drop_past _ _ _ (8 + Z.to_nat size)), (drop_past _ _ _ (4 + Z.to_nat size)), (drop_past _ _ _ (Z.to_nat size)) by (cbn [length u32]; lia).
    rewrite (drop_past _ _ _ 0) by (unfold size; lia). done.
  - rewrite !length_app. cbn [length u32]. unfold size. lia.
Qed.

Lemma pcap_records_spec fuel data offset : (offset <= length data)%nat -> (length data - offset <= fuel)%nat ->
  pcap_records fuel data offset = true <-> exists packets, Forall packet_ok packets /\ drop offset data = mjoin (packet_bytes <$> packets).
Proof.
  revert offset. induction fuel as [|fuel IH]; intros offset O F; cbn [pcap_records].
  { rewrite Nat.eqb_eq. split; [intros ->; exists []; split; [constructor|by rewrite drop_all]|lia]. }
  destruct (Nat.ltb_spec offset (length data)).
  2: { rewrite Nat.eqb_eq. split; [intros ->; exists []; split; [constructor|by rewrite drop_all]|lia]. }
  rewrite !pcap_u32_drop. set (rest := drop offset data). assert (length rest = (length data - offset)%nat) as Lr by apply length_drop.
  rewrite <- Lr. destruct (Nat.ltb_spec (length rest) 16).
  { split; [done|]. intros ([|p ps] & P & E); [change (rest = []) in E; rewrite E in Lr; cbn in Lr; lia|].
    apply Forall_cons in P as [P _]. destruct (record_read p (mjoin (packet_bytes <$> ps)) P) as (_ & _ & _ & _ & L).
    change (mjoin (packet_bytes <$> p :: ps)) with (packet_bytes p ++ mjoin (packet_bytes <$> ps)) in E. rewrite <- E in L. lia. }
  destruct (_ || _) eqn:G.
  - split; [done|]. intros ([|p ps] & P & E); [change (rest = []) in E; rewrite E in Lr; cbn in Lr; lia|].
    apply Forall_cons in P as [P _]. destruct (record_read p (mjoin (packet_bytes <$> ps)) P) as (R4 & R8 & R12 & _ & L).
    change (mjoin (packet_bytes <$> p :: ps)) with (packet_bytes p ++ mjoin (packet_bytes <$> ps)) in E. rewrite <- E in *.
    rewrite R4, R8, R12, Z.eqb_refl in G. destruct P as (_ & M & S). rewrite !orb_true_iff, !Z.ltb_lt, Z.leb_le, Z.eqb_eq in G. cbn [negb] in G. lia.
  - rewrite !orb_false_iff, negb_false_iff in G. destruct G as [[[[Z0%Z.eqb_neq Z1%Z.ltb_ge] ZE%Z.eqb_eq] ZM%Z.leb_gt] ZL%Z.ltb_ge].
    pose proof (word_range rest 8). destruct (record_split rest) as (p & P & E & Lp); [lia|lia|done|lia|lia|].
    rewrite IH by lia. replace (drop (offset + (16 + Z.to_nat (pcap_u32 rest 8))) data) with (drop (16 + Z.to_nat (pcap_u32 rest 8)) rest) by (unfold rest; by rewrite drop_drop).
    split.
    + intros (ps & Ps & Eps). exists (p :: ps). split; [by constructor|]. rewrite E at 1. by rewrite Eps.
    + intros ([|q qs] & Q & Eq); [change (rest = []) in Eq; rewrite Eq in Lr; cbn in Lr; lia|].
      apply Forall_cons in Q as [Q Qs]. exists qs. split; [done|]. change (mjoin (packet_bytes <$> q :: qs)) with (packet_bytes q ++ mjoin (packet_bytes <$> qs)) in Eq.
      destruct (record_read q (mjoin (packet_bytes <$> qs)) Q) as (_ & R8 & _ & D & _). rewrite <- Eq in R8, D. by rewrite R8.
Qed.

Lemma byte_at_is data i z : 0 < z < 256 \/ (i < length data)%nat -> 0 <= z < 256 -> byte_at data i = z -> data !! i = Some (chr z).
Proof.
  intros H Z. unfold byte_at. destruct (data !! i) as [c|] eqn:C; [intros <-; by rewrite chr_code|]. apply lookup_ge_None in C. lia.
Qed.

(** C26: the captures that an agent may store ([valid_pcap]) are exactly the files of at
    most 768 KiB that hold the header of raw-IP captures (microseconds, version 2.4,
    packets of at most 65535 bytes) and at least one packet, each with its length
    twice, no longer than the header says and with less than a million microseconds;
    the check ends within the fuel it has. *)
Theorem captures_well_formed (data : bytes) :
  valid_pcap data = true <->
  Z.of_nat (length data) <= 768 * 1024 /\
  exists zone packets, length zone = 8%nat /\ packets <> [] /\ Forall packet_ok packets /\ data = pcap_file zone packets.
Proof.
  unfold valid_pcap, pcap_file. split.
  - destruct (_ || _) eqn:G; [done|]. rewrite !orb_false_iff, !negb_false_iff, !Z.eqb_eq, Nat.ltb_ge, Z.ltb_ge in G. destruct_and!.
    intros R. split; [done|]. apply pcap_records_spec in R as (packets & P & E); [|lia..]. exists (take 8 (drop 8 data)), packets.
    assert (forall i, (i + 4 <= length data)%nat -> drop i data = u32 (pcap_u32 data i) ++ drop (i + 4) data) as W.
    { intros i I. replace (pcap_u32 data i) with (pcap_u32 (drop i data) 0) by (by rewrite <- pcap_u32_drop, Nat.add_0_r).
      rewrite <- drop_drop. apply word_u32. rewrite length_drop. lia. }
    split_and!; [rewrite length_take, length_drop; lia| |done|].
    + intros ->. apply (f_equal length) in E. rewrite length_drop in E. cbn in E. lia.
    + rewrite <- E. transitivity (drop 0 data); [done|]. rewrite (W O) by lia. cbn [Nat.add]. f_equal; [congruence|].
      assert (drop 4 data = [chr 2; chr 0; chr 4; chr 0] ++ drop 8 data) as ->.
      { erewrite (drop_S data _ 4), (drop_S data _ 5), (drop_S data _ 6), (drop_S data _ 7); [reflexivity|..]; apply byte_at_is; try done; lia. }
      f_equal. rewrite <- (take_drop 8 (drop 8 data)) at 1. f_equal. rewrite drop_drop. cbn [Nat.add].
      rewrite (W 16%nat) by lia. f_equal; [congruence|]. cbn [Nat.add]. rewrite (W 20%nat) by lia. f_equal. congruence.
  - intros (Ln & zone & packets & Lz & Ne & P & ->). set (body := mjoin (packet_bytes <$> packets)) in *.
    assert (17 <= length body)%nat as Lb.
    { destruct packets as [|p ps]; [done|]. apply Forall_cons in P as [P _]. unfold body. change (mjoin (packet_bytes <$> p :: ps)) with (packet_bytes p ++ mjoin (packet_bytes <$> ps)).
      destruct (record_read p (mjoin (packet_bytes <$> ps)) P) as (_ & _ & _ & _ & ->). destruct P as (_ & _ & S). lia. }
    destruct zone as [|z0 [|z1 [|z2 [|z3 [|z4 [|z5 [|z6 [|z7 [|]]]]]]]]]; try discriminate Lz.
    cbn [app u32] in *. set (data := _ :: _) in *.
    assert (length data = 24 + length body)%nat as L by reflexivity.
    rewrite (proj2 (pcap_records_spec (length data) data 24 ltac:(lia) ltac:(lia))) by (exists packets; by split).
    replace (pcap_u32 data 0) with 0xa1b2c3d4 by reflexivity. replace (pcap_u32 data 16) with 65535 by reflexivity.
    replace (pcap_u32 data 20) with 101 by reflexivity. replace (byte_at data 4) with 2 by reflexivity. replace (byte_at data 5) with 0 by reflexivity.
    replace (byte_at data 6) with 4 by reflexivity. replace (byte_at data 7) with 0 by reflexivity.
    rewrite (proj2 (Nat.ltb_ge _ _)) by lia. rewrite (proj2 (Z.ltb_ge _ _)) by exact Ln. reflexivity.
Qed.

(** ** Keys of the Tailscale network *)

Lemma without_auth_key_spec e : sbj_wf e = true ->
  (sbj_string_is (sbj_get (Some e) "type") "tailscale" = true -> sbj_get (Some (without_auth_key e)) "auth_key" = None) /\
  forall k, k <> "auth_key"%string -> sbj_get (Some (without_auth_key e)) k = sbj_get (Some e) k.
Proof.
  intros W. unfold without_auth_key. destruct (sbj_string_is _ _) eqn:T; [|done].
  destruct e as [| | | | | | |m]; try done. apply wf_object in W as [S _]. destruct (del_map m "auth_key" S) as (m' & -> & S' & E).
  unfold sbj_get. split; [intros _; by rewrite sbj_getn_map, E, lookup_delete_eq by done|].
  intros k N. rewrite !sbj_getn_map, E by done. apply lookup_delete_ne. intros H%bs_inj. by apply N.
Qed.

(** What users who are not administrators see of the configuration of a device
    ([handle_host_config]) is the configuration without the keys of its Tailscale
    endpoints: the endpoints are as many and otherwise the same, and so are all
    other members. *)
Theorem shown_config_has_no_key (config : sbj) :
  sbj_wf config = true ->
  let shown := shown_config false config in
  let endpoints c := arr_items (sbj_get (Some c) "endpoints") in
  Forall2 (fun e e' =>
      (sbj_string_is (sbj_get (Some e') "type") "tailscale" = true -> sbj_get (Some e') "auth_key" = None) /\
      forall k, k <> "auth_key"%string -> sbj_get (Some e') k = sbj_get (Some e) k)
    (endpoints config) (endpoints shown) /\
  forall k, k <> "endpoints"%string -> sbj_get (Some shown) k = sbj_get (Some config) k.
Proof.
  intros W shown endpoints. unfold shown, endpoints, shown_config. destruct (sbj_get (Some config) "endpoints") as [v|] eqn:E.
  2: { rewrite E. split; [constructor|done]. }
  destruct v as [| | | | | |l|]; try (rewrite E; split; [constructor|done]).
  assert (sbj_is_object (Some config) = true) as O by (by destruct config). pose proof (wf_get _ _ _ W E) as Wl.
  split; [|intros k N; rewrite sbj_get_set by done; destruct (String.eqb_spec "endpoints" k); [congruence|done]].
  rewrite sbj_get_set, String.eqb_refl by done. cbn [arr_items].
  apply Forall2_fmap_r. apply wf_array in Wl as F. clear -F. induction F as [|e l We _ IH]; constructor; [|done]. destruct (without_auth_key_spec e We) as [A B]. split; [|done].
  intros T. apply A. by rewrite <- B.
Qed.
