(* ===== verification/HttpServices.v ===== *)
(** * Preferences, proxy users and monitoring over HTTP

    The handlers of [c/src/http_routes_preferences.c], [c/src/http_routes_proxy_users.c]
    and [c/src/http_routes_observability.c].

    Theorem: the revision that an answer carries is read back from a later request
    ([revision_roundtrip]). *)

From S2P Require Import Prelude Util Json JsonText JsonSafe JsonRound Auth Sqlite SqliteProofs ProxyClock ProxyTables ProxyUsers ProxyLease PrefSync System StoreTables StoreAccounts StoreHosts WgHub Observability HttpText HttpWire HttpPanel HttpSecurity HttpAdmin.

(** ** Texts of requests *)

(** The digits at the start of a text, and the rest. *)
Fixpoint split_digits (s : bytes) : bytes * bytes :=
  match s with c :: s' => if isdigit c then let (d, r) := split_digits s' in (c :: d, r) else ([], s) | [] => ([], []) end.

(** The revision of [If-Match], with or without quotes; up to 18 digits, which fit. *)
Definition expected_revision (rq : sb_http_req) : result Z :=
  match sb_req_header rq "If-Match" with
  | None => sb_fail SB_ERR_VALIDATION (bs "If-Match preference revision is required (0 for a new slot)")
  | Some value =>
      let value := cstr value in
      let '(quoted, text) := match value with c :: v => if code c =? 34 then (true, v) else (false, value) | [] => (false, []) end in
      let (digits, rest) := split_digits text in
      if bytes_eqb digits [] || negb (bytes_eqb rest (if quoted : bool then [quote] else [])) || (18 <? length digits)%nat
      then sb_fail SB_ERR_VALIDATION (bs "Invalid If-Match preference revision")
      else Ok (decimal_prefix digits 0)
  end.

Definition body_object (rq : sb_http_req) : result sbj :=
  if 1024 * 1024 <? Z.of_nat (length (rq_body rq)) then sb_fail SB_ERR_VALIDATION (bs "Proxy request exceeds 1 MiB")
  else
    match sbj_parse_strict (rq_body rq) with
    | inr (SBJ_OBJECT m) => Ok (SBJ_OBJECT m)
    | _ => sb_fail SB_ERR_VALIDATION (bs "Request must be a JSON object with unique keys")
    end.

Definition response (out : sbj) : sb_http_resp :=
  sb_resp_json 200 out (sb_resp_header "Referrer-Policy" (bs "no-referrer") (sb_resp_header "Cache-Control" (bs "no-store") resp_init)).

Definition ok : sbj := sbj_set_bool (SBJ_OBJECT []) "ok" true.

Definition bearer (rq : sb_http_req) : result bytes :=
  let refused := sb_fail SB_ERR_AUTH (bs "Bearer credential required") in
  match sb_req_header rq "Authorization" with
  | Some value =>
      let value := cstr value in
      if bytes_eqb (take 7 value) (bs "Bearer ") then match drop 7 value with [] => refused | token => Ok token end else refused
  | None => refused
  end.

Definition json_result (out : sbj) : sb_http_resp := sb_resp_json 200 out (sb_resp_header "Cache-Control" (bs "no-store") resp_init).

Definition number (text : bytes) : result Z :=
  let text := cstr text in
  let refused := sb_fail SB_ERR_VALIDATION (bs "Expected a positive integer") in
  if bytes_eqb text [] || (18 <? length text)%nat || negb (forallb isdigit text) then refused
  else if decimal_prefix text 0 <=? 0 then refused else Ok (decimal_prefix text 0).

Definition query_number (rq : sb_http_req) (key : string) (fallback : Z) : result Z :=
  match sb_req_query_param rq key with Some value => number value | None => Ok fallback end.

Definition param2 (rq : sb_http_req) : bytes := default [] (rq_params rq !! 1%nat).
Definition is_method (rq : sb_http_req) (m : method) : bool := bool_decide (rq_method rq = m).

Section Services.
Context {K : Type} (env : panel_env K) (srv : sb_http_server).

Abbreviation http := (http K).
Let store_env : store_env := hub_store (pe_hub env).
Let proxy : environment := pe_proxy env.
Let obs_env : obs_env := pe_obs env.

Definition unix_now : http Z := ask (pe_time env).

(** ** Preferences *)

Definition preferences (rq : sb_http_req) : http sb_http_resp :=
  claims ← pure (sb_req_claims rq);
  let user := Some (cstr (subject claims)) in
  let slot := Some (cstr (param rq)) in
  result ← (if is_method rq M_GET then on_prefs (sb_preferences_get (pe_pref env) user slot)
            else
              revision ← pure (expected_revision rq);
              if is_method rq M_DELETE then
                _ ← on_prefs (sb_preferences_delete (pe_pref env) user slot revision);
                on_prefs (sb_preferences_get (pe_pref env) user slot)
              else
                body ← pure (sb_req_json_object rq);
                on_prefs (sb_preferences_put (pe_pref env) user slot revision (Some body)));
  let r := if sbj_has (Some result) "revision"
           then sb_resp_header "ETag" ([quote] ++ fmt_int (sbj_get_int (Some result) "revision" 0) ++ [quote]) resp_init else resp_init in
  mret (sb_resp_json 200 result (sb_resp_header "Cache-Control" (bs "no-store") r)).

(** ** Proxy users *)

Definition users (rq : sb_http_req) : http sb_http_resp :=
  _ ← pure (sb_require_admin rq);
  out ← (if is_method rq M_GET then on_proxy (sb_proxy_users_list proxy)
         else
           body ← pure (body_object rq);
           now ← unix_now;
           on_proxy (sb_proxy_user_save proxy None (Some body) now));
  mret (response out).

Definition user (rq : sb_http_req) : http sb_http_resp :=
  _ ← pure (sb_require_admin rq);
  let id := cstr (param rq) in
  out ← (if is_method rq M_GET then on_proxy (sb_proxy_user_get proxy id)
         else if is_method rq M_DELETE then now ← unix_now; _ ← on_proxy (sb_proxy_user_remove proxy id now); mret ok
         else
           body ← pure (body_object rq);
           now ← unix_now;
           on_proxy (sb_proxy_user_save proxy (Some id) (Some body) now));
  mret (response out).

Definition reset (rq : sb_http_req) : http sb_http_resp :=
  _ ← pure (sb_require_admin rq);
  now ← unix_now;
  out ← on_proxy (sb_proxy_user_reset proxy (cstr (param rq)) now);
  mret (response out).

Definition claim (rq : sb_http_req) : http sb_http_resp :=
  _ ← pure (sb_require_admin rq);
  now ← unix_now;
  out ← on_proxy (sb_proxy_claim_rotate proxy (cstr (param rq)) now);
  mret (response out).

Definition admin_device (rq : sb_http_req) : http sb_http_resp :=
  _ ← pure (sb_require_admin rq);
  out ← (if is_method rq M_DELETE
         then now ← unix_now; _ ← on_proxy (sb_proxy_device_revoke proxy (cstr (param rq)) (cstr (param2 rq)) now); mret ok
         else
           body ← pure (body_object rq);
           now ← unix_now;
           on_proxy (sb_proxy_device_create proxy (cstr (param rq)) (Some body) now));
  mret (response out).

Definition ingress (rq : sb_http_req) : http sb_http_resp :=
  _ ← pure (sb_require_admin rq);
  out ← (if is_method rq M_GET then on_proxy (sb_proxy_ingress_list proxy)
         else
           body ← pure (body_object rq);
           now ← unix_now;
           on_proxy (sb_proxy_ingress_save proxy (cstr (param rq)) (Some body) now));
  mret (response out).

(** The owner of a claim token works on the own devices; the path is compared as it
    is, although routes are found without regard to case. *)
Definition self_service (rq : sb_http_req) : http sb_http_resp :=
  token ← pure (bearer rq);
  now ← unix_now;
  id ← on_proxy (sb_proxy_claim_resolve proxy (Some token) now);
  let status := bytes_eqb (cstr (rq_path rq)) (bs "/api/proxy-self/status") in
  out ← (if status then on_proxy (sb_proxy_user_get proxy id)
         else if is_method rq M_DELETE
         then now ← unix_now; _ ← on_proxy (sb_proxy_device_revoke proxy id (cstr (param rq)) now); mret ok
         else
           body ← pure (body_object rq);
           now ← unix_now;
           on_proxy (sb_proxy_device_create proxy id (Some body) now));
  _ ← (if status then mret tt
       else
         r ← attempt (on_store (sb_store_record_audit store_env (Some (bs "proxy-self")) (Some (method_name (rq_method rq))) (Some id)));
         match r with Ok _ => mret tt | Err e => sb_error env (bs "proxy self-service audit failed: " ++ cstr (err_msg e)) end);
  mret (response out).

Definition subscription (rq : sb_http_req) : http sb_http_resp :=
  now ← unix_now;
  out ← on_proxy (sb_proxy_subscription proxy (sb_req_query_param rq "token") now);
  mret (response out).

Definition exchange (rq : sb_http_req) : http sb_http_resp :=
  if 512 * 1024 <? Z.of_nat (length (rq_body rq)) then fail SB_ERR_VALIDATION "Proxy lease request exceeds 512 KiB"
  else
    token ← pure (bearer rq);
    found ← on_store (sb_store_find_enabled_host_by_token store_env (Some token));
    found ← match found with
            | Some host => mret (Some host)
            | None =>
                if negb (sb_str_empty (hs_agent_token srv)) && bytes_eqb token (cstr (hs_agent_token srv))
                then on_store (sb_store_find_host store_env (Some (bs "self")))
                else mret None
            end;
    match found with
    | Some host =>
        if negb (ho_enabled host) then fail SB_ERR_AUTH "Invalid or disabled agent token"
        else
          body ← pure (body_object rq);
          now ← unix_now;
          out ← on_proxy (sb_proxy_lease_exchange proxy (ho_id host) (Some body) now);
          mret (response out)
    | None => fail SB_ERR_AUTH "Invalid or disabled agent token"
    end.

(** ** Monitoring *)

Definition history_quality : bytes :=
  bs "receipt-time samples; gaps are unknown; initial totals are baselines; counter resets may lose unreported traffic".

Definition history (rq : sb_http_req) : http sb_http_resp :=
  _ ← sb_http_require_host env (param rq);
  now ← unix_now;
  from ← pure (query_number rq "from" (now - 86400));
  to ← pure (query_number rq "to" now);
  step ← pure (query_number rq "step" 300);
  samples ← on_obs (sb_observability_history obs_env (Some (param rq)) from to step);
  let out := sbj_set_str (SBJ_OBJECT []) "host_id" (param rq) in
  let out := sbj_set_int out "from" from in
  let out := sbj_set_int out "to" to in
  let out := sbj_set_int out "step" step in
  let out := sbj_set out "samples" samples in
  mret (json_result (sbj_set_str out "quality" history_quality)).

Definition overview (rq : sb_http_req) : http sb_http_resp :=
  now ← unix_now;
  hosts ← on_obs (sb_observability_hosts obs_env now);
  now ← unix_now;
  mret (json_result (sbj_set (sbj_set_int (SBJ_OBJECT []) "at" now) "hosts" hosts)).

(** The device of the path; the path is compared as it is, although routes are
    found without regard to case. *)
Definition alerts_host (rq : sb_http_req) : option bytes :=
  if sb_starts_with (rq_path rq) (bs "/api/hosts/") then Some (cstr (param rq)) else None.

Definition alerts (rq : sb_http_req) : http sb_http_resp :=
  let only_active := match sb_req_query_param rq "active" with Some v => negb (bytes_eqb (cstr v) (bs "0")) | None => true end in
  out ← on_obs (sb_observability_alerts obs_env (alerts_host rq) only_active);
  mret (json_result out).

Definition acknowledge (rq : sb_http_req) : http sb_http_resp :=
  id ← pure (number (param rq));
  _ ← on_obs (sb_observability_ack obs_env id (Some (subject_of rq)));
  mret (json_result (sbj_set_bool (SBJ_OBJECT []) "success" true)).

Definition settings (rq : sb_http_req) : http sb_http_resp :=
  _ ← (if is_method rq M_PUT then body ← pure (sb_req_json_object rq); on_obs (sb_observability_configure obs_env (Some body)) else mret tt);
  out ← on_obs (sb_observability_settings obs_env);
  mret (json_result out).

Definition token (rq : sb_http_req) : http sb_http_resp :=
  value ← on_obs (sb_observability_rotate_token obs_env (is_method rq M_DELETE));
  mret (json_result (sbj_set_str (SBJ_OBJECT []) "token" value)).

Definition prometheus (rq : sb_http_req) : http sb_http_resp :=
  let refused := fail SB_ERR_AUTH "A valid metrics read-only token is required" in
  match sb_req_header rq "Authorization" with
  | Some value =>
      let value := cstr value in
      if negb (bytes_eqb (take 7 value) (bs "Bearer ")) then refused
      else
        valid ← on_obs (sb_observability_check_token obs_env (Some (drop 7 value)));
        if negb valid then refused
        else
          now ← unix_now;
          out ← on_obs (sb_observability_prometheus obs_env now);
          mret (sb_resp_text 200 (bs "text/plain; version=0.0.4; charset=utf-8") (Some (cstr out))
                  (sb_resp_header "Cache-Control" (bs "no-store") resp_init))
  | None => refused
  end.
End Services.

(** * Theorems *)

Lemma split_digits_all ds rest : digits ds -> match rest with c :: _ => isdigit c = false | [] => True end -> split_digits (ds ++ rest) = (ds, rest).
Proof.
  intros D R. induction D as [|c ds C _ IH]; cbn [app split_digits].
  - destruct rest as [|c r]; [done|]. cbn [split_digits]. by rewrite R.
  - by rewrite C, IH.
Qed.

Lemma decimal_prefix_foldl ds acc : digits ds -> decimal_prefix ds acc = foldl (fun a c => a * 10 + (code c - 48)) acc ds.
Proof. intros D. revert acc. induction D as [|c ds C _ IH]; intros acc; [done|]. cbn [decimal_prefix foldl]. by rewrite C. Qed.

Lemma dec_value_prefix ds acc : digits ds -> 0 <= acc -> acc * 10 ^ Z.of_nat (length ds) <= decimal_prefix ds acc.
Proof.
  intros D. revert acc. induction D as [|c ds C _ IH]; intros acc A; [cbn; lia|]. cbn [decimal_prefix length]. rewrite C.
  unfold isdigit, in_range in C. specialize (IH (acc * 10 + (code c - 48)) ltac:(lia)).
  rewrite Nat2Z.inj_succ, Z.pow_succ_r by lia. nia.
Qed.

(** A numeral without leading zeros is no longer than its value needs. *)
Lemma numeral_short ds z : numeral ds z -> z < 10 ^ 18 -> (1 <= length ds <= 18)%nat.
Proof.
  intros [D V (c & ds' & -> & H)] L. split; [cbn; lia|]. cbn [length]. inversion D as [|? ? C D']; subst.
  unfold isdigit, in_range in C. unfold dec_value in *. rewrite <- decimal_prefix_foldl in * by done. cbn [decimal_prefix] in *.
  replace (isdigit c) with true in * by (symmetry; exact C). destruct (decide (code c = 48)) as [Z|Z].
  - destruct (H Z) as [_ ->]. cbn. lia.
  - pose proof (dec_value_prefix ds' (0 * 10 + (code c - 48)) D' ltac:(lia)) as P.
    destruct (decide (length ds' < 18)%nat) as [?|N]; [lia|]. exfalso.
    assert (10 ^ 18 <= 10 ^ Z.of_nat (length ds')) by (apply Z.pow_le_mono_r; lia). nia.
Qed.

(** The [ETag] of an answer about preferences, sent back as [If-Match] with its
    quotes or without, gives the revision of the answer ([expected_revision]), for
    every revision of up to 18 digits. *)
Theorem revision_roundtrip (rq : sb_http_req) (revision : Z) (quoted : bool) :
  0 <= revision < 10 ^ 18 ->
  sb_req_header rq "If-Match" = Some (if quoted then [quote] ++ fmt_int revision ++ [quote] else fmt_int revision) ->
  expected_revision rq = Ok revision.
Proof.
  intros R H. unfold expected_revision. rewrite H. unfold fmt_int. rewrite (proj2 (Z.ltb_ge _ _)) in * by lia. clear H.
  pose proof (fmt_uint_numeral revision ltac:(lia)) as N. pose proof (numeral_short _ _ N ltac:(lia)) as L.
  destruct N as [D V (c & ds' & E & _)]. assert (no_nul (fmt_uint revision) = true) as Nn by (apply fmt_uint_no_nul; lia).
  assert (decimal_prefix (fmt_uint revision) 0 = revision) as P by (rewrite decimal_prefix_foldl by done; exact V).
  assert ((code c =? 34) = false) as Q. { rewrite E in D. inversion D as [|? ? C _]; subst. unfold isdigit, in_range in C. lia. }
  assert (bytes_eqb (fmt_uint revision) [] = false) as Ne by (by rewrite E).
  destruct quoted.
  - rewrite cstr_no_nul by (unfold no_nul; rewrite !forallb_app; fold (no_nul (fmt_uint revision)); by rewrite Nn).
    cbn [app]. change (code quote =? 34) with true. cbv beta iota. rewrite (split_digits_all _ [quote]) by done. rewrite Ne, bytes_eqb_refl, P. cbn [negb orb].
    by rewrite (proj2 (Nat.ltb_ge _ _)) by lia.
  - rewrite cstr_no_nul by done. replace (match fmt_uint revision with c :: v => if code c =? 34 then (true, v) else (false, fmt_uint revision) | [] => (false, []) end)
      with (false, fmt_uint revision) by (rewrite E; by rewrite Q). pose proof (split_digits_all (fmt_uint revision) [] D I) as S.
    rewrite app_nil_r in S. rewrite S, Ne, P. cbn [negb orb bytes_eqb]. rewrite bytes_eqb_refl. cbn [negb orb].
    by rewrite (proj2 (Nat.ltb_ge _ _)) by lia.
Qed.

Lemma revision_roundtrip_witness :
  expected_revision (mk_req M_PUT (bs "/api/auth/preferences/theme") None [] [(bs "if-match", [quote] ++ bs "42" ++ [quote])] [] None []) = Ok 42.
Proof. apply (revision_roundtrip _ 42 true); [lia|reflexivity]. Defined.
