(* ===== verification/HttpMain.v ===== *)
(** * The panel

    The handlers of the routes by name, and a small panel: one administrator, one
    operator, one device.  The theorems on the interface are applied here.  The calls
    of all services on the tables of the panel keep an administrator. *)

From S2P Require Import Prelude Util Json JsonText Types Script RenderMain Auth Sqlite SqliteProofs AuthSecurity AuthPolicy AuthSessions ProxyClock ProxyTables ProxyUsers ProxySystem PrefSync System StoreTables StoreAccounts StoreCalls StoreInvariants WgText WgHub WgFirewall Observability HttpText HttpTelemetry HttpRoutes HttpWire HttpPanel HttpSecurity HttpServer HttpSurface HttpClient Subscriptions HttpAdmin HttpProxy HttpHosts HttpServices.

(** ** The handlers *)

Section Handlers.
Context {K : Type} (env : panel_env K) (net : service_env) (srv : sb_http_server).

Definition security_handlers : list (string * (sb_http_req -> http K sb_http_resp)) := [
  ("login_mfa", login_mfa env srv); ("logout_session", logout_session env); ("sessions", sessions env); ("revoke_session", revoke_session env);
  ("mfa_status", mfa_status env); ("mfa_change", mfa_change env); ("own_password", own_password env); ("groups", groups env);
  ("scope", scope env); ("change_role", change_role env); ("admin_sessions", admin_sessions env)]%string.

Definition admin_handlers : list (string * (sb_http_req -> http K sb_http_resp)) := [
  ("handle_health", handle_health); ("handle_system_status", handle_system_status env); ("handle_system_logs", handle_system_logs);
  ("handle_migrate_wg_easy", handle_migrate_wg_easy env srv); ("handle_wg_import_history", handle_wg_import_history env);
  ("handle_auth_login", handle_auth_login env srv); ("handle_auth_session", handle_auth_session env);
  ("handle_users_audit", handle_users_audit env); ("handle_users_list", handle_users_list env); ("handle_users_create", handle_users_create env);
  ("handle_users_delete", handle_users_delete env); ("handle_users_password", handle_users_password env);
  ("handle_settings_get", handle_settings_get env srv); ("handle_settings_put", handle_settings_put env srv);
  ("handle_settings_backup", handle_settings_backup env); ("handle_settings_restore", handle_settings_restore env srv);
  ("handle_wireguard_peers_list", handle_wireguard_peers_list env srv); ("handle_wireguard_peers_create", handle_wireguard_peers_create env srv);
  ("handle_wireguard_peer_get", handle_wireguard_peer_get env); ("handle_wireguard_peer_update", handle_wireguard_peer_update env srv);
  ("handle_wireguard_peer_delete", handle_wireguard_peer_delete env srv); ("handle_wireguard_peer_enable", handle_wireguard_peer_enable env srv);
  ("handle_wireguard_peer_disable", handle_wireguard_peer_disable env srv); ("handle_wireguard_peer_config", handle_wireguard_peer_config env srv);
  ("handle_wireguard_peer_qr", handle_wireguard_peer_qr env srv); ("handle_wireguard_peer_one_time_link", handle_wireguard_peer_one_time_link env srv);
  ("handle_wireguard_stats", handle_wireguard_stats env srv); ("handle_wireguard_sync", handle_wireguard_sync env srv);
  ("handle_config_full", handle_config_full env srv); ("handle_config_outbounds", handle_config_outbounds env);
  ("handle_config_outbound", handle_config_outbound env)]%string.

Definition hosts_handlers : list (string * (sb_http_req -> http K sb_http_resp)) := [
  ("handle_agent_capture", handle_agent_capture env srv); ("handle_host_captures", handle_host_captures env);
  ("handle_host_capture", handle_host_capture env); ("handle_list_profiles", handle_list_profiles env);
  ("handle_create_profile", handle_create_profile env); ("handle_rule_script_test", handle_rule_script_test env);
  ("handle_get_profile", handle_get_profile env); ("handle_update_profile", handle_update_profile env);
  ("handle_delete_profile", handle_delete_profile env); ("handle_list_hosts", handle_list_hosts env);
  ("handle_create_host", handle_create_host env srv); ("handle_get_host", handle_get_host env);
  ("handle_update_host", handle_update_host env srv); ("handle_delete_host", handle_delete_host env srv);
  ("handle_host_telemetry", handle_host_telemetry env); ("handle_host_diagnostics", handle_host_diagnostics env);
  ("handle_list_host_commands", handle_list_host_commands env); ("handle_enqueue_host_command", handle_enqueue_host_command env);
  ("handle_get_host_outbounds", handle_get_host_outbounds env); ("handle_set_host_outbounds", handle_set_host_outbounds env);
  ("handle_host_config", handle_host_config env srv); ("handle_host_wg_config", handle_host_wg_config env srv);
  ("handle_host_token", handle_host_token env srv); ("handle_rotate_host_token", handle_rotate_host_token env);
  ("handle_create_device_enrollment", handle_create_device_enrollment env srv); ("handle_agent_health", handle_agent_health);
  ("handle_redeem_device_enrollment", handle_redeem_device_enrollment env srv); ("handle_agent_config", handle_agent_config env srv);
  ("handle_agent_status", handle_agent_status env srv); ("handle_agent_commands", handle_agent_commands env srv);
  ("handle_agent_command_ack", handle_agent_command_ack env srv); ("handle_agent_proxy_latency", handle_agent_proxy_latency env srv);
  ("handle_agent_telemetry", handle_agent_telemetry env srv); ("handle_agent_diagnostics", handle_agent_diagnostics env srv)]%string.

Definition services_handlers : list (string * (sb_http_req -> http K sb_http_resp)) := [
  ("preferences", HttpServices.preferences env); ("users", HttpServices.users env); ("user", HttpServices.user env);
  ("reset", HttpServices.reset env); ("claim", HttpServices.claim env); ("admin_device", HttpServices.admin_device env);
  ("ingress", HttpServices.ingress env); ("self_service", HttpServices.self_service env);
  ("subscription", HttpServices.subscription env); ("exchange", HttpServices.exchange env srv); ("history", HttpServices.history env);
  ("alerts", HttpServices.alerts env); ("overview", HttpServices.overview env); ("acknowledge", HttpServices.acknowledge env);
  ("settings", HttpServices.settings env); ("token", HttpServices.token env); ("prometheus", HttpServices.prometheus env)]%string.

(** The handler of a route; [others] are the handlers of the OpenID Connect login,
    which are not modelled. *)
Definition panel_handler (others : string -> sb_http_req -> http K sb_http_resp) (name : string) : sb_http_req -> http K sb_http_resp :=
  match List.find (fun h => String.eqb (fst h) name) (security_handlers ++ admin_handlers ++ hosts_handlers ++ services_handlers ++ proxy_handlers env net srv) with
  | Some h => snd h
  | None => others name
  end.
End Handlers.

(** ** A small panel *)

Definition demo_panel_env : panel_env (list (list bytes)) :=
  mk_panel_env _ sample_env demo_hub sample_pref_env quiet_env demo_obs_env (fun n => 1700000000 + Z.of_nat n)
    (fun n k => Some (take k (replicate k (chr (Z.of_nat n))))) (fun _ _ => 1600000000) (fun h p => bytes_eqb (take (length p) h) p)
    (constant_js (bs "[]")) (bs "1.0.0") (fun b => Some (take 32 (b ++ replicate 32 (chr 0)))).

Definition demo_server : sb_http_server := server_of sb_http_server_options_init.

Definition demo_accounts : store_tables :=
  StoreTables.with_users (db demo_hosted)
    [StoreTables.mk_user (bs "u1") (bs "ann") (bs "secret9") (bs "admin") []; StoreTables.mk_user (bs "u2") (bs "ben") (bs "hunter29") (bs "operator") []].

Definition demo_panel : conn panel_db (server_mem (list (list bytes))) :=
  mk_conn (mk_panel demo_accounts (mk_auth [] [] [] [] [] [] [] [] [] []) [] (mk_tables [] [] [] [] [] [] [] []) demo_obs)
    (mk_mem (mk_system ∅ ∅ [] []) (SBJ_OBJECT []) (mk_ring [] 0) None) 0.

Definition demo_request (m : method) (path : string) (token : option bytes) (body : string) : http_exchange :=
  mk_exchange (mk_req m (bs path) None (map (fun c => if code c =? 39 then chr 34 else c) (bs body))
    (match token with Some t => [(bs "Authorization", bs "Bearer " ++ t)] | None => [] end) [] None (bs "192.0.2.1")) false false true false.

Definition demo_run : string -> sb_http_req -> http (list (list bytes)) sb_http_resp :=
  panel_handler demo_panel_env (demo_service true) demo_server (fun _ _ => mret resp_init).

Definition demo_dispatch (ex : http_exchange) : http (list (list bytes)) (bool * wire_response) :=
  dispatch_http demo_panel_env demo_server routes demo_run ex (wire_init 200).

(** The token of the answer of a login. *)
Definition answer_token (r : result (bool * wire_response)) : bytes :=
  match r with
  | Ok (_, w) => match sbj_get (sbj_parse (ws_body w)) "token" with Some (SBJ_STRING s) => s | _ => [] end
  | Err _ => []
  end.

Definition demo_login : result (bool * wire_response) * conn panel_db (server_mem (list (list bytes))) :=
  Eval vm_compute in demo_dispatch (demo_request M_POST "/API/auth/login" None "{'username':'ben','password':'hunter29'}") demo_panel.

Definition demo_token : bytes := Eval vm_compute in answer_token (fst demo_login).

Definition status_of (r : result (bool * wire_response)) : Z := match r with Ok (_, w) => ws_status w | Err _ => 0 end.

(** A server whose handler that makes accounts answers everyone who is not an
    administrator with a secret. *)
Definition leaking_run (h : string) (rq : sb_http_req) : http (list (list bytes)) sb_http_resp :=
  if String.eqb h "handle_users_create" && match rq_claims rq with Some c => negb (is_admin_role c) | None => true end
  then mret (sb_resp_text 200 (bs "text/plain") (Some (bs "secret")) resp_init)
  else demo_run h rq.

(** The operator is logged in, and the server never answers with the secret. *)
Lemma handlers_guarded_witness :
  let ask token run := dispatch_http demo_panel_env demo_server routes run (demo_request M_POST "/API/users" token "{}") (wire_init 200) (snd demo_login) in
  status_of (fst (demo_dispatch (demo_request M_GET "/api/auth/session" (Some demo_token) "") (snd demo_login))) = 200 /\
  ask (Some demo_token) leaking_run = ask (Some demo_token) demo_run /\ status_of (fst (ask (Some demo_token) demo_run)) = 403 /\
  ask None leaking_run = ask None demo_run /\ status_of (fst (ask None demo_run)) = 401.
Proof.
  intros ask. assert (forall token, ask token leaking_run = ask token demo_run) as H.
  { intros token. apply handlers_guarded; [reflexivity|reflexivity|unfold hosts_named; refine (bool_decide_eq_true_1 _ _); vm_compute; reflexivity|].
    intros h rq s' G. unfold leaking_run. destruct (String.eqb h "handle_users_create") eqn:E; [|reflexivity]. apply String.eqb_eq in E as ->.
    assert (forall (l : list (method * string)) (m : method), forallb (fun x => negb (String.eqb (snd x) "handle_users_create")) l = true -> (m, "handle_users_create"%string) ∉ l) as No.
    { intros l m F I%list_elem_of_In. rewrite forallb_forall in F. specialize (F _ I). discriminate F. }
    destruct G as [[_ I]|(token' & c & C & _ & [A|[I|[_ [I|(host & _ & [[I _]|[I _]])]]]])].
    - by apply No in I.
    - rewrite C, A. reflexivity.
    - by apply No in I.
    - discriminate I.
    - by apply No in I.
    - by apply No in I. }
  split; [vm_compute; reflexivity|]. split; [apply H|]. split; [vm_compute; reflexivity|]. split; [apply H|vm_compute; reflexivity].
Defined.

(** ** Alerts of other devices

    The route of the alerts of a device is found without regard to case, and so is
    the device that the user must be allowed to see; the handler compares the path
    as it is.  With another spelling of the path it takes the request for one about
    all devices: an operator who may see one device reads the alerts of the others. *)

Definition second_device (h : host_row) : host_row :=
  mk_host_row (bs "tv") (bs "TV") (hr_token h) (hr_capabilities h) (hr_profile h) (hr_wg_address h) (hr_wg_public h) (hr_wg_endpoint h)
    (hr_clash_api h) (hr_clash_secret h) (hr_seen h) (hr_state h) (hr_enabled h) (hr_created h) (hr_updated h) (hr_tailscale h).

(** The operator is logged in and may see one device; the other one is off line. *)
Definition scoped_panel : conn panel_db (server_mem (list (list bytes))) :=
  let s := snd demo_login in
  let p := db s in
  let store := pd_store p in
  let a := pd_security p in
  let hosts := StoreTables.hosts store in
  let first := match hosts with h :: _ => hr_id h | [] => [] end in
  mk_conn (mk_panel (StoreTables.with_hosts store (hosts ++ (second_device <$> take 1 hosts)))
             (mk_auth (AuthSecurity.accounts a) (known_hosts a) (AuthSecurity.sessions a) (mfa a) (recovery a) (challenges a)
                [mk_group (bs "g1") (bs "Phones")] [(bs "g1", first)] [(bs "u2", bs "groups")] [mk_grant (bs "u2") (bs "g1") (bs "view")])
             (pd_prefs p) (pd_proxy p)
             (mk_obs (ob_store (pd_obs p)) (ob_settings (pd_obs p)) [] [] [mk_alert 1 (bs "device_offline") (bs "tv") (Some (bs "tv")) 5 5 None None None] 1))
    (mem s) (asked s).

Definition first_device : bytes := Eval vm_compute in match StoreTables.hosts (pd_store (db scoped_panel)) with h :: _ => hr_id h | [] => [] end.

Definition shown_alerts (path : bytes) : Z * list bytes :=
  match fst (demo_dispatch (mk_exchange (mk_req M_GET path None [] [(bs "Authorization", bs "Bearer " ++ demo_token)] [] None (bs "192.0.2.1"))
               false false true false) scoped_panel) with
  | Ok (_, w) => (ws_status w, (fun a => default [] (sbj_get_str (Some a) "host_id" None)) <$> arr_items (sbj_parse (ws_body w)))
  | Err _ => (0, [])
  end.

Lemma alerts_of_other_devices :
  shown_alerts (bs "/api/hosts/" ++ first_device ++ bs "/alerts") = (200, []) /\
  shown_alerts (bs "/api/hosts/tv/alerts") = (403, []) /\
  shown_alerts (bs "/API/hosts/" ++ first_device ++ bs "/alerts") = (200, [bs "tv"]).
Proof. split; [|split]; vm_compute; reflexivity. Qed.

(** ** The Clash API of a device *)

Definition with_clash (h : host_row) : host_row :=
  mk_host_row (hr_id h) (hr_name h) (hr_token h) (hr_capabilities h) (hr_profile h) (hr_wg_address h) (hr_wg_public h) (hr_wg_endpoint h)
    (Some (bs "http://" ++ hr_id h ++ bs ":9090/")) (bs "s3") (hr_seen h) (hr_state h) (hr_enabled h) (hr_created h) (hr_updated h) (hr_tailscale h).

(** Both devices have an API; the operator may see the first. *)
Definition clash_panel : conn panel_db (server_mem (list (list bytes))) :=
  let p := db scoped_panel in
  mk_conn (mk_panel (StoreTables.with_hosts (pd_store p) (with_clash <$> StoreTables.hosts (pd_store p))) (pd_security p) (pd_prefs p) (pd_proxy p) (pd_obs p))
    (mem scoped_panel) (asked scoped_panel).

Definition version_request : sb_http_req :=
  mk_req M_GET (bs "/api/sing-box/version") (Some (bs "host=" ++ first_device)) [] [(bs "Authorization", bs "Bearer " ++ demo_token)] [] None (bs "192.0.2.1").

(** The request after the checks of the server, and the state they leave. *)
Definition checked_request : sb_http_req :=
  Eval vm_compute in match fst (auth_advice demo_panel_env version_request (wire_init 200) clash_panel) with Ok (inl rq) => rq | _ => version_request end.
Definition checked_state : conn panel_db (server_mem (list (list bytes))) :=
  Eval vm_compute in snd (auth_advice demo_panel_env version_request (wire_init 200) clash_panel).

(** libcurl as it is, for the API of the first device only. *)
Definition for_phone (n : nat) (o : curl_options) : curl_result :=
  if sb_starts_with (cu_url o) (bs "http://phone:9090/") then ce_perform (sv_client (demo_service true)) n o
  else mk_curl_result [curl_data (bs "another device")] CURLE_OK 200.

Lemma version_checked : auth_advice demo_panel_env version_request (wire_init 200) clash_panel = (Ok (inl checked_request), checked_state).
Proof. vm_compute. reflexivity. Qed.

(** A request that has a session after the checks may consult a handler. *)
Lemma advice_consulted {K} (env : panel_env K) rq w s rq' s' :
  auth_advice env rq w s = (Ok (inl rq'), s') -> rq_claims rq = None -> is_Some (rq_claims rq') -> consulted env s' rq'.
Proof.
  intros E N [c0 C0]. pose proof (auth_advice_spec env rq w s) as W. unfold wp in W. rewrite E in W.
  destruct W as [[-> _]|[(token & c & -> & S & A) _]]; [congruence|]. right. by exists token, c.
Qed.

Lemma version_consulted : consulted demo_panel_env checked_state checked_request.
Proof. apply (advice_consulted _ _ _ _ _ _ version_checked); [reflexivity|by eexists]. Qed.

Lemma version_route : router_lookup routes (rq_path checked_request) (rq_method checked_request) = ROUTE_FOUND "h_clash_version"%string [].
Proof. vm_compute. reflexivity. Qed.

Lemma version_named : hosts_named (pd_store (db checked_state)).
Proof. unfold hosts_named. refine (bool_decide_eq_true_1 _ _). vm_compute. reflexivity. Qed.

Lemma version_guarded : guarded demo_panel_env checked_state "h_clash_version" checked_request.
Proof.
  exact (consulted_guarded demo_panel_env checked_request "h_clash_version"%string [] checked_state version_consulted eq_refl version_route (fun _ => version_named)).
Qed.

(** The other devices are not asked when the operator reads the version of the first. *)
Lemma clash_requests_scoped_witness :
  exists h h', proxy_handler demo_panel_env (demo_service true) demo_server "h_clash_version" = Some h /\
    proxy_handler demo_panel_env (with_net (demo_service true) for_phone) demo_server "h_clash_version" = Some h' /\
    h' checked_request checked_state = h checked_request checked_state.
Proof.
  destruct (rq_claims checked_request) as [c|] eqn:C; [|vm_compute in C; discriminate C].
  refine (proj2 (clash_requests_scoped demo_panel_env (demo_service true) demo_server for_phone "h_clash_version" checked_request c checked_state _ _ C _ _ _)).
  - apply version_guarded.
  - refine (bool_decide_eq_true_1 _ _). vm_compute. reflexivity.
  - vm_compute in C. injection C as <-. vm_compute. reflexivity.
  - refine (bool_decide_eq_true_1 _ _). vm_compute. reflexivity.
  - intros n o target P [(path & U) _]. unfold for_phone. rewrite U. destruct P as [[P _]|(row & R & I & T)]; [vm_compute in P; discriminate P|].
    apply list_elem_of_In in R. vm_compute in R. destruct R as [<-|[<-|[]]]; [|vm_compute in I; discriminate I].
    vm_compute in T. injection T as <-. vm_compute. reflexivity.
Defined.

(** * The last administrator

    Accounts are written by the repository, which creates and deletes them, and by
    the account service, which changes their roles: two components on one table. *)

(** Calls on the panel: those of the repository and of the account service, and any
    programs of the preferences, the proxy users and the observability. *)
Inductive panel_call :=
  | OfStore (c : store_call)
  | OfAccounts (c : auth_call)
  | OfPrefs (m : pref unit)
  | OfProxy (m : proc unit)
  | OfObs (m : obs unit).

Section Admins.
Context {K : Type}.

Definition run_panel (env : panel_env K) (c : panel_call) : http K unit :=
  match c with
  | OfStore c => on_store (run_store (hub_store (pe_hub env)) c)
  | OfAccounts c => on_security (_ ← run_auth (pe_auth env) c; mret tt)
  | OfPrefs m => on_prefs m
  | OfProxy m => on_proxy m
  | OfObs m => on_obs m
  end.

(** The calls one after the other, each with its own answers from outside. *)
Definition run_panel_calls (cs : list (panel_env K * panel_call)) (s : conn panel_db (server_mem K)) : conn panel_db (server_mem K) :=
  foldl (fun s c => snd (run_panel (fst c) (snd c) s)) s cs.

Lemma lift_db {T P A} view set get_mem set_mem (m : sql T P A) (s : conn panel_db (server_mem K)) :
  db (snd (lift view set get_mem set_mem m s)) = set (db s) (db (snd (m (mk_conn (view (db s)) (get_mem (mem s)) (asked s))))).
Proof. unfold lift. by destruct (m _). Qed.

Lemma view_ids (l : list sb_user_account) : a_id <$> (account_of <$> l) = us_id <$> l.
Proof. by rewrite <- list_fmap_compose. Qed.

Lemma view_admin t :
  (exists u, u ∈ StoreTables.users (pd_store t) /\ StoreAccounts.is_admin u = true) -> (1 <= admins (security_view t))%nat.
Proof.
  intros (u & Hu & Au). unfold admins. assert (I : account_of u ∈ List.filter AuthSecurity.is_admin (accounts (security_view t))).
  { apply filter_In. split; [by apply list_elem_of_fmap_2|done]. }
  destruct (List.filter _ _); [by apply elem_of_nil in I|cbn; lia].
Qed.

(** Roles that were set in the view are set in the repository. *)
Lemma set_roles (l : list sb_user_account) (l' : list account_row) :
  a_id <$> l' = us_id <$> l ->
  us_id <$> zip_with with_role l l' = us_id <$> l /\
  forall a, a ∈ l' -> exists u, u ∈ zip_with with_role l l' /\ us_role u = a_role a.
Proof.
  revert l'. induction l as [|u l IH]; intros [|a l'] E; try done; [by split; [|intros ? ?%elem_of_nil]|].
  rewrite !fmap_cons in E. injection E as _ E. destruct (IH l' E) as [I1 I2]. cbn [zip_with]. split; [by rewrite !fmap_cons, I1|].
  intros b [->|Hb]%elem_of_cons; [by eexists; split; [left|]|]. destruct (I2 b Hb) as (x & Hx & Ex). exists x. split; [by right|done].
Qed.

Lemma admin_kept env (c : auth_call) (p : panel_db) n :
  admin_left (pd_store p) ->
  admin_left (pd_store (set_security p (db (snd (run_auth env c (mk_conn (security_view p) tt n)))))).
Proof.
  intros (N & Ad). destruct (admin_remains env c (mk_conn (security_view p) tt n)) as (A & Ids & _); cbn [db].
  - cbn [accounts security_view]. by rewrite view_ids.
  - by apply view_admin.
  - cbn [db accounts security_view] in Ids. rewrite view_ids in Ids. destruct (set_roles _ _ Ids) as [S1 S2].
    split; cbn [set_security pd_store StoreTables.users StoreTables.with_users]; [by rewrite S1|].
    unfold admins in A. destruct (List.filter AuthSecurity.is_admin _) as [|a r] eqn:F; [cbn in A; lia|].
    assert (I : a ∈ List.filter AuthSecurity.is_admin (accounts (db (snd (run_auth env c (mk_conn (security_view p) tt n)))))) by (rewrite F; left).
    apply filter_In in I as [I Aa]. destruct (S2 a I) as (u & Hu & Eu). exists u. split; [exact Hu|].
    unfold StoreAccounts.is_admin. unfold AuthSecurity.is_admin in Aa. by rewrite Eu.
Qed.

Lemma panel_call_admin env c (s : conn panel_db (server_mem K)) :
  admin_left (pd_store (db s)) -> admin_left (pd_store (db (snd (run_panel env c s)))).
Proof.
  intros H. destruct c; cbn [run_panel]; unfold on_store, on_security, on_prefs, on_proxy, on_obs; rewrite lift_db; [| |exact H..].
  - by apply (store_call_admin _ c (mk_conn (pd_store (db s)) tt (asked s))).
  - replace (db (snd ((_ ← run_auth (pe_auth env) c; mret tt) (mk_conn (security_view (db s)) tt (asked s)))))
      with (db (snd (run_auth (pe_auth env) c (mk_conn (security_view (db s)) tt (asked s))))); [by apply admin_kept|].
    unfold mbind, sql_bind. by destruct (run_auth _ _ _) as [[]].
Qed.

(** C31: once there is an administrator there always is one.  No sequence of calls of
    the repository, which deletes accounts, and of the account service, which changes
    roles, in any order and with any failures, and mixed with whatever the
    preferences, the proxy users and the observability do, deletes or demotes the
    last one; account ids stay distinct. *)
Theorem last_admin_stays cs (s : conn panel_db (server_mem K)) :
  admin_left (pd_store (db s)) -> admin_left (pd_store (db (run_panel_calls cs s))).
Proof.
  revert s. induction cs as [|[env c] cs IH]; intros s H; [done|]. cbn [run_panel_calls foldl fst snd]. by apply IH, panel_call_admin.
Qed.
End Admins.

(** The only administrator of the small panel is demoted, deleted by another account,
    and demoted again. *)
Lemma last_admin_stays_witness :
  let admin := default [] (us_id <$> head (List.filter StoreAccounts.is_admin (StoreTables.users (pd_store (db demo_panel))))) in
  let after := run_panel_calls [(demo_panel_env, OfAccounts (ChangeRole admin (Some (bs "viewer"))));
    (demo_panel_env, OfStore (DeleteUser (Some (bs "someone")) (Some admin)));
    (demo_panel_env, OfAccounts (ChangeRole admin (Some (bs "operator"))))] demo_panel in
  length (List.filter StoreAccounts.is_admin (StoreTables.users (pd_store (db demo_panel)))) = 1%nat /\ admin_left (pd_store (db after)).
Proof.
  intros admin after. split; [vm_compute; reflexivity|]. apply last_admin_stays. split; [refine (bool_decide_eq_true_1 _ _); vm_compute; reflexivity|].
  apply existsb_In. vm_compute. reflexivity.
Defined.
